(* ===== verification/_CoqProject ===== *)
-Q . S2P
Prelude.v
Mem.v
StringC.v
Net.v
Kalloc.v
Eth.v
Ip4.v
Page.v
Vm.v
KState.v
VirtioNet.v
Arp.v
Ports.v
Udp.v
UdpSend.v
Tcp.v
Socket.v
NetRx.v
VirtioInit.v
Locks.v
Bio.v
Log.v
VirtioDisk.v
Fs.v
FsPath.v
FsTxn.v
FsAlloc.v
FsInode.v
FsFile.v
FsDir.v
FsRefs.v
Pipe.v
User.v
Ulib.v
Grep.v
Utils.v
Umalloc.v
Sh.v
Sched.v
SchedInv.v
SchedProps.v
Ring.v
Uart.v
Console.v
Sys.v
File.v
Syscall.v
Proc.v
Exec.v
Sysfile.v
Sysproc.v
FileInv.v
FileCalls.v
FileProcs.v
FileSys.v
