(* ===== verification/Prelude.v ===== *)
(** * A verification development for the xv6 network stack (RISC-V)

    The program is xv6-riscv with user threads and a network stack: a kernel
    (src/xv6-riscv/src/kernel, the stack in kernel/sys) and user programs
    (src/xv6-riscv/src/user).  The development is a shallow embedding: every C
    function is a Rocq definition of the same name on an explicit state, and the
    theorems are about those definitions.  Paths below are under
    src/xv6-riscv/src/.

    ** How C is modelled

    - Integers are [Z]; [u8], [u16], [u32], [u64] and [s32] (this file) are the
      wrap-around of assignments to narrower objects.
    - [M S A] (this file) is the monad of a function on state [S].  A run ends
      with a result ([Ret]), in panic() ([Panic]), with an access the machine
      would trap or that uses memory already freed ([Fault]), asleep on a channel
      ([Blocked]), or in a loop that does not end within its fuel ([Spin]).
      Theorems that say a function returns prove [Ret]; it is never assumed.
    - Memory (Mem.v) is one flat array of bytes with little-endian loads and
      stores.  Packets, page tables, user pages, trap frames and the free list
      are bytes in it, at the offsets of the C structs.  Kernel tables that no
      code views as bytes (itable, proc[], ftable, bcache, sockets, pipes) are
      lists, functions or finite maps of records, and pointers into them are
      indices; [null] is the null pointer.
    - Loops with a count are structural on it.  Other loops take fuel computed
      from their arguments so that it suffices (the bytes left, the pages of a
      range, the entries of a table); the exceptions are strlen() of an
      unterminated string and busy waits for an external event, for which the
      fuel is part of the statement.
    - A component's operation runs on the state of a larger one through a [Lens]
      (Page.v) or [zoom] (Sys.v).

    ** The parts and the files

    Memory: StringC.v is kernel/string.c; Kalloc.v is kernel/kalloc.c with the
    free list and reference counters in memory, and the abstract page pool that
    clients use through Page.v; Vm.v is kernel/vm.c and the Sv39 macros.

    Network: Net.v (sys/net.c), Eth.v (sys/eth.c), Ip4.v (sys/ip4.c), Arp.v
    (sys/arp.c), Ports.v and Socket.v (sys/socket.c), Udp.v and UdpSend.v
    (sys/udp.c), Tcp.v (sys/tcp.c), VirtioNet.v, VirtioInit.v and NetRx.v
    (virtio_net.c and the receive path).  Their state [kst] is in KState.v.  The
    network device takes the chains it has been notified of, in its own time, and
    reads a frame from memory when it takes its chain.

    Locks and processes: Locks.v is spinlock.c on several CPUs and sleeplock.c;
    Sched.v has the scheduler, sleep, wakeup, fork, exit (of processes, threads
    and init), wait and kill of proc.c as threads on any number of CPUs with
    interrupts, one C statement a step, with sections under the locks these
    functions call others for; SchedInv.v and SchedProps.v are its invariant and
    theorems.

    Storage: VirtioDisk.v (virtio_disk.c with the device as an environment),
    Bio.v (bio.c), Log.v (log.c with crashes), Fs.v (fs.c).  FsTxn.v is what the
    layers below promise to fs.c inside a transaction; FsPath.v, FsAlloc.v,
    FsInode.v, FsFile.v and FsDir.v verify fs.c against it; FsRefs.v says which
    references to inodes each operation takes and gives back.

    Devices: Ring.v, Uart.v (uart.c, printf.c) and Console.v (console.c).

    System calls: Sys.v is the state of the kernel around a call, which joins
    file system, network, console, pipes, files and processes; Pipe.v (pipe.c),
    File.v (file.c, pipealloc), Syscall.v (arguments of syscall.c, descriptors of
    sysfile.c), Proc.v (proc.c with memory, files and threads), Exec.v (exec.c),
    Sysfile.v (the calls on paths), Sysproc.v (sysproc.c and the dispatch).
    FileInv.v, FileCalls.v, FileProcs.v and FileSys.v are about reference counts
    across all of them.

    User programs: User.v (the calls as a program sees them, user/printf.c),
    Ulib.v (ulib.c), Umalloc.v (umalloc.c), Sh.v (the parser of sh.c), Grep.v
    (grep.c), Utils.v (cat.c, wc.c, echo.c).

    ** What the theorems show

    - Storage: a crash at any disk write, also during recovery, leaves a
      transaction done or not begun; log_write() does not overrun the log; the
      cache is a plain array of blocks; the disk driver completes every request
      once and moves its block in the direction asked for; the block allocator is
      that of a finite set, a file an array of bytes, a directory a finite map, a
      path the list of its elements, each also across crashes; an inode in use
      has one counted entry in memory.
    - Concurrency: no panic (but for init's exit), no null pointer, no process on
      two CPUs, exclusive locks, no lost wakeup and no deadlock in any interleaving of the process
      functions as long as no process creates a thread; a pipe delivers every
      byte in order and both sides end.
    - System calls: from boot on, whatever calls the processes make, the counts
      of files and inodes are the numbers of references to them.
    - Devices: line editing refines an abstract terminal; the UART driver loses
      no byte; frames reach the network device once and in order.
    - Network: checksums, addresses and headers round trip; a datagram sent on
      one host is read on another; the ARP cache is a bounded map; refused calls
      change nothing.
    - Memory: from boot on, at the addresses the kernel is linked at, kalloc(),
      kfree() and add_page_reference() implement a page pool, although the
      counters lie outside the array declared for them; copyin() and copyout()
      move exactly the user's bytes.
    - User programs: malloc() and free() keep blocks apart, their contents as the
      program left them and the free ring in order; the shell's parser is its
      grammar; grep prints the matching lines; wc counts; printed numbers are
      read back.

    A theorem with hypotheses is followed by a witness, an instance on a concrete
    state.

    ** Bounds and assumptions

    The memory model is sequentially consistent.  A block write to the disk is
    atomic, as the log assumes.  The disk and the network device behave as the
    virtio specification says.  In FileSys.v a call runs to its return before the
    next begins: interleavings inside a call are Sched.v's and Pipe.v's subject.
    Sched.v has no create_thread(): a thread's exit() passes a null pointer to
    iput(), so that the safety theorem is false of a process that has threads.  The
    network functions run on one CPU; what interrupts do during a busy wait is
    part of the state.  Addresses the linker or compiler chooses (end, the
    trampoline, locals whose address is taken) are parameters or fields of the
    state.

    ** Not modelled

    - Assembly and privileged state: entry.S, start.c, main.c, swtch.S (a switch
      of threads in Sched.v), kernelvec.S, trampoline.S, the page-table register,
      and of trap.c all but the timer interrupt's yield; plic.c only writes
      registers of the interrupt controller.
    - kvmmake() and kvminithart(): the kernel's own page table, which the model
      of memory takes to be the identity.
    - list.c and ramdisk.c, which nothing calls, and dhcp.c, whose functions are
      empty.
    - mkfs/mkfs.c, a program of the host.
    - user/sh.c's runcmd() and main(), init, ls, ln, rm, mkdir, kill and the
      other small programs, which are sequences of system calls, and the test
      programs. *)

From Stdlib Require Import ZArith Lia Bool.
From stdpp Require Export base numbers list gmap.
From stdpp Require Import strings.
#[global] Set Default Goal Selector "!".
#[export] Set Warnings "-notation-overridden".

#[global] Open Scope Z_scope.

(** ** Machine integers

    A C integer of width [w] is a [Z] kept in range by the wrap-around
    functions below; every assignment to a narrower object goes through one
    of them. *)
Definition u8 (x : Z) : Z := x mod 2 ^ 8.
Definition u16 (x : Z) : Z := x mod 2 ^ 16.
Definition u32 (x : Z) : Z := x mod 2 ^ 32.
Definition u64 (x : Z) : Z := x mod 2 ^ 64.

(** Conversion to a signed 32-bit [int] (two's complement, as gcc defines it). *)
Definition s32 (x : Z) : Z := (x + 2 ^ 31) mod 2 ^ 32 - 2 ^ 31.

(** [dlia] is [lia] with division and modulo by constants understood. *)
Ltac dlia := unfold u8, u16, u32, u64, s32 in *; Z.to_euclidean_division_equations; lia.

(** [zb] decides the integer comparisons of the goal that [lia] can settle. *)
Ltac zb :=
  repeat match goal with
  | |- context [?a <? ?b] =>
      first [rewrite (proj2 (Z.ltb_lt a b)) by lia | rewrite (proj2 (Z.ltb_ge a b)) by lia]
  | |- context [?a <=? ?b] =>
      first [rewrite (proj2 (Z.leb_le a b)) by lia | rewrite (proj2 (Z.leb_gt a b)) by lia]
  | |- context [?a =? ?b] =>
      first [rewrite (proj2 (Z.eqb_eq a b)) by lia | rewrite (proj2 (Z.eqb_neq a b)) by lia]
  end.

Lemma u8_range x : 0 <= u8 x < 2 ^ 8.
Proof. by apply Z.mod_pos_bound. Qed.
Lemma u16_range x : 0 <= u16 x < 2 ^ 16.
Proof. by apply Z.mod_pos_bound. Qed.
Lemma u32_range x : 0 <= u32 x < 2 ^ 32.
Proof. by apply Z.mod_pos_bound. Qed.
Lemma u64_range x : 0 <= u64 x < 2 ^ 64.
Proof. by apply Z.mod_pos_bound. Qed.

Lemma u8_small x : 0 <= x < 2 ^ 8 -> u8 x = x.
Proof. apply Z.mod_small. Qed.
Lemma u16_small x : 0 <= x < 2 ^ 16 -> u16 x = x.
Proof. apply Z.mod_small. Qed.
Lemma u32_small x : 0 <= x < 2 ^ 32 -> u32 x = x.
Proof. apply Z.mod_small. Qed.
Lemma u64_small x : 0 <= x < 2 ^ 64 -> u64 x = x.
Proof. apply Z.mod_small. Qed.
Lemma s32_small x : - 2 ^ 31 <= x < 2 ^ 31 -> s32 x = x.
Proof. unfold s32. intros. rewrite Z.mod_small; lia. Qed.

Create Rewrite HintDb width.
#[export] Hint Rewrite u8_small u16_small u32_small u64_small s32_small using lia : width.

(** ** Bit operations as arithmetic *)

Lemma lor_shiftl_add a b n :
  0 <= n -> 0 <= a < 2 ^ n -> Z.lor a (Z.shiftl b n) = a + b * 2 ^ n.
Proof.
  intros Hn Ha.
  assert (Z.land a (Z.shiftl b n) = 0) as Hd.
  { apply Z.bits_inj'. intros i Hi. rewrite Z.land_spec, Z.bits_0.
    destruct (Z.lt_ge_cases i n).
    - rewrite Z.shiftl_spec_low by lia. apply andb_false_r.
    - rewrite <- (Z.mod_small a (2 ^ n)) by lia.
      rewrite Z.mod_pow2_bits_high by lia. done. }
  rewrite <- Z.lxor_lor, <- Z.add_nocarry_lxor by done.
  by rewrite Z.shiftl_mul_pow2.
Qed.

Lemma land_ones_mod a n : 0 <= n -> Z.land a (2 ^ n - 1) = a mod 2 ^ n.
Proof. intros. rewrite <- Z.land_ones by lia. f_equal. rewrite Z.ones_equiv. lia. Qed.

(** ** Outcomes of kernel code

    A kernel function runs on a state [S].  [Panic] is a call of panic();
    [Fault] is a memory access outside the objects the kernel owns (a null or
    freed pointer, an index past an array); [Blocked c] is a sleep() on
    channel [c] that nothing has woken; [Spin] is a busy-wait whose condition
    has not come true in the events the environment supplied. *)
Inductive outcome (S A : Type) : Type :=
  | Ret (a : A) (s : S)
  | Panic (msg : string) (s : S)
  | Fault (s : S)
  | Blocked (chan : Z) (s : S)
  | Spin (s : S).
Arguments Ret {S A} a s.
Arguments Panic {S A} msg s.
Arguments Fault {S A} s.
Arguments Blocked {S A} chan s.
Arguments Spin {S A} s.

Definition M (S A : Type) : Type := S -> outcome S A.

Definition ret {S A} (a : A) : M S A := fun s => Ret a s.
Definition bind {S A B} (c : M S A) (k : A -> M S B) : M S B := fun s =>
  match c s with
  | Ret a s' => k a s'
  | Panic msg s' => Panic msg s'
  | Fault s' => Fault s'
  | Blocked ch s' => Blocked ch s'
  | Spin s' => Spin s'
  end.
Definition gets {S A} (f : S -> A) : M S A := fun s => Ret (f s) s.
Definition modify {S} (f : S -> S) : M S unit := fun s => Ret tt (f s).
Definition panic {S A} (msg : string) : M S A := fun s => Panic msg s.
Definition fault {S A} : M S A := fun s => Fault s.
Definition when {S} (b : bool) (c : M S unit) : M S unit := if b then c else ret tt.

Declare Scope kernel_scope.
Delimit Scope kernel_scope with kernel.
Notation "x <- c ;; k" := (bind c (fun x => k))
  (at level 100, c at next level, right associativity) : kernel_scope.
Notation "'let*' p ':=' c 'in' k" := (bind c (fun y => match y with p => k end))
  (at level 100, p pattern, c at next level, right associativity) : kernel_scope.
Notation "c ;;; k" := (bind c (fun _ => k))
  (at level 100, right associativity) : kernel_scope.

#[global] Arguments bind : simpl never.

Lemma bind_Ret {S A B} (c : M S A) (k : A -> M S B) s a s' :
  c s = Ret a s' -> bind c k s = k a s'.
Proof. unfold bind. by intros ->. Qed.

Lemma bind_inv {S A B} (c : M S A) (k : A -> M S B) s b s' :
  bind c k s = Ret b s' -> exists a s1, c s = Ret a s1 /\ k a s1 = Ret b s'.
Proof. unfold bind. destruct (c s); try done. eauto. Qed.

(** What a run returns, without its state. *)
Definition returns {S A} (o : outcome S A) : option A := match o with Ret a _ => Some a | _ => None end.
Lemma returns_Ret {S A} (o : outcome S A) a : returns o = Some a -> exists s, o = Ret a s.
Proof. destruct o; try done. intros [= ->]. eauto. Qed.

Lemma bind_gets {S A B} (f : S -> A) (k : A -> M S B) s : bind (gets f) k s = k (f s) s.
Proof. done. Qed.

Lemma bind_assoc {S A B C} (c : M S A) (f : A -> M S B) (g : B -> M S C) s :
  bind (bind c f) g s = bind c (fun a => bind (f a) g) s.
Proof. unfold bind. by destruct (c s). Qed.

(** ** Lists *)

Lemma list_lookup_Some_lt {A} (l : list A) i : (i < length l)%nat -> exists x, l !! i = Some x.
Proof. intros. by apply lookup_lt_is_Some_2. Qed.

(** Array access with a [Z] index, as C has it: out of range is a fault. *)
Definition znth {A} (l : list A) (i : Z) : option A :=
  if 0 <=? i then l !! Z.to_nat i else None.
Definition zset {A} (l : list A) (i : Z) (x : A) : option (list A) :=
  if (0 <=? i) && (i <? Z.of_nat (length l)) then Some (<[Z.to_nat i := x]> l) else None.

Lemma znth_Some_range {A} (l : list A) i x :
  znth l i = Some x -> 0 <= i < Z.of_nat (length l).
Proof.
  unfold znth. destruct (Z.leb_spec 0 i); [|done].
  intros H'%lookup_lt_Some. lia.
Qed.

Lemma znth_is_Some {A} (l : list A) i :
  0 <= i < Z.of_nat (length l) -> exists x, znth l i = Some x.
Proof.
  intros. unfold znth. destruct (Z.leb_spec 0 i); [|lia].
  apply list_lookup_Some_lt. lia.
Qed.

Lemma znth_out {A} (l : list A) i : Z.of_nat (length l) <= i -> znth l i = None.
Proof.
  intros. unfold znth. case_match; [|done]. apply lookup_ge_None_2. lia.
Qed.

Lemma zset_Some {A} (l : list A) i x :
  0 <= i < Z.of_nat (length l) -> zset l i x = Some (<[Z.to_nat i := x]> l).
Proof. intros. unfold zset. by rewrite (proj2 (Z.leb_le _ _)), (proj2 (Z.ltb_lt _ _)) by lia. Qed.

Lemma znth_zset_eq {A} (l l' : list A) i x : zset l i x = Some l' -> znth l' i = Some x.
Proof.
  unfold zset, znth. destruct (Z.leb_spec 0 i), (Z.ltb_spec i (Z.of_nat (length l))); try done.
  intros [= <-]. apply list_lookup_insert_eq. lia.
Qed.

Lemma znth_zset_ne {A} (l l' : list A) i j x :
  i <> j -> zset l i x = Some l' -> znth l' j = znth l j.
Proof.
  unfold zset, znth. intros Hne.
  destruct (Z.leb_spec 0 i), (Z.ltb_spec i (Z.of_nat (length l))); try done.
  intros [= <-]. case_match; [|done]. apply list_lookup_insert_ne. lia.
Qed.

Lemma zset_length {A} (l l' : list A) i x : zset l i x = Some l' -> length l' = length l.
Proof. unfold zset. case_match; [|done]. intros [= <-]. apply length_insert. Qed.
