(* ===== verification/Mem.v ===== *)
(** * Physical memory

    The kernel runs on a direct map of RAM, so its packet buffers, page tables
    and user pages all live in one flat byte memory.  [mem] is that memory;
    [ldn]/[stn] are the little-endian loads and stores RISC-V makes for a
    C object of [n] bytes, and [ldbytes]/[stbytes] read and write a run of
    bytes.  Nothing here is specific to a component: the file is the lemma
    library the byte-level components share. *)
From S2P Require Import Prelude.
From Stdlib Require Import ZArith Lia.

Definition mem : Type := Z -> Z.

(** A memory holds bytes. *)
Definition wf_mem (m : mem) : Prop := forall a, 0 <= m a < 256.

(** Two memories are equivalent when they hold the same bytes. *)
#[export] Instance mem_equiv : Equiv mem := fun m m' => forall a, m a = m' a.
#[export] Instance mem_equivalence : Equivalence (≡@{mem}).
Proof.
  split; [intros m a; done | intros m m' H a; by rewrite H | intros m1 m2 m3 H1 H2 a; by rewrite H1].
Qed.

Definition st8 (m : mem) (a v : Z) : mem := fun x => if x =? a then u8 v else m x.

Fixpoint ldn (n : nat) (m : mem) (a : Z) : Z :=
  match n with O => 0 | S n => m a + 256 * ldn n m (a + 1) end.
Fixpoint stn (n : nat) (m : mem) (a v : Z) : mem :=
  match n with O => m | S n => stn n (st8 m a v) (a + 1) (v / 256) end.

Abbreviation ld16 := (ldn 2%nat).
Abbreviation ld32 := (ldn 4%nat).
Abbreviation ld64 := (ldn 8%nat).
Abbreviation st16 := (stn 2%nat).
Abbreviation st32 := (stn 4%nat).
Abbreviation st64 := (stn 8%nat).

Fixpoint ldbytes (m : mem) (a : Z) (n : nat) : list Z :=
  match n with O => [] | S n => m a :: ldbytes m (a + 1) n end.
Fixpoint stbytes (m : mem) (a : Z) (l : list Z) : mem :=
  match l with [] => m | b :: l => stbytes (st8 m a b) (a + 1) l end.

(** ** Single bytes *)

Lemma st8_eq m a v : st8 m a v a = u8 v.
Proof. unfold st8. by rewrite Z.eqb_refl. Qed.
Lemma st8_ne m a v x : x <> a -> st8 m a v x = m x.
Proof. unfold st8. intros. by destruct (Z.eqb_spec x a). Qed.
Lemma st8_wf m a v : wf_mem m -> wf_mem (st8 m a v).
Proof. intros H x. unfold st8. case_match; [apply u8_range | apply H]. Qed.

#[export] Instance st8_proper : Proper ((≡) ==> (=) ==> (=) ==> (≡)) st8.
Proof. intros m m' H a ? <- v ? <- x. unfold st8. by rewrite H. Qed.

(** ** Multi-byte loads and stores *)

Lemma ldn_ext n m m' a :
  (forall x, a <= x < a + Z.of_nat n -> m x = m' x) -> ldn n m a = ldn n m' a.
Proof.
  revert a. induction n as [|n IH]; intros a H; [done|]. simpl.
  rewrite (H a) by lia. rewrite (IH (a + 1)); [done|]. intros. apply H. lia.
Qed.

#[export] Instance ldn_proper n : Proper ((≡) ==> (=) ==> (=)) (ldn n).
Proof. intros m m' H a ? <-. apply ldn_ext. intros. apply H. Qed.

Lemma stn_out n m a v x : x < a \/ a + Z.of_nat n <= x -> stn n m a v x = m x.
Proof.
  revert m a v. induction n as [|n IH]; intros m a v H; [done|]. simpl.
  rewrite IH by lia. apply st8_ne. lia.
Qed.

Lemma stn_wf n m a v : wf_mem m -> wf_mem (stn n m a v).
Proof. revert m a v. induction n; simpl; eauto using st8_wf. Qed.

Lemma ldn_stn_ne i j m a b v :
  a + Z.of_nat i <= b \/ b + Z.of_nat j <= a -> ldn i (stn j m b v) a = ldn i m a.
Proof. intros. apply ldn_ext. intros. apply stn_out. lia. Qed.

Lemma pow256_succ n : 2 ^ (8 * Z.of_nat (S n)) = 256 * 2 ^ (8 * Z.of_nat n).
Proof.
  replace (8 * Z.of_nat (S n)) with (8 + 8 * Z.of_nat n) by lia.
  rewrite Z.pow_add_r by lia. done.
Qed.

Lemma ldn_stn_eq n m a v : ldn n (stn n m a v) a = v mod 2 ^ (8 * Z.of_nat n).
Proof.
  revert m a v. induction n as [|n IH]; intros m a v.
  { simpl. by rewrite Z.mod_1_r. }
  rewrite pow256_succ. cbn [ldn stn].
  rewrite IH, stn_out, st8_eq by lia. unfold u8.
  rewrite Z.rem_mul_r by (try lia; apply Z.pow_pos_nonneg; lia).
  change (2 ^ 8) with 256. lia.
Qed.

Lemma ldn_range n m a : wf_mem m -> 0 <= ldn n m a < 2 ^ (8 * Z.of_nat n).
Proof.
  intros H. revert a. induction n as [|n IH]; intros a; [simpl; lia|].
  rewrite pow256_succ. cbn [ldn]. pose proof (H a). pose proof (IH (a + 1)). lia.
Qed.

Lemma ldn_add i j m a :
  ldn (i + j) m a = ldn i m a + 2 ^ (8 * Z.of_nat i) * ldn j m (a + Z.of_nat i).
Proof.
  revert a. induction i as [|i IH]; intros a.
  { simpl. rewrite Z.add_0_r. lia. }
  rewrite pow256_succ. cbn [Nat.add ldn]. rewrite IH.
  replace (a + 1 + Z.of_nat i) with (a + Z.of_nat (S i)) by lia. lia.
Qed.

Lemma stn_add i j m a v :
  stn (i + j) m a v = stn j (stn i m a v) (a + Z.of_nat i) (v / 2 ^ (8 * Z.of_nat i)).
Proof.
  revert m a v. induction i as [|i IH]; intros m a v.
  { simpl. by rewrite Z.add_0_r, Z.div_1_r. }
  rewrite pow256_succ. cbn [Nat.add stn]. rewrite IH.
  rewrite Z.div_div by (try lia; apply Z.pow_pos_nonneg; lia).
  f_equal. lia.
Qed.

(** A load of the first [i] bytes of a longer store, and of the bytes after them. *)
Lemma ldn_stn_lo i j m a v :
  ldn i (stn (i + j) m a v) a = v mod 2 ^ (8 * Z.of_nat i).
Proof. rewrite stn_add, ldn_stn_ne by lia. apply ldn_stn_eq. Qed.

Lemma ldn_stn_hi i j m a v :
  ldn j (stn (i + j) m a v) (a + Z.of_nat i)
  = (v / 2 ^ (8 * Z.of_nat i)) mod 2 ^ (8 * Z.of_nat j).
Proof. rewrite stn_add. apply ldn_stn_eq. Qed.

Lemma ldn_byte n m a k :
  wf_mem m -> (k < n)%nat -> m (a + Z.of_nat k) = (ldn n m a / 2 ^ (8 * Z.of_nat k)) mod 256.
Proof.
  intros Hw. revert a k. induction n as [|n IH]; intros a k Hk; [lia|].
  cbn [ldn]. pose proof (Hw a). destruct k as [|k].
  { simpl Z.of_nat. rewrite Z.add_0_r, Z.mul_0_r, Z.pow_0_r, Z.div_1_r.
    rewrite (Z.mul_comm 256), Z.mod_add, Z.mod_small; lia. }
  replace (a + Z.of_nat (S k)) with (a + 1 + Z.of_nat k) by lia.
  rewrite (IH (a + 1) k) by lia. rewrite pow256_succ.
  rewrite <- Z.div_div by (try lia; apply Z.pow_pos_nonneg; lia).
  rewrite (Z.mul_comm 256 (ldn _ _ _)), Z.div_add, (Z.div_small (m a)) by lia. done.
Qed.

Lemma stn_proper_wf n m m' a v : m ≡ m' -> stn n m a v ≡ stn n m' a v.
Proof.
  revert m m' a v. induction n as [|n IH]; intros m m' a v H; [done|].
  simpl. apply IH. by rewrite H.
Qed.
#[export] Instance stn_proper n : Proper ((≡) ==> (=) ==> (=) ==> (≡)) (stn n).
Proof. intros m m' H a ? <- v ? <-. by apply stn_proper_wf. Qed.

(** What a store leaves in the bytes it covers does not depend on the memory. *)
Lemma stn_ext_in n m m' a v x :
  a <= x < a + Z.of_nat n -> stn n m a v x = stn n m' a v x.
Proof.
  revert m m' a v. induction n as [|n IH]; intros m m' a v H; [lia|]. cbn [stn].
  destruct (decide (x = a)) as [->|].
  - rewrite !stn_out, !st8_eq by lia. done.
  - apply IH. lia.
Qed.

(** ** Runs of bytes *)

Lemma ldbytes_length m a n : length (ldbytes m a n) = n.
Proof. revert a. induction n; intros; simpl; auto. Qed.

Lemma ldbytes_lookup m a n i : (i < n)%nat -> ldbytes m a n !! i = Some (m (a + Z.of_nat i)).
Proof.
  revert a i. induction n as [|n IH]; intros a i H; [lia|].
  destruct i as [|i]; cbn [ldbytes lookup list_lookup].
  { by rewrite Z.add_0_r. }
  rewrite IH by lia. do 2 f_equal. lia.
Qed.

Lemma ldbytes_ext m m' a b n :
  (forall i, 0 <= i < Z.of_nat n -> m (a + i) = m' (b + i)) -> ldbytes m a n = ldbytes m' b n.
Proof.
  intros H. apply list_eq_same_length with n; rewrite ?ldbytes_length; [done..|].
  intros i x y Hi. rewrite !ldbytes_lookup by done. intros [= <-] [= <-]. apply H. lia.
Qed.

Lemma ldbytes_app m a i j :
  ldbytes m a (i + j) = ldbytes m a i ++ ldbytes m (a + Z.of_nat i) j.
Proof.
  revert a. induction i as [|i IH]; intros a; cbn [Nat.add ldbytes app].
  { by rewrite Z.add_0_r. }
  rewrite IH. do 3 f_equal. lia.
Qed.

Lemma stbytes_out m a l x : x < a \/ a + Z.of_nat (length l) <= x -> stbytes m a l x = m x.
Proof.
  revert m a. induction l as [|b l IH]; intros m a H; [done|].
  cbn [stbytes length] in *. rewrite IH by lia. apply st8_ne. lia.
Qed.

Lemma stbytes_in m a l i b :
  l !! i = Some b -> stbytes m a l (a + Z.of_nat i) = u8 b.
Proof.
  revert m a i. induction l as [|c l IH]; intros m a i H; [done|].
  destruct i as [|i]; cbn [stbytes]; simpl in H.
  { simplify_eq. rewrite Z.add_0_r, stbytes_out, st8_eq by lia. done. }
  replace (a + Z.of_nat (S i)) with (a + 1 + Z.of_nat i) by lia. by apply IH.
Qed.

Lemma stbytes_wf m a l : wf_mem m -> wf_mem (stbytes m a l).
Proof. revert m a. induction l; simpl; eauto using st8_wf. Qed.

Definition bytes (l : list Z) : Prop := Forall (fun b => 0 <= b < 256) l.

Lemma ldbytes_bytes m a n : wf_mem m -> bytes (ldbytes m a n).
Proof.
  intros H. revert a. induction n as [|n IH]; intros; simpl; constructor; [apply H|apply IH].
Qed.

Lemma ldbytes_stbytes m a l : bytes l -> ldbytes (stbytes m a l) a (length l) = l.
Proof.
  intros H. apply list_eq_same_length with (length l); rewrite ?ldbytes_length; [done..|].
  intros i x y Hi. rewrite ldbytes_lookup by done. intros [= <-] Hy.
  rewrite (stbytes_in _ _ _ _ _ Hy). apply u8_small.
  exact (Forall_lookup_1 _ _ _ _ H Hy).
Qed.

Create HintDb memdb discriminated.
#[export] Hint Constants Opaque : memdb.
#[export] Hint Variables Opaque : memdb.
#[export] Hint Resolve st8_wf stn_wf stbytes_wf : memdb.
#[export] Hint Extern 1 (0 <= _) => lia : memdb.

(** [wfm] proves that a chain of stores leaves bytes in memory. *)
Ltac wfm := typeclasses eauto with memdb.

Lemma ldn_st8_ne n m a b v :
  b < a \/ a + Z.of_nat n <= b -> ldn n (st8 m b v) a = ldn n m a.
Proof. intros. apply ldn_ext. intros. apply st8_ne. lia. Qed.

Lemma ldn_stbytes_ne n m a b l :
  a + Z.of_nat n <= b \/ b + Z.of_nat (length l) <= a -> ldn n (stbytes m b l) a = ldn n m a.
Proof. intros. apply ldn_ext. intros. apply stbytes_out. lia. Qed.

(** [mem_simpl] reads fields back through chains of stores at addresses [lia]
    can tell apart. *)
Ltac mem_step :=
  first
    [ rewrite ldn_stn_eq
    | rewrite ldn_stn_ne by lia
    | rewrite ldn_st8_ne by lia
    | rewrite stn_out by lia
    | rewrite st8_eq
    | rewrite st8_ne by lia
    | rewrite stbytes_out by lia ].
Ltac mem_simpl := repeat mem_step.

(** [holds m a l]: the bytes of [m] from [a] on are [l]. *)
Definition holds (m : mem) (a : Z) (l : list Z) : Prop := ldbytes m a (length l) = l.

Lemma holds_nil m a : holds m a [].
Proof. done. Qed.

Lemma holds_cons m a b l : holds m a (b :: l) <-> m a = b /\ holds m (a + 1) l.
Proof.
  unfold holds. cbn [length ldbytes]. split; [by intros [= -> ->] | by intros [-> ->]].
Qed.

Lemma holds_app m a l1 l2 :
  holds m a (l1 ++ l2) <-> holds m a l1 /\ holds m (a + Z.of_nat (length l1)) l2.
Proof.
  unfold holds. rewrite length_app, ldbytes_app. split.
  - intros H. apply app_inj_1 in H; [done|]. apply ldbytes_length.
  - by intros [-> ->].
Qed.

Lemma holds_ext m m' a l :
  (forall x, a <= x < a + Z.of_nat (length l) -> m x = m' x) -> holds m a l -> holds m' a l.
Proof.
  intros H Hh. unfold holds in *. rewrite <- Hh at 2. symmetry. apply ldbytes_ext.
  intros. apply H. lia.
Qed.

Lemma holds_lookup m a l i b : holds m a l -> l !! i = Some b -> m (a + Z.of_nat i) = b.
Proof.
  unfold holds. intros H Hi. rewrite <- H in Hi.
  rewrite ldbytes_lookup in Hi by (apply lookup_lt_Some in Hi; by rewrite ldbytes_length in Hi).
  by simplify_eq.
Qed.

Lemma holds_st8 m a v x l :
  x < a \/ a + Z.of_nat (length l) <= x -> holds m a l -> holds (st8 m x v) a l.
Proof. intros H. apply holds_ext. intros. symmetry. apply st8_ne. lia. Qed.

Lemma holds_stn n m a v x l :
  x + Z.of_nat n <= a \/ a + Z.of_nat (length l) <= x -> holds m a l -> holds (stn n m x v) a l.
Proof. intros H. apply holds_ext. intros. symmetry. apply stn_out. lia. Qed.

Lemma holds_stbytes m a l : bytes l -> holds (stbytes m a l) a l.
Proof. apply ldbytes_stbytes. Qed.

(** [hskip] passes over a store that does not touch the run in question. *)
Ltac hskip :=
  first
    [ apply holds_stn; [cbn; lia|]
    | apply holds_st8; [cbn; lia|]
    | eapply holds_ext; [intros ? Hx; cbn in Hx; symmetry; apply stbytes_out; cbn; lia|] ].

Lemma holds_ldbytes m a n : holds m a (ldbytes m a n).
Proof. unfold holds. by rewrite ldbytes_length. Qed.

Lemma ld16_bytes m a : ld16 m a = m a + 256 * m (a + 1).
Proof. cbn. lia. Qed.
Lemma st16_bytes m a v : st16 m a v = st8 (st8 m a v) (a + 1) (v / 256).
Proof. done. Qed.
Lemma st32_bytes m a v :
  st32 m a v = st8 (st8 (st8 (st8 m a v) (a + 1) (v / 256)) (a + 2) (v / 256 / 256))
                   (a + 3) (v / 256 / 256 / 256).
Proof. cbn. by replace (a + 1 + 1) with (a + 2) by lia; replace (a + 2 + 1) with (a + 3) by lia. Qed.

Lemma ld16_range m a : wf_mem m -> 0 <= ld16 m a < 2 ^ 16.
Proof. apply (ldn_range 2). Qed.
Lemma ld32_range m a : wf_mem m -> 0 <= ld32 m a < 2 ^ 32.
Proof. apply (ldn_range 4). Qed.
Lemma ld64_range m a : wf_mem m -> 0 <= ld64 m a < 2 ^ 64.
Proof. apply (ldn_range 8). Qed.

Lemma ldn_S n m a : ldn (S n) m a = m a + 256 * ldn n m (a + 1).
Proof. done. Qed.

#[global] Arguments ldn : simpl never.
#[global] Arguments stn : simpl never.
