(* ===== verification/StringC.v ===== *)
(** * kernel/string.c

    The byte and string routines every other component calls.  Each C loop is
    a [Fixpoint] whose [nat] argument counts the remaining iterations; strlen,
    whose loop has no bound of its own, takes fuel and answers [None] when the
    fuel ends before a NUL is found.  The routines return their destination
    pointer unchanged, so the model returns the new memory only. *)
From S2P Require Import Prelude Mem.
From Stdlib Require Import ZArith Lia.

(** ** memset *)
Fixpoint memset_loop (k : nat) (m : mem) (cdst c : Z) : mem :=
  match k with O => m | S k => memset_loop k (st8 m cdst c) (cdst + 1) c end.

Definition memset (m : mem) (dst c n : Z) : mem := memset_loop (Z.to_nat n) m dst c.

(** ** memcmp *)
Fixpoint memcmp_loop (k : nat) (m : mem) (s1 s2 : Z) : Z :=
  match k with
  | O => 0
  | S k => if negb (m s1 =? m s2) then m s1 - m s2 else memcmp_loop k m (s1 + 1) (s2 + 1)
  end.

Definition memcmp (m : mem) (v1 v2 n : Z) : Z := memcmp_loop (Z.to_nat n) m v1 v2.

(** ** memmove *)
Fixpoint copy_up (k : nat) (m : mem) (d s : Z) : mem :=
  match k with O => m | S k => copy_up k (st8 m d (m s)) (d + 1) (s + 1) end.
Fixpoint copy_down (k : nat) (m : mem) (d s : Z) : mem :=
  match k with O => m | S k => copy_down k (st8 m (d - 1) (m (s - 1))) (d - 1) (s - 1) end.

Definition memmove (m : mem) (dst src n : Z) : mem :=
  if n =? 0 then m
  else if (src <? dst) && (dst <? src + n)
  then copy_down (Z.to_nat n) m (dst + n) (src + n)
  else copy_up (Z.to_nat n) m dst src.

Definition memcpy (m : mem) (dst src n : Z) : mem := memmove m dst src n.

(** ** strncmp: [while (n > 0 && *p && *p == *q)] *)
Fixpoint strncmp_loop (k : nat) (m : mem) (p q : Z) : Z :=
  match k with
  | O => 0
  | S k' => if negb (m p =? 0) && (m p =? m q)
            then strncmp_loop k' m (p + 1) (q + 1)
            else m p - m q
  end.

Definition strncmp (m : mem) (p q n : Z) : Z := strncmp_loop (Z.to_nat n) m p q.

(** ** strncpy: the copying loop returns the pointer and count it stops with *)
Fixpoint strncpy_copy (k : nat) (m : mem) (s t : Z) : mem * Z * nat :=
  match k with
  | O => (m, s, O)
  | S k => if m t =? 0 then (st8 m s (m t), s + 1, k)
           else strncpy_copy k (st8 m s (m t)) (s + 1) (t + 1)
  end.

Definition strncpy (m : mem) (s t n : Z) : mem :=
  let '(m1, s1, k) := strncpy_copy (Z.to_nat n) m s t in
  memset_loop k m1 s1 0.

(** ** safestrcpy: copies at most [n - 1] bytes, then writes a NUL *)
Definition safestrcpy (m : mem) (s t n : Z) : mem :=
  if n <=? 0 then m
  else let '(m1, s1, _) := strncpy_copy (Z.to_nat (n - 1)) m s t in st8 m1 s1 0.

(** ** strlen *)
Fixpoint strlen_loop (fuel : nat) (m : mem) (s n : Z) : option Z :=
  match fuel with
  | O => None
  | S fuel => if m (s + n) =? 0 then Some n else strlen_loop fuel m s (n + 1)
  end.

Definition strlen (fuel : nat) (m : mem) (s : Z) : option Z := strlen_loop fuel m s 0.

(** ** What the routines do *)

Lemma memset_loop_spec k m d c x :
  memset_loop k m d c x = if (d <=? x) && (x <? d + Z.of_nat k) then u8 c else m x.
Proof.
  revert m d. induction k as [|k IH]; intros m d; cbn [memset_loop].
  { destruct (Z.leb_spec d x), (Z.ltb_spec x (d + Z.of_nat 0)); simpl; auto; lia. }
  rewrite IH. unfold st8.
  destruct (Z.leb_spec (d + 1) x), (Z.ltb_spec x (d + 1 + Z.of_nat k)),
    (Z.eqb_spec x d), (Z.leb_spec d x), (Z.ltb_spec x (d + Z.of_nat (S k)));
    simpl; auto; lia.
Qed.

Lemma memset_spec m dst c n x :
  0 <= n ->
  memset m dst c n x = if (dst <=? x) && (x <? dst + n) then u8 c else m x.
Proof. intros. unfold memset. rewrite memset_loop_spec, Z2Nat.id by lia. done. Qed.

Lemma memset_in m dst c n x : dst <= x < dst + n -> memset m dst c n x = u8 c.
Proof.
  intros. rewrite memset_spec by lia.
  by rewrite (proj2 (Z.leb_le _ _)), (proj2 (Z.ltb_lt _ _)) by lia.
Qed.

Lemma memset_out m dst c n x : x < dst \/ dst + n <= x -> memset m dst c n x = m x.
Proof.
  intros. unfold memset. rewrite memset_loop_spec.
  destruct (Z.leb_spec dst x), (Z.ltb_spec x (dst + Z.of_nat (Z.to_nat n))); simpl; auto; lia.
Qed.

Lemma memset_wf m dst c n : wf_mem m -> wf_mem (memset m dst c n).
Proof.
  unfold memset. intros H x. rewrite memset_loop_spec. case_match; [apply u8_range|apply H].
Qed.

Lemma copy_up_spec k m d s x :
  wf_mem m -> d <= s \/ s + Z.of_nat k <= d ->
  copy_up k m d s x = if (d <=? x) && (x <? d + Z.of_nat k) then m (s + (x - d)) else m x.
Proof.
  revert m d s. induction k as [|k IH]; intros m d s Hw Hd; cbn [copy_up].
  { destruct (Z.leb_spec d x), (Z.ltb_spec x (d + Z.of_nat 0)); simpl; auto; lia. }
  rewrite IH by (auto with memdb; lia).
  destruct (Z.leb_spec (d + 1) x), (Z.ltb_spec x (d + 1 + Z.of_nat k)),
    (Z.leb_spec d x), (Z.ltb_spec x (d + Z.of_nat (S k))); simpl; try lia.
  - rewrite st8_ne by lia. f_equal. lia.
  - apply st8_ne. lia.
  - replace x with d by lia. rewrite st8_eq, Z.sub_diag, Z.add_0_r. apply u8_small, Hw.
  - apply st8_ne. lia.
Qed.

Lemma copy_down_spec k m d s x :
  wf_mem m -> s <= d ->
  copy_down k m d s x = if (d - Z.of_nat k <=? x) && (x <? d) then m (s - (d - x)) else m x.
Proof.
  revert m d s. induction k as [|k IH]; intros m d s Hw Hd; cbn [copy_down].
  { destruct (Z.leb_spec (d - Z.of_nat 0) x), (Z.ltb_spec x d); simpl; auto; lia. }
  rewrite IH by (auto with memdb; lia).
  destruct (Z.leb_spec (d - 1 - Z.of_nat k) x), (Z.ltb_spec x (d - 1)),
    (Z.leb_spec (d - Z.of_nat (S k)) x), (Z.ltb_spec x d); simpl; try lia.
  - rewrite st8_ne by lia. f_equal. lia.
  - replace x with (d - 1) by lia. rewrite st8_eq. rewrite u8_small by apply Hw.
    f_equal. lia.
  - apply st8_ne. lia.
  - apply st8_ne. lia.
Qed.

Lemma memmove_byte m dst src n x :
  wf_mem m -> 0 <= n ->
  memmove m dst src n x
  = if (dst <=? x) && (x <? dst + n) then m (src + (x - dst)) else m x.
Proof.
  intros Hw Hn. unfold memmove. destruct (Z.eqb_spec n 0) as [->|Hn0].
  { destruct (Z.leb_spec dst x), (Z.ltb_spec x (dst + 0)); simpl; auto; lia. }
  destruct (Z.ltb_spec src dst), (Z.ltb_spec dst (src + n)); cbn [andb].
  1: { rewrite copy_down_spec by (auto; lia). rewrite Z2Nat.id by lia.
       replace (dst + n - n) with dst by lia.
       case_match; [|done]. f_equal. lia. }
  all: rewrite copy_up_spec by (auto; lia); by rewrite Z2Nat.id by lia.
Qed.

Lemma memmove_in m dst src n x :
  wf_mem m -> dst <= x < dst + n -> memmove m dst src n x = m (src + (x - dst)).
Proof.
  intros. rewrite memmove_byte by (auto; lia).
  by rewrite (proj2 (Z.leb_le _ _)), (proj2 (Z.ltb_lt _ _)) by lia.
Qed.

Lemma memmove_out m dst src n x :
  wf_mem m -> 0 <= n -> x < dst \/ dst + n <= x -> memmove m dst src n x = m x.
Proof.
  intros. rewrite memmove_byte by (auto; lia).
  destruct (Z.leb_spec dst x), (Z.ltb_spec x (dst + n)); simpl; auto; lia.
Qed.

Lemma memmove_wf m dst src n : wf_mem m -> 0 <= n -> wf_mem (memmove m dst src n).
Proof. intros H Hn x. rewrite memmove_byte by done. case_match; apply H. Qed.

#[export] Hint Resolve memset_wf memmove_wf : memdb.

Lemma ldn_memmove_ne i m dst src n a :
  wf_mem m -> 0 <= n -> a + Z.of_nat i <= dst \/ dst + n <= a ->
  ldn i (memmove m dst src n) a = ldn i m a.
Proof. intros. apply ldn_ext. intros. apply memmove_out; auto; lia. Qed.

Lemma ldn_memset_ne i m dst c n a :
  a + Z.of_nat i <= dst \/ dst + n <= a -> ldn i (memset m dst c n) a = ldn i m a.
Proof. intros. apply ldn_ext. intros. apply memset_out. lia. Qed.

Lemma ldn_memmove_in i m dst src n a :
  wf_mem m -> dst <= a -> a + Z.of_nat i <= dst + n ->
  ldn i (memmove m dst src n) a = ldn i m (src + (a - dst)).
Proof.
  intros Hw. revert a. induction i as [|i IH]; intros a H1 H2; [done|].
  rewrite !ldn_S, memmove_in, IH by (auto; lia).
  by replace (src + (a + 1 - dst)) with (src + (a - dst) + 1) by lia.
Qed.

Lemma ldbytes_memmove m dst src n :
  wf_mem m -> 0 <= n -> ldbytes (memmove m dst src n) dst (Z.to_nat n) = ldbytes m src (Z.to_nat n).
Proof.
  intros Hw Hn. apply ldbytes_ext. intros i Hi. rewrite memmove_in by (auto; lia). f_equal. lia.
Qed.

(** ** Properties *)

Lemma strncpy_copy_spec k m s t :
  wf_mem m -> t + Z.of_nat k <= s \/ s + Z.of_nat k <= t ->
  exists m' j, strncpy_copy k m s t = (m', s + Z.of_nat j, (k - j)%nat) /\
    (j <= k)%nat /\ wf_mem m' /\
    (forall i, 0 <= i < Z.of_nat j -> m' (s + i) = m (t + i)) /\
    (forall i, 0 <= i < Z.of_nat j - 1 -> m (t + i) <> 0) /\
    (forall x, x < s \/ s + Z.of_nat j <= x -> m' x = m x) /\
    ((0 < j)%nat /\ m (t + Z.of_nat j - 1) = 0 \/
     j = k /\ (forall i, 0 <= i < Z.of_nat j -> m (t + i) <> 0)).
Proof.
  revert m s t. induction k as [|k IH]; intros m s t Hw Hd; cbn [strncpy_copy].
  { exists m, O. rewrite Z.add_0_r. split_and!; auto; try lia. right. split; [done|lia]. }
  destruct (Z.eqb_spec (m t) 0) as [E|E].
  { exists (st8 m s (m t)), 1%nat. split_and!; auto with memdb; try lia.
    - f_equal. lia.
    - intros i Hi. replace i with 0 by lia. rewrite !Z.add_0_r, st8_eq. apply u8_small, Hw.
    - intros x Hx. apply st8_ne. lia.
    - left. split; [lia|]. by replace (t + Z.of_nat 1 - 1) with t by lia. }
  destruct (IH (st8 m s (m t)) (s + 1) (t + 1)) as (m' & j & Heq & Hj & Hw' & Hc & Hn & Ho & He);
    [auto with memdb|lia|].
  assert (forall i, 0 <= i < Z.of_nat k -> st8 m s (m t) (t + 1 + i) = m (t + (i + 1))) as Hsrc.
  { intros i Hi. rewrite st8_ne by lia. f_equal. lia. }
  exists m', (S j). rewrite Heq. split_and!; auto; try lia.
  - do 2 f_equal. lia.
  - intros i Hi. destruct (Z.eq_dec i 0) as [->|Hi0].
    { rewrite !Z.add_0_r, Ho, st8_eq by lia. apply u8_small, Hw. }
    replace (s + i) with (s + 1 + (i - 1)) by lia. rewrite Hc, Hsrc by lia. f_equal. lia.
  - intros i Hi. destruct (Z.eq_dec i 0) as [->|Hi0]; [by rewrite Z.add_0_r|].
    specialize (Hn (i - 1)). rewrite Hsrc in Hn by lia.
    replace (i - 1 + 1) with i in Hn by lia. apply Hn. lia.
  - intros x Hx. rewrite Ho by lia. apply st8_ne. lia.
  - destruct He as [[Hj0 He]|[-> He]]; [left|right].
    + split; [lia|]. replace (t + 1 + Z.of_nat j - 1) with (t + 1 + (Z.of_nat j - 1)) in He by lia.
      rewrite Hsrc in He by lia. rewrite <- He. f_equal. lia.
    + split; [done|]. intros i Hi. destruct (Z.eq_dec i 0) as [->|Hi0]; [by rewrite Z.add_0_r|].
      specialize (He (i - 1)). rewrite Hsrc in He by lia.
      replace (i - 1 + 1) with i in He by lia. apply He. lia.
Qed.

(** Memmove copies the [n] source bytes as they were before the call, also
    when the two ranges overlap in either direction, and changes nothing else. *)
Lemma memmove_overlap_safe m dst src n :
  wf_mem m -> 0 <= n ->
  ldbytes (memmove m dst src n) dst (Z.to_nat n) = ldbytes m src (Z.to_nat n) /\
  (forall x, x < dst \/ dst + n <= x -> memmove m dst src n x = m x).
Proof.
  intros Hw Hn. split.
  - apply ldbytes_ext. intros i Hi. rewrite memmove_in by (auto; lia). f_equal. lia.
  - intros. by apply memmove_out.
Qed.

(** A memory whose byte at address [a] is [a mod 256]. *)
Definition ramp : mem := fun a => a mod 256.

(** safestrcpy writes only the [n] bytes of its buffer, copies the source
    up to its NUL or the first [n - 1] bytes, and always leaves a terminator. *)
Lemma safestrcpy_terminates_string m s t n :
  wf_mem m -> 0 < n -> t + n <= s \/ s + n <= t ->
  exists k, 0 <= k < n /\
    (forall i, 0 <= i < k -> safestrcpy m s t n (s + i) = m (t + i) /\ m (t + i) <> 0) /\
    safestrcpy m s t n (s + k) = 0 /\
    (k = n - 1 \/ m (t + k) = 0) /\
    (forall x, x < s \/ s + n <= x -> safestrcpy m s t n x = m x).
Proof.
  intros Hw Hn Hd. unfold safestrcpy. rewrite (proj2 (Z.leb_gt _ _)) by lia.
  destruct (strncpy_copy_spec (Z.to_nat (n - 1)) m s t)
    as (m' & j & -> & Hj & Hw' & Hc & Hnz & Ho & He); [done|lia|].
  destruct He as [[Hj0 He]|[-> He]].
  - exists (Z.of_nat j - 1). split_and!; try lia.
    + intros i Hi. rewrite st8_ne, Hc by lia. split; [done|]. apply Hnz. lia.
    + rewrite st8_ne, Hc by lia. rewrite <- He. f_equal. lia.
    + right. rewrite <- He. f_equal. lia.
    + intros x Hx. rewrite st8_ne by lia. apply Ho. lia.
  - exists (n - 1). split_and!; try lia.
    + intros i Hi. rewrite st8_ne, Hc by lia. split; [done|]. apply He. lia.
    + rewrite Z2Nat.id by lia. apply st8_eq.
    + intros x Hx. rewrite st8_ne by lia. apply Ho. lia.
Qed.

(** memcmp compares the ranges as unsigned bytes: it is zero exactly on equal
    ranges, and otherwise the difference at the first byte that differs. *)
Lemma memcmp_zero_iff m p q n :
  0 <= n -> memcmp m p q n = 0 <-> ldbytes m p (Z.to_nat n) = ldbytes m q (Z.to_nat n).
Proof.
  intros _. unfold memcmp. generalize (Z.to_nat n). intros k.
  revert p q. induction k as [|k IH]; intros p q; cbn [memcmp_loop ldbytes]; [done|].
  destruct (Z.eqb_spec (m p) (m q)) as [E|E]; simpl.
  - rewrite IH, E. split; [by intros -> | by intros [= ->]].
  - split; [lia | intros [=]; lia].
Qed.

Lemma memcmp_first_difference m p q n j :
  0 <= j < n -> (forall i, 0 <= i < j -> m (p + i) = m (q + i)) -> m (p + j) <> m (q + j) ->
  memcmp m p q n = m (p + j) - m (q + j).
Proof.
  unfold memcmp. intros Hj. assert (0 <= j < Z.of_nat (Z.to_nat n)) as Hk by lia.
  revert Hk. generalize (Z.to_nat n). intros k. revert p q j Hj.
  induction k as [|k IH]; intros p q j Hj Hk Heq Hne; [lia|]. cbn [memcmp_loop].
  destruct (Z.eq_dec j 0) as [->|Hj0].
  { rewrite !Z.add_0_r in *. destruct (Z.eqb_spec (m p) (m q)); [lia|done]. }
  specialize (Heq 0 ltac:(lia)) as Heq0. rewrite !Z.add_0_r in Heq0.
  rewrite Heq0, Z.eqb_refl. simpl.
  replace (p + j) with (p + 1 + (j - 1)) in * by lia.
  replace (q + j) with (q + 1 + (j - 1)) in * by lia.
  apply IH; [lia|lia| |done]. intros i Hi.
  replace (p + 1 + i) with (p + (i + 1)) by lia. replace (q + 1 + i) with (q + (i + 1)) by lia.
  apply Heq. lia.
Qed.

(** [cstr m s k]: the string at [s] has its NUL at index [k]. *)
Definition cstr (m : mem) (s : Z) (k : nat) : Prop :=
  m (s + Z.of_nat k) = 0 /\ forall i, 0 <= i < Z.of_nat k -> m (s + i) <> 0.

Lemma strlen_cstr fuel m s k : cstr m s k -> (k < fuel)%nat -> strlen fuel m s = Some (Z.of_nat k).
Proof.
  intros [H0 Hnz]. unfold strlen. change 0 with (Z.of_nat 0) at 1.
  assert (forall n, (n <= k)%nat -> (k - n < fuel)%nat ->
    strlen_loop fuel m s (Z.of_nat n) = Some (Z.of_nat k)) as Hl.
  { induction fuel as [|fuel IH]; intros n Hn Hf; [lia|]. cbn [strlen_loop].
    destruct (Z.eqb_spec (m (s + Z.of_nat n)) 0) as [E|E].
    - destruct (decide (n = k)) as [->|]; [done|]. exfalso. apply (Hnz (Z.of_nat n)); [lia|done].
    - destruct (decide (n = k)) as [->|]; [done|].
      replace (Z.of_nat n + 1) with (Z.of_nat (S n)) by lia. apply IH; lia. }
  intros. apply Hl; lia.
Qed.

#[global] Arguments memset : simpl never.
#[global] Arguments memmove : simpl never.
