(* ===== verification/Net.v ===== *)
(** * kernel/sys/net.h and kernel/sys/net.c

    Byte order, the Internet checksum, dotted-decimal parsing and DNS name
    encoding.  Arguments the C code reads through a pointer are addresses in a
    [mem]; the dotted-decimal string is the list of its bytes before the NUL. *)
From S2P Require Import Prelude Mem StringC.
From Stdlib Require Import ZArith Lia.

(** ** net.h: constants and byte order *)

Definition INADDR_ANY : Z := 1.
Definition LONG_DOMAIN : Z := 1.
Definition LONG_DOMAIN_SECTION : Z := 2.
Definition PROTO_IPV4 : Z := 0x0800.
Definition PROTO_ARP : Z := 0x0806.
Definition IPPROTO_TCP : Z := 6.
Definition IPPROTO_UDP : Z := 17.

Definition htons (hostshort : Z) : Z :=
  u16 (Z.lor (Z.shiftr hostshort 8) (Z.shiftl hostshort 8)).
Definition ntohs (netshort : Z) : Z :=
  u16 (Z.lor (Z.shiftr netshort 8) (Z.shiftl netshort 8)).

Definition ntohl (netlong : Z) : Z :=
  u32 (Z.lor (Z.lor (Z.lor (Z.shiftl (Z.land netlong 0x000000FF) 24)
                           (Z.shiftl (Z.land netlong 0x0000FF00) 8))
                    (Z.shiftr (Z.land netlong 0x00FF0000) 8))
             (Z.shiftr (Z.land netlong 0xFF000000) 24)).
Definition htonl (hostlong : Z) : Z :=
  u32 (Z.lor (Z.lor (Z.lor (Z.shiftl (Z.land hostlong 0x000000FF) 24)
                           (Z.shiftl (Z.land hostlong 0x0000FF00) 8))
                    (Z.shiftr (Z.land hostlong 0x00FF0000) 8))
             (Z.shiftr (Z.land hostlong 0xFF000000) 24)).

(** ** net.c: the Internet checksum

    [sum_words len m p cksum] is the loop [while (len > 1)] over 16-bit words
    together with the odd byte [if (len)] adds after it. *)
Fixpoint sum_words (len : nat) (m : mem) (p cksum : Z) : Z :=
  match len with
  | O => cksum
  | S O => u64 (cksum + m p)
  | S (S len) => sum_words len m (p + 2) (u64 (cksum + ld16 m p))
  end.

(** The two folding steps and the complement that end both checksums. *)
Definition fold_cksum (cksum : Z) : Z :=
  let cksum := Z.shiftr cksum 16 + Z.land cksum 0xffff in
  let cksum := cksum + Z.shiftr cksum 16 in
  u16 (Z.lnot cksum).

Definition chksum (m : mem) (hdr len : Z) : Z :=
  fold_cksum (sum_words (Z.to_nat len) m hdr 0).

(** The 12-byte UDP pseudo-header, laid out in a scratch memory at address 0. *)
Definition pseudo_header (src_ip dst_ip udp_len : Z) : mem :=
  let m0 : mem := fun _ => 0 in
  st16 (st8 (st8 (st32 (st32 m0 0 src_ip) 4 dst_ip) 8 0) 9 IPPROTO_UDP) 10 udp_len.

Definition udp_checksum (m : mem) (src_ip dst_ip hdr payload payload_len : Z) : Z :=
  let cksum := sum_words 12 (pseudo_header src_ip dst_ip (ld16 m (hdr + 4))) 0 0 in
  let cksum := sum_words 8 m hdr cksum in
  let cksum := sum_words (Z.to_nat payload_len) m payload cksum in
  fold_cksum cksum.

(** ** net.c: ip_to_u32

    [None] is signed overflow of the accumulator, which C leaves undefined. *)
Fixpoint parse_num (ip : list Z) (num : Z) : option (Z * list Z) :=
  match ip with
  | c :: ip' =>
      if (48 <=? c) && (c <=? 57)
      then let num' := num * 10 + (c - 48) in
           if num' <? 2 ^ 31 then parse_num ip' num' else None
      else Some (num, ip)
  | [] => Some (num, [])
  end.

Inductive ip_result := IpOverflow | IpInvalid | IpParts (parts : list Z).

(** [k] is [4 - i]; [parts] holds parts[0..i). *)
Fixpoint ip_parts (k : nat) (ip : list Z) (parts : list Z) : ip_result :=
  match k, ip with
  | S k, _ :: _ =>
      match parse_num ip 0 with
      | None => IpOverflow
      | Some (num, ip1) =>
          if (num <? 0) || (255 <? num) then IpInvalid
          else let parts := parts ++ [num] in
               match ip1 with
               | [] => ip_parts k [] parts
               | c :: ip2 =>
                   if c =? 46 then ip_parts k ip2 parts
                   else if Z.of_nat (length parts) <? 4 then IpInvalid
                   else ip_parts k ip1 parts
               end
      end
  | _, _ => IpParts parts
  end.

Definition ip_to_u32 (ip : list Z) : option Z :=
  match ip_parts 4 ip [] with
  | IpOverflow => None
  | IpInvalid => Some (s32 0xFFFFFFFF)
  | IpParts [p0; p1; p2; p3] =>
      Some (s32 (Z.lor (Z.lor (Z.lor (Z.shiftl p0 24) (Z.shiftl p1 16)) (Z.shiftl p2 8)) p3))
  | IpParts _ => Some (s32 0xFFFFFFFF)
  end.

(** ** net.c: node_to_dns *)

Fixpoint my_strlen_loop (fuel : nat) (m : mem) (string i : Z) : option Z :=
  match fuel with
  | O => None
  | S fuel => if m (string + i) =? 0 then Some i else my_strlen_loop fuel m string (i + 1)
  end.
Definition my_strlen (fuel : nat) (m : mem) (string : Z) : option Z :=
  my_strlen_loop fuel m string 0.

Fixpoint dns_loop (k : nat) (m : mem) (name res i len_index res_index : Z) : mem * Z :=
  match k with
  | O => (m, 0)
  | S k =>
      if i - len_index =? 64 then (m, LONG_DOMAIN_SECTION)
      else if (m (name + i) =? 46) || (m (name + i) =? 0)
      then dns_loop k (st8 m (res + len_index) (i - len_index)) name res (i + 1) res_index (res_index + 1)
      else dns_loop k (st8 m (res + res_index) (m (name + i))) name res (i + 1) len_index (res_index + 1)
  end.

Definition node_to_dns (fuel : nat) (m : mem) (name res : Z) : option (mem * Z) :=
  match my_strlen fuel m name with
  | None => None
  | Some name_len =>
      if 253 <? name_len then Some (m, LONG_DOMAIN)
      else match dns_loop (Z.to_nat (name_len + 1)) m name res 0 0 1 with
           | (m1, 0) => Some (st8 m1 (res + (name_len + 1)) 0, 0)
           | (m1, code) => Some (m1, code)
           end
  end.

(** ** net.c: the resolver stubs *)
Definition getaddrinfo (node port hints result : Z) : Z := 0.
Definition freeaddrinfo (res : Z) : Z := 0.

(** ** Byte order as arithmetic *)

Lemma htons_arith x : 0 <= x < 2 ^ 16 -> htons x = (x mod 256) * 256 + x / 256.
Proof.
  intros H. unfold htons. rewrite Z.shiftr_div_pow2 by lia.
  rewrite lor_shiftl_add by (change (2 ^ 8) with 256 in *; dlia).
  change (2 ^ 8) with 256. dlia.
Qed.

Lemma ntohs_htons_def x : ntohs x = htons x.
Proof. done. Qed.

Lemma htons_range x : 0 <= htons x < 2 ^ 16.
Proof. apply u16_range. Qed.

Lemma ntohs_htons x : 0 <= x < 2 ^ 16 -> ntohs (htons x) = x.
Proof.
  intros H. rewrite ntohs_htons_def, htons_arith by apply htons_range.
  rewrite htons_arith by done. dlia.
Qed.

Lemma land_byte x k : 0 <= k -> Z.land x (255 * 2 ^ k) = (x / 2 ^ k) mod 256 * 2 ^ k.
Proof.
  intros Hk. rewrite <- Z.shiftl_mul_pow2, <- (Z.shiftl_mul_pow2 (_ mod _)) by done.
  rewrite <- Z.shiftr_div_pow2 by done. change 256 with (2 ^ 8). rewrite <- Z.land_ones by lia.
  rewrite Z.shiftl_land. apply Z.bits_inj'. intros i Hi. rewrite !Z.land_spec.
  destruct (Z.lt_ge_cases i k).
  - rewrite !(Z.shiftl_spec_low _ k) by lia. by rewrite andb_false_r.
  - rewrite !(Z.shiftl_spec _ k), Z.shiftr_spec by lia.
    by replace (i - k + k) with i by lia.
Qed.

Lemma htonl_arith x :
  0 <= x < 2 ^ 32 ->
  htonl x = (x mod 256) * 2 ^ 24 + (x / 2 ^ 8) mod 256 * 2 ^ 16
            + (x / 2 ^ 16) mod 256 * 2 ^ 8 + x / 2 ^ 24.
Proof.
  intros H. unfold htonl.
  change 0x000000FF with (255 * 2 ^ 0). change 0x0000FF00 with (255 * 2 ^ 8).
  change 0x00FF0000 with (255 * 2 ^ 16). change 0xFF000000 with (255 * 2 ^ 24).
  rewrite !land_byte by lia. rewrite Z.pow_0_r, Z.div_1_r, Z.mul_1_r.
  rewrite !Z.shiftr_div_pow2 by lia.
  set (b0 := x mod 256). set (b1 := (x / 2 ^ 8) mod 256).
  set (b2 := (x / 2 ^ 16) mod 256). set (b3 := (x / 2 ^ 24) mod 256).
  assert (0 <= b0 < 256 /\ 0 <= b1 < 256 /\ 0 <= b2 < 256 /\ 0 <= b3 < 256) as (?&?&?&?)
    by (split_and!; apply Z.mod_pos_bound; lia).
  assert (b3 = x / 2 ^ 24) as Hb3 by (subst b3; apply Z.mod_small; dlia).
  replace (b3 * 2 ^ 24 / 2 ^ 24) with b3 by (rewrite Z.div_mul by lia; done).
  replace (b2 * 2 ^ 16 / 2 ^ 8) with (Z.shiftl b2 8)
    by (rewrite Z.shiftl_mul_pow2 by lia; change (2 ^ 16) with (2 ^ 8 * 2 ^ 8);
        rewrite Z.mul_assoc, Z.div_mul by lia; done).
  replace (Z.shiftl (b1 * 2 ^ 8) 8) with (Z.shiftl b1 16)
    by (rewrite !Z.shiftl_mul_pow2 by lia; lia).
  rewrite (Z.lor_comm _ b3), (Z.lor_comm _ (Z.shiftl b2 8)), (Z.lor_comm (Z.shiftl b0 24)).
  rewrite Z.lor_assoc, (lor_shiftl_add b3 b2 8) by lia.
  rewrite Z.lor_assoc, (lor_shiftl_add _ b1 16), lor_shiftl_add by lia.
  rewrite <- Hb3, u32_small by lia. lia.
Qed.

Lemma htonl_range x : 0 <= htonl x < 2 ^ 32.
Proof. apply u32_range. Qed.

(** The four bytes of a 32-bit number. *)
Lemma bytes4 x :
  0 <= x < 2 ^ 32 ->
  exists b0 b1 b2 b3, (0 <= b0 < 256 /\ 0 <= b1 < 256 /\ 0 <= b2 < 256 /\ 0 <= b3 < 256) /\
    x = b0 + (b1 + (b2 + b3 * 256) * 256) * 256.
Proof.
  intros H. exists (x mod 256), (x / 256 mod 256), (x / 256 / 256 mod 256), (x / 256 / 256 / 256).
  pose proof (Z.div_mod x 256). pose proof (Z.div_mod (x / 256) 256).
  pose proof (Z.div_mod (x / 256 / 256) 256).
  pose proof (Z.mod_pos_bound x 256). pose proof (Z.mod_pos_bound (x / 256) 256).
  pose proof (Z.mod_pos_bound (x / 256 / 256) 256). lia.
Qed.

Lemma low_byte b q : 0 <= b < 256 -> (b + q * 256) mod 256 = b.
Proof. intros. rewrite Z.mod_add, Z.mod_small; lia. Qed.
Lemma high_bytes b q : 0 <= b < 256 -> (b + q * 256) / 256 = q.
Proof. intros. rewrite Z.div_add, Z.div_small; lia. Qed.

Lemma htonl_bytes b0 b1 b2 b3 :
  0 <= b0 < 256 /\ 0 <= b1 < 256 /\ 0 <= b2 < 256 /\ 0 <= b3 < 256 ->
  htonl (b0 + (b1 + (b2 + b3 * 256) * 256) * 256) = b3 + (b2 + (b1 + b0 * 256) * 256) * 256.
Proof.
  intros (?&?&?&?). rewrite htonl_arith by lia.
  change (2 ^ 24) with (256 * (256 * 256)) at 2.
  change (2 ^ 16) with (256 * 256) at 2. change (2 ^ 8) with 256 at 1.
  rewrite <- !Z.div_div by lia. rewrite !high_bytes, !low_byte by lia. lia.
Qed.

Lemma ntohl_htonl x : 0 <= x < 2 ^ 32 -> ntohl (htonl x) = x.
Proof.
  intros H. destruct (bytes4 x H) as (b0 & b1 & b2 & b3 & Hb & ->).
  change ntohl with htonl. rewrite !htonl_bytes by tauto. done.
Qed.

Lemma htonl_ntohl x : 0 <= x < 2 ^ 32 -> htonl (ntohl x) = x.
Proof. apply ntohl_htonl. Qed.

(** ** Fields as bytes *)

(** The bytes of a 16-bit field in network order and of a 32-bit store. *)
Definition be16 (v : Z) : list Z := [v / 256; v mod 256].
Definition le32 (v : Z) : list Z :=
  [v mod 256; v / 256 mod 256; v / 256 / 256 mod 256; v / 256 / 256 / 256 mod 256].

Lemma holds_htons m a v : 0 <= v < 2 ^ 16 -> holds (st16 m a (htons v)) a (be16 v).
Proof.
  intros Hv. unfold be16. rewrite !holds_cons, st16_bytes, st8_ne, !st8_eq, htons_arith by lia.
  unfold u8. change (2 ^ 8) with 256. rewrite (Z.add_comm (_ * _)), high_bytes, low_byte by dlia.
  rewrite Z.mod_mod by lia. split_and!; [done..|apply holds_nil].
Qed.

Lemma holds_st32 m a v : holds (st32 m a v) a (le32 v).
Proof.
  unfold le32. rewrite !holds_cons, st32_bytes. replace (a + 1 + 1) with (a + 2) by lia.
  replace (a + 2 + 1) with (a + 3) by lia. mem_simpl. split_and!; [done..|apply holds_nil].
Qed.

Lemma be16_bytes v : 0 <= v < 2 ^ 16 -> bytes (be16 v).
Proof. intros. repeat constructor; dlia. Qed.
Lemma le32_bytes v : bytes (le32 v).
Proof. repeat constructor; apply Z.mod_pos_bound; lia. Qed.

Lemma holds_be16 m a v :
  0 <= v < 2 ^ 16 -> holds m a (be16 v) -> ntohs (ld16 m a) = v.
Proof.
  intros Hv H. unfold be16 in H. rewrite !holds_cons in H. destruct H as (H1 & H2 & _).
  rewrite ld16_bytes, H1, H2, ntohs_htons_def, htons_arith by dlia. dlia.
Qed.

(** ** The checksum as a ones-complement sum *)

(** The sum of the 16-bit words of a buffer, without machine width. *)
Fixpoint wsum (len : nat) (m : mem) (p : Z) : Z :=
  match len with
  | O => 0
  | S O => m p
  | S (S len) => ld16 m p + wsum len m (p + 2)
  end.

(** The representative in [0, 65535] a ones-complement adder leaves. *)
Definition oc16 (s : Z) : Z := if s =? 0 then 0 else (s - 1) mod 65535 + 1.

Lemma nat_pair_ind (P : nat -> Prop) :
  P O -> P 1%nat -> (forall n, P n -> P (S (S n))) -> forall n, P n.
Proof.
  intros H0 H1 HS n. assert (P n /\ P (S n)) as [? _]; [|done].
  induction n as [|n [IH1 IH2]]; auto.
Qed.

Lemma wsum_range len m p : wf_mem m -> 0 <= wsum len m p <= 65535 * Z.of_nat len.
Proof.
  intros Hw. revert p. induction len as [| |len IH] using nat_pair_ind; intros p.
  - simpl. lia.
  - cbn [wsum]. pose proof (Hw p). lia.
  - cbn [wsum]. pose proof (IH (p + 2)). pose proof (ldn_range 2 m p Hw) as Hr.
    change (2 ^ (8 * Z.of_nat 2)) with 65536 in Hr. lia.
Qed.

Lemma sum_words_wsum len m p c :
  wf_mem m -> 0 <= c -> c + 65535 * Z.of_nat len < 2 ^ 64 ->
  sum_words len m p c = c + wsum len m p.
Proof.
  intros Hw. revert p c. induction len as [| |len IH] using nat_pair_ind; intros p c Hc Hb.
  - cbn. lia.
  - cbn [sum_words wsum]. pose proof (Hw p). apply u64_small. lia.
  - cbn [sum_words wsum]. pose proof (ldn_range 2 m p Hw) as Hr.
    change (2 ^ (8 * Z.of_nat 2)) with 65536 in Hr.
    rewrite (u64_small (c + _)) by lia. rewrite IH by lia. lia.
Qed.

Lemma wsum_ext len m m' p q :
  (forall i, 0 <= i < Z.of_nat len -> m (p + i) = m' (q + i)) -> wsum len m p = wsum len m' q.
Proof.
  revert p q. induction len as [| |len IH] using nat_pair_ind; intros p q H; cbn [wsum]; rewrite ?ld16_bytes.
  - done.
  - specialize (H 0 ltac:(lia)). by rewrite !Z.add_0_r in H.
  - pose proof (H 0 ltac:(lia)) as H0. rewrite !Z.add_0_r in H0. rewrite H0.
    rewrite (H 1) by lia. f_equal. apply IH. intros i Hi.
    replace (p + 2 + i) with (p + (2 + i)) by lia. replace (q + 2 + i) with (q + (2 + i)) by lia.
    apply H. lia.
Qed.

(** Storing a word in the summed buffer changes the sum by that word. *)
Lemma wsum_st16 len m p j v :
  (2 * j + 2 <= len)%nat ->
  wsum len (st16 m (p + 2 * Z.of_nat j) v) p
  = wsum len m p - ld16 m (p + 2 * Z.of_nat j) + u16 v.
Proof.
  revert p j. induction len as [| |len IH] using nat_pair_ind; intros p j H; [lia|lia|].
  cbn [wsum]. destruct j as [|j].
  - change (2 * Z.of_nat 0) with 0. rewrite Z.add_0_r, ldn_stn_eq.
    change (2 ^ (8 * Z.of_nat 2)) with (2 ^ 16). change (v mod 2 ^ 16) with (u16 v).
    rewrite (wsum_ext len (st16 m p v) m (p + 2) (p + 2)); [lia|].
    intros. apply stn_out. lia.
  - replace (p + 2 * Z.of_nat (S j)) with (p + 2 + 2 * Z.of_nat j) by lia.
    rewrite IH by lia. rewrite ldn_stn_ne by lia. lia.
Qed.

Lemma fold_cksum_oc16 s : 0 <= s < 2 ^ 32 -> fold_cksum s = 65535 - oc16 s.
Proof.
  intros H. unfold fold_cksum, oc16.
  change 0xffff with (2 ^ 16 - 1). rewrite land_ones_mod, !Z.shiftr_div_pow2 by lia.
  change (2 ^ 16) with 65536.
  assert (0 <= s / 65536 < 65536) by dlia. assert (0 <= s mod 65536 < 65536) by dlia.
  pose proof (Z.div_mod s 65536).
  set (c := s / 65536 + s mod 65536) in *.
  assert (s = c + 65535 * (s / 65536)) as Hs by lia.
  replace (Z.lnot (c + c / 65536)) with (- (c + c / 65536) - 1) by (unfold Z.lnot; lia).
  destruct (Z.lt_ge_cases c 65536).
  - rewrite (Z.div_small c) by lia.
    assert (u16 (- (c + 0) - 1) = 65535 - c) as -> by (unfold u16; change (2 ^ 16) with 65536; dlia).
    destruct (Z.eqb_spec s 0); [lia|].
    replace (s - 1) with (c - 1 + (s / 65536) * 65535) by lia.
    rewrite Z.mod_add, Z.mod_small by lia. lia.
  - assert (c / 65536 = 1) as -> by dlia.
    assert (u16 (- (c + 1) - 1) = 65535 - (c - 65535)) as ->
      by (unfold u16; change (2 ^ 16) with 65536; dlia).
    destruct (Z.eqb_spec s 0); [lia|].
    replace (s - 1) with (c - 65536 + (s / 65536 + 1) * 65535) by lia.
    rewrite Z.mod_add, Z.mod_small by lia. lia.
Qed.

Lemma oc16_range s : 0 <= oc16 s <= 65535.
Proof. unfold oc16. case_match; [lia|]. pose proof (Z.mod_pos_bound (s - 1) 65535). lia. Qed.

Lemma fold_cksum_range s : 0 <= fold_cksum s < 2 ^ 16.
Proof. apply u16_range. Qed.

(** Adding the checksum to the sum it was computed from leaves the all-ones
    word, which complements to zero: the receiver's test. *)
Lemma fold_cksum_complete s :
  0 <= s -> s + 65535 < 2 ^ 32 -> fold_cksum (s + fold_cksum s) = 0.
Proof.
  intros H0 H1. pose proof (fold_cksum_range s). rewrite fold_cksum_oc16 by lia.
  rewrite (fold_cksum_oc16 s) by lia.
  unfold oc16 at 1. destruct (Z.eqb_spec (s + (65535 - oc16 s)) 0) as [E|E].
  { pose proof (oc16_range s). assert (s = 0) as -> by lia. done. }
  enough ((s + (65535 - oc16 s) - 1) mod 65535 = 65534) by lia.
  unfold oc16. destruct (Z.eqb_spec s 0) as [->|Hs]; [done|].
  pose proof (Z.div_mod (s - 1) 65535).
  replace (s + (65535 - ((s - 1) mod 65535 + 1)) - 1)
    with (65534 + ((s - 1) / 65535) * 65535) by lia.
  by rewrite Z.mod_add.
Qed.

Lemma pseudo_header_wf src dst len : wf_mem (pseudo_header src dst len).
Proof. unfold pseudo_header. apply stn_wf, st8_wf, st8_wf, stn_wf, stn_wf. intros a. lia. Qed.

Lemma chksum_wsum m hdr len :
  wf_mem m -> 0 <= len < 2 ^ 32 -> chksum m hdr len = fold_cksum (wsum (Z.to_nat len) m hdr).
Proof. intros. unfold chksum. rewrite sum_words_wsum by (auto; lia). done. Qed.

Lemma udp_checksum_wsum m src dst hdr payload len :
  wf_mem m -> 0 <= len < 2 ^ 16 ->
  udp_checksum m src dst hdr payload len
  = fold_cksum (wsum 12 (pseudo_header src dst (ld16 m (hdr + 4))) 0
                + wsum 8 m hdr + wsum (Z.to_nat len) m payload).
Proof.
  intros Hw Hl. unfold udp_checksum.
  pose proof (pseudo_header_wf src dst (ld16 m (hdr + 4))) as Hp.
  pose proof (wsum_range 12 _ 0 Hp). pose proof (wsum_range 8 m hdr Hw).
  rewrite (sum_words_wsum 12) by (auto; lia). rewrite (sum_words_wsum 8) by (auto; lia).
  rewrite sum_words_wsum by (auto; lia). done.
Qed.

(** htons/ntohs and htonl/ntohl are inverse to each other, and the bytes
    a store of the converted value leaves in memory are the big-endian
    representation of the number, most significant byte first. *)
Lemma byte_order_big_endian m a x y :
  wf_mem m -> 0 <= x < 2 ^ 16 -> 0 <= y < 2 ^ 32 ->
  ntohs (htons x) = x /\ ntohl (htonl y) = y /\
  ldbytes (st16 m a (htons x)) a 2 = [x / 256; x mod 256] /\
  ldbytes (st32 m a (htonl y)) a 4
  = [y / 2 ^ 24; y / 2 ^ 16 mod 256; y / 2 ^ 8 mod 256; y mod 256].
Proof.
  intros Hw Hx Hy. split_and!; [by apply ntohs_htons | by apply ntohl_htonl | |].
  - cbn [ldbytes]. rewrite st16_bytes, st8_eq, st8_ne, st8_eq, htons_arith by lia. unfold u8.
    change (2 ^ 8) with 256. rewrite (Z.add_comm (_ * _)), high_bytes, low_byte by dlia.
    by rewrite Z.mod_mod by lia.
  - destruct (bytes4 y Hy) as (b0 & b1 & b2 & b3 & Hb & ->).
    rewrite htonl_bytes by done. destruct Hb as (?&?&?&?).
    cbn [ldbytes]. rewrite st32_bytes. replace (a + 1 + 1) with (a + 2) by lia.
    replace (a + 2 + 1) with (a + 3) by lia. mem_simpl. unfold u8. change (2 ^ 24) with (256 * (256 * 256)).
    change (2 ^ 16) with (256 * 256). change (2 ^ 8) with 256. rewrite <- !Z.div_div by lia.
    rewrite !high_bytes, !low_byte by lia. by rewrite Z.mod_small by lia.
Qed.

(** C19: chksum is the complement of the ones-complement sum of the buffer's
    16-bit words (RFC 1071) for every buffer below 64 KiB, odd lengths
    included, and a buffer in which the result is stored in a zeroed word slot
    then checks to zero. *)
Theorem chksum_verifies m hdr len j :
  wf_mem m -> 0 <= len < 65536 ->
  (2 * j + 2 <= Z.to_nat len)%nat -> ld16 m (hdr + 2 * Z.of_nat j) = 0 ->
  chksum m hdr len = 65535 - oc16 (wsum (Z.to_nat len) m hdr) /\
  chksum (st16 m (hdr + 2 * Z.of_nat j) (chksum m hdr len)) hdr len = 0.
Proof.
  intros Hw Hl Hj Hz. pose proof (wsum_range (Z.to_nat len) m hdr Hw) as Hr. split.
  - rewrite chksum_wsum by (auto; lia). apply fold_cksum_oc16. lia.
  - rewrite !chksum_wsum by (auto with memdb; lia).
    rewrite wsum_st16, Hz, u16_small by (auto using fold_cksum_range).
    rewrite Z.sub_0_r. apply fold_cksum_complete; lia.
Qed.

Lemma chksum_verifies_witness :
  chksum (st16 (st16 ramp 110 0) 110 (chksum (st16 ramp 110 0) 100 20)) 100 20 = 0.
Proof.
  apply (chksum_verifies (st16 ramp 110 0) 100 20 5).
  - apply stn_wf. intros a. apply Z.mod_pos_bound. lia.
  - lia.
  - lia.
  - reflexivity.
Defined.

(** A buffer that checks to zero no longer does after any one of its words
    is replaced by a word of a different ones-complement value. *)
Lemma chksum_detects_word_change m hdr len j v :
  wf_mem m -> 0 <= len < 65536 -> (2 * j + 2 <= Z.to_nat len)%nat ->
  chksum m hdr len = 0 ->
  u16 v mod 65535 <> ld16 m (hdr + 2 * Z.of_nat j) mod 65535 ->
  chksum (st16 m (hdr + 2 * Z.of_nat j) v) hdr len <> 0.
Proof.
  intros Hw Hl Hj Hz Hne.
  pose proof (wsum_range (Z.to_nat len) (st16 m (hdr + 2 * Z.of_nat j) v) hdr
                ltac:(auto with memdb)) as Hs'.
  rewrite chksum_wsum in * by (auto with memdb; lia). rewrite wsum_st16 in * by done.
  set (a := hdr + 2 * Z.of_nat j) in *.
  pose proof (wsum_range (Z.to_nat len) m hdr Hw). pose proof (u16_range v).
  pose proof (ldn_range 2 m a Hw) as Hr. change (2 ^ (8 * Z.of_nat 2)) with 65536 in Hr.
  set (s := wsum (Z.to_nat len) m hdr) in *.
  rewrite fold_cksum_oc16 in * by lia. unfold oc16 in *.
  intros Hz'. apply Hne. clear Hne.
  destruct (Z.eqb_spec s 0); [lia|]. destruct (Z.eqb_spec (s - ld16 m a + u16 v) 0); [lia|].
  assert ((s - 1) mod 65535 = 65534) by lia.
  assert ((s - ld16 m a + u16 v - 1) mod 65535 = 65534) by lia.
  pose proof (Z.div_mod (s - 1) 65535). pose proof (Z.div_mod (s - ld16 m a + u16 v - 1) 65535).
  replace (u16 v) with (ld16 m a + ((s - ld16 m a + u16 v - 1) / 65535 - (s - 1) / 65535) * 65535)
    by lia.
  by rewrite Z.mod_add.
Qed.

(** ** Dotted decimal *)

(** The decimal digits of a number below 1000. *)
Definition show_dec (n : Z) : list Z :=
  if n <? 10 then [48 + n]
  else if n <? 100 then [48 + n / 10; 48 + n mod 10]
  else [48 + n / 100; 48 + n / 10 mod 10; 48 + n mod 10].

Definition dotted (a b c d : Z) : list Z :=
  show_dec a ++ 46 :: show_dec b ++ 46 :: show_dec c ++ 46 :: show_dec d.

Definition is_digit (c : Z) : bool := (48 <=? c) && (c <=? 57).

Definition no_digit_head (l : list Z) : Prop :=
  match l with [] => True | c :: _ => is_digit c = false end.

Lemma parse_num_stop rest num : no_digit_head rest -> parse_num rest num = Some (num, rest).
Proof. destruct rest as [|c r]; [done|]. simpl. unfold is_digit. by intros ->. Qed.

Lemma parse_num_digit d rest num :
  0 <= d < 10 -> 0 <= num * 10 + d < 2 ^ 31 ->
  parse_num (48 + d :: rest) num = parse_num rest (num * 10 + d).
Proof.
  intros Hd Hn. cbn [parse_num]. rewrite (proj2 (Z.leb_le _ _)), (proj2 (Z.leb_le _ _)) by lia.
  cbn [andb]. replace (48 + d - 48) with d by lia. by rewrite (proj2 (Z.ltb_lt _ _)) by lia.
Qed.

Lemma parse_show_dec n rest :
  0 <= n < 1000 -> no_digit_head rest -> parse_num (show_dec n ++ rest) 0 = Some (n, rest).
Proof.
  intros Hn Hr. unfold show_dec.
  destruct (Z.ltb_spec n 10); [|destruct (Z.ltb_spec n 100)]; cbn [app].
  - rewrite parse_num_digit by lia. by apply parse_num_stop.
  - rewrite !parse_num_digit by dlia. rewrite parse_num_stop by done. do 2 f_equal. dlia.
  - rewrite !parse_num_digit by dlia. rewrite parse_num_stop by done. do 2 f_equal. dlia.
Qed.

Lemma ip_parts_dot k n rest parts :
  0 <= n < 256 -> ip_parts (S k) (show_dec n ++ 46 :: rest) parts = ip_parts k rest (parts ++ [n]).
Proof.
  intros Hn. assert (exists c l, show_dec n ++ 46 :: rest = c :: l) as (c & l & E).
  { unfold show_dec. repeat case_match; simpl; eauto. }
  cbn [ip_parts]. rewrite E, <- E, parse_show_dec by (done || lia).
  rewrite (proj2 (Z.ltb_ge n 0)), (proj2 (Z.ltb_ge 255 n)) by lia. done.
Qed.

Lemma ip_parts_last k n parts :
  0 <= n < 256 -> ip_parts (S k) (show_dec n) parts = ip_parts k [] (parts ++ [n]).
Proof.
  intros Hn. assert (exists c l, show_dec n = c :: l) as (c & l & E).
  { unfold show_dec. repeat case_match; simpl; eauto. }
  cbn [ip_parts]. rewrite E, <- E, <- (app_nil_r (show_dec n)), parse_show_dec by (done || lia).
  rewrite (proj2 (Z.ltb_ge n 0)), (proj2 (Z.ltb_ge 255 n)) by lia. done.
Qed.

Lemma pack_parts a b c d :
  0 <= a < 256 -> 0 <= b < 256 -> 0 <= c < 256 -> 0 <= d < 256 ->
  Z.lor (Z.lor (Z.lor (Z.shiftl a 24) (Z.shiftl b 16)) (Z.shiftl c 8)) d
  = a * 2 ^ 24 + b * 2 ^ 16 + c * 2 ^ 8 + d.
Proof.
  intros. rewrite (Z.lor_comm _ d), (Z.lor_comm _ (Z.shiftl c 8)), (Z.lor_comm (Z.shiftl a 24)).
  rewrite Z.lor_assoc, (lor_shiftl_add d c 8) by lia.
  rewrite Z.lor_assoc, (lor_shiftl_add _ b 16), lor_shiftl_add by lia. lia.
Qed.

(** C20: ip_to_u32 reads back every dotted-decimal address: on a.b.c.d with
    parts 0..255 it returns, as a C int, the number whose bytes are a, b, c, d. *)
Theorem ip_to_u32_dotted a b c d :
  0 <= a < 256 -> 0 <= b < 256 -> 0 <= c < 256 -> 0 <= d < 256 ->
  ip_to_u32 (dotted a b c d) = Some (s32 (a * 2 ^ 24 + b * 2 ^ 16 + c * 2 ^ 8 + d)).
Proof.
  intros. unfold ip_to_u32, dotted.
  rewrite !ip_parts_dot by done. rewrite ip_parts_last by done. cbn [ip_parts app].
  by rewrite pack_parts.
Qed.

Lemma ip_to_u32_dotted_witness :
  ip_to_u32 (dotted 10 10 0 11) = Some 0x0a0a000b.
Proof. apply (ip_to_u32_dotted 10 10 0 11); lia. Defined.

Lemma ip_parts_sound k ip parts :
  Forall (fun p => 0 <= p < 256) parts ->
  match ip_parts k ip parts with
  | IpParts l => Forall (fun p => 0 <= p < 256) l /\ (length parts <= length l <= length parts + k)%nat
  | _ => True
  end.
Proof.
  revert ip parts. induction k as [|k IH]; intros ip parts Hp; simpl.
  { destruct ip; split; auto; lia. }
  destruct ip as [|c ip]; [split; auto; lia|].
  destruct (parse_num (c :: ip) 0) as [[num ip1]|]; [|done].
  destruct (Z.ltb_spec num 0), (Z.ltb_spec 255 num); simpl; try done.
  assert (Forall (fun p => 0 <= p < 256) (parts ++ [num])) as Hp'.
  { apply Forall_app. split; [done|]. repeat constructor; lia. }
  assert (forall l, match ip_parts k l (parts ++ [num]) with
    | IpParts l => Forall (fun p => 0 <= p < 256) l /\
                   (length parts <= length l <= length parts + S k)%nat
    | _ => True end) as Hall.
  { intros l. specialize (IH l _ Hp'). destruct (ip_parts k l (parts ++ [num])); try done.
    rewrite length_app in IH. simpl in IH. destruct IH. split; [done|lia]. }
  destruct ip1 as [|c1 ip1]; [apply Hall|].
  destruct (c1 =? 46); [apply Hall|]. destruct (_ <? 4); [done|apply Hall].
Qed.

(** Whatever the string, ip_to_u32 either overflows its accumulator (a
    number of ten or more digits), reports the error value -1, or returns the
    packing of exactly four parts that are all at most 255. *)
Lemma ip_to_u32_sound ip v :
  ip_to_u32 ip = Some v ->
  v = -1 \/ exists a b c d, 0 <= a < 256 /\ 0 <= b < 256 /\ 0 <= c < 256 /\ 0 <= d < 256 /\
    v = s32 (a * 2 ^ 24 + b * 2 ^ 16 + c * 2 ^ 8 + d).
Proof.
  unfold ip_to_u32. pose proof (ip_parts_sound 4 ip [] ltac:(constructor)) as H.
  destruct (ip_parts 4 ip []) as [| |l]; [done|intros [= <-]; by left|].
  destruct H as [H Hl]. destruct l as [|a [|b [|c [|d [|e l]]]]]; try (intros [= <-]; by left).
  intros [= <-]. right. exists a, b, c, d.
  rewrite !Forall_cons in H. destruct H as (?&?&?&?&_). split_and!; try done; try lia.
  by rewrite pack_parts.
Qed.

(** ** DNS names *)

(** The wire form of a name: every dot-separated label after its length. *)
Fixpoint dns_encode (label name : list Z) : list Z :=
  match name with
  | [] => Z.of_nat (length label) :: label
  | c :: name =>
      if c =? 46 then (Z.of_nat (length label) :: label) ++ dns_encode [] name
      else dns_encode (label ++ [c]) name
  end.

(** Every label has at most 63 bytes. *)
Fixpoint labels_ok (label name : list Z) : bool :=
  match name with
  | [] => Z.of_nat (length label) <=? 63
  | c :: name =>
      if c =? 46 then (Z.of_nat (length label) <=? 63) && labels_ok [] name
      else labels_ok (label ++ [c]) name
  end.

Lemma labels_ok_long label name :
  64 <= Z.of_nat (length label) -> labels_ok label name = false.
Proof.
  revert label. induction name as [|c name IH]; intros label H; simpl.
  - apply Z.leb_gt. lia.
  - rewrite (proj2 (Z.leb_gt _ _)) by lia. case_match; [done|]. apply IH.
    rewrite length_app. simpl. lia.
Qed.

Lemma dns_loop_spec rest : forall P label m name res N,
  N = Z.of_nat (length P) + Z.of_nat (length label) + Z.of_nat (length rest) ->
  (name + N + 1 <= res \/ res + N + 2 <= name) ->
  Z.of_nat (length label) <= 64 ->
  wf_mem m -> Forall (fun c => c <> 0) rest ->
  holds m (name + (Z.of_nat (length P) + Z.of_nat (length label))) (rest ++ [0]) ->
  holds m res P -> holds m (res + Z.of_nat (length P) + 1) label ->
  let i := Z.of_nat (length P) + Z.of_nat (length label) in
  let '(m', code) := dns_loop (S (length rest)) m name res i (Z.of_nat (length P)) (i + 1) in
  if labels_ok label rest
  then code = 0 /\ holds m' res (P ++ dns_encode label rest)
  else code = LONG_DOMAIN_SECTION.
Proof.
  induction rest as [|c rest IH]; intros P label m name res N HN Hd Hl Hw Hz Hn HP HL i;
    cbn [dns_loop length]; replace (i - Z.of_nat (length P)) with (Z.of_nat (length label)) by lia;
    destruct (Z.eqb_spec (Z.of_nat (length label)) 64) as [E|E];
    try (rewrite labels_ok_long by lia; done).
  - apply holds_cons in Hn as [Hn _]. fold i in Hn. rewrite Hn, orb_true_r. simpl.
    rewrite (proj2 (Z.leb_le _ _)) by lia. split; [done|].
    apply holds_app. split; [apply holds_st8; [lia|done]|]. apply holds_cons.
    rewrite st8_eq, u8_small by lia. split; [done|]. apply holds_st8; [lia|done].
  - simpl app in Hn. apply holds_cons in Hn as [Hn Hn']. fold i in Hn, Hn'. rewrite Hn.
    apply Forall_cons in Hz as [Hc Hz].
    rewrite (proj2 (Z.eqb_neq c 0)), orb_false_r by done. cbn [labels_ok dns_encode length] in *.
    destruct (Z.eqb_spec c 46) as [->|Hc46].
    + rewrite (proj2 (Z.leb_le _ _)), andb_true_l by lia.
      set (P' := P ++ Z.of_nat (length label) :: label).
      assert (Z.of_nat (length P') = i + 1) as HP' by (subst P'; rewrite length_app; simpl; lia).
      specialize (IH P' [] (st8 m (res + Z.of_nat (length P)) (Z.of_nat (length label))) name res N).
      simpl length in IH. rewrite HP', !Z.add_0_r in IH.
      replace (P ++ (Z.of_nat (length label) :: label) ++ dns_encode [] rest)
        with (P' ++ dns_encode [] rest) by (subst P'; by rewrite <- app_assoc).
      apply IH; auto with memdb; try lia.
      * apply holds_st8; [rewrite length_app; simpl; lia|].
        by replace (name + (i + 1)) with (name + i + 1) by lia.
      * subst P'. apply holds_app. split; [apply holds_st8; [lia|done]|]. apply holds_cons.
        rewrite st8_eq, u8_small by lia. split; [done|]. apply holds_st8; [lia|done].
      * apply holds_nil.
    + specialize (IH P (label ++ [c]) (st8 m (res + (i + 1)) c) name res N).
      rewrite length_app in IH. cbn [length] in IH.
      replace (Z.of_nat (length P) + Z.of_nat (length label + 1)) with (i + 1) in IH by lia.
      pose proof (Hw (name + i)) as Hcr. rewrite Hn in Hcr.
      apply IH; auto with memdb; try lia.
      * apply holds_st8; [rewrite length_app; simpl; lia|].
        by replace (name + (i + 1)) with (name + i + 1) by lia.
      * apply holds_st8; [lia|done].
      * apply holds_app. split; [apply holds_st8; [lia|done]|]. apply holds_cons.
        replace (res + Z.of_nat (length P) + 1 + Z.of_nat (length label)) with (res + (i + 1)) by lia.
        rewrite st8_eq, u8_small by lia. done.
Qed.

Lemma my_strlen_strlen fuel m s : my_strlen fuel m s = strlen fuel m s.
Proof. unfold my_strlen, strlen. generalize 0. by induction fuel; intros; simpl; rewrite ?IHfuel. Qed.

Lemma holds_cstr m a l : holds m a (l ++ [0]) -> Forall (fun c => c <> 0) l -> cstr m a (length l).
Proof.
  intros H Hz. split.
  - apply (holds_lookup _ _ _ _ _ H). by rewrite lookup_app_r, Nat.sub_diag by lia.
  - intros i Hi. destruct (list_lookup_Some_lt l (Z.to_nat i)) as [c Hc]; [lia|].
    apply (Forall_lookup_1 _ _ _ _ Hz) in Hc as Hne.
    rewrite <- (Z2Nat.id i) by lia. rewrite (holds_lookup _ _ _ _ c H); [done|].
    by apply lookup_app_l_Some.
Qed.

Lemma dns_encode_length label name :
  length (dns_encode label name) = (length label + length name + 1)%nat.
Proof.
  revert label. induction name as [|c name IH]; intros label; cbn [dns_encode length]; [lia|].
  case_match; [rewrite length_app, IH; simpl; lia | rewrite IH, length_app; simpl; lia].
Qed.

(** node_to_dns terminates on every NUL-terminated name, rejects names over
    253 bytes and labels over 63, and otherwise writes exactly the DNS wire
    encoding of the dot-separated labels followed by the root label. *)
Lemma node_to_dns_correct fuel m name res (l : list Z) :
  wf_mem m -> Forall (fun c => c <> 0) l -> holds m name (l ++ [0]) -> (length l < fuel)%nat ->
  name + Z.of_nat (length l) + 1 <= res \/ res + Z.of_nat (length l) + 2 <= name ->
  exists m' code, node_to_dns fuel m name res = Some (m', code) /\
    if 253 <? Z.of_nat (length l) then code = LONG_DOMAIN /\ m' = m
    else if labels_ok [] l then code = 0 /\ holds m' res (dns_encode [] l ++ [0])
    else code = LONG_DOMAIN_SECTION.
Proof.
  intros Hw Hz Hn Hf Hd. unfold node_to_dns.
  rewrite my_strlen_strlen, (strlen_cstr _ _ _ (length l)) by auto using holds_cstr.
  destruct (Z.ltb_spec 253 (Z.of_nat (length l))); [eauto|].
  pose proof (dns_loop_spec l [] [] m name res (Z.of_nat (length l))) as Hs.
  cbn [length] in Hs. change (Z.of_nat 0) with 0 in Hs. rewrite !Z.add_0_l in Hs.
  rewrite !Z.add_0_r in Hs. replace (Z.to_nat (Z.of_nat (length l) + 1)) with (S (length l)) by lia.
  specialize (Hs ltac:(lia) ltac:(lia) ltac:(lia) Hw Hz Hn ltac:(done) ltac:(done)).
  cbv zeta in Hs. destruct (dns_loop _ _ _ _ _ _ _) as [m1 code].
  destruct (labels_ok [] l).
  - destruct Hs as [-> Hs]. do 2 eexists. split; [done|]. split; [done|]. simpl app in Hs.
    apply holds_app. rewrite dns_encode_length. cbn [length Nat.add].
    split; [apply holds_st8; [rewrite dns_encode_length; simpl; lia|done]|].
    apply holds_cons. split; [|done].
    replace (res + Z.of_nat (length l + 1)) with (res + (Z.of_nat (length l) + 1)) by lia. apply st8_eq.
  - rewrite Hs. unfold LONG_DOMAIN_SECTION. eauto.
Qed.

