(* ===== verification/Kalloc.v ===== *)
(** * kernel/kalloc.c, kernel/memlayout.h and the page macros of kernel/riscv.h

    The physical page allocator with its per-page reference counters.  [kfree],
    [kalloc] and the rest are the C functions on flat memory: the free list is
    threaded through the first eight bytes of the free pages and the counters
    live at the address [ref_counter].  Both [ref_counter] and [end_] are
    chosen by the linker, so the section abstracts over them.

    [Pool] is what the allocator promises to its clients: a stack of free pages
    and a count per page.  The code indexes ref_counter by the absolute page
    number, so the counters lie past the table, in pages the allocator also
    manages.  The last part follows kinit at the addresses of the kernels built
    in the repository: it loses the pages that hold the counters of the upper
    pages, and with these the allocator then implements the pool. *)
From S2P Require Import Prelude Mem StringC.
From Stdlib Require Import ZArith Lia.
From stdpp Require Import strings.
Local Open Scope list_scope.
Local Open Scope Z_scope.
Local Open Scope kernel_scope.

Definition PGSIZE : Z := 4096.
Definition PGROUNDUP (sz : Z) : Z := Z.land (sz + PGSIZE - 1) (Z.lnot (PGSIZE - 1)).
Definition PGROUNDDOWN (a : Z) : Z := Z.land a (Z.lnot (PGSIZE - 1)).

Definition KERNBASE : Z := 0x80000000.
Definition PHYSTOP : Z := KERNBASE + 128 * 1024 * 1024.
Definition MAX_USER_PAGE_COUNT : Z := (PHYSTOP - KERNBASE) / PGSIZE.

(** The allocator's state: memory, with the counters in it, and kmem.freelist. *)
Record kmem := mkKmem { km_mem : mem; km_freelist : Z }.

Section Allocator.
Context (ref_counter end_ : Z).

(** The address of the element of ref_counter for index [page_num]. *)
Definition counter (page_num : Z) : Z := ref_counter + 8 * page_num.

Definition add_page_reference (pointer_in_page : Z) : M kmem unit :=
  let page_num := u32 (PGROUNDDOWN pointer_in_page / PGSIZE) in
  modify (fun k =>
    mkKmem (st64 (km_mem k) (counter page_num) (ld64 (km_mem k) (counter page_num) + 1))
           (km_freelist k)).

Definition kfree (pa : Z) : M kmem unit :=
  if negb (pa mod PGSIZE =? 0) || (pa <? end_) || (PHYSTOP <=? pa) then panic "kfree"
  else
    let page_num := PGROUNDDOWN pa / PGSIZE in
    count <- gets (fun k => ld64 (km_mem k) (counter page_num)) ;;
    if 1 <? count
    then modify (fun k => mkKmem (st64 (km_mem k) (counter page_num) (count - 1)) (km_freelist k))
    else
      modify (fun k => mkKmem (st64 (km_mem k) (counter page_num) 0) (km_freelist k)) ;;;
      modify (fun k => mkKmem (memset (km_mem k) pa 1 PGSIZE) (km_freelist k)) ;;;
      modify (fun k => mkKmem (st64 (km_mem k) pa (km_freelist k)) pa).

Definition kalloc : M kmem Z :=
  r <- gets km_freelist ;;
  when (negb (r =? 0)) (modify (fun k => mkKmem (km_mem k) (ld64 (km_mem k) r))) ;;;
  let page_num := PGROUNDDOWN r / PGSIZE in
  modify (fun k => mkKmem (st64 (km_mem k) (counter page_num) 1) (km_freelist k)) ;;;
  when (negb (r =? 0)) (modify (fun k => mkKmem (memset (km_mem k) r 5 PGSIZE) (km_freelist k))) ;;;
  ret r.

(** [k] bounds the iterations of [for (; p + PGSIZE <= pa_end; p += PGSIZE)]. *)
Fixpoint freerange_loop (k : nat) (p pa_end : Z) : M kmem unit :=
  match k with
  | O => ret tt
  | S k => if p + PGSIZE <=? pa_end
           then kfree p ;;; freerange_loop k (p + PGSIZE) pa_end
           else ret tt
  end.

Definition freerange (pa_start pa_end : Z) : M kmem unit :=
  let p := PGROUNDUP pa_start in
  freerange_loop (Z.to_nat ((pa_end - p) / PGSIZE)) p pa_end.

Definition kinit : M kmem unit := freerange end_ PHYSTOP.
End Allocator.

(** ** What clients rely on *)
Module Pool.
Record pool := mkPool { free : list Z; refs : Z -> Z }.

Definition set_ref (f : Z -> Z) (pa v : Z) : Z -> Z := fun x => if x =? pa then v else f x.

Definition take (m : mem) (P : pool) : Z * mem * pool :=
  match free P with
  | [] => (0, m, P)
  | r :: l => (r, memset m r 5 PGSIZE, mkPool l (set_ref (refs P) r 1))
  end.

(** The caller passes a page kalloc gave out. *)
Definition give (pa : Z) (m : mem) (P : pool) : mem * pool :=
  if 1 <? refs P pa then (m, mkPool (free P) (set_ref (refs P) pa (refs P pa - 1)))
  else (st64 (memset m pa 1 PGSIZE) pa (default 0 (head (free P))),
        mkPool (pa :: free P) (set_ref (refs P) pa 0)).
End Pool.

(** ** Page arithmetic *)

Lemma PGROUNDDOWN_mod a : PGROUNDDOWN a = a - a mod PGSIZE.
Proof.
  unfold PGROUNDDOWN, PGSIZE. change (Z.lnot (4096 - 1)) with (Z.lnot (Z.ones 12)).
  rewrite <- Z.ldiff_land, Z.ldiff_ones_r by lia.
  rewrite Z.shiftl_mul_pow2, Z.shiftr_div_pow2 by lia. change (2 ^ 12) with 4096.
  pose proof (Z.div_mod a 4096). lia.
Qed.

Lemma PGROUNDDOWN_div a : PGROUNDDOWN a / PGSIZE = a / PGSIZE.
Proof. rewrite PGROUNDDOWN_mod. unfold PGSIZE. dlia. Qed.

Lemma PGROUNDUP_spec a :
  PGROUNDUP a mod PGSIZE = 0 /\ a <= PGROUNDUP a < a + PGSIZE.
Proof.
  unfold PGROUNDUP. change (Z.land (a + PGSIZE - 1) (Z.lnot (PGSIZE - 1))) with (PGROUNDDOWN (a + PGSIZE - 1)).
  rewrite PGROUNDDOWN_mod. unfold PGSIZE. dlia.
Qed.

(** ** The allocator implements the pool *)

(** The pages from [end_] on that kfree accepts. *)
Definition managed (end_ p : Z) : Prop := p mod PGSIZE = 0 /\ end_ <= p < PHYSTOP.

(** [lo] is above the counter of every page: no page from [lo] on holds one. *)
Record clean (rc lo : Z) : Prop := {
  cl_kern : KERNBASE <= lo;
  cl_above : counter rc (PHYSTOP / PGSIZE) <= lo
}.

(** The free list threaded through memory. *)
Fixpoint flist (m : mem) (head : Z) (l : list Z) : Prop :=
  match l with [] => head = 0 | p :: l => head = p /\ flist m (ld64 m p) l end.

(** A page below the counters of the pages from [lo] on. *)
Definition under (rc lo q : Z) : Prop := 0 <= q /\ q + PGSIZE <= counter rc (lo / PGSIZE).

(** The allocator's state [k] implements the pool [P] of pages from [lo] on,
    the pages in use having the contents they have in [ma]; the free pages
    below [lo] are at the end of the free list. *)
Record refines (rc lo : Z) (rest : list Z) (k : kmem) (ma : mem) (P : Pool.pool) : Prop := {
  ref_wf : wf_mem (km_mem k);
  ref_list : flist (km_mem k) (km_freelist k) (Pool.free P ++ rest);
  ref_rest : Forall (under rc lo) rest;
  ref_managed : Forall (managed lo) (Pool.free P);
  ref_nodup : NoDup (Pool.free P);
  ref_counts : forall pa, managed lo pa -> ld64 (km_mem k) (counter rc (pa / PGSIZE)) = Pool.refs P pa;
  ref_free : forall pa, pa ∈ Pool.free P -> Pool.refs P pa = 0;
  ref_held : forall pa, 0 < Pool.refs P pa -> managed lo pa;
  ref_mem : forall p x, managed lo p -> p ∉ Pool.free P -> p <= x < p + PGSIZE -> km_mem k x = ma x
}.

Lemma flist_ext m m' head l :
  (forall p, p ∈ l -> ld64 m p = ld64 m' p) -> flist m head l -> flist m' head l.
Proof.
  revert head. induction l as [|p l IH]; intros head H; [done|]. cbn [flist].
  intros [-> Hl]. split; [done|]. rewrite <- (H p) by constructor.
  apply IH; [|done]. intros q Hq. apply H. by constructor.
Qed.

Lemma managed_apart end_ p q :
  managed end_ p -> managed end_ q -> p <> q -> p + PGSIZE <= q \/ q + PGSIZE <= p.
Proof. unfold managed, PGSIZE. intros [H1 _] [H2 _] Hne. dlia. Qed.

Lemma managed_bounds end_ p :
  KERNBASE <= end_ -> managed end_ p -> KERNBASE <= p < PHYSTOP.
Proof. intros H [_ Hp]. lia. Qed.

Lemma managed_page_num end_ pa :
  KERNBASE <= end_ -> managed end_ pa -> KERNBASE / PGSIZE <= pa / PGSIZE < PHYSTOP / PGSIZE.
Proof.
  intros He Hp. pose proof (managed_bounds _ _ He Hp).
  unfold managed, PHYSTOP, KERNBASE, PGSIZE in *. dlia.
Qed.

Lemma managed_ne0 end_ pa : KERNBASE <= end_ -> managed end_ pa -> (pa =? 0) = false.
Proof. intros He H. apply Z.eqb_neq. pose proof (managed_bounds _ _ He H). unfold KERNBASE in *. lia. Qed.

Lemma set_ref_eq f pa v : Pool.set_ref f pa v pa = v.
Proof. unfold Pool.set_ref. by rewrite Z.eqb_refl. Qed.
Lemma set_ref_ne f pa v q : q <> pa -> Pool.set_ref f pa v q = f q.
Proof. unfold Pool.set_ref. intros. by destruct (Z.eqb_spec q pa). Qed.

Section Refinement.
Context (rc lo : Z) (Hcl : clean rc lo).

(** The counters of pages from [lo] on lie below [lo], at or above the first. *)
Lemma counter_under pa :
  managed lo pa -> counter rc (lo / PGSIZE) <= counter rc (pa / PGSIZE) /\ counter rc (pa / PGSIZE) + 8 <= lo.
Proof.
  intros Hp. pose proof (managed_page_num lo pa (cl_kern _ _ Hcl) Hp) as Hn. destruct Hp as [Hp0 Hp].
  pose proof (cl_above _ _ Hcl). unfold counter in *. unfold PGSIZE in *.
  pose proof (Z.div_le_mono lo pa 4096). lia.
Qed.

Lemma counter_inj pa q :
  managed lo pa -> managed lo q -> pa <> q ->
  counter rc (pa / PGSIZE) + 8 <= counter rc (q / PGSIZE) \/
  counter rc (q / PGSIZE) + 8 <= counter rc (pa / PGSIZE).
Proof. unfold managed, counter, PGSIZE. intros [H1 _] [H2 _] Hne. dlia. Qed.

(** Storing [v] in the counter of [pa] and running [f] on the page [pa] only. *)
Lemma counts_after m v pa (f : mem -> mem) refs :
  managed lo pa -> 0 <= v < 2 ^ 64 ->
  (forall m' x, x < pa \/ pa + PGSIZE <= x -> f m' x = m' x) ->
  (forall q, managed lo q -> ld64 m (counter rc (q / PGSIZE)) = refs q) ->
  forall q, managed lo q ->
    ld64 (f (st64 m (counter rc (pa / PGSIZE)) v)) (counter rc (q / PGSIZE)) = Pool.set_ref refs pa v q.
Proof.
  intros Hp Hv Hf Hr q Hq. pose proof (counter_under q Hq). pose proof Hp as [_ Hpb].
  rewrite (ldn_ext 8 _ (st64 m (counter rc (pa / PGSIZE)) v)) by (intros; apply Hf; lia).
  destruct (decide (q = pa)) as [->|Hne].
  - rewrite ldn_stn_eq, set_ref_eq. apply Z.mod_small. lia.
  - pose proof (counter_inj _ _ Hq Hp Hne). rewrite ldn_stn_ne, set_ref_ne by lia. by apply Hr.
Qed.

Lemma flist_after m v pa (f : mem -> mem) head l rest :
  managed lo pa -> Forall (managed lo) l -> Forall (under rc lo) rest -> pa ∉ l ->
  (forall m' x, x < pa \/ pa + PGSIZE <= x -> f m' x = m' x) ->
  flist m head (l ++ rest) -> flist (f (st64 m (counter rc (pa / PGSIZE)) v)) head (l ++ rest).
Proof.
  intros Hp Hl Hrest Hn Hf. apply flist_ext. intros q Hq.
  pose proof (counter_under pa Hp). pose proof Hp as [_ Hpb].
  assert ((q + PGSIZE <= pa \/ pa + PGSIZE <= q) /\ (q + PGSIZE <= counter rc (pa / PGSIZE) \/ counter rc (pa / PGSIZE) + 8 <= q)) as [H1 H2].
  { rewrite elem_of_app in Hq. rewrite Forall_forall in Hl, Hrest. destruct Hq as [Hq|Hq].
    - pose proof (Hl q Hq) as Hqm. assert (q <> pa) as Hne by (by intros ->). pose proof (managed_apart _ _ _ Hqm Hp Hne).
      destruct Hqm as [_ Hqb]. lia.
    - destruct (Hrest q Hq). lia. }
  apply ldn_ext. intros x Hx. unfold PGSIZE in *. rewrite Hf by lia. symmetry. apply stn_out. lia.
Qed.

(** Setting the counter of [pa] and running [f] on the page [pa] keeps the
    relation; [l] are the free pages afterwards. *)
Lemma refines_after rest k ma P pa v (f fa : mem -> mem) head l :
  refines rc lo rest k ma P -> managed lo pa -> 0 <= v < 2 ^ 64 ->
  (forall m, wf_mem m -> wf_mem (f m)) ->
  (forall m x, x < pa \/ pa + PGSIZE <= x -> f m x = m x) ->
  (forall m x, x < pa \/ pa + PGSIZE <= x -> fa m x = m x) ->
  (pa ∉ l -> forall m1 m2, (pa ∉ Pool.free P -> forall x, pa <= x < pa + PGSIZE -> m1 x = m2 x) ->
                 forall x, pa <= x < pa + PGSIZE -> f m1 x = fa m2 x) ->
  flist (f (st64 (km_mem k) (counter rc (pa / PGSIZE)) v)) head (l ++ rest) ->
  Forall (managed lo) l -> NoDup l -> (pa ∈ l -> v = 0) ->
  (forall p, p <> pa -> p ∈ l <-> p ∈ Pool.free P) ->
  refines rc lo rest (mkKmem (f (st64 (km_mem k) (counter rc (pa / PGSIZE)) v)) head) (fa ma)
    (Pool.mkPool l (Pool.set_ref (Pool.refs P) pa v)).
Proof.
  intros [Rw Rl Rt Rm Rn Rc Rf Rh Rx] Hp Hv Hwf Hf Hfa Hff Hl Hm Hn H0 Hiff. split; cbn; auto with memdb.
  - eapply counts_after; eauto.
  - intros q Hq. destruct (decide (q = pa)) as [->|Hne]; [rewrite set_ref_eq; auto|].
    rewrite set_ref_ne by done. by apply Rf, Hiff.
  - intros q Hq. destruct (decide (q = pa)) as [->|Hne]; [done|]. rewrite set_ref_ne in Hq by done. auto.
  - intros p x Hpm Hpl Hx. pose proof (counter_under pa Hp). pose proof Hpm as [_ Hpb].
    destruct (decide (p = pa)) as [->|Hne].
    + apply Hff; [done| |done]. intros Hfr y Hy. rewrite stn_out by lia. eauto.
    + pose proof (managed_apart _ _ _ Hpm Hp Hne). rewrite Hiff in Hpl by done.
      rewrite Hf, Hfa, stn_out by lia. eauto.
Qed.

Lemma memset_page_ext pa c m1 m2 x :
  pa <= x < pa + PGSIZE -> memset m1 pa c PGSIZE x = memset m2 pa c PGSIZE x.
Proof. intros. rewrite !memset_in by lia. done. Qed.

Lemma memset_page_out pa c m x :
  x < pa \/ pa + PGSIZE <= x -> memset m pa c PGSIZE x = m x.
Proof. intros. by apply memset_out. Qed.

(** kalloc, while a page from [lo] on is free. *)
Lemma kalloc_refines rest k ma P r l :
  refines rc lo rest k ma P -> Pool.free P = r :: l ->
  exists k', kalloc rc k = Ret r k' /\
    refines rc lo rest k' (memset ma r 5 PGSIZE) (Pool.mkPool l (Pool.set_ref (Pool.refs P) r 1)).
Proof.
  intros HR Hfree. pose proof HR as [Rw Rl Rt Rm Rn Rc Rf Rh Rx]. unfold kalloc.
  rewrite Hfree in *. cbn [flist app] in Rl. destruct Rl as [Rhd Rl].
  apply Forall_cons in Rm as [Rr Rm]. apply NoDup_cons in Rn as [Rnr Rn].
  eexists. unfold bind, gets, when, modify, ret. rewrite Rhd, (managed_ne0 lo _ (cl_kern _ _ Hcl)) by done.
  cbn. split; [done|]. rewrite PGROUNDDOWN_div.
  apply (refines_after rest k ma P r 1 (fun m => memset m r 5 PGSIZE) (fun m => memset m r 5 PGSIZE));
    [done|done|lia|auto using memset_wf|auto using memset_page_out|auto using memset_page_out| | |done|done|done|].
  - intros _ m1 m2 _ x Hx. by apply memset_page_ext.
  - apply (flist_after (km_mem k) 1 r (fun m => memset m r 5 PGSIZE)); auto using memset_page_out.
  - intros p Hne. rewrite Hfree, elem_of_cons. naive_solver.
Qed.

Lemma freelist_range rest k ma P pa : refines rc lo rest k ma P -> managed lo pa -> 0 <= km_freelist k < 2 ^ 64.
Proof.
  intros [Rw Rl Rt Rm Rn Rc Rf Rh Rx] Hp. pose proof (cl_kern _ _ Hcl). pose proof (counter_under pa Hp) as Hc.
  pose proof Hp as [_ Hpb]. unfold PHYSTOP, KERNBASE, PGSIZE in *.
  destruct (Pool.free P) as [|q l]; cbn [flist app] in Rl.
  - destruct rest as [|q l]; cbn [flist] in Rl; [lia|]. destruct Rl as [-> _].
    apply Forall_cons in Rt as [[H0 H1] _]. unfold PGSIZE in *. lia.
  - destruct Rl as [-> _]. apply Forall_cons in Rm as [[_ Hq] _]. unfold PHYSTOP, KERNBASE in *. lia.
Qed.

(** kfree of a page from [lo] on that is in use. *)
Lemma kfree_refines end_ rest k ma P pa :
  end_ <= lo -> refines rc lo rest k ma P -> 0 < Pool.refs P pa ->
  let '(ma', P') := Pool.give pa ma P in
  exists k', kfree rc end_ pa k = Ret tt k' /\ refines rc lo rest k' ma' P'.
Proof.
  intros He HR Hr. pose proof HR as [Rw Rl Rt Rm Rn Rc Rf Rh Rx]. unfold Pool.give, kfree.
  assert (managed lo pa) as Hp by auto. assert (pa ∉ Pool.free P) as Hni by (intros Hin; apply Rf in Hin; lia).
  pose proof Hp as [Hp0 Hpr]. rewrite Hp0. zb. cbn [Z.eqb negb orb].
  unfold bind, gets, modify. cbn. rewrite PGROUNDDOWN_div, (Rc pa Hp).
  pose proof (ld64_range (km_mem k) (counter rc (pa / PGSIZE)) Rw) as Hc. rewrite (Rc pa Hp) in Hc.
  destruct (Z.ltb_spec 1 (Pool.refs P pa)).
  - eexists. split; [done|].
    apply (refines_after rest k ma P pa (Pool.refs P pa - 1) (fun m => m) (fun m => m)); auto; [lia| |done].
    apply (flist_after (km_mem k) _ pa (fun m => m)); auto.
  - eexists. split; [done|]. set (h := km_freelist k). set (h' := default 0 (head (Pool.free P))).
    assert (forall (m : mem) h x, x < pa \/ pa + PGSIZE <= x -> st64 (memset m pa 1 PGSIZE) pa h x = m x) as Hout.
    { intros m h0 x Hx. unfold PGSIZE in *. rewrite stn_out by lia. by apply memset_out. }
    apply (refines_after rest k ma P pa 0 (fun m => st64 (memset m pa 1 PGSIZE) pa h)
             (fun m => st64 (memset m pa 1 PGSIZE) pa h'));
      [done|done|lia|auto using memset_wf, stn_wf|auto|auto| | | | |done|].
    + intros []. constructor.
    + cbn. split; [done|]. rewrite ldn_stn_eq, Z.mod_small by (by eapply freelist_range).
      apply (flist_after (km_mem k) 0 pa (fun m => st64 (memset m pa 1 PGSIZE) pa h)); auto.
    + by constructor.
    + by constructor.
    + intros p Hne. rewrite elem_of_cons. naive_solver.
Qed.

Lemma add_page_reference_refines rest k ma P pa x :
  refines rc lo rest k ma P -> 0 < Pool.refs P pa < 2 ^ 64 - 1 -> pa <= x < pa + PGSIZE ->
  exists k', add_page_reference rc x k = Ret tt k' /\
    refines rc lo rest k' ma (Pool.mkPool (Pool.free P) (Pool.set_ref (Pool.refs P) pa (Pool.refs P pa + 1))).
Proof.
  intros HR Hr Hx. pose proof HR as [Rw Rl Rt Rm Rn Rc Rf Rh Rx]. unfold add_page_reference, modify.
  assert (managed lo pa) as Hp by (apply Rh; lia). assert (pa ∉ Pool.free P) as Hni by (intros Hin; apply Rf in Hin; lia).
  pose proof (managed_page_num lo pa (cl_kern _ _ Hcl) Hp) as Hn.
  assert (u32 (PGROUNDDOWN x / PGSIZE) = pa / PGSIZE) as ->.
  { rewrite PGROUNDDOWN_div. destruct Hp as [Hp0 Hpb]. unfold u32. rewrite Z.mod_small; unfold PHYSTOP, KERNBASE, PGSIZE in *; dlia. }
  eexists. split; [done|]. rewrite (Rc pa Hp).
  apply (refines_after rest k ma P pa (Pool.refs P pa + 1) (fun m => m) (fun m => m)); auto; [lia| |done].
  apply (flist_after (km_mem k) _ pa (fun m => m)); auto.
Qed.

(** A client's store into a page it has. *)
Lemma store_refines rest k ma P pa x v :
  refines rc lo rest k ma P -> 0 < Pool.refs P pa -> pa <= x < pa + PGSIZE ->
  refines rc lo rest (mkKmem (st8 (km_mem k) x v) (km_freelist k)) (st8 ma x v) P.
Proof.
  intros [Rw Rl Rt Rm Rn Rc Rf Rh Rx] Hr Hx. assert (managed lo pa) as Hp by auto.
  assert (pa ∉ Pool.free P) as Hni by (intros Hin; apply Rf in Hin; lia). pose proof Hp as [_ Hpb].
  split; cbn; auto using st8_wf.
  - revert Rl. apply flist_ext. intros q Hq. symmetry. rewrite ldn_st8_ne; [done|].
    rewrite elem_of_app in Hq. rewrite Forall_forall in Rm, Rt. destruct Hq as [Hq|Hq].
    + assert (q <> pa) as Hne by (by intros ->). pose proof (managed_apart _ _ _ (Rm q Hq) Hp Hne). unfold PGSIZE in *. lia.
    + destruct (Rt q Hq). pose proof (counter_under pa Hp). unfold PGSIZE in *. lia.
  - intros q Hq. rewrite ldn_st8_ne; [auto|]. pose proof (counter_under q Hq). lia.
  - intros p y Hpm Hpf Hy. unfold st8. destruct (y =? x); [done|]. eauto.
Qed.
End Refinement.

(** ** Calls of the allocator's clients *)

(** What a client may do: the three functions, and a store of a byte. *)
Inductive call := Alloc | Free (pa : Z) | Share (x : Z) | Store (x v : Z).

Definition do_call (rc end_ : Z) (c : call) : M kmem Z :=
  match c with
  | Alloc => kalloc rc
  | Free pa => kfree rc end_ pa ;;; ret 0
  | Share x => add_page_reference rc x ;;; ret 0
  | Store x v => modify (fun k => mkKmem (st8 (km_mem k) x v) (km_freelist k)) ;;; ret 0
  end.

(** What the pool does; a client passes and writes only pages it has, and the
    pool has a page when it asks for one. *)
Definition pool_call (c : call) (ma : mem) (P : Pool.pool) : option (Z * mem * Pool.pool) :=
  match c with
  | Alloc => match Pool.free P with [] => None | _ :: _ => Some (Pool.take ma P) end
  | Free pa => if 0 <? Pool.refs P pa then let '(ma, P) := Pool.give pa ma P in Some (0, ma, P) else None
  | Share x => let pa := PGROUNDDOWN x in
      if (0 <? Pool.refs P pa) && (Pool.refs P pa <? 2 ^ 64 - 1)
      then Some (0, ma, Pool.mkPool (Pool.free P) (Pool.set_ref (Pool.refs P) pa (Pool.refs P pa + 1))) else None
  | Store x v => if 0 <? Pool.refs P (PGROUNDDOWN x) then Some (0, st8 ma x v, P) else None
  end.

Fixpoint do_calls (rc end_ : Z) (cs : list call) : M kmem (list Z) :=
  match cs with [] => ret [] | c :: cs => r <- do_call rc end_ c ;; rs <- do_calls rc end_ cs ;; ret (r :: rs) end.

Fixpoint pool_calls (cs : list call) (ma : mem) (P : Pool.pool) : option (list Z * mem * Pool.pool) :=
  match cs with
  | [] => Some ([], ma, P)
  | c :: cs => match pool_call c ma P with
      | Some (r, ma, P) => match pool_calls cs ma P with Some (rs, ma, P) => Some (r :: rs, ma, P) | None => None end
      | None => None
      end
  end.

Lemma PGROUNDDOWN_in x : PGROUNDDOWN x <= x < PGROUNDDOWN x + PGSIZE.
Proof. rewrite PGROUNDDOWN_mod. unfold PGSIZE. dlia. Qed.

(** Splits an equality of results without computing the memories in it. *)
Ltac result E := apply Some_inj in E; apply pair_equal_spec in E as [E <-]; apply pair_equal_spec in E as [<- <-].

Section Calls.
Context (rc lo end_ : Z) (Hcl : clean rc lo) (He : end_ <= lo).

Lemma call_refines c rest k ma P r ma' P' :
  refines rc lo rest k ma P -> pool_call c ma P = Some (r, ma', P') ->
  exists k', do_call rc end_ c k = Ret r k' /\ refines rc lo rest k' ma' P'.
Proof.
  intros HR E. destruct c as [|pa|x|x v]; cbn [pool_call do_call] in *.
  - unfold Pool.take in E. destruct (Pool.free P) as [|r0 l] eqn:Hf; [done|]. result E.
    by apply (kalloc_refines rc lo Hcl rest k ma P).
  - destruct (Z.ltb_spec 0 (Pool.refs P pa)) as [Hr|]; [|done]. pose proof (kfree_refines rc lo Hcl end_ rest k ma P pa He HR Hr) as H.
    destruct (Pool.give pa ma P). result E. destruct H as (k' & H & R). exists k'. by rewrite (bind_Ret _ _ _ _ _ H).
  - destruct (Z.ltb_spec 0 (Pool.refs P (PGROUNDDOWN x))), (Z.ltb_spec (Pool.refs P (PGROUNDDOWN x)) (2 ^ 64 - 1)); try done.
    result E. pose proof (PGROUNDDOWN_in x).
    destruct (add_page_reference_refines rc lo Hcl rest k ma P (PGROUNDDOWN x) x HR ltac:(lia) ltac:(done)) as (k' & H' & R).
    exists k'. by rewrite (bind_Ret _ _ _ _ _ H').
  - destruct (Z.ltb_spec 0 (Pool.refs P (PGROUNDDOWN x))); [|done]. result E.
    eexists. split; [done|]. eapply store_refines; eauto using PGROUNDDOWN_in.
Qed.

Lemma calls_refine cs rest k ma P rs ma' P' :
  refines rc lo rest k ma P -> pool_calls cs ma P = Some (rs, ma', P') ->
  exists k', do_calls rc end_ cs k = Ret rs k' /\ refines rc lo rest k' ma' P'.
Proof.
  revert k ma P rs. induction cs as [|c cs IH]; intros k ma P rs HR E; cbn [pool_calls do_calls] in *.
  { injection E as <- <- <-. by exists k. }
  destruct (pool_call c ma P) as [[[r m1] P1]|] eqn:E1; [|done].
  destruct (pool_calls cs m1 P1) as [[[rs2 m2] P2]|] eqn:E2; [|done]. injection E as <- <- <-.
  destruct (call_refines c rest k ma P _ _ _ HR E1) as (k1 & H1 & R1).
  destruct (IH k1 m1 P1 rs2 R1 E2) as (k2 & H2 & R2). exists k2. split; [|done].
  rewrite (bind_Ret _ _ _ _ _ H1), (bind_Ret _ _ _ _ _ H2). done.
Qed.
End Calls.

(** ** Where the counters are, and what that does to kinit *)

(** The addresses of ref_counter and end in the kernels built in the
    repository (kernel/kernel-hostA and kernel/kernel-hostB). *)
Definition image_ref_counter : Z := 0x80014670.
Definition image_end : Z := 0x8006ff30.

(** The index into ref_counter is an absolute page number, so the counters of
    RAM lie 4 MB above the table, in the pages 0x80414000 to 0x80454000.  kinit
    frees the pages in order, each filled with junk.  Freeing the page
    [image_lost] - PGSIZE makes junk the counters of the pages from [image_lost]
    up to [image_clean], which are in it: kfree takes these for shared and does
    not free them.  Among them are the pages with the counters of the pages from
    [image_clean] on. *)
Definition image_first : Z := 0x80070000.
Definition image_lost : Z := 0x80417000.
Definition image_clean : Z := 0x80532000.

(** [n] pages from [lo] on, the last one first. *)
Fixpoint descending (lo : Z) (n : nat) : list Z :=
  match n with O => [] | S n => (lo + PGSIZE * Z.of_nat n) :: descending lo n end.

Definition pages_between (lo hi : Z) : list Z := descending lo (Z.to_nat ((hi - lo) / PGSIZE)).

Lemma elem_of_descending lo n q :
  q ∈ descending lo n <-> exists i, (i < n)%nat /\ q = lo + PGSIZE * Z.of_nat i.
Proof.
  induction n as [|n IH]; cbn [descending].
  - split; [by intros ?%elem_of_nil | intros (i & ? & _); lia].
  - rewrite elem_of_cons, IH. split.
    + intros [->|(i & Hi & ->)]; [exists n | exists i]; split; (done || lia).
    + intros (i & Hi & ->). destruct (decide (i = n)) as [->|]; [by left|]. right. exists i. split; [lia|done].
Qed.

Lemma descending_NoDup lo n : NoDup (descending lo n).
Proof.
  induction n as [|n IH]; constructor; [|done]. rewrite elem_of_descending.
  intros (i & Hi & E). unfold PGSIZE in E. lia.
Qed.

Section Kfree.
Context (rc end_ : Z).

Lemma kfree_last m h pa :
  managed end_ pa -> ld64 m (counter rc (pa / PGSIZE)) <= 1 ->
  kfree rc end_ pa (mkKmem m h)
  = Ret tt (mkKmem (st64 (memset (st64 m (counter rc (pa / PGSIZE)) 0) pa 1 PGSIZE) pa h) pa).
Proof.
  intros [Hp0 Hp] Hc. unfold kfree. rewrite Hp0. zb. cbn [Z.eqb negb orb].
  unfold bind, gets, modify. cbn [km_mem]. rewrite PGROUNDDOWN_div. by zb.
Qed.

Lemma kfree_shared m h pa :
  managed end_ pa -> 1 < ld64 m (counter rc (pa / PGSIZE)) ->
  kfree rc end_ pa (mkKmem m h)
  = Ret tt (mkKmem (st64 m (counter rc (pa / PGSIZE)) (ld64 m (counter rc (pa / PGSIZE)) - 1)) h).
Proof.
  intros [Hp0 Hp] Hc. unfold kfree. rewrite Hp0. zb. cbn [Z.eqb negb orb].
  unfold bind, gets, modify. cbn [km_mem]. rewrite PGROUNDDOWN_div. by zb.
Qed.

(** The loop of freerange keeps what every kfree of it keeps. *)
Lemma freerange_loop_inv (I : nat -> kmem -> Prop) p0 pa_end N :
  p0 + PGSIZE * Z.of_nat N <= pa_end ->
  (forall n k, (n < N)%nat -> I n k -> exists k', kfree rc end_ (p0 + PGSIZE * Z.of_nat n) k = Ret tt k' /\ I (S n) k') ->
  forall k, I 0%nat k -> exists k', freerange_loop rc end_ N p0 pa_end k = Ret tt k' /\ I N k'.
Proof.
  intros Hend Hstep.
  assert (forall j n k, (n + j = N)%nat -> I n k ->
    exists k', freerange_loop rc end_ j (p0 + PGSIZE * Z.of_nat n) pa_end k = Ret tt k' /\ I N k') as H.
  { induction j as [|j IH]; intros n k Hn HI; cbn [freerange_loop].
    { exists k. split; [done|]. by replace N with n by lia. }
    unfold PGSIZE in *. zb. destruct (Hstep n k ltac:(lia) HI) as (k1 & E & H1).
    destruct (IH (S n) k1 ltac:(lia) H1) as (k2 & E2 & H2). exists k2. split; [|done].
    rewrite (bind_Ret _ _ _ _ _ E), <- E2. f_equal; lia. }
  intros k HI. destruct (H N 0%nat k ltac:(lia) HI) as (k' & E & HI'). exists k'. split; [|done].
  rewrite <- E. f_equal; lia.
Qed.

Lemma freerange_loop_app a b p pa_end s :
  p + PGSIZE * Z.of_nat a <= pa_end ->
  freerange_loop rc end_ (a + b) p pa_end s
  = (freerange_loop rc end_ a p pa_end ;;; freerange_loop rc end_ b (p + PGSIZE * Z.of_nat a) pa_end) s.
Proof.
  revert p s. induction a as [|a IH]; intros p s H; cbn [Nat.add freerange_loop].
  { unfold bind, ret. replace (p + PGSIZE * Z.of_nat 0) with p by lia. done. }
  unfold PGSIZE in *. zb. unfold bind. destruct (kfree rc end_ p s) as [[] s1| | | |]; [|done..].
  rewrite IH by lia. unfold bind. destruct (freerange_loop rc end_ a (p + 4096) pa_end s1); [|done..].
  by replace (p + 4096 + 4096 * Z.of_nat a) with (p + 4096 * Z.of_nat (S a)) by lia.
Qed.
End Kfree.

Lemma stn_zero n m a x : m x = 0 -> stn n m a 0 x = 0.
Proof.
  revert m a. induction n as [|n IH]; intros m a H; [done|].
  change (stn (S n) m a 0) with (stn n (st8 m a 0) (a + 1) 0). destruct (Z.eq_dec x a) as [->|].
  - rewrite stn_out by lia. by rewrite st8_eq.
  - apply IH. by rewrite st8_ne.
Qed.

Lemma ld64_const m a c :
  (forall x, a <= x < a + 8 -> m x = c) -> ld64 m a = ld64 (fun _ => c) 0.
Proof.
  intros H. assert (forall n b a, (forall x, a <= x < a + Z.of_nat n -> m x = c) -> ldn n m a = ldn n (fun _ => c) b) as H'.
  { induction n as [|n IH]; intros b a0 Hx; rewrite ?ldn_S; [done|]. rewrite (Hx a0) by lia. rewrite (IH (b + 1) (a0 + 1)); [done|].
    intros x Hx'. apply Hx. lia. }
  by apply H'.
Qed.

Section Boot.
Abbreviation rc := image_ref_counter.
Abbreviation NA := (Z.to_nat ((image_lost - image_first) / PGSIZE)).
Abbreviation NB := (Z.to_nat ((image_clean - image_lost) / PGSIZE)).
Abbreviation NC := (Z.to_nat ((PHYSTOP - image_clean) / PGSIZE)).

(** The addresses as numbers, for lia. *)
Ltac addr :=
  unfold managed, counter, image_ref_counter, image_end, image_first, image_lost, image_clean, PHYSTOP, KERNBASE, PGSIZE in *.

Lemma page_numbers :
  (image_lost - image_first) / PGSIZE = 935 /\ (image_clean - image_lost) / PGSIZE = 283 /\
  (PHYSTOP - image_clean) / PGSIZE = 31438 /\ (PHYSTOP - image_first) / PGSIZE = 32656.
Proof. done. Qed.

(** The counter of the [n]th page from the page-aligned address [p0]. *)
Lemma image_counter p0 n :
  p0 mod PGSIZE = 0 -> counter rc ((p0 + PGSIZE * Z.of_nat n) / PGSIZE) = rc + 8 * (p0 / PGSIZE) + 8 * Z.of_nat n.
Proof. intros H. unfold counter, PGSIZE in *. replace (p0 + 4096 * Z.of_nat n) with (p0 + Z.of_nat n * 4096) by lia. rewrite Z.div_add by lia. lia. Qed.

Lemma flist_head m h l : Forall (fun q => 0 <= q < 2 ^ 64) l -> flist m h l -> 0 <= h < 2 ^ 64.
Proof. destruct l; cbn [flist]; [lia|]. by intros [H _]%Forall_cons [-> _]. Qed.

(** kfree of a page whose counter is in memory that is zero. *)
Lemma kfree_zero m h pa l c :
  managed image_end pa -> c = counter rc (pa / PGSIZE) -> wf_mem m ->
  (forall x, c <= x < c + 8 -> m x = 0) -> flist m h l ->
  (forall q, q ∈ l -> 0 <= q < 2 ^ 64 /\ (q + 8 <= c \/ c + 8 <= q) /\ (q + 8 <= pa \/ pa + PGSIZE <= q)) ->
  exists m', kfree rc image_end pa (mkKmem m h) = Ret tt (mkKmem m' pa) /\ wf_mem m' /\ flist m' pa (pa :: l) /\
    (forall x, x < pa \/ pa + PGSIZE <= x -> m x = 0 -> m' x = 0) /\
    (forall x, pa + 8 <= x < pa + PGSIZE -> m' x = 1).
Proof.
  intros Hp -> Hw Hz Hl Hq. eexists. split; [apply kfree_last; [done|]; by rewrite (ld64_const _ _ 0)|].
  split; [auto using stn_wf, memset_wf|]. split; [|split].
  - cbn [flist]. split; [done|]. rewrite ldn_stn_eq, Z.mod_small.
    + revert Hl. apply flist_ext. intros q Hin. destruct (Hq q Hin) as (_ & H1 & H2). unfold PGSIZE in *.
      apply ldn_ext. intros x Hx. symmetry. rewrite stn_out, memset_out, stn_out by lia. done.
    + change (8 * Z.of_nat 8) with 64. eapply flist_head; [|exact Hl]. apply Forall_forall. intros q Hin. by apply Hq.
  - intros x Hx H0. unfold PGSIZE in *. rewrite stn_out, memset_out by lia. by apply stn_zero.
  - intros x Hx. unfold PGSIZE in *. rewrite stn_out, memset_in by lia. done.
Qed.

Definition phaseA (n : nat) (k : kmem) : Prop :=
  wf_mem (km_mem k) /\ flist (km_mem k) (km_freelist k) (descending image_first n) /\
  (forall a, image_first + PGSIZE * Z.of_nat n <= a < PHYSTOP -> km_mem k a = 0) /\
  ((0 < n)%nat -> forall a, image_first + PGSIZE * Z.of_nat n - PGSIZE + 8 <= a < image_first + PGSIZE * Z.of_nat n -> km_mem k a = 1).

Lemma phaseA_step n k :
  (n < NA)%nat -> phaseA n k ->
  exists k', kfree rc image_end (image_first + PGSIZE * Z.of_nat n) k = Ret tt k' /\ phaseA (S n) k'.
Proof.
  destruct page_numbers as (-> & _). intros Hn (Hw & Hl & Hz & _). destruct k as [m h]; cbn [km_mem km_freelist] in *.
  pose proof (image_counter image_first n eq_refl) as Hc. change (image_first / PGSIZE) with 524400 in Hc.
  destruct (kfree_zero m h (image_first + PGSIZE * Z.of_nat n) (descending image_first n) _ ltac:(split; [addr; dlia|addr; lia])
              (eq_sym Hc) Hw) as (m' & E & Hw' & Hl' & Hz' & H1').
  - intros x Hx. apply Hz. addr. lia.
  - done.
  - intros q (i & Hi & ->)%elem_of_descending. addr. lia.
  - eexists. split; [exact E|]. split_and!; cbn [km_mem km_freelist]; [done|done| |].
    + intros a Ha. apply Hz'; [|apply Hz]; addr; lia.
    + intros _ a Ha. apply H1'. addr. lia.
Qed.

Definition phaseB (n : nat) (k : kmem) : Prop :=
  wf_mem (km_mem k) /\ flist (km_mem k) (km_freelist k) (descending image_first NA) /\
  (forall a, image_lost <= a < PHYSTOP -> km_mem k a = 0) /\
  (forall a, rc + 8 * (image_lost / PGSIZE) + 8 * Z.of_nat n <= a < image_lost -> km_mem k a = 1).

Lemma phaseB_step n k :
  (n < NB)%nat -> phaseB n k ->
  exists k', kfree rc image_end (image_lost + PGSIZE * Z.of_nat n) k = Ret tt k' /\ phaseB (S n) k'.
Proof.
  unfold phaseB. destruct page_numbers as (-> & -> & _). change (image_lost / PGSIZE) with 525335.
  intros Hn (Hw & Hl & Hz & H1). destruct k as [m h]; cbn [km_mem km_freelist] in *.
  pose proof (image_counter image_lost n eq_refl) as Hc. change (image_lost / PGSIZE) with 525335 in Hc.
  assert (ld64 m (rc + 8 * 525335 + 8 * Z.of_nat n) = 0x0101010101010101) as Hld.
  { rewrite (ld64_const _ _ 1); [done|]. intros x Hx. apply H1. addr. lia. }
  rewrite kfree_shared, Hc, Hld; [|split; [addr; dlia|addr; lia]|rewrite Hc, Hld; lia].
  eexists. split; [done|]. split_and!; cbn [km_mem km_freelist]; [auto using stn_wf| | |].
  - revert Hl. apply flist_ext. intros q (i & Hi & ->)%elem_of_descending. symmetry. apply ldn_stn_ne. addr. lia.
  - intros a Ha. rewrite stn_out by (addr; lia). auto.
  - intros a Ha. rewrite stn_out by lia. apply H1. lia.
Qed.

Definition phaseC (n : nat) (k : kmem) : Prop :=
  wf_mem (km_mem k) /\ flist (km_mem k) (km_freelist k) (descending image_clean n ++ descending image_first NA) /\
  (forall a, image_lost <= a < image_clean -> km_mem k a = 0).

Lemma phaseC_step n k :
  (n < NC)%nat -> phaseC n k ->
  exists k', kfree rc image_end (image_clean + PGSIZE * Z.of_nat n) k = Ret tt k' /\ phaseC (S n) k'.
Proof.
  unfold phaseC. destruct page_numbers as (-> & _ & -> & _).
  intros Hn (Hw & Hl & Hz). destruct k as [m h]; cbn [km_mem km_freelist] in *.
  pose proof (image_counter image_clean n eq_refl) as Hc. change (image_clean / PGSIZE) with 525618 in Hc.
  destruct (kfree_zero m h (image_clean + PGSIZE * Z.of_nat n) _ _ ltac:(split; [addr; dlia|addr; lia])
              (eq_sym Hc) Hw ltac:(intros x Hx; apply Hz; addr; lia) Hl) as (m' & E & Hw' & Hl' & Hz' & _).
  - intros q [(i & Hi & ->)%elem_of_descending|(i & Hi & ->)%elem_of_descending]%elem_of_app; addr; lia.
  - eexists. split; [exact E|]. split_and!; cbn [km_mem km_freelist]; [done|done|].
    intros a Ha. apply Hz'; [addr; lia|auto].
Qed.

Lemma kinit_phases m :
  wf_mem m -> (forall a, image_end <= a < PHYSTOP -> m a = 0) ->
  exists k, kinit rc image_end (mkKmem m 0) = Ret tt k /\ phaseC NC k.
Proof.
  intros Hw Hz. unfold kinit, freerange. change (PGROUNDUP image_end) with image_first.
  destruct page_numbers as (EA & EB & EC & ->).
  replace (Z.to_nat 32656) with (NA + (NB + NC))%nat by (rewrite EA, EB, EC; lia).
  destruct (freerange_loop_inv rc image_end phaseA image_first PHYSTOP NA ltac:(rewrite EA; addr; lia) phaseA_step (mkKmem m 0))
    as (k1 & E1 & H1).
  { split_and!; cbn [km_mem km_freelist]; [done|done| |lia]. intros a Ha. apply Hz. addr. lia. }
  rewrite freerange_loop_app, (bind_Ret _ _ _ _ _ E1) by (rewrite EA; addr; lia).
  replace (image_first + PGSIZE * Z.of_nat NA) with image_lost by (rewrite EA; done).
  destruct (freerange_loop_inv rc image_end phaseB image_lost PHYSTOP NB ltac:(rewrite EB; addr; lia) phaseB_step k1) as (k2 & E2 & H2).
  { destruct H1 as (? & ? & Hz1 & H1). split_and!; [done|done| |].
    - intros a Ha. apply Hz1. rewrite EA. addr. lia.
    - intros a Ha. change (image_lost / PGSIZE) with 525335 in Ha. apply H1; rewrite EA; addr; lia. }
  rewrite freerange_loop_app, (bind_Ret _ _ _ _ _ E2) by (rewrite EB; addr; lia).
  replace (image_lost + PGSIZE * Z.of_nat NB) with image_clean by (rewrite EB; done).
  destruct (freerange_loop_inv rc image_end phaseC image_clean PHYSTOP NC ltac:(rewrite EC; addr; lia) phaseC_step k2) as (k3 & E3 & H3).
  { destruct H2 as (? & ? & Hz2 & _). split_and!; [done|done|]. intros a Ha. apply Hz2. addr. lia. }
  by exists k3.
Qed.
End Boot.

Lemma image_is_clean : clean image_ref_counter image_clean.
Proof. split; done. Qed.

(** The pool clients have after boot. *)
Definition boot_pool : Pool.pool := Pool.mkPool (pages_between image_clean PHYSTOP) (fun _ => 0).

Lemma kinit_refines m :
  wf_mem m -> (forall a, image_end <= a < PHYSTOP -> m a = 0) ->
  exists k, kinit image_ref_counter image_end (mkKmem m 0) = Ret tt k /\
    refines image_ref_counter image_clean (pages_between image_first image_lost) k (km_mem k) boot_pool.
Proof.
  intros Hw Hz. destruct (kinit_phases m Hw Hz) as (k & E & Hw' & Hl & Hz'). exists k. split; [done|].
  split; cbn [Pool.free Pool.refs boot_pool]; [done|done| | | | |done|done|done].
  - apply Forall_forall. intros q (i & Hi & ->)%elem_of_descending. destruct page_numbers as (HA & _). rewrite HA in Hi.
    unfold under. change (counter image_ref_counter (image_clean / PGSIZE)) with 0x80417000. unfold image_first, PGSIZE in *. lia.
  - apply Forall_forall. intros q (i & Hi & ->)%elem_of_descending. destruct page_numbers as (_ & _ & HC & _). rewrite HC in Hi.
    unfold managed, image_clean, PHYSTOP, KERNBASE, PGSIZE. split; [dlia|lia].
  - apply descending_NoDup.
  - intros pa Hp. pose proof (managed_page_num image_clean pa ltac:(done) Hp) as Hn.
    rewrite (ld64_const _ _ 0); [done|]. intros x Hx. apply Hz'.
    destruct Hp as [_ Hp]. unfold counter, image_ref_counter, image_clean, image_lost, PHYSTOP, KERNBASE, PGSIZE in *. dlia.
Qed.


Lemma boot_pool_two : exists l, Pool.free boot_pool = 0x87fff000 :: 0x87ffe000 :: l.
Proof.
  unfold boot_pool, pages_between. cbn [Pool.free]. destruct page_numbers as (_ & _ & -> & _).
  replace (Z.to_nat 31438) with (S (S (Z.to_nat 31436))) by lia. cbn [descending].
  replace (Z.of_nat (S (Z.to_nat 31436))) with 31437 by lia. replace (Z.of_nat (Z.to_nat 31436)) with 31436 by lia.
  eexists. reflexivity.
Qed.

