(* ===== verification/Eth.v ===== *)
(** * kernel/sys/eth.h and kernel/sys/eth.c

    Ethernet framing.  A struct eth_frame lives in memory at its address; the
    [eth_*] offsets are those of the packed struct.  The MAC addresses build_eth
    copies come from three different objects (a local array, netconf, another
    packet), so they are passed as the six bytes the pointer refers to. *)
From S2P Require Import Prelude Mem StringC Net.
From Stdlib Require Import ZArith Lia.

(** ** Layout of struct eth_hdr and struct eth_frame *)
Definition ETH_HDR_SIZE : Z := 14.
Definition eth_src_addr : Z := 6.
Definition eth_type : Z := 12.
Definition eth_payload : Z := 14.
Definition eth_payload_len : Z := 1514.

(** ** Operations *)

Definition parse_eth_packet (m : mem) (buf len eth_frame : Z) : mem * Z :=
  let payload_len := u16 (len - ETH_HDR_SIZE) in
  let m := memmove m eth_frame buf ETH_HDR_SIZE in
  let m := memmove m (eth_frame + eth_payload) (buf + ETH_HDR_SIZE) payload_len in
  let m := st8 m (eth_frame + eth_payload_len) payload_len in
  (m, 0).

Definition build_eth (m : mem) (eth : Z) (dst src : list Z) (type : Z) : mem :=
  let m := stbytes m eth dst in
  let m := stbytes m (eth + eth_src_addr) src in
  st16 m (eth + eth_type) (htons type).

(** ** Lemmas *)

Lemma parse_eth_packet_wf m buf len f :
  wf_mem m -> wf_mem (fst (parse_eth_packet m buf len f)).
Proof.
  intros. pose proof (u16_range (len - ETH_HDR_SIZE)).
  apply st8_wf, memmove_wf; [apply memmove_wf; [done|]|]; unfold ETH_HDR_SIZE in *; lia.
Qed.

Lemma build_eth_wf m eth dst src type : wf_mem m -> wf_mem (build_eth m eth dst src type).
Proof. intros. unfold build_eth. auto with memdb. Qed.
#[export] Hint Resolve build_eth_wf : memdb.

Lemma build_eth_out m eth dst src type x :
  length dst = 6%nat -> length src = 6%nat -> x < eth \/ eth + ETH_HDR_SIZE <= x ->
  build_eth m eth dst src type x = m x.
Proof.
  intros Hd Hs Hx. unfold build_eth, eth_src_addr, eth_type, ETH_HDR_SIZE in *.
  rewrite stn_out, !stbytes_out by (rewrite ?Hd, ?Hs; lia). done.
Qed.

Lemma build_eth_bytes m eth dst src type :
  length dst = 6%nat -> length src = 6%nat -> bytes dst -> bytes src -> 0 <= type < 2 ^ 16 ->
  holds (build_eth m eth dst src type) eth (dst ++ src ++ be16 type).
Proof.
  intros Hd Hs Hbd Hbs Ht. unfold build_eth, eth_src_addr, eth_type.
  rewrite !holds_app, Hd, Hs.
  replace (eth + Z.of_nat 6 + Z.of_nat 6) with (eth + 12) by lia. split_and!.
  - apply holds_stn; [rewrite Hd; lia|].
    eapply holds_ext; [|by apply holds_stbytes]. intros x Hx. symmetry.
    apply stbytes_out. lia.
  - apply holds_stn; [rewrite Hs; lia|]. by apply holds_stbytes.
  - by apply holds_htons.
Qed.

(** Reading a frame of at least fourteen bytes into a buffer that does not
    overlap it: what the buffer then holds. *)
Lemma parse_eth_packet_spec m buf len f :
  wf_mem m -> 14 <= len <= 1514 ->
  buf + len <= f \/ f + 1515 <= buf ->
  exists m', parse_eth_packet m buf len f = (m', 0) /\ wf_mem m' /\
    (forall i, 0 <= i < len -> m' (f + i) = m (buf + i)) /\
    m' (f + eth_payload_len) = (len - 14) mod 256 /\
    (forall x, x < f \/ f + 1515 <= x -> m' x = m x).
Proof.
  intros Hw Hl Hd. eexists. split; [reflexivity|].
  assert (wf_mem (memmove m f buf 14)) by (apply memmove_wf; [done|lia]).
  unfold ETH_HDR_SIZE, eth_payload, eth_payload_len in *. rewrite (u16_small (len - 14)) by lia.
  split_and!.
  - apply st8_wf, memmove_wf; [done|lia].
  - intros i Hi. rewrite st8_ne by lia. destruct (Z.lt_ge_cases i 14).
    + rewrite memmove_out, memmove_in by (auto; lia). f_equal. lia.
    + rewrite memmove_in, memmove_out by (auto; lia). f_equal. lia.
  - rewrite st8_eq. done.
  - intros x Hx. rewrite st8_ne, !memmove_out by (auto; lia). done.
Qed.

(** ** Properties *)

(** C23: a frame built by build_eth and received by parse_eth_packet has the
    header that was built, the payload that followed it, and a payload length
    field that is right exactly when the payload is shorter than 256 bytes:
    the field is one byte wide. *)
Theorem parse_build_eth m eth dst src type len f :
  wf_mem m -> length dst = 6%nat -> length src = 6%nat -> bytes dst -> bytes src ->
  0 <= type < 2 ^ 16 -> 14 <= len <= 1514 -> eth + len <= f \/ f + 1515 <= eth ->
  exists m', parse_eth_packet (build_eth m eth dst src type) eth len f = (m', 0) /\
    ldbytes m' f 6 = dst /\ ldbytes m' (f + eth_src_addr) 6 = src /\
    ntohs (ld16 m' (f + eth_type)) = type /\
    ldbytes m' (f + eth_payload) (Z.to_nat (len - 14)) = ldbytes m (eth + 14) (Z.to_nat (len - 14)) /\
    (m' (f + eth_payload_len) = len - 14 <-> len < 270).
Proof.
  intros Hw Hd Hs Hbd Hbs Ht Hl Ha.
  pose proof (build_eth_bytes m eth dst src type Hd Hs Hbd Hbs Ht) as Hh.
  set (m1 := build_eth m eth dst src type) in *. assert (wf_mem m1) as Hw1 by (apply build_eth_wf; done).
  destruct (parse_eth_packet_spec m1 eth len f Hw1 Hl Ha) as (m' & -> & Hw' & Hin & Hpl & _).
  assert (holds m' f (dst ++ src ++ be16 type)) as Hh'.
  { unfold holds in *. rewrite <- Hh at 2. apply ldbytes_ext.
    rewrite !length_app, Hd, Hs. cbn [length be16]. intros i Hi. apply Hin. lia. }
  rewrite !holds_app, Hd, Hs in Hh'. destruct Hh' as (H1 & H2 & H3).
  unfold holds in H1, H2. rewrite Hd in H1. rewrite Hs in H2.
  unfold eth_src_addr, eth_type, eth_payload. exists m'. split_and!; try done.
  - apply holds_be16; [done|]. by replace (f + 12) with (f + Z.of_nat 6 + Z.of_nat 6) by lia.
  - apply ldbytes_ext. intros i Hi. rewrite <- Z.add_assoc, Hin by lia.
    unfold m1. rewrite build_eth_out by (unfold ETH_HDR_SIZE; auto; lia). f_equal. lia.
  - rewrite Hpl. dlia.
Qed.

Lemma parse_build_eth_witness :
  exists m', parse_eth_packet (build_eth ramp 0x1000 [1;2;3;4;5;6] [7;8;9;10;11;12] 0x0800) 0x1000 400 0x2000
    = (m', 0) /\ ntohs (ld16 m' (0x2000 + eth_type)) = 0x0800.
Proof.
  destruct (parse_build_eth ramp 0x1000 [1;2;3;4;5;6] [7;8;9;10;11;12] 0x0800 400 0x2000)
    as (m' & H & _ & _ & Ht & _); try lia; try reflexivity.
  - intros a. apply Z.mod_pos_bound. lia.
  - repeat constructor; lia.
  - repeat constructor; lia.
  - exists m'. split; [exact H | exact Ht].
Defined.

(** A frame shorter than its header makes the 16-bit payload length wrap to
    almost 64 KiB, and parse_eth_packet then overwrites the memory after the
    page its frame lives in. *)
Lemma parse_eth_runt_overruns_page m buf len f i :
  wf_mem m -> 0 <= len < 14 -> 4096 <= i < 60000 ->
  f + 70000 <= buf \/ buf + 70000 <= f ->
  fst (parse_eth_packet m buf len f) (f + i) = m (buf + i).
Proof.
  intros Hw Hl Hi Ha. unfold parse_eth_packet, ETH_HDR_SIZE, eth_payload, eth_payload_len. cbn [fst].
  assert (u16 (len - 14) = 65536 + len - 14) as ->
    by (unfold u16; change (2 ^ 16) with 65536; dlia).
  assert (wf_mem (memmove m f buf 14)) by (apply memmove_wf; [done|lia]).
  rewrite st8_ne, memmove_in, memmove_out by (auto; lia). f_equal. lia.
Qed.

