(* ===== verification/Ip4.v ===== *)
(** * kernel/sys/ip4.h and the framing functions of kernel/sys/ip4.c

    Parsing and building IPv4 packets in memory.  A struct ip4_frame lives at
    its address with the offsets of the C struct.  [ip4_hdr] is the header as
    data: [wire_ip4] decodes the twenty bytes a packet has on the wire,
    [host_ip4] reads a struct ip4_hdr the parser has filled in host order.
    The dispatcher handle_ip4_packet is in NetRx.v with the rest of the
    receive path. *)
From S2P Require Import Prelude Mem StringC Net.
From Stdlib Require Import ZArith Lia.

(** ** Layout of struct ip4_hdr and struct ip4_frame *)
Definition IP4_HDR_SIZE : Z := 20.
Definition ip_ver_ihl : Z := 0.
Definition ip_tos : Z := 1.
Definition ip_total_len : Z := 2.
Definition ip_identification : Z := 4.
Definition ip_fragment_info : Z := 6.
Definition ip_ttl : Z := 8.
Definition ip_protocol : Z := 9.
Definition ip_csum : Z := 10.
Definition ip_src_ip : Z := 12.
Definition ip_dst_ip : Z := 16.
Definition ip_payload : Z := 20.
Definition ip_payload_len : Z := 1520.

Ltac ip_offsets :=
  unfold IP4_HDR_SIZE, ip_ver_ihl, ip_tos, ip_total_len, ip_identification, ip_fragment_info,
    ip_ttl, ip_protocol, ip_csum, ip_src_ip, ip_dst_ip, ip_payload, ip_payload_len in *.

(** ** Operations *)

(** The ten field assignments parse_ip4_packet makes (twice). *)
Definition ip4_copy_hdr (m : mem) (buf pkt : Z) : mem :=
  let m := st8 m (pkt + ip_ver_ihl) (m (buf + 0)) in
  let m := st8 m (pkt + ip_tos) (m (buf + 1)) in
  let m := st16 m (pkt + ip_total_len) (ntohs (ld16 m (buf + 2))) in
  let m := st16 m (pkt + ip_identification) (ntohs (ld16 m (buf + 4))) in
  let m := st16 m (pkt + ip_fragment_info) (ntohs (ld16 m (buf + 6))) in
  let m := st8 m (pkt + ip_ttl) (m (buf + 8)) in
  let m := st8 m (pkt + ip_protocol) (m (buf + 9)) in
  let m := st16 m (pkt + ip_csum) (ntohs (ld16 m (buf + 10))) in
  let m := st32 m (pkt + ip_src_ip) (ntohl (ld32 m (buf + 12))) in
  st32 m (pkt + ip_dst_ip) (ntohl (ld32 m (buf + 16))).

Definition parse_ip4_packet (m : mem) (buf len pkt : Z) : mem * Z :=
  let m := ip4_copy_hdr m buf pkt in
  let m := ip4_copy_hdr m buf pkt in
  let hdr_len := Z.land (m (pkt + ip_ver_ihl)) 0x0F * 4 in
  if (hdr_len <? 20) || (len <? hdr_len) then (m, -1)
  else if len <? ld16 m (pkt + ip_total_len) then (m, -1)
  else
    let m := st16 m (pkt + ip_payload_len) (u16 (len - hdr_len)) in
    let m := memmove m (pkt + ip_payload) (buf + hdr_len) (ld16 m (pkt + ip_payload_len)) in
    (m, 0).

Definition build_ip4 (m : mem) (ip src dst proto len : Z) : mem :=
  let m := st8 m (ip + ip_ver_ihl) (Z.lor (Z.shiftl 4 4) 5) in
  let m := st8 m (ip + ip_tos) 0 in
  let m := st16 m (ip + ip_total_len) (htons len) in
  let m := st16 m (ip + ip_identification) (htons 0) in
  let m := st16 m (ip + ip_fragment_info) (htons 0) in
  let m := st8 m (ip + ip_ttl) 64 in
  let m := st8 m (ip + ip_protocol) proto in
  let m := st32 m (ip + ip_src_ip) (htonl src) in
  let m := st32 m (ip + ip_dst_ip) (htonl dst) in
  let m := st16 m (ip + ip_csum) 0 in
  st16 m (ip + ip_csum) (chksum m ip IP4_HDR_SIZE).

(** ** The header as data *)
Record ip4_hdr := mkIp4 {
  ver_ihl : Z; tos : Z; total_len : Z; identification : Z; fragment_info : Z;
  ttl : Z; protocol : Z; csum : Z; src_ip : Z; dst_ip : Z
}.

Definition wire_ip4 (m : mem) (a : Z) : ip4_hdr :=
  mkIp4 (m (a + 0)) (m (a + 1)) (ntohs (ld16 m (a + 2))) (ntohs (ld16 m (a + 4)))
        (ntohs (ld16 m (a + 6))) (m (a + 8)) (m (a + 9)) (ntohs (ld16 m (a + 10)))
        (ntohl (ld32 m (a + 12))) (ntohl (ld32 m (a + 16))).

Definition host_ip4 (m : mem) (a : Z) : ip4_hdr :=
  mkIp4 (m (a + ip_ver_ihl)) (m (a + ip_tos)) (ld16 m (a + ip_total_len))
        (ld16 m (a + ip_identification)) (ld16 m (a + ip_fragment_info)) (m (a + ip_ttl))
        (m (a + ip_protocol)) (ld16 m (a + ip_csum)) (ld32 m (a + ip_src_ip)) (ld32 m (a + ip_dst_ip)).

(** What the parser accepts of a packet of [len] bytes. *)
Definition ip4_acceptable (h : ip4_hdr) (len : Z) : bool :=
  (20 <=? ver_ihl h mod 16 * 4) && (ver_ihl h mod 16 * 4 <=? len) && (total_len h <=? len).

(** ** Lemmas *)

Lemma ip4_copy_hdr_wf m buf pkt : wf_mem m -> wf_mem (ip4_copy_hdr m buf pkt).
Proof. intros. unfold ip4_copy_hdr. wfm. Qed.

Lemma ip4_copy_hdr_out m buf pkt x :
  x < pkt \/ pkt + 20 <= x -> ip4_copy_hdr m buf pkt x = m x.
Proof. intros. unfold ip4_copy_hdr. ip_offsets. mem_simpl. done. Qed.

Lemma wire_ip4_ext m m' a :
  (forall i, 0 <= i < 20 -> m (a + i) = m' (a + i)) -> wire_ip4 m a = wire_ip4 m' a.
Proof.
  intros H. unfold wire_ip4. f_equal; try (apply H; lia); f_equal; apply ldn_ext; intros x Hx;
    replace x with (a + (x - a)) by lia; apply H; lia.
Qed.

Lemma ip4_copy_hdr_host m buf pkt :
  wf_mem m -> buf + 20 <= pkt \/ pkt + 20 <= buf ->
  host_ip4 (ip4_copy_hdr m buf pkt) pkt = wire_ip4 m buf.
Proof.
  intros Hw Hd. unfold host_ip4, wire_ip4, ip4_copy_hdr. ip_offsets.
  f_equal; mem_simpl; try (apply u8_small, Hw); rewrite ?ldn_stn_eq;
    apply Z.mod_small; apply htons_range || apply htonl_range.
Qed.

Lemma host_ip4_ext m m' a :
  (forall i, 0 <= i < 20 -> m (a + i) = m' (a + i)) -> host_ip4 m a = host_ip4 m' a.
Proof.
  intros H. unfold host_ip4. ip_offsets. f_equal; try (apply H; lia); apply ldn_ext; intros x Hx;
    replace x with (a + (x - a)) by lia; apply H; lia.
Qed.

Lemma land_nibble x : Z.land x 0x0F = x mod 16.
Proof. change 0x0F with (2 ^ 4 - 1). by rewrite land_ones_mod by lia. Qed.

(** Everything parse_ip4_packet does, on both branches. *)
Lemma parse_ip4_packet_spec m buf len pkt :
  wf_mem m -> 0 <= len <= 1500 -> buf + Z.max 20 len <= pkt \/ pkt + 1522 <= buf ->
  let h := wire_ip4 m buf in let hl := ver_ihl h mod 16 * 4 in
  exists m', parse_ip4_packet m buf len pkt = (m', if ip4_acceptable h len then 0 else -1) /\
    wf_mem m' /\ host_ip4 m' pkt = h /\
    (forall x, x < pkt \/ pkt + 1522 <= x -> m' x = m x) /\
    (ip4_acceptable h len = true ->
       ld16 m' (pkt + ip_payload_len) = len - hl /\
       forall i, 0 <= i < len - hl -> m' (pkt + ip_payload + i) = m (buf + hl + i)).
Proof.
  intros Hw Hl Hd h hl. set (m1 := ip4_copy_hdr m buf pkt). set (m2 := ip4_copy_hdr m1 buf pkt).
  assert (wf_mem m1) as Hw1 by by apply ip4_copy_hdr_wf.
  assert (wf_mem m2) as Hw2 by by apply ip4_copy_hdr_wf.
  assert (host_ip4 m2 pkt = h) as Hh.
  { unfold m2. rewrite ip4_copy_hdr_host by (auto; lia). apply wire_ip4_ext.
    intros i Hi. apply ip4_copy_hdr_out. lia. }
  assert (forall x, x < pkt \/ pkt + 20 <= x -> m2 x = m x) as Ho.
  { intros x Hx. unfold m2, m1. by rewrite !ip4_copy_hdr_out by lia. }
  assert (m2 (pkt + ip_ver_ihl) = ver_ihl h) as Hv by by rewrite <- Hh.
  assert (ld16 m2 (pkt + ip_total_len) = total_len h) as Ht by by rewrite <- Hh.
  unfold parse_ip4_packet. fold m1. fold m2. rewrite Hv, Ht, land_nibble. fold hl.
  unfold ip4_acceptable. fold hl.
  destruct (Z.ltb_spec hl 20), (Z.ltb_spec len hl), (Z.ltb_spec len (total_len h)); zb;
    cbn [orb andb]; try (exists m2; split_and!; auto; intros; [apply Ho; lia | done]).
  ip_offsets. rewrite ldn_stn_eq. change (2 ^ (8 * Z.of_nat 2)) with (2 ^ 16).
  rewrite u16_small, Z.mod_small by lia.
  assert (wf_mem (st16 m2 (pkt + 1520) (len - hl))) by wfm.
  eexists. split; [reflexivity|]. split_and!.
  - apply memmove_wf; [done|lia].
  - rewrite <- Hh. apply host_ip4_ext. intros i Hi. rewrite memmove_out, stn_out by (auto; lia). done.
  - intros x Hx. rewrite memmove_out, stn_out by (auto; lia). apply Ho. lia.
  - intros _. split.
    + rewrite ldn_memmove_ne, ldn_stn_eq by (auto; lia). apply Z.mod_small. lia.
    + intros i Hi. rewrite memmove_in, stn_out, Ho by (auto; lia). f_equal. lia.
Qed.

Lemma build_ip4_wf m ip src dst proto len : wf_mem m -> wf_mem (build_ip4 m ip src dst proto len).
Proof. intros. unfold build_ip4. wfm. Qed.
#[export] Hint Resolve build_ip4_wf : memdb.

Lemma build_ip4_out m ip src dst proto len x :
  x < ip \/ ip + 20 <= x -> build_ip4 m ip src dst proto len x = m x.
Proof. intros. unfold build_ip4. ip_offsets. mem_simpl. done. Qed.

Lemma ld16_mod x : 0 <= x < 2 ^ 16 -> x mod 2 ^ (8 * Z.of_nat 2) = x.
Proof. apply Z.mod_small. Qed.
Lemma ld32_mod x : 0 <= x < 2 ^ 32 -> x mod 2 ^ (8 * Z.of_nat 4) = x.
Proof. apply Z.mod_small. Qed.

Lemma build_ip4_wire m ip src dst proto len :
  wf_mem m -> 0 <= src < 2 ^ 32 -> 0 <= dst < 2 ^ 32 -> 0 <= proto < 256 -> 0 <= len < 2 ^ 16 ->
  exists c, wire_ip4 (build_ip4 m ip src dst proto len) ip
            = mkIp4 0x45 0 len 0 0 64 proto c src dst.
Proof.
  intros Hw Hs Hd Hp Hl. eexists. unfold wire_ip4, build_ip4. ip_offsets.
  f_equal; mem_simpl; try done.
  - rewrite ld16_mod by apply htons_range. by apply ntohs_htons.
  - by apply u8_small.
  - rewrite ld32_mod by apply htonl_range. by apply ntohl_htonl.
  - rewrite ld32_mod by apply htonl_range. by apply ntohl_htonl.
Qed.

Lemma build_ip4_checksum m ip src dst proto len :
  wf_mem m -> chksum (build_ip4 m ip src dst proto len) ip IP4_HDR_SIZE = 0.
Proof.
  intros Hw. unfold build_ip4.
  match goal with |- chksum (st16 ?m1 _ _) _ _ = 0 => set (M := m1) end.
  assert (wf_mem M) by (unfold M; wfm).
  pose proof (wsum_range (Z.to_nat IP4_HDR_SIZE) M ip ltac:(done)).
  ip_offsets. rewrite !chksum_wsum by (try wfm; lia).
  replace (ip + 10) with (ip + 2 * Z.of_nat 5) by lia.
  rewrite wsum_st16 by (cbn; lia). rewrite u16_small by apply fold_cksum_range.
  replace (ld16 M (ip + 2 * Z.of_nat 5)) with 0.
  { rewrite Z.sub_0_r. apply fold_cksum_complete; lia. }
  unfold M. replace (ip + 2 * Z.of_nat 5) with (ip + 10) by lia. by rewrite ldn_stn_eq.
Qed.

(** ** Properties *)

(** C24: an IPv4 packet made by build_ip4 carries a checksum that verifies, and
    parse_ip4_packet accepts it whenever the received length covers the total
    length it states; the parsed frame has, in host order, the addresses, the
    protocol and the length it was built with, and the bytes that followed the
    header. *)
Theorem ip4_roundtrip m ip src dst proto len rlen pkt :
  wf_mem m -> 0 <= src < 2 ^ 32 -> 0 <= dst < 2 ^ 32 -> 0 <= proto < 256 ->
  20 <= len <= rlen -> rlen <= 1500 -> ip + rlen <= pkt \/ pkt + 1522 <= ip ->
  let b := build_ip4 m ip src dst proto len in
  chksum b ip IP4_HDR_SIZE = 0 /\
  exists m' c, parse_ip4_packet b ip rlen pkt = (m', 0) /\
    host_ip4 m' pkt = mkIp4 0x45 0 len 0 0 64 proto c src dst /\
    ld16 m' (pkt + ip_payload_len) = rlen - 20 /\
    ldbytes m' (pkt + ip_payload) (Z.to_nat (rlen - 20)) = ldbytes m (ip + 20) (Z.to_nat (rlen - 20)).
Proof.
  intros Hw Hs Hd Hp Hl Hr Ha b. split; [by apply build_ip4_checksum|].
  destruct (build_ip4_wire m ip src dst proto len) as [c Hc]; try done; [lia|]. fold b in Hc.
  destruct (parse_ip4_packet_spec b ip rlen pkt) as (m' & Hpk & _ & Hh & _ & Hok);
    [unfold b; wfm|lia|lia|].
  rewrite Hc in Hpk, Hh, Hok. unfold ip4_acceptable in Hpk, Hok. cbn [ver_ihl total_len] in *.
  change (69 mod 16 * 4) with 20 in *.
  assert ((20 <=? 20) && (20 <=? rlen) && (len <=? rlen) = true) as E by by zb.
  rewrite E in *. destruct (Hok eq_refl) as [Hpl Hb].
  exists m', c. split_and!; try done. apply ldbytes_ext. intros i Hi. rewrite Hb by lia.
  apply build_ip4_out. lia.
Qed.

Lemma ip4_roundtrip_witness :
  exists m' c, parse_ip4_packet (build_ip4 ramp 0x100e 0x0a0a000a 0x0a0b000a 17 30) 0x100e 46 0x2000 = (m', 0) /\
    host_ip4 m' 0x2000 = mkIp4 0x45 0 30 0 0 64 17 c 0x0a0a000a 0x0a0b000a.
Proof.
  destruct (ip4_roundtrip ramp 0x100e 0x0a0a000a 0x0a0b000a 17 30 46 0x2000)
    as (_ & m' & c & H1 & H2 & _); try lia.
  - intros a. apply Z.mod_pos_bound. lia.
  - exists m', c. split; [exact H1 | exact H2].
Defined.

(** parse_ip4_packet rejects a packet exactly when its header length is
    below twenty bytes or beyond the received length, or its total length is
    beyond the received length; on either branch it writes nothing outside the
    frame it was given. *)
Lemma parse_ip4_accepts_iff m buf len pkt :
  wf_mem m -> 0 <= len <= 1500 -> buf + Z.max 20 len <= pkt \/ pkt + 1522 <= buf ->
  (snd (parse_ip4_packet m buf len pkt) = 0 <->
     5 <= m buf mod 16 /\ 4 * (m buf mod 16) <= len /\ ntohs (ld16 m (buf + 2)) <= len) /\
  (snd (parse_ip4_packet m buf len pkt) = 0 \/ snd (parse_ip4_packet m buf len pkt) = -1) /\
  (forall x, x < pkt \/ pkt + 1522 <= x -> fst (parse_ip4_packet m buf len pkt) x = m x).
Proof.
  intros Hw Hl Hd. destruct (parse_ip4_packet_spec m buf len pkt Hw Hl Hd) as (m' & -> & _ & _ & Ho & _).
  cbn [fst snd]. unfold ip4_acceptable, wire_ip4. cbn [ver_ihl total_len]. rewrite Z.add_0_r.
  split_and!; [|case_match; auto|done].
  destruct (Z.leb_spec 20 (m buf mod 16 * 4)), (Z.leb_spec (m buf mod 16 * 4) len),
    (Z.leb_spec (ntohs (ld16 m (buf + 2))) len); cbn [andb]; split; intros; try done; lia.
Qed.

