(* ===== verification/Page.v ===== *)
(** * The page allocator as its clients see it

    [phys] is physical memory with the abstract pool of Kalloc.v; [pg_kalloc]
    and [pg_kfree] are kalloc() and kfree() at that level, with kfree's checks.
    Kalloc.v proves that after boot the C functions implement the pool as long
    as one of its pages is free; the components above work against this
    interface.  [Lens] embeds a smaller state in a
    larger one, so that an operation of one component runs on the state of
    another. *)
From S2P Require Import Prelude Mem StringC Kalloc.
From Stdlib Require Import ZArith Lia.
From stdpp Require Import strings.
Local Open Scope list_scope.
Local Open Scope Z_scope.
Local Open Scope kernel_scope.

Record phys := mkPhys { ph_mem : mem; ph_pool : Pool.pool; ph_end : Z }.

Definition pg_kalloc : M phys Z := fun s =>
  let '(r, m, P) := Pool.take (ph_mem s) (ph_pool s) in Ret r (mkPhys m P (ph_end s)).

Definition pg_kfree (pa : Z) : M phys unit := fun s =>
  if negb (pa mod PGSIZE =? 0) || (pa <? ph_end s) || (PHYSTOP <=? pa) then Panic "kfree" s
  else let '(m, P) := Pool.give pa (ph_mem s) (ph_pool s) in Ret tt (mkPhys m P (ph_end s)).

(** add_page_reference(): the counter is 64 bits wide. *)
Definition pg_addref (pa : Z) : M phys unit :=
  modify (fun s => mkPhys (ph_mem s)
    (Pool.mkPool (Pool.free (ph_pool s))
       (Pool.set_ref (Pool.refs (ph_pool s)) (PGROUNDDOWN pa)
          (u64 (Pool.refs (ph_pool s) (PGROUNDDOWN pa) + 1))))
    (ph_end s)).

Definition setmem (f : mem -> mem) : M phys unit :=
  modify (fun s => mkPhys (f (ph_mem s)) (ph_pool s) (ph_end s)).
Definition getmem {A} (f : mem -> A) : M phys A := gets (fun s => f (ph_mem s)).

(** A use of a pointer the code does not check: the null page is unmapped. *)
Definition nonnull {S} (p : Z) : M S unit := if p =? 0 then fault else ret tt.

(** ** Running an operation on part of a state *)
Class Lens (S T : Type) := {
  view : S -> T;
  update : T -> S -> S;
  view_update : forall t s, view (update t s) = t;
  update_view : forall s, update (view s) s = s;
  update_update : forall t t' s, update t (update t' s) = update t s
}.

Definition lift {S T A} `{Lens S T} (c : M T A) : M S A := fun s =>
  match c (view s) with
  | Ret a t => Ret a (update t s)
  | Panic msg t => Panic msg (update t s)
  | Fault t => Fault (update t s)
  | Blocked ch t => Blocked ch (update t s)
  | Spin t => Spin (update t s)
  end.

#[export] Instance lens_self {S} : Lens S S.
Proof. refine {| view := fun s => s; update := fun t _ => t |}; done. Defined.

Lemma lift_Ret {S T A} `{Lens S T} (c : M T A) s a t :
  c (view s) = Ret a t -> lift c s = Ret a (update t s).
Proof. unfold lift. by intros ->. Qed.

(** lift is a monad morphism. *)
Lemma lift_ret {S T A} `{Lens S T} (a : A) s : lift (ret (S := T) a) s = Ret a s.
Proof. unfold lift, ret. by rewrite update_view. Qed.

Lemma lift_bind {S T A B} `{Lens S T} (c : M T A) (k : A -> M T B) s :
  lift (bind c k) s = bind (lift c) (fun a => lift (k a)) s.
Proof.
  unfold lift, bind. destruct (c (view s)); try done.
  rewrite view_update. destruct (k a s0); by rewrite ?update_update.
Qed.

(** ** The pool's invariant *)

(** The free pages are distinct pages the allocator manages. *)
Definition pool_ok (s : phys) : Prop :=
  NoDup (Pool.free (ph_pool s)) /\ Forall (managed (ph_end s)) (Pool.free (ph_pool s)).

(** [live s p]: [p] is a managed page that is not free. *)
Definition live (s : phys) (p : Z) : Prop :=
  managed (ph_end s) p /\ p ∉ Pool.free (ph_pool s).

Lemma pg_kalloc_cons s r l :
  Pool.free (ph_pool s) = r :: l ->
  pg_kalloc s = Ret r (mkPhys (memset (ph_mem s) r 5 PGSIZE)
                              (Pool.mkPool l (Pool.set_ref (Pool.refs (ph_pool s)) r 1)) (ph_end s)).
Proof. intros H. unfold pg_kalloc, Pool.take. by rewrite H. Qed.

Lemma pg_kalloc_nil s : Pool.free (ph_pool s) = [] -> pg_kalloc s = Ret 0 s.
Proof. intros H. unfold pg_kalloc, Pool.take. rewrite H. by destruct s. Qed.

(** What kalloc gives: nothing when the pool is empty, else a page that was
    free, is now live, and lies apart from every page that was live. *)
Lemma pg_kalloc_spec s :
  pool_ok s ->
  (Pool.free (ph_pool s) = [] /\ pg_kalloc s = Ret 0 s) \/
  exists r s', pg_kalloc s = Ret r s' /\ pool_ok s' /\ managed (ph_end s) r /\
    r ∈ Pool.free (ph_pool s) /\ live s' r /\ ph_end s' = ph_end s /\
    Pool.free (ph_pool s) = r :: Pool.free (ph_pool s') /\
    ph_mem s' = memset (ph_mem s) r 5 PGSIZE /\
    Pool.refs (ph_pool s') = Pool.set_ref (Pool.refs (ph_pool s)) r 1 /\
    (forall p, live s p -> live s' p /\ (p + PGSIZE <= r \/ r + PGSIZE <= p)).
Proof.
  intros [Hn Hm]. destruct (Pool.free (ph_pool s)) as [|r l] eqn:E.
  { left. split; [done|]. by apply pg_kalloc_nil. }
  right. eexists r, _. split; [by apply pg_kalloc_cons|]. cbn.
  apply NoDup_cons in Hn as [Hr Hn]. apply Forall_cons in Hm as [Hmr Hm].
  split_and!; try done; [by constructor|].
  intros p [Hp Hpf]. rewrite E in Hpf. apply not_elem_of_cons in Hpf as [Hne Hpl].
  split; [done|]. by eapply managed_apart.
Qed.

(** kfree of a live page with one reference returns it to the pool. *)
Lemma pg_kfree_spec s p :
  pool_ok s -> live s p -> Pool.refs (ph_pool s) p <= 1 ->
  exists s', pg_kfree p s = Ret tt s' /\ pool_ok s' /\ ph_end s' = ph_end s /\
    Pool.free (ph_pool s') = p :: Pool.free (ph_pool s) /\
    Pool.refs (ph_pool s') = Pool.set_ref (Pool.refs (ph_pool s)) p 0 /\
    (wf_mem (ph_mem s) -> wf_mem (ph_mem s')) /\
    (forall x, x < p \/ p + PGSIZE <= x -> ph_mem s' x = ph_mem s x).
Proof.
  intros [Hn Hm] [Hp Hf] Hr. unfold pg_kfree. destruct Hp as [Hp0 Hp].
  rewrite Hp0. zb. cbn [Z.eqb negb orb]. unfold Pool.give. zb.
  eexists. split; [reflexivity|]. cbn. split_and!; try done.
  - split; cbn; [by constructor|]. constructor; [split; done|done].
  - intros. wfm.
  - intros x Hx. unfold PGSIZE in *. rewrite stn_out, memset_out by lia. done.
Qed.

(** kfree panics on an address the allocator does not manage. *)
Lemma pg_kfree_panics s p : ~ managed (ph_end s) p -> pg_kfree p s = Panic "kfree" s.
Proof.
  intros H. unfold pg_kfree. destruct (Z.eqb_spec (p mod PGSIZE) 0); [|done].
  destruct (Z.ltb_spec p (ph_end s)), (Z.leb_spec PHYSTOP p); try done.
  exfalso. apply H. split; [done|lia].
Qed.

(** These functions do what the pool does in the client calls of Kalloc.v, which
    the C functions implement. *)
Lemma pg_functions_are_pool_calls s c r ma P :
  pool_call c (ph_mem s) (ph_pool s) = Some (r, ma, P) ->
  match c with
  | Alloc => pg_kalloc s = Ret r (mkPhys ma P (ph_end s))
  | Free pa => managed (ph_end s) pa -> pg_kfree pa s = Ret tt (mkPhys ma P (ph_end s))
  | Share x => pg_addref x s = Ret tt (mkPhys ma P (ph_end s))
  | Store x v => setmem (fun m => st8 m x v) s = Ret tt (mkPhys ma P (ph_end s))
  end.
Proof.
  destruct c as [|pa|x|x v]; cbn [pool_call]; intros E.
  - destruct (Pool.free (ph_pool s)); [done|]. apply Some_inj in E. unfold pg_kalloc. by rewrite E.
  - intros [Hp0 Hp]. unfold pg_kfree. rewrite Hp0. zb. cbn [Z.eqb negb orb].
    destruct (0 <? Pool.refs (ph_pool s) pa); [|done]. destruct (Pool.give pa (ph_mem s) (ph_pool s)). by result E.
  - destruct (Z.ltb_spec 0 (Pool.refs (ph_pool s) (PGROUNDDOWN x))), (Z.ltb_spec (Pool.refs (ph_pool s) (PGROUNDDOWN x)) (2 ^ 64 - 1)); try done.
    result E. unfold pg_addref, modify, u64. by rewrite Z.mod_small by lia.
  - destruct (0 <? Pool.refs (ph_pool s) (PGROUNDDOWN x)); [|done]. by result E.
Qed.
