(* ===== verification/Vm.v ===== *)
(** * kernel/vm.c and the Sv39 macros of kernel/riscv.h

    Page tables are trees of pages in physical memory; every function below is
    the C function on [phys].  A pointer to a PTE is its address, and the null
    pointer walk() may return is [None].  Loops over virtual pages take the
    number of pages they can visit as fuel (stated where each is used) and end
    in [Spin] if it were too small. *)
From S2P Require Import Prelude Mem StringC Kalloc Page.
From Stdlib Require Import ZArith Lia.
From stdpp Require Import strings.
Local Open Scope list_scope.
Local Open Scope Z_scope.
Local Open Scope kernel_scope.

(** ** riscv.h *)
Definition PTE_V : Z := Z.shiftl 1 0.
Definition PTE_R : Z := Z.shiftl 1 1.
Definition PTE_W : Z := Z.shiftl 1 2.
Definition PTE_X : Z := Z.shiftl 1 3.
Definition PTE_U : Z := Z.shiftl 1 4.
Definition PA2PTE (pa : Z) : Z := Z.shiftl (Z.shiftr pa 12) 10.
Definition PTE2PA (pte : Z) : Z := u64 (Z.shiftl (Z.shiftr pte 10) 12).
Definition PTE_FLAGS (pte : Z) : Z := Z.land pte 0x3FF.
Definition PXSHIFT (level : Z) : Z := 12 + 9 * level.
Definition PX (level va : Z) : Z := Z.land (Z.shiftr va (PXSHIFT level)) 0x1FF.
Definition MAXVA : Z := Z.shiftl 1 (9 + 9 + 9 + 12 - 1).
Definition TRAMPOLINE : Z := MAXVA - PGSIZE.
Definition TRAPFRAME : Z := TRAMPOLINE - PGSIZE.

(** ** Walking *)

(** One iteration of walk()'s loop: the next page table, [None] for return 0. *)
Definition walk_level (pagetable va level : Z) (alloc : bool) : M phys (option Z) :=
  let pte := pagetable + 8 * PX level va in
  v <- getmem (fun m => ld64 m pte) ;;
  if negb (Z.land v PTE_V =? 0) then ret (Some (PTE2PA v))
  else if negb alloc then ret None
  else
    pg <- pg_kalloc ;;
    if pg =? 0 then ret None
    else
      setmem (fun m => memset m pg 0 PGSIZE) ;;;
      setmem (fun m => st64 m pte (Z.lor (PA2PTE pg) PTE_V)) ;;;
      ret (Some pg).

Definition walk (pagetable va : Z) (alloc : bool) : M phys (option Z) :=
  if MAXVA <=? va then panic "walk"
  else
    t1 <- walk_level pagetable va 2 alloc ;;
    match t1 with
    | None => ret None
    | Some t1 =>
        t0 <- walk_level t1 va 1 alloc ;;
        match t0 with
        | None => ret None
        | Some t0 => ret (Some (t0 + 8 * PX 0 va))
        end
    end.

Definition walkaddr (pagetable va : Z) : M phys Z :=
  if MAXVA <=? va then ret 0
  else
    pte <- walk pagetable va false ;;
    match pte with
    | None => ret 0
    | Some pte =>
        v <- getmem (fun m => ld64 m pte) ;;
        if Z.land v PTE_V =? 0 then ret 0
        else if Z.land v PTE_U =? 0 then ret 0
        else ret (PTE2PA v)
    end.

(** ** Mapping *)

(** The loop of mappages(), from [a] on. *)
Fixpoint mappages_loop (fuel : nat) (pagetable a last pa perm : Z) : M phys Z :=
  match fuel with
  | O => fun s => Spin s
  | S fuel =>
      pte <- walk pagetable a true ;;
      match pte with
      | None => ret (-1)
      | Some pte =>
          v <- getmem (fun m => ld64 m pte) ;;
          if negb (Z.land v PTE_V =? 0) then panic "mappages: remap"
          else
            setmem (fun m => st64 m pte (Z.lor (Z.lor (PA2PTE pa) perm) PTE_V)) ;;;
            if a =? last then ret 0
            else mappages_loop fuel pagetable (u64 (a + PGSIZE)) last (u64 (pa + PGSIZE)) perm
      end
  end.

(** walk() panics once [a] reaches MAXVA, so that many pages are enough fuel
    even when va + size wraps and [last] is never met. *)
Definition mappages (pagetable va size pa perm : Z) : M phys Z :=
  if size =? 0 then panic "mappages: size"
  else
    let a := PGROUNDDOWN va in
    let last := PGROUNDDOWN (u64 (va + size - 1)) in
    let pages := if a <=? last then (last - a) / PGSIZE + 1 else (MAXVA - a) / PGSIZE + 1 in
    mappages_loop (Z.to_nat pages) pagetable a last pa perm.

Definition kvmmap (kpgtbl va pa sz perm : Z) : M phys unit :=
  r <- mappages kpgtbl va sz pa perm ;;
  if negb (r =? 0) then panic "kvmmap" else ret tt.

(** The loop of uvmunmap(): at most [npages] iterations. *)
Fixpoint uvmunmap_loop (fuel : nat) (pagetable a end_va : Z) (do_free : bool) : M phys unit :=
  match fuel with
  | O => ret tt
  | S fuel =>
      if negb (a <? end_va) then ret tt
      else
        pte <- walk pagetable a false ;;
        match pte with
        | None => panic "uvmunmap: walk"
        | Some pte =>
            v <- getmem (fun m => ld64 m pte) ;;
            if Z.land v PTE_V =? 0 then panic "uvmunmap: not mapped"
            else if PTE_FLAGS v =? PTE_V then panic "uvmunmap: not a leaf"
            else
              when do_free (pg_kfree (PTE2PA v)) ;;;
              setmem (fun m => st64 m pte 0) ;;;
              uvmunmap_loop fuel pagetable (u64 (a + PGSIZE)) end_va do_free
        end
  end.

Definition uvmunmap (pagetable va npages : Z) (do_free : bool) : M phys unit :=
  if negb (va mod PGSIZE =? 0) then panic "uvmunmap: not aligned"
  else uvmunmap_loop (Z.to_nat npages) pagetable va (u64 (va + npages * PGSIZE)) do_free.

Definition uvmcreate : M phys Z :=
  pagetable <- pg_kalloc ;;
  if pagetable =? 0 then ret 0
  else setmem (fun m => memset m pagetable 0 PGSIZE) ;;; ret pagetable.

Definition uvmfirst (pagetable src sz : Z) : M phys unit :=
  if PGSIZE <=? sz then panic "uvmfirst: more than a page"
  else
    mem <- pg_kalloc ;;
    nonnull mem ;;;
    setmem (fun m => memset m mem 0 PGSIZE) ;;;
    mappages pagetable 0 PGSIZE mem (Z.lor (Z.lor (Z.lor PTE_W PTE_R) PTE_X) PTE_U) ;;;
    setmem (fun m => memmove m mem src sz).

Definition uvmdealloc (pagetable oldsz newsz : Z) : M phys Z :=
  if oldsz <=? newsz then ret oldsz
  else
    when (PGROUNDUP newsz <? PGROUNDUP oldsz)
      (uvmunmap pagetable (PGROUNDUP newsz)
         (u64 (s32 ((PGROUNDUP oldsz - PGROUNDUP newsz) / PGSIZE))) true) ;;;
    ret newsz.

Fixpoint uvmalloc_loop (fuel : nat) (pagetable a oldsz newsz xperm : Z) : M phys Z :=
  match fuel with
  | O => ret newsz
  | S fuel =>
      if negb (a <? newsz) then ret newsz
      else
        mem <- pg_kalloc ;;
        if mem =? 0 then uvmdealloc pagetable a oldsz ;;; ret 0
        else
          setmem (fun m => memset m mem 0 PGSIZE) ;;;
          r <- mappages pagetable a PGSIZE mem (Z.lor (Z.lor PTE_R PTE_U) xperm) ;;
          if negb (r =? 0) then pg_kfree mem ;;; uvmdealloc pagetable a oldsz ;;; ret 0
          else uvmalloc_loop fuel pagetable (a + PGSIZE) oldsz newsz xperm
  end.

Definition uvmalloc (pagetable oldsz newsz xperm : Z) : M phys Z :=
  if newsz <? oldsz then ret oldsz
  else
    let oldsz := PGROUNDUP oldsz in
    uvmalloc_loop (Z.to_nat ((newsz - oldsz) / PGSIZE + 1)) pagetable oldsz oldsz newsz xperm.

(** freewalk(): the recursion goes down the levels of the table; [levels]
    bounds it (a Sv39 table has three) and a deeper one is [Spin]. *)
Fixpoint freewalk (levels : nat) (pagetable : Z) : M phys unit :=
  match levels with
  | O => fun s => Spin s
  | S levels =>
      (fix ptes (n : nat) (i : Z) : M phys unit :=
         match n with
         | O => ret tt
         | S n =>
             pte <- getmem (fun m => ld64 m (pagetable + 8 * i)) ;;
             (if negb (Z.land pte PTE_V =? 0)
                 && (Z.land pte (Z.lor (Z.lor PTE_R PTE_W) PTE_X) =? 0)
              then freewalk levels (PTE2PA pte) ;;;
                   setmem (fun m => st64 m (pagetable + 8 * i) 0)
              else when (negb (Z.land pte PTE_V =? 0)) (panic "freewalk: leaf")) ;;;
             ptes n (i + 1)
         end) 512%nat 0 ;;;
      pg_kfree pagetable
  end.

Definition uvmfree (pagetable sz : Z) : M phys unit :=
  when (0 <? sz) (uvmunmap pagetable 0 (PGROUNDUP sz / PGSIZE) true) ;;;
  freewalk 3 pagetable.

Fixpoint uvmcopy_loop (fuel : nat) (old new i sz : Z) : M phys Z :=
  match fuel with
  | O => ret 0
  | S fuel =>
      if negb (i <? sz) then ret 0
      else
        pte <- walk old i false ;;
        match pte with
        | None => panic "uvmcopy: pte should exist"
        | Some pte =>
            v <- getmem (fun m => ld64 m pte) ;;
            if Z.land v PTE_V =? 0 then panic "uvmcopy: page not present"
            else
              let pa := PTE2PA v in
              let flags := PTE_FLAGS v in
              mem <- pg_kalloc ;;
              if mem =? 0 then uvmunmap new 0 (i / PGSIZE) true ;;; ret (-1)
              else
                setmem (fun m => memmove m mem pa PGSIZE) ;;;
                r <- mappages new i PGSIZE mem flags ;;
                if negb (r =? 0)
                then pg_kfree mem ;;; uvmunmap new 0 (i / PGSIZE) true ;;; ret (-1)
                else uvmcopy_loop fuel old new (i + PGSIZE) sz
        end
  end.

Definition uvmcopy (old new sz : Z) : M phys Z :=
  uvmcopy_loop (Z.to_nat (sz / PGSIZE + 1)) old new 0 sz.

Fixpoint uvmshare_loop (fuel : nat) (old new i sz : Z) : M phys Z :=
  match fuel with
  | O => ret 0
  | S fuel =>
      if negb (i <? sz) then ret 0
      else
        pte <- walk old i false ;;
        match pte with
        | None => panic "uvmshare: pte should exist"
        | Some pte =>
            v <- getmem (fun m => ld64 m pte) ;;
            if Z.land v PTE_V =? 0 then panic "uvmshare: page not present"
            else
              let pa := PTE2PA v in
              let flags := PTE_FLAGS v in
              r <- mappages new i PGSIZE pa flags ;;
              if negb (r =? 0) then uvmunmap new 0 (i / PGSIZE) false ;;; ret (-1)
              else
                when (negb (pa =? 0)) (pg_addref pa) ;;;
                uvmshare_loop fuel old new (i + PGSIZE) sz
        end
  end.

Definition uvmshare (old new sz : Z) : M phys Z :=
  uvmshare_loop (Z.to_nat (sz / PGSIZE + 1)) old new 0 sz.

Definition uvmclear (pagetable va : Z) : M phys unit :=
  pte <- walk pagetable va false ;;
  match pte with
  | None => panic "uvmclear"
  | Some pte => setmem (fun m => st64 m pte (Z.land (ld64 m pte) (Z.lnot PTE_U)))
  end.

(** ** Copying between kernel and user

    Every iteration but the first copies up to a page boundary, so
    [len / PGSIZE + 3] iterations are enough. *)
Fixpoint copyout_loop (fuel : nat) (pagetable dstva src len : Z) : M phys Z :=
  match fuel with
  | O => fun s => Spin s
  | S fuel =>
      if negb (0 <? len) then ret 0
      else
        let va0 := PGROUNDDOWN dstva in
        pa0 <- walkaddr pagetable va0 ;;
        if pa0 =? 0 then ret (-1)
        else
          let n := if len <? PGSIZE - (dstva - va0) then len else PGSIZE - (dstva - va0) in
          setmem (fun m => memmove m (pa0 + (dstva - va0)) src n) ;;;
          copyout_loop fuel pagetable (u64 (va0 + PGSIZE)) (src + n) (len - n)
  end.

Definition copyout (pagetable dstva src len : Z) : M phys Z :=
  copyout_loop (Z.to_nat (len / PGSIZE + 3)) pagetable dstva src len.

Fixpoint copyin_loop (fuel : nat) (pagetable dst srcva len : Z) : M phys Z :=
  match fuel with
  | O => fun s => Spin s
  | S fuel =>
      if negb (0 <? len) then ret 0
      else
        let va0 := PGROUNDDOWN srcva in
        pa0 <- walkaddr pagetable va0 ;;
        if pa0 =? 0 then ret (-1)
        else
          let n := if len <? PGSIZE - (srcva - va0) then len else PGSIZE - (srcva - va0) in
          setmem (fun m => memmove m dst (pa0 + (srcva - va0)) n) ;;;
          copyin_loop fuel pagetable (dst + n) (u64 (va0 + PGSIZE)) (len - n)
  end.

Definition copyin (pagetable dst srcva len : Z) : M phys Z :=
  copyin_loop (Z.to_nat (len / PGSIZE + 3)) pagetable dst srcva len.

(** The byte loop of copyinstr() over one page: the memory, whether a NUL was
    copied, and the number of bytes before it. *)
Fixpoint copy_until_nul (n : nat) (m : mem) (p dst : Z) : mem * bool :=
  match n with
  | O => (m, false)
  | S n =>
      if m p =? 0 then (st8 m dst 0, true)
      else copy_until_nul n (st8 m dst (m p)) (p + 1) (dst + 1)
  end.

Fixpoint copyinstr_loop (fuel : nat) (pagetable dst srcva max : Z) : M phys Z :=
  match fuel with
  | O => fun s => Spin s
  | S fuel =>
      if negb (0 <? max) then ret (-1)
      else
        let va0 := PGROUNDDOWN srcva in
        pa0 <- walkaddr pagetable va0 ;;
        if pa0 =? 0 then ret (-1)
        else
          let n := if max <? PGSIZE - (srcva - va0) then max else PGSIZE - (srcva - va0) in
          r <- getmem (fun m => copy_until_nul (Z.to_nat n) m (pa0 + (srcva - va0)) dst) ;;
          setmem (fun _ => fst r) ;;;
          if snd r then ret 0
          else copyinstr_loop fuel pagetable (dst + n) (u64 (va0 + PGSIZE)) (max - n)
  end.

Definition copyinstr (pagetable dst srcva max : Z) : M phys Z :=
  copyinstr_loop (Z.to_nat (max / PGSIZE + 3)) pagetable dst srcva max.

(** ** Address translation as a function of memory *)

(** What walk_level reads when it does not allocate. *)
Definition next_table (m : mem) (t va level : Z) : option Z :=
  let v := ld64 m (t + 8 * PX level va) in
  if Z.land v PTE_V =? 0 then None else Some (PTE2PA v).

(** The address of the leaf PTE of [va]. *)
Definition pte_addr (m : mem) (pt va : Z) : option Z :=
  match next_table m pt va 2 with
  | None => None
  | Some t1 => match next_table m t1 va 1 with
               | None => None
               | Some t0 => Some (t0 + 8 * PX 0 va)
               end
  end.

(** The physical page walkaddr() answers, 0 when there is none. *)
Definition upage (m : mem) (pt va : Z) : Z :=
  if MAXVA <=? va then 0
  else match pte_addr m pt va with
       | None => 0
       | Some pte =>
           let v := ld64 m pte in
           if Z.land v PTE_V =? 0 then 0 else if Z.land v PTE_U =? 0 then 0 else PTE2PA v
       end.

(** The physical address of the user byte at [va]. *)
Definition uaddr (m : mem) (pt va : Z) : Z := upage m pt (PGROUNDDOWN va) + (va - PGROUNDDOWN va).

Definition mapped (m : mem) (pt va : Z) : Prop := upage m pt (PGROUNDDOWN va) <> 0.

Lemma walk_level_pure pt va level s :
  walk_level pt va level false s = Ret (next_table (ph_mem s) pt va level) s.
Proof. unfold walk_level, next_table, bind, getmem, gets. cbn. by destruct (Z.land _ PTE_V =? 0). Qed.

Lemma walk_pure pt va s :
  va < MAXVA -> walk pt va false s = Ret (pte_addr (ph_mem s) pt va) s.
Proof.
  intros H. unfold walk, pte_addr. rewrite (proj2 (Z.leb_gt _ _)) by lia.
  rewrite (bind_Ret _ _ _ _ _ (walk_level_pure pt va 2 s)).
  destruct (next_table (ph_mem s) pt va 2) as [t1|]; [|done].
  rewrite (bind_Ret _ _ _ _ _ (walk_level_pure t1 va 1 s)).
  by destruct (next_table (ph_mem s) t1 va 1).
Qed.

Lemma walkaddr_pure pt va s : walkaddr pt va s = Ret (upage (ph_mem s) pt va) s.
Proof.
  unfold walkaddr, upage. destruct (Z.leb_spec MAXVA va); [done|].
  rewrite (bind_Ret _ _ _ _ _ (walk_pure pt va s H)).
  destruct (pte_addr (ph_mem s) pt va) as [pte|]; [|done].
  unfold bind, getmem, gets. by repeat case_match.
Qed.

(** A translation can only fail above MAXVA or where no user page is mapped. *)
Lemma mapped_below_MAXVA m pt va : mapped m pt va -> PGROUNDDOWN va < MAXVA.
Proof. unfold mapped, upage. destruct (Z.leb_spec MAXVA (PGROUNDDOWN va)); [done|lia]. Qed.

Lemma PGROUNDDOWN_same va i :
  0 <= i < PGSIZE - (va - PGROUNDDOWN va) -> PGROUNDDOWN (va + i) = PGROUNDDOWN va.
Proof. rewrite !PGROUNDDOWN_mod. unfold PGSIZE. dlia. Qed.

Lemma PGROUNDDOWN_bounds va : PGROUNDDOWN va <= va < PGROUNDDOWN va + PGSIZE.
Proof. rewrite PGROUNDDOWN_mod. unfold PGSIZE. pose proof (Z.mod_pos_bound va 4096). lia. Qed.

Lemma PGROUNDDOWN_mono a b : a <= b -> PGROUNDDOWN a <= PGROUNDDOWN b.
Proof. rewrite !PGROUNDDOWN_mod. unfold PGSIZE. dlia. Qed.

Lemma uaddr_same_page m pt va i :
  0 <= i < PGSIZE - (va - PGROUNDDOWN va) -> uaddr m pt (va + i) = uaddr m pt va + i.
Proof. intros H. unfold uaddr. rewrite PGROUNDDOWN_same by done. lia. Qed.

Lemma mapped_same_page m pt va i :
  0 <= i < PGSIZE - (va - PGROUNDDOWN va) -> mapped m pt (va + i) <-> mapped m pt va.
Proof. intros H. unfold mapped. by rewrite PGROUNDDOWN_same. Qed.

(** The part of a copy that stays in the first page. *)
Definition chunk (va len : Z) : Z :=
  if len <? PGSIZE - (va - PGROUNDDOWN va) then len else PGSIZE - (va - PGROUNDDOWN va).

Lemma chunk_facts m pt va len :
  0 <= va -> 0 < len -> upage m pt (PGROUNDDOWN va) <> 0 ->
  let n := chunk va len in
  0 < n <= len /\ (n = len \/ n = PGSIZE - (va - PGROUNDDOWN va) /\ n < len) /\
  u64 (PGROUNDDOWN va + PGSIZE) = PGROUNDDOWN va + PGSIZE /\
  PGROUNDDOWN (PGROUNDDOWN va + PGSIZE) = PGROUNDDOWN va + PGSIZE /\
  (forall i, 0 <= i < n -> uaddr m pt (va + i) = uaddr m pt va + i) /\
  (forall i, 0 <= i < n -> mapped m pt (va + i)).
Proof.
  intros Hv Hl E n. pose proof (PGROUNDDOWN_bounds va) as Hb.
  pose proof (mapped_below_MAXVA m pt va E) as HM.
  assert (0 < n <= len /\ n <= PGSIZE - (va - PGROUNDDOWN va) /\
          (n = len \/ n = PGSIZE - (va - PGROUNDDOWN va) /\ n < len)) as (Hn & Hnp & Hnc).
  { unfold n, chunk. destruct (Z.ltb_spec len (PGSIZE - (va - PGROUNDDOWN va))); lia. }
  split_and!; try lia.
  - apply u64_small. rewrite PGROUNDDOWN_mod in *. change MAXVA with 274877906944 in HM.
    unfold PGSIZE in *. dlia.
  - rewrite !PGROUNDDOWN_mod. unfold PGSIZE. dlia.
  - intros i Hi. apply uaddr_same_page. lia.
  - intros i Hi. apply mapped_same_page; [lia|done].
Qed.

(** ** copyin

    The destination [lo, hi) is kernel memory: writing there changes neither
    the translation of the user addresses read nor the bytes they refer to. *)
Section Copyin.
Context (m0 : mem) (pt lo hi va_lo va_hi : Z).
Context (Hw0 : wf_mem m0) (Hva : 0 <= va_lo).
Context (Hst : forall m', (forall x, x < lo \/ hi <= x -> m' x = m0 x) ->
  forall va, va_lo <= va < va_hi -> upage m' pt (PGROUNDDOWN va) = upage m0 pt (PGROUNDDOWN va)).
Context (Hda : forall va, va_lo <= va < va_hi -> mapped m0 pt va ->
  uaddr m0 pt va < lo \/ hi <= uaddr m0 pt va).

Lemma copyin_loop_spec fuel dst srcva len s :
  wf_mem (ph_mem s) -> (forall x, x < lo \/ hi <= x -> ph_mem s x = m0 x) ->
  lo <= dst -> dst + len <= hi -> 0 <= len -> va_lo <= srcva -> srcva + len <= va_hi ->
  (1 <= fuel)%nat -> srcva - PGROUNDDOWN srcva + len <= (Z.of_nat fuel - 1) * 4096 ->
  exists r s', copyin_loop fuel pt dst srcva len s = Ret r s' /\
    ph_pool s' = ph_pool s /\ ph_end s' = ph_end s /\ wf_mem (ph_mem s') /\
    (forall x, x < dst \/ dst + len <= x -> ph_mem s' x = ph_mem s x) /\
    ((r = 0 /\ forall i, 0 <= i < len ->
        mapped m0 pt (srcva + i) /\ ph_mem s' (dst + i) = m0 (uaddr m0 pt (srcva + i))) \/
     (r = -1 /\ exists i, 0 <= i < len /\ ~ mapped m0 pt (srcva + i))).
Proof.
  revert dst srcva len s. induction fuel as [|fuel IH]; intros dst srcva len s Hw Hag H1 H2 H3 H4 H5 Hf1 Hf;
    [lia|]. cbn [copyin_loop]. pose proof (PGROUNDDOWN_bounds srcva) as Hb.
  assert (PGSIZE = 4096) as HPG by done.
  destruct (Z.ltb_spec 0 len) as [Hl|Hl]; cbn [negb].
  2: { exists 0, s. split_and!; try done. left. split; [done|lia]. }
  rewrite (bind_Ret _ _ _ _ _ (walkaddr_pure pt (PGROUNDDOWN srcva) s)).
  rewrite (Hst _ Hag srcva) by lia.
  destruct (Z.eqb_spec (upage m0 pt (PGROUNDDOWN srcva)) 0) as [E|E].
  { exists (-1), s. split_and!; try done. right. split; [done|]. exists 0. rewrite Z.add_0_r.
    split; [lia|]. unfold mapped. tauto. }
  fold (chunk srcva len). fold (uaddr m0 pt srcva).
  destruct (chunk_facts m0 pt srcva len) as (Hn & Hnc & -> & Hrd & Hua & Hmp); [lia|done..|].
  set (n := chunk srcva len) in *. set (pa := uaddr m0 pt srcva) in *.
  assert (forall x, dst <= x < dst + n -> memmove (ph_mem s) dst pa n x = m0 (pa + (x - dst))) as Hnew.
  { intros x Hx. rewrite memmove_in by done. apply Hag. rewrite <- Hua by lia. apply Hda; [lia|].
    apply Hmp. lia. }
  unfold setmem, modify. unfold bind at 1.
  destruct (Z.eq_dec n len) as [->|Hne].
  - destruct fuel as [|fuel]; [lia|]. cbn [copyin_loop]. rewrite Z.sub_diag. cbn [Z.ltb Z.compare negb].
    eexists 0, _. split; [reflexivity|]. cbn. split_and!; try done.
    + apply memmove_wf; [done|lia].
    + intros x Hx. apply memmove_out; [done|lia|lia].
    + left. split; [done|]. intros i Hi. split; [by apply Hmp|]. rewrite Hnew, Hua by lia. f_equal. lia.
  - set (s1 := mkPhys _ _ _).
    destruct (IH (dst + n) (PGROUNDDOWN srcva + PGSIZE) (len - n) s1) as (r & s' & HR & Hp & He & Hw' & Ho & Hr);
      try lia.
    + cbn. apply memmove_wf; [done|lia].
    + intros x Hx. cbn. rewrite memmove_out by (auto; lia). by apply Hag.
    + exists r, s'. rewrite HR. split_and!; try done.
      * intros x Hx. rewrite Ho by lia. cbn. apply memmove_out; [done|lia|lia].
      * assert (n = PGSIZE - (srcva - PGROUNDDOWN srcva)) as Hn' by lia.
        destruct Hr as [[-> Hr]|[-> (i & Hi & Hr)]]; [left|right].
        -- split; [done|]. intros i Hi. destruct (Z.lt_ge_cases i n).
           ++ split; [apply Hmp; lia|]. rewrite Ho by lia. cbn. rewrite Hnew, Hua by lia. f_equal. lia.
           ++ destruct (Hr (i - n)) as [Ha Hb']; [lia|].
              replace (PGROUNDDOWN srcva + PGSIZE + (i - n)) with (srcva + i) in * by lia.
              split; [done|]. rewrite <- Hb'. f_equal. lia.
        -- split; [done|]. exists (i + n). split; [lia|].
           by replace (srcva + (i + n)) with (PGROUNDDOWN srcva + PGSIZE + i) by lia.
Qed.
End Copyin.

Lemma fuel_enough len off :
  0 <= len -> 0 <= off < PGSIZE ->
  (1 <= Z.to_nat (len / PGSIZE + 3))%nat /\
  off + len <= (Z.of_nat (Z.to_nat (len / PGSIZE + 3)) - 1) * 4096.
Proof.
  unfold PGSIZE. intros. assert (0 <= len / 4096) by dlia.
  rewrite Z2Nat.id by lia. split; [lia|dlia].
Qed.

(** copyin() of a range whose destination is apart from the user's pages and
    page tables: either every source byte is mapped and has been copied, or
    some byte is not mapped and the result is -1.  Nothing outside the
    destination changes on either branch. *)
Lemma copyin_spec pt dst srcva len s :
  let m := ph_mem s in
  wf_mem m -> 0 <= srcva -> 0 <= len ->
  (forall m', (forall x, x < dst \/ dst + len <= x -> m' x = m x) ->
     forall va, srcva <= va < srcva + len ->
       upage m' pt (PGROUNDDOWN va) = upage m pt (PGROUNDDOWN va)) ->
  (forall va, srcva <= va < srcva + len -> mapped m pt va ->
     uaddr m pt va < dst \/ dst + len <= uaddr m pt va) ->
  exists r s', copyin pt dst srcva len s = Ret r s' /\
    ph_pool s' = ph_pool s /\ ph_end s' = ph_end s /\ wf_mem (ph_mem s') /\
    (forall x, x < dst \/ dst + len <= x -> ph_mem s' x = m x) /\
    ((r = 0 /\ forall i, 0 <= i < len ->
        mapped m pt (srcva + i) /\ ph_mem s' (dst + i) = m (uaddr m pt (srcva + i))) \/
     (r = -1 /\ exists i, 0 <= i < len /\ ~ mapped m pt (srcva + i))).
Proof.
  intros m Hw Hv Hl Hst Hda. pose proof (PGROUNDDOWN_bounds srcva).
  destruct (fuel_enough len (srcva - PGROUNDDOWN srcva)) as [Hf1 Hf2]; [done|lia|].
  apply (copyin_loop_spec m pt dst (dst + len) srcva (srcva + len)); auto; lia.
Qed.

(** ** copyout

    The bytes written are those the user addresses refer to.  They are apart
    from the page tables and from the kernel's source buffer, and no two of
    the addresses share a byte. *)
Section Copyout.
Context (m0 : mem) (pt src_lo src_hi va_lo va_hi : Z).
Context (Hw0 : wf_mem m0) (Hva : 0 <= va_lo).
Definition user_byte (m : mem) (t lo hi x : Z) : Prop :=
  exists va, lo <= va < hi /\ mapped m t va /\ x = uaddr m t va.
Context (Hst : forall m', (forall x, ~ user_byte m0 pt va_lo va_hi x -> m' x = m0 x) ->
  forall va, va_lo <= va < va_hi -> upage m' pt (PGROUNDDOWN va) = upage m0 pt (PGROUNDDOWN va)).
Context (Hsrc : forall x, src_lo <= x < src_hi -> ~ user_byte m0 pt va_lo va_hi x).
Context (Hinj : forall va va', va_lo <= va < va_hi -> va_lo <= va' < va_hi ->
  mapped m0 pt va -> mapped m0 pt va' -> uaddr m0 pt va = uaddr m0 pt va' -> va = va').

Lemma copyout_loop_spec fuel dstva src len s :
  wf_mem (ph_mem s) -> (forall x, ~ user_byte m0 pt va_lo va_hi x -> ph_mem s x = m0 x) ->
  src_lo <= src -> src + len <= src_hi -> 0 <= len -> va_lo <= dstva -> dstva + len <= va_hi ->
  (1 <= fuel)%nat -> dstva - PGROUNDDOWN dstva + len <= (Z.of_nat fuel - 1) * 4096 ->
  exists r s', copyout_loop fuel pt dstva src len s = Ret r s' /\
    ph_pool s' = ph_pool s /\ ph_end s' = ph_end s /\ wf_mem (ph_mem s') /\
    (forall x, ~ user_byte m0 pt dstva (dstva + len) x -> ph_mem s' x = ph_mem s x) /\
    ((r = 0 /\ forall i, 0 <= i < len ->
        mapped m0 pt (dstva + i) /\ ph_mem s' (uaddr m0 pt (dstva + i)) = m0 (src + i)) \/
     (r = -1 /\ exists i, 0 <= i < len /\ ~ mapped m0 pt (dstva + i))).
Proof.
  revert dstva src len s. induction fuel as [|fuel IH]; intros dstva src len s Hw Hag H1 H2 H3 H4 H5 Hf1 Hf;
    [lia|]. cbn [copyout_loop]. pose proof (PGROUNDDOWN_bounds dstva) as Hb.
  assert (PGSIZE = 4096) as HPG by done.
  destruct (Z.ltb_spec 0 len) as [Hl|Hl]; cbn [negb].
  2: { exists 0, s. split_and!; try done. left. split; [done|lia]. }
  rewrite (bind_Ret _ _ _ _ _ (walkaddr_pure pt (PGROUNDDOWN dstva) s)).
  rewrite (Hst _ Hag dstva) by lia.
  destruct (Z.eqb_spec (upage m0 pt (PGROUNDDOWN dstva)) 0) as [E|E].
  { exists (-1), s. split_and!; try done. right. split; [done|]. exists 0. rewrite Z.add_0_r.
    split; [lia|]. unfold mapped. tauto. }
  fold (chunk dstva len). fold (uaddr m0 pt dstva).
  destruct (chunk_facts m0 pt dstva len) as (Hn & Hnc & -> & Hrd & Hua & Hmp); [lia|done..|].
  set (n := chunk dstva len) in *. set (pa := uaddr m0 pt dstva) in *.
  assert (forall x, ~ user_byte m0 pt dstva (dstva + n) x -> x < pa \/ pa + n <= x) as Hout.
  { intros x Hx. destruct (Z.lt_ge_cases x pa), (Z.lt_ge_cases x (pa + n)); try lia.
    exfalso. apply Hx. exists (dstva + (x - pa)).
    split_and!; [lia|lia|apply Hmp; lia|rewrite Hua by lia; lia]. }
  assert (forall i, 0 <= i < n -> memmove (ph_mem s) pa src n (pa + i) = m0 (src + i)) as Hnew.
  { intros i Hi. rewrite memmove_in by (auto; lia). rewrite Hag; [f_equal; lia|]. apply Hsrc. lia. }
  unfold setmem, modify. unfold bind at 1.
  destruct Hnc as [->|[Hnc Hlt]].
  - destruct fuel as [|fuel]; [lia|]. cbn [copyout_loop]. rewrite Z.sub_diag. cbn [Z.ltb Z.compare negb].
    eexists 0, _. split; [reflexivity|]. cbn. split_and!; try done.
    + apply memmove_wf; [done|lia].
    + intros x Hx. apply memmove_out; [done|lia|]. by apply Hout.
    + left. split; [done|]. intros i Hi. split; [by apply Hmp|]. by rewrite Hua, Hnew by lia.
  - assert (forall x, user_byte m0 pt (PGROUNDDOWN dstva + PGSIZE) (PGROUNDDOWN dstva + PGSIZE + (len - n)) x ->
              user_byte m0 pt dstva (dstva + len) x) as Hsub1.
    { intros x (va & ? & ? & ?). exists va. split_and!; auto; lia. }
    assert (forall x, user_byte m0 pt dstva (dstva + n) x -> user_byte m0 pt dstva (dstva + len) x) as Hsub2.
    { intros x (va & ? & ? & ?). exists va. split_and!; auto; lia. }
    destruct (IH (PGROUNDDOWN dstva + PGSIZE) (src + n) (len - n)
                (mkPhys (memmove (ph_mem s) pa src n) (ph_pool s) (ph_end s)))
      as (r & s' & HR & Hp & He & Hw' & Ho & Hr); try lia.
    + cbn. apply memmove_wf; [done|lia].
    + intros x Hx. cbn. rewrite memmove_out; [by apply Hag|done|lia|]. apply Hout.
      intros (va & ? & ? & ?). apply Hx. exists va. split_and!; auto; lia.
    + exists r, s'. rewrite HR. split_and!; try done.
      * intros x Hx. rewrite Ho by eauto. cbn. apply memmove_out; [done|lia|]. apply Hout. eauto.
      * destruct Hr as [[-> Hr]|[-> (i & Hi & Hr)]]; [left|right].
        -- split; [done|]. intros i Hi. destruct (Z.lt_ge_cases i n).
           ++ split; [apply Hmp; lia|]. rewrite Ho; [cbn; by rewrite Hua, Hnew by lia|].
              intros (va & Hv1 & Hv2 & Hv3). apply Hinj in Hv3; [lia|lia|lia|apply Hmp; lia|done].
           ++ destruct (Hr (i - n)) as [Ha Hb']; [lia|].
              replace (PGROUNDDOWN dstva + PGSIZE + (i - n)) with (dstva + i) in * by lia.
              split; [done|]. rewrite Hb'. f_equal. lia.
        -- split; [done|]. exists (i + n). split; [lia|].
           by replace (dstva + (i + n)) with (PGROUNDDOWN dstva + PGSIZE + i) by lia.
Qed.
End Copyout.

(** copyout() to user pages apart from the page tables and the source: either
    every byte is mapped and holds the source's, or some byte is not mapped and
    the result is -1.  Only bytes of the user range change. *)
Lemma copyout_spec pt dstva src len s :
  let m := ph_mem s in
  wf_mem m -> 0 <= dstva -> 0 <= len ->
  (forall m', (forall x, ~ user_byte m pt dstva (dstva + len) x -> m' x = m x) ->
     forall va, dstva <= va < dstva + len ->
       upage m' pt (PGROUNDDOWN va) = upage m pt (PGROUNDDOWN va)) ->
  (forall x, src <= x < src + len -> ~ user_byte m pt dstva (dstva + len) x) ->
  (forall va va', dstva <= va < dstva + len -> dstva <= va' < dstva + len ->
     mapped m pt va -> mapped m pt va' -> uaddr m pt va = uaddr m pt va' -> va = va') ->
  exists r s', copyout pt dstva src len s = Ret r s' /\
    ph_pool s' = ph_pool s /\ ph_end s' = ph_end s /\ wf_mem (ph_mem s') /\
    (forall x, ~ user_byte m pt dstva (dstva + len) x -> ph_mem s' x = m x) /\
    ((r = 0 /\ forall i, 0 <= i < len ->
        mapped m pt (dstva + i) /\ ph_mem s' (uaddr m pt (dstva + i)) = m (src + i)) \/
     (r = -1 /\ exists i, 0 <= i < len /\ ~ mapped m pt (dstva + i))).
Proof.
  intros m Hw Hv Hl Hst Hsrc Hinj. pose proof (PGROUNDDOWN_bounds dstva).
  destruct (fuel_enough len (dstva - PGROUNDDOWN dstva)) as [Hf1 Hf2]; [done|lia|].
  apply (copyout_loop_spec m pt src (src + len) dstva (dstva + len)); auto; lia.
Qed.

(** ** The bytes a translation depends on *)

(** [walk_byte m pt va x]: byte [x] belongs to a PTE walkaddr(va) reads. *)
Definition walk_byte (m : mem) (pt va x : Z) : Prop :=
  let in_pte t level := t + 8 * PX level va <= x < t + 8 * PX level va + 8 in
  in_pte pt 2 \/
  match next_table m pt va 2 with
  | None => False
  | Some t1 => in_pte t1 1 \/
               match next_table m t1 va 1 with None => False | Some t0 => in_pte t0 0 end
  end.

Lemma walk_byte_stable m m' pt va x :
  (forall y, walk_byte m pt va y -> m' y = m y) -> walk_byte m' pt va x <-> walk_byte m pt va x.
Proof.
  unfold walk_byte. intros H.
  assert (next_table m' pt va 2 = next_table m pt va 2) as ->.
  { unfold next_table. rewrite (ldn_ext 8 m' m); [done|]. intros. apply H. by left. }
  destruct (next_table m pt va 2) as [t1|]; [|done].
  assert (next_table m' t1 va 1 = next_table m t1 va 1) as ->; [|done].
  unfold next_table. rewrite (ldn_ext 8 m' m); [done|]. intros. apply H. right. by left.
Qed.

Lemma upage_stable m m' pt va :
  (forall x, walk_byte m pt va x -> m' x = m x) -> upage m' pt va = upage m pt va.
Proof.
  unfold walk_byte, upage, pte_addr. intros H. destruct (MAXVA <=? va); [done|].
  assert (next_table m' pt va 2 = next_table m pt va 2) as ->.
  { unfold next_table. rewrite (ldn_ext 8 m' m); [done|]. intros. apply H. by left. }
  destruct (next_table m pt va 2) as [t1|]; [|done].
  assert (next_table m' t1 va 1 = next_table m t1 va 1) as ->.
  { unfold next_table. rewrite (ldn_ext 8 m' m); [done|]. intros. apply H. right. by left. }
  destruct (next_table m t1 va 1) as [t0|]; [|done].
  rewrite (ldn_ext 8 m' m); [done|]. intros. apply H. right. by right.
Qed.

(** No PTE that translates [lo, hi) has a byte in [P]. *)
Definition tables_apart (m : mem) (pt lo hi : Z) (P : Z -> Prop) : Prop :=
  forall va x, lo <= va < hi -> walk_byte m pt (PGROUNDDOWN va) x -> ~ P x.

(** ** Properties *)

(** C25: copyin() reads exactly the user's bytes: it answers 0 and the
    destination holds them when every page of the range is mapped for the user,
    it answers -1 when one is not, and it writes nothing but the destination. *)
Theorem copyin_correct pt dst srcva len s :
  let m := ph_mem s in
  wf_mem m -> 0 <= srcva -> 0 <= len ->
  tables_apart m pt srcva (srcva + len) (fun x => dst <= x < dst + len) ->
  (forall x, user_byte m pt srcva (srcva + len) x -> x < dst \/ dst + len <= x) ->
  exists r s', copyin pt dst srcva len s = Ret r s' /\
    (forall x, x < dst \/ dst + len <= x -> ph_mem s' x = m x) /\
    (r = 0 <-> forall i, 0 <= i < len -> mapped m pt (srcva + i)) /\
    (r = 0 \/ r = -1) /\
    (r = 0 -> forall i, 0 <= i < len -> ph_mem s' (dst + i) = m (uaddr m pt (srcva + i))).
Proof.
  intros m Hw Hv Hl Ht Hu.
  destruct (copyin_spec pt dst srcva len s) as (r & s' & HR & _ & _ & _ & Ho & Hr); try done.
  - intros m' Hm' va Hva. apply upage_stable. intros x Hx. apply Hm'.
    pose proof (Ht va x Hva Hx) as Hn. cbn beta in Hn. lia.
  - intros va Hva Hm. apply Hu. by exists va.
  - exists r, s'. destruct Hr as [[-> Hr]|[-> (i & Hi & Hn)]].
    + split_and!; try done; [|by left|intros _ i Hi; by apply Hr].
      split; [|done]. intros _ i Hi. by apply Hr.
    + split_and!; try done; [|by right]. split; [done|]. intros H. exfalso. by apply Hn, H.
Qed.

(** C26: copyout() writes exactly the user's bytes of the range: it answers 0
    and they hold the source when every page is mapped for the user, it answers
    -1 when one is not, and no other byte of memory changes. *)
Theorem copyout_correct pt dstva src len s :
  let m := ph_mem s in
  wf_mem m -> 0 <= dstva -> 0 <= len ->
  tables_apart m pt dstva (dstva + len) (user_byte m pt dstva (dstva + len)) ->
  (forall x, src <= x < src + len -> ~ user_byte m pt dstva (dstva + len) x) ->
  (forall va va', dstva <= va < dstva + len -> dstva <= va' < dstva + len ->
     mapped m pt va -> mapped m pt va' -> uaddr m pt va = uaddr m pt va' -> va = va') ->
  exists r s', copyout pt dstva src len s = Ret r s' /\
    (forall x, ~ user_byte m pt dstva (dstva + len) x -> ph_mem s' x = m x) /\
    (r = 0 <-> forall i, 0 <= i < len -> mapped m pt (dstva + i)) /\
    (r = 0 \/ r = -1) /\
    (r = 0 -> forall i, 0 <= i < len -> ph_mem s' (uaddr m pt (dstva + i)) = m (src + i)).
Proof.
  intros m Hw Hv Hl Ht Hs Hinj.
  destruct (copyout_spec pt dstva src len s) as (r & s' & HR & _ & _ & _ & Ho & Hr); try done.
  - intros m' Hm' va Hva. apply upage_stable. intros x Hx. apply Hm'. by apply (Ht va).
  - exists r, s'. destruct Hr as [[-> Hr]|[-> (i & Hi & Hn)]].
    + split_and!; try done; [|by left|intros _ i Hi; by apply Hr].
      split; [|done]. intros _ i Hi. by apply Hr.
    + split_and!; try done; [|by right]. split; [done|]. intros H. exfalso. by apply Hn, H.
Qed.

(** A memory with one user page: the tables are at 0x80100000, 0x80101000 and
    0x80102000, and virtual page 0 is the physical page 0x80103000. *)
Definition one_user_page : mem :=
  let pte pa flags := Z.lor (PA2PTE pa) flags in
  st64 (st64 (st64 (fun a => if a <? 0x80103000 then 0 else a mod 251)
    0x80100000 (pte 0x80101000 PTE_V))
    0x80101000 (pte 0x80102000 PTE_V))
    0x80102000 (pte 0x80103000 31).

Definition one_user_phys : phys := mkPhys one_user_page (Pool.mkPool [] (fun _ => 0)) KERNBASE.

Lemma one_user_page_wf : wf_mem one_user_page.
Proof.
  unfold one_user_page. apply stn_wf, stn_wf, stn_wf. intros a. case_match; [lia|].
  pose proof (Z.mod_pos_bound a 251). lia.
Qed.

Lemma page0 va : 0 <= va < PGSIZE -> PGROUNDDOWN va = 0.
Proof. intros. rewrite PGROUNDDOWN_mod, Z.mod_small by lia. lia. Qed.

(** Memories with the same page tables. *)
Definition user_tables (m : mem) : Prop :=
  forall x, 0x80100000 <= x < 0x80103000 -> m x = one_user_page x.

Lemma user_tables_next m : user_tables m ->
  next_table m 0x80100000 0 2 = Some 0x80101000 /\ next_table m 0x80101000 0 1 = Some 0x80102000 /\
  ld64 m 0x80102000 = ld64 one_user_page 0x80102000.
Proof.
  intros H. unfold next_table. change (8 * PX 2 0) with 0. change (8 * PX 1 0) with 0.
  rewrite !Z.add_0_r.
  rewrite !(ldn_ext 8 m one_user_page) by (intros; apply H; lia). by vm_compute.
Qed.

Lemma user_tables_upage m : user_tables m -> upage m 0x80100000 0 = 0x80103000.
Proof.
  intros H. destruct (user_tables_next m H) as (H1 & H2 & H3).
  unfold upage, pte_addr. rewrite H1, H2. change (0x80102000 + 8 * PX 0 0) with 0x80102000. rewrite H3.
  by vm_compute.
Qed.

Lemma user_tables_addr m va :
  user_tables m -> 0 <= va < PGSIZE -> uaddr m 0x80100000 va = 0x80103000 + va.
Proof. intros Ht H. unfold uaddr. rewrite page0, user_tables_upage by done. lia. Qed.

Lemma user_tables_mapped m va : user_tables m -> 0 <= va < PGSIZE -> mapped m 0x80100000 va.
Proof. intros Ht H. unfold mapped. rewrite page0, user_tables_upage by done. lia. Qed.

Lemma user_tables_walk m va x :
  user_tables m -> 0 <= va < PGSIZE -> walk_byte m 0x80100000 (PGROUNDDOWN va) x ->
  0x80100000 <= x < 0x80103000.
Proof.
  intros Ht H. rewrite page0 by done. destruct (user_tables_next m Ht) as (H1 & H2 & _).
  unfold walk_byte. rewrite H1, H2. change (8 * PX 2 0) with 0. change (8 * PX 1 0) with 0.
  change (8 * PX 0 0) with 0. lia.
Qed.

Lemma one_user_page_tables : user_tables one_user_page.
Proof. done. Qed.

Lemma copyin_correct_witness :
  exists s', copyin 0x80100000 0x80200000 100 1500 one_user_phys = Ret 0 s' /\
    ph_mem s' (0x80200000 + 7) = one_user_page (0x80103000 + 107).
Proof.
  destruct (copyin_correct 0x80100000 0x80200000 100 1500 one_user_phys) as (r & s' & H1 & _ & Hr & _ & Hb).
  - exact one_user_page_wf.
  - lia.
  - lia.
  - intros va x Hva Hx. apply user_tables_walk in Hx; [lia | exact one_user_page_tables | unfold PGSIZE; lia].
  - intros x (va & Hva & _ & ->). cbn [ph_mem one_user_phys].
    rewrite user_tables_addr by first [exact one_user_page_tables | unfold PGSIZE; lia]. lia.
  - assert (r = 0) as ->.
    { apply Hr. intros i Hi. apply user_tables_mapped; [exact one_user_page_tables | unfold PGSIZE; lia]. }
    exists s'. split; [exact H1|]. rewrite Hb by lia. cbn [ph_mem one_user_phys].
    rewrite user_tables_addr by first [exact one_user_page_tables | unfold PGSIZE; lia]. reflexivity.
Defined.

Lemma copyout_correct_witness :
  exists s', copyout 0x80100000 100 0x80200000 1500 one_user_phys = Ret 0 s' /\
    ph_mem s' (0x80103000 + 107) = one_user_page (0x80200000 + 7).
Proof.
  destruct (copyout_correct 0x80100000 100 0x80200000 1500 one_user_phys) as (r & s' & H1 & _ & Hr & _ & Hb).
  - exact one_user_page_wf.
  - lia.
  - lia.
  - intros va x Hva Hx (va' & Hva' & _ & ->). apply user_tables_walk in Hx; [|exact one_user_page_tables|unfold PGSIZE; lia].
    cbn [ph_mem one_user_phys] in Hx. rewrite user_tables_addr in Hx by first [exact one_user_page_tables | unfold PGSIZE; lia]. lia.
  - intros x Hx (va & Hva & _ & ->). cbn [ph_mem one_user_phys] in Hx.
    rewrite user_tables_addr in Hx by first [exact one_user_page_tables | unfold PGSIZE; lia]. lia.
  - intros va va' Hva Hva' _ _. cbn [ph_mem one_user_phys].
    rewrite !user_tables_addr by first [exact one_user_page_tables | unfold PGSIZE; lia]. lia.
  - assert (r = 0) as ->.
    { apply Hr. intros i Hi. apply user_tables_mapped; [exact one_user_page_tables | unfold PGSIZE; lia]. }
    exists s'. split; [exact H1|]. specialize (Hb eq_refl 7 ltac:(lia)). cbn [ph_mem one_user_phys] in Hb.
    rewrite user_tables_addr in Hb by first [exact one_user_page_tables | unfold PGSIZE; lia]. exact Hb.
Defined.
