(* ===== verification/KState.v ===== *)
(** * The network stack's kernel state

    The structs of kernel/sys/net.h, kernel/sys/arp.h, kernel/sys/socket.h and
    kernel/virtio.h as records, the global variables of the stack as one state
    [kst], and the primitives its functions share: page allocation, locks,
    wakeup.  Packets stay bytes in physical memory; sockets and port bindings
    are records keyed by the address of their page, so that using one after its
    page was freed is a [Fault].

    A run of a function is sequential: it covers one CPU between the points
    where it waits.  What other agents contribute at those points is part of
    the state: [vn_tx_polls] lists the values of the transmit queue's used
    index the device shows to successive polls, and [k_arp_events] lists, per
    iteration of a busy-wait, the ARP answers interrupts insert meanwhile. *)
From S2P Require Import Prelude Mem StringC Net Kalloc Page Vm.
From Stdlib Require Import ZArith Lia.
From stdpp Require Import strings.
Local Open Scope list_scope.
Local Open Scope Z_scope.
Local Open Scope kernel_scope.

(** ** Data *)

(** struct net_state; addresses in network byte order. *)
Record net_state := mkNetState {
  nc_ip_addr : Z; nc_mac_addr : list Z; nc_subnet_mask : Z; nc_gateway : Z
}.

(** struct arp_entry *)
Record arp_entry := mkArpEntry { ae_ip : Z; ae_mac : list Z; ae_valid : Z }.

(** struct port_binding *)
Record port_binding := mkPortBinding { pb_ip_addr : Z; pb_port : Z; pb_sock : Z }.

(** struct socket_ops: which of the two tables of socket.c a socket points to. *)
Inductive socket_ops := null_ops | udp_ops | tcp_ops.

(** struct socket, without its lock (see [lock_id]). *)
Record socket := mkSocket {
  so_pending : Z;
  so_src_ip : Z; so_dest_ip : Z; so_src_port : Z; so_dest_port : Z;
  so_proto : Z; so_type : Z; so_family : Z; so_state : Z; so_fd : Z;
  so_ops : socket_ops;
  so_rx_head : Z; so_rx_tail : Z
}.

(** The offset of rx_head in struct socket: the channel readers sleep on. *)
Definition sock_rx_head : Z := 80.

(** struct socket_list with its array of MAX_SOCKET_CAPACITY pointers. *)
Definition MAX_SOCKET_CAPACITY : Z := 512.
Definition MAX_PORT_BINDINGS : Z := 512.
Record socket_list := mkSocketList { sl_socks : list Z; sl_size : Z }.

(** struct virtq_desc, and struct virtq with its rings: [q_avail_*] is the
    driver area, [q_used_*] the device area. *)
Definition NUM : Z := 8.
Record virtq_desc := mkDesc { d_addr : Z; d_len : Z; d_flags : Z; d_next : Z }.
Record virtq := mkVirtq {
  q_desc : list virtq_desc;
  q_avail_idx : Z; q_avail_ring : list Z;
  q_used_ring_idx : Z; q_used_ring : list (Z * Z);
  q_num : Z; q_free : list Z; q_used_idx : Z
}.

(** struct virtio_net with packet_buf, and the device: the frames it has sent
    so far, its future answers to polls, the chains of the transmit queue it was
    notified of and has not used yet, and the receive queue's available index
    at the last notification. *)
Record virtio_net := mkVnet {
  vn_mac : list Z; vn_txq : virtq; vn_rxq : virtq; vn_packet_buf : Z;
  vn_txq_free : Z; vn_sent : list (list Z); vn_tx_polls : list Z;
  vn_tx_told : list Z; vn_rx_told : Z
}.

Inductive lock_id := vnet_lock | port_binds_lock | sock_lock (s : Z).
#[export] Instance lock_id_eq : EqDecision lock_id.
Proof. solve_decision. Defined.

(** The tables of socket.c. *)
Record sockets := mkSockets {
  st_udp_binds : list Z; st_tcp_binds : list Z;
  st_bindings : gmap Z port_binding; st_sockets : gmap Z socket;
  st_sock_list : option socket_list; st_tcp_list : option socket_list;
  st_udp_list : option socket_list
}.

Record kst := mkKst {
  k_phys : phys; k_netconf : net_state; k_arp : list arp_entry;
  k_sockets : sockets; k_net : virtio_net;
  k_held : list lock_id; k_wakeups : list Z;
  k_arp_events : list (list (Z * list Z));
  k_pagetable : Z; k_stack : Z
}.

(** ** Updating one part *)
Definition set_phys (p : phys) (s : kst) : kst :=
  mkKst p (k_netconf s) (k_arp s) (k_sockets s) (k_net s) (k_held s) (k_wakeups s)
        (k_arp_events s) (k_pagetable s) (k_stack s).
Definition set_netconf (n : net_state) (s : kst) : kst :=
  mkKst (k_phys s) n (k_arp s) (k_sockets s) (k_net s) (k_held s) (k_wakeups s)
        (k_arp_events s) (k_pagetable s) (k_stack s).
Definition set_arp (c : list arp_entry) (s : kst) : kst :=
  mkKst (k_phys s) (k_netconf s) c (k_sockets s) (k_net s) (k_held s) (k_wakeups s)
        (k_arp_events s) (k_pagetable s) (k_stack s).
Definition set_sockets (t : sockets) (s : kst) : kst :=
  mkKst (k_phys s) (k_netconf s) (k_arp s) t (k_net s) (k_held s) (k_wakeups s)
        (k_arp_events s) (k_pagetable s) (k_stack s).
Definition set_net (n : virtio_net) (s : kst) : kst :=
  mkKst (k_phys s) (k_netconf s) (k_arp s) (k_sockets s) n (k_held s) (k_wakeups s)
        (k_arp_events s) (k_pagetable s) (k_stack s).
Definition set_held (h : list lock_id) (s : kst) : kst :=
  mkKst (k_phys s) (k_netconf s) (k_arp s) (k_sockets s) (k_net s) h (k_wakeups s)
        (k_arp_events s) (k_pagetable s) (k_stack s).
Definition set_wakeups (w : list Z) (s : kst) : kst :=
  mkKst (k_phys s) (k_netconf s) (k_arp s) (k_sockets s) (k_net s) (k_held s) w
        (k_arp_events s) (k_pagetable s) (k_stack s).
Definition set_arp_events (e : list (list (Z * list Z))) (s : kst) : kst :=
  mkKst (k_phys s) (k_netconf s) (k_arp s) (k_sockets s) (k_net s) (k_held s) (k_wakeups s)
        e (k_pagetable s) (k_stack s).

Definition set_txq (q : virtq) (n : virtio_net) : virtio_net :=
  mkVnet (vn_mac n) q (vn_rxq n) (vn_packet_buf n) (vn_txq_free n) (vn_sent n) (vn_tx_polls n) (vn_tx_told n) (vn_rx_told n).
Definition set_rxq (q : virtq) (n : virtio_net) : virtio_net :=
  mkVnet (vn_mac n) (vn_txq n) q (vn_packet_buf n) (vn_txq_free n) (vn_sent n) (vn_tx_polls n) (vn_tx_told n) (vn_rx_told n).
Definition set_tx_polls (l : list Z) (n : virtio_net) : virtio_net :=
  mkVnet (vn_mac n) (vn_txq n) (vn_rxq n) (vn_packet_buf n) (vn_txq_free n) (vn_sent n) l (vn_tx_told n) (vn_rx_told n).
Definition set_tx_told (l : list Z) (n : virtio_net) : virtio_net :=
  mkVnet (vn_mac n) (vn_txq n) (vn_rxq n) (vn_packet_buf n) (vn_txq_free n) (vn_sent n) (vn_tx_polls n) l (vn_rx_told n).
Definition set_rx_told (x : Z) (n : virtio_net) : virtio_net :=
  mkVnet (vn_mac n) (vn_txq n) (vn_rxq n) (vn_packet_buf n) (vn_txq_free n) (vn_sent n) (vn_tx_polls n) (vn_tx_told n) x.
Definition send (f : list Z) (n : virtio_net) : virtio_net :=
  mkVnet (vn_mac n) (vn_txq n) (vn_rxq n) (vn_packet_buf n) (vn_txq_free n) (vn_sent n ++ [f]) (vn_tx_polls n) (vn_tx_told n) (vn_rx_told n).

#[export] Instance kst_phys : Lens kst phys.
Proof. refine {| view := k_phys; update := set_phys |}; [done|by intros []|done]. Defined.

(** ** Primitives *)
Definition k_kalloc : M kst Z := lift pg_kalloc.
Definition k_kfree (pa : Z) : M kst unit := lift (pg_kfree pa).
Definition k_setmem (f : mem -> mem) : M kst unit := lift (setmem f).
Definition k_getmem {A} (f : mem -> A) : M kst A := lift (getmem f).

(** acquire() panics when this CPU holds the lock, release() when it does not. *)
Definition acquire (l : lock_id) : M kst unit := fun s =>
  if decide (l ∈ k_held s) then Panic "acquire" s else Ret tt (set_held (l :: k_held s) s).
Definition release (l : lock_id) : M kst unit := fun s =>
  if decide (l ∈ k_held s)
  then Ret tt (set_held (base.filter (fun x => x <> l) (k_held s)) s) else Panic "release" s.

Definition wakeup (chan : Z) : M kst unit :=
  modify (fun s => set_wakeups (k_wakeups s ++ [chan]) s).

(** Reading and writing through a pointer to a socket. *)
Definition sock_get (p : Z) : M kst socket := fun s =>
  match st_sockets (k_sockets s) !! p with Some k => Ret k s | None => Fault s end.
Definition with_socket (p : Z) (k : socket) (t : sockets) : sockets :=
  mkSockets (st_udp_binds t) (st_tcp_binds t) (st_bindings t) (<[p := k]> (st_sockets t))
            (st_sock_list t) (st_tcp_list t) (st_udp_list t).
Definition sock_put (p : Z) (k : socket) : M kst unit := fun s =>
  match st_sockets (k_sockets s) !! p with
  | Some _ => Ret tt (set_sockets (with_socket p k (k_sockets s)) s)
  | None => Fault s
  end.

(** ** Lemmas *)
Lemma acquire_ok l s :
  l ∉ k_held s -> acquire l s = Ret tt (set_held (l :: k_held s) s).
Proof. intros. unfold acquire. by rewrite decide_False. Qed.

Lemma filter_not_in (l : lock_id) (h : list lock_id) : l ∉ h -> base.filter (fun x => x <> l) h = h.
Proof.
  intros H. induction h as [|x h IH]; [done|]. apply not_elem_of_cons in H as [Hne H].
  rewrite filter_cons_True by done. by rewrite IH.
Qed.

Lemma release_ok l h s :
  k_held s = l :: h -> l ∉ h -> release l s = Ret tt (set_held h s).
Proof.
  intros H Hn. unfold release. rewrite decide_True by (rewrite H; by constructor).
  rewrite H, filter_cons_False, filter_not_in by naive_solver. done.
Qed.

Lemma set_held_self s : set_held (k_held s) s = s.
Proof. by destruct s. Qed.

(** [kred] computes the projections and updates of an explicit state. *)
Ltac kred :=
  unfold set_phys, set_netconf, set_arp, set_sockets, set_net, set_held, set_wakeups,
    set_arp_events, set_txq, set_rxq, set_tx_polls, set_tx_told, set_rx_told, send, with_socket;
  cbn [view update kst_phys set_phys k_phys k_netconf k_arp k_sockets k_net k_held k_wakeups k_arp_events
    k_pagetable k_stack ph_mem ph_pool ph_end
    vn_mac vn_txq vn_rxq vn_packet_buf vn_txq_free vn_sent vn_tx_polls vn_tx_told vn_rx_told
    q_desc q_avail_idx q_avail_ring q_used_ring_idx q_used_ring q_num q_free q_used_idx].
