(* ===== verification/VirtioNet.v ===== *)
(** * kernel/virtio_net.c: descriptors and transmission

    alloc_desc and free_desc are functions on a queue.  transmit_packet is the
    whole C function: it builds a two-descriptor chain, publishes it, notifies
    the device and polls.  The notification only tells the device of the chain;
    the device uses it at some later moment, not after the poll that finds the
    used index changed.  It is then that the bytes it finds by following the chain
    are appended to [vn_sent].  A run is of one call at a time.  Device
    registers other than the notifications do not influence the driver and are
    not part of the state.  The receive path is in NetRx.v. *)
From S2P Require Import Prelude Mem StringC Net Kalloc Page Vm KState.
From Stdlib Require Import ZArith Lia.
From stdpp Require Import strings.
Local Open Scope list_scope.
Local Open Scope Z_scope.
Local Open Scope kernel_scope.

Definition VRING_DESC_F_NEXT : Z := 1.
Definition VRING_DESC_F_WRITE : Z := 2.
Definition HDR_SIZE : Z := 10.
Definition QUEUE_RX : Z := 0.
Definition QUEUE_TX : Z := 1.

(** ** Descriptors *)

(** The scan of alloc_desc over free[i..]: the index found and the new flags. *)
Fixpoint take_free (l : list Z) (i : Z) : option (Z * list Z) :=
  match l with
  | [] => None
  | f :: l => if negb (f =? 0) then Some (i, 0 :: l)
              else match take_free l (i + 1) with
                   | None => None
                   | Some (j, l') => Some (j, f :: l')
                   end
  end.

Definition set_free (q : virtq) (l : list Z) : virtq :=
  mkVirtq (q_desc q) (q_avail_idx q) (q_avail_ring q) (q_used_ring_idx q) (q_used_ring q)
          (q_num q) l (q_used_idx q).
Definition set_desc (q : virtq) (l : list virtq_desc) : virtq :=
  mkVirtq l (q_avail_idx q) (q_avail_ring q) (q_used_ring_idx q) (q_used_ring q)
          (q_num q) (q_free q) (q_used_idx q).
Definition set_avail (q : virtq) (idx : Z) (ring : list Z) : virtq :=
  mkVirtq (q_desc q) idx ring (q_used_ring_idx q) (q_used_ring q)
          (q_num q) (q_free q) (q_used_idx q).
Definition set_used_ring_idx (q : virtq) (idx : Z) : virtq :=
  mkVirtq (q_desc q) (q_avail_idx q) (q_avail_ring q) idx (q_used_ring q)
          (q_num q) (q_free q) (q_used_idx q).
Definition set_used_idx (q : virtq) (idx : Z) : virtq :=
  mkVirtq (q_desc q) (q_avail_idx q) (q_avail_ring q) (q_used_ring_idx q) (q_used_ring q)
          (q_num q) (q_free q) idx.

Definition alloc_desc (q : virtq) : Z * virtq :=
  match take_free (q_free q) 0 with
  | Some (i, l) => (i, set_free q l)
  | None => (-1, q)
  end.

(** free_desc on the transmit queue: the only queue whose descriptors are freed. *)
Definition free_desc (i : Z) : M kst unit := fun s =>
  if NUM <=? i then Panic "free_desc 1" s
  else
    let q := vn_txq (k_net s) in
    match znth (q_free q) i, zset (q_desc q) i (mkDesc 0 0 0 0), zset (q_free q) i 1 with
    | Some f, Some d, Some l =>
        if negb (f =? 0) then Panic "free_desc 2" s
        else wakeup (vn_txq_free (k_net s) + i)
               (set_net (set_txq (set_free (set_desc q d) l) (k_net s)) s)
    | _, _, _ => Fault s
    end.

(** ** Publishing a chain *)

(** [net.txq.desc[i] = d] with the bounds of the descriptor table. *)
Definition put_desc (i : Z) (f : virtq_desc -> virtq_desc) : M kst unit := fun s =>
  let q := vn_txq (k_net s) in
  match znth (q_desc q) i with
  | None => Fault s
  | Some d => match zset (q_desc q) i (f d) with
              | None => Fault s
              | Some l => Ret tt (set_net (set_txq (set_desc q l) (k_net s)) s)
              end
  end.

(** [driver_area->ring[driver_area->idx % NUM] = v; driver_area->idx++] *)
Definition publish (q : virtq) (v : Z) : option virtq :=
  match zset (q_avail_ring q) (q_avail_idx q mod NUM) (u16 v) with
  | None => None
  | Some ring => Some (set_avail q (u16 (q_avail_idx q + 1)) ring)
  end.

(** The frame the device finds in the chain that starts at [head]. *)
Definition chain_frame (m : mem) (q : virtq) (head : Z) : option (list Z) :=
  match znth (q_desc q) head with
  | None => None
  | Some h =>
      if Z.land (d_flags h) VRING_DESC_F_NEXT =? 0 then None
      else match znth (q_desc q) (d_next h) with
           | None => None
           | Some d => Some (ldbytes m (d_addr d) (Z.to_nat (d_len d)))
           end
  end.

(** [*R(VIRTIO_MMIO_QUEUE_NOTIFY) = QUEUE_TX]: the device learns of the newest
    chain of the queue. *)
Definition notify_tx : M kst unit := fun s =>
  let q := vn_txq (k_net s) in
  match znth (q_avail_ring q) ((q_avail_idx q - 1) mod 2 ^ 16 mod NUM) with
  | Some head => Ret tt (set_net (set_tx_told (vn_tx_told (k_net s) ++ [head]) (k_net s)) s)
  | None => Fault s
  end.

(** [while (net.txq.device_area->idx == prev_used_idx)]: each poll reads the
    next value the device shows. *)
Fixpoint poll_used (polls : list Z) (prev : Z) : option (Z * list Z) :=
  match polls with
  | [] => None
  | v :: polls => if v =? prev then poll_used polls prev else Some (v, polls)
  end.

(** The index changes when the device has used the oldest chain it was told of;
    it has read the frame by then. *)
Definition wait_used (prev : Z) : M kst unit := fun s =>
  match poll_used (vn_tx_polls (k_net s)) prev, vn_tx_told (k_net s) with
  | Some (v, rest), head :: told =>
      match chain_frame (ph_mem (k_phys s)) (vn_txq (k_net s)) head with
      | Some f => Ret tt (set_net (set_tx_polls rest (set_tx_told told (send f
                    (set_txq (set_used_ring_idx (vn_txq (k_net s)) v) (k_net s))))) s)
      | None => Fault s
      end
  | _, _ => Spin s
  end.

Definition transmit_packet (pkt_data pkt_len protocol : Z) : M kst unit :=
  acquire vnet_lock ;;;
  hdr <- k_kalloc ;;
  if hdr =? 0 then panic "failed to allocate header"
  else
  k_setmem (fun m => memset m hdr 0 PGSIZE) ;;;
  s <- gets (fun s => s) ;;
  let '(hdr_desc, q1) := alloc_desc (vn_txq (k_net s)) in
  let '(pkt_desc, q2) := alloc_desc q1 in
  modify (fun s => set_net (set_txq q2 (k_net s)) s) ;;;
  if (hdr_desc =? -1) || (pkt_desc =? -1) then release vnet_lock
  else
  k_setmem (fun m => st16 (st8 (st8 m hdr 0) (hdr + 1) 0) (hdr + 2) 0) ;;;
  buf <- gets (fun s => vn_packet_buf (k_net s)) ;;
  nonnull buf ;;;
  k_setmem (fun m => memmove m buf pkt_data pkt_len) ;;;
  put_desc hdr_desc (fun d => mkDesc hdr HDR_SIZE (Z.lor (d_flags d) VRING_DESC_F_NEXT) (u16 pkt_desc)) ;;;
  put_desc pkt_desc (fun d => mkDesc buf pkt_len 0 (d_next d)) ;;;
  q <- gets (fun s => publish (vn_txq (k_net s)) hdr_desc) ;;
  match q with
  | None => fault
  | Some q =>
      modify (fun s => set_net (set_txq q (k_net s)) s) ;;;
      let prev_used_idx := q_used_ring_idx q in
      notify_tx ;;;
      release vnet_lock ;;;
      wait_used prev_used_idx ;;;
      free_desc hdr_desc ;;;
      free_desc pkt_desc
  end.

(** ** Descriptor allocation *)

Lemma take_free_spec l i j l' :
  take_free l i = Some (j, l') ->
  i <= j /\ (exists f, znth l (j - i) = Some f /\ f <> 0) /\
  l' = <[Z.to_nat (j - i) := 0]> l /\
  (forall k, 0 <= k < j - i -> znth l k = Some 0).
Proof.
  revert i j l'. induction l as [|f l IH]; intros i j l'; cbn [take_free]; [done|].
  destruct (Z.eqb_spec f 0) as [->|Hf]; cbn [negb].
  - destruct (take_free l (i + 1)) as [[j0 l0]|] eqn:E; [|done]. intros [= <- <-].
    apply IH in E as (H1 & (g & H2 & H2') & -> & H4). split_and!; [lia| | |].
    + exists g. split; [|done]. unfold znth in *. revert H2. zb.
      replace (Z.to_nat (j0 - i)) with (S (Z.to_nat (j0 - (i + 1)))) by lia. done.
    + replace (Z.to_nat (j0 - i)) with (S (Z.to_nat (j0 - (i + 1)))) by lia. done.
    + intros k Hk. destruct (Z.eq_dec k 0) as [->|]; [done|]. specialize (H4 (k - 1) ltac:(lia)).
      revert H4. unfold znth. zb. replace (Z.to_nat k) with (S (Z.to_nat (k - 1))) by lia. done.
  - intros [= <- <-]. rewrite Z.sub_diag. split_and!; [lia| |done|lia]. by exists f.
Qed.

Lemma take_free_None l i : take_free l i = None <-> Forall (fun f => f = 0) l.
Proof.
  revert i. induction l as [|f l IH]; intros i; cbn [take_free]; [by split|].
  rewrite Forall_cons. destruct (Z.eqb_spec f 0) as [->|Hf]; cbn [negb].
  - rewrite <- (IH (i + 1)). destruct (take_free l (i + 1)) as [[]|]; intuition congruence.
  - intuition congruence.
Qed.

(** ** The driver's invariant between calls

    All eight transmit descriptors are free, the device has used every chain it
    was told of, packet_buf is a page of its own, and the pool is sound. *)
Record net_ok (s : kst) : Prop := {
  nk_wf : wf_mem (ph_mem (k_phys s));
  nk_pool : pool_ok (k_phys s);
  nk_end : KERNBASE <= ph_end (k_phys s);
  nk_buf : live (k_phys s) (vn_packet_buf (k_net s));
  nk_desc : length (q_desc (vn_txq (k_net s))) = 8%nat;
  nk_ring : length (q_avail_ring (vn_txq (k_net s))) = 8%nat;
  nk_free : q_free (vn_txq (k_net s)) = [1; 1; 1; 1; 1; 1; 1; 1];
  nk_idx : 0 <= q_avail_idx (vn_txq (k_net s)) < 2 ^ 16;
  nk_told : vn_tx_told (k_net s) = [];
  nk_lock : vnet_lock ∉ k_held s
}.

(** What a call of transmit_packet does to the state: [frame] was offered, the
    header page [r] left the pool, and memory changed only there and in
    packet_buf. *)
Record transmitted (s s' : kst) (r : Z) (frame : list Z) : Prop := {
  tx_ok : net_ok s';
  tx_sent : vn_sent (k_net s') = vn_sent (k_net s) ++ [frame];
  tx_page : Pool.free (ph_pool (k_phys s)) = r :: Pool.free (ph_pool (k_phys s'));
  tx_refs : Pool.refs (ph_pool (k_phys s')) = Pool.set_ref (Pool.refs (ph_pool (k_phys s))) r 1;
  tx_end : ph_end (k_phys s') = ph_end (k_phys s);
  tx_mem : forall x, x < r \/ r + PGSIZE <= x ->
    x < vn_packet_buf (k_net s) \/ vn_packet_buf (k_net s) + PGSIZE <= x ->
    ph_mem (k_phys s') x = ph_mem (k_phys s) x;
  tx_buf : vn_packet_buf (k_net s') = vn_packet_buf (k_net s);
  tx_rxq : vn_rxq (k_net s') = vn_rxq (k_net s);
  tx_used : poll_used (vn_tx_polls (k_net s)) (q_used_ring_idx (vn_txq (k_net s)))
            = Some (q_used_ring_idx (vn_txq (k_net s')), vn_tx_polls (k_net s'));
  tx_held : k_held s' = k_held s;
  tx_netconf : k_netconf s' = k_netconf s;
  tx_arp : k_arp s' = k_arp s;
  tx_events : k_arp_events s' = k_arp_events s;
  tx_sockets : k_sockets s' = k_sockets s;
  tx_pagetable : k_pagetable s' = k_pagetable s;
  tx_stack : k_stack s' = k_stack s
}.

Lemma k_kalloc_cons s r l :
  Pool.free (ph_pool (k_phys s)) = r :: l ->
  k_kalloc s = Ret r (set_phys (mkPhys (memset (ph_mem (k_phys s)) r 5 PGSIZE)
    (Pool.mkPool l (Pool.set_ref (Pool.refs (ph_pool (k_phys s))) r 1)) (ph_end (k_phys s))) s).
Proof. intros H. unfold k_kalloc. by erewrite lift_Ret by (apply pg_kalloc_cons; exact H). Qed.

Lemma k_kalloc_nil s : Pool.free (ph_pool (k_phys s)) = [] -> k_kalloc s = Ret 0 s.
Proof.
  intros H. unfold k_kalloc. erewrite lift_Ret by (apply pg_kalloc_nil; exact H).
  by rewrite (update_view (Lens := kst_phys)).
Qed.

Lemma k_setmem_Ret f s :
  k_setmem f s = Ret tt (set_phys (mkPhys (f (ph_mem (k_phys s))) (ph_pool (k_phys s)) (ph_end (k_phys s))) s).
Proof. done. Qed.

Lemma k_getmem_Ret {A} (f : mem -> A) s : k_getmem f s = Ret (f (ph_mem (k_phys s))) s.
Proof. unfold k_getmem, lift. cbn. by destruct s. Qed.

Lemma list_of_8 {A} (l : list A) :
  length l = 8%nat -> exists a0 a1 a2 a3 a4 a5 a6 a7, l = [a0; a1; a2; a3; a4; a5; a6; a7].
Proof.
  intros H. do 8 (destruct l as [|? l]; [done|]). destruct l; [|done]. by repeat eexists.
Qed.

(** Publishing a chain whose head is [v], and finding it again. *)
Lemma publish_spec q v :
  length (q_avail_ring q) = 8%nat -> 0 <= q_avail_idx q < 2 ^ 16 -> 0 <= v < 2 ^ 16 ->
  exists ring, publish q v = Some (set_avail q (u16 (q_avail_idx q + 1)) ring) /\
    length ring = 8%nat /\
    znth ring ((u16 (q_avail_idx q + 1) - 1) mod 2 ^ 16 mod NUM) = Some v.
Proof.
  intros Hl Hi Hv. unfold publish, NUM.
  assert (0 <= q_avail_idx q mod 8 < Z.of_nat (length (q_avail_ring q))) as Hr by (rewrite Hl; dlia).
  rewrite (zset_Some _ _ _ Hr). eexists. split; [reflexivity|]. split; [by rewrite length_insert|].
  replace ((u16 (q_avail_idx q + 1) - 1) mod 2 ^ 16) with (q_avail_idx q) by dlia.
  rewrite (znth_zset_eq (q_avail_ring q) _ (q_avail_idx q mod 8) (u16 v)) by (by apply zset_Some).
  by rewrite u16_small.
Qed.

Lemma next_flag f : (Z.land (Z.lor f VRING_DESC_F_NEXT) VRING_DESC_F_NEXT =? 0) = false.
Proof.
  apply Z.eqb_neq. intros H. apply (f_equal (fun z => Z.testbit z 0)) in H.
  rewrite Z.land_spec, Z.lor_spec in H. change (Z.testbit VRING_DESC_F_NEXT 0) with true in H.
  rewrite orb_true_r, Z.bits_0 in H. done.
Qed.

Lemma chain_frame_pair m q head h d :
  znth (q_desc q) head = Some h ->
  (Z.land (d_flags h) VRING_DESC_F_NEXT =? 0) = false ->
  znth (q_desc q) (d_next h) = Some d ->
  chain_frame m q head = Some (ldbytes m (d_addr d) (Z.to_nat (d_len d))).
Proof. intros H2 H3 H4. unfold chain_frame. by rewrite H2, H3, H4. Qed.

Lemma free_desc_run i s d l :
  i < NUM -> znth (q_free (vn_txq (k_net s))) i = Some 0 ->
  zset (q_desc (vn_txq (k_net s))) i (mkDesc 0 0 0 0) = Some d ->
  zset (q_free (vn_txq (k_net s))) i 1 = Some l ->
  free_desc i s = Ret tt (set_wakeups (k_wakeups s ++ [vn_txq_free (k_net s) + i])
    (set_net (set_txq (set_free (set_desc (vn_txq (k_net s)) d) l) (k_net s)) s)).
Proof. intros H1 H2 H3 H4. unfold free_desc. zb. by rewrite H2, H3, H4. Qed.

Lemma alloc_desc_head q l : q_free q = 1 :: l -> alloc_desc q = (0, set_free q (0 :: l)).
Proof. intros H. unfold alloc_desc. by rewrite H. Qed.
Lemma alloc_desc_next q l : q_free q = 0 :: 1 :: l -> alloc_desc q = (1, set_free q (0 :: 0 :: l)).
Proof. intros H. unfold alloc_desc. by rewrite H. Qed.

Ltac qred := unfold set_free, set_desc, set_avail, set_used_ring_idx; kred.

Lemma transmit_packet_ok s pkt_data len protocol r l v rest :
  net_ok s -> Pool.free (ph_pool (k_phys s)) = r :: l -> 0 <= len <= PGSIZE ->
  pkt_data + len <= r \/ r + PGSIZE <= pkt_data ->
  poll_used (vn_tx_polls (k_net s)) (q_used_ring_idx (vn_txq (k_net s))) = Some (v, rest) ->
  exists s', transmit_packet pkt_data len protocol s = Ret tt s' /\
    transmitted s s' r (ldbytes (ph_mem (k_phys s)) pkt_data (Z.to_nat len)).
Proof.
  intros [Hw Hp He Hb Hd Hr Hf Hi Ht Hlk] Hfree Hlen Hap Hpoll.
  destruct (pg_kalloc_spec (k_phys s) Hp) as [[E _]|(r' & ph & Hk & Hp' & Hmr & _ & Hlr & Hend & Hfr & Hm & Hrefs & Hlive)];
    [congruence|].
  rewrite Hfree in Hfr. injection Hfr as <- Hl.
  destruct (Hlive _ Hb) as [Hb' Hbr].
  assert (r <> 0) as Hr0 by (destruct Hmr; unfold KERNBASE in *; lia).
  assert (vn_packet_buf (k_net s) <> 0) as Hb0 by (destruct Hb as [[] _]; unfold KERNBASE in *; lia).
  destruct s as [ph0 nc arp so [mac [ds ai ring ui ur nm fr uidx] rx buf fa sent polls told rtold] held wk ev pgt stk].
  cbn [k_phys k_net vn_txq vn_packet_buf q_desc q_avail_ring q_free q_avail_idx k_held vn_tx_polls vn_tx_told q_used_ring_idx] in *. subst told.
  destruct (list_of_8 ds Hd) as (d0 & d1 & d2 & d3 & d4 & d5 & d6 & d7 & ->). subst fr.
  unfold transmit_packet.
  erewrite bind_Ret by (apply acquire_ok; exact Hlk). kred.
  erewrite bind_Ret by (unfold k_kalloc; apply lift_Ret; exact Hk). zb. kred.
  erewrite bind_Ret by apply k_setmem_Ret. qred. rewrite bind_gets. qred.
  erewrite alloc_desc_head by reflexivity. qred. erewrite alloc_desc_next by reflexivity. qred.
  change ((0 =? -1) || (1 =? -1)) with false. cbn iota.
  unfold bind at 1, modify at 1. qred.
  erewrite bind_Ret by apply k_setmem_Ret. qred.
  rewrite bind_gets. qred. unfold bind at 1, nonnull. zb. unfold ret at 1.
  erewrite bind_Ret by apply k_setmem_Ret. qred.
  erewrite bind_Ret by reflexivity. qred. erewrite bind_Ret by reflexivity. qred.
  rewrite bind_gets. qred.
  match goal with |- context [publish ?q 0] => destruct (publish_spec q 0) as (ring' & -> & Hrl & Hch) end;
    [done|done|lia|].
  cbn in Hch. unfold bind at 1, modify at 1. qred.
  change (Z.to_nat 0) with 0%nat. change (Z.to_nat 1) with 1%nat. change (u16 1) with 1. cbn [insert list_insert].
  unfold bind at 1, notify_tx. qred. rewrite Hch. qred.
  erewrite bind_Ret by (eapply release_ok; [reflexivity|exact Hlk]). qred.
  unfold bind at 1, wait_used. qred. rewrite Hpoll. cbn [app].
  match goal with |- context [chain_frame ?m ?q 0] =>
    assert (chain_frame m q 0 = Some (ldbytes m buf (Z.to_nat len))) as -> end.
  { etransitivity; [eapply chain_frame_pair; [reflexivity|apply next_flag|reflexivity]|reflexivity]. }
  qred.
  erewrite bind_Ret by (apply free_desc_run; reflexivity). qred.
  erewrite free_desc_run by reflexivity. qred.
  change (Z.to_nat 0) with 0%nat. change (Z.to_nat 1) with 1%nat. cbn [insert list_insert].
  eexists. split; [reflexivity|].
  set (m1 := st16 _ _ _). assert (wf_mem m1) as Hw1.
  { unfold m1. rewrite Hm. wfm. }
  assert (forall x, x < r \/ r + PGSIZE <= x -> m1 x = ph_mem ph0 x) as Ho.
  { intros x Hx. unfold m1. rewrite Hm. unfold PGSIZE in *. mem_simpl. by rewrite !memset_out by lia. }
  split; kred; try reflexivity.
  - split; kred.
    + apply memmove_wf; [exact Hw1|lia].
    + exact Hp'.
    + by rewrite Hend.
    + exact Hb'.
    + reflexivity.
    + exact Hrl.
    + reflexivity.
    + apply u16_range.
    + reflexivity.
    + exact Hlk.
  - do 2 f_equal. rewrite ldbytes_memmove by (auto; lia). apply ldbytes_ext. intros i Hi2. apply Ho. lia.
  - by rewrite Hfree, Hl.
  - exact Hrefs.
  - exact Hend.
  - intros x Hx1 Hx2. rewrite memmove_out; [by apply Ho|exact Hw1|lia|lia].
  - exact Hpoll.
Qed.

(** Without a free page the driver panics. *)
Lemma transmit_packet_no_page s pkt_data len protocol :
  Pool.free (ph_pool (k_phys s)) = [] -> vnet_lock ∉ k_held s ->
  transmit_packet pkt_data len protocol s
  = Panic "failed to allocate header" (set_held (vnet_lock :: k_held s) s).
Proof.
  intros Hf Hlk. unfold transmit_packet. erewrite bind_Ret by (apply acquire_ok; exact Hlk).
  erewrite bind_Ret by (apply k_kalloc_nil; exact Hf). done.
Qed.

(** ** Sequences of packets *)

Fixpoint transmit_all (pkts : list (Z * Z)) : M kst unit :=
  match pkts with
  | [] => ret tt
  | (data, len) :: pkts => transmit_packet data len PROTO_IPV4 ;;; transmit_all pkts
  end.

(** The device shows a new used index after each of [n] notifications. *)
Fixpoint polls_answer (n : nat) (polls : list Z) (prev : Z) : Prop :=
  match n with
  | O => True
  | S n => exists v rest, poll_used polls prev = Some (v, rest) /\ polls_answer n rest v
  end.

(** A buffer outside packet_buf and the free pages keeps its bytes. *)
Definition outside (s : kst) (data len : Z) : Prop :=
  0 <= len <= PGSIZE /\
  (data + len <= vn_packet_buf (k_net s) \/ vn_packet_buf (k_net s) + PGSIZE <= data) /\
  Forall (fun p => data + len <= p \/ p + PGSIZE <= data) (Pool.free (ph_pool (k_phys s))).

Definition frame_at (s : kst) (pkt : Z * Z) : list Z :=
  ldbytes (ph_mem (k_phys s)) (fst pkt) (Z.to_nat (snd pkt)).

(** ** Sending from a page of one's own

    The callers of transmit_packet allocate a page, build the frame there,
    send it and free the page. *)

Lemma net_ok_alloc s f l :
  net_ok s -> Pool.free (ph_pool (k_phys s)) = f :: l ->
  exists s1, k_kalloc s = Ret f s1 /\ net_ok s1 /\ live (k_phys s1) f /\ f <> 0 /\
    Pool.free (ph_pool (k_phys s1)) = l /\ Pool.refs (ph_pool (k_phys s1)) f = 1 /\
    ph_end (k_phys s1) = ph_end (k_phys s) /\
    (forall x, x < f \/ f + PGSIZE <= x -> ph_mem (k_phys s1) x = ph_mem (k_phys s) x) /\
    (f + PGSIZE <= vn_packet_buf (k_net s) \/ vn_packet_buf (k_net s) + PGSIZE <= f) /\
    (forall p, live (k_phys s) p ->
       live (k_phys s1) p /\ (p + PGSIZE <= f \/ f + PGSIZE <= p) /\
       Pool.refs (ph_pool (k_phys s1)) p = Pool.refs (ph_pool (k_phys s)) p) /\
    s1 = set_phys (k_phys s1) s.
Proof.
  intros Hok Hf. pose proof (nk_pool _ Hok) as Hp.
  destruct (pg_kalloc_spec (k_phys s) Hp) as [[E _]|(f' & ph & Hk & Hp' & Hm & _ & Hl & He & Hfr & Hmem & Hrefs & Hlive)];
    [congruence|].
  rewrite Hf in Hfr. injection Hfr as <- Hl'. exists (set_phys ph s).
  destruct (Hlive _ (nk_buf _ Hok)) as [Hb1 Hb2]. split_and!.
  - unfold k_kalloc. by rewrite (lift_Ret _ _ _ _ Hk).
  - destruct Hok. split; kred; try assumption; [|by rewrite He]. rewrite Hmem. wfm.
  - exact Hl.
  - destruct Hm as [_ Hm]. pose proof (nk_end _ Hok). unfold KERNBASE in *. lia.
  - by rewrite Hl'.
  - kred. rewrite Hrefs. apply set_ref_eq.
  - exact He.
  - intros x Hx. kred. rewrite Hmem. by apply memset_out.
  - lia.
  - intros p Hlp. destruct (Hlive p Hlp) as [H1 H2]. split_and!; [exact H1|exact H2|].
    kred. rewrite Hrefs. apply set_ref_ne. destruct Hm as [? _]. unfold PGSIZE in *. lia.
  - by destruct s.
Qed.

Lemma net_ok_setmem s g :
  net_ok s -> (forall m, wf_mem m -> wf_mem (g m)) ->
  net_ok (set_phys (mkPhys (g (ph_mem (k_phys s))) (ph_pool (k_phys s)) (ph_end (k_phys s))) s).
Proof. intros [] Hg. split; kred; try assumption. by apply Hg. Qed.

(** What sending from page [f] does to the state. *)
Record sent_frame (s s' : kst) (f r : Z) (frame : list Z) : Prop := {
  sf_ok : net_ok s';
  sf_sent : vn_sent (k_net s') = vn_sent (k_net s) ++ [frame];
  sf_pages : exists l, Pool.free (ph_pool (k_phys s)) = r :: l /\ Pool.free (ph_pool (k_phys s')) = f :: l;
  sf_refs : forall p, p <> f -> p <> r ->
    Pool.refs (ph_pool (k_phys s')) p = Pool.refs (ph_pool (k_phys s)) p;
  sf_end : ph_end (k_phys s') = ph_end (k_phys s);
  sf_mem : forall x, x < f \/ f + PGSIZE <= x -> x < r \/ r + PGSIZE <= x ->
    x < vn_packet_buf (k_net s) \/ vn_packet_buf (k_net s) + PGSIZE <= x ->
    ph_mem (k_phys s') x = ph_mem (k_phys s) x;
  sf_used : poll_used (vn_tx_polls (k_net s)) (q_used_ring_idx (vn_txq (k_net s)))
            = Some (q_used_ring_idx (vn_txq (k_net s')), vn_tx_polls (k_net s'));
  sf_buf : vn_packet_buf (k_net s') = vn_packet_buf (k_net s);
  sf_rxq : vn_rxq (k_net s') = vn_rxq (k_net s);
  sf_held : k_held s' = k_held s;
  sf_netconf : k_netconf s' = k_netconf s;
  sf_arp : k_arp s' = k_arp s;
  sf_events : k_arp_events s' = k_arp_events s;
  sf_sockets : k_sockets s' = k_sockets s;
  sf_pagetable : k_pagetable s' = k_pagetable s;
  sf_stack : k_stack s' = k_stack s
}.

Lemma send_and_free s f r l len protocol v rest :
  net_ok s -> live (k_phys s) f -> Pool.refs (ph_pool (k_phys s)) f = 1 ->
  f + PGSIZE <= vn_packet_buf (k_net s) \/ vn_packet_buf (k_net s) + PGSIZE <= f ->
  Pool.free (ph_pool (k_phys s)) = r :: l -> 0 <= len <= PGSIZE ->
  poll_used (vn_tx_polls (k_net s)) (q_used_ring_idx (vn_txq (k_net s))) = Some (v, rest) ->
  exists s', (transmit_packet f len protocol ;;; k_kfree f) s = Ret tt s' /\
    sent_frame s s' f r (ldbytes (ph_mem (k_phys s)) f (Z.to_nat len)).
Proof.
  intros Hok Hlf Hrf Hbf Hfree Hlen Hpoll.
  destruct (pg_kalloc_spec (k_phys s) (nk_pool _ Hok)) as [[E _]|(r' & ph & _ & _ & _ & _ & _ & _ & Hfr & _ & _ & Hlive)];
    [congruence|].
  rewrite Hfree in Hfr. injection Hfr as <- Hl. destruct (Hlive f Hlf) as [Hlf' Hfr].
  destruct (transmit_packet_ok s f len protocol r l v rest) as (s1 & Hs1 & T); try done; [lia|].
  rewrite (bind_Ret _ _ _ _ _ Hs1).
  pose proof (tx_page _ _ _ _ T) as Hp1. rewrite Hfree in Hp1. injection Hp1 as Hp1.
  assert (f <> r) as Hne by (unfold PGSIZE in *; lia).
  destruct (pg_kfree_spec (k_phys s1) f) as (ph2 & Hk & Hp2 & He2 & Hf2 & Hr2 & Hw2 & Ho2).
  - apply (nk_pool _ (tx_ok _ _ _ _ T)).
  - destruct Hlf as [Hm Hn]. split; [by rewrite (tx_end _ _ _ _ T)|]. rewrite <- Hp1.
    rewrite Hfree in Hn. apply not_elem_of_cons in Hn as [_ Hn]. exact Hn.
  - rewrite (tx_refs _ _ _ _ T), set_ref_ne, Hrf by done. lia.
  - exists (set_phys ph2 s1). split; [unfold k_kfree; by rewrite (lift_Ret _ _ _ _ Hk)|].
    destruct T as [Tok Ts Tp Tr Te Tm Tb Trx Tu Th Tn Ta Tev Tso Tpt Tst]. split; kred; try assumption.
    + destruct Tok as [Ow Op Oe [Obm Obf] Od Or Of Oi Ol]. split; kred; try assumption.
      * by apply Hw2.
      * by rewrite He2.
      * split; [by rewrite He2|]. rewrite Hf2. apply not_elem_of_cons. split; [|exact Obf].
        rewrite Tb. unfold PGSIZE in *. lia.
    + exists l. split; [exact Hfree|]. by rewrite Hf2, <- Hp1.
    + intros p H1 H2. rewrite Hr2, set_ref_ne, Tr, set_ref_ne by done. done.
    + by rewrite He2.
    + intros x H1 H2 H3. rewrite Ho2 by done. by apply Tm.
Qed.

Lemma setmem_setmem {A} (g h : mem -> mem) (k : M kst A) s :
  (k_setmem g ;;; k_setmem h ;;; k) s = (k_setmem (fun m => h (g m)) ;;; k) s.
Proof. reflexivity. Qed.

(** Building a frame in page [f] first. *)
Lemma send_built s f r l len protocol v rest (g : mem -> mem) :
  net_ok s -> live (k_phys s) f -> Pool.refs (ph_pool (k_phys s)) f = 1 ->
  f + PGSIZE <= vn_packet_buf (k_net s) \/ vn_packet_buf (k_net s) + PGSIZE <= f ->
  Pool.free (ph_pool (k_phys s)) = r :: l -> 0 <= len <= PGSIZE ->
  poll_used (vn_tx_polls (k_net s)) (q_used_ring_idx (vn_txq (k_net s))) = Some (v, rest) ->
  (forall m, wf_mem m -> wf_mem (g m)) ->
  (forall x, x < f \/ f + PGSIZE <= x -> g (ph_mem (k_phys s)) x = ph_mem (k_phys s) x) ->
  exists s', (k_setmem g ;;; transmit_packet f len protocol ;;; k_kfree f) s = Ret tt s' /\
    sent_frame s s' f r (ldbytes (g (ph_mem (k_phys s))) f (Z.to_nat len)).
Proof.
  intros Hok Hlf Hrf Hbf Hfree Hlen Hpoll Hg Ho.
  erewrite bind_Ret by apply k_setmem_Ret.
  pose proof (net_ok_setmem s g Hok Hg) as Hok1. set (s1 := set_phys _ s) in *.
  destruct (send_and_free s1 f r l len protocol v rest) as (s' & Hs' & S); try assumption.
  exists s'. split; [exact Hs'|].
  destruct S as [Sok Ss Sp Sr Se Sm Su Sb Srx Sh Sn Sa Sev Sso Spt Sst]. split; try assumption.
  intros x H1 H2 H3. rewrite Sm by assumption. by apply Ho.
Qed.

Lemma outside_after s s' r frame data len :
  transmitted s s' r frame -> outside s data len -> outside s' data len.
Proof.
  intros T (Hl & Hb & Hf). rewrite (tx_page _ _ _ _ T) in Hf. apply Forall_cons in Hf as [_ Hf].
  split_and!; try lia; [|exact Hf]. by rewrite (tx_buf _ _ _ _ T).
Qed.

Lemma frame_after s s' r frame pkt :
  transmitted s s' r frame -> outside s (fst pkt) (snd pkt) -> frame_at s' pkt = frame_at s pkt.
Proof.
  intros T (Hl & Hb & Hf). rewrite (tx_page _ _ _ _ T) in Hf. apply Forall_cons in Hf as [Hr _].
  unfold frame_at. apply ldbytes_ext. intros i Hi. apply (tx_mem _ _ _ _ T); lia.
Qed.

Lemma transmit_all_ok pkts s :
  net_ok s -> (length pkts <= length (Pool.free (ph_pool (k_phys s))))%nat ->
  Forall (fun p => outside s (fst p) (snd p)) pkts ->
  polls_answer (length pkts) (vn_tx_polls (k_net s)) (q_used_ring_idx (vn_txq (k_net s))) ->
  exists s', transmit_all pkts s = Ret tt s' /\ net_ok s' /\
    vn_sent (k_net s') = vn_sent (k_net s) ++ map (frame_at s) pkts /\
    Pool.free (ph_pool (k_phys s')) = drop (length pkts) (Pool.free (ph_pool (k_phys s))) /\
    k_held s' = k_held s.
Proof.
  revert s. induction pkts as [|[data len] pkts IH]; intros s Hok Hl Hout Hpa.
  { exists s. cbn. by rewrite app_nil_r. }
  apply Forall_cons in Hout as [Ho Hout]. cbn [fst snd] in Ho. destruct Hpa as (v & rest & Hpoll & Hpa).
  destruct (Pool.free (ph_pool (k_phys s))) as [|r l] eqn:Hf; [cbn in Hl; lia|].
  pose proof Ho as (Hlen & _ & Hfr). rewrite Hf in Hfr. apply Forall_cons in Hfr as [Hr _].
  destruct (transmit_packet_ok s data len PROTO_IPV4 r l v rest Hok Hf Hlen Hr Hpoll) as (s1 & Hs1 & T).
  pose proof (tx_page _ _ _ _ T) as Hp1. rewrite Hf in Hp1. injection Hp1 as Hp1.
  pose proof (tx_used _ _ _ _ T) as Hu. rewrite Hpoll in Hu. injection Hu as Hu1 Hu2.
  destruct (IH s1) as (s' & HR & Hok' & Hs' & Hf' & Hh').
  - exact (tx_ok _ _ _ _ T).
  - rewrite <- Hp1. cbn in Hl. lia.
  - eapply Forall_impl; [exact Hout|]. intros p Hp. by eapply outside_after.
  - by rewrite <- Hu1, <- Hu2.
  - exists s'. cbn [transmit_all]. rewrite (bind_Ret _ _ _ _ _ Hs1). split_and!; try done.
    + rewrite Hs', (tx_sent _ _ _ _ T), <- app_assoc. cbn [map app]. do 2 f_equal.
      apply map_ext_Forall. eapply Forall_impl; [exact Hout|]. intros p Hp. by eapply frame_after.
    + rewrite Hf', <- Hp1. done.
    + by rewrite Hh', (tx_held _ _ _ _ T).
Qed.

(** ** Properties *)


(** Each call keeps the page of its virtio_net_hdr: after as many packets
    as there were free pages the pool is empty and the next transmission
    panics the kernel. *)
Lemma transmit_exhausts_pages pkts s data len :
  net_ok s -> length pkts = length (Pool.free (ph_pool (k_phys s))) ->
  Forall (fun p => outside s (fst p) (snd p)) pkts ->
  polls_answer (length pkts) (vn_tx_polls (k_net s)) (q_used_ring_idx (vn_txq (k_net s))) ->
  exists s', (transmit_all pkts ;;; transmit_packet data len PROTO_IPV4) s
             = Panic "failed to allocate header" s'.
Proof.
  intros Hok Hl Hout Hp.
  destruct (transmit_all_ok pkts s Hok ltac:(lia) Hout Hp) as (s' & H1 & H2 & _ & H3 & H4).
  rewrite (bind_Ret _ _ _ _ _ H1), transmit_packet_no_page; [by eexists| |apply (nk_lock _ H2)].
  rewrite H3, Hl. apply drop_all.
Qed.

(** alloc_desc hands out the lowest descriptor whose flag is set and clears
    it, keeping the others; it answers -1 exactly when every flag is clear. *)
Lemma alloc_desc_lowest_free q :
  match alloc_desc q with
  | (i, q') =>
      (i = -1 <-> Forall (fun f => f = 0) (q_free q)) /\
      (i <> -1 -> 0 <= i /\ (exists f, znth (q_free q) i = Some f /\ f <> 0) /\
         (forall k, 0 <= k < i -> znth (q_free q) k = Some 0) /\
         q' = set_free q (<[Z.to_nat i := 0]> (q_free q)))
  end.
Proof.
  unfold alloc_desc. destruct (take_free (q_free q) 0) as [[i l]|] eqn:E.
  - pose proof (take_free_spec _ _ _ _ E) as (H1 & H2 & -> & H4). rewrite Z.sub_0_r in *. split.
    + rewrite <- (take_free_None _ 0), E. split; [lia|done].
    + intros _. done.
  - split; [|done]. by rewrite <- (take_free_None _ 0).
Qed.

(** A driver with two free pages, packet_buf at 0x87ffd000 and a device that
    answers the second poll. *)
Definition idle_txq : virtq :=
  mkVirtq (replicate 8 (mkDesc 0 0 0 0)) 0 (replicate 8 0) 0 (replicate 8 (0, 0)) QUEUE_TX
          [1; 1; 1; 1; 1; 1; 1; 1] 0.
Definition idle_sockets : sockets :=
  mkSockets (replicate 512 0) (replicate 512 0) ∅ ∅ None None None.
Definition demo_mac : list Z := [0x52; 0x54; 0; 0x12; 0x34; 0x56].
Definition idle_kernel : kst :=
  mkKst (mkPhys (fun a => a mod 256) (Pool.mkPool [0x87fff000; 0x87ffe000] (fun _ => 0)) 0x87ff0000)
        (mkNetState 0x0a0a000a demo_mac 0 0) (replicate 16 (mkArpEntry 0 (replicate 6 0) 0))
        idle_sockets
        (mkVnet demo_mac idle_txq idle_txq 0x87ffd000 0x80010000 [] [0; 1; 1; 2] [] 0)
        [] [] [] 0x87ff1000 0x87ff2000.

Lemma idle_kernel_ok : net_ok idle_kernel.
Proof.
  split; try reflexivity.
  - intros a. apply Z.mod_pos_bound. lia.
  - split; cbn; [repeat constructor; set_solver|].
    repeat constructor; unfold managed, PHYSTOP, KERNBASE; cbn; lia.
  - unfold KERNBASE. cbn. lia.
  - split; cbn; [split; [reflexivity|unfold PHYSTOP, KERNBASE; lia] | set_solver].
  - cbn. lia.
  - cbn. set_solver.
Qed.

Lemma idle_outside : outside idle_kernel 0x87ff4000 60.
Proof. split_and!; unfold PGSIZE; cbn; try lia. repeat constructor; lia. Qed.


