(* ===== verification/Arp.v ===== *)
(** * kernel/sys/arp.h and kernel/sys/arp.c

    The ARP cache is the array arp_cache of sixteen entries; arp_lookup and
    arp_insert are the C loops over it.  [arp_map] is what the cache promises:
    a finite map from addresses to MACs with room for sixteen.  arp_request and
    arp_recv build their frames in memory and send them through
    transmit_packet. *)
From S2P Require Import Prelude Mem StringC Net Kalloc Page Vm KState Eth VirtioNet.
From Stdlib Require Import ZArith Lia.
From stdpp Require Import strings.
Local Open Scope list_scope.
Local Open Scope Z_scope.
Local Open Scope kernel_scope.

Definition ARP_HTYPE_ETH : Z := 1.
Definition ARP_HLEN : Z := 6.
Definition ARP_PLEN : Z := 4.
Definition ARP_CACHE_SIZE : nat := 16.
Definition ARP_OP_REQUEST : Z := 1.
Definition ARP_OP_REPLY : Z := 2.

(** Layout of struct arp_pkt. *)
Definition ARP_PKT_SIZE : Z := 28.
Definition ARP_PACKET_SIZE : Z := ARP_PKT_SIZE + ETH_HDR_SIZE.
Definition arp_htype : Z := 0.
Definition arp_ptype : Z := 2.
Definition arp_hlen : Z := 4.
Definition arp_plen : Z := 5.
Definition arp_oper : Z := 6.
Definition arp_sha : Z := 8.
Definition arp_spa : Z := 14.
Definition arp_tha : Z := 18.
Definition arp_tpa : Z := 24.

Ltac arp_offsets :=
  unfold ARP_PACKET_SIZE, ARP_PKT_SIZE, ETH_HDR_SIZE, arp_htype, arp_ptype, arp_hlen, arp_plen,
    arp_oper, arp_sha, arp_spa, arp_tha, arp_tpa in *.

(** ** The cache *)

(** [Some mac] is return value 1 with the MAC copied out, [None] is -1. *)
Fixpoint arp_lookup (cache : list arp_entry) (ip : Z) : option (list Z) :=
  match cache with
  | [] => None
  | ae :: cache =>
      if (ae_valid ae =? 1) && (ae_ip ae =? ip) then Some (ae_mac ae) else arp_lookup cache ip
  end.

Fixpoint arp_insert (cache : list arp_entry) (ip : Z) (mac : list Z) : list arp_entry :=
  match cache with
  | [] => []
  | ae :: cache =>
      if ae_ip ae =? ip then mkArpEntry (ae_ip ae) mac 1 :: cache
      else if negb (ae_valid ae =? 1) then mkArpEntry ip mac 1 :: cache
      else ae :: arp_insert cache ip mac
  end.

(** net_init(): the device's MAC becomes the host's, and its own entry. *)
Definition net_init : M kst Z :=
  modify (fun s =>
    let nc := k_netconf s in
    set_netconf (mkNetState (nc_ip_addr nc) (take 6 (vn_mac (k_net s))) (nc_subnet_mask nc) (nc_gateway nc)) s) ;;;
  modify (fun s => set_arp (arp_insert (k_arp s) (nc_ip_addr (k_netconf s)) (nc_mac_addr (k_netconf s))) s) ;;;
  ret 0.

(** ** Packets *)

(** The nine assignments both arp_request and arp_recv make. *)
Definition fill_arp (m : mem) (arp oper spa tpa : Z) (sha tha : list Z) : mem :=
  let m := st16 m (arp + arp_htype) (htons ARP_HTYPE_ETH) in
  let m := st16 m (arp + arp_ptype) (htons PROTO_IPV4) in
  let m := st8 m (arp + arp_hlen) ARP_HLEN in
  let m := st8 m (arp + arp_plen) ARP_PLEN in
  let m := st16 m (arp + arp_oper) (htons oper) in
  let m := st32 m (arp + arp_spa) spa in
  let m := st32 m (arp + arp_tpa) tpa in
  let m := stbytes m (arp + arp_sha) sha in
  stbytes m (arp + arp_tha) tha.

Definition broadcast_mac : list Z := [0xFF; 0xFF; 0xFF; 0xFF; 0xFF; 0xFF].

Definition arp_request (target_ip : Z) : M kst unit :=
  frame <- k_kalloc ;;
  if frame =? 0 then ret tt
  else
    nc <- gets k_netconf ;;
    k_setmem (fun m => build_eth m frame broadcast_mac (nc_mac_addr nc) PROTO_ARP) ;;;
    k_setmem (fun m => fill_arp m (frame + eth_payload) ARP_OP_REQUEST (nc_ip_addr nc) target_ip
                         (nc_mac_addr nc) broadcast_mac) ;;;
    transmit_packet frame ARP_PACKET_SIZE PROTO_ARP ;;;
    k_kfree frame.

Definition arp_recv (pkt : Z) : M kst unit :=
  oper <- k_getmem (fun m => ntohs (ld16 m (pkt + arp_oper))) ;;
  if oper =? ARP_OP_REQUEST then
    frame <- k_kalloc ;;
    if frame =? 0 then ret tt
    else
      spa <- k_getmem (fun m => ld32 m (pkt + arp_spa)) ;;
      sha <- k_getmem (fun m => ldbytes m (pkt + arp_sha) 6) ;;
      modify (fun s => set_arp (arp_insert (k_arp s) spa sha) s) ;;;
      tpa <- k_getmem (fun m => ld32 m (pkt + arp_tpa)) ;;
      nc <- gets k_netconf ;;
      if (tpa =? nc_ip_addr nc) || (tpa =? 0xFFFFFFFF) then
        k_setmem (fun m => build_eth m frame (ldbytes m (pkt + arp_sha) 6) (nc_mac_addr nc) PROTO_ARP) ;;;
        k_setmem (fun m => fill_arp m (frame + eth_payload) ARP_OP_REPLY (nc_ip_addr nc)
                             (ld32 m (pkt + arp_spa)) (nc_mac_addr nc) (ldbytes m (pkt + arp_sha) 6)) ;;;
        transmit_packet frame ARP_PACKET_SIZE PROTO_ARP ;;;
        k_kfree frame
      else ret tt
  else if oper =? ARP_OP_REPLY then
    spa <- k_getmem (fun m => ld32 m (pkt + arp_spa)) ;;
    sha <- k_getmem (fun m => ldbytes m (pkt + arp_sha) 6) ;;
    modify (fun s => set_arp (arp_insert (k_arp s) spa sha) s)
  else ret tt.

(** ** The cache as a bounded map *)

(** The valid entries, the first one winning. *)
Fixpoint arp_map (cache : list arp_entry) : gmap Z (list Z) :=
  match cache with
  | [] => ∅
  | ae :: cache =>
      if ae_valid ae =? 1 then <[ae_ip ae := ae_mac ae]> (arp_map cache) else arp_map cache
  end.

(** What insertion promises: an update when the address is known or there is
    room, nothing otherwise. *)
Definition bounded_insert (cap : nat) (c : gmap Z (list Z)) (ip : Z) (mac : list Z) : gmap Z (list Z) :=
  if decide (is_Some (c !! ip)) then <[ip := mac]> c
  else if decide (size c < cap)%nat then <[ip := mac]> c
  else c.

(** Valid entries have distinct addresses and come before the others, whose
    address no insertion has set. *)
Inductive cache_ok : list arp_entry -> Prop :=
  | cache_empty n : cache_ok (replicate n (mkArpEntry 0 [0; 0; 0; 0; 0; 0] 0))
  | cache_entry ip mac cache :
      cache_ok cache -> arp_map cache !! ip = None -> length mac = 6%nat ->
      cache_ok (mkArpEntry ip mac 1 :: cache).

Lemma arp_map_empty n : arp_map (replicate n (mkArpEntry 0 [0; 0; 0; 0; 0; 0] 0)) = ∅.
Proof. induction n; [done|]. cbn. done. Qed.

Lemma arp_lookup_map cache ip : arp_lookup cache ip = arp_map cache !! ip.
Proof.
  induction cache as [|ae cache IH]; cbn [arp_lookup arp_map]; [done|].
  destruct (Z.eqb_spec (ae_valid ae) 1); cbn [andb]; [|done].
  destruct (Z.eqb_spec (ae_ip ae) ip) as [->|Hne].
  - by rewrite lookup_insert_eq.
  - by rewrite lookup_insert_ne.
Qed.

Lemma arp_insert_length cache ip mac : length (arp_insert cache ip mac) = length cache.
Proof. induction cache as [|ae cache IH]; cbn; [done|]. repeat case_match; cbn; congruence. Qed.

Lemma map_size_le cache : cache_ok cache -> (size (arp_map cache) <= length cache)%nat.
Proof.
  induction 1 as [n|ip mac cache H IH Hn Hm].
  - rewrite arp_map_empty, map_size_empty. lia.
  - cbn. rewrite map_size_insert_None by done. lia.
Qed.

(** One insertion implements [bounded_insert] and keeps the invariant. *)
Lemma arp_insert_ok cache ip mac :
  cache_ok cache -> length mac = 6%nat ->
  cache_ok (arp_insert cache ip mac) /\
  arp_map (arp_insert cache ip mac) = bounded_insert (length cache) (arp_map cache) ip mac.
Proof.
  intros H Hm. induction H as [n|ip' mac' cache H IH Hn Hm'].
  - rewrite arp_map_empty. destruct n as [|n]; cbn [replicate arp_insert ae_ip ae_valid].
    + split; [apply (cache_empty 0)|]. unfold bounded_insert. rewrite !decide_False; [done|cbn; lia|].
      rewrite lookup_empty. by intros [].
    + assert (cache_ok (mkArpEntry ip mac 1 :: replicate n (mkArpEntry 0 [0; 0; 0; 0; 0; 0] 0))) as Hc.
      { constructor; [constructor|by rewrite arp_map_empty|done]. }
      assert (forall cap, (0 < cap)%nat -> bounded_insert cap ∅ ip mac = {[ip := mac]}) as Hb.
      { intros cap Hcap. unfold bounded_insert. rewrite decide_False by (rewrite lookup_empty; by intros []).
        by rewrite decide_True by (rewrite map_size_empty; lia). }
      rewrite Hb by (cbn; lia).
      destruct (Z.eqb_spec 0 ip) as [<-|]; cbn [negb Z.eqb]; (split; [exact Hc|]);
        cbn; by rewrite arp_map_empty.
  - cbn [arp_insert ae_ip ae_valid]. destruct (Z.eqb_spec ip' ip) as [->|Hne].
    + split; [by constructor|]. cbn. unfold bounded_insert. rewrite lookup_insert_eq, decide_True by done.
      by rewrite insert_insert_eq.
    + change (1 =? 1) with true. cbn [negb]. destruct IH as [IH1 IH2]. cbn [length arp_map ae_valid ae_ip ae_mac].
      change (1 =? 1) with true. cbn iota. rewrite IH2. unfold bounded_insert.
      rewrite lookup_insert_ne by done. rewrite map_size_insert_None by done.
      assert (arp_map (arp_insert cache ip mac) !! ip' = None) as Hn'.
      { rewrite IH2. unfold bounded_insert. repeat case_decide; by rewrite ?lookup_insert_ne. }
      split; [by constructor|].
      destruct (decide (is_Some (arp_map cache !! ip))); [by rewrite insert_insert_ne by done|].
      destruct (decide (size (arp_map cache) < length cache)%nat),
        (decide (S (size (arp_map cache)) < S (length cache))%nat); try lia; [|done].
      by rewrite insert_insert_ne by done.
Qed.

(** ** Properties *)

(** A history of insertions. *)
Definition insert_all (cache : list arp_entry) (l : list (Z * list Z)) : list arp_entry :=
  fold_left (fun c p => arp_insert c (fst p) (snd p)) l cache.
Definition bounded_insert_all (cap : nat) (l : list (Z * list Z)) : gmap Z (list Z) :=
  fold_left (fun c p => bounded_insert cap c (fst p) (snd p)) l ∅.

(** C28: after any sequence of insertions into the zeroed cache, arp_lookup
    answers exactly what a map bounded to sixteen addresses holds: the last MAC
    inserted for an address that found room, nothing for the others. *)
Theorem arp_cache_refines_map l ip :
  Forall (fun p => length (snd p) = 6%nat) l ->
  arp_lookup (insert_all (replicate ARP_CACHE_SIZE (mkArpEntry 0 [0; 0; 0; 0; 0; 0] 0)) l) ip
  = bounded_insert_all ARP_CACHE_SIZE l !! ip.
Proof.
  intros Hl. rewrite arp_lookup_map. f_equal.
  enough (forall c m, cache_ok c -> length c = ARP_CACHE_SIZE -> arp_map c = m ->
    arp_map (insert_all c l) = fold_left (fun c p => bounded_insert ARP_CACHE_SIZE c (fst p) (snd p)) l m) as H.
  { apply H; [constructor|done|apply arp_map_empty]. }
  induction Hl as [|[i mac] l Hm Hl IH]; intros c m Hc Hlen <-; [done|].
  destruct (arp_insert_ok c i mac Hc Hm) as [H1 H2]. apply IH; [done| |].
  - by rewrite arp_insert_length.
  - etransitivity; [exact H2|]. by rewrite Hlen.
Qed.

Lemma arp_cache_refines_map_witness :
  arp_lookup (insert_all (replicate ARP_CACHE_SIZE (mkArpEntry 0 [0; 0; 0; 0; 0; 0] 0))
    [(1, [1;1;1;1;1;1]); (2, [2;2;2;2;2;2]); (1, [3;3;3;3;3;3])]) 1 = Some [3;3;3;3;3;3].
Proof.
  rewrite (arp_cache_refines_map [(1, [1;1;1;1;1;1]); (2, [2;2;2;2;2;2]); (1, [3;3;3;3;3;3])] 1).
  - vm_compute. reflexivity.
  - do 3 (apply Forall_cons_2; [reflexivity|]). apply Forall_nil_2.
Defined.

(** ** Frames *)

Definition arp_bytes (oper spa tpa : Z) (sha tha : list Z) : list Z :=
  be16 ARP_HTYPE_ETH ++ be16 PROTO_IPV4 ++ [ARP_HLEN; ARP_PLEN] ++ be16 oper
  ++ sha ++ le32 spa ++ tha ++ le32 tpa.

(** The frame of an ARP packet on Ethernet. *)
Definition arp_frame (dst src : list Z) (oper spa tpa : Z) (sha tha : list Z) : list Z :=
  dst ++ src ++ be16 PROTO_ARP ++ arp_bytes oper spa tpa sha tha.

Lemma fill_arp_wf m arp oper spa tpa sha tha :
  wf_mem m -> wf_mem (fill_arp m arp oper spa tpa sha tha).
Proof. intros. unfold fill_arp. wfm. Qed.

Lemma fill_arp_out m arp oper spa tpa sha tha x :
  length sha = 6%nat -> length tha = 6%nat -> x < arp \/ arp + 28 <= x ->
  fill_arp m arp oper spa tpa sha tha x = m x.
Proof.
  intros Hs Ht Hx. unfold fill_arp. arp_offsets.
  rewrite !stbytes_out by lia. mem_simpl. done.
Qed.

Lemma fill_arp_bytes m arp oper spa tpa sha tha :
  length sha = 6%nat -> length tha = 6%nat -> bytes sha -> bytes tha -> 0 <= oper < 2 ^ 16 ->
  holds (fill_arp m arp oper spa tpa sha tha) arp (arp_bytes oper spa tpa sha tha).
Proof.
  intros Hs Ht Hbs Hbt Ho. unfold arp_bytes. rewrite !holds_app, Hs, Ht.
  cbn [length be16 le32]. unfold fill_arp. arp_offsets. rewrite Z.add_0_r.
  split_and!; repeat match goal with |- context [arp + ?x + ?y] =>
      let z := eval vm_compute in (x + y)%Z in replace (arp + x + y) with (arp + z) by lia end.
  - repeat hskip. apply holds_htons. unfold ARP_HTYPE_ETH. lia.
  - repeat hskip. apply holds_htons. unfold PROTO_IPV4. lia.
  - rewrite !holds_cons, !stbytes_out by lia. mem_simpl.
    replace (arp + 4 + 1) with (arp + 5) by lia. mem_simpl. split_and!; [done..|apply holds_nil].
  - repeat hskip. by apply holds_htons.
  - repeat hskip. by apply holds_stbytes.
  - repeat hskip. apply holds_st32.
  - repeat hskip. by apply holds_stbytes.
  - repeat hskip. apply holds_st32.
Qed.

Lemma arp_frame_built m f dst src oper spa tpa tha :
  length dst = 6%nat -> length src = 6%nat -> length tha = 6%nat ->
  bytes dst -> bytes src -> bytes tha -> 0 <= oper < 2 ^ 16 ->
  ldbytes (fill_arp (build_eth m f dst src PROTO_ARP) (f + eth_payload) oper spa tpa src tha) f
    (Z.to_nat ARP_PACKET_SIZE) = arp_frame dst src oper spa tpa src tha.
Proof.
  intros Hd Hs Ht Hbd Hbs Hbt Ho.
  assert (length (arp_frame dst src oper spa tpa src tha) = Z.to_nat ARP_PACKET_SIZE) as <-.
  { unfold arp_frame, arp_bytes. rewrite !length_app, Hd, Hs, Ht. reflexivity. }
  fold (holds (fill_arp (build_eth m f dst src PROTO_ARP) (f + eth_payload) oper spa tpa src tha) f
          (arp_frame dst src oper spa tpa src tha)).
  unfold arp_frame. rewrite (app_assoc src), (app_assoc dst). apply holds_app. split.
  - eapply holds_ext; [|apply build_eth_bytes; auto; unfold PROTO_ARP; lia].
    intros x Hx. rewrite !length_app, Hd, Hs in Hx. cbn in Hx. symmetry.
    apply fill_arp_out; unfold eth_payload; auto; lia.
  - rewrite !length_app, Hd, Hs. cbn [length be16 Nat.add].
    replace (f + Z.of_nat 14) with (f + eth_payload) by reflexivity. by apply fill_arp_bytes.
Qed.

Lemma arp_build_out m f dst src oper spa tpa tha x :
  length dst = 6%nat -> length src = 6%nat -> length tha = 6%nat ->
  x < f \/ f + PGSIZE <= x ->
  fill_arp (build_eth m f dst src PROTO_ARP) (f + eth_payload) oper spa tpa src tha x = m x.
Proof.
  intros Hd Hs Ht Hx. unfold PGSIZE, eth_payload in *.
  rewrite fill_arp_out, build_eth_out by (unfold ETH_HDR_SIZE; auto; lia). done.
Qed.

(** The host's addresses are well formed. *)
Record host_ok (s : kst) : Prop := {
  ho_ip : 0 <= nc_ip_addr (k_netconf s) < 2 ^ 32;
  ho_mac : length (nc_mac_addr (k_netconf s)) = 6%nat;
  ho_bytes : bytes (nc_mac_addr (k_netconf s))
}.

Lemma broadcast_mac_bytes : bytes broadcast_mac.
Proof. repeat constructor; lia. Qed.

(** What arp_request does when the pool has its two pages. *)
Lemma arp_request_sends s ip f r l v rest :
  net_ok s -> host_ok s -> Pool.free (ph_pool (k_phys s)) = f :: r :: l ->
  poll_used (vn_tx_polls (k_net s)) (q_used_ring_idx (vn_txq (k_net s))) = Some (v, rest) ->
  let nc := k_netconf s in
  exists s1 s', k_kalloc s = Ret f s1 /\ arp_request ip s = Ret tt s' /\
    sent_frame s1 s' f r
      (arp_frame broadcast_mac (nc_mac_addr nc) ARP_OP_REQUEST (nc_ip_addr nc) ip (nc_mac_addr nc) broadcast_mac).
Proof.
  intros Hok [Hi Hm Hb] Hf Hpoll nc.
  destruct (net_ok_alloc s f (r :: l) Hok Hf) as (s1 & Ha & Hok1 & Hlf & Hf0 & Hf1 & Hr1 & _ & _ & Hbf & _ & Hs1).
  exists s1.
  assert (k_netconf s1 = nc) as Hnc by by rewrite Hs1.
  assert (vn_packet_buf (k_net s1) = vn_packet_buf (k_net s)) as Hpb by by rewrite Hs1.
  destruct (send_built s1 f r l ARP_PACKET_SIZE PROTO_ARP v rest
    (fun m => fill_arp (build_eth m f broadcast_mac (nc_mac_addr nc) PROTO_ARP) (f + eth_payload)
                ARP_OP_REQUEST (nc_ip_addr nc) ip (nc_mac_addr nc) broadcast_mac)) as (s' & Hs' & S); try assumption.
  - by rewrite Hpb.
  - unfold PGSIZE. arp_offsets. lia.
  - by rewrite Hs1.
  - intros m Hw. apply fill_arp_wf, build_eth_wf, Hw.
  - intros x Hx. by apply arp_build_out.
  - exists s'. split_and!; [exact Ha| |].
    + unfold arp_request. rewrite (bind_Ret _ _ _ _ _ Ha). zb. rewrite bind_gets, Hnc, setmem_setmem.
      exact Hs'.
    + by rewrite arp_frame_built in S by (auto using broadcast_mac_bytes; unfold ARP_OP_REQUEST; lia).
Qed.

(** The fields of a received packet. *)
Definition pkt_oper (s : kst) (pkt : Z) : Z := ntohs (ld16 (ph_mem (k_phys s)) (pkt + arp_oper)).
Definition pkt_spa (s : kst) (pkt : Z) : Z := ld32 (ph_mem (k_phys s)) (pkt + arp_spa).
Definition pkt_tpa (s : kst) (pkt : Z) : Z := ld32 (ph_mem (k_phys s)) (pkt + arp_tpa).
Definition pkt_sha (s : kst) (pkt : Z) : list Z := ldbytes (ph_mem (k_phys s)) (pkt + arp_sha) 6.

Lemma pkt_fields_stable m m' pkt :
  (forall x, pkt <= x < pkt + 28 -> m' x = m x) ->
  ld32 m' (pkt + arp_spa) = ld32 m (pkt + arp_spa) /\
  ld32 m' (pkt + arp_tpa) = ld32 m (pkt + arp_tpa) /\
  ldbytes m' (pkt + arp_sha) 6 = ldbytes m (pkt + arp_sha) 6.
Proof.
  intros H. arp_offsets. split_and!.
  - apply ldn_ext. intros. apply H. lia.
  - apply ldn_ext. intros. apply H. lia.
  - apply ldbytes_ext. intros. apply H. lia.
Qed.

(** arp_recv on a request for this host. *)
Lemma arp_recv_replies s pkt f r l v rest :
  net_ok s -> host_ok s -> Pool.free (ph_pool (k_phys s)) = f :: r :: l ->
  pkt + 28 <= f \/ f + PGSIZE <= pkt ->
  poll_used (vn_tx_polls (k_net s)) (q_used_ring_idx (vn_txq (k_net s))) = Some (v, rest) ->
  pkt_oper s pkt = ARP_OP_REQUEST ->
  pkt_tpa s pkt = nc_ip_addr (k_netconf s) \/ pkt_tpa s pkt = 0xFFFFFFFF ->
  let nc := k_netconf s in let spa := pkt_spa s pkt in let sha := pkt_sha s pkt in
  exists s1 s', k_kalloc s = Ret f s1 /\ arp_recv pkt s = Ret tt s' /\
    sent_frame (set_arp (arp_insert (k_arp s) spa sha) s1) s' f r
      (arp_frame sha (nc_mac_addr nc) ARP_OP_REPLY (nc_ip_addr nc) spa (nc_mac_addr nc) sha).
Proof.
  intros Hok [Hi Hm Hb] Hf Hap Hpoll Hop Htpa nc spa sha.
  destruct (net_ok_alloc s f (r :: l) Hok Hf) as (s1 & Ha & Hok1 & Hlf & Hf0 & Hf1 & Hr1 & _ & Hmem & Hbf & _ & Hs1).
  assert (forall x, pkt <= x < pkt + 28 -> ph_mem (k_phys s1) x = ph_mem (k_phys s) x) as Hst.
  { intros x Hx. apply Hmem. lia. }
  destruct (pkt_fields_stable _ _ pkt Hst) as (E1 & E2 & E3).
  assert (k_netconf s1 = nc) as Hnc by by rewrite Hs1.
  assert (k_arp s1 = k_arp s) as Harp by by rewrite Hs1.
  assert (length sha = 6%nat) as Hlsha by apply ldbytes_length.
  assert (bytes sha) as Hbsha by (apply ldbytes_bytes, (nk_wf _ Hok)).
  set (s2 := set_arp (arp_insert (k_arp s) spa sha) s1).
  assert (net_ok s2) as Hok2 by (destruct Hok1; split; assumption).
  set (g := fun m => fill_arp (build_eth m f (ldbytes m (pkt + arp_sha) 6) (nc_mac_addr nc) PROTO_ARP)
    (f + eth_payload) ARP_OP_REPLY (nc_ip_addr nc)
    (ld32 (build_eth m f (ldbytes m (pkt + arp_sha) 6) (nc_mac_addr nc) PROTO_ARP) (pkt + arp_spa))
    (nc_mac_addr nc)
    (ldbytes (build_eth m f (ldbytes m (pkt + arp_sha) 6) (nc_mac_addr nc) PROTO_ARP) (pkt + arp_sha) 6)).
  assert (g (ph_mem (k_phys s2)) = fill_arp (build_eth (ph_mem (k_phys s2)) f sha (nc_mac_addr nc) PROTO_ARP)
    (f + eth_payload) ARP_OP_REPLY (nc_ip_addr nc) spa (nc_mac_addr nc) sha) as Hg.
  { unfold g. change (ph_mem (k_phys s2)) with (ph_mem (k_phys s1)). rewrite E3.
    destruct (pkt_fields_stable (ph_mem (k_phys s1))
      (build_eth (ph_mem (k_phys s1)) f (ldbytes (ph_mem (k_phys s)) (pkt + arp_sha) 6) (nc_mac_addr nc) PROTO_ARP) pkt)
      as (F1 & _ & F3).
    { intros x Hx. apply build_eth_out; [done|done|]. unfold ETH_HDR_SIZE, PGSIZE in *. lia. }
    by rewrite F1, F3, E1, E3. }
  destruct (send_built s2 f r l ARP_PACKET_SIZE PROTO_ARP v rest g) as (s' & Hs' & S); try assumption.
  - change (vn_packet_buf (k_net s2)) with (vn_packet_buf (k_net s1)). by rewrite Hs1.
  - unfold PGSIZE. arp_offsets. lia.
  - change (k_net s2) with (k_net s1). by rewrite Hs1.
  - intros m Hw. apply fill_arp_wf, build_eth_wf, Hw.
  - intros x Hx. rewrite Hg. by apply arp_build_out.
  - exists s1, s'. split_and!; [exact Ha| |].
    + unfold arp_recv. rewrite (bind_Ret _ _ _ _ _ (k_getmem_Ret _ _)). fold (pkt_oper s pkt). rewrite Hop.
      cbn [Z.eqb Pos.eqb ARP_OP_REQUEST]. rewrite (bind_Ret _ _ _ _ _ Ha). zb.
      do 2 rewrite (bind_Ret _ _ _ _ _ (k_getmem_Ret _ _)). rewrite E1, E3.
      unfold bind at 1, modify at 1. rewrite Harp.
      change (set_arp (arp_insert (k_arp s) _ _) s1) with s2.
      rewrite (bind_Ret _ _ _ _ _ (k_getmem_Ret _ _)).
      change (ph_mem (k_phys s2)) with (ph_mem (k_phys s1)). rewrite E2. fold (pkt_tpa s pkt).
      rewrite bind_gets. change (k_netconf s2) with (k_netconf s1). rewrite Hnc.
      assert ((pkt_tpa s pkt =? nc_ip_addr nc) || (pkt_tpa s pkt =? 4294967295) = true) as ->.
      { apply orb_true_iff. rewrite !Z.eqb_eq. exact Htpa. }
      rewrite setmem_setmem. exact Hs'.
    + rewrite Hg in S. by rewrite arp_frame_built in S by (auto; unfold ARP_OP_REPLY; lia).
Qed.

(** ** Properties of the protocol *)

(** An insertion that finds room is found again and disturbs no other address. *)
Lemma arp_insert_answers c ip mac :
  cache_ok c -> length mac = 6%nat ->
  (is_Some (arp_lookup c ip) \/ (size (arp_map c) < length c)%nat -> arp_lookup (arp_insert c ip mac) ip = Some mac) /\
  (forall q, q <> ip -> arp_lookup (arp_insert c ip mac) q = arp_lookup c q).
Proof.
  intros Hc Hm. destruct (arp_insert_ok c ip mac Hc Hm) as [_ E]. setoid_rewrite arp_lookup_map. rewrite E.
  unfold bounded_insert. repeat case_decide; (split; [|intros q Hq]); rewrite ?lookup_insert_eq, ?lookup_insert_ne by congruence; tauto.
Qed.

(** arp_request broadcasts one well-formed ARP request for the address and
    leaves the cache as it was; of the two pages it uses it gives back the
    frame's. *)
Lemma arp_request_broadcasts s ip f r l :
  net_ok s -> host_ok s -> Pool.free (ph_pool (k_phys s)) = f :: r :: l ->
  polls_answer 1 (vn_tx_polls (k_net s)) (q_used_ring_idx (vn_txq (k_net s))) ->
  let nc := k_netconf s in
  exists s', arp_request ip s = Ret tt s' /\
    vn_sent (k_net s') = vn_sent (k_net s) ++
      [arp_frame broadcast_mac (nc_mac_addr nc) ARP_OP_REQUEST (nc_ip_addr nc) ip (nc_mac_addr nc) broadcast_mac] /\
    k_arp s' = k_arp s /\ k_held s' = k_held s /\ Pool.free (ph_pool (k_phys s')) = f :: l.
Proof.
  intros Hok Hho Hf (v & rest & Hpoll & _) nc.
  destruct (arp_request_sends s ip f r l v rest Hok Hho Hf Hpoll) as (s1 & s' & Ha & Hs' & S).
  destruct (net_ok_alloc s f (r :: l) Hok Hf) as (s1' & Ha' & _ & _ & _ & Hf1 & _ & _ & _ & _ & _ & Hs1).
  rewrite Ha in Ha'. injection Ha' as <-. destruct (sf_pages _ _ _ _ _ S) as (l' & H1 & H2).
  rewrite Hf1 in H1. injection H1 as <-.
  exists s'. split_and!; [exact Hs'|rewrite (sf_sent _ _ _ _ _ S)|rewrite (sf_arp _ _ _ _ _ S)|
    rewrite (sf_held _ _ _ _ _ S)|exact H2]; by rewrite Hs1.
Qed.

(** C29: when two pages are free, a received ARP request for this host (or for
    the all-ones address) is answered with one frame, the well-formed reply of
    this host to its sender.  If the sender is in the cache or the cache has room,
    arp_lookup answers its MAC afterwards; for every other address it answers what
    it did before. *)
Theorem arp_recv_answers s pkt f r l :
  net_ok s -> host_ok s -> cache_ok (k_arp s) -> Pool.free (ph_pool (k_phys s)) = f :: r :: l ->
  pkt + 28 <= f \/ f + PGSIZE <= pkt ->
  polls_answer 1 (vn_tx_polls (k_net s)) (q_used_ring_idx (vn_txq (k_net s))) ->
  pkt_oper s pkt = ARP_OP_REQUEST ->
  pkt_tpa s pkt = nc_ip_addr (k_netconf s) \/ pkt_tpa s pkt = 0xFFFFFFFF ->
  let nc := k_netconf s in
  exists s', arp_recv pkt s = Ret tt s' /\
    vn_sent (k_net s') = vn_sent (k_net s) ++
      [arp_frame (pkt_sha s pkt) (nc_mac_addr nc) ARP_OP_REPLY (nc_ip_addr nc) (pkt_spa s pkt)
                 (nc_mac_addr nc) (pkt_sha s pkt)] /\
    (is_Some (arp_lookup (k_arp s) (pkt_spa s pkt)) \/ (size (arp_map (k_arp s)) < length (k_arp s))%nat ->
     arp_lookup (k_arp s') (pkt_spa s pkt) = Some (pkt_sha s pkt)) /\
    (forall ip, ip <> pkt_spa s pkt -> arp_lookup (k_arp s') ip = arp_lookup (k_arp s) ip) /\
    k_held s' = k_held s.
Proof.
  intros Hok Hho Hc Hf Hap (v & rest & Hpoll & _) Hop Htpa nc.
  destruct (arp_recv_replies s pkt f r l v rest Hok Hho Hf Hap Hpoll Hop Htpa) as (s1 & s' & Ha & Hs' & S).
  destruct (net_ok_alloc s f (r :: l) Hok Hf) as (s1' & Ha' & _ & _ & _ & _ & _ & _ & _ & _ & _ & Hs1).
  rewrite Ha in Ha'. injection Ha' as <-.
  destruct (arp_insert_answers (k_arp s) (pkt_spa s pkt) (pkt_sha s pkt) Hc (ldbytes_length _ _ _)) as [L1 L2].
  exists s'. split_and!; [exact Hs'|rewrite (sf_sent _ _ _ _ _ S)|rewrite (sf_arp _ _ _ _ _ S)|
    rewrite (sf_arp _ _ _ _ _ S)|rewrite (sf_held _ _ _ _ _ S)]; [by rewrite Hs1|exact L1|exact L2|by rewrite Hs1].
Qed.

(** Every other ARP packet sends nothing.  A reply only updates the cache;
    an unknown operation changes nothing; a request for another host updates
    the cache but keeps the page taken for the reply, so each such packet
    shrinks the pool. *)
Lemma arp_recv_silent s pkt f l :
  net_ok s -> Pool.free (ph_pool (k_phys s)) = f :: l ->
  pkt + 28 <= f \/ f + PGSIZE <= pkt ->
  let cache := arp_insert (k_arp s) (pkt_spa s pkt) (pkt_sha s pkt) in
  (pkt_oper s pkt = ARP_OP_REPLY -> arp_recv pkt s = Ret tt (set_arp cache s)) /\
  (pkt_oper s pkt <> ARP_OP_REPLY -> pkt_oper s pkt <> ARP_OP_REQUEST -> arp_recv pkt s = Ret tt s) /\
  (pkt_oper s pkt = ARP_OP_REQUEST -> pkt_tpa s pkt <> nc_ip_addr (k_netconf s) ->
   pkt_tpa s pkt <> 0xFFFFFFFF ->
   exists s', arp_recv pkt s = Ret tt s' /\ k_arp s' = cache /\ k_net s' = k_net s /\
     Pool.free (ph_pool (k_phys s')) = l).
Proof.
  intros Hok Hf Hap cache. unfold arp_recv.
  rewrite (bind_Ret _ _ _ _ _ (k_getmem_Ret _ _)). fold (pkt_oper s pkt). split_and!.
  - intros ->. cbn [Z.eqb Pos.eqb ARP_OP_REQUEST ARP_OP_REPLY].
    do 2 rewrite (bind_Ret _ _ _ _ _ (k_getmem_Ret _ _)). done.
  - intros H1 H2. by zb.
  - intros -> H1 H2. cbn [Z.eqb Pos.eqb ARP_OP_REQUEST].
    destruct (net_ok_alloc s f l Hok Hf) as (s1 & Ha & _ & _ & Hf0 & Hf1 & _ & _ & Hmem & _ & _ & Hs1).
    destruct (pkt_fields_stable (ph_mem (k_phys s)) (ph_mem (k_phys s1)) pkt) as (E1 & E2 & E3).
    { intros x Hx. apply Hmem. lia. }
    rewrite (bind_Ret _ _ _ _ _ Ha). zb. do 2 rewrite (bind_Ret _ _ _ _ _ (k_getmem_Ret _ _)).
    unfold bind at 1, modify at 1. rewrite (bind_Ret _ _ _ _ _ (k_getmem_Ret _ _)), bind_gets.
    cbn [k_phys set_arp k_netconf]. rewrite E1, E2, E3. fold (pkt_tpa s pkt).
    assert (k_netconf s1 = k_netconf s) as -> by by rewrite Hs1. zb. cbn [orb].
    assert (k_arp s1 = k_arp s) as -> by by rewrite Hs1.
    eexists. split; [reflexivity|]. cbn [k_arp set_arp k_net k_phys].
    split_and!; [reflexivity|by rewrite Hs1|exact Hf1].
Qed.

Lemma idle_host_ok : host_ok idle_kernel.
Proof. split; cbn; [lia|reflexivity|]. repeat constructor; lia. Qed.

(** The idle kernel with an ARP packet for [tpa] from 10.0.10.11 at 0x87ff4000. *)
Definition kernel_with_arp (oper tpa : Z) : kst :=
  set_phys (mkPhys (fill_arp (fun _ => 0) 0x87ff4000 oper 0x0b0a000a tpa [1;2;3;4;5;6] broadcast_mac)
             (ph_pool (k_phys idle_kernel)) 0x87ff0000) idle_kernel.

Lemma kernel_with_arp_ok oper tpa : net_ok (kernel_with_arp oper tpa).
Proof.
  pose proof idle_kernel_ok as [_ H2 H3 H4 H5 H6 H7 H8 H9]. split; [|assumption..].
  apply fill_arp_wf. intros a. lia.
Qed.

Lemma arp_recv_answers_witness :
  exists s', arp_recv 0x87ff4000 (kernel_with_arp 1 0x0a0a000a) = Ret tt s' /\
    arp_lookup (k_arp s') 0x0b0a000a = Some [1;2;3;4;5;6].
Proof.
  destruct (arp_recv_answers (kernel_with_arp 1 0x0a0a000a) 0x87ff4000 0x87fff000 0x87ffe000 [])
    as (s' & H1 & _ & H2 & _).
  - apply kernel_with_arp_ok.
  - destruct idle_host_ok. split; assumption.
  - apply (cache_empty 16).
  - reflexivity.
  - lia.
  - exists 1, [1; 2]. split; [reflexivity|exact I].
  - vm_compute. reflexivity.
  - left. vm_compute. reflexivity.
  - exists s'. split; [exact H1|]. etransitivity; [apply H2|vm_compute; reflexivity]. right. vm_compute. lia.
Defined.

