(* ===== verification/Ports.v ===== *)
(** * Port bindings (the first part of kernel/sys/socket.c)

    insert_port_binding and remove_port_binding, which udp.c and tcp.c call to
    enter a struct port_binding in the table of its socket's protocol. *)
From S2P Require Import Prelude Mem StringC Net Kalloc Page Vm KState.
From Stdlib Require Import ZArith Lia.
From stdpp Require Import strings.
Local Open Scope list_scope.
Local Open Scope Z_scope.
Local Open Scope kernel_scope.

(** Constants of socket.h. *)
Definition AF_INET : Z := 2.
Definition SOCK_STREAM : Z := 1.
Definition SOCK_DGRAM : Z := 2.
Definition CLOSED : Z := 50.
Definition BOUND : Z := 51.
Definition LISTENING : Z := 52.
Definition SYN_RECVD : Z := 54.

(** struct sockaddr_in in memory. *)
Definition SOCKADDR_IN_SIZE : Z := 16.
Definition sin_family : Z := 0.
Definition sin_port : Z := 2.
Definition sin_addr : Z := 4.

Definition set_udp_binds (l : list Z) (t : sockets) : sockets :=
  mkSockets l (st_tcp_binds t) (st_bindings t) (st_sockets t) (st_sock_list t) (st_tcp_list t) (st_udp_list t).
Definition set_tcp_binds (l : list Z) (t : sockets) : sockets :=
  mkSockets (st_udp_binds t) l (st_bindings t) (st_sockets t) (st_sock_list t) (st_tcp_list t) (st_udp_list t).
Definition set_bindings (b : gmap Z port_binding) (t : sockets) : sockets :=
  mkSockets (st_udp_binds t) (st_tcp_binds t) b (st_sockets t) (st_sock_list t) (st_tcp_list t) (st_udp_list t).

Definition binding_get (p : Z) : M kst port_binding := fun s =>
  match st_bindings (k_sockets s) !! p with Some b => Ret b s | None => Fault s end.
Definition binding_put (p : Z) (b : port_binding) : M kst unit :=
  modify (fun s => set_sockets (set_bindings (<[p := b]> (st_bindings (k_sockets s))) (k_sockets s)) s).

(** Element access of the two tables; an index past the end is a fault. *)
Definition udp_bind_at (port : Z) : M kst Z := fun s =>
  match znth (st_udp_binds (k_sockets s)) port with Some v => Ret v s | None => Fault s end.
Definition tcp_bind_at (port : Z) : M kst Z := fun s =>
  match znth (st_tcp_binds (k_sockets s)) port with Some v => Ret v s | None => Fault s end.
Definition set_udp_bind (port v : Z) : M kst unit := fun s =>
  match zset (st_udp_binds (k_sockets s)) port v with
  | Some l => Ret tt (set_sockets (set_udp_binds l (k_sockets s)) s)
  | None => Fault s
  end.
Definition set_tcp_bind (port v : Z) : M kst unit := fun s =>
  match zset (st_tcp_binds (k_sockets s)) port v with
  | Some l => Ret tt (set_sockets (set_tcp_binds l (k_sockets s)) s)
  | None => Fault s
  end.

Definition insert_port_binding (bind : Z) : M kst Z :=
  acquire port_binds_lock ;;;
  b <- binding_get bind ;;
  sk <- sock_get (pb_sock b) ;;
  (if so_proto sk =? IPPROTO_TCP then set_tcp_bind (pb_port b) bind
   else if so_proto sk =? IPPROTO_UDP then set_udp_bind (pb_port b) bind
   else ret tt) ;;;
  release port_binds_lock ;;;
  ret 0.

Definition remove_port_binding (bind : Z) : M kst Z :=
  acquire port_binds_lock ;;;
  b <- binding_get bind ;;
  sk <- sock_get (pb_sock b) ;;
  if so_proto sk =? IPPROTO_TCP then
    v <- tcp_bind_at (pb_port b) ;;
    if v =? 0 then release port_binds_lock ;;; ret (-1)
    else set_tcp_bind (pb_port b) 0 ;;; release port_binds_lock ;;; ret 0
  else if so_proto sk =? IPPROTO_UDP then
    v <- udp_bind_at (pb_port b) ;;
    if v =? 0 then release port_binds_lock ;;; ret (-1)
    else set_udp_bind (pb_port b) 0 ;;; release port_binds_lock ;;; ret 0
  else release port_binds_lock ;;; ret 0.
