(* ===== verification/Udp.v ===== *)
(** * kernel/sys/udp.h and kernel/sys/udp.c

    Datagrams are bytes in memory at the offsets of struct udp_frame; a
    socket's receive queue is the chain of frames linked through their [next]
    field from rx_head to rx_tail.  Pointers into user space are virtual
    addresses translated by the page table of the current process.  The local
    arrays of udp_sendto live on its kernel stack at [k_stack]: kaddr first,
    then kbuf. *)
From S2P Require Import Prelude Mem StringC Net Kalloc Page Vm KState Eth Ip4 VirtioNet Arp Ports.
From Stdlib Require Import ZArith Lia.
From stdpp Require Import strings.
Local Open Scope list_scope.
Local Open Scope Z_scope.
Local Open Scope kernel_scope.

(** ** Layout of struct udp_hdr and struct udp_frame *)
Definition UDP_HDR_SIZE : Z := 8.
Definition udp_src_port : Z := 0.
Definition udp_dst_port : Z := 2.
Definition udp_len : Z := 4.
Definition udp_csum : Z := 6.
Definition udp_payload : Z := 8.
Definition udp_payload_len : Z := 1508.
Definition udp_next : Z := 1512.

Ltac udp_offsets :=
  unfold UDP_HDR_SIZE, udp_src_port, udp_dst_port, udp_len, udp_csum, udp_payload,
    udp_payload_len, udp_next in *.

(** ** Framing *)

Definition build_udp (m : mem) (udp src_port dst_port payload payload_len src_ip dst_ip : Z) : mem :=
  let m := st16 m (udp + udp_src_port) (htons src_port) in
  let m := st16 m (udp + udp_dst_port) dst_port in
  let m := st16 m (udp + udp_len) (htons (u16 (payload_len + UDP_HDR_SIZE))) in
  let m := st32 m (udp + udp_payload_len) payload_len in
  let m := memmove m (udp + udp_payload) payload payload_len in
  let m := st16 m (udp + udp_csum) 0 in
  st16 m (udp + udp_csum)
    (udp_checksum m src_ip dst_ip udp (udp + udp_payload) (u16 payload_len)).

Definition parse_udp_packet (m : mem) (buf len udp_pkt : Z) : mem * Z :=
  if len <? 8 then (m, -1)
  else
    let m := st16 m (udp_pkt + udp_src_port) (ntohs (ld16 m buf)) in
    let m := st16 m (udp_pkt + udp_dst_port) (ntohs (ld16 m (buf + 2))) in
    let m := st16 m (udp_pkt + udp_len) (ntohs (ld16 m (buf + 4))) in
    let m := st16 m (udp_pkt + udp_csum) (ntohs (ld16 m (buf + 6))) in
    if (ld16 m (udp_pkt + udp_len) <? 8) || (len <? ld16 m (udp_pkt + udp_len)) then (m, -1)
    else
      let m := st32 m (udp_pkt + udp_payload_len) (len - UDP_HDR_SIZE) in
      let m := memmove m (udp_pkt + udp_payload) (buf + UDP_HDR_SIZE) (ld32 m (udp_pkt + udp_payload_len)) in
      (m, 0).

(** ** The receive queue *)

Definition set_rx (k : socket) (head tail : Z) : socket :=
  mkSocket (so_pending k) (so_src_ip k) (so_dest_ip k) (so_src_port k) (so_dest_port k)
           (so_proto k) (so_type k) (so_family k) (so_state k) (so_fd k) (so_ops k) head tail.

Definition enqueue_udp_packet (pkt sock : Z) : M kst unit :=
  acquire (sock_lock sock) ;;;
  k_setmem (fun m => st64 m (pkt + udp_next) 0) ;;;
  k <- sock_get sock ;;
  (if so_rx_head k =? 0 then sock_put sock (set_rx k pkt pkt)
   else
     k_setmem (fun m => st64 m (so_rx_tail k + udp_next) pkt) ;;;
     sock_put sock (set_rx k (so_rx_head k) pkt)) ;;;
  wakeup (sock + sock_rx_head) ;;;
  release (sock_lock sock).

Definition dequeue_udp_packet (sock : Z) : M kst Z :=
  k <- sock_get sock ;;
  if so_rx_head k =? 0 then ret 0
  else
    let r := so_rx_head k in
    next <- k_getmem (fun m => ld64 m (r + udp_next)) ;;
    sock_put sock (set_rx k next (if next =? 0 then 0 else so_rx_tail k)) ;;;
    ret r.

(** ** Socket operations *)

Definition set_src_ip (k : socket) (ip : Z) : socket :=
  mkSocket (so_pending k) ip (so_dest_ip k) (so_src_port k) (so_dest_port k)
           (so_proto k) (so_type k) (so_family k) (so_state k) (so_fd k) (so_ops k) (so_rx_head k) (so_rx_tail k).
Definition set_bound (k : socket) (port st : Z) : socket :=
  mkSocket (so_pending k) (so_src_ip k) (so_dest_ip k) port (so_dest_port k)
           (so_proto k) (so_type k) (so_family k) st (so_fd k) (so_ops k) (so_rx_head k) (so_rx_tail k).

Definition udp_bind (sock sock_address addrlen : Z) : M kst Z :=
  if sock =? 0 then ret (-1)
  else if sock_address =? 0 then ret (-1)
  else
    port <- k_getmem (fun m => ntohs (ld16 m (sock_address + sin_port))) ;;
    if (port <=? 0) || (MAX_PORT_BINDINGS <=? port) then ret (-1)
    else
    bound <- udp_bind_at port ;;
    if negb (bound =? 0) then ret (-1)
    else
    k <- sock_get sock ;;
    if so_family k =? AF_INET then
      if negb (addrlen =? SOCKADDR_IN_SIZE) then ret (-1)
      else
        binding <- k_kalloc ;;
        if binding =? 0 then ret (-1)
        else
          s_addr <- k_getmem (fun m => ld32 m (sock_address + sin_addr)) ;;
          nc <- gets k_netconf ;;
          let ip := if s_addr =? INADDR_ANY then nc_ip_addr nc else s_addr in
          sock_put sock (set_src_ip k (s32 ip)) ;;;
          binding_put binding (mkPortBinding (u16 ip) port sock) ;;;
          r <- insert_port_binding binding ;;
          if r =? -1 then k_kfree binding ;;; ret (-1)
          else
            k <- sock_get sock ;;
            sock_put sock (set_bound k port BOUND) ;;;
            ret 0
    else ret (-1).

Definition udp_connect (sock addr addrlen : Z) : M kst Z := ret 0.
Definition udp_close (sock : Z) : M kst Z := ret 0.

(** [while (arp_lookup(dst_ip, dst_mac) == -1) {}]: between two tests the
    interrupts of the next element of [events] insert their answers. *)
Fixpoint arp_spin (ip : Z) (cache : list arp_entry) (events : list (list (Z * list Z)))
  : list arp_entry * list (list (Z * list Z)) * option (list Z) :=
  match arp_lookup cache ip with
  | Some mac => (cache, events, Some mac)
  | None => match events with
            | [] => (cache, [], None)
            | e :: events => arp_spin ip (insert_all cache e) events
            end
  end.

Definition arp_wait (ip : Z) : M kst (list Z) := fun s =>
  let '(cache, events, mac) := arp_spin ip (k_arp s) (k_arp_events s) in
  let s := set_arp_events events (set_arp cache s) in
  match mac with Some mac => Ret mac s | None => Spin s end.

Definition resolve (ip : Z) : M kst (list Z) :=
  cache <- gets k_arp ;;
  match arp_lookup cache ip with
  | Some mac => ret mac
  | None => arp_request ip ;;; arp_wait ip
  end.

Definition k_copyin (dst srcva len : Z) : M kst Z :=
  pt <- gets k_pagetable ;; lift (copyin pt dst srcva len).
Definition k_copyout (dstva src len : Z) : M kst Z :=
  pt <- gets k_pagetable ;; lift (copyout pt dstva src len).

Definition udp_sendto (sock buf len flags dest addrlen : Z) : M kst Z :=
  sp <- gets k_stack ;;
  let kaddr := sp in
  let kbuf := sp + SOCKADDR_IN_SIZE in
  if addrlen <? SOCKADDR_IN_SIZE then ret (-1)
  else
  r <- k_copyin kaddr dest SOCKADDR_IN_SIZE ;;
  if r <? 0 then ret (-1)
  else
  dst_ip <- k_getmem (fun m => ld32 m (kaddr + sin_addr)) ;;
  dst_mac <- resolve dst_ip ;;
  if 1500 <? len then ret (-1)
  else
  r <- k_copyin kbuf buf (u64 len) ;;
  if r <? 0 then ret (-1)
  else
  eth <- k_kalloc ;;
  nonnull eth ;;;
  let ip := eth + eth_payload in
  let udp := ip + ip_payload in
  k <- sock_get sock ;;
  nc <- gets k_netconf ;;
  k_setmem (fun m => build_udp m udp (u16 (so_src_port k)) (ld16 m (kaddr + sin_port)) kbuf len
                       (nc_ip_addr nc) dst_ip) ;;;
  k_setmem (fun m => build_ip4 m ip (ntohl (nc_ip_addr nc)) (ntohl dst_ip) IPPROTO_UDP
                       (u16 (len + UDP_HDR_SIZE + IP4_HDR_SIZE))) ;;;
  k_setmem (fun m => build_eth m eth dst_mac (nc_mac_addr nc) PROTO_IPV4) ;;;
  transmit_packet eth (u16 (len + UDP_HDR_SIZE + IP4_HDR_SIZE + ETH_HDR_SIZE)) PROTO_IPV4 ;;;
  k_kfree eth ;;;
  ret 0.

Definition udp_recvfrom (sock buf len flags src addrlen : Z) : M kst Z :=
  acquire (sock_lock sock) ;;;
  k <- sock_get sock ;;
  if so_rx_head k =? 0
  then release (sock_lock sock) ;;; (fun s => Blocked (sock + sock_rx_head) s)
  else
  pkt <- dequeue_udp_packet sock ;;
  release (sock_lock sock) ;;;
  plen <- k_getmem (fun m => s32 (ld32 m (pkt + udp_payload_len))) ;;
  let n := if plen <? len then plen else len in
  r <- k_copyout buf (pkt + udp_payload) (u64 plen) ;;
  if r <? 0 then k_kfree pkt ;;; ret (-1)
  else k_kfree pkt ;;; ret n.

Definition handle_udp_packet (udp_pkt : Z) : M kst Z :=
  dst_port <- k_getmem (fun m => ld16 m (udp_pkt + udp_dst_port)) ;;
  if (dst_port <? 0) || (MAX_PORT_BINDINGS <=? dst_port) then ret (-1)
  else
    acquire port_binds_lock ;;;
    b <- udp_bind_at dst_port ;;
    if b =? 0 then release port_binds_lock ;;; ret (-1)
    else
      b <- binding_get b ;;
      let sock := pb_sock b in
      release port_binds_lock ;;;
      k <- sock_get sock ;;
      when (so_proto k =? IPPROTO_UDP) (enqueue_udp_packet udp_pkt sock) ;;;
      ret 0.

(** ** Framing lemmas *)

Lemma build_udp_wf m udp sp dp pay len sip dip :
  wf_mem m -> 0 <= len -> wf_mem (build_udp m udp sp dp pay len sip dip).
Proof. intros. unfold build_udp. wfm. Qed.

Lemma build_udp_out m udp sp dp pay len sip dip x :
  wf_mem m -> 0 <= len <= 1500 -> x < udp \/ udp + 1512 <= x ->
  build_udp m udp sp dp pay len sip dip x = m x.
Proof.
  intros Hw Hl Hx. unfold build_udp. udp_offsets. rewrite !(stn_out 2) by lia.
  rewrite memmove_out by (try wfm; lia). mem_simpl. done.
Qed.

(** The payload lands after the header when its source is elsewhere. *)
Lemma build_udp_payload m udp sp dp pay len sip dip i :
  wf_mem m -> 0 <= len <= 1500 -> pay + len <= udp \/ udp + 1512 <= pay -> 0 <= i < len ->
  build_udp m udp sp dp pay len sip dip (udp + udp_payload + i) = m (pay + i).
Proof.
  intros Hw Hl Hp Hi. unfold build_udp. udp_offsets. rewrite !(stn_out 2) by lia.
  rewrite memmove_in by (try wfm; lia). mem_simpl. f_equal. lia.
Qed.

Lemma build_udp_fields m udp sp dp pay len sip dip :
  wf_mem m -> 0 <= sp < 2 ^ 16 -> 0 <= dp < 2 ^ 16 -> 0 <= len <= 1500 ->
  let b := build_udp m udp sp dp pay len sip dip in
  ld16 b (udp + udp_src_port) = htons sp /\ ld16 b (udp + udp_dst_port) = dp /\
  ld16 b (udp + udp_len) = htons (len + 8) /\
  0 <= ld16 b (udp + udp_csum) < 2 ^ 16.
Proof.
  intros Hw Hs Hd Hl b. unfold b, build_udp. udp_offsets. rewrite (u16_small (len + 8)) by lia.
  split_and!.
  - rewrite !ldn_stn_ne, ldn_memmove_ne by (try wfm; lia). mem_simpl. apply ld16_mod, htons_range.
  - rewrite !ldn_stn_ne, ldn_memmove_ne by (try wfm; lia). mem_simpl. by apply ld16_mod.
  - rewrite !ldn_stn_ne, ldn_memmove_ne by (try wfm; lia). mem_simpl. apply ld16_mod, htons_range.
  - apply ld16_range. wfm.
  - apply ld16_range. wfm.
Qed.

Lemma build_udp_checksum m udp sp dp pay len sip dip :
  wf_mem m -> 0 <= len <= 1500 ->
  udp_checksum (build_udp m udp sp dp pay len sip dip) sip dip udp (udp + udp_payload) len = 0.
Proof.
  intros Hw Hl. unfold build_udp. rewrite (u16_small len) by lia.
  match goal with |- udp_checksum (st16 ?m1 _ _) _ _ _ _ _ = 0 => set (B := m1) end.
  assert (wf_mem B) as HB by (unfold B; wfm). udp_offsets.
  rewrite !udp_checksum_wsum by (try wfm; lia).
  rewrite (ldn_stn_ne 2 2 B) by lia.
  set (P := pseudo_header sip dip (ld16 B (udp + 4))).
  pose proof (wsum_range 12 P 0 (pseudo_header_wf _ _ _)). pose proof (wsum_range 8 B udp HB).
  pose proof (wsum_range (Z.to_nat len) B (udp + 8) HB).
  replace (udp + 6) with (udp + 2 * Z.of_nat 3) by lia.
  rewrite wsum_st16 by lia. rewrite u16_small by apply fold_cksum_range.
  replace (ld16 B (udp + 2 * Z.of_nat 3)) with 0.
  2: { replace (udp + 2 * Z.of_nat 3) with (udp + 6) by lia. unfold B. by rewrite ldn_stn_eq. }
  rewrite (wsum_ext (Z.to_nat len) (st16 B _ _) B (udp + 8) (udp + 8)) by (intros; apply stn_out; lia).
  set (S0 := wsum 12 P 0 + wsum 8 B udp + wsum (Z.to_nat len) B (udp + 8)).
  replace (wsum 12 P 0 + (wsum 8 B udp - 0 + fold_cksum S0) + wsum (Z.to_nat len) B (udp + 8))
    with (S0 + fold_cksum S0) by (unfold S0; lia).
  apply (fold_cksum_complete S0); unfold S0; lia.
Qed.

(** What parse_udp_packet does, on every branch. *)
Lemma parse_udp_packet_spec m buf len pkt :
  wf_mem m -> 0 <= len <= 1508 -> buf + Z.max 8 len <= pkt \/ pkt + 1512 <= buf ->
  let ulen := ntohs (ld16 m (buf + 4)) in
  let ok := (8 <=? len) && (8 <=? ulen) && (ulen <=? len) in
  exists m', parse_udp_packet m buf len pkt = (m', if ok then 0 else -1) /\ wf_mem m' /\
    (forall x, x < pkt \/ pkt + 1512 <= x -> m' x = m x) /\
    (ok = true ->
       ld16 m' (pkt + udp_src_port) = ntohs (ld16 m buf) /\
       ld16 m' (pkt + udp_dst_port) = ntohs (ld16 m (buf + 2)) /\
       ld16 m' (pkt + udp_len) = ulen /\
       ld32 m' (pkt + udp_payload_len) = len - 8 /\
       forall i, 0 <= i < len - 8 -> m' (pkt + udp_payload + i) = m (buf + 8 + i)).
Proof.
  intros Hw Hl Hd ulen ok. unfold parse_udp_packet.
  destruct (Z.ltb_spec len 8) as [H8|H8].
  { assert (ok = false) as -> by (unfold ok; by zb). exists m. split_and!; done. }
  udp_offsets.
  match goal with |- context [memmove (stn 4 ?m1 _ _) _ _ _] => set (m4 := m1) end.
  assert (wf_mem m4) as Hw4 by (unfold m4; wfm).
  assert (ld16 m4 (pkt + 4) = ulen) as Hu.
  { unfold m4. mem_simpl. apply ld16_mod, htons_range. }
  rewrite Hu. unfold ok. zb. cbn [andb].
  assert (forall x, x < pkt \/ pkt + 8 <= x -> m4 x = m x) as Ho4 by (intros; unfold m4; mem_simpl; done).
  destruct (Z.ltb_spec ulen 8), (Z.ltb_spec len ulen); [exfalso; lia|..]; zb; cbn [orb andb];
    try (exists m4; split_and!; [done|done|intros; apply Ho4; lia|done]).
  rewrite ldn_stn_eq, ld32_mod by lia.
  assert (wf_mem (st32 m4 (pkt + 1508) (len - 8))) by wfm.
  eexists. split; [reflexivity|]. split_and!.
  - apply memmove_wf; [done|lia].
  - intros x Hx. rewrite memmove_out, stn_out by (auto; lia). apply Ho4. lia.
  - intros _. split_and!.
    + rewrite ldn_memmove_ne, ldn_stn_ne by (auto; lia). unfold m4. mem_simpl. apply ld16_mod, htons_range.
    + rewrite ldn_memmove_ne, ldn_stn_ne by (auto; lia). unfold m4. mem_simpl. apply ld16_mod, htons_range.
    + rewrite ldn_memmove_ne, ldn_stn_ne by (auto; lia). exact Hu.
    + rewrite ldn_memmove_ne, ldn_stn_eq by (auto; lia). apply ld32_mod. lia.
    + intros i Hi. rewrite memmove_in, stn_out, Ho4 by (auto; lia). f_equal. lia.
Qed.

(** ** The receive queue is a list of frames *)

(** Frames linked through [next] from [head] to a null pointer. *)
Fixpoint chain (m : mem) (head : Z) (l : list Z) : Prop :=
  match l with
  | [] => head = 0
  | p :: l => head = p /\ chain m (ld64 m (p + udp_next)) l
  end.

(** The frames of a queue are distinct pages; rx_tail is the last of them. *)
Record queue_ok (m : mem) (end_ : Z) (k : socket) (l : list Z) : Prop := {
  qo_chain : chain m (so_rx_head k) l;
  qo_tail : so_rx_tail k = default 0 (last l);
  qo_nodup : NoDup l;
  qo_pages : Forall (managed end_) l
}.

Lemma chain_ext m m' head l :
  (forall p, p ∈ l -> ld64 m' (p + udp_next) = ld64 m (p + udp_next)) ->
  chain m head l -> chain m' head l.
Proof.
  revert head. induction l as [|p l IH]; intros head H; [done|]. cbn [chain]. intros [-> Hc].
  split; [done|]. rewrite H by constructor. apply IH; [|done]. intros q Hq. apply H. by constructor.
Qed.

Lemma chain_snoc end_ m head l pkt :
  chain m head l -> l <> [] -> NoDup (l ++ [pkt]) -> Forall (managed end_) (l ++ [pkt]) ->
  KERNBASE <= end_ ->
  chain (st64 (st64 m (pkt + udp_next) 0) (default 0 (last l) + udp_next) pkt) head (l ++ [pkt]).
Proof.
  intros Hc Hne Hnd Hm He. revert head Hc. induction l as [|p l IH]; intros head Hc; [done|].
  destruct Hc as [-> Hc]. cbn [chain app]. split; [done|].
  assert (managed end_ pkt) as Hpm by (apply Forall_app in Hm as [_ Hm]; by apply Forall_inv in Hm).
  assert (0 <= pkt < 2 ^ 64) as Hp64.
  { destruct Hpm as [_ Hpm]. unfold PHYSTOP, KERNBASE in *. lia. }
  change ((p :: l) ++ [pkt]) with (p :: (l ++ [pkt])) in Hnd, Hm.
  apply NoDup_cons in Hnd as [Hpn Hnd]. apply Forall_cons in Hm as [Hmp Hm].
  destruct l as [|q l].
  - change (default 0 (last [p])) with p. cbn [app]. rewrite ldn_stn_eq, Z.mod_small by done. cbn [chain]. split; [done|].
    assert (p <> pkt) as Hpp by (intros ->; apply Hpn; constructor).
    pose proof (managed_apart _ _ _ Hmp Hpm Hpp). unfold PGSIZE, udp_next in *.
    rewrite ldn_stn_ne, ldn_stn_eq by lia. done.
  - change (last (p :: q :: l)) with (last (q :: l)).
    assert (default 0 (last (q :: l)) ∈ q :: l) as Hin.
    { destruct (last (q :: l)) eqn:E; [|by apply last_None in E]. cbn. by apply last_Some_elem_of. }
    assert (default 0 (last (q :: l)) <> p) as Hlp.
    { intros Hlp. apply Hpn. rewrite <- Hlp. apply elem_of_app. by left. }
    assert (managed end_ (default 0 (last (q :: l)))) as Hml.
    { apply Forall_app in Hm as [Hm _]. rewrite Forall_forall in Hm. by apply Hm. }
    assert (p <> pkt) as Hpp.
    { intros ->. apply Hpn. apply elem_of_app. right. by constructor. }
    pose proof (managed_apart _ _ _ Hml Hmp Hlp). pose proof (managed_apart _ _ _ Hmp Hpm Hpp).
    unfold PGSIZE, udp_next in *. rewrite !ldn_stn_ne by lia. apply IH; try done.
Qed.

Lemma sock_get_Ret sock k s :
  st_sockets (k_sockets s) !! sock = Some k -> sock_get sock s = Ret k s.
Proof. unfold sock_get. by intros ->. Qed.
Lemma sock_put_Ret sock k k' s :
  st_sockets (k_sockets s) !! sock = Some k ->
  sock_put sock k' s = Ret tt (set_sockets (with_socket sock k' (k_sockets s)) s).
Proof. unfold sock_put. by intros ->. Qed.

Lemma queue_head m end_ k l :
  KERNBASE <= end_ -> queue_ok m end_ k l ->
  so_rx_head k = default 0 (head l) /\ (so_rx_head k = 0 <-> l = []).
Proof.
  intros He [Hc _ _ Hp]. destruct l as [|p l]; cbn in *; [done|]. destruct Hc as [-> _].
  split; [done|]. apply Forall_inv in Hp as [_ Hp]. unfold KERNBASE in *. split; [lia|done].
Qed.

(** The state after [sock] became [k'] and memory [m']. *)
Definition socket_state (s : kst) (sock : Z) (k' : socket) (m' : mem) : kst :=
  set_sockets (with_socket sock k' (k_sockets s))
    (set_phys (mkPhys m' (ph_pool (k_phys s)) (ph_end (k_phys s))) s).

(** Only link fields of the queue's frames may differ. *)
Definition same_but_links (m m' : mem) (l : list Z) : Prop :=
  forall x, (forall p, p ∈ l -> x < p + udp_next \/ p + udp_next + 8 <= x) -> m' x = m x.

Lemma enqueue_ok s sock k pkt l :
  let m := ph_mem (k_phys s) in let end_ := ph_end (k_phys s) in
  st_sockets (k_sockets s) !! sock = Some k -> sock_lock sock ∉ k_held s -> wf_mem m ->
  KERNBASE <= end_ -> queue_ok m end_ k l -> managed end_ pkt -> pkt ∉ l ->
  exists m' hd, enqueue_udp_packet pkt sock s
    = Ret tt (set_wakeups (k_wakeups s ++ [sock + sock_rx_head]) (socket_state s sock (set_rx k hd pkt) m')) /\
    queue_ok m' end_ (set_rx k hd pkt) (l ++ [pkt]) /\ wf_mem m' /\ same_but_links m m' (l ++ [pkt]).
Proof.
  intros m end_ Hk Hlk Hw He Hq Hpm Hpn.
  destruct (queue_head m end_ k l He Hq) as [Hh1 Hh2].
  assert (NoDup (l ++ [pkt])) as Hnd.
  { apply NoDup_app. split_and!; [apply Hq|intros x Hx Hx'; apply list_elem_of_singleton in Hx' as ->; done|].
    apply NoDup_singleton. }
  assert (Forall (managed end_) (l ++ [pkt])) as Hfm.
  { apply Forall_app. split; [apply Hq|by constructor]. }
  unfold enqueue_udp_packet. erewrite bind_Ret by (apply acquire_ok; exact Hlk).
  erewrite bind_Ret by apply k_setmem_Ret. erewrite bind_Ret by (apply sock_get_Ret; exact Hk).
  destruct (Z.eqb_spec (so_rx_head k) 0) as [E|E].
  - apply Hh2 in E as ->. exists (st64 m (pkt + udp_next) 0), pkt.
    erewrite bind_Ret by (eapply sock_put_Ret; exact Hk). unfold bind at 1, wakeup, modify.
    erewrite release_ok by first [reflexivity | exact Hlk]. split_and!.
    + unfold socket_state. destruct s. reflexivity.
    + split; cbn; [|done|done|done]. split; [done|]. by rewrite ldn_stn_eq.
    + wfm.
    + intros x Hx. apply stn_out. specialize (Hx pkt ltac:(by constructor)). lia.
  - assert (l <> []) as Hne by tauto.
    exists (st64 (st64 m (pkt + udp_next) 0) (so_rx_tail k + udp_next) pkt), (so_rx_head k).
    rewrite bind_assoc. erewrite bind_Ret by apply k_setmem_Ret.
    erewrite bind_Ret by (eapply sock_put_Ret; exact Hk). unfold bind at 1, wakeup, modify.
    erewrite release_ok by first [reflexivity | exact Hlk]. split_and!.
    + unfold socket_state. destruct s. reflexivity.
    + split; cbn [so_rx_head so_rx_tail set_rx]; [|by rewrite last_snoc|done|done].
      rewrite (qo_tail _ _ _ _ Hq). eapply chain_snoc; try done. apply Hq.
    + wfm.
    + intros x Hx. rewrite !stn_out; [done| |].
      * specialize (Hx pkt). rewrite elem_of_app in Hx.
        specialize (Hx ltac:(right; by constructor)). lia.
      * rewrite (qo_tail _ _ _ _ Hq). destruct (last l) as [t|] eqn:El; [|by apply last_None in El].
        specialize (Hx t). rewrite elem_of_app in Hx.
        specialize (Hx ltac:(left; by apply last_Some_elem_of)). cbn. lia.
Qed.

Lemma dequeue_ok s sock k p l :
  let m := ph_mem (k_phys s) in let end_ := ph_end (k_phys s) in
  st_sockets (k_sockets s) !! sock = Some k -> KERNBASE <= end_ ->
  queue_ok m end_ k (p :: l) ->
  exists hd tl, dequeue_udp_packet sock s = Ret p (socket_state s sock (set_rx k hd tl) m) /\
    queue_ok m end_ (set_rx k hd tl) l.
Proof.
  intros m end_ Hk He Hq. destruct (queue_head m end_ k (p :: l) He Hq) as [Hh1 Hh2]. cbn in Hh1.
  destruct Hq as [[_ Hc] Ht Hn Hm]. apply NoDup_cons in Hn as [Hpn Hn]. apply Forall_cons in Hm as [Hmp Hm].
  set (nx := ld64 m (p + udp_next)) in *.
  exists nx, (if nx =? 0 then 0 else so_rx_tail k).
  unfold dequeue_udp_packet. erewrite bind_Ret by (apply sock_get_Ret; exact Hk).
  destruct (Z.eqb_spec (so_rx_head k) 0) as [E|E]; [by apply Hh2 in E|].
  rewrite (bind_Ret _ _ _ _ _ (k_getmem_Ret _ _)). rewrite Hh1. fold m nx.
  erewrite bind_Ret by (eapply sock_put_Ret; exact Hk). split.
  - unfold socket_state, m, ret. destruct s as [[] ? ? ? ? ? ? ? ? ?]. reflexivity.
  - destruct l as [|q l].
    + cbn in Hc. rewrite Hc. split; cbn; done.
    + destruct Hc as [Hc1 Hc2]. apply Forall_inv in Hm as Hmq. destruct Hmq as [_ Hmq].
      assert (q <> 0) as Hq0 by (unfold KERNBASE in *; lia). rewrite Hc1. zb.
      split; cbn [so_rx_head so_rx_tail set_rx]; done.
Qed.

(** ** Receiving *)

(** A user buffer the kernel can write: translated by tables it does not
    overlap, each byte a byte of its own, none of them in the pages [ps]. *)
Record user_buffer (m : mem) (pt va len : Z) (ps : list Z) : Prop := {
  ub_va : 0 <= va;
  ub_mapped : forall i, 0 <= i < len -> mapped m pt (va + i);
  ub_tables : tables_apart m pt va (va + len) (user_byte m pt va (va + len));
  ub_inj : forall a b, va <= a < va + len -> va <= b < va + len ->
    mapped m pt a -> mapped m pt b -> uaddr m pt a = uaddr m pt b -> a = b;
  ub_apart : forall p x, p ∈ ps -> user_byte m pt va (va + len) x -> x < p \/ p + PGSIZE <= x
}.

Definition payload_len (m : mem) (p : Z) : Z := ld32 m (p + udp_payload_len).

Lemma k_copyout_Ret dstva src len s r ph :
  copyout (k_pagetable s) dstva src len (k_phys s) = Ret r ph ->
  k_copyout dstva src len s = Ret r (set_phys ph s).
Proof. intros H. unfold k_copyout. rewrite bind_gets. by rewrite (lift_Ret _ _ _ _ H). Qed.

Lemma k_kfree_Ret p s ph : pg_kfree p (k_phys s) = Ret tt ph -> k_kfree p s = Ret tt (set_phys ph s).
Proof. intros H. unfold k_kfree. by rewrite (lift_Ret _ _ _ _ H). Qed.

Lemma udp_recvfrom_ok s sock k p l buf len flags src alen :
  let m := ph_mem (k_phys s) in let end_ := ph_end (k_phys s) in let n := payload_len m p in
  st_sockets (k_sockets s) !! sock = Some k -> sock_lock sock ∉ k_held s -> wf_mem m ->
  KERNBASE <= end_ -> pool_ok (k_phys s) -> queue_ok m end_ k (p :: l) ->
  live (k_phys s) p -> Pool.refs (ph_pool (k_phys s)) p <= 1 -> 0 <= n <= 1500 ->
  user_buffer m (k_pagetable s) buf n (p :: l) ->
  exists s' k', udp_recvfrom sock buf len flags src alen s = Ret (if n <? len then n else len) s' /\
    (forall i, 0 <= i < n -> ph_mem (k_phys s') (uaddr m (k_pagetable s) (buf + i)) = m (p + udp_payload + i)) /\
    st_sockets (k_sockets s') !! sock = Some k' /\ queue_ok (ph_mem (k_phys s')) end_ k' l /\
    Pool.free (ph_pool (k_phys s')) = p :: Pool.free (ph_pool (k_phys s)) /\ k_held s' = k_held s.
Proof.
  intros m end_ n Hk Hlk Hw He Hpo Hq Hlv Hrf Hn [Uv Um Ut Ui Ua].
  destruct (queue_head m end_ k (p :: l) He Hq) as [_ Hh].
  set (s1 := set_held (sock_lock sock :: k_held s) s).
  destruct (dequeue_ok s1 sock k p l Hk He Hq) as (hd & tl & Hdq & Hq').
  destruct (copyout_spec (k_pagetable s) buf (p + udp_payload) n (k_phys s))
    as (r & ph1 & Hco & Hp1 & He1 & Hw1 & Ho1 & Hr); try done; [lia| | |].
  { intros m' Hm' va Hva. apply upage_stable. intros x Hx. apply Hm'. by apply (Ut va). }
  { intros x Hx Hux. apply (Ua p) in Hux; [|by constructor]. udp_offsets. unfold PGSIZE in *. lia. }
  destruct Hr as [[-> Hr]|[-> (i & Hi & Hnm)]]; [|exfalso; by apply Hnm, Um].
  destruct (pg_kfree_spec ph1 p) as (ph2 & Hkf & Hp2 & He2 & Hf2 & Hr2 & Hw2 & Ho2).
  { unfold pool_ok. by rewrite Hp1, He1. }
  { unfold live. by rewrite Hp1, He1. }
  { by rewrite Hp1. }
  exists (set_phys ph2 (set_sockets (with_socket sock (set_rx k hd tl) (k_sockets s)) s)), (set_rx k hd tl).
  split_and!.
  - unfold udp_recvfrom. erewrite bind_Ret by (apply acquire_ok; exact Hlk).
    erewrite bind_Ret by (apply sock_get_Ret; exact Hk).
    destruct (Z.eqb_spec (so_rx_head k) 0) as [E|_]; [by apply Hh in E|].
    fold s1. rewrite (bind_Ret _ _ _ _ _ Hdq).
    erewrite bind_Ret by (apply release_ok; first [reflexivity | exact Hlk]).
    rewrite (bind_Ret _ _ _ _ _ (k_getmem_Ret _ _)).
    change (ph_mem (k_phys (set_held _ _))) with m. fold (payload_len m p). fold n.
    rewrite s32_small, u64_small by lia.
    erewrite bind_Ret.
    2: { apply k_copyout_Ret. kred. unfold s1, socket_state, m. kred.
         replace (mkPhys (ph_mem (k_phys s)) (ph_pool (k_phys s)) (ph_end (k_phys s))) with (k_phys s)
           by by destruct (k_phys s).
         exact Hco. }
    cbn [Z.ltb Z.compare]. erewrite bind_Ret by (apply k_kfree_Ret; kred; exact Hkf).
    unfold ret. f_equal.
  - intros i Hi. cbn [k_phys set_phys]. destruct (Hr i Hi) as [Hmp Hb].
    rewrite Ho2; [exact Hb|]. apply (Ua p); [by constructor|]. exists (buf + i). split_and!; [lia|lia|done|done].
  - cbn [k_sockets set_phys set_sockets with_socket st_sockets]. apply lookup_insert_eq.
  - cbn [k_phys set_phys]. destruct Hq' as [Hc Ht Hnd Hpg]. split; try assumption.
    pose proof (qo_nodup _ _ _ _ Hq) as Hnd0. apply NoDup_cons in Hnd0 as [Hpl _].
    destruct Hlv as [Hpm _].
    eapply chain_ext; [|exact Hc]. intros q Hql. change (ph_mem (k_phys s1)) with m.
    assert (managed end_ q) as Hqm by (rewrite Forall_forall in Hpg; by apply Hpg).
    assert (q <> p) as Hqp by by intros ->.
    pose proof (managed_apart _ _ _ Hqm Hpm Hqp). unfold PGSIZE in *.
    apply ldn_ext. intros x Hx. udp_offsets. rewrite Ho2, Ho1; [done| |unfold PGSIZE; lia].
    intros Hux. apply (Ua q) in Hux; [unfold PGSIZE in *; lia|by constructor].
  - cbn [k_phys set_phys]. by rewrite Hf2, Hp1.
  - done.
Qed.

(** ** Properties *)

(** C30: a datagram made by build_udp carries a checksum that verifies over the
    pseudo-header, header and payload, and parse_udp_packet reads back from the
    received bytes the ports, the length and the payload it was built with. *)
Theorem udp_roundtrip m udp sp dp pay len sip dip pkt :
  wf_mem m -> 0 <= sp < 2 ^ 16 -> 0 <= dp < 2 ^ 16 -> 0 <= len <= 1500 ->
  pay + len <= udp \/ udp + 1512 <= pay -> udp + 1512 <= pkt \/ pkt + 1512 <= udp ->
  let b := build_udp m udp sp (htons dp) pay len sip dip in
  udp_checksum b sip dip udp (udp + udp_payload) len = 0 /\
  exists m', parse_udp_packet b udp (len + 8) pkt = (m', 0) /\
    ld16 m' (pkt + udp_src_port) = sp /\ ld16 m' (pkt + udp_dst_port) = dp /\
    ld16 m' (pkt + udp_len) = len + 8 /\ payload_len m' pkt = len /\
    ldbytes m' (pkt + udp_payload) (Z.to_nat len) = ldbytes m pay (Z.to_nat len).
Proof.
  intros Hw Hs Hd Hl Hp Ha b. split; [by apply build_udp_checksum|].
  destruct (build_udp_fields m udp sp (htons dp) pay len sip dip) as (F1 & F2 & F3 & _);
    [done|done|apply htons_range|done|]. fold b in F1, F2, F3. udp_offsets.
  assert (wf_mem b) by (apply build_udp_wf; [done|lia]).
  destruct (parse_udp_packet_spec b udp (len + 8) pkt) as (m' & -> & _ & _ & Hok); [done|lia|lia|].
  rewrite F3, ntohs_htons in * by lia.
  replace ((8 <=? len + 8) && (8 <=? len + 8) && (len + 8 <=? len + 8)) with true in * by by zb.
  destruct (Hok eq_refl) as (G1 & G2 & G3 & G4 & G5). rewrite Z.add_0_r in F1. udp_offsets.
  exists m'. split_and!; try done.
  - by rewrite G1, F1, ntohs_htons.
  - by rewrite G2, F2, ntohs_htons.
  - unfold payload_len. udp_offsets. rewrite G4. lia.
  - apply ldbytes_ext. intros i Hi. rewrite G5 by lia. apply build_udp_payload; auto; lia.
Qed.

Lemma udp_roundtrip_witness :
  exists m', parse_udp_packet (build_udp ramp 0x1022 7 (htons 9) 0x3000 25 0x0a0a000a 0x0b0a000a) 0x1022 33 0x2000
    = (m', 0) /\ ld16 m' (0x2000 + udp_dst_port) = 9.
Proof.
  destruct (udp_roundtrip ramp 0x1022 7 9 0x3000 25 0x0a0a000a 0x0b0a000a 0x2000)
    as (_ & m' & H1 & _ & H2 & _); try lia.
  - intros a. apply Z.mod_pos_bound. lia.
  - exists m'. split; [exact H1 | exact H2].
Defined.

(** Histories of the queue. *)
Fixpoint enqueue_all (pkts : list Z) (sock : Z) : M kst unit :=
  match pkts with
  | [] => ret tt
  | p :: pkts => enqueue_udp_packet p sock ;;; enqueue_all pkts sock
  end.
Fixpoint dequeue_all (n : nat) (sock : Z) : M kst (list Z) :=
  match n with
  | O => ret []
  | S n => p <- dequeue_udp_packet sock ;; l <- dequeue_all n sock ;; ret (p :: l)
  end.

Lemma enqueue_all_ok pkts s sock k l :
  st_sockets (k_sockets s) !! sock = Some k -> sock_lock sock ∉ k_held s -> wf_mem (ph_mem (k_phys s)) ->
  KERNBASE <= ph_end (k_phys s) -> queue_ok (ph_mem (k_phys s)) (ph_end (k_phys s)) k l ->
  NoDup (l ++ pkts) -> Forall (managed (ph_end (k_phys s))) pkts ->
  exists s' k', enqueue_all pkts sock s = Ret tt s' /\ st_sockets (k_sockets s') !! sock = Some k' /\
    ph_end (k_phys s') = ph_end (k_phys s) /\
    queue_ok (ph_mem (k_phys s')) (ph_end (k_phys s)) k' (l ++ pkts) /\
    same_but_links (ph_mem (k_phys s)) (ph_mem (k_phys s')) (l ++ pkts).
Proof.
  revert s k l. induction pkts as [|p pkts IH]; intros s k l Hk Hlk Hw He Hq Hnd Hm.
  { exists s, k. rewrite app_nil_r. cbn. split_and!; done. }
  apply Forall_cons in Hm as [Hmp Hm].
  destruct (enqueue_ok s sock k p l Hk Hlk Hw He Hq Hmp) as (m' & hd & HR & Hq' & Hw' & Hsb).
  { intros Hin. apply NoDup_app in Hnd as (_ & Hd & _). apply (Hd p Hin). by constructor. }
  cbn [enqueue_all]. rewrite (bind_Ret _ _ _ _ _ HR).
  set (s1 := set_wakeups _ _). rewrite cons_middle, app_assoc in Hnd |- *.
  destruct (IH s1 (set_rx k hd p) (l ++ [p])) as (s' & k' & HR' & Hk' & He' & Hq'' & Hsb'); try done.
  { kred. cbn. apply lookup_insert_eq. }
  exists s', k'. split_and!; try done. intros x Hx. rewrite Hsb' by done. apply Hsb.
  intros q Hq0. apply Hx. apply elem_of_app. by left.
Qed.

Lemma dequeue_all_ok s sock k l :
  st_sockets (k_sockets s) !! sock = Some k -> KERNBASE <= ph_end (k_phys s) ->
  queue_ok (ph_mem (k_phys s)) (ph_end (k_phys s)) k l ->
  exists s' k', dequeue_all (length l) sock s = Ret l s' /\ st_sockets (k_sockets s') !! sock = Some k' /\
    so_rx_head k' = 0 /\ so_rx_tail k' = 0 /\ ph_mem (k_phys s') = ph_mem (k_phys s).
Proof.
  revert s k. induction l as [|p l IH]; intros s k Hk He Hq.
  { exists s, k. destruct Hq as [Hc Ht _ _]. done. }
  destruct (dequeue_ok s sock k p l Hk He Hq) as (hd & tl & HR & Hq').
  set (s1 := socket_state _ _ _ _) in HR.
  destruct (IH s1 (set_rx k hd tl)) as (s' & k' & HR' & Hk' & H1 & H2 & H3); try done.
  { cbn. apply lookup_insert_eq. }
  exists s', k'. cbn [length dequeue_all]. rewrite (bind_Ret _ _ _ _ _ HR), (bind_Ret _ _ _ _ _ HR'). done.
Qed.

(** The receive queue of a socket is a FIFO: frames handed to
    enqueue_udp_packet come out of dequeue_udp_packet in the same order, the
    queue is then empty again, and no byte of a frame other than its link
    field changes in between. *)
Lemma udp_queue_fifo s sock k pkts :
  st_sockets (k_sockets s) !! sock = Some k -> sock_lock sock ∉ k_held s -> wf_mem (ph_mem (k_phys s)) ->
  KERNBASE <= ph_end (k_phys s) -> so_rx_head k = 0 -> so_rx_tail k = 0 ->
  NoDup pkts -> Forall (managed (ph_end (k_phys s))) pkts ->
  exists s' k', (enqueue_all pkts sock ;;; dequeue_all (length pkts) sock) s = Ret pkts s' /\
    st_sockets (k_sockets s') !! sock = Some k' /\ so_rx_head k' = 0 /\ so_rx_tail k' = 0 /\
    same_but_links (ph_mem (k_phys s)) (ph_mem (k_phys s')) pkts.
Proof.
  intros Hk Hlk Hw He Hh Ht Hnd Hm.
  destruct (enqueue_all_ok pkts s sock k []) as (s1 & k1 & H1 & Hk1 & He1 & Hq1 & Hsb); try done.
  { split; cbn; try done. constructor. }
  destruct (dequeue_all_ok s1 sock k1 pkts) as (s' & k' & H2 & Hk' & Hh' & Ht' & Hm'); try by rewrite ?He1.
  exists s', k'. rewrite (bind_Ret _ _ _ _ _ H1). split_and!; try done. by rewrite Hm'.
Qed.

(** A kernel with a bound UDP socket at 0x87ff3000, one datagram of [n] bytes
    queued at 0x87ff5000, and the user page of Vm.v mapped. *)
Definition demo_socket (head : Z) : socket :=
  mkSocket 0 0x0a0a000a 0 7 0 IPPROTO_UDP SOCK_DGRAM AF_INET BOUND 3 udp_ops head head.
Definition demo_mem (n : Z) : mem :=
  st64 (st32 one_user_page (0x87ff5000 + udp_payload_len) n) (0x87ff5000 + udp_next) 0.
Definition demo_kernel (head n : Z) : kst :=
  mkKst (mkPhys (demo_mem n) (Pool.mkPool [0x87fff000; 0x87ffe000] (fun _ => 0)) 0x87ff0000)
        (k_netconf idle_kernel) (k_arp idle_kernel)
        (mkSockets (<[7%nat := 0x87ff6000]> (replicate 512 0)) (replicate 512 0)
           {[0x87ff6000 := mkPortBinding 0x000a 7 0x87ff3000]} {[0x87ff3000 := demo_socket head]} None None None)
        (k_net idle_kernel) [] [] [] 0x80100000 0x87ff2000.

Lemma demo_mem_wf n : wf_mem (demo_mem n).
Proof. unfold demo_mem. apply stn_wf, stn_wf, one_user_page_wf. Qed.

Lemma demo_tables n : user_tables (demo_mem n).
Proof. intros x Hx. unfold demo_mem. udp_offsets. by rewrite !stn_out by lia. Qed.

Lemma demo_managed p : p mod PGSIZE = 0 -> 0x87ff0000 <= p < 0x88000000 -> managed 0x87ff0000 p.
Proof. intros. split; [done|]. unfold PHYSTOP, KERNBASE. lia. Qed.

Lemma demo_queue n : queue_ok (demo_mem n) 0x87ff0000 (demo_socket 0x87ff5000) [0x87ff5000].
Proof.
  split; cbn.
  - split; [done|]. unfold demo_mem. by rewrite ldn_stn_eq.
  - done.
  - apply NoDup_singleton.
  - constructor; [|constructor]. by apply demo_managed.
Qed.

Lemma tables_buffer m len ps :
  user_tables m -> 0 <= len <= 1500 -> Forall (fun p => 0x80200000 <= p) ps ->
  user_buffer m 0x80100000 100 len ps.
Proof.
  intros Hm Hl Hps. assert (forall va, 100 <= va < 100 + len -> 0 <= va < PGSIZE) as Hr
    by (intros; unfold PGSIZE; lia).
  split; [lia| | | |].
  - intros i Hi. apply user_tables_mapped; [exact Hm|apply Hr; lia].
  - intros va x Hva Hx (va' & Hva' & _ & ->). apply user_tables_walk in Hx; [|exact Hm|by apply Hr].
    rewrite user_tables_addr in Hx by (exact Hm || by apply Hr). lia.
  - intros a b Ha Hb _ _. rewrite !user_tables_addr by (exact Hm || by apply Hr). lia.
  - intros p x Hp (va & Hva & _ & ->). rewrite Forall_forall in Hps. apply Hps in Hp.
    rewrite user_tables_addr by (exact Hm || by apply Hr). lia.
Qed.

Lemma demo_buffer n len ps :
  0 <= len <= 1500 -> Forall (fun p => 0x80200000 <= p) ps ->
  user_buffer (demo_mem n) 0x80100000 100 len ps.
Proof. apply tables_buffer, demo_tables. Qed.

(** udp_recvfrom takes the oldest datagram of the queue, copies its payload
    to the user's buffer, frees the frame and answers the number of bytes that
    were asked for and available. *)
Lemma udp_recvfrom_delivers s sock k p l buf len flags src alen :
  let m := ph_mem (k_phys s) in let end_ := ph_end (k_phys s) in let n := payload_len m p in
  st_sockets (k_sockets s) !! sock = Some k -> sock_lock sock ∉ k_held s -> wf_mem m ->
  KERNBASE <= end_ -> pool_ok (k_phys s) -> queue_ok m end_ k (p :: l) ->
  live (k_phys s) p -> Pool.refs (ph_pool (k_phys s)) p <= 1 -> 0 <= n <= 1500 -> n <= len ->
  user_buffer m (k_pagetable s) buf n (p :: l) ->
  exists s' k', udp_recvfrom sock buf len flags src alen s = Ret n s' /\
    (forall i, 0 <= i < n -> ph_mem (k_phys s') (uaddr m (k_pagetable s) (buf + i)) = m (p + udp_payload + i)) /\
    st_sockets (k_sockets s') !! sock = Some k' /\ queue_ok (ph_mem (k_phys s')) end_ k' l /\
    Pool.free (ph_pool (k_phys s')) = p :: Pool.free (ph_pool (k_phys s)) /\ k_held s' = k_held s.
Proof.
  intros m end_ n Hk Hlk Hw He Hpo Hq Hlv Hrf Hn Hlen Hub.
  destruct (udp_recvfrom_ok s sock k p l buf len flags src alen) as (s' & k' & HR & Hrest); try done.
  exists s', k'. split; [|exact Hrest]. rewrite HR. fold m n. destruct (Z.ltb_spec n len); f_equal; lia.
Qed.

(** The copy is bounded by the datagram, not by the buffer: when the buffer
    is shorter, udp_recvfrom answers its length but has overwritten the user
    memory after it. *)
Lemma udp_recvfrom_overruns_buffer s sock k p l buf len flags src alen :
  let m := ph_mem (k_phys s) in let end_ := ph_end (k_phys s) in let n := payload_len m p in
  st_sockets (k_sockets s) !! sock = Some k -> sock_lock sock ∉ k_held s -> wf_mem m ->
  KERNBASE <= end_ -> pool_ok (k_phys s) -> queue_ok m end_ k (p :: l) ->
  live (k_phys s) p -> Pool.refs (ph_pool (k_phys s)) p <= 1 -> 0 <= n <= 1500 ->
  user_buffer m (k_pagetable s) buf n (p :: l) -> 0 <= len < n ->
  exists s', udp_recvfrom sock buf len flags src alen s = Ret len s' /\
    forall i, len <= i < n ->
      ph_mem (k_phys s') (uaddr m (k_pagetable s) (buf + i)) = m (p + udp_payload + i).
Proof.
  intros m end_ n Hk Hlk Hw He Hpo Hq Hlv Hrf Hn Hub Hlen.
  destruct (udp_recvfrom_ok s sock k p l buf len flags src alen) as (s' & k' & HR & Hb & _); try done.
  exists s'. split; [|intros i Hi; apply Hb; unfold n, m in *; lia].
  rewrite HR. fold m n. by zb.
Qed.

(** ** Binding and demultiplexing *)

Lemma insert_udp_binding s f b k l :
  st_bindings (k_sockets s) !! f = Some b -> st_sockets (k_sockets s) !! pb_sock b = Some k ->
  so_proto k = IPPROTO_UDP -> zset (st_udp_binds (k_sockets s)) (pb_port b) f = Some l ->
  port_binds_lock ∉ k_held s ->
  insert_port_binding f s = Ret 0 (set_sockets (set_udp_binds l (k_sockets s)) s).
Proof.
  intros Hb Hk Hp Hz Hlk. unfold insert_port_binding.
  erewrite bind_Ret by (apply acquire_ok; exact Hlk).
  erewrite bind_Ret by (unfold binding_get; kred; by rewrite Hb).
  erewrite bind_Ret by (apply sock_get_Ret; exact Hk). rewrite Hp.
  change (IPPROTO_UDP =? IPPROTO_TCP) with false. change (IPPROTO_UDP =? IPPROTO_UDP) with true. cbn iota.
  erewrite bind_Ret by (unfold set_udp_bind; kred; by rewrite Hz).
  erewrite bind_Ret by (apply release_ok; first [reflexivity | exact Hlk]).
  unfold ret. by destruct s.
Qed.

(** The address a bind installs. *)
Definition bind_ip (s : kst) (addr : Z) : Z :=
  let a := ld32 (ph_mem (k_phys s)) (addr + sin_addr) in
  if a =? INADDR_ANY then nc_ip_addr (k_netconf s) else a.
Definition bind_port (s : kst) (addr : Z) : Z := ntohs (ld16 (ph_mem (k_phys s)) (addr + sin_port)).

Lemma udp_bind_ok s sock k addr f l :
  st_sockets (k_sockets s) !! sock = Some k -> sock <> 0 -> addr <> 0 ->
  so_family k = AF_INET -> so_proto k = IPPROTO_UDP ->
  0 < bind_port s addr < MAX_PORT_BINDINGS -> length (st_udp_binds (k_sockets s)) = 512%nat ->
  znth (st_udp_binds (k_sockets s)) (bind_port s addr) = Some 0 ->
  Pool.free (ph_pool (k_phys s)) = f :: l -> f <> 0 -> addr + 16 <= f \/ f + PGSIZE <= addr ->
  port_binds_lock ∉ k_held s ->
  exists binds, zset (st_udp_binds (k_sockets s)) (bind_port s addr) f = Some binds /\
    udp_bind sock addr SOCKADDR_IN_SIZE s = Ret 0
      (set_sockets
         (mkSockets binds (st_tcp_binds (k_sockets s))
            (<[f := mkPortBinding (u16 (bind_ip s addr)) (bind_port s addr) sock]> (st_bindings (k_sockets s)))
            (<[sock := set_bound (set_src_ip k (s32 (bind_ip s addr))) (bind_port s addr) BOUND]>
               (st_sockets (k_sockets s)))
            (st_sock_list (k_sockets s)) (st_tcp_list (k_sockets s)) (st_udp_list (k_sockets s)))
         (set_phys (mkPhys (memset (ph_mem (k_phys s)) f 5 PGSIZE)
            (Pool.mkPool l (Pool.set_ref (Pool.refs (ph_pool (k_phys s))) f 1)) (ph_end (k_phys s))) s)).
Proof.
  intros Hk Hs0 Ha0 Hfam Hpr Hport Hlen Hfree0 Hf Hf0 Hap Hlk. unfold MAX_PORT_BINDINGS in *.
  rewrite zset_Some by (rewrite Hlen; lia). eexists. split; [reflexivity|].
  unfold udp_bind. zb. rewrite (bind_Ret _ _ _ _ _ (k_getmem_Ret _ _)). fold (bind_port s addr).
  unfold MAX_PORT_BINDINGS. zb. cbn [orb].
  erewrite bind_Ret by (unfold udp_bind_at; by rewrite Hfree0). cbn [Z.eqb negb].
  erewrite bind_Ret by (apply sock_get_Ret; exact Hk). rewrite Hfam.
  change (AF_INET =? AF_INET) with true. change (SOCKADDR_IN_SIZE =? SOCKADDR_IN_SIZE) with true. cbn [negb].
  erewrite bind_Ret by (apply k_kalloc_cons; exact Hf). zb.
  rewrite (bind_Ret _ _ _ _ _ (k_getmem_Ret _ _)), bind_gets. kred.
  rewrite ldn_memset_ne by (unfold sin_addr, PGSIZE in *; lia). fold (bind_ip s addr).
  erewrite bind_Ret by (eapply sock_put_Ret; exact Hk). kred.
  unfold bind at 1, binding_put, modify. kred.
  erewrite bind_Ret.
  2: { eapply insert_udp_binding; kred; cbn [st_bindings st_sockets st_udp_binds pb_sock pb_port set_bindings].
       - apply lookup_insert_eq.
       - apply lookup_insert_eq.
       - exact Hpr.
       - apply zset_Some. rewrite Hlen. cbn [pb_port]. lia.
       - exact Hlk. }
  change (0 =? -1) with false. cbn iota.
  erewrite bind_Ret by (apply sock_get_Ret; kred; cbn [st_sockets set_bindings set_udp_binds]; apply lookup_insert_eq).
  erewrite bind_Ret by (eapply sock_put_Ret; kred; cbn [st_sockets set_bindings set_udp_binds]; apply lookup_insert_eq).
  unfold ret. do 2 f_equal. unfold set_sockets, with_socket, set_udp_binds, set_bindings. kred.
  cbn [st_udp_binds st_tcp_binds st_bindings st_sockets st_sock_list st_tcp_list st_udp_list].
  by rewrite insert_insert_eq.
Qed.

(** A datagram for a bound port joins the queue of the socket bound there. *)
Lemma handle_udp_packet_ok s pkt port b bd k l :
  let m := ph_mem (k_phys s) in let end_ := ph_end (k_phys s) in
  ld16 m (pkt + udp_dst_port) = port -> 0 <= port < MAX_PORT_BINDINGS ->
  znth (st_udp_binds (k_sockets s)) port = Some b -> b <> 0 ->
  st_bindings (k_sockets s) !! b = Some bd -> st_sockets (k_sockets s) !! pb_sock bd = Some k ->
  so_proto k = IPPROTO_UDP -> port_binds_lock ∉ k_held s -> sock_lock (pb_sock bd) ∉ k_held s ->
  wf_mem m -> KERNBASE <= end_ -> queue_ok m end_ k l -> managed end_ pkt -> pkt ∉ l ->
  exists m' hd, handle_udp_packet pkt s
    = Ret 0 (set_wakeups (k_wakeups s ++ [pb_sock bd + sock_rx_head])
               (socket_state s (pb_sock bd) (set_rx k hd pkt) m')) /\
    queue_ok m' end_ (set_rx k hd pkt) (l ++ [pkt]) /\ wf_mem m' /\ same_but_links m m' (l ++ [pkt]).
Proof.
  intros m end_ Hdp Hport Hb Hb0 Hbd Hk Hpr Hlk1 Hlk2 Hw He Hq Hm Hn.
  destruct (enqueue_ok s (pb_sock bd) k pkt l Hk Hlk2 Hw He Hq Hm Hn) as (m' & hd & HR & Hrest).
  exists m', hd. split; [|exact Hrest]. unfold handle_udp_packet.
  rewrite (bind_Ret _ _ _ _ _ (k_getmem_Ret _ _)). fold m. rewrite Hdp.
  unfold MAX_PORT_BINDINGS in *. zb. cbn [orb].
  erewrite bind_Ret by (apply acquire_ok; exact Hlk1).
  erewrite bind_Ret by (unfold udp_bind_at; kred; by rewrite Hb). zb.
  erewrite bind_Ret by (unfold binding_get; kred; by rewrite Hbd).
  erewrite bind_Ret by (apply release_ok; first [reflexivity | exact Hlk1]).
  replace (set_held (k_held s) (set_held (port_binds_lock :: k_held s) s)) with s by by destruct s.
  erewrite bind_Ret by (apply sock_get_Ret; exact Hk). rewrite Hpr.
  change (IPPROTO_UDP =? IPPROTO_UDP) with true. unfold when. destruct s; cbn in *; rewrite (bind_Ret _ _ _ _ _ HR). done.
Qed.

(** Once udp_bind has bound a port, a datagram for that port is queued on
    the bound socket behind what it already holds, and its reader is woken. *)
Lemma udp_bind_then_receive s sock k addr f l pkt q :
  let m := ph_mem (k_phys s) in let end_ := ph_end (k_phys s) in
  st_sockets (k_sockets s) !! sock = Some k -> sock <> 0 -> addr <> 0 ->
  so_family k = AF_INET -> so_proto k = IPPROTO_UDP ->
  0 < bind_port s addr < MAX_PORT_BINDINGS -> length (st_udp_binds (k_sockets s)) = 512%nat ->
  znth (st_udp_binds (k_sockets s)) (bind_port s addr) = Some 0 ->
  pool_ok (k_phys s) -> Pool.free (ph_pool (k_phys s)) = f :: l ->
  Forall (live (k_phys s)) (pkt :: q) -> addr + 16 <= f \/ f + PGSIZE <= addr ->
  k_held s = [] -> wf_mem m -> KERNBASE <= end_ -> queue_ok m end_ k q -> pkt ∉ q ->
  ld16 m (pkt + udp_dst_port) = bind_port s addr ->
  exists s' k', (udp_bind sock addr SOCKADDR_IN_SIZE ;;; handle_udp_packet pkt) s = Ret 0 s' /\
    st_sockets (k_sockets s') !! sock = Some k' /\ so_state k' = BOUND /\ so_src_port k' = bind_port s addr /\
    queue_ok (ph_mem (k_phys s')) end_ k' (q ++ [pkt]) /\
    k_wakeups s' = k_wakeups s ++ [sock + sock_rx_head].
Proof.
  intros m end_ Hk Hs0 Ha0 Hfam Hpr Hport Hlen Hz Hpo Hf Hlv Hap Hh Hw He Hq Hn Hdp.
  destruct (pg_kalloc_spec (k_phys s) Hpo) as [[E _]|(f' & ph & _ & _ & Hmf & _ & _ & _ & Hfr & _ & _ & Hap')];
    [congruence|]. rewrite Hf in Hfr. injection Hfr as <- _.
  assert (f <> 0) as Hf0 by (destruct Hmf; unfold KERNBASE in *; lia).
  destruct (udp_bind_ok s sock k addr f l) as (binds & Hzs & HB); try done; [by rewrite Hh; apply not_elem_of_nil|].
  rewrite (bind_Ret _ _ _ _ _ HB). set (s1 := set_sockets _ _).
  assert (forall p, p ∈ pkt :: q -> p + PGSIZE <= f \/ f + PGSIZE <= p) as Hapart.
  { intros p Hp. rewrite Forall_forall in Hlv. by apply Hap', Hlv. }
  assert (queue_ok (memset m f 5 PGSIZE) end_ (set_bound (set_src_ip k (s32 (bind_ip s addr))) (bind_port s addr) BOUND) q) as Hq1.
  { destruct Hq as [Hc Ht Hnd Hpg]. split; try done. eapply chain_ext; [|exact Hc].
    intros p Hp. apply ldn_memset_ne. specialize (Hapart p ltac:(by constructor)).
    udp_offsets. unfold PGSIZE in *. lia. }
  destruct (handle_udp_packet_ok s1 pkt (bind_port s addr) f
    (mkPortBinding (u16 (bind_ip s addr)) (bind_port s addr) sock)
    (set_bound (set_src_ip k (s32 (bind_ip s addr))) (bind_port s addr) BOUND) q) as (m' & hd & HR & Hq' & _).
  - cbn. rewrite ldn_memset_ne; [exact Hdp|]. specialize (Hapart pkt ltac:(by constructor)).
    udp_offsets. unfold PGSIZE in *. lia.
  - lia.
  - cbn. by apply znth_zset_eq in Hzs.
  - exact Hf0.
  - cbn. apply lookup_insert_eq.
  - cbn. apply lookup_insert_eq.
  - exact Hpr.
  - cbn. rewrite Hh. apply not_elem_of_nil.
  - cbn. rewrite Hh. apply not_elem_of_nil.
  - apply memset_wf. exact Hw.
  - exact He.
  - exact Hq1.
  - apply Forall_inv in Hlv as [Hlv _]. exact Hlv.
  - exact Hn.
  - eexists _, _. split; [exact HR|]. cbn. split; [apply lookup_insert_eq|].
    split; [reflexivity|]. split; [reflexivity|]. split; [exact Hq'|reflexivity].
Qed.

(** C31: every refused bind answers -1 and leaves the kernel as it was: a null
    socket or address, a port outside 1..511 or already bound, an address
    family or length that is not IPv4's, no page for the binding. *)
Theorem udp_bind_refused s sock addr addrlen :
  length (st_udp_binds (k_sockets s)) = 512%nat ->
  (sock <> 0 -> addr <> 0 -> exists k, st_sockets (k_sockets s) !! sock = Some k /\
     (0 < bind_port s addr < MAX_PORT_BINDINGS ->
      znth (st_udp_binds (k_sockets s)) (bind_port s addr) <> Some 0 \/
      so_family k <> AF_INET \/ addrlen <> SOCKADDR_IN_SIZE \/ Pool.free (ph_pool (k_phys s)) = [])) ->
  udp_bind sock addr addrlen s = Ret (-1) s.
Proof.
  intros Hlen H. unfold udp_bind. destruct (Z.eqb_spec sock 0); [done|]. destruct (Z.eqb_spec addr 0); [done|].
  destruct (H ltac:(done) ltac:(done)) as (k & Hk & Hc). clear H.
  rewrite (bind_Ret _ _ _ _ _ (k_getmem_Ret _ _)). fold (bind_port s addr).
  destruct (Z.leb_spec (bind_port s addr) 0), (Z.leb_spec MAX_PORT_BINDINGS (bind_port s addr)); try done.
  cbn [orb]. specialize (Hc ltac:(lia)). unfold MAX_PORT_BINDINGS in *.
  destruct (znth_is_Some (st_udp_binds (k_sockets s)) (bind_port s addr)) as [v Hv]; [rewrite Hlen; lia|].
  erewrite bind_Ret by (unfold udp_bind_at; by rewrite Hv).
  destruct (Z.eqb_spec v 0) as [->|]; [|done]. cbn [negb].
  erewrite bind_Ret by (apply sock_get_Ret; exact Hk).
  destruct (Z.eqb_spec (so_family k) AF_INET); [|done].
  destruct (Z.eqb_spec addrlen SOCKADDR_IN_SIZE); [|done]. cbn [negb].
  destruct Hc as [Hc|[Hc|[Hc|Hc]]]; [congruence|congruence|congruence|].
  by erewrite bind_Ret by (apply k_kalloc_nil; exact Hc).
Qed.

(** On an empty queue udp_recvfrom sleeps on the address of rx_head with
    the socket unlocked; the arrival of a datagram wakes that channel, and the
    woken reader then receives it. *)
Lemma udp_recvfrom_wakes s sock k p buf len flags src alen :
  let m := ph_mem (k_phys s) in let end_ := ph_end (k_phys s) in let n := payload_len m p in
  st_sockets (k_sockets s) !! sock = Some k -> sock_lock sock ∉ k_held s -> wf_mem m ->
  KERNBASE <= end_ -> pool_ok (k_phys s) -> queue_ok m end_ k [] ->
  live (k_phys s) p -> Pool.refs (ph_pool (k_phys s)) p <= 1 -> 0 <= n <= 1500 -> n <= len ->
  (forall m', same_but_links m m' [p] -> user_buffer m' (k_pagetable s) buf n [p]) ->
  exists s1 s2, udp_recvfrom sock buf len flags src alen s = Blocked (sock + sock_rx_head) s /\
    enqueue_udp_packet p sock s = Ret tt s1 /\ k_wakeups s1 = k_wakeups s ++ [sock + sock_rx_head] /\
    udp_recvfrom sock buf len flags src alen s1 = Ret n s2.
Proof.
  intros m end_ n Hk Hlk Hw He Hpo Hq Hlv Hrf Hn Hlen Hub.
  destruct (queue_head m end_ k [] He Hq) as [Hh _]. cbn in Hh.
  destruct (enqueue_ok s sock k p [] Hk Hlk Hw He Hq (proj1 Hlv)) as (m' & hd & HR & Hq' & Hw' & Hsb).
  { apply not_elem_of_nil. }
  set (s1 := set_wakeups _ _) in HR.
  assert (payload_len m' p = n) as Hn'.
  { unfold payload_len, n. apply ldn_ext. intros x Hx. apply Hsb. intros q Hq0.
    apply list_elem_of_singleton in Hq0 as ->. udp_offsets. lia. }
  destruct (udp_recvfrom_ok s1 sock (set_rx k hd p) p [] buf len flags src alen)
    as (s2 & k2 & HR2 & _); try done.
  - kred. cbn. apply lookup_insert_eq.
  - change (ph_mem (k_phys s1)) with m'. by rewrite Hn'.
  - change (ph_mem (k_phys s1)) with m'. rewrite Hn'. by apply Hub.
  - exists s1, s2. split_and!; [|exact HR|done|].
    + unfold udp_recvfrom. erewrite bind_Ret by (apply acquire_ok; exact Hlk).
      erewrite bind_Ret by (apply sock_get_Ret; exact Hk). rewrite Hh. cbn [Z.eqb].
      erewrite bind_Ret by (apply release_ok; first [reflexivity | exact Hlk]). by destruct s.
    + rewrite HR2. change (ph_mem (k_phys s1)) with m'. rewrite Hn'. destruct (Z.ltb_spec n len); f_equal; lia.
Qed.

(** The same kernel with a socket address for port 9 at 0x87ff4000 and a
    received datagram for that port at 0x87ff8000. *)
Definition bind_mem : mem :=
  st16 (st32 (st16 (demo_mem 40) (0x87ff4000 + sin_port) (htons 9)) (0x87ff4000 + sin_addr) 0)
    (0x87ff8000 + udp_dst_port) 9.
Definition bind_kernel : kst :=
  set_phys (mkPhys bind_mem (Pool.mkPool [0x87fff000; 0x87ffe000] (fun _ => 0)) 0x87ff0000) (demo_kernel 0 40).

Lemma bind_mem_wf : wf_mem bind_mem.
Proof. unfold bind_mem. do 3 apply stn_wf. apply demo_mem_wf. Qed.

Lemma udp_bind_refused_witness :
  udp_bind 0x87ff3000 0x87ff4000 8 bind_kernel = Ret (-1) bind_kernel.
Proof.
  apply udp_bind_refused; [reflexivity|]. intros _ _. exists (demo_socket 0).
  split; [reflexivity|]. intros _. right. right. left. vm_compute. discriminate.
Defined.

