(* ===== verification/UdpSend.v ===== *)
(** * Sending a datagram: udp_sendto() of kernel/sys/udp.c

    The Ethernet, IPv4 and UDP headers that udp_sendto builds in one page, as
    the list of bytes the device is offered; the wait for an ARP answer; and
    what becomes of a negative length. *)
From S2P Require Import Prelude Mem StringC Net Kalloc Page Vm KState Eth Ip4 VirtioNet Arp Ports Udp.
From Stdlib Require Import ZArith Lia.
From stdpp Require Import strings.
Local Open Scope list_scope.
Local Open Scope Z_scope.
Local Open Scope kernel_scope.

(** ** Datagrams as lists of bytes *)

Definition le16 (v : Z) : list Z := [v mod 256; v / 256].

(** An IPv4 header without options; [csum] as the two bytes in memory order. *)
Definition ip4_bytes (total proto csum src dst : Z) : list Z :=
  [0x45; 0] ++ be16 total ++ be16 0 ++ be16 0 ++ [64; proto] ++ le16 csum ++ le32 src ++ le32 dst.

(** A UDP header; the destination port as the socket address holds it. *)
Definition udp_bytes (sport dport len csum : Z) : list Z :=
  be16 sport ++ le16 dport ++ be16 len ++ le16 csum.

Definition udp_packet (dmac smac : list Z) (sip dip sport dport c1 c2 : Z) (data : list Z) : list Z :=
  let n := Z.of_nat (length data) in
  dmac ++ smac ++ be16 PROTO_IPV4 ++ ip4_bytes (n + 28) IPPROTO_UDP c1 sip dip
  ++ udp_bytes sport dport (n + 8) c2 ++ data.

(** A memory that holds just these bytes, at address 0. *)
Definition mem_of (l : list Z) : mem := fun a => default 0 (znth l a).

Lemma holds_st16 m a v : 0 <= v < 2 ^ 16 -> holds (st16 m a v) a (le16 v).
Proof.
  intros Hv. unfold le16. rewrite !holds_cons, st16_bytes, st8_ne, !st8_eq by lia.
  rewrite (u8_small (v / 256)) by dlia. split_and!; [done..|apply holds_nil].
Qed.

Lemma holds_le16 m a v : 0 <= v < 2 ^ 16 -> holds m a (le16 v) -> ld16 m a = v.
Proof.
  intros Hv. unfold le16. rewrite !holds_cons, ld16_bytes. intros (-> & -> & _). dlia.
Qed.

Lemma holds_le32 m a v : 0 <= v < 2 ^ 32 -> holds m a (le32 v) -> ld32 m a = v.
Proof.
  intros Hv H. rewrite <- (ld32_mod v Hv), <- (ldn_stn_eq 4 m a v).
  apply ldn_ext. intros x Hx. pose proof (holds_st32 m a v) as H'.
  assert (exists i, x = a + Z.of_nat i /\ (i < 4)%nat) as (i & -> & Hi) by (exists (Z.to_nat (x - a)); lia).
  destruct (list_lookup_Some_lt (le32 v) i) as [b Hb]; [done|].
  by rewrite (holds_lookup _ _ _ _ _ H Hb), (holds_lookup _ _ _ _ _ H' Hb).
Qed.

Lemma holds_ld16 m a : wf_mem m -> holds m a (le16 (ld16 m a)).
Proof.
  intros Hw. unfold le16. rewrite !holds_cons, ld16_bytes. pose proof (Hw a). pose proof (Hw (a + 1)).
  split_and!; [dlia|dlia|apply holds_nil].
Qed.

Lemma le16_bytes v : 0 <= v < 2 ^ 16 -> bytes (le16 v).
Proof. intros. repeat constructor; dlia. Qed.

(** Addresses [a + x + y] with [x] and [y] numerals, summed. *)
Ltac add_offsets a :=
  repeat match goal with |- context [a + ?x + ?y] =>
    let z := eval vm_compute in (x + y)%Z in replace (a + x + y) with (a + z) by lia end.

Lemma build_ip4_bytes m ip src dst proto len :
  wf_mem m -> 0 <= src < 2 ^ 32 -> 0 <= dst < 2 ^ 32 -> 0 <= proto < 256 -> 0 <= len < 2 ^ 16 ->
  let b := build_ip4 m ip (ntohl src) (ntohl dst) proto len in
  holds b ip (ip4_bytes len proto (ld16 b (ip + ip_csum)) src dst).
Proof.
  intros Hw Hs Hd Hp Hl b. assert (wf_mem b) as Hwb by (unfold b; wfm).
  assert (holds b (ip + ip_csum) (le16 (ld16 b (ip + ip_csum)))) as Hcs by by apply holds_ld16.
  unfold ip4_bytes. rewrite !holds_app. cbn [length be16 le16 le32]. ip_offsets.
  split_and!; add_offsets ip; try exact Hcs; unfold b, build_ip4; ip_offsets;
    rewrite ?htonl_ntohl by assumption.
  - rewrite !holds_cons, Z.add_0_r. mem_simpl. split_and!; [done|done|apply holds_nil].
  - repeat hskip. by apply holds_htons.
  - repeat hskip. by apply holds_htons.
  - repeat hskip. by apply holds_htons.
  - rewrite !holds_cons. add_offsets ip. mem_simpl. split_and!; [done|by apply u8_small|apply holds_nil].
  - repeat hskip. apply holds_st32.
  - repeat hskip. apply holds_st32.
Qed.

Lemma build_udp_bytes m udp sp dp pay len sip dip :
  wf_mem m -> 0 <= sp < 2 ^ 16 -> 0 <= dp < 2 ^ 16 -> 0 <= len <= 1500 ->
  pay + len <= udp \/ udp + 1512 <= pay ->
  let b := build_udp m udp sp dp pay len sip dip in
  holds b udp (udp_bytes sp dp (len + 8) (ld16 b (udp + udp_csum)) ++ ldbytes m pay (Z.to_nat len)).
Proof.
  intros Hw Hs Hd Hl Hp b. assert (wf_mem b) as Hwb by (unfold b; apply build_udp_wf; [done|lia]).
  assert (holds b (udp + udp_csum) (le16 (ld16 b (udp + udp_csum)))) as Hcs by by apply holds_ld16.
  unfold udp_bytes. rewrite !holds_app. cbn [length be16 le16 app]. udp_offsets.
  split_and!; add_offsets udp; try exact Hcs.
  4: { unfold holds. rewrite ldbytes_length. apply ldbytes_ext. intros i Hi. apply build_udp_payload; auto; lia. }
  all: unfold b, build_udp; udp_offsets; rewrite ?(u16_small (len + 8)), ?Z.add_0_r by lia;
    do 2 hskip;
    (eapply holds_ext; [intros x Hx; symmetry; apply memmove_out; cbn in Hx; [wfm|lia|lia]|]); repeat hskip.
  - by apply holds_htons.
  - by apply holds_st16.
  - apply holds_htons. lia.
Qed.

Lemma mem_of_holds m a l i :
  holds m a l -> 0 <= i < Z.of_nat (length l) -> mem_of l i = m (a + i).
Proof.
  intros H Hi. unfold mem_of, znth. zb. destruct (list_lookup_Some_lt l (Z.to_nat i)) as [b Hb]; [lia|].
  rewrite Hb. cbn. rewrite <- (holds_lookup _ _ _ _ _ H Hb). f_equal. lia.
Qed.

Lemma mem_of_wf l : bytes l -> wf_mem (mem_of l).
Proof.
  intros H a. unfold mem_of, znth. destruct (0 <=? a); [|cbn; lia].
  destruct (l !! Z.to_nat a) eqn:E; cbn; [|lia].
  unfold bytes in H. rewrite Forall_forall in H. apply H. by apply list_elem_of_lookup_2 in E.
Qed.

Lemma holds_bytes m a l : wf_mem m -> holds m a l -> bytes l.
Proof. intros Hw H. rewrite <- H. by apply ldbytes_bytes. Qed.

Lemma chksum_mem_of m a l :
  wf_mem m -> holds m a l -> Z.of_nat (length l) <= 65535 ->
  chksum (mem_of l) 0 (Z.of_nat (length l)) = chksum m a (Z.of_nat (length l)).
Proof.
  intros Hw H Hl. pose proof (mem_of_wf l (holds_bytes _ _ _ Hw H)).
  rewrite !chksum_wsum by (auto; lia). f_equal. apply wsum_ext. intros i Hi. rewrite Z.add_0_l.
  apply (mem_of_holds m a l i H). lia.
Qed.

Lemma udp_checksum_mem_of m a l sip dip n :
  wf_mem m -> holds m a l -> Z.of_nat (length l) = n + 8 -> 0 <= n <= 1500 ->
  udp_checksum (mem_of l) sip dip 0 8 n = udp_checksum m sip dip a (a + 8) n.
Proof.
  intros Hw H Hl Hn. pose proof (mem_of_wf l (holds_bytes _ _ _ Hw H)).
  rewrite !udp_checksum_wsum by (auto; lia).
  rewrite (wsum_ext 8 (mem_of l) m 0 a), (wsum_ext (Z.to_nat n) (mem_of l) m 8 (a + 8)).
  - rewrite !ld16_bytes, !(mem_of_holds m a l) by (auto; lia).
    replace (a + (0 + 4)) with (a + 4) by lia. by replace (a + (0 + 4 + 1)) with (a + 4 + 1) by lia.
  - intros i Hi. by rewrite (mem_of_holds m a l), Z.add_assoc by (auto; lia).
  - intros i Hi. by rewrite (mem_of_holds m a l) by (auto; lia).
Qed.

(** The three headers udp_sendto builds around the payload, in page [f]. *)
Definition build_frame (m : mem) (f : Z) (dmac smac : list Z) (sip dip sp dp pay len : Z) : mem :=
  build_eth
    (build_ip4
       (build_udp m (f + eth_payload + ip_payload) sp dp pay len sip dip)
       (f + eth_payload) (ntohl sip) (ntohl dip) IPPROTO_UDP (len + 28))
    f dmac smac PROTO_IPV4.

Lemma build_frame_wf m f dmac smac sip dip sp dp pay len :
  wf_mem m -> 0 <= len -> wf_mem (build_frame m f dmac smac sip dip sp dp pay len).
Proof. intros. by apply build_eth_wf, build_ip4_wf, build_udp_wf. Qed.

Lemma build_frame_out m f dmac smac sip dip sp dp pay len x :
  wf_mem m -> length dmac = 6%nat -> length smac = 6%nat -> 0 <= len <= 1500 ->
  x < f \/ f + PGSIZE <= x -> build_frame m f dmac smac sip dip sp dp pay len x = m x.
Proof.
  intros Hw Hd Hs Hl Hx. unfold build_frame, eth_payload, ip_payload, PGSIZE in *.
  rewrite build_eth_out, build_ip4_out, build_udp_out by (unfold ETH_HDR_SIZE; auto; lia). done.
Qed.

(** The frame is the datagram, with both checksums right. *)
Lemma build_frame_bytes m f dmac smac sip dip sp dp pay len :
  wf_mem m -> length dmac = 6%nat -> length smac = 6%nat -> bytes dmac -> bytes smac ->
  0 <= sip < 2 ^ 32 -> 0 <= dip < 2 ^ 32 -> 0 <= sp < 2 ^ 16 -> 0 <= dp < 2 ^ 16 -> 0 <= len <= 1500 ->
  pay + len <= f \/ f + PGSIZE <= pay ->
  let data := ldbytes m pay (Z.to_nat len) in
  exists c1 c2, 0 <= c1 < 2 ^ 16 /\ 0 <= c2 < 2 ^ 16 /\
    ldbytes (build_frame m f dmac smac sip dip sp dp pay len) f (Z.to_nat (len + 42))
      = udp_packet dmac smac sip dip sp dp c1 c2 data /\
    chksum (mem_of (ip4_bytes (len + 28) IPPROTO_UDP c1 sip dip)) 0 20 = 0 /\
    udp_checksum (mem_of (udp_bytes sp dp (len + 8) c2 ++ data)) sip dip 0 8 len = 0.
Proof.
  intros Hw Hd Hs Hbd Hbs Hsi Hdi Hsp Hdp Hl Hap data.
  set (ip := f + eth_payload). set (udp := ip + ip_payload).
  set (m1 := build_udp m udp sp dp pay len sip dip).
  set (m2 := build_ip4 m1 ip (ntohl sip) (ntohl dip) IPPROTO_UDP (len + 28)).
  assert (wf_mem m1) as Hw1 by (apply build_udp_wf; [done|lia]).
  assert (wf_mem m2) as Hw2 by by apply build_ip4_wf.
  assert (holds m1 udp (udp_bytes sp dp (len + 8) (ld16 m1 (udp + udp_csum)) ++ data)) as H1.
  { apply build_udp_bytes; auto. unfold udp, ip, eth_payload, ip_payload, PGSIZE in *. lia. }
  pose proof (build_ip4_bytes m1 ip sip dip IPPROTO_UDP (len + 28) Hw1 Hsi Hdi ltac:(unfold IPPROTO_UDP; lia) ltac:(lia)) as H2.
  fold m2 in H2. cbn zeta in H2.
  exists (ld16 m2 (ip + ip_csum)), (ld16 m1 (udp + udp_csum)).
  pose proof (ld16_range m2 (ip + ip_csum) Hw2) as Hc1. pose proof (ld16_range m1 (udp + udp_csum) Hw1) as Hc2.
  set (c1 := ld16 m2 _) in *. set (c2 := ld16 m1 _) in *.
  assert (length data = Z.to_nat len) as Hdl by apply ldbytes_length.
  split_and!; try lia.
  - assert (length (udp_packet dmac smac sip dip sp dp c1 c2 data) = Z.to_nat (len + 42)) as <-.
    { unfold udp_packet, ip4_bytes, udp_bytes. rewrite !length_app, Hd, Hs, Hdl. cbn [length be16 le16 le32]. lia. }
    change (holds (build_eth m2 f dmac smac PROTO_IPV4) f (udp_packet dmac smac sip dip sp dp c1 c2 data)).
    unfold udp_packet. rewrite Hdl, Z2Nat.id by lia. rewrite (app_assoc smac), (app_assoc dmac).
    rewrite holds_app, !length_app, Hd, Hs. split; [apply build_eth_bytes; auto; unfold PROTO_IPV4; lia|].
    change (f + Z.of_nat (6 + (6 + length (be16 PROTO_IPV4)))) with ip.
    rewrite holds_app. split.
    + eapply holds_ext; [|exact H2]. intros x Hx. symmetry. apply build_eth_out; auto.
      unfold ip, eth_payload, ETH_HDR_SIZE in *. lia.
    + change (ip + Z.of_nat (length (ip4_bytes (len + 28) IPPROTO_UDP c1 sip dip))) with udp.
      eapply holds_ext; [|exact H1]. intros x Hx. symmetry.
      unfold udp, ip, eth_payload, ip_payload, ETH_HDR_SIZE in *.
      rewrite build_eth_out by (auto; unfold ETH_HDR_SIZE; lia). apply build_ip4_out. lia.
  - etransitivity; [exact (chksum_mem_of m2 ip _ Hw2 H2 ltac:(done))|]. apply build_ip4_checksum. exact Hw1.
  - rewrite (udp_checksum_mem_of m1 udp _ sip dip len Hw1 H1); [|rewrite length_app, Hdl; cbn; lia|lia].
    by apply build_udp_checksum.
Qed.

(** ** Reading the user's memory *)

(** Memory as the current process sees it. *)
Definition user_view (m : mem) (pt : Z) : mem := fun va => m (uaddr m pt va).

(** The user may read [va, va + len), and neither those bytes nor the page
    tables that map them lie in the kernel's [lo, hi). *)
Record user_readable (m : mem) (pt va len lo hi : Z) : Prop := {
  ur_va : 0 <= va;
  ur_mapped : forall i, 0 <= i < len -> mapped m pt (va + i);
  ur_tables : tables_apart m pt va (va + len) (fun x => lo <= x < hi);
  ur_data : forall x, user_byte m pt va (va + len) x -> ~ (lo <= x < hi)
}.

Lemma user_readable_stable m m' pt va len lo hi :
  user_readable m pt va len lo hi -> (forall x, ~ (lo <= x < hi) -> m' x = m x) ->
  user_readable m' pt va len lo hi /\
  forall i, 0 <= i < len -> user_view m' pt (va + i) = user_view m pt (va + i).
Proof.
  intros [Hv Hm Ht Hd] Ho.
  assert (forall a, va <= a < va + len -> upage m' pt (PGROUNDDOWN a) = upage m pt (PGROUNDDOWN a)) as Hu.
  { intros a Ha. apply upage_stable. intros x Hx. apply Ho, (Ht a x Ha Hx). }
  assert (forall a, va <= a < va + len -> uaddr m' pt a = uaddr m pt a) as Hua.
  { intros a Ha. unfold uaddr. by rewrite Hu. }
  split; [split; [done| | |]|].
  - intros i Hi. unfold mapped. rewrite Hu by lia. by apply Hm.
  - intros a x Ha Hx. apply (Ht a x Ha). refine (proj1 (walk_byte_stable m _ _ _ _ _) Hx).
    intros y Hy. apply Ho, (Ht a y Ha Hy).
  - intros x (a & Ha & Hma & ->). apply Hd. exists a. split; [done|]. unfold mapped in *.
    rewrite Hu in Hma by done. split; [done|]. by apply Hua.
  - intros i Hi. unfold user_view. rewrite Hua by lia. apply Ho, Hd. exists (va + i).
    split; [lia|]. split; [by apply Hm|done].
Qed.

Lemma k_copyin_ok s d va len lo hi :
  let m := ph_mem (k_phys s) in let pt := k_pagetable s in
  wf_mem m -> 0 <= len -> user_readable m pt va len lo hi -> lo <= d -> d + len <= hi ->
  exists m', k_copyin d va len s = Ret 0 (set_phys (mkPhys m' (ph_pool (k_phys s)) (ph_end (k_phys s))) s) /\
    wf_mem m' /\ (forall x, x < d \/ d + len <= x -> m' x = m x) /\
    ldbytes m' d (Z.to_nat len) = ldbytes (user_view m pt) va (Z.to_nat len).
Proof.
  intros m pt Hw Hl [Hv Hm Ht Hd] H1 H2.
  destruct (copyin_spec pt d va len (k_phys s)) as (r & ph & HR & Hp & He & Hw' & Ho & Hr); try done.
  - intros m' Hm' a Ha. apply upage_stable. intros x Hx. apply Hm'. pose proof (Ht a x Ha Hx) as Hn.
    cbn beta in Hn. lia.
  - intros a Ha Hma. specialize (Hd (uaddr m pt a)). cbn beta in Hd.
    assert (user_byte m pt va (va + len) (uaddr m pt a)) as Hb by by exists a.
    specialize (Hd Hb). fold m. lia.
  - destruct Hr as [[-> Hr]|[-> (i & Hi & Hn)]]; [|by destruct (Hn (Hm i Hi))].
    exists (ph_mem ph). split_and!; [|done|done|].
    + unfold k_copyin. rewrite bind_gets, (lift_Ret _ _ _ _ HR). destruct ph. cbn in *. by subst.
    + apply ldbytes_ext. intros i Hi. by apply Hr; lia.
Qed.

(** ** udp_sendto *)

Lemma resolve_hit ip mac s : arp_lookup (k_arp s) ip = Some mac -> resolve ip s = Ret mac s.
Proof. intros H. unfold resolve. rewrite bind_gets. by rewrite H. Qed.

(** Sending the datagram whose payload is at [pay], once the addresses are known. *)
Lemma send_datagram s f r l dmac sport dport dip pay len v rest :
  let m := ph_mem (k_phys s) in let nc := k_netconf s in let data := ldbytes m pay (Z.to_nat len) in
  net_ok s -> host_ok s -> length dmac = 6%nat -> bytes dmac -> 0 <= dip < 2 ^ 32 -> 0 <= sport < 2 ^ 16 ->
  0 <= dport < 2 ^ 16 -> 0 <= len <= 1500 -> pay + len <= f \/ f + PGSIZE <= pay ->
  Pool.free (ph_pool (k_phys s)) = f :: r :: l ->
  poll_used (vn_tx_polls (k_net s)) (q_used_ring_idx (vn_txq (k_net s))) = Some (v, rest) ->
  exists s1 s' c1 c2, 0 <= c1 < 2 ^ 16 /\ 0 <= c2 < 2 ^ 16 /\
    k_kalloc s = Ret f s1 /\ f <> 0 /\ s1 = set_phys (k_phys s1) s /\
    (forall x, x < f \/ f + PGSIZE <= x -> ph_mem (k_phys s1) x = m x) /\
    (k_setmem (fun m => build_frame m f dmac (nc_mac_addr nc) (nc_ip_addr nc) dip sport dport pay len) ;;;
     transmit_packet f (len + 42) PROTO_IPV4 ;;; k_kfree f) s1 = Ret tt s' /\
    sent_frame s1 s' f r (udp_packet dmac (nc_mac_addr nc) (nc_ip_addr nc) dip sport dport c1 c2 data) /\
    chksum (mem_of (ip4_bytes (len + 28) IPPROTO_UDP c1 (nc_ip_addr nc) dip)) 0 20 = 0 /\
    udp_checksum (mem_of (udp_bytes sport dport (len + 8) c2 ++ data)) (nc_ip_addr nc) dip 0 8 len = 0.
Proof.
  intros m nc data Hok [Hi Hm Hb] Hd Hbd Hdip Hsp Hdp Hl Hap Hf Hpoll.
  destruct (net_ok_alloc s f (r :: l) Hok Hf) as (s1 & Ha & Hok1 & Hlf & Hf0 & Hf1 & Hr1 & _ & Hmem & Hbf & _ & Hs1).
  pose proof (nk_wf _ Hok1) as Hw1.
  destruct (build_frame_bytes (ph_mem (k_phys s1)) f dmac (nc_mac_addr nc) (nc_ip_addr nc) dip sport dport pay len)
    as (c1 & c2 & Hr1' & Hr2' & Hfr & Hc1 & Hc2); try done.
  assert (ldbytes (ph_mem (k_phys s1)) pay (Z.to_nat len) = data) as Hdata.
  { apply ldbytes_ext. intros i Hi'. apply Hmem. lia. }
  rewrite Hdata in Hfr, Hc2.
  destruct (send_built s1 f r l (len + 42) PROTO_IPV4 v rest
    (fun m => build_frame m f dmac (nc_mac_addr nc) (nc_ip_addr nc) dip sport dport pay len)) as (s' & Hs' & S);
    try assumption.
  - by rewrite Hs1.
  - unfold PGSIZE. lia.
  - by rewrite Hs1.
  - intros m0 Hw0. apply build_frame_wf; [done|lia].
  - intros x Hx. by apply build_frame_out.
  - exists s1, s', c1, c2. rewrite Hfr in S. done.
Qed.

Lemma setmem_ext {A} (g h : mem -> mem) (k : M kst A) s :
  g (ph_mem (k_phys s)) = h (ph_mem (k_phys s)) -> (k_setmem g ;;; k) s = (k_setmem h ;;; k) s.
Proof. intros E. erewrite !bind_Ret by apply k_setmem_Ret. by rewrite E. Qed.

Lemma ldbytes_inv m a m' b n i :
  ldbytes m a n = ldbytes m' b n -> 0 <= i < Z.of_nat n -> m (a + i) = m' (b + i).
Proof.
  intros E Hi. pose proof (ldbytes_lookup m a n (Z.to_nat i) ltac:(lia)) as H1.
  pose proof (ldbytes_lookup m' b n (Z.to_nat i) ltac:(lia)) as H2.
  rewrite E, H2 in H1. rewrite Z2Nat.id in H1 by lia. congruence.
Qed.

Lemma ldn_of_bytes n m a m' b : (forall i, 0 <= i < Z.of_nat n -> m (a + i) = m' (b + i)) ->
  ldn n m a = ldn n m' b.
Proof.
  revert a b. induction n as [|n IH]; intros a b H; [done|]. rewrite !ldn_S.
  pose proof (H 0 ltac:(lia)) as H0. rewrite !Z.add_0_r in H0. rewrite H0. do 2 f_equal.
  apply IH. intros i Hi. rewrite <- !Z.add_assoc. apply H. lia.
Qed.

(** The kernel stack frame of udp_sendto: kaddr and kbuf. *)
Definition STACK_BYTES : Z := SOCKADDR_IN_SIZE + 1500.

(** The two copies from user space: the socket address to kaddr, the payload to kbuf. *)
Lemma sendto_copies s buf len dest :
  let m := ph_mem (k_phys s) in let pt := k_pagetable s in let sp := k_stack s in let user := user_view m pt in
  let dip := ld32 user (dest + sin_addr) in let dport := ld16 user (dest + sin_port) in
  let with_mem m' := set_phys (mkPhys m' (ph_pool (k_phys s)) (ph_end (k_phys s))) s in
  wf_mem m -> 0 <= len <= 1500 ->
  user_readable m pt dest 16 sp (sp + STACK_BYTES) -> user_readable m pt buf len sp (sp + STACK_BYTES) ->
  exists m1 m2, k_copyin sp dest 16 s = Ret 0 (with_mem m1) /\
    k_copyin (sp + 16) buf len (with_mem m1) = Ret 0 (with_mem m2) /\ wf_mem m2 /\
    ld32 m1 (sp + sin_addr) = dip /\ 0 <= dip < 2 ^ 32 /\
    ld16 m2 (sp + sin_port) = dport /\ 0 <= dport < 2 ^ 16 /\
    ldbytes m2 (sp + 16) (Z.to_nat len) = ldbytes user buf (Z.to_nat len).
Proof.
  intros m pt sp user dip dport with_mem Hw Hl Hu1 Hu2. unfold STACK_BYTES, SOCKADDR_IN_SIZE in *.
  destruct (k_copyin_ok s sp dest 16 sp (sp + (16 + 1500))) as (m1 & HC1 & Hw1 & Ho1 & Hb1); try done; [lia|].
  destruct (user_readable_stable m m1 pt buf len sp (sp + (16 + 1500)) Hu2) as [Hu2' Hview].
  { intros x Hx. apply Ho1. lia. }
  destruct (k_copyin_ok (with_mem m1) (sp + 16) buf len sp (sp + (16 + 1500))) as (m2 & HC2 & Hw2 & Ho2 & Hb2);
    try done; try lia.
  assert (forall n o, 0 <= o -> o + Z.of_nat n <= 16 -> ldn n m1 (sp + o) = ldn n user (dest + o)) as Hld.
  { intros n o Ho Hn. apply ldn_of_bytes. intros i Hi. rewrite <- !Z.add_assoc.
    apply (ldbytes_inv _ _ _ _ _ _ Hb1). lia. }
  exists m1, m2. unfold sin_addr, sin_port in *.
  pose proof (Hld 4%nat 4 ltac:(lia) ltac:(lia)) as E4. pose proof (Hld 2%nat 2 ltac:(lia) ltac:(lia)) as E2.
  split_and!; try done.
  - unfold dip. rewrite <- E4. by apply ld32_range.
  - unfold dip. rewrite <- E4. by apply ld32_range.
  - unfold dport. rewrite <- E2. apply ldn_ext. intros x Hx. apply Ho2. lia.
  - unfold dport. rewrite <- E2. by apply ld16_range.
  - unfold dport. rewrite <- E2. by apply ld16_range.
  - rewrite Hb2. apply ldbytes_ext. intros i Hi. apply Hview. lia.
Qed.

(** udp_sendto with the destination's MAC in the ARP cache: one frame goes out,
    the datagram of the user's bytes with both checksums right. *)
Lemma udp_sendto_ok s sock k buf len flags dest addrlen mac f r l v rest :
  let m := ph_mem (k_phys s) in let pt := k_pagetable s in let nc := k_netconf s in
  let sp := k_stack s in let user := user_view m pt in
  let dip := ld32 user (dest + sin_addr) in let dport := ld16 user (dest + sin_port) in
  let data := ldbytes user buf (Z.to_nat len) in let sport := u16 (so_src_port k) in
  net_ok s -> host_ok s -> st_sockets (k_sockets s) !! sock = Some k ->
  SOCKADDR_IN_SIZE <= addrlen -> 0 <= len <= 1500 ->
  user_readable m pt dest SOCKADDR_IN_SIZE sp (sp + STACK_BYTES) ->
  user_readable m pt buf len sp (sp + STACK_BYTES) ->
  arp_lookup (k_arp s) dip = Some mac -> length mac = 6%nat -> bytes mac ->
  Pool.free (ph_pool (k_phys s)) = f :: r :: l -> sp + STACK_BYTES <= f \/ f + PGSIZE <= sp ->
  poll_used (vn_tx_polls (k_net s)) (q_used_ring_idx (vn_txq (k_net s))) = Some (v, rest) ->
  exists s' c1 c2, udp_sendto sock buf len flags dest addrlen s = Ret 0 s' /\
    0 <= c1 < 2 ^ 16 /\ 0 <= c2 < 2 ^ 16 /\ 0 <= dip < 2 ^ 32 /\ 0 <= dport < 2 ^ 16 /\ bytes data /\
    vn_sent (k_net s') = vn_sent (k_net s) ++
      [udp_packet mac (nc_mac_addr nc) (nc_ip_addr nc) dip sport dport c1 c2 data] /\
    chksum (mem_of (ip4_bytes (len + 28) IPPROTO_UDP c1 (nc_ip_addr nc) dip)) 0 20 = 0 /\
    udp_checksum (mem_of (udp_bytes sport dport (len + 8) c2 ++ data)) (nc_ip_addr nc) dip 0 8 len = 0 /\
    Pool.free (ph_pool (k_phys s')) = f :: l /\ k_held s' = k_held s.
Proof.
  intros m pt nc sp user dip dport data sport Hok Hho Hk Hal Hl Hu1 Hu2 Harp Hml Hmb Hf Hsf Hpoll.
  destruct (sendto_copies s buf len dest (nk_wf _ Hok) Hl Hu1 Hu2)
    as (m1 & m2 & HC1 & HC2 & Hw2 & Hdip & Hrip & Hdp & Hrp & Hdata).
  set (s2 := set_phys (mkPhys m2 _ _) s) in HC2.
  assert (net_ok s2) as Hok2 by (apply (net_ok_setmem s (fun _ => m2)); done).
  unfold STACK_BYTES, SOCKADDR_IN_SIZE in *.
  destruct (send_datagram s2 f r l mac sport dport dip (sp + 16) len v rest)
    as (s3 & s' & c1 & c2 & Hrc1 & Hrc2 & HA & Hf0 & Hs3 & Hm3 & HT & S & Hc1 & Hc2); try done; try apply u16_range;
    [by destruct Hho|lia|].
  change (ph_mem (k_phys s2)) with m2 in *. fold sp m pt in Hdata, Hdp, Hdip. rewrite Hdata in S, Hc2.
  exists s', c1, c2. split.
  - unfold udp_sendto. rewrite bind_gets. fold sp. unfold SOCKADDR_IN_SIZE. zb.
    rewrite (bind_Ret _ _ _ _ _ HC1). cbn [Z.ltb Z.compare].
    rewrite (bind_Ret _ _ _ _ _ (k_getmem_Ret _ _)). kred. rewrite Hdip. fold m pt. fold user dip.
    erewrite bind_Ret by (apply resolve_hit; exact Harp). zb. rewrite u64_small by lia.
    rewrite (bind_Ret _ _ _ _ _ HC2). cbn [Z.ltb Z.compare].
    rewrite (bind_Ret _ _ _ _ _ HA). unfold nonnull. zb. unfold bind at 1, ret at 1.
    erewrite bind_Ret by (apply sock_get_Ret; rewrite Hs3; exact Hk).
    rewrite bind_gets, !setmem_setmem.
    assert (k_netconf s3 = nc) as -> by by rewrite Hs3.
    unfold UDP_HDR_SIZE, IP4_HDR_SIZE, ETH_HDR_SIZE.
    rewrite (u16_small (len + 8 + 20)), (u16_small (len + 8 + 20 + 14)) by lia.
    replace (len + 8 + 20 + 14) with (len + 42) by lia. replace (len + 8 + 20) with (len + 28) by lia.
    rewrite (setmem_ext _ (fun m => build_frame m f mac (nc_mac_addr nc) (nc_ip_addr nc) dip sport dport (sp + 16) len)).
    + unfold bind at 1 in HT. unfold bind at 1. destruct (k_setmem _ s3) as [? s4| | | |]; try done.
      rewrite <- bind_assoc, (bind_Ret _ _ _ _ _ HT). done.
    + unfold build_frame.
      replace (ld16 (ph_mem (k_phys s3)) (sp + sin_port)) with dport; [reflexivity|].
      etransitivity; [symmetry; exact Hdp|]. symmetry. apply ldn_ext. unfold sin_port. intros x Hx. apply Hm3. lia.
  - rewrite (sf_sent _ _ _ _ _ S), (sf_held _ _ _ _ _ S). destruct (sf_pages _ _ _ _ _ S) as (l' & Hl1 & Hl2).
    rewrite (k_kalloc_cons s2 f (r :: l) Hf) in HA. injection HA as <-. injection Hl1 as <-. rewrite Hl2.
    split; [exact Hrc1|]. split; [exact Hrc2|]. split; [exact Hrip|]. split; [exact Hrp|].
    split; [change data with (ldbytes (user_view m pt) buf (Z.to_nat len)); rewrite <- Hdata; apply ldbytes_bytes; exact Hw2|].
    split; [reflexivity|]. split; [exact Hc1|]. split; [exact Hc2|]. split; reflexivity.
Qed.

(** ** Waiting for the ARP answer *)

Lemma insert_all_ok c e :
  cache_ok c -> Forall (fun p => length (snd p) = 6%nat) e ->
  cache_ok (insert_all c e) /\ length (insert_all c e) = length c /\
  arp_map (insert_all c e) = fold_left (fun m p => bounded_insert (length c) m (fst p) (snd p)) e (arp_map c).
Proof.
  intros Hc He. revert c Hc. induction He as [|[i mac] e Hm He IH]; intros c Hc; [done|].
  destruct (arp_insert_ok c i mac Hc Hm) as [H1 H2].
  destruct (IH _ H1) as (H3 & H4 & H5). cbn [insert_all fold_left fst snd] in *. fold (insert_all (arp_insert c i mac) e).
  rewrite H4, H5, arp_insert_length, H2. done.
Qed.

(** Insertions that do not concern [ip], or that find the cache full, leave it unknown. *)
Lemma insert_all_unknown c e ip :
  cache_ok c -> Forall (fun p => length (snd p) = 6%nat) e -> arp_map c !! ip = None ->
  Forall (fun p => fst p <> ip) e \/ size (arp_map c) = length c ->
  arp_map (insert_all c e) !! ip = None /\
  (size (arp_map c) <= size (arp_map (insert_all c e)) <= size (arp_map c) + length e)%nat.
Proof.
  intros Hc He Hn H. destruct (insert_all_ok c e Hc He) as (_ & _ & ->).
  set (cap := length c) in *. revert Hn H. generalize (arp_map c). clear Hc.
  induction He as [|[i mac] e Hm He IH]; intros m Hn H; cbn [fold_left fst snd length]; [split; [done|lia]|].
  assert (bounded_insert cap m i mac !! ip = None /\
          (size m <= size (bounded_insert cap m i mac) <= S (size m))%nat /\
          (size m = cap -> size (bounded_insert cap m i mac) = cap)) as (H1 & H2 & H3).
  { unfold bounded_insert. destruct (decide (is_Some (m !! i))) as [Hi|Hi].
    - rewrite map_size_insert_Some by done. rewrite lookup_insert_ne; [split_and!; auto; lia|].
      intros ->. rewrite Hn in Hi. by destruct Hi.
    - destruct (decide (size m < cap)%nat); [|split_and!; auto; lia].
      rewrite map_size_insert_None by by apply eq_None_not_Some. rewrite lookup_insert_ne; [split_and!; auto; lia|].
      destruct H as [H|H]; [|lia]. by apply Forall_inv in H. }
  destruct (IH _ H1) as [IH1 IH2]; [|split; [done|lia]].
  destruct H as [H|H]; [left; by apply Forall_inv_tail in H|right; by apply H3].
Qed.

Lemma arp_spin_full c ip events :
  cache_ok c -> arp_map c !! ip = None -> size (arp_map c) = length c ->
  Forall (Forall (fun p => length (snd p) = 6%nat)) events ->
  exists c', arp_spin ip c events = (c', [], None).
Proof.
  intros Hc Hn Hs He. revert c Hc Hn Hs. induction He as [|e events He1 He IH]; intros c Hc Hn Hs; cbn [arp_spin];
    rewrite arp_lookup_map, Hn; [by exists c|].
  destruct (insert_all_ok c e Hc He1) as (H1 & H2 & _).
  destruct (insert_all_unknown c e ip Hc He1 Hn) as [H3 H4]; [by right|].
  apply IH; auto. pose proof (map_size_le _ H1). lia.
Qed.

Lemma arp_spin_answer c ip es mac rest :
  cache_ok c -> arp_map c !! ip = None -> (size (arp_map c) + length (concat es) < length c)%nat ->
  Forall (Forall (fun p => length (snd p) = 6%nat)) es -> length mac = 6%nat ->
  Forall (Forall (fun p => fst p <> ip)) es ->
  exists c', arp_spin ip c (es ++ [(ip, mac)] :: rest) = (c', rest, Some mac).
Proof.
  intros Hc Hn Hs He Hm Hne. revert c Hc Hn Hs. induction He as [|e es He1 He IH]; intros c Hc Hn Hs.
  - cbn [app arp_spin concat length] in *. rewrite arp_lookup_map, Hn.
    destruct (arp_insert_ok c ip mac Hc Hm) as [H1 H2].
    exists (arp_insert c ip mac). cbn [insert_all fold_left fst snd].
    assert (arp_lookup (arp_insert c ip mac) ip = Some mac) as E.
    { rewrite arp_lookup_map, H2. unfold bounded_insert. rewrite Hn. rewrite decide_False by by intros [].
      rewrite decide_True by lia. apply lookup_insert_eq. }
    destruct rest; cbn [arp_spin]; by rewrite E.
  - cbn [app arp_spin concat] in *. rewrite arp_lookup_map, Hn. rewrite length_app in Hs.
    apply Forall_cons in Hne as [Hne1 Hne].
    destruct (insert_all_ok c e Hc He1) as (H1 & H2 & _).
    destruct (insert_all_unknown c e ip Hc He1 Hn) as [H3 H4]; [by left|].
    apply IH; auto. lia.
Qed.

(** The ARP request this host broadcasts to ask for the address [ip]. *)
Definition request_for (s : kst) (ip : Z) : list Z :=
  let nc := k_netconf s in
  arp_frame broadcast_mac (nc_mac_addr nc) ARP_OP_REQUEST (nc_ip_addr nc) ip (nc_mac_addr nc) broadcast_mac.

(** arp_request as resolve uses it: the request goes out, the cache and what
    interrupts will insert are untouched. *)
Lemma arp_request_frame s ip f r l :
  net_ok s -> host_ok s -> Pool.free (ph_pool (k_phys s)) = f :: r :: l ->
  polls_answer 1 (vn_tx_polls (k_net s)) (q_used_ring_idx (vn_txq (k_net s))) ->
  exists s', arp_request ip s = Ret tt s' /\
    vn_sent (k_net s') = vn_sent (k_net s) ++ [request_for s ip] /\
    k_arp s' = k_arp s /\ k_arp_events s' = k_arp_events s.
Proof.
  intros Hok Hho Hf (v & rest & Hpoll & _).
  destruct (arp_request_sends s ip f r l v rest Hok Hho Hf Hpoll) as (s1 & s' & Ha & Hs' & S).
  destruct (net_ok_alloc s f (r :: l) Hok Hf) as (s1' & Ha' & _ & _ & _ & _ & _ & _ & _ & _ & _ & Hs1).
  rewrite Ha in Ha'. injection Ha' as <-. exists s'. split; [exact Hs'|].
  rewrite (sf_sent _ _ _ _ _ S), (sf_arp _ _ _ _ _ S), (sf_events _ _ _ _ _ S), Hs1. done.
Qed.

(** C32: an address that is not in the cache is asked for with exactly one frame,
    the broadcast ARP request of this host for that address, and when an answer
    for it arrives the busy-wait ends: whatever other answers arrive before it, as
    long as the cache has room, the MAC of the answer is what udp_sendto goes on
    with.  Two pages are free and the device sends the frame. *)
Theorem resolve_answered s ip f r l es mac rest :
  net_ok s -> host_ok s -> Pool.free (ph_pool (k_phys s)) = f :: r :: l ->
  polls_answer 1 (vn_tx_polls (k_net s)) (q_used_ring_idx (vn_txq (k_net s))) ->
  cache_ok (k_arp s) -> arp_lookup (k_arp s) ip = None ->
  k_arp_events s = es ++ [(ip, mac)] :: rest -> length mac = 6%nat ->
  Forall (Forall (fun p => length (snd p) = 6%nat)) es -> Forall (Forall (fun p => fst p <> ip)) es ->
  (size (arp_map (k_arp s)) + length (concat es) < length (k_arp s))%nat ->
  exists s', resolve ip s = Ret mac s' /\ k_arp_events s' = rest /\
    vn_sent (k_net s') = vn_sent (k_net s) ++ [request_for s ip].
Proof.
  intros Hok Hho Hf Hpoll Hc Hn Hev Hm He1 He2 Hs.
  destruct (arp_request_frame s ip f r l Hok Hho Hf Hpoll) as (s1 & HR & Hsent & Ha & Hev1).
  destruct (arp_spin_answer (k_arp s) ip es mac rest) as (c' & HS); auto; [by rewrite <- arp_lookup_map|].
  unfold resolve. rewrite bind_gets. rewrite Hn, (bind_Ret _ _ _ _ _ HR). unfold arp_wait.
  rewrite Ha, Hev1, Hev, HS. eexists. split; [reflexivity|]. split; [done|exact Hsent].
Qed.

(** When the cache is full of other addresses no answer can be stored, so
    the wait for one never ends, whatever arrives: udp_sendto spins in the
    kernel. *)
Lemma resolve_full_cache_spins s ip f r l :
  net_ok s -> host_ok s -> Pool.free (ph_pool (k_phys s)) = f :: r :: l ->
  polls_answer 1 (vn_tx_polls (k_net s)) (q_used_ring_idx (vn_txq (k_net s))) ->
  cache_ok (k_arp s) -> arp_lookup (k_arp s) ip = None -> size (arp_map (k_arp s)) = length (k_arp s) ->
  forall events, Forall (Forall (fun p => length (snd p) = 6%nat)) events ->
  exists s', resolve ip (set_arp_events events s) = Spin s'.
Proof.
  intros Hok Hho Hf Hpoll Hc Hn Hs events He.
  destruct (arp_request_frame (set_arp_events events s) ip f r l) as (s1 & HR & _ & Ha & Hev1); try done.
  - by destruct Hok.
  - by destruct Hho.
  - destruct (arp_spin_full (k_arp s) ip events) as (c' & HS); auto; [by rewrite <- arp_lookup_map|].
    unfold resolve. rewrite bind_gets. change (k_arp (set_arp_events events s)) with (k_arp s) in *.
    rewrite Hn, (bind_Ret _ _ _ _ _ HR). unfold arp_wait.
    change (k_arp_events (set_arp_events events s)) with events in Hev1. rewrite Ha, Hev1, HS. by eexists.
Qed.

(** ** Lengths *)

(** One page of copyin. *)
Lemma copyin_loop_page fuel pt dst srcva len s :
  PGROUNDDOWN srcva = srcva -> 0 <= srcva -> PGSIZE <= len -> mapped (ph_mem s) pt srcva ->
  copyin_loop (S fuel) pt dst srcva len s
  = copyin_loop fuel pt (dst + PGSIZE) (srcva + PGSIZE) (len - PGSIZE)
      (mkPhys (memmove (ph_mem s) dst (uaddr (ph_mem s) pt srcva) PGSIZE) (ph_pool s) (ph_end s)).
Proof.
  intros Hal Hv Hl Hm. pose proof (mapped_below_MAXVA _ _ _ Hm) as HM. change MAXVA with 274877906944 in HM.
  assert (PGSIZE = 4096) as HPG by done.
  cbn [copyin_loop]. zb. cbn [negb]. rewrite Hal. rewrite (bind_Ret _ _ _ _ _ (walkaddr_pure _ _ _)).
  unfold mapped in Hm. rewrite Hal in Hm. zb. unfold uaddr. rewrite Hal.
  replace (PGSIZE - (srcva - srcva)) with PGSIZE by lia. rewrite u64_small by lia. reflexivity.
Qed.

Lemma copyin_loop_unmapped fuel pt dst srcva len s :
  0 < len -> ~ mapped (ph_mem s) pt srcva -> copyin_loop (S fuel) pt dst srcva len s = Ret (-1) s.
Proof.
  intros Hl Hm. cbn [copyin_loop]. zb. cbn [negb]. rewrite (bind_Ret _ _ _ _ _ (walkaddr_pure _ _ _)).
  unfold mapped in Hm. destruct (Z.eqb_spec (upage (ph_mem s) pt (PGROUNDDOWN srcva)) 0); done.
Qed.

(** A negative length passes the test [len > 1500] and reaches copyin as a
    64-bit length of nearly 2^64: udp_sendto answers -1, but a whole page of
    the user's choosing has been written over the kernel stack from kbuf on,
    2,596 bytes past its end. *)
Lemma udp_sendto_negative_length s sock buf len flags dest addrlen mac :
  let m := ph_mem (k_phys s) in let pt := k_pagetable s in let sp := k_stack s in
  let user := user_view m pt in let hi := sp + SOCKADDR_IN_SIZE + PGSIZE in
  wf_mem m -> - 2 ^ 31 <= len < 0 -> SOCKADDR_IN_SIZE <= addrlen ->
  user_readable m pt dest SOCKADDR_IN_SIZE sp hi ->
  PGROUNDDOWN buf = buf -> user_readable m pt buf PGSIZE sp hi ->
  ~ mapped m pt (buf + PGSIZE) -> tables_apart m pt (buf + PGSIZE) (buf + PGSIZE + 1) (fun x => sp <= x < hi) ->
  arp_lookup (k_arp s) (ld32 user (dest + sin_addr)) = Some mac ->
  exists s', udp_sendto sock buf len flags dest addrlen s = Ret (-1) s' /\
    forall i, 0 <= i < PGSIZE -> ph_mem (k_phys s') (sp + SOCKADDR_IN_SIZE + i) = user (buf + i).
Proof.
  intros m pt sp user hi Hw Hl Hal Hu1 Hbal Hu2 Hnm Hta Harp. unfold SOCKADDR_IN_SIZE in *.
  destruct (k_copyin_ok s sp dest 16 sp hi) as (m1 & HC1 & Hw1 & Ho1 & Hb1); try done; try (unfold hi, PGSIZE; lia).
  set (s1 := set_phys (mkPhys m1 (ph_pool (k_phys s)) (ph_end (k_phys s))) s) in HC1.
  assert (forall x, ~ (sp <= x < hi) -> m1 x = m x) as Ho1' by (intros x Hx; apply Ho1; unfold hi, PGSIZE in Hx; lia).
  destruct (user_readable_stable m m1 pt buf PGSIZE sp hi Hu2 Ho1') as [Hu2' Hview].
  assert (forall m', (forall x, ~ (sp <= x < hi) -> m' x = m x) -> ~ mapped m' pt (buf + PGSIZE)) as Hnm'.
  { intros m' Ho. unfold mapped. rewrite (upage_stable m); [exact Hnm|]. intros x Hx. apply Ho.
    apply (Hta (buf + PGSIZE) x); [lia|exact Hx]. }
  set (n := u64 len). assert (n = 2 ^ 64 + len) as Hn.
  { unfold n, u64. rewrite <- (Z.mod_add len 1) by done. rewrite Z.mod_small; lia. }
  set (m2 := memmove m1 (sp + 16) (uaddr m1 pt buf) PGSIZE).
  assert (PGSIZE = 4096) as HPG by done.
  assert (forall x, ~ (sp <= x < hi) -> m2 x = m x) as Ho2.
  { intros x Hx. unfold m2. rewrite memmove_out by (auto; unfold hi in Hx; lia). by apply Ho1'. }
  assert (k_copyin (sp + 16) buf n s1 = Ret (-1) (set_phys (mkPhys m2 (ph_pool (k_phys s)) (ph_end (k_phys s))) s1)) as HC2.
  { unfold k_copyin. rewrite bind_gets. erewrite lift_Ret; [reflexivity|].
    unfold copyin. assert (exists fuel, Z.to_nat (n / PGSIZE + 3) = S (S fuel)) as [fuel ->].
    { assert (0 <= n / PGSIZE) by (apply Z.div_pos; lia).
      exists (Z.to_nat (n / PGSIZE + 1)). rewrite <- !Z2Nat.inj_succ by lia. f_equal. lia. }
    rewrite copyin_loop_page; [|exact Hbal|apply (ur_va _ _ _ _ _ _ Hu2)|lia|].
    - apply copyin_loop_unmapped; [lia|]. by apply Hnm'.
    - rewrite <- (Z.add_0_r buf). apply (ur_mapped _ _ _ _ _ _ Hu2'). lia. }
  eexists. split.
  - unfold udp_sendto. rewrite bind_gets. fold sp. unfold SOCKADDR_IN_SIZE. zb.
    rewrite (bind_Ret _ _ _ _ _ HC1). cbn [Z.ltb Z.compare].
    rewrite (bind_Ret _ _ _ _ _ (k_getmem_Ret _ _)). change (ph_mem (k_phys s1)) with m1.
    replace (ld32 m1 (sp + sin_addr)) with (ld32 user (dest + sin_addr)).
    2: { symmetry. apply ldn_of_bytes. unfold sin_addr. intros i Hi. rewrite <- !Z.add_assoc.
         apply (ldbytes_inv _ _ _ _ _ _ Hb1). lia. }
    erewrite bind_Ret by (apply resolve_hit; exact Harp). zb. fold n.
    rewrite (bind_Ret _ _ _ _ _ HC2). cbn [Z.ltb Z.compare]. reflexivity.
  - intros i Hi. cbn. unfold m2. rewrite memmove_in by (auto; lia). rewrite <- Hview by lia. unfold user_view.
    f_equal. unfold uaddr. rewrite Hbal, (PGROUNDDOWN_same buf i); rewrite Hbal; lia.
Qed.

(** ** Witnesses *)

(** The kernel of Udp.v; the socket address is at user address 0, so that the
    destination is the address in bytes 4 to 7 of the user's page. *)
Definition send_ip : Z := ld32 (user_view (demo_mem 40) 0x80100000) (0 + sin_addr).
Definition send_kernel (cache : list arp_entry) (events : list (list (Z * list Z))) : kst :=
  set_arp_events events (set_arp cache (demo_kernel 0 40)).
Definition one_entry : list arp_entry :=
  mkArpEntry send_ip [2; 0; 0; 0; 0; 9] 1 :: replicate 15 (mkArpEntry 0 [0; 0; 0; 0; 0; 0] 0).

Lemma send_kernel_ok cache events : net_ok (send_kernel cache events).
Proof. destruct idle_kernel_ok. split; try assumption. apply demo_mem_wf. Qed.

Lemma send_kernel_host cache events : host_ok (send_kernel cache events).
Proof. split; cbn; [lia|reflexivity|]. repeat constructor; lia. Qed.

Lemma tables_readable m va len lo hi :
  user_tables m -> 0 <= va -> va + len <= PGSIZE -> 0x80200000 <= lo -> user_readable m 0x80100000 va len lo hi.
Proof.
  intros Hm Hv Hl Hlo. split; [done| | |].
  - intros i Hi. apply user_tables_mapped; [exact Hm|lia].
  - intros a x Ha Hx. apply user_tables_walk in Hx; [|exact Hm|lia]. lia.
  - intros x (a & Ha & _ & ->). rewrite user_tables_addr by (exact Hm || lia). unfold PGSIZE in *. lia.
Qed.

Lemma demo_readable va len lo hi :
  0 <= va -> va + len <= PGSIZE -> 0x80200000 <= lo -> user_readable (demo_mem 40) 0x80100000 va len lo hi.
Proof. apply tables_readable, demo_tables. Qed.

Lemma resolve_answered_witness :
  exists s', resolve 7 (send_kernel one_entry [[(5, [1; 1; 1; 1; 1; 1])]; []; [(7, [2; 0; 0; 0; 0; 7])]])
    = Ret [2; 0; 0; 0; 0; 7] s'.
Proof.
  destruct (resolve_answered (send_kernel one_entry [[(5, [1; 1; 1; 1; 1; 1])]; []; [(7, [2; 0; 0; 0; 0; 7])]])
    7 0x87fff000 0x87ffe000 [] [[(5, [1; 1; 1; 1; 1; 1])]; []] [2; 0; 0; 0; 0; 7] []) as (s' & H & _).
  - apply send_kernel_ok.
  - apply send_kernel_host.
  - reflexivity.
  - exists 1, [1; 2]. split; [reflexivity|exact I].
  - constructor; [apply (cache_empty 15)|rewrite (arp_map_empty 15); reflexivity|reflexivity].
  - vm_compute. reflexivity.
  - reflexivity.
  - reflexivity.
  - repeat constructor.
  - repeat constructor; discriminate.
  - vm_compute. repeat constructor.
  - exists s'. exact H.
Defined.

Definition full_entry (i : nat) : arp_entry := mkArpEntry (Z.of_nat i) [2; 0; 0; 0; 0; 0] 1.

Lemma full_cache_ok n : cache_ok (full_entry <$> rev (seq 0 n)) /\
  forall i, arp_map (full_entry <$> rev (seq 0 n)) !! Z.of_nat i = None <-> (n <= i)%nat.
Proof.
  induction n as [|n [IH1 IH2]]; [split; [apply (cache_empty 0)|intros i; cbn; split; [lia|done]]|].
  rewrite seq_S, rev_app_distr. cbn [rev app Nat.add fmap list_fmap]. split.
  - constructor; [exact IH1|by apply IH2|done].
  - intros i. cbn [arp_map full_entry ae_valid ae_ip ae_mac Z.eqb Pos.eqb].
    destruct (decide (i = n)) as [->|Hne]; [rewrite lookup_insert_eq; split; [done|lia]|].
    rewrite lookup_insert_ne by lia. rewrite IH2. lia.
Qed.

