(* ===== verification/Tcp.v ===== *)
(** * kernel/sys/tcp.h and kernel/sys/tcp.c

    The TCP header operations on bytes in memory, binding and listening, and
    the handler of a received segment.  The stack has no connections: connect,
    accept and close of tcp.c answer 0, and nothing answers a SYN. *)
From S2P Require Import Prelude Mem StringC Net Kalloc Page Vm KState Eth Ip4 VirtioNet Arp Ports Udp UdpSend.
From Stdlib Require Import ZArith Lia.
From stdpp Require Import strings.
Local Open Scope list_scope.
Local Open Scope Z_scope.
Local Open Scope kernel_scope.

(** ** Constants *)
Definition DEFAULT_SEQ_NUM : Z := 1337.
Definition DEFAULT_WINDOW : Z := 1024.
Definition ACK : Z := 0x40.
Definition SYN : Z := 0x08.

(** ** Layout of struct tcp_hdr and struct tcp_frame (both packed) *)
Definition TCP_HDR_SIZE : Z := 20.
Definition tcp_src_port : Z := 0.
Definition tcp_dst_port : Z := 2.
Definition tcp_seq_num : Z := 4.
Definition tcp_ack_num : Z := 8.
Definition tcp_data_offset : Z := 12.
Definition tcp_flags : Z := 13.
Definition tcp_window : Z := 14.
Definition tcp_csum : Z := 16.
Definition tcp_urgent_ptr : Z := 18.
Definition tcp_payload : Z := 20.
Definition tcp_payload_len : Z := 1520.

Ltac tcp_offsets :=
  unfold TCP_HDR_SIZE, tcp_src_port, tcp_dst_port, tcp_seq_num, tcp_ack_num, tcp_data_offset, tcp_flags,
    tcp_window, tcp_csum, tcp_urgent_ptr, tcp_payload, tcp_payload_len in *.

(** ** Segments *)

Definition build_tcp (m : mem) (tcp src_port dst_port seq_num ack_num flags window payload payload_len : Z) : mem :=
  let m := st16 m (tcp + tcp_src_port) (htons src_port) in
  let m := st16 m (tcp + tcp_dst_port) (htons dst_port) in
  let m := st32 m (tcp + tcp_seq_num) (htonl seq_num) in
  let m := st32 m (tcp + tcp_ack_num) (htonl ack_num) in
  let m := st8 m (tcp + tcp_data_offset) (Z.shiftl 5 4) in
  let m := st8 m (tcp + tcp_flags) flags in
  let m := st16 m (tcp + tcp_window) (htons window) in
  let m := st16 m (tcp + tcp_csum) 0 in
  let m := st16 m (tcp + tcp_urgent_ptr) 0 in
  let m := memmove m (tcp + tcp_payload) payload payload_len in
  st32 m (tcp + tcp_payload_len) payload_len.

Definition parse_tcp_packet (m : mem) (buf len tcp_pkt : Z) : mem * Z :=
  if len <? 20 then (m, -1)
  else
    let m := st16 m (tcp_pkt + tcp_src_port) (ntohs (ld16 m buf)) in
    let m := st16 m (tcp_pkt + tcp_dst_port) (ntohs (ld16 m (buf + 2))) in
    let m := st32 m (tcp_pkt + tcp_seq_num) (ntohl (ld32 m (buf + 4))) in
    let m := st32 m (tcp_pkt + tcp_ack_num) (ntohl (ld32 m (buf + 8))) in
    let m := st8 m (tcp_pkt + tcp_data_offset) (Z.land (Z.shiftr (m (buf + 12)) 4) 0xF) in
    let m := st8 m (tcp_pkt + tcp_flags) (m (buf + 13)) in
    let m := st16 m (tcp_pkt + tcp_window) (ntohs (ld16 m (buf + 14))) in
    let m := st16 m (tcp_pkt + tcp_csum) (ntohs (ld16 m (buf + 16))) in
    let m := st16 m (tcp_pkt + tcp_urgent_ptr) (ntohs (ld16 m (buf + 18))) in
    let hdr_len := m (tcp_pkt + tcp_data_offset) * 4 in
    if (hdr_len <? 20) || (len <? hdr_len) then (m, -1)
    else
      let m := st32 m (tcp_pkt + tcp_payload_len) (len - hdr_len) in
      let m := memmove m (tcp_pkt + tcp_payload) (buf + hdr_len) (ld32 m (tcp_pkt + tcp_payload_len)) in
      (m, 0).

(** ** Sockets *)

Definition set_family (k : socket) (f : Z) : socket :=
  mkSocket (so_pending k) (so_src_ip k) (so_dest_ip k) (so_src_port k) (so_dest_port k)
           (so_proto k) (so_type k) f (so_state k) (so_fd k) (so_ops k) (so_rx_head k) (so_rx_tail k).
Definition set_state (k : socket) (st : Z) : socket :=
  mkSocket (so_pending k) (so_src_ip k) (so_dest_ip k) (so_src_port k) (so_dest_port k)
           (so_proto k) (so_type k) (so_family k) st (so_fd k) (so_ops k) (so_rx_head k) (so_rx_tail k).

(** [socket < 0] compares the address of the function socket() with 0: the
    first test never fires, and [sock] is used unchecked.  The range test is
    on sin_port as it is in memory, in network byte order. *)
Definition tcp_bind (sock addr addrlen : Z) : M kst Z :=
  if addr =? 0 then ret (-1)
  else
    nport <- k_getmem (fun m => ld16 m (addr + sin_port)) ;;
    let port := ntohs nport in
    if (nport <? 0) || (MAX_PORT_BINDINGS <? nport) then ret (-1)
    else
    bound <- tcp_bind_at port ;;
    if negb (bound =? 0) then ret (-1)
    else
    fam <- k_getmem (fun m => ld16 m (addr + sin_family)) ;;
    k <- sock_get sock ;;
    sock_put sock (set_family k fam) ;;;
    if fam =? AF_INET then
      if negb (addrlen =? SOCKADDR_IN_SIZE) then ret (-1)
      else
        bound <- tcp_bind_at port ;;
        if negb (bound =? 0) then ret (-1)
        else
        binding <- k_kalloc ;;
        if binding =? 0 then ret (-1)
        else
          s_addr <- k_getmem (fun m => ld32 m (addr + sin_addr)) ;;
          nc <- gets k_netconf ;;
          let ip := if s_addr =? INADDR_ANY then nc_ip_addr nc else s_addr in
          k <- sock_get sock ;;
          sock_put sock (set_src_ip k (s32 ip)) ;;;
          binding_put binding (mkPortBinding (u16 ip) port sock) ;;;
          r <- insert_port_binding binding ;;
          if r =? -1 then k_kfree binding ;;; ret (-1)
          else
            fam <- k_getmem (fun m => ld16 m (addr + sin_family)) ;;
            k <- sock_get sock ;;
            sock_put sock (set_family (set_bound k port BOUND) fam) ;;;
            ret 0
    else ret (-1).

Definition tcp_connect (sock addr addrlen : Z) : M kst Z := ret 0.
Definition tcp_accept (sock addr addrlen : Z) : M kst Z := ret 0.
Definition tcp_close (sock : Z) : M kst Z := ret 0.

Definition tcp_listen (sock backlog : Z) : M kst Z :=
  k <- sock_get sock ;;
  if negb (so_type k =? SOCK_STREAM) then ret (-1)
  else if negb (so_state k =? BOUND) then ret (-1)
  else sock_put sock (set_state k LISTENING) ;;; ret 0.

(** ** Segments in and out *)

(** syn(): the answer to a connection request, which nothing calls. *)
Definition syn_mac : list Z := [0x63; 0xb0; 0xce; 0xf6; 0xeb; 0x50].

Definition syn (src_port dst_ip dst_port seq_num : Z) : M kst Z :=
  syn_tcp <- k_kalloc ;;
  if syn_tcp =? 0 then ret (-1)
  else
  ip <- k_kalloc ;;
  if ip =? 0 then ret (-1)
  else
  eth <- k_kalloc ;;
  if eth =? 0 then ret (-1)
  else
  nc <- gets k_netconf ;;
  k_setmem (fun m => build_tcp m syn_tcp src_port dst_port DEFAULT_SEQ_NUM (u32 (seq_num + 1)) (Z.land SYN ACK)
                       DEFAULT_WINDOW 0 0) ;;;
  k_setmem (fun m => build_ip4 m ip (nc_ip_addr nc) dst_ip IPPROTO_TCP TCP_HDR_SIZE) ;;;
  k_setmem (fun m => build_eth m eth syn_mac (nc_mac_addr nc) PROTO_IPV4) ;;;
  k_setmem (fun m => st16 m (ip + ip_payload_len) TCP_HDR_SIZE) ;;;
  k_setmem (fun m => memmove m (ip + ip_payload) syn_tcp (ld16 m (ip + ip_payload_len))) ;;;
  k_setmem (fun m => st8 m (eth + eth_payload_len) IP4_HDR_SIZE) ;;;
  k_setmem (fun m => memmove m (eth + eth_payload) ip (m (eth + eth_payload_len))) ;;;
  plen <- k_getmem (fun m => m (eth + eth_payload_len)) ;;
  transmit_packet eth (u16 (plen + ETH_HDR_SIZE)) PROTO_IPV4 ;;;
  ret 0.

Definition handle_tcp_packet (tcp_pkt : Z) : M kst Z :=
  dst_port <- k_getmem (fun m => ld16 m (tcp_pkt + tcp_dst_port)) ;;
  port_bind <- tcp_bind_at dst_port ;;
  if port_bind =? 0 then ret (-1)
  else
    b <- binding_get port_bind ;;
    k <- sock_get (pb_sock b) ;;
    flags <- k_getmem (fun m => m (tcp_pkt + tcp_flags)) ;;
    if negb (Z.land flags SYN =? 0) && negb (Z.land flags ACK =? 0) then ret 0
    else if negb (Z.land flags SYN =? 0) then
      if negb (so_type k =? IPPROTO_TCP) then ret (-1)
      else if negb (so_state k =? LISTENING) then ret (-1)
      else sock_put (pb_sock b) (set_state k SYN_RECVD) ;;; ret 0
    else ret 0.

(** ** Framing *)

Record tcp_hdr := mkTcp {
  t_src_port : Z; t_dst_port : Z; t_seq_num : Z; t_ack_num : Z; t_data_offset : Z; t_flags : Z;
  t_window : Z; t_csum : Z; t_urgent_ptr : Z
}.

(** The header on the wire at [a], and as parse_tcp_packet leaves it at [a]. *)
Definition wire_tcp (m : mem) (a : Z) : tcp_hdr :=
  mkTcp (ntohs (ld16 m a)) (ntohs (ld16 m (a + 2))) (ntohl (ld32 m (a + 4))) (ntohl (ld32 m (a + 8)))
        (m (a + 12) / 16) (m (a + 13)) (ntohs (ld16 m (a + 14))) (ntohs (ld16 m (a + 16))) (ntohs (ld16 m (a + 18))).
Definition host_tcp (m : mem) (a : Z) : tcp_hdr :=
  mkTcp (ld16 m (a + tcp_src_port)) (ld16 m (a + tcp_dst_port)) (ld32 m (a + tcp_seq_num))
        (ld32 m (a + tcp_ack_num)) (m (a + tcp_data_offset)) (m (a + tcp_flags)) (ld16 m (a + tcp_window))
        (ld16 m (a + tcp_csum)) (ld16 m (a + tcp_urgent_ptr)).

Lemma high_nibble x : 0 <= x < 256 -> Z.land (Z.shiftr x 4) 0xF = x / 16.
Proof.
  intros Hx. change 0xF with (2 ^ 4 - 1). rewrite land_ones_mod, Z.shiftr_div_pow2 by lia.
  change (2 ^ 4) with 16. dlia.
Qed.

(** The nine field assignments of parse_tcp_packet. *)
Definition tcp_copy_hdr (m : mem) (buf tcp_pkt : Z) : mem :=
  let m := st16 m (tcp_pkt + tcp_src_port) (ntohs (ld16 m buf)) in
  let m := st16 m (tcp_pkt + tcp_dst_port) (ntohs (ld16 m (buf + 2))) in
  let m := st32 m (tcp_pkt + tcp_seq_num) (ntohl (ld32 m (buf + 4))) in
  let m := st32 m (tcp_pkt + tcp_ack_num) (ntohl (ld32 m (buf + 8))) in
  let m := st8 m (tcp_pkt + tcp_data_offset) (Z.land (Z.shiftr (m (buf + 12)) 4) 0xF) in
  let m := st8 m (tcp_pkt + tcp_flags) (m (buf + 13)) in
  let m := st16 m (tcp_pkt + tcp_window) (ntohs (ld16 m (buf + 14))) in
  let m := st16 m (tcp_pkt + tcp_csum) (ntohs (ld16 m (buf + 16))) in
  st16 m (tcp_pkt + tcp_urgent_ptr) (ntohs (ld16 m (buf + 18))).

Lemma tcp_copy_hdr_wf m buf pkt : wf_mem m -> wf_mem (tcp_copy_hdr m buf pkt).
Proof. intros. unfold tcp_copy_hdr. wfm. Qed.

Lemma tcp_copy_hdr_out m buf pkt x : x < pkt \/ pkt + 20 <= x -> tcp_copy_hdr m buf pkt x = m x.
Proof. intros. unfold tcp_copy_hdr. tcp_offsets. mem_simpl. done. Qed.

Lemma tcp_copy_hdr_host m buf pkt :
  wf_mem m -> buf + 20 <= pkt \/ pkt + 20 <= buf -> host_tcp (tcp_copy_hdr m buf pkt) pkt = wire_tcp m buf.
Proof.
  intros Hw Hd. unfold host_tcp, wire_tcp, tcp_copy_hdr. tcp_offsets.
  f_equal; mem_simpl; try (apply u8_small, Hw); rewrite ?ldn_stn_eq;
    try (apply Z.mod_small; apply htons_range || apply htonl_range).
  rewrite high_nibble by apply Hw. pose proof (Hw (buf + 12)). apply u8_small. dlia.
Qed.

Lemma host_tcp_ext m m' a :
  (forall i, 0 <= i < 20 -> m (a + i) = m' (a + i)) -> host_tcp m a = host_tcp m' a.
Proof.
  intros H. unfold host_tcp. tcp_offsets. f_equal; try (apply H; lia); apply ldn_ext; intros x Hx;
    replace x with (a + (x - a)) by lia; apply H; lia.
Qed.

(** Everything parse_tcp_packet does. *)
Lemma parse_tcp_packet_spec m buf len pkt :
  wf_mem m -> 0 <= len <= 1500 -> buf + Z.max 20 len <= pkt \/ pkt + 1524 <= buf ->
  let h := wire_tcp m buf in let hl := t_data_offset h * 4 in
  let ok := (20 <=? len) && (20 <=? hl) && (hl <=? len) in
  exists m', parse_tcp_packet m buf len pkt = (m', if ok then 0 else -1) /\ wf_mem m' /\
    (forall x, x < pkt \/ pkt + 1524 <= x -> m' x = m x) /\
    (20 <= len -> host_tcp m' pkt = h) /\
    (ok = true -> ld32 m' (pkt + tcp_payload_len) = len - hl /\
       forall i, 0 <= i < len - hl -> m' (pkt + tcp_payload + i) = m (buf + hl + i)).
Proof.
  intros Hw Hl Hd h hl ok. unfold parse_tcp_packet. fold (tcp_copy_hdr m buf pkt).
  destruct (Z.ltb_spec len 20) as [H20|H20].
  { assert (ok = false) as -> by (unfold ok; by zb). exists m. split_and!; [done|done|done|lia|done]. }
  pose proof (tcp_copy_hdr_host m buf pkt Hw ltac:(lia)) as Hh.
  set (m1 := tcp_copy_hdr m buf pkt) in *. assert (wf_mem m1) as Hw1 by by apply tcp_copy_hdr_wf.
  assert (m1 (pkt + tcp_data_offset) = t_data_offset h) as ->.
  { change (m1 (pkt + tcp_data_offset)) with (t_data_offset (host_tcp m1 pkt)). by rewrite Hh. }
  fold hl. assert (forall x, x < pkt \/ pkt + 20 <= x -> m1 x = m x) as Ho1 by (intros; by apply tcp_copy_hdr_out).
  unfold ok. zb. cbn [andb]. tcp_offsets.
  destruct (Z.ltb_spec hl 20), (Z.ltb_spec len hl); [exfalso; lia|..]; cbn [orb]; zb; cbn [andb];
    try (exists m1; split_and!; [done|done|intros; apply Ho1; lia|done|done]).
  rewrite ldn_stn_eq, ld32_mod by lia.
  assert (wf_mem (st32 m1 (pkt + 1520) (len - hl))) as Hw2 by wfm.
  eexists. split; [reflexivity|]. split_and!.
  - apply memmove_wf; [done|lia].
  - intros x Hx. rewrite memmove_out, stn_out by (auto; lia). apply Ho1. lia.
  - intros _. unfold h. rewrite <- Hh. apply host_tcp_ext. intros i Hi.
    rewrite memmove_out, stn_out by (auto; lia). done.
  - intros _. split.
    + rewrite ldn_memmove_ne, ldn_stn_eq by (auto; lia). apply ld32_mod. lia.
    + intros i Hi. rewrite memmove_in, stn_out by (auto; lia). rewrite Ho1 by lia. f_equal. lia.
Qed.

Lemma build_tcp_wf m tcp sp dp seq ack fl win pay len :
  wf_mem m -> 0 <= len -> wf_mem (build_tcp m tcp sp dp seq ack fl win pay len).
Proof. intros. unfold build_tcp. wfm. Qed.

Lemma build_tcp_wire m tcp sp dp seq ack fl win pay len :
  wf_mem m -> 0 <= sp < 2 ^ 16 -> 0 <= dp < 2 ^ 16 -> 0 <= seq < 2 ^ 32 -> 0 <= ack < 2 ^ 32 ->
  0 <= fl < 256 -> 0 <= win < 2 ^ 16 -> 0 <= len <= 1500 ->
  wire_tcp (build_tcp m tcp sp dp seq ack fl win pay len) tcp = mkTcp sp dp seq ack 5 fl win 0 0.
Proof.
  intros Hw Hsp Hdp Hseq Hack Hfl Hwin Hl. unfold wire_tcp, build_tcp. tcp_offsets. rewrite Z.add_0_r.
  set (m1 := stn 2 _ _ 0). assert (wf_mem m1) as Hw1 by (unfold m1; wfm).
  rewrite !(ldn_stn_ne _ 4), !ldn_memmove_ne, !(stn_out 4), !memmove_out by (auto; lia). unfold m1.
  f_equal; mem_simpl; rewrite ?ld16_mod, ?ld32_mod by (apply htons_range || apply htonl_range);
    lazymatch goal with
    | |- ntohs (htons _) = _ => by apply ntohs_htons
    | |- ntohl (htonl _) = _ => by apply ntohl_htonl
    | |- u8 fl = _ => by apply u8_small
    | _ => reflexivity
    end.
Qed.

(** ** Properties *)

(** A segment built by build_tcp is read back by parse_tcp_packet: ports,
    sequence and acknowledgement numbers, flags, window and payload; its
    checksum field is zero. *)
Lemma tcp_roundtrip m tcp sp dp seq ack fl win pay len pkt :
  wf_mem m -> 0 <= sp < 2 ^ 16 -> 0 <= dp < 2 ^ 16 -> 0 <= seq < 2 ^ 32 -> 0 <= ack < 2 ^ 32 ->
  0 <= fl < 256 -> 0 <= win < 2 ^ 16 -> 0 <= len <= 1480 ->
  pay + len <= tcp \/ tcp + 1524 <= pay -> tcp + 20 + len <= pkt \/ pkt + 1524 <= tcp ->
  exists m', parse_tcp_packet (build_tcp m tcp sp dp seq ack fl win pay len) tcp (20 + len) pkt = (m', 0) /\
    host_tcp m' pkt = mkTcp sp dp seq ack 5 fl win 0 0 /\
    ld32 m' (pkt + tcp_payload_len) = len /\
    ldbytes m' (pkt + tcp_payload) (Z.to_nat len) = ldbytes m pay (Z.to_nat len).
Proof.
  intros Hw Hsp Hdp Hseq Hack Hfl Hwin Hl Hpay Hpkt. set (b := build_tcp _ _ _ _ _ _ _ _ _ _).
  assert (wf_mem b) as Hwb by (apply build_tcp_wf; [done|lia]).
  pose proof (build_tcp_wire m tcp sp dp seq ack fl win pay len Hw Hsp Hdp Hseq Hack Hfl Hwin ltac:(lia)) as Hh.
  fold b in Hh.
  destruct (parse_tcp_packet_spec b tcp (20 + len) pkt Hwb ltac:(lia) ltac:(lia)) as (m' & HR & _ & _ & Hhost & Hok).
  rewrite Hh in HR, Hhost, Hok. cbn [t_data_offset] in HR, Hok. revert HR Hok. zb. cbn [andb]. intros HR Hok.
  destruct (Hok eq_refl) as [Hlen Hdata]. exists m'. split_and!; [exact HR|apply Hhost; lia|lia|].
  apply ldbytes_ext. intros i Hi. rewrite Hdata by lia. unfold b, build_tcp. tcp_offsets.
  rewrite stn_out, memmove_in by (try wfm; lia). mem_simpl. f_equal. lia.
Qed.

(** The range test of tcp_bind looks at the port in network byte order:
    ports 3 to 255 and 258 to 511 are refused however they are asked for, and
    the bind reaches past the end of tcp_port_binds when the two bytes swapped
    pass the test but the port itself is 512 or more. *)
Lemma tcp_bind_port_test s sock addr addrlen :
  let nport := ld16 (ph_mem (k_phys s)) (addr + sin_port) in let port := ntohs nport in
  wf_mem (ph_mem (k_phys s)) -> length (st_tcp_binds (k_sockets s)) = 512%nat -> addr <> 0 ->
  (2 < port < 256 \/ 257 < port < 512 -> tcp_bind sock addr addrlen s = Ret (-1) s) /\
  (nport <= 512 -> 512 <= port -> tcp_bind sock addr addrlen s = Fault s).
Proof.
  intros nport port Hw Hlen Ha. pose proof (ld16_range (ph_mem (k_phys s)) (addr + sin_port) Hw) as Hr.
  fold nport in Hr. assert (port = nport / 256 + nport mod 256 * 256) as Hp.
  { unfold port. rewrite ntohs_htons_def, htons_arith by done. lia. }
  unfold tcp_bind. zb. rewrite (bind_Ret _ _ _ _ _ (k_getmem_Ret _ _)). fold nport. fold port.
  unfold MAX_PORT_BINDINGS. split.
  - intros H. replace (512 <? nport) with true; [by zb|]. symmetry. apply Z.ltb_lt. dlia.
  - intros H1 H2. zb. cbn [orb]. unfold tcp_bind_at, bind. by rewrite znth_out by lia.
Qed.

(** [tred] reduces projections of states the tables of which were updated. *)
Ltac tred :=
  kred; cbn [with_socket set_bindings set_tcp_binds set_udp_binds st_udp_binds st_tcp_binds st_bindings st_sockets
             st_sock_list st_tcp_list st_udp_list pb_sock pb_port pb_ip_addr].

Lemma insert_tcp_binding s f b k l :
  st_bindings (k_sockets s) !! f = Some b -> st_sockets (k_sockets s) !! pb_sock b = Some k ->
  so_proto k = IPPROTO_TCP -> port_binds_lock ∉ k_held s ->
  zset (st_tcp_binds (k_sockets s)) (pb_port b) f = Some l ->
  insert_port_binding f s = Ret 0 (set_sockets (set_tcp_binds l (k_sockets s)) s).
Proof.
  intros Hb Hk Hp Hlk Hz. unfold insert_port_binding.
  erewrite bind_Ret by (apply acquire_ok; exact Hlk). kred.
  erewrite bind_Ret by (unfold binding_get; kred; by rewrite Hb).
  erewrite bind_Ret by (unfold sock_get; kred; by rewrite Hk). rewrite Hp.
  change (IPPROTO_TCP =? IPPROTO_TCP) with true. cbn iota.
  erewrite bind_Ret by (unfold set_tcp_bind; kred; by rewrite Hz).
  erewrite bind_Ret by (apply release_ok; first [reflexivity | exact Hlk]). by destruct s.
Qed.

(** tcp_bind for a port the test lets through. *)
Lemma tcp_bind_ok s sock k addr f l :
  let nport := ld16 (ph_mem (k_phys s)) (addr + sin_port) in let port := ntohs nport in
  wf_mem (ph_mem (k_phys s)) ->
  st_sockets (k_sockets s) !! sock = Some k -> addr <> 0 -> so_proto k = IPPROTO_TCP ->
  ld16 (ph_mem (k_phys s)) (addr + sin_family) = AF_INET ->
  nport <= MAX_PORT_BINDINGS -> port < MAX_PORT_BINDINGS -> length (st_tcp_binds (k_sockets s)) = 512%nat ->
  znth (st_tcp_binds (k_sockets s)) port = Some 0 ->
  Pool.free (ph_pool (k_phys s)) = f :: l -> f <> 0 -> addr + 16 <= f \/ f + PGSIZE <= addr ->
  port_binds_lock ∉ k_held s ->
  exists s' b, tcp_bind sock addr SOCKADDR_IN_SIZE s = Ret 0 s' /\
    st_sockets (k_sockets s') !! sock
      = Some (set_family (set_bound (set_src_ip (set_family k AF_INET) (s32 (bind_ip s addr))) port BOUND) AF_INET) /\
    znth (st_tcp_binds (k_sockets s')) port = Some f /\ st_bindings (k_sockets s') !! f = Some b /\
    pb_sock b = sock /\ pb_port b = port /\
    (forall p, p <> port -> znth (st_tcp_binds (k_sockets s')) p = znth (st_tcp_binds (k_sockets s)) p).
Proof.
  intros nport port Hw Hk Ha0 Hpr Hfam Hnp Hport Hlen Hz Hf Hf0 Hap Hlk. unfold MAX_PORT_BINDINGS in *.
  pose proof (ld16_range (ph_mem (k_phys s)) (addr + sin_port) Hw) as Hr. fold nport in Hr.
  assert (0 <= port) as Hp0 by apply htons_range.
  set (m1 := memset (ph_mem (k_phys s)) f 5 PGSIZE).
  assert (forall n o, 0 <= o -> o + Z.of_nat n <= 16 -> ldn n m1 (addr + o) = ldn n (ph_mem (k_phys s)) (addr + o)) as Hld.
  { intros n o Ho Hn. apply ldn_memset_ne. unfold PGSIZE in *. lia. }
  eexists _, _. split.
  - unfold tcp_bind. zb. rewrite (bind_Ret _ _ _ _ _ (k_getmem_Ret _ _)). fold nport port.
    unfold MAX_PORT_BINDINGS. zb. cbn [orb].
    erewrite bind_Ret by (unfold tcp_bind_at; by rewrite Hz). cbn [Z.eqb negb].
    rewrite (bind_Ret _ _ _ _ _ (k_getmem_Ret _ _)), Hfam.
    erewrite bind_Ret by (apply sock_get_Ret; exact Hk).
    erewrite bind_Ret by (eapply sock_put_Ret; exact Hk).
    change (AF_INET =? AF_INET) with true. change (SOCKADDR_IN_SIZE =? SOCKADDR_IN_SIZE) with true. cbn [negb].
    erewrite bind_Ret by (unfold tcp_bind_at; tred; by rewrite Hz). cbn [Z.eqb negb].
    erewrite bind_Ret by (apply k_kalloc_cons; exact Hf). zb.
    rewrite (bind_Ret _ _ _ _ _ (k_getmem_Ret _ _)), bind_gets. tred. fold m1.
    rewrite (Hld 4%nat sin_addr) by (unfold sin_addr; lia). fold (bind_ip s addr).
    erewrite bind_Ret by (apply sock_get_Ret; tred; apply lookup_insert_eq).
    erewrite bind_Ret by (eapply sock_put_Ret; tred; apply lookup_insert_eq).
    unfold bind at 1, binding_put at 1, modify at 1. tred.
    erewrite bind_Ret; [|eapply insert_tcp_binding; tred;
      [apply lookup_insert_eq|apply lookup_insert_eq|exact Hpr|exact Hlk|apply zset_Some; rewrite Hlen; cbn [pb_port]; lia]].
    change (0 =? -1) with false. cbn iota. tred.
    rewrite (bind_Ret _ _ _ _ _ (k_getmem_Ret _ _)). tred. fold m1.
    rewrite (Hld 2%nat sin_family) by (unfold sin_family; lia). rewrite Hfam.
    erewrite bind_Ret by (apply sock_get_Ret; tred; apply lookup_insert_eq).
    erewrite bind_Ret by (eapply sock_put_Ret; tred; apply lookup_insert_eq).
    reflexivity.
  - tred. cbn. split_and!.
    + by rewrite lookup_insert_eq.
    + apply (znth_zset_eq (st_tcp_binds (k_sockets s))). apply zset_Some. rewrite Hlen. lia.
    + apply lookup_insert_eq.
    + done.
    + done.
    + intros p Hp. eapply znth_zset_ne; [apply not_eq_sym, Hp|]. apply zset_Some. rewrite Hlen. lia.
Qed.

(** A bind that passes the port test followed by listen leaves the socket
    LISTENING on that port, reachable through tcp_port_binds, and no other
    port's entry changes. *)
Lemma tcp_bind_listen s sock k addr f l backlog :
  let nport := ld16 (ph_mem (k_phys s)) (addr + sin_port) in let port := ntohs nport in
  wf_mem (ph_mem (k_phys s)) ->
  st_sockets (k_sockets s) !! sock = Some k -> addr <> 0 -> so_proto k = IPPROTO_TCP -> so_type k = SOCK_STREAM ->
  ld16 (ph_mem (k_phys s)) (addr + sin_family) = AF_INET ->
  nport <= MAX_PORT_BINDINGS -> port < MAX_PORT_BINDINGS -> length (st_tcp_binds (k_sockets s)) = 512%nat ->
  znth (st_tcp_binds (k_sockets s)) port = Some 0 ->
  Pool.free (ph_pool (k_phys s)) = f :: l -> f <> 0 -> addr + 16 <= f \/ f + PGSIZE <= addr ->
  port_binds_lock ∉ k_held s ->
  exists s' b k', (tcp_bind sock addr SOCKADDR_IN_SIZE ;;; tcp_listen sock backlog) s = Ret 0 s' /\
    znth (st_tcp_binds (k_sockets s')) port = Some f /\ st_bindings (k_sockets s') !! f = Some b /\
    pb_sock b = sock /\ st_sockets (k_sockets s') !! sock = Some k' /\
    so_state k' = LISTENING /\ so_src_port k' = port /\
    (forall p, p <> port -> znth (st_tcp_binds (k_sockets s')) p = znth (st_tcp_binds (k_sockets s)) p).
Proof.
  intros nport port Hw Hk Ha0 Hpr Hty Hfam Hnp Hport Hlen Hz Hf Hf0 Hap Hlk.
  destruct (tcp_bind_ok s sock k addr f l) as (s1 & b & HB & Hk1 & Hz1 & Hb1 & Hbs & _ & Hoth); try done.
  rewrite (bind_Ret _ _ _ _ _ HB). unfold tcp_listen.
  erewrite bind_Ret by (apply sock_get_Ret; exact Hk1). cbn [so_type set_family set_bound set_src_ip so_state].
  rewrite Hty. change (SOCK_STREAM =? SOCK_STREAM) with true. change (BOUND =? BOUND) with true. cbn [negb].
  erewrite bind_Ret by (eapply sock_put_Ret; exact Hk1).
  eexists _, b, _. split; [reflexivity|]. tred. rewrite lookup_insert_eq. split_and!; done.
Qed.

(** No segment opens a connection.  A SYN for a bound port is refused
    (the handler compares the socket's type with a protocol number), every
    other segment leaves the sockets as they are, and a segment for port 512
    or above reads past the end of tcp_port_binds. *)
Lemma tcp_syn_refused s pkt :
  let port := ld16 (ph_mem (k_phys s)) (pkt + tcp_dst_port) in
  let flags := ph_mem (k_phys s) (pkt + tcp_flags) in
  length (st_tcp_binds (k_sockets s)) = 512%nat -> 0 <= port ->
  (forall p b, znth (st_tcp_binds (k_sockets s)) p = Some b -> b <> 0 -> exists bd k,
     st_bindings (k_sockets s) !! b = Some bd /\ st_sockets (k_sockets s) !! pb_sock bd = Some k /\
     (so_type k = SOCK_STREAM \/ so_type k = SOCK_DGRAM)) ->
  if port <? 512 then
    exists r, handle_tcp_packet pkt s = Ret r s /\
      (Z.land flags SYN <> 0 -> Z.land flags ACK = 0 -> r = -1)
  else handle_tcp_packet pkt s = Fault s.
Proof.
  intros port flags Hlen Hp0 Hinv. unfold handle_tcp_packet.
  rewrite (bind_Ret _ _ _ _ _ (k_getmem_Ret _ _)). fold port.
  destruct (Z.ltb_spec port 512) as [Hp|Hp].
  2: { unfold tcp_bind_at, bind. by rewrite znth_out by lia. }
  destruct (znth_is_Some (st_tcp_binds (k_sockets s)) port) as [b Hb]; [lia|].
  erewrite bind_Ret by (unfold tcp_bind_at; by rewrite Hb).
  destruct (Z.eqb_spec b 0) as [->|Hb0]; [by exists (-1)|].
  destruct (Hinv port b Hb Hb0) as (bd & k & Hbd & Hk & Hty).
  erewrite bind_Ret by (unfold binding_get; by rewrite Hbd).
  erewrite bind_Ret by (apply sock_get_Ret; exact Hk).
  rewrite (bind_Ret _ _ _ _ _ (k_getmem_Ret _ _)). fold flags.
  assert (so_type k =? IPPROTO_TCP = false) as -> by (destruct Hty as [-> | ->]; reflexivity).
  destruct (Z.eqb_spec (Z.land flags SYN) 0) as [E1|E1], (Z.eqb_spec (Z.land flags ACK) 0) as [E2|E2];
    cbn [negb andb]; eexists; (split; [reflexivity|]); intros; congruence.
Qed.

(** ** Witnesses *)

Definition tcp_socket (st : Z) : socket :=
  mkSocket 0 0x0a0a000a 0 0 0 IPPROTO_TCP SOCK_STREAM AF_INET st 3 tcp_ops 0 0.
Definition tcp_mem (port flags : Z) : mem :=
  st16 (st8 (st16 (st16 (demo_mem 40) 0x87ff4000 AF_INET) (0x87ff4000 + sin_port) (htons port))
    (0x87ff8000 + tcp_flags) flags) (0x87ff8000 + tcp_dst_port) port.
Definition tcp_kernel (st port flags bound : Z) : kst :=
  set_sockets (mkSockets (replicate 512 0) (<[Z.to_nat port := bound]> (replicate 512 0))
    {[0x87ff6000 := mkPortBinding 0 port 0x87ff3000]} {[0x87ff3000 := tcp_socket st]} None None None)
    (set_phys (mkPhys (tcp_mem port flags) (Pool.mkPool [0x87fff000; 0x87ffe000] (fun _ => 0)) 0x87ff0000)
       (demo_kernel 0 40)).

Lemma tcp_mem_wf port flags : wf_mem (tcp_mem port flags).
Proof. unfold tcp_mem. apply stn_wf, st8_wf, stn_wf, stn_wf, demo_mem_wf. Qed.

