(* ===== verification/Socket.v ===== *)
(** * kernel/sys/socket.c

    The socket lists, the search by descriptor, initialisation of a socket and
    the dispatch of the socket calls through the two tables of operations.
    Port bindings are in Ports.v, the operations themselves in Udp.v and Tcp.v. *)
From S2P Require Import Prelude Mem StringC Net Kalloc Page Vm KState Eth Ip4 VirtioNet Arp Ports Udp UdpSend Tcp.
From Stdlib Require Import ZArith Lia.
From stdpp Require Import strings.
Local Open Scope list_scope.
Local Open Scope Z_scope.
Local Open Scope kernel_scope.

(** ** The three lists *)

Inductive which_list := all_list | tcp_list | udp_list.

Definition get_list (w : which_list) (t : sockets) : option socket_list :=
  match w with all_list => st_sock_list t | tcp_list => st_tcp_list t | udp_list => st_udp_list t end.
Definition put_list (w : which_list) (l : option socket_list) (t : sockets) : sockets :=
  let mk := mkSockets (st_udp_binds t) (st_tcp_binds t) (st_bindings t) (st_sockets t) in
  match w with
  | all_list => mk l (st_tcp_list t) (st_udp_list t)
  | tcp_list => mk (st_sock_list t) l (st_udp_list t)
  | udp_list => mk (st_sock_list t) (st_tcp_list t) l
  end.

(** The list behind a pointer: a null pointer is a fault. *)
Definition list_get (w : which_list) : M kst socket_list := fun s =>
  match get_list w (k_sockets s) with Some l => Ret l s | None => Fault s end.
Definition list_put (w : which_list) (l : socket_list) : M kst unit :=
  modify (fun s => set_sockets (put_list w (Some l) (k_sockets s)) s).

(** [for (i = 0; i < MAX_SOCKET_CAPACITY; i++) if (socks[i] == 0) { socks[i] = sock; ...; break; }]:
    the slot taken, and the array. *)
Fixpoint insert_first (socks : list Z) (i sock : Z) : option (Z * list Z) :=
  match socks with
  | [] => None
  | p :: socks =>
      if p =? 0 then Some (i, sock :: socks)
      else match insert_first socks (i + 1) sock with Some (j, l) => Some (j, p :: l) | None => None end
  end.

(** The loop with its [size++]; the slot, or -1 when there is none. *)
Definition list_insert (w : which_list) (sock : Z) : M kst Z :=
  l <- list_get w ;;
  match insert_first (sl_socks l) 0 sock with
  | Some (i, socks) => list_put w (mkSocketList socks (s32 (sl_size l + 1))) ;;; ret i
  | None => ret (-1)
  end.

Definition tcp_socket_list_insert (sock : Z) : M kst Z := list_insert tcp_list sock ;;; ret 0.
Definition udp_socket_list_insert (sock : Z) : M kst Z := list_insert udp_list sock ;;; ret 0.

(** [for (i = 0; i < size; i++) if (socks[i]->fd == fd) return socks[i];] *)
Fixpoint getsock_loop (socks : list Z) (i size fd : Z) : M kst Z :=
  if size <=? i then ret 0
  else match socks with
       | [] => fault
       | p :: socks =>
           nonnull p ;;;
           k <- sock_get p ;;
           if so_fd k =? fd then ret p else getsock_loop socks (i + 1) size fd
       end.

Definition getsock (fd : Z) : M kst Z :=
  l <- list_get all_list ;; getsock_loop (sl_socks l) 0 (sl_size l) fd.

(** [for (i = 0; ...; i++) if (socks[i]->fd == fd) { socks[i] = 0; size--; break; }] *)
Fixpoint clear_loop (socks : list Z) (fd : Z) : M kst (option (list Z)) :=
  match socks with
  | [] => ret None
  | p :: socks =>
      nonnull p ;;;
      k <- sock_get p ;;
      if so_fd k =? fd then ret (Some (0 :: socks))
      else r <- clear_loop socks fd ;;
           ret (match r with Some l => Some (p :: l) | None => None end)
  end.

Definition list_clear (w : which_list) (fd : Z) : M kst unit :=
  l <- list_get w ;;
  r <- clear_loop (sl_socks l) fd ;;
  match r with
  | Some socks => list_put w (mkSocketList socks (s32 (sl_size l - 1)))
  | None => ret tt
  end.

(** kfree() of a socket's page: the object is gone. *)
Definition free_socket (p : Z) : M kst unit :=
  k_kfree p ;;;
  modify (fun s => let t := k_sockets s in
    set_sockets (mkSockets (st_udp_binds t) (st_tcp_binds t) (st_bindings t) (delete p (st_sockets t))
                           (st_sock_list t) (st_tcp_list t) (st_udp_list t)) s).

Definition socket_list_remove (fd : Z) : M kst Z :=
  l <- list_get all_list ;;
  match znth (sl_socks l) fd with
  | None => fault
  | Some e =>
      if e =? 0 then ret (-1)
      else
        sock <- getsock fd ;;
        if sock =? 0 then ret (-1)
        else
          list_put all_list (mkSocketList (sl_socks l) (s32 (sl_size l - 1))) ;;;
          k <- sock_get sock ;;
          (if so_type k =? SOCK_STREAM then list_clear tcp_list fd
           else if so_type k =? SOCK_DGRAM then list_clear udp_list fd
           else ret tt) ;;;
          free_socket sock ;;;
          ret 1
  end.

(** [sock_list->socks[idx] = 0; sock_list->size--; return -1;] *)
Definition undo_insert (idx : Z) : M kst Z :=
  l <- list_get all_list ;;
  match zset (sl_socks l) idx 0 with
  | Some socks => list_put all_list (mkSocketList socks (s32 (sl_size l - 1))) ;;; ret (-1)
  | None => fault
  end.

Definition sock_list_insert (sock : Z) : M kst Z :=
  l <- list_get all_list ;;
  if sl_size l =? MAX_SOCKET_CAPACITY then ret (-1)
  else
    idx <- list_insert all_list sock ;;
    k <- sock_get sock ;;
    if so_type k =? SOCK_DGRAM then
      r <- udp_socket_list_insert sock ;;
      if r =? -1 then undo_insert idx else ret 0
    else if so_type k =? SOCK_STREAM then
      r <- tcp_socket_list_insert sock ;;
      if r =? -1 then undo_insert idx else ret 0
    else ret 0.

(** ** The socket calls *)

Definition ops_bind (o : socket_ops) (sock addr addrlen : Z) : M kst Z :=
  match o with
  | udp_ops => udp_bind sock addr addrlen
  | tcp_ops => tcp_bind sock addr addrlen
  | null_ops => fault
  end.
Definition ops_listen (o : socket_ops) (sock backlog : Z) : M kst Z :=
  match o with tcp_ops => tcp_listen sock backlog | udp_ops | null_ops => fault end.
Definition ops_sendto (o : socket_ops) (sock buf len flags dest addrlen : Z) : M kst Z :=
  match o with udp_ops => udp_sendto sock buf len flags dest addrlen | tcp_ops | null_ops => fault end.
Definition ops_recvfrom (o : socket_ops) (sock buf len flags src addrlen : Z) : M kst Z :=
  match o with udp_ops => udp_recvfrom sock buf len flags src addrlen | tcp_ops | null_ops => fault end.

Definition sock_bind (fd addr addrlen : Z) : M kst Z :=
  sock <- getsock fd ;;
  if sock =? 0 then ret (-1)
  else k <- sock_get sock ;; ops_bind (so_ops k) sock addr addrlen.

Definition listen (fd backlog : Z) : M kst Z :=
  sock <- getsock fd ;;
  if sock =? 0 then ret (-1)
  else k <- sock_get sock ;; ops_listen (so_ops k) sock backlog ;;; ret 0.

Definition accept (fd address address_len : Z) : M kst Z :=
  sock <- getsock fd ;;
  if sock =? 0 then ret (-1)
  else
    k <- sock_get sock ;;
    if negb (so_proto k =? IPPROTO_TCP) || negb (so_type k =? SOCK_STREAM) then ret (-1)
    else if negb (so_state k =? LISTENING) then ret (-1)
    else
      acquire (sock_lock sock) ;;;
      (if so_pending k =? 0
       then release (sock_lock sock) ;;; (fun s => Blocked sock s)
       else release (sock_lock sock) ;;; ret (so_fd k)).

Definition connect (fd address address_len : Z) : M kst Z := ret 0.
Definition sock_close (fd : Z) : M kst Z := ret 0.
Definition send (fd msg length flags : Z) : M kst Z := ret 0.
Definition recv (fd buf length flags : Z) : M kst Z := ret 0.

Definition sendto (fd msg length flags dst_addr dst_len : Z) : M kst Z :=
  sock <- getsock fd ;;
  if sock =? 0 then ret (-1)
  else k <- sock_get sock ;; ops_sendto (so_ops k) sock msg length flags dst_addr dst_len.

Definition recvfrom (fd buffer length flags addr addrlen : Z) : M kst Z :=
  sock <- getsock fd ;;
  if sock =? 0 then ret (-1)
  else k <- sock_get sock ;; ops_recvfrom (so_ops k) sock buffer length flags addr addrlen.

(** ** Creation *)

(** The protocol initsocket settles on, or None for the combinations it refuses. *)
Definition socket_proto (family type protocol : Z) : option Z :=
  if negb (family =? AF_INET) then None
  else if negb (type =? SOCK_STREAM) && negb (type =? SOCK_DGRAM) then None
  else
    let protocol := if protocol =? 0
                    then (if type =? SOCK_STREAM then IPPROTO_TCP
                          else if type =? SOCK_DGRAM then IPPROTO_UDP else protocol)
                    else protocol in
    if negb (protocol =? IPPROTO_TCP) && negb (protocol =? IPPROTO_UDP) then None
    else if (protocol =? IPPROTO_TCP) && negb (type =? SOCK_STREAM)
            || (protocol =? IPPROTO_UDP) && negb (type =? SOCK_DGRAM) then None
    else Some protocol.

Definition initsocket (sock family type protocol : Z) : M kst Z :=
  match socket_proto family type protocol with
  | None => ret (-1)
  | Some proto =>
      k <- sock_get sock ;;
      nc <- gets k_netconf ;;
      let ops := if proto =? IPPROTO_UDP then udp_ops else if proto =? IPPROTO_TCP then tcp_ops else so_ops k in
      sock_put sock (mkSocket (so_pending k) (s32 (nc_ip_addr nc)) (so_dest_ip k) (so_src_port k) (so_dest_port k)
                              proto type family CLOSED (so_fd k) ops 0 0) ;;;
      r <- sock_list_insert sock ;;
      if r =? -1 then ret (-1) else ret 0
  end.

(** sock_list_init() and its two twins: kalloc() fills the page with 5s, and
    nothing sets [size]. *)
Definition list_init (w : which_list) : M kst unit :=
  p <- k_kalloc ;;
  if p =? 0 then modify (fun s => set_sockets (put_list w None (k_sockets s)) s)
  else
    size <- k_getmem (fun m => s32 (ld32 m (p + 8))) ;;
    q <- k_kalloc ;;
    if q =? 0 then k_kfree p ;;; modify (fun s => set_sockets (put_list w None (k_sockets s)) s)
    else
      k_setmem (fun m => memset m q 0 PGSIZE) ;;;
      list_put w (mkSocketList (replicate 512 0) size).

Definition socket_init : M kst unit := list_init all_list ;;; list_init tcp_list ;;; list_init udp_list.

(** ** The lists hold the sockets created so far *)

(** The [size] a list starts from: a page of kalloc()'s filling read as an int. *)
Definition JUNK : Z := 0x05050505.

Lemma insert_first_append ps n i sock :
  Forall (fun p => p <> 0) ps ->
  insert_first (ps ++ replicate (S n) 0) i sock = Some (i + Z.of_nat (length ps), ps ++ sock :: replicate n 0).
Proof.
  intros H. revert i. induction H as [|p ps Hp H IH]; intros i; cbn [app insert_first replicate length].
  - cbn. by rewrite Z.add_0_r.
  - zb. rewrite IH. do 2 f_equal. lia.
Qed.

Lemma insert_first_full ps i sock : Forall (fun p => p <> 0) ps -> insert_first ps i sock = None.
Proof. intros H. revert i. induction H as [|p ps Hp H IH]; intros i; cbn [insert_first]; [done|]. zb. by rewrite IH. Qed.

(** A list that holds exactly [ps]. *)
Record list_holds (s : kst) (w : which_list) (ps : list Z) : Prop := {
  lh_list : get_list w (k_sockets s)
            = Some (mkSocketList (ps ++ replicate (512 - length ps) 0) (JUNK + Z.of_nat (length ps)));
  lh_room : (length ps <= 512)%nat;
  lh_live : Forall (fun p => p <> 0 /\ is_Some (st_sockets (k_sockets s) !! p)) ps
}.

Lemma list_get_Ret s w l : get_list w (k_sockets s) = Some l -> list_get w s = Ret l s.
Proof. intros H. unfold list_get. by rewrite H. Qed.

(** The descriptor of a socket. *)
Definition fd_of (s : kst) (p : Z) : option Z := so_fd <$> (st_sockets (k_sockets s) !! p).

(** The first socket of [ps] with descriptor [fd]. *)
Fixpoint first_with (s : kst) (ps : list Z) (fd : Z) : option Z :=
  match ps with
  | [] => None
  | p :: ps => if decide (fd_of s p = Some fd) then Some p else first_with s ps fd
  end.

Lemma getsock_loop_spec s ps n i size fd :
  Forall (fun p => p <> 0 /\ is_Some (st_sockets (k_sockets s) !! p)) ps ->
  i + Z.of_nat (length ps) < size ->
  getsock_loop (ps ++ replicate n 0) i size fd s
  = match first_with s ps fd with Some p => Ret p s | None => Fault s end.
Proof.
  intros H. revert i. induction H as [|p ps [Hp0 [k Hk]] H IH]; intros i Hs; cbn [app length first_with] in *.
  - destruct n; cbn [replicate getsock_loop]; zb; done.
  - cbn [getsock_loop]. zb. unfold nonnull. zb. unfold bind at 1, ret at 1.
    erewrite bind_Ret by (apply sock_get_Ret; exact Hk). unfold fd_of. rewrite Hk. cbn [fmap option_fmap option_map].
    destruct (Z.eqb_spec (so_fd k) fd) as [->|Hne]; [by rewrite decide_True|].
    rewrite decide_False by congruence. apply IH. lia.
Qed.

Lemma getsock_spec s ps fd :
  list_holds s all_list ps ->
  getsock fd s = match first_with s ps fd with Some p => Ret p s | None => Fault s end.
Proof.
  intros [Hl Hr Hv]. unfold getsock. erewrite bind_Ret by (apply list_get_Ret; exact Hl).
  cbn [sl_socks sl_size]. apply getsock_loop_spec; [done|]. unfold JUNK. lia.
Qed.

(** Inserting one more socket. *)
Lemma list_insert_spec s w ps sock :
  list_holds s w ps -> (length ps < 512)%nat -> sock <> 0 -> is_Some (st_sockets (k_sockets s) !! sock) ->
  exists s', list_insert w sock s = Ret (Z.of_nat (length ps)) s' /\ list_holds s' w (ps ++ [sock]) /\
    s' = set_sockets (put_list w (get_list w (k_sockets s')) (k_sockets s)) s.
Proof.
  intros [Hl Hr Hv] Hlt H0 Hs. unfold list_insert. erewrite bind_Ret by (apply list_get_Ret; exact Hl).
  cbn [sl_socks sl_size]. replace (512 - length ps)%nat with (S (511 - length ps)) by lia.
  rewrite insert_first_append by (eapply Forall_impl; [exact Hv|]; by intros ? []).
  eexists. split; [reflexivity|]. split; [split|].
  - destruct w; cbn [get_list put_list k_sockets set_sockets st_sock_list st_tcp_list st_udp_list];
      rewrite length_app, Nat.add_1_r, <- app_assoc; cbn [app];
      replace (512 - S (length ps))%nat with (511 - length ps)%nat by lia;
      rewrite s32_small by (unfold JUNK; lia); do 2 f_equal; lia.
  - rewrite length_app. cbn. lia.
  - apply Forall_app. split; [|constructor; [|constructor]]; destruct w; cbn; done.
  - by destruct w.
Qed.

#[export] Instance which_list_eq : EqDecision which_list.
Proof. solve_decision. Defined.

Lemma get_put_list w w' l t : get_list w' (put_list w l t) = if decide (w = w') then l else get_list w' t.
Proof. by destruct w, w'. Qed.

Lemma list_holds_put s w w' l ps :
  w <> w' -> list_holds s w' ps -> list_holds (set_sockets (put_list w l (k_sockets s)) s) w' ps.
Proof.
  intros Hne [Hl Hr Hv]. split; [|done|]; cbn [k_sockets set_sockets].
  - by rewrite get_put_list, decide_False.
  - by destruct w.
Qed.

Lemma list_holds_sock s w ps p k :
  list_holds s w ps -> list_holds (set_sockets (with_socket p k (k_sockets s)) s) w ps.
Proof.
  intros [Hl Hr Hv]. split; [by destruct w|done|]. cbn. eapply Forall_impl; [exact Hv|].
  intros q [H0 [k' Hk]]. split; [done|]. destruct (decide (p = q)) as [->|Hne].
  - rewrite lookup_insert_eq. by eexists.
  - rewrite lookup_insert_ne by done. by eexists.
Qed.

(** The lists of the kernel: all sockets, the stream ones, the datagram ones. *)
Record lists_ok (s : kst) (ps ts us : list Z) : Prop := {
  lo_all : list_holds s all_list ps;
  lo_tcp : list_holds s tcp_list ts;
  lo_udp : list_holds s udp_list us
}.

(** What initsocket accepts. *)
Lemma socket_proto_iff family type protocol p :
  socket_proto family type protocol = Some p <->
  family = AF_INET /\
  (type = SOCK_STREAM /\ p = IPPROTO_TCP /\ (protocol = 0 \/ protocol = IPPROTO_TCP) \/
   type = SOCK_DGRAM /\ p = IPPROTO_UDP /\ (protocol = 0 \/ protocol = IPPROTO_UDP)).
Proof.
  unfold socket_proto, AF_INET, SOCK_STREAM, SOCK_DGRAM, IPPROTO_TCP, IPPROTO_UDP.
  destruct (Z.eqb_spec family 2), (Z.eqb_spec type 1), (Z.eqb_spec type 2), (Z.eqb_spec protocol 0),
    (Z.eqb_spec protocol 6), (Z.eqb_spec protocol 17); subst; cbn; try done; (split; [intros H|intros H; destruct_and?; destruct_or?]);
    simplify_eq; try lia; try (split; [done|]); try (by left); try (by right); naive_solver lia.
Qed.

Lemma sock_list_insert_spec s ps ts us sock k :
  lists_ok s ps ts us -> (length ps < 512)%nat -> (length ts < 512)%nat -> (length us < 512)%nat -> sock <> 0 ->
  st_sockets (k_sockets s) !! sock = Some k ->
  exists s', sock_list_insert sock s = Ret 0 s' /\
    lists_ok s' (ps ++ [sock])
      (if so_type k =? SOCK_STREAM then ts ++ [sock] else ts)
      (if so_type k =? SOCK_DGRAM then us ++ [sock] else us) /\
    st_sockets (k_sockets s') = st_sockets (k_sockets s).
Proof.
  intros [Ha Ht Hu] Hps Hts Hus H0 Hk. unfold sock_list_insert.
  erewrite bind_Ret by (apply list_get_Ret; exact (lh_list _ _ _ Ha)). cbn [sl_size].
  replace (JUNK + Z.of_nat (length ps) =? MAX_SOCKET_CAPACITY) with false.
  2: { symmetry. apply Z.eqb_neq. unfold JUNK, MAX_SOCKET_CAPACITY. lia. }
  destruct (list_insert_spec s all_list ps sock Ha Hps H0 ltac:(by eexists)) as (s1 & H1 & Ha1 & E1).
  assert (st_sockets (k_sockets s1) = st_sockets (k_sockets s)) as Es1 by by rewrite E1.
  assert (list_holds s1 tcp_list ts) as Ht1 by (rewrite E1; by apply list_holds_put).
  assert (list_holds s1 udp_list us) as Hu1 by (rewrite E1; by apply list_holds_put).
  rewrite (bind_Ret _ _ _ _ _ H1). erewrite bind_Ret by (apply sock_get_Ret; rewrite Es1; exact Hk).
  assert (is_Some (st_sockets (k_sockets s1) !! sock)) as Hs1 by (rewrite Es1; by eexists).
  destruct (Z.eqb_spec (so_type k) SOCK_DGRAM) as [E|E].
  - replace (so_type k =? SOCK_STREAM) with false by (rewrite E; reflexivity).
    destruct (list_insert_spec s1 udp_list us sock Hu1 Hus H0 Hs1) as (s2 & H2 & Hu2 & E2).
    unfold udp_socket_list_insert. rewrite bind_assoc, (bind_Ret _ _ _ _ _ H2).
    exists s2. split; [reflexivity|]. split; [|by rewrite E2]. split; [..|exact Hu2]; rewrite E2; by apply list_holds_put.
  - destruct (Z.eqb_spec (so_type k) SOCK_STREAM) as [E'|E']; [|exists s1; split; [done|]; split; [by split|done]].
    destruct (list_insert_spec s1 tcp_list ts sock Ht1 Hts H0 Hs1) as (s2 & H2 & Ht2 & E2).
    unfold tcp_socket_list_insert. rewrite bind_assoc, (bind_Ret _ _ _ _ _ H2).
    exists s2. split; [reflexivity|]. split; [|by rewrite E2]. split; [|exact Ht2|]; rewrite E2; by apply list_holds_put.
Qed.

Lemma ld32_fives m p : ld32 (memset m p 5 PGSIZE) (p + 8) = JUNK.
Proof. rewrite !ldn_S. rewrite !memset_in by (unfold PGSIZE; lia). reflexivity. Qed.

Lemma pool_head_ne0 ph p l :
  pool_ok ph -> KERNBASE <= ph_end ph -> Pool.free (ph_pool ph) = p :: l -> p <> 0.
Proof.
  intros [_ Hm] He Hf. rewrite Hf in Hm. apply Forall_inv in Hm as [_ Hm]. unfold KERNBASE in *. lia.
Qed.

Lemma pool_ok_tail ph ph' p l :
  pool_ok ph -> Pool.free (ph_pool ph) = p :: l -> Pool.free (ph_pool ph') = l -> ph_end ph' = ph_end ph ->
  pool_ok ph'.
Proof.
  intros [Hnd Hm] Hf Hf' He. unfold pool_ok. rewrite Hf', He. rewrite Hf in Hnd, Hm.
  split; [by apply NoDup_cons in Hnd as [_ Hnd]|by apply Forall_inv_tail in Hm].
Qed.

Lemma list_init_ok s w p q l :
  pool_ok (k_phys s) -> KERNBASE <= ph_end (k_phys s) -> Pool.free (ph_pool (k_phys s)) = p :: q :: l ->
  exists s', list_init w s = Ret tt s' /\ pool_ok (k_phys s') /\ ph_end (k_phys s') = ph_end (k_phys s) /\
    Pool.free (ph_pool (k_phys s')) = l /\
    k_sockets s' = put_list w (Some (mkSocketList (replicate 512 0) JUNK)) (k_sockets s).
Proof.
  intros Hp He Hf. unfold list_init. pose proof (pool_head_ne0 _ _ _ Hp He Hf) as Hp0.
  set (ph1 := mkPhys (memset (ph_mem (k_phys s)) p 5 PGSIZE)
    (Pool.mkPool (q :: l) (Pool.set_ref (Pool.refs (ph_pool (k_phys s))) p 1)) (ph_end (k_phys s))).
  pose proof (pool_ok_tail (k_phys s) ph1 p (q :: l) Hp Hf eq_refl eq_refl) as Hp1.
  pose proof (pool_head_ne0 ph1 q l Hp1 He eq_refl) as Hq0.
  erewrite bind_Ret by (apply k_kalloc_cons; exact Hf). fold ph1. zb.
  rewrite (bind_Ret _ _ _ _ _ (k_getmem_Ret _ _)). change (ph_mem _) with (ph_mem ph1). cbn [ph_mem ph1].
  rewrite ld32_fives.
  erewrite bind_Ret by (apply (k_kalloc_cons (set_phys ph1 s) q l); reflexivity). zb.
  erewrite bind_Ret by apply k_setmem_Ret. eexists. split; [reflexivity|]. split_and!; try done.
  by apply (pool_ok_tail ph1 _ q l).
Qed.

(** ** Properties *)

(** socket_init leaves the three lists empty, and leaves their [size] at
    the value kalloc() fills pages with: 0x05050505, not 0. *)
Lemma socket_init_lists s p1 q1 p2 q2 p3 q3 l :
  pool_ok (k_phys s) -> KERNBASE <= ph_end (k_phys s) ->
  Pool.free (ph_pool (k_phys s)) = p1 :: q1 :: p2 :: q2 :: p3 :: q3 :: l ->
  exists s', socket_init s = Ret tt s' /\ lists_ok s' [] [] [] /\
    get_list all_list (k_sockets s') = Some (mkSocketList (replicate 512 0) 0x05050505) /\
    Pool.free (ph_pool (k_phys s')) = l /\ st_sockets (k_sockets s') = st_sockets (k_sockets s).
Proof.
  intros Hp He Hf. unfold socket_init.
  destruct (list_init_ok s all_list p1 q1 (p2 :: q2 :: p3 :: q3 :: l) Hp He Hf) as (s1 & H1 & Hp1 & He1 & Hf1 & E1).
  rewrite (bind_Ret _ _ _ _ _ H1). rewrite <- He1 in He.
  destruct (list_init_ok s1 tcp_list p2 q2 (p3 :: q3 :: l) Hp1 He Hf1) as (s2 & H2 & Hp2 & He2 & Hf2 & E2).
  rewrite (bind_Ret _ _ _ _ _ H2). rewrite <- He2 in He.
  destruct (list_init_ok s2 udp_list p3 q3 l Hp2 He Hf2) as (s3 & H3 & _ & _ & Hf3 & E3).
  exists s3. rewrite E2, E1 in E3. split; [exact H3|]. split; [|rewrite E3; done].
  split; (split; [by rewrite E3|cbn; lia|constructor]).
Qed.

(** initsocket accepts exactly IPv4 streams over TCP and IPv4 datagrams
    over UDP (a protocol of 0 picks the one that fits); it then leaves the
    socket closed, with an empty queue, the operations of its protocol and an
    entry in its lists.  It refuses everything else and then changes nothing. *)
Lemma initsocket_correct s ps ts us sock k family type protocol :
  lists_ok s ps ts us -> (length ps < 512)%nat -> (length ts < 512)%nat -> (length us < 512)%nat -> sock <> 0 ->
  st_sockets (k_sockets s) !! sock = Some k ->
  let stream := type = SOCK_STREAM /\ (protocol = 0 \/ protocol = IPPROTO_TCP) in
  let dgram := type = SOCK_DGRAM /\ (protocol = 0 \/ protocol = IPPROTO_UDP) in
  (~ (family = AF_INET /\ (stream \/ dgram)) -> initsocket sock family type protocol s = Ret (-1) s) /\
  (family = AF_INET -> stream \/ dgram -> exists s' k', initsocket sock family type protocol s = Ret 0 s' /\
     st_sockets (k_sockets s') !! sock = Some k' /\
     so_state k' = CLOSED /\ so_rx_head k' = 0 /\ so_rx_tail k' = 0 /\ so_fd k' = so_fd k /\ so_type k' = type /\
     (stream -> so_proto k' = IPPROTO_TCP /\ so_ops k' = tcp_ops /\ lists_ok s' (ps ++ [sock]) (ts ++ [sock]) us) /\
     (dgram -> so_proto k' = IPPROTO_UDP /\ so_ops k' = udp_ops /\ lists_ok s' (ps ++ [sock]) ts (us ++ [sock]))).
Proof.
  intros Hlo Hps Hts Hus H0 Hk stream dgram. unfold initsocket. split.
  { intros Hn. destruct (socket_proto family type protocol) as [p|] eqn:E; [|done].
    apply socket_proto_iff in E. destruct Hn. unfold stream, dgram. tauto. }
  intros Hfam Hc. assert (exists p, socket_proto family type protocol = Some p) as [p Hp].
  { destruct Hc as [[H1 H2]|[H1 H2]]; eexists; apply socket_proto_iff; split; [done|left; eauto|done|right; eauto]. }
  rewrite Hp. apply socket_proto_iff in Hp as [_ Hp].
  erewrite bind_Ret by (apply sock_get_Ret; exact Hk). rewrite bind_gets.
  set (ops := if p =? IPPROTO_UDP then _ else _). set (k1 := mkSocket _ _ _ _ _ _ _ _ _ _ _ _ _).
  erewrite bind_Ret by (eapply sock_put_Ret; exact Hk). set (s1 := set_sockets _ s).
  assert (lists_ok s1 ps ts us) as Hlo1 by (destruct Hlo; split; by apply list_holds_sock).
  destruct (sock_list_insert_spec s1 ps ts us sock k1 Hlo1 Hps Hts Hus H0) as (s2 & H2 & Hlo2 & E2).
  { cbn. apply lookup_insert_eq. }
  rewrite (bind_Ret _ _ _ _ _ H2). exists s2, k1. cbn [Z.eqb]. split; [done|]. rewrite E2. cbn [k_sockets s1].
  split; [apply lookup_insert_eq|]. cbn [so_type k1] in Hlo2. unfold stream, dgram in *.
  destruct Hp as [(-> & -> & _)|(-> & -> & _)]; cbn in Hlo2; split_and!; try done; intros [? _]; done.
Qed.

(** Getsock answers the first socket created with that descriptor.  For a
    descriptor no socket has it does not answer 0: the list's [size] is past
    its sockets, and the search dereferences the null entry behind them. *)
Lemma getsock_first_or_fault s ps ts us fd :
  lists_ok s ps ts us ->
  (forall p, first_with s ps fd = Some p -> p ∈ ps /\ fd_of s p = Some fd) /\
  getsock fd s = match first_with s ps fd with Some p => Ret p s | None => Fault s end /\
  (Forall (fun p => fd_of s p <> Some fd) ps -> getsock fd s = Fault s).
Proof.
  intros [Ha _ _]. split_and!.
  - intros p. clear Ha. induction ps as [|q ps IH]; cbn [first_with]; [done|].
    destruct (decide (fd_of s q = Some fd)); [intros [= ->]; split; [by constructor|done]|].
    intros Hp. destruct (IH Hp) as [H1 H2]. split; [by constructor|done].
  - by apply getsock_spec.
  - intros Hn. rewrite (getsock_spec s ps fd Ha).
    assert (first_with s ps fd = None) as ->; [|done]. clear Ha.
    induction Hn as [|p ps Hp Hn IH]; cbn [first_with]; [done|]. by rewrite decide_False.
Qed.

(** listen() drops the answer of the protocol's listen, and calls a null
    pointer for a datagram socket. *)
Lemma listen_reports_success s ps ts us fd backlog p k :
  lists_ok s ps ts us -> p <> 0 -> first_with s ps fd = Some p -> st_sockets (k_sockets s) !! p = Some k ->
  (so_ops k = tcp_ops -> so_type k <> SOCK_STREAM \/ so_state k <> BOUND -> listen fd backlog s = Ret 0 s) /\
  (so_ops k = udp_ops -> listen fd backlog s = Fault s).
Proof.
  intros [Ha _ _] H0 Hf Hk. unfold listen. rewrite (bind_Ret _ _ _ p s) by by rewrite (getsock_spec s ps fd Ha), Hf.
  zb. erewrite bind_Ret by (apply sock_get_Ret; exact Hk). split; intros ->; [|done].
  intros Hc. cbn [ops_listen]. unfold tcp_listen. rewrite bind_assoc.
  erewrite bind_Ret by (apply sock_get_Ret; exact Hk).
  destruct (Z.eqb_spec (so_type k) SOCK_STREAM), (Z.eqb_spec (so_state k) BOUND); cbn [negb]; try done.
  destruct Hc; congruence.
Qed.

(** ** Witnesses *)

(** A kernel before socket_init, with one zeroed socket page in use. *)
Definition boot_kernel : kst :=
  set_sockets (mkSockets (replicate 512 0) (replicate 512 0) ∅
      {[0x87ff3000 := mkSocket 0 0 0 0 0 0 0 0 0 0 null_ops 0 0]} None None None)
    (set_phys (mkPhys (demo_mem 40)
       (Pool.mkPool [0x87fff000; 0x87ffe000; 0x87ffd000; 0x87ffc000; 0x87ffb000; 0x87ffa000; 0x87ff9000] (fun _ => 0))
       0x87ff0000) (demo_kernel 0 40)).

Lemma boot_pool : pool_ok (k_phys boot_kernel).
Proof.
  split; cbn.
  - apply (bool_decide_eq_true_1 (NoDup _)). vm_compute. reflexivity.
  - repeat (constructor; [by apply demo_managed|]). constructor.
Qed.

(** The kernel after socket_init. *)
Definition fresh_list : option socket_list := Some (mkSocketList (replicate 512 0) JUNK).
Definition ready_kernel : kst :=
  set_sockets (mkSockets (replicate 512 0) (replicate 512 0) ∅
      {[0x87ff3000 := mkSocket 0 0 0 0 0 0 0 0 0 3 null_ops 0 0]} fresh_list fresh_list fresh_list) boot_kernel.

Lemma ready_lists : lists_ok ready_kernel [] [] [].
Proof. split; (split; [reflexivity|cbn; lia|constructor]). Qed.

