(* ===== verification/NetRx.v ===== *)
(** * Reception: kernel/sys/ip4.c (handle_ip4_packet) and kernel/virtio_net.c
    (handle_packet, receive_packet)

    The used ring of the receive queue is what the device has delivered when
    the interrupt handler runs.  A page pointer that the code uses without
    checking kalloc()'s answer faults when it is null. *)
From S2P Require Import Prelude Mem StringC Net Kalloc Page Vm KState Eth Ip4 VirtioNet Arp Ports Udp UdpSend Tcp.
From Stdlib Require Import ZArith Lia.
From stdpp Require Import strings.
Local Open Scope list_scope.
Local Open Scope Z_scope.
Local Open Scope kernel_scope.

(** A parser runs on memory and answers an int. *)
Definition k_parse (f : mem -> mem * Z) : M kst Z :=
  m <- k_getmem f ;; k_setmem (fun _ => fst m) ;;; ret (snd m).

Definition handle_ip4_packet (ip4_pkt : Z) : M kst Z :=
  proto <- k_getmem (fun m => m (ip4_pkt + ip_protocol)) ;;
  if proto =? IPPROTO_TCP then
    tcp <- k_kalloc ;;
    nonnull tcp ;;;
    k_setmem (fun m => memset m tcp 0 PGSIZE) ;;;
    r <- k_parse (fun m => parse_tcp_packet m (ip4_pkt + ip_payload) (ld16 m (ip4_pkt + ip_payload_len)) tcp) ;;
    (if r =? 0 then handle_tcp_packet tcp ;;; ret 0 else ret 0)
  else if proto =? IPPROTO_UDP then
    udp <- k_kalloc ;;
    nonnull udp ;;;
    k_setmem (fun m => memset m udp 0 PGSIZE) ;;;
    r <- k_parse (fun m => parse_udp_packet m (ip4_pkt + ip_payload) (ld16 m (ip4_pkt + ip_payload_len)) udp) ;;
    (if r =? 0 then handle_udp_packet udp ;;; ret 0 else ret 0)
  else ret 0.

Definition handle_packet (packet len : Z) : M kst unit :=
  eth_frame <- k_kalloc ;;
  ip4_pkt <- k_kalloc ;;
  nonnull eth_frame ;;;
  k_setmem (fun m => memset m eth_frame 0 PGSIZE) ;;;
  r <- k_parse (fun m => parse_eth_packet m packet (s32 len) eth_frame) ;;
  (if r =? 0 then
     type <- k_getmem (fun m => ntohs (ld16 m (eth_frame + eth_type))) ;;
     if type =? PROTO_IPV4 then
       nonnull ip4_pkt ;;;
       k_setmem (fun m => memset m ip4_pkt 0 PGSIZE) ;;;
       r <- k_parse (fun m => parse_ip4_packet m (eth_frame + eth_payload) (m (eth_frame + eth_payload_len)) ip4_pkt) ;;
       (if r =? 0 then handle_ip4_packet ip4_pkt ;;; ret tt else ret tt)
     else if type =? PROTO_ARP then arp_recv (eth_frame + eth_payload)
     else ret tt
   else ret tt) ;;;
  k_kfree eth_frame ;;;
  k_kfree ip4_pkt.

(** [*R(VIRTIO_MMIO_QUEUE_NOTIFY) = QUEUE_RX] *)
Definition notify_rx : M kst unit :=
  modify (fun s => set_net (set_rx_told (q_avail_idx (vn_rxq (k_net s))) (k_net s)) s).

(** [net.rxq] after a packet was handled: used_idx moves on, the chain is
    offered to the device again and the device is notified. *)
Definition requeue (id : Z) : M kst unit :=
  q <- gets (fun s => vn_rxq (k_net s)) ;;
  match publish (set_used_idx q (s32 (q_used_idx q + 1))) id with
  | Some q => modify (fun s => set_net (set_rxq q (k_net s)) s) ;;; notify_rx
  | None => fault
  end.

(** The loop of receive_packet; the ring index is C's remainder. *)
Fixpoint receive_loop (fuel : nat) : M kst unit :=
  match fuel with
  | O => fun s => Spin s
  | S fuel =>
      q <- gets (fun s => vn_rxq (k_net s)) ;;
      if q_used_idx q =? q_used_ring_idx q then ret tt
      else
        match znth (q_used_ring q) (Z.rem (q_used_idx q) NUM) with
        | None => fault
        | Some (eid, elen) =>
            let id := s32 eid in
            let len := s32 (u32 (elen - 10)) in
            match znth (q_desc q) id with
            | None => fault
            | Some d =>
                match znth (q_desc q) (d_next d) with
                | None => fault
                | Some b =>
                    release vnet_lock ;;;
                    handle_packet (d_addr b + 10) (u32 len) ;;;
                    acquire vnet_lock ;;;
                    requeue id ;;;
                    receive_loop fuel
                end
            end
        end
  end.

Definition receive_packet (fuel : nat) : M kst Z :=
  acquire vnet_lock ;;; receive_loop fuel ;;; release vnet_lock ;;; ret 0.

(** ** Reading the headers of a datagram *)

Ltac add_offsets_in H a :=
  repeat match type of H with context [a + ?x + ?y] =>
    let z := eval vm_compute in (x + y)%Z in replace (a + x + y) with (a + z) in H by lia end.

Lemma wire_ip4_of_bytes m a total proto c src dst :
  holds m a (ip4_bytes total proto c src dst) -> 0 <= total < 2 ^ 16 -> 0 <= c < 2 ^ 16 ->
  0 <= src < 2 ^ 32 -> 0 <= dst < 2 ^ 32 ->
  wire_ip4 m a = mkIp4 0x45 0 total 0 0 64 proto (ntohs c) (ntohl src) (ntohl dst).
Proof.
  intros H Ht Hc Hs Hd. unfold ip4_bytes in H. rewrite !holds_app in H.
  cbn [length be16 le16 le32] in H. rewrite !holds_cons in H. add_offsets_in H a.
  destruct H as ((E0 & E1 & _) & H2 & H3 & H4 & (E8 & E9 & _) & H6 & H7 & H8).
  unfold wire_ip4. rewrite Z.add_0_r. f_equal; try assumption.
  - by apply holds_be16.
  - by apply holds_be16.
  - by apply holds_be16.
  - f_equal. by apply holds_le16.
  - f_equal. by apply holds_le32.
  - f_equal. by apply holds_le32.
Qed.

Lemma udp_hdr_of_bytes m a sp dp len c data :
  holds m a (udp_bytes sp dp len c ++ data) -> 0 <= sp < 2 ^ 16 -> 0 <= dp < 2 ^ 16 -> 0 <= len < 2 ^ 16 ->
  ntohs (ld16 m a) = sp /\ ntohs (ld16 m (a + 2)) = ntohs dp /\ ntohs (ld16 m (a + 4)) = len /\
  holds m (a + 8) data.
Proof.
  intros H Hs Hd Hl. apply holds_app in H as [H Hdata]. unfold udp_bytes in H. rewrite !holds_app in H.
  cbn [length be16 le16] in H. add_offsets_in H a. destruct H as (H1 & H2 & H3 & H4).
  split_and!; [by apply holds_be16|f_equal; by apply holds_le16|by apply holds_be16|exact Hdata].
Qed.

Lemma ldbytes_holds_shift m m' a b l :
  holds m a l -> (forall i, 0 <= i < Z.of_nat (length l) -> m' (b + i) = m (a + i)) -> holds m' b l.
Proof. intros H He. unfold holds. rewrite <- H at 2. apply ldbytes_ext. intros i Hi. by apply He. Qed.

(** ** One datagram through the three parsers *)

Section datagram.
Context (dmac smac : list Z) (sip dip sport dport c1 c2 : Z) (data : list Z).
Context (Hdm : length dmac = 6%nat) (Hsm : length smac = 6%nat).
Context (Hsip : 0 <= sip < 2 ^ 32) (Hdip : 0 <= dip < 2 ^ 32) (Hsp : 0 <= sport < 2 ^ 16) (Hdp : 0 <= dport < 2 ^ 16).
Context (Hc1 : 0 <= c1 < 2 ^ 16) (Hc2 : 0 <= c2 < 2 ^ 16).
Notation n := (Z.of_nat (length data)).
Context (Hn : n <= 1472).
Notation frame := (udp_packet dmac smac sip dip sport dport c1 c2 data).

Lemma frame_length : length frame = (length data + 42)%nat.
Proof.
  unfold udp_packet, ip4_bytes, udp_bytes. rewrite !length_app, Hdm, Hsm. cbn [length be16 le16 le32]. lia.
Qed.

(** parse_eth_packet on a zeroed page. *)
Lemma parse_eth_frame m packet e :
  wf_mem m -> holds m packet frame -> packet + n + 42 <= e \/ e + PGSIZE <= packet ->
  exists m', parse_eth_packet (memset m e 0 PGSIZE) packet (n + 42) e = (m', 0) /\ wf_mem m' /\
    (forall x, x < e \/ e + PGSIZE <= x -> m' x = m x) /\
    ntohs (ld16 m' (e + eth_type)) = PROTO_IPV4 /\ m' (e + eth_payload_len) = (n + 28) mod 256 /\
    holds m' (e + eth_payload) (ip4_bytes (n + 28) IPPROTO_UDP c1 sip dip ++ udp_bytes sport dport (n + 8) c2 ++ data).
Proof.
  intros Hw Hh Hap. unfold PGSIZE in *. set (m1 := memset m e 0 4096).
  assert (wf_mem m1) as Hw1 by (unfold m1; wfm).
  destruct (parse_eth_packet_spec m1 packet (n + 42) e Hw1 ltac:(lia) ltac:(lia)) as (m' & HR & Hw' & Hin & Hpl & Hout).
  assert (holds m' e frame) as Hf.
  { apply (ldbytes_holds_shift m m' packet e); [done|]. rewrite frame_length. intros i Hi.
    rewrite Hin by lia. apply memset_out; unfold PGSIZE; lia. }
  exists m'. unfold udp_packet in Hf. rewrite (app_assoc smac), (app_assoc dmac), !holds_app in Hf.
  rewrite !length_app, Hdm, Hsm in Hf. cbn [length be16] in Hf. add_offsets_in Hf e.
  destruct Hf as ((_ & _ & Ht) & Hrest). split_and!; [done|done| | |rewrite Hpl; f_equal; lia|by rewrite !holds_app].
  - intros x Hx. rewrite Hout by lia. apply memset_out; unfold PGSIZE; lia.
  - apply holds_be16; [unfold PROTO_IPV4; lia|exact Ht].
Qed.

(** parse_ip4_packet of the payload with the length eth_frame carries: one
    byte, so that only datagrams of up to 227 bytes are accepted. *)
Lemma parse_ip4_frame m e i :
  wf_mem m -> e + PGSIZE <= i \/ i + PGSIZE <= e ->
  holds m (e + eth_payload) (ip4_bytes (n + 28) IPPROTO_UDP c1 sip dip ++ udp_bytes sport dport (n + 8) c2 ++ data) ->
  exists m', parse_ip4_packet (memset m i 0 PGSIZE) (e + eth_payload) ((n + 28) mod 256) i
      = (m', if n <=? 227 then 0 else -1) /\ wf_mem m' /\
    (forall x, x < i \/ i + PGSIZE <= x -> m' x = m x) /\
    (n <= 227 -> m' (i + ip_protocol) = IPPROTO_UDP /\ ld16 m' (i + ip_payload_len) = n + 8 /\
       holds m' (i + ip_payload) (udp_bytes sport dport (n + 8) c2 ++ data)).
Proof.
  intros Hw Hap Hh. unfold PGSIZE, eth_payload in *. set (m1 := memset m i 0 4096).
  assert (wf_mem m1) as Hw1 by (unfold m1; wfm). set (plen := (n + 28) mod 256).
  assert (0 <= plen < 256) as Hpl by (apply Z.mod_pos_bound; lia).
  assert (forall x, x < i \/ i + 4096 <= x -> m1 x = m x) as Ho1 by (intros; apply memset_out; lia).
  pose proof (frame_length) as Hfl. unfold udp_packet in Hfl. rewrite !length_app, Hdm, Hsm in Hfl. cbn in Hfl.
  assert (holds m1 (e + 14) (ip4_bytes (n + 28) IPPROTO_UDP c1 sip dip ++ udp_bytes sport dport (n + 8) c2 ++ data)) as Hh1.
  { eapply holds_ext; [|exact Hh]. intros x Hx. symmetry. apply Ho1. rewrite !length_app in Hx. cbn in Hx. lia. }
  apply holds_app in Hh1 as [Hip Hudp]. cbn in Hudp. add_offsets_in Hudp e.
  destruct (parse_ip4_packet_spec m1 (e + 14) plen i Hw1 ltac:(lia) ltac:(lia)) as (m' & HR & Hw' & Hhost & Hout & Hok).
  rewrite (wire_ip4_of_bytes _ _ _ _ _ _ _ Hip) in HR, Hhost, Hok by (unfold IPPROTO_UDP; lia).
  cbn [ver_ihl total_len] in HR, Hok. change (69 mod 16 * 4) with 20 in *.
  unfold ip4_acceptable in *. cbn [ver_ihl total_len] in HR, Hok. change (69 mod 16 * 4) with 20 in *.
  assert (n <= 227 -> plen = n + 28) as Hsmall by (intros; apply Z.mod_small; lia).
  exists m'. split; [|split; [done|split]].
  - rewrite HR. f_equal. destruct (Z.leb_spec n 227) as [H|H]; [rewrite Hsmall by done; by zb|].
    destruct (Z.leb_spec (n + 28) plen); [exfalso; lia|]. by rewrite !andb_false_r.
  - intros x Hx. rewrite Hout by lia. apply Ho1. lia.
  - intros H. rewrite Hsmall in Hok by done. revert Hok. zb. cbn [andb]. intros Hok.
    destruct (Hok eq_refl) as [Hl Hd]. split_and!.
    + change (m' (i + ip_protocol)) with (protocol (host_ip4 m' i)). by rewrite Hhost.
    + rewrite Hl. lia.
    + apply (ldbytes_holds_shift m1 m' (e + 34) (i + ip_payload)); [exact Hudp|].
      rewrite length_app. intros j Hj. cbn in Hj. rewrite Hd by lia. f_equal. lia.
Qed.

(** parse_udp_packet of what is left. *)
Lemma parse_udp_frame m i u :
  wf_mem m -> i + PGSIZE <= u \/ u + PGSIZE <= i ->
  holds m (i + ip_payload) (udp_bytes sport dport (n + 8) c2 ++ data) ->
  exists m', parse_udp_packet (memset m u 0 PGSIZE) (i + ip_payload) (n + 8) u = (m', 0) /\ wf_mem m' /\
    (forall x, x < u \/ u + PGSIZE <= x -> m' x = m x) /\
    ld16 m' (u + udp_dst_port) = ntohs dport /\ payload_len m' u = n /\ holds m' (u + udp_payload) data.
Proof using Hsp Hdp Hn.
  clear Hdm Hsm dmac smac. intros Hw Hap Hh. unfold PGSIZE in *. set (m1 := memset m u 0 4096).
  assert (wf_mem m1) as Hw1 by (unfold m1; wfm).
  assert (forall x, x < u \/ u + 4096 <= x -> m1 x = m x) as Ho1 by (intros; apply memset_out; lia).
  assert (holds m1 (i + ip_payload) (udp_bytes sport dport (n + 8) c2 ++ data)) as Hh1.
  { eapply holds_ext; [|exact Hh]. intros x Hx. symmetry. apply Ho1. rewrite length_app in Hx.
    cbn in Hx. unfold ip_payload in *. lia. }
  destruct (udp_hdr_of_bytes _ _ _ _ _ _ _ Hh1) as (_ & E2 & E3 & Hdata); try lia.
  destruct (parse_udp_packet_spec m1 (i + ip_payload) (n + 8) u Hw1 ltac:(lia)) as (m' & HR & Hw' & Hout & Hok).
  { unfold ip_payload. lia. }
  rewrite E3 in HR, Hok. revert HR Hok. zb. cbn [andb]. intros HR Hok.
  destruct (Hok eq_refl) as (_ & Hd & _ & Hl & Hp). exists m'. split_and!; [done|done| |by rewrite Hd|unfold payload_len; lia|].
  - intros x Hx. rewrite Hout by lia. apply Ho1. lia.
  - apply (ldbytes_holds_shift m1 m' (i + ip_payload + 8) (u + udp_payload)); [exact Hdata|].
    intros j Hj. apply Hp. lia.
Qed.
End datagram.

(** ** Running the handlers *)

Definition with_mem (s : kst) (m : mem) : kst :=
  set_phys (mkPhys m (ph_pool (k_phys s)) (ph_end (k_phys s))) s.

Lemma k_parse_Ret f s m r :
  f (ph_mem (k_phys s)) = (m, r) -> k_parse f s = Ret r (with_mem s m).
Proof.
  intros H. unfold k_parse. rewrite (bind_Ret _ _ _ _ _ (k_getmem_Ret _ _)), H.
  erewrite bind_Ret by apply k_setmem_Ret. done.
Qed.

Lemma k_setmem_with g s : k_setmem g s = Ret tt (with_mem s (g (ph_mem (k_phys s)))).
Proof. apply k_setmem_Ret. Qed.

(** The memory invariant of the handlers. *)
Record mem_ok (ph : phys) : Prop := {
  mo_wf : wf_mem (ph_mem ph);
  mo_pool : pool_ok ph;
  mo_end : KERNBASE <= ph_end ph
}.

(** [same_pages ph ph' ps]: memory differs only in the pages [ps]. *)
Definition same_pages (ph ph' : phys) (ps : list Z) : Prop :=
  forall x, Forall (fun p => x < p \/ p + PGSIZE <= x) ps -> ph_mem ph' x = ph_mem ph x.

Lemma k_alloc_ok s f l :
  mem_ok (k_phys s) -> Pool.free (ph_pool (k_phys s)) = f :: l ->
  exists ph, k_kalloc s = Ret f (set_phys ph s) /\ mem_ok ph /\ live ph f /\ f <> 0 /\
    Pool.free (ph_pool ph) = l /\ Pool.refs (ph_pool ph) f = 1 /\ ph_end ph = ph_end (k_phys s) /\
    (forall x, x < f \/ f + PGSIZE <= x -> ph_mem ph x = ph_mem (k_phys s) x) /\
    (forall p, live (k_phys s) p -> live ph p /\ (p + PGSIZE <= f \/ f + PGSIZE <= p) /\
       Pool.refs (ph_pool ph) p = Pool.refs (ph_pool (k_phys s)) p).
Proof.
  intros [Hw Hp He] Hf.
  destruct (pg_kalloc_spec (k_phys s) Hp) as [[E _]|(f' & ph & Hk & Hp' & Hm & _ & Hl & He' & Hfr & Hmem & Hrefs & Hlive)];
    [congruence|].
  rewrite Hf in Hfr. injection Hfr as <- Hl'. exists ph. split_and!.
  - unfold k_kalloc. by rewrite (lift_Ret _ _ _ _ Hk).
  - split; [rewrite Hmem; wfm|done|by rewrite He'].
  - exact Hl.
  - destruct Hm as [_ Hm]. unfold KERNBASE in *. lia.
  - done.
  - rewrite Hrefs. apply set_ref_eq.
  - exact He'.
  - intros x Hx. rewrite Hmem. by apply memset_out.
  - intros p Hlp. destruct (Hlive p Hlp) as [H1 H2]. split_and!; [exact H1|exact H2|].
    rewrite Hrefs. apply set_ref_ne. unfold PGSIZE in *. lia.
Qed.

Lemma k_free_ok s p :
  mem_ok (k_phys s) -> live (k_phys s) p -> Pool.refs (ph_pool (k_phys s)) p <= 1 ->
  exists ph, k_kfree p s = Ret tt (set_phys ph s) /\ mem_ok ph /\ ph_end ph = ph_end (k_phys s) /\
    Pool.free (ph_pool ph) = p :: Pool.free (ph_pool (k_phys s)) /\
    (forall x, x < p \/ p + PGSIZE <= x -> ph_mem ph x = ph_mem (k_phys s) x) /\
    (forall q, q <> p -> (live (k_phys s) q -> live ph q) /\
       Pool.refs (ph_pool ph) q = Pool.refs (ph_pool (k_phys s)) q).
Proof.
  intros [Hw Hp He] Hl Hr. destruct (pg_kfree_spec (k_phys s) p Hp Hl Hr) as (ph & Hk & Hp' & He' & Hf & Hrf & Hw' & Ho).
  exists ph. split_and!; [by apply k_kfree_Ret| |done|done|done|].
  - split; [by apply Hw'|done|by rewrite He'].
  - intros q Hne. split; [|rewrite Hrf; by apply set_ref_ne].
    intros [Hm Hnf]. split; [by rewrite He'|]. rewrite Hf. by apply not_elem_of_cons.
Qed.

Lemma mem_ok_with s m : mem_ok (k_phys s) -> wf_mem m -> mem_ok (k_phys (with_mem s m)).
Proof. intros [Hw Hp He] Hm. by split. Qed.

(** handle_ip4_packet on a parsed UDP packet. *)
Lemma handle_ip4_udp s i u l sport dport c2 data :
  let n := Z.of_nat (length data) in
  mem_ok (k_phys s) -> live (k_phys s) i -> Pool.free (ph_pool (k_phys s)) = u :: l ->
  0 <= sport < 2 ^ 16 -> 0 <= dport < 2 ^ 16 -> n <= 1472 ->
  ph_mem (k_phys s) (i + ip_protocol) = IPPROTO_UDP -> ld16 (ph_mem (k_phys s)) (i + ip_payload_len) = n + 8 ->
  holds (ph_mem (k_phys s)) (i + ip_payload) (udp_bytes sport dport (n + 8) c2 ++ data) ->
  exists ph, handle_ip4_packet i s = (handle_udp_packet u ;;; ret 0) (set_phys ph s) /\ mem_ok ph /\ live ph u /\
    Pool.free (ph_pool ph) = l /\ Pool.refs (ph_pool ph) u = 1 /\ ph_end ph = ph_end (k_phys s) /\
    same_pages (k_phys s) ph [u] /\
    (forall p, live (k_phys s) p -> live ph p /\ (p + PGSIZE <= u \/ u + PGSIZE <= p) /\
       Pool.refs (ph_pool ph) p = Pool.refs (ph_pool (k_phys s)) p) /\
    ld16 (ph_mem ph) (u + udp_dst_port) = ntohs dport /\ payload_len (ph_mem ph) u = n /\
    holds (ph_mem ph) (u + udp_payload) data.
Proof.
  intros n Hok Hli Hf Hsp Hdp Hn Hpr Hpl Hh.
  destruct (k_alloc_ok s u l Hok Hf) as (ph1 & HA & Hok1 & Hlu & Hu0 & Hf1 & Hr1 & He1 & Hm1 & Hlv1).
  destruct (Hlv1 i Hli) as (_ & Hap & _).
  assert (holds (ph_mem ph1) (i + ip_payload) (udp_bytes sport dport (n + 8) c2 ++ data)) as Hh1.
  { eapply holds_ext; [|exact Hh]. intros x Hx. symmetry. apply Hm1. rewrite length_app in Hx. cbn in Hx.
    unfold ip_payload, PGSIZE in *. lia. }
  destruct (parse_udp_frame sport dport c2 data Hsp Hdp Hn (ph_mem ph1) i u (mo_wf _ Hok1) Hap Hh1)
    as (m' & HP & Hw' & Ho' & Hd & Hlen & Hdata).
  exists (mkPhys m' (ph_pool ph1) (ph_end ph1)). split.
  - unfold handle_ip4_packet. rewrite (bind_Ret _ _ _ _ _ (k_getmem_Ret _ _)), Hpr.
    change (IPPROTO_UDP =? IPPROTO_TCP) with false. change (IPPROTO_UDP =? IPPROTO_UDP) with true. cbn iota.
    rewrite (bind_Ret _ _ _ _ _ HA). unfold nonnull. zb. unfold bind at 1, ret at 1.
    rewrite (bind_Ret _ _ _ _ _ (k_setmem_with _ _)). set (s2 := with_mem (set_phys ph1 s) _).
    assert (parse_udp_packet (ph_mem (k_phys s2)) (i + ip_payload) (ld16 (ph_mem (k_phys s2)) (i + ip_payload_len)) u
      = (m', 0)) as E.
    { change (ph_mem (k_phys s2)) with (memset (ph_mem ph1) u 0 PGSIZE).
      rewrite (ldn_memset_ne 2) by (unfold ip_payload_len, PGSIZE in *; lia).
      rewrite (ldn_ext 2 _ (ph_mem (k_phys s))); [by rewrite Hpl|].
      intros x Hx. apply Hm1. unfold ip_payload_len, PGSIZE in *. lia. }
    rewrite (bind_Ret _ _ _ _ _ (k_parse_Ret _ _ _ _ E)).
    reflexivity.
  - split_and!; try done.
    + by destruct Hok1.
    + intros x Hx. apply Forall_inv in Hx. cbn. rewrite Ho' by done. by apply Hm1.
Qed.

(** [off_pages] shows that an address is off the pages of a list. *)
Ltac off_pages := repeat first [apply Forall_nil_2 | apply Forall_cons_2; [unfold PGSIZE in *; lia|]].

Lemma free_two_ok s e i :
  mem_ok (k_phys s) -> live (k_phys s) e -> live (k_phys s) i -> e <> i ->
  Pool.refs (ph_pool (k_phys s)) e <= 1 -> Pool.refs (ph_pool (k_phys s)) i <= 1 ->
  exists ph, (k_kfree e ;;; k_kfree i) s = Ret tt (set_phys ph s) /\ mem_ok ph /\ ph_end ph = ph_end (k_phys s) /\
    Pool.free (ph_pool ph) = i :: e :: Pool.free (ph_pool (k_phys s)) /\ same_pages (k_phys s) ph [e; i] /\
    (forall q, q <> e -> q <> i -> (live (k_phys s) q -> live ph q) /\
       Pool.refs (ph_pool ph) q = Pool.refs (ph_pool (k_phys s)) q).
Proof.
  intros Hok Hle Hli Hne Hre Hri.
  destruct (k_free_ok s e Hok Hle Hre) as (ph1 & HA & Hok1 & He1 & Hf1 & Hm1 & Hq1).
  destruct (Hq1 i (not_eq_sym Hne)) as [Hli1 Hri1].
  destruct (k_free_ok (set_phys ph1 s) i Hok1 (Hli1 Hli)) as (ph2 & HB & Hok2 & He2 & Hf2 & Hm2 & Hq2);
    [cbn; lia|]. cbn [k_phys set_phys] in *.
  exists ph2. rewrite (bind_Ret _ _ _ _ _ HA). split_and!; try done; try congruence.
  - intros x Hx. apply Forall_cons in Hx as [Hxe Hx]. apply Forall_inv in Hx as Hxi.
    rewrite Hm2 by done. by apply Hm1.
  - intros q Hqe Hqi. destruct (Hq1 q Hqe) as [H1 H2], (Hq2 q Hqi) as [H3 H4].
    split; [intros H; by apply H3, H1|congruence].
Qed.

Section packet.
Context (dmac smac : list Z) (sip dip sport dport c1 c2 : Z) (data : list Z).
Context (Hdm : length dmac = 6%nat) (Hsm : length smac = 6%nat).
Context (Hsip : 0 <= sip < 2 ^ 32) (Hdip : 0 <= dip < 2 ^ 32) (Hsp : 0 <= sport < 2 ^ 16) (Hdp : 0 <= dport < 2 ^ 16).
Context (Hc1 : 0 <= c1 < 2 ^ 16) (Hc2 : 0 <= c2 < 2 ^ 16).
Notation n := (Z.of_nat (length data)).
Context (Hn : n <= 1472).
Notation frame := (udp_packet dmac smac sip dip sport dport c1 c2 data).

(** handle_packet up to the end of the IPv4 parser; the frame is in the live
    page [rxb]. *)
Lemma handle_packet_front s rxb packet e i l :
  mem_ok (k_phys s) -> Pool.free (ph_pool (k_phys s)) = e :: i :: l ->
  live (k_phys s) rxb -> rxb <= packet -> packet + n + 42 <= rxb + PGSIZE ->
  holds (ph_mem (k_phys s)) packet frame ->
  exists ph, handle_packet packet (n + 42) s
      = ((if n <=? 227 then handle_ip4_packet i ;;; ret tt else ret tt) ;;; k_kfree e ;;; k_kfree i) (set_phys ph s) /\
    mem_ok ph /\ Pool.free (ph_pool ph) = l /\ ph_end ph = ph_end (k_phys s) /\
    live ph e /\ live ph i /\ Pool.refs (ph_pool ph) e = 1 /\ Pool.refs (ph_pool ph) i = 1 /\
    same_pages (k_phys s) ph [e; i] /\ (e + PGSIZE <= i \/ i + PGSIZE <= e) /\
    (forall p, live (k_phys s) p -> live ph p /\ (p + PGSIZE <= e \/ e + PGSIZE <= p) /\
       (p + PGSIZE <= i \/ i + PGSIZE <= p) /\ Pool.refs (ph_pool ph) p = Pool.refs (ph_pool (k_phys s)) p) /\
    (n <= 227 -> ph_mem ph (i + ip_protocol) = IPPROTO_UDP /\ ld16 (ph_mem ph) (i + ip_payload_len) = n + 8 /\
       holds (ph_mem ph) (i + ip_payload) (udp_bytes sport dport (n + 8) c2 ++ data)).
Proof.
  intros Hok Hf Hlx Hx1 Hx2 Hh.
  destruct (k_alloc_ok s e (i :: l) Hok Hf) as (ph1 & HA & Hok1 & Hle & He0 & Hf1 & Hr1 & He1 & Hm1 & Hlv1).
  destruct (Hlv1 rxb Hlx) as (Hlx1 & Hxe & _).
  destruct (k_alloc_ok (set_phys ph1 s) i l Hok1 Hf1) as (ph2 & HB & Hok2 & Hli & Hi0 & Hf2 & Hr2 & He2 & Hm2 & Hlv2).
  cbn [k_phys set_phys] in *. destruct (Hlv2 rxb Hlx1) as (_ & Hxi & _). destruct (Hlv2 e Hle) as (Hle2 & Hei & Hre).
  assert (holds (ph_mem ph2) packet frame) as Hh2.
  { eapply holds_ext; [|exact Hh]. intros x Hx. rewrite frame_length in Hx by done. symmetry.
    rewrite Hm2 by lia. apply Hm1. lia. }
  edestruct (parse_eth_frame dmac smac sip dip sport dport c1 c2 data) with (e := e) (m := ph_mem ph2) (packet := packet)
    as (m3 & HE & Hw3 & Ho3 & Hty & Hpl & Hip); try done; [apply (mo_wf _ Hok2)|lia|].
  edestruct (parse_ip4_frame dmac smac sip dip sport dport c1 c2 data) with (e := e) (i := i) (m := m3)
    as (m4 & HI & Hw4 & Ho4 & Hacc); try done.
  exists (mkPhys m4 (ph_pool ph2) (ph_end ph2)). split.
  - unfold handle_packet. rewrite (bind_Ret _ _ _ _ _ HA), (bind_Ret _ _ _ _ _ HB).
    unfold nonnull at 1. zb. unfold bind at 1, ret at 1. rewrite s32_small by lia.
    rewrite (bind_Ret _ _ _ _ _ (k_setmem_with _ _)).
    rewrite (bind_Ret _ _ _ _ _ (k_parse_Ret (fun m => parse_eth_packet m packet (n + 42) e)
      (with_mem (set_phys ph2 (set_phys ph1 s)) (memset (ph_mem ph2) e 0 PGSIZE)) m3 0 HE)). cbn [Z.eqb].
    set (s3 := with_mem _ m3). rewrite bind_assoc. rewrite (bind_Ret _ _ _ _ _ (k_getmem_Ret _ _)).
    change (ph_mem (k_phys s3)) with m3. rewrite Hty.
    change (PROTO_IPV4 =? PROTO_IPV4) with true. cbn iota. rewrite bind_assoc.
    unfold nonnull at 1. zb. unfold bind at 1, ret at 1. rewrite bind_assoc.
    rewrite (bind_Ret _ _ _ _ _ (k_setmem_with _ _)), bind_assoc. change (ph_mem (k_phys s3)) with m3.
    assert (parse_ip4_packet (memset m3 i 0 PGSIZE) (e + eth_payload) (memset m3 i 0 PGSIZE (e + eth_payload_len)) i
      = (m4, if n <=? 227 then 0 else -1)) as HI'.
    { rewrite memset_out by (unfold eth_payload_len, PGSIZE in *; lia). by rewrite Hpl. }
    rewrite (bind_Ret _ _ _ _ _ (k_parse_Ret (fun m => parse_ip4_packet m (e + eth_payload) (m (e + eth_payload_len)) i)
      (with_mem s3 (memset m3 i 0 PGSIZE)) m4 _ HI')).
    by destruct (n <=? 227).
  - split_and!; try done; cbn [ph_mem ph_pool ph_end].
    + by destruct Hok2.
    + congruence.
    + congruence.
    + intros x Hx. apply Forall_cons in Hx as [Hxe' Hx]. apply Forall_inv in Hx as Hxi'. cbn.
      rewrite Ho4, Ho3, Hm2 by done. by apply Hm1.
    + intros p Hp. destruct (Hlv1 p Hp) as (Hp1 & Hpe & Hpr). destruct (Hlv2 p Hp1) as (Hp2 & Hpi & Hpr2).
      split_and!; [done|done|done|congruence].
Qed.

(** A datagram of more than 227 bytes, which udp_sendto sends, is dropped
    by the receiver without a trace: the length field of struct eth_frame is
    one byte, so that the IPv4 parser is told a shorter packet than its header
    says. *)
Lemma handle_packet_drops_large s rxb packet e i l :
  227 < n -> mem_ok (k_phys s) -> Pool.free (ph_pool (k_phys s)) = e :: i :: l ->
  live (k_phys s) rxb -> rxb <= packet -> packet + n + 42 <= rxb + PGSIZE ->
  holds (ph_mem (k_phys s)) packet frame ->
  exists ph, handle_packet packet (n + 42) s = Ret tt (set_phys ph s) /\ mem_ok ph /\
    Pool.free (ph_pool ph) = i :: e :: l /\ same_pages (k_phys s) ph [e; i].
Proof using Hdm Hsm Hsip Hdip Hsp Hdp Hc1 Hc2 Hn.
  intros Hbig Hok Hf Hlx Hx1 Hx2 Hh.
  destruct (handle_packet_front s rxb packet e i l Hok Hf Hlx Hx1 Hx2 Hh)
    as (ph & HR & Hok1 & Hf1 & _ & Hle & Hli & Hre & Hri & Hsame & Hei & _ & _).
  destruct (free_two_ok (set_phys ph s) e i Hok1 Hle Hli) as (ph2 & HF & Hok2 & _ & Hf2 & Hsame2 & _);
    try (cbn; unfold PGSIZE in Hei; lia).
  exists ph2. split; [|split; [done|split]].
  - rewrite HR. zb. rewrite (bind_Ret (ret tt) _ _ tt _ eq_refl). rewrite HF. by destruct s.
  - rewrite Hf2. cbn. by rewrite Hf1.
  - intros x Hx. rewrite Hsame2 by done. by apply Hsame.
Qed.

(** A short datagram for a bound port ends in a page of its own at the end of
    the socket's queue. *)
Lemma handle_packet_queues s rxb packet e i u l b bd k q :
  let end_ := ph_end (k_phys s) in let sock := pb_sock bd in
  n <= 227 -> mem_ok (k_phys s) -> Pool.free (ph_pool (k_phys s)) = e :: i :: u :: l ->
  live (k_phys s) rxb -> rxb <= packet -> packet + n + 42 <= rxb + PGSIZE ->
  holds (ph_mem (k_phys s)) packet frame ->
  ntohs dport < MAX_PORT_BINDINGS -> znth (st_udp_binds (k_sockets s)) (ntohs dport) = Some b -> b <> 0 ->
  st_bindings (k_sockets s) !! b = Some bd -> st_sockets (k_sockets s) !! sock = Some k ->
  so_proto k = IPPROTO_UDP -> k_held s = [] ->
  queue_ok (ph_mem (k_phys s)) end_ k q -> Forall (live (k_phys s)) q ->
  exists s' k', handle_packet packet (n + 42) s = Ret tt s' /\ mem_ok (k_phys s') /\
    st_sockets (k_sockets s') !! sock = Some k' /\ queue_ok (ph_mem (k_phys s')) end_ k' (q ++ [u]) /\
    payload_len (ph_mem (k_phys s')) u = n /\ holds (ph_mem (k_phys s')) (u + udp_payload) data /\
    live (k_phys s') u /\ Pool.refs (ph_pool (k_phys s')) u = 1 /\
    Pool.free (ph_pool (k_phys s')) = i :: e :: l /\ ph_end (k_phys s') = end_ /\ k_held s' = [] /\
    k_wakeups s' = k_wakeups s ++ [sock + sock_rx_head] /\ k_pagetable s' = k_pagetable s /\
    same_pages (k_phys s) (k_phys s') (e :: i :: u :: q).
Proof using Hdm Hsm Hsip Hdip Hsp Hdp Hc1 Hc2 Hn.
  intros end_ sock Hsmall Hok Hf Hlx Hx1 Hx2 Hh Hpb Hb Hb0 Hbd Hk Hpr Hheld Hq Hlq.
  destruct (handle_packet_front s rxb packet e i (u :: l) Hok Hf Hlx Hx1 Hx2 Hh)
    as (ph1 & HR & Hok1 & Hf1 & He1 & Hle & Hli & Hre & Hri & Hsame1 & Hei & Hlv1 & Hacc).
  destruct (Hacc Hsmall) as (Hpro & Hpl & Hudp).
  destruct (handle_ip4_udp (set_phys ph1 s) i u l sport dport c2 data Hok1 Hli Hf1 Hsp Hdp Hn Hpro Hpl Hudp)
    as (ph2 & HI & Hok2 & Hlu & Hf2 & Hru & He2 & Hsame2 & Hlv2 & Hdst & Hlen & Hdata).
  cbn [k_phys set_phys] in *. set (s2 := set_phys ph2 s).
  change (set_phys ph2 (set_phys ph1 s)) with s2 in HI.
  rewrite Forall_forall in Hlq.
  assert (forall p, p ∈ q -> ldn 8 (ph_mem ph2) (p + udp_next) = ldn 8 (ph_mem (k_phys s)) (p + udp_next)) as Hlinks.
  { intros p Hp. destruct (Hlv1 p (Hlq p Hp)) as (Hp1 & Hpe & Hpi & _). destruct (Hlv2 p Hp1) as (_ & Hpu & _).
    apply ldn_ext. unfold udp_next, PGSIZE in *. intros x Hx. rewrite Hsame2, Hsame1 by off_pages. done. }
  assert (queue_ok (ph_mem ph2) end_ k q) as Hq2.
  { destruct Hq as [Q1 Q2 Q3 Q4]. split; try done. by eapply chain_ext. }
  assert (u ∉ q) as Huq.
  { intros Hin. destruct (Hlq u Hin) as [_ Hnf]. apply Hnf. rewrite Hf. set_solver. }
  assert (ph_end (k_phys s2) = end_) as Es2 by (etransitivity; [exact He2|exact He1]).
  destruct (handle_udp_packet_ok s2 u (ntohs dport) b bd k q) as (m' & hd & HU & Hq3 & Hw3 & Hsb); try done.
  { split; [apply htons_range|done]. }
  { cbn. rewrite Hheld. apply not_elem_of_nil. }
  { cbn. rewrite Hheld. apply not_elem_of_nil. }
  { apply (mo_wf _ Hok2). }
  { rewrite Es2. apply (mo_end _ Hok). }
  { rewrite Es2. exact Hq2. }
  { destruct Hlu as [Hmu _]. exact Hmu. }
  set (s3 := set_wakeups _ _) in HU.
  assert (mem_ok (k_phys s3)) as Hok3 by (by destruct Hok2).
  destruct (Hlv2 e Hle) as (Hle2 & Heu & Hre2). destruct (Hlv2 i Hli) as (Hli2 & Hiu & Hri2).
  destruct (free_two_ok s3 e i Hok3 Hle2 Hli2) as (ph4 & HF & Hok4 & He4 & Hf4 & Hsame4 & Hq4).
  { unfold PGSIZE in *. lia. }
  { change (ph_pool (k_phys s3)) with (ph_pool ph2). lia. }
  { change (ph_pool (k_phys s3)) with (ph_pool ph2). lia. }
  change (ph_pool (k_phys s3)) with (ph_pool ph2) in *. change (ph_mem (k_phys s3)) with m' in *.
  destruct (Hq4 u) as [Hlu4 Hru4]; [unfold PGSIZE in *; lia|unfold PGSIZE in *; lia|].
  assert (forall x, (u <= x < u + udp_next) -> ph_mem ph4 x = ph_mem ph2 x) as Hu4.
  { intros x Hx. unfold udp_next in Hx. rewrite Hsame4 by off_pages. apply Hsb. intros p Hp.
    apply elem_of_app in Hp as [Hp|Hp]; [|apply list_elem_of_singleton in Hp as ->; unfold udp_next; lia].
    destruct (Hlv1 p (Hlq p Hp)) as (Hp1 & _). destruct (Hlv2 p Hp1) as (_ & Hpu & _).
    unfold udp_next, PGSIZE in *. lia. }
  exists (set_phys ph4 s3), (set_rx k hd u). split_and!; try done.
  - rewrite HR. zb.
    rewrite (bind_Ret _ _ _ tt s3); [exact HF|]. unfold bind at 1. rewrite HI. unfold bind. by rewrite HU.
  - cbn. apply lookup_insert_eq.
  - destruct Hq3 as [Q1 Q2 Q3 Q4]. rewrite Es2 in Q4. split; try done. eapply chain_ext; [|exact Q1].
    intros p Hp. apply ldn_ext. intros x Hx. apply Hsame4. unfold udp_next in Hx.
    apply elem_of_app in Hp as [Hp|Hp]; [|apply list_elem_of_singleton in Hp as ->; off_pages].
    destruct (Hlv1 p (Hlq p Hp)) as (_ & Hpe & Hpi & _). off_pages.
  - unfold payload_len in *. rewrite <- Hlen. apply ldn_ext. intros x Hx. apply Hu4.
    unfold udp_payload_len, udp_next in *. lia.
  - eapply holds_ext; [|exact Hdata]. intros x Hx. symmetry. apply Hu4. unfold udp_payload, udp_next in *. lia.
  - by apply Hlu4.
  - etransitivity; [exact Hru4|exact Hru].
  - etransitivity; [exact Hf4|]. by rewrite Hf2.
  - etransitivity; [exact He4|exact Es2].
  - intros x Hx. apply Forall_cons in Hx as [Hxe Hx]. apply Forall_cons in Hx as [Hxi Hx].
    apply Forall_cons in Hx as [Hxu Hx]. rewrite Forall_forall in Hx.
    etransitivity; [apply Hsame4; off_pages|]. etransitivity; [apply Hsb|].
    + intros p Hp. unfold udp_next. apply elem_of_app in Hp as [Hp|Hp]; [specialize (Hx p Hp)|
        apply list_elem_of_singleton in Hp as ->]; unfold PGSIZE in *; lia.
    + etransitivity; [apply Hsame2; off_pages|]. apply Hsame1. off_pages.
Qed.
End packet.

(** ** From one user to another *)

Lemma user_buffer_stable m m' pt va len ps :
  user_buffer m pt va len ps -> tables_apart m pt va (va + len) (fun x => m' x <> m x) ->
  user_buffer m' pt va len ps /\ forall i, 0 <= i < len -> uaddr m' pt (va + i) = uaddr m pt (va + i).
Proof.
  intros [Hv Hm Ht Hi Ha] Hne.
  assert (forall a x, va <= a < va + len -> walk_byte m pt (PGROUNDDOWN a) x -> m' x = m x) as Hsame.
  { intros a x H1 H2. destruct (decide (m' x = m x)) as [|Hn]; [done|]. destruct (Hne a x H1 H2 Hn). }
  assert (forall a, va <= a < va + len -> upage m' pt (PGROUNDDOWN a) = upage m pt (PGROUNDDOWN a)) as Hu.
  { intros a Hra. apply upage_stable. intros x Hx. by apply (Hsame a). }
  assert (forall a, va <= a < va + len -> uaddr m' pt a = uaddr m pt a) as Hua.
  { intros a Hra. unfold uaddr. by rewrite Hu. }
  assert (forall a, va <= a < va + len -> mapped m' pt a <-> mapped m pt a) as Hmp.
  { intros a Hra. unfold mapped. by rewrite Hu. }
  assert (forall x, user_byte m' pt va (va + len) x <-> user_byte m pt va (va + len) x) as Hub.
  { intros x. split; intros (a & H1 & H2 & ->); exists a; rewrite ?Hua by done; (split; [done|]); split; try done;
      by apply Hmp. }
  split; [split; [done| | | |]|intros; apply Hua; lia].
  - intros i Hri. apply Hmp; [lia|]. by apply Hm.
  - intros a x H1 H2 H3. apply Hub in H3. apply (Ht a x H1); [|exact H3].
    refine (proj1 (walk_byte_stable m _ _ _ _ _) H2). intros y Hy. by apply (Hsame a).
  - intros a b H1 H2 H3 H4. rewrite !Hua by done. apply Hi; try done; by apply Hmp.
  - intros p x Hp Hx. apply Hub in Hx. by apply Ha.
Qed.

(** A host about to send [len] bytes at [buf] to the socket address at [dest]. *)
Record sender_ready (s : kst) (sock : Z) (k : socket) (buf len dest : Z) (mac : list Z) (f r : Z) (l : list Z) : Prop := {
  sr_net : net_ok s;
  sr_host : host_ok s;
  sr_sock : st_sockets (k_sockets s) !! sock = Some k;
  sr_dest : user_readable (ph_mem (k_phys s)) (k_pagetable s) dest SOCKADDR_IN_SIZE (k_stack s) (k_stack s + STACK_BYTES);
  sr_buf : user_readable (ph_mem (k_phys s)) (k_pagetable s) buf len (k_stack s) (k_stack s + STACK_BYTES);
  sr_arp : arp_lookup (k_arp s) (ld32 (user_view (ph_mem (k_phys s)) (k_pagetable s)) (dest + sin_addr)) = Some mac;
  sr_mac : length mac = 6%nat /\ bytes mac;
  sr_free : Pool.free (ph_pool (k_phys s)) = f :: r :: l;
  sr_stack : k_stack s + STACK_BYTES <= f \/ f + PGSIZE <= k_stack s;
  sr_poll : exists v rest,
    poll_used (vn_tx_polls (k_net s)) (q_used_ring_idx (vn_txq (k_net s))) = Some (v, rest)
}.

(** A host with an empty socket bound to [port], the frame in the receive
    buffer [rxb], three free pages and a user buffer for the payload. *)
Record receiver_ready (s : kst) (frame : list Z) (rxb packet e i u : Z) (l : list Z) (port b : Z) (bd : port_binding)
    (k : socket) (buf len : Z) : Prop := {
  rr_mem : mem_ok (k_phys s);
  rr_free : Pool.free (ph_pool (k_phys s)) = e :: i :: u :: l;
  rr_page : live (k_phys s) rxb;
  rr_in : rxb <= packet /\ packet + len + 42 <= rxb + PGSIZE;
  rr_frame : holds (ph_mem (k_phys s)) packet frame;
  rr_bind : znth (st_udp_binds (k_sockets s)) port = Some b /\ b <> 0 /\ st_bindings (k_sockets s) !! b = Some bd;
  rr_port : port < MAX_PORT_BINDINGS;
  rr_sock : st_sockets (k_sockets s) !! pb_sock bd = Some k;
  rr_proto : so_proto k = IPPROTO_UDP;
  rr_empty : so_rx_head k = 0 /\ so_rx_tail k = 0;
  rr_held : k_held s = [];
  rr_buffer : user_buffer (ph_mem (k_phys s)) (k_pagetable s) buf len [e; i; u];
  rr_tables : tables_apart (ph_mem (k_phys s)) (k_pagetable s) buf (buf + len)
    (fun x => exists p, p ∈ [e; i; u] /\ p <= x < p + PGSIZE)
}.

(** The receiver's half. *)
Lemma receiver_delivers s dmac smac sip dip sport dport c1 c2 data rxb packet e i u l b bd k buf len flags src alen :
  let n := Z.of_nat (length data) in let m := ph_mem (k_phys s) in
  length dmac = 6%nat -> length smac = 6%nat -> 0 <= sip < 2 ^ 32 -> 0 <= dip < 2 ^ 32 -> 0 <= sport < 2 ^ 16 ->
  0 <= dport < 2 ^ 16 -> 0 <= c1 < 2 ^ 16 -> 0 <= c2 < 2 ^ 16 -> n <= 227 -> n <= len ->
  receiver_ready s (udp_packet dmac smac sip dip sport dport c1 c2 data) rxb packet e i u l (ntohs dport) b bd k buf n ->
  exists s', (handle_packet packet (n + 42) ;;; udp_recvfrom (pb_sock bd) buf len flags src alen) s = Ret n s' /\
    forall j, 0 <= j < n ->
      data !! Z.to_nat j = Some (ph_mem (k_phys s') (uaddr m (k_pagetable s) (buf + j))).
Proof.
  intros n m Hdm Hsm Hsip Hdip Hsp Hdp Hc1 Hc2 Hn Hlen [Rm Rf Rp [Ri1 Ri2] Rfr (Rb1 & Rb2 & Rb3) Rpo Rs Rpr [Re1 Re2] Rh Rbuf Rt].
  destruct (handle_packet_queues dmac smac sip dip sport dport c1 c2 data Hdm Hsm Hsip Hdip Hsp Hdp Hc1 Hc2 ltac:(lia)
    s rxb packet e i u l b bd k []) as (s1 & k1 & HR & Hok1 & Hk1 & Hq1 & Hl1 & Hd1 & Hlu & Hru & Hf1 & He1 & Hh1 & _ & Hpt & Hsame);
    try done.
  { split; cbn; try done. constructor. }
  destruct (user_buffer_stable m (ph_mem (k_phys s1)) (k_pagetable s) buf n [e; i; u] Rbuf) as [Hub Hua].
  { intros a x Ha Hx Hne. apply (Rt a x Ha Hx). destruct (decide (Forall (fun p => x < p \/ p + PGSIZE <= x) [e; i; u])) as [Hoff|Hon].
    - destruct Hne. by apply Hsame.
    - apply not_Forall_Exists in Hon; [|intros p; apply _]. apply Exists_exists in Hon as (p & Hp & Hx'). exists p.
      split; [done|]. cbn in Hx'. lia. }
  rewrite (bind_Ret _ _ _ _ _ HR).
  destruct (udp_recvfrom_ok s1 (pb_sock bd) k1 u [] buf len flags src alen) as (s2 & k2 & HR2 & Hb2 & _).
  - exact Hk1.
  - rewrite Hh1. apply not_elem_of_nil.
  - apply (mo_wf _ Hok1).
  - apply (mo_end _ Hok1).
  - apply (mo_pool _ Hok1).
  - rewrite He1. exact Hq1.
  - exact Hlu.
  - lia.
  - rewrite Hl1. lia.
  - rewrite Hl1, Hpt. destruct Hub as [U1 U2 U3 U4 U5]. split; try done. intros p x Hp. apply U5. set_solver.
  - exists s2. rewrite HR2, Hl1. fold n. split; [destruct (Z.ltb_spec n len); f_equal; lia|].
    intros j Hj. rewrite Hl1, Hpt in Hb2. specialize (Hb2 j Hj). rewrite Hua in Hb2 by lia. fold m in Hb2. rewrite Hb2.
    destruct (list_lookup_Some_lt data (Z.to_nat j)) as [y Hy]; [lia|]. rewrite Hy. f_equal.
    rewrite <- (holds_lookup _ _ _ _ _ Hd1 Hy). f_equal. lia.
Qed.

Lemma bytes_app a b : bytes a -> bytes b -> bytes (a ++ b).
Proof. apply Forall_app_2. Qed.

Lemma udp_packet_bytes dmac smac sip dip sport dport c1 c2 data :
  bytes dmac -> bytes smac -> 0 <= sport < 2 ^ 16 -> 0 <= dport < 2 ^ 16 -> 0 <= c1 < 2 ^ 16 -> 0 <= c2 < 2 ^ 16 ->
  bytes data -> Z.of_nat (length data) <= 1500 -> bytes (udp_packet dmac smac sip dip sport dport c1 c2 data).
Proof.
  intros Hd Hs Hsp Hdp H1 H2 Hb Hl. unfold udp_packet, ip4_bytes, udp_bytes.
  repeat lazymatch goal with
  | |- bytes (_ ++ _) => apply bytes_app
  | |- bytes (be16 _) => apply be16_bytes; unfold PROTO_IPV4; lia
  | |- bytes (le16 _) => by apply le16_bytes
  | |- bytes (le32 _) => apply le32_bytes
  | |- bytes [_; _] => repeat constructor; unfold IPPROTO_UDP; lia
  | |- bytes _ => assumption
  end.
Qed.

(** C17: a datagram of up to 227 bytes travels from one user to another.
    udp_sendto puts one frame on the wire, with IPv4 and UDP checksums that
    verify; on any host whose receive buffer holds that frame and which has a
    socket bound to the port, handle_packet and then udp_recvfrom deliver exactly
    the bytes of the sender's buffer.  The address is resolved, and each host
    has the free pages the calls take. *)
Theorem udp_end_to_end A sockA kA bufA len flagsA dest mac f r l :
  sender_ready A sockA kA bufA len dest mac f r l -> 0 <= len <= 227 ->
  let user := user_view (ph_mem (k_phys A)) (k_pagetable A) in let nc := k_netconf A in
  let dip := ld32 user (dest + sin_addr) in let dport := ld16 user (dest + sin_port) in
  let data := ldbytes user bufA (Z.to_nat len) in let sport := u16 (so_src_port kA) in
  exists A' c1 c2, let frame := udp_packet mac (nc_mac_addr nc) (nc_ip_addr nc) dip sport dport c1 c2 data in
    udp_sendto sockA bufA len flagsA dest SOCKADDR_IN_SIZE A = Ret 0 A' /\
    vn_sent (k_net A') = vn_sent (k_net A) ++ [frame] /\ bytes frame /\
    chksum (mem_of (ip4_bytes (len + 28) IPPROTO_UDP c1 (nc_ip_addr nc) dip)) 0 20 = 0 /\
    udp_checksum (mem_of (udp_bytes sport dport (len + 8) c2 ++ data)) (nc_ip_addr nc) dip 0 8 len = 0 /\
    forall B rxb packet e i u l' b bd k bufB lenB flagsB src alen,
      receiver_ready B frame rxb packet e i u l' (ntohs dport) b bd k bufB len -> len <= lenB ->
      exists B', (handle_packet packet (len + 42) ;;; udp_recvfrom (pb_sock bd) bufB lenB flagsB src alen) B = Ret len B' /\
        forall j, 0 <= j < len ->
          ph_mem (k_phys B') (uaddr (ph_mem (k_phys B)) (k_pagetable B) (bufB + j)) = user (bufA + j).
Proof.
  intros [Sn Sh Ss Sd Sb Sa [Sm1 Sm2] Sf Sst (v & rest & Sp)] Hlen user nc dip dport data sport.
  destruct (udp_sendto_ok A sockA kA bufA len flagsA dest SOCKADDR_IN_SIZE mac f r l v rest)
    as (A' & c1 & c2 & HR & Hc1 & Hc2 & Hdip & Hdport & Hdb & Hsent & Hk1 & Hk2 & _); try done; [lia|].
  exists A', c1, c2. fold user nc dip dport sport in Hsent, Hdip, Hdport, Hk1, Hk2. fold data in Hsent, Hk2.
  pose proof (ho_ip _ Sh) as Hsip. pose proof (u16_range (so_src_port kA)) as Hsport.
  assert (Z.of_nat (length data) = len) as Hdl by (unfold data; rewrite ldbytes_length; lia).
  split_and!; try done.
  - apply udp_packet_bytes; try done; [apply (ho_bytes _ Sh)|lia].
  - intros B rxb packet e i u l' b bd k bufB lenB flagsB src alen HB HlB.
    destruct (receiver_delivers B mac (nc_mac_addr nc) (nc_ip_addr nc) dip sport dport c1 c2 data
      rxb packet e i u l' b bd k bufB lenB flagsB src alen) as (B' & HRB & Hj); try done; try (rewrite Hdl; lia).
    + apply (ho_mac _ Sh).
    + by rewrite Hdl.
    + rewrite Hdl in HRB, Hj. exists B'. split; [exact HRB|]. intros j Hj'.
      specialize (Hj j Hj'). unfold data in Hj. rewrite ldbytes_lookup in Hj by lia.
      injection Hj as Hj. rewrite <- Hj. f_equal. lia.
Qed.

(** ** What an operation leaves alone

    [keeps f c]: when [c] returns, the part [f] of the state is as it was. *)
Definition keeps {S A B} (f : S -> B) (c : M S A) : Prop := forall s a s', c s = Ret a s' -> f s' = f s.

Section keeps.
Context {S B : Type} (f : S -> B).
Lemma keeps_ret {A} (a : A) : keeps f (ret a).
Proof. by intros s a' s' [= _ <-]. Qed.
Lemma keeps_bind {A C} (c : M S A) (k : A -> M S C) : keeps f c -> (forall a, keeps f (k a)) -> keeps f (bind c k).
Proof. intros Hc Hk s b s' (a & s1 & H1 & H2)%bind_inv. rewrite (Hk a _ _ _ H2). by apply (Hc _ _ _ H1). Qed.
Lemma keeps_gets {A} (g : S -> A) : keeps f (gets g).
Proof. by intros s a s' [= _ <-]. Qed.
Lemma keeps_modify (g : S -> S) : (forall s, f (g s) = f s) -> keeps f (modify g).
Proof. intros H s a s' [= _ <-]. apply H. Qed.
Lemma keeps_fault {A} : keeps f (fault (A := A)).
Proof. by intros s a s'. Qed.
Lemma keeps_panic {A} msg : keeps f (panic (A := A) msg).
Proof. by intros s a s'. Qed.
Lemma keeps_if {A} (b : bool) (c d : M S A) : keeps f c -> keeps f d -> keeps f (if b then c else d).
Proof. by destruct b. Qed.
Lemma keeps_nonnull p : keeps f (nonnull p).
Proof. unfold nonnull. apply keeps_if; [apply keeps_fault|apply keeps_ret]. Qed.
End keeps.

Create HintDb keepdb.
#[export] Hint Resolve keeps_ret keeps_gets keeps_fault keeps_panic keeps_nonnull : keepdb.

Definition rxq_of (s : kst) : virtq := vn_rxq (k_net s).

Lemma keeps_lift {A} (c : M phys A) : keeps rxq_of (lift c).
Proof. intros s a s'. unfold lift. destruct (c (view s)); by intros [= <- <-]. Qed.
Lemma keeps_acquire l : keeps rxq_of (acquire l).
Proof. intros s a s'. unfold acquire. case_decide; by intros [= <- <-]. Qed.
Lemma keeps_release l : keeps rxq_of (release l).
Proof. intros s a s'. unfold release. case_decide; by intros [= <- <-]. Qed.
Lemma keeps_sock_get p : keeps rxq_of (sock_get p).
Proof. intros s a s'. unfold sock_get. case_match; by intros [= <- <-]. Qed.
Lemma keeps_sock_put p k : keeps rxq_of (sock_put p k).
Proof. intros s a s'. unfold sock_put. case_match; by intros [= <- <-]. Qed.
Lemma keeps_binding_get p : keeps rxq_of (binding_get p).
Proof. intros s a s'. unfold binding_get. case_match; by intros [= <- <-]. Qed.
Lemma keeps_udp_bind_at p : keeps rxq_of (udp_bind_at p).
Proof. intros s a s'. unfold udp_bind_at. case_match; by intros [= <- <-]. Qed.
Lemma keeps_tcp_bind_at p : keeps rxq_of (tcp_bind_at p).
Proof. intros s a s'. unfold tcp_bind_at. case_match; by intros [= <- <-]. Qed.
Lemma keeps_put_desc i g : keeps rxq_of (put_desc i g).
Proof. intros s a s'. unfold put_desc. repeat case_match; by intros [= <- <-]. Qed.
Lemma keeps_free_desc i : keeps rxq_of (free_desc i).
Proof. intros s a s'. unfold free_desc, wakeup, modify. repeat case_match; by intros [= <- <-]. Qed.
Lemma keeps_notify_tx : keeps rxq_of notify_tx.
Proof. intros s a s'. unfold notify_tx. repeat case_match; by intros [= <- <-]. Qed.
Lemma keeps_wait_used p : keeps rxq_of (wait_used p).
Proof. intros s a s'. unfold wait_used. repeat case_match; by intros [= <- <-]. Qed.
Lemma keeps_wakeup c : keeps rxq_of (wakeup c).
Proof. by apply keeps_modify. Qed.
#[export] Hint Resolve keeps_acquire keeps_release keeps_sock_get keeps_sock_put keeps_binding_get
  keeps_udp_bind_at keeps_tcp_bind_at keeps_put_desc keeps_free_desc keeps_notify_tx keeps_wait_used keeps_wakeup : keepdb.

(** [keep] decomposes a program and uses the database at its leaves. *)
Ltac keep :=
  repeat first
    [ solve [auto with keepdb]
    | apply keeps_lift
    | apply keeps_bind; [|intros]
    | apply keeps_if
    | apply keeps_modify; by intros []
    | match goal with |- keeps _ (match ?x with _ => _ end) => destruct x end
    | progress cbv beta ].

Lemma keeps_transmit p len proto : keeps rxq_of (transmit_packet p len proto).
Proof. unfold transmit_packet. keep. Qed.
#[export] Hint Resolve keeps_transmit : keepdb.

Lemma keeps_arp_recv p : keeps rxq_of (arp_recv p).
Proof. unfold arp_recv. keep. Qed.
Lemma keeps_handle_tcp p : keeps rxq_of (handle_tcp_packet p).
Proof. unfold handle_tcp_packet. keep. Qed.
Lemma keeps_handle_udp p : keeps rxq_of (handle_udp_packet p).
Proof. unfold handle_udp_packet, enqueue_udp_packet, when. keep. Qed.
#[export] Hint Resolve keeps_arp_recv keeps_handle_tcp keeps_handle_udp : keepdb.

Lemma keeps_handle_packet p len : keeps rxq_of (handle_packet p len).
Proof. unfold handle_packet, handle_ip4_packet, k_parse. keep. Qed.
#[export] Hint Resolve keeps_handle_packet : keepdb.

(** ** The receive loop *)

(** The counter of handled packets is an int, the device's a uint16. *)
Definition past_wrap (q : virtq) : Prop :=
  (2 ^ 16 <= q_used_idx q < 2 ^ 31 \/ q_used_idx q = - 2 ^ 31 \/ q_used_idx q = - 2 ^ 31 + 1) /\
  0 <= q_used_ring_idx q < 2 ^ 16 /\ length (q_used_ring q) = 8%nat.

Lemma requeue_past_wrap id s s' :
  past_wrap (rxq_of s) -> q_used_idx (rxq_of s) <> - 2 ^ 31 + 1 -> requeue id s = Ret tt s' -> past_wrap (rxq_of s').
Proof.
  intros (Hu & Hi & Hl) Hne. unfold requeue. rewrite bind_gets. fold (rxq_of s). unfold publish. destruct (zset _ _ _); [|done]. intros [= <-].
  split; [|split; [exact Hi|exact Hl]]. unfold rxq_of in *. cbn [vn_rxq k_net set_net set_rxq set_rx_told set_avail set_used_idx q_used_idx].
  destruct Hu as [Hu|[Hu|Hu]]; [|rewrite Hu; right; right; reflexivity|done].
  destruct (Z.eq_dec (q_used_idx (vn_rxq (k_net s))) (2 ^ 31 - 1)) as [->|].
  - right. left. reflexivity.
  - left. rewrite s32_small by lia. lia.
Qed.

Lemma receive_loop_stuck fuel s : past_wrap (rxq_of s) -> forall s', receive_loop fuel s <> Ret tt s'.
Proof.
  revert s. induction fuel as [|fuel IH]; intros s Hp s'; [done|]. cbn [receive_loop]. rewrite bind_gets.
  fold (rxq_of s). pose proof Hp as (Hu & Hi & Hl).
  replace (q_used_idx (rxq_of s) =? q_used_ring_idx (rxq_of s)) with false by (symmetry; apply Z.eqb_neq; lia).
  destruct (Z.eq_dec (q_used_idx (rxq_of s)) (- 2 ^ 31 + 1)) as [E|Hne].
  { rewrite E. by replace (znth (q_used_ring (rxq_of s)) (Z.rem (- 2 ^ 31 + 1) NUM)) with (@None (Z * Z)). }
  destruct (znth (q_used_ring (rxq_of s)) _) as [[eid elen]|]; [|done].
  destruct (znth (q_desc (rxq_of s)) _) as [d|]; [|done]. destruct (znth (q_desc (rxq_of s)) (d_next d)) as [b|]; [|done].
  intros ([] & s1 & H1 & H2)%bind_inv. apply bind_inv in H2 as ([] & s2 & H2 & H3).
  apply bind_inv in H3 as ([] & s3 & H3 & H4). apply bind_inv in H4 as ([] & s4 & H4 & H5).
  assert (rxq_of s3 = rxq_of s) as E3.
  { rewrite (keeps_acquire _ _ _ _ H3), (keeps_handle_packet _ _ _ _ _ H2). by apply (keeps_release _ _ _ _ H1). }
  revert H5. apply IH. apply (requeue_past_wrap (s32 eid) s3); by rewrite ?E3.
Qed.

(** After 65,536 packets the interrupt handler never returns.  Its count
    of handled packets goes on past 65,535 while the device's index wraps to
    0, so the two are never equal again: however long it runs, receive_packet
    does not return. *)
Lemma receive_packet_stuck s :
  let q := vn_rxq (k_net s) in
  2 ^ 16 <= q_used_idx q < 2 ^ 31 -> 0 <= q_used_ring_idx q < 2 ^ 16 -> length (q_used_ring q) = 8%nat ->
  ~ exists fuel r s', receive_packet fuel s = Ret r s'.
Proof.
  intros q H1 H2 H3 (fuel & r & s' & ([] & s1 & Ha & Hb)%bind_inv). apply bind_inv in Hb as ([] & s2 & Hb & _).
  assert (rxq_of s1 = q) as E by exact (keeps_acquire _ _ _ _ Ha).
  revert Hb. apply receive_loop_stuck. rewrite E. split; [by left|done].
Qed.

(** One turn of the loop, around a call of handle_packet that returns. *)
Lemma receive_loop_turn fuel s s1 id elen d1 d2 ring :
  let rq := vn_rxq (k_net s) in
  k_held s = [vnet_lock] -> 0 <= q_used_idx rq -> q_used_idx rq <> q_used_ring_idx rq ->
  znth (q_used_ring rq) (q_used_idx rq mod NUM) = Some (id, elen) -> 10 <= elen < 2 ^ 31 ->
  0 <= id < NUM -> znth (q_desc rq) id = Some d1 -> znth (q_desc rq) (d_next d1) = Some d2 ->
  zset (q_avail_ring rq) (q_avail_idx rq mod NUM) id = Some ring ->
  handle_packet (d_addr d2 + 10) (elen - 10) (set_held [] s) = Ret tt s1 -> k_held s1 = [] ->
  receive_loop (S fuel) s = receive_loop fuel
    (set_net (set_rx_told (u16 (q_avail_idx rq + 1))
       (set_rxq (set_avail (set_used_idx rq (s32 (q_used_idx rq + 1))) (u16 (q_avail_idx rq + 1)) ring) (k_net s1)))
       (set_held [vnet_lock] s1)).
Proof.
  intros rq Hh H0 Hne Hur Hel Hid Hd1 Hd2 Hz HR Hh1.
  assert (vn_rxq (k_net s1) = rq) as Erx by exact (keeps_handle_packet _ _ _ _ _ HR).
  assert (Z.rem (q_used_idx rq) NUM = q_used_idx rq mod NUM) as Erem by (apply Z.rem_mod_nonneg; unfold NUM; lia).
  cbn [receive_loop]. rewrite bind_gets. fold rq. rewrite (proj2 (Z.eqb_neq _ _)) by done.
  rewrite Erem, Hur, (s32_small id), Hd1, Hd2 by (unfold NUM in *; lia).
  rewrite (u32_small (elen - 10)), (s32_small (elen - 10)), u32_small by lia.
  erewrite bind_Ret by (apply (release_ok _ []); [exact Hh|apply not_elem_of_nil]).
  rewrite (bind_Ret _ _ _ _ _ HR). erewrite bind_Ret by (apply acquire_ok; rewrite Hh1; apply not_elem_of_nil).
  rewrite Hh1. erewrite bind_Ret; [reflexivity|]. unfold requeue. rewrite bind_gets. unfold publish. cbn [k_net set_held].
  rewrite Erx. cbn [set_used_idx q_avail_ring q_avail_idx].
  rewrite u16_small by (unfold NUM in *; lia). by rewrite Hz.
Qed.

(** C18: the interrupt for one received datagram of up to 227 bytes for a bound
    port, among the first 65535 packets, puts it at the end of the socket's queue,
    wakes the reader, gives the receive chain back to the device, notifies it and
    returns, when three pages are free. *)
Theorem receive_packet_queues s dmac smac sip dip sport dport c1 c2 data d1 d2 id e i u l b bd k q :
  let n := Z.of_nat (length data) in let rq := vn_rxq (k_net s) in
  length dmac = 6%nat -> length smac = 6%nat -> 0 <= sip < 2 ^ 32 -> 0 <= dip < 2 ^ 32 -> 0 <= sport < 2 ^ 16 ->
  0 <= dport < 2 ^ 16 -> 0 <= c1 < 2 ^ 16 -> 0 <= c2 < 2 ^ 16 -> n <= 227 ->
  mem_ok (k_phys s) -> Pool.free (ph_pool (k_phys s)) = e :: i :: u :: l -> k_held s = [] ->
  0 <= q_used_idx rq < 65535 -> q_used_ring_idx rq = q_used_idx rq + 1 ->
  znth (q_used_ring rq) (q_used_idx rq mod NUM) = Some (id, n + 42 + 10) ->
  0 <= id < NUM -> znth (q_desc rq) id = Some d1 -> znth (q_desc rq) (d_next d1) = Some d2 ->
  length (q_avail_ring rq) = 8%nat -> 0 <= q_avail_idx rq ->
  live (k_phys s) (d_addr d2) ->
  holds (ph_mem (k_phys s)) (d_addr d2 + 10) (udp_packet dmac smac sip dip sport dport c1 c2 data) ->
  ntohs dport < MAX_PORT_BINDINGS -> znth (st_udp_binds (k_sockets s)) (ntohs dport) = Some b -> b <> 0 ->
  st_bindings (k_sockets s) !! b = Some bd -> st_sockets (k_sockets s) !! pb_sock bd = Some k ->
  so_proto k = IPPROTO_UDP -> queue_ok (ph_mem (k_phys s)) (ph_end (k_phys s)) k q -> Forall (live (k_phys s)) q ->
  exists s' k', receive_packet 2 s = Ret 0 s' /\
    st_sockets (k_sockets s') !! pb_sock bd = Some k' /\
    queue_ok (ph_mem (k_phys s')) (ph_end (k_phys s)) k' (q ++ [u]) /\ payload_len (ph_mem (k_phys s')) u = n /\
    holds (ph_mem (k_phys s')) (u + udp_payload) data /\
    k_wakeups s' = k_wakeups s ++ [pb_sock bd + sock_rx_head] /\ k_held s' = [] /\
    q_used_idx (vn_rxq (k_net s')) = q_used_idx rq + 1 /\
    q_avail_idx (vn_rxq (k_net s')) = u16 (q_avail_idx rq + 1) /\
    znth (q_avail_ring (vn_rxq (k_net s'))) (q_avail_idx rq mod NUM) = Some id /\
    vn_rx_told (k_net s') = q_avail_idx (vn_rxq (k_net s')).
Proof.
  intros n rq Hdm Hsm Hsip Hdip Hsp Hdp Hc1 Hc2 Hn Hok Hf Hh Hui Hri Hur Hid Hd1 Hd2 Hav Hai Hlx Hfr Hpb Hb Hb0 Hbd Hk Hpr Hq Hlq.
  destruct (handle_packet_queues dmac smac sip dip sport dport c1 c2 data Hdm Hsm Hsip Hdip Hsp Hdp Hc1 Hc2 ltac:(lia)
    s (d_addr d2) (d_addr d2 + 10) e i u l b bd k q)
    as (s1 & k1 & HR & Hok1 & Hk1 & Hq1 & Hl1 & Hd & Hlu & Hru & Hf1 & He1 & Hh1 & Hwk & _ & _); try done; try (unfold PGSIZE; lia).
  assert (0 <= q_avail_idx rq mod NUM < Z.of_nat (length (q_avail_ring rq))) as Hslot.
  { rewrite Hav. apply Z.mod_pos_bound. reflexivity. }
  set (ring := <[Z.to_nat (q_avail_idx rq mod NUM) := id]> (q_avail_ring rq)).
  assert (zset (q_avail_ring rq) (q_avail_idx rq mod NUM) id = Some ring) as Hz by by apply zset_Some.
  unfold receive_packet. erewrite bind_Ret by (apply acquire_ok; rewrite Hh; apply not_elem_of_nil). rewrite Hh.
  assert (set_held [] (set_held [vnet_lock] s) = s) as Es by (rewrite <- Hh; by destruct s).
  pose proof (receive_loop_turn 1 (set_held [vnet_lock] s) s1 id (n + 42 + 10) d1 d2 ring eq_refl (proj1 Hui)) as HT.
  cbn zeta in HT. rewrite Es in HT. replace (n + 42 + 10 - 10) with (n + 42) in HT by lia.
  specialize (HT ltac:(fold rq; cbn; fold rq; lia) Hur ltac:(lia) Hid Hd1 Hd2 Hz HR Hh1).
  set (s2 := set_net _ (set_held [vnet_lock] s1)) in HT.
  assert (receive_loop 1 s2 = Ret tt s2) as HT1.
  { cbn [receive_loop]. rewrite bind_gets. subst s2. kred. cbn [set_avail set_used_idx q_used_idx q_used_ring_idx].
    fold rq. rewrite s32_small, Hri, Z.eqb_refl by lia. done. }
  rewrite HT1 in HT. rewrite (bind_Ret _ _ _ _ _ HT).
  erewrite bind_Ret by (apply (release_ok _ []); [reflexivity|apply not_elem_of_nil]).
  exists (set_held [] s2), k1. split; [reflexivity|]. subst s2. kred.
  cbn [set_avail set_used_idx q_used_idx q_avail_idx q_avail_ring]. fold rq. rewrite s32_small by lia.
  split_and!; try done. by apply (znth_zset_eq (q_avail_ring rq)).
Qed.

(** ** Witnesses *)

(** A sender whose user page holds port 7 at bytes 2 and 3. *)
Definition sender_mem : mem := st16 (demo_mem 40) 0x80103002 (htons 7).
Definition sender : kst := with_mem (send_kernel one_entry []) sender_mem.

Lemma sender_tables : user_tables sender_mem.
Proof. intros x Hx. unfold sender_mem. rewrite stn_out by lia. by apply demo_tables. Qed.

Lemma sender_is_ready :
  sender_ready sender 0x87ff3000 (demo_socket 0) 100 40 0 [2; 0; 0; 0; 0; 9] 0x87fff000 0x87ffe000 [].
Proof.
  split.
  - apply (net_ok_setmem (send_kernel one_entry []) (fun _ => sender_mem)); [apply send_kernel_ok|].
    intros _ _. apply stn_wf, demo_mem_wf.
  - split; cbn; [lia|reflexivity|]. repeat constructor; lia.
  - reflexivity.
  - apply tables_readable; [apply sender_tables|lia|unfold SOCKADDR_IN_SIZE, PGSIZE; lia|cbn; lia].
  - apply tables_readable; [apply sender_tables|lia|unfold PGSIZE; lia|cbn; lia].
  - vm_compute. reflexivity.
  - split; [reflexivity|]. repeat constructor; lia.
  - reflexivity.
  - left. vm_compute. discriminate.
  - exists 1, [1; 2]. reflexivity.
Qed.

(** A receiver with the frame 10 bytes into its receive buffer at 0x87ff9000. *)
Definition recv_mem (frame : list Z) : mem := stbytes one_user_page (0x87ff9000 + 10) frame.
Definition recv_kernel (frame : list Z) : kst :=
  set_phys (mkPhys (recv_mem frame) (Pool.mkPool [0x87fff000; 0x87ffe000; 0x87ffc000] (fun _ => 0)) 0x87ff0000)
    (demo_kernel 0 40).

Lemma recv_mem_ok frame : mem_ok (k_phys (recv_kernel frame)).
Proof.
  split; cbn.
  - unfold recv_mem. apply stbytes_wf, one_user_page_wf.
  - split; cbn; [apply (bool_decide_eq_true_1 (NoDup _)); vm_compute; reflexivity|].
    repeat (constructor; [by apply demo_managed|]). constructor.
  - unfold KERNBASE. lia.
Qed.

Lemma recv_tables frame : user_tables (recv_mem frame).
Proof. intros x Hx. unfold recv_mem. by rewrite stbytes_out by lia. Qed.

Lemma recv_live p : p mod PGSIZE = 0 -> 0x87ff0000 <= p < 0x87ffc000 -> forall frame, live (k_phys (recv_kernel frame)) p.
Proof.
  intros H1 H2 frame. split; [apply demo_managed; [done|lia]|]. cbn. rewrite !not_elem_of_cons.
  split_and!; try lia. apply not_elem_of_nil.
Qed.

Lemma recv_is_ready frame len :
  bytes frame -> 0 <= len <= 227 ->
  receiver_ready (recv_kernel frame) frame 0x87ff9000 (0x87ff9000 + 10) 0x87fff000 0x87ffe000 0x87ffc000 []
    7 0x87ff6000 (mkPortBinding 0x000a 7 0x87ff3000) (demo_socket 0) 100 len.
Proof.
  intros Hb Hl. split.
  - apply recv_mem_ok.
  - reflexivity.
  - by apply recv_live.
  - unfold PGSIZE. lia.
  - by apply holds_stbytes.
  - split_and!; [reflexivity|lia|reflexivity].
  - reflexivity.
  - reflexivity.
  - reflexivity.
  - split; reflexivity.
  - reflexivity.
  - apply tables_buffer; [apply recv_tables|lia|]. repeat (constructor; [lia|]). constructor.
  - intros va x Hva Hx (p & Hp & Hpx). apply user_tables_walk in Hx; [|apply recv_tables|unfold PGSIZE; lia].
    rewrite !elem_of_cons in Hp. unfold PGSIZE in Hpx. destruct Hp as [->|[->|[->|Hp]]]; try lia. by apply elem_of_nil in Hp.
Qed.

Lemma udp_end_to_end_witness :
  exists A' frame B', udp_sendto 0x87ff3000 100 40 0 0 SOCKADDR_IN_SIZE sender = Ret 0 A' /\
    vn_sent (k_net A') = [frame] /\
    (handle_packet (0x87ff9000 + 10) 82 ;;; udp_recvfrom 0x87ff3000 100 2000 0 0 0) (recv_kernel frame) = Ret 40 B' /\
    ph_mem (k_phys B') (uaddr (recv_mem frame) 0x80100000 (100 + 3)) = user_view sender_mem 0x80100000 (100 + 3).
Proof.
  destruct (udp_end_to_end sender 0x87ff3000 (demo_socket 0) 100 40 0 0 [2; 0; 0; 0; 0; 9] 0x87fff000 0x87ffe000 []
    sender_is_ready) as (A' & c1 & c2 & H1 & H2 & Hb & _ & _ & H3); [lia|].
  set (frame := udp_packet _ _ _ _ _ _ c1 c2 _) in *.
  destruct (H3 (recv_kernel frame) 0x87ff9000 (0x87ff9000 + 10) 0x87fff000 0x87ffe000 0x87ffc000 [] 0x87ff6000
    (mkPortBinding 0x000a 7 0x87ff3000) (demo_socket 0) 100 2000 0 0 0) as (B' & H4 & H5).
  - replace (ntohs (ld16 (user_view (ph_mem (k_phys sender)) (k_pagetable sender)) (0 + sin_port))) with 7
      by (vm_compute; reflexivity).
    apply recv_is_ready; [exact Hb|lia].
  - lia.
  - exists A', frame, B'. split; [exact H1|]. split; [exact H2|]. split; [exact H4|]. apply H5. lia.
Defined.

Definition demo_frame (n : nat) : list Z :=
  udp_packet [2; 0; 0; 0; 0; 9] demo_mac 0x0a0a000a 0x0b0a000a 4000 (htons 7) 0 0 (replicate n 65).

Lemma demo_frame_bytes n : (n <= 1500)%nat -> bytes (demo_frame n).
Proof.
  intros Hn. apply udp_packet_bytes; try lia; try (repeat constructor; lia).
  - vm_compute. split; [discriminate|reflexivity].
  - apply Forall_replicate. lia.
  - rewrite length_replicate. lia.
Qed.

(** The receiver's queue: chain 0 -> 1, its buffer at 0x87ff9000, one entry used. *)
Definition recv_queue (used idx : Z) : virtq :=
  mkVirtq (mkDesc 0x87ffa000 10 1 1 :: mkDesc 0x87ff9000 4096 2 0 :: replicate 6 (mkDesc 0 0 0 0))
    4 [0; 2; 4; 6; 0; 0; 0; 0] idx ((0, 92) :: replicate 7 (0, 0)) 0 (replicate 8 0) used.
Definition recv_irq (used idx : Z) : kst :=
  set_net (set_rxq (recv_queue used idx) (k_net idle_kernel)) (recv_kernel (demo_frame 40)).

Lemma receive_packet_queues_witness :
  exists s' k', receive_packet 2 (recv_irq 0 1) = Ret 0 s' /\
    st_sockets (k_sockets s') !! 0x87ff3000 = Some k' /\ so_rx_head k' = 0x87ffc000.
Proof.
  destruct (receive_packet_queues (recv_irq 0 1) [2; 0; 0; 0; 0; 9] demo_mac 0x0a0a000a 0x0b0a000a 4000 (htons 7) 0 0
    (replicate 40 65) (mkDesc 0x87ffa000 10 1 1) (mkDesc 0x87ff9000 4096 2 0) 0 0x87fff000 0x87ffe000 0x87ffc000 []
    0x87ff6000 (mkPortBinding 0x000a 7 0x87ff3000) (demo_socket 0) []) as (s' & k' & H1 & H2 & H3 & _).
  - reflexivity.
  - reflexivity.
  - lia.
  - lia.
  - lia.
  - vm_compute. split; [discriminate|reflexivity].
  - lia.
  - lia.
  - rewrite length_replicate. lia.
  - apply recv_mem_ok.
  - reflexivity.
  - reflexivity.
  - cbn. lia.
  - reflexivity.
  - reflexivity.
  - unfold NUM. lia.
  - reflexivity.
  - reflexivity.
  - reflexivity.
  - cbn. lia.
  - by apply recv_live.
  - apply holds_stbytes, demo_frame_bytes. lia.
  - reflexivity.
  - reflexivity.
  - lia.
  - reflexivity.
  - reflexivity.
  - reflexivity.
  - split; [reflexivity|reflexivity|constructor|constructor].
  - constructor.
  - exists s', k'. split; [exact H1|]. split; [exact H2|]. exact (proj1 (qo_chain _ _ _ _ H3)).
Defined.
