(* ===== verification/VirtioInit.v ===== *)
(** * kernel/virtio_net.c: virtio_net_init and apply_padding

    The registers of the device are its side of the interface: what it answers
    to reads is a [device], what the driver writes is a list of register and
    value in order.  The descriptor tables and rings live in pages of their
    own; the model keeps them as the records of KState.v and the addresses as
    the driver tells them to the device.  A newline at the end of a panic's text
    is left out. *)
From S2P Require Import Prelude Mem StringC Net Kalloc Page Vm KState VirtioNet NetRx.
From Stdlib Require Import ZArith Lia.
From stdpp Require Import strings.
Local Open Scope list_scope.
Local Open Scope Z_scope.
Local Open Scope kernel_scope.

(** ** Registers and bits *)
Definition VIRTIO_MMIO_DRIVER_FEATURES : Z := 0x020.
Definition VIRTIO_MMIO_QUEUE_SEL : Z := 0x030.
Definition VIRTIO_MMIO_QUEUE_NUM : Z := 0x038.
Definition VIRTIO_MMIO_QUEUE_READY : Z := 0x044.
Definition VIRTIO_MMIO_QUEUE_NOTIFY : Z := 0x050.
Definition VIRTIO_MMIO_STATUS : Z := 0x070.
Definition VIRTIO_MMIO_QUEUE_DESC_LOW : Z := 0x080.
Definition VIRTIO_MMIO_QUEUE_DESC_HIGH : Z := 0x084.
Definition VIRTIO_MMIO_DRIVER_DESC_LOW : Z := 0x090.
Definition VIRTIO_MMIO_DRIVER_DESC_HIGH : Z := 0x094.
Definition VIRTIO_MMIO_DEVICE_DESC_LOW : Z := 0x0a0.
Definition VIRTIO_MMIO_DEVICE_DESC_HIGH : Z := 0x0a4.
Definition VIRTIO_CONFIG_S_ACKNOWLEDGE : Z := 1.
Definition VIRTIO_CONFIG_S_DRIVER : Z := 2.
Definition VIRTIO_CONFIG_S_DRIVER_OK : Z := 4.
Definition VIRTIO_CONFIG_S_FEATURES_OK : Z := 8.
Definition VIRTIO_NET_F_MAC : Z := Z.shiftl 1 5.

(** What the device answers: its identity, its configuration space, its
    features, the status it shows after the driver asked for FEATURES_OK, the
    maximal queue size, and whether each queue is already in use. *)
Record device := mkDevice {
  dv_magic : Z; dv_version : Z; dv_device_id : Z; dv_vendor : Z;
  dv_mac : list Z; dv_features : Z; dv_status : Z; dv_queue_max : Z;
  dv_tx_ready : Z; dv_rx_ready : Z
}.

(** The kernel together with the register writes so far. *)
Record boot := mkBoot { bt_k : kst; bt_writes : list (Z * Z) }.
#[export] Instance boot_kst : Lens boot kst.
Proof. refine {| view := bt_k; update := fun k b => mkBoot k (bt_writes b) |}; [done|by intros []|done]. Defined.

(** [*R(r) = v]: the registers are 32 bits wide. *)
Definition wreg (r v : Z) : M boot unit := modify (fun b => mkBoot (bt_k b) (bt_writes b ++ [(r, u32 v)])).

(** initlock() leaves the lock free. *)
Definition initlock (l : lock_id) : M kst unit :=
  modify (fun s => set_held (base.filter (fun x => x <> l) (k_held s)) s).

(** The two queues have the same set-up code; [rx] says which one. *)
Definition setq (rx : bool) (q : virtq) (n : virtio_net) : virtio_net := if rx then set_rxq q n else set_txq q n.
Definition getq (rx : bool) (n : virtio_net) : virtq := if rx then vn_rxq n else vn_txq n.
Definition mod_queue (rx : bool) (f : virtq -> virtq) : M kst unit :=
  modify (fun s => set_net (setq rx (f (getq rx (k_net s))) (k_net s)) s).

Definition set_num (num : Z) (q : virtq) : virtq :=
  mkVirtq (q_desc q) (q_avail_idx q) (q_avail_ring q) (q_used_ring_idx q) (q_used_ring q) num (q_free q) (q_used_idx q).

(** The queue after its three pages and its flags were set: descriptors and
    rings are zero, every descriptor is free, [used_idx] is as it was. *)
Definition cleared (q : virtq) : virtq :=
  mkVirtq (replicate 8 (mkDesc 0 0 0 0)) 0 (replicate 8 0) 0 (replicate 8 (0, 0)) (q_num q) (replicate 8 1) (q_used_idx q).

Definition queue_sel (rx : bool) : Z := if rx then QUEUE_RX else QUEUE_TX.

Definition init_queue (rx : bool) (ready : Z) : M boot unit :=
  wreg VIRTIO_MMIO_QUEUE_SEL (queue_sel rx) ;;;
  lift (mod_queue rx (set_num (queue_sel rx))) ;;;
  if negb (ready =? 0) then panic (if rx then "QUEUE_RX should not be ready" else "QUEUE_TX should not be ready")%string
  else
  desc <- lift k_kalloc ;;
  driver_area <- lift k_kalloc ;;
  device_area <- lift k_kalloc ;;
  if (desc =? 0) || (driver_area =? 0) || (device_area =? 0) then panic "virtio net alloc"%string
  else
  lift (k_setmem (fun m => memset (memset (memset m desc 0 PGSIZE) driver_area 0 PGSIZE) device_area 0 PGSIZE)) ;;;
  lift (mod_queue rx cleared) ;;;
  wreg VIRTIO_MMIO_QUEUE_NUM NUM ;;;
  wreg VIRTIO_MMIO_QUEUE_DESC_LOW desc ;;;
  wreg VIRTIO_MMIO_QUEUE_DESC_HIGH (Z.shiftr desc 32) ;;;
  wreg VIRTIO_MMIO_DRIVER_DESC_LOW driver_area ;;;
  wreg VIRTIO_MMIO_DRIVER_DESC_HIGH (Z.shiftr driver_area 32) ;;;
  wreg VIRTIO_MMIO_DEVICE_DESC_LOW device_area ;;;
  wreg VIRTIO_MMIO_DEVICE_DESC_HIGH (Z.shiftr device_area 32).

(** A header descriptor and a buffer descriptor, published as one chain. *)
Definition offer_chain (q : virtq) (hdr_desc desc hdr buf : Z) : option virtq :=
  match znth (q_desc q) desc with
  | None => None
  | Some d =>
      match zset (q_desc q) hdr_desc (mkDesc hdr HDR_SIZE VRING_DESC_F_NEXT (u16 desc)) with
      | None => None
      | Some l =>
          match zset l desc (mkDesc buf PGSIZE VRING_DESC_F_WRITE (d_next d)) with
          | None => None
          | Some l => publish (set_desc q l) hdr_desc
          end
      end
  end.

(** One turn of the loop that offers receive buffers; only the buffer's
    allocation is checked. *)
Definition offer_buffer : M kst unit :=
  q <- gets (fun s => vn_rxq (k_net s)) ;;
  let '(rx_hdr_desc, q) := alloc_desc q in
  let '(rx_desc, q) := alloc_desc q in
  mod_queue true (fun _ => q) ;;;
  rxbuf <- k_kalloc ;;
  hdr <- k_kalloc ;;
  if rxbuf =? 0 then panic "rxbuf alloc failed"%string
  else match offer_chain q rx_hdr_desc rx_desc hdr rxbuf with
       | None => fault
       | Some q => mod_queue true (fun _ => q)
       end.

Fixpoint offer_buffers (n : nat) : M kst unit :=
  match n with O => ret tt | S n => offer_buffer ;;; offer_buffers n end.

Definition set_mac (mac : list Z) (n : virtio_net) : virtio_net :=
  mkVnet mac (vn_txq n) (vn_rxq n) (vn_packet_buf n) (vn_txq_free n) (vn_sent n) (vn_tx_polls n) (vn_tx_told n) (vn_rx_told n).
Definition set_packet_buf (p : Z) (n : virtio_net) : virtio_net :=
  mkVnet (vn_mac n) (vn_txq n) (vn_rxq n) p (vn_txq_free n) (vn_sent n) (vn_tx_polls n) (vn_tx_told n) (vn_rx_told n).

Definition virtio_net_init (dev : device) : M boot unit :=
  lift (initlock vnet_lock) ;;;
  if negb (dv_magic dev =? 0x74726976) || negb (dv_version dev =? 2) || negb (dv_device_id dev =? 1)
     || negb (dv_vendor dev =? 0x554d4551) then panic "could not find virtio net"%string
  else
  wreg VIRTIO_MMIO_STATUS 0 ;;;
  wreg VIRTIO_MMIO_STATUS VIRTIO_CONFIG_S_ACKNOWLEDGE ;;;
  wreg VIRTIO_MMIO_STATUS (Z.lor VIRTIO_CONFIG_S_ACKNOWLEDGE VIRTIO_CONFIG_S_DRIVER) ;;;
  lift (modify (fun s => set_net (set_mac (dv_mac dev) (k_net s)) s)) ;;;
  wreg VIRTIO_MMIO_DRIVER_FEATURES (Z.land (dv_features dev) VIRTIO_NET_F_MAC) ;;;
  wreg VIRTIO_MMIO_STATUS
    (Z.lor (Z.lor VIRTIO_CONFIG_S_ACKNOWLEDGE VIRTIO_CONFIG_S_DRIVER) VIRTIO_CONFIG_S_FEATURES_OK) ;;;
  let status := dv_status dev in
  if Z.land status VIRTIO_CONFIG_S_FEATURES_OK =? 0 then panic "virtio net FEATURES_OK unset"%string
  else if dv_queue_max dev =? 0 then panic "virtio net has no queue 1 (QUEUE_TX)"%string
  else if dv_queue_max dev <? NUM then panic "virtio net max queue too short"%string
  else
  init_queue false (dv_tx_ready dev) ;;;
  wreg VIRTIO_MMIO_QUEUE_READY 1 ;;;
  init_queue true (dv_rx_ready dev) ;;;
  lift (offer_buffers (Z.to_nat (NUM / 2))) ;;;
  wreg VIRTIO_MMIO_QUEUE_READY 1 ;;;
  wreg VIRTIO_MMIO_QUEUE_NOTIFY QUEUE_RX ;;;
  wreg VIRTIO_MMIO_STATUS (Z.lor status VIRTIO_CONFIG_S_DRIVER_OK) ;;;
  buf <- lift k_kalloc ;;
  lift (modify (fun s => set_net (set_packet_buf buf (k_net s)) s)).

(** apply_padding, which the code no longer calls. *)
Definition apply_padding (num_bytes : Z) : M kst Z :=
  buf <- gets (fun s => vn_packet_buf (k_net s)) ;;
  let pkt_ptr := buf + HDR_SIZE + (64 - num_bytes) in
  if (64 - HDR_SIZE <? num_bytes) || (num_bytes <? 1) then ret 1
  else k_setmem (fun m => memset m pkt_ptr 0 num_bytes) ;;; ret 0.

(** ** Set-up of a queue *)

Lemma boot_lift {A} (c : M kst A) b a k :
  c (bt_k b) = Ret a k -> lift c b = Ret a (mkBoot k (bt_writes b)).
Proof. intros H. unfold lift. cbn. by rewrite H. Qed.

(** One register write, and one kernel step whose result is known. *)
Ltac wstep := erewrite bind_Ret by reflexivity; cbv beta.
Ltac bstep H := erewrite bind_Ret by (apply boot_lift; exact H); cbv beta; cbn [bt_writes].

(** [below ph ph']: every page live in [ph] is live in [ph'], which has the
    same allocatable range. *)
Definition below (ph ph' : phys) : Prop :=
  ph_end ph' = ph_end ph /\ forall p, live ph p -> live ph' p.

Lemma below_trans ph1 ph2 ph3 : below ph1 ph2 -> below ph2 ph3 -> below ph1 ph3.
Proof. intros [E1 H1] [E2 H2]. split; [congruence|auto]. Qed.

Lemma k_alloc_below s f l :
  mem_ok (k_phys s) -> Pool.free (ph_pool (k_phys s)) = f :: l ->
  exists ph, k_kalloc s = Ret f (set_phys ph s) /\ mem_ok ph /\ live ph f /\ f <> 0 /\
    Pool.free (ph_pool ph) = l /\ below (k_phys s) ph.
Proof.
  intros H1 H2. destruct (k_alloc_ok s f l H1 H2) as (ph & HA & Hok & Hl & Hn & Hf & _ & He & _ & Hlv).
  exists ph. split_and!; [exact HA|exact Hok|exact Hl|exact Hn|exact Hf|split; [exact He|]]. intros p Hp. by apply Hlv.
Qed.

(** The registers init_queue writes, in order. *)
Definition queue_writes (rx : bool) (desc driver device : Z) : list (Z * Z) :=
  [(VIRTIO_MMIO_QUEUE_SEL, queue_sel rx); (VIRTIO_MMIO_QUEUE_NUM, NUM);
   (VIRTIO_MMIO_QUEUE_DESC_LOW, u32 desc); (VIRTIO_MMIO_QUEUE_DESC_HIGH, 0);
   (VIRTIO_MMIO_DRIVER_DESC_LOW, u32 driver); (VIRTIO_MMIO_DRIVER_DESC_HIGH, 0);
   (VIRTIO_MMIO_DEVICE_DESC_LOW, u32 device); (VIRTIO_MMIO_DEVICE_DESC_HIGH, 0)].

Definition fresh_queue (num used : Z) : virtq :=
  mkVirtq (replicate 8 (mkDesc 0 0 0 0)) 0 (replicate 8 0) 0 (replicate 8 (0, 0)) num (replicate 8 1) used.

Lemma page_high ph p : mem_ok ph -> live ph p -> u32 (Z.shiftr p 32) = 0.
Proof.
  intros [_ _ He] [[_ Hp] _]. rewrite Z.shiftr_div_pow2 by lia.
  rewrite Z.div_small; [done|]. unfold PHYSTOP, KERNBASE in *. split; lia.
Qed.

Lemma init_queue_ok rx b d1 d2 d3 l :
  let k := bt_k b in
  mem_ok (k_phys k) -> Pool.free (ph_pool (k_phys k)) = d1 :: d2 :: d3 :: l ->
  exists ph, init_queue rx 0 b =
      Ret tt (mkBoot (set_net (setq rx (fresh_queue (queue_sel rx) (q_used_idx (getq rx (k_net k)))) (k_net k))
                        (set_phys ph k)) (bt_writes b ++ queue_writes rx d1 d2 d3)) /\
    mem_ok ph /\ Pool.free (ph_pool ph) = l /\ below (k_phys k) ph /\
    live ph d1 /\ live ph d2 /\ live ph d3.
Proof.
  intros k Hok Hf. set (k1 := set_net (setq rx (set_num (queue_sel rx) (getq rx (k_net k))) (k_net k)) k).
  destruct (k_alloc_below k1 d1 (d2 :: d3 :: l) Hok Hf) as (p1 & A1 & O1 & L1 & N1 & F1 & B1).
  destruct (k_alloc_below (set_phys p1 k1) d2 (d3 :: l) O1 F1) as (p2 & A2 & O2 & L2 & N2 & F2 & B2).
  destruct (k_alloc_below (set_phys p2 (set_phys p1 k1)) d3 l O2 F2) as (p3 & A3 & O3 & L3 & N3 & F3 & B3).
  pose proof (page_high _ _ O1 L1) as E1. pose proof (page_high _ _ O2 L2) as E2.
  pose proof (page_high _ _ O3 L3) as E3.
  eexists (mkPhys (memset (memset (memset (ph_mem p3) d1 0 PGSIZE) d2 0 PGSIZE) d3 0 PGSIZE) (ph_pool p3) (ph_end p3)).
  split.
  - unfold init_queue. cbn [Z.eqb negb].
    wstep. bstep (eq_refl : mod_queue rx _ k = Ret tt k1). bstep A1. bstep A2. bstep A3. zb. cbn [orb].
    do 8 wstep. unfold wreg, modify. cbn [view update boot_kst bt_k bt_writes]. rewrite E1, E2, E3. unfold queue_writes.
    rewrite <- !app_assoc. destruct rx; reflexivity.
  - assert (below p1 p3) as G1 by (eapply below_trans; [exact B2|exact B3]).
    split_and!.
    + destruct O3 as [W P E]. split; [cbn; wfm|exact P|exact E].
    + exact F3.
    + exact (below_trans _ _ _ B1 G1).
    + exact (proj2 G1 _ L1).
    + exact (proj2 B3 _ L2).
    + exact L3.
Qed.

(** ** The receive buffers *)

Lemma offer_buffer_ok s buf hdr l hd q1 d q2 q3 :
  mem_ok (k_phys s) -> Pool.free (ph_pool (k_phys s)) = buf :: hdr :: l ->
  alloc_desc (vn_rxq (k_net s)) = (hd, q1) -> alloc_desc q1 = (d, q2) -> offer_chain q2 hd d hdr buf = Some q3 ->
  exists ph, offer_buffer s = Ret tt (set_net (set_rxq q3 (k_net s)) (set_phys ph s)) /\
    mem_ok ph /\ Pool.free (ph_pool ph) = l /\ below (k_phys s) ph /\ live ph buf /\ live ph hdr.
Proof.
  intros Hok Hf E1 E2 E3. set (s1 := set_net (set_rxq q2 (k_net s)) s).
  destruct (k_alloc_below s1 buf (hdr :: l) Hok Hf) as (p1 & A1 & O1 & L1 & N1 & F1 & B1).
  destruct (k_alloc_below (set_phys p1 s1) hdr l O1 F1) as (p2 & A2 & O2 & L2 & N2 & F2 & B2).
  exists p2. split.
  - unfold offer_buffer. rewrite bind_gets, E1, E2.
    rewrite (bind_Ret _ _ _ _ _ (eq_refl : mod_queue true _ s = Ret tt s1)).
    rewrite (bind_Ret _ _ _ _ _ A1), (bind_Ret _ _ _ _ _ A2). zb. by rewrite E3.
  - split_and!; [exact O2|exact F2|exact (below_trans _ _ _ B1 B2)|exact (proj2 B2 _ L1)|exact L2].
Qed.

(** The receive queue after the four chains were offered. *)
Definition offered_queue (used b0 h0 b1 h1 b2 h2 b3 h3 : Z) : virtq :=
  let hd h n := mkDesc h HDR_SIZE VRING_DESC_F_NEXT n in let bd b := mkDesc b PGSIZE VRING_DESC_F_WRITE 0 in
  mkVirtq [hd h0 1; bd b0; hd h1 3; bd b1; hd h2 5; bd b2; hd h3 7; bd b3] 4 [0; 2; 4; 6; 0; 0; 0; 0] 0
    (replicate 8 (0, 0)) QUEUE_RX (replicate 8 0) used.


(** Name the state a step ends in. *)
Ltac next_state A s := match type of A with _ = Ret _ ?t => pose (s := t); fold s in A end.

Lemma offer_buffers_ok s used b0 h0 b1 h1 b2 h2 b3 h3 l :
  mem_ok (k_phys s) -> vn_rxq (k_net s) = fresh_queue QUEUE_RX used ->
  Pool.free (ph_pool (k_phys s)) = [b0; h0; b1; h1; b2; h2; b3; h3] ++ l ->
  exists ph, offer_buffers 4 s =
      Ret tt (set_net (set_rxq (offered_queue used b0 h0 b1 h1 b2 h2 b3 h3) (k_net s)) (set_phys ph s)) /\
    mem_ok ph /\ Pool.free (ph_pool ph) = l /\ below (k_phys s) ph /\
    Forall (live ph) [b0; h0; b1; h1; b2; h2; b3; h3].
Proof.
  intros Hok Hq Hf. cbn [offer_buffers].
  edestruct (offer_buffer_ok s b0 h0) as (p1 & A1 & O1 & F1 & B1 & L1 & L1'); [exact Hok|exact Hf|rewrite Hq; reflexivity|reflexivity..|].
  next_state A1 s1. edestruct (offer_buffer_ok s1 b1 h1) as (p2 & A2 & O2 & F2 & B2 & L2 & L2');
    [exact O1|exact F1|reflexivity..|].
  next_state A2 s2. edestruct (offer_buffer_ok s2 b2 h2) as (p3 & A3 & O3 & F3 & B3 & L3 & L3');
    [exact O2|exact F2|reflexivity..|].
  next_state A3 s3. edestruct (offer_buffer_ok s3 b3 h3) as (p4 & A4 & O4 & F4 & B4 & L4 & L4');
    [exact O3|exact F3|reflexivity..|].
  exists p4. split.
  - rewrite (bind_Ret _ _ _ _ _ A1), (bind_Ret _ _ _ _ _ A2), (bind_Ret _ _ _ _ _ A3), (bind_Ret _ _ _ _ _ A4).
    reflexivity.
  - assert (below p1 p4 /\ below p2 p4 /\ below p3 p4) as ([_ G1] & [_ G2] & [_ G3]).
    { split_and!; [eapply below_trans; [exact B2|eapply below_trans; [exact B3|exact B4]]|
                   eapply below_trans; [exact B3|exact B4]|exact B4]. }
    split_and!; [exact O4|exact F4| |].
    + eapply below_trans; [exact B1|]. eapply below_trans; [exact B2|]. eapply below_trans; [exact B3|exact B4].
    + repeat (apply Forall_cons_2; [first [assumption|by apply G1|by apply G2|by apply G3]|]). apply Forall_nil_2.
Qed.

(** ** The whole initialisation *)

Record good_device (dev : device) : Prop := {
  gd_magic : dv_magic dev = 0x74726976;
  gd_version : dv_version dev = 2;
  gd_id : dv_device_id dev = 1;
  gd_vendor : dv_vendor dev = 0x554d4551;
  gd_features : Z.testbit (dv_status dev) 3 = true;
  gd_max : NUM <= dv_queue_max dev;
  gd_tx : dv_tx_ready dev = 0;
  gd_rx : dv_rx_ready dev = 0
}.

Lemma features_ok_bit v : Z.testbit v 3 = true -> (Z.land v VIRTIO_CONFIG_S_FEATURES_OK =? 0) = false.
Proof.
  intros H. apply Z.eqb_neq. intros E. apply (f_equal (fun z => Z.testbit z 3)) in E.
  rewrite Z.land_spec, H, Z.bits_0 in E. done.
Qed.

(** Everything virtio_net_init writes to the device's registers. *)
Definition init_writes (dev : device) (d1 d2 d3 e1 e2 e3 : Z) : list (Z * Z) :=
  [(VIRTIO_MMIO_STATUS, 0); (VIRTIO_MMIO_STATUS, 1); (VIRTIO_MMIO_STATUS, 3);
   (VIRTIO_MMIO_DRIVER_FEATURES, u32 (Z.land (dv_features dev) VIRTIO_NET_F_MAC)); (VIRTIO_MMIO_STATUS, 11)] ++
  queue_writes false d1 d2 d3 ++ [(VIRTIO_MMIO_QUEUE_READY, 1)] ++
  queue_writes true e1 e2 e3 ++ [(VIRTIO_MMIO_QUEUE_READY, 1); (VIRTIO_MMIO_QUEUE_NOTIFY, QUEUE_RX);
   (VIRTIO_MMIO_STATUS, u32 (Z.lor (dv_status dev) VIRTIO_CONFIG_S_DRIVER_OK))].

(** With a device that identifies itself and fifteen free pages,
    virtio_net_init returns; it leaves the driver's invariant established, the
    device's address as the MAC, and four receive chains offered whose eight
    pages, like the six queue pages and packet_buf, are live.  The register
    writes are exactly those of the virtio specification, in its order: reset,
    ACKNOWLEDGE, DRIVER, features, FEATURES_OK, each queue's addresses before
    its READY, and DRIVER_OK last. *)
Lemma virtio_net_init_ready dev b d1 d2 d3 e1 e2 e3 b0 h0 b1 h1 b2 h2 b3 h3 buf l :
  let k := bt_k b in let rxbufs := [b0; h0; b1; h1; b2; h2; b3; h3] in
  good_device dev -> mem_ok (k_phys k) -> vn_tx_told (k_net k) = [] ->
  Pool.free (ph_pool (k_phys k)) = [d1; d2; d3; e1; e2; e3] ++ rxbufs ++ [buf] ++ l ->
  exists b', virtio_net_init dev b = Ret tt b' /\ net_ok (bt_k b') /\
    vn_mac (k_net (bt_k b')) = dv_mac dev /\
    vn_rxq (k_net (bt_k b')) = offered_queue (q_used_idx (vn_rxq (k_net k))) b0 h0 b1 h1 b2 h2 b3 h3 /\
    vn_packet_buf (k_net (bt_k b')) = buf /\
    Forall (live (k_phys (bt_k b'))) ([d1; d2; d3; e1; e2; e3] ++ rxbufs ++ [buf]) /\
    Pool.free (ph_pool (k_phys (bt_k b'))) = l /\
    bt_writes b' = bt_writes b ++ init_writes dev d1 d2 d3 e1 e2 e3.
Proof.
  intros k rxbufs Hd Hok Ht Hf. destruct Hd as [G1 G2 G3 G4 G5 G6 G7 G8]. unfold NUM in G6.
  set (k0 := set_net (set_mac (dv_mac dev) (k_net k)) (set_held (base.filter (fun x => x <> vnet_lock) (k_held k)) k)).
  set (w0 := bt_writes b ++ take 5 (init_writes dev d1 d2 d3 e1 e2 e3)).
  destruct (init_queue_ok false (mkBoot k0 w0) d1 d2 d3 _ Hok Hf) as (p1 & A1 & O1 & F1 & B1 & L1 & L2 & L3).
  next_state A1 t1.
  set (t1' := mkBoot (bt_k t1) (bt_writes t1 ++ [(VIRTIO_MMIO_QUEUE_READY, 1)])).
  destruct (init_queue_ok true t1' e1 e2 e3 _ O1 F1) as (p2 & A2 & O2 & F2 & B2 & L4 & L5 & L6). next_state A2 t2.
  destruct (offer_buffers_ok (bt_k t2) (q_used_idx (vn_rxq (k_net k))) b0 h0 b1 h1 b2 h2 b3 h3 (buf :: l) O2 eq_refl F2)
    as (p3 & A3 & O3 & F3 & B3 & L7). next_state A3 t3.
  destruct (k_alloc_below t3 buf l O3 F3) as (p4 & A4 & O4 & L8 & N4 & F4 & B4).
  eexists. split.
  { unfold virtio_net_init. wstep. rewrite G1, G2, G3, G4. cbn [Z.eqb Pos.eqb negb orb]. do 6 wstep.
    rewrite (features_ok_bit _ G5). unfold NUM. zb. rewrite G7, G8.
    erewrite bind_Ret by (refine (eq_trans _ A1); f_equal; unfold w0; cbn; rewrite <- !app_assoc; reflexivity).
    wstep. erewrite bind_Ret by exact A2. bstep A3. do 3 wstep. bstep A4. reflexivity. }
  assert (below p1 p4 /\ below p2 p4 /\ below p3 p4) as (C1 & C2 & C3).
  { split_and!; [eapply below_trans; [exact B2|eapply below_trans; [exact B3|exact B4]]|
                 eapply below_trans; [exact B3|exact B4]|exact B4]. }
  cbn [view update boot_kst bt_k bt_writes]. split_and!.
  - destruct O4 as [W P E]. split; try reflexivity; [exact W|exact P|exact E|exact L8|change (0 <= 0 < 2 ^ 16); lia|exact Ht|].
    intros H. change (vnet_lock ∈ base.filter (fun x => x <> vnet_lock) (k_held k)) in H.
    apply list_elem_of_filter in H as [H _]. done.
  - reflexivity.
  - reflexivity.
  - reflexivity.
  - rewrite !Forall_app. split_and!.
    + repeat (apply Forall_cons_2; [first [by apply C1|by apply C2]|]). apply Forall_nil_2.
    + eapply Forall_impl; [exact L7|]. exact (proj2 C3).
    + apply Forall_cons_2; [exact L8|apply Forall_nil_2].
  - exact F4.
  - unfold t2, t1', t1, w0, init_writes. cbn [bt_writes]. rewrite <- !app_assoc. reflexivity.
Qed.

(** A device that is not a virtio network card of this version is refused
    before anything is written to it. *)
Lemma virtio_net_init_refuses dev b :
  dv_magic dev <> 0x74726976 \/ dv_version dev <> 2 \/ dv_device_id dev <> 1 \/ dv_vendor dev <> 0x554d4551 ->
  exists k, virtio_net_init dev b = Panic "could not find virtio net"%string (mkBoot k (bt_writes b)).
Proof.
  intros H. eexists. unfold virtio_net_init. wstep.
  assert (negb (dv_magic dev =? 0x74726976) || negb (dv_version dev =? 2) || negb (dv_device_id dev =? 1)
     || negb (dv_vendor dev =? 0x554d4551) = true) as ->.
  { rewrite !orb_true_iff, !negb_true_iff, !Z.eqb_neq. tauto. }
  reflexivity.
Qed.

(** ** Padding *)

(** apply_padding accepts 1 to 54 bytes and then clears exactly the last
    [num_bytes] of the 64 bytes behind the header. *)
Lemma apply_padding_spec s n :
  0 <= n < 256 ->
  let a := vn_packet_buf (k_net s) + HDR_SIZE + (64 - n) in
  if (1 <=? n) && (n <=? 54)
  then apply_padding n s = Ret 0 (with_mem s (memset (ph_mem (k_phys s)) a 0 n))
  else apply_padding n s = Ret 1 s.
Proof.
  intros Hn a. unfold apply_padding. rewrite bind_gets. unfold HDR_SIZE in *.
  destruct (Z.leb_spec 1 n), (Z.leb_spec n 54); cbn [andb]; zb; cbn [orb]; reflexivity.
Qed.

(** ** A concrete machine *)

Definition qemu_net : device := mkDevice 0x74726976 2 1 0x554d4551 demo_mac 0x20 11 1024 0 0.
Definition boot_pages : list Z := map (fun i => 0x87fff000 - 0x1000 * Z.of_nat i) (seq 0 16).
Definition boot_state : boot :=
  mkBoot (set_phys (mkPhys (fun a => a mod 256) (Pool.mkPool boot_pages (fun _ => 0)) 0x87ff0000) idle_kernel) [].

