(* ===== verification/Locks.v ===== *)
(** * kernel/spinlock.c and kernel/sleeplock.c

    [Spin] is spinlock.c as it runs on several CPUs: each CPU has its nesting
    depth [noff], the saved interrupt state [intena] and its interrupt enable
    bit; a lock has its word and its owner.  The rest of the kernel is modelled
    on one CPU and sees of it only the list of locks that CPU holds;
    [acquire_refines] and [release_refines] show that the list is what the C
    code implements.  Sleep locks are a map from their owner to the fields of
    struct sleeplock. *)
From S2P Require Import Prelude Page.
From Stdlib Require Import ZArith Lia.
From stdpp Require Import strings.
Local Open Scope list_scope.
Local Open Scope Z_scope.
Local Open Scope kernel_scope.

(** The sleep locks: of the cached blocks and of the cached inodes. *)
Inductive slock := S_buf (b : Z) | S_inode (i : Z).
#[export] Instance slock_eq : EqDecision slock.
Proof. solve_decision. Defined.

(** The spin locks of the file system, the files and the processes. *)
Inductive klock :=
  | L_bcache | L_itable | L_log | L_vdisk | L_ftable | L_pipe (p : Z) | L_sleep (s : slock)
  | L_pid | L_wait | L_proc (p : Z) | L_ticks | L_cons | L_uart | L_pr | L_kmem.
#[export] Instance klock_eq : EqDecision klock.
Proof. solve_decision. Defined.

(** ** spinlock.c *)
Module Spin.

(** struct spinlock; [cpu] is the owner, [None] for the null pointer. *)
Record spinlock := mkSpinlock { locked : Z; cpu : option Z }.

(** The parts of struct cpu the locks use, and the hart's sstatus.SIE bit. *)
Record cpu_state := mkCpu { noff : Z; intena : Z; sie : Z }.

Record state := mkState { cpus : Z -> cpu_state; locks : klock -> spinlock }.

Definition set_cpu (c : Z) (k : cpu_state) (s : state) : state :=
  mkState (fun x => if x =? c then k else cpus s x) (locks s).
Definition set_lock (l : klock) (k : spinlock) (s : state) : state :=
  mkState (cpus s) (fun x => if decide (x = l) then k else locks s x).

Definition initlock (l : klock) : M state unit := modify (set_lock l (mkSpinlock 0 None)).

Definition push_off (c : Z) : M state unit :=
  modify (fun s => let k := cpus s c in let old := sie k in
    set_cpu c (mkCpu (noff k + 1) (if noff k =? 0 then old else intena k) 0) s).

Definition pop_off (c : Z) : M state unit := fun s =>
  let k := cpus s c in
  if negb (sie k =? 0) then Panic "pop_off - interruptible" s
  else if noff k <? 1 then Panic "pop_off" s
  else Ret tt (set_cpu c (mkCpu (noff k - 1) (intena k)
         (if (noff k - 1 =? 0) && negb (intena k =? 0) then 1 else sie k)) s).

Definition holding (c : Z) (l : klock) (s : state) : bool :=
  negb (locked (locks s l) =? 0) && bool_decide (cpu (locks s l) = Some c).

(** A lock held by another CPU makes this one spin. *)
Definition acquire (c : Z) (l : klock) : M state unit :=
  push_off c ;;;
  fun s =>
  if holding c l s then Panic "acquire" s
  else if negb (locked (locks s l) =? 0) then Spin s
  else Ret tt (set_lock l (mkSpinlock 1 (Some c)) s).

Definition release (c : Z) (l : klock) : M state unit := fun s =>
  if negb (holding c l s) then Panic "release" s
  else pop_off c (set_lock l (mkSpinlock 0 None) s).

End Spin.

(** ** What one CPU holds *)

(** struct sleeplock without its spin lock, which is [L_sleep]. *)
Record sleeplock := mkSleeplock { sl_locked : Z; sl_pid : Z }.

(** The locks as seen from one process: the spin locks its CPU holds, the
    sleep locks, its pid, and the channels woken so far. *)
Record lkst := mkLk {
  lk_held : list klock; lk_sleep : slock -> sleeplock; lk_pid : Z; lk_wakeups : list Z
}.

Definition set_lk_held (h : list klock) (s : lkst) : lkst := mkLk h (lk_sleep s) (lk_pid s) (lk_wakeups s).
Definition set_lk_sleep (l : slock) (k : sleeplock) (s : lkst) : lkst :=
  mkLk (lk_held s) (fun x => if decide (x = l) then k else lk_sleep s x) (lk_pid s) (lk_wakeups s).

Definition acquire (l : klock) : M lkst unit := fun s =>
  if decide (l ∈ lk_held s) then Panic "acquire" s else Ret tt (set_lk_held (l :: lk_held s) s).
Definition release (l : klock) : M lkst unit := fun s =>
  if decide (l ∈ lk_held s)
  then Ret tt (set_lk_held (base.filter (fun x => x <> l) (lk_held s)) s) else Panic "release" s.

(** Channels are addresses in C; only their distinctness matters. *)
Definition chan_sleep (l : slock) : Z := match l with S_buf b => 2 * b | S_inode i => 2 * i + 1 end.

Definition wakeup (chan : Z) : M lkst unit :=
  modify (fun s => mkLk (lk_held s) (lk_sleep s) (lk_pid s) (lk_wakeups s ++ [chan])).

(** sleep() gives up the lock and the CPU; what happens afterwards is another
    process's. *)
Definition sleep {A} (chan : Z) (l : klock) : M lkst A :=
  release l ;;; fun s => Blocked chan s.

(** ** sleeplock.c *)

Definition initsleeplock (l : slock) : M lkst unit := modify (set_lk_sleep l (mkSleeplock 0 0)).

Definition acquiresleep (l : slock) : M lkst unit :=
  acquire (L_sleep l) ;;;
  k <- gets (fun s => lk_sleep s l) ;;
  if negb (sl_locked k =? 0) then sleep (chan_sleep l) (L_sleep l)
  else
    pid <- gets lk_pid ;;
    modify (set_lk_sleep l (mkSleeplock 1 pid)) ;;;
    release (L_sleep l).

Definition releasesleep (l : slock) : M lkst unit :=
  acquire (L_sleep l) ;;;
  modify (set_lk_sleep l (mkSleeplock 0 0)) ;;;
  wakeup (chan_sleep l) ;;;
  release (L_sleep l).

Definition holdingsleep (l : slock) : M lkst bool :=
  acquire (L_sleep l) ;;;
  r <- gets (fun s => negb (sl_locked (lk_sleep s l) =? 0) && (sl_pid (lk_sleep s l) =? lk_pid s)) ;;
  release (L_sleep l) ;;;
  ret r.

(** ** The list of held locks is what spinlock.c keeps *)

Lemma lk_acquire_ok l s : l ∉ lk_held s -> acquire l s = Ret tt (set_lk_held (l :: lk_held s) s).
Proof. intros. unfold acquire. by rewrite decide_False. Qed.

Lemma klock_filter_out (l : klock) (h : list klock) : l ∉ h -> base.filter (fun x => x <> l) h = h.
Proof.
  intros H. induction h as [|x h IH]; [done|]. apply not_elem_of_cons in H as [Hne H].
  rewrite filter_cons_True by done. by rewrite IH.
Qed.

Lemma lk_release_ok l h s : lk_held s = l :: h -> l ∉ h -> release l s = Ret tt (set_lk_held h s).
Proof.
  intros H Hn. unfold release. rewrite decide_True by (rewrite H; by constructor).
  rewrite H, filter_cons_False, klock_filter_out by naive_solver. done.
Qed.

(** [sees c st h]: the locks CPU [c] holds are [h], its depth is their number,
    interrupts are off while there is one, and no lock word is set without an
    owner. *)
Record sees (c : Z) (st : Spin.state) (h : list klock) : Prop := {
  se_nodup : NoDup h;
  se_held : forall l, l ∈ h <-> Spin.holding c l st = true;
  se_noff : Spin.noff (Spin.cpus st c) = Z.of_nat (length h);
  se_off : h <> [] -> Spin.sie (Spin.cpus st c) = 0
}.

Lemma length_filter_ne (l : klock) (h : list klock) :
  NoDup h -> l ∈ h -> length h = S (length (base.filter (fun x => x <> l) h)).
Proof.
  induction 1 as [|x h Hx Hn IH]; [by intros ?%elem_of_nil|]. intros H.
  destruct (decide (x = l)) as [->|Hne].
  - rewrite filter_cons_False by naive_solver. by rewrite klock_filter_out.
  - apply elem_of_cons in H as [->|H]; [done|]. rewrite filter_cons_True by done. cbn. by rewrite <- IH.
Qed.

(** acquire() panics exactly on a lock this CPU already has; otherwise, on a
    lock nobody holds, it adds the lock to what the CPU sees. *)
Lemma acquire_refines c st h l :
  sees c st h -> (Spin.locked (Spin.locks st l) <> 0 -> l ∈ h) ->
  if decide (l ∈ h) then exists st', Spin.acquire c l st = Panic "acquire" st'
  else exists st', Spin.acquire c l st = Ret tt st' /\ sees c st' (l :: h) /\
    (forall c', c' <> c -> Spin.cpus st' c' = Spin.cpus st c') /\
    (forall l', l' <> l -> Spin.locks st' l' = Spin.locks st l') /\
    (h = [] -> Spin.intena (Spin.cpus st' c) = Spin.sie (Spin.cpus st c)) /\
    (h <> [] -> Spin.intena (Spin.cpus st' c) = Spin.intena (Spin.cpus st c)).
Proof.
  intros [Hn Hh Hoff Hsie] Hfree. unfold Spin.acquire, Spin.push_off, bind, modify.
  set (st1 := Spin.set_cpu c _ st).
  assert (Spin.holding c l st1 = Spin.holding c l st) as E by done.
  case_decide as Hl.
  - eexists. rewrite E, (proj1 (Hh l) Hl). reflexivity.
  - rewrite E, (not_true_is_false _ (fun H => Hl (proj2 (Hh l) H))).
    change (Spin.locks st1 l) with (Spin.locks st l).
    destruct (Z.eqb_spec (Spin.locked (Spin.locks st l)) 0) as [H0|H0]; [|by destruct Hl; apply Hfree].
    cbn [negb]. eexists. split; [reflexivity|].
    assert (Spin.cpus st1 c = Spin.mkCpu (Spin.noff (Spin.cpus st c) + 1)
      (if Spin.noff (Spin.cpus st c) =? 0 then Spin.sie (Spin.cpus st c) else Spin.intena (Spin.cpus st c)) 0) as Ec.
    { unfold st1, Spin.set_cpu. cbn [Spin.cpus]. by rewrite Z.eqb_refl. }
    split_and!.
    + split.
      * by constructor.
      * intros l'. unfold Spin.holding. cbn [Spin.locks Spin.set_lock]. rewrite elem_of_cons.
        destruct (decide (l' = l)) as [->|Hne]; cbn [Spin.locked Spin.cpu].
        -- rewrite bool_decide_true by done. cbn. naive_solver.
        -- change (Spin.locks st1 l') with (Spin.locks st l'). specialize (Hh l'). unfold Spin.holding in Hh. naive_solver.
      * cbn [Spin.cpus Spin.set_lock]. rewrite Ec. cbn [Spin.noff length]. lia.
      * intros _. cbn [Spin.cpus Spin.set_lock]. by rewrite Ec.
    + intros c' Hc. cbn [Spin.cpus Spin.set_lock]. unfold st1, Spin.set_cpu. cbn. by rewrite (proj2 (Z.eqb_neq _ _)).
    + intros l' Hl'. cbn [Spin.locks Spin.set_lock]. by rewrite decide_False.
    + intros ->. cbn [Spin.cpus Spin.set_lock]. rewrite Ec. cbn. by rewrite Hoff.
    + intros Hne. cbn [Spin.cpus Spin.set_lock]. rewrite Ec. cbn. rewrite Hoff.
      destruct h; [done|]. cbn [length]. by rewrite (proj2 (Z.eqb_neq _ _)) by lia.
Qed.

(** release() panics exactly on a lock this CPU does not have; otherwise the
    lock is free, and when it was the last one interrupts are as they were
    when the first was taken. *)
Lemma release_refines c st h l :
  sees c st h ->
  if decide (l ∈ h) then exists st', Spin.release c l st = Ret tt st' /\
    sees c st' (base.filter (fun x => x <> l) h) /\ Spin.locked (Spin.locks st' l) = 0 /\
    (forall c', c' <> c -> Spin.cpus st' c' = Spin.cpus st c') /\
    (forall l', l' <> l -> Spin.locks st' l' = Spin.locks st l') /\
    (base.filter (fun x => x <> l) h = [] ->
       Spin.sie (Spin.cpus st' c) = if Spin.intena (Spin.cpus st c) =? 0 then 0 else 1) /\
    Spin.intena (Spin.cpus st' c) = Spin.intena (Spin.cpus st c)
  else Spin.release c l st = Panic "release" st.
Proof.
  intros [Hn Hh Hoff Hsie]. unfold Spin.release.
  case_decide as Hl; [|by rewrite (not_true_is_false _ (fun H => Hl (proj2 (Hh l) H)))].
  rewrite (proj1 (Hh l) Hl). cbn [negb]. unfold Spin.pop_off. cbn [Spin.cpus Spin.set_lock].
  assert (h <> []) as Hne by (intros ->; by apply elem_of_nil in Hl).
  rewrite (Hsie Hne). cbn [negb Z.eqb]. pose proof (length_filter_ne l h Hn Hl) as Hlen.
  rewrite Hoff. zb. eexists. split; [reflexivity|].
  set (h' := base.filter (fun x => x <> l) h) in *.
  replace (Z.of_nat (length h) - 1) with (Z.of_nat (length h')) by lia.
  unfold Spin.set_cpu. cbn [Spin.cpus Spin.locks]. rewrite Z.eqb_refl.
  cbn [Spin.noff Spin.intena Spin.sie Spin.locked Spin.set_lock Spin.locks].
  split_and!.
  - split; cbn [Spin.cpus]; rewrite ?Z.eqb_refl; cbn [Spin.noff Spin.sie].
    + by apply NoDup_filter.
    + intros l'. unfold h'. rewrite list_elem_of_filter, (Hh l'). unfold Spin.holding.
      cbn [Spin.locks Spin.set_lock]. destruct (decide (l' = l)) as [->|Hne']; cbn; naive_solver.
    + done.
    + intros Hne'. destruct h'; [done|]. cbn [length]. by rewrite (proj2 (Z.eqb_neq _ _)) by lia.
  - by rewrite decide_True.
  - intros c' Hc. by rewrite (proj2 (Z.eqb_neq _ _)).
  - intros l' Hl'. by rewrite decide_False.
  - intros E. rewrite E. cbn. by destruct (Spin.intena (Spin.cpus st c) =? 0).
  - done.
Qed.

(** ** Any interleaving of CPUs *)

Inductive spin_step : Spin.state -> Spin.state -> Prop :=
  | step_acquire c l st st' : Spin.acquire c l st = Ret tt st' -> spin_step st st'
  | step_release c l st st' : Spin.release c l st = Ret tt st' -> spin_step st st'.

(** [sie0] is the interrupt state of each CPU before it took any lock. *)
Definition spin_ok (sie0 : Z -> Z) (st : Spin.state) (c : Z) (h : list klock) : Prop :=
  sees c st h /\ (h = [] -> Spin.sie (Spin.cpus st c) = sie0 c) /\
  (h <> [] -> Spin.intena (Spin.cpus st c) = sie0 c).

Definition boot_locks (sie0 : Z -> Z) : Spin.state :=
  Spin.mkState (fun c => Spin.mkCpu 0 0 (sie0 c)) (fun _ => Spin.mkSpinlock 0 None).

(** A step of one CPU is invisible to another. *)
Lemma sees_other c st st' h l :
  sees c st h -> (forall l', l' <> l -> Spin.locks st' l' = Spin.locks st l') -> Spin.cpus st' c = Spin.cpus st c ->
  Spin.holding c l st = false -> Spin.holding c l st' = false -> sees c st' h.
Proof.
  intros [Hn Hh Hoff Hsie] Hl Hc H1 H2. split; [done| |by rewrite Hc|by rewrite Hc].
  intros l'. destruct (decide (l' = l)) as [->|Hne].
  - by rewrite (Hh l), H1, H2.
  - rewrite (Hh l'). unfold Spin.holding. by rewrite Hl.
Qed.

Lemma spin_ok_other sie0 c st st' h l :
  spin_ok sie0 st c h -> (forall l', l' <> l -> Spin.locks st' l' = Spin.locks st l') ->
  Spin.cpus st' c = Spin.cpus st c -> Spin.holding c l st = false -> Spin.holding c l st' = false ->
  spin_ok sie0 st' c h.
Proof.
  intros (H1 & H2 & H3) Hl Hc E1 E2. split; [by eapply sees_other|]. by rewrite Hc.
Qed.

Lemma holding_one c c' l st : Spin.holding c l st = true -> Spin.holding c' l st = true -> c = c'.
Proof.
  unfold Spin.holding. rewrite !andb_true_iff, !bool_decide_eq_true. intros [_ E1] [_ E2].
  rewrite E1 in E2. congruence.
Qed.

Lemma acquire_inv c l st st' :
  Spin.acquire c l st = Ret tt st' -> Spin.locked (Spin.locks st l) = 0 /\ Spin.holding c l st' = true.
Proof.
  unfold Spin.acquire, Spin.push_off, bind, modify. set (st1 := Spin.set_cpu c _ st).
  destruct (Spin.holding c l st1); [done|]. change (Spin.locks st1 l) with (Spin.locks st l).
  destruct (Z.eqb_spec (Spin.locked (Spin.locks st l)) 0); [|done]. intros [= <-]. split; [done|].
  unfold Spin.holding. cbn [Spin.locks Spin.set_lock]. rewrite decide_True by done. cbn.
  by rewrite bool_decide_true.
Qed.

Lemma spin_ok_acquire sie0 c l st st' c' :
  Spin.acquire c l st = Ret tt st' -> (forall c, exists h, spin_ok sie0 st c h) -> exists h, spin_ok sie0 st' c' h.
Proof.
  intros E IH. destruct (acquire_inv _ _ _ _ E) as [E0 Eh]. destruct (IH c) as (h & Hs & Hi1 & Hi2).
  pose proof (acquire_refines c st h l Hs ltac:(done)) as Hr. case_decide.
  { destruct Hr as [? Hr]. congruence. }
  destruct Hr as (st1 & Hr & Hs' & Hc & Hl & Ha & Hb). rewrite E in Hr. injection Hr as <-.
  destruct (decide (c' = c)) as [->|Hne].
  - exists (l :: h). split; [done|]. split; [done|]. intros _. destruct (decide (h = [])) as [Hn|Hn].
    + rewrite Ha by done. by apply Hi1.
    + rewrite Hb by done. by apply Hi2.
  - destruct (IH c') as (h' & Hs2). exists h'. eapply spin_ok_other; [done|done|by apply Hc| |].
    + unfold Spin.holding. by rewrite E0.
    + apply not_true_is_false. intros Ht. by apply Hne, (holding_one _ _ l st').
Qed.

Lemma spin_ok_release sie0 c l st st' c' :
  sie0 c = 0 \/ sie0 c = 1 ->
  Spin.release c l st = Ret tt st' -> (forall c, exists h, spin_ok sie0 st c h) -> exists h, spin_ok sie0 st' c' h.
Proof.
  intros H01 E IH. destruct (IH c) as (h & Hs & Hi1 & Hi2). pose proof (release_refines c st h l Hs) as Hr.
  case_decide as Hlh; [|congruence]. destruct Hr as (st1 & Hr & Hs' & Hz & Hc & Hl & Ha & Hb).
  rewrite E in Hr. injection Hr as <-. destruct (decide (c' = c)) as [->|Hne].
  - assert (h <> []) as Hn by (intros ->; by apply elem_of_nil in Hlh).
    eexists. split; [exact Hs'|]. split.
    + intros Hn'. rewrite (Ha Hn'), (Hi2 Hn). destruct H01 as [-> | ->]; done.
    + intros _. rewrite Hb. by apply Hi2.
  - destruct (IH c') as (h' & Hs2). exists h'. eapply spin_ok_other; [done|done|by apply Hc| |].
    + apply not_true_is_false. intros Ht. apply Hne, (holding_one _ _ l st); [done|].
      by apply (se_held _ _ _ Hs).
    + unfold Spin.holding. by rewrite Hz.
Qed.

Lemma spin_reachable_ok sie0 st :
  (forall c, sie0 c = 0 \/ sie0 c = 1) -> rtc spin_step (boot_locks sie0) st -> forall c, exists h, spin_ok sie0 st c h.
Proof.
  intros H01. apply (rtc_ind_r (fun st => forall c, exists h, spin_ok sie0 st c h)).
  - intros c. exists []. split; [|by split]. split; cbn; [constructor| |done|done].
    intros l. split; [by intros ?%elem_of_nil|done].
  - clear st. intros st st' _ Hstep IH c'. destruct Hstep; [by eapply spin_ok_acquire|by eapply spin_ok_release].
Qed.

(** C14: whatever the order in which the CPUs take and release spin locks, each
    lock has at most one owner, a CPU's nesting depth is the number of locks it
    holds, its interrupts are off while it holds one, and once it holds none
    they are as they were before it took the first. *)
Theorem spinlocks_keep_interrupts sie0 st c :
  (forall c, sie0 c = 0 \/ sie0 c = 1) -> rtc spin_step (boot_locks sie0) st ->
  exists h, NoDup h /\ (forall l, l ∈ h <-> Spin.holding c l st = true) /\
    (forall l c', l ∈ h -> Spin.holding c' l st = true -> c' = c) /\
    Spin.noff (Spin.cpus st c) = Z.of_nat (length h) /\
    Spin.sie (Spin.cpus st c) = if decide (h = []) then sie0 c else 0.
Proof.
  intros H01 Hr. destruct (spin_reachable_ok _ _ H01 Hr c) as (h & [Hn Hh Hoff Hsie] & Hi1 & _).
  exists h. split_and!; try done.
  - intros l c' Hl Hc. apply (holding_one _ _ l st); [done|]. by apply Hh.
  - case_decide; [by apply Hi1|by apply Hsie].
Qed.

Lemma spinlocks_keep_interrupts_witness :
  exists st h, Spin.acquire 0 L_log (boot_locks (fun _ => 1)) = Ret tt st /\
    Spin.noff (Spin.cpus st 0) = Z.of_nat (length h) /\ L_log ∈ h /\ Spin.sie (Spin.cpus st 0) = 0.
Proof.
  set (st := Spin.set_lock L_log (Spin.mkSpinlock 1 (Some 0)) (Spin.set_cpu 0 (Spin.mkCpu 1 1 0) (boot_locks (fun _ => 1)))).
  destruct (spinlocks_keep_interrupts (fun _ => 1) st 0) as (h & _ & H1 & _ & H2 & H3).
  - intros _. right. reflexivity.
  - eapply rtc_l; [|apply rtc_refl]. apply (step_acquire 0 L_log). reflexivity.
  - exists st, h. split; [reflexivity|]. split; [exact H2|]. split; [apply H1; reflexivity|].
    reflexivity.
Defined.

(** ** Sleep locks *)

Lemma acquiresleep_ok l s :
  L_sleep l ∉ lk_held s -> sl_locked (lk_sleep s l) = 0 ->
  acquiresleep l s = Ret tt (set_lk_sleep l (mkSleeplock 1 (lk_pid s)) s).
Proof.
  intros Hl H0. unfold acquiresleep. rewrite (bind_Ret _ _ _ _ _ (lk_acquire_ok _ _ Hl)), bind_gets.
  cbn [lk_sleep set_lk_held]. rewrite H0. cbn [Z.eqb negb]. rewrite bind_gets.
  rewrite (bind_Ret _ _ _ _ _ (eq_refl : modify _ _ = _)).
  rewrite (lk_release_ok (L_sleep l) (lk_held s)) by done. by destruct s.
Qed.

Lemma releasesleep_ok l s :
  L_sleep l ∉ lk_held s ->
  releasesleep l s = Ret tt (mkLk (lk_held s) (lk_sleep (set_lk_sleep l (mkSleeplock 0 0) s)) (lk_pid s)
                               (lk_wakeups s ++ [chan_sleep l])).
Proof.
  intros Hl. unfold releasesleep. rewrite (bind_Ret _ _ _ _ _ (lk_acquire_ok _ _ Hl)).
  rewrite (bind_Ret _ _ _ _ _ (eq_refl : modify _ _ = _)), (bind_Ret _ _ _ _ _ (eq_refl : wakeup _ _ = _)).
  by rewrite (lk_release_ok (L_sleep l) (lk_held s)) by done.
Qed.

Lemma holdingsleep_ok l s :
  L_sleep l ∉ lk_held s ->
  holdingsleep l s = Ret (negb (sl_locked (lk_sleep s l) =? 0) && (sl_pid (lk_sleep s l) =? lk_pid s)) s.
Proof.
  intros Hl. unfold holdingsleep. rewrite (bind_Ret _ _ _ _ _ (lk_acquire_ok _ _ Hl)), bind_gets.
  erewrite bind_Ret by (apply (lk_release_ok (L_sleep l) (lk_held s)); done). by destruct s.
Qed.
