(* ===== verification/Bio.v ===== *)
(** * kernel/bio.c: the buffer cache

    A block is its BSIZE bytes, at offsets 0 to BSIZE-1.  The cache is an array
    of [NBUF] buffers and the circular doubly linked list through their
    prev/next pointers; pointers to buffers are their indices and the list's
    head is index [NBUF].  The disk below the cache is the map of blocks that
    virtio_disk_rw reads and writes (VirtioDisk.v models the driver); the
    sequence of writes is kept, because a crash may happen between any two of
    them.

    [bio_inv s v L P] relates the cache to what its clients see: [v] is the
    current content of every block, [L] the blocks this process has locked and
    [P] the blocks pinned.  The operations' lemmas are stated with it, and the
    log and the file system use only those. *)
From S2P Require Import Prelude Mem StringC Kalloc Page Locks.
From Stdlib Require Import ZArith Lia.
From stdpp Require Import strings sorting.
Local Open Scope list_scope.
Local Open Scope Z_scope.
Local Open Scope kernel_scope.

Definition BSIZE : Z := 1024.
Definition MAXOPBLOCKS : Z := 10.
Definition NBUF : Z := MAXOPBLOCKS * 3.

Definition block : Type := mem.

(** struct buf; its lock is the sleep lock [S_buf], [b_disk] is the driver's. *)
Record buf := mkBuf { b_valid : Z; b_dev : Z; b_blockno : Z; b_refcnt : Z; b_data : block }.

Definition HEAD : Z := NBUF.
Record bcache := mkBcache { bc_buf : Z -> buf; bc_next : Z -> Z; bc_prev : Z -> Z }.
Record bst := mkBst { bs_cache : bcache; bs_disk : Z -> block; bs_writes : list (Z * block); bs_lk : lkst }.

Definition upd {A} (f : Z -> A) (i : Z) (x : A) : Z -> A := fun j => if j =? i then x else f j.

Definition set_cache (c : bcache) (s : bst) : bst := mkBst c (bs_disk s) (bs_writes s) (bs_lk s).
Definition set_lk (k : lkst) (s : bst) : bst := mkBst (bs_cache s) (bs_disk s) (bs_writes s) k.
#[export] Instance bst_lk : Lens bst lkst.
Proof. refine {| view := bs_lk; update := set_lk |}; [done|by intros []|done]. Defined.

Definition getbuf (b : Z) : M bst buf := gets (fun s => bc_buf (bs_cache s) b).
Definition modbuf (b : Z) (f : buf -> buf) : M bst unit :=
  modify (fun s => let c := bs_cache s in
    set_cache (mkBcache (upd (bc_buf c) b (f (bc_buf c b))) (bc_next c) (bc_prev c)) s).
Definition modlinks (f : bcache -> bcache) : M bst unit := modify (fun s => set_cache (f (bs_cache s)) s).

Definition set_valid (v : Z) (b : buf) : buf := mkBuf v (b_dev b) (b_blockno b) (b_refcnt b) (b_data b).
Definition set_refcnt (r : Z) (b : buf) : buf := mkBuf (b_valid b) (b_dev b) (b_blockno b) r (b_data b).
Definition set_data (d : block) (b : buf) : buf := mkBuf (b_valid b) (b_dev b) (b_blockno b) (b_refcnt b) d.

(** virtio_disk_rw(b, write) as its callers see it: the block is transferred
    before it returns. *)
Definition disk_rw (b : Z) (write : bool) : M bst unit :=
  k <- getbuf b ;;
  if write then
    modify (fun s => mkBst (bs_cache s) (upd (bs_disk s) (b_blockno k) (b_data k))
                           (bs_writes s ++ [(b_blockno k, b_data k)]) (bs_lk s))
  else d <- gets (fun s => bs_disk s (b_blockno k)) ;; modbuf b (set_data d).

(** Taking [b] out of the list, and putting it first. *)
Definition unlink (b : Z) (c : bcache) : bcache :=
  let c := mkBcache (bc_buf c) (bc_next c) (upd (bc_prev c) (bc_next c b) (bc_prev c b)) in
  mkBcache (bc_buf c) (upd (bc_next c) (bc_prev c b) (bc_next c b)) (bc_prev c).
Definition push_front (b : Z) (c : bcache) : bcache :=
  let c := mkBcache (bc_buf c) (upd (bc_next c) b (bc_next c HEAD)) (upd (bc_prev c) b HEAD) in
  let c := mkBcache (bc_buf c) (bc_next c) (upd (bc_prev c) (bc_next c HEAD) b) in
  mkBcache (bc_buf c) (upd (bc_next c) HEAD b) (bc_prev c).

Fixpoint binit_loop (n : nat) (b : Z) : M bst unit :=
  match n with
  | O => ret tt
  | S n => modlinks (push_front b) ;;; lift (initsleeplock (S_buf b)) ;;; binit_loop n (b + 1)
  end.

Definition binit : M bst unit :=
  modlinks (fun c => mkBcache (bc_buf c) (upd (bc_next c) HEAD HEAD) (upd (bc_prev c) HEAD HEAD)) ;;;
  binit_loop (Z.to_nat NBUF) 0.

(** Following one direction of the list from [b] to the first buffer that
    passes the test; [None] would be a list that does not lead to the head. *)
Fixpoint scan (step : Z -> Z) (test : Z -> bool) (fuel : nat) (b : Z) : option (option Z) :=
  match fuel with
  | O => None
  | S fuel => if b =? HEAD then Some None else if test b then Some (Some b) else scan step test fuel (step b)
  end.

Definition bget (dev blockno : Z) : M bst Z :=
  lift (acquire L_bcache) ;;;
  c <- gets bs_cache ;;
  match scan (bc_next c) (fun b => (b_dev (bc_buf c b) =? dev) && (b_blockno (bc_buf c b) =? blockno))
             (Z.to_nat (NBUF + 1)) (bc_next c HEAD) with
  | None => fun s => Spin s
  | Some (Some b) =>
      modbuf b (fun k => set_refcnt (u32 (b_refcnt k + 1)) k) ;;;
      lift (release L_bcache) ;;;
      lift (acquiresleep (S_buf b)) ;;;
      ret b
  | Some None =>
      match scan (bc_prev c) (fun b => b_refcnt (bc_buf c b) =? 0) (Z.to_nat (NBUF + 1)) (bc_prev c HEAD) with
      | None => fun s => Spin s
      | Some (Some b) =>
          modbuf b (fun k => mkBuf 0 dev blockno 1 (b_data k)) ;;;
          lift (release L_bcache) ;;;
          lift (acquiresleep (S_buf b)) ;;;
          ret b
      | Some None => panic "bget: no buffers"
      end
  end.

Definition bread (dev blockno : Z) : M bst Z :=
  b <- bget dev blockno ;;
  k <- getbuf b ;;
  (if b_valid k =? 0 then disk_rw b false ;;; modbuf b (set_valid 1) else ret tt) ;;;
  ret b.

Definition bwrite (b : Z) : M bst unit :=
  h <- lift (holdingsleep (S_buf b)) ;;
  if negb h then panic "bwrite" else disk_rw b true.

Definition brelse (b : Z) : M bst unit :=
  h <- lift (holdingsleep (S_buf b)) ;;
  if negb h then panic "brelse"
  else
    lift (releasesleep (S_buf b)) ;;;
    lift (acquire L_bcache) ;;;
    modbuf b (fun k => set_refcnt (u32 (b_refcnt k - 1)) k) ;;;
    k <- getbuf b ;;
    when (b_refcnt k =? 0) (modlinks (fun c => push_front b (unlink b c))) ;;;
    lift (release L_bcache).

Definition bpin (b : Z) : M bst unit :=
  lift (acquire L_bcache) ;;;
  modbuf b (fun k => set_refcnt (u32 (b_refcnt k + 1)) k) ;;;
  lift (release L_bcache).

Definition bunpin (b : Z) : M bst unit :=
  lift (acquire L_bcache) ;;;
  modbuf b (fun k => set_refcnt (u32 (b_refcnt k - 1)) k) ;;;
  lift (release L_bcache).

(** ** The linked list *)

Lemma upd_eq {A} (f : Z -> A) i x : upd f i x i = x.
Proof. unfold upd. by rewrite Z.eqb_refl. Qed.
Lemma upd_ne {A} (f : Z -> A) i x j : j <> i -> upd f i x j = f j.
Proof. intros. unfold upd. by rewrite (proj2 (Z.eqb_neq _ _)). Qed.

(** [path f x l y]: following [f] from [x] visits [l] and arrives at [y]. *)
Fixpoint path (f : Z -> Z) (x : Z) (l : list Z) (y : Z) : Prop :=
  match l with [] => f x = y | a :: l => f x = a /\ path f a l y end.

Lemma path_app f x l1 a l2 y : path f x (l1 ++ a :: l2) y <-> path f x l1 a /\ path f a l2 y.
Proof. revert x. induction l1 as [|b l1 IH]; intros x; simpl; [done|]. rewrite IH. tauto. Qed.

Lemma path_upd f x l y i v : i <> x -> i ∉ l -> path f x l y -> path (upd f i v) x l y.
Proof.
  revert x. induction l as [|a l IH]; intros x Hx Hl; simpl.
  - intros <-. by apply upd_ne.
  - apply not_elem_of_cons in Hl as [Ha Hl]. intros [<- H]. rewrite upd_ne by done. auto.
Qed.

(** Changing where the last element points. *)
Lemma path_upd_last f x l a y v :
  a <> x -> a ∉ l -> path f x (l ++ [a]) y -> path (upd f a v) x (l ++ [a]) v.
Proof.
  intros Hx Hl. rewrite !path_app. intros [H _]. split; [by apply path_upd|]. apply upd_eq.
Qed.

Record linked (c : bcache) (l : list Z) : Prop := {
  ld_next : path (bc_next c) HEAD l HEAD;
  ld_prev : path (bc_prev c) HEAD (reverse l) HEAD;
  ld_nodup : NoDup (HEAD :: l)
}.

Lemma path_first f x l y : path f x l y -> f x = default y (head l).
Proof. destruct l; simpl; naive_solver. Qed.


Lemma push_front_linked c l b :
  linked c l -> b ∉ HEAD :: l -> linked (push_front b c) (b :: l).
Proof.
  intros [Hn Hp Hd] Hb. apply not_elem_of_cons in Hb as [HbH Hbl].
  pose proof (path_first _ _ _ _ Hn) as E. unfold push_front. cbn [bc_next bc_prev].
  rewrite (upd_ne _ b _ HEAD) by done.
  apply NoDup_cons in Hd as Hd'. destruct Hd' as [HHl Hdl]. split; cbn [bc_next bc_prev].
  - simpl. rewrite upd_eq. split; [done|]. destruct l as [|a l]; simpl.
    + simpl in Hn. by rewrite upd_ne, upd_eq by done.
    + simpl in Hn. destruct Hn as [Ha Hn]. apply not_elem_of_cons in HHl as [HHa HHl].
      apply not_elem_of_cons in Hbl as [Hba Hbl].
      rewrite upd_ne, upd_eq by done. split; [done|]. apply path_upd; [done|done|]. by apply path_upd.
  - rewrite reverse_cons, path_app. destruct l as [|a l]; simpl in E; rewrite E.
    + split; simpl; [by rewrite upd_eq|]. by rewrite upd_ne, upd_eq by done.
    + rewrite reverse_cons in Hp |- *. apply not_elem_of_cons in HHl as [HHa HHl].
      apply not_elem_of_cons in Hbl as [Hba Hbl]. apply NoDup_cons in Hdl as [Hal Hdl].
      split.
      * eapply path_upd_last; [done|by rewrite elem_of_reverse|]. apply path_upd; [done| |exact Hp].
        rewrite elem_of_app, elem_of_reverse, list_elem_of_singleton. naive_solver.
      * simpl. by rewrite upd_ne, upd_eq by done.
  - apply NoDup_cons. split; [apply not_elem_of_cons; done|]. by apply NoDup_cons.
Qed.

(** Making the predecessor of [b] point past it takes [b] out of the path. *)
Lemma path_skip f x l1 b l2 y :
  NoDup (x :: l1 ++ b :: l2) -> path f x (l1 ++ b :: l2) y ->
  path (upd f (default x (last l1)) (f b)) x (l1 ++ l2) y.
Proof.
  revert x. induction l1 as [|a l1 IH]; intros x Hd H.
  - simpl in H |- *. destruct H as [_ H]. apply NoDup_cons in Hd as [Hx _]. cbn [app] in Hx.
    apply not_elem_of_cons in Hx as [_ Hx].
    destruct l2 as [|c l2]; simpl in *; rewrite upd_eq; [done|]. destruct H as [-> H].
    apply not_elem_of_cons in Hx as [Hxc Hx]. split; [done|]. by apply path_upd.
  - cbn [app path] in H |- *. destruct H as [Ha H]. cbn [app] in Hd. apply NoDup_cons in Hd as [Hx Hd].
    specialize (IH a Hd H).
    assert (default x (last (a :: l1)) = default a (last l1)) as -> by (rewrite last_cons; by destruct (last l1)).
    split; [|done]. rewrite upd_ne; [done|]. intros ->. apply Hx.
    destruct (last l1) as [z|] eqn:E; cbn; [|by constructor]. apply last_Some_elem_of in E.
    constructor. apply elem_of_app. by left.
Qed.

Lemma unlink_linked c l1 b l2 :
  linked c (l1 ++ b :: l2) -> linked (unlink b c) (l1 ++ l2).
Proof.
  intros [Hn Hp Hd]. assert (reverse (l1 ++ b :: l2) = reverse l2 ++ b :: reverse l1) as Er
    by (by rewrite reverse_app, reverse_cons, <- app_assoc).
  rewrite Er in Hp. assert (NoDup (HEAD :: reverse l2 ++ b :: reverse l1)) as Hd'.
  { rewrite <- Er. by rewrite reverse_Permutation. }
  pose proof Hn as Hn'. rewrite path_app in Hn'. destruct Hn' as [_ Hn2].
  pose proof Hp as Hp'. rewrite path_app in Hp'. destruct Hp' as [_ Hp1].
  apply path_first in Hn2. apply path_first in Hp1. rewrite head_reverse in Hp1.
  pose proof Hd as Hd3. apply NoDup_cons in Hd3 as [HH Hd3]. apply NoDup_app in Hd3 as (_ & _ & Hd3).
  apply NoDup_cons in Hd3 as [Hb2 _].
  assert (bc_next c b <> b) as Hnb.
  { rewrite Hn2. destruct l2 as [|y l2]; cbn; intros E; subst b; [apply HH|apply Hb2; by constructor].
    apply elem_of_app. right. by constructor. }
  unfold unlink. cbn [bc_next bc_prev]. rewrite (upd_ne _ _ _ b) by done. split; cbn [bc_next bc_prev].
  - rewrite Hp1. by apply path_skip.
  - rewrite Hn2, reverse_app, <- last_reverse. by apply path_skip.
  - eapply sublist_NoDup; [exact Hd|]. apply sublist_skip, sublist_app; [done|]. by apply sublist_cons.
Qed.

(** ** Scans *)

Lemma scan_path f test fuel x l :
  path f x l HEAD -> HEAD ∉ l -> (length l < fuel)%nat -> scan f test fuel (f x) = Some (List.find test l).
Proof.
  revert x fuel. induction l as [|a l IH]; intros x fuel Hp Hh Hf; (destruct fuel; [simpl in Hf; lia|]); simpl in *.
  - by rewrite Hp, Z.eqb_refl.
  - destruct Hp as [-> Hp]. apply not_elem_of_cons in Hh as [Ha Hh].
    rewrite (proj2 (Z.eqb_neq _ _)) by done. destruct (test a); [done|]. apply IH; [done..|lia].
Qed.

Lemma find_elem {A} (test : A -> bool) l x : List.find test l = Some x -> x ∈ l /\ test x = true.
Proof. intros H. apply find_some in H as [H1 H2]. split; [by apply list_elem_of_In|done]. Qed.

(** ** The invariant *)

Definition ROOTDEV : Z := 1.

(** [isbuf s b n]: buffer [b] is the cached copy of block [n]. *)
Definition isbuf (s : bst) (b n : Z) : Prop :=
  0 <= b < NBUF /\ b_dev (bc_buf (bs_cache s) b) = ROOTDEV /\ b_blockno (bc_buf (bs_cache s) b) = n.

(** How often block [n] is referenced: once locked, once pinned. *)
Definition refs (L P : gset Z) (n : Z) : Z := (if decide (n ∈ L) then 1 else 0) + (if decide (n ∈ P) then 1 else 0).

Lemma in_add (n : Z) (X : gset Z) : n ∈ {[n]} ∪ X.
Proof. set_solver. Qed.
Lemma in_add_ne (n m : Z) (X : gset Z) : m <> n -> m ∈ {[n]} ∪ X <-> m ∈ X.
Proof. set_solver. Qed.
Lemma in_del (n : Z) (X : gset Z) : n ∉ X ∖ {[n]}.
Proof. set_solver. Qed.
Lemma in_del_ne (n m : Z) (X : gset Z) : m <> n -> m ∈ X ∖ {[n]} <-> m ∈ X.
Proof. set_solver. Qed.

Lemma refs_lock L P n : n ∉ L -> refs ({[n]} ∪ L) P n = refs L P n + 1.
Proof. intros H. unfold refs. rewrite (decide_True (P := n ∈ {[n]} ∪ L)), (decide_False (P := n ∈ L)) by (done || apply in_add). lia. Qed.
Lemma refs_unlock L P n : n ∈ L -> refs (L ∖ {[n]}) P n = refs L P n - 1.
Proof. intros H. unfold refs. rewrite (decide_True (P := n ∈ L)), (decide_False (P := n ∈ L ∖ {[n]})) by (done || apply in_del). lia. Qed.
Lemma refs_pin L P n : n ∉ P -> refs L ({[n]} ∪ P) n = refs L P n + 1.
Proof. intros H. unfold refs. rewrite (decide_True (P := n ∈ {[n]} ∪ P)), (decide_False (P := n ∈ P)) by (done || apply in_add). lia. Qed.
Lemma refs_unpin L P n : n ∈ P -> refs L (P ∖ {[n]}) n = refs L P n - 1.
Proof. intros H. unfold refs. rewrite (decide_True (P := n ∈ P)), (decide_False (P := n ∈ P ∖ {[n]})) by (done || apply in_del). lia. Qed.
Lemma refs_range L P n : 0 <= refs L P n <= 2.
Proof. unfold refs. repeat case_decide; lia. Qed.
Lemma refs_zero L P n : refs L P n = 0 <-> n ∉ L ∪ P.
Proof. unfold refs. rewrite not_elem_of_union. repeat case_decide; intuition lia. Qed.

(** What holds of one buffer and its lock. *)
Definition buf_ok (v : Z -> block) (L P : gset Z) (pid : Z) (k : buf) (sl : sleeplock) : Prop :=
  if decide (b_dev k = ROOTDEV) then
    b_refcnt k = refs L P (b_blockno k) /\ (b_valid k <> 0 -> b_data k = v (b_blockno k)) /\
    (if decide (b_blockno k ∈ L) then sl = mkSleeplock 1 pid else sl_locked sl = 0)
  else b_refcnt k = 0 /\ sl_locked sl = 0.

Record bio_inv (s : bst) (v : Z -> block) (L P : gset Z) : Prop := {
  bi_held : lk_held (bs_lk s) = [];
  bi_list : exists l, linked (bs_cache s) l /\ l ≡ₚ seqZ 0 NBUF;
  bi_uniq : forall b b' n, isbuf s b n -> isbuf s b' n -> b = b';
  bi_buf : forall b, 0 <= b < NBUF ->
    buf_ok v L P (lk_pid (bs_lk s)) (bc_buf (bs_cache s) b) (lk_sleep (bs_lk s) (S_buf b));
  bi_cached : forall n, n ∈ L ∪ P -> exists b, isbuf s b n /\ b_valid (bc_buf (bs_cache s) b) <> 0;
  bi_disk : forall n, n ∉ L ∪ P -> bs_disk s n = v n
}.

Lemma buf_ok_root v L P pid k sl :
  b_dev k = ROOTDEV -> buf_ok v L P pid k sl <->
  b_refcnt k = refs L P (b_blockno k) /\ (b_valid k <> 0 -> b_data k = v (b_blockno k)) /\
  (if decide (b_blockno k ∈ L) then sl = mkSleeplock 1 pid else sl_locked sl = 0).
Proof. intros H. unfold buf_ok. by rewrite decide_True. Qed.

Lemma buf_ok_change v v' L L' P P' pid k sl :
  (b_dev k = ROOTDEV -> v' (b_blockno k) = v (b_blockno k) /\ (b_blockno k ∈ L' <-> b_blockno k ∈ L) /\
     (b_blockno k ∈ P' <-> b_blockno k ∈ P)) ->
  buf_ok v L P pid k sl -> buf_ok v' L' P' pid k sl.
Proof.
  intros H. unfold buf_ok, refs. case_decide as Hd; [|done]. destruct (H Hd) as (-> & HL & HP).
  rewrite (decide_ext _ _ _ _ HL), (decide_ext _ _ _ _ HP).
  by rewrite (decide_ext (A := Prop) _ _ _ _ HL).
Qed.

(** One buffer changes, into the cached copy of block [n]; nothing changes for
    the other blocks. *)
Lemma bio_step s s' v v' L L' P P' b n :
  bio_inv s v L P -> isbuf s' b n -> lk_held (bs_lk s') = [] -> lk_pid (bs_lk s') = lk_pid (bs_lk s) ->
  (exists l, linked (bs_cache s') l /\ l ≡ₚ seqZ 0 NBUF) ->
  (forall j, 0 <= j < NBUF -> j <> b -> bc_buf (bs_cache s') j = bc_buf (bs_cache s) j /\
     lk_sleep (bs_lk s') (S_buf j) = lk_sleep (bs_lk s) (S_buf j)) ->
  b_valid (bc_buf (bs_cache s') b) <> 0 ->
  buf_ok v' L' P' (lk_pid (bs_lk s)) (bc_buf (bs_cache s') b) (lk_sleep (bs_lk s') (S_buf b)) ->
  (forall b', isbuf s b' n -> b' = b) ->
  (forall m, isbuf s b m -> m <> n -> m ∉ L ∪ P) ->
  (forall m, m <> n -> v' m = v m /\ (m ∈ L' <-> m ∈ L) /\ (m ∈ P' <-> m ∈ P) /\ bs_disk s' m = bs_disk s m) ->
  (n ∉ L' ∪ P' -> bs_disk s' n = v' n) ->
  bio_inv s' v' L' P'.
Proof.
  intros Hi Hb Hheld Hpid Hl Hj Hval Hok Hn Hold Hm Hd.
  assert (forall j m, j <> b -> isbuf s' j m <-> isbuf s j m) as Hiso.
  { intros j m Hne. unfold isbuf. split; intros (H1 & H2); destruct (Hj j H1 Hne) as [E _]; rewrite E in *; done. }
  split; try done.
  - intros b1 b2 m H1 H2. destruct (decide (b1 = b)) as [->|N1], (decide (b2 = b)) as [->|N2]; [done| | |].
    + assert (m = n) as -> by (unfold isbuf in *; naive_solver). symmetry. apply Hn. by apply Hiso.
    + assert (m = n) as -> by (unfold isbuf in *; naive_solver). apply Hn. by apply Hiso.
    + eapply (bi_uniq _ _ _ _ Hi); by apply Hiso.
  - intros j Hjr. rewrite Hpid. destruct (decide (j = b)) as [->|Hne]; [done|].
    destruct (Hj j Hjr Hne) as [-> ->]. eapply buf_ok_change; [|by apply (bi_buf _ _ _ _ Hi)].
    intros Hdev. assert (b_blockno (bc_buf (bs_cache s) j) <> n) as Hne' by (intros E; by apply Hne, Hn).
    destruct (Hm _ Hne') as (? & ? & ? & _). done.
  - intros m Hm'. destruct (decide (m = n)) as [->|Hne]; [by exists b|].
    destruct (Hm m Hne) as (_ & HL & HP & _).
    destruct (bi_cached _ _ _ _ Hi m) as (b0 & H0 & Hv); [set_solver|].
    assert (b0 <> b) as Hne0 by (intros ->; apply (Hold m H0 Hne); set_solver).
    exists b0. split; [by apply Hiso|]. destruct (Hj b0 (proj1 H0) Hne0) as [-> _]. done.
  - intros m Hm'. destruct (decide (m = n)) as [->|Hne]; [by apply Hd|].
    destruct (Hm m Hne) as (-> & HL & HP & ->). apply (bi_disk _ _ _ _ Hi). set_solver.
Qed.

(** ** bread *)

Lemma blift {A} (c : M lkst A) s a k : c (bs_lk s) = Ret a k -> lift c s = Ret a (set_lk k s).
Proof. intros H. unfold lift. cbn. by rewrite H. Qed.

(** [puts s s' b k lk]: in [s'] buffer [b] is [k] and the locks are [lk]; the
    rest is as in [s]. *)
Record puts (s s' : bst) (b : Z) (k : buf) (lk : lkst) : Prop := {
  pu_buf : bc_buf (bs_cache s') b = k;
  pu_other : forall j, j <> b -> bc_buf (bs_cache s') j = bc_buf (bs_cache s) j;
  pu_next : bc_next (bs_cache s') = bc_next (bs_cache s);
  pu_prev : bc_prev (bs_cache s') = bc_prev (bs_cache s);
  pu_disk : bs_disk s' = bs_disk s;
  pu_writes : bs_writes s' = bs_writes s;
  pu_lk : bs_lk s' = lk
}.

Lemma puts_list s s' b k lk l : puts s s' b k lk -> linked (bs_cache s) l -> linked (bs_cache s') l.
Proof. intros H []. split; by rewrite ?(pu_next _ _ _ _ _ H), ?(pu_prev _ _ _ _ _ H). Qed.

Lemma puts_trans s s1 s2 b k1 k2 lk1 lk2 : puts s s1 b k1 lk1 -> puts s1 s2 b k2 lk2 -> puts s s2 b k2 lk2.
Proof. intros [] []. split; try congruence. intros j Hj. rewrite <- pu_other0 by done. by apply pu_other1. Qed.

Lemma modbuf_puts b f s : exists s', modbuf b f s = Ret tt s' /\ puts s s' b (f (bc_buf (bs_cache s) b)) (bs_lk s).
Proof. eexists. split; [reflexivity|]. split; try done; [apply upd_eq|]. intros j Hj. by apply upd_ne. Qed.

Definition lock_of (b pid : Z) (s : lkst) : lkst := set_lk_sleep (S_buf b) (mkSleeplock 1 pid) s.

Lemma bget_tail s b f :
  lk_held (bs_lk s) = [] -> sl_locked (lk_sleep (bs_lk s) (S_buf b)) = 0 ->
  exists s', (modbuf b f ;;; lift (release L_bcache) ;;; lift (acquiresleep (S_buf b)) ;;; ret b)
      (set_lk (set_lk_held [L_bcache] (bs_lk s)) s) = Ret b s' /\
    puts s s' b (f (bc_buf (bs_cache s) b)) (lock_of b (lk_pid (bs_lk s)) (bs_lk s)).
Proof.
  intros Hh Hl. eexists. split.
  - rewrite (bind_Ret _ _ _ _ _ (eq_refl : modbuf _ _ _ = _)).
    erewrite bind_Ret by (apply blift, (lk_release_ok L_bcache []); [done|apply not_elem_of_nil]).
    erewrite bind_Ret by (apply blift, acquiresleep_ok; [apply not_elem_of_nil|exact Hl]). reflexivity.
  - split; try done; [apply upd_eq|intros j Hj; by apply upd_ne|]. destruct s as [c d w []]. cbn in Hh |- *. by subst.
Qed.

Lemma bio_scan s v L P test :
  bio_inv s v L P ->
  (exists l, l ≡ₚ seqZ 0 NBUF /\ scan (bc_next (bs_cache s)) test (Z.to_nat (NBUF + 1)) (bc_next (bs_cache s) HEAD)
     = Some (List.find test l)) /\
  (exists l, l ≡ₚ seqZ 0 NBUF /\ scan (bc_prev (bs_cache s)) test (Z.to_nat (NBUF + 1)) (bc_prev (bs_cache s) HEAD)
     = Some (List.find test l)).
Proof.
  intros Hi. destruct (bi_list _ _ _ _ Hi) as (l & [Hn Hp Hd] & Hl). apply NoDup_cons in Hd as [HH _].
  assert (length l = 30%nat) as Hlen by (by rewrite Hl).
  split; [exists l|exists (reverse l)]; (split; [by rewrite ?reverse_Permutation|]).
  - apply scan_path; [done|done|]. rewrite Hlen. change (Z.to_nat (NBUF + 1)) with 31%nat. lia.
  - apply scan_path; [done|by rewrite elem_of_reverse|]. rewrite length_reverse, Hlen. change (Z.to_nat (NBUF + 1)) with 31%nat. lia.
Qed.

Lemma find_range (test : Z -> bool) l b :
  l ≡ₚ seqZ 0 NBUF -> List.find test l = Some b -> 0 <= b < NBUF /\ test b = true.
Proof. intros Hl [H1 H2]%find_elem. rewrite Hl, elem_of_seqZ in H1. split; [lia|done]. Qed.

Lemma find_none (test : Z -> bool) l :
  l ≡ₚ seqZ 0 NBUF -> List.find test l = None -> forall b, 0 <= b < NBUF -> test b = false.
Proof.
  intros Hl H b Hb. apply (find_none test l H). apply list_elem_of_In. rewrite Hl, elem_of_seqZ. lia.
Qed.

(** When every buffer is referenced there are as many referenced blocks. *)
Lemma all_referenced s v L P :
  bio_inv s v L P -> (forall b, 0 <= b < NBUF -> b_refcnt (bc_buf (bs_cache s) b) <> 0) ->
  NBUF <= Z.of_nat (size (L ∪ P)).
Proof.
  intros Hi Hr. set (f := fun b => b_blockno (bc_buf (bs_cache s) b)).
  assert (forall b, 0 <= b < NBUF -> isbuf s b (f b) /\ f b ∈ L ∪ P) as Hb.
  { intros b Hb. pose proof (bi_buf _ _ _ _ Hi b Hb) as Hk. unfold buf_ok in Hk.
    case_decide as Hd; [|by destruct (Hr b Hb); apply Hk]. split; [done|].
    destruct Hk as (Hk & _). specialize (Hr b Hb). rewrite Hk in Hr. unfold refs in Hr. fold (f b) in Hr.
    destruct (decide (f b ∈ L)), (decide (f b ∈ P)); set_solver. }
  assert (NoDup (f <$> seqZ 0 NBUF)) as Hd.
  { apply NoDup_fmap_2_strong; [|apply NoDup_seqZ]. intros x y Hx Hy E. apply elem_of_seqZ in Hx, Hy.
    eapply (bi_uniq _ _ _ _ Hi x y (f x)); [by apply Hb; lia|]. rewrite E. by apply Hb; lia. }
  assert (list_to_set (f <$> seqZ 0 NBUF) ⊆ L ∪ P) as Hs.
  { intros x Hx. apply elem_of_list_to_set, list_elem_of_fmap in Hx as (y & -> & Hy). apply elem_of_seqZ in Hy.
    apply Hb. lia. }
  apply subseteq_size in Hs. rewrite size_list_to_set in Hs by done. rewrite length_fmap, length_seqZ in Hs.
  unfold NBUF, MAXOPBLOCKS in *. lia.
Qed.

(** The invariant after buffer [b] was made the locked copy of block [n]. *)
Lemma bio_locked s s' v L P n b k :
  bio_inv s v L P -> n ∉ L -> 0 <= b < NBUF -> puts s s' b k (lock_of b (lk_pid (bs_lk s)) (bs_lk s)) ->
  b_dev k = ROOTDEV -> b_blockno k = n -> b_valid k <> 0 -> b_data k = v n -> b_refcnt k = refs L P n + 1 ->
  (forall b', isbuf s b' n -> b' = b) -> (forall m, isbuf s b m -> m <> n -> m ∉ L ∪ P) ->
  bio_inv s' v ({[n]} ∪ L) P.
Proof.
  intros Hi Hn Hb Hp Kd Kn Kv Kdat Kr Hu Ho. destruct Hp as [Pb Po Pn Pp Pd Pw Pl] eqn:E. clear E.
  assert (forall m, bs_disk s' m = bs_disk s m) as Ed by (intros; by rewrite Pd).
  apply (bio_step s s' v v L _ P _ b n Hi); rewrite ?Pb, ?Pl; try done.
  - unfold isbuf. by rewrite Pb.
  - apply (bi_held _ _ _ _ Hi).
  - destruct (bi_list _ _ _ _ Hi) as (l & H1 & H2). exists l. split; [by eapply puts_list|done].
  - intros j Hj Hne. rewrite Po by done. split; [done|]. cbn. by rewrite decide_False by naive_solver.
  - apply buf_ok_root; [done|]. rewrite Kn. split_and!.
    + by rewrite refs_lock.
    + done.
    + rewrite decide_True by apply in_add. cbn. by rewrite decide_True.
  - intros m Hm. rewrite (in_add_ne n m L Hm). done.
  - intros H. destruct H. apply elem_of_union_l, in_add.
Qed.

(** [kept s s' X]: the blocks of [X] stay in the buffers that hold them. *)
Definition kept (s s' : bst) (X : gset Z) : Prop :=
  (forall b m, m ∈ X -> isbuf s b m -> isbuf s' b m) /\ lk_pid (bs_lk s') = lk_pid (bs_lk s).

Lemma kept_puts s s' b k lk X :
  puts s s' b k lk ->
  lk_pid lk = lk_pid (bs_lk s) -> (forall m, isbuf s b m -> m ∈ X -> b_dev k = ROOTDEV /\ b_blockno k = m) ->
  kept s s' X.
Proof.
  intros [Pb Po _ _ _ _ Pl] Hp H. split; [|by rewrite Pl]. intros b0 m Hm Hb. destruct (decide (b0 = b)) as [->|Hne].
  - destruct (H m Hb Hm). unfold isbuf. rewrite Pb. split; [apply Hb|done].
  - unfold isbuf. by rewrite Po.
Qed.

(** The second half of bread: the block is read if the buffer is not valid. *)
Lemma bread_fill s b :
  exists s', (k <- getbuf b ;; (if b_valid k =? 0 then disk_rw b false ;;; modbuf b (set_valid 1) else ret tt) ;;; ret b) s
      = Ret b s' /\
    puts s s' b (let k := bc_buf (bs_cache s) b in
                 if b_valid k =? 0 then set_valid 1 (set_data (bs_disk s (b_blockno k)) k) else k) (bs_lk s).
Proof.
  unfold getbuf. rewrite bind_gets. destruct (b_valid (bc_buf (bs_cache s) b) =? 0) eqn:E.
  - destruct (modbuf_puts b (set_data (bs_disk s (b_blockno (bc_buf (bs_cache s) b)))) s) as (s1 & E1 & P1).
    destruct (modbuf_puts b (set_valid 1) s1) as (s2 & E2 & P2). exists s2. split.
    + unfold disk_rw, getbuf. rewrite bind_assoc, bind_assoc, bind_gets, bind_assoc, bind_gets.
      rewrite (bind_Ret _ _ _ _ _ E1). by rewrite (bind_Ret _ _ _ _ _ E2).
    + cbn zeta. rewrite (pu_buf _ _ _ _ _ P1), (pu_lk _ _ _ _ _ P1) in P2. by eapply puts_trans.
  - exists s. split; [done|]. by split.
Qed.

Lemma isbuf_eq s b n m : isbuf s b n -> isbuf s b m -> m = n.
Proof. intros (_ & _ & <-) (_ & _ & <-). done. Qed.

(** The buffer of a block that is neither locked nor pinned is unlocked and
    unreferenced; one that is invalid is neither locked nor pinned. *)
Lemma bio_unlocked s v L P b n :
  bio_inv s v L P -> isbuf s b n -> n ∉ L -> sl_locked (lk_sleep (bs_lk s) (S_buf b)) = 0.
Proof.
  intros Hi (Hb & Hd & Hn) HL. pose proof (bi_buf _ _ _ _ Hi b Hb) as Hk. apply buf_ok_root in Hk; [|done].
  destruct Hk as (_ & _ & Hk). rewrite Hn, decide_False in Hk by done. done.
Qed.

Lemma bio_valid s v L P b n :
  bio_inv s v L P -> isbuf s b n -> n ∈ L ∪ P ->
  b_valid (bc_buf (bs_cache s) b) <> 0 /\ b_data (bc_buf (bs_cache s) b) = v n.
Proof.
  intros Hi Hb Hn. destruct (bi_cached _ _ _ _ Hi n Hn) as (b' & Hb' & Hv).
  rewrite (bi_uniq _ _ _ _ Hi _ _ _ Hb' Hb) in Hv. split; [done|].
  destruct Hb as (Hr & Hd & Hbn). pose proof (bi_buf _ _ _ _ Hi b Hr) as Hk. apply buf_ok_root in Hk; [|done].
  destruct Hk as (_ & Hk & _). rewrite Hk by done. by rewrite Hbn.
Qed.

Lemma bio_refcnt s v L P b n :
  bio_inv s v L P -> isbuf s b n -> b_refcnt (bc_buf (bs_cache s) b) = refs L P n.
Proof.
  intros Hi (Hr & Hd & <-). pose proof (bi_buf _ _ _ _ Hi b Hr) as Hk. apply buf_ok_root in Hk; [|done]. apply Hk.
Qed.

(** bget: the buffer it finds or recycles for block [n]. *)
Lemma bget_ok s v L P n :
  bio_inv s v L P -> n ∉ L -> n ∈ P \/ Z.of_nat (size (L ∪ P)) < NBUF ->
  exists b k s', bget ROOTDEV n s = Ret b s' /\ 0 <= b < NBUF /\
    puts s s' b k (lock_of b (lk_pid (bs_lk s)) (bs_lk s)) /\
    sl_locked (lk_sleep (bs_lk s) (S_buf b)) = 0 /\ b_dev k = ROOTDEV /\ b_blockno k = n /\
    b_refcnt k = refs L P n + 1 /\ (b_valid k <> 0 -> b_data k = v n) /\ (b_valid k = 0 -> n ∉ L ∪ P) /\
    (forall b', isbuf s b' n -> b' = b) /\ (forall m, isbuf s b m -> m <> n -> m ∉ L ∪ P).
Proof.
  intros Hi Hn Hroom. unfold bget. pose proof (bi_held _ _ _ _ Hi) as Hh.
  erewrite bind_Ret by (apply blift, lk_acquire_ok; rewrite Hh; apply not_elem_of_nil). rewrite bind_gets, Hh.
  cbn [bs_cache set_lk].
  set (T1 := fun b => _ && _). destruct (bio_scan _ _ _ _ T1 Hi) as [(l1 & Hl1 & ->) _].
  destruct (List.find T1 l1) as [b|] eqn:E1.
  - apply (find_range T1 l1) in E1 as [Hb E1]; [|done]. unfold T1 in E1. apply andb_true_iff in E1 as [Ed En].
    apply Z.eqb_eq in Ed, En. assert (isbuf s b n) as Hbn by done.
    pose proof (bio_unlocked _ _ _ _ _ _ Hi Hbn Hn) as Hl.
    destruct (bget_tail s b (fun k => set_refcnt (u32 (b_refcnt k + 1)) k) Hh Hl) as (s' & Hs & Hp).
    eexists b, _, s'. split; [exact Hs|]. split; [exact Hb|]. split; [exact Hp|].
    cbn [set_refcnt b_dev b_blockno b_refcnt b_valid b_data]. rewrite (bio_refcnt _ _ _ _ _ _ Hi Hbn).
    split_and!; try done.
    + pose proof (refs_range L P n). apply u32_small. lia.
    + intros Hv. pose proof (bi_buf _ _ _ _ Hi b Hb) as Hk. apply buf_ok_root in Hk; [|done].
      rewrite <- En. by apply Hk.
    + intros Hv Hin. by destruct (bio_valid _ _ _ _ _ _ Hi Hbn Hin).
    + intros b' Hb'. by apply (bi_uniq _ _ _ _ Hi b' b n).
    + intros m Hm Hne. by destruct (Hne (isbuf_eq _ _ _ _ Hbn Hm)).
  - assert (forall b', ~ isbuf s b' n) as Hno.
    { intros b' (Hr & Hd & Hbn). pose proof (find_none T1 l1 Hl1 E1 b' Hr) as Hf. unfold T1 in Hf.
      rewrite Hd, Hbn, !Z.eqb_refl in Hf. done. }
    assert (n ∉ L ∪ P) as Hnu by (intros H; by destruct (bi_cached _ _ _ _ Hi n H) as (b' & Hb' & _); apply (Hno b')).
    set (T2 := fun b => _ =? _). destruct (bio_scan _ _ _ _ T2 Hi) as [_ (l2 & Hl2 & ->)].
    destruct (List.find T2 l2) as [b|] eqn:E2.
    + apply (find_range T2 l2) in E2 as [Hb E2]; [|done]. unfold T2 in E2. apply Z.eqb_eq in E2.
      assert (forall m, isbuf s b m -> m ∉ L ∪ P) as Hbu.
      { intros m Hm. apply refs_zero. by rewrite <- (bio_refcnt _ _ _ _ _ _ Hi Hm). }
      assert (sl_locked (lk_sleep (bs_lk s) (S_buf b)) = 0) as Hl.
      { destruct (decide (b_dev (bc_buf (bs_cache s) b) = ROOTDEV)) as [Hd|Hd].
        - assert (isbuf s b (b_blockno (bc_buf (bs_cache s) b))) as Hbm by (unfold isbuf; done).
          eapply (bio_unlocked _ _ _ _ _ _ Hi); [exact Hbm|]. intros HL.
          apply (Hbu _ Hbm). by apply elem_of_union_l.
        - pose proof (bi_buf _ _ _ _ Hi b Hb) as Hk. unfold buf_ok in Hk. rewrite decide_False in Hk by done. apply Hk. }
      destruct (bget_tail s b (fun k => mkBuf 0 ROOTDEV n 1 (b_data k)) Hh Hl) as (s' & Hs & Hp).
      eexists b, _, s'. split; [exact Hs|]. split; [exact Hb|]. split; [exact Hp|]. cbn [b_dev b_blockno b_refcnt b_valid b_data].
      split_and!; try done.
      * by rewrite (proj2 (refs_zero L P n)).
      * intros b' Hb'. by destruct (Hno b').
      * intros m Hm _. by apply Hbu.
    + exfalso. assert (NBUF <= Z.of_nat (size (L ∪ P))) as Hsz.
      { eapply all_referenced; [done|]. intros b Hb. pose proof (find_none T2 l2 Hl2 E2 b Hb) as Hf.
        unfold T2 in Hf. by apply Z.eqb_neq. }
      destruct Hroom as [HP|?]; [|lia]. by apply Hnu, elem_of_union_r.
Qed.

Lemma bread_ok s v L P n :
  bio_inv s v L P -> n ∉ L -> n ∈ P \/ Z.of_nat (size (L ∪ P)) < NBUF ->
  exists b s', bread ROOTDEV n s = Ret b s' /\ bio_inv s' v ({[n]} ∪ L) P /\ isbuf s' b n /\
    b_data (bc_buf (bs_cache s') b) = v n /\ kept s s' (L ∪ P) /\ bs_disk s' = bs_disk s /\ bs_writes s' = bs_writes s.
Proof.
  intros Hi Hn Hroom. destruct (bget_ok s v L P n Hi Hn Hroom) as
    (b & k & s1 & E1 & Hb & P1 & Hl & Kd & Kn & Kr & Kv & Kz & Hu & Ho).
  destruct (bread_fill s1 b) as (s2 & E2 & P2).
  rewrite (pu_buf _ _ _ _ _ P1), (pu_lk _ _ _ _ _ P1), (pu_disk _ _ _ _ _ P1) in P2. cbn zeta in P2. rewrite Kn in P2.
  pose proof (puts_trans _ _ _ _ _ _ _ _ P1 P2) as P3. match type of P3 with puts _ _ _ ?x _ => set (k' := x) in P2, P3 end.
  assert (b_dev k' = ROOTDEV /\ b_blockno k' = n /\ b_refcnt k' = refs L P n + 1 /\ b_valid k' <> 0 /\ b_data k' = v n)
    as (Kd' & Kn' & Kr' & Kv' & Kdat').
  { unfold k'. destruct (Z.eqb_spec (b_valid k) 0) as [E|E]; cbn; [|by split_and!; auto].
    split_and!; try done. apply (bi_disk _ _ _ _ Hi). auto. }
  assert (bio_inv s2 v ({[n]} ∪ L) P) as Hi' by (by eapply (bio_locked s s2)).
  exists b, s2. split_and!.
  - unfold bread. by rewrite (bind_Ret _ _ _ _ _ E1).
  - done.
  - unfold isbuf. by rewrite (pu_buf _ _ _ _ _ P3).
  - by rewrite (pu_buf _ _ _ _ _ P3).
  - eapply kept_puts; [exact P3|done|]. intros m Hm Hin. split; [done|]. destruct (decide (m = n)) as [->|Hne]; [done|].
    by destruct (Ho m Hm Hne).
  - apply (pu_disk _ _ _ _ _ P3).
  - apply (pu_writes _ _ _ _ _ P3).
Qed.

(** ** The other operations *)

(** The lock of a block this process has locked. *)
Lemma bio_holding s v L P b n :
  bio_inv s v L P -> isbuf s b n -> n ∈ L ->
  lk_sleep (bs_lk s) (S_buf b) = mkSleeplock 1 (lk_pid (bs_lk s)) /\
  lift (holdingsleep (S_buf b)) s = Ret true s.
Proof.
  intros Hi (Hr & Hd & Hn) HL. pose proof (bi_buf _ _ _ _ Hi b Hr) as Hk. apply buf_ok_root in Hk; [|done].
  destruct Hk as (_ & _ & Hk). rewrite Hn, decide_True in Hk by done. split; [done|].
  erewrite blift by (apply holdingsleep_ok; rewrite (bi_held _ _ _ _ Hi); apply not_elem_of_nil).
  rewrite Hk. cbn. rewrite Z.eqb_refl. by destruct s.
Qed.

(** Changing only the reference count or the data of a locked block. *)
Lemma bio_change s s' v v' L P P' b n k :
  bio_inv s v L P -> isbuf s b n -> n ∈ L -> puts s s' b k (bs_lk s) ->
  b_dev k = ROOTDEV -> b_blockno k = n -> b_valid k = b_valid (bc_buf (bs_cache s) b) ->
  b_data k = v' n -> b_refcnt k = refs L P' n -> (forall m, m <> n -> v' m = v m /\ (m ∈ P' <-> m ∈ P)) ->
  bio_inv s' v' L P'.
Proof.
  intros Hi Hb HL Hp Kd Kn Kv Kdat Kr Hm. destruct (bio_valid _ _ _ _ _ _ Hi Hb) as [Hv _]; [by apply elem_of_union_l|].
  destruct (bio_holding _ _ _ _ _ _ Hi Hb HL) as [Hlk _].
  pose proof Hp as [Pb Po Pn Pp Pd Pw Pl].
  apply (bio_step s s' v v' L L P P' b n Hi); rewrite ?Pb, ?Pl; try done.
  - unfold isbuf. rewrite Pb. by destruct Hb.
  - apply (bi_held _ _ _ _ Hi).
  - destruct (bi_list _ _ _ _ Hi) as (l & H1 & H2). exists l. split; [by eapply puts_list|done].
  - intros j Hj Hne. by rewrite Po.
  - by rewrite Kv.
  - apply buf_ok_root; [done|]. rewrite Kn. split_and!; [done|done|]. by rewrite decide_True.
  - intros b' Hb'. by apply (bi_uniq _ _ _ _ Hi b' b n).
  - intros m Hm' Hne. by destruct (Hne (isbuf_eq _ _ _ _ Hb Hm')).
  - intros m Hne. destruct (Hm m Hne). rewrite Pd. done.
  - intros H. destruct H. by apply elem_of_union_l.
Qed.

Lemma kept_change s s' b n k X :
  isbuf s b n -> puts s s' b k (bs_lk s) -> b_dev k = ROOTDEV -> b_blockno k = n -> kept s s' X /\ isbuf s' b n.
Proof.
  intros Hb Hp Kd Kn. split.
  - eapply kept_puts; [exact Hp|done|]. intros m Hm _. by rewrite (isbuf_eq _ _ _ _ Hb Hm).
  - unfold isbuf. rewrite (pu_buf _ _ _ _ _ Hp). by destruct Hb.
Qed.

(** Writing the data of a locked block in memory. *)
Lemma set_data_ok s v L P b n d :
  bio_inv s v L P -> isbuf s b n -> n ∈ L ->
  exists s', modbuf b (set_data d) s = Ret tt s' /\ bio_inv s' (upd v n d) L P /\ isbuf s' b n /\
    kept s s' (L ∪ P) /\ bs_disk s' = bs_disk s /\ bs_writes s' = bs_writes s.
Proof.
  intros Hi Hb HL. destruct (modbuf_puts b (set_data d) s) as (s' & E & Hp).
  destruct (kept_change _ _ _ n _ (L ∪ P) Hb Hp) as [Hk Hb']; [apply Hb..|].
  exists s'. split_and!; try done; [|apply (pu_disk _ _ _ _ _ Hp)|apply (pu_writes _ _ _ _ _ Hp)].
  eapply (bio_change s s' v); try done; try apply Hb.
  - cbn. by rewrite upd_eq.
  - cbn. by apply (bio_refcnt _ _ _ _ _ _ Hi).
  - intros m Hm. by rewrite upd_ne.
Qed.

Lemma bwrite_ok s v L P b n :
  bio_inv s v L P -> isbuf s b n -> n ∈ L ->
  exists s', bwrite b s = Ret tt s' /\ bio_inv s' v L P /\ isbuf s' b n /\ kept s s' (L ∪ P) /\
    bs_disk s' = upd (bs_disk s) n (v n) /\ bs_writes s' = bs_writes s ++ [(n, v n)].
Proof.
  intros Hi Hb HL. destruct (bio_holding _ _ _ _ _ _ Hi Hb HL) as [_ Hh].
  destruct (bio_valid _ _ _ _ _ _ Hi Hb) as [_ Hd]; [by apply elem_of_union_l|].
  eexists. split.
  - unfold bwrite. rewrite (bind_Ret _ _ _ _ _ Hh). cbn [negb]. unfold disk_rw, getbuf. rewrite bind_gets.
    destruct Hb as (_ & _ & Hbn). rewrite Hbn, Hd. reflexivity.
  - split_and!; try done. destruct Hi. split; try done. cbn. intros m Hm. destruct (decide (m = n)) as [->|Hne].
    + by rewrite upd_eq.
    + rewrite upd_ne by done. auto.
Qed.

Lemma locked_modbuf s b f :
  lk_held (bs_lk s) = [] ->
  exists s', (lift (acquire L_bcache) ;;; modbuf b f ;;; lift (release L_bcache)) s = Ret tt s' /\
    puts s s' b (f (bc_buf (bs_cache s) b)) (bs_lk s).
Proof.
  intros Hh. eexists. split.
  - erewrite bind_Ret by (apply blift, lk_acquire_ok; rewrite Hh; apply not_elem_of_nil).
    rewrite (bind_Ret _ _ _ _ _ (eq_refl : modbuf _ _ _ = _)).
    apply blift, (lk_release_ok L_bcache []); [by cbn; rewrite Hh|apply not_elem_of_nil].
  - split; try done; [apply upd_eq|intros j Hj; by apply upd_ne|]. destruct s as [c d w []]. cbn in Hh |- *. by subst.
Qed.

Lemma bpin_ok s v L P b n :
  bio_inv s v L P -> isbuf s b n -> n ∈ L -> n ∉ P ->
  exists s', bpin b s = Ret tt s' /\ bio_inv s' v L ({[n]} ∪ P) /\ isbuf s' b n /\ kept s s' (L ∪ P) /\
    bs_disk s' = bs_disk s /\ bs_writes s' = bs_writes s.
Proof.
  intros Hi Hb HL HP.
  destruct (locked_modbuf s b (fun k => set_refcnt (u32 (b_refcnt k + 1)) k) (bi_held _ _ _ _ Hi)) as (s' & E & Hp).
  rewrite (bio_refcnt _ _ _ _ _ _ Hi Hb) in Hp. pose proof (refs_range L P n) as Hr. rewrite u32_small in Hp by lia.
  destruct (kept_change _ _ _ n _ (L ∪ P) Hb Hp) as [Hk Hb']; [apply Hb..|].
  exists s'. split_and!; try done; [|apply (pu_disk _ _ _ _ _ Hp)|apply (pu_writes _ _ _ _ _ Hp)].
  eapply (bio_change s s' v); try done; try apply Hb.
  - cbn. apply (bio_valid _ _ _ _ _ _ Hi Hb). by apply elem_of_union_l.
  - cbn. by rewrite refs_pin.
  - intros m Hm. by rewrite (in_add_ne n m P Hm).
Qed.

Lemma bunpin_ok s v L P b n :
  bio_inv s v L P -> isbuf s b n -> n ∈ L -> n ∈ P ->
  exists s', bunpin b s = Ret tt s' /\ bio_inv s' v L (P ∖ {[n]}) /\ isbuf s' b n /\ kept s s' (L ∪ P) /\
    bs_disk s' = bs_disk s /\ bs_writes s' = bs_writes s.
Proof.
  intros Hi Hb HL HP.
  destruct (locked_modbuf s b (fun k => set_refcnt (u32 (b_refcnt k - 1)) k) (bi_held _ _ _ _ Hi)) as (s' & E & Hp).
  rewrite (bio_refcnt _ _ _ _ _ _ Hi Hb) in Hp. pose proof (refs_range L (P ∖ {[n]}) n) as Hr.
  rewrite refs_unpin in Hr by done. pose proof (refs_range L P n). rewrite u32_small in Hp by lia.
  destruct (kept_change _ _ _ n _ (L ∪ P) Hb Hp) as [Hk Hb']; [apply Hb..|].
  exists s'. split_and!; try done; [|apply (pu_disk _ _ _ _ _ Hp)|apply (pu_writes _ _ _ _ _ Hp)].
  eapply (bio_change s s' v); try done; try apply Hb.
  - cbn. apply (bio_valid _ _ _ _ _ _ Hi Hb). by apply elem_of_union_l.
  - cbn. by rewrite refs_unpin.
  - intros m Hm. by rewrite (in_del_ne n m P Hm).
Qed.

(** brelse gives the lock up; an unpinned block must be on disk already. *)
Lemma brelse_ok s v L P b n :
  bio_inv s v L P -> isbuf s b n -> n ∈ L -> (n ∉ P -> bs_disk s n = v n) ->
  exists s', brelse b s = Ret tt s' /\ bio_inv s' v (L ∖ {[n]}) P /\ kept s s' (L ∪ P) /\
    bs_disk s' = bs_disk s /\ bs_writes s' = bs_writes s.
Proof.
  intros Hi Hb HL HP. destruct (bio_holding _ _ _ _ _ _ Hi Hb HL) as [_ Hhold].
  pose proof (bi_held _ _ _ _ Hi) as Hh. pose proof (refs_range (L ∖ {[n]}) P n) as Hr1.
  pose proof (refs_unlock L P n HL) as Hr2. pose proof (bio_refcnt _ _ _ _ _ _ Hi Hb) as Href.
  destruct (bio_valid _ _ _ _ _ _ Hi Hb) as [Hv Hd]; [by apply elem_of_union_l|].
  set (k := set_refcnt (refs (L ∖ {[n]}) P n) (bc_buf (bs_cache s) b)).
  set (lk := mkLk [] (lk_sleep (set_lk_sleep (S_buf b) (mkSleeplock 0 0) (bs_lk s))) (lk_pid (bs_lk s))
                  (lk_wakeups (bs_lk s) ++ [chan_sleep (S_buf b)])).
  set (c := mkBcache (upd (bc_buf (bs_cache s)) b k) (bc_next (bs_cache s)) (bc_prev (bs_cache s))).
  exists (mkBst (if refs (L ∖ {[n]}) P n =? 0 then push_front b (unlink b c) else c) (bs_disk s) (bs_writes s) lk).
  assert (bc_buf (if refs (L ∖ {[n]}) P n =? 0 then push_front b (unlink b c) else c) = bc_buf c) as Ec by (by case_match).
  assert (bc_buf c b = k) as Eb by apply upd_eq.
  split_and!; try done.
  - unfold brelse. rewrite (bind_Ret _ _ _ _ _ Hhold). cbn [negb].
    erewrite bind_Ret by (apply blift, releasesleep_ok; rewrite Hh; apply not_elem_of_nil).
    erewrite bind_Ret by (apply blift, lk_acquire_ok; cbn; rewrite Hh; apply not_elem_of_nil).
    rewrite (bind_Ret _ _ _ _ _ (eq_refl : modbuf _ _ _ = _)). unfold getbuf. rewrite bind_gets.
    cbn [set_cache set_lk bs_cache bs_disk bs_writes bc_buf bc_next bc_prev bs_lk lk_held]. rewrite upd_eq, Href, Hh.
    cbn [set_refcnt b_refcnt]. rewrite <- Hr2, u32_small by lia. fold k. fold c.
    destruct (refs (L ∖ {[n]}) P n =? 0); cbn [when];
      (erewrite bind_Ret by reflexivity;
       erewrite blift by (apply (lk_release_ok L_bcache []); [reflexivity|apply not_elem_of_nil]); reflexivity).
  - apply (bio_step s _ v v L _ P P b n Hi); cbn [bs_cache bs_lk bs_disk]; rewrite ?Ec, ?Eb; try done.
    + unfold isbuf. cbn [bs_cache]. rewrite Ec, Eb. exact Hb.
    + destruct (bi_list _ _ _ _ Hi) as (l & Hl1 & Hl2).
      assert (linked c l) as Hlc by (destruct Hl1; by split). destruct (_ =? 0); [|by exists l].
      assert (b ∈ l) as Hbl by (rewrite Hl2, elem_of_seqZ; destruct Hb; lia).
      apply list_elem_of_split in Hbl as (l1 & l2 & ->). exists (b :: l1 ++ l2).
      split; [|by rewrite <- Hl2, Permutation_middle]. apply push_front_linked; [by apply unlink_linked|].
      destruct Hlc as [_ _ Hnd]. apply NoDup_cons in Hnd as [H1 H2].
      apply not_elem_of_cons. split; [destruct Hb; unfold HEAD; lia|].
      apply NoDup_app in H2 as (_ & H2 & H3). apply NoDup_cons in H3 as [H3 _].
      rewrite elem_of_app. intros [H|H]; [|done]. apply (H2 b H). by constructor.
    + intros j Hj Hne. unfold c. cbn [bc_buf]. rewrite upd_ne by done. split; [done|]. cbn.
      by rewrite decide_False by naive_solver.
    + apply buf_ok_root; [apply Hb|]. cbn. destruct Hb as (_ & _ & ->). split_and!; [done|done|].
      rewrite decide_False by apply in_del. by rewrite decide_True.
    + intros b' Hb'. by apply (bi_uniq _ _ _ _ Hi b' b n).
    + intros m Hm' Hne. by destruct (Hne (isbuf_eq _ _ _ _ Hb Hm')).
    + intros m Hne. by rewrite (in_del_ne n m L Hne).
    + intros Hn. apply HP. intros HnP. apply Hn. by apply elem_of_union_r.
  - split; [|done]. intros b0 m Hm Hb0. unfold isbuf. cbn [bs_cache]. rewrite Ec. unfold c. cbn [bc_buf].
    destruct (decide (b0 = b)) as [->|Hne]; [by rewrite upd_eq|by rewrite upd_ne].
Qed.

(** ** Initialisation *)

Lemma binit_loop_ok n b s l :
  linked (bs_cache s) l -> 0 <= b -> b + Z.of_nat n <= NBUF -> (forall x, x ∈ l -> x < b) ->
  exists s', binit_loop n b s = Ret tt s' /\ linked (bs_cache s') (reverse (seqZ b (Z.of_nat n)) ++ l) /\
    bc_buf (bs_cache s') = bc_buf (bs_cache s) /\ bs_disk s' = bs_disk s /\ bs_writes s' = bs_writes s /\
    lk_held (bs_lk s') = lk_held (bs_lk s) /\ lk_pid (bs_lk s') = lk_pid (bs_lk s) /\
    forall x, lk_sleep (bs_lk s') (S_buf x) =
      if decide (b <= x < b + Z.of_nat n) then mkSleeplock 0 0 else lk_sleep (bs_lk s) (S_buf x).
Proof.
  revert b s l. induction n as [|n IH]; intros b s l Hl Hb Hn Hx.
  - exists s. split_and!; try done. intros x. by rewrite decide_False by lia.
  - cbn [binit_loop]. rewrite (bind_Ret _ _ _ _ _ (eq_refl : modlinks _ _ = _)).
    erewrite bind_Ret by (apply blift; reflexivity). set (s1 := set_lk _ _).
    destruct (IH (b + 1) s1 (b :: l)) as (s' & E & Hl' & H1 & H2 & H3 & H4 & H5 & H6).
    + apply push_front_linked; [done|]. apply not_elem_of_cons. split; [unfold HEAD; lia|].
      intros H. specialize (Hx b H). lia.
    + lia.
    + lia.
    + intros x [->|H]%elem_of_cons; [lia|]. specialize (Hx x H). lia.
    + exists s'. split_and!; try done.
      * rewrite seqZ_cons by lia. rewrite reverse_cons, <- app_assoc. cbn [app].
        replace (Z.succ b) with (b + 1) by lia. by replace (Z.pred (Z.of_nat (S n))) with (Z.of_nat n) by lia.
      * intros x. rewrite H6. cbn. destruct (decide (b + 1 <= x < b + 1 + Z.of_nat n)), (decide (b <= x < b + Z.of_nat (S n)));
          try done; try lia.
        -- rewrite decide_True; [done|]. f_equal. lia.
        -- rewrite decide_False; [done|]. intros [= ->]. lia.
Qed.

(** The buffers as the kernel's zeroed data has them. *)
Definition zero_bufs (s : bst) : Prop :=
  forall b, b_dev (bc_buf (bs_cache s) b) = 0 /\ b_refcnt (bc_buf (bs_cache s) b) = 0.

Lemma binit_ok s :
  zero_bufs s -> lk_held (bs_lk s) = [] ->
  exists s', binit s = Ret tt s' /\ bio_inv s' (bs_disk s) ∅ ∅ /\ bs_disk s' = bs_disk s /\ bs_writes s' = bs_writes s /\
    lk_pid (bs_lk s') = lk_pid (bs_lk s).
Proof.
  intros Hz Hh. unfold binit. rewrite (bind_Ret _ _ _ _ _ (eq_refl : modlinks _ _ = _)). set (s0 := set_cache _ s).
  destruct (binit_loop_ok (Z.to_nat NBUF) 0 s0 []) as (s' & E & Hl & H1 & H2 & H3 & H4 & H5 & H6).
  - split; cbn; [apply upd_eq..|]. apply NoDup_singleton.
  - lia.
  - unfold NBUF, MAXOPBLOCKS. lia.
  - intros x []%elem_of_nil.
  - rewrite app_nil_r in Hl. exists s'. split; [exact E|]. clear E. split; [|by split_and!]. split.
    + by rewrite H4.
    + eexists. split; [exact Hl|]. by rewrite reverse_Permutation.
    + intros b b' n (_ & Hd & _) _. rewrite H1 in Hd. cbn in Hd. rewrite (proj1 (Hz b)) in Hd. done.
    + intros b Hb. unfold buf_ok. rewrite H1. cbn [bs_cache s0 set_cache bc_buf].
      rewrite decide_False by (rewrite (proj1 (Hz b)); done). split; [apply Hz|].
      rewrite H6. by rewrite decide_True by (unfold NBUF, MAXOPBLOCKS in *; lia).
    + set_solver.
    + by rewrite H2.
Qed.

(** ** Running out of buffers *)

(** With as many locked or pinned blocks as buffers, every buffer is one. *)
Lemma all_used s v L P b :
  bio_inv s v L P -> Z.of_nat (size (L ∪ P)) = NBUF -> 0 <= b < NBUF -> exists m, m ∈ L ∪ P /\ isbuf s b m.
Proof.
  intros Hi Hsz Hb. set (f := fun b => b_blockno (bc_buf (bs_cache s) b)).
  set (Q := fun b => b_dev (bc_buf (bs_cache s) b) = ROOTDEV /\ f b ∈ L ∪ P).
  destruct (decide (Q b)) as [[H1 H2]|Hq]; [by exists (f b)|]. exfalso.
  assert (L ∪ P ⊆ list_to_set (f <$> base.filter Q (seqZ 0 NBUF))) as Hsub.
  { intros m Hm. destruct (bi_cached _ _ _ _ Hi m Hm) as (b0 & (Hb0 & Hd & Hbn) & _).
    apply elem_of_list_to_set, list_elem_of_fmap. exists b0. split; [done|]. apply list_elem_of_filter.
    split; [split; [done|]; unfold f; by rewrite Hbn|]. apply elem_of_seqZ. lia. }
  apply subseteq_size in Hsub.
  assert (size (list_to_set (C := gset Z) (f <$> base.filter Q (seqZ 0 NBUF))) <= length (base.filter Q (seqZ 0 NBUF)))%nat as Hle.
  { rewrite <- (length_fmap f). generalize (f <$> base.filter Q (seqZ 0 NBUF)). clear. intros l.
    induction l as [|x l IH]; [done|]. cbn [list_to_set length]. rewrite size_union_alt, size_singleton.
    pose proof (subseteq_size (list_to_set l ∖ {[x]}) (list_to_set (C := gset Z) l) ltac:(set_solver)). lia. }
  pose proof (length_filter_lt Q (seqZ 0 NBUF) b) as Hlt. rewrite length_seqZ in Hlt.
  specialize (Hlt ltac:(apply elem_of_seqZ; lia) Hq). unfold NBUF, MAXOPBLOCKS in *. lia.
Qed.

(** When every buffer is locked or pinned, reading another block panics. *)
Lemma bread_no_buffers s v L P n :
  bio_inv s v L P -> Z.of_nat (size (L ∪ P)) = NBUF -> n ∉ L ∪ P ->
  exists s', bread ROOTDEV n s = Panic "bget: no buffers" s' /\ bs_disk s' = bs_disk s /\ bs_writes s' = bs_writes s.
Proof.
  intros Hi Hsz Hn. unfold bread, bget. pose proof (bi_held _ _ _ _ Hi) as Hh. rewrite bind_assoc.
  erewrite bind_Ret by (apply blift, lk_acquire_ok; rewrite Hh; apply not_elem_of_nil). rewrite bind_assoc, bind_gets.
  cbn [bs_cache set_lk].
  set (T1 := fun b => _ && _). destruct (bio_scan _ _ _ _ T1 Hi) as [(l1 & Hl1 & ->) _].
  destruct (List.find T1 l1) as [b|] eqn:E1.
  { apply (find_range T1 l1) in E1 as [Hb E1]; [|done]. destruct (all_used _ _ _ _ b Hi Hsz Hb) as (m & Hm & Hbm).
    unfold T1 in E1. apply andb_true_iff in E1 as [_ En]. apply Z.eqb_eq in En. destruct Hbm as (_ & _ & Hbm).
    destruct Hn. by rewrite <- En, Hbm. }
  set (T2 := fun b => _ =? _). destruct (bio_scan _ _ _ _ T2 Hi) as [_ (l2 & Hl2 & ->)].
  destruct (List.find T2 l2) as [b|] eqn:E2.
  { apply (find_range T2 l2) in E2 as [Hb E2]; [|done]. destruct (all_used _ _ _ _ b Hi Hsz Hb) as (m & Hm & Hbm).
    unfold T2 in E2. apply Z.eqb_eq in E2. rewrite (bio_refcnt _ _ _ _ _ _ Hi Hbm) in E2. by apply refs_zero in E2. }
  eexists. split; [reflexivity|done].
Qed.

(** ** The cache refines a plain store of blocks *)

(** A use of the cache as bio.c's interface describes it: read a block, or
    replace its contents and write it. *)
Inductive bop := Bread (n : Z) | Bwrite (n : Z) (d : block).

Definition run_bop (o : bop) : M bst (option block) :=
  match o with
  | Bread n => b <- bread ROOTDEV n ;; k <- getbuf b ;; brelse b ;;; ret (Some (b_data k))
  | Bwrite n d => b <- bread ROOTDEV n ;; modbuf b (set_data d) ;;; bwrite b ;;; brelse b ;;; ret None
  end.

Fixpoint run_bops (os : list bop) : M bst (list block) :=
  match os with
  | [] => ret []
  | o :: os => r <- run_bop o ;; rs <- run_bops os ;; ret (option_list r ++ rs)
  end.

(** The same on a store without a cache. *)
Fixpoint store_bops (d : Z -> block) (os : list bop) : list block * (Z -> block) :=
  match os with
  | [] => ([], d)
  | Bread n :: os => let (r, d') := store_bops d os in (d n :: r, d')
  | Bwrite n b :: os => store_bops (upd d n b) os
  end.

Lemma bio_inv_ext s v v' L P : (forall n, v n = v' n) -> bio_inv s v L P -> bio_inv s v' L P.
Proof.
  intros E []. split; try done.
  - intros b Hb. eapply buf_ok_change; [|by apply bi_buf0]. intros _. by rewrite E.
  - intros n Hn. rewrite <- E. auto.
Qed.

Lemma del_add (n : Z) : ({[n]} ∪ ∅ : gset Z) ∖ {[n]} = ∅.
Proof. set_solver. Qed.

Lemma run_bop_read s v n :
  bio_inv s v ∅ ∅ -> exists s', run_bop (Bread n) s = Ret (Some (v n)) s' /\ bio_inv s' v ∅ ∅ /\ bs_disk s' = bs_disk s.
Proof.
  intros Hi. destruct (bread_ok s v ∅ ∅ n Hi) as (b & s1 & E1 & H1 & Hb & Hd & _ & Hdk & _); [set_solver|by right|].
  destruct (brelse_ok s1 v _ _ b n H1 Hb (in_add _ _)) as (s2 & E2 & H2 & _ & Hdk2 & _).
  { intros _. rewrite Hdk. apply (bi_disk _ _ _ _ Hi). set_solver. }
  rewrite del_add in H2. exists s2. split_and!; [|done|congruence]. unfold run_bop, getbuf.
  rewrite (bind_Ret _ _ _ _ _ E1), bind_gets, (bind_Ret _ _ _ _ _ E2). unfold ret. by rewrite Hd.
Qed.

Lemma run_bop_write s v n d :
  bio_inv s v ∅ ∅ -> exists s', run_bop (Bwrite n d) s = Ret None s' /\ bio_inv s' (upd v n d) ∅ ∅ /\
    forall m, bs_disk s' m = upd (bs_disk s) n d m.
Proof.
  intros Hi. destruct (bread_ok s v ∅ ∅ n Hi) as (b & s1 & E1 & H1 & Hb & _ & _ & Hdk & _); [set_solver|by right|].
  destruct (set_data_ok s1 v _ _ b n d H1 Hb (in_add _ _)) as (s2 & E2 & H2 & Hb2 & _ & Hdk2 & _).
  destruct (bwrite_ok s2 _ _ _ b n H2 Hb2 (in_add _ _)) as (s3 & E3 & H3 & Hb3 & _ & Hdk3 & _). rewrite upd_eq in Hdk3.
  destruct (brelse_ok s3 _ _ _ b n H3 Hb3 (in_add _ _)) as (s4 & E4 & H4 & _ & Hdk4 & _).
  { intros _. by rewrite Hdk3, !upd_eq. }
  rewrite del_add in H4. exists s4. split_and!; [|done|].
  - unfold run_bop. by rewrite (bind_Ret _ _ _ _ _ E1), (bind_Ret _ _ _ _ _ E2), (bind_Ret _ _ _ _ _ E3), (bind_Ret _ _ _ _ _ E4).
  - intros m. by rewrite Hdk4, Hdk3, Hdk2, Hdk.
Qed.

Lemma run_bops_ok os s v :
  bio_inv s v ∅ ∅ -> (forall n, bs_disk s n = v n) ->
  exists s', run_bops os s = Ret (fst (store_bops v os)) s' /\ forall n, bs_disk s' n = snd (store_bops v os) n.
Proof.
  revert s v. induction os as [|[n|n d] os IH]; intros s v Hi Hd; cbn [run_bops store_bops].
  - by exists s.
  - destruct (run_bop_read s v n Hi) as (s1 & E1 & H1 & D1).
    destruct (IH s1 v H1) as (s2 & E2 & D2); [by rewrite D1|]. destruct (store_bops v os) as [r d'] eqn:E.
    exists s2. split; [|done]. by rewrite (bind_Ret _ _ _ _ _ E1), (bind_Ret _ _ _ _ _ E2).
  - destruct (run_bop_write s v n d Hi) as (s1 & E1 & H1 & D1).
    destruct (IH s1 (upd v n d) H1) as (s2 & E2 & D2).
    { intros m. rewrite D1. unfold upd. by case_match. }
    exists s2. split; [|done]. by rewrite (bind_Ret _ _ _ _ _ E1), (bind_Ret _ _ _ _ _ E2).
Qed.

(** C2: the buffer cache is invisible.  After binit, whatever blocks are read
    and written through bread, bwrite and brelse, in whatever order and however
    many, the operations return, each read sees the last contents written, and
    the disk ends as if every write had gone straight to it. *)
Theorem bcache_refines_store os s :
  zero_bufs s -> lk_held (bs_lk s) = [] ->
  exists s', (binit ;;; run_bops os) s = Ret (fst (store_bops (bs_disk s) os)) s' /\
    forall n, bs_disk s' n = snd (store_bops (bs_disk s) os) n.
Proof.
  intros Hz Hh. destruct (binit_ok s Hz Hh) as (s1 & E1 & H1 & D1 & _).
  destruct (run_bops_ok os s1 _ H1) as (s2 & E2 & D2); [by rewrite D1|].
  exists s2. split; [|done]. by rewrite (bind_Ret _ _ _ _ _ E1).
Qed.

Definition zero_block : block := fun _ => 0.
Definition cold_cache (d : Z -> block) : bst :=
  mkBst (mkBcache (fun _ => mkBuf 0 0 0 0 zero_block) (fun _ => 0) (fun _ => 0)) d []
        (mkLk [] (fun _ => mkSleeplock 0 0) 1 []).

Lemma bcache_refines_store_witness :
  exists s', (binit ;;; run_bops [Bwrite 5 (fun _ => 7); Bread 5; Bread 6]) (cold_cache (fun n _ => n))
    = Ret [(fun _ => 7); (fun _ => 6)] s' /\ bs_disk s' 5 = (fun _ => 7).
Proof.
  destruct (bcache_refines_store [Bwrite 5 (fun _ => 7); Bread 5; Bread 6] (cold_cache (fun n _ => n))) as (s' & H1 & H2).
  - intros b. split; reflexivity.
  - reflexivity.
  - exists s'. split; [exact H1|]. exact (H2 5).
Defined.
