(* ===== verification/Log.v ===== *)
(** * kernel/log.c: transactions that survive a crash

    The functions are log.c's, on the buffer cache of Bio.v.  A process that
    would sleep stops with [Blocked].  A crash loses everything but the disk;
    since the state keeps the sequence of block writes, a crash point is a
    number of writes, and recovery is [initlog] run with a cold cache on the
    disk those writes left.  A block write is atomic, as the log assumes. *)
From Stdlib Require Import ZArith Lia.
From stdpp Require Import strings.
From S2P Require Import Prelude Mem StringC Kalloc Page Locks Bio.
Local Open Scope list_scope.
Local Open Scope Z_scope.
Local Open Scope kernel_scope.

Definition LOGSIZE : Z := MAXOPBLOCKS * 3.

(** struct log with its struct logheader. *)
Record log := mkLog {
  lg_start : Z; lg_size : Z; lg_outstanding : Z; lg_committing : Z; lg_dev : Z;
  lg_n : Z; lg_block : list Z
}.

Record lst := mkLst { ls_b : bst; ls_log : log }.
#[export] Instance lst_bst : Lens lst bst.
Proof. refine {| view := ls_b; update := fun b s => mkLst b (ls_log s) |}; [done|by intros []|done]. Defined.
#[export] Instance lst_lk : Lens lst lkst.
Proof.
  refine {| view := fun s => bs_lk (ls_b s); update := fun k s => mkLst (set_lk k (ls_b s)) (ls_log s) |};
    [done|by intros [[] ]|done].
Defined.

Definition modlog (f : log -> log) : M lst unit := modify (fun s => mkLst (ls_b s) (f (ls_log s))).
Definition set_n (n : Z) (l : log) : log :=
  mkLog (lg_start l) (lg_size l) (lg_outstanding l) (lg_committing l) (lg_dev l) n (lg_block l).
Definition set_outstanding (n : Z) (l : log) : log :=
  mkLog (lg_start l) (lg_size l) n (lg_committing l) (lg_dev l) (lg_n l) (lg_block l).
Definition set_committing (c : Z) (l : log) : log :=
  mkLog (lg_start l) (lg_size l) (lg_outstanding l) c (lg_dev l) (lg_n l) (lg_block l).
Definition set_blocks (bs : list Z) (l : log) : log :=
  mkLog (lg_start l) (lg_size l) (lg_outstanding l) (lg_committing l) (lg_dev l) (lg_n l) bs.

(** [memmove(to->data, from->data, BSIZE)] *)
Definition copy_block (to from : Z) : M bst unit :=
  k <- getbuf from ;; modbuf to (set_data (b_data k)).

Fixpoint install_loop (fuel : nat) (tail : Z) (recovering : bool) : M lst unit :=
  match fuel with
  | O => fun s => Spin s
  | S fuel =>
      l <- gets ls_log ;;
      if negb (tail <? lg_n l) then ret tt
      else
        lbuf <- lift (bread (lg_dev l) (u32 (lg_start l + tail + 1))) ;;
        match znth (lg_block l) tail with
        | None => fault
        | Some bn =>
            dbuf <- lift (bread (lg_dev l) (u32 bn)) ;;
            lift (copy_block dbuf lbuf) ;;;
            lift (bwrite dbuf) ;;;
            when (negb recovering) (lift (bunpin dbuf)) ;;;
            lift (brelse lbuf) ;;;
            lift (brelse dbuf) ;;;
            install_loop fuel (tail + 1) recovering
        end
  end.

Definition install_trans (recovering : bool) : M lst unit :=
  l <- gets ls_log ;; install_loop (S (Z.to_nat (lg_n l))) 0 recovering.

(** struct logheader in a block: n, then the block numbers. *)
Definition hdr_n (h : block) : Z := s32 (ld32 h 0).
Definition hdr_block (h : block) (i : Z) : Z := s32 (ld32 h (4 + 4 * i)).

(** The copying loop of read_head; [None] is a write past log.lh.block. *)
Fixpoint read_blocks (k : nat) (i : Z) (h : block) (l : list Z) : option (list Z) :=
  match k with
  | O => Some l
  | S k => match zset l i (hdr_block h i) with None => None | Some l => read_blocks k (i + 1) h l end
  end.

Definition read_head : M lst unit :=
  l <- gets ls_log ;;
  b <- lift (bread (lg_dev l) (u32 (lg_start l))) ;;
  h <- lift (getbuf b) ;;
  modlog (set_n (hdr_n (b_data h))) ;;;
  match read_blocks (Z.to_nat (hdr_n (b_data h))) 0 (b_data h) (lg_block l) with
  | None => fault
  | Some bs => modlog (set_blocks bs) ;;; lift (brelse b)
  end.

(** The copying loop of write_head. *)
Fixpoint write_blocks (k : nat) (i : Z) (l : list Z) (h : block) : option block :=
  match k with
  | O => Some h
  | S k => match znth l i with None => None | Some bn => write_blocks k (i + 1) l (st32 h (4 + 4 * i) bn) end
  end.

Definition write_head : M lst unit :=
  l <- gets ls_log ;;
  b <- lift (bread (lg_dev l) (u32 (lg_start l))) ;;
  h <- lift (getbuf b) ;;
  match write_blocks (Z.to_nat (lg_n l)) 0 (lg_block l) (st32 (b_data h) 0 (lg_n l)) with
  | None => fault
  | Some d => lift (modbuf b (set_data d)) ;;; lift (bwrite b) ;;; lift (brelse b)
  end.

Definition recover_from_log : M lst unit :=
  read_head ;;; install_trans true ;;; modlog (set_n 0) ;;; write_head.

Definition initlog (dev logstart nlog : Z) : M lst unit :=
  if BSIZE <=? 4 + 4 * LOGSIZE then panic "initlog: too big logheader"
  else
    modlog (fun l => mkLog (s32 logstart) (s32 nlog) (lg_outstanding l) (lg_committing l) dev (lg_n l) (lg_block l)) ;;;
    recover_from_log.

Definition chan_log : Z := -1.

Definition begin_op : M lst unit :=
  lift (acquire L_log) ;;;
  l <- gets ls_log ;;
  if negb (lg_committing l =? 0) then lift (sleep chan_log L_log)
  else if LOGSIZE <? lg_n l + (lg_outstanding l + 1) * MAXOPBLOCKS then lift (sleep chan_log L_log)
  else modlog (set_outstanding (lg_outstanding l + 1)) ;;; lift (release L_log).

Fixpoint write_loop (fuel : nat) (tail : Z) : M lst unit :=
  match fuel with
  | O => fun s => Spin s
  | S fuel =>
      l <- gets ls_log ;;
      if negb (tail <? lg_n l) then ret tt
      else
        to <- lift (bread (lg_dev l) (u32 (lg_start l + tail + 1))) ;;
        match znth (lg_block l) tail with
        | None => fault
        | Some bn =>
            from <- lift (bread (lg_dev l) (u32 bn)) ;;
            lift (copy_block to from) ;;;
            lift (bwrite to) ;;;
            lift (brelse from) ;;;
            lift (brelse to) ;;;
            write_loop fuel (tail + 1)
        end
  end.

Definition write_log : M lst unit := l <- gets ls_log ;; write_loop (S (Z.to_nat (lg_n l))) 0.

Definition commit : M lst unit :=
  l <- gets ls_log ;;
  when (0 <? lg_n l)
    (write_log ;;; write_head ;;; install_trans false ;;; modlog (set_n 0) ;;; write_head).

Definition end_op : M lst unit :=
  lift (acquire L_log) ;;;
  l <- gets ls_log ;;
  modlog (set_outstanding (lg_outstanding l - 1)) ;;;
  if negb (lg_committing l =? 0) then panic "log.committing"
  else
    (if lg_outstanding l - 1 =? 0 then modlog (set_committing 1) else lift (wakeup chan_log)) ;;;
    lift (release L_log) ;;;
    when (lg_outstanding l - 1 =? 0)
      (commit ;;;
       lift (acquire L_log) ;;;
       modlog (set_committing 0) ;;;
       lift (wakeup chan_log) ;;;
       lift (release L_log)).

(** The search of log_write: the first slot that has the block, or [n]. *)
Fixpoint find_slot (k : nat) (i : Z) (bs : list Z) (bn : Z) : option Z :=
  match k with
  | O => Some i
  | S k => match znth bs i with
           | None => None
           | Some x => if u32 x =? bn then Some i else find_slot k (i + 1) bs bn
           end
  end.

Definition log_write (b : Z) : M lst unit :=
  lift (acquire L_log) ;;;
  l <- gets ls_log ;;
  if (LOGSIZE <=? lg_n l) || (lg_size l - 1 <=? lg_n l) then panic "too big a transaction"
  else if lg_outstanding l <? 1 then panic "log_write outside of trans"
  else
    k <- lift (getbuf b) ;;
    match find_slot (Z.to_nat (lg_n l)) 0 (lg_block l) (b_blockno k) with
    | None => fault
    | Some i =>
        match zset (lg_block l) i (s32 (b_blockno k)) with
        | None => fault
        | Some bs =>
            modlog (set_blocks bs) ;;;
            when (i =? lg_n l) (lift (bpin b) ;;; modlog (set_n (lg_n l + 1))) ;;;
            lift (release L_log)
        end
    end.

(** ** Headers *)

Lemma write_blocks_ok k i l h :
  0 <= i -> i + Z.of_nat k <= Z.of_nat (length l) ->
  exists h', write_blocks k i l h = Some h' /\
    (forall x, x + 4 <= 4 + 4 * i -> ld32 h' x = ld32 h x) /\
    (forall j bn, i <= j < i + Z.of_nat k -> znth l j = Some bn -> - 2 ^ 31 <= bn < 2 ^ 31 -> hdr_block h' j = bn).
Proof.
  revert i h. induction k as [|k IH]; intros i h Hi Hk; cbn [write_blocks].
  - exists h. split_and!; [done|done|]. intros. lia.
  - destruct (znth_is_Some l i) as [bn Hbn]; [lia|]. rewrite Hbn.
    destruct (IH (i + 1) (st32 h (4 + 4 * i) bn)) as (h' & E & H1 & H2); [lia|lia|].
    exists h'. split_and!; [done| |].
    + intros x Hx. rewrite H1 by lia. by rewrite ldn_stn_ne by lia.
    + intros j bn' Hj Hz Hr. destruct (decide (j = i)) as [->|Hne].
      * rewrite Hbn in Hz. injection Hz as <-. unfold hdr_block. rewrite H1 by lia. rewrite ldn_stn_eq.
        change (2 ^ (8 * Z.of_nat 4)) with (2 ^ 32). dlia.
      * apply H2; [lia|done|done].
Qed.

Lemma read_blocks_ok k i h l :
  0 <= i -> i + Z.of_nat k <= Z.of_nat (length l) ->
  exists l', read_blocks k i h l = Some l' /\ length l' = length l /\
    (forall j, j < i -> znth l' j = znth l j) /\
    (forall j, i <= j < i + Z.of_nat k -> znth l' j = Some (hdr_block h j)).
Proof.
  revert i l. induction k as [|k IH]; intros i l Hi Hk; cbn [read_blocks].
  - exists l. split_and!; [done|done|done|]. intros. lia.
  - rewrite zset_Some by lia. set (l1 := <[_ := _]> l).
    assert (zset l i (hdr_block h i) = Some l1) as E1 by (apply zset_Some; lia).
    destruct (IH (i + 1) l1) as (l' & E & Hl & H1 & H2); [lia|unfold l1; rewrite length_insert; lia|].
    exists l'. split_and!; [done|by rewrite Hl; unfold l1; rewrite length_insert| |].
    + intros j Hj. rewrite H1 by lia. eapply znth_zset_ne; [|exact E1]. lia.
    + intros j Hj. destruct (decide (j = i)) as [->|Hne]; [|apply H2; lia].
      rewrite H1 by lia. by eapply znth_zset_eq.
Qed.

(** ** Sequences of block writes *)

Fixpoint apply_writes (d : Z -> block) (ws : list (Z * block)) : Z -> block :=
  match ws with [] => d | (n, b) :: ws => apply_writes (upd d n b) ws end.

Lemma apply_writes_app d ws ws' : apply_writes d (ws ++ ws') = apply_writes (apply_writes d ws) ws'.
Proof. revert d. induction ws as [|[n b] ws IH]; intros d; [done|]. cbn. apply IH. Qed.

Lemma apply_writes_out d ws m : m ∉ ws.*1 -> apply_writes d ws m = d m.
Proof.
  revert d. induction ws as [|[n b] ws IH]; intros d H; [done|]. cbn in *.
  apply not_elem_of_cons in H as [Hne H]. rewrite IH by done. by apply upd_ne.
Qed.

Lemma apply_writes_ext d d' ws m : d m = d' m -> apply_writes d ws m = apply_writes d' ws m.
Proof.
  revert d d'. induction ws as [|[n b] ws IH]; intros d d' H; [done|]. cbn. apply IH.
  unfold upd. by case_match.
Qed.

Lemma apply_writes_last d ws m b ws' : m ∉ ws'.*1 -> apply_writes d (ws ++ (m, b) :: ws') m = b.
Proof. intros H. rewrite apply_writes_app. cbn. rewrite apply_writes_out by done. apply upd_eq. Qed.

(** Copying the blocks [blks] to the log from [a] on, and back. *)
Fixpoint log_writes (v : Z -> block) (a : Z) (blks : list Z) : list (Z * block) :=
  match blks with [] => [] | n :: blks => (a, v n) :: log_writes v (a + 1) blks end.
Fixpoint home_writes (v : Z -> block) (a : Z) (blks : list Z) : list (Z * block) :=
  match blks with [] => [] | n :: blks => (n, v a) :: home_writes v (a + 1) blks end.

Lemma log_writes_ext v v' a blks :
  (forall n, n ∈ blks -> v n = v' n) -> log_writes v a blks = log_writes v' a blks.
Proof.
  revert a. induction blks as [|n blks IH]; intros a H; [done|]. cbn. rewrite (H n) by (by constructor).
  f_equal. apply IH. intros m Hm. apply H. by constructor.
Qed.
Lemma home_writes_ext v v' a blks :
  (forall n, a <= n < a + Z.of_nat (length blks) -> v n = v' n) -> home_writes v a blks = home_writes v' a blks.
Proof.
  revert a. induction blks as [|n blks IH]; intros a H; [done|]. cbn [home_writes length] in *. rewrite (H a) by lia.
  f_equal. apply IH. intros m Hm. apply H. lia.
Qed.

Lemma home_writes_ext' v v' a blks :
  (forall i n, blks !! i = Some n -> v (a + Z.of_nat i) = v' (a + Z.of_nat i)) -> home_writes v a blks = home_writes v' a blks.
Proof.
  revert a. induction blks as [|n blks IH]; intros a H; [done|]. cbn [home_writes].
  f_equal; [f_equal; pose proof (H 0%nat n eq_refl) as H0; by rewrite Z.add_0_r in H0|]. apply IH. intros i m Hm.
  replace (a + 1 + Z.of_nat i) with (a + Z.of_nat (S i)) by lia. by apply (H (S i) m).
Qed.

Lemma log_writes_fst v a blks m : m ∈ (log_writes v a blks).*1 -> a <= m < a + Z.of_nat (length blks).
Proof.
  revert a. induction blks as [|n blks IH]; intros a; cbn; [by intros ?%elem_of_nil|].
  intros [->|H]%elem_of_cons; [lia|]. apply IH in H. lia.
Qed.
Lemma home_writes_fst v a blks : (home_writes v a blks).*1 = blks.
Proof. revert a. induction blks as [|n blks IH]; intros a; cbn; [done|]. by rewrite IH. Qed.
Lemma log_writes_length v a blks : length (log_writes v a blks) = length blks.
Proof. revert a. induction blks as [|n blks IH]; intros a; cbn; [done|]. by rewrite IH. Qed.
Lemma home_writes_length v a blks : length (home_writes v a blks) = length blks.
Proof. revert a. induction blks as [|n blks IH]; intros a; cbn; [done|]. by rewrite IH. Qed.

(** The [i]th log block afterwards. *)
Lemma log_writes_at d v a blks i n :
  blks !! i = Some n -> apply_writes d (log_writes v a blks) (a + Z.of_nat i) = v n.
Proof.
  revert d a i. induction blks as [|n0 blks IH]; intros d a i; [done|]. destruct i as [|i]; cbn.
  - intros [= ->]. rewrite Z.add_0_r, apply_writes_out; [apply upd_eq|]. intros H%log_writes_fst. lia.
  - intros H. replace (a + Z.of_nat (S i)) with (a + 1 + Z.of_nat i) by lia. by apply IH.
Qed.
Lemma home_writes_at d v a blks i n :
  NoDup blks -> blks !! i = Some n -> apply_writes d (home_writes v a blks) n = v (a + Z.of_nat i).
Proof.
  revert d a i. induction blks as [|n0 blks IH]; intros d a i Hd; [done|]. apply NoDup_cons in Hd as [Hn Hd].
  destruct i as [|i]; cbn.
  - intros [= ->]. rewrite Z.add_0_r, apply_writes_out; [apply upd_eq|]. by rewrite home_writes_fst.
  - intros H. replace (a + Z.of_nat (S i)) with (a + 1 + Z.of_nat i) by lia. by apply IH.
Qed.

(** ** The copying loops *)

Lemma llift {A} (c : M bst A) s a b : c (ls_b s) = Ret a b -> lift c s = Ret a (mkLst b (ls_log s)).
Proof. intros H. unfold lift. cbn. by rewrite H. Qed.
Lemma klift {A} (c : M lkst A) s a k :
  c (bs_lk (ls_b s)) = Ret a k -> lift c s = Ret a (mkLst (set_lk k (ls_b s)) (ls_log s)).
Proof. intros H. unfold lift. cbn. by rewrite H. Qed.

(** One step of a function whose result on the cache is known. *)
Ltac lstep H := erewrite bind_Ret by (apply llift; exact H); cbv beta.

Lemma two_released (x y : Z) : x <> y -> ({[y]} ∪ ({[x]} ∪ ∅) : gset Z) ∖ {[x]} ∖ {[y]} = ∅.
Proof. set_solver. Qed.
Lemma two_released' (x y : Z) : x <> y -> ({[y]} ∪ ({[x]} ∪ ∅) : gset Z) ∖ {[y]} ∖ {[x]} = ∅.
Proof. set_solver. Qed.
Lemma in_add2 (x y : Z) (X : gset Z) : x ∈ {[y]} ∪ ({[x]} ∪ X).
Proof. set_solver. Qed.
Lemma size_lock1 (x : Z) (P : gset Z) : Z.of_nat (size ({[x]} ∪ ∅ ∪ P)) <= Z.of_nat (size P) + 1.
Proof.
  assert ({[x]} ∪ ∅ ∪ P = {[x]} ∪ P) as -> by set_solver.
  rewrite size_union_alt, size_singleton.
  pose proof (subseteq_size (P ∖ {[x]}) P ltac:(set_solver)). lia.
Qed.

Lemma copy_block_ok s v L P to from n m :
  bio_inv s v L P -> isbuf s to n -> isbuf s from m -> n ∈ L -> m ∈ L ->
  exists s', copy_block to from s = Ret tt s' /\ bio_inv s' (upd v n (v m)) L P /\ isbuf s' to n /\ isbuf s' from m /\
    bs_disk s' = bs_disk s /\ bs_writes s' = bs_writes s.
Proof.
  intros Hi Hn Hm HnL HmL. destruct (bio_valid _ _ _ _ _ _ Hi Hm) as [_ Hd]; [by apply elem_of_union_l|].
  destruct (set_data_ok s v L P to n (v m) Hi Hn HnL) as (s' & E & H1 & H2 & [H3 _] & H4 & H5).
  exists s'. split_and!; try done.
  - unfold copy_block, getbuf. by rewrite bind_gets, Hd.
  - apply H3; [by apply elem_of_union_l|done].
Qed.

Lemma kept_isbuf s s' X b n : kept s s' X -> n ∈ X -> isbuf s b n -> isbuf s' b n.
Proof. intros [H _] Hn Hb. by apply H. Qed.

(** What write_log does with one block: block [bn], pinned, goes to [a]. *)
Lemma log_one s v P a bn :
  bio_inv s v ∅ P -> Z.of_nat (size P) < NBUF -> bn ∈ P -> a ∉ P ->
  exists to s1 from s2 s3 s4 s5 s6, bread ROOTDEV a s = Ret to s1 /\ bread ROOTDEV bn s1 = Ret from s2 /\
    copy_block to from s2 = Ret tt s3 /\ bwrite to s3 = Ret tt s4 /\ brelse from s4 = Ret tt s5 /\ brelse to s5 = Ret tt s6 /\
    bio_inv s6 (upd v a (v bn)) ∅ P /\ (forall n, bs_disk s6 n = upd (bs_disk s) a (v bn) n) /\
    bs_writes s6 = bs_writes s ++ [(a, v bn)].
Proof.
  intros Hi Hsz HP Ha. assert (a <> bn) as Hne by (intros ->; done).
  destruct (bread_ok s v ∅ P a Hi) as (to & s1 & E1 & I1 & B1 & _ & _ & D1 & W1); [set_solver|right; by rewrite union_empty_l_L|].
  destruct (bread_ok s1 v _ P bn I1) as (from & s2 & E2 & I2 & B2 & _ & K2 & D2 & W2); [set_solver|by left|].
  apply (kept_isbuf _ _ _ to a K2) in B1; [|set_solver].
  destruct (copy_block_ok s2 v _ P to from a bn I2 B1 B2 (in_add2 _ _ _) (in_add _ _)) as (s3 & E3 & I3 & B3 & B3' & D3 & W3).
  destruct (bwrite_ok s3 _ _ P to a I3 B3 (in_add2 _ _ _)) as (s4 & E4 & I4 & B4 & K4 & D4 & W4). rewrite upd_eq in D4, W4.
  apply (kept_isbuf _ _ _ from bn K4) in B3'; [|set_solver].
  destruct (brelse_ok s4 _ _ P from bn I4 B3' (in_add _ _)) as (s5 & E5 & I5 & K5 & D5 & W5); [done|].
  apply (kept_isbuf _ _ _ to a K5) in B4; [|set_solver].
  destruct (brelse_ok s5 _ _ P to a I5 B4) as (s6 & E6 & I6 & _ & D6 & W6); [set_solver| |].
  { intros _. by rewrite D5, D4, !upd_eq. }
  rewrite two_released' in I6 by done.
  exists to, s1, from, s2, s3, s4, s5, s6. split_and!; try done.
  - intros n. by rewrite D6, D5, D4, D3, D2, D1.
  - by rewrite W6, W5, W4, W3, W2, W1.
Qed.

(** What install_trans does with one block: log block [a] goes home to [bn],
    which is unpinned unless this is recovery. *)
Lemma install_one s v P a bn (recovering : bool) :
  bio_inv s v ∅ P -> Z.of_nat (size P) < NBUF - 1 \/ (Z.of_nat (size P) < NBUF /\ bn ∈ P) ->
  (recovering = false -> bn ∈ P) -> a ∉ P -> a <> bn ->
  exists lb s1 db s2 s3 s4 s5 s6 s7, bread ROOTDEV a s = Ret lb s1 /\ bread ROOTDEV bn s1 = Ret db s2 /\
    copy_block db lb s2 = Ret tt s3 /\ bwrite db s3 = Ret tt s4 /\
    (if recovering then s5 = s4 else bunpin db s4 = Ret tt s5) /\
    brelse lb s5 = Ret tt s6 /\ brelse db s6 = Ret tt s7 /\
    bio_inv s7 (upd v bn (v a)) ∅ (if recovering then P else P ∖ {[bn]}) /\
    (forall n, bs_disk s7 n = upd (bs_disk s) bn (v a) n) /\ bs_writes s7 = bs_writes s ++ [(bn, v a)].
Proof.
  intros Hi Hsz Hrec Ha Hne.
  destruct (bread_ok s v ∅ P a Hi) as (lb & s1 & E1 & I1 & B1 & _ & _ & D1 & W1);
    [set_solver|right; rewrite union_empty_l_L; lia|].
  destruct (bread_ok s1 v _ P bn I1) as (db & s2 & E2 & I2 & B2 & _ & K2 & D2 & W2); [set_solver| |].
  { pose proof (size_lock1 a P). destruct Hsz as [?|[_ ?]]; [right; lia|by left]. }
  apply (kept_isbuf _ _ _ lb a K2) in B1; [|set_solver].
  destruct (copy_block_ok s2 v _ P db lb bn a I2 B2 B1 (in_add _ _) (in_add2 _ _ _)) as (s3 & E3 & I3 & B3 & B3' & D3 & W3).
  destruct (bwrite_ok s3 _ _ P db bn I3 B3 (in_add _ _)) as (s4 & E4 & I4 & B4 & K4 & D4 & W4). rewrite upd_eq in D4, W4.
  apply (kept_isbuf _ _ _ lb a K4) in B3'; [|set_solver].
  set (P' := if recovering then P else P ∖ {[bn]}).
  assert (exists s5, (if recovering then s5 = s4 else bunpin db s4 = Ret tt s5) /\
    bio_inv s5 (upd v bn (v a)) ({[bn]} ∪ ({[a]} ∪ ∅)) P' /\ isbuf s5 db bn /\ isbuf s5 lb a /\
    bs_disk s5 = bs_disk s4 /\ bs_writes s5 = bs_writes s4) as (s5 & E5 & I5 & B5 & B5' & D5 & W5).
  { destruct recovering; [by exists s4|].
    destruct (bunpin_ok s4 _ _ P db bn I4 B4 (in_add _ _) (Hrec eq_refl)) as (s5 & E5 & I5 & B5 & K5 & D5 & W5).
    exists s5. split_and!; try done. apply (kept_isbuf _ _ _ lb a K5); [set_solver|done]. }
  destruct (brelse_ok s5 _ _ P' lb a I5 B5' (in_add2 _ _ _)) as (s6 & E6 & I6 & K6 & D6 & W6).
  { intros _. rewrite D5, D4, !upd_ne, D3, D2, D1 by done. apply (bi_disk _ _ _ _ Hi). set_solver. }
  apply (kept_isbuf _ _ _ db bn K6) in B5; [|set_solver].
  destruct (brelse_ok s6 _ _ P' db bn I6 B5) as (s7 & E7 & I7 & _ & D7 & W7); [set_solver| |].
  { intros _. by rewrite D6, D5, D4, !upd_eq. }
  rewrite two_released in I7 by done.
  exists lb, s1, db, s2, s3, s4, s5, s6, s7. split_and!; try done.
  - intros n. by rewrite D7, D6, D5, D4, D3, D2, D1.
  - by rewrite W7, W6, W5, W4, W3, W2, W1.
Qed.

(** ** The log area of a disk *)

Section layout.
Context (start size : Z) (Hstart : 0 <= start) (Hsize : 0 < size) (Hend : start + size < 2 ^ 31).

Definition inlog (n : Z) : Prop := start <= n < start + size.
Definition home (n : Z) : Prop := 0 <= n < 2 ^ 31 /\ ~ inlog n.

(** The log in memory holds the transaction [blks]. *)
Record has_log (l : log) (blks : list Z) : Prop := {
  hl_dev : lg_dev l = ROOTDEV;
  hl_start : lg_start l = start;
  hl_size : lg_size l = size;
  hl_n : lg_n l = Z.of_nat (length blks);
  hl_len : length (lg_block l) = 30%nat;
  hl_blocks : forall i n, blks !! i = Some n -> znth (lg_block l) (Z.of_nat i) = Some n;
  hl_nodup : NoDup blks;
  hl_home : Forall home blks;
  hl_fit : Z.of_nat (length blks) <= 30 /\ Z.of_nat (length blks) + 1 <= size
}.

Lemma has_log_u32 l blks1 n blks2 :
  has_log l (blks1 ++ n :: blks2) ->
  u32 (lg_start l + Z.of_nat (length blks1) + 1) = start + 1 + Z.of_nat (length blks1) /\ u32 n = n /\
  znth (lg_block l) (Z.of_nat (length blks1)) = Some n /\ Z.of_nat (length blks1) < lg_n l /\
  inlog (start + 1 + Z.of_nat (length blks1)).
Proof using Hstart Hsize Hend.
  intros []. rewrite length_app in *. cbn [length] in *. unfold inlog.
  assert (home n) as [Hn _] by (eapply Forall_lookup_1; [exact hl_home0|by apply list_lookup_middle]).
  split_and!; [rewrite hl_start0, u32_small; lia|apply u32_small; lia| |lia|lia|lia].
  apply hl_blocks0. by apply list_lookup_middle.
Qed.

Lemma home_not_log blks n m : Forall home blks -> n ∈ blks -> inlog m -> n <> m.
Proof. intros H Hn Hm ->. rewrite Forall_forall in H. by apply (H _ Hn). Qed.

Lemma write_loop_ok blks2 blks1 s v P :
  has_log (ls_log s) (blks1 ++ blks2) -> bio_inv (ls_b s) v ∅ P -> Z.of_nat (base.size P) < NBUF ->
  (forall n, n ∈ P <-> n ∈ blks1 ++ blks2) ->
  let ws := log_writes v (start + 1 + Z.of_nat (length blks1)) blks2 in
  exists b, write_loop (S (length blks2)) (Z.of_nat (length blks1)) s = Ret tt (mkLst b (ls_log s)) /\
    bio_inv b (apply_writes v ws) ∅ P /\ (forall n, bs_disk b n = apply_writes (bs_disk (ls_b s)) ws n) /\
    bs_writes b = bs_writes (ls_b s) ++ ws.
Proof using Hstart Hsize Hend.
  revert blks1 s v. induction blks2 as [|bn blks2 IH]; intros blks1 s v Hl Hi Hsz HP ws.
  - exists (ls_b s). split_and!; [|done|done|by rewrite app_nil_r]. cbn [write_loop length]. rewrite bind_gets.
    rewrite (hl_n _ _ Hl), app_nil_r. zb. by destruct s.
  - destruct (has_log_u32 _ _ _ _ Hl) as (U1 & U2 & Hz & Hlt & Hin). set (a := start + 1 + _) in *.
    assert (bn ∈ P) as HbP by (apply HP, elem_of_app; right; by constructor).
    assert (a ∉ P) as HaP.
    { rewrite HP. intros H. by apply (home_not_log _ a a (hl_home _ _ Hl) H Hin). }
    destruct (log_one _ v P a bn Hi Hsz HbP HaP) as (to & s1 & from & s2 & s3 & s4 & s5 & s6 & E1 & E2 & E3 & E4 & E5 & E6 & I6 & D6 & W6).
    destruct (IH (blks1 ++ [bn]) (mkLst s6 (ls_log s)) (upd v a (v bn))) as (b & E & Ib & Db & Wb).
    + by rewrite <- app_assoc.
    + done.
    + done.
    + by rewrite <- app_assoc.
    + rewrite length_app in E, Ib, Db, Wb. cbn [length] in E, Ib, Db, Wb.
      replace (start + 1 + Z.of_nat (length blks1 + 1)) with (a + 1) in Ib, Db, Wb by lia.
      assert (log_writes (upd v a (v bn)) (a + 1) blks2 = log_writes v (a + 1) blks2) as Ew.
      { apply log_writes_ext. intros m Hm. apply upd_ne. eapply home_not_log; [exact (hl_home _ _ Hl)| |exact Hin].
        apply elem_of_app. right. by constructor. }
      rewrite Ew in Ib, Db, Wb. exists b. split_and!.
      * cbn [write_loop length]. rewrite bind_gets. zb. cbn [negb]. rewrite (hl_dev _ _ Hl), U1. lstep E1. rewrite Hz, U2.
        lstep E2. lstep E3. lstep E4. lstep E5. lstep E6. replace (Z.of_nat (length blks1) + 1) with (Z.of_nat (length blks1 + 1)) by lia.
        exact E.
      * exact Ib.
      * intros n. rewrite Db. unfold ws. cbn [log_writes apply_writes]. apply apply_writes_ext, D6.
      * rewrite Wb. cbn [ls_b]. rewrite W6. unfold ws. cbn [log_writes]. by rewrite <- app_assoc.
Qed.

Lemma install_loop_ok (recovering : bool) blks2 blks1 s v P :
  has_log (ls_log s) (blks1 ++ blks2) -> bio_inv (ls_b s) v ∅ P ->
  Z.of_nat (base.size P) < NBUF -> (if recovering then P = ∅ else forall n, n ∈ P <-> n ∈ blks2) ->
  let ws := home_writes v (start + 1 + Z.of_nat (length blks1)) blks2 in
  exists b, install_loop (S (length blks2)) (Z.of_nat (length blks1)) recovering s = Ret tt (mkLst b (ls_log s)) /\
    bio_inv b (apply_writes v ws) ∅ ∅ /\ (forall n, bs_disk b n = apply_writes (bs_disk (ls_b s)) ws n) /\
    bs_writes b = bs_writes (ls_b s) ++ ws.
Proof using Hstart Hsize Hend.
  revert blks1 s v P. induction blks2 as [|bn blks2 IH]; intros blks1 s v P Hl Hi Hsz HP ws.
  - assert (P = ∅) as -> by (destruct recovering; [done|]; apply set_eq; intros n; rewrite HP; set_solver).
    exists (ls_b s). split_and!; [|done|done|by rewrite app_nil_r]. cbn [install_loop length]. rewrite bind_gets.
    rewrite (hl_n _ _ Hl), app_nil_r. zb. by destruct s.
  - destruct (has_log_u32 _ _ _ _ Hl) as (U1 & U2 & Hz & Hlt & Hin). set (a := start + 1 + _) in *.
    assert (a <> bn) as Hne.
    { intros E. symmetry in E. revert E. eapply home_not_log; [exact (hl_home _ _ Hl)| |exact Hin]. apply elem_of_app. right. by constructor. }
    assert (a ∉ P) as HaP.
    { destruct recovering; [subst P; apply not_elem_of_empty|]. rewrite HP. intros H.
      apply (home_not_log _ a a (hl_home _ _ Hl)); [|done|done]. apply elem_of_app. by right. }
    destruct (install_one _ v P a bn recovering Hi) as
      (lb & s1 & db & s2 & s3 & s4 & s5 & s6 & s7 & E1 & E2 & E3 & E4 & E5 & E6 & E7 & I7 & D7 & W7); [| |done|done|].
    { destruct recovering; [left; subst P; rewrite size_empty; unfold NBUF, MAXOPBLOCKS; lia|right].
      split; [done|]. apply HP. by constructor. }
    { intros ->. apply HP. by constructor. }
    set (P' := if recovering then P else P ∖ {[bn]}) in I7.
    destruct (IH (blks1 ++ [bn]) (mkLst s7 (ls_log s)) (upd v bn (v a)) P') as (b & E & Ib & Db & Wb).
    + by rewrite <- app_assoc.
    + done.
    + unfold P'. destruct recovering; [done|]. pose proof (subseteq_size (P ∖ {[bn]}) P ltac:(set_solver)). lia.
    + unfold P'. destruct recovering; [done|]. intros n. rewrite elem_of_difference, HP, elem_of_singleton, elem_of_cons.
      pose proof (hl_nodup _ _ Hl) as Hd. apply NoDup_app in Hd as (_ & _ & Hd). apply NoDup_cons in Hd as [Hd _].
      destruct (decide (n = bn)); naive_solver.
    + rewrite length_app in E, Ib, Db, Wb. cbn [length] in E, Ib, Db, Wb.
      replace (start + 1 + Z.of_nat (length blks1 + 1)) with (a + 1) in Ib, Db, Wb by lia.
      assert (home_writes (upd v bn (v a)) (a + 1) blks2 = home_writes v (a + 1) blks2) as Ew.
      { apply home_writes_ext. intros m Hm. apply upd_ne. intros ->. pose proof (hl_fit _ _ Hl) as [_ Hf].
        rewrite length_app in Hf. cbn [length] in Hf.
        apply (home_not_log _ bn bn (hl_home _ _ Hl)); [apply elem_of_app; right; by constructor| |done].
        unfold inlog, a in *. lia. }
      rewrite Ew in Ib, Db, Wb. exists b. split_and!.
      * cbn [install_loop length]. rewrite bind_gets. zb. cbn [negb]. rewrite (hl_dev _ _ Hl), U1. lstep E1. rewrite Hz, U2.
        lstep E2. lstep E3. lstep E4.
        assert (forall k : unit -> M lst unit, bind (when (negb recovering) (lift (bunpin db))) k (mkLst s4 (ls_log s))
          = k tt (mkLst s5 (ls_log s))) as Eu.
        { intros k. destruct recovering; cbn [negb when]; [by subst s5|]. by lstep E5. }
        cbn [ls_log]. rewrite Eu. lstep E6. lstep E7. cbn [ls_log].
        replace (Z.of_nat (length blks1) + 1) with (Z.of_nat (length blks1 + 1)) by lia. exact E.
      * exact Ib.
      * intros n. rewrite Db. unfold ws. cbn [home_writes apply_writes]. apply apply_writes_ext, D7.
      * rewrite Wb. cbn [ls_b]. rewrite W7. unfold ws. cbn [home_writes]. by rewrite <- app_assoc.
Qed.

(** ** Header, commit, recovery *)

(** The block [h] is the header of the transaction [blks]. *)
Definition header_ok (h : block) (blks : list Z) : Prop :=
  hdr_n h = Z.of_nat (length blks) /\ forall i n, blks !! i = Some n -> hdr_block h (Z.of_nat i) = n.

Lemma lone_released (x : Z) : ({[x]} ∪ ∅ : gset Z) ∖ {[x]} = ∅.
Proof. set_solver. Qed.

Lemma write_head_ok s v P blks :
  has_log (ls_log s) blks -> bio_inv (ls_b s) v ∅ P -> Z.of_nat (base.size P) < NBUF ->
  exists b h, write_head s = Ret tt (mkLst b (ls_log s)) /\ bio_inv b (upd v start h) ∅ P /\ header_ok h blks /\
    (forall n, bs_disk b n = upd (bs_disk (ls_b s)) start h n) /\ bs_writes b = bs_writes (ls_b s) ++ [(start, h)].
Proof using Hstart Hsize Hend.
  intros Hl Hi Hsz. destruct (bread_ok _ v ∅ P start Hi) as (hb & s1 & E1 & I1 & B1 & Hd1 & _ & D1 & W1);
    [set_solver|right; by rewrite union_empty_l_L|].
  pose proof (hl_fit _ _ Hl) as Hf.
  destruct (write_blocks_ok (length blks) 0 (lg_block (ls_log s)) (st32 (v start) 0 (lg_n (ls_log s))))
    as (h & Eh & H1 & H2); [lia|rewrite (hl_len _ _ Hl); lia|].
  destruct (set_data_ok s1 v _ P hb start h I1 B1 (in_add _ _)) as (s2 & E2 & I2 & B2 & _ & D2 & W2).
  destruct (bwrite_ok s2 _ _ P hb start I2 B2 (in_add _ _)) as (s3 & E3 & I3 & B3 & _ & D3 & W3). rewrite upd_eq in D3, W3.
  destruct (brelse_ok s3 _ _ P hb start I3 B3 (in_add _ _)) as (s4 & E4 & I4 & _ & D4 & W4).
  { intros _. by rewrite D3, !upd_eq. }
  rewrite lone_released in I4. exists s4, h. split_and!.
  - unfold write_head. rewrite bind_gets, (hl_dev _ _ Hl), (hl_start _ _ Hl), u32_small by lia.
    lstep E1. erewrite bind_Ret by (apply llift; reflexivity). cbn [ls_b]. rewrite Hd1.
    rewrite (hl_n _ _ Hl), Nat2Z.id in *. rewrite Eh. lstep E2. lstep E3. erewrite llift by exact E4. reflexivity.
  - done.
  - split.
    + unfold hdr_n. rewrite H1, ldn_stn_eq, (hl_n _ _ Hl) by lia. change (2 ^ (8 * Z.of_nat 4)) with (2 ^ 32). dlia.
    + intros i n Hin. pose proof (lookup_lt_Some _ _ _ Hin). apply H2; [lia|by apply (hl_blocks _ _ Hl)|].
      pose proof (Forall_lookup_1 _ _ _ _ (hl_home _ _ Hl) Hin) as [? _]. lia.
  - intros n. by rewrite D4, D3, D2, D1.
  - by rewrite W4, W3, W2, W1.
Qed.

(** The whole of commit's writes; [h] and [h0] are the two headers. *)
Definition commit_writes (v : Z -> block) (blks : list Z) (h h0 : block) : list (Z * block) :=
  log_writes v (start + 1) blks ++ (start, h) :: home_writes (apply_writes v (log_writes v (start + 1) blks)) (start + 1) blks
    ++ [(start, h0)].

Lemma has_log_set_n0 l blks : has_log l blks -> has_log (set_n 0 l) [].
Proof. intros []. split; try done; [constructor|]. split; cbn; lia. Qed.

Lemma has_log_start blks l : has_log l blks -> start ∉ blks /\ (forall n, n ∈ blks -> home n).
Proof using Hsize.
  intros Hl. pose proof (hl_home _ _ Hl) as H. rewrite Forall_forall in H. split; [|done].
  intros Hs. destruct (H _ Hs) as [_ Hn]. apply Hn. unfold inlog. lia.
Qed.

Lemma commit_ok s v P blks :
  has_log (ls_log s) blks -> blks <> [] -> bio_inv (ls_b s) v ∅ P -> Z.of_nat (length blks) < NBUF ->
  P = list_to_set blks ->
  exists b h h0, commit s = Ret tt (mkLst b (set_n 0 (ls_log s))) /\ header_ok h blks /\ header_ok h0 [] /\
    let ws := commit_writes v blks h h0 in
    bio_inv b (apply_writes v ws) ∅ ∅ /\ (forall n, bs_disk b n = apply_writes (bs_disk (ls_b s)) ws n) /\
    bs_writes b = bs_writes (ls_b s) ++ ws.
Proof using Hstart Hsize Hend.
  intros Hl Hne Hi Hlen ->. pose proof (hl_nodup _ _ Hl) as Hnd.
  assert (base.size (list_to_set blks : gset Z) = length blks) as Hsz by (by apply size_list_to_set).
  assert (forall n, n ∈ (list_to_set blks : gset Z) <-> n ∈ blks) as HP by (intros; apply elem_of_list_to_set).
  destruct (write_loop_ok blks [] s v (list_to_set blks)) as (b1 & E1 & I1 & D1 & W1); [done|done|lia|done|].
  cbn [length] in *. rewrite Z.add_0_r in *. set (ws1 := log_writes v (start + 1) blks) in *.
  destruct (write_head_ok (mkLst b1 (ls_log s)) _ _ blks Hl I1 ltac:(lia)) as (b2 & h & E2 & I2 & Hh & D2 & W2).
  destruct (install_loop_ok false blks [] (mkLst b2 (ls_log s)) _ _ Hl I2 ltac:(lia) HP) as (b3 & E3 & I3 & D3 & W3).
  cbn [length] in *. rewrite Z.add_0_r in *. set (v1 := apply_writes v ws1) in *.
  assert (home_writes (upd v1 start h) (start + 1) blks = home_writes v1 (start + 1) blks) as Ew.
  { apply home_writes_ext. intros n Hn. apply upd_ne. lia. }
  rewrite Ew in I3, D3, W3.
  destruct (write_head_ok (mkLst b3 (set_n 0 (ls_log s))) _ _ [] (has_log_set_n0 _ _ Hl) I3) as (b4 & h0 & E4 & I4 & Hh0 & D4 & W4).
  { rewrite size_empty. unfold NBUF, MAXOPBLOCKS. lia. }
  assert (0 < lg_n (ls_log s)) as Hn0 by (rewrite (hl_n _ _ Hl); destruct blks; [done|cbn; lia]).
  exists b4, h, h0. split; [|split; [exact Hh|split; [exact Hh0|cbn zeta; split_and!]]].
  - unfold commit. rewrite bind_gets. zb. cbn [when]. unfold write_log, install_trans.
    rewrite bind_assoc, bind_gets, (hl_n _ _ Hl), Nat2Z.id. change (Z.of_nat 0) with 0 in E1, E3.
    rewrite (bind_Ret _ _ _ _ _ E1), (bind_Ret _ _ _ _ _ E2), bind_assoc, bind_gets. cbn [ls_log].
    rewrite (hl_n _ _ Hl), Nat2Z.id, (bind_Ret _ _ _ _ _ E3).
    rewrite (bind_Ret _ _ _ _ _ (eq_refl : modlog _ _ = _)). exact E4.
  - unfold commit_writes. fold ws1. fold v1. rewrite apply_writes_app. fold v1. cbn [apply_writes].
    rewrite apply_writes_app. exact I4.
  - intros n. unfold commit_writes. fold ws1. fold v1. rewrite D4. cbn [ls_b].
    rewrite apply_writes_app. cbn [apply_writes]. rewrite apply_writes_app. cbn [apply_writes].
    unfold upd at 1 2. destruct (n =? start); [done|]. rewrite D3. apply apply_writes_ext.
    cbn [ls_b]. rewrite D2. cbn [ls_b]. unfold upd. by rewrite D1.
  - rewrite W4. cbn [ls_b]. rewrite W3. cbn [ls_b]. rewrite W2. cbn [ls_b]. rewrite W1. unfold commit_writes.
    fold ws1. fold v1. by rewrite <- !app_assoc.
Qed.

(** A transaction that can be on the disk. *)
Record txn_ok (blks : list Z) : Prop := {
  tk_nodup : NoDup blks;
  tk_home : Forall home blks;
  tk_fit : Z.of_nat (length blks) <= 30 /\ Z.of_nat (length blks) + 1 <= size
}.

Lemma txn_ok_nil : txn_ok [].
Proof using Hsize. split; [constructor|constructor|cbn; lia]. Qed.

Lemma read_head_ok s v blks :
  lg_dev (ls_log s) = ROOTDEV -> lg_start (ls_log s) = start -> lg_size (ls_log s) = size ->
  length (lg_block (ls_log s)) = 30%nat -> bio_inv (ls_b s) v ∅ ∅ -> header_ok (v start) blks -> txn_ok blks ->
  exists b l, read_head s = Ret tt (mkLst b l) /\ has_log l blks /\ bio_inv b v ∅ ∅ /\
    bs_disk b = bs_disk (ls_b s) /\ bs_writes b = bs_writes (ls_b s) /\ lg_outstanding l = lg_outstanding (ls_log s) /\
    lg_committing l = lg_committing (ls_log s).
Proof using Hstart Hsize Hend.
  intros Hdev Hst Hsz Hlen Hi [Hn Hb] [Tn Th Tf].
  destruct (bread_ok _ v ∅ ∅ start Hi) as (hb & s1 & E1 & I1 & B1 & Hd1 & _ & D1 & W1); [set_solver|by right|].
  destruct (brelse_ok s1 _ _ ∅ hb start I1 B1 (in_add _ _)) as (s2 & E2 & I2 & _ & D2 & W2).
  { intros _. rewrite D1. apply (bi_disk _ _ _ _ Hi). set_solver. }
  rewrite lone_released in I2.
  destruct (read_blocks_ok (length blks) 0 (v start) (lg_block (ls_log s))) as (bs & Er & Hl & _ & Hz); [lia|lia|].
  exists s2, (set_blocks bs (set_n (Z.of_nat (length blks)) (ls_log s))).
  split; [|split; [|by split_and!; [done|congruence|congruence|..]]].
  - unfold read_head. rewrite bind_gets, Hdev, Hst, u32_small by lia. lstep E1.
    erewrite bind_Ret by (apply llift; reflexivity). cbn [ls_b]. rewrite Hd1, Hn, Nat2Z.id.
    rewrite (bind_Ret _ _ _ _ _ (eq_refl : modlog _ _ = _)), Er.
    rewrite (bind_Ret _ _ _ _ _ (eq_refl : modlog _ _ = _)). erewrite llift by exact E2. reflexivity.
  - split; cbn; try done; [congruence|]. intros i n Hin. rewrite Hz; [by rewrite (Hb i n Hin)|].
    apply lookup_lt_Some in Hin. lia.
Qed.

(** What recovery writes to a disk whose header is that of [blks]. *)
Definition recovery_writes (d : Z -> block) (blks : list Z) (h0 : block) : list (Z * block) :=
  home_writes d (start + 1) blks ++ [(start, h0)].

Lemma recover_from_log_ok s v blks :
  lg_dev (ls_log s) = ROOTDEV -> lg_start (ls_log s) = start -> lg_size (ls_log s) = size ->
  length (lg_block (ls_log s)) = 30%nat -> bio_inv (ls_b s) v ∅ ∅ -> header_ok (v start) blks -> txn_ok blks ->
  exists b l h0, recover_from_log s = Ret tt (mkLst b l) /\ header_ok h0 [] /\ has_log l [] /\
    bio_inv b (apply_writes v (recovery_writes v blks h0)) ∅ ∅ /\
    (forall n, bs_disk b n = apply_writes (bs_disk (ls_b s)) (recovery_writes v blks h0) n) /\
    bs_writes b = bs_writes (ls_b s) ++ recovery_writes v blks h0 /\
    lg_outstanding l = lg_outstanding (ls_log s) /\ lg_committing l = lg_committing (ls_log s).
Proof using Hstart Hsize Hend.
  intros Hdev Hst Hsz Hlen Hi Hh Ht.
  destruct (read_head_ok s v blks Hdev Hst Hsz Hlen Hi Hh Ht) as (b1 & l & E1 & Hl & I1 & D1 & W1 & O1 & C1).
  destruct (install_loop_ok true blks [] (mkLst b1 l) v ∅ Hl I1) as (b2 & E2 & I2 & D2 & W2);
    [rewrite size_empty; unfold NBUF, MAXOPBLOCKS; lia|done|].
  destruct (write_head_ok (mkLst b2 (set_n 0 l)) _ _ [] (has_log_set_n0 _ _ Hl) I2) as (b3 & h0 & E3 & I3 & Hh0 & D3 & W3).
  { rewrite size_empty. unfold NBUF, MAXOPBLOCKS. lia. }
  cbn [length] in *. rewrite Z.add_0_r in *. change (Z.of_nat 0) with 0 in E2.
  exists b3, (set_n 0 l), h0. split; [|split; [exact Hh0|split; [by eapply has_log_set_n0|split_and!; [..|done|done]]]].
  - unfold recover_from_log. rewrite (bind_Ret _ _ _ _ _ E1). unfold install_trans. rewrite bind_assoc, bind_gets.
    cbn [ls_log]. rewrite (hl_n _ _ Hl), Nat2Z.id, (bind_Ret _ _ _ _ _ E2).
    rewrite (bind_Ret _ _ _ _ _ (eq_refl : modlog _ _ = _)). exact E3.
  - unfold recovery_writes. rewrite apply_writes_app. exact I3.
  - intros n. unfold recovery_writes. rewrite D3, apply_writes_app. cbn [apply_writes ls_b]. unfold upd.
    destruct (n =? start); [done|]. rewrite D2. cbn [ls_b]. by rewrite D1.
  - rewrite W3. cbn [ls_b]. rewrite W2. cbn [ls_b]. rewrite W1. unfold recovery_writes. by rewrite <- app_assoc.
Qed.

(** ** Booting on a disk *)

(** The log as the kernel's zeroed data has it, and a boot: binit(), then
    fsinit()'s call of initlog(). *)
Definition boot_log : log := mkLog 0 0 0 0 0 0 (replicate 30 0).
Definition reboot (d : Z -> block) : outcome lst unit :=
  (lift binit ;;; initlog ROOTDEV start size) (mkLst (cold_cache d) boot_log).

(** The log between transactions, on a disk with contents [d]. *)
Record log_idle (s : lst) (d : Z -> block) : Prop := {
  li_bio : bio_inv (ls_b s) d ∅ ∅;
  li_log : has_log (ls_log s) [];
  li_header : header_ok (d start) [];
  li_outstanding : lg_outstanding (ls_log s) = 0;
  li_committing : lg_committing (ls_log s) = 0
}.

Lemma reboot_ok d blks :
  header_ok (d start) blks -> txn_ok blks ->
  exists s h0, reboot d = Ret tt s /\ header_ok h0 [] /\
    log_idle s (apply_writes d (recovery_writes d blks h0)) /\ bs_writes (ls_b s) = recovery_writes d blks h0.
Proof using Hstart Hsize Hend.
  intros Hh Ht. destruct (binit_ok (cold_cache d)) as (b1 & E1 & I1 & D1 & W1 & _); [done|done|]. cbn [bs_disk cold_cache] in *.
  set (l1 := mkLog (s32 start) (s32 size) 0 0 ROOTDEV 0 (replicate 30 0)).
  destruct (recover_from_log_ok (mkLst b1 l1) d blks) as (b & l & h0 & E & Hh0 & Hl & Ib & Db & Wb & O & C);
    [done|apply s32_small; lia|apply s32_small; lia|done|done|done|done|].
  exists (mkLst b l), h0. split; [|split; [exact Hh0|split]].
  - unfold reboot. erewrite bind_Ret by (apply llift; exact E1). unfold initlog.
    change (BSIZE <=? 4 + 4 * LOGSIZE) with false. cbn iota.
    rewrite (bind_Ret _ _ _ _ _ (eq_refl : modlog _ _ = _)). exact E.
  - split; [exact Ib|exact Hl| |exact O|exact C]. unfold recovery_writes. rewrite apply_writes_app. cbn. by rewrite upd_eq.
  - cbn [ls_b]. rewrite Wb. cbn [ls_b]. by rewrite W1.
Qed.

(** ** Crashes *)

(** Equal outside the log area. *)
Definition agrees (d d' : Z -> block) : Prop := forall n, ~ inlog n -> d n = d' n.

Lemma agrees_refl d : agrees d d.
Proof. by intros n. Qed.

(** Recovery of the disk [d] yields [e]. *)
Definition recoverable (d e : Z -> block) (blks : list Z) : Prop :=
  header_ok (d start) blks /\ txn_ok blks /\ agrees (apply_writes d (home_writes d (start + 1) blks)) e.

Lemma apply_writes_in d d' ws m : m ∈ ws.*1 -> apply_writes d ws m = apply_writes d' ws m.
Proof.
  revert d d'. induction ws as [|[n b] ws IH]; intros d d'; cbn; [by intros ?%elem_of_nil|].
  destruct (decide (m ∈ ws.*1)) as [H|H]; intros Hm; [by apply IH|].
  apply elem_of_cons in Hm as [->|Hm]; [|done]. by rewrite !apply_writes_out, !upd_eq by done.
Qed.

Lemma take_fst (ws : list (Z * block)) k m : m ∈ (take k ws).*1 -> m ∈ ws.*1.
Proof.
  intros (x & -> & H)%list_elem_of_fmap. apply list_elem_of_fmap. exists x. split; [done|].
  apply elem_of_take in H as (i & H & _). by eapply list_elem_of_lookup_2.
Qed.

(** Doing a sequence of writes again after a part of it changes nothing. *)
Lemma apply_writes_redo d ws k m : apply_writes (apply_writes d (take k ws)) ws m = apply_writes d ws m.
Proof.
  destruct (decide (m ∈ ws.*1)) as [H|H]; [by apply apply_writes_in|].
  rewrite !apply_writes_out; [done|done| |done]. intros H'. by apply H, (take_fst ws k).
Qed.

Lemma home_writes_out d a blks n : Forall home blks -> inlog n -> n ∉ (home_writes d a blks).*1.
Proof. intros H Hn. rewrite home_writes_fst. intros Hi. rewrite Forall_forall in H. by apply (H _ Hi). Qed.

Lemma recoverable_reboot d e blks :
  recoverable d e blks -> exists s h0, reboot d = Ret tt s /\ header_ok h0 [] /\
    bs_writes (ls_b s) = recovery_writes d blks h0 /\ (exists c, log_idle s c /\ agrees c e).
Proof using Hstart Hsize Hend.
  intros (Hh & Ht & Ha). destruct (reboot_ok d blks Hh Ht) as (s & h0 & E & Hh0 & Hi & Hw).
  exists s, h0. split; [exact E|]. split; [exact Hh0|]. split; [exact Hw|]. eexists. split; [exact Hi|].
  intros n Hn. unfold recovery_writes. rewrite apply_writes_app. cbn. rewrite upd_ne; [by apply Ha|].
  intros ->. apply Hn. unfold inlog. lia.
Qed.

(** A crash during recovery leaves a disk that recovers to the same. *)
Lemma recoverable_crash d e blks h0 k :
  recoverable d e blks -> header_ok h0 [] ->
  exists blks', recoverable (apply_writes d (take k (recovery_writes d blks h0))) e blks'.
Proof using Hstart Hsize Hend.
  intros (Hh & Ht & Ha) Hh0. pose proof Ht as [Tn Th Tf]. unfold recovery_writes.
  set (ws := home_writes d (start + 1) blks). assert (inlog start) as Hs by (unfold inlog; lia).
  destruct (decide (k <= length ws)%nat) as [Hk|Hk].
  - exists blks. rewrite take_app_le by done. set (d' := apply_writes d (take k ws)).
    assert (forall n, inlog n -> d' n = d n) as Hlog.
    { intros n Hn. apply apply_writes_out. intros H%take_fst. by apply (home_writes_out _ _ _ _ Th Hn) in H. }
    split; [by rewrite Hlog|]. split; [done|]. intros n Hn.
    rewrite (home_writes_ext d' d); [|intros m Hm; apply Hlog; unfold inlog; lia].
    unfold d'. rewrite apply_writes_redo. by apply Ha.
  - exists []. rewrite take_ge by (rewrite length_app; cbn; lia). split; [|split; [apply txn_ok_nil|]].
    + rewrite apply_writes_app. cbn. by rewrite upd_eq.
    + intros n Hn. cbn [home_writes apply_writes]. rewrite apply_writes_app. cbn.
      rewrite upd_ne by (intros ->; by apply Hn). by apply Ha.
Qed.

(** A reboot that is itself cut short by a crash. *)
Definition crash_reboot (d d' : Z -> block) : Prop :=
  exists s k, reboot d = Ret tt s /\ d' = apply_writes d (take k (bs_writes (ls_b s))).

Lemma recoverable_crashes d d' e blks :
  recoverable d e blks -> rtc crash_reboot d d' -> exists blks', recoverable d' e blks'.
Proof using Hstart Hsize Hend.
  intros H Hr. revert blks H. induction Hr as [d|d d1 d' (s & k & E & ->) Hr IH]; intros blks H; [by exists blks|].
  destruct (recoverable_reboot d e blks H) as (s' & h0 & E' & Hh0 & Hw & _).
  rewrite E in E'. injection E' as <-. rewrite Hw in IH.
  destruct (recoverable_crash d e blks h0 k H Hh0) as (blks1 & H1). by eapply IH.
Qed.

(** What commit leaves on the disk once the header is written. *)
Definition logged (d v : Z -> block) (blks : list Z) (h : block) : Z -> block :=
  upd (apply_writes d (log_writes v (start + 1) blks)) start h.
Definition installs (v : Z -> block) (blks : list Z) : list (Z * block) :=
  home_writes (apply_writes v (log_writes v (start + 1) blks)) (start + 1) blks.

Lemma commit_tail d v blks h h0 k :
  (length blks < k)%nat ->
  apply_writes d (take k (commit_writes v blks h h0)) =
  apply_writes (logged d v blks h) (take (k - S (length blks)) (installs v blks ++ [(start, h0)])).
Proof.
  intros Hk. unfold commit_writes, logged, installs. rewrite take_app_ge by (rewrite log_writes_length; lia).
  rewrite log_writes_length. destruct (k - length blks)%nat as [|j] eqn:Ej; [lia|]. cbn [take].
  replace (k - S (length blks))%nat with j by lia. by rewrite apply_writes_app.
Qed.

Lemma logged_at d v blks h i n :
  blks !! i = Some n -> logged d v blks h (start + 1 + Z.of_nat i) = v n /\
  apply_writes v (log_writes v (start + 1) blks) (start + 1 + Z.of_nat i) = v n.
Proof. intros Hi. unfold logged. rewrite upd_ne by lia. by rewrite !(log_writes_at _ _ _ _ _ n). Qed.

Lemma installed d v blks h n :
  txn_ok blks -> (forall n, n ∉ blks -> d n = v n) -> ~ inlog n -> apply_writes (logged d v blks h) (installs v blks) n = v n.
Proof using Hsize.
  intros [Tn Th Tf] Hv Hn. unfold installs. destruct (decide (n ∈ blks)) as [Hb|Hb].
  - apply list_elem_of_lookup in Hb as [i Hb]. rewrite (home_writes_at _ _ _ _ i n) by done. by apply (logged_at v v blks h).
  - rewrite apply_writes_out by (by rewrite home_writes_fst). unfold logged.
    rewrite upd_ne by (intros ->; apply Hn; unfold inlog; lia). rewrite apply_writes_out; [by apply Hv|].
    intros H%log_writes_fst. apply Hn. unfold inlog. lia.
Qed.

Lemma commit_done d v blks h h0 :
  txn_ok blks -> (forall n, n ∉ blks -> d n = v n) ->
  apply_writes d (commit_writes v blks h h0) start = h0 /\ agrees (apply_writes d (commit_writes v blks h h0)) v.
Proof using Hsize.
  intros Ht Hv. assert (apply_writes d (commit_writes v blks h h0) =
    upd (apply_writes (logged d v blks h) (installs v blks)) start h0) as ->.
  { unfold commit_writes, logged, installs. rewrite apply_writes_app. cbn [apply_writes]. by rewrite apply_writes_app. }
  split; [by rewrite upd_eq|]. intros n Hn. rewrite upd_ne by (intros ->; apply Hn; unfold inlog; lia). by apply installed.
Qed.

(** A crash anywhere in commit: before the header is written the disk recovers
    to what it was, afterwards to the transaction's contents. *)
Lemma commit_crash_before d v blks h h0 k :
  header_ok (d start) [] -> txn_ok blks -> (k <= length blks)%nat ->
  recoverable (apply_writes d (take k (commit_writes v blks h h0))) d [].
Proof using Hstart Hsize Hend.
  intros Hd [Tn Th Tf] Hk. unfold commit_writes. rewrite take_app_le by (rewrite log_writes_length; lia).
  assert (forall n, n ∈ (take k (log_writes v (start + 1) blks)).*1 -> inlog n /\ n <> start) as Hlog.
  { intros n H%take_fst%log_writes_fst. unfold inlog. lia. }
  split; [|split; [apply txn_ok_nil|intros n Hn; cbn]]; (rewrite apply_writes_out; [done|]); intros H; by apply Hlog in H as [? ?].
Qed.

Lemma commit_crash_after d v blks h h0 k :
  header_ok h blks -> header_ok h0 [] -> txn_ok blks -> (forall n, n ∉ blks -> d n = v n) -> (length blks < k)%nat ->
  exists blks', recoverable (apply_writes d (take k (commit_writes v blks h h0))) v blks'.
Proof using Hstart Hsize Hend.
  intros Hh Hh0 Ht Hv Hk. rewrite commit_tail by done. pose proof Ht as [Tn Th Tf]. set (j := (k - _)%nat).
  assert (forall n, inlog n -> n ∉ (installs v blks).*1) as Hlog by (intros n Hn; by apply home_writes_out).
  destruct (decide (j <= length (installs v blks))%nat) as [Hj|Hj].
  - rewrite take_app_le by done. set (dk := apply_writes _ _).
    assert (forall n, inlog n -> dk n = logged d v blks h n) as Hlg.
    { intros n Hn. apply apply_writes_out. intros H%take_fst. by apply (Hlog n Hn). }
    exists blks. split; [rewrite Hlg by (unfold inlog; lia); unfold logged; by rewrite upd_eq|]. split; [done|]. intros n Hn.
    assert (home_writes dk (start + 1) blks = installs v blks) as ->.
    { apply home_writes_ext'. intros i m Him. rewrite Hlg by (apply lookup_lt_Some in Him; unfold inlog; lia).
      by destruct (logged_at d v blks h i m Him) as [-> ->]. }
    unfold dk. rewrite apply_writes_redo. by apply installed.
  - rewrite take_ge by (rewrite length_app; cbn; lia). exists []. rewrite apply_writes_app. cbn [apply_writes].
    split; [by rewrite upd_eq|]. split; [apply txn_ok_nil|]. intros n Hn. cbn.
    rewrite upd_ne by (intros ->; apply Hn; unfold inlog; lia). by apply installed.
Qed.

Lemma has_log_txn l blks : has_log l blks -> txn_ok blks.
Proof. intros []. by split. Qed.

(** ** Transactions *)

(** A transaction is open: [d] is on the disk, [v] is what reads return. *)
Record in_txn (s : lst) (d v : Z -> block) (blks : list Z) : Prop := {
  it_bio : bio_inv (ls_b s) v ∅ (list_to_set blks);
  it_log : has_log (ls_log s) blks;
  it_disk : forall n, bs_disk (ls_b s) n = d n;
  it_outstanding : lg_outstanding (ls_log s) = 1;
  it_committing : lg_committing (ls_log s) = 0
}.

Lemma bio_set_lk s k v L P :
  bio_inv s v L P -> lk_held k = [] -> lk_sleep k = lk_sleep (bs_lk s) -> lk_pid k = lk_pid (bs_lk s) ->
  bio_inv (set_lk k s) v L P.
Proof. intros [H1 H2 H3 H4 H5 H6] Hh Hs Hp. split; try done. intros b Hb. cbn. rewrite Hs, Hp. by apply H4. Qed.

Lemma bpin_held b s s' h :
  L_bcache ∉ h -> lk_held (bs_lk s) = [] -> bpin b s = Ret tt s' ->
  bpin b (set_lk (set_lk_held h (bs_lk s)) s) = Ret tt (set_lk (set_lk_held h (bs_lk s')) s').
Proof.
  intros Hn Hh H. unfold bpin in *.
  erewrite bind_Ret in H by (apply blift, lk_acquire_ok; rewrite Hh; apply not_elem_of_nil).
  rewrite (bind_Ret _ _ _ _ _ (eq_refl : modbuf _ _ _ = _)) in H.
  erewrite (blift (release L_bcache)) in H by (apply (lk_release_ok _ []); [by cbn; rewrite Hh|apply not_elem_of_nil]).
  injection H as <-.
  erewrite bind_Ret by (apply blift, lk_acquire_ok; exact Hn).
  rewrite (bind_Ret _ _ _ _ _ (eq_refl : modbuf _ _ _ = _)).
  by erewrite (blift (release L_bcache)) by (apply (lk_release_ok _ h); [reflexivity|exact Hn]).
Qed.

Lemma find_slot_ok blks done l bn :
  has_log l (done ++ blks) -> home bn -> bn ∉ done ->
  exists i, find_slot (length blks) (Z.of_nat (length done)) (lg_block l) bn = Some (Z.of_nat i) /\
    ((done ++ blks) !! i = Some bn \/ (bn ∉ blks /\ i = length (done ++ blks))).
Proof using Hstart Hsize Hend.
  revert done. induction blks as [|n blks IH]; intros done Hl Hb Hd.
  - exists (length done). rewrite app_nil_r. split; [done|]. right. split; [apply not_elem_of_nil|done].
  - cbn [length find_slot]. destruct (has_log_u32 _ _ _ _ Hl) as (_ & Hu & -> & _). rewrite Hu.
    destruct (n =? bn) eqn:E.
    + apply Z.eqb_eq in E as ->. exists (length done). split; [done|]. left. by rewrite list_lookup_middle.
    + apply Z.eqb_neq in E. destruct (IH (done ++ [n])) as (i & E1 & E2);
        [by rewrite <- app_assoc|done|rewrite not_elem_of_app, list_elem_of_singleton; naive_solver|].
      rewrite length_app in E1. cbn [length] in E1. exists i. rewrite <- app_assoc in E2. cbn [app] in E2.
      split; [|destruct E2 as [E2|[E2 E3]]; [by left|right; rewrite not_elem_of_cons; naive_solver]].
      by replace (Z.of_nat (length done) + 1) with (Z.of_nat (length done + 1)) by lia.
Qed.

Lemma has_log_record l blks i bn bs :
  has_log l blks -> blks !! i = Some bn -> zset (lg_block l) (Z.of_nat i) bn = Some bs -> has_log (set_blocks bs l) blks.
Proof.
  intros [H1 H2 H3 H4 H5 H6 H7 H8 H9] Hi Hz. split; try done; cbn.
  - by rewrite (zset_length _ _ _ _ Hz).
  - intros j n Hj. destruct (decide (j = i)) as [->|Hne].
    + rewrite Hi in Hj. injection Hj as ->. by rewrite (znth_zset_eq _ _ _ _ Hz).
    + rewrite (znth_zset_ne (lg_block l) bs (Z.of_nat i) (Z.of_nat j) bn) by (done || lia). by apply H6.
Qed.

Lemma has_log_append l blks bn bs :
  has_log l blks -> home bn -> bn ∉ blks -> Z.of_nat (length blks) < 30 -> Z.of_nat (length blks) < size - 1 ->
  zset (lg_block l) (Z.of_nat (length blks)) bn = Some bs -> has_log (set_n (lg_n l + 1) (set_blocks bs l)) (blks ++ [bn]).
Proof.
  intros [H1 H2 H3 H4 H5 H6 H7 H8 H9] Hh Hn Hf Hs Hz. split; try done; cbn.
  - rewrite H4, length_app. cbn. lia.
  - by rewrite (zset_length _ _ _ _ Hz).
  - intros j n Hj. apply lookup_app_Some in Hj as [Hj|[Hj1 Hj2]].
    + pose proof (lookup_lt_Some _ _ _ Hj). rewrite (znth_zset_ne (lg_block l) bs (Z.of_nat (length blks)) (Z.of_nat j) bn) by (done || lia). by apply H6.
    + apply list_lookup_singleton_Some in Hj2 as [Hj2 <-]. replace j with (length blks) by lia.
      by rewrite (znth_zset_eq _ _ _ _ Hz).
  - apply NoDup_app. split; [done|]. split; [|apply NoDup_singleton]. by intros x Hx ->%list_elem_of_singleton.
  - apply Forall_app. split; [done|]. by constructor.
  - rewrite length_app. cbn. lia.
Qed.

(** The transaction after a write of block [n]. *)
Definition add_block (n : Z) (blks : list Z) : list Z := if decide (n ∈ blks) then blks else blks ++ [n].

Lemma pinned_snoc (blks : list Z) n : (list_to_set (blks ++ [n]) : gset Z) = {[n]} ∪ list_to_set blks.
Proof. apply set_eq. intros x. set_solver. Qed.

Lemma log_write_ok s v blks b n L :
  bio_inv (ls_b s) v L (list_to_set blks) -> has_log (ls_log s) blks -> lg_outstanding (ls_log s) >= 1 ->
  isbuf (ls_b s) b n -> n ∈ L -> home n -> Z.of_nat (length blks) < 30 -> Z.of_nat (length blks) < size - 1 ->
  exists s', log_write b s = Ret tt s' /\ bio_inv (ls_b s') v L (list_to_set (add_block n blks)) /\
    has_log (ls_log s') (add_block n blks) /\ kept (ls_b s) (ls_b s') (L ∪ list_to_set blks) /\ bs_disk (ls_b s') = bs_disk (ls_b s) /\
    bs_writes (ls_b s') = bs_writes (ls_b s) /\ lg_outstanding (ls_log s') = lg_outstanding (ls_log s) /\
    lg_committing (ls_log s') = lg_committing (ls_log s).
Proof using Hstart Hsize Hend.
  intros Hi Hl Ho Hb HL Hh Hf Hs. unfold log_write. pose proof (bi_held _ _ _ _ Hi) as Hheld.
  erewrite bind_Ret by (apply klift, lk_acquire_ok; rewrite Hheld; apply not_elem_of_nil). rewrite Hheld.
  rewrite bind_gets. cbn [ls_log]. rewrite (hl_n _ _ Hl), (hl_size _ _ Hl). unfold LOGSIZE, MAXOPBLOCKS. zb. cbn [orb].
  erewrite bind_Ret by (apply llift; reflexivity). cbn [ls_b ls_log bs_cache set_lk].
  pose proof Hb as (_ & _ & Hbn). rewrite Hbn, Nat2Z.id.
  destruct (find_slot_ok blks [] (ls_log s) n Hl Hh (not_elem_of_nil _)) as (i & Ei & Hc). cbn [length app] in Ei, Hc.
  change (Z.of_nat 0) with 0 in Ei. rewrite Ei. assert (home n) as [Hr _] by done. rewrite s32_small by lia.
  assert (i <= length blks)%nat as Hil by (destruct Hc as [Hc|[_ ->]]; [apply lookup_lt_Some in Hc|]; lia).
  destruct (zset (lg_block (ls_log s)) (Z.of_nat i) n) as [bs|] eqn:Hz; [|by rewrite zset_Some in Hz by (rewrite (hl_len _ _ Hl); lia)].
  rewrite (bind_Ret _ _ _ _ _ (eq_refl : modlog _ _ = _)). cbn [ls_b ls_log]. unfold add_block.
  destruct Hc as [Hc|[Hn ->]].
  - assert (i <> length blks) by (apply lookup_lt_Some in Hc; lia).
    rewrite decide_True by (by eapply list_elem_of_lookup_2). zb. cbn [when].
    rewrite (bind_Ret _ _ _ _ _ (eq_refl : ret tt _ = _)). eexists. split.
    { apply klift, (lk_release_ok _ []); [reflexivity|apply not_elem_of_nil]. }
    cbn. split; [by refine (bio_set_lk (ls_b s) _ _ _ _ Hi _ _ _)|]. split; [by eapply has_log_record|]. split; [by split|]. done.
  - rewrite decide_False by done. destruct (bpin_ok _ _ _ _ _ _ Hi Hb HL) as (s1 & E1 & I1 & B1 & [K1 K1'] & D1 & W1);
      [by rewrite elem_of_list_to_set|]. zb. cbn [when]. rewrite bind_assoc.
    erewrite bind_Ret by (apply llift; cbn [ls_b]; apply (bpin_held b _ s1 [L_log]); [set_solver|done|done]).
    rewrite (bind_Ret _ _ _ _ _ (eq_refl : modlog _ _ = _)). eexists. split.
    { apply klift, (lk_release_ok _ []); [reflexivity|apply not_elem_of_nil]. }
    cbn. split.
    { rewrite pinned_snoc. by refine (bio_set_lk s1 _ _ _ _ I1 _ _ _). }
    split; [rewrite <- (hl_n _ _ Hl); apply has_log_append; done|]. split; [by split|done].
Qed.

Lemma begin_op_ok s d :
  log_idle s d -> exists s', begin_op s = Ret tt s' /\ in_txn s' (bs_disk (ls_b s)) d [] /\ bs_writes (ls_b s') = bs_writes (ls_b s) /\
    bs_disk (ls_b s') = bs_disk (ls_b s).
Proof using Hstart Hsize Hend.
  intros [Hi Hl _ Ho Hc]. unfold begin_op. pose proof (bi_held _ _ _ _ Hi) as Hh.
  erewrite bind_Ret by (apply klift, lk_acquire_ok; rewrite Hh; apply not_elem_of_nil). rewrite Hh, bind_gets.
  cbn [ls_log]. rewrite Hc, (hl_n _ _ Hl), Ho. change (LOGSIZE <? Z.of_nat (length []) + (0 + 1) * MAXOPBLOCKS) with false.
  cbn [Z.eqb negb]. rewrite (bind_Ret _ _ _ _ _ (eq_refl : modlog _ _ = _)). eexists. split.
  { apply klift, (lk_release_ok _ []); [reflexivity|apply not_elem_of_nil]. }
  split; [|done]. split; cbn; [by refine (bio_set_lk (ls_b s) _ _ _ _ Hi _ _ _)| |done|done|done].
  by destruct Hl; split.
Qed.

(** One update of a file-system call: read, modify, log, release. *)
Definition update_block (n : Z) (c : block) : M lst unit :=
  b <- lift (bread ROOTDEV n) ;;
  lift (modbuf b (set_data c)) ;;;
  log_write b ;;;
  lift (brelse b).

Lemma update_ok s d v blks n c :
  in_txn s d v blks -> home n -> Z.of_nat (length blks) < 29 -> Z.of_nat (length blks) < size - 1 ->
  exists s', update_block n c s = Ret tt s' /\ in_txn s' d (upd v n c) (add_block n blks) /\
    bs_writes (ls_b s') = bs_writes (ls_b s).
Proof using Hstart Hsize Hend.
  intros [Hi Hl Hd Ho Hc] Hh Hf Hs. unfold update_block.
  assert (base.size (list_to_set blks : gset Z) = length blks) as Hsz by (apply size_list_to_set, (hl_nodup _ _ Hl)).
  destruct (bread_ok _ v ∅ (list_to_set blks) n Hi) as (b & s1 & E1 & I1 & B1 & _ & _ & D1 & W1);
    [set_solver|right; rewrite union_empty_l_L, Hsz; unfold NBUF, MAXOPBLOCKS; lia|].
  destruct (set_data_ok s1 v _ _ b n c I1 B1 (in_add _ _)) as (s2 & E2 & I2 & B2 & _ & D2 & W2).
  destruct (log_write_ok (mkLst s2 (ls_log s)) _ blks b n _ I2 Hl ltac:(cbn; lia) B2 (in_add _ _) Hh ltac:(lia) Hs)
    as (s3 & E3 & I3 & L3 & K3 & D3 & W3 & O3 & C3). cbn [ls_b ls_log] in *.
  pose proof (kept_isbuf _ _ _ b n K3 (elem_of_union_l _ _ _ (in_add n ∅)) B2) as B3.
  destruct (brelse_ok _ _ _ _ b n I3 B3 (in_add _ _)) as (s4 & E4 & I4 & _ & D4 & W4).
  { intros H. exfalso. apply H, elem_of_list_to_set. unfold add_block. case_decide; [done|set_solver]. }
  rewrite lone_released in I4. exists (mkLst s4 (ls_log s3)). split.
  - lstep E1. lstep E2. rewrite (bind_Ret _ _ _ _ _ E3). by apply llift.
  - split; [|cbn; congruence]. split; cbn; [done|done| |congruence|congruence].
    intros m. rewrite D4, D3, D2, D1. apply Hd.
Qed.

(** The writes of a transaction: none when nothing was logged. *)
Definition txn_writes (v : Z -> block) (blks : list Z) (h h0 : block) : list (Z * block) :=
  match blks with [] => [] | _ => commit_writes v blks h h0 end.

Lemma in_txn_disk s d v blks : in_txn s d v blks -> forall n, n ∉ blks -> d n = v n.
Proof.
  intros [Hi _ Hd _ _] n Hn. rewrite <- Hd. apply (bi_disk _ _ _ _ Hi). rewrite union_empty_l_L.
  by rewrite elem_of_list_to_set.
Qed.

(** commit on any open transaction, the empty one included. *)
Lemma commit_any s d v blks :
  in_txn s d v blks -> header_ok (d start) [] -> Z.of_nat (length blks) < NBUF -> forall s1,
  bio_inv (ls_b s1) v ∅ (list_to_set blks) -> has_log (ls_log s1) blks -> bs_writes (ls_b s1) = bs_writes (ls_b s) ->
  exists b h h0 c, commit s1 = Ret tt (mkLst b (set_n 0 (ls_log s1))) /\ header_ok h blks /\ header_ok h0 [] /\
    bio_inv b c ∅ ∅ /\ header_ok (c start) [] /\ agrees c v /\ bs_writes b = bs_writes (ls_b s) ++ txn_writes v blks h h0.
Proof using Hstart Hsize Hend.
  intros Ht Hd Hf s1 I1 L1 <-. destruct blks as [|n blks].
  - exists (ls_b s1), (d start), (d start), v. pose proof (in_txn_disk _ _ _ _ Ht start (not_elem_of_nil _)) as E.
    rewrite <- E. cbn [txn_writes]. rewrite app_nil_r. split_and!; try done.
    unfold commit. rewrite bind_gets, (hl_n _ _ L1). unfold set_n. pose proof (hl_n _ _ L1) as En.
    by destruct s1 as [? []]; cbn in En; subst.
  - destruct (commit_ok s1 v _ (n :: blks) L1 ltac:(done) I1 Hf eq_refl) as (b & h & h0 & E & Hh1 & Hh0 & Ib & _ & Hw).
    exists b, h, h0, (apply_writes v (commit_writes v (n :: blks) h h0)).
    destruct (commit_done v v (n :: blks) h h0) as [F1 F2]; [by eapply has_log_txn|done|].
    split_and!; try done. by rewrite F1.
Qed.

Lemma end_op_ok s d v blks :
  in_txn s d v blks -> header_ok (d start) [] -> Z.of_nat (length blks) < NBUF ->
  exists s' h h0 c, end_op s = Ret tt s' /\ header_ok h blks /\ header_ok h0 [] /\ log_idle s' c /\ agrees c v /\
    bs_writes (ls_b s') = bs_writes (ls_b s) ++ txn_writes v blks h h0.
Proof using Hstart Hsize Hend.
  intros Ht Hd Hf. pose proof Ht as [Hi Hl Hdk Ho Hc]. pose proof (bi_held _ _ _ _ Hi) as Hh.
  unfold end_op. erewrite bind_Ret by (apply klift, lk_acquire_ok; rewrite Hh; apply not_elem_of_nil).
  rewrite Hh, bind_gets. cbn [ls_log]. rewrite Ho, Hc. rewrite (bind_Ret _ _ _ _ _ (eq_refl : modlog _ _ = _)).
  cbn [Z.eqb negb Z.sub]. change (1 - 1 =? 0) with true. cbn match.
  rewrite (bind_Ret _ _ _ _ _ (eq_refl : modlog _ _ = _)).
  erewrite bind_Ret by (apply klift, (lk_release_ok _ []); [reflexivity|apply not_elem_of_nil]). cbn [when].
  match goal with |- context [bind commit _ ?x] => set (s1 := x) end.
  assert (bio_inv (ls_b s1) v ∅ (list_to_set blks)) as I1 by (by refine (bio_set_lk (ls_b s) _ _ _ _ Hi _ _ _)).
  assert (has_log (ls_log s1) blks) as L1 by (by destruct Hl; split).
  destruct (commit_any s d v blks Ht Hd Hf s1 I1 L1 eq_refl) as (b & h & h0 & c & E & Hh1 & Hh0 & Ib & Hc0 & Ha & Hw).
  rewrite (bind_Ret _ _ _ _ _ E).
  erewrite bind_Ret by (apply klift, lk_acquire_ok; cbn [ls_b]; rewrite (bi_held _ _ _ _ Ib); apply not_elem_of_nil).
  rewrite (bind_Ret _ _ _ _ _ (eq_refl : modlog _ _ = _)). cbn [ls_b ls_log].
  erewrite bind_Ret by (apply klift; reflexivity). cbn [ls_b ls_log].
  eexists. exists h, h0, c. split.
  { apply klift, (lk_release_ok _ []); [cbn; by rewrite (bi_held _ _ _ _ Ib)|apply not_elem_of_nil]. }
  split_and!; try done. split; cbn; [by refine (bio_set_lk b _ _ _ _ Ib _ _ _)| |done|done|done].
  pose proof (has_log_set_n0 _ _ L1) as []. by split.
Qed.

Fixpoint updates (ups : list (Z * block)) : M lst unit :=
  match ups with [] => ret tt | (n, c) :: ups => update_block n c ;;; updates ups end.

(** A file-system call that updates [ups]. *)
Definition run_txn (ups : list (Z * block)) : M lst unit := begin_op ;;; updates ups ;;; end_op.

Fixpoint run_txns (txs : list (list (Z * block))) : M lst unit :=
  match txs with [] => ret tt | ups :: txs => run_txn ups ;;; run_txns txs end.

(** Updates of blocks outside the log, no more than the log and the cache hold. *)
Definition txn_fits (ups : list (Z * block)) : Prop :=
  Forall home ups.*1 /\ Z.of_nat (length ups) < NBUF /\ Z.of_nat (length ups) < size.

Lemma add_block_length n blks : (length (add_block n blks) <= S (length blks))%nat.
Proof. unfold add_block. case_decide; rewrite ?length_app; cbn; lia. Qed.

Lemma updates_ok ups : forall s d v blks,
  in_txn s d v blks -> Forall home ups.*1 -> Z.of_nat (length blks + length ups) < NBUF ->
  Z.of_nat (length blks + length ups) < size ->
  exists s' blks', updates ups s = Ret tt s' /\ in_txn s' d (apply_writes v ups) blks' /\
    Z.of_nat (length blks') < NBUF /\ bs_writes (ls_b s') = bs_writes (ls_b s).
Proof using Hstart Hsize Hend.
  unfold NBUF, MAXOPBLOCKS. induction ups as [|[n c] ups IH]; intros s d v blks Ht Hh Hf Hs; cbn [length updates apply_writes] in *.
  - exists s, blks. split; [done|]. split; [done|]. split; [lia|done].
  - apply Forall_cons in Hh as [Hn Hh]. destruct (update_ok s d v blks n c) as (s1 & E1 & T1 & W1); [done|done|lia|lia|].
    pose proof (add_block_length n blks). destruct (IH s1 d _ _ T1 Hh) as (s2 & blks' & E2 & T2 & F2 & W2); [lia|lia|].
    exists s2, blks'. rewrite (bind_Ret _ _ _ _ _ E1). split; [done|]. split; [done|]. split; [lia|congruence].
Qed.

(** Wherever the writes [ws] of a transaction that takes [d] to [e] stop, the
    disk recovers to one of the two, and to [e] when all were done. *)
Definition atomic (disk d e : Z -> block) (ws : list (Z * block)) : Prop :=
  forall k, exists r blks, recoverable (apply_writes disk (take k ws)) r blks /\
    (agrees r d \/ agrees r e) /\ ((length ws <= k)%nat -> agrees r e).

Lemma txn_writes_atomic s d v blks h h0 e :
  in_txn s d v blks -> header_ok (d start) [] -> header_ok h blks -> header_ok h0 [] -> agrees d e ->
  atomic d e v (txn_writes v blks h h0).
Proof using Hstart Hsize Hend.
  intros Ht Hd Hh Hh0 He k. pose proof (in_txn_disk _ _ _ _ Ht) as Hv. pose proof (has_log_txn _ _ (it_log _ _ _ _ Ht)) as Hk.
  destruct blks as [|n blks]; cbn [txn_writes].
  - exists v, []. rewrite take_nil. split; [|split; [right|intros _]; apply agrees_refl]. split; [done|]. split; [apply txn_ok_nil|].
    intros m _. cbn. apply Hv, not_elem_of_nil.
  - destruct (decide (k <= length (n :: blks))%nat) as [Hle|Hgt].
    + exists d, []. split; [by apply commit_crash_before|]. split; [by left|].
      unfold commit_writes. rewrite length_app, log_writes_length. cbn [length] in *. lia.
    + destruct (commit_crash_after d v (n :: blks) h h0 k) as [blks' H]; try done; [lia|]. exists v, blks'.
      split; [done|]. split; [right|intros _]; apply agrees_refl.
Qed.

Lemma run_txn_ok ups s d :
  log_idle s d -> txn_fits ups ->
  exists s' c ws, run_txn ups s = Ret tt s' /\ log_idle s' c /\ agrees c (apply_writes d ups) /\
    bs_writes (ls_b s') = bs_writes (ls_b s) ++ ws /\ atomic (bs_disk (ls_b s)) d (apply_writes d ups) ws.
Proof using Hstart Hsize Hend.
  intros Hi (Hh & Hf & Hs). assert (forall n, bs_disk (ls_b s) n = d n) as Hd.
  { intros n. apply (bi_disk _ _ _ _ (li_bio _ _ Hi)). rewrite union_empty_l_L. apply not_elem_of_empty. }
  destruct (begin_op_ok s d Hi) as (s1 & E1 & T1 & W1 & _).
  destruct (updates_ok ups s1 _ d [] T1 Hh Hf Hs) as (s2 & blks & E2 & T2 & F2 & W2).
  assert (header_ok (bs_disk (ls_b s) start) []) as Hh0 by (rewrite Hd; apply (li_header _ _ Hi)).
  destruct (end_op_ok s2 _ _ blks T2 Hh0 F2) as (s3 & h & h0 & c & E3 & Hhb & Hh0' & I3 & A3 & W3).
  exists s3, c, (txn_writes (apply_writes d ups) blks h h0). split_and!; try done.
  - unfold run_txn. by rewrite (bind_Ret _ _ _ _ _ E1), (bind_Ret _ _ _ _ _ E2).
  - by rewrite W3, W2, W1.
  - eapply txn_writes_atomic; try done. intros n _. apply Hd.
Qed.

Lemma agrees_apply d e ws : agrees d e -> agrees (apply_writes d ws) (apply_writes e ws).
Proof. intros H n Hn. by apply apply_writes_ext, H. Qed.

Lemma run_txns_ok txs : forall s d,
  log_idle s d -> Forall txn_fits txs ->
  exists s' c, run_txns txs s = Ret tt s' /\ log_idle s' c /\ agrees c (apply_writes d (concat txs)).
Proof using Hstart Hsize Hend.
  induction txs as [|ups txs IH]; intros s d Hi Hf; cbn [run_txns concat]; [by exists s, d|].
  apply Forall_cons in Hf as [Hu Hf]. destruct (run_txn_ok ups s d Hi Hu) as (s1 & c1 & ws & E1 & I1 & A1 & _).
  destruct (IH s1 c1 I1 Hf) as (s2 & c2 & E2 & I2 & A2). exists s2, c2. rewrite (bind_Ret _ _ _ _ _ E1). split_and!; try done.
  intros n Hn. rewrite A2 by done. rewrite apply_writes_app. by apply agrees_apply.
Qed.
End layout.

(** C1: File-system calls are atomic across crashes.  Boot from a disk with an
    empty log and run the transactions [txs], then [t].  None of them panics,
    and if the machine stops at any point of the disk writes of [t], and then
    stops again during any number of recoveries, the next boot succeeds and,
    outside the log area, the disk is as after [txs] or as after [txs] and [t],
    never a mixture; and once end_op() of [t] has returned it is the latter. *)
Theorem transactions_crash_safe start size d txs t :
  0 <= start -> 0 < size -> start + size < 2 ^ 31 -> header_ok (d start) [] ->
  Forall (txn_fits start size) txs -> txn_fits start size t ->
  exists s0 s1 s2 ws, reboot start size d = Ret tt s0 /\ run_txns txs s0 = Ret tt s1 /\ run_txn t s1 = Ret tt s2 /\
    bs_writes (ls_b s2) = bs_writes (ls_b s1) ++ ws /\
    forall k d', rtc (crash_reboot start size) (apply_writes (bs_disk (ls_b s1)) (take k ws)) d' ->
      exists s' c, reboot start size d' = Ret tt s' /\ log_idle start size s' c /\
        (agrees start size c (apply_writes d (concat txs)) \/ agrees start size c (apply_writes d (concat txs ++ t))) /\
        ((length ws <= k)%nat -> agrees start size c (apply_writes d (concat txs ++ t))).
Proof.
  intros Hstart Hsize Hend Hd Hfs Hf.
  assert (recoverable start size d d []) as Hr by (split; [done|split; [by apply txn_ok_nil|by intros n]]).
  destruct (recoverable_reboot start size Hstart Hsize Hend _ _ _ Hr) as (s0 & _ & E0 & _ & _ & c0 & I0 & A0).
  destruct (run_txns_ok start size Hstart Hsize Hend txs s0 c0 I0 Hfs) as (s1 & c1 & E1 & I1 & A1).
  destruct (run_txn_ok start size Hstart Hsize Hend t s1 c1 I1 Hf) as (s2 & c2 & ws & E2 & _ & _ & W2 & At).
  exists s0, s1, s2, ws. split; [exact E0|]. split; [exact E1|]. split; [exact E2|]. split; [exact W2|]. intros k d' Hcr.
  destruct (At k) as (r & blks & Hrk & Hor & Hall).
  destruct (recoverable_crashes start size Hstart Hsize Hend _ _ _ _ Hrk Hcr) as (blks' & Hr').
  destruct (recoverable_reboot start size Hstart Hsize Hend _ _ _ Hr') as (s' & _ & E' & _ & _ & c & I' & A').
  pose proof (agrees_apply start size _ _ (concat txs) A0) as A01.
  assert (agrees start size c1 (apply_writes d (concat txs))) as A1' by (intros n Hn; by rewrite A1, A01).
  pose proof (agrees_apply start size _ _ t A1') as A2. rewrite <- apply_writes_app in A2.
  exists s', c. split; [exact E'|]. split; [exact I'|]. split.
  - destruct Hor as [Ho|Ho]; [left|right]; intros n Hn; rewrite A', Ho by exact Hn; [by apply A1'|by apply A2].
  - intros Hk n Hn. rewrite A', (Hall Hk) by exact Hn. by apply A2.
Qed.

(** mkfs's layout: the log is the 30 blocks from block 2.  Two calls, the
    second of two blocks; the machine stops after four writes of it, when the
    log is complete and one block is installed. *)
Lemma transactions_crash_safe_witness :
  exists s0 s1 s2 ws, reboot 2 30 (fun _ => zero_block) = Ret tt s0 /\ run_txns [[(50, fun _ => 1)]] s0 = Ret tt s1 /\
    run_txn [(60, fun _ => 2); (50, fun _ => 3)] s1 = Ret tt s2 /\ bs_writes (ls_b s2) = bs_writes (ls_b s1) ++ ws /\
    exists s' c, reboot 2 30 (apply_writes (bs_disk (ls_b s1)) (take 4 ws)) = Ret tt s' /\ log_idle 2 30 s' c /\
      ((c 60 = zero_block /\ c 50 = fun _ => 1) \/ (c 60 = (fun _ => 2) /\ c 50 = fun _ => 3)).
Proof.
  destruct (transactions_crash_safe 2 30 (fun _ => zero_block) [[(50, fun _ => 1)]] [(60, fun _ => 2); (50, fun _ => 3)])
    as (s0 & s1 & s2 & ws & E0 & E1 & E2 & W & Hc); [lia|lia|lia|by split| | |].
  - repeat constructor; unfold home, inlog; cbn; lia.
  - split; [repeat constructor; unfold home, inlog; cbn; lia|unfold NBUF, MAXOPBLOCKS; cbn; lia].
  - exists s0, s1, s2, ws. split; [exact E0|]. split; [exact E1|]. split; [exact E2|]. split; [exact W|].
    destruct (Hc 4%nat _ (rtc_refl _ _)) as (s' & c & E & I & H & _). exists s', c. split; [exact E|]. split; [exact I|].
    assert (~ inlog 2 30 60 /\ ~ inlog 2 30 50) as [N1 N2] by (unfold inlog; lia).
    destruct H as [H|H]; [left|right]; (split; [rewrite (H 60 N1)|rewrite (H 50 N2)]; reflexivity).
Defined.

(** ** Log space *)

(** Code that leaves the log's variables alone. *)
Definition keeps_log {A} (c : M lst A) : Prop := forall s a s', c s = Ret a s' -> ls_log s' = ls_log s.

Lemma log_keeps_bind {A B} (c : M lst A) (k : A -> M lst B) : keeps_log c -> (forall a, keeps_log (k a)) -> keeps_log (bind c k).
Proof. intros Hc Hk s b s' (a & s1 & E1 & E2)%bind_inv. by rewrite (Hk _ _ _ _ E2), (Hc _ _ _ E1). Qed.
Lemma log_keeps_gets {A} (f : lst -> A) : keeps_log (gets f).
Proof. by intros s a s' [= <- <-]. Qed.
Lemma log_keeps_ret {A} (x : A) : keeps_log (ret x).
Proof. by intros s a s' [= <- <-]. Qed.
Lemma log_keeps_lift {A} (c : M bst A) : keeps_log (lift c).
Proof. intros s a s'. unfold lift. cbn. destruct (c (ls_b s)); try done. by intros [= <- <-]. Qed.
Lemma log_keeps_lift_lk {A} (c : M lkst A) : keeps_log (lift c).
Proof. intros s a s'. unfold lift. cbn. destruct (c (bs_lk (ls_b s))); try done. by intros [= <- <-]. Qed.
Lemma log_keeps_fault {A} : keeps_log (fault : M lst A).
Proof. by intros s a s'. Qed.
Lemma log_keeps_when b c : keeps_log c -> keeps_log (when b c).
Proof. intros H. destruct b; [done|apply log_keeps_ret]. Qed.
Create HintDb log_keeps.
#[local] Hint Resolve log_keeps_bind log_keeps_gets log_keeps_ret log_keeps_lift log_keeps_lift_lk log_keeps_fault log_keeps_when : log_keeps.

Lemma log_keeps_install_loop fuel tail r : keeps_log (install_loop fuel tail r).
Proof.
  revert tail. induction fuel as [|fuel IH]; intros tail; [by intros s a s'|]. cbn [install_loop].
  apply log_keeps_bind; [auto with log_keeps|]. intros l. case_match; [auto with log_keeps|].
  apply log_keeps_bind; [auto with log_keeps|]. intros lb. case_match; auto 12 with log_keeps.
Qed.
Lemma log_keeps_write_loop fuel tail : keeps_log (write_loop fuel tail).
Proof.
  revert tail. induction fuel as [|fuel IH]; intros tail; [by intros s a s'|]. cbn [write_loop].
  apply log_keeps_bind; [auto with log_keeps|]. intros l. case_match; [auto with log_keeps|].
  apply log_keeps_bind; [auto with log_keeps|]. intros lb. case_match; auto 12 with log_keeps.
Qed.
Lemma log_keeps_write_head : keeps_log write_head.
Proof.
  unfold write_head. apply log_keeps_bind; [auto with log_keeps|]. intros l. apply log_keeps_bind; [auto with log_keeps|]. intros b.
  apply log_keeps_bind; [auto with log_keeps|]. intros h. case_match; auto 12 with log_keeps.
Qed.
Lemma log_keeps_write_log : keeps_log write_log.
Proof. apply log_keeps_bind; [apply log_keeps_gets|]. intros l. apply log_keeps_write_loop. Qed.
Lemma log_keeps_install_trans r : keeps_log (install_trans r).
Proof. apply log_keeps_bind; [apply log_keeps_gets|]. intros l. apply log_keeps_install_loop. Qed.

Lemma sleep_not_ret {A} c l s (a : A) s' : lift (sleep c l) s <> Ret a s'.
Proof. unfold lift, sleep, bind. cbn. by destruct (release l _). Qed.

Lemma commit_log s s' :
  commit s = Ret tt s' -> ls_log s' = if 0 <? lg_n (ls_log s) then set_n 0 (ls_log s) else ls_log s.
Proof.
  unfold commit. rewrite bind_gets. destruct (0 <? _); cbn [when]; [|by intros [= <-]].
  intros ([] & s1 & E1%log_keeps_write_log & ([] & s2 & E2%log_keeps_write_head &
    ([] & s3 & E3%log_keeps_install_trans & ([] & s4 & [= <-] & E5%log_keeps_write_head)%bind_inv)%bind_inv)%bind_inv)%bind_inv.
  rewrite E5. cbn. by rewrite E3, E2, E1.
Qed.

Lemma begin_op_log s s' :
  begin_op s = Ret tt s' -> lg_committing (ls_log s) = 0 /\
    lg_n (ls_log s) + (lg_outstanding (ls_log s) + 1) * MAXOPBLOCKS <= LOGSIZE /\
    ls_log s' = set_outstanding (lg_outstanding (ls_log s) + 1) (ls_log s).
Proof.
  intros ([] & s1 & E1%log_keeps_lift_lk & H)%bind_inv. rewrite bind_gets, E1 in H.
  destruct (lg_committing (ls_log s) =? 0) eqn:Ec; cbn [negb] in H; [|by apply sleep_not_ret in H].
  destruct (LOGSIZE <? _) eqn:El; [by apply sleep_not_ret in H|]. apply Z.eqb_eq in Ec. apply Z.ltb_ge in El.
  apply bind_inv in H as ([] & s2 & [= <-] & H%log_keeps_lift_lk). cbn in H. rewrite E1 in H. done.
Qed.

Lemma end_op_log s s' :
  end_op s = Ret tt s' ->
  let l := set_outstanding (lg_outstanding (ls_log s) - 1) (ls_log s) in
  lg_committing (ls_log s) = 0 /\
  ls_log s' = if lg_outstanding l =? 0 then set_committing 0 (if 0 <? lg_n l then set_n 0 l else l) else l.
Proof.
  intros ([] & s1 & E1%log_keeps_lift_lk & H)%bind_inv l. rewrite bind_gets, E1 in H.
  apply bind_inv in H as ([] & s2 & [= <-] & H). rewrite E1 in H. fold l in H.
  destruct (lg_committing (ls_log s) =? 0) eqn:Ec; cbn [negb] in H; [|done]. apply Z.eqb_eq in Ec. split; [exact Ec|].
  change (lg_outstanding (ls_log s) - 1) with (lg_outstanding l) in H. destruct (lg_outstanding l =? 0) eqn:Eo.
  - apply bind_inv in H as ([] & s3 & [= <-] & H). apply bind_inv in H as ([] & s4 & E4%log_keeps_lift_lk & H). cbn [when] in H.
    apply bind_inv in H as ([] & s5 & E5%commit_log & H). apply bind_inv in H as ([] & s6 & E6%log_keeps_lift_lk & H).
    apply bind_inv in H as ([] & s7 & [= <-] & H). apply bind_inv in H as ([] & s8 & E8%log_keeps_lift_lk & E9%log_keeps_lift_lk).
    rewrite E9, E8. cbn. rewrite E6, E5, E4. subst l. cbn. by destruct (0 <? lg_n (ls_log s)).
  - apply bind_inv in H as ([] & s3 & E3%log_keeps_lift_lk & H). apply bind_inv in H as ([] & s4 & E4%log_keeps_lift_lk & [= <-]).
    by rewrite E4, E3.
Qed.

Lemma log_write_log b s s' :
  log_write b s = Ret tt s' -> exists bs, length bs = length (lg_block (ls_log s)) /\
    (ls_log s' = set_blocks bs (ls_log s) \/ ls_log s' = set_n (lg_n (ls_log s) + 1) (set_blocks bs (ls_log s))).
Proof.
  intros ([] & s1 & E1%log_keeps_lift_lk & H)%bind_inv. rewrite bind_gets, E1 in H.
  destruct (_ || _); [done|]. destruct (_ <? 1); [done|]. apply bind_inv in H as (k & s2 & E2%log_keeps_lift & H).
  case_match; [|done]. destruct (zset _ _ _) as [bs|] eqn:Ez; [|done]. exists bs. split; [by apply zset_length in Ez|].
  apply bind_inv in H as ([] & s3 & [= <-] & H). apply bind_inv in H as ([] & s4 & E4 & E5%log_keeps_lift_lk). rewrite E5.
  destruct (_ =? _); cbn [when] in E4.
  - apply bind_inv in E4 as ([] & s5 & E5'%log_keeps_lift & [= <-]). right. cbn. rewrite E5'. cbn. by rewrite E2, E1.
  - injection E4 as <-. left. cbn. by rewrite E2, E1.
Qed.

(** Code that panics only for misuse of a spin lock. *)
Definition lock_panics {S A} (c : M S A) : Prop :=
  forall s msg s', c s = Panic msg s' -> msg = "acquire"%string \/ msg = "release"%string.

Lemma lp_bind {S A B} (c : M S A) (k : A -> M S B) : lock_panics c -> (forall a, lock_panics (k a)) -> lock_panics (bind c k).
Proof.
  intros Hc Hk s msg s'. unfold bind. destruct (c s) eqn:E; try done; [apply Hk|]. intros [= <- <-]. by eapply Hc.
Qed.
Lemma lp_acquire l : lock_panics (acquire l).
Proof. intros s msg s'. unfold acquire. case_decide; [|done]. intros [= <- _]. by left. Qed.
Lemma lp_release l : lock_panics (release l).
Proof. intros s msg s'. unfold release. case_decide; [done|]. intros [= <- _]. by right. Qed.
Lemma lp_modify {S} (f : S -> S) : lock_panics (modify f).
Proof. done. Qed.
Lemma lp_lift_lk (c : M lkst unit) : lock_panics c -> lock_panics (lift c : M lst unit).
Proof. intros H s msg s'. unfold lift. cbn. destruct (c _) eqn:E; try done. intros [= <- <-]. by eapply H. Qed.
Lemma lp_lift_b {A} (c : M bst A) : lock_panics c -> lock_panics (lift c : M lst A).
Proof. intros H s msg s'. unfold lift. cbn. destruct (c _) eqn:E; try done. intros [= <- <-]. by eapply H. Qed.
Lemma lp_bpin b : lock_panics (bpin b).
Proof.
  assert (forall c : M lkst unit, lock_panics c -> lock_panics (lift c : M bst unit)) as Hl.
  { intros c H s msg s'. unfold lift. cbn. destruct (c _) eqn:E; try done. intros [= <- <-]. by eapply H. }
  apply lp_bind; [apply Hl, lp_acquire|]. intros _. apply lp_bind; [apply lp_modify|]. intros _. apply Hl, lp_release.
Qed.

Lemma log_write_panics b s msg s' :
  lg_n (ls_log s) < LOGSIZE -> lg_n (ls_log s) < lg_size (ls_log s) - 1 -> 1 <= lg_outstanding (ls_log s) ->
  log_write b s = Panic msg s' -> msg = "acquire"%string \/ msg = "release"%string.
Proof.
  intros Hn Hs Ho. unfold log_write, bind at 1. destruct (lift (acquire L_log) s) as [a s1|m s1| | |] eqn:E1; try done.
  2:{ intros [= <- _]. by apply (lp_lift_lk _ (lp_acquire L_log)) in E1. }
  rewrite bind_gets, (log_keeps_lift_lk _ _ _ _ E1). zb. cbn [orb]. generalize s1. clear E1. intros s0 H.
  revert H. apply lp_bind; [apply lp_lift_b; done|]. intros k. case_match; [|done]. case_match; [|done].
  apply lp_bind; [done|]. intros _. apply lp_bind; [|intros _; apply lp_lift_lk, lp_release].
  destruct (_ =? _); [|done]. apply lp_bind; [apply lp_lift_b, lp_bpin|done].
Qed.

(** The file-system calls in progress, each with the number of log_write()s it
    has made; the steps of their processes in any order.  A call keeps to its
    MAXOPBLOCKS. *)
Inductive fs_step : lst * gmap Z Z -> lst * gmap Z Z -> Prop :=
  | step_begin p s s' m : m !! p = None -> begin_op s = Ret tt s' -> fs_step (s, m) (s', <[p := 0]> m)
  | step_write p k b s s' m : m !! p = Some k -> k < MAXOPBLOCKS -> log_write b s = Ret tt s' ->
      fs_step (s, m) (s', <[p := k + 1]> m)
  | step_end p k s s' m : m !! p = Some k -> end_op s = Ret tt s' -> fs_step (s, m) (s', delete p m)
  | step_bio A (c : M bst A) a s s' m : lift c s = Ret a s' -> fs_step (s, m) (s', m).

(** What the calls in progress may still write. *)
Definition reserved (m : gmap Z Z) : Z := map_fold (fun _ k acc => MAXOPBLOCKS - k + acc) 0 m.

Lemma reserved_insert m p k : m !! p = None -> reserved (<[p := k]> m) = MAXOPBLOCKS - k + reserved m.
Proof. intros H. unfold reserved. rewrite map_fold_insert_L; [done| |done]. intros. lia. Qed.
Lemma reserved_delete m p k : m !! p = Some k -> reserved m = MAXOPBLOCKS - k + reserved (delete p m).
Proof.
  intros H. rewrite <- (insert_delete_id m p k H) at 1. apply reserved_insert, lookup_delete_eq.
Qed.
Lemma reserved_bounds m :
  map_Forall (fun _ k => 0 <= k <= MAXOPBLOCKS) m -> 0 <= reserved m <= MAXOPBLOCKS * Z.of_nat (size m).
Proof.
  induction m as [|p k m Hp IH] using map_ind; intros H; [done|]. apply map_Forall_insert in H as [Hk H]; [|done].
  rewrite reserved_insert, map_size_insert_None by done. apply IH in H. lia.
Qed.

Record log_space (sz : Z) (s : lst) (m : gmap Z Z) : Prop := {
  sp_out : lg_outstanding (ls_log s) = Z.of_nat (size m);
  sp_n : 0 <= lg_n (ls_log s);
  sp_room : lg_n (ls_log s) + reserved m <= LOGSIZE;
  sp_calls : map_Forall (fun _ k => 0 <= k <= MAXOPBLOCKS) m;
  sp_size : lg_size (ls_log s) = sz;
}.

Lemma log_space_step sz s m s' m' : fs_step (s, m) (s', m') -> log_space sz s m -> log_space sz s' m'.
Proof.
  intros Hs [Ho Hn Hr Hc Hz]. inversion Hs as [p ? ? ? Hp H|p k b ? ? ? Hp Hk H|p k ? ? ? Hp H|A c a ? ? ? H]; subst.
  - apply begin_op_log in H as (_ & Hf & E). pose proof (reserved_bounds _ Hc).
    split; rewrite ?E; cbn; [rewrite map_size_insert_None by done; lia|done| |apply map_Forall_insert; [done|split; [done|done]]|done].
    rewrite reserved_insert by done. unfold LOGSIZE in *. lia.
  - apply log_write_log in H as (bs & _ & H). pose proof (Hc _ _ Hp) as Hk0. cbn in Hk0.
    assert (lg_outstanding (ls_log s') = lg_outstanding (ls_log s) /\ lg_size (ls_log s') = lg_size (ls_log s) /\
      lg_n (ls_log s) <= lg_n (ls_log s') <= lg_n (ls_log s) + 1) as (E1 & E2 & E3) by (destruct H as [-> | ->]; cbn; lia).
    rewrite (reserved_delete _ _ _ Hp) in Hr.
    split; [rewrite map_size_insert_Some by (by exists k); lia|lia| |apply map_Forall_insert_2; [lia|done]|lia].
    rewrite <- insert_delete_eq, reserved_insert by apply lookup_delete_eq. lia.
  - apply end_op_log in H as (_ & H). pose proof (Hc _ _ Hp) as Hk0. cbn in Hk0. rewrite (reserved_delete _ _ _ Hp) in Hr.
    assert (lg_outstanding (ls_log s') = lg_outstanding (ls_log s) - 1 /\ lg_size (ls_log s') = lg_size (ls_log s) /\
      0 <= lg_n (ls_log s') <= lg_n (ls_log s)) as (E1 & E2 & E3).
    { rewrite H. destruct (_ =? 0); [|cbn; lia]. destruct (0 <? _) eqn:E; cbn; lia. }
    assert (0 < size m)%nat by (destruct (decide (size m = 0%nat)) as [->%map_size_empty_inv|]; [done|lia]).
    split; [rewrite map_size_delete, Hp; lia|lia|lia|by apply map_Forall_delete|lia].
  - apply log_keeps_lift in H. split; rewrite ?H; done.
Qed.

Lemma log_space_reach sz x y : rtc fs_step x y -> log_space sz (fst x) (snd x) -> log_space sz (fst y) (snd y).
Proof. intros Hr H0. induction Hr as [|[] [] ? H _ IH]; [done|]. apply IH. by eapply log_space_step. Qed.

(** C3: begin_op()'s reservation is enough.  However the calls in progress
    interleave begin_op(), their log_write()s, at most MAXOPBLOCKS each, and
    end_op(), on a log of more than LOGSIZE blocks log_write() never panics for
    a full log or for a missing transaction: only misuse of a lock is left. *)
Theorem reservation_suffices sz s0 s m p k :
  LOGSIZE < sz -> lg_size (ls_log s0) = sz -> lg_n (ls_log s0) = 0 -> lg_outstanding (ls_log s0) = 0 ->
  rtc fs_step (s0, ∅) (s, m) -> m !! p = Some k -> k < MAXOPBLOCKS ->
  forall b msg s', log_write b s = Panic msg s' -> msg = "acquire"%string \/ msg = "release"%string.
Proof.
  intros Hz Hs Hn Ho Hr Hp Hk b msg s'.
  assert (log_space sz s0 ∅) as H0.
  { split; [by rewrite Ho|by rewrite Hn|rewrite Hn; by vm_compute|apply map_Forall_empty|done]. }
  destruct (log_space_reach sz _ _ Hr H0) as [Io In Ir Ic Iz]. cbn [fst snd] in *.
  rewrite (reserved_delete _ _ _ Hp) in Ir.
  assert (0 <= reserved (delete p m)) by (apply reserved_bounds; by apply map_Forall_delete).
  assert (0 < size m)%nat by (destruct (decide (size m = 0%nat)) as [->%map_size_empty_inv|]; [done|lia]).
  apply log_write_panics; lia.
Qed.

(** A log of 31 blocks, two calls begun. *)
Definition fresh_log (sz : Z) (d : Z -> block) : lst :=
  mkLst (cold_cache d) (mkLog 2 sz 0 0 ROOTDEV 0 (replicate 30 0)).

Lemma reservation_suffices_witness :
  let s0 := fresh_log 31 (fun _ => zero_block) in
  exists s, rtc fs_step (s0, ∅) (s, {[7 := 0]}) /\ ~ exists s', log_write 3 s = Panic "too big a transaction" s'.
Proof.
  set (s0 := fresh_log 31 (fun _ => zero_block)).
  assert (exists s, begin_op s0 = Ret tt s) as [s E] by (eexists; vm_compute; reflexivity).
  assert (rtc fs_step (s0, ∅) (s, {[7 := 0]})) as Hr.
  { apply rtc_once. change ({[7 := 0]} : gmap Z Z) with (<[7 := 0]> (∅ : gmap Z Z)). by apply step_begin. }
  exists s. split; [exact Hr|]. intros [s' H].
  destruct (reservation_suffices 31 s0 s {[7 := 0]} 7 0 ltac:(reflexivity) eq_refl eq_refl eq_refl Hr eq_refl
    ltac:(reflexivity) 3 _ _ H) as [F|F]; discriminate F.
Defined.

(** mkfs gives the log LOGSIZE blocks, header included, so it holds only 29:
    three calls that begin_op() admits together, of MAXOPBLOCKS distinct blocks
    each, panic at the last log_write(). *)
Definition panic_message {S A} (o : outcome S A) : option string :=
  match o with Panic msg _ => Some msg | _ => None end.

Lemma three_full_calls_panic :
  let call i := map (fun j => (100 + 10 * i + j, zero_block)) (seqZ 0 MAXOPBLOCKS) in
  panic_message (bind (fun _ => reboot 2 LOGSIZE (fun _ => zero_block))
    (fun _ => begin_op ;;; begin_op ;;; begin_op ;;; updates (call 0) ;;; updates (call 1) ;;; updates (call 2))
    (fresh_log LOGSIZE (fun _ => zero_block))) = Some "too big a transaction"%string.
Proof. vm_compute. reflexivity. Qed.
