(* ===== verification/VirtioDisk.v ===== *)
(** * kernel/virtio_disk.c

    The disk driver and the device behind it.  Pointers the driver puts into
    descriptors are values of [daddr]: a command header disk.ops[i], the data of
    a buffer, or the status byte of disk.info[i].  The medium is a flat array of
    bytes, 512 to a sector.

    virtio_disk_rw sleeps in the middle: [rw_start] is the function up to the
    point where it waits for the interrupt, [rw_wait] what it does when it is
    woken.  The device is an environment with the behaviour the virtio
    specification gives it: it fetches chains from the avail ring in order
    ([dev_fetch]) and completes fetched requests in any order ([dev_serve]). *)
From stdpp Require Import strings.
From S2P Require Import Prelude Mem StringC Net Kalloc Page Vm KState VirtioNet NetRx VirtioInit Locks Bio.
From Stdlib Require Import ZArith Lia.
Local Open Scope list_scope.
Local Open Scope Z_scope.
Local Open Scope kernel_scope.

Module Disk.

Definition VIRTIO_BLK_T_IN : Z := 0.
Definition VIRTIO_BLK_T_OUT : Z := 1.

Inductive daddr := A_null | A_op (i : Z) | A_data (b : Z) | A_status (i : Z).

(** struct virtq_desc *)
Record desc := mkDesc { d_addr : daddr; d_len : Z; d_flags : Z; d_next : Z }.
Definition zero_desc : desc := mkDesc A_null 0 0 0.

(** struct virtio_blk_req *)
Record blk_req := mkReq { r_type : Z; r_reserved : Z; r_sector : Z }.

(** struct disk; [dk_used*] is the used ring, written by the device. *)
Record disk := mkDisk {
  dk_desc : list desc;
  dk_avail_idx : Z; dk_avail_ring : list Z;
  dk_used_ring_idx : Z; dk_used_ring : list Z;
  dk_free : list Z; dk_used_idx : Z;
  dk_info : list (option Z * Z);
  dk_ops : list blk_req
}.

(** The driver, the buffers' data, blockno and disk fields, the device (the
    avail entries it has fetched, the avail index it was notified of, the
    requests in progress, the medium), and the locks. *)
Record dst := mkDst {
  ds_disk : disk;
  ds_data : Z -> block; ds_blockno : Z -> Z; ds_busy : Z -> Z;
  ds_seen : Z; ds_told : Z; ds_pending : list Z; ds_media : Z -> Z;
  ds_lk : lkst
}.

Definition set_disk (k : disk) (s : dst) : dst :=
  mkDst k (ds_data s) (ds_blockno s) (ds_busy s) (ds_seen s) (ds_told s) (ds_pending s) (ds_media s) (ds_lk s).
Definition set_busy (b v : Z) (s : dst) : dst :=
  mkDst (ds_disk s) (ds_data s) (ds_blockno s) (upd (ds_busy s) b v) (ds_seen s) (ds_told s) (ds_pending s) (ds_media s) (ds_lk s).
Definition set_told (x : Z) (s : dst) : dst :=
  mkDst (ds_disk s) (ds_data s) (ds_blockno s) (ds_busy s) (ds_seen s) x (ds_pending s) (ds_media s) (ds_lk s).
#[export] Instance dst_lk : Lens dst lkst.
Proof.
  refine {| view := ds_lk; update := fun k s =>
    mkDst (ds_disk s) (ds_data s) (ds_blockno s) (ds_busy s) (ds_seen s) (ds_told s) (ds_pending s) (ds_media s) k |};
  [done|by intros []|done].
Defined.

Definition set_free (l : list Z) (k : disk) : disk :=
  mkDisk (dk_desc k) (dk_avail_idx k) (dk_avail_ring k) (dk_used_ring_idx k) (dk_used_ring k) l (dk_used_idx k) (dk_info k) (dk_ops k).
Definition set_desc (l : list desc) (k : disk) : disk :=
  mkDisk l (dk_avail_idx k) (dk_avail_ring k) (dk_used_ring_idx k) (dk_used_ring k) (dk_free k) (dk_used_idx k) (dk_info k) (dk_ops k).
Definition set_avail (i : Z) (l : list Z) (k : disk) : disk :=
  mkDisk (dk_desc k) i l (dk_used_ring_idx k) (dk_used_ring k) (dk_free k) (dk_used_idx k) (dk_info k) (dk_ops k).
Definition set_used (i : Z) (l : list Z) (k : disk) : disk :=
  mkDisk (dk_desc k) (dk_avail_idx k) (dk_avail_ring k) i l (dk_free k) (dk_used_idx k) (dk_info k) (dk_ops k).
Definition set_used_idx (i : Z) (k : disk) : disk :=
  mkDisk (dk_desc k) (dk_avail_idx k) (dk_avail_ring k) (dk_used_ring_idx k) (dk_used_ring k) (dk_free k) i (dk_info k) (dk_ops k).
Definition set_info (l : list (option Z * Z)) (k : disk) : disk :=
  mkDisk (dk_desc k) (dk_avail_idx k) (dk_avail_ring k) (dk_used_ring_idx k) (dk_used_ring k) (dk_free k) (dk_used_idx k) l (dk_ops k).
Definition set_ops (l : list blk_req) (k : disk) : disk :=
  mkDisk (dk_desc k) (dk_avail_idx k) (dk_avail_ring k) (dk_used_ring_idx k) (dk_used_ring k) (dk_free k) (dk_used_idx k) (dk_info k) l.

(** [disk.<field>[i] = x] and [disk.<field>[i]], with the bounds of the array. *)
Definition store {A} (field : disk -> list A) (set : list A -> disk -> disk) (i : Z) (x : A) : M dst unit := fun s =>
  match zset (field (ds_disk s)) i x with
  | None => Fault s
  | Some l => Ret tt (set_disk (set l (ds_disk s)) s)
  end.
Definition load {A} (field : disk -> list A) (i : Z) : M dst A := fun s =>
  match znth (field (ds_disk s)) i with None => Fault s | Some x => Ret x s end.
Definition put_desc := store dk_desc set_desc.
Definition put_info := store dk_info set_info.

(** ** Descriptors *)

Definition alloc_desc : M dst Z := fun s =>
  match take_free (dk_free (ds_disk s)) 0 with
  | Some (i, l) => Ret i (set_disk (set_free l (ds_disk s)) s)
  | None => Ret (-1) s
  end.

Definition chan_free : Z := -2.

Definition free_desc (i : Z) : M dst unit :=
  if NUM <=? i then panic "free_desc 1"
  else
    f <- load dk_free i ;;
    if negb (f =? 0) then panic "free_desc 2"
    else
      put_desc i zero_desc ;;;
      store dk_free set_free i 1 ;;;
      lift (wakeup chan_free).

(** The loop ends at a descriptor without VRING_DESC_F_NEXT; freeing one twice
    panics, so it makes at most NUM turns and one. *)
Fixpoint free_chain_loop (fuel : nat) (i : Z) : M dst unit :=
  match fuel with
  | O => fun s => Spin s
  | S fuel =>
      d <- load dk_desc i ;;
      free_desc i ;;;
      if negb (Z.land (d_flags d) VRING_DESC_F_NEXT =? 0) then free_chain_loop fuel (d_next d) else ret tt
  end.
Definition free_chain (i : Z) : M dst unit := free_chain_loop 9 i.

(** [None] is the answer -1; the descriptors got so far are given back. *)
Definition alloc3_desc : M dst (option (Z * Z * Z)) :=
  i0 <- alloc_desc ;;
  if i0 <? 0 then ret None
  else
    i1 <- alloc_desc ;;
    if i1 <? 0 then free_desc i0 ;;; ret None
    else
      i2 <- alloc_desc ;;
      if i2 <? 0 then free_desc i0 ;;; free_desc i1 ;;; ret None
      else ret (Some (i0, i1, i2)).

(** ** Requests *)

Definition chan_buf (b : Z) : Z := 1000 + b.

(** The three descriptors of a request, their publication and the notification. *)
Definition format (b : Z) (write : bool) (sector i0 i1 i2 : Z) : M dst unit :=
  store dk_ops set_ops i0 (mkReq (if write then VIRTIO_BLK_T_OUT else VIRTIO_BLK_T_IN) 0 sector) ;;;
  put_desc i0 (mkDesc (A_op i0) 16 VRING_DESC_F_NEXT i1) ;;;
  put_desc i1 (mkDesc (A_data b) BSIZE (Z.lor (if write then 0 else VRING_DESC_F_WRITE) VRING_DESC_F_NEXT) i2) ;;;
  info <- load dk_info i0 ;;
  put_info i0 (fst info, 0xff) ;;;
  put_desc i2 (mkDesc (A_status i0) 1 VRING_DESC_F_WRITE 0) ;;;
  modify (set_busy b 1) ;;;
  put_info i0 (Some b, 0xff) ;;;
  idx <- gets (fun s => dk_avail_idx (ds_disk s)) ;;
  store dk_avail_ring (set_avail idx) (idx mod NUM) i0 ;;;
  modify (fun s => set_disk (set_avail (u16 (idx + 1)) (dk_avail_ring (ds_disk s)) (ds_disk s)) s) ;;;
  modify (fun s => set_told (dk_avail_idx (ds_disk s)) s).

(** virtio_disk_rw up to its wait; the head of the chain is the result.  When
    descriptors are short it sleeps and, woken, tries again from alloc3_desc. *)
Definition rw_start (b : Z) (write : bool) : M dst Z :=
  blockno <- gets (fun s => ds_blockno s b) ;;
  let sector := u32 (blockno * (BSIZE / 512)) in
  lift (acquire L_vdisk) ;;;
  idx <- alloc3_desc ;;
  match idx with
  | None => lift (sleep chan_free L_vdisk)
  | Some (i0, i1, i2) =>
      format b write sector i0 i1 i2 ;;;
      lift (release L_vdisk) ;;;
      ret i0
  end.

(** The rest: back from sleep() with the lock held, [while(b->disk == 1)]. *)
Definition rw_wait (b i0 : Z) : M dst unit :=
  lift (acquire L_vdisk) ;;;
  busy <- gets (fun s => ds_busy s b) ;;
  if busy =? 1 then lift (sleep (chan_buf b) L_vdisk)
  else
    info <- load dk_info i0 ;;
    put_info i0 (None, snd info) ;;;
    free_chain i0 ;;;
    lift (release L_vdisk).

Fixpoint intr_loop (fuel : nat) : M dst unit :=
  match fuel with
  | O => fun s => Spin s
  | S fuel =>
      k <- gets ds_disk ;;
      if dk_used_idx k =? dk_used_ring_idx k then ret tt
      else
        id <- load dk_used_ring (dk_used_idx k mod NUM) ;;
        info <- load dk_info id ;;
        if negb (snd info =? 0) then panic "virtio_disk_intr status"
        else
          match fst info with
          | None => fault
          | Some b =>
              modify (set_busy b 0) ;;;
              lift (wakeup (chan_buf b)) ;;;
              modify (fun s => set_disk (set_used_idx (u16 (dk_used_idx k + 1)) (ds_disk s)) s) ;;;
              intr_loop fuel
          end
  end.

(** used_idx comes up to used->idx in as many turns as their distance. *)
Definition virtio_disk_intr : M dst unit :=
  lift (acquire L_vdisk) ;;;
  k <- gets ds_disk ;;
  intr_loop (S (Z.to_nat (u16 (dk_used_ring_idx k - dk_used_idx k)))) ;;;
  lift (release L_vdisk).

(** ** The device *)

(** It takes the next chain from the avail ring, of those it was notified of. *)
Definition dev_fetch (s : dst) : option dst :=
  let k := ds_disk s in
  if ds_seen s =? ds_told s then None
  else match znth (dk_avail_ring k) (ds_seen s mod NUM) with
       | None => None
       | Some h => Some (mkDst k (ds_data s) (ds_blockno s) (ds_busy s) (u16 (ds_seen s + 1)) (ds_told s) (ds_pending s ++ [h])
                                (ds_media s) (ds_lk s))
       end.

(** The 1024 bytes at [sector], and the medium after they are written. *)
Definition read_sectors (m : Z -> Z) (sector : Z) (old : block) : block :=
  fun i => if (0 <=? i) && (i <? BSIZE) then m (512 * sector + i) else old i.
Definition write_sectors (m : Z -> Z) (sector : Z) (d : block) : Z -> Z :=
  fun a => if (512 * sector <=? a) && (a <? 512 * sector + BSIZE) then d (a - 512 * sector) else m a.

(** It serves the request at [h]: follows the chain of three descriptors, moves
    the data as the command says, sets the status byte to 0 and adds the chain
    to the used ring. *)
Definition dev_serve (h : Z) (s : dst) : option dst :=
  let k := ds_disk s in
  match znth (dk_desc k) h with
  | Some (mkDesc (A_op o) _ f0 n0) =>
      match znth (dk_ops k) o, znth (dk_desc k) n0 with
      | Some (mkReq ty _ sector), Some (mkDesc (A_data b) len f1 n1) =>
          match znth (dk_desc k) n1 with
          | Some (mkDesc (A_status j) _ f2 _) =>
              match znth (dk_info k) j with
              | Some (ib, _) =>
                  if (f0 =? VRING_DESC_F_NEXT) && (len =? BSIZE) && (f2 =? VRING_DESC_F_WRITE) &&
                     (f1 =? Z.lor (if ty =? VIRTIO_BLK_T_IN then VRING_DESC_F_WRITE else 0) VRING_DESC_F_NEXT)
                  then
                    match zset (dk_info k) j (ib, 0), zset (dk_used_ring k) (dk_used_ring_idx k mod NUM) h with
                    | Some info, Some ring =>
                        let k := set_used (u16 (dk_used_ring_idx k + 1)) ring (set_info info k) in
                        Some (mkDst k
                          (if ty =? VIRTIO_BLK_T_IN
                           then upd (ds_data s) b (read_sectors (ds_media s) sector (ds_data s b)) else ds_data s)
                          (ds_blockno s) (ds_busy s) (ds_seen s) (ds_told s) (base.filter (fun x => x <> h) (ds_pending s))
                          (if ty =? VIRTIO_BLK_T_IN then ds_media s else write_sectors (ds_media s) sector (ds_data s b))
                          (ds_lk s))
                    | _, _ => None
                    end
                  else None
              | None => None
              end
          | _ => None
          end
      | _, _ => None
      end
  | _ => None
  end.

(** ** Everything that can happen *)

(** A process that waits in virtio_disk_rw: its idx[0] and [write], what its
    buffer and its block on the medium were when it asked, and how many wakeups
    there had been when it last went to sleep. *)
Record request := mkWait { w_head : Z; w_write : bool; w_data : block; w_media : block; w_slept : nat }.
(** The requests by buffer.  The buffer cache gives a block at most one buffer,
    and the owner of a buffer that is not waiting may do what it likes with it. *)
Notation requests := (gmap Z request).

(** Block [n] on the medium. *)
Definition media_block (s : dst) (n : Z) : block := fun i => ds_media s (1024 * n + i).
Definition wakeups (s : dst) : list Z := lk_wakeups (ds_lk s).
(** Since the owner of [b] went to sleep there was a wakeup on its channel. *)
Definition woken (s : dst) (b : Z) (x : request) : Prop := chan_buf b ∈ drop (w_slept x) (wakeups s).
Definition sleep_again (s : dst) (x : request) : request := mkWait (w_head x) (w_write x) (w_data x) (w_media x) (length (wakeups s)).

Inductive disk_step : dst * requests -> dst * requests -> Prop :=
  | st_start b w i0 s s' P : P !! b = None -> 0 <= ds_blockno s b < 2 ^ 31 ->
      (forall b' x, P !! b' = Some x -> ds_blockno s b' <> ds_blockno s b) ->
      rw_start b w s = Ret i0 s' ->
      disk_step (s, P) (s', <[b := mkWait i0 w (ds_data s b) (media_block s (ds_blockno s b)) (length (wakeups s'))]> P)
  | st_no_desc b w c s s' P : rw_start b w s = Blocked c s' -> disk_step (s, P) (s', P)
  | st_fetch s s' P : dev_fetch s = Some s' -> disk_step (s, P) (s', P)
  | st_serve h s s' P : h ∈ ds_pending s -> dev_serve h s = Some s' -> disk_step (s, P) (s', P)
  | st_intr s s' P : virtio_disk_intr s = Ret tt s' -> disk_step (s, P) (s', P)
  | st_wait b x s s' P : P !! b = Some x -> woken s b x -> rw_wait b (w_head x) s = Ret tt s' -> disk_step (s, P) (s', delete b P)
  | st_not_yet b x c s s' P : P !! b = Some x -> woken s b x -> rw_wait b (w_head x) s = Blocked c s' ->
      disk_step (s, P) (s', <[b := sleep_again s' x]> P)
  | st_owner b d n s P : P !! b = None ->
      disk_step (s, P) (mkDst (ds_disk s) (upd (ds_data s) b d) (upd (ds_blockno s) b n) (ds_busy s) (ds_seen s) (ds_told s)
                              (ds_pending s) (ds_media s) (ds_lk s), P).

(** ** The invariant *)

(** The heads and directions of the requests. *)
Notation waiting := (gmap Z (Z * bool)).
(** A request in flight: its three descriptors, buffer and direction. *)
Record req := mkRequest { q_head : Z; q_mid : Z; q_tail : Z; q_buf : Z; q_write : bool }.
#[export] Instance req_eq : EqDecision req.
Proof. solve_decision. Defined.
Definition slots (r : req) : list Z := [q_head r; q_mid r; q_tail r].
Definition all_slots (rs : list req) : list Z := rs ≫= slots.

Record chain_ok (k : disk) (blockno : Z) (r : req) : Prop := {
  co_head : znth (dk_desc k) (q_head r) = Some (mkDesc (A_op (q_head r)) 16 VRING_DESC_F_NEXT (q_mid r));
  co_mid : znth (dk_desc k) (q_mid r) = Some (mkDesc (A_data (q_buf r)) BSIZE
    (Z.lor (if q_write r then 0 else VRING_DESC_F_WRITE) VRING_DESC_F_NEXT) (q_tail r));
  co_tail : znth (dk_desc k) (q_tail r) = Some (mkDesc (A_status (q_head r)) 1 VRING_DESC_F_WRITE 0);
  co_op : znth (dk_ops k) (q_head r) = Some (mkReq (if q_write r then 1 else 0) 0 (2 * blockno))
}.

(** The data of the request and the medium agree. *)
Definition transferred (s : dst) (r : req) : Prop :=
  forall i, 0 <= i < BSIZE -> ds_data s (q_buf r) i = ds_media s (1024 * ds_blockno s (q_buf r) + i).

(** The entries of a ring that its reader, at [base], has still to read: its
    writer is at [idx]. *)
Definition window (ring : list Z) (base idx : Z) (W : list Z) : Prop :=
  idx = u16 (base + Z.of_nat (length W)) /\
  forall i h, W !! i = Some h -> znth ring ((base + Z.of_nat i) mod NUM) = Some h.

(** [Q]: published, not fetched; [U]: served, the interrupt not handled; [A]:
    the interrupt handled, the owner not yet back. *)
Record disk_inv (s : dst) (P : waiting) (rs : list req) (Q U A : list Z) : Prop := {
  di_len : length (dk_desc (ds_disk s)) = 8%nat /\ length (dk_avail_ring (ds_disk s)) = 8%nat /\
    length (dk_used_ring (ds_disk s)) = 8%nat /\ length (dk_free (ds_disk s)) = 8%nat /\
    length (dk_info (ds_disk s)) = 8%nat /\ length (dk_ops (ds_disk s)) = 8%nat;
  di_slots : NoDup (all_slots rs) /\ Forall (fun i => 0 <= i < NUM) (all_slots rs);
  di_free : forall i, 0 <= i < NUM ->
    znth (dk_free (ds_disk s)) i = Some (if decide (i ∈ all_slots rs) then 0 else 1);
  di_chain : Forall (fun r => chain_ok (ds_disk s) (ds_blockno s (q_buf r)) r) rs;
  di_info : forall r, r ∈ rs -> exists st, znth (dk_info (ds_disk s)) (q_head r) = Some (Some (q_buf r), st) /\
    (q_head r ∈ U -> st = 0);
  di_heads : q_head <$> rs ≡ₚ Q ++ ds_pending s ++ U ++ A;
  di_waiting : forall b h w, P !! b = Some (h, w) <-> exists r, r ∈ rs /\ q_buf r = b /\ q_head r = h /\ q_write r = w;
  di_bufs : NoDup (q_buf <$> rs);
  di_blocks : NoDup ((fun r => ds_blockno s (q_buf r)) <$> rs) /\ Forall (fun r => 0 <= ds_blockno s (q_buf r) < 2 ^ 31) rs;
  di_avail : window (dk_avail_ring (ds_disk s)) (ds_seen s) (dk_avail_idx (ds_disk s)) Q;
  di_used : window (dk_used_ring (ds_disk s)) (dk_used_idx (ds_disk s)) (dk_used_ring_idx (ds_disk s)) U;
  di_idx : 0 <= ds_seen s < 2 ^ 16 /\ 0 <= dk_used_idx (ds_disk s) < 2 ^ 16;
  di_busy : forall r, r ∈ rs -> ds_busy s (q_buf r) = if decide (q_head r ∈ A) then 0 else 1;
  di_data : forall r, r ∈ rs -> q_head r ∈ U ++ A -> transferred s r;
  di_told : ds_told s = dk_avail_idx (ds_disk s)
}.

Lemma u16_mod_NUM x i : (u16 x + i) mod NUM = (x + i) mod NUM.
Proof.
  unfold u16, NUM. rewrite <- (Z.add_mod_idemp_l _ i 8), <- (Z.add_mod_idemp_l x i 8) by done.
  rewrite <- (Znumtheory.Zmod_div_mod 8 (2 ^ 16) x); [done|done|done|by exists 8192].
Qed.

Lemma mod_NUM_ne x i j : 0 <= i < j -> j < i + NUM -> (x + j) mod NUM <> (x + i) mod NUM.
Proof.
  unfold NUM. intros H1 H2 E. assert ((j - i) mod 8 = 0) as E0.
  { replace (j - i) with (x + j - (x + i)) by lia. rewrite Zminus_mod, E, Z.sub_diag. done. }
  rewrite Z.mod_small in E0; lia.
Qed.

Lemma window_pop ring base idx h W : window ring base idx (h :: W) -> window ring (u16 (base + 1)) idx W.
Proof.
  intros [E1 E2]. split; [rewrite E1; cbn [length]; unfold u16; rewrite Zplus_mod_idemp_l; f_equal; lia|].
  intros i h' Hh. rewrite u16_mod_NUM, <- (E2 (S i) h' Hh). f_equal. f_equal. lia.
Qed.

Lemma window_push ring ring' base idx h W :
  window ring base idx W -> (length W < 8)%nat -> zset ring (idx mod NUM) h = Some ring' ->
  window ring' base (u16 (idx + 1)) (W ++ [h]).
Proof.
  intros [E1 E2] Hl Hz. assert (idx mod NUM = (base + Z.of_nat (length W)) mod NUM) as Em.
  { by rewrite E1, <- (Z.add_0_r (u16 _)), u16_mod_NUM, Z.add_0_r. }
  split; [rewrite E1, length_app; cbn [length]; unfold u16; rewrite Zplus_mod_idemp_l; f_equal; lia|].
  intros i h' H. destruct (decide (i = length W)) as [->|Hi'].
  - rewrite lookup_app_r, Nat.sub_diag in H by lia. injection H as <-. rewrite <- Em. by apply znth_zset_eq in Hz.
  - assert (i < length W)%nat by (apply lookup_lt_Some in H; rewrite length_app in H; cbn in H; lia).
    rewrite lookup_app_l in H by done. rewrite <- (E2 i h' H). eapply znth_zset_ne; [|exact Hz]. rewrite Em.
    apply mod_NUM_ne; unfold NUM; lia.
Qed.

Lemma window_nonempty ring base idx W : window ring base idx W -> 0 <= base < 2 ^ 16 -> (length W < 8)%nat -> base = idx <-> W = [].
Proof.
  intros [E1 _] Hb Hl. split; [|by intros ->; rewrite E1, Z.add_0_r, u16_small].
  intros E. destruct W as [|h W]; [done|]. rewrite <- E in E1. set (n := Z.of_nat (length (h :: W))) in *.
  assert ((base + n) mod NUM = (base + 0) mod NUM) as E'.
  { rewrite E1 at 2. by rewrite u16_mod_NUM, Z.add_0_r. }
  destruct (mod_NUM_ne base 0 n); [unfold n; cbn; lia|unfold NUM; lia|done].
Qed.

Lemma filter_ne_id (h : Z) (l : list Z) : h ∉ l -> base.filter (fun x => x <> h) l = l.
Proof.
  intros H. induction l as [|x l IH]; [done|]. apply not_elem_of_cons in H as [Hne H].
  rewrite filter_cons_True by done. by rewrite IH.
Qed.

Lemma pick_one (h : Z) (l : list Z) : NoDup l -> h ∈ l -> l ≡ₚ h :: base.filter (fun x => x <> h) l.
Proof.
  induction 1 as [|x l Hx Hl IH]; [by intros ?%elem_of_nil|]. intros [->|Hh]%elem_of_cons.
  - rewrite filter_cons_False by tauto. f_equiv. by rewrite filter_ne_id.
  - rewrite filter_cons_True by congruence. rewrite (IH Hh) at 1. apply Permutation_swap.
Qed.

Lemma heads_in_slots r rs : r ∈ rs -> q_head r ∈ all_slots rs /\ q_mid r ∈ all_slots rs /\ q_tail r ∈ all_slots rs.
Proof.
  intros H. assert (forall x, x ∈ slots r -> x ∈ all_slots rs) as Hc.
  { intros x Hx. apply list_elem_of_bind. by exists r. }
  split_and!; apply Hc; unfold slots; set_solver.
Qed.

Lemma slots_disjoint rs r r' x :
  NoDup (all_slots rs) -> r ∈ rs -> r' ∈ rs -> x ∈ slots r -> x ∈ slots r' -> r = r'.
Proof.
  intros Hn. induction rs as [|r0 rs IH]; [by intros ?%elem_of_nil|]. unfold all_slots in *. rewrite bind_cons in Hn.
  apply NoDup_app in Hn as (_ & Hd & Hn). intros [->|Hr]%elem_of_cons [->|Hr']%elem_of_cons Hx Hx'; [done| | |by apply IH].
  - destruct (Hd x Hx). apply list_elem_of_bind. by exists r'.
  - destruct (Hd x Hx'). apply list_elem_of_bind. by exists r.
Qed.

Lemma heads_nodup rs : NoDup (all_slots rs) -> NoDup (q_head <$> rs).
Proof.
  induction rs as [|r rs IH]; intros Hn; [constructor|]. pose proof Hn as Hn0. unfold all_slots in Hn0.
  rewrite bind_cons in Hn0. apply NoDup_app in Hn0 as (_ & Hd & Hn'). cbn [fmap list_fmap]. constructor; [|by apply IH].
  intros (r' & E & Hr')%list_elem_of_fmap. apply (Hd (q_head r)); [unfold slots; set_solver|]. rewrite E.
  by apply (heads_in_slots r' rs).
Qed.

(** NUM descriptors make at most two requests. *)
Lemma at_most_two rs :
  NoDup (all_slots rs) -> Forall (fun i => 0 <= i < NUM) (all_slots rs) -> (length rs <= 2)%nat.
Proof.
  intros Hn Hf. assert (length (all_slots rs) = 3 * length rs)%nat as E.
  { clear. induction rs as [|r rs IH]; [done|]. unfold all_slots in *. rewrite bind_cons, length_app, IH. cbn. lia. }
  assert (all_slots rs ⊆ seqZ 0 8) as Hs.
  { intros x Hx. rewrite Forall_forall in Hf. specialize (Hf x Hx). unfold NUM in Hf. apply elem_of_seqZ. lia. }
  pose proof (submseteq_length _ _ (NoDup_submseteq _ _ Hn Hs)) as Hl. rewrite length_seqZ in Hl.
  change (Z.to_nat 8) with 8%nat in Hl. lia.
Qed.

Section step.
Context (s : dst) (P : waiting) (rs : list req) (Q U A : list Z) (Hi : disk_inv s P rs Q U A).

Lemma inv_heads_nodup : NoDup (Q ++ ds_pending s ++ U ++ A).
Proof using Hi. rewrite <- (di_heads _ _ _ _ _ _ Hi). apply heads_nodup, (di_slots _ _ _ _ _ _ Hi). Qed.

Lemma inv_few : (length Q + length (ds_pending s) + length U + length A <= 2)%nat.
Proof using Hi.
  destruct (di_slots _ _ _ _ _ _ Hi) as [H1 H2]. pose proof (at_most_two _ H1 H2) as H.
  pose proof (Permutation_length (di_heads _ _ _ _ _ _ Hi)) as E. rewrite length_fmap, !length_app in E. lia.
Qed.

Lemma inv_request h : h ∈ Q ++ ds_pending s ++ U ++ A -> exists r, r ∈ rs /\ q_head r = h.
Proof using Hi.
  rewrite <- (di_heads _ _ _ _ _ _ Hi). intros (r & -> & Hr)%list_elem_of_fmap. by exists r.
Qed.

Lemma inv_head_eq r r' : r ∈ rs -> r' ∈ rs -> q_head r = q_head r' -> r = r'.
Proof using Hi.
  intros Hr Hr' E. apply (slots_disjoint rs r r' (q_head r)); try done; [apply (di_slots _ _ _ _ _ _ Hi)| |];
    [|rewrite E]; unfold slots; set_solver.
Qed.

Lemma inv_range r : r ∈ rs -> (0 <= q_head r < 8) /\ (0 <= q_mid r < 8) /\ (0 <= q_tail r < 8).
Proof using Hi.
  intros H. destruct (di_slots _ _ _ _ _ _ Hi) as [_ Hf]. rewrite Forall_forall in Hf. unfold NUM in Hf.
  destruct (heads_in_slots r rs H) as (H1 & H2 & H3). by apply Hf in H1, H2, H3.
Qed.

Lemma inv_buf_eq r r' : r ∈ rs -> r' ∈ rs -> q_buf r = q_buf r' -> r = r'.
Proof using Hi.
  intros Hr Hr' E. apply list_elem_of_lookup in Hr as [i Hr], Hr' as [j Hr'].
  assert (i = j) as ->; [|congruence]. apply (NoDup_lookup _ i j (q_buf r) (di_bufs _ _ _ _ _ _ Hi));
    rewrite list_lookup_fmap; [by rewrite Hr|by rewrite Hr', E].
Qed.

Lemma inv_block_eq r r' : r ∈ rs -> r' ∈ rs -> ds_blockno s (q_buf r) = ds_blockno s (q_buf r') -> r = r'.
Proof using Hi.
  intros Hr Hr' E. apply list_elem_of_lookup in Hr as [i Hr], Hr' as [j Hr'].
  assert (i = j) as ->; [|congruence].
  apply (NoDup_lookup _ i j (ds_blockno s (q_buf r)) (proj1 (di_blocks _ _ _ _ _ _ Hi)));
    rewrite list_lookup_fmap; [by rewrite Hr|by rewrite Hr', E].
Qed.

(** *** The device fetches *)
Lemma dev_fetch_inv s' : dev_fetch s = Some s' -> exists h Q', Q = h :: Q' /\ disk_inv s' P rs Q' U A /\ ds_lk s' = ds_lk s.
Proof using Hi.
  unfold dev_fetch. rewrite (di_told _ _ _ _ _ _ Hi). pose proof (di_avail _ _ _ _ _ _ Hi) as Ha. destruct (di_idx _ _ _ _ _ _ Hi) as [Hs Hu].
  pose proof inv_few as Hf. destruct (Z.eqb_spec (ds_seen s) (dk_avail_idx (ds_disk s))) as [|Hne]; [done|].
  rewrite (window_nonempty _ _ _ _ Ha) in Hne by (done || lia). destruct Q as [|h Q']; [done|].
  pose proof (proj2 Ha 0%nat h eq_refl) as E0. rewrite Z.add_0_r in E0. rewrite E0. intros [= <-].
  exists h, Q'. split; [done|]. split; [|done]. pose proof (di_heads _ _ _ _ _ _ Hi) as Hp.
  destruct Hi as [I1 I2 I3 I4 I5 I6 I7 I8 I9 I10 I11 I12 I13 I14 I15]. split; cbn; try done.
  - rewrite Hp, <- (app_assoc (ds_pending s)). cbn. rewrite !(app_assoc Q'). apply Permutation_middle.
  - by eapply window_pop.
  - split; [apply u16_range|done].
Qed.

(** *** The device serves *)
Definition served (r : req) (info : list (option Z * Z)) (ring : list Z) : dst :=
  let k := ds_disk s in let n := ds_blockno s (q_buf r) in
  mkDst (set_used (u16 (dk_used_ring_idx k + 1)) ring (set_info info k))
    (if q_write r then ds_data s else upd (ds_data s) (q_buf r) (read_sectors (ds_media s) (2 * n) (ds_data s (q_buf r))))
    (ds_blockno s) (ds_busy s) (ds_seen s) (ds_told s) (base.filter (fun x => x <> q_head r) (ds_pending s))
    (if q_write r then write_sectors (ds_media s) (2 * n) (ds_data s (q_buf r)) else ds_media s) (ds_lk s).

Lemma dev_serve_eq r :
  r ∈ rs -> exists info ring, dev_serve (q_head r) s = Some (served r info ring) /\
    zset (dk_info (ds_disk s)) (q_head r) (Some (q_buf r), 0) = Some info /\
    zset (dk_used_ring (ds_disk s)) (dk_used_ring_idx (ds_disk s) mod NUM) (q_head r) = Some ring.
Proof using Hi.
  intros Hr. destruct (inv_range r Hr) as (R1 & R2 & R3). pose proof (di_chain _ _ _ _ _ _ Hi) as Hc.
  rewrite Forall_forall in Hc. destruct (Hc r Hr) as [C1 C2 C3 C4]. destruct (di_info _ _ _ _ _ _ Hi r Hr) as (st & I1 & _).
  destruct (di_len _ _ _ _ _ _ Hi) as (_ & _ & L3 & _ & L5 & _).
  pose proof (Z.mod_pos_bound (dk_used_ring_idx (ds_disk s)) NUM ltac:(done)) as Hm. unfold NUM in *.
  pose proof (zset_Some (dk_info (ds_disk s)) (q_head r) (Some (q_buf r), 0) ltac:(lia)) as Z1.
  pose proof (zset_Some (dk_used_ring (ds_disk s)) (dk_used_ring_idx (ds_disk s) mod 8) (q_head r) ltac:(lia)) as Z2.
  eexists _, _. split; [|split; [exact Z1|exact Z2]]. unfold dev_serve, NUM. rewrite C1, C4, C2, C3, I1, Z1, Z2.
  destruct (q_write r) eqn:Ew; cbn [Z.eqb andb]; (rewrite ?Z.eqb_refl; cbn [andb]); unfold served; rewrite Ew; reflexivity.
Qed.

Lemma transferred_served r r' info ring :
  r ∈ rs -> r' ∈ rs -> (r' = r \/ transferred s r') -> transferred (served r info ring) r'.
Proof using Hi.
  intros Hr Hr' H i Hib. unfold served. cbn. destruct (decide (r' = r)) as [->|Hne].
  - destruct (q_write r).
    + unfold write_sectors. zb. cbn [andb]. f_equal. lia.
    + rewrite upd_eq. unfold read_sectors. zb. cbn [andb]. f_equal. lia.
  - destruct H as [|H]; [done|]. assert (q_buf r' <> q_buf r) as Hb by (intros E; by apply Hne, inv_buf_eq).
    assert (ds_blockno s (q_buf r') <> ds_blockno s (q_buf r)) as Hn by (intros E; by apply Hne, inv_block_eq).
    destruct (q_write r).
    + unfold write_sectors. unfold BSIZE in *.
      destruct ((512 * _ <=? _) && _) eqn:E; [|by apply H]. exfalso.
      apply andb_true_iff in E as [E1%Z.leb_le E2%Z.ltb_lt]. lia.
    + rewrite upd_ne by done. by apply H.
Qed.

Lemma dev_serve_inv r info ring :
  r ∈ rs -> q_head r ∈ ds_pending s -> zset (dk_info (ds_disk s)) (q_head r) (Some (q_buf r), 0) = Some info ->
  zset (dk_used_ring (ds_disk s)) (dk_used_ring_idx (ds_disk s) mod NUM) (q_head r) = Some ring ->
  disk_inv (served r info ring) P rs Q (U ++ [q_head r]) A.
Proof using Hi.
  intros Hr Hp Hz1 Hz2. pose proof inv_heads_nodup as Hnd. pose proof inv_few as Hf. pose proof (di_heads _ _ _ _ _ _ Hi) as Hh.
  assert (q_head r ∉ U ++ A /\ ds_pending s ≡ₚ q_head r :: base.filter (fun x => x <> q_head r) (ds_pending s)) as [Hn Hpp].
  { apply NoDup_app in Hnd as (_ & _ & Hnd). apply NoDup_app in Hnd as (Hn1 & Hn2 & _). split; [by apply Hn2|].
    by apply pick_one. }
  assert (forall r', r' ∈ rs -> q_head r' <> q_head r -> r' <> r) as Hne by congruence.
  pose proof Hi as [I1 I2 I3 I4 I5 I6 I7 I8 I9 I10 I11 I12 I13 I14 I15]. split; try done.
  - cbn. rewrite (zset_length _ _ _ _ Hz1), (zset_length _ _ _ _ Hz2). done.
  - eapply Forall_impl; [exact I4|]. by intros r' [].
  - intros r' Hr'. cbn. destruct (decide (q_head r' = q_head r)) as [E|E].
    + apply (inv_head_eq r' r) in E as ->; [|done..]. exists 0. split; [by apply znth_zset_eq in Hz1|done].
    + rewrite (znth_zset_ne _ _ _ (q_head r') _ (not_eq_sym E) Hz1). destruct (I5 r' Hr') as (st & H1 & H2). exists st.
      split; [done|]. intros [H|H%list_elem_of_singleton]%elem_of_app; [by apply H2|done].
  - cbn. rewrite Hh, Hpp at 1. rewrite <- !app_assoc. apply Permutation_app_head. cbn.
    rewrite !(app_assoc _ U). apply Permutation_middle.
  - cbn. eapply window_push; [exact I11|lia|exact Hz2].
  - intros r' Hr' Hu. apply transferred_served; [done|done|].
    destruct (decide (q_head r' = q_head r)) as [E|E]; [left; by apply inv_head_eq|right]. apply I14; [done|].
    rewrite !elem_of_app, list_elem_of_singleton in Hu. rewrite elem_of_app. tauto.
Qed.

End step.

Lemma disk_inv_lk s P rs Q U A k : disk_inv s P rs Q U A -> disk_inv (update k s) P rs Q U A.
Proof. by intros []. Qed.

(** *** The interrupt *)
Definition intr_one (s : dst) (r : req) (k : lkst) : dst :=
  mkDst (set_used_idx (u16 (dk_used_idx (ds_disk s) + 1)) (ds_disk s)) (ds_data s) (ds_blockno s)
        (upd (ds_busy s) (q_buf r) 0) (ds_seen s) (ds_told s) (ds_pending s) (ds_media s) k.

Lemma intr_one_inv s P rs Q h U' A r k :
  disk_inv s P rs Q (h :: U') A -> r ∈ rs -> q_head r = h -> disk_inv (intr_one s r k) P rs Q U' (A ++ [h]).
Proof.
  intros Hi Hr <-. pose proof (di_heads _ _ _ _ _ _ Hi) as Hh.
  pose proof Hi as [I1 I2 I3 I4 I5 I6 I7 I8 I9 I10 I11 I12 I13 I14 I15]. split; try done.
  - eapply Forall_impl; [exact I4|]. by intros r' [].
  - intros r' Hr'. destruct (I5 r' Hr') as (st & H1 & H2). exists st. split; [done|]. intros Hu. by apply H2, elem_of_cons; right.
  - cbn. rewrite Hh. do 2 apply Permutation_app_head. cbn. rewrite !(app_assoc U'). apply Permutation_cons_append.
  - cbn. by eapply window_pop.
  - cbn. split; [apply I12|apply u16_range].
  - intros r' Hr'. cbn. destruct (decide (q_buf r' = q_buf r)) as [E|E].
    + rewrite E, upd_eq. apply (inv_buf_eq _ _ _ _ _ _ Hi r' r) in E as ->; [|done..]. rewrite decide_True; [done|]. set_solver.
    + rewrite upd_ne by done. rewrite (I13 r' Hr'). destruct (decide (q_head r' = q_head r)) as [E'|E'].
      { destruct E. by rewrite (inv_head_eq _ _ _ _ _ _ Hi r' r). }
      apply decide_ext. rewrite elem_of_app, list_elem_of_singleton. tauto.
  - intros r' Hr' Hu. apply I14; [done|]. set_solver.
Qed.

Lemma load_Ret {B} (f : disk -> list B) i x s0 : znth (f (ds_disk s0)) i = Some x -> load f i s0 = Ret x s0.
Proof. unfold load. by intros ->. Qed.

Lemma lk_step {B} (c : M lkst B) s0 a k : c (ds_lk s0) = Ret a k -> lift c s0 = Ret a (update k s0).
Proof. intros H. unfold lift. cbn. by rewrite H. Qed.

(** [s'] has the data of [s], and the owners of the requests [U] were woken. *)
Record wakes (s s' : dst) (rs : list req) (U : list Z) : Prop := {
  wk_data : ds_data s' = ds_data s; wk_media : ds_media s' = ds_media s; wk_blockno : ds_blockno s' = ds_blockno s;
  wk_all : exists l, wakeups s' = wakeups s ++ l /\ forall r, r ∈ rs -> q_head r ∈ U -> chan_buf (q_buf r) ∈ l
}.

Lemma intr_loop_ok U : forall fuel s P rs Q A,
  disk_inv s P rs Q U A -> (length U < fuel)%nat ->
  exists s', intr_loop fuel s = Ret tt s' /\ disk_inv s' P rs Q [] (A ++ U) /\ lk_held (ds_lk s') = lk_held (ds_lk s) /\
    wakes s s' rs U.
Proof.
  induction U as [|h U IH]; intros fuel s P rs Q A Hi Hf; (destruct fuel as [|fuel]; [cbn in Hf; lia|]);
    cbn [intr_loop]; rewrite bind_gets; destruct (di_used _ _ _ _ _ _ Hi) as [E1 E2];
    destruct (di_idx _ _ _ _ _ _ Hi) as [_ Hr].
  - cbn [length] in E1. rewrite Z.add_0_r, u16_small in E1 by done. rewrite E1, Z.eqb_refl. exists s.
    rewrite app_nil_r. split; [done|]. split; [done|]. split; [done|]. split; try done. exists []. rewrite app_nil_r.
    split; [done|]. by intros r _ ?%elem_of_nil.
  - assert (dk_used_idx (ds_disk s) =? dk_used_ring_idx (ds_disk s) = false) as ->.
    { apply Z.eqb_neq. rewrite (window_nonempty _ _ _ _ (di_used _ _ _ _ _ _ Hi)) by (done || (pose proof (inv_few _ _ _ _ _ _ Hi); lia)). done. }
    destruct (inv_request _ _ _ _ _ _ Hi h) as (r & Hr' & Eh); [set_solver|].
    destruct (di_info _ _ _ _ _ _ Hi r Hr') as (st & Ei & Est). rewrite Eh in Ei, Est. rewrite Est in Ei by set_solver.
    pose proof (E2 0%nat h eq_refl) as E0. rewrite Z.add_0_r in E0.
    rewrite (bind_Ret _ _ _ _ _ (load_Ret dk_used_ring _ _ s E0)), (bind_Ret _ _ _ _ _ (load_Ret dk_info _ _ s Ei)).
    cbn [fst snd Z.eqb negb]. rewrite (bind_Ret _ _ _ _ _ (eq_refl : modify _ _ = _)).
    erewrite bind_Ret by (apply lk_step; reflexivity). rewrite (bind_Ret _ _ _ _ _ (eq_refl : modify _ _ = _)).
    match goal with |- context [intr_loop fuel ?x] => set (s1 := x) end.
    assert (s1 = intr_one s r (ds_lk s1)) as Es by reflexivity.
    pose proof (intr_one_inv _ _ _ _ _ _ _ r (ds_lk s1) Hi Hr' Eh) as I1. rewrite <- Es in I1.
    destruct (IH fuel s1 P rs Q _ I1) as (s' & E & I' & Hl & [W1 W2 W3 (l & W4 & W5)]); [cbn in Hf; lia|]. exists s'.
    split; [exact E|]. split; [by rewrite <- app_assoc in I'|]. split; [by rewrite Hl|]. split; [by rewrite W1|by rewrite W2|by rewrite W3|].
    exists (chan_buf (q_buf r) :: l). split; [rewrite W4; unfold wakeups, s1; cbn; by rewrite <- app_assoc|].
    intros r' H' [E'|Hu]%elem_of_cons; [|right; by apply W5].
    rewrite (inv_head_eq _ _ _ _ _ _ Hi r' r) by (done || congruence). by left.
Qed.

Lemma virtio_disk_intr_ok s P rs Q U A :
  disk_inv s P rs Q U A -> lk_held (ds_lk s) = [] ->
  exists s', virtio_disk_intr s = Ret tt s' /\ disk_inv s' P rs Q [] (A ++ U) /\ lk_held (ds_lk s') = [] /\ wakes s s' rs U.
Proof.
  intros Hi Hl. unfold virtio_disk_intr.
  erewrite bind_Ret by (apply lk_step, lk_acquire_ok; rewrite Hl; apply not_elem_of_nil). rewrite Hl, bind_gets.
  match goal with |- context [ds_disk ?x] => set (s1 := x) end.
  assert (disk_inv s1 P rs Q U A) as I1 by (by apply disk_inv_lk).
  assert (length U < S (Z.to_nat (u16 (dk_used_ring_idx (ds_disk s1) - dk_used_idx (ds_disk s1)))))%nat as Hf.
  { rewrite (proj1 (di_used _ _ _ _ _ _ I1)). pose proof (inv_few _ _ _ _ _ _ I1). unfold u16.
    rewrite Zminus_mod_idemp_l. replace (_ + _ - _) with (Z.of_nat (length U)) by lia. rewrite Z.mod_small; lia. }
  destruct (intr_loop_ok U _ s1 P rs Q A I1 Hf) as (s2 & E2 & I2 & L2 & P2). rewrite (bind_Ret _ _ _ _ _ E2).
  eexists. split; [apply lk_step, (lk_release_ok _ []); [exact L2|apply not_elem_of_nil]|].
  split; [by apply disk_inv_lk|]. split; [done|]. by destruct P2.
Qed.

(** *** Descriptors *)

(** [s'] is [s] with another descriptor table and other free flags, and maybe
    more wakeups. *)
Definition redesc (s s' : dst) (ds : list desc) (fs : list Z) : Prop :=
  exists k, s' = update k (set_disk (set_free fs (set_desc ds (ds_disk s))) s) /\
    (lk_held k = lk_held (ds_lk s) /\ lk_wakeups (ds_lk s) `prefix_of` lk_wakeups k) /\
    length ds = length (dk_desc (ds_disk s)) /\ length fs = length (dk_free (ds_disk s)).

Lemma redesc_refl s : redesc s s (dk_desc (ds_disk s)) (dk_free (ds_disk s)).
Proof. exists (ds_lk s). split; [by destruct s as [[] ? ? ? ? ? ? ? ?]|]. by split_and!. Qed.

Lemma redesc_trans s s1 s2 ds fs ds' fs' : redesc s s1 ds fs -> redesc s1 s2 ds' fs' -> redesc s s2 ds' fs'.
Proof.
  intros (k & -> & (H1 & H1') & H2 & H3) (k' & -> & (H4 & H4') & H5 & H6). exists k'. split; [done|].
  cbn in *. split; [split; [congruence|by etrans]|]. split; congruence.
Qed.

Lemma alloc_desc_ok s :
  length (dk_free (ds_disk s)) = 8%nat ->
  (exists i l s', alloc_desc s = Ret i s' /\ 0 <= i < 8 /\ (exists f, znth (dk_free (ds_disk s)) i = Some f /\ f <> 0) /\
     zset (dk_free (ds_disk s)) i 0 = Some l /\ redesc s s' (dk_desc (ds_disk s)) l) \/ alloc_desc s = Ret (-1) s.
Proof.
  intros Hl. unfold alloc_desc. destruct (take_free _ 0) as [[i l]|] eqn:E; [left|by right].
  apply take_free_spec in E as (H1 & (f & H2 & H3) & -> & _). rewrite Z.sub_0_r in *.
  pose proof (znth_Some_range _ _ _ H2) as Hr. rewrite Hl in Hr.
  eexists i, _, _. split; [done|]. split; [lia|]. split; [by exists f|]. split; [apply zset_Some; lia|].
  exists (ds_lk s). split; [by destruct s as [[] ? ? ? ? ? ? ? ?]|]. split; [by split|]. split; [done|]. by rewrite length_insert.
Qed.

Lemma free_desc_ok s i :
  length (dk_desc (ds_disk s)) = 8%nat -> length (dk_free (ds_disk s)) = 8%nat -> 0 <= i < 8 ->
  znth (dk_free (ds_disk s)) i = Some 0 ->
  exists ds fs s', free_desc i s = Ret tt s' /\ zset (dk_desc (ds_disk s)) i zero_desc = Some ds /\
    zset (dk_free (ds_disk s)) i 1 = Some fs /\ redesc s s' ds fs.
Proof.
  intros L1 L2 Hi Hf. unfold free_desc, NUM. zb. rewrite (bind_Ret _ _ _ _ _ (load_Ret dk_free _ _ s Hf)). cbn [Z.eqb negb].
  pose proof (zset_Some (dk_desc (ds_disk s)) i zero_desc ltac:(lia)) as Z1.
  pose proof (zset_Some (dk_free (ds_disk s)) i 1 ltac:(lia)) as Z2.
  assert (put_desc i zero_desc s = Ret tt (set_disk (set_desc (<[Z.to_nat i:=zero_desc]> (dk_desc (ds_disk s))) (ds_disk s)) s)) as E1
    by (unfold put_desc, store; by rewrite Z1).
  rewrite (bind_Ret _ _ _ _ _ E1). erewrite bind_Ret by (unfold store; cbn; rewrite Z2; reflexivity).
  eexists _, _, _. split; [apply lk_step; reflexivity|]. split; [exact Z1|]. split; [exact Z2|].
  eexists. split; [reflexivity|]. rewrite !length_insert. split; [split; [done|by eexists]|done].
Qed.

Lemma redesc_lists s s' ds fs : redesc s s' ds fs -> dk_desc (ds_disk s') = ds /\ dk_free (ds_disk s') = fs /\
  length ds = length (dk_desc (ds_disk s)) /\ length fs = length (dk_free (ds_disk s)).
Proof. by intros (k & -> & _ & H1 & H2). Qed.

Lemma free_chain_turn fuel s i d :
  length (dk_desc (ds_disk s)) = 8%nat -> length (dk_free (ds_disk s)) = 8%nat -> 0 <= i < 8 ->
  znth (dk_desc (ds_disk s)) i = Some d -> znth (dk_free (ds_disk s)) i = Some 0 ->
  exists ds fs s', zset (dk_desc (ds_disk s)) i zero_desc = Some ds /\ zset (dk_free (ds_disk s)) i 1 = Some fs /\
    redesc s s' ds fs /\ free_chain_loop (S fuel) i s =
      if negb (Z.land (d_flags d) VRING_DESC_F_NEXT =? 0) then free_chain_loop fuel (d_next d) s' else Ret tt s'.
Proof.
  intros L1 L2 Hi Hd Hf. destruct (free_desc_ok s i L1 L2 Hi Hf) as (ds & fs & s' & E & Z1 & Z2 & D).
  exists ds, fs, s'. split_and!; try done. cbn [free_chain_loop].
  rewrite (bind_Ret _ _ _ _ _ (load_Ret dk_desc _ _ s Hd)), (bind_Ret _ _ _ _ _ E). by destruct (negb _).
Qed.

(** Freeing the chain of a request. *)
Lemma free_chain_ok s r n :
  length (dk_desc (ds_disk s)) = 8%nat -> length (dk_free (ds_disk s)) = 8%nat -> NoDup (slots r) ->
  (forall i, i ∈ slots r -> 0 <= i < 8 /\ znth (dk_free (ds_disk s)) i = Some 0) -> chain_ok (ds_disk s) n r ->
  exists ds fs s', free_chain (q_head r) s = Ret tt s' /\ redesc s s' ds fs /\
    (forall i, i ∉ slots r -> znth ds i = znth (dk_desc (ds_disk s)) i /\ znth fs i = znth (dk_free (ds_disk s)) i) /\
    (forall i, i ∈ slots r -> znth fs i = Some 1).
Proof.
  intros L1 L2 Hn Hs [C1 C2 C3 _]. unfold slots in *. rewrite !NoDup_cons, !not_elem_of_cons in Hn.
  destruct Hn as ((N1 & N2 & _) & (N3 & _) & _).
  destruct (Hs (q_head r)) as [R1 F1]; [set_solver|]. destruct (Hs (q_mid r)) as [R2 F2]; [set_solver|].
  destruct (Hs (q_tail r)) as [R3 F3]; [set_solver|]. unfold free_chain.
  destruct (free_chain_turn 8 s _ _ L1 L2 R1 C1 F1) as (d1 & f1 & s1 & Z1 & Y1 & D1 & ->).
  change (negb (Z.land (d_flags _) VRING_DESC_F_NEXT =? 0)) with true. cbn [d_next].
  destruct (redesc_lists _ _ _ _ D1) as (E1 & E1' & M1 & M1').
  rewrite <- (znth_zset_ne _ _ _ (q_mid r) _ N1 Z1), <- E1 in C2. rewrite <- (znth_zset_ne _ _ _ (q_mid r) _ N1 Y1), <- E1' in F2.
  destruct (free_chain_turn 7 s1 _ _ ltac:(congruence) ltac:(congruence) R2 C2 F2) as (d2 & f2 & s2 & Z2 & Y2 & D2 & ->).
  assert (negb (Z.land (Z.lor (if q_write r then 0 else VRING_DESC_F_WRITE) VRING_DESC_F_NEXT) VRING_DESC_F_NEXT =? 0) = true) as H
    by (by destruct (q_write r)). cbn [d_flags d_next]. rewrite H. clear H.
  destruct (redesc_lists _ _ _ _ D2) as (E2 & E2' & M2 & M2'). rewrite E1 in Z2. rewrite E1' in Y2.
  rewrite <- (znth_zset_ne _ _ _ (q_tail r) _ N2 Z1), <- (znth_zset_ne _ _ _ (q_tail r) _ N3 Z2), <- E2 in C3.
  rewrite <- (znth_zset_ne _ _ _ (q_tail r) _ N2 Y1), <- (znth_zset_ne _ _ _ (q_tail r) _ N3 Y2), <- E2' in F3.
  destruct (free_chain_turn 6 s2 _ _ ltac:(congruence) ltac:(congruence) R3 C3 F3) as (d3 & f3 & s3 & Z3 & Y3 & D3 & ->).
  cbn [d_flags]. exists d3, f3, s3. split; [done|]. rewrite E2 in Z3. rewrite E2' in Y3. split_and!.
  - eapply redesc_trans; [exact D1|]. by eapply redesc_trans.
  - intros i Hi. rewrite !not_elem_of_cons in Hi. destruct Hi as (H1%not_eq_sym & H2%not_eq_sym & H3%not_eq_sym & _).
    rewrite (znth_zset_ne _ _ _ i _ H3 Z3), (znth_zset_ne _ _ _ i _ H2 Z2), (znth_zset_ne _ _ _ i _ H1 Z1).
    by rewrite (znth_zset_ne _ _ _ i _ H3 Y3), (znth_zset_ne _ _ _ i _ H2 Y2), (znth_zset_ne _ _ _ i _ H1 Y1).
  - intros i Hi. destruct (decide (q_tail r = i)) as [<-|H3]; [by apply znth_zset_eq in Y3|].
    rewrite (znth_zset_ne _ _ _ i _ H3 Y3). destruct (decide (q_mid r = i)) as [<-|H2]; [by apply znth_zset_eq in Y2|].
    rewrite (znth_zset_ne _ _ _ i _ H2 Y2). assert (i = q_head r) as -> by set_solver. by apply znth_zset_eq in Y1.
Qed.

Ltac dred :=
  cbn [update view dst_lk set_disk set_busy set_told set_free set_desc set_avail set_used set_used_idx set_info set_ops
    ds_disk ds_data ds_blockno ds_busy ds_seen ds_told ds_pending ds_media ds_lk
    dk_desc dk_avail_idx dk_avail_ring dk_used_ring_idx dk_used_ring dk_free dk_used_idx dk_info dk_ops].

Lemma in_slots_head r : q_head r ∈ slots r.
Proof. constructor. Qed.
Lemma in_slots_mid r : q_mid r ∈ slots r.
Proof. do 2 constructor. Qed.
Lemma in_slots_tail r : q_tail r ∈ slots r.
Proof. do 3 constructor. Qed.

Lemma all_slots_cons r rs i : i ∈ all_slots (r :: rs) <-> i ∈ slots r \/ i ∈ all_slots rs.
Proof. unfold all_slots. by rewrite bind_cons, elem_of_app. Qed.

Lemma disk_inv_perm s P rs rs' Q U A A' :
  rs ≡ₚ rs' -> A ≡ₚ A' -> disk_inv s P rs Q U A -> disk_inv s P rs' Q U A'.
Proof.
  intros Hp Ha [I1 I2 I3 I4 I5 I6 I7 I8 I9 I10 I11 I12 I13 I14 I15].
  assert (all_slots rs ≡ₚ all_slots rs') as Hs by (unfold all_slots; by rewrite Hp).
  assert (forall r, r ∈ rs <-> r ∈ rs') as He by (intros r; by rewrite Hp).
  split; try done.
  - by rewrite <- Hs.
  - intros i Hi. rewrite (I3 i Hi). f_equal. apply decide_ext. by rewrite Hs.
  - by rewrite <- Hp.
  - intros r Hr. apply I5. by apply He.
  - by rewrite <- Hp, <- Ha.
  - intros b h w. rewrite I7. split; intros (r & Hr & H); exists r; (split; [by apply He|done]).
  - by rewrite <- Hp.
  - split; [by rewrite <- Hp; apply I9|by rewrite <- Hp; apply I9].
  - intros r Hr. rewrite (I13 r) by (by apply He). apply decide_ext. by rewrite Ha.
  - intros r Hr Hu. apply I14; [by apply He|]. by rewrite Ha.
Qed.

(** The owner comes back from a request whose interrupt was handled. *)
Lemma rw_wait_done s P r rs Q U A :
  disk_inv s P (r :: rs) Q U (q_head r :: A) -> lk_held (ds_lk s) = [] ->
  exists s', rw_wait (q_buf r) (q_head r) s = Ret tt s' /\ disk_inv s' (delete (q_buf r) P) rs Q U A /\
    lk_held (ds_lk s') = [] /\ ds_data s' = ds_data s /\ ds_media s' = ds_media s /\ ds_blockno s' = ds_blockno s /\
    wakeups s `prefix_of` wakeups s'.
Proof.
  intros Hi Hl. unfold rw_wait. erewrite bind_Ret by (apply lk_step, lk_acquire_ok; rewrite Hl; apply not_elem_of_nil).
  rewrite Hl, bind_gets. cbn [ds_busy update dst_lk]. rewrite (di_busy _ _ _ _ _ _ Hi r), decide_True by (by constructor).
  cbn [Z.eqb]. destruct (di_info _ _ _ _ _ _ Hi r) as (st & Ei & _); [by constructor|].
  erewrite bind_Ret by (apply load_Ret; exact Ei). cbn [snd].
  destruct (di_len _ _ _ _ _ _ Hi) as (L1 & L2 & L3 & L4 & L5 & L6).
  destruct (inv_range _ _ _ _ _ _ Hi r) as (R1 & R2 & R3); [by constructor|].
  pose proof (zset_Some (dk_info (ds_disk s)) (q_head r) (None, st) ltac:(lia)) as Z1.
  erewrite bind_Ret by (unfold put_info, store; cbn [ds_disk update dst_lk]; rewrite Z1; reflexivity).
  match goal with |- context [bind (free_chain _) _ ?x] => set (s1 := x) end.
  pose proof Hi as [I1 I2 I3 I4 I5 I6 I7 I8 I9 I10 I11 I12 I13 I14 I15].
  pose proof (all_slots_cons r rs) as Hsl. unfold all_slots in I2. rewrite bind_cons in I2. fold (all_slots rs) in I2.
  destruct I2 as [(N1 & N2 & N3)%NoDup_app [F1 F2]%Forall_app]. apply Forall_cons in I4 as [C1 C2].
  destruct (free_chain_ok s1 r (ds_blockno s (q_buf r))) as (ds & fs & s2 & E2 & D2 & Ho & Hs); [done|done|done| |by destruct C1|].
  { intros i Hir. rewrite Forall_forall in F1. unfold NUM in F1. split; [by apply F1|]. cbn.
    rewrite I3 by (unfold NUM; by apply F1). rewrite decide_True; [done|]. apply Hsl. by left. }
  rewrite (bind_Ret _ _ _ _ _ E2). destruct D2 as (k & -> & (K & K') & M1 & M2). cbn in K, K', M1, M2.
  eexists. split; [apply lk_step, (lk_release_ok _ []); [exact K|apply not_elem_of_nil]|].
  split; [|done]. apply disk_inv_lk, disk_inv_lk. cbn in Ho. apply NoDup_cons in I8 as [B1 B2].
  assert (forall r', r' ∈ rs -> r' <> r) as Hne by (intros r' Hr' ->; by apply B1, list_elem_of_fmap_2).
  assert (forall r' x, r' ∈ rs -> x ∈ slots r' -> x ∉ slots r) as Hd.
  { intros r' x Hr' Hx Hx'. apply (N2 x Hx'). apply list_elem_of_bind. by exists r'. }
  unfold s1. split; dred; try done.
  - rewrite length_insert. split_and!; congruence.
  - intros i Hir. destruct (decide (i ∈ slots r)) as [Hx|Hx].
    + rewrite (Hs i Hx), decide_False; [done|]. by apply N2.
    + rewrite (proj2 (Ho i Hx)), (I3 i Hir). f_equal. apply decide_ext. rewrite Hsl. tauto.
  - apply Forall_forall. intros r' Hr'. rewrite Forall_forall in C2. destruct (C2 r' Hr') as [D1 D2 D3 D4].
    split; cbn; [rewrite (proj1 (Ho _ (Hd r' (q_head r') Hr' (in_slots_head r'))))|
      rewrite (proj1 (Ho _ (Hd r' (q_mid r') Hr' (in_slots_mid r'))))|
      rewrite (proj1 (Ho _ (Hd r' (q_tail r') Hr' (in_slots_tail r'))))|]; done.
  - intros r' Hr'. destruct (I5 r') as (st' & H1 & H2); [by constructor|]. exists st'. split; [|done].
    rewrite <- H1. eapply znth_zset_ne; [|exact Z1]. intros E. by apply (Hne r' Hr'), (inv_head_eq _ _ _ _ _ _ Hi); try constructor.
  - cbn in I6. apply (Permutation_cons_inv (a := q_head r)). rewrite I6. rewrite !app_assoc. by rewrite Permutation_middle.
  - intros b h w. rewrite lookup_delete_Some, I7. split.
    + intros (Hb & r' & [->|Hr']%elem_of_cons & <- & <- & <-); [done|]. by exists r'.
    + intros (r' & Hr' & <- & <- & <-). split; [|by exists r'; split; [constructor|]].
      intros E. apply B1. rewrite E. by apply list_elem_of_fmap_2.
  - destruct I9 as [[_ H1]%NoDup_cons [_ H2]%Forall_cons]. done.
  - intros r' Hr'. rewrite I13 by (by constructor). apply decide_ext. rewrite elem_of_cons. split; [|tauto].
    intros [E|H]; [|done]. destruct (Hne r' Hr'). apply (inv_head_eq _ _ _ _ _ _ Hi); [by constructor|constructor|done].
  - intros r' Hr' Hu. apply I14; [by constructor|]. rewrite elem_of_app, elem_of_cons. rewrite elem_of_app in Hu. tauto.
Qed.

Lemma rw_wait_busy s P rs Q U A r :
  disk_inv s P rs Q U A -> lk_held (ds_lk s) = [] -> r ∈ rs -> q_head r ∉ A ->
  exists k, rw_wait (q_buf r) (q_head r) s = Blocked (chan_buf (q_buf r)) (update k s) /\ lk_held k = [] /\ lk_wakeups k = wakeups s.
Proof.
  intros Hi Hl Hr Ha. unfold rw_wait. erewrite bind_Ret by (apply lk_step, lk_acquire_ok; rewrite Hl; apply not_elem_of_nil).
  rewrite Hl, bind_gets. cbn [ds_busy update dst_lk]. rewrite (di_busy _ _ _ _ _ _ Hi r Hr), decide_False by done. cbn [Z.eqb].
  eexists. unfold lift, sleep. cbn. erewrite bind_Ret by (apply (lk_release_ok _ []); [reflexivity|apply not_elem_of_nil]).
  split_and!; reflexivity.
Qed.

(** *** A new request *)

(** Three descriptors, or none and nothing a chain depends on changed. *)
Definition got_three (s s' : dst) (i0 i1 i2 : Z) : Prop :=
  exists l, redesc s s' (dk_desc (ds_disk s)) l /\ NoDup [i0; i1; i2] /\
    (forall i, i ∈ [i0; i1; i2] -> 0 <= i < 8 /\ znth (dk_free (ds_disk s)) i = Some 1 /\ znth l i = Some 0) /\
    (forall i, i ∉ [i0; i1; i2] -> znth l i = znth (dk_free (ds_disk s)) i).
Definition got_none (s s' : dst) : Prop :=
  exists ds fs, redesc s s' ds fs /\ (forall i, znth fs i = znth (dk_free (ds_disk s)) i) /\
    (forall i, znth (dk_free (ds_disk s)) i = Some 0 -> znth ds i = znth (dk_desc (ds_disk s)) i).

Lemma got_none_refl s : got_none s s.
Proof. exists (dk_desc (ds_disk s)), (dk_free (ds_disk s)). split; [apply redesc_refl|done]. Qed.

Definition flags01 (s : dst) : Prop := forall i x, znth (dk_free (ds_disk s)) i = Some x -> x = 0 \/ x = 1.

Lemma flags01_take s s1 i l :
  flags01 s -> zset (dk_free (ds_disk s)) i 0 = Some l -> redesc s s1 (dk_desc (ds_disk s)) l -> flags01 s1.
Proof.
  intros H01 Hz D j x. destruct (redesc_lists _ _ _ _ D) as (_ & -> & _).
  destruct (decide (i = j)) as [<-|Hne]; [rewrite (znth_zset_eq _ _ _ _ Hz); intros [= <-]; by left|].
  rewrite (znth_zset_ne _ _ _ j _ Hne Hz). apply H01.
Qed.

(** What a successful alloc_desc did. *)
Record took (s s' : dst) (i : Z) (l : list Z) : Prop := {
  tk_range : 0 <= i < 8;
  tk_free : znth (dk_free (ds_disk s)) i = Some 1;
  tk_set : zset (dk_free (ds_disk s)) i 0 = Some l;
  tk_re : redesc s s' (dk_desc (ds_disk s)) l;
  tk_flags : flags01 s';
  tk_len : length (dk_free (ds_disk s')) = 8%nat;
  tk_desc : dk_desc (ds_disk s') = dk_desc (ds_disk s);
  tk_list : dk_free (ds_disk s') = l
}.

Lemma alloc_step s :
  length (dk_free (ds_disk s)) = 8%nat -> flags01 s ->
  (exists i l s', alloc_desc s = Ret i s' /\ (i <? 0) = false /\ took s s' i l) \/ alloc_desc s = Ret (-1) s.
Proof.
  intros L H01. destruct (alloc_desc_ok s L) as [(i & l & s' & E & Hr & (f & Hf & Hn) & Hz & D)|E]; [left|by right].
  destruct (redesc_lists _ _ _ _ D) as (E1 & E2 & E3 & E4). destruct (H01 _ _ Hf) as [->| ->]; [done|].
  exists i, l, s'. split; [done|]. split; [zb; done|]. split; try done; [by eapply flags01_take|congruence].
Qed.

Lemma took_ne s s0 s1 i0 i1 l0 l1 : took s s0 i0 l0 -> took s0 s1 i1 l1 -> i0 <> i1.
Proof.
  intros [] [] ->. rewrite tk_list0, (znth_zset_eq _ _ _ _ tk_set0) in tk_free1. done.
Qed.

Lemma took_three s s0 s1 s2 i0 i1 i2 l0 l1 l2 :
  took s s0 i0 l0 -> took s0 s1 i1 l1 -> took s1 s2 i2 l2 -> got_three s s2 i0 i1 i2.
Proof.
  intros T0 T1 T2. pose proof (took_ne _ _ _ _ _ _ _ T0 T1) as N1. pose proof (took_ne _ _ _ _ _ _ _ T1 T2) as N3.
  destruct T0 as [R0 F0 Z0 D0 H0 M0 M0' M0''], T1 as [R1 F1 Z1 D1 H1 M1 M1' M1''], T2 as [R2 F2 Z2 D2 H2 M2 M2' M2''].
  rewrite M0'' in F1, Z1. rewrite M1'' in F2, Z2.
  assert (i0 <> i2) as N2 by (intros <-; rewrite (znth_zset_ne _ _ _ i0 _ (not_eq_sym N1) Z1), (znth_zset_eq _ _ _ _ Z0) in F2; done).
  rewrite (znth_zset_ne _ _ _ i2 _ N3 Z1), (znth_zset_ne _ _ _ i2 _ N2 Z0) in F2. rewrite (znth_zset_ne _ _ _ i1 _ N1 Z0) in F1.
  exists l2. split; [|split; [|split]].
  - eapply redesc_trans; [exact D0|]. rewrite <- M0'. eapply redesc_trans; [exact D1|]. by rewrite <- M1'.
  - rewrite !NoDup_cons, !not_elem_of_cons. split_and!; try done; try apply not_elem_of_nil. by apply NoDup_nil.
  - assert (znth l2 i2 = Some 0) as V2 by (by apply znth_zset_eq in Z2).
    assert (znth l2 i1 = Some 0) as V1 by (rewrite (znth_zset_ne _ _ _ i1 _ (not_eq_sym N3) Z2); by apply znth_zset_eq in Z1).
    assert (znth l2 i0 = Some 0) as V0 by (rewrite (znth_zset_ne _ _ _ i0 _ (not_eq_sym N2) Z2),
      (znth_zset_ne _ _ _ i0 _ (not_eq_sym N1) Z1); by apply znth_zset_eq in Z0).
    intros i Hi. rewrite !elem_of_cons, elem_of_nil in Hi. destruct Hi as [->|[->|[->|[]]]]; done.
  - intros i Hi. rewrite !not_elem_of_cons in Hi. destruct Hi as (G0%not_eq_sym & G1%not_eq_sym & G2%not_eq_sym & _).
    by rewrite (znth_zset_ne _ _ _ i _ G2 Z2), (znth_zset_ne _ _ _ i _ G1 Z1), (znth_zset_ne _ _ _ i _ G0 Z0).
Qed.

Lemma give_back_one s s0 i0 l0 :
  length (dk_desc (ds_disk s)) = 8%nat -> took s s0 i0 l0 -> exists s1, free_desc i0 s0 = Ret tt s1 /\ got_none s s1.
Proof.
  intros L1 [R0 F0 Z0 D0 H0 M0 M0' M0'']. destruct (free_desc_ok s0 i0) as (d & f & s1 & E & Zd & Zf & D); [congruence|done|done| |].
  { rewrite M0''. by apply znth_zset_eq in Z0. }
  exists s1. split; [done|]. exists d, f. rewrite M0' in Zd. rewrite M0'' in Zf. split; [by eapply redesc_trans|]. split.
  - intros j. destruct (decide (i0 = j)) as [<-|G0]; [apply znth_zset_eq in Zf; congruence|].
    by rewrite (znth_zset_ne _ _ _ j _ G0 Zf), (znth_zset_ne _ _ _ j _ G0 Z0).
  - intros j Hj. assert (i0 <> j) as G0 by congruence. by rewrite (znth_zset_ne _ _ _ j _ G0 Zd).
Qed.

Lemma give_back_two s s0 s1 i0 i1 l0 l1 :
  length (dk_desc (ds_disk s)) = 8%nat -> took s s0 i0 l0 -> took s0 s1 i1 l1 ->
  exists s2 s3, free_desc i0 s1 = Ret tt s2 /\ free_desc i1 s2 = Ret tt s3 /\ got_none s s3.
Proof.
  intros L1 T0 T1. pose proof (not_eq_sym (took_ne _ _ _ _ _ _ _ T0 T1)) as Hne.
  destruct T0 as [R0 F0 Z0 D0 H0 M0 M0' M0''], T1 as [R1 F1 Z1 D1 H1 M1 M1' M1'']. rewrite M0'' in F1, Z1.
  destruct (free_desc_ok s1 i0) as (d3 & f3 & s3 & E3 & Z3 & Y3 & D3); [congruence|done|done| |].
  { rewrite M1'', (znth_zset_ne _ _ _ i0 _ Hne Z1). by apply znth_zset_eq in Z0. }
  destruct (redesc_lists _ _ _ _ D3) as (V1 & V2 & V3 & V4).
  destruct (free_desc_ok s3 i1) as (d4 & f4 & s4 & E4 & Z4 & Y4 & D4); [congruence|congruence|done| |].
  { rewrite V2, (znth_zset_ne _ _ _ i1 _ (not_eq_sym Hne) Y3), M1''. by apply znth_zset_eq in Z1. }
  exists s3, s4. split; [done|]. split; [done|]. exists d4, f4.
  rewrite V1, M1', M0' in *. rewrite V2, M1'' in *. rewrite (znth_zset_ne _ _ _ i1 _ (not_eq_sym Hne) Z0) in F1. split; [|split].
  - eapply redesc_trans; [exact D0|]. eapply redesc_trans; [exact D1|]. by eapply redesc_trans.
  - intros j. destruct (decide (i1 = j)) as [<-|G1]; [apply znth_zset_eq in Y4; congruence|].
    rewrite (znth_zset_ne _ _ _ j _ G1 Y4). destruct (decide (i0 = j)) as [<-|G0]; [apply znth_zset_eq in Y3; congruence|].
    by rewrite (znth_zset_ne _ _ _ j _ G0 Y3), (znth_zset_ne _ _ _ j _ G1 Z1), (znth_zset_ne _ _ _ j _ G0 Z0).
  - intros j Hj. assert (i0 <> j /\ i1 <> j) as [G0 G1] by (split; congruence).
    by rewrite (znth_zset_ne _ _ _ j _ G1 Z4), (znth_zset_ne _ _ _ j _ G0 Z3).
Qed.

Lemma alloc3_desc_ok s :
  length (dk_desc (ds_disk s)) = 8%nat -> length (dk_free (ds_disk s)) = 8%nat -> flags01 s ->
  (exists i0 i1 i2 s', alloc3_desc s = Ret (Some (i0, i1, i2)) s' /\ got_three s s' i0 i1 i2) \/
  (exists s', alloc3_desc s = Ret None s' /\ got_none s s').
Proof.
  intros L1 L2 H01. unfold alloc3_desc.
  destruct (alloc_step s L2 H01) as [(i0 & l0 & s0 & E0 & B0 & T0)|E0];
    [|right; exists s; rewrite (bind_Ret _ _ _ _ _ E0); split; [done|apply got_none_refl]].
  rewrite (bind_Ret _ _ _ _ _ E0), B0. 
  destruct (alloc_step s0 (tk_len _ _ _ _ T0) (tk_flags _ _ _ _ T0)) as [(i1 & l1 & s1 & E1 & B1 & T1)|E1].
  2:{ right. rewrite (bind_Ret _ _ _ _ _ E1). cbn [Z.ltb Z.compare].
      destruct (give_back_one s s0 i0 l0 L1 T0) as (s3 & E3 & N3). exists s3. by rewrite (bind_Ret _ _ _ _ _ E3). }
  rewrite (bind_Ret _ _ _ _ _ E1), B1.
  destruct (alloc_step s1 (tk_len _ _ _ _ T1) (tk_flags _ _ _ _ T1)) as [(i2 & l2 & s2 & E2 & B2 & T2)|E2].
  - left. rewrite (bind_Ret _ _ _ _ _ E2), B2. exists i0, i1, i2, s2. split; [done|]. by eapply took_three.
  - right. rewrite (bind_Ret _ _ _ _ _ E2). cbn [Z.ltb Z.compare].
    destruct (give_back_two s s0 s1 i0 i1 l0 l1 L1 T0 T1) as (s3 & s4 & E3 & E4 & N). exists s4.
    by rewrite (bind_Ret _ _ _ _ _ E3), (bind_Ret _ _ _ _ _ E4).
Qed.

Lemma store_Ret {B} (f : disk -> list B) set i x s :
  0 <= i < Z.of_nat (length (f (ds_disk s))) ->
  store f set i x s = Ret tt (set_disk (set (<[Z.to_nat i := x]> (f (ds_disk s))) (ds_disk s)) s).
Proof. intros H. unfold store. by rewrite zset_Some. Qed.

(** The state after [format]. *)
Definition formatted (s : dst) (r : req) (sector : Z) : dst :=
  let k := ds_disk s in
  let d0 := <[Z.to_nat (q_head r) := mkDesc (A_op (q_head r)) 16 VRING_DESC_F_NEXT (q_mid r)]> (dk_desc k) in
  let d1 := <[Z.to_nat (q_mid r) := mkDesc (A_data (q_buf r)) BSIZE
              (Z.lor (if q_write r then 0 else VRING_DESC_F_WRITE) VRING_DESC_F_NEXT) (q_tail r)]> d0 in
  mkDst (mkDisk (<[Z.to_nat (q_tail r) := mkDesc (A_status (q_head r)) 1 VRING_DESC_F_WRITE 0]> d1)
           (u16 (dk_avail_idx k + 1)) (<[Z.to_nat (dk_avail_idx k mod NUM) := q_head r]> (dk_avail_ring k))
           (dk_used_ring_idx k) (dk_used_ring k) (dk_free k) (dk_used_idx k)
           (<[Z.to_nat (q_head r) := (Some (q_buf r), 0xff)]> (dk_info k))
           (<[Z.to_nat (q_head r) := mkReq (if q_write r then 1 else 0) 0 sector]> (dk_ops k)))
    (ds_data s) (ds_blockno s) (upd (ds_busy s) (q_buf r) 1) (ds_seen s) (u16 (dk_avail_idx k + 1)) (ds_pending s) (ds_media s) (ds_lk s).

Definition lens8 (k : disk) : Prop :=
  length (dk_desc k) = 8%nat /\ length (dk_avail_ring k) = 8%nat /\ length (dk_used_ring k) = 8%nat /\
  length (dk_free k) = 8%nat /\ length (dk_info k) = 8%nat /\ length (dk_ops k) = 8%nat.

Lemma format_ok s r sector :
  lens8 (ds_disk s) -> (forall i, i ∈ slots r -> 0 <= i < 8) ->
  format (q_buf r) (q_write r) sector (q_head r) (q_mid r) (q_tail r) s = Ret tt (formatted s r sector).
Proof.
  intros (L1 & L2 & L3 & L4 & L5 & L6) Hr. pose proof (Hr _ (in_slots_head r)) as R0. pose proof (Hr _ (in_slots_mid r)) as R1.
  pose proof (Hr _ (in_slots_tail r)) as R2. pose proof (Z.mod_pos_bound (dk_avail_idx (ds_disk s)) NUM ltac:(done)) as Hm.
  assert (exists x, znth (dk_info (ds_disk s)) (q_head r) = Some x) as [x Hx] by (apply znth_is_Some; lia). unfold NUM in Hm.
  unfold format, put_desc, put_info.
  do 3 (erewrite bind_Ret by (apply store_Ret; dred; rewrite ?length_insert; lia)).
  erewrite bind_Ret by (apply load_Ret; exact Hx).
  do 2 (erewrite bind_Ret by (apply store_Ret; dred; rewrite ?length_insert; lia)).
  rewrite (bind_Ret _ _ _ _ _ (eq_refl : modify _ _ = _)).
  erewrite bind_Ret by (apply store_Ret; dred; rewrite ?length_insert; lia).
  rewrite bind_gets. erewrite bind_Ret by (apply store_Ret; dred; unfold NUM; rewrite ?length_insert; lia).
  unfold formatted. cbn [modify]. unfold modify. f_equal. dred. rewrite list_insert_insert_eq.
  destruct s as [[] ? ? ? ? ? ? ? ?]. destruct (q_write r); reflexivity.
Qed.

Lemma znth_insert_ne {B} (l : list B) i j x : 0 <= i -> i <> j -> znth (<[Z.to_nat i := x]> l) j = znth l j.
Proof.
  intros Hi Hne. unfold znth. destruct (Z.leb_spec 0 j) as [Hj|]; [|done]. by rewrite list_lookup_insert_ne by lia.
Qed.
Lemma znth_insert_eq {B} (l : list B) i x : 0 <= i < Z.of_nat (length l) -> znth (<[Z.to_nat i := x]> l) i = Some x.
Proof. intros Hi. unfold znth. zb. by rewrite list_lookup_insert_eq by lia. Qed.

Section start.
Context (s s1 : dst) (P : waiting) (rs : list req) (Q U A : list Z) (r : req).
Context (Hi : disk_inv s P rs Q U A) (Hg : got_three s s1 (q_head r) (q_mid r) (q_tail r)).
Context (Hb : P !! q_buf r = None) (Hn : 0 <= ds_blockno s (q_buf r) < 2 ^ 31).
Context (Hd : forall b' x, P !! b' = Some x -> ds_blockno s b' <> ds_blockno s (q_buf r)).

Let s2 := formatted s1 r (2 * ds_blockno s (q_buf r)).

Lemma new_slots i : i ∈ slots r -> 0 <= i < 8 /\ i ∉ all_slots rs.
Proof using Hi Hg.
  intros H. destruct Hg as (l & _ & _ & Hin & _). destruct (Hin i H) as (Hr & Hf & _). split; [done|]. intros Ha.
  rewrite (di_free _ _ _ _ _ _ Hi i Hr), decide_True in Hf by done. done.
Qed.

Lemma new_head : q_head r ∉ Q ++ ds_pending s ++ U ++ A.
Proof using Hi Hg.
  rewrite <- (di_heads _ _ _ _ _ _ Hi). intros (r' & E & Hr')%list_elem_of_fmap.
  apply (new_slots (q_head r)); [apply in_slots_head|]. rewrite E. by apply (heads_in_slots r' rs).
Qed.

Lemma old_not_new r' i : r' ∈ rs -> i ∈ slots r' -> i ∉ slots r.
Proof using Hi Hg.
  intros Hr' Hx Hx'. apply (new_slots i Hx'). apply list_elem_of_bind. by exists r'.
Qed.

Lemma old_buf r' : r' ∈ rs -> is_Some (P !! q_buf r').
Proof using Hi. intros H. exists (q_head r', q_write r'). apply (di_waiting _ _ _ _ _ _ Hi). by exists r'. Qed.
Lemma old_buf_ne r' : r' ∈ rs -> q_buf r' <> q_buf r.
Proof using Hi Hb. intros [x H]%old_buf E. congruence. Qed.

Lemma new_lens : lens8 (ds_disk s1).
Proof using Hi Hg. destruct Hg as (l & (k & -> & _ & M1 & M2) & _). destruct (di_len _ _ _ _ _ _ Hi) as (? & ? & ? & ? & ? & ?). repeat split; cbn in *; congruence. Qed.

Lemma new_chain : Forall (fun r' => chain_ok (ds_disk s2) (ds_blockno s (q_buf r')) r') (r :: rs).
Proof using Hi Hg Hn.
  pose proof new_lens as (L1 & _ & _ & _ & _ & L6).
  pose proof (proj1 (new_slots _ (in_slots_head r))) as R0. pose proof (proj1 (new_slots _ (in_slots_mid r))) as R1.
  pose proof (proj1 (new_slots _ (in_slots_tail r))) as R2.
  assert (dk_desc (ds_disk s1) = dk_desc (ds_disk s) /\ dk_ops (ds_disk s1) = dk_ops (ds_disk s)) as [Ed Eo]
    by (destruct Hg as (l & (k & -> & _) & _); done).
  assert (q_head r <> q_mid r /\ q_head r <> q_tail r /\ q_mid r <> q_tail r) as (N1 & N2 & N3).
  { destruct Hg as (l & _ & HN & _). rewrite !NoDup_cons, !not_elem_of_cons in HN. naive_solver. }
  constructor.
  - split; unfold s2, formatted; dred.
    + rewrite !znth_insert_ne by (done || lia). apply znth_insert_eq. lia.
    + rewrite znth_insert_ne by (done || lia). apply znth_insert_eq. rewrite length_insert. lia.
    + apply znth_insert_eq. rewrite !length_insert. lia.
    + apply znth_insert_eq. lia.
  - pose proof (di_chain _ _ _ _ _ _ Hi) as Hc. apply Forall_forall. intros r' Hr'. rewrite Forall_forall in Hc.
    assert (forall i, i ∈ slots r' -> q_head r <> i /\ q_mid r <> i /\ q_tail r <> i) as Hne.
    { intros i Hx. pose proof (old_not_new r' i Hr' Hx) as H. unfold slots in H. rewrite !not_elem_of_cons in H. naive_solver. }
    destruct (Hc r' Hr') as [C1 C2 C3 C4]. destruct (Hne _ (in_slots_head r')) as (A1 & A2 & A3).
    destruct (Hne _ (in_slots_mid r')) as (B1 & B2 & B3). destruct (Hne _ (in_slots_tail r')) as (D1 & D2 & D3).
    split; unfold s2, formatted; dred; rewrite ?Ed, ?Eo, !znth_insert_ne by (done || lia); done.
Qed.

Lemma start_inv : disk_inv s2 (<[q_buf r := (q_head r, q_write r)]> P) (r :: rs) (Q ++ [q_head r]) U A.
Proof using Hi Hg Hb Hn Hd.
  pose proof new_lens as Hl. pose proof new_chain as Hc. pose proof new_head as Hh. pose proof (inv_few _ _ _ _ _ _ Hi) as Hf.
  pose proof (proj1 (new_slots _ (in_slots_head r))) as R0. pose proof (Z.mod_pos_bound (dk_avail_idx (ds_disk s1)) NUM ltac:(done)) as Hm.
  pose proof Hg as (l & (k & Es & _ & M1 & M2) & HN & Hin & Hout).
  assert (forall r', r' ∈ rs -> q_head r' <> q_head r) as Hhd.
  { intros r' Hr' E. apply Hh. rewrite <- E, <- (di_heads _ _ _ _ _ _ Hi). by apply list_elem_of_fmap_2. }
  pose proof Hi as [I1 I2 I3 I4 I5 I6 I7 I8 I9 I10 I11 I12 I13 I14 I15].
  destruct Hl as (L1 & L2 & L3 & L4 & L5 & L6). rewrite !not_elem_of_app in Hh. destruct Hh as (Hq & Hp & Hu & Ha).
  split; [unfold s2, formatted; dred; rewrite !length_insert; split_and!; done|..]; unfold s2, formatted; dred.
  - unfold all_slots. rewrite bind_cons. split.
    + apply NoDup_app. split; [done|]. split; [|apply I2]. intros i Hx. by apply new_slots.
    + apply Forall_app. split; [|apply I2]. apply Forall_forall. intros i Hx. by apply new_slots.
  - intros i Hir. rewrite Es. dred. destruct (decide (i ∈ slots r)) as [Hx|Hx].
    + rewrite decide_True by (apply all_slots_cons; by left). by apply Hin.
    + rewrite (Hout i Hx), (I3 i Hir). f_equal. apply decide_ext. rewrite all_slots_cons. tauto.
  - unfold s2, formatted in Hc. rewrite Es in Hc |- *. exact Hc.
  - intros r' [->|Hr']%elem_of_cons.
    + exists 0xff. split; [|done]. apply znth_insert_eq. lia.
    + rewrite znth_insert_ne by (by first [lia|apply not_eq_sym, Hhd]). rewrite Es. by apply I5.
  - cbn. rewrite I6, Es, <- app_assoc. dred. apply Permutation_middle.
  - intros b h w. destruct (decide (q_buf r = b)) as [<-|Hne].
    + rewrite lookup_insert_eq. split.
      * intros [= <- <-]. exists r. split; [constructor|done].
      * intros (r' & [->|Hr']%elem_of_cons & E & <- & <-); [done|]. by destruct (old_buf_ne r' Hr').
    + rewrite lookup_insert_ne, I7 by done. split; intros (r' & Hr' & E & H); exists r'; (split; [|done]).
      * by constructor. 
      * apply elem_of_cons in Hr' as [->|]; [done|done].
  - cbn. constructor; [|done]. intros (r' & E & Hr')%list_elem_of_fmap. by apply (old_buf_ne r' Hr').
  - rewrite Es. dred. cbn [fmap list_fmap]. split; [constructor; [|apply I9]|constructor; [done|apply I9]].
    intros (r' & E & Hr')%list_elem_of_fmap. destruct (old_buf r' Hr') as [x Hx]. by apply (Hd _ _ Hx).
  - eapply window_push; [|lia|apply zset_Some; unfold NUM in *; lia]. rewrite Es. exact I10.
  - by rewrite Es.
  - by rewrite Es.
  - intros r' [->|Hr']%elem_of_cons; [by rewrite upd_eq, decide_False|].
    rewrite upd_ne by (by apply old_buf_ne). rewrite Es. by apply I13.
  - intros r' [->|Hr']%elem_of_cons Hua; [exfalso; apply elem_of_app in Hua; tauto|]. rewrite Es. by apply (I14 r' Hr' Hua).
  - done.
Qed.

End start.

Lemma got_none_inv s s' P rs Q U A : disk_inv s P rs Q U A -> got_none s s' -> disk_inv s' P rs Q U A.
Proof.
  intros Hi (ds & fs & (k & -> & _ & M1 & M2) & Hf & Hd). pose proof (inv_range _ _ _ _ _ _ Hi) as Hr.
  pose proof Hi as [I1 I2 I3 I4 I5 I6 I7 I8 I9 I10 I11 I12 I13 I14 I15]. split; try done; dred.
  - destruct I1 as (? & ? & ? & ? & ? & ?). split_and!; congruence.
  - intros i Hir. rewrite Hf. by apply I3.
  - apply Forall_forall. intros r Hr'. rewrite Forall_forall in I4. destruct (I4 r Hr') as [C1 C2 C3 C4].
    destruct (heads_in_slots r rs Hr') as (S1 & S2 & S3). destruct (Hr r Hr') as (R1 & R2 & R3).
    split; dred; rewrite ?Hd; try done; rewrite I3 by done; by rewrite decide_True.
Qed.

Lemma inv_flags01 s P rs Q U A : disk_inv s P rs Q U A -> flags01 s.
Proof.
  intros Hi i x Hx. pose proof (znth_Some_range _ _ _ Hx) as Hr. destruct (di_len _ _ _ _ _ _ Hi) as (_ & _ & _ & L & _).
  rewrite (di_free _ _ _ _ _ _ Hi i) in Hx by (unfold NUM; lia). injection Hx as <-. case_decide; auto.
Qed.

(** virtio_disk_rw publishes the request or sleeps for descriptors. *)
Lemma rw_start_cases s P rs Q U A b w :
  disk_inv s P rs Q U A -> lk_held (ds_lk s) = [] ->
  (exists r k0 s1 k, q_buf r = b /\ q_write r = w /\ got_three (update k0 s) s1 (q_head r) (q_mid r) (q_tail r) /\ lk_held k = [] /\
     rw_start b w s = Ret (q_head r) (update k (formatted s1 r (u32 (ds_blockno s b * 2)))) /\ wakeups s `prefix_of` lk_wakeups k) \/
  (exists s', rw_start b w s = Blocked chan_free s' /\ disk_inv s' P rs Q U A /\ lk_held (ds_lk s') = [] /\
     ds_data s' = ds_data s /\ ds_media s' = ds_media s /\ ds_blockno s' = ds_blockno s /\ wakeups s `prefix_of` wakeups s').
Proof.
  intros Hi Hl. unfold rw_start. rewrite bind_gets. change (BSIZE / 512) with 2.
  erewrite bind_Ret by (apply lk_step, lk_acquire_ok; rewrite Hl; apply not_elem_of_nil). rewrite Hl.
  match goal with |- context [bind alloc3_desc _ ?x] => set (s0 := x) end.
  assert (disk_inv s0 P rs Q U A) as I0 by (by apply disk_inv_lk).
  destruct (di_len _ _ _ _ _ _ I0) as (L1 & _ & _ & L4 & _).
  destruct (alloc3_desc_ok s0 L1 L4 (inv_flags01 _ _ _ _ _ _ I0)) as [(i0 & i1 & i2 & s1 & E & G)|(s1 & E & G)];
    rewrite (bind_Ret _ _ _ _ _ E).
  - left. set (r := mkRequest i0 i1 i2 b w). exists r, (set_lk_held [L_vdisk] (ds_lk s)), s1. pose proof (new_lens s0 s1 P rs Q U A r I0 G) as Hlen.
    assert (forall i, i ∈ slots r -> 0 <= i < 8) as Hr by (intros i Hx; by apply (new_slots s0 s1 P rs Q U A r I0 G i)).
    pose proof (format_ok s1 r (u32 (ds_blockno s b * 2)) Hlen Hr) as Ef.
    eexists. split; [done|]. split; [done|]. split; [exact G|].
    assert (lk_held (ds_lk s1) = [L_vdisk] /\ wakeups s `prefix_of` wakeups s1) as [Hk Hw] by (destruct G as (l & (k & -> & K & _) & _); exact K).
    cbn [q_buf q_write q_head q_mid q_tail r] in Ef. split; [|rewrite (bind_Ret _ _ _ _ _ Ef);
      erewrite bind_Ret by (apply lk_step, (lk_release_ok _ []); [exact Hk|apply not_elem_of_nil]); split; [reflexivity|exact Hw]]. reflexivity.
  - right. assert (lk_held (ds_lk s1) = [L_vdisk] /\ wakeups s `prefix_of` wakeups s1 /\ ds_data s1 = ds_data s /\ ds_media s1 = ds_media s /\
      ds_blockno s1 = ds_blockno s) as (Hk & Hw & E1 & E2 & E3) by (destruct G as (ds & fs & (k & -> & [K1 K2] & _) & _); done).
    eexists. split.
    + unfold lift, sleep. cbn [view dst_lk]. erewrite bind_Ret by (apply (lk_release_ok _ []); [exact Hk|apply not_elem_of_nil]). reflexivity.
    + split; [apply disk_inv_lk; by eapply got_none_inv|]. done.
Qed.

(** ** All reachable states *)

Definition boot_disk (data : Z -> block) (blockno : Z -> Z) (media : Z -> Z) (pid : Z) : dst :=
  mkDst (mkDisk (replicate 8 zero_desc) 0 (replicate 8 0) 0 (replicate 8 0) (replicate 8 1) 0
                (replicate 8 (None, 0)) (replicate 8 (mkReq 0 0 0)))
        data blockno (fun _ => 0) 0 0 [] media (mkLk [] (fun _ => mkSleeplock 0 0) pid []).

Definition head_of (x : request) : Z * bool := (w_head x, w_write x).

(** What the requests remember: the buffer of a write still has the data it had
    at the start, the block of a read is on the medium as it was, and the owner
    of a request whose interrupt was handled was woken. *)
Record traced (s : dst) (P : requests) (rs : list req) (A : list Z) : Prop := {
  tr_data : forall r x, r ∈ rs -> P !! q_buf r = Some x -> w_write x = true ->
    forall i, 0 <= i < BSIZE -> ds_data s (q_buf r) i = w_data x i;
  tr_media : forall r x, r ∈ rs -> P !! q_buf r = Some x -> w_write x = false ->
    forall i, 0 <= i < BSIZE -> media_block s (ds_blockno s (q_buf r)) i = w_media x i;
  tr_slept : forall b x, P !! b = Some x -> (w_slept x <= length (wakeups s))%nat;
  tr_woken : forall r x, r ∈ rs -> P !! q_buf r = Some x -> q_head r ∈ A -> woken s (q_buf r) x
}.

Definition disk_ok (x : dst * requests) : Prop :=
  lk_held (ds_lk (fst x)) = [] /\ exists rs Q U A, disk_inv (fst x) (head_of <$> snd x) rs Q U A /\ traced (fst x) (snd x) rs A.

Lemma boot_disk_ok data blockno media pid : disk_ok (boot_disk data blockno media pid, ∅).
Proof.
  split; [done|]. exists [], [], [], []. split; [|by split; cbn; intros *; rewrite ?lookup_empty; intros ? [=] || done].
  split; try done; try apply NoDup_nil_2; try (by intros r ?%elem_of_nil).
  - split; [apply NoDup_nil_2|apply Forall_nil_2].
  - intros i Hi. unfold znth. cbn [boot_disk ds_disk fst dk_free]. zb. rewrite decide_False by apply not_elem_of_nil.
    apply lookup_replicate_2. unfold NUM in Hi. lia.
  - intros b h w. cbn [snd]. rewrite fmap_empty, lookup_empty. split; [done|]. by intros (r & ?%elem_of_nil & _).
  - split; [apply NoDup_nil_2|apply Forall_nil_2].
Qed.

Lemma Ret_inj {S B} (x y : B) (t t' : S) : Ret x t = Ret y t' -> x = y /\ t = t'.
Proof. by intros [= -> ->]. Qed.

Lemma request_woken_later s s' b x : wakeups s `prefix_of` wakeups s' -> (w_slept x <= length (wakeups s))%nat -> woken s b x -> woken s' b x.
Proof. intros [l E] Hl. unfold woken. rewrite E, drop_app_le by done. set_solver. Qed.

(** A step that leaves data, medium and block numbers alone and only adds wakeups. *)
Lemma traced_same s s' P rs A :
  ds_data s' = ds_data s -> ds_media s' = ds_media s -> ds_blockno s' = ds_blockno s -> wakeups s `prefix_of` wakeups s' ->
  traced s P rs A -> traced s' P rs A.
Proof.
  intros E1 E2 E3 Hw [T1 T2 T3 T4]. split; unfold media_block; rewrite ?E1, ?E2, ?E3; auto.
  - intros b x Hx. specialize (T3 b x Hx). apply prefix_length in Hw. lia.
  - intros r x Hr Hx Ha. eapply request_woken_later; eauto.
Qed.

(** The interrupt wakes the owners of the requests [U]. *)
Lemma traced_woken s s' P rs U A : wakes s s' rs U -> traced s P rs A -> traced s' P rs (A ++ U).
Proof.
  intros [W1 W2 W3 (l & W4 & W5)] Ht. assert (wakeups s `prefix_of` wakeups s') as Hw by (by exists l).
  destruct (traced_same s s' P rs A W1 W2 W3 Hw Ht) as [T1 T2 T3 T4]. split; [done..|].
  intros r x Hr Hx [Ha|Hu]%elem_of_app; [by eapply T4|]. pose proof (tr_slept _ _ _ _ Ht _ _ Hx).
  unfold woken. rewrite W4, drop_app_le by done. apply elem_of_app. right. by apply W5.
Qed.

(** A process that is woken too early sleeps again. *)
Lemma traced_again s k P rs A r x :
  traced s P rs A -> P !! q_buf r = Some x -> q_head r ∉ A -> lk_wakeups k = wakeups s ->
  (forall r', r' ∈ rs -> q_buf r' = q_buf r -> q_head r' = q_head r) ->
  traced (update k s) (<[q_buf r := sleep_again (update k s) x]> P) rs A.
Proof.
  intros [T1 T2 T3 T4] HP Ha Hk Hin. assert (wakeups (update k s) = wakeups s) as Ek by done. split.
  - intros r' y Hr' Hy. destruct (decide (q_buf r' = q_buf r)) as [E|E].
    + rewrite E, lookup_insert_eq in Hy. injection Hy as <-. apply (T1 r' x Hr'). by rewrite E.
    + rewrite lookup_insert_ne in Hy by done. by apply T1.
  - intros r' y Hr' Hy. destruct (decide (q_buf r' = q_buf r)) as [E|E].
    + rewrite E, lookup_insert_eq in Hy. injection Hy as <-. apply (T2 r' x Hr'). by rewrite E.
    + rewrite lookup_insert_ne in Hy by done. by apply (T2 r').
  - intros b y. rewrite Ek. destruct (decide (b = q_buf r)) as [->|E]; [rewrite lookup_insert_eq; intros [= <-]; change (length (wakeups (update k s)) <= length (wakeups s))%nat; by rewrite Ek|].
    rewrite lookup_insert_ne by done. apply T3.
  - intros r' y Hr' Hy HA. destruct (decide (q_buf r' = q_buf r)) as [E|E]; [by rewrite (Hin r' Hr' E) in HA|].
    rewrite lookup_insert_ne in Hy by done. unfold woken. rewrite Ek. by apply T4.
Qed.

Lemma waiting_write s P rs Q U A r x :
  disk_inv s (head_of <$> P) rs Q U A -> r ∈ rs -> P !! q_buf r = Some x -> w_write x = q_write r.
Proof.
  intros Hi Hr Hx. assert ((head_of <$> P) !! q_buf r = Some (q_head r, q_write r)) as H by (apply (di_waiting _ _ _ _ _ _ Hi); by exists r).
  rewrite lookup_fmap, Hx in H. by injection H.
Qed.

Lemma traced_served s P rs Q U A r info ring :
  disk_inv s (head_of <$> P) rs Q U A -> r ∈ rs -> traced s P rs A -> traced (served s r info ring) P rs A.
Proof.
  intros Hi Hr [T1 T2 T3 T4]. split; [| |done|done].
  - intros r' x Hr' Hx Hw i Hib. unfold served. cbn. destruct (q_write r) eqn:Ew; [by eapply T1|].
    rewrite upd_ne; [by eapply T1|]. intros E. apply (inv_buf_eq _ _ _ _ _ _ Hi r' r) in E as ->; [|done..].
    pose proof (waiting_write _ _ _ _ _ _ _ _ Hi Hr Hx). congruence.
  - intros r' x Hr' Hx Hw i Hib. rewrite <- (T2 r' x Hr' Hx Hw i Hib). unfold served, media_block. cbn.
    destruct (q_write r) eqn:Ew; [|done]. unfold write_sectors.
    destruct (decide (ds_blockno s (q_buf r') = ds_blockno s (q_buf r))) as [E|E].
    + exfalso. apply (inv_block_eq _ _ _ _ _ _ Hi r' r) in E as ->; [|done..].
      pose proof (waiting_write _ _ _ _ _ _ _ _ Hi Hr Hx). congruence.
    + unfold BSIZE in *. destruct ((512 * _ <=? _) && _) eqn:Eb; [|done]. exfalso.
      apply andb_true_iff in Eb as [E1%Z.leb_le E2%Z.ltb_lt]. lia.
Qed.

Lemma start_step_ok b w i0 s s' P :
  disk_ok (s, P) -> P !! b = None -> 0 <= ds_blockno s b < 2 ^ 31 ->
  (forall b' x, P !! b' = Some x -> ds_blockno s b' <> ds_blockno s b) ->
  rw_start b w s = Ret i0 s' ->
  disk_ok (s', <[b := mkWait i0 w (ds_data s b) (media_block s (ds_blockno s b)) (length (wakeups s'))]> P).
Proof.
  intros [Hl (rs & Q & U & A & Hi & Ht)] Hb Hn Hd E. cbn [fst snd] in *.
  destruct (rw_start_cases s _ rs Q U A b w Hi Hl) as [(r & k0 & s1 & k & <- & <- & G & K & E' & Hw)|(s2 & E' & _)];
    rewrite E in E'; [|done]. apply Ret_inj in E' as [-> ->]. rewrite u32_small by lia. rewrite Z.mul_comm.
  split; [done|]. exists (r :: rs), (Q ++ [q_head r]), U, A. cbn [fst snd].
  pose proof (disk_inv_lk _ _ _ _ _ _ k0 Hi) as Hi0.
  assert (forall b' y, (head_of <$> P) !! b' = Some y -> ds_blockno s b' <> ds_blockno s (q_buf r)) as Hd'.
  { intros b' y. rewrite lookup_fmap. destruct (P !! b') eqn:Eb; [intros _; by eapply Hd|done]. }
  assert ((head_of <$> P) !! q_buf r = None) as Hb' by (by rewrite lookup_fmap, Hb).
  split.
  - rewrite fmap_insert. apply disk_inv_lk. exact (start_inv (update k0 s) s1 _ rs Q U A r Hi0 G Hb' Hn Hd').
  - pose proof (new_head (update k0 s) s1 _ rs Q U A r Hi0 G) as Hh. pose proof (old_buf_ne _ _ _ _ _ _ r Hi Hb') as Hne.
    assert (ds_data s1 = ds_data s /\ ds_media s1 = ds_media s /\ ds_blockno s1 = ds_blockno s) as (E1 & E2 & E3)
      by (destruct G as (l & (k1 & -> & _) & _); done).
    destruct Ht as [T1 T2 T3 T4]. split; unfold media_block; cbn; rewrite ?E1, ?E2, ?E3.
    + intros r' x [->|Hr']%elem_of_cons; [rewrite lookup_insert_eq; by intros [= <-]|]. rewrite lookup_insert_ne by (by apply not_eq_sym, Hne). by apply T1.
    + intros r' x [->|Hr']%elem_of_cons; [rewrite lookup_insert_eq; by intros [= <-]|]. rewrite lookup_insert_ne by (by apply not_eq_sym, Hne). by apply T2.
    + intros b' x. destruct (decide (b' = q_buf r)) as [->|]; [rewrite lookup_insert_eq; by intros [= <-]|]. rewrite lookup_insert_ne by done.
      intros Hx. specialize (T3 b' x Hx). apply prefix_length in Hw. unfold wakeups in *. cbn. lia.
    + intros r' x [->|Hr']%elem_of_cons Hx Ha; [exfalso; apply Hh; set_solver|]. rewrite lookup_insert_ne in Hx by (by apply not_eq_sym, Hne).
      eapply request_woken_later; [exact Hw|by eapply T3|by eapply T4].
Qed.

(** How a request ends: a write has put its buffer on the medium, a read has put
    the block of the medium into its buffer, and the other of the two is as it was. *)
Definition completed (s : dst) (b : Z) (x : request) : Prop :=
  forall i, 0 <= i < BSIZE ->
    ds_data s b i = (if w_write x then w_data x i else w_media x i) /\
    media_block s (ds_blockno s b) i = (if w_write x then w_data x i else w_media x i).

Lemma wait_step_ok b x s P :
  disk_ok (s, P) -> P !! b = Some x ->
  (exists s', rw_wait b (w_head x) s = Ret tt s' /\ woken s b x /\ disk_ok (s', delete b P) /\ completed s' b x) \/
  (exists s', rw_wait b (w_head x) s = Blocked (chan_buf b) s' /\ disk_ok (s', <[b := sleep_again s' x]> P)).
Proof.
  intros [Hl (rs & Q & U & A & Hi & Ht)] HP. cbn [fst snd] in *.
  assert ((head_of <$> P) !! b = Some (head_of x)) as HP' by (by rewrite lookup_fmap, HP).
  apply (di_waiting _ _ _ _ _ _ Hi) in HP' as (r & Hr & <- & Eh & Ew). rewrite <- Eh.
  destruct (decide (q_head r ∈ A)) as [Ha|Ha].
  - left. pose proof Ha as HA. apply elem_of_Permutation in Ha as [A' Ha]. pose proof (proj1 (elem_of_Permutation rs r) Hr) as [rs' Hrs].
    pose proof (disk_inv_perm _ _ _ _ _ _ _ _ Hrs Ha Hi) as Hi'.
    destruct (rw_wait_done s _ r rs' Q U A' Hi' Hl) as (s' & E & I' & L' & D & Mm & B & Hw). exists s'. split; [exact E|]. split; [by eapply tr_woken|]. split.
    + split; [exact L'|]. exists rs', Q, U, A'. cbn [fst snd]. rewrite fmap_delete. split; [exact I'|].
      apply (traced_same s); [done..|]. destruct Ht as [T1 T2 T3 T4].
      split; [intros r' y Hr'|intros r' y Hr'|intros b' y|intros r' y Hr']; rewrite lookup_delete_Some; intros [Hne Hy];
        [eapply T1|eapply T2|eapply T3|intros HA'; eapply T4]; try done; try (rewrite Hrs; by right). rewrite Ha. by right.
    + intros i Hib. unfold media_block. rewrite D, Mm, B.
      assert (transferred s r) as Htr by (apply (di_data _ _ _ _ _ _ Hi r Hr); set_solver). specialize (Htr i Hib).
      destruct (w_write x) eqn:Ex.
      * pose proof (tr_data _ _ _ _ Ht r x Hr HP Ex i Hib). by rewrite <- Htr.
      * pose proof (tr_media _ _ _ _ Ht r x Hr HP Ex i Hib) as H. unfold media_block in H. by rewrite Htr.
  - right. destruct (rw_wait_busy s _ rs Q U A r Hi Hl Hr Ha) as (k & E & K & Kw). exists (update k s). split; [exact E|].
    split; [exact K|]. exists rs, Q, U, A. cbn [fst snd]. rewrite fmap_insert.
    change (head_of (sleep_again (update k s) x)) with (head_of x). rewrite insert_id by (by rewrite lookup_fmap, HP).
    split; [by apply disk_inv_lk|]. apply (traced_again s k P rs A r x); [done..|]. intros r' Hr' E'. by rewrite (inv_buf_eq _ _ _ _ _ _ Hi r' r).
Qed.

Lemma owner_step_ok b d n s P :
  disk_ok (s, P) -> P !! b = None ->
  disk_ok (mkDst (ds_disk s) (upd (ds_data s) b d) (upd (ds_blockno s) b n) (ds_busy s) (ds_seen s) (ds_told s)
                 (ds_pending s) (ds_media s) (ds_lk s), P).
Proof.
  intros [Hl (rs & Q & U & A & Hi & Ht)] Hb. split; [done|]. exists rs, Q, U, A. cbn [fst snd] in *.
  assert ((head_of <$> P) !! b = None) as Hb' by (by rewrite lookup_fmap, Hb).
  assert (forall r, r ∈ rs -> upd (ds_blockno s) b n (q_buf r) = ds_blockno s (q_buf r) /\ upd (ds_data s) b d (q_buf r) = ds_data s (q_buf r)) as Hu.
  { intros r Hr. rewrite !upd_ne; [done|..]; intros E; destruct (old_buf s _ rs Q U A Hi r Hr) as [x Hx]; congruence. }
  split.
  - pose proof Hi as [I1 I2 I3 I4 I5 I6 I7 I8 I9 I10 I11 I12 I13 I14 I15]. split; try done; dred.
    + apply Forall_forall. intros r Hr. rewrite Forall_forall in I4. rewrite (proj1 (Hu r Hr)). by apply I4.
    + split.
      * rewrite (list_fmap_ext _ (fun r => ds_blockno s (q_buf r)) rs); [apply I9|].
        intros i r Hir. apply Hu. by eapply list_elem_of_lookup_2.
      * apply Forall_forall. intros r Hr. rewrite (proj1 (Hu r Hr)). destruct I9 as [_ H]. rewrite Forall_forall in H. by apply H.
    + intros r Hr Hua i Hib. dred. destruct (Hu r Hr) as [-> ->]. by apply I14.
  - destruct Ht as [T1 T2 T3 T4]. split; unfold media_block; dred; try done; intros r x Hr; destruct (Hu r Hr) as [E1 E2]; rewrite ?E1, ?E2;
      [by apply T1|by apply T2].
Qed.

Lemma disk_step_ok x y : disk_step x y -> disk_ok x -> disk_ok y.
Proof.
  intros [] Hx; pose proof Hx as [Hl (rs & Q & U & A & Hi & Ht)]; cbn [fst snd] in *.
  - by eapply start_step_ok.
  - destruct (rw_start_cases _ _ _ _ _ _ b w Hi Hl) as [(r & k0 & s1 & k & _ & _ & _ & _ & E & _)|(s2 & E & I2 & L2 & D1 & D2 & D3 & W)]; [congruence|].
    rewrite E in *. injection H as _ <-. split; [done|]. exists rs, Q, U, A. split; [done|]. by apply (traced_same s).
  - destruct (dev_fetch_inv _ _ _ _ _ _ Hi _ H) as (h & Q' & -> & I' & L'). split; [cbn; congruence|]. exists rs, Q', U, A. split; [done|].
    unfold dev_fetch in H. repeat case_match; try done. injection H as <-. by apply (traced_same s).
  - destruct (inv_request _ _ _ _ _ _ Hi h) as (r & Hr & <-); [set_solver|].
    destruct (dev_serve_eq _ _ _ _ _ _ Hi r Hr) as (info & ring & E & Z1 & Z2). rewrite E in *. injection H0 as <-.
    split; [done|]. exists rs, Q, (U ++ [q_head r]), A. split; [by apply dev_serve_inv|by eapply traced_served].
  - destruct (virtio_disk_intr_ok _ _ _ _ _ _ Hi Hl) as (s2 & E & I2 & L2 & W). rewrite E in *. injection H as <-.
    split; [done|]. exists rs, Q, [], (A ++ U). split; [done|]. by apply (traced_woken s).
  - destruct (wait_step_ok _ _ s P Hx H) as [(s2 & E & _ & I2 & _)|(s2 & E & _)]; congruence.
  - destruct (wait_step_ok _ _ s P Hx H) as [(s2 & E & _)|(s2 & E & I2)]; [congruence|].
    rewrite E in *. by injection H1 as _ <-.
  - by apply owner_step_ok.
Qed.

(** ** No request is lost *)

Lemma fetch_all Q : forall s P rs U A,
  disk_inv s (head_of <$> P) rs Q U A -> lk_held (ds_lk s) = [] -> traced s P rs A ->
  exists s', rtc disk_step (s, P) (s', P) /\ disk_inv s' (head_of <$> P) rs [] U A /\ lk_held (ds_lk s') = [] /\ traced s' P rs A.
Proof.
  induction Q as [|h Q IH]; intros s P rs U A Hi Hl Ht; [by exists s|].
  assert (exists s1, dev_fetch s = Some s1) as [s1 E].
  { unfold dev_fetch. rewrite (di_told _ _ _ _ _ _ Hi). pose proof (di_avail _ _ _ _ _ _ Hi) as Hw. pose proof (inv_few _ _ _ _ _ _ Hi) as Hf.
    destruct (Z.eqb_spec (ds_seen s) (dk_avail_idx (ds_disk s))) as [E|_].
    - apply (window_nonempty _ _ _ _ Hw) in E; [done|apply (di_idx _ _ _ _ _ _ Hi)|lia].
    - pose proof (proj2 Hw 0%nat h eq_refl) as E0. rewrite Z.add_0_r in E0. rewrite E0. by eexists. }
  destruct (dev_fetch_inv _ _ _ _ _ _ Hi _ E) as (h' & Q' & [= <- <-] & I1 & L1).
  destruct (IH s1 P rs U A I1) as (s' & Hr & H); [congruence| |].
  { unfold dev_fetch in E. repeat case_match; try done. injection E as <-. by apply (traced_same s). }
  exists s'. split; [|done]. eapply rtc_l; [|exact Hr]. by apply st_fetch.
Qed.

Lemma can_finish s P b x :
  disk_ok (s, P) -> P !! b = Some x ->
  exists s', rtc disk_step (s, P) (s', delete b P) /\ completed s' b x.
Proof.
  intros [Hl (rs & Q & U & A & Hi & Ht)] HP. cbn [fst snd] in *.
  assert ((head_of <$> P) !! b = Some (head_of x)) as HP' by (by rewrite lookup_fmap, HP).
  apply (di_waiting _ _ _ _ _ _ Hi) in HP' as (r & Hr & <- & Eh & Ew).
  destruct (fetch_all Q s P rs U A Hi Hl Ht) as (s1 & S1 & I1 & L1 & T1).
  assert (exists s2 U2, rtc disk_step (s1, P) (s2, P) /\ disk_inv s2 (head_of <$> P) rs [] U2 A /\ lk_held (ds_lk s2) = [] /\
    traced s2 P rs A /\ q_head r ∈ A ++ U2) as (s2 & U2 & S2 & I2 & L2 & T2 & H2).
  { assert (q_head r ∈ ds_pending s1 ++ U ++ A) as Hin.
    { pose proof (di_heads _ _ _ _ _ _ I1) as Hp. cbn in Hp. rewrite <- Hp. by apply list_elem_of_fmap_2. }
    destruct (decide (q_head r ∈ ds_pending s1)) as [Hp|Hp]; [|exists s1, U; split; [done|]; set_solver].
    destruct (dev_serve_eq _ _ _ _ _ _ I1 r Hr) as (info & ring & E & Z1 & Z2).
    exists (served s1 r info ring), (U ++ [q_head r]). split; [apply rtc_once; by eapply st_serve|].
    split; [by apply dev_serve_inv|]. split; [done|]. split; [by eapply traced_served|]. set_solver. }
  destruct (virtio_disk_intr_ok _ _ _ _ _ _ I2 L2) as (s3 & E3 & I3 & L3 & W3).
  assert (disk_ok (s3, P)) as Hok by (split; [done|]; exists rs, [], [], (A ++ U2); split; [done|by apply (traced_woken s2)]).
  destruct (wait_step_ok _ _ _ _ Hok HP) as [(s4 & E4 & Hw & _ & Hc)|(s4 & E4 & _)].
  - exists s4. split; [|exact Hc]. etrans; [exact S1|]. etrans; [exact S2|]. eapply rtc_l; [by apply st_intr|]. apply rtc_once. by eapply st_wait.
  - exfalso. pose proof (proj1 (elem_of_Permutation rs r) Hr) as [rs' Hrs]. apply elem_of_Permutation in H2 as [A' Ha].
    pose proof (disk_inv_perm _ _ _ _ _ _ _ _ Hrs Ha I3) as Hi'.
    destruct (rw_wait_done s3 _ r rs' [] [] A' Hi' L3) as (s' & E & _). rewrite Eh in E. congruence.
Qed.

(** C4: the disk driver never loses or mixes up a request.  In every state that
    any interleaving of processes, device and interrupts reaches, the interrupt
    handler returns and a new virtio_disk_rw publishes its request or waits for
    descriptors; none of them panics.  A process that waits for its request and
    looks finds it done or goes on waiting.  When it is done the process was woken
    since it went to sleep, and a write has put the contents its buffer had at
    the start on its block of the medium, a read has put what was on the block
    into the buffer, the buffer of a write and the block of a read being as they
    were.  For each waiting process the device, the interrupt and the wakeup can
    bring it to that end. *)
Theorem disk_requests_served data blockno media pid s P :
  rtc disk_step (boot_disk data blockno media pid, ∅) (s, P) ->
  (exists s', virtio_disk_intr s = Ret tt s') /\
  (forall b w, (exists i0 s', rw_start b w s = Ret i0 s') \/ (exists s', rw_start b w s = Blocked chan_free s')) /\
  (forall b x, P !! b = Some x ->
     ((exists s', rw_wait b (w_head x) s = Ret tt s' /\ woken s b x /\ completed s' b x) \/
      (exists s', rw_wait b (w_head x) s = Blocked (chan_buf b) s')) /\
     exists s', rtc disk_step (s, P) (s', delete b P) /\ completed s' b x).
Proof.
  intros Hr. assert (disk_ok (s, P)) as Hok.
  { assert (forall x y, rtc disk_step x y -> disk_ok x -> disk_ok y) as Hind.
    { intros x y H. induction H as [|x y z H _ IH]; [done|]. intros Hx. by eapply IH, disk_step_ok. }
    eapply Hind; [exact Hr|apply boot_disk_ok]. }
  pose proof Hok as [Hl (rs & Q & U & A & Hi & _)]. cbn [fst snd] in *. split; [|split].
  - destruct (virtio_disk_intr_ok _ _ _ _ _ _ Hi Hl) as (s' & E & _). by exists s'.
  - intros b w. destruct (rw_start_cases _ _ _ _ _ _ b w Hi Hl) as [(r & k0 & s1 & k & _ & _ & _ & _ & E & _)|(s' & E & _)];
      [left|right]; rewrite E; eauto.
  - intros b x HP. split; [|by eapply can_finish].
    destruct (wait_step_ok _ _ _ _ Hok HP) as [(s' & E & Hw & _ & H)|(s' & E & _)]; [left|right]; eauto.
Qed.

(** Buffer 3, for block 5, is being read. *)
Lemma disk_requests_served_witness :
  exists s x, rtc disk_step (boot_disk (fun _ => zero_block) (fun _ => 5) (fun a => a mod 256) 1, ∅) (s, {[3 := x]}) /\
    exists s', rtc disk_step (s, {[3 := x]}) (s', ∅) /\ ds_data s' 3 7 = (1024 * 5 + 7) mod 256.
Proof.
  set (b0 := boot_disk (fun _ => zero_block) (fun _ => 5) (fun a => a mod 256) 1).
  assert (exists i0 s, rw_start 3 false b0 = Ret i0 s) as (i0 & s & E) by (eexists _, _; vm_compute; reflexivity).
  set (x := mkWait i0 false (ds_data b0 3) (media_block b0 (ds_blockno b0 3)) (length (wakeups s))).
  assert (rtc disk_step (b0, ∅) (s, {[3 := x]})) as Hr.
  { apply rtc_once. change ({[3 := x]} : requests) with (<[3 := x]> (∅ : requests)).
    apply st_start; [apply lookup_empty|cbn; lia| |exact E]. intros b' y. by rewrite lookup_empty. }
  exists s, x. split; [exact Hr|].
  destruct (disk_requests_served (fun _ => zero_block) (fun _ => 5) (fun a => a mod 256) 1 s {[3 := x]} Hr) as (_ & _ & H).
  destruct (proj2 (H 3 x (lookup_insert_eq _ _ _))) as (s' & S & C). exists s'. split.
  - replace (∅ : requests) with (delete 3 ({[3 := x]} : requests)) by apply delete_singleton_eq. exact S.
  - apply (C 7). unfold BSIZE. lia.
Defined.

(** ** virtio_disk_init *)

Definition VIRTIO_BLK_F_RO : Z := 5.
Definition VIRTIO_BLK_F_SCSI : Z := 7.
Definition VIRTIO_BLK_F_CONFIG_WCE : Z := 11.
Definition VIRTIO_BLK_F_MQ : Z := 12.
Definition VIRTIO_F_ANY_LAYOUT : Z := 27.
Definition VIRTIO_RING_F_INDIRECT_DESC : Z := 28.
Definition VIRTIO_RING_F_EVENT_IDX : Z := 29.

(** The kernel, the driver's state, and the register writes so far. *)
Record dboot := mkDboot { db_boot : boot; db_disk : disk; db_lk : lkst }.
#[export] Instance dboot_boot : Lens dboot boot.
Proof. refine {| view := db_boot; update := fun b s => mkDboot b (db_disk s) (db_lk s) |}; [done|by intros []|done]. Defined.
#[export] Instance dboot_kst : Lens dboot kst.
Proof.
  refine {| view := fun s => bt_k (db_boot s);
            update := fun k s => mkDboot (mkBoot k (bt_writes (db_boot s))) (db_disk s) (db_lk s) |};
  [done|by intros [[] ? ?]|done].
Defined.

Definition initlock (l : klock) : M dboot unit :=
  modify (fun s => mkDboot (db_boot s) (db_disk s) (set_lk_held (base.filter (fun x => x <> l) (lk_held (db_lk s))) (db_lk s))).
Definition mod_disk (f : disk -> disk) : M dboot unit :=
  modify (fun s => mkDboot (db_boot s) (f (db_disk s)) (db_lk s)).
Definition dreg (r v : Z) : M dboot unit := lift (wreg r v).

Definition clear_feature (bit features : Z) : Z := Z.land features (Z.lnot (Z.shiftl 1 bit)).

Definition disk_features (f : Z) : Z :=
  let f := clear_feature VIRTIO_BLK_F_RO f in
  let f := clear_feature VIRTIO_BLK_F_SCSI f in
  let f := clear_feature VIRTIO_BLK_F_CONFIG_WCE f in
  let f := clear_feature VIRTIO_BLK_F_MQ f in
  let f := clear_feature VIRTIO_F_ANY_LAYOUT f in
  let f := clear_feature VIRTIO_RING_F_EVENT_IDX f in
  clear_feature VIRTIO_RING_F_INDIRECT_DESC f.

Definition virtio_disk_init (dev : device) : M dboot unit :=
  initlock L_vdisk ;;;
  if negb (dv_magic dev =? 0x74726976) || negb (dv_version dev =? 2) || negb (dv_device_id dev =? 2)
     || negb (dv_vendor dev =? 0x554d4551) then panic "could not find virtio disk"%string
  else
  dreg VIRTIO_MMIO_STATUS 0 ;;;
  dreg VIRTIO_MMIO_STATUS VIRTIO_CONFIG_S_ACKNOWLEDGE ;;;
  dreg VIRTIO_MMIO_STATUS (Z.lor VIRTIO_CONFIG_S_ACKNOWLEDGE VIRTIO_CONFIG_S_DRIVER) ;;;
  dreg VIRTIO_MMIO_DRIVER_FEATURES (disk_features (dv_features dev)) ;;;
  dreg VIRTIO_MMIO_STATUS (Z.lor (Z.lor VIRTIO_CONFIG_S_ACKNOWLEDGE VIRTIO_CONFIG_S_DRIVER) VIRTIO_CONFIG_S_FEATURES_OK) ;;;
  let status := dv_status dev in
  if Z.land status VIRTIO_CONFIG_S_FEATURES_OK =? 0 then panic "virtio disk FEATURES_OK unset"%string
  else
  dreg VIRTIO_MMIO_QUEUE_SEL 0 ;;;
  if negb (dv_rx_ready dev =? 0) then panic "virtio disk should not be ready"%string
  else if dv_queue_max dev =? 0 then panic "virtio disk has no queue 0"%string
  else if dv_queue_max dev <? NUM then panic "virtio disk max queue too short"%string
  else
  desc <- lift k_kalloc ;;
  avail <- lift k_kalloc ;;
  used <- lift k_kalloc ;;
  if (desc =? 0) || (avail =? 0) || (used =? 0) then panic "virtio disk kalloc"%string
  else
  lift (k_setmem (fun m => memset (memset (memset m desc 0 PGSIZE) avail 0 PGSIZE) used 0 PGSIZE)) ;;;
  mod_disk (fun k => mkDisk (replicate 8 zero_desc) 0 (replicate 8 0) 0 (replicate 8 0) (dk_free k) (dk_used_idx k)
                            (dk_info k) (dk_ops k)) ;;;
  dreg VIRTIO_MMIO_QUEUE_NUM NUM ;;;
  dreg VIRTIO_MMIO_QUEUE_DESC_LOW desc ;;;
  dreg VIRTIO_MMIO_QUEUE_DESC_HIGH (Z.shiftr desc 32) ;;;
  dreg VIRTIO_MMIO_DRIVER_DESC_LOW avail ;;;
  dreg VIRTIO_MMIO_DRIVER_DESC_HIGH (Z.shiftr avail 32) ;;;
  dreg VIRTIO_MMIO_DEVICE_DESC_LOW used ;;;
  dreg VIRTIO_MMIO_DEVICE_DESC_HIGH (Z.shiftr used 32) ;;;
  dreg VIRTIO_MMIO_QUEUE_READY 1 ;;;
  mod_disk (set_free (replicate 8 1)) ;;;
  dreg VIRTIO_MMIO_STATUS (Z.lor status VIRTIO_CONFIG_S_DRIVER_OK).

Record good_disk (dev : device) : Prop := {
  gk_magic : dv_magic dev = 0x74726976; gk_version : dv_version dev = 2; gk_id : dv_device_id dev = 2;
  gk_vendor : dv_vendor dev = 0x554d4551; gk_status : Z.land (dv_status dev) VIRTIO_CONFIG_S_FEATURES_OK <> 0;
  gk_max : NUM <= dv_queue_max dev; gk_ready : dv_rx_ready dev = 0
}.

(** [s] after the register writes [ws]. *)
Definition with_regs (ws : list (Z * Z)) (s : dboot) : dboot :=
  mkDboot (mkBoot (bt_k (db_boot s)) (bt_writes (db_boot s) ++ ws)) (db_disk s) (db_lk s).
Definition with_kst (k : kst) (s : dboot) : dboot := mkDboot (mkBoot k (bt_writes (db_boot s))) (db_disk s) (db_lk s).

Lemma with_regs_nil s : with_regs [] s = s.
Proof. destruct s as [[] ? ?]. unfold with_regs. cbn. by rewrite app_nil_r. Qed.

Lemma dreg_step {B} r v (c : unit -> M dboot B) ws s :
  bind (dreg r v) c (with_regs ws s) = c tt (with_regs (ws ++ [(r, u32 v)]) s).
Proof. unfold bind, dreg, lift, wreg, modify, with_regs. cbn [view update dboot_boot bt_k bt_writes db_boot db_disk db_lk]. by rewrite <- app_assoc. Qed.
Lemma dreg_end r v ws s : dreg r v (with_regs ws s) = Ret tt (with_regs (ws ++ [(r, u32 v)]) s).
Proof. unfold bind, dreg, lift, wreg, modify, with_regs. cbn [view update dboot_boot bt_k bt_writes db_boot db_disk db_lk]. by rewrite <- app_assoc. Qed.
Lemma disk_step_mod {B} f (c : unit -> M dboot B) ws s :
  bind (mod_disk f) c (with_regs ws s) = c tt (with_regs ws (mkDboot (db_boot s) (f (db_disk s)) (db_lk s))).
Proof. done. Qed.
Lemma kst_step {B C} (m : M kst C) (c : C -> M dboot B) ws s a k :
  m (bt_k (db_boot s)) = Ret a k -> bind (lift m) c (with_regs ws s) = c a (with_regs ws (with_kst k s)).
Proof. intros H. unfold bind, lift. cbn. by rewrite H. Qed.

(** With a disk that identifies itself and three free pages the driver comes up
    in the state the requests start from, and DRIVER_OK is the last write. *)
Lemma virtio_disk_init_ready dev s d1 d2 d3 l data blockno media :
  let k := bt_k (db_boot s) in
  good_disk dev -> mem_ok (k_phys k) -> Pool.free (ph_pool (k_phys k)) = d1 :: d2 :: d3 :: l ->
  db_disk s = mkDisk [] 0 [] 0 [] (replicate 8 0) 0 (replicate 8 (None, 0)) (replicate 8 (mkReq 0 0 0)) ->
  exists s', virtio_disk_init dev s = Ret tt s' /\
    db_disk s' = ds_disk (boot_disk data blockno media 0) /\ L_vdisk ∉ lk_held (db_lk s') /\
    Pool.free (ph_pool (k_phys (bt_k (db_boot s')))) = l /\
    last (bt_writes (db_boot s')) = Some (VIRTIO_MMIO_STATUS, u32 (Z.lor (dv_status dev) VIRTIO_CONFIG_S_DRIVER_OK)).
Proof.
  intros k [G1 G2 G3 G4 G5 G6 G7] Hok Hf Hd. unfold NUM in G6.
  destruct (k_alloc_below k d1 (d2 :: d3 :: l) Hok Hf) as (p1 & A1 & O1 & L1 & N1 & F1 & _).
  destruct (k_alloc_below (set_phys p1 k) d2 (d3 :: l) O1 F1) as (p2 & A2 & O2 & L2 & N2 & F2 & _).
  destruct (k_alloc_below (set_phys p2 (set_phys p1 k)) d3 l O2 F2) as (p3 & A3 & O3 & L3 & N3 & F3 & _).
  set (lk := set_lk_held (base.filter (fun x => x <> L_vdisk) (lk_held (db_lk s))) (db_lk s)).
  set (s0 := mkDboot (db_boot s) (db_disk s) lk). eexists. split.
  - unfold virtio_disk_init. rewrite (bind_Ret _ _ _ _ _ (eq_refl : initlock L_vdisk s = Ret tt s0)).
    rewrite G1, G2, G3, G4, G7. unfold NUM. rewrite !Z.eqb_refl. cbn [negb orb]. rewrite <- (with_regs_nil s0) at 1.
    rewrite !dreg_step. zb. rewrite dreg_step. zb. rewrite (kst_step _ _ _ s0 _ _ A1).
    rewrite (kst_step _ _ _ (with_kst _ s0) _ _ A2), (kst_step _ _ _ (with_kst _ (with_kst _ s0)) _ _ A3). zb. cbn [orb].
    erewrite kst_step by (unfold k_setmem, lift; reflexivity). rewrite disk_step_mod, !dreg_step, disk_step_mod, dreg_end. reflexivity.
  - cbn. rewrite Hd. cbn. split; [done|]. split; [|split; [exact F3|]].
    + rewrite list_elem_of_filter. naive_solver.
    + by rewrite last_app.
Qed.

End Disk.
