(* ===== verification/Fs.v ===== *)
(** * kernel/fs.c

    The file system: block allocator, inodes, file contents, directories and
    paths, on top of the log.  An inode pointer is an index into itable, with
    [null] for the null pointer.  The inode a block of disk holds is bytes at
    the offsets of struct dinode, and addrs is a list of NDIRECT + 1 words.

    Buffers' data and physical memory are separate parts of the state; where C
    passes a pointer into a buffer to copyin() or copyout(), [either_copyin] and
    [either_copyout] go through the address [fs_bufaddr] gives the buffer, which
    is where struct buf keeps the data.  Local variables whose address is taken
    live in [fs_frame].  The theorems about these functions are in FsPath.v,
    FsAlloc.v and the files after them. *)
From stdpp Require Import strings.
From S2P Require Import Prelude Mem StringC Kalloc Page Vm Locks Bio Log.
From Stdlib Require Import ZArith Lia.
Local Open Scope list_scope.
Local Open Scope Z_scope.
Local Open Scope kernel_scope.

Definition ROOTINO : Z := 1.
Definition FSMAGIC : Z := 0x10203040.
Definition NDIRECT : Z := 12.
Definition NINDIRECT : Z := BSIZE / 4.
Definition MAXFILE : Z := NDIRECT + NINDIRECT.
Definition IPB : Z := BSIZE / 64.
Definition BPB : Z := BSIZE * 8.
Definition DIRSIZ : Z := 14.
Definition NINODE : Z := 50.
Definition T_DIR : Z := 1.
Definition T_FILE : Z := 2.
Definition T_DEVICE : Z := 3.
Definition MAXPATH : Z := 128.

(** C's [short]. *)
Definition s16 (x : Z) : Z := (x + 2 ^ 15) mod 2 ^ 16 - 2 ^ 15.

Record superblock := mkSb {
  sb_magic : Z; sb_size : Z; sb_nblocks : Z; sb_ninodes : Z; sb_nlog : Z; sb_logstart : Z; sb_inodestart : Z; sb_bmapstart : Z
}.

(** struct inode, without its lock ([S_inode]). *)
Record inode := mkInode {
  i_dev : Z; i_inum : Z; i_ref : Z; i_valid : Z;
  i_type : Z; i_major : Z; i_minor : Z; i_nlink : Z; i_size : Z; i_addrs : list Z
}.
Definition null : Z := -1.

Record fss := mkFss {
  fs_l : lst; fs_itable : Z -> inode; fs_sb : superblock;
  fs_phys : phys; fs_pagetable : Z; fs_cwd : Z; fs_bufaddr : Z -> Z; fs_frame : Z
}.

Definition set_l (l : lst) (s : fss) : fss :=
  mkFss l (fs_itable s) (fs_sb s) (fs_phys s) (fs_pagetable s) (fs_cwd s) (fs_bufaddr s) (fs_frame s).
Definition set_itable (t : Z -> inode) (s : fss) : fss :=
  mkFss (fs_l s) t (fs_sb s) (fs_phys s) (fs_pagetable s) (fs_cwd s) (fs_bufaddr s) (fs_frame s).
Definition set_sb (b : superblock) (s : fss) : fss :=
  mkFss (fs_l s) (fs_itable s) b (fs_phys s) (fs_pagetable s) (fs_cwd s) (fs_bufaddr s) (fs_frame s).
Definition set_fphys (p : phys) (s : fss) : fss :=
  mkFss (fs_l s) (fs_itable s) (fs_sb s) p (fs_pagetable s) (fs_cwd s) (fs_bufaddr s) (fs_frame s).

#[export] Instance fss_lst : Lens fss lst.
Proof. refine {| view := fs_l; update := set_l |}; [done|by intros []|done]. Defined.
#[export] Instance fss_bst : Lens fss bst.
Proof.
  refine {| view := fun s => ls_b (fs_l s); update := fun b s => set_l (mkLst b (ls_log (fs_l s))) s |};
  [done|by intros [[] ? ? ? ? ? ? ?]|done].
Defined.
#[export] Instance fss_lk : Lens fss lkst.
Proof.
  refine {| view := fun s => bs_lk (ls_b (fs_l s));
            update := fun k s => set_l (mkLst (set_lk k (ls_b (fs_l s))) (ls_log (fs_l s))) s |};
  [done|by intros [[[] ?] ? ? ? ? ? ? ?]|done].
Defined.
#[export] Instance fss_phys : Lens fss phys.
Proof. refine {| view := fs_phys; update := set_fphys |}; [done|by intros []|done]. Defined.

(** Access to a buffer's data and to an inode. *)
Definition getdata (b : Z) : M fss block := k <- lift (getbuf b) ;; ret (b_data k).
Definition putdata (b : Z) (d : block) : M fss unit := lift (modbuf b (set_data d)).
Definition geti (ip : Z) : M fss inode := gets (fun s => fs_itable s ip).
Definition modi (ip : Z) (f : inode -> inode) : M fss unit :=
  modify (fun s => set_itable (upd (fs_itable s) ip (f (fs_itable s ip))) s).

Definition set_iref (r : Z) (i : inode) : inode :=
  mkInode (i_dev i) (i_inum i) r (i_valid i) (i_type i) (i_major i) (i_minor i) (i_nlink i) (i_size i) (i_addrs i).
Definition set_ivalid (v : Z) (i : inode) : inode :=
  mkInode (i_dev i) (i_inum i) (i_ref i) v (i_type i) (i_major i) (i_minor i) (i_nlink i) (i_size i) (i_addrs i).
Definition set_itype (t : Z) (i : inode) : inode :=
  mkInode (i_dev i) (i_inum i) (i_ref i) (i_valid i) t (i_major i) (i_minor i) (i_nlink i) (i_size i) (i_addrs i).
Definition set_isize (n : Z) (i : inode) : inode :=
  mkInode (i_dev i) (i_inum i) (i_ref i) (i_valid i) (i_type i) (i_major i) (i_minor i) (i_nlink i) n (i_addrs i).
Definition set_iaddrs (a : list Z) (i : inode) : inode :=
  mkInode (i_dev i) (i_inum i) (i_ref i) (i_valid i) (i_type i) (i_major i) (i_minor i) (i_nlink i) (i_size i) a.

(** ** Super block *)

Definition readsb (dev : Z) : M fss unit :=
  bp <- lift (bread dev 1) ;;
  d <- getdata bp ;;
  modify (set_sb (mkSb (ld32 d 0) (ld32 d 4) (ld32 d 8) (ld32 d 12) (ld32 d 16) (ld32 d 20) (ld32 d 24) (ld32 d 28))) ;;;
  lift (brelse bp).

Definition fsinit (dev : Z) : M fss unit :=
  readsb dev ;;;
  b <- gets fs_sb ;;
  if negb (sb_magic b =? FSMAGIC) then panic "invalid file system"
  else lift (initlog dev (sb_logstart b) (sb_nlog b)).

(** ** Blocks *)

Definition bzero (dev bno : Z) : M fss unit :=
  bp <- lift (bread dev (u32 bno)) ;;
  d <- getdata bp ;;
  putdata bp (memset d 0 0 BSIZE) ;;;
  lift (log_write bp) ;;;
  lift (brelse bp).

Definition BBLOCK (b : Z) (sb : superblock) : Z := u32 (b / BPB + sb_bmapstart sb).
Definition IBLOCK (i : Z) (sb : superblock) : Z := u32 (i / IPB + sb_inodestart sb).

Definition bit_set (d : block) (bi : Z) : bool := negb (Z.land (d (bi / 8)) (Z.shiftl 1 (bi mod 8)) =? 0).

(** The inner loop of balloc: the first clear bit from [bi] on. *)
Fixpoint find_clear (fuel : nat) (d : block) (b bi size : Z) : option Z :=
  match fuel with
  | O => None
  | S fuel =>
      if negb ((bi <? BPB) && (b + bi <? size)) then None
      else if bit_set d bi then find_clear fuel d b (bi + 1) size
      else Some bi
  end.

Fixpoint balloc_loop (fuel : nat) (dev b : Z) : M fss Z :=
  match fuel with
  | O => fun s => Spin s
  | S fuel =>
      sb <- gets fs_sb ;;
      if negb (b <? sb_size sb) then ret 0
      else
        bp <- lift (bread dev (BBLOCK b sb)) ;;
        d <- getdata bp ;;
        match find_clear (Z.to_nat BPB) d b 0 (sb_size sb) with
        | Some bi =>
            putdata bp (st8 d (bi / 8) (Z.lor (d (bi / 8)) (Z.shiftl 1 (bi mod 8)))) ;;;
            lift (log_write bp) ;;;
            lift (brelse bp) ;;;
            bzero dev (b + bi) ;;;
            ret (u32 (b + bi))
        | None =>
            lift (brelse bp) ;;;
            balloc_loop fuel dev (b + BPB)
        end
  end.

(** One turn per bitmap block. *)
Definition balloc (dev : Z) : M fss Z :=
  sb <- gets fs_sb ;; balloc_loop (S (Z.to_nat (sb_size sb / BPB + 1))) dev 0.

Definition bfree (dev b : Z) : M fss unit :=
  sb <- gets fs_sb ;;
  bp <- lift (bread dev (BBLOCK b sb)) ;;
  let bi := b mod BPB in
  d <- getdata bp ;;
  if negb (bit_set d bi) then panic "freeing free block"
  else
    putdata bp (st8 d (bi / 8) (Z.land (d (bi / 8)) (Z.lnot (Z.shiftl 1 (bi mod 8))))) ;;;
    lift (log_write bp) ;;;
    lift (brelse bp).

(** ** Inodes *)

Fixpoint iinit_loop (n : nat) (i : Z) : M fss unit :=
  match n with
  | O => ret tt
  | S n => lift (initsleeplock (S_inode i)) ;;; iinit_loop n (i + 1)
  end.

Definition iinit : M fss unit :=
  lift (modify (fun k => set_lk_held (base.filter (fun x => x <> L_itable) (lk_held k)) k)) ;;;
  iinit_loop (Z.to_nat NINODE) 0.

(** struct dinode at [a] in a block. *)
Definition di_type (d : block) (a : Z) : Z := s16 (ld16 d a).
Definition di_major (d : block) (a : Z) : Z := s16 (ld16 d (a + 2)).
Definition di_minor (d : block) (a : Z) : Z := s16 (ld16 d (a + 4)).
Definition di_nlink (d : block) (a : Z) : Z := s16 (ld16 d (a + 6)).
Definition di_size (d : block) (a : Z) : Z := ld32 d (a + 8).
Fixpoint di_addrs (n : nat) (d : block) (a : Z) : list Z :=
  match n with O => [] | S n => ld32 d a :: di_addrs n d (a + 4) end.
Fixpoint put_addrs (l : list Z) (d : block) (a : Z) : block :=
  match l with [] => d | x :: l => put_addrs l (st32 d a x) (a + 4) end.

(** The offset of inode [inum] in its block. *)
Definition dip (inum : Z) : Z := 64 * (inum mod IPB).

(** Is the inode of the table, or the first free entry. *)
Fixpoint iget_scan (n : nat) (i empty dev inum : Z) (t : Z -> inode) : Z + Z :=
  match n with
  | O => inr empty
  | S n =>
      let ip := t i in
      if (0 <? i_ref ip) && (i_dev ip =? dev) && (i_inum ip =? inum) then inl i
      else iget_scan n (i + 1) (if (empty =? null) && (i_ref ip =? 0) then i else empty) dev inum t
  end.

Definition iget (dev inum : Z) : M fss Z :=
  lift (acquire L_itable) ;;;
  t <- gets fs_itable ;;
  match iget_scan (Z.to_nat NINODE) 0 null dev inum t with
  | inl ip =>
      modi ip (fun i => set_iref (s32 (i_ref i + 1)) i) ;;;
      lift (release L_itable) ;;;
      ret ip
  | inr empty =>
      if empty =? null then panic "iget: no inodes"
      else
        modi empty (fun i => mkInode dev inum 1 0 (i_type i) (i_major i) (i_minor i) (i_nlink i) (i_size i) (i_addrs i)) ;;;
        lift (release L_itable) ;;;
        ret empty
  end.

Fixpoint ialloc_loop (fuel : nat) (dev type inum : Z) : M fss Z :=
  match fuel with
  | O => fun s => Spin s
  | S fuel =>
      sb <- gets fs_sb ;;
      if negb (inum <? sb_ninodes sb) then ret null
      else
        bp <- lift (bread dev (IBLOCK inum sb)) ;;
        d <- getdata bp ;;
        if di_type d (dip inum) =? 0 then
          putdata bp (st16 (memset d (dip inum) 0 64) (dip inum) type) ;;;
          lift (log_write bp) ;;;
          lift (brelse bp) ;;;
          iget dev inum
        else
          lift (brelse bp) ;;;
          ialloc_loop fuel dev type (inum + 1)
  end.

(** One turn per inode. *)
Definition ialloc (dev type : Z) : M fss Z :=
  sb <- gets fs_sb ;; ialloc_loop (S (Z.to_nat (sb_ninodes sb))) dev type 1.

(** The inode as iupdate writes it at [a]. *)
Definition put_dinode (i : inode) (d : block) (a : Z) : block :=
  let d := st16 d a (i_type i) in
  let d := st16 d (a + 2) (i_major i) in
  let d := st16 d (a + 4) (i_minor i) in
  let d := st16 d (a + 6) (i_nlink i) in
  let d := st32 d (a + 8) (i_size i) in
  put_addrs (i_addrs i) d (a + 12).

Definition iupdate (ip : Z) : M fss unit :=
  i <- geti ip ;;
  sb <- gets fs_sb ;;
  bp <- lift (bread (i_dev i) (IBLOCK (i_inum i) sb)) ;;
  d <- getdata bp ;;
  putdata bp (put_dinode i d (dip (i_inum i))) ;;;
  lift (log_write bp) ;;;
  lift (brelse bp).

Definition idup (ip : Z) : M fss Z :=
  lift (acquire L_itable) ;;;
  modi ip (fun i => set_iref (s32 (i_ref i + 1)) i) ;;;
  lift (release L_itable) ;;;
  ret ip.

(** The inode as ilock reads it from [a]. *)
Definition get_dinode (i : inode) (d : block) (a : Z) : inode :=
  mkInode (i_dev i) (i_inum i) (i_ref i) (i_valid i) (di_type d a) (di_major d a) (di_minor d a) (di_nlink d a) (di_size d a)
          (di_addrs (Z.to_nat (NDIRECT + 1)) d (a + 12)).

Definition ilock (ip : Z) : M fss unit :=
  i <- geti ip ;;
  if (ip =? null) || (i_ref i <? 1) then panic "ilock"
  else
    lift (acquiresleep (S_inode ip)) ;;;
    i <- geti ip ;;
    if i_valid i =? 0 then
      sb <- gets fs_sb ;;
      bp <- lift (bread (i_dev i) (IBLOCK (i_inum i) sb)) ;;
      d <- getdata bp ;;
      modi ip (fun i => get_dinode i d (dip (i_inum i))) ;;;
      lift (brelse bp) ;;;
      modi ip (set_ivalid 1) ;;;
      i <- geti ip ;;
      if i_type i =? 0 then panic "ilock: no type" else ret tt
    else ret tt.

Definition iunlock (ip : Z) : M fss unit :=
  if ip =? null then panic "iunlock"
  else
    h <- lift (holdingsleep (S_inode ip)) ;;
    i <- geti ip ;;
    if negb h || (i_ref i <? 1) then panic "iunlock"
    else lift (releasesleep (S_inode ip)).

(** ** Inode content *)

(** [ip->addrs[n]] and [ip->addrs[n] = a]. *)
Definition get_addr (ip n : Z) : M fss Z :=
  i <- geti ip ;; match znth (i_addrs i) n with Some a => ret a | None => fault end.
Definition put_addr (ip n a : Z) : M fss unit :=
  i <- geti ip ;; match zset (i_addrs i) n a with Some l => modi ip (set_iaddrs l) | None => fault end.

Definition bmap (ip bn : Z) : M fss Z :=
  i <- geti ip ;;
  if bn <? NDIRECT then
    addr <- get_addr ip bn ;;
    if addr =? 0 then
      addr <- balloc (i_dev i) ;;
      if addr =? 0 then ret 0
      else put_addr ip bn addr ;;; ret addr
    else ret addr
  else
    let bn := bn - NDIRECT in
    if bn <? NINDIRECT then
      addr <- get_addr ip NDIRECT ;;
      addr <- (if addr =? 0 then
                 addr <- balloc (i_dev i) ;;
                 when (negb (addr =? 0)) (put_addr ip NDIRECT addr) ;;;
                 ret addr
               else ret addr) ;;
      if addr =? 0 then ret 0
      else
        bp <- lift (bread (i_dev i) addr) ;;
        d <- getdata bp ;;
        let addr := ld32 d (4 * bn) in
        addr <- (if addr =? 0 then
                   addr <- balloc (i_dev i) ;;
                   when (negb (addr =? 0))
                     (d <- getdata bp ;; putdata bp (st32 d (4 * bn) addr) ;;; lift (log_write bp)) ;;;
                   ret addr
                 else ret addr) ;;
        lift (brelse bp) ;;;
        ret addr
    else panic "bmap: out of range".

Fixpoint itrunc_direct (n : nat) (ip i : Z) : M fss unit :=
  match n with
  | O => ret tt
  | S n =>
      a <- get_addr ip i ;;
      when (negb (a =? 0)) (x <- geti ip ;; bfree (i_dev x) a ;;; put_addr ip i 0) ;;;
      itrunc_direct n ip (i + 1)
  end.
Fixpoint itrunc_indirect (n : nat) (dev bp j : Z) : M fss unit :=
  match n with
  | O => ret tt
  | S n =>
      d <- getdata bp ;;
      when (negb (ld32 d (4 * j) =? 0)) (bfree dev (ld32 d (4 * j))) ;;;
      itrunc_indirect n dev bp (j + 1)
  end.

Definition itrunc (ip : Z) : M fss unit :=
  itrunc_direct (Z.to_nat NDIRECT) ip 0 ;;;
  a <- get_addr ip NDIRECT ;;
  when (negb (a =? 0))
    (i <- geti ip ;;
     bp <- lift (bread (i_dev i) a) ;;
     itrunc_indirect (Z.to_nat NINDIRECT) (i_dev i) bp 0 ;;;
     lift (brelse bp) ;;;
     a <- get_addr ip NDIRECT ;;
     bfree (i_dev i) a ;;;
     put_addr ip NDIRECT 0) ;;;
  modi ip (set_isize 0) ;;;
  iupdate ip.

Definition iput (ip : Z) : M fss unit :=
  lift (acquire L_itable) ;;;
  i <- geti ip ;;
  when ((i_ref i =? 1) && negb (i_valid i =? 0) && (i_nlink i =? 0))
    (lift (acquiresleep (S_inode ip)) ;;;
     lift (release L_itable) ;;;
     itrunc ip ;;;
     modi ip (set_itype 0) ;;;
     iupdate ip ;;;
     modi ip (set_ivalid 0) ;;;
     lift (releasesleep (S_inode ip)) ;;;
     lift (acquire L_itable)) ;;;
  modi ip (fun i => set_iref (s32 (i_ref i - 1)) i) ;;;
  lift (release L_itable).

Definition iunlockput (ip : Z) : M fss unit := iunlock ip ;;; iput ip.

(** struct stat at [st] in kernel memory. *)
Definition stati (ip st : Z) : M fss unit :=
  i <- geti ip ;;
  lift (setmem (fun m =>
    let m := st32 m st (i_dev i) in
    let m := st32 m (st + 4) (i_inum i) in
    let m := st16 m (st + 8) (i_type i) in
    let m := st16 m (st + 10) (i_nlink i) in
    st64 m (st + 16) (i_size i))).

(** ** Reading and writing *)

(** proc.c: the source is buffer [b]'s data at [off], or the destination is. *)
Definition either_copyout (user_dst : bool) (dst b off len : Z) : M fss Z :=
  d <- getdata b ;;
  base <- gets (fun s => fs_bufaddr s b) ;;
  lift (setmem (fun m => stbytes m (base + off) (ldbytes d off (Z.to_nat len)))) ;;;
  if user_dst then pt <- gets fs_pagetable ;; lift (copyout pt dst (base + off) len)
  else lift (setmem (fun m => memmove m dst (base + off) len)) ;;; ret 0.

Definition either_copyin (b off : Z) (user_src : bool) (src len : Z) : M fss Z :=
  d <- getdata b ;;
  base <- gets (fun s => fs_bufaddr s b) ;;
  lift (setmem (fun m => stbytes m base (ldbytes d 0 (Z.to_nat BSIZE)))) ;;;
  r <- (if user_src then pt <- gets fs_pagetable ;; lift (copyin pt (base + off) src len)
        else lift (setmem (fun m => memmove m (base + off) src len)) ;;; ret 0) ;;
  m <- gets (fun s => ph_mem (fs_phys s)) ;;
  putdata b (stbytes d 0 (ldbytes m base (Z.to_nat BSIZE))) ;;;
  ret r.

Definition min (a b : Z) : Z := if a <? b then a else b.

(** One turn per block touched. *)
Fixpoint readi_loop (fuel : nat) (ip : Z) (user_dst : bool) (dst off n tot : Z) : M fss Z :=
  match fuel with
  | O => fun s => Spin s
  | S fuel =>
      if negb (tot <? n) then ret tot
      else
        addr <- bmap ip (off / BSIZE) ;;
        if addr =? 0 then ret tot
        else
          i <- geti ip ;;
          bp <- lift (bread (i_dev i) addr) ;;
          let m := min (n - tot) (BSIZE - off mod BSIZE) in
          r <- either_copyout user_dst dst bp (off mod BSIZE) m ;;
          lift (brelse bp) ;;;
          if r =? -1 then ret (u32 (-1))
          else readi_loop fuel ip user_dst (u64 (dst + m)) (u32 (off + m)) n (u32 (tot + m))
  end.

Definition loop_fuel (n : Z) : nat := Z.to_nat (n / BSIZE + 3).

Definition readi (ip : Z) (user_dst : bool) (dst off n : Z) : M fss Z :=
  i <- geti ip ;;
  if (i_size i <? off) || (u32 (off + n) <? off) then ret 0
  else
    let n := if i_size i <? u32 (off + n) then u32 (i_size i - off) else n in
    tot <- readi_loop (loop_fuel n) ip user_dst dst off n 0 ;;
    ret (s32 tot).

(** The result is tot and the offset reached. *)
Fixpoint writei_loop (fuel : nat) (ip : Z) (user_src : bool) (src off n tot : Z) : M fss (Z * Z) :=
  match fuel with
  | O => fun s => Spin s
  | S fuel =>
      if negb (tot <? n) then ret (tot, off)
      else
        addr <- bmap ip (off / BSIZE) ;;
        if addr =? 0 then ret (tot, off)
        else
          i <- geti ip ;;
          bp <- lift (bread (i_dev i) addr) ;;
          let m := min (n - tot) (BSIZE - off mod BSIZE) in
          r <- either_copyin bp (off mod BSIZE) user_src src m ;;
          if r =? -1 then lift (brelse bp) ;;; ret (tot, off)
          else
            lift (log_write bp) ;;;
            lift (brelse bp) ;;;
            writei_loop fuel ip user_src (u64 (src + m)) (u32 (off + m)) n (u32 (tot + m))
  end.

Definition writei (ip : Z) (user_src : bool) (src off n : Z) : M fss Z :=
  i <- geti ip ;;
  if (i_size i <? off) || (u32 (off + n) <? off) then ret (-1)
  else if MAXFILE * BSIZE <? u32 (off + n) then ret (-1)
  else
    let* (tot, off) := writei_loop (loop_fuel n) ip user_src src off n 0 in
    i <- geti ip ;;
    when (i_size i <? off) (modi ip (set_isize off)) ;;;
    iupdate ip ;;;
    ret (s32 tot).

(** ** Directories *)

Definition namecmp (m : mem) (s t : Z) : Z := strncmp m s t DIRSIZ.

(** The struct dirent of dirlookup and of dirlink, and the name of namei. *)
Definition de_lookup (s : fss) : Z := fs_frame s.
Definition de_link (s : fss) : Z := fs_frame s + 16.
Definition name_buf (s : fss) : Z := fs_frame s + 32.

Fixpoint dirlookup_loop (fuel : nat) (dp name off : Z) : M fss (Z * Z) :=
  match fuel with
  | O => fun s => Spin s
  | S fuel =>
      d <- geti dp ;;
      if negb (off <? i_size d) then ret (null, 0)
      else
        de <- gets de_lookup ;;
        r <- readi dp false de off 16 ;;
        if negb (r =? 16) then panic "dirlookup read"
        else
          m <- gets (fun s => ph_mem (fs_phys s)) ;;
          if (ld16 m de =? 0) || negb (namecmp m name (de + 2) =? 0) then dirlookup_loop fuel dp name (u32 (off + 16))
          else
            ip <- iget (i_dev d) (ld16 m de) ;;
            ret (ip, off)
  end.

(** The inode found, and the offset of its entry for [*poff]. *)
Definition dirlookup (dp name : Z) : M fss (Z * Z) :=
  d <- geti dp ;;
  if negb (i_type d =? T_DIR) then panic "dirlookup not DIR"
  else dirlookup_loop (S (Z.to_nat (i_size d / 16 + 1))) dp name 0.

Fixpoint dirlink_loop (fuel : nat) (dp off : Z) : M fss Z :=
  match fuel with
  | O => fun s => Spin s
  | S fuel =>
      d <- geti dp ;;
      if negb (u32 off <? i_size d) then ret off
      else
        de <- gets de_link ;;
        r <- readi dp false de (u32 off) 16 ;;
        if negb (r =? 16) then panic "dirlink read"
        else
          m <- gets (fun s => ph_mem (fs_phys s)) ;;
          if ld16 m de =? 0 then ret off else dirlink_loop fuel dp (s32 (off + 16))
  end.

Definition dirlink (dp name inum : Z) : M fss Z :=
  let* (ip, _) := dirlookup dp name in
  if negb (ip =? null) then iput ip ;;; ret (-1)
  else
    d <- geti dp ;;
    off <- dirlink_loop (S (Z.to_nat (i_size d / 16 + 1))) dp 0 ;;
    de <- gets de_link ;;
    lift (setmem (fun m => strncpy m (de + 2) name DIRSIZ)) ;;;
    lift (setmem (fun m => st16 m de inum)) ;;;
    r <- writei dp false de (u32 off) 16 ;;
    if negb (r =? 16) then ret (-1) else ret 0.

(** ** Paths *)

Definition slash : Z := 47.

(** The loops over slashes and over the bytes of an element. *)
Fixpoint skip_slashes (fuel : nat) (m : mem) (path : Z) : option Z :=
  match fuel with
  | O => None
  | S fuel => if m path =? slash then skip_slashes fuel m (path + 1) else Some path
  end.
Fixpoint skip_name (fuel : nat) (m : mem) (path : Z) : option Z :=
  match fuel with
  | O => None
  | S fuel => if negb (m path =? slash) && negb (m path =? 0) then skip_name fuel m (path + 1) else Some path
  end.

(** Path names the kernel handles have at most MAXPATH bytes. *)
Definition path_fuel : nat := Z.to_nat (MAXPATH + 2).

(** The rest of the path, 0 when there is no element, and the memory with the
    element in [name]; [None] is a path that runs past MAXPATH. *)
Definition skipelem (m : mem) (path name : Z) : option (Z * mem) :=
  match skip_slashes path_fuel m path with
  | None => None
  | Some s =>
      if m s =? 0 then Some (0, m)
      else
        match skip_name path_fuel m s with
        | None => None
        | Some e =>
            let len := e - s in
            let m := if DIRSIZ <=? len then memmove m name s DIRSIZ else st8 (memmove m name s len) (name + len) 0 in
            match skip_slashes path_fuel m e with None => None | Some p => Some (p, m) end
        end
  end.

Fixpoint namex_loop (fuel : nat) (ip path : Z) (nameiparent : bool) (name : Z) : M fss Z :=
  match fuel with
  | O => fun s => Spin s
  | S fuel =>
      m <- gets (fun s => ph_mem (fs_phys s)) ;;
      match skipelem m path name with
      | None => fun s => Spin s
      | Some (path, m) =>
          lift (setmem (fun _ => m)) ;;;
          if path =? 0 then (if nameiparent then iput ip ;;; ret null else ret ip)
          else
            ilock ip ;;;
            i <- geti ip ;;
            if negb (i_type i =? T_DIR) then iunlockput ip ;;; ret null
            else if nameiparent && (m path =? 0) then iunlock ip ;;; ret ip
            else
              let* (next, _) := dirlookup ip name in
              iunlockput ip ;;;
              if next =? null then ret null else namex_loop fuel next path nameiparent name
      end
  end.

Definition namex (path : Z) (nameiparent : bool) (name : Z) : M fss Z :=
  m <- gets (fun s => ph_mem (fs_phys s)) ;;
  ip <- (if m path =? slash then iget ROOTDEV ROOTINO else cwd <- gets fs_cwd ;; if cwd =? null then fault else idup cwd) ;;
  namex_loop path_fuel ip path nameiparent name.

Definition namei (path : Z) : M fss Z := name <- gets name_buf ;; namex path false name.
Definition nameiparent (path name : Z) : M fss Z := namex path true name.
