(* ===== verification/FsPath.v ===== *)
(** * Paths: what skipelem takes from a path name

    A path is a list of non-zero bytes.  [elements] splits it at slashes and
    drops the empty pieces; [walk_path] is the loop of namex reduced to its
    calls of skipelem.  They agree. *)
From stdpp Require Import strings.
From S2P Require Import Prelude Mem StringC Kalloc Page Vm Locks Bio Log Fs.
From Stdlib Require Import ZArith Lia.
Local Open Scope list_scope.
Local Open Scope Z_scope.

(** ** The reference *)

Fixpoint elements_from (cur path : list Z) : list (list Z) :=
  match path with
  | [] => match cur with [] => [] | _ => [cur] end
  | c :: path =>
      if c =? slash then match cur with [] => elements_from [] path | _ => cur :: elements_from [] path end
      else elements_from (cur ++ [c]) path
  end.
Definition elements (path : list Z) : list (list Z) := elements_from [] path.

(** The name a buffer of DIRSIZ bytes holds: up to the NUL, if there is one. *)
Fixpoint name_at (n : nat) (m : mem) (a : Z) : list Z :=
  match n with
  | O => []
  | S n => if m a =? 0 then [] else m a :: name_at n m (a + 1)
  end.

(** The names namex looks up. *)
Fixpoint walk_path (fuel : nat) (m : mem) (path name : Z) : option (list (list Z)) :=
  match fuel with
  | O => None
  | S fuel =>
      match skipelem m path name with
      | None => None
      | Some (path, m) =>
          if path =? 0 then Some []
          else match walk_path fuel m path name with
               | None => None
               | Some l => Some (name_at (Z.to_nat DIRSIZ) m name :: l)
               end
      end
  end.

(** ** One element *)

Definition no_slash (l : list Z) : Prop := Forall (fun c => c <> slash) l.
Definition no_nul (l : list Z) : Prop := Forall (fun c => 0 < c < 256) l.

(** The string [l] at [p]. *)
Definition string_at (m : mem) (p : Z) (l : list Z) : Prop := holds m p (l ++ [0]) /\ no_nul l.

Lemma string_at_app m p l1 l2 :
  string_at m p (l1 ++ l2) -> holds m p l1 /\ no_nul l1 /\ string_at m (p + Z.of_nat (length l1)) l2.
Proof.
  intros [H1 H2]. apply Forall_app in H2 as [N1 N2]. rewrite <- app_assoc in H1. apply holds_app in H1 as [H1 H3].
  split; [done|]. split; [done|]. by split.
Qed.

Lemma string_at_nil m p : string_at m p [] -> m p = 0.
Proof. intros [H _]. by apply holds_cons in H as [H _]. Qed.
Lemma string_at_cons m p c l : string_at m p (c :: l) -> m p = c /\ 0 < c < 256 /\ string_at m (p + 1) l.
Proof.
  intros [H N]. apply Forall_cons in N as [Nc N]. apply holds_cons in H as [H1 H2].
  split; [done|]. split; [done|]. by split.
Qed.

Lemma string_at_ext m m' p l :
  (forall x, p <= x < p + Z.of_nat (length l) + 1 -> m' x = m x) -> string_at m p l -> string_at m' p l.
Proof.
  intros H [H1 H2]. split; [|done]. eapply holds_ext; [|exact H1]. intros x Hx. symmetry. apply H.
  rewrite length_app in Hx. cbn in Hx. lia.
Qed.

Fixpoint drop_slashes (l : list Z) : list Z :=
  match l with c :: l' => if c =? slash then drop_slashes l' else l | [] => [] end.

Lemma drop_slashes_suffix l : exists k, l = replicate k slash ++ drop_slashes l.
Proof.
  induction l as [|c l [k IH]]; [by exists 0%nat|]. cbn [drop_slashes]. destruct (Z.eqb_spec c slash) as [->|]; [|by exists 0%nat].
  exists (S k). cbn. by rewrite <- IH.
Qed.

Lemma skip_slashes_ok fuel m p l :
  string_at m p l -> (length l < fuel)%nat ->
  skip_slashes fuel m p = Some (p + Z.of_nat (length l - length (drop_slashes l))) /\
  string_at m (p + Z.of_nat (length l - length (drop_slashes l))) (drop_slashes l).
Proof.
  revert fuel p. induction l as [|c l IH]; intros fuel p Hs Hf; (destruct fuel as [|fuel]; [cbn in Hf; lia|]).
  - pose proof (string_at_nil _ _ Hs) as E. cbn. rewrite E, Z.add_0_r. done.
  - destruct (string_at_cons _ _ _ _ Hs) as (E & Hc & Hl). cbn [skip_slashes drop_slashes]. rewrite E.
    destruct (Z.eqb_spec c slash) as [->|]; [|by rewrite Nat.sub_diag, Z.add_0_r].
    destruct (drop_slashes_suffix l) as [k Ek].
    assert (length l = k + length (drop_slashes l))%nat as El by (rewrite Ek at 1; by rewrite length_app, length_replicate).
    destruct (IH fuel (p + 1) Hl) as [E1 E2]; [cbn in Hf; lia|]. cbn [length].
    replace (p + Z.of_nat (S (length l) - length (drop_slashes l))) with
      (p + 1 + Z.of_nat (length l - length (drop_slashes l))) by lia. done.
Qed.

Fixpoint first_name (l : list Z) : list Z :=
  match l with c :: l => if c =? slash then [] else c :: first_name l | [] => [] end.

Lemma first_name_split l : exists r, l = first_name l ++ r /\ no_slash (first_name l) /\ (r = [] \/ exists r', r = slash :: r').
Proof.
  induction l as [|c l (r & E & N & H)]; [exists []; split_and!; [done|constructor|by left]|]. cbn [first_name].
  destruct (Z.eqb_spec c slash) as [->|Hc].
  - exists (slash :: l). split_and!; [done|constructor|right; by exists l].
  - exists r. split_and!; [by rewrite E at 1|by constructor|done].
Qed.

Lemma skip_name_ok fuel m p l :
  string_at m p l -> (length l < fuel)%nat -> skip_name fuel m p = Some (p + Z.of_nat (length (first_name l))).
Proof.
  revert fuel p. induction l as [|c l IH]; intros fuel p Hs Hf; (destruct fuel as [|fuel]; [cbn in Hf; lia|]).
  - pose proof (string_at_nil _ _ Hs) as E. cbn. rewrite E, Z.add_0_r. done.
  - destruct (string_at_cons _ _ _ _ Hs) as (E & Hc & Hl). cbn [skip_name first_name]. rewrite E.
    destruct (Z.eqb_spec c slash) as [->|]; cbn [negb andb length]; [by rewrite Z.add_0_r|]. zb. cbn [negb].
    rewrite (IH fuel (p + 1) Hl) by (cbn in Hf; lia). f_equal. lia.
Qed.

Lemma name_at_holds n m a l :
  holds m a l -> no_nul l -> ((length l < n)%nat -> m (a + Z.of_nat (length l)) = 0) -> name_at n m a = take n l.
Proof.
  revert a l. induction n as [|n IH]; intros a l Hh Hn H0; [by rewrite take_0|]. cbn [name_at].
  destruct l as [|c l].
  - cbn in H0. rewrite Z.add_0_r in H0. by rewrite H0 by lia.
  - apply holds_cons in Hh as [E Hh]. apply Forall_cons in Hn as [Hc Hn]. rewrite E. zb. cbn [take]. f_equal.
    apply IH; [done|done|]. intros Hl. rewrite <- H0 by (cbn; lia). f_equal. cbn [length]. lia.
Qed.

Lemma name_at_long m name s e :
  wf_mem m -> holds m s e -> no_nul e -> 14 <= Z.of_nat (length e) ->
  name_at (Z.to_nat 14) (memmove m name s 14) name = take (Z.to_nat 14) e.
Proof.
  intros Hw Hh Hn Hl. set (e1 := take (Z.to_nat 14) e).
  assert (length e1 = 14%nat) as L1 by (unfold e1; rewrite length_take; lia).
  rewrite <- (take_ge e1 (Z.to_nat 14)) by lia. apply name_at_holds; [|by apply Forall_take|lia].
  rewrite <- (take_drop (Z.to_nat 14) e) in Hh. apply holds_app in Hh as [Hh _]. fold e1 in Hh. unfold holds in *. rewrite L1 in *.
  change 14%nat with (Z.to_nat 14) at 1. rewrite ldbytes_memmove by (done || lia). exact Hh.
Qed.

(** skipelem on the string [l]: no element, or the first one is in [name] and
    the rest of the string, without its leading slashes, is what is left. *)
Lemma skipelem_ok m p name l :
  wf_mem m -> string_at m p l -> (length l <= Z.to_nat MAXPATH)%nat -> 0 < p ->
  name + DIRSIZ <= p \/ p + Z.of_nat (length l) + 1 <= name ->
  let l1 := drop_slashes l in
  if decide (l1 = []) then skipelem m p name = Some (0, m)
  else exists p' m' r, skipelem m p name = Some (p', m') /\ 0 < p' /\ wf_mem m' /\
    (forall x, x < name \/ name + DIRSIZ <= x -> m' x = m x) /\
    name_at (Z.to_nat DIRSIZ) m' name = take (Z.to_nat DIRSIZ) (first_name l1) /\
    l1 = first_name l1 ++ r /\ string_at m' p' (drop_slashes r) /\ p <= p' /\
    p' + Z.of_nat (length (drop_slashes r)) = p + Z.of_nat (length l).
Proof.
  intros Hw Hs Hl Hp Hd l1. unfold skipelem, path_fuel.
  destruct (drop_slashes_suffix l) as [k Ek]. fold l1 in Ek.
  assert (length l = k + length l1)%nat as El by (rewrite Ek; by rewrite length_app, length_replicate).
  destruct (skip_slashes_ok (Z.to_nat (MAXPATH + 2)) m p l Hs) as [E1 S1]; [unfold MAXPATH in *; lia|]. fold l1 in E1, S1.
  rewrite E1. replace (length l - length l1)%nat with k in * by lia. set (s := p + Z.of_nat k) in *.
  destruct (decide (l1 = [])) as [En|Hne]; [rewrite En in S1; by rewrite (string_at_nil _ _ S1)|].
  assert (m s =? 0 = false) as ->.
  { destruct l1 as [|c l2]; [done|]. destruct (string_at_cons _ _ _ _ S1) as (-> & Hc & _). by apply Z.eqb_neq; lia. }
  rewrite (skip_name_ok _ m s l1 S1) by (unfold MAXPATH in *; lia).
  destruct (first_name_split l1) as (r & Er & Hns & Hr). set (e := first_name l1) in *. unfold DIRSIZ in *.
  replace (s + Z.of_nat (length e) - s) with (Z.of_nat (length e)) by lia.
  set (m' := if 14 <=? Z.of_nat (length e) then memmove m name s 14 else _).
  assert (length l1 = length e + length r)%nat as El1 by (rewrite Er at 1; by rewrite length_app).
  assert (wf_mem m') as Hw' by (unfold m'; destruct (14 <=? _); wfm).
  assert (forall x, x < name \/ name + 14 <= x -> m' x = m x) as Hout.
  { intros x Hx. unfold m'. destruct (Z.leb_spec 14 (Z.of_nat (length e))); [apply memmove_out; [done|lia|lia]|].
    rewrite st8_ne by lia. apply memmove_out; [done|lia|lia]. }
  rewrite Er in S1. destruct (string_at_app _ _ _ _ S1) as (Se & Ne & Sr). clear S1.
  assert (string_at m' (s + Z.of_nat (length e)) r) as Sr' by (eapply string_at_ext; [|exact Sr]; intros x Hx; apply Hout; unfold s in *; lia).
  destruct (skip_slashes_ok (Z.to_nat (MAXPATH + 2)) m' _ r Sr') as [E3 S3]; [unfold MAXPATH in *; lia|]. rewrite E3.
  destruct (drop_slashes_suffix r) as [k' Ek'].
  assert (length r = k' + length (drop_slashes r))%nat as Elr by (rewrite Ek' at 1; by rewrite length_app, length_replicate).
  eexists _, m', r. split; [reflexivity|]. split_and!; try done; [unfold s; lia| |unfold s; lia|unfold s; lia].
  unfold m'. destruct (Z.leb_spec 14 (Z.of_nat (length e))).
  - apply name_at_long; done || lia.
  - apply name_at_holds; [|done|].
    + apply holds_st8; [lia|]. unfold holds. etrans; [|exact Se].
      pose proof (ldbytes_memmove m name s (Z.of_nat (length e)) Hw ltac:(lia)) as H'. by rewrite Nat2Z.id in H'.
    + intros _. by rewrite st8_eq.
Qed.

(** ** The whole path *)

Lemma elements_drop_slashes l : elements (drop_slashes l) = elements l.
Proof.
  induction l as [|c l IH]; [done|]. cbn [drop_slashes]. destruct (c =? slash) eqn:E; [|done]. rewrite IH.
  unfold elements. cbn [elements_from]. by rewrite E.
Qed.

Lemma elements_first cur l : cur <> [] -> no_slash l -> forall r, (r = [] \/ exists r', r = slash :: r') ->
  elements_from cur (l ++ r) = (cur ++ l) :: elements r.
Proof.
  intros Hc Hn r Hr. revert cur Hc. induction l as [|c l IH]; intros cur Hc.
  - rewrite app_nil_r. cbn [app]. destruct cur as [|x cur]; [done|]. destruct Hr as [->|[r' ->]]; [done|].
    unfold elements. cbn [elements_from]. by rewrite Z.eqb_refl.
  - apply Forall_cons in Hn as [Hx Hn]. cbn [app elements_from]. rewrite (proj2 (Z.eqb_neq c slash) Hx).
    rewrite IH by (try done; by destruct cur). by rewrite <- app_assoc.
Qed.

Lemma drop_slashes_cons c l : drop_slashes (c :: l) = c :: l -> c <> slash.
Proof.
  intros H ->. cbn in H. destruct (drop_slashes_suffix l) as [k E]. rewrite H in E. apply (f_equal length) in E.
  rewrite length_app, length_replicate in E. cbn in E. lia.
Qed.

Lemma first_name_ne l : l <> [] -> drop_slashes l = l -> first_name l <> [].
Proof.
  destruct l as [|c l]; [done|]. intros _ H%drop_slashes_cons. cbn [first_name]. by rewrite (proj2 (Z.eqb_neq c slash) H).
Qed.

Lemma elements_step l1 r :
  l1 <> [] -> drop_slashes l1 = l1 -> l1 = first_name l1 ++ r -> (r = [] \/ exists r', r = slash :: r') ->
  elements l1 = first_name l1 :: elements (drop_slashes r).
Proof.
  intros Hne Hd Er Hr. rewrite elements_drop_slashes. destruct l1 as [|c l]; [done|]. pose proof (drop_slashes_cons _ _ Hd) as Hc.
  cbn [first_name] in *. rewrite (proj2 (Z.eqb_neq c slash) Hc) in *. injection Er as Er. rewrite Er at 1.
  destruct (first_name_split l) as (_ & _ & Hn & _). unfold elements at 1. cbn [elements_from].
  rewrite (proj2 (Z.eqb_neq c slash) Hc). cbn [app]. by rewrite (elements_first [c]).
Qed.

Lemma drop_slashes_idem l : drop_slashes (drop_slashes l) = drop_slashes l.
Proof. induction l as [|c l IH]; [done|]. cbn [drop_slashes]. destruct (c =? slash) eqn:E; [done|]. cbn. by rewrite E. Qed.

Lemma first_name_rest l r : l = first_name l ++ r -> r = [] \/ exists r', r = slash :: r'.
Proof.
  intros E. destruct (first_name_split l) as (r' & E' & _ & H). rewrite E' in E at 1. by apply app_inv_head in E as <-.
Qed.

(** C22: namex sees exactly the elements of the path.  For every path of at most
    MAXPATH bytes that does not overlap the name buffer, the calls of skipelem
    in namex's loop end, and leave in [name], one after the other, the pieces
    of the path between slashes, empty ones skipped, each cut to DIRSIZ bytes. *)
Theorem skipelem_splits_path m p name l fuel :
  wf_mem m -> string_at m p l -> (length l <= Z.to_nat MAXPATH)%nat -> 0 < p ->
  name + DIRSIZ <= p \/ p + Z.of_nat (length l) + 1 <= name -> (length l < fuel)%nat ->
  walk_path fuel m p name = Some (take (Z.to_nat DIRSIZ) <$> elements l).
Proof.
  revert m p l. induction fuel as [|fuel IH]; intros m p l Hw Hs Hl Hp Hd Hf; [lia|]. cbn [walk_path].
  pose proof (skipelem_ok m p name l Hw Hs Hl Hp Hd) as H. cbn zeta in H. rewrite <- (elements_drop_slashes l).
  destruct (decide (drop_slashes l = [])) as [E|Hne]; [by rewrite H, E|].
  destruct H as (p' & m' & r & E & Hp' & Hw' & Hout & Hname & Er & Sr & Hge & Hend). rewrite E. zb.
  pose proof (first_name_rest _ _ Er) as Hr. rewrite (elements_step _ _ Hne (drop_slashes_idem l) Er Hr).
  destruct (drop_slashes_suffix l) as [k Ek]. destruct (drop_slashes_suffix r) as [k' Ek'].
  apply (f_equal length) in Ek, Ek'. rewrite length_app in Ek, Ek'. pose proof (f_equal length Er) as El. rewrite length_app in El.
  assert (length (first_name (drop_slashes l)) <> 0%nat) as Hfn.
  { pose proof (first_name_ne _ Hne (drop_slashes_idem l)) as Hx. by destruct (first_name (drop_slashes l)). }
  rewrite (IH m' p' (drop_slashes r)) by (done || lia). by rewrite Hname.
Qed.

(** "//a/bb" at 1000, the name at 2000. *)
Lemma skipelem_splits_path_witness :
  walk_path 10 (stbytes (fun _ => 0) 1000 [47; 47; 97; 47; 98; 98; 0]) 1000 2000 = Some [[97]; [98; 98]].
Proof.
  rewrite (skipelem_splits_path _ 1000 2000 [47; 47; 97; 47; 98; 98] 10); [reflexivity| | |unfold MAXPATH; cbn; lia|lia|right; cbn; lia|cbn; lia].
  - apply stbytes_wf. intros a. lia.
  - split; [|repeat constructor; lia]. apply holds_stbytes. repeat constructor; lia.
Defined.
