(* ===== verification/FsTxn.v ===== *)
(** * The file system inside a transaction

    What the block operations of Bio.v and Log.v promise to fs.c between
    begin_op() and end_op(): reads see the contents [v], a modified and logged
    block changes [v] there, and the set [L] of locked blocks says what may be
    read again.  The functions of fs.c are verified against these lemmas only. *)
From stdpp Require Import strings.
From S2P Require Import Prelude Mem StringC Kalloc Page Vm Locks Bio Log Fs.
From Stdlib Require Import ZArith Lia.
Local Open Scope list_scope.
Local Open Scope Z_scope.
Local Open Scope kernel_scope.

Lemma relock (n : Z) (L : gset Z) : n ∉ L -> ({[n]} ∪ L) ∖ {[n]} = L.
Proof. intros H. apply set_eq. set_solver. Qed.

Section layout.
Context (start size : Z) (Hstart : 0 <= start) (Hsize : 0 < size) (Hend : start + size < 2 ^ 31).

Notation home := (home start size).

(** [out] file-system calls are running, their transaction has logged [blks], and
    the blocks [L] are locked. *)
Record fs_txn (out : Z) (s : lst) (v : Z -> block) (blks : list Z) (L : gset Z) : Prop := {
  ft_bio : bio_inv (ls_b s) v L (list_to_set blks);
  ft_log : has_log start size (ls_log s) blks;
  ft_out : lg_outstanding (ls_log s) = out;
  ft_committing : lg_committing (ls_log s) = 0;
  ft_header : header_ok (bs_disk (ls_b s) start) [];
  ft_disk : forall n, n ∉ blks -> bs_disk (ls_b s) n = v n
}.

(** Room for [k] more blocks in the log and the cache. *)
Definition room (blks : list Z) (L : gset Z) (k : Z) : Prop :=
  Z.of_nat (length blks) + Z.of_nat (base.size L) + k < NBUF /\ Z.of_nat (length blks) + k < size.

Lemma room_add n blks L k : room blks L k -> room (add_block n blks) L (k - 1).
Proof. unfold room. pose proof (add_block_length n blks). lia. Qed.
Lemma room_le blks L k k' : k' <= k -> room blks L k -> room blks L k'.
Proof. unfold room. lia. Qed.
Lemma room_lock n blks L k : n ∉ L -> room blks L k -> room blks ({[n]} ∪ L) (k - 1).
Proof. intros H. unfold room. rewrite size_union by set_solver. rewrite size_singleton. lia. Qed.

Lemma size_locked_pinned (L : gset Z) blks : NoDup blks -> (base.size (L ∪ list_to_set blks) <= base.size L + length blks)%nat.
Proof.
  intros H. rewrite size_union_alt. apply Nat.add_le_mono_l. rewrite <- (size_list_to_set (C := gset Z) blks H).
  apply subseteq_size. set_solver.
Qed.

(** ** Steps of a function of fs.c *)
Lemma fl_b {A} (c : M bst A) s a b : c (ls_b (fs_l s)) = Ret a b -> lift c s = Ret a (set_l (mkLst b (ls_log (fs_l s))) s).
Proof. intros H. unfold lift. cbn. by rewrite H. Qed.
Lemma fl_l {A} (c : M lst A) s a l : c (fs_l s) = Ret a l -> lift c s = Ret a (set_l l s).
Proof. intros H. unfold lift. cbn. by rewrite H. Qed.
Lemma fl_lk {A} (c : M lkst A) s a k :
  c (bs_lk (ls_b (fs_l s))) = Ret a k -> lift c s = Ret a (set_l (mkLst (set_lk k (ls_b (fs_l s))) (ls_log (fs_l s))) s).
Proof. intros H. unfold lift. cbn. by rewrite H. Qed.

(** [onbuf s b n]: block [n] is in buffer [b]. *)
Definition onbuf (s : fss) (b n : Z) : Prop := isbuf (ls_b (fs_l s)) b n.

(** The blocks of [X] stay in their buffers. *)
Definition stays (s s' : fss) (X : gset Z) : Prop := forall b n, n ∈ X -> onbuf s b n -> onbuf s' b n.

(** Nothing was written to the disk; everything but the cache and the log is as before. *)
Definition same_disk (s s' : fss) : Prop :=
  bs_disk (ls_b (fs_l s')) = bs_disk (ls_b (fs_l s)) /\ bs_writes (ls_b (fs_l s')) = bs_writes (ls_b (fs_l s)).
Definition same_rest (s s' : fss) : Prop := (exists l, s' = set_l l s) /\ same_disk s s'.

Lemma same_disk_refl s : same_disk s s.
Proof. done. Qed.
Lemma same_disk_trans s1 s2 s3 : same_disk s1 s2 -> same_disk s2 s3 -> same_disk s1 s3.
Proof. intros [D1 W1] [D2 W2]. by split; [rewrite D2|rewrite W2]. Qed.
Lemma same_rest_refl s : same_rest s s.
Proof. split; [exists (fs_l s); by destruct s|done]. Qed.
Lemma same_rest_trans s1 s2 s3 : same_rest s1 s2 -> same_rest s2 s3 -> same_rest s1 s3.
Proof. intros [[l1 ->] D1] [[l2 ->] D2]. split; [by exists l2|]. exact (same_disk_trans _ _ _ D1 D2). Qed.

Definition txn_at (out : Z) (s : fss) v blks L : Prop := fs_txn out (fs_l s) v blks L.
Abbreviation txn := (txn_at 1).

Lemma t_bread {out} s v blks L n :
  txn_at out s v blks L -> n ∉ L -> n ∈ blks \/ room blks L 0 ->
  exists b s', lift (bread ROOTDEV n) s = Ret b s' /\ txn_at out s' v blks ({[n]} ∪ L) /\ onbuf s' b n /\
    stays s s' (L ∪ list_to_set blks) /\ same_rest s s' /\ getdata b s' = Ret (v n) s'.
Proof using Hstart Hsize Hend.
  intros [Hi Hl Ho Hcm Hhd Hd] Hn Hr. pose proof (size_locked_pinned L blks (hl_nodup _ _ _ _ Hl)) as Hsz.
  destruct (bread_ok _ v L (list_to_set blks) n Hi Hn) as (b & s' & E & I & B & Dt & [K _] & D & W).
  { destruct Hr as [H|[H _]]; [left; by apply elem_of_list_to_set|right; lia]. }
  exists b. eexists. split; [by apply fl_b|]. split; [split; cbn; [done|done|done|done|by rewrite D|by rewrite D]|]. split; [exact B|].
  split; [intros b' m Hm; by apply K|]. split; [split; [by eexists|by split]|]. unfold getdata. erewrite bind_Ret by (apply fl_b; reflexivity).
  unfold ret. cbn. rewrite Dt. done.
Qed.

(** Modify and log_write. *)
Lemma t_update s v blks L b n c :
  txn s v blks L -> onbuf s b n -> n ∈ L -> home n -> room blks L 1 ->
  exists s1 s', putdata b c s = Ret tt s1 /\ lift (log_write b) s1 = Ret tt s' /\ txn s' (upd v n c) (add_block n blks) L /\
    stays s s' (L ∪ list_to_set blks) /\ same_rest s s'.
Proof using Hstart Hsize Hend.
  intros [Hi Hl Ho Hcm Hhd Hd] Hb HnL Hh [Hr1 Hr2]. unfold NBUF, MAXOPBLOCKS in Hr1.
  destruct (set_data_ok _ v _ _ b n c Hi Hb HnL) as (s1 & E1 & I1 & B1 & [K1 _] & D1 & W1).
  destruct (log_write_ok start size Hstart Hsize Hend (mkLst s1 (ls_log (fs_l s))) _ blks b n _ I1 Hl ltac:(cbn; lia) B1 HnL Hh ltac:(lia) ltac:(lia))
    as (s2 & E2 & I2 & L2 & [K2 _] & D2 & W2 & O2 & C2). cbn [ls_b ls_log] in *.
  eexists _, _. split; [by apply fl_b|]. split; [by apply fl_l|]. split.
  - split; cbn; [done|done|by rewrite O2|by rewrite C2|by rewrite D2, D1|]. intros m Hm. rewrite D2, D1. unfold add_block in Hm.
    assert (m <> n /\ m ∉ blks) as [Hne Hm'] by (case_decide; set_solver). rewrite upd_ne by done. by apply Hd.
  - split; [|split; [by eexists|split; cbn; [by rewrite D2|by rewrite W2]]]. intros b' m Hm Hb'. apply K2; [done|]. by apply K1.
Qed.

Lemma t_brelse {out} s v blks L b n :
  txn_at out s v blks L -> onbuf s b n -> n ∈ L ->
  exists s', lift (brelse b) s = Ret tt s' /\ txn_at out s' v blks (L ∖ {[n]}) /\ stays s s' (L ∪ list_to_set blks) /\ same_rest s s'.
Proof using Hstart Hsize Hend.
  intros [Hi Hl Ho Hcm Hhd Hd] Hb HnL.
  destruct (brelse_ok _ _ _ _ b n Hi Hb HnL) as (s1 & E1 & I1 & [K1 _] & D1 & W1).
  { intros Hn. apply Hd. by rewrite elem_of_list_to_set in Hn. }
  eexists. split; [by apply fl_b|]. split; [split; cbn; [done|done|done|done|by rewrite D1|by rewrite D1]|].
  split; [intros b' m Hm; by apply K1|split; [by eexists|by split]].
Qed.

(** A locked block's buffer holds its contents. *)
Lemma t_getdata {out} s v blks L b n : txn_at out s v blks L -> onbuf s b n -> n ∈ L -> getdata b s = Ret (v n) s.
Proof.
  intros [Hi _ _ _ _ _] Hb Hn. destruct (bi_cached _ _ _ _ Hi n) as (b' & Hb' & Hv); [by apply elem_of_union_l|].
  rewrite <- (bi_uniq _ _ _ _ Hi b b' n Hb Hb') in Hv. destruct Hb as (H1 & H2 & H3).
  pose proof (bi_buf _ _ _ _ Hi b H1) as Hbuf. rewrite buf_ok_root in Hbuf by done. destruct Hbuf as (_ & Hd & _).
  unfold getdata. erewrite bind_Ret by (apply fl_b; reflexivity). unfold ret. cbn. rewrite Hd, H3 by done. by destruct s as [[]].
Qed.

(** The idiom read-modify-log-release on one block. *)
Lemma t_modify s v blks L n (f : block -> block) :
  txn s v blks L -> n ∉ L -> home n -> room blks L 2 ->
  exists b s1 s2 s3 s', lift (bread ROOTDEV n) s = Ret b s1 /\ getdata b s1 = Ret (v n) s1 /\
    putdata b (f (v n)) s1 = Ret tt s2 /\ lift (log_write b) s2 = Ret tt s3 /\ lift (brelse b) s3 = Ret tt s' /\
    txn s' (upd v n (f (v n))) (add_block n blks) L /\ stays s s' (L ∪ list_to_set blks) /\ same_rest s s'.
Proof using Hstart Hsize Hend.
  intros Ht Hn Hh Hr. destruct (t_bread s v blks L n Ht Hn) as (b & s1 & E1 & T1 & B1 & K1 & R1 & G1); [right; by apply (room_le _ _ 2 0)|].
  destruct (t_update s1 v blks _ b n (f (v n)) T1 B1 (in_add _ _) Hh) as (s2 & s3 & E2 & E3 & T3 & K3 & R3).
  { apply (room_lock n _ _ 2 Hn Hr). }
  destruct (t_brelse s3 _ _ _ b n T3) as (s4 & E4 & T4 & K4 & R4); [apply K3; [set_solver|done]|set_solver|].
  rewrite relock in T4 by done. exists b, s1, s2, s3, s4. split_and!; try done.
  - intros b' m Hm Hb'. apply K4; [|apply K3; [set_solver|by apply K1]]. unfold add_block. case_decide; set_solver.
  - eapply same_rest_trans; [exact R1|]. by eapply same_rest_trans.
Qed.

(** Read and release. *)
Lemma t_read {out} s v blks L n :
  txn_at out s v blks L -> n ∉ L -> n ∈ blks \/ room blks L 0 ->
  exists b s1 s', lift (bread ROOTDEV n) s = Ret b s1 /\ getdata b s1 = Ret (v n) s1 /\ lift (brelse b) s1 = Ret tt s' /\
    txn_at out s' v blks L /\ stays s s' (L ∪ list_to_set blks) /\ same_rest s s' /\ same_rest s s1.
Proof using Hstart Hsize Hend.
  intros Ht Hn Hr. destruct (t_bread s v blks L n Ht Hn Hr) as (b & s1 & E1 & T1 & B1 & K1 & R1 & G1).
  destruct (t_brelse s1 _ _ _ b n T1 B1) as (s4 & E4 & T4 & K4 & R4); [set_solver|].
  rewrite relock in T4 by done. exists b, s1, s4. split_and!; try done.
  - intros b' m Hm Hb'. apply K4; [set_solver|by apply K1].
  - by eapply same_rest_trans.
Qed.

(** ** A file-system call *)

(** begin_op(); [c]; end_op() *)
Definition call {A} (c : M fss A) : M fss A := lift begin_op ;;; a <- c ;; lift end_op ;;; ret a.

(** Code that keeps to the transaction's steps is atomic across crashes. *)
Lemma t_call {A} (c : M fss A) s d (Q : A -> fss -> (Z -> block) -> Prop) :
  log_idle start size (fs_l s) d ->
  (forall s1, same_rest s s1 -> txn s1 d [] ∅ ->
     exists a s2 v blks, c s1 = Ret a s2 /\ txn s2 v blks ∅ /\ same_disk s1 s2 /\ Z.of_nat (length blks) < NBUF /\ Q a s2 v) ->
  exists a s2 l v d' ws, call c s = Ret a (set_l l s2) /\ Q a s2 v /\ log_idle start size l d' /\ agrees start size d' v /\
    bs_writes (ls_b l) = bs_writes (ls_b (fs_l s)) ++ ws /\ atomic start size (bs_disk (ls_b (fs_l s))) d v ws.
Proof using Hstart Hsize Hend.
  intros Hi Hc. assert (forall n, bs_disk (ls_b (fs_l s)) n = d n) as Hd.
  { intros n. apply (bi_disk _ _ _ _ (li_bio _ _ _ _ Hi)). rewrite union_empty_l_L. apply not_elem_of_empty. }
  destruct (begin_op_ok start size Hstart Hsize Hend (fs_l s) d Hi) as (l1 & E1 & [Bi Lg Dk Ou Cm] & W1 & D1).
  assert (header_ok (bs_disk (ls_b l1) start) []) as Hh by (rewrite Dk, Hd; apply (li_header _ _ _ _ Hi)).
  destruct (Hc (set_l l1 s)) as (a & s2 & v & blks & E2 & [Bi2 Lg2 Ou2 Cm2 Hh2 Dk2] & [D2 W2] & Hf & HQ).
  { split; [by eexists|]. by split. }
  { split; try done. intros n _. cbn. by rewrite Dk, Hd. }
  assert (in_txn start size (fs_l s2) (bs_disk (ls_b (fs_l s2))) v blks) as It by done.
  destruct (end_op_ok start size Hstart Hsize Hend (fs_l s2) _ v blks It Hh2 Hf) as (l3 & h & h0 & d' & E3 & Hhb & Hh0 & I3 & A3 & W3).
  exists a, s2, l3, v, d', (txn_writes start v blks h h0). split_and!; try done.
  - unfold call. rewrite (bind_Ret _ _ _ _ _ (fl_l _ _ _ _ E1)), (bind_Ret _ _ _ _ _ E2).
    by rewrite (bind_Ret _ _ _ _ _ (fl_l _ _ _ _ E3)).
  - rewrite W3, W2. cbn. by rewrite W1.
  - rewrite <- D1. change (ls_b l1) with (ls_b (fs_l (set_l l1 s))). rewrite <- D2.
    eapply txn_writes_atomic; try done. intros n _. rewrite D2. cbn. by rewrite Dk, Hd.
Qed.

End layout.

(** Just booted from the disk [d] of mkfs's layout: the log is the 30 blocks from
    block 2, and it is empty. *)
Definition idle_lst (d : Z -> block) : lst :=
  mkLst (match binit (cold_cache d) with Ret _ b => b | _ => cold_cache d end) (mkLog 2 30 0 0 ROOTDEV 0 (replicate 30 0)).

Lemma idle_lst_ok d : header_ok (d 2) [] -> log_idle 2 30 (idle_lst d) d /\ bs_disk (ls_b (idle_lst d)) = d.
Proof.
  intros Hd. unfold idle_lst. destruct (binit_ok (cold_cache d)) as (b1 & -> & I1 & D1 & _ & _); [done|done|].
  split; [|exact D1]. split; cbn; [exact I1| |done|done|done]. split; cbn; try done. constructor.
Qed.

Lemma idle_at_boot d : header_ok (d 2) [] -> exists l, log_idle 2 30 l d /\ bs_disk (ls_b l) = d.
Proof. intros Hd. exists (idle_lst d). by apply idle_lst_ok. Qed.

(** The kernel's variables with this log and superblock. *)
Definition fresh_fss (l : lst) (sb : superblock) : fss :=
  mkFss l (fun _ => mkInode 0 0 0 0 0 0 0 0 0 (replicate 13 0)) sb (mkPhys (fun _ => 0) (Pool.mkPool [] (fun _ => 0)) 0) 0 0 (fun _ => 0) 0.
