(* ===== verification/FsAlloc.v ===== *)
(** * The block allocator: balloc and bfree

    The bitmap blocks represent the set of used blocks.  balloc takes the
    lowest free one and zeroes it, bfree gives one back; in a transaction they
    act like the allocator of a finite set. *)
From stdpp Require Import strings.
From S2P Require Import Prelude Mem StringC Kalloc Page Vm Locks Bio Log Fs FsTxn.
From Stdlib Require Import ZArith Lia.
Local Open Scope list_scope.
Local Open Scope Z_scope.
Local Open Scope kernel_scope.

(** ** Bits *)

Lemma bit_set_testbit d bi : bit_set d bi = Z.testbit (d (bi / 8)) (bi mod 8).
Proof.
  unfold bit_set. pose proof (Z.mod_pos_bound bi 8 ltac:(lia)) as Hm. set (x := d (bi / 8)). set (i := bi mod 8) in *.
  destruct (Z.testbit x i) eqn:E.
  - apply negb_true_iff, Z.eqb_neq. intros H. assert (Z.testbit (Z.land x (Z.shiftl 1 i)) i = true) as Ht.
    { rewrite Z.land_spec, E, Z.shiftl_spec, Z.sub_diag by lia. done. }
    by rewrite H, Z.bits_0 in Ht.
  - apply negb_false_iff, Z.eqb_eq. apply Z.bits_inj'. intros j Hj. rewrite Z.bits_0, Z.land_spec, Z.shiftl_spec by lia.
    destruct (Z.eq_dec j i) as [->|Hne]; [by rewrite E|].
    replace (Z.testbit 1 (j - i)) with false; [apply andb_false_r|]. symmetry.
    destruct (Z.lt_ge_cases j i); [apply Z.testbit_neg_r; lia|]. change 1 with (2 ^ 0). rewrite Z.pow2_bits_eqb by lia. apply Z.eqb_neq. lia.
Qed.

Definition set_bit (d : block) (bi : Z) : block := st8 d (bi / 8) (Z.lor (d (bi / 8)) (Z.shiftl 1 (bi mod 8))).
Definition clear_bit (d : block) (bi : Z) : block := st8 d (bi / 8) (Z.land (d (bi / 8)) (Z.lnot (Z.shiftl 1 (bi mod 8)))).

Lemma shiftl1_testbit i j : 0 <= i -> 0 <= j -> Z.testbit (Z.shiftl 1 i) j = (j =? i).
Proof.
  intros Hi Hj. rewrite Z.shiftl_spec by lia. destruct (Z.eqb_spec j i) as [->|Hne]; [by rewrite Z.sub_diag|].
  destruct (Z.lt_ge_cases j i); [apply Z.testbit_neg_r; lia|]. change 1 with (2 ^ 0). rewrite Z.pow2_bits_eqb by lia. apply Z.eqb_neq. lia.
Qed.

Lemma u8_testbit x i : 0 <= i < 8 -> Z.testbit (u8 x) i = Z.testbit x i.
Proof. intros. unfold u8. apply Z.mod_pow2_bits_low. lia. Qed.

Lemma bit_pos bi bj : bi / 8 = bj / 8 -> bi mod 8 = bj mod 8 -> bi = bj.
Proof. intros H1 H2. rewrite (Z.div_mod bi 8), (Z.div_mod bj 8) by lia. congruence. Qed.

Lemma bit_set_set d bi bj : bit_set (set_bit d bi) bj = if bj =? bi then true else bit_set d bj.
Proof.
  rewrite !bit_set_testbit. unfold set_bit, st8. pose proof (Z.mod_pos_bound bj 8 ltac:(lia)). pose proof (Z.mod_pos_bound bi 8 ltac:(lia)).
  destruct (Z.eqb_spec (bj / 8) (bi / 8)) as [E|E].
  - rewrite u8_testbit, Z.lor_spec, shiftl1_testbit by lia. rewrite <- E. destruct (Z.eqb_spec (bj mod 8) (bi mod 8)) as [E'|E'].
    + rewrite (bit_pos _ _ E E'), Z.eqb_refl. apply orb_true_r.
    + rewrite orb_false_r. by destruct (Z.eqb_spec bj bi) as [->|].
  - by destruct (Z.eqb_spec bj bi) as [->|].
Qed.

Lemma bit_set_clear d bi bj : bit_set (clear_bit d bi) bj = if bj =? bi then false else bit_set d bj.
Proof.
  rewrite !bit_set_testbit. unfold clear_bit, st8. pose proof (Z.mod_pos_bound bj 8 ltac:(lia)). pose proof (Z.mod_pos_bound bi 8 ltac:(lia)).
  destruct (Z.eqb_spec (bj / 8) (bi / 8)) as [E|E].
  - rewrite u8_testbit, Z.land_spec, Z.lnot_spec, shiftl1_testbit by lia. rewrite <- E. destruct (Z.eqb_spec (bj mod 8) (bi mod 8)) as [E'|E'].
    + rewrite (bit_pos _ _ E E'), Z.eqb_refl. apply andb_false_r.
    + rewrite andb_true_r. by destruct (Z.eqb_spec bj bi) as [->|].
  - by destruct (Z.eqb_spec bj bi) as [->|].
Qed.

(** ** The search *)

Lemma find_clear_ok fuel : forall d b bi size, 0 <= bi ->
  BPB - bi <= Z.of_nat fuel ->
  match find_clear fuel d b bi size with
  | Some j => bi <= j < BPB /\ b + j < size /\ bit_set d j = false /\ (forall i, bi <= i < j -> bit_set d i = true)
  | None => forall i, bi <= i < BPB -> b + i < size -> bit_set d i = true
  end.
Proof.
  induction fuel as [|fuel IH]; intros d b bi size H0 Hf; [intros i; lia|]. cbn [find_clear].
  destruct (Z.ltb_spec bi BPB) as [H1|H1]; cbn [andb negb]; [|intros; lia].
  destruct (Z.ltb_spec (b + bi) size) as [H2|H2]; cbn [negb]; [|intros; lia].
  destruct (bit_set d bi) eqn:E.
  - specialize (IH d b (bi + 1) size ltac:(lia) ltac:(lia)). destruct (find_clear fuel d b (bi + 1) size) as [j|].
    + destruct IH as (I1 & I2 & I3 & I4). split_and!; [lia|lia|lia|done|].
      intros i Hi. destruct (Z.eq_dec i bi) as [->|]; [done|]. apply I4. lia.
    + intros i Hi Hs. destruct (Z.eq_dec i bi) as [->|]; [done|]. apply IH; lia.
  - split_and!; [lia|lia|lia|done|]. intros; lia.
Qed.

Section layout.
Context (start size : Z) (Hstart : 0 <= start) (Hsize : 0 < size) (Hend : start + size < 2 ^ 31).
Context (sb : superblock) (first : Z).

(** The disk's layout: the log, the inodes and the bitmap lie below the first
    data block. *)
Record geometry : Prop := {
  ge_size : 0 < sb_size sb < 2 ^ 31;
  ge_bmap : 0 < sb_bmapstart sb /\ sb_bmapstart sb + (sb_size sb - 1) / BPB < first;
  ge_first : 0 < first <= sb_size sb;
  ge_bitmap_home : forall b, 0 <= b < sb_size sb -> home start size (sb_bmapstart sb + b / BPB);
  ge_data_home : forall b, first <= b < sb_size sb -> home start size b
}.
Context (Hg : geometry).

(** The bitmap block of [b], and its bit there. *)
Definition bb (b : Z) : Z := sb_bmapstart sb + b / BPB.
Definition used (v : Z -> block) (b : Z) : bool := bit_set (v (bb b)) (b mod BPB).

(** Blocks below [first] are always in use. *)
Definition meta_used (v : Z -> block) : Prop := forall b, 0 <= b < first -> used v b = true.

Definition alloc_block (v : Z -> block) (b : Z) : Z -> block :=
  upd (upd v (bb b) (set_bit (v (bb b)) (b mod BPB))) b (memset (v b) 0 0 BSIZE).
Definition free_block (v : Z -> block) (b : Z) : Z -> block := upd v (bb b) (clear_bit (v (bb b)) (b mod BPB)).

Lemma bb_range b : 0 <= b < sb_size sb -> 0 < bb b < first.
Proof using Hg.
  intros Hb. destruct Hg as [_ [H1 H2] _ _ _]. unfold bb. assert (0 <= b / BPB <= (sb_size sb - 1) / BPB); [|lia].
  split; [apply Z.div_pos|apply Z.div_le_mono]; unfold BPB, BSIZE; lia.
Qed.

Lemma BBLOCK_bb b : 0 <= b < sb_size sb -> BBLOCK b sb = bb b.
Proof using Hg.
  intros Hb. unfold BBLOCK. rewrite Z.add_comm. apply u32_small. fold (bb b). pose proof (bb_range b Hb).
  destruct Hg as [? _ ? _ _]. lia.
Qed.

Lemma same_bit b b' : bb b = bb b' -> b mod BPB = b' mod BPB -> b = b'.
Proof.
  unfold bb. intros H1 H2. rewrite (Z.div_mod b BPB), (Z.div_mod b' BPB) by done. rewrite H2.
  replace (b / BPB) with (b' / BPB) by lia. done.
Qed.

Lemma used_set v b b' : 0 <= b < sb_size sb ->
  used (upd v (bb b) (set_bit (v (bb b)) (b mod BPB))) b' = if b' =? b then true else used v b'.
Proof.
  intros Hb. unfold used. destruct (Z.eq_dec (bb b') (bb b)) as [E|E].
  - rewrite E, upd_eq, bit_set_set. destruct (Z.eqb_spec (b' mod BPB) (b mod BPB)) as [E'|E'].
    + rewrite (same_bit _ _ E E'), Z.eqb_refl. done.
    + by destruct (Z.eqb_spec b' b) as [->|].
  - rewrite upd_ne by done. by destruct (Z.eqb_spec b' b) as [->|].
Qed.

Lemma used_alloc v b b' : first <= b < sb_size sb -> 0 <= b' < sb_size sb ->
  used (alloc_block v b) b' = if b' =? b then true else used v b'.
Proof using Hg.
  intros Hb Hb'. pose proof (bb_range b' Hb'). destruct Hg as [_ _ [H1 H2] _ _]. rewrite <- (used_set v b b') by lia.
  unfold used, alloc_block. by rewrite (upd_ne _ b) by lia.
Qed.

Lemma used_free v b b' : 0 <= b < sb_size sb ->
  used (free_block v b) b' = if b' =? b then false else used v b'.
Proof.
  intros Hb. unfold used, free_block. destruct (Z.eq_dec (bb b') (bb b)) as [E|E].
  - rewrite E, upd_eq, bit_set_clear. destruct (Z.eqb_spec (b' mod BPB) (b mod BPB)) as [E'|E'].
    + rewrite (same_bit _ _ E E'), Z.eqb_refl. done.
    + by destruct (Z.eqb_spec b' b) as [->|].
  - rewrite upd_ne by done. by destruct (Z.eqb_spec b' b) as [->|].
Qed.

Abbreviation txn := (txn_at start size 1).
Abbreviation room := (FsTxn.room size).

(** The locked blocks are neither of the bitmap nor free. *)
Definition locked_ok (v : Z -> block) (L : gset Z) : Prop :=
  forall n, n ∈ L -> (forall b, 0 <= b < sb_size sb -> bb b <> n) /\ (0 <= n < sb_size sb -> used v n = true).

Lemma bzero_ok s v blks L b :
  txn s v blks L -> b ∉ L -> home start size b -> room blks L 2 ->
  exists s', bzero ROOTDEV b s = Ret tt s' /\ txn s' (upd v b (memset (v b) 0 0 BSIZE)) (add_block b blks) L /\
    stays s s' (L ∪ list_to_set blks) /\ same_rest s s'.
Proof using Hstart Hsize Hend.
  intros Ht Hb Hh Hr. pose proof Hh as [[? ?] _].
  destruct (t_modify start size Hstart Hsize Hend s v blks L b (fun d => memset d 0 0 BSIZE) Ht Hb Hh Hr)
    as (bp & s1 & s2 & s3 & s4 & E1 & G1 & E2 & E3 & E4 & T & K & R).
  exists s4. split; [|done]. unfold bzero. rewrite u32_small by lia.
  by rewrite (bind_Ret _ _ _ _ _ E1), (bind_Ret _ _ _ _ _ G1), (bind_Ret _ _ _ _ _ E2), (bind_Ret _ _ _ _ _ E3).
Qed.

Lemma stays_trans s1 s2 s3 X Y : X ⊆ Y -> stays s1 s2 X -> stays s2 s3 Y -> stays s1 s3 X.
Proof. intros HX H1 H2 b n Hn Hb. apply H2; [by apply HX|]. by apply H1. Qed.

Lemma add_block_sub n blks : (list_to_set blks : gset Z) ⊆ list_to_set (add_block n blks).
Proof. intros x. rewrite !elem_of_list_to_set. unfold add_block. case_decide; [done|]. rewrite elem_of_app. tauto. Qed.

Lemma in_block b b' : b mod BPB = 0 -> b <= b' < b + BPB -> bb b' = bb b /\ b' mod BPB = b' - b.
Proof.
  intros Hb0 Hb'. unfold bb. assert (b = BPB * (b / BPB)) as Eb by (rewrite (Z.div_mod b BPB) at 1 by done; lia).
  assert (b' / BPB = b / BPB) as Ed by (symmetry; apply (Z.div_unique _ _ _ (b' - b)); lia).
  split; [lia|]. rewrite Z.mod_eq, Ed by done. lia.
Qed.

(** What balloc does on the contents [v]. *)
Definition balloc_post (s : fss) (v : Z -> block) (blks : list Z) (L : gset Z) (r : Z) (s' : fss) : Prop :=
  stays s s' (L ∪ list_to_set blks) /\ same_rest s s' /\
  if decide (r = 0) then (forall b, 0 <= b < sb_size sb -> used v b = true) /\ txn s' v blks L
  else first <= r < sb_size sb /\ used v r = false /\ (forall b, 0 <= b < r -> used v b = true) /\
    txn s' (alloc_block v r) (add_block r (add_block (bb r) blks)) L.

Lemma balloc_hit s v blks L b bi :
  txn s v blks L -> meta_used v -> locked_ok v L -> room blks L 3 -> b mod BPB = 0 -> 0 <= bi < BPB -> 0 <= b ->
  b + bi < sb_size sb -> bit_set (v (bb b)) bi = false -> (forall b', 0 <= b' < b + bi -> used v b' = true) ->
  exists bp s1 s', lift (bread ROOTDEV (bb b)) s = Ret bp s1 /\ getdata bp s1 = Ret (v (bb b)) s1 /\
    (putdata bp (st8 (v (bb b)) (bi / 8) (Z.lor (v (bb b) (bi / 8)) (Z.shiftl 1 (bi mod 8)))) ;;;
     lift (log_write bp) ;;; lift (brelse bp) ;;; bzero ROOTDEV (b + bi) ;;; ret (u32 (b + bi))) s1 = Ret (b + bi) s' /\
    balloc_post s v blks L (b + bi) s'.
Proof using Hstart Hsize Hend Hg.
  intros Ht Hm Hlk Hr Hb0 Hbi Hb Hlt Hbit Hlow. set (r := b + bi) in *.
  destruct (in_block b r Hb0 ltac:(lia)) as [Er Em]. replace (r - b) with bi in Em by lia.
  assert (used v r = false) as Hf by (unfold used; by rewrite Er, Em).
  assert (first <= r) as Hfr by (destruct (Z.lt_ge_cases r first) as [H|]; [rewrite Hm in Hf by lia; done|done]).
  pose proof Hg as [G1 G2 G3 G4 G5]. pose proof (bb_range r ltac:(lia)) as Hbb.
  assert (bb b ∉ L) as HL by (intros H; destruct (Hlk _ H) as [H' _]; apply (H' r); [lia|exact Er]).
  assert (home start size (bb b)) as Hh by (rewrite <- Er; apply G4; lia).
  destruct (t_modify start size Hstart Hsize Hend s v blks L (bb b) (fun d => set_bit d bi) Ht HL Hh)
    as (bp & s1 & s2 & s3 & s4 & E1 & E2 & E3 & E4 & E5 & T4 & K4 & R4); [by apply (room_le size blks L 3)|].
  assert (r ∉ L) as HrL by (intros H; destruct (Hlk _ H) as [_ H']; rewrite H' in Hf by lia; done).
  destruct (bzero_ok s4 _ _ L r T4 HrL) as (s5 & E6 & T5 & K5 & R5); [apply G5; lia|exact (room_add size (bb b) blks L 3 Hr)|].
  exists bp, s1, s5. split; [done|]. split; [done|]. split.
  - rewrite (bind_Ret _ _ _ _ _ E3), (bind_Ret _ _ _ _ _ E4), (bind_Ret _ _ _ _ _ E5), (bind_Ret _ _ _ _ _ E6).
    unfold ret. rewrite u32_small by lia. done.
  - split; [|split; [by eapply same_rest_trans|]].
    + eapply stays_trans; [|exact K4|exact K5]. pose proof (add_block_sub (bb b) blks). set_solver.
    + rewrite decide_False by lia. split_and!; [lia|lia|done|done|]. rewrite upd_ne in T5 by lia.
      unfold alloc_block. rewrite Er, Em. exact T5.
Qed.

Lemma balloc_loop_ok fuel : forall s v blks L b,
  txn s v blks L -> fs_sb s = sb -> meta_used v -> locked_ok v L -> room blks L 3 -> b mod BPB = 0 -> 0 <= b ->
  b < sb_size sb + BPB -> sb_size sb - b <= (Z.of_nat fuel - 1) * BPB -> (forall b', 0 <= b' < b -> b' < sb_size sb -> used v b' = true) ->
  exists r s', balloc_loop fuel ROOTDEV b s = Ret r s' /\ balloc_post s v blks L r s'.
Proof using Hstart Hsize Hend Hg.
  induction fuel as [|fuel IH]; intros s v blks L b Ht Hsb Hm Hlk Hr Hb0 Hb Hb1 Hf Hlow; cbn [balloc_loop].
  { exfalso. lia. }
  rewrite bind_gets, Hsb. destruct (Z.ltb_spec b (sb_size sb)) as [Hlt|Hge]; cbn [negb].
  2:{ exists 0, s. split; [done|]. split; [by intros ? ?|]. split; [apply same_rest_refl|]. rewrite decide_True by done.
      split; [|done]. intros b' Hb'. apply Hlow; lia. }
  pose proof (find_clear_ok (Z.to_nat BPB) (v (bb b)) b 0 (sb_size sb) ltac:(lia) ltac:(unfold BPB, BSIZE; lia)) as Hfc.
  rewrite BBLOCK_bb by lia. destruct (find_clear (Z.to_nat BPB) (v (bb b)) b 0 (sb_size sb)) as [bi|] eqn:Efc.
  - destruct Hfc as (H1 & H2 & H3 & H4).
    destruct (balloc_hit s v blks L b bi) as (bp & s1 & s' & E1 & E2 & E3 & Hp); try done.
    { intros b' Hb'. destruct (Z.lt_ge_cases b' b); [apply Hlow; lia|]. unfold used.
      destruct (in_block b b' Hb0 ltac:(lia)) as [-> ->]. apply H4. lia. }
    exists (b + bi), s'. split; [|done]. by rewrite (bind_Ret _ _ _ _ _ E1), (bind_Ret _ _ _ _ _ E2), Efc.
  - destruct (t_read start size Hstart Hsize Hend s v blks L (bb b) Ht) as (bp & s1 & s2 & E1 & E2 & E3 & T2 & K2 & R2 & _).
    { intros H. destruct (Hlk _ H) as [H' _]. apply (H' b); [lia|done]. }
    { right. by apply (room_le size blks L 3). }
    pose proof R2 as [[l2 El2] _]. destruct (IH s2 v blks L (b + BPB) T2) as (r & s' & E4 & K4 & R4 & Hp); try done.
    { by rewrite El2. }
    { by rewrite <- (Z.mul_1_l BPB), Z_mod_plus_full. }
    { unfold BPB, BSIZE in *. lia. }
    { unfold BPB, BSIZE in *. lia. }
    { unfold BPB, BSIZE in *. lia. }
    { intros b' Hb' Hs'. destruct (Z.lt_ge_cases b' b); [apply Hlow; lia|]. unfold used.
      destruct (in_block b b' Hb0 ltac:(lia)) as [-> ->]. apply Hfc; lia. }
    exists r, s'. split; [by rewrite (bind_Ret _ _ _ _ _ E1), (bind_Ret _ _ _ _ _ E2), Efc, (bind_Ret _ _ _ _ _ E3)|].
    split; [by eapply stays_trans|]. split; [by eapply same_rest_trans|done].
Qed.

Lemma balloc_ok s v blks L :
  txn s v blks L -> fs_sb s = sb -> meta_used v -> locked_ok v L -> room blks L 3 ->
  exists r s', balloc ROOTDEV s = Ret r s' /\ balloc_post s v blks L r s'.
Proof using Hstart Hsize Hend Hg.
  intros Ht Hsb Hm Hlk Hr. unfold balloc. rewrite bind_gets, Hsb. apply balloc_loop_ok; try done.
  - pose proof (ge_size Hg). unfold BPB, BSIZE. lia.
  - pose proof (Z.div_mod (sb_size sb) BPB ltac:(done)). pose proof (Z.mod_pos_bound (sb_size sb) BPB ltac:(done)).
    pose proof (ge_size Hg). assert (0 <= sb_size sb / BPB) by (apply Z.div_pos; unfold BPB, BSIZE; lia). lia.
  - intros; lia.
Qed.

Lemma bfree_ok s v blks L b :
  txn s v blks L -> fs_sb s = sb -> first <= b < sb_size sb -> used v b = true -> bb b ∉ L -> room blks L 2 ->
  exists s', bfree ROOTDEV b s = Ret tt s' /\ txn s' (free_block v b) (add_block (bb b) blks) L /\
    stays s s' (L ∪ list_to_set blks) /\ same_rest s s'.
Proof using Hstart Hsize Hend Hg.
  intros Ht Hsb Hb Hu HL Hr. pose proof Hg as [G1 G2 G3 G4 G5]. unfold bfree. rewrite bind_gets, Hsb, BBLOCK_bb by lia.
  destruct (t_modify start size Hstart Hsize Hend s v blks L (bb b) (fun d => clear_bit d (b mod BPB)) Ht HL)
    as (bp & s1 & s2 & s3 & s4 & E1 & E2 & E3 & E4 & E5 & T4 & K4 & R4); [apply G4; lia|done|].
  rewrite (bind_Ret _ _ _ _ _ E1), (bind_Ret _ _ _ _ _ E2). unfold used in Hu. rewrite Hu. cbn [negb].
  rewrite (bind_Ret _ _ _ _ _ E3), (bind_Ret _ _ _ _ _ E4). by exists s4.
Qed.

(** Freeing a free block panics. *)
Lemma bfree_panics s v blks L b :
  txn s v blks L -> fs_sb s = sb -> 0 <= b < sb_size sb -> used v b = false -> bb b ∉ L -> room blks L 0 ->
  exists s', bfree ROOTDEV b s = Panic "freeing free block" s'.
Proof using Hstart Hsize Hend Hg.
  intros Ht Hsb Hb Hu HL Hr. unfold bfree. rewrite bind_gets, Hsb, BBLOCK_bb by lia.
  destruct (t_bread start size Hstart Hsize Hend s v blks L (bb b) Ht HL (or_intror Hr)) as (bp & s1 & E1 & _ & _ & _ & _ & E2).
  rewrite (bind_Ret _ _ _ _ _ E1), (bind_Ret _ _ _ _ _ E2). unfold used in Hu. rewrite Hu. by exists s1.
Qed.

(** ** The allocator of a set *)

Inductive aop := Alloc | Free (b : Z).

Definition run_aop (o : aop) : M fss Z :=
  match o with Alloc => balloc ROOTDEV | Free b => bfree ROOTDEV b ;;; ret 0 end.
Fixpoint run_aops (os : list aop) : M fss (list Z) :=
  match os with [] => ret [] | o :: os => r <- run_aop o ;; rs <- run_aops os ;; ret (r :: rs) end.

(** Alloc takes the least block not in use, Free gives one back. *)
Definition set_aop (U : gset Z) (o : aop) : Z * gset Z :=
  match o with
  | Alloc => match head (base.filter (fun b => b ∉ U) (seqZ 0 (sb_size sb))) with
             | Some b => (b, {[b]} ∪ U)
             | None => (0, U)
             end
  | Free b => (0, U ∖ {[b]})
  end.
Fixpoint set_aops (U : gset Z) (os : list aop) : list Z * gset Z :=
  match os with
  | [] => ([], U)
  | o :: os => let (r, U1) := set_aop U o in let (rs, U2) := set_aops U1 os in (r :: rs, U2)
  end.

(** Only data blocks in use are freed. *)
Definition legal_aop (U : gset Z) (o : aop) : Prop :=
  match o with Alloc => True | Free b => first <= b < sb_size sb /\ b ∈ U end.
Fixpoint legal_aops (U : gset Z) (os : list aop) : Prop :=
  match os with [] => True | o :: os => legal_aop U o /\ legal_aops (snd (set_aop U o)) os end.

Definition in_use (v : Z -> block) (U : gset Z) : Prop := forall b, 0 <= b < sb_size sb -> b ∈ U <-> used v b = true.

Lemma filter_none {A} (P : A -> Prop) `{forall x, Decision (P x)} l : (forall x, x ∈ l -> ~ P x) -> base.filter P l = [].
Proof.
  induction l as [|x l IH]; intros Hl; [done|]. rewrite filter_cons_False by (apply Hl; left).
  apply IH. intros y Hy. apply Hl. by right.
Qed.

Lemma least_free (U : gset Z) r :
  0 <= r < sb_size sb -> r ∉ U -> (forall b, 0 <= b < r -> b ∈ U) ->
  head (base.filter (fun b => b ∉ U) (seqZ 0 (sb_size sb))) = Some r.
Proof.
  intros Hr HU Hlow. replace (sb_size sb) with (r + (sb_size sb - r)) by lia. rewrite seqZ_app, filter_app by lia.
  rewrite (filter_none _ (seqZ 0 r)).
  - rewrite seqZ_cons by lia. rewrite Z.add_0_l, filter_cons_True by done. done.
  - intros x Hx%elem_of_seqZ. intros H. apply H, Hlow. lia.
Qed.

Lemma no_free (U : gset Z) : (forall b, 0 <= b < sb_size sb -> b ∈ U) -> head (base.filter (fun b => b ∉ U) (seqZ 0 (sb_size sb))) = None.
Proof. intros H. rewrite filter_none; [done|]. intros x Hx%elem_of_seqZ. intros Hn. apply Hn, H. lia. Qed.

Lemma memset_zero d i : 0 <= i < BSIZE -> memset d 0 0 BSIZE i = 0.
Proof. intros. rewrite memset_in by lia. done. Qed.

Lemma run_aop_ok o s v blks U :
  txn s v blks ∅ -> fs_sb s = sb -> in_use v U -> (forall b, 0 <= b < first -> b ∈ U) -> legal_aop U o -> room blks ∅ 3 ->
  exists s' v' blks', run_aop o s = Ret (Datatypes.fst (set_aop U o)) s' /\ txn s' v' blks' ∅ /\ fs_sb s' = sb /\
    in_use v' (snd (set_aop U o)) /\ (forall b, 0 <= b < first -> b ∈ snd (set_aop U o)) /\
    (length blks' <= length blks + 2)%nat /\ same_disk s s' /\
    forall n, first <= n -> if decide (n = Datatypes.fst (set_aop U o)) then forall i, 0 <= i < BSIZE -> v' n i = 0 else v' n = v n.
Proof using Hstart Hsize Hend Hg.
  intros Ht Hsb HU Hlow Hleg Hr. pose proof Hg as [G1 G2 G3 G4 G5].
  assert (meta_used v) as Hm by (intros b Hb; apply HU; [lia|by apply Hlow]).
  destruct o as [|b]; cbn [run_aop legal_aop] in *.
  - destruct (balloc_ok s v blks ∅ Ht Hsb Hm) as (r & s' & E & K & [[l ->] Dk] & Hp); [by intros n ?%elem_of_empty|done|].
    rewrite E. case_decide as Hr0.
    + destruct Hp as [Hall T]. subst r. cbn [set_aop]. rewrite no_free by (intros b Hb; by apply HU, Hall).
      exists (set_l l s), v, blks. split_and!; try done; [lia|]. intros n Hn. rewrite decide_False by (cbn; lia). done.
    + destruct Hp as (Hrr & Hfree & Hused & T). cbn [set_aop].
      rewrite (least_free U r); [|lia| |intros b Hb; apply HU; [lia|by apply Hused]];
        [|intros Hin; apply HU in Hin; [by rewrite Hfree in Hin|lia]]. cbn [Datatypes.fst snd].
      exists (set_l l s), (alloc_block v r), (add_block r (add_block (bb r) blks)). split_and!; try done.
      * intros b Hb. rewrite used_alloc by lia. rewrite elem_of_union, elem_of_singleton.
        destruct (Z.eqb_spec b r) as [->|]; [tauto|]. rewrite (HU b Hb). tauto.
      * intros b Hb. apply elem_of_union_r. by apply Hlow.
      * pose proof (add_block_length r (add_block (bb r) blks)). pose proof (add_block_length (bb r) blks). lia.
      * intros n Hn. pose proof (bb_range r ltac:(lia)). unfold alloc_block. case_decide as Hnr.
        -- subst n. intros i Hi. rewrite upd_eq. by apply memset_zero.
        -- rewrite upd_ne, upd_ne by (done || lia). done.
  - destruct Hleg as [Hb Hin]. assert (used v b = true) as Hu by (apply HU; [lia|done]).
    destruct (bfree_ok s v blks ∅ b Ht Hsb Hb Hu (not_elem_of_empty _)) as (s' & E & T & _ & [[l ->] Dk]);
      [by apply (room_le size blks ∅ 3)|].
    exists (set_l l s), (free_block v b), (add_block (bb b) blks). cbn [set_aop Datatypes.fst snd].
    split_and!; try done.
    + by rewrite (bind_Ret _ _ _ _ _ E).
    + intros b' Hb'. rewrite used_free by lia. rewrite elem_of_difference, elem_of_singleton.
      destruct (Z.eqb_spec b' b) as [->|]; [split; [tauto|done]|]. rewrite (HU b' Hb'). tauto.
    + intros b' Hb'. apply elem_of_difference. split; [by apply Hlow|]. rewrite elem_of_singleton. lia.
    + pose proof (add_block_length (bb b) blks). lia.
    + intros n Hn. rewrite decide_False by lia. unfold free_block. pose proof (bb_range b ltac:(lia)). by rewrite upd_ne by lia.
Qed.

Lemma run_aops_ok os : forall s v blks U,
  txn s v blks ∅ -> fs_sb s = sb -> in_use v U -> (forall b, 0 <= b < first -> b ∈ U) -> legal_aops U os ->
  room blks ∅ (2 * Z.of_nat (length os) + 1) ->
  exists s' v' blks', run_aops os s = Ret (Datatypes.fst (set_aops U os)) s' /\ txn s' v' blks' ∅ /\
    (length blks' <= length blks + 2 * length os)%nat /\ same_disk s s' /\ in_use v' (snd (set_aops U os)) /\
    forall n, first <= n -> if decide (n ∈ Datatypes.fst (set_aops U os)) then (forall i, 0 <= i < BSIZE -> v' n i = 0) else v' n = v n.
Proof using Hstart Hsize Hend Hg.
  induction os as [|o os IH]; intros s v blks U Ht Hsb HU Hlow Hleg Hr; cbn [run_aops set_aops legal_aops length] in *.
  { exists s, v, blks. split_and!; try done. lia. }
  destruct Hleg as [Ho Hleg]. destruct (run_aop_ok o s v blks U Ht Hsb HU Hlow Ho) as (s1 & v1 & blks1 & E1 & T1 & S1 & U1 & L1 & N1 & D1 & C1);
    [by apply (room_le size blks ∅ (2 * Z.of_nat (S (length os)) + 1)); [lia|]|].
  destruct (set_aop U o) as [r U'] eqn:Eo. cbn [Datatypes.fst snd] in *.
  destruct (IH s1 v1 blks1 U' T1 S1 U1 L1 Hleg) as (s2 & v2 & blks2 & E2 & T2 & N2 & D2 & U2 & C2);
    [unfold FsTxn.room in *; lia|].
  destruct (set_aops U' os) as [rs U''] eqn:Eos. cbn [Datatypes.fst snd] in *. exists s2, v2, blks2.
  rewrite (bind_Ret _ _ _ _ _ E1), (bind_Ret _ _ _ _ _ E2). split_and!; [done|done|lia|by eapply same_disk_trans|done|].
  intros n Hn. specialize (C1 n Hn). specialize (C2 n Hn). destruct (decide (n ∈ rs)) as [Hin|Hin].
  - rewrite decide_True by (by right). done.
  - rewrite C2. destruct (decide (n = r)) as [->|Hne]; [rewrite decide_True by left; done|].
    rewrite decide_False by (by rewrite not_elem_of_cons). done.
Qed.

End layout.

(** C9: The block allocator refines the allocator of a set, and its calls are
    atomic across crashes.  Let the bitmap on the disk [d] represent the set
    [U] of blocks in use.  A file-system call that allocates and frees blocks
    (as many as fit the log) returns what the abstract allocator returns on
    [U]: the least free block number, or 0 when the disk is full.  Afterwards
    the bitmap represents the abstract allocator's set, the blocks allocated
    are zeroed, the other data blocks are unchanged; and wherever the disk
    writes of the call stop, recovery yields the disk before it or after it. *)
Theorem balloc_refines_set start size sb first s d U os :
  0 <= start -> 0 < size -> start + size < 2 ^ 31 -> geometry start size sb first ->
  log_idle start size (fs_l s) d -> fs_sb s = sb -> in_use sb d U -> (forall b, 0 <= b < first -> b ∈ U) ->
  legal_aops sb first U os -> 2 * Z.of_nat (length os) + 1 < Z.min NBUF size ->
  exists s' d' v ws, call (run_aops os) s = Ret (Datatypes.fst (set_aops sb U os)) s' /\
    log_idle start size (fs_l s') d' /\ agrees start size d' v /\ in_use sb v (snd (set_aops sb U os)) /\
    (forall n, first <= n -> if decide (n ∈ Datatypes.fst (set_aops sb U os))
       then (forall i, 0 <= i < BSIZE -> v n i = 0) else v n = d n) /\
    bs_writes (ls_b (fs_l s')) = bs_writes (ls_b (fs_l s)) ++ ws /\ atomic start size (bs_disk (ls_b (fs_l s))) d v ws.
Proof.
  intros Hs Hz He Hg Hi Hsb HU Hlow Hleg Hlen.
  destruct (t_call start size Hs Hz He (run_aops os) s d (fun rs _ v => rs = Datatypes.fst (set_aops sb U os) /\
    in_use sb v (snd (set_aops sb U os)) /\ forall n, first <= n -> if decide (n ∈ Datatypes.fst (set_aops sb U os))
       then (forall i, 0 <= i < BSIZE -> v n i = 0) else v n = d n) Hi) as (rs & s2 & l & v & d' & ws & E & (-> & HU' & HC) & I & A & W & At).
  - intros s1 [[l ->] _] T. destruct (run_aops_ok start size Hs Hz He sb first Hg os _ d [] U T) as (s2 & v & blks & E & T2 & N & D & HU' & HC);
      [done|done|done|done|unfold room; rewrite size_empty; cbn [length]; lia|].
    eexists _, s2, v, blks. split_and!; [exact E|done|done|cbn in N; lia|done|done|done].
  - exists (set_l l s2), d', v, ws. split_and!; done.
Qed.

(** A disk of 48 blocks, the last two free; the third allocation finds it full,
    and the block given back is the next one taken. *)
Lemma balloc_refines_set_witness :
  let sb := mkSb FSMAGIC 48 2 200 30 2 32 45 in
  let d := fun n i => if n =? 45 then (if i <? 5 then 255 else if i =? 5 then 63 else 0) else 0 in
  exists s s', log_idle 2 30 (fs_l s) d /\
    call (run_aops [Alloc; Alloc; Alloc; Free 46; Alloc]) s = Ret [46; 47; 0; 0; 46] s'.
Proof.
  set (sb := mkSb FSMAGIC 48 2 200 30 2 32 45).
  set (d := fun n i => if n =? 45 then (if i <? 5 then 255 else if i =? 5 then 63 else 0) else 0).
  destruct (idle_at_boot d) as (l & I & _); [by split|].
  set (U := list_to_set (seqZ 0 46) : gset Z).
  assert (forall b, b ∈ U <-> 0 <= b < 46) as HU by (intros b; unfold U; rewrite elem_of_list_to_set, elem_of_seqZ; lia).
  destruct (balloc_refines_set 2 30 sb 46 (fresh_fss l sb) d U [Alloc; Alloc; Alloc; Free 46; Alloc]) as (s' & _ & _ & _ & E & _);
    [lia|lia|lia| |exact I|reflexivity| |intros b Hb; apply HU; lia| |vm_compute; reflexivity|].
  - split; [done|done|done| |]; intros b Hb; unfold home, inlog; cbn in *; [|lia].
    unfold BPB, BSIZE. rewrite Z.div_small by lia. lia.
  - intros b Hb. rewrite HU. cbn in Hb. assert (forallb (fun b => Bool.eqb (b <? 46) (used sb d b)) (seqZ 0 48) = true) as H by (vm_compute; reflexivity).
    rewrite forallb_forall in H. specialize (H b). rewrite <- list_elem_of_In, elem_of_seqZ in H.
    specialize (H ltac:(lia)). apply Bool.eqb_prop in H. rewrite <- H, Z.ltb_lt. lia.
  - repeat split; vm_compute; done.
  - exists (fresh_fss l sb), s'. split; [exact I|]. rewrite E. reflexivity.
Defined.
