(* ===== verification/FsInode.v ===== *)
(** * Inodes: their bytes on disk and their entries in memory

    iupdate and ilock translate between struct inode and the bytes of struct
    dinode; iget, idup and iput count the references to the entries of itable,
    of which an inode in use has exactly one. *)
From stdpp Require Import strings.
From S2P Require Import Prelude Mem StringC Kalloc Page Vm Locks Bio Log Fs FsTxn FsAlloc.
From Stdlib Require Import ZArith Lia.
Local Open Scope list_scope.
Local Open Scope Z_scope.
Local Open Scope kernel_scope.

(** ** struct dinode *)

Definition short (x : Z) : Prop := - 2 ^ 15 <= x < 2 ^ 15.

Record di_ok (i : inode) : Prop := {
  do_type : short (i_type i); do_major : short (i_major i); do_minor : short (i_minor i); do_nlink : short (i_nlink i);
  do_size : 0 <= i_size i < 2 ^ 32;
  do_addrs : Forall (fun a => 0 <= a < 2 ^ 32) (i_addrs i);
  do_len : length (i_addrs i) = 13%nat
}.

Lemma s16_short x : short x -> s16 (x mod 2 ^ 16) = x.
Proof. unfold short, s16. intros. rewrite Zplus_mod_idemp_l, Z.mod_small by lia. lia. Qed.

Lemma put_addrs_out l : forall d a x, x < a \/ a + 4 * Z.of_nat (length l) <= x -> put_addrs l d a x = d x.
Proof.
  induction l as [|y l IH]; intros d a x H; cbn [put_addrs length] in *; [done|]. rewrite IH by lia. apply stn_out. lia.
Qed.

Lemma di_addrs_ext n : forall d d' a, (forall x, a <= x < a + 4 * Z.of_nat n -> d x = d' x) -> di_addrs n d a = di_addrs n d' a.
Proof.
  induction n as [|n IH]; intros d d' a H; cbn [di_addrs]; [done|]. f_equal; [apply ldn_ext; intros; apply H; lia|].
  apply IH. intros. apply H. lia.
Qed.

Lemma di_put_addrs l : forall d a, Forall (fun a => 0 <= a < 2 ^ 32) l -> di_addrs (length l) (put_addrs l d a) a = l.
Proof.
  induction l as [|y l IH]; intros d a H; cbn [put_addrs di_addrs length]; [done|]. apply Forall_cons in H as [Hy Hl]. f_equal; [|by apply IH].
  rewrite (ldn_ext 4 _ (st32 d a y)) by (intros; apply put_addrs_out; lia). rewrite ldn_stn_eq. apply Z.mod_small. done.
Qed.

Lemma put_dinode_out i d a x : length (i_addrs i) = 13%nat -> x < a \/ a + 64 <= x -> put_dinode i d a x = d x.
Proof. intros Hl Hx. unfold put_dinode. rewrite put_addrs_out by (rewrite Hl; lia). by rewrite !stn_out by lia. Qed.

(** What iupdate writes ilock reads. *)
Lemma get_put_dinode i j d a : di_ok i ->
  get_dinode j (put_dinode i d a) a =
  mkInode (i_dev j) (i_inum j) (i_ref j) (i_valid j) (i_type i) (i_major i) (i_minor i) (i_nlink i) (i_size i) (i_addrs i).
Proof.
  intros [H1 H2 H3 H4 H5 H6 H7]. unfold get_dinode, di_type, di_major, di_minor, di_nlink, di_size.
  assert (forall n b, b + Z.of_nat n <= a + 12 -> forall d', ldn n (put_addrs (i_addrs i) d' (a + 12)) b = ldn n d' b) as Hp.
  { intros n b Hb d'. apply ldn_ext. intros. apply put_addrs_out. lia. }
  unfold put_dinode. rewrite !Hp by (cbn; lia).
  change (Z.to_nat (NDIRECT + 1)) with 13%nat. rewrite <- H7 at 1. rewrite di_put_addrs by done.
  repeat first [rewrite ldn_stn_eq|rewrite ldn_stn_ne by (cbn; lia)].
  change (2 ^ (8 * Z.of_nat 2)) with (2 ^ 16). change (2 ^ (8 * Z.of_nat 4)) with (2 ^ 32).
  rewrite !s16_short by done. by rewrite Z.mod_small by done.
Qed.

(** Another inode of the same block is not touched. *)
Lemma get_put_dinode_ne i j d inum inum' : length (i_addrs i) = 13%nat ->
  inum mod IPB <> inum' mod IPB -> get_dinode j (put_dinode i d (dip inum')) (dip inum) = get_dinode j d (dip inum).
Proof.
  intros Hl Hne. assert (forall x, dip inum <= x < dip inum + 64 -> put_dinode i d (dip inum') x = d x) as H.
  { intros x Hx. apply put_dinode_out; [done|]. unfold dip in *. set (p := inum mod IPB) in *. set (q := inum' mod IPB) in *. lia. }
  unfold get_dinode, di_type, di_major, di_minor, di_nlink, di_size.
  f_equal; try (f_equal; apply ldn_ext; intros; apply H; cbn in *; lia); try (apply ldn_ext; intros; apply H; cbn in *; lia).
  apply (di_addrs_ext 13). intros. apply H. lia.
Qed.

Section layout.
Context (start size : Z) (Hstart : 0 <= start) (Hsize : 0 < size) (Hend : start + size < 2 ^ 31).
Context (sb : superblock).

Abbreviation txn := (txn_at start size 1).
Abbreviation room := (FsTxn.room size).

(** The blocks of the inodes lie outside the log. *)
Definition inode_blocks_home : Prop := forall inum, 0 <= inum < sb_ninodes sb -> home start size (IBLOCK inum sb).

Lemma iupdate_ok s v blks ip :
  txn s v blks ∅ -> fs_sb s = sb -> inode_blocks_home -> i_dev (fs_itable s ip) = ROOTDEV -> 0 <= i_inum (fs_itable s ip) < sb_ninodes sb -> room blks ∅ 2 ->
  let i := fs_itable s ip in let n := IBLOCK (i_inum i) sb in
  exists s', iupdate ip s = Ret tt s' /\ txn s' (upd v n (put_dinode i (v n) (dip (i_inum i)))) (add_block n blks) ∅ /\ same_rest s s'.
Proof using Hstart Hsize Hend.
  intros Ht Hsb Hh Hd Hn Hr i n. unfold iupdate, geti. rewrite bind_gets, bind_gets, Hsb, Hd. fold i. fold n.
  destruct (t_modify start size Hstart Hsize Hend s v blks ∅ n (fun d => put_dinode i d (dip (i_inum i))) Ht (not_elem_of_empty _) (Hh _ Hn) Hr)
    as (b & s1 & s2 & s3 & s4 & E1 & E2 & E3 & E4 & E5 & T & _ & R).
  exists s4. split; [|done].
  by rewrite (bind_Ret _ _ _ _ _ E1), (bind_Ret _ _ _ _ _ E2), (bind_Ret _ _ _ _ _ E3), (bind_Ret _ _ _ _ _ E4).
Qed.

End layout.

(** ** References to the entries of itable *)

(** The identity of an entry and its reference count. *)
Definition ids (t : Z -> inode) (j : Z) : Z * Z * Z := (i_ref (t j), i_dev (t j), i_inum (t j)).

(** Code that keeps every entry's identity and count. *)
Definition keeps_ids {A} (c : M fss A) : Prop := forall s a s', c s = Ret a s' -> forall j, ids (fs_itable s') j = ids (fs_itable s) j.

Lemma ids_keeps_bind {A B} (c : M fss A) (k : A -> M fss B) : keeps_ids c -> (forall a, keeps_ids (k a)) -> keeps_ids (bind c k).
Proof. intros Hc Hk s b s' (a & s1 & E1 & E2)%bind_inv j. by rewrite (Hk _ _ _ _ E2), (Hc _ _ _ E1). Qed.
Lemma ids_keeps_ret {A} (a : A) : keeps_ids (ret a).
Proof. by intros s ? s' [= <- <-]. Qed.
Lemma ids_keeps_gets {A} (f : fss -> A) : keeps_ids (gets f).
Proof. by intros s ? s' [= <- <-]. Qed.
Lemma ids_keeps_panic {A} m : keeps_ids (panic (A := A) m).
Proof. done. Qed.
Lemma ids_keeps_fault {A} : keeps_ids (fault (A := A)).
Proof. done. Qed.
Lemma ids_keeps_if {A} (b : bool) (c d : M fss A) : keeps_ids c -> keeps_ids d -> keeps_ids (if b then c else d).
Proof. by destruct b. Qed.
Lemma ids_keeps_when (b : bool) (c : M fss unit) : keeps_ids c -> keeps_ids (when b c).
Proof. destruct b; [done|intros _; apply ids_keeps_ret]. Qed.
Lemma ids_keeps_option {A B} (o : option B) (f : B -> M fss A) (d : M fss A) :
  (forall x, keeps_ids (f x)) -> keeps_ids d -> keeps_ids (match o with Some x => f x | None => d end).
Proof. by destruct o. Qed.
Lemma ids_keeps_modi ip f : (forall i, (i_ref (f i), i_dev (f i), i_inum (f i)) = (i_ref i, i_dev i, i_inum i)) -> keeps_ids (modi ip f).
Proof.
  intros H s a s' [= <- <-] j. unfold ids. cbn. destruct (Z.eq_dec j ip) as [->|]; [by rewrite upd_eq, H|by rewrite upd_ne].
Qed.
Lemma ids_keeps_lift {T A} `{L : Lens fss T} (c : M T A) :
  (forall x s, fs_itable (update x s) = fs_itable s) -> keeps_ids (lift c).
Proof. intros H s a s' E j. unfold lift in E. destruct (c (view s)); inversion E. by rewrite H. Qed.

Create HintDb ids_keeps.
#[export] Hint Resolve ids_keeps_bind ids_keeps_ret ids_keeps_gets ids_keeps_panic ids_keeps_fault ids_keeps_if ids_keeps_when
  ids_keeps_option : ids_keeps.
#[export] Hint Extern 1 (keeps_ids (lift _)) => apply ids_keeps_lift; reflexivity : ids_keeps.
#[export] Hint Extern 1 (keeps_ids (modi _ _)) => apply ids_keeps_modi; reflexivity : ids_keeps.

Ltac keeps := repeat first [progress intros | solve [eauto 2 with ids_keeps] | apply ids_keeps_bind | apply ids_keeps_if
  | apply ids_keeps_when | apply ids_keeps_option].

Lemma ids_keeps_geti ip : keeps_ids (geti ip).
Proof. apply ids_keeps_gets. Qed.
Lemma ids_keeps_getdata b : keeps_ids (getdata b).
Proof. unfold getdata. keeps. Qed.
Lemma ids_keeps_putdata b d : keeps_ids (putdata b d).
Proof. unfold putdata. keeps. Qed.
#[export] Hint Resolve ids_keeps_geti ids_keeps_getdata ids_keeps_putdata : ids_keeps.
Lemma ids_keeps_get_addr ip n : keeps_ids (get_addr ip n).
Proof. unfold get_addr. keeps. Qed.
Lemma ids_keeps_put_addr ip n a : keeps_ids (put_addr ip n a).
Proof. unfold put_addr. keeps. Qed.
Lemma ids_keeps_bfree dev b : keeps_ids (bfree dev b).
Proof. unfold bfree. keeps. Qed.
Lemma ids_keeps_iupdate ip : keeps_ids (iupdate ip).
Proof. unfold iupdate. keeps. Qed.
#[export] Hint Resolve ids_keeps_get_addr ids_keeps_put_addr ids_keeps_bfree ids_keeps_iupdate : ids_keeps.

Lemma ids_keeps_itrunc ip : keeps_ids (itrunc ip).
Proof.
  assert (forall n i, keeps_ids (itrunc_direct n ip i)) as H1 by (induction n; intros; cbn [itrunc_direct]; keeps).
  assert (forall n dev bp j, keeps_ids (itrunc_indirect n dev bp j)) as H2 by (induction n; intros; cbn [itrunc_indirect]; keeps).
  unfold itrunc. keeps.
Qed.
#[export] Hint Resolve ids_keeps_itrunc : ids_keeps.

Lemma ids_keeps_balloc dev : keeps_ids (balloc dev).
Proof.
  assert (forall n b, keeps_ids (balloc_loop n dev b)) as H.
  { induction n as [|n IH]; intros b; cbn [balloc_loop]; [done|]. unfold bzero. keeps. }
  unfold balloc. keeps.
Qed.
#[export] Hint Resolve ids_keeps_balloc : ids_keeps.
Lemma ids_keeps_bmap ip bn : keeps_ids (bmap ip bn).
Proof. unfold bmap. keeps. Qed.
Lemma ids_keeps_either_copyout u dst b off len : keeps_ids (either_copyout u dst b off len).
Proof. unfold either_copyout. keeps. Qed.
Lemma ids_keeps_either_copyin b off u src len : keeps_ids (either_copyin b off u src len).
Proof. unfold either_copyin. keeps. Qed.
#[export] Hint Resolve ids_keeps_bmap ids_keeps_either_copyout ids_keeps_either_copyin : ids_keeps.

(** The operations on a locked inode keep the table's references. *)
Lemma ids_keeps_readi ip u dst off n : keeps_ids (readi ip u dst off n).
Proof.
  assert (forall fuel dst off n tot, keeps_ids (readi_loop fuel ip u dst off n tot)) as H.
  { induction fuel as [|fuel IH]; intros; cbn [readi_loop]; [done|]. keeps. }
  unfold readi. keeps.
Qed.
Lemma ids_keeps_writei ip u src off n : keeps_ids (writei ip u src off n).
Proof.
  assert (forall fuel src off n tot, keeps_ids (writei_loop fuel ip u src off n tot)) as H.
  { induction fuel as [|fuel IH]; intros; cbn [writei_loop]; [done|]. keeps. }
  unfold writei. keeps. destruct a0. keeps.
Qed.
Lemma ids_keeps_ilock ip : keeps_ids (ilock ip).
Proof. unfold ilock. keeps. Qed.
Lemma ids_keeps_iunlock ip : keeps_ids (iunlock ip).
Proof. unfold iunlock. keeps. Qed.

(** ** iget's search *)

Definition matches (t : Z -> inode) (dev inum j : Z) : Prop := 0 < i_ref (t j) /\ i_dev (t j) = dev /\ i_inum (t j) = inum.

Lemma iget_scan_ok n : forall i empty dev inum t,
  0 <= i -> (empty <> null -> 0 <= empty < i /\ i_ref (t empty) = 0) ->
  match iget_scan n i empty dev inum t with
  | inl j => i <= j < i + Z.of_nat n /\ matches t dev inum j
  | inr e => (forall j, i <= j < i + Z.of_nat n -> ~ matches t dev inum j) /\
             (e <> null -> 0 <= e < i + Z.of_nat n /\ i_ref (t e) = 0) /\
             (e = null -> empty = null /\ forall j, i <= j < i + Z.of_nat n -> i_ref (t j) <> 0)
  end.
Proof.
  induction n as [|n IH]; intros i empty dev inum t Hi He; cbn [iget_scan].
  { split; [intros; lia|]. split; [intros H; specialize (He H); lia|]. split; [done|intros; lia]. }
  destruct ((0 <? i_ref (t i)) && (i_dev (t i) =? dev) && (i_inum (t i) =? inum)) eqn:Em.
  { apply andb_true_iff in Em as [[H1%Z.ltb_lt H2%Z.eqb_eq]%andb_true_iff H3%Z.eqb_eq]. split; [lia|done]. }
  assert (~ matches t dev inum i) as Hno.
  { intros (H1 & H2 & H3). rewrite (proj2 (Z.ltb_lt _ _) H1), H2, H3, !Z.eqb_refl in Em. done. }
  set (e' := if (empty =? null) && (i_ref (t i) =? 0) then i else empty).
  assert (e' <> null -> 0 <= e' < i + 1 /\ i_ref (t e') = 0) as He'.
  { subst e'. destruct (Z.eqb_spec empty null) as [->|H1], (Z.eqb_spec (i_ref (t i)) 0); cbn [andb]; try done;
      intros _; try specialize (He H1); lia. }
  specialize (IH (i + 1) e' dev inum t ltac:(lia) He'). destruct (iget_scan n (i + 1) e' dev inum t) as [j|e].
  - destruct IH as [H1 H2]. split; [lia|done].
  - destruct IH as (H1 & H2 & H3). split; [intros j Hj; destruct (Z.eq_dec j i) as [->|]; [done|apply H1; lia]|].
    split; [intros H; specialize (H2 H); lia|]. intros H. destruct (H3 H) as [H4 H5]. subst e'.
    destruct (Z.eqb_spec empty null) as [->|], (Z.eqb_spec (i_ref (t i)) 0); cbn [andb] in H4; try (unfold null in *; lia).
    split; [done|]. intros j Hj. destruct (Z.eq_dec j i) as [->|]; [done|apply H5; lia].
Qed.

(** What iget does to the table. *)
Lemma iget_ids dev inum s ip s' :
  iget dev inum s = Ret ip s' ->
  0 <= ip < NINODE /\ (forall j, j <> ip -> ids (fs_itable s') j = ids (fs_itable s) j) /\
  i_dev (fs_itable s' ip) = dev /\ i_inum (fs_itable s' ip) = inum /\
  (matches (fs_itable s) dev inum ip /\ i_ref (fs_itable s' ip) = s32 (i_ref (fs_itable s ip) + 1) \/
   (forall j, 0 <= j < NINODE -> ~ matches (fs_itable s) dev inum j) /\ i_ref (fs_itable s ip) = 0 /\ i_ref (fs_itable s' ip) = 1).
Proof.
  unfold iget. intros ([] & s1 & E1 & H)%bind_inv.
  assert (fs_itable s1 = fs_itable s) as T1 by (unfold lift in E1; destruct (acquire L_itable (view s)); inversion E1; done).
  rewrite bind_gets, T1 in H. pose proof (iget_scan_ok (Z.to_nat NINODE) 0 null dev inum (fs_itable s) ltac:(lia) ltac:(done)) as Hs.
  rewrite Z2Nat.id, Z.add_0_l in Hs by done. destruct (iget_scan _ _ _ _ _ _) as [j|e].
  - destruct Hs as [Hj Hm]. rewrite (bind_Ret _ _ _ _ _ (eq_refl : modi _ _ _ = _)) in H. apply bind_inv in H as ([] & s2 & E2 & [= <- <-]).
    assert (fs_itable s2 = upd (fs_itable s1) j (set_iref (s32 (i_ref (fs_itable s1 j) + 1)) (fs_itable s1 j))) as T2
      by (unfold lift in E2; destruct (release L_itable _); inversion E2; done).
    rewrite T2, T1, upd_eq. split; [done|]. split; [intros k Hk; unfold ids; by rewrite upd_ne|]. destruct Hm as (H1 & H2 & H3). cbn.
    split; [done|]. split; [done|]. left. done.
  - destruct Hs as (H1 & H2 & H3). destruct (Z.eqb_spec e null) as [|He]; [done|]. destruct (H2 He) as [He1 He2].
    rewrite (bind_Ret _ _ _ _ _ (eq_refl : modi _ _ _ = _)) in H. apply bind_inv in H as ([] & s2 & E2 & [= <- <-]).
    match type of E2 with lift _ (set_itable ?t' _) = _ => assert (fs_itable s2 = t') as T2
      by (unfold lift in E2; destruct (release L_itable _); inversion E2; done) end.
    rewrite T2, T1, upd_eq. split; [done|]. split; [intros k Hk; unfold ids; by rewrite upd_ne|]. cbn. tauto.
Qed.

Lemma count_step {A} (c : M fss unit) ip (g : Z -> Z) (k : M fss A) s a s' :
  keeps_ids c -> keeps_ids k -> (c ;;; modi ip (fun i => set_iref (g (i_ref i)) i) ;;; k) s = Ret a s' ->
  (forall j, j <> ip -> ids (fs_itable s') j = ids (fs_itable s) j) /\
  ids (fs_itable s') ip = (g (i_ref (fs_itable s ip)), i_dev (fs_itable s ip), i_inum (fs_itable s ip)).
Proof.
  intros Hc Hk ([] & s1 & E1 & H)%bind_inv. rewrite (bind_Ret _ _ _ _ _ (eq_refl : modi _ _ _ = _)) in H. pose proof (Hc _ _ _ E1) as H1.
  split; [intros j Hj|]; rewrite (Hk _ _ _ H).
  - rewrite <- H1. unfold ids. cbn. by rewrite upd_ne.
  - pose proof (H1 ip) as H2. unfold ids in *. cbn. rewrite upd_eq. cbn. by inversion H2.
Qed.

Lemma idup_ids ip s r s' : idup ip s = Ret r s' ->
  r = ip /\ (forall j, j <> ip -> ids (fs_itable s') j = ids (fs_itable s) j) /\
  ids (fs_itable s') ip = (s32 (i_ref (fs_itable s ip) + 1), i_dev (fs_itable s ip), i_inum (fs_itable s ip)).
Proof.
  intros H. split.
  - unfold idup in H. apply bind_inv in H as ([] & s1 & _ & H). apply bind_inv in H as ([] & s2 & _ & H). apply bind_inv in H as ([] & s3 & _ & H). by inversion H.
  - eapply (count_step _ ip (fun r => s32 (r + 1))); [| |exact H]; keeps.
Qed.

Lemma iput_ids ip s s' : iput ip s = Ret tt s' ->
  (forall j, j <> ip -> ids (fs_itable s') j = ids (fs_itable s) j) /\
  ids (fs_itable s') ip = (s32 (i_ref (fs_itable s ip) - 1), i_dev (fs_itable s ip), i_inum (fs_itable s ip)).
Proof.
  unfold iput. intros H.
  match type of H with bind ?a (fun _ => bind ?b (fun i => bind (@?w i) (fun _ => ?k))) s = _ =>
    apply (count_step (a ;;; i <- b ;; w i) ip (fun r => s32 (r - 1)) (lift (release L_itable)) s tt s') end;
    [keeps|keeps|]. rewrite bind_assoc in *. unfold bind in *. destruct (lift (acquire L_itable) s); try done.
Qed.

(** ** The table as a set of references *)

(** How many of the references [h] are to entry [j]. *)
Definition refs_to (j : Z) (h : list Z) : Z := Z.of_nat (length (base.filter (fun k => k = j) h)).

(** The kernel's inode operations, with the references they give out and take
    back; anything that keeps counts and identities may run in between. *)
Inductive inode_step : fss * list Z -> fss * list Z -> Prop :=
| st_iget s s' h inum ip : Z.of_nat (length h) < 2 ^ 31 - 1 -> iget ROOTDEV inum s = Ret ip s' -> inode_step (s, h) (s', ip :: h)
| st_idup s s' h ip r : Z.of_nat (length h) < 2 ^ 31 - 1 -> ip ∈ h -> idup ip s = Ret r s' -> inode_step (s, h) (s', r :: h)
| st_iput s s' h1 h2 ip : iput ip s = Ret tt s' -> inode_step (s, h1 ++ ip :: h2) (s', h1 ++ h2)
| st_other s s' h {A} (c : M fss A) a : keeps_ids c -> c s = Ret a s' -> inode_step (s, h) (s', h).

Record table_inv (t : Z -> inode) (h : list Z) : Prop := {
  ti_range : Forall (fun j => 0 <= j < NINODE) h;
  ti_ref : forall j, 0 <= j < NINODE -> i_ref (t j) = refs_to j h;
  ti_uniq : forall j k, 0 <= j < NINODE -> 0 <= k < NINODE -> 0 < i_ref (t j) -> 0 < i_ref (t k) ->
    i_dev (t j) = i_dev (t k) -> i_inum (t j) = i_inum (t k) -> j = k
}.

Lemma refs_to_cons j k h : refs_to j (k :: h) = (if decide (k = j) then 1 else 0) + refs_to j h.
Proof. unfold refs_to. rewrite filter_cons. case_decide; cbn [length]; lia. Qed.
Lemma refs_to_del j k h1 h2 : refs_to j (h1 ++ k :: h2) = (if decide (k = j) then 1 else 0) + refs_to j (h1 ++ h2).
Proof. unfold refs_to. rewrite !filter_app, filter_cons, !length_app. case_decide; cbn [length]; lia. Qed.
Lemma refs_to_pos j h : j ∈ h -> 0 < refs_to j h.
Proof. intros (h1 & h2 & ->)%list_elem_of_split. rewrite refs_to_del, decide_True by done. unfold refs_to. lia. Qed.
Lemma refs_to_bound j h : 0 <= refs_to j h <= Z.of_nat (length h).
Proof. unfold refs_to. pose proof (length_filter (fun k => k = j) h). lia. Qed.

(** A count moves, the rest stays. *)
Lemma table_inv_count t t' h h' ip :
  table_inv t h -> 0 <= ip < NINODE -> (forall j, j <> ip -> ids t' j = ids t j) ->
  (0 < i_ref (t' ip) -> 0 < i_ref (t ip) \/ (forall j, 0 <= j < NINODE -> ~ matches t (i_dev (t' ip)) (i_inum (t' ip)) j)) ->
  (0 < i_ref (t ip) -> i_dev (t' ip) = i_dev (t ip) /\ i_inum (t' ip) = i_inum (t ip)) ->
  Forall (fun j => 0 <= j < NINODE) h' -> i_ref (t' ip) = refs_to ip h' -> (forall j, j <> ip -> refs_to j h' = refs_to j h) ->
  table_inv t' h'.
Proof.
  intros [R1 R2 R3] Hip Ho Hnew Hid Hr Hc Hs.
  assert (forall j, j <> ip -> i_ref (t' j) = i_ref (t j) /\ i_dev (t' j) = i_dev (t j) /\ i_inum (t' j) = i_inum (t j)) as Ho'.
  { intros j Hj. specialize (Ho j Hj). unfold ids in Ho. by inversion Ho. }
  assert (forall k, k <> ip -> 0 <= k < NINODE -> 0 < i_ref (t' ip) -> 0 < i_ref (t' k) -> i_dev (t' ip) = i_dev (t' k) ->
    i_inum (t' ip) = i_inum (t' k) -> False) as Hx.
  { intros k Hk Hkr H1 H2 H3 H4. destruct (Ho' k Hk) as (O1 & O2 & O3). rewrite O1 in H2. rewrite O2 in H3. rewrite O3 in H4.
    destruct (Hnew H1) as [H5|H5].
    - destruct (Hid H5) as [H6 H7]. apply Hk. symmetry. apply R3; try done; congruence.
    - apply (H5 k Hkr). split; [done|]. split; congruence. }
  split; [done| |].
  - intros j Hj. destruct (Z.eq_dec j ip) as [->|Hne]; [done|]. destruct (Ho' j Hne) as (-> & _). rewrite Hs by done. by apply R2.
  - intros j k Hj Hk H1 H2 H3 H4. destruct (Z.eq_dec j ip) as [->|Hj'], (Z.eq_dec k ip) as [->|Hk']; [done| | |].
    + exfalso. by apply (Hx k).
    + exfalso. by apply (Hx j).
    + destruct (Ho' j Hj') as (O1 & O2 & O3), (Ho' k Hk') as (P1 & P2 & P3). apply R3; congruence.
Qed.

Lemma refs_to_ne j k h : k <> j -> refs_to j (k :: h) = refs_to j h.
Proof. intros H. rewrite refs_to_cons, decide_False by done. lia. Qed.
Lemma refs_to_eq j h : refs_to j (j :: h) = 1 + refs_to j h.
Proof. by rewrite refs_to_cons, decide_True. Qed.

Lemma iget_inv s h dev inum ip s' :
  table_inv (fs_itable s) h -> Z.of_nat (length h) < 2 ^ 31 - 1 -> iget dev inum s = Ret ip s' -> table_inv (fs_itable s') (ip :: h).
Proof.
  intros Hi Hl (Hip & Ho & Hd & Hn & Hc)%iget_ids. pose proof (refs_to_bound ip h) as Hb. pose proof (ti_ref _ _ Hi ip Hip) as Hr.
  apply (table_inv_count (fs_itable s) _ h _ ip); try done.
  - intros _. destruct Hc as [[[? _] _]|[H _]]; [by left|right]. by rewrite Hd, Hn.
  - intros H0. destruct Hc as [[(_ & H1 & H2) _]|(_ & H & _)]; [split; congruence|lia].
  - constructor; [done|apply (ti_range _ _ Hi)].
  - rewrite refs_to_eq. destruct Hc as [[_ ->]|(_ & H1 & ->)]; [rewrite Hr, s32_small by lia; lia|lia].
  - intros j Hj. by apply refs_to_ne.
Qed.

Lemma idup_inv s h ip r s' :
  table_inv (fs_itable s) h -> Z.of_nat (length h) < 2 ^ 31 - 1 -> ip ∈ h -> idup ip s = Ret r s' -> table_inv (fs_itable s') (r :: h).
Proof.
  intros Hi Hl Hin (-> & Ho & Hd)%idup_ids. pose proof (proj1 (Forall_forall _ _) (ti_range _ _ Hi) ip Hin) as Hip.
  pose proof (refs_to_bound ip h) as Hb. pose proof (ti_ref _ _ Hi ip Hip) as Hr. pose proof (refs_to_pos _ _ Hin) as Hp.
  unfold ids in Hd. inversion Hd as [[D1 D2 D3]]. rewrite s32_small in D1 by lia.
  apply (table_inv_count (fs_itable s) _ h _ ip); try done.
  - intros _. left. lia.
  - constructor; [done|apply (ti_range _ _ Hi)].
  - rewrite refs_to_eq. lia.
  - intros j Hj. by apply refs_to_ne.
Qed.

Lemma iput_inv s h1 h2 ip s' :
  table_inv (fs_itable s) (h1 ++ ip :: h2) -> Z.of_nat (length (h1 ++ h2)) < 2 ^ 31 -> iput ip s = Ret tt s' -> table_inv (fs_itable s') (h1 ++ h2).
Proof.
  intros Hi Hl (Ho & Hd)%iput_ids. pose proof (ti_range _ _ Hi) as Hf. rewrite Forall_app, Forall_cons in Hf. destruct Hf as (F1 & Hip & F2).
  pose proof (refs_to_bound ip (h1 ++ h2)) as Hb. pose proof (ti_ref _ _ Hi ip Hip) as Hr. rewrite refs_to_del, decide_True in Hr by done.
  unfold ids in Hd. inversion Hd as [[D1 D2 D3]]. rewrite s32_small in D1 by lia.
  apply (table_inv_count (fs_itable s) _ (h1 ++ ip :: h2) _ ip); try done.
  - intros _. left. lia.
  - by rewrite Forall_app.
  - lia.
  - intros j Hj. by rewrite refs_to_del, decide_False.
Qed.

Lemma inode_step_inv x y :
  inode_step x y -> table_inv (fs_itable (Datatypes.fst x)) (snd x) -> Z.of_nat (length (snd x)) < 2 ^ 31 ->
  table_inv (fs_itable (Datatypes.fst y)) (snd y) /\ Z.of_nat (length (snd y)) < 2 ^ 31.
Proof.
  intros [s s' h inum ip Hl E|s s' h ip r Hl Hin E|s s' h1 h2 ip E|s s' h A c a Hk E]; cbn [Datatypes.fst snd]; intros Hi Hlen.
  - split; [by eapply iget_inv|cbn [length]; lia].
  - split; [by eapply idup_inv|cbn [length]; lia].
  - rewrite !length_app in *. cbn [length] in Hlen. split; [|lia]. eapply iput_inv; [done| |done]. rewrite length_app. lia.
  - split; [|done]. pose proof (Hk _ _ _ E) as H. destruct Hi as [R1 R2 R3].
    assert (forall j, i_ref (fs_itable s' j) = i_ref (fs_itable s j) /\ i_dev (fs_itable s' j) = i_dev (fs_itable s j) /\
      i_inum (fs_itable s' j) = i_inum (fs_itable s j)) as H' by (intros j; specialize (H j); unfold ids in H; by inversion H).
    split; [done|intros j Hj; rewrite (proj1 (H' j)); auto|]. intros j k Hj Hk'.
    destruct (H' j) as (-> & -> & ->), (H' k) as (-> & -> & ->). auto.
Qed.

Lemma table_inv_reach s0 s h :
  (forall j, 0 <= j < NINODE -> i_ref (fs_itable s0 j) = 0) -> rtc inode_step (s0, []) (s, h) ->
  table_inv (fs_itable s) h /\ Z.of_nat (length h) < 2 ^ 31.
Proof.
  intros H0 Hr. change (table_inv (fs_itable (Datatypes.fst (s, h))) (snd (s, h)) /\ Z.of_nat (length (snd (s, h))) < 2 ^ 31). revert Hr.
  apply (rtc_ind_r (fun x => table_inv (fs_itable (Datatypes.fst x)) (snd x) /\ Z.of_nat (length (snd x)) < 2 ^ 31)).
  - cbn. split; [|lia]. split; [constructor|done|]. intros j k Hj _ H. rewrite H0 in H by done. lia.
  - intros x y _ Hst [IH1 IH2]. by eapply inode_step_inv.
Qed.

Lemma iget_full dev inum s s' : iget dev inum s = Panic "iget: no inodes" s' -> forall j, 0 <= j < NINODE -> i_ref (fs_itable s j) <> 0.
Proof.
  intros Hp j Hj. unfold iget, bind, lift, acquire in Hp. destruct (decide _); [done|]. cbn [view update fss_lk gets fs_itable] in Hp. cbn in Hp.
  pose proof (iget_scan_ok (Z.to_nat NINODE) 0 null dev inum (fs_itable s) ltac:(lia) ltac:(done)) as Hs.
  rewrite Z2Nat.id, Z.add_0_l in Hs by done. destruct (iget_scan _ _ _ _ _ _) as [k|e].
  - cbn in Hp. unfold release in Hp. by destruct (decide _).
  - destruct (Z.eqb_spec e null) as [He|He]; [by apply Hs|]. cbn in Hp. unfold release in Hp. by destruct (decide _).
Qed.

Lemma refs_to_in j h : refs_to j h <> 0 -> j ∈ h.
Proof.
  intros H. unfold refs_to in H. destruct (base.filter (fun k => k = j) h) as [|k l] eqn:E; [done|].
  assert (k ∈ base.filter (fun k => k = j) h) as Hk by (rewrite E; left). by apply list_elem_of_filter in Hk as [-> ?].
Qed.

(** C12: Every inode in use has exactly one entry in memory, and its count is the
    number of references handed out.  From an empty table, after any sequence of
    iget, idup and iput calls (and any code in between that keeps counts, such as
    ilock, readi, writei, itrunc and iunlock): an entry's ref is the number of
    references held to it; two references to the same inode are the same
    entry; iget for an inode somebody references returns that entry; and
    iget panics with no inodes only when all NINODE entries are referenced. *)
Theorem itable_one_entry_per_inode s0 s h :
  (forall j, 0 <= j < NINODE -> i_ref (fs_itable s0 j) = 0) -> rtc inode_step (s0, []) (s, h) ->
  (forall j, 0 <= j < NINODE -> i_ref (fs_itable s j) = refs_to j h) /\
  (forall ip ip', ip ∈ h -> ip' ∈ h -> i_dev (fs_itable s ip) = i_dev (fs_itable s ip') ->
     i_inum (fs_itable s ip) = i_inum (fs_itable s ip') -> ip = ip') /\
  (forall ip r s', ip ∈ h -> i_dev (fs_itable s ip) = ROOTDEV -> iget ROOTDEV (i_inum (fs_itable s ip)) s = Ret r s' -> r = ip) /\
  (forall inum s', iget ROOTDEV inum s = Panic "iget: no inodes" s' -> forall j, 0 <= j < NINODE -> j ∈ h).
Proof.
  intros H0 Hr. destruct (table_inv_reach s0 s h H0 Hr) as [[R1 R2 R3] _]. rewrite Forall_forall in R1.
  assert (forall ip, ip ∈ h -> 0 < i_ref (fs_itable s ip)) as Hpos by (intros ip Hin; rewrite R2 by auto; by apply refs_to_pos).
  split; [done|]. split; [intros ip ip' H1 H2; apply R3; auto|]. split.
  - intros ip r s' Hin Hd (Hr1 & _ & _ & _ & Hc)%iget_ids. destruct Hc as [[(M1 & M2 & M3) _]|[Hno _]].
    + apply R3; auto; congruence.
    + exfalso. apply (Hno ip); [auto|]. split; [auto|done].
  - intros inum s' Hp j Hj. apply refs_to_in. rewrite <- R2 by done. by eapply iget_full.
Qed.

(** Two references to inode 5, one of them dropped, one to inode 7. *)
Lemma itable_one_entry_per_inode_witness :
  let s0 := fresh_fss (mkLst (cold_cache (fun _ => zero_block)) boot_log) (mkSb FSMAGIC 2000 1954 200 30 2 32 45) in
  exists s, rtc inode_step (s0, []) (s, [1; 0]) /\ i_ref (fs_itable s 0) = 1 /\ i_ref (fs_itable s 1) = 1 /\
    (forall r s', iget ROOTDEV 7 s = Ret r s' -> r = 1).
Proof.
  set (s0 := fresh_fss _ _).
  assert (returns ((a <- iget ROOTDEV 5 ;; b <- iget ROOTDEV 5 ;; iput b ;;; c <- iget ROOTDEV 7 ;;
    t <- gets fs_itable ;; ret (a, b, c, i_ref (t 0), (i_dev (t 1), i_inum (t 1)))) s0) = Some (0, 0, 1, 1, (ROOTDEV, 7))) as Hp by (vm_compute; reflexivity).
  apply returns_Ret in Hp as (s & (a & s1 & E1 & (b & s2 & E2 & ([] & s3 & E3 & (c & s4 & E4 & H)%bind_inv)%bind_inv)%bind_inv)%bind_inv).
  rewrite bind_gets in H. injection H as -> -> -> _ Hd Hn <-. assert (rtc inode_step (s0, []) (s4, [1; 0])) as Hr.
  { apply (rtc_l _ _ (s1, [0])); [by apply (st_iget _ _ _ 5)|]. apply (rtc_l _ _ (s2, [0; 0])); [by apply (st_iget _ _ _ 5)|].
    apply (rtc_l _ _ (s3, [0])); [by apply (st_iput _ _ [] [0])|]. apply rtc_once. by apply (st_iget _ _ _ 7). }
  destruct (itable_one_entry_per_inode s0 s4 [1; 0]) as (R1 & _ & R3 & _); [by intros j Hj|exact Hr|].
  exists s4. split; [exact Hr|]. split; [rewrite R1 by (unfold NINODE; lia); reflexivity|].
  split; [rewrite R1 by (unfold NINODE; lia); reflexivity|]. intros r s' E. apply (R3 1 r s'); [left|exact Hd|]. rewrite Hn. exact E.
Defined.
