(* ===== verification/FsFile.v ===== *)
(** * Files: bmap, readi and writei

    The blocks of a file are a map from block numbers in the file to block
    numbers on the disk, which the inode's addresses and its indirect block
    represent.  bmap extends the map, and readi and writei act on the file as on
    an array of bytes. *)
From stdpp Require Import strings.
From S2P Require Import Prelude Mem StringC Kalloc Page Vm Locks Bio Log Fs FsTxn FsAlloc FsInode.
From Stdlib Require Import ZArith Lia.
Local Open Scope list_scope.
Local Open Scope Z_scope.
Local Open Scope kernel_scope.

Section layout.
Context (start size : Z) (Hstart : 0 <= start) (Hsize : 0 < size) (Hend : start + size < 2 ^ 31).
Context (sb : superblock) (first : Z) (Hg : geometry start size sb first).

Abbreviation txn := (txn_at start size 1).
Abbreviation room := (FsTxn.room size).
Abbreviation used := (used sb).
Abbreviation bb := (bb sb).

Definition datab (n : Z) : Prop := first <= n < sb_size sb.
Definition is_bitmap (n : Z) : Prop := exists b, 0 <= b < sb_size sb /\ bb b = n.

(** ** Changes of the contents that respect blocks in use *)

(** From [v] to [v'] blocks were only allocated, and of the blocks in use only
    those of [P] and the bitmap changed. *)
Record grows (P : Z -> Prop) (v v' : Z -> block) : Prop := {
  gr_used : forall b, 0 <= b < sb_size sb -> used v b = true -> used v' b = true;
  gr_same : forall n, ~ is_bitmap n -> (datab n -> used v n = true) -> ~ P n -> v' n = v n
}.

Lemma grows_refl P v : grows P v v.
Proof. done. Qed.

Lemma grows_trans P v1 v2 v3 : grows P v1 v2 -> grows P v2 v3 -> grows P v1 v3.
Proof using Hg.
  intros [U1 S1] [U2 S2]. split; [auto|]. intros n Hb Hu Hp. rewrite S2, S1; auto.
  intros Hd. apply U1; [|auto]. pose proof (ge_first _ _ _ _ Hg). unfold datab in Hd. lia.
Qed.

Lemma grows_mono (P Q : Z -> Prop) v v' : (forall n, P n -> Q n) -> grows P v v' -> grows Q v v'.
Proof. intros H [U S]. split; [done|]. intros n Hb Hu Hq. apply S; auto. Qed.

Lemma grows_meta P v v' : grows P v v' -> meta_used sb first v -> meta_used sb first v'.
Proof using Hg. intros [U _] Hm b Hb. pose proof (ge_first _ _ _ _ Hg). apply U; [lia|auto]. Qed.

Lemma data_not_bitmap n : first <= n -> ~ is_bitmap n.
Proof using Hg. intros H (b & Hb & <-). pose proof (bb_range start size sb first Hg b Hb). lia. Qed.

Lemma grows_alloc P v r : datab r -> used v r = false -> grows P v (alloc_block sb v r).
Proof using Hg.
  intros Hr Hu. pose proof (ge_first _ _ _ _ Hg). unfold datab in Hr. split.
  - intros b Hb Hub. rewrite (used_alloc start size) with (first := first) by done. by destruct (b =? r).
  - intros n Hb Hd _. unfold alloc_block. rewrite upd_ne, upd_ne; [done| |].
    + intros ->. apply Hb. exists r. split; [lia|done].
    + intros ->. rewrite Hd in Hu by done. done.
Qed.

Lemma used_upd v n c b : first <= n -> 0 <= b < sb_size sb -> used (upd v n c) b = used v b.
Proof using Hg. intros Hn Hb. pose proof (bb_range start size sb first Hg b Hb). unfold FsAlloc.used. by rewrite upd_ne by lia. Qed.

Lemma grows_upd (P : Z -> Prop) v n c : first <= n -> P n -> grows P v (upd v n c).
Proof using Hg.
  intros Hn Hp. split; [intros b Hb; by rewrite used_upd|]. intros m _ _ Hm. rewrite upd_ne; [done|]. by intros ->.
Qed.

(** ** The block map of an inode *)

Record imap (v : Z -> block) (i : inode) (f : Z -> Z) (ind : Z) : Prop := {
  im_dev : i_dev i = ROOTDEV;
  im_len : length (i_addrs i) = 13%nat;
  im_direct : forall bn, 0 <= bn < NDIRECT -> znth (i_addrs i) bn = Some (f bn);
  im_ind : znth (i_addrs i) NDIRECT = Some ind;
  im_indirect : forall j, 0 <= j < NINDIRECT -> f (NDIRECT + j) = if ind =? 0 then 0 else ld32 (v ind) (4 * j);
  im_data : forall bn, 0 <= bn < MAXFILE -> f bn <> 0 -> datab (f bn) /\ used v (f bn) = true /\ f bn <> ind;
  im_ind_data : ind <> 0 -> datab ind /\ used v ind = true;
  im_inj : forall bn bn', 0 <= bn < MAXFILE -> 0 <= bn' < MAXFILE -> f bn <> 0 -> f bn = f bn' -> bn = bn'
}.

(** [r] may become a block of the file. *)
Record fresh_block (v : Z -> block) (f : Z -> Z) (ind r : Z) : Prop := {
  fb_data : datab r;
  fb_used : used v r = true;
  fb_ind : r <> ind;
  fb_new : forall bn, 0 <= bn < MAXFILE -> f bn <> r
}.

Lemma datab_nonzero n : datab n -> n <> 0.
Proof using Hg. pose proof (ge_first _ _ _ _ Hg). unfold datab. lia. Qed.
Lemma datab_used n : datab n -> 0 <= n < sb_size sb.
Proof using Hg. pose proof (ge_first _ _ _ _ Hg). unfold datab. lia. Qed.

Lemma imap_frame v v' i f ind :
  imap v i f ind -> (ind <> 0 -> v' ind = v ind) -> (forall b, 0 <= b < sb_size sb -> used v b = true -> used v' b = true) ->
  imap v' i f ind.
Proof using Hg.
  intros [D L I1 I2 I3 I4 I5 I6] Hv Hu. split; try done.
  - intros j Hj. rewrite I3 by done. destruct (Z.eqb_spec ind 0); [done|]. by rewrite Hv.
  - intros bn Hb Hf. destruct (I4 bn Hb Hf) as (H1 & H2 & H3). split_and!; [done| |done]. apply Hu; [by apply datab_used|done].
  - intros Hi. destruct (I5 Hi) as [H1 H2]. split; [done|]. apply Hu; [by apply datab_used|done].
Qed.

Lemma imap_grows P v v' i f ind : imap v i f ind -> grows P v v' -> ~ P ind -> imap v' i f ind.
Proof using Hg.
  intros Hi [U S] Hp. apply (imap_frame v); [done| |done]. intros H0. destruct (im_ind_data _ _ _ _ Hi H0) as [[H1 H2] H3].
  apply S; [by apply data_not_bitmap|done|done].
Qed.

Lemma imap_alloc v i f ind r : imap v i f ind -> datab r -> used v r = false ->
  imap (alloc_block sb v r) i f ind /\ fresh_block (alloc_block sb v r) f ind r.
Proof using Hg.
  intros Hi Hr Hu. split; [apply (imap_grows (fun _ => False) v); [done|by apply grows_alloc|by intros []]|]. split.
  - done.
  - rewrite (used_alloc start size) with (first := first) by (done || by apply datab_used). by rewrite Z.eqb_refl.
  - intros ->. destruct (im_ind_data _ _ _ _ Hi) as [_ H]; [by apply datab_nonzero|]. by rewrite H in Hu.
  - intros bn Hb <-. destruct (im_data _ _ _ _ Hi bn Hb) as (_ & H & _); [by apply datab_nonzero|]. by rewrite H in Hu.
Qed.

Lemma nonzero_upd f bn r : f bn = 0 -> (forall bn', 0 <= bn' < MAXFILE -> f bn' <> r) -> forall b b', 0 <= b < MAXFILE -> 0 <= b' < MAXFILE ->
  (f b <> 0 -> f b = f b' -> b = b') -> upd f bn r b <> 0 -> upd f bn r b = upd f bn r b' -> b = b'.
Proof.
  intros H0 Hr b b' Hb Hb' Hi Hn He. destruct (Z.eq_dec b bn) as [->|Nb], (Z.eq_dec b' bn) as [->|Nb']; [done| | |].
  - rewrite upd_eq, upd_ne in He by done. by destruct (Hr b' Hb').
  - rewrite upd_eq, upd_ne in He by done. by destruct (Hr b Hb).
  - rewrite !upd_ne in * by done. auto.
Qed.

Lemma upd_case {A} (P : A -> Prop) f bn (r : A) b : P r -> (b <> bn -> P (f b)) -> P (upd f bn r b).
Proof. intros H1 H2. destruct (Z.eq_dec b bn) as [->|]; [by rewrite upd_eq|rewrite upd_ne by done; auto]. Qed.

(** The three ways bmap extends the map. *)
Lemma imap_direct v i f ind bn r :
  imap v i f ind -> 0 <= bn < NDIRECT -> f bn = 0 -> fresh_block v f ind r ->
  imap v (set_iaddrs (<[Z.to_nat bn := r]> (i_addrs i)) i) (upd f bn r) ind.
Proof using Hg.
  intros [D L I1 I2 I3 I4 I5 I6] Hb H0 [F1 F2 F3 F4].
  assert (zset (i_addrs i) bn r = Some (<[Z.to_nat bn := r]> (i_addrs i))) as Hz
    by (apply zset_Some; rewrite L; unfold NDIRECT in Hb; lia).
  split; cbn [i_dev i_addrs set_iaddrs]; try done.
  - by rewrite length_insert.
  - intros b Hb'. destruct (Z.eq_dec b bn) as [->|Hne]; [rewrite upd_eq; by eapply znth_zset_eq|].
    rewrite upd_ne by done. rewrite (znth_zset_ne _ _ _ _ _ (not_eq_sym Hne) Hz). by apply I1.
  - rewrite (znth_zset_ne (i_addrs i) _ bn _ r) by (done || lia). done.
  - intros j Hj. rewrite upd_ne by lia. by apply I3.
  - intros b Hb' Hn. apply (upd_case (fun x => datab x /\ used v x = true /\ x <> ind)); [done|].
    intros Hne. rewrite upd_ne in Hn by done. by apply I4.
  - intros b b' Hb1 Hb2. apply nonzero_upd; auto.
Qed.

Lemma imap_indirect v i f r :
  imap v i f 0 -> fresh_block v f 0 r -> (forall o, 0 <= o < BSIZE -> v r o = 0) ->
  imap v (set_iaddrs (<[Z.to_nat NDIRECT := r]> (i_addrs i)) i) f r.
Proof using Hg.
  intros [D L I1 I2 I3 I4 I5 I6] [F1 F2 F3 F4] Hz.
  assert (zset (i_addrs i) NDIRECT r = Some (<[Z.to_nat NDIRECT := r]> (i_addrs i))) as Hs by (apply zset_Some; rewrite L; unfold NDIRECT; lia).
  split; cbn [i_dev i_addrs set_iaddrs]; try done.
  - by rewrite length_insert.
  - intros b Hb. rewrite (znth_zset_ne (i_addrs i) _ NDIRECT _ r) by (done || lia). by apply I1.
  - by eapply znth_zset_eq.
  - intros j Hj. rewrite I3 by done. destruct (Z.eqb_spec r 0) as [->|_]; [done|]. cbn [Z.eqb]. symmetry.
    change NINDIRECT with 256 in Hj. change BSIZE with 1024 in Hz. rewrite (ldn_ext 4 _ (fun _ => 0)) by (intros; apply Hz; lia). done.
  - intros bn Hb Hn. destruct (I4 bn Hb Hn) as (H1 & H2 & H3). split_and!; [done|done|by apply F4].
Qed.

Lemma imap_entry v i f ind j r :
  imap v i f ind -> ind <> 0 -> 0 <= j < NINDIRECT -> f (NDIRECT + j) = 0 -> fresh_block v f ind r ->
  imap (upd v ind (st32 (v ind) (4 * j) r)) i (upd f (NDIRECT + j) r) ind.
Proof using Hg.
  intros [D L I1 I2 I3 I4 I5 I6] Hn0 Hj H0 [F1 F2 F3 F4]. destruct (I5 Hn0) as [[H1 H2] H3].
  assert (forall b, datab b -> used (upd v ind (st32 (v ind) (4 * j) r)) b = used v b) as Hu
    by (intros b Hb; apply used_upd; [done|by apply datab_used]).
  pose proof (ge_size _ _ _ _ Hg) as Hsz. pose proof (ge_first _ _ _ _ Hg) as Hf1. split; try done.
  - intros b Hb. rewrite upd_ne by lia. by apply I1.
  - intros k Hk. destruct (Z.eqb_spec ind 0) as [|_]; [done|]. rewrite upd_eq. destruct (Z.eq_dec k j) as [->|Hne].
    + rewrite upd_eq, ldn_stn_eq. symmetry. apply Z.mod_small. unfold datab in F1. change (2 ^ (8 * Z.of_nat 4)) with (2 ^ 32). lia.
    + rewrite upd_ne by lia. rewrite ldn_stn_ne by lia. by rewrite I3 by done.
  - intros b Hb Hn. apply (upd_case (fun x => datab x /\ used _ x = true /\ x <> ind)); [rewrite Hu; done|].
    intros Hne. rewrite upd_ne in Hn by done. destruct (I4 b Hb Hn) as (A1 & A2 & A3). by rewrite Hu.
  - intros _. by rewrite Hu.
  - intros b b' Hb1 Hb2. apply nonzero_upd; auto.
Qed.

(** ** Log space, the bitmap counted once *)

Definition bitmaps : gset Z := list_to_set (map (fun k => sb_bmapstart sb + k) (seqZ 0 ((sb_size sb - 1) / BPB + 1))).
Definition cost (blks : list Z) : Z := Z.of_nat (base.size (list_to_set blks ∪ bitmaps)).
Definition broom (blks : list Z) (k : Z) : Prop := cost blks + k < Z.min NBUF size.

Lemma bb_bitmaps b : 0 <= b < sb_size sb -> bb b ∈ bitmaps.
Proof.
  intros Hb. unfold bitmaps. rewrite elem_of_list_to_set, list_elem_of_fmap. exists (b / BPB). split; [done|].
  apply elem_of_seqZ. assert (0 <= b / BPB <= (sb_size sb - 1) / BPB); [|lia].
  split; [apply Z.div_pos|apply Z.div_le_mono]; unfold BPB, BSIZE; lia.
Qed.

Lemma add_block_set n blks : (list_to_set (add_block n blks) : gset Z) = {[n]} ∪ list_to_set blks.
Proof.
  apply set_eq. intros x. unfold add_block. rewrite elem_of_union, elem_of_singleton, !elem_of_list_to_set.
  case_decide as H; [|rewrite elem_of_app, list_elem_of_singleton; tauto]. split; [tauto|]. by intros [->|].
Qed.

Lemma cost_add n blks : cost (add_block n blks) <= cost blks + 1.
Proof.
  unfold cost. rewrite add_block_set, <- union_assoc_L. pose proof (size_union_alt {[n]} (list_to_set blks ∪ bitmaps) : _ = _) as H.
  rewrite H. pose proof (size_singleton (C := gset Z) n) as H1.
  enough (base.size ((list_to_set blks ∪ bitmaps : gset Z) ∖ {[n]}) <= base.size (list_to_set blks ∪ bitmaps : gset Z))%nat by lia.
  apply subseteq_size. by apply subseteq_difference_l.
Qed.

Lemma cost_bitmap b blks : 0 <= b < sb_size sb -> cost (add_block (bb b) blks) = cost blks.
Proof.
  intros Hb. unfold cost. rewrite add_block_set, <- union_assoc_L. f_equal. f_equal. apply subseteq_union_1_L, singleton_subseteq_l, elem_of_union_r. by apply bb_bitmaps.
Qed.

Lemma cost_alloc r blks : 0 <= r < sb_size sb -> cost (add_block r (add_block (bb r) blks)) <= cost blks + 1.
Proof. intros Hr. pose proof (cost_add r (add_block (bb r) blks)). rewrite cost_bitmap in H by done. done. Qed.

Lemma broom_room s v blks L k : txn s v blks L -> broom blks (k + Z.of_nat (base.size L)) -> room blks L k.
Proof.
  intros Ht Hb. pose proof (hl_nodup _ _ _ _ (ft_log _ _ _ _ _ _ _ Ht)) as Hn.
  assert (length blks <= base.size (list_to_set blks ∪ bitmaps : gset Z))%nat.
  { rewrite <- (size_list_to_set (C := gset Z) blks Hn). apply subseteq_size, union_subseteq_l. }
  unfold broom, cost, FsTxn.room in *. lia.
Qed.

(** ** bmap *)

(** Only inode [ip]'s addresses and size, memory, the cache and the log change. *)
Record iop (ip : Z) (s s' : fss) : Prop := {
  io_disk : same_disk s s';
  io_sb : fs_sb s' = fs_sb s;
  io_pagetable : fs_pagetable s' = fs_pagetable s;
  io_cwd : fs_cwd s' = fs_cwd s;
  io_bufaddr : fs_bufaddr s' = fs_bufaddr s;
  io_frame : fs_frame s' = fs_frame s;
  io_table : forall j, j <> ip -> fs_itable s' j = fs_itable s j;
  io_inode : exists l n, fs_itable s' ip = set_isize n (set_iaddrs l (fs_itable s ip))
}.

Lemma iop_rest ip s s' : same_rest s s' -> iop ip s s'.
Proof. intros [[l ->] D]. split; try done. cbn. exists (i_addrs (fs_itable s ip)), (i_size (fs_itable s ip)). by destruct (fs_itable s ip). Qed.
Lemma iop_refl ip s : iop ip s s.
Proof. apply iop_rest, same_rest_refl. Qed.
Lemma iop_trans ip s1 s2 s3 : iop ip s1 s2 -> iop ip s2 s3 -> iop ip s1 s3.
Proof.
  intros [A1 A2 A3 A4 A5 A6 A7 (l1 & n1 & A8)] [B1 B2 B3 B4 B5 B6 B7 (l2 & n2 & B8)]. split; try congruence.
  - by eapply same_disk_trans.
  - intros j Hj. by rewrite B7, A7.
  - exists l2, n2. rewrite B8, A8. done.
Qed.

Lemma iop_addrs ip s l : iop ip s (set_itable (upd (fs_itable s) ip (set_iaddrs l (fs_itable s ip))) s).
Proof.
  split; try done; cbn; [intros j Hj; by rewrite upd_ne|]. rewrite upd_eq. exists l, (i_size (fs_itable s ip)). by destruct (fs_itable s ip).
Qed.

Lemma get_addr_ok v ip f ind s bn : imap v (fs_itable s ip) f ind -> 0 <= bn < NDIRECT -> get_addr ip bn s = Ret (f bn) s.
Proof. intros Hi Hb. unfold get_addr, geti. rewrite bind_gets, (im_direct _ _ _ _ Hi bn Hb). done. Qed.
Lemma get_ind_ok v ip f ind s : imap v (fs_itable s ip) f ind -> get_addr ip NDIRECT s = Ret ind s.
Proof. intros Hi. unfold get_addr, geti. rewrite bind_gets, (im_ind _ _ _ _ Hi). done. Qed.
Lemma put_addr_ok ip n a s :
  length (i_addrs (fs_itable s ip)) = 13%nat -> 0 <= n <= NDIRECT ->
  put_addr ip n a s = Ret tt (set_itable (upd (fs_itable s) ip (set_iaddrs (<[Z.to_nat n := a]> (i_addrs (fs_itable s ip))) (fs_itable s ip))) s).
Proof. intros Hl Hn. unfold put_addr, geti. rewrite bind_gets, zset_Some by (rewrite Hl; unfold NDIRECT in Hn; lia). done. Qed.

(** balloc, as seen by the owner of a file. *)
Lemma balloc_for s v blks L i f ind :
  txn s v blks L -> fs_sb s = sb -> meta_used sb first v -> locked_ok sb v L -> broom blks (3 + Z.of_nat (base.size L)) -> imap v i f ind ->
  exists r s', balloc ROOTDEV s = Ret r s' /\ same_rest s s' /\ stays s s' (L ∪ list_to_set blks) /\
    ((r = 0 /\ (forall b, 0 <= b < sb_size sb -> used v b = true) /\ txn s' v blks L) \/
     (r <> 0 /\ exists v' blks', txn s' v' blks' L /\ imap v' i f ind /\ fresh_block v' f ind r /\ grows (fun _ => False) v v' /\
        used v r = false /\ (forall o, 0 <= o < BSIZE -> v' r o = 0) /\ cost blks' <= cost blks + 1)).
Proof using Hstart Hsize Hend Hg.
  intros Ht Hsb Hm Hl Hr Hi. pose proof (broom_room _ _ _ _ _ Ht Hr) as Hrm.
  destruct (balloc_ok start size Hstart Hsize Hend sb first Hg s v blks L Ht Hsb Hm Hl Hrm) as (r & s' & E & K & R & Hp).
  exists r, s'. split_and!; try done. case_decide as H0; [left; tauto|right]. split; [done|].
  destruct Hp as (Hd & Hu & _ & T). destruct (imap_alloc v i f ind r Hi Hd Hu) as [Hi' Hf].
  exists (alloc_block sb v r), (add_block r (add_block (bb r) blks)). split_and!; try done.
  - by apply grows_alloc.
  - intros o Ho. unfold alloc_block. rewrite upd_eq. by apply memset_zero.
  - apply cost_alloc. by apply datab_used.
Qed.

Lemma grows_fresh P r v v' : datab r -> used v r = false -> grows (fun n => P n \/ n = r) v v' -> grows P v v'.
Proof.
  intros Hr Hu [U S]. split; [done|]. intros n Hb Hd Hp. apply S; [done|done|]. intros [H| ->]; [done|]. by rewrite Hd in Hu.
Qed.

(** What bmap(ip, bn) leaves when it returns [a]: block [bn] of the file is [a],
    a new one is zero, 0 means a full disk, and nothing else of the file changed. *)
Record bmap_post (ip bn : Z) (s : fss) (v : Z -> block) (f : Z -> Z) (ind a : Z) (s' : fss) (v' : Z -> block) (f' : Z -> Z) (ind' : Z) : Prop := {
  bp_map : imap v' (fs_itable s' ip) f' ind';
  bp_addr : f' bn = a;
  bp_others : forall bn', bn' <> bn \/ f bn <> 0 -> f' bn' = f bn';
  bp_fresh : f bn = 0 -> a <> 0 -> used v a = false /\ forall o, 0 <= o < BSIZE -> v' a o = 0;
  bp_full : a = 0 -> forall b, 0 <= b < sb_size sb -> used v' b = true;
  bp_grows : grows (fun n => ind <> 0 /\ n = ind) v v';
  bp_size : i_size (fs_itable s' ip) = i_size (fs_itable s ip);
  bp_iop : iop ip s s';
  bp_phys : fs_phys s' = fs_phys s;
  bp_ind : ind' = ind \/ (ind = 0 /\ datab ind' /\ used v ind' = false)
}.

Lemma same_rest_size ip s s' : same_rest s s' -> i_size (fs_itable s' ip) = i_size (fs_itable s ip) /\ fs_phys s' = fs_phys s /\ fs_itable s' = fs_itable s.
Proof. by intros [[l ->] _]. Qed.

(** The block was there already. *)
Lemma bmap_post_old ip bn s v f ind s' :
  imap v (fs_itable s ip) f ind -> f bn <> 0 -> same_rest s s' -> bmap_post ip bn s v f ind (f bn) s' v f ind.
Proof.
  intros Hi Hn R. destruct (same_rest_size ip _ _ R) as (H1 & H2 & H3). split; try done; [by rewrite H3|by apply iop_rest|by left].
Qed.

Lemma bmap_direct s v blks ip bn f ind :
  txn s v blks ∅ -> fs_sb s = sb -> meta_used sb first v -> imap v (fs_itable s ip) f ind -> 0 <= bn < NDIRECT -> broom blks 3 ->
  exists a s' v' blks' f' ind', bmap ip bn s = Ret a s' /\ txn s' v' blks' ∅ /\ cost blks' <= cost blks + 2 /\
    bmap_post ip bn s v f ind a s' v' f' ind'.
Proof using Hstart Hsize Hend Hg.
  intros Ht Hsb Hm Hi Hb Hr. unfold bmap, geti. rewrite bind_gets. zb. rewrite (bind_Ret _ _ _ _ _ (get_addr_ok _ _ _ _ _ _ Hi Hb)).
  destruct (Z.eqb_spec (f bn) 0) as [H0|H0].
  2:{ exists (f bn), s, v, blks, f, ind. split_and!; [done|done|lia|]. by apply bmap_post_old, same_rest_refl. }
  rewrite (im_dev _ _ _ _ Hi).
  destruct (balloc_for s v blks ∅ (fs_itable s ip) f ind Ht Hsb Hm) as (r & s1 & E1 & R1 & _ & Hc); [by intros n ?%elem_of_empty|by rewrite size_empty|exact Hi|].
  rewrite (bind_Ret _ _ _ _ _ E1). destruct (same_rest_size ip _ _ R1) as (S1 & S2 & S3).
  destruct Hc as [(-> & Hfull & T)|(Hr0 & v' & blks' & T & Hi' & Hf & Hgr & Hu & Hz & Hc)].
  - exists 0, s1, v, blks, f, ind. split_and!; [done|done|lia|]. split; try done; [by rewrite S3|by apply iop_rest|by left].
  - rewrite (proj2 (Z.eqb_neq _ _) Hr0). rewrite <- S3 in Hi'.
    erewrite bind_Ret by (apply put_addr_ok; [apply (im_len _ _ _ _ Hi')|unfold NDIRECT in *; lia]).
    eexists r, _, v', blks', (upd f bn r), ind. split; [reflexivity|]. split; [exact T|]. split; [lia|]. split; cbn [fs_itable set_itable fs_phys].
    + rewrite upd_eq. by apply imap_direct.
    + apply upd_eq.
    + intros bn' [Hne|Hne]; [by apply upd_ne|done].
    + done.
    + done.
    + by eapply grows_mono; [|exact Hgr].
    + rewrite upd_eq. cbn. by rewrite S1.
    + eapply iop_trans; [by apply iop_rest|apply iop_addrs].
    + done.
    + by left.
Qed.

(** The end of bmap: entry [j] of the indirect block [ind]. *)
Definition bmap_entry (dev j ind : Z) : M fss Z :=
  bp <- lift (bread dev ind) ;;
  d <- getdata bp ;;
  addr <- (if ld32 d (4 * j) =? 0 then
             addr <- balloc dev ;;
             when (negb (addr =? 0))
               (d <- getdata bp ;; putdata bp (st32 d (4 * j) addr) ;;; lift (log_write bp)) ;;;
             ret addr
           else ret (ld32 d (4 * j))) ;;
  lift (brelse bp) ;;;
  ret addr.

Lemma locked_ind v i f ind : imap v i f ind -> ind <> 0 -> locked_ok sb v ({[ind]} ∪ ∅).
Proof using Hg.
  intros Hi Hn n Hin. rewrite union_empty_r_L, elem_of_singleton in Hin. subst n. destruct (im_ind_data _ _ _ _ Hi Hn) as [[H1 H2] H3].
  split; [|done]. intros b Hb E. apply (data_not_bitmap ind H1). by exists b.
Qed.

Lemma bmap_entry_ok s v blks ip j f ind :
  txn s v blks ∅ -> fs_sb s = sb -> meta_used sb first v -> imap v (fs_itable s ip) f ind -> ind <> 0 -> 0 <= j < NINDIRECT -> broom blks 5 ->
  exists a s' v' blks' f', bmap_entry ROOTDEV j ind s = Ret a s' /\ txn s' v' blks' ∅ /\ cost blks' <= cost blks + 2 /\
    bmap_post ip (NDIRECT + j) s v f ind a s' v' f' ind.
Proof using Hstart Hsize Hend Hg.
  intros Ht Hsb Hm Hi Hn Hj Hr. destruct (im_ind_data _ _ _ _ Hi Hn) as [Hd Hu]. unfold bmap_entry.
  destruct (t_bread start size Hstart Hsize Hend s v blks ∅ ind Ht (not_elem_of_empty _)) as (bp & s1 & E1 & T1 & B1 & _ & R1 & G1).
  { right. apply (broom_room _ _ _ _ _ Ht). rewrite size_empty. unfold broom in *. lia. }
  rewrite (bind_Ret _ _ _ _ _ E1), (bind_Ret _ _ _ _ _ G1). pose proof (im_indirect _ _ _ _ Hi j Hj) as Hld.
  rewrite (proj2 (Z.eqb_neq _ _) Hn) in Hld. rewrite <- Hld. assert (ind ∈ {[ind]} ∪ (∅ : gset Z)) as HinL by set_solver.
  destruct (same_rest_size ip _ _ R1) as (S1 & S2 & S3). destruct (Z.eqb_spec (f (NDIRECT + j)) 0) as [H0|H0].
  2:{ rewrite (bind_Ret _ _ _ _ _ (eq_refl : ret _ _ = _)).
      destruct (t_brelse start size Hstart Hsize Hend s1 _ _ _ bp ind T1 B1 HinL) as (s2 & E2 & T2 & _ & R2).
      rewrite (bind_Ret _ _ _ _ _ E2). rewrite relock in T2 by set_solver. exists (f (NDIRECT + j)), s2, v, blks, f.
      split_and!; [done|done|lia|]. apply bmap_post_old; [done|done|by eapply same_rest_trans]. }
  destruct (balloc_for s1 v blks ({[ind]} ∪ ∅) (fs_itable s ip) f ind T1) as (r & s2 & E2 & R2 & K2 & Hc); [|done| | |exact Hi|].
  { destruct R1 as [[l ->] _]. done. }
  { by eapply locked_ind. }
  { rewrite union_empty_r_L, size_singleton. unfold broom in *. lia. }
  pose proof (same_rest_trans _ _ _ R1 R2) as R12. destruct (same_rest_size ip _ _ R12) as (U1 & U2 & U3).
  rewrite bind_assoc, (bind_Ret _ _ _ _ _ E2). pose proof (K2 _ _ (elem_of_union_l _ _ _ HinL) B1) as B2.
  destruct Hc as [(-> & Hfull & T)|(Hr0 & v' & blks' & T & Hi' & Hf & Hgr & Hur & Hz & Hc)]; cbn [Z.eqb negb when].
  - rewrite bind_assoc, (bind_Ret _ _ _ _ _ (eq_refl : ret _ _ = _)), (bind_Ret _ _ _ _ _ (eq_refl : ret _ _ = _)).
    destruct (t_brelse start size Hstart Hsize Hend s2 _ _ _ bp ind T B2 HinL) as (s3 & E3 & T3 & _ & R3).
    rewrite (bind_Ret _ _ _ _ _ E3). rewrite relock in T3 by set_solver. exists 0, s3, v, blks, f. split_and!; [done|done|lia|].
    pose proof (same_rest_trans _ _ _ R12 R3) as R. destruct (same_rest_size ip _ _ R) as (V1 & V2 & V3).
    split; try done; [by rewrite V3|by apply iop_rest|by left].
  - rewrite (proj2 (Z.eqb_neq _ _) Hr0). cbn [negb when]. rewrite bind_assoc, (bind_assoc (getdata bp)).
    rewrite (bind_Ret _ _ _ _ _ (t_getdata start size s2 v' blks' _ bp ind T B2 HinL)), bind_assoc.
    destruct (t_update start size Hstart Hsize Hend s2 v' blks' _ bp ind (st32 (v' ind) (4 * j) r) T B2 HinL)
      as (s3 & s4 & E3 & E4 & T4 & K4 & R4); [by apply (ge_data_home _ _ _ _ Hg)| |].
    { apply (broom_room _ _ _ _ _ T). rewrite union_empty_r_L, size_singleton. unfold broom in *. lia. }
    rewrite (bind_Ret _ _ _ _ _ E3), (bind_Ret _ _ _ _ _ E4), (bind_Ret _ _ _ _ _ (eq_refl : ret _ _ = _)).
    destruct (t_brelse start size Hstart Hsize Hend s4 _ _ _ bp ind T4) as (s5 & E5 & T5 & _ & R5); [apply K4; [set_solver|done]|done|].
    rewrite (bind_Ret _ _ _ _ _ E5). rewrite relock in T5 by set_solver.
    pose proof (same_rest_trans _ _ _ R12 (same_rest_trans _ _ _ R4 R5)) as R. destruct (same_rest_size ip _ _ R) as (V1 & V2 & V3).
    exists r, s5, (upd v' ind (st32 (v' ind) (4 * j) r)), (add_block ind blks'), (upd f (NDIRECT + j) r). split; [done|]. split; [done|].
    split; [pose proof (cost_add ind blks'); lia|]. split; try done.
    + rewrite V3. by apply imap_entry.
    + apply upd_eq.
    + intros bn' [Hne|Hne]; [by apply upd_ne|done].
    + intros _ _. split; [done|]. rewrite upd_ne by apply (fb_ind _ _ _ _ Hf). done.
    + eapply grows_trans; [by eapply grows_mono; [|exact Hgr]|]. apply grows_upd; [apply Hd|done].
    + by apply iop_rest.
    + by left.
Qed.

(** A post-condition reached after the indirect block [r] was allocated. *)
Lemma bmap_post_fresh ip bn s v f r a s1 v1 s' v' f' :
  0 <= bn < MAXFILE -> datab r -> used v r = false -> grows (fun _ => False) v v1 -> iop ip s s1 -> fs_phys s1 = fs_phys s ->
  i_size (fs_itable s1 ip) = i_size (fs_itable s ip) ->
  bmap_post ip bn s1 v1 f r a s' v' f' r -> bmap_post ip bn s v f 0 a s' v' f' r.
Proof using Hg.
  intros Hbn Hr Hu Hgr I1 P1 Z1 [Q1 Q2 Q3 Q4 Q5 Q6 Q7 Q8 Q9 Q10]. split; try done.
  - intros H0 Ha. destruct (Q4 H0 Ha) as [Hua Hz]. split; [|done]. destruct (used v a) eqn:E; [|done].
    destruct (im_data _ _ _ _ Q1 bn Hbn) as (Hd & _); [congruence|]. rewrite Q2 in Hd.
    by rewrite (gr_used _ _ _ Hgr a (datab_used _ Hd) E) in Hua.
  - apply (grows_fresh _ r); [done|done|]. eapply grows_trans; [by eapply grows_mono; [|exact Hgr]|].
    eapply grows_mono; [|exact Q6]. intros n [_ ->]. by right.
  - congruence.
  - by eapply iop_trans.
  - congruence.
  - by right.
Qed.

Lemma bmap_ok s v blks ip bn f ind :
  txn s v blks ∅ -> fs_sb s = sb -> meta_used sb first v -> imap v (fs_itable s ip) f ind -> 0 <= bn < MAXFILE -> broom blks 6 ->
  exists a s' v' blks' f' ind', bmap ip bn s = Ret a s' /\ txn s' v' blks' ∅ /\ cost blks' <= cost blks + 3 /\
    bmap_post ip bn s v f ind a s' v' f' ind'.
Proof using Hstart Hsize Hend Hg.
  intros Ht Hsb Hm Hi Hb Hr. destruct (Z.lt_ge_cases bn NDIRECT) as [Hd|Hd].
  { destruct (bmap_direct s v blks ip bn f ind) as (a & s' & v' & blks' & f' & ind' & E & T & C & P); try done; [lia|unfold broom in *; lia|].
    exists a, s', v', blks', f', ind'. split_and!; try done. lia. }
  unfold bmap, geti. rewrite bind_gets. unfold MAXFILE in Hb. zb. rewrite (bind_Ret _ _ _ _ _ (get_ind_ok _ _ _ _ _ Hi)).
  rewrite (im_dev _ _ _ _ Hi). replace bn with (NDIRECT + (bn - NDIRECT)) in * by lia. set (j := bn - NDIRECT) in *.
  replace (NDIRECT + j - NDIRECT) with j by lia. destruct (Z.eqb_spec ind 0) as [->|Hn].
  2:{ rewrite (bind_Ret _ _ _ _ _ (eq_refl : ret _ _ = _)), (proj2 (Z.eqb_neq _ _) Hn).
      destruct (bmap_entry_ok s v blks ip j f ind) as (a & s' & v' & blks' & f' & E & T & C & P); try done; [lia|unfold broom in *; lia|].
      exists a, s', v', blks', f', ind. split_and!; try done. lia. }
  destruct (balloc_for s v blks ∅ (fs_itable s ip) f 0 Ht Hsb Hm) as (r & s1 & E1 & R1 & _ & Hc);
    [by intros n ?%elem_of_empty|rewrite size_empty; unfold broom in *; lia|exact Hi|].
  rewrite bind_assoc, (bind_Ret _ _ _ _ _ E1), bind_assoc. destruct (same_rest_size ip _ _ R1) as (S1 & S2 & S3).
  destruct Hc as [(-> & Hfull & T)|(Hr0 & v1 & blks1 & T & Hi' & Hf & Hgr & Hu & Hz & Hc)]; cbn [Z.eqb negb when].
  { rewrite (bind_Ret _ _ _ _ _ (eq_refl : ret _ _ = _)), (bind_Ret _ _ _ _ _ (eq_refl : ret _ _ = _)). cbn [Z.eqb].
    exists 0, s1, v, blks, f, 0. split_and!; [done|done|lia|]. split; try done; [by rewrite S3| |by apply iop_rest|by left].
    rewrite (im_indirect _ _ _ _ Hi) by lia. done. }
  rewrite (proj2 (Z.eqb_neq _ _) Hr0). cbn [negb when]. rewrite <- S3 in Hi'.
  erewrite bind_Ret by (apply put_addr_ok; [apply (im_len _ _ _ _ Hi')|unfold NDIRECT; lia]).
  rewrite (bind_Ret _ _ _ _ _ (eq_refl : ret _ _ = _)), (proj2 (Z.eqb_neq _ _) Hr0).
  match goal with |- context [bind _ _ ?x] => set (s2 := x) end.
  destruct (bmap_entry_ok s2 v1 blks1 ip j f r) as (a & s' & v' & blks' & f' & E & T' & C & P); try done.
  { subst s2. destruct R1 as [[l ->] _]. done. }
  { by eapply grows_meta. }
  { subst s2. cbn. rewrite upd_eq. by apply imap_indirect. }
  { lia. }
  { unfold broom in *; lia. }
  exists a, s', v', blks', f', r. split; [exact E|]. split; [done|]. split; [lia|].
  eapply bmap_post_fresh; [unfold MAXFILE; lia|apply (fb_data _ _ _ _ Hf)|done|exact Hgr| | | |exact P].
  - eapply iop_trans; [apply iop_rest, R1|apply iop_addrs].
  - done.
  - subst s2. cbn. rewrite upd_eq. cbn. done.
Qed.

(** ** readi *)

(** A block of the file that is there. *)
Lemma bmap_old {out} s v blks ip bn f ind :
  txn_at start size out s v blks ∅ -> imap v (fs_itable s ip) f ind -> 0 <= bn < MAXFILE -> f bn <> 0 -> room blks ∅ 0 ->
  exists s', bmap ip bn s = Ret (f bn) s' /\ txn_at start size out s' v blks ∅ /\ same_rest s s'.
Proof using Hstart Hsize Hend Hg.
  intros Ht Hi Hb Hf Hr. unfold bmap, geti. rewrite bind_gets. destruct (Z.ltb_spec bn NDIRECT).
  { rewrite (bind_Ret _ _ _ _ _ (get_addr_ok _ _ _ _ _ bn Hi ltac:(lia))), (proj2 (Z.eqb_neq _ _) Hf).
    exists s. split_and!; try done. apply same_rest_refl. }
  unfold MAXFILE in Hb. zb. rewrite (bind_Ret _ _ _ _ _ (get_ind_ok _ _ _ _ _ Hi)).
  pose proof (im_indirect _ _ _ _ Hi (bn - NDIRECT) ltac:(lia)) as Hl. replace (NDIRECT + (bn - NDIRECT)) with bn in Hl by lia.
  destruct (Z.eqb_spec ind 0) as [->|Hn]; [congruence|].
  rewrite (bind_Ret _ _ _ _ _ (eq_refl : ret _ _ = _)), (proj2 (Z.eqb_neq _ _) Hn), (im_dev _ _ _ _ Hi).
  destruct (t_read start size Hstart Hsize Hend s v blks ∅ ind Ht (not_elem_of_empty _)) as (b & s1 & s2 & E1 & G1 & E2 & T2 & _ & R & _); [by right|].
  rewrite (bind_Ret _ _ _ _ _ E1), (bind_Ret _ _ _ _ _ G1), <- Hl, (proj2 (Z.eqb_neq _ _) Hf).
  rewrite (bind_Ret _ _ _ _ _ (eq_refl : ret _ _ = _)), (bind_Ret _ _ _ _ _ E2). by exists s2.
Qed.

Definition fmem (s : fss) : mem := ph_mem (fs_phys s).
Definition with_mem (m : mem) (s : fss) : fss := set_fphys (mkPhys m (ph_pool (fs_phys s)) (ph_end (fs_phys s))) s.

(** Where struct buf keeps the data of the buffers. *)
Definition bufarea (s : fss) (x : Z) : Prop := exists b, 0 <= b < NBUF /\ fs_bufaddr s b <= x < fs_bufaddr s b + BSIZE.
Definition no_buf (s : fss) (a n : Z) : Prop := forall x, a <= x < a + n -> ~ bufarea s x.

(** Nothing but memory, the cache and the log's locks changed. *)
Definition rop (s s' : fss) : Prop := (exists l m, s' = with_mem m (set_l l s)) /\ same_disk s s'.

Lemma rop_rest s s' : same_rest s s' -> rop s s'.
Proof. intros [[l ->] D]. split; [|done]. exists l, (fmem s). by destruct s as [? ? ? []]. Qed.
Lemma rop_mem s m : rop s (with_mem m s).
Proof. split; [|done]. exists (fs_l s), m. by destruct s. Qed.
Lemma rop_trans s1 s2 s3 : rop s1 s2 -> rop s2 s3 -> rop s1 s3.
Proof. intros [(l1 & m1 & ->) D1] [(l2 & m2 & ->) D2]. split; [by exists l2, m2|]. by eapply same_disk_trans. Qed.

Lemma setmem_ok f s : lift (setmem f) s = Ret tt (with_mem (f (fmem s)) s).
Proof. done. Qed.

(** Byte [o] of the file. *)
Definition content (v : Z -> block) (f : Z -> Z) (o : Z) : Z :=
  if f (o / BSIZE) =? 0 then 0 else u8 (v (f (o / BSIZE)) (o mod BSIZE)).

Lemma stbytes_ldbytes m a d o len x :
  0 <= len -> stbytes m a (ldbytes d o (Z.to_nat len)) x = if (a <=? x) && (x <? a + len) then u8 (d (o + (x - a))) else m x.
Proof.
  intros Hl. destruct (Z.leb_spec a x), (Z.ltb_spec x (a + len)); cbn [andb];
    try (apply stbytes_out; rewrite ldbytes_length; lia).
  replace x with (a + Z.of_nat (Z.to_nat (x - a))) at 1 by lia. rewrite (stbytes_in _ _ _ _ (d (o + (x - a)))); [done|].
  rewrite ldbytes_lookup by lia. do 2 f_equal. lia.
Qed.

Lemma copyout_kernel {out} s v blks L b n dst off len :
  txn_at start size out s v blks L -> onbuf s b n -> n ∈ L -> wf_mem (fmem s) -> 0 <= off -> 0 <= len -> off + len <= BSIZE -> no_buf s dst len ->
  exists m', either_copyout false dst b off len s = Ret 0 (with_mem m' s) /\ wf_mem m' /\
    (forall x, dst <= x < dst + len -> m' x = u8 (v n (off + (x - dst)))) /\
    (forall x, ~ (dst <= x < dst + len) -> ~ bufarea s x -> m' x = fmem s x).
Proof.
  intros Ht Hb Hn Hw Ho Hl Hle Hnb. unfold either_copyout. rewrite (bind_Ret _ _ _ _ _ (t_getdata _ _ _ _ _ _ _ _ Ht Hb Hn)), bind_gets.
  erewrite bind_Ret by apply setmem_ok. erewrite bind_Ret by apply setmem_ok. set (base := fs_bufaddr s b). destruct Hb as [Hb _].
  set (m1 := stbytes (fmem s) (base + off) (ldbytes (v n) off (Z.to_nat len))).
  assert (wf_mem m1) as Hw1 by (by apply stbytes_wf).
  exists (memmove m1 dst (base + off) len). split; [done|]. split; [by apply memmove_wf|]. split.
  - intros x Hx. rewrite memmove_in by done. unfold m1. rewrite stbytes_ldbytes by done. zb. cbn [andb]. do 2 f_equal. lia.
  - intros x Hx Hnx. rewrite memmove_out by (done || lia). unfold m1. rewrite stbytes_ldbytes by done.
    destruct (Z.leb_spec (base + off) x), (Z.ltb_spec x (base + off + len)); cbn [andb]; try done.
    exfalso. apply Hnx. exists b. fold base. lia.
Qed.

(** The blocks of the file below [e] are all there. *)
Definition dense (f : Z -> Z) (e : Z) : Prop := forall o, 0 <= o < e -> f (o / BSIZE) <> 0.

(** How many blocks the [n] bytes from [off] on touch: the turns of the loops. *)
Definition nblocks (off n : Z) : Z := if n <=? 0 then 0 else (off mod BSIZE + n - 1) / BSIZE + 1.

Lemma nblocks_step off n : 0 < n ->
  let m := Z.min n (BSIZE - off mod BSIZE) in nblocks off n = 1 + nblocks (off + m) (n - m).
Proof.
  intros Hn m. subst m. unfold nblocks, BSIZE. pose proof (Z.mod_pos_bound off 1024 ltac:(lia)) as Hm. rewrite (proj2 (Z.leb_gt n 0)) by lia.
  destruct (Z.leb_spec n (1024 - off mod 1024)).
  - rewrite Z.min_l by lia. rewrite Z.sub_diag. cbn [Z.leb Z.compare]. rewrite Z.div_small by lia. done.
  - rewrite Z.min_r by lia. rewrite (proj2 (Z.leb_gt _ 0)) by lia. replace ((off + (1024 - off mod 1024)) mod 1024) with 0 by dlia.
    replace (off mod 1024 + n - 1) with ((0 + (n - (1024 - off mod 1024)) - 1) + 1 * 1024) by lia. rewrite Z.div_add by lia. lia.
Qed.

Lemma nblocks_nonneg off n : 0 <= nblocks off n.
Proof.
  unfold nblocks, BSIZE. pose proof (Z.mod_pos_bound off 1024 ltac:(lia)). destruct (Z.leb_spec n 0); [done|]. dlia.
Qed.

Lemma nblocks_fuel off n : 0 <= n -> nblocks off n < Z.of_nat (loop_fuel n).
Proof.
  intros Hn. unfold nblocks, loop_fuel, BSIZE. pose proof (Z.mod_pos_bound off 1024 ltac:(lia)). destruct (Z.leb_spec n 0); dlia.
Qed.

Lemma same_block off k : 0 <= k -> k < BSIZE - off mod BSIZE -> (off + k) / BSIZE = off / BSIZE /\ (off + k) mod BSIZE = off mod BSIZE + k.
Proof. unfold BSIZE. intros. split; dlia. Qed.

Lemma min_Zmin a b : Fs.min a b = Z.min a b.
Proof. unfold Fs.min. destruct (Z.ltb_spec a b); lia. Qed.

Lemma content_block v f off k : f (off / BSIZE) <> 0 -> 0 <= k -> k < BSIZE - off mod BSIZE ->
  content v f (off + k) = u8 (v (f (off / BSIZE)) (off mod BSIZE + k)).
Proof. intros Hf H1 H2. unfold content. destruct (same_block off k H1 H2) as [-> ->]. by rewrite (proj2 (Z.eqb_neq _ _) Hf). Qed.

Lemma readi_loop_ok {out} fuel v blks ip f ind n : forall s dst off tot,
  txn_at start size out s v blks ∅ -> imap v (fs_itable s ip) f ind -> room blks ∅ 0 -> wf_mem (fmem s) ->
  0 <= tot <= n -> n < 2 ^ 32 -> 0 <= off -> off + (n - tot) <= MAXFILE * BSIZE -> dense f (off + (n - tot)) ->
  0 <= dst -> dst + (n - tot) < 2 ^ 64 -> no_buf s dst (n - tot) -> nblocks off (n - tot) < Z.of_nat fuel ->
  exists s', readi_loop fuel ip false dst off n tot s = Ret n s' /\ txn_at start size out s' v blks ∅ /\ rop s s' /\ wf_mem (fmem s') /\
    (forall x, dst <= x < dst + (n - tot) -> fmem s' x = content v f (off + (x - dst))) /\
    (forall x, ~ (dst <= x < dst + (n - tot)) -> ~ bufarea s x -> fmem s' x = fmem s x).
Proof using Hstart Hsize Hend Hg.
  induction fuel as [|fuel IH]; intros s dst off tot Ht Hi Hr Hw Htot Hn Hoff Hmax Hdn Hdst Hdst' Hnb Hf; [pose proof (nblocks_nonneg off (n - tot)); lia|].
  cbn [readi_loop]. destruct (Z.ltb_spec tot n) as [Hlt|Hge]; cbn [negb].
  2:{ exists s. replace tot with n by lia. split_and!; try done; [by apply rop_rest, same_rest_refl|intros; lia]. }
  change MAXFILE with 268 in Hmax. change BSIZE with 1024 in Hmax.
  assert (0 <= off / BSIZE < MAXFILE) as Hbn by (change MAXFILE with 268; unfold BSIZE; dlia).
  assert (f (off / BSIZE) <> 0) as Hfn by (apply Hdn; lia).
  destruct (bmap_old s v blks ip _ f ind Ht Hi Hbn Hfn Hr) as (s1 & E1 & T1 & R1).
  rewrite (bind_Ret _ _ _ _ _ E1), (proj2 (Z.eqb_neq _ _) Hfn). unfold geti. rewrite bind_gets.
  destruct (same_rest_size ip _ _ R1) as (_ & P1 & I1). rewrite I1, (im_dev _ _ _ _ Hi).
  destruct (t_bread start size Hstart Hsize Hend s1 v blks ∅ (f (off / BSIZE)) T1 (not_elem_of_empty _)) as (b & s2 & E2 & T2 & B2 & _ & R2 & _); [by right|].
  rewrite (bind_Ret _ _ _ _ _ E2), min_Zmin. pose proof (Z.mod_pos_bound off BSIZE ltac:(done)) as Hmod.
  assert (1024 - off mod BSIZE <= 1024) as Hb1024 by lia.
  set (m := Z.min (n - tot) (BSIZE - off mod BSIZE)). assert (0 < m <= n - tot /\ m <= BSIZE - off mod BSIZE) as Hm by lia.
  pose proof (same_rest_trans _ _ _ R1 R2) as R12. assert (fmem s2 = fmem s) as M2 by (unfold fmem; destruct R12 as [[l ->] _]; done).
  assert (forall x, bufarea s2 x <-> bufarea s x) as A2 by (destruct R12 as [[l ->] _]; done).
  assert (f (off / BSIZE) ∈ {[f (off / BSIZE)]} ∪ (∅ : gset Z)) as HinL by set_solver.
  destruct (copyout_kernel s2 v blks _ b _ dst (off mod BSIZE) m T2 B2 HinL) as (m' & E3 & W3 & C3 & D3);
    [by rewrite M2|lia|lia|lia|intros x Hx Hbx; apply (Hnb x); [lia|by apply A2]|].
  rewrite (bind_Ret _ _ _ _ _ E3). cbn [Z.eqb].
  destruct (t_brelse start size Hstart Hsize Hend (with_mem m' s2) v blks _ b _ T2 B2 HinL) as (s3 & E4 & T3 & _ & R3).
  rewrite (bind_Ret _ _ _ _ _ E4). rewrite relock in T3 by set_solver. change (0 =? -1) with false. cbn match.
  rewrite !u32_small, u64_small by lia.
  assert (rop s s3) as R03 by (eapply rop_trans; [by apply rop_rest|]; eapply rop_trans; [apply (rop_mem _ m')|by apply rop_rest]).
  assert (fmem s3 = m') as M3 by (destruct R3 as [[l ->] _]; done).
  assert (forall x, bufarea s3 x <-> bufarea s x) as A3 by (destruct R03 as [(l & m0 & ->) _]; done).
  destruct (IH s3 (dst + m) (off + m) (tot + m) T3) as (s4 & E5 & T4 & R4 & W4 & C4 & D4); try done; try lia.
  { destruct R03 as [(l & m0 & ->) _]. done. }
  { by rewrite M3. }
  { change (MAXFILE * BSIZE) with (268 * 1024). lia. }
  { intros o Ho. apply Hdn. lia. }
  { intros x Hx Hbx. apply (Hnb x); [lia|by apply A3]. }
  { replace (n - (tot + m)) with (n - tot - m) by lia. pose proof (nblocks_step off (n - tot) ltac:(lia)) as Hs. cbn zeta in Hs. fold m in Hs. lia. }
  exists s4. split; [done|]. split; [done|]. split; [by eapply rop_trans|]. split; [done|]. split.
  - intros x Hx. destruct (Z.lt_ge_cases x (dst + m)) as [Hx'|Hx'].
    + rewrite D4, M3, C3 by (lia || (intros Hbx; apply (Hnb x); [lia|by apply A3])). rewrite content_block by (done || lia). done.
    + rewrite C4 by lia. f_equal. lia.
  - intros x Hx Hbx. rewrite D4, M3 by (lia || (intros Hb'; by apply Hbx, A3)). rewrite <- M2. apply D3; [lia|by rewrite A2].
Qed.

(** How much readi returns. *)
Definition read_count (sz off n : Z) : Z := if (sz <? off) || (2 ^ 32 <=? off + n) then 0 else Z.min n (sz - off).

Lemma read_count_range sz off n : 0 <= off -> 0 <= n -> 0 <= read_count sz off n <= n.
Proof. intros. unfold read_count. destruct (Z.ltb_spec sz off), (Z.leb_spec (2 ^ 32) (off + n)); cbn [orb]; lia. Qed.

Lemma u32_add_wraps off n : 0 <= off < 2 ^ 32 -> 0 <= n < 2 ^ 32 -> (u32 (off + n) <? off) = (2 ^ 32 <=? off + n).
Proof.
  intros H1 H2. destruct (Z.leb_spec (2 ^ 32) (off + n)).
  - unfold u32. replace ((off + n) mod 2 ^ 32) with (off + n - 2 ^ 32); [apply Z.ltb_lt; lia|].
    symmetry. rewrite <- (Z.mod_small (off + n - 2 ^ 32) (2 ^ 32)) by lia. replace (off + n) with (off + n - 2 ^ 32 + 1 * 2 ^ 32) at 1 by lia.
    by rewrite Z_mod_plus_full.
  - rewrite u32_small by lia. apply Z.ltb_ge. lia.
Qed.

Lemma readi_ok {out} s v blks ip f ind dst off n :
  txn_at start size out s v blks ∅ -> imap v (fs_itable s ip) f ind -> room blks ∅ 0 -> wf_mem (fmem s) ->
  0 <= off < 2 ^ 32 -> 0 <= n < 2 ^ 32 -> 0 <= i_size (fs_itable s ip) <= MAXFILE * BSIZE -> dense f (i_size (fs_itable s ip)) ->
  let k := read_count (i_size (fs_itable s ip)) off n in
  0 <= dst -> dst + k < 2 ^ 64 -> no_buf s dst k ->
  exists s', readi ip false dst off n s = Ret k s' /\ txn_at start size out s' v blks ∅ /\ rop s s' /\ wf_mem (fmem s') /\
    (forall x, dst <= x < dst + k -> fmem s' x = content v f (off + (x - dst))) /\
    (forall x, ~ (dst <= x < dst + k) -> ~ bufarea s x -> fmem s' x = fmem s x).
Proof using Hstart Hsize Hend Hg.
  intros Ht Hi Hr Hw Ho Hn Hsz Hd k Hdst Hdst' Hnb. unfold readi, geti. rewrite bind_gets, u32_add_wraps by done.
  set (sz := i_size (fs_itable s ip)) in *. change (MAXFILE * BSIZE) with (268 * 1024) in Hsz.
  pose proof (read_count_range sz off n ltac:(lia) ltac:(lia)) as Hk. fold k in Hk. unfold read_count in k.
  destruct ((sz <? off) || (2 ^ 32 <=? off + n)) eqn:Ec.
  { exists s. subst k. split_and!; try done; [by apply rop_rest, same_rest_refl|intros; lia]. }
  apply orb_false_iff in Ec as [H1%Z.ltb_ge H2%Z.leb_gt]. rewrite u32_small by lia.
  replace (if sz <? off + n then u32 (sz - off) else n) with k.
  2:{ subst k. destruct (Z.ltb_spec sz (off + n)); [rewrite u32_small by lia|]; lia. }
  destruct (readi_loop_ok (loop_fuel k) v blks ip f ind k s dst off 0 Ht) as (s' & E & T & R & W & C & D); try done; rewrite ?Z.sub_0_r; try lia.
  { change (MAXFILE * BSIZE) with (268 * 1024). subst k. lia. }
  { intros o Ho'. apply Hd. subst k. lia. }
  { done. }
  { apply nblocks_fuel. lia. }
  rewrite Z.sub_0_r in *. exists s'. rewrite (bind_Ret _ _ _ _ _ E). unfold ret. rewrite s32_small by lia. split_and!; done.
Qed.

(** ** writei *)

Lemma copyin_kernel s v blks L b n src off len :
  txn s v blks L -> onbuf s b n -> n ∈ L -> wf_mem (fmem s) -> 0 <= off -> 0 <= len -> off + len <= BSIZE -> no_buf s src len ->
  exists m' d', either_copyin b off false src len s = (putdata b d' ;;; ret 0) (with_mem m' s) /\ wf_mem m' /\
    (forall x, ~ bufarea s x -> m' x = fmem s x) /\
    (forall o, 0 <= o < BSIZE -> d' o = if (off <=? o) && (o <? off + len) then fmem s (src + (o - off)) else u8 (v n o)).
Proof.
  intros Ht Hb Hn Hw Ho Hl Hle Hnb. unfold either_copyin. rewrite (bind_Ret _ _ _ _ _ (t_getdata _ _ _ _ _ _ _ _ Ht Hb Hn)), bind_gets.
  erewrite bind_Ret by apply setmem_ok. rewrite bind_assoc. erewrite bind_Ret by apply setmem_ok.
  rewrite (bind_Ret _ _ _ _ _ (eq_refl : ret _ _ = _)), bind_gets. set (base := fs_bufaddr s b). destruct Hb as [Hb _].
  set (m1 := stbytes (fmem s) base (ldbytes (v n) 0 (Z.to_nat BSIZE))).
  assert (wf_mem m1) as Hw1 by (by apply stbytes_wf).
  assert (forall x, ~ (base <= x < base + BSIZE) -> m1 x = fmem s x) as M1.
  { intros x Hx. unfold m1. apply stbytes_out. rewrite ldbytes_length. unfold BSIZE in *. lia. }
  exists (memmove m1 (base + off) src len). eexists. split; [reflexivity|]. split; [by apply memmove_wf|]. split.
  - intros x Hx. rewrite memmove_out; [|done|done|].
    + apply M1. intros H. apply Hx. by exists b.
    + destruct (Z.lt_ge_cases x (base + off)), (Z.lt_ge_cases x (base + off + len)); try lia. exfalso. apply Hx. exists b. fold base. lia.
  - intros o Hob. change (ph_mem _) with (memmove m1 (base + off) src len). rewrite stbytes_ldbytes by done. rewrite !Z.sub_0_r, Z.add_0_l. zb. cbn [andb].
    rewrite memmove_byte by done. destruct (Z.leb_spec off o), (Z.ltb_spec o (off + len)); zb; cbn [andb].
    + replace (base + o - (base + off)) with (o - off) by lia. rewrite M1; [apply u8_small, Hw|].
      intros H'. apply (Hnb (src + (o - off))); [lia|]. by exists b.
    + unfold m1. rewrite stbytes_ldbytes by done. zb. cbn [andb]. replace (0 + (base + o - base)) with o by lia. apply u8_small, u8_range.
    + unfold m1. rewrite stbytes_ldbytes by done. zb. cbn [andb]. replace (0 + (base + o - base)) with o by lia. apply u8_small, u8_range.
    + lia.
Qed.

(** Overwriting part of block [a] with kernel memory at [src]. *)
Lemma write_block s v blks a src off len :
  txn s v blks ∅ -> datab a -> wf_mem (fmem s) -> 0 <= off -> 0 <= len -> off + len <= BSIZE -> no_buf s src len -> broom blks 2 ->
  exists b s1 s2 s3 s4 d', lift (bread ROOTDEV a) s = Ret b s1 /\ either_copyin b off false src len s1 = Ret 0 s2 /\
    lift (log_write b) s2 = Ret tt s3 /\ lift (brelse b) s3 = Ret tt s4 /\
    txn s4 (upd v a d') (add_block a blks) ∅ /\ rop s s4 /\ wf_mem (fmem s4) /\ (forall x, ~ bufarea s x -> fmem s4 x = fmem s x) /\
    (forall o, 0 <= o < BSIZE -> d' o = if (off <=? o) && (o <? off + len) then fmem s (src + (o - off)) else u8 (v a o)).
Proof using Hstart Hsize Hend Hg.
  intros Ht Ha Hw Ho Hl Hle Hnb Hr.
  destruct (t_bread start size Hstart Hsize Hend s v blks ∅ a Ht (not_elem_of_empty _)) as (b & s1 & E1 & T1 & B1 & _ & R1 & _).
  { right. apply (broom_room _ _ _ _ _ Ht). rewrite size_empty. unfold broom in *. lia. }
  assert (fmem s1 = fmem s) as M1 by (unfold fmem; destruct R1 as [[l ->] _]; done).
  assert (forall x, bufarea s1 x <-> bufarea s x) as A1 by (destruct R1 as [[l ->] _]; done).
  assert (a ∈ {[a]} ∪ (∅ : gset Z)) as HinL by set_solver.
  destruct (copyin_kernel s1 v blks _ b a src off len T1 B1 HinL) as (m' & d' & E2 & W2 & C2 & D2); try done.
  { by rewrite M1. }
  { intros x Hx Hbx. by apply (Hnb x), A1. }
  destruct (t_update start size Hstart Hsize Hend (with_mem m' s1) v blks _ b a d' T1 B1 HinL) as (s2 & s3 & E3 & E4 & T3 & K3 & R3).
  { by apply (ge_data_home _ _ _ _ Hg). }
  { apply (broom_room _ _ _ _ _ T1). rewrite union_empty_r_L, size_singleton. unfold broom in *. lia. }
  destruct (t_brelse start size Hstart Hsize Hend s3 _ _ _ b a T3) as (s4 & E5 & T4 & _ & R4); [apply K3; [set_solver|exact B1]|done|].
  rewrite relock in T4 by set_solver. exists b, s1, s2, s3, s4, d'. split; [done|]. split; [by rewrite E2, (bind_Ret _ _ _ _ _ E3)|].
  pose proof (same_rest_trans _ _ _ R3 R4) as R34. assert (fmem s4 = m') as M4 by (destruct R34 as [[l ->] _]; done).
  split_and!; try done.
  - eapply rop_trans; [by apply rop_rest|]. eapply rop_trans; [apply (rop_mem _ m')|by apply rop_rest].
  - by rewrite M4.
  - intros x Hx. rewrite M4, C2 by (by rewrite A1). by rewrite M1.
  - intros o Hob. rewrite D2 by done. by rewrite M1.
Qed.

(** The blocks of a file. *)
Definition owns (f : Z -> Z) (ind n : Z) : Prop := n <> 0 /\ (n = ind \/ exists bn, 0 <= bn < MAXFILE /\ f bn = n).

Lemma grows_trans_new (P Q : Z -> Prop) v1 v2 v3 :
  grows P v1 v2 -> grows Q v2 v3 -> (forall n, Q n -> P n \/ (datab n /\ used v1 n = false)) -> grows P v1 v3.
Proof using Hg.
  intros [U1 S1] [U2 S2] H. split; [auto|]. intros n Hb Hu Hp. rewrite S2; [by apply S1|done| |].
  - intros Hd. apply U1; [by apply datab_used|auto].
  - intros Hq. destruct (H n Hq) as [|[Hd Hf]]; [done|]. by rewrite Hu in Hf.
Qed.

(** The map changed as writei changes it: blocks are only added, unused ones. *)
Record extends (v : Z -> block) (f : Z -> Z) (ind : Z) (f' : Z -> Z) (ind' : Z) : Prop := {
  ex_old : forall bn, f bn <> 0 -> f' bn = f bn;
  ex_new : forall n, owns f' ind' n -> owns f ind n \/ (datab n /\ used v n = false)
}.

Lemma bmap_extends ip bn s v f ind a s' v' f' ind' :
  0 <= bn < MAXFILE -> bmap_post ip bn s v f ind a s' v' f' ind' -> extends v f ind f' ind'.
Proof.
  intros Hbn [Q1 Q2 Q3 Q4 Q5 Q6 Q7 Q8 Q9 Q10]. split.
  - intros b Hb. apply Q3. destruct (Z.eq_dec b bn) as [->|]; [by right|by left].
  - intros n [Hn [->|(b & Hb & Hbn')]].
    + destruct Q10 as [->|(_ & H)]; [left; split; [done|by left]|by right].
    + destruct (Z.eq_dec b bn) as [->|Hne]; [|left; split; [done|right; exists b; split; [done|by rewrite <- Q3 by (by left)]]].
      destruct (Z.eq_dec (f bn) 0) as [H0|H0]; [|left; split; [done|right; exists bn; split; [done|by rewrite <- Q3 by (by right)]]].
      right. destruct (im_data _ _ _ _ Q1 bn Hbn) as (Hd & _); [congruence|]. rewrite Hbn' in Hd. split; [done|].
      assert (a = n) as <- by congruence. by destruct (Q4 H0 Hn).
Qed.

Lemma extends_trans v1 f1 i1 v2 f2 i2 f3 i3 :
  (forall b, 0 <= b < sb_size sb -> used v1 b = true -> used v2 b = true) ->
  extends v1 f1 i1 f2 i2 -> extends v2 f2 i2 f3 i3 -> extends v1 f1 i1 f3 i3.
Proof using Hg.
  intros Hu [O1 N1] [O2 N2]. split.
  - intros bn Hb. rewrite O2; [by apply O1|]. by rewrite O1.
  - intros n Hn. destruct (N2 n Hn) as [H|[Hd Hf]]; [by apply N1|]. right. split; [done|].
    destruct (used v1 n) eqn:E; [|done]. by rewrite (Hu n (datab_used _ Hd) E) in Hf.
Qed.

Lemma extends_refl v f ind : extends v f ind f ind.
Proof. split; [done|]. intros n H. by left. Qed.

Lemma div_range o : 0 <= o < MAXFILE * BSIZE -> 0 <= o / BSIZE < MAXFILE.
Proof. change (MAXFILE * BSIZE) with (268 * 1024). change MAXFILE with 268. unfold BSIZE. intros. dlia. Qed.

(** A block of the file keeps its contents when the file grows. *)
Lemma bmap_keeps_block ip bn s v f ind a s' v' f' ind' i b :
  imap v i f ind -> bmap_post ip bn s v f ind a s' v' f' ind' -> 0 <= b < MAXFILE -> f b <> 0 -> v' (f b) = v (f b).
Proof using Hg.
  intros Hi Hp Hb Hf. destruct (im_data _ _ _ _ Hi b Hb Hf) as ([H1 H2] & H3 & H4).
  apply (gr_same _ _ _ (bp_grows _ _ _ _ _ _ _ _ _ _ _ Hp)); [by apply data_not_bitmap|done|]. by intros [_ ?].
Qed.

(** The bytes of the file after one turn of writei's loop. *)
Lemma turn_content ip s v f ind a s' v' f' ind' off len (w : Z -> Z) d' i o :
  imap v i f ind -> bmap_post ip (off / BSIZE) s v f ind a s' v' f' ind' -> a <> 0 -> 0 <= off / BSIZE < MAXFILE ->
  0 <= len -> len <= BSIZE - off mod BSIZE -> (forall k, u8 (w k) = w k) ->
  (forall p, 0 <= p < BSIZE -> d' p = if (off mod BSIZE <=? p) && (p <? off mod BSIZE + len) then w (p - off mod BSIZE) else u8 (v' a p)) ->
  0 <= o < MAXFILE * BSIZE ->
  content (upd v' a d') f' o = if (off <=? o) && (o <? off + len) then w (o - off) else content v f o.
Proof using Hg.
  intros Hi Hp Ha Hbn Hl Hle Hw Hd Ho. pose proof (div_range o Ho) as Hb. pose proof (Z.mod_pos_bound o BSIZE ltac:(done)) as Hm.
  pose proof (Z.mod_pos_bound off BSIZE ltac:(done)) as Hmo. pose proof (Z.div_mod o BSIZE ltac:(done)) as D1. pose proof (Z.div_mod off BSIZE ltac:(done)) as D2.
  unfold content. destruct (Z.eq_dec (o / BSIZE) (off / BSIZE)) as [E|E].
  - rewrite E, (bp_addr _ _ _ _ _ _ _ _ _ _ _ Hp), (proj2 (Z.eqb_neq _ _) Ha), upd_eq, Hd by done.
    replace (off mod BSIZE <=? o mod BSIZE) with (off <=? o) by (rewrite E in *; destruct (Z.leb_spec off o); zb; done).
    replace (o mod BSIZE <? off mod BSIZE + len) with (o <? off + len) by (rewrite E in *; destruct (Z.ltb_spec o (off + len)); zb; done).
    destruct ((off <=? o) && (o <? off + len)); [rewrite Hw; f_equal; rewrite E in *; lia|]. rewrite u8_small by apply u8_range.
    destruct (Z.eqb_spec (f (off / BSIZE)) 0) as [H0|H0].
    + destruct (bp_fresh _ _ _ _ _ _ _ _ _ _ _ Hp H0 Ha) as [_ ->]; done.
    + rewrite <- (bmap_keeps_block _ _ _ _ _ _ _ _ _ _ _ _ _ Hi Hp Hbn H0).
      rewrite <- (bp_others _ _ _ _ _ _ _ _ _ _ _ Hp) by (by right). by rewrite (bp_addr _ _ _ _ _ _ _ _ _ _ _ Hp).
  - assert ((off <=? o) && (o <? off + len) = false) as ->.
    { destruct (Z.leb_spec off o), (Z.ltb_spec o (off + len)); try done. exfalso. apply E.
      destruct (same_block off (o - off)) as [H' _]; [lia|lia|]. by replace (off + (o - off)) with o in H' by lia. }
    rewrite (bp_others _ _ _ _ _ _ _ _ _ _ _ Hp) by (by left). destruct (Z.eqb_spec (f (o / BSIZE)) 0) as [H0|H0]; [done|].
    assert (f (o / BSIZE) <> a) as Hne.
    { intros <-. apply E. apply (im_inj _ _ _ _ (bp_map _ _ _ _ _ _ _ _ _ _ _ Hp)); [done|done| |].
      - by rewrite (bp_others _ _ _ _ _ _ _ _ _ _ _ Hp) by (by left).
      - rewrite (bp_addr _ _ _ _ _ _ _ _ _ _ _ Hp). apply (bp_others _ _ _ _ _ _ _ _ _ _ _ Hp). by left. }
    rewrite upd_ne by done. by rewrite (bmap_keeps_block _ _ _ _ _ _ _ _ _ _ _ _ _ Hi Hp Hb H0).
Qed.

Lemma imap_write v i f ind bn d' :
  imap v i f ind -> 0 <= bn < MAXFILE -> f bn <> 0 -> imap (upd v (f bn) d') i f ind.
Proof using Hg.
  intros Hi Hb Hf. destruct (im_data _ _ _ _ Hi bn Hb Hf) as ([H1 H2] & H3 & H4). apply (imap_frame v); [done| |].
  - intros _. by rewrite upd_ne by congruence.
  - intros b Hb'. by rewrite used_upd.
Qed.

(** [t] bytes from [src] were written to the file at [off]. *)
Record wrote (ip src off t : Z) (s : fss) (v : Z -> block) (f : Z -> Z) (ind : Z) (s' : fss) (v' : Z -> block) (f' : Z -> Z) (ind' : Z) : Prop := {
  wr_map : imap v' (fs_itable s' ip) f' ind';
  wr_content : forall o, 0 <= o < MAXFILE * BSIZE ->
    content v' f' o = if (off <=? o) && (o <? off + t) then fmem s (src + (o - off)) else content v f o;
  wr_dense : forall o, off <= o < off + t -> f' (o / BSIZE) <> 0;
  wr_extends : extends v f ind f' ind';
  wr_grows : grows (owns f ind) v v';
  wr_size : i_size (fs_itable s' ip) = i_size (fs_itable s ip);
  wr_iop : iop ip s s';
  wr_wf : wf_mem (fmem s');
  wr_mem : forall x, ~ bufarea s x -> fmem s' x = fmem s x
}.

Lemma iop_rop ip s s' : rop s s' -> iop ip s s'.
Proof. intros [(l & m & ->) D]. split; try done. cbn. exists (i_addrs (fs_itable s ip)), (i_size (fs_itable s ip)). by destruct (fs_itable s ip). Qed.

Lemma bufarea_iop ip s s' x : iop ip s s' -> bufarea s' x <-> bufarea s x.
Proof. intros H. unfold bufarea. by rewrite (io_bufaddr _ _ _ H). Qed.

Lemma no_content off o (x y : Z) : (if (off <=? o) && (o <? off + 0) then x else y) = y.
Proof. destruct (Z.leb_spec off o), (Z.ltb_spec o (off + 0)); cbn [andb]; try done; lia. Qed.

Lemma wrote_refl ip src off s v f ind : imap v (fs_itable s ip) f ind -> wf_mem (fmem s) -> wrote ip src off 0 s v f ind s v f ind.
Proof.
  intros Hi Hw. split; try done; [intros; by rewrite no_content|intros; lia|apply extends_refl|apply iop_refl].
Qed.

Lemma wrote_trans ip src off t1 t2 s1 v1 f1 i1 s2 v2 f2 i2 s3 v3 f3 i3 :
  0 <= t1 -> 0 <= t2 -> no_buf s1 src (t1 + t2) ->
  wrote ip src off t1 s1 v1 f1 i1 s2 v2 f2 i2 -> wrote ip (src + t1) (off + t1) t2 s2 v2 f2 i2 s3 v3 f3 i3 ->
  wrote ip src off (t1 + t2) s1 v1 f1 i1 s3 v3 f3 i3.
Proof using Hg.
  intros Ht1 Ht2 Hnb [A1 A2 A3 A4 A5 A6 A7 A8 A9] [B1 B2 B3 B4 B5 B6 B7 B8 B9]. split; try done.
  - intros o Ho. rewrite B2, A2 by done. destruct (Z.lt_ge_cases o off); [zb; done|]. destruct (Z.lt_ge_cases o (off + t1)); [zb; done|].
    destruct (Z.lt_ge_cases o (off + (t1 + t2))); zb; cbn [andb]; [|done]. rewrite A9 by (apply Hnb; lia). f_equal. lia.
  - intros o Ho. destruct (Z.lt_ge_cases o (off + t1)); [|apply B3; lia]. rewrite (ex_old _ _ _ _ _ B4); apply A3; lia.
  - eapply extends_trans; [apply (gr_used _ _ _ A5)|done|done].
  - eapply grows_trans_new; [exact A5|exact B5|]. apply A4.
  - congruence.
  - by eapply iop_trans.
  - intros x Hx. rewrite B9, A9 by (done || by rewrite (bufarea_iop ip s1)). done.
Qed.

(** A turn of the loop that finds or gets a block. *)
Lemma write_turn s v blks ip f ind src off len a s1 v1 blks1 f1 ind1 :
  imap v (fs_itable s ip) f ind -> wf_mem (fmem s) -> 0 <= off -> off < MAXFILE * BSIZE -> 0 <= len -> len <= BSIZE - off mod BSIZE ->
  no_buf s src len -> bmap_post ip (off / BSIZE) s v f ind a s1 v1 f1 ind1 -> a <> 0 -> txn s1 v1 blks1 ∅ -> cost blks1 <= cost blks + 3 -> broom blks 5 ->
  exists b s2 s3 s4 s5 v5 blks5, lift (bread ROOTDEV a) s1 = Ret b s2 /\ either_copyin b (off mod BSIZE) false src len s2 = Ret 0 s3 /\
    lift (log_write b) s3 = Ret tt s4 /\ lift (brelse b) s4 = Ret tt s5 /\ txn s5 v5 blks5 ∅ /\ cost blks5 <= cost blks + 4 /\
    wrote ip src off len s v f ind s5 v5 f1 ind1.
Proof using Hstart Hsize Hend Hg.
  intros Hi Hw Ho Hom Hl Hle Hnb Hp Ha T1 Hc Hr. pose proof (div_range off ltac:(lia)) as Hbn.
  pose proof Hp as [Q1 Q2 Q3 Q4 Q5 Q6 Q7 Q8 Q9 Q10]. pose proof (Z.mod_pos_bound off BSIZE ltac:(done)) as Hmo.
  assert (fmem s1 = fmem s) as M1 by (unfold fmem; by rewrite Q9). pose proof (bufarea_iop ip s s1) as A1.
  destruct (im_data _ _ _ _ Q1 _ Hbn) as (Hd & Hu & Hni); [congruence|]. rewrite Q2 in Hd, Hu, Hni.
  destruct (write_block s1 v1 blks1 a src (off mod BSIZE) len T1 Hd) as (b & s2 & s3 & s4 & s5 & d' & E1 & E2 & E3 & E4 & T5 & R5 & W5 & M5 & D5); try done; try lia.
  { by rewrite M1. }
  { intros x Hx Hbx. by apply (Hnb x), A1. }
  { unfold broom in *. lia. }
  exists b, s2, s3, s4, s5, (upd v1 a d'), (add_block a blks1). split_and!; try done; [pose proof (cost_add a blks1); lia|].
  split; try done.
  - replace (fs_itable s5 ip) with (fs_itable s1 ip) by (destruct R5 as [(l & m & ->) _]; done). rewrite <- Q2. apply imap_write; [done|done|congruence].
  - intros o Hoo. apply (turn_content ip s v f ind a s1 v1 f1 ind1 off len (fun k => fmem s (src + k)) d' _ o Hi); try done.
    + intros k. apply u8_small, Hw.
    + intros p Hpp. rewrite D5 by done. by rewrite M1.
  - intros o Hoo. destruct (same_block off (o - off)) as [H' _]; [lia|lia|]. replace (off + (o - off)) with o in H' by lia. rewrite H'. congruence.
  - by eapply bmap_extends.
  - eapply (grows_trans_new _ (fun n => n = a)).
    + eapply grows_mono; [|exact Q6]. intros n [H0 ->]. split; [done|by left].
    + apply grows_upd; [apply Hd|done].
    + intros n ->. apply (ex_new _ _ _ _ _ (bmap_extends _ _ _ _ _ _ _ _ _ _ _ Hbn Hp)). split; [done|right; by exists (off / BSIZE)].
  - rewrite <- Q7. by destruct R5 as [(l & m & ->) _].
  - eapply iop_trans; [done|]. by apply iop_rop.
  - intros x Hx. rewrite M5 by (by rewrite A1). by rewrite M1.
Qed.

Lemma bmap_post_none ip bn s v f ind s' v' f' ind' src off :
  0 <= bn < MAXFILE -> imap v (fs_itable s ip) f ind -> wf_mem (fmem s) -> bmap_post ip bn s v f ind 0 s' v' f' ind' ->
  wrote ip src off 0 s v f ind s' v' f' ind'.
Proof using Hg.
  intros Hbn Hi Hw Hp. pose proof Hp as [Q1 Q2 Q3 Q4 Q5 Q6 Q7 Q8 Q9 Q10]. split; try done.
  - intros o Ho. rewrite no_content. unfold content. assert (f' (o / BSIZE) = f (o / BSIZE)) as ->.
    { destruct (Z.eq_dec (o / BSIZE) bn) as [->|]; [|apply Q3; by left]. destruct (Z.eq_dec (f bn) 0); [congruence|apply Q3; by right]. }
    destruct (Z.eqb_spec (f (o / BSIZE)) 0) as [|H0]; [done|]. by rewrite (bmap_keeps_block _ _ _ _ _ _ _ _ _ _ _ _ _ Hi Hp (div_range o Ho) H0).
  - intros; lia.
  - by eapply bmap_extends.
  - eapply grows_mono; [|exact Q6]. intros n [H0 ->]. split; [done|by left].
  - unfold fmem. by rewrite Q9.
  - unfold fmem. by rewrite Q9.
Qed.

Definition full (v : Z -> block) : Prop := forall b, 0 <= b < sb_size sb -> used v b = true.

Lemma writei_loop_ok fuel ip n : forall s v blks f ind src off tot,
  txn s v blks ∅ -> fs_sb s = sb -> meta_used sb first v -> imap v (fs_itable s ip) f ind -> wf_mem (fmem s) ->
  0 <= tot <= n -> n < 2 ^ 32 -> 0 <= off -> off + (n - tot) <= MAXFILE * BSIZE -> 0 <= src -> src + (n - tot) < 2 ^ 64 ->
  no_buf s src (n - tot) -> nblocks off (n - tot) < Z.of_nat fuel -> broom blks (4 * nblocks off (n - tot) + 3) ->
  exists t s' v' blks' f' ind', writei_loop fuel ip false src off n tot s = Ret (tot + t, off + t) s' /\
    0 <= t <= n - tot /\ (t < n - tot -> full v') /\ txn s' v' blks' ∅ /\ cost blks' <= cost blks + 4 * nblocks off (n - tot) /\
    wrote ip src off t s v f ind s' v' f' ind'.
Proof using Hstart Hsize Hend Hg.
  induction fuel as [|fuel IH]; intros s v blks f ind src off tot Ht Hsb Hm Hi Hw Htot Hn Ho Hmax Hs Hs' Hnb Hf Hr;
    [pose proof (nblocks_nonneg off (n - tot)); lia|].
  cbn [writei_loop]. destruct (Z.ltb_spec tot n) as [Hlt|Hge]; cbn [negb].
  2:{ exists 0, s, v, blks, f, ind. rewrite !Z.add_0_r. pose proof (nblocks_nonneg off (n - tot)).
      split_and!; try done; try lia. by apply wrote_refl. }
  pose proof (nblocks_step off (n - tot) ltac:(lia)) as Hst. cbn zeta in Hst. rewrite min_Zmin.
  pose proof (Z.mod_pos_bound off BSIZE ltac:(done)) as Hmo. set (m := Z.min (n - tot) (BSIZE - off mod BSIZE)) in *.
  assert (0 < m <= n - tot /\ m <= BSIZE - off mod BSIZE) as Hmm by lia.
  pose proof (nblocks_nonneg (off + m) (n - tot - m)) as Hnn. pose proof (div_range off ltac:(lia)) as Hbn.
  destruct (bmap_ok s v blks ip (off / BSIZE) f ind Ht Hsb Hm Hi Hbn) as (a & s1 & v1 & blks1 & f1 & ind1 & E1 & T1 & C1 & P1); [unfold broom in *; lia|].
  rewrite (bind_Ret _ _ _ _ _ E1). destruct (Z.eqb_spec a 0) as [->|Ha].
  { exists 0, s1, v1, blks1, f1, ind1. rewrite !Z.add_0_r. split_and!; try done; try lia; [intros _; exact (bp_full _ _ _ _ _ _ _ _ _ _ _ P1 eq_refl)|].
    by eapply bmap_post_none. }
  unfold geti. rewrite bind_gets, (im_dev _ _ _ _ (bp_map _ _ _ _ _ _ _ _ _ _ _ P1)).
  destruct (write_turn s v blks ip f ind src off m a s1 v1 blks1 f1 ind1) as (b & s2 & s3 & s4 & s5 & v5 & blks5 & E2 & E3 & E4 & E5 & T5 & C5 & P5); try done; try lia.
  { intros x Hx. apply Hnb. lia. }
  { unfold broom in *. lia. }
  rewrite (bind_Ret _ _ _ _ _ E2), (bind_Ret _ _ _ _ _ E3). change (0 =? -1) with false. cbn match.
  rewrite (bind_Ret _ _ _ _ _ E4), (bind_Ret _ _ _ _ _ E5). change (MAXFILE * BSIZE) with (268 * 1024) in Hmax.
  rewrite u64_small, !u32_small by lia. pose proof (wr_iop _ _ _ _ _ _ _ _ _ _ _ _ P5) as I5.
  destruct (IH s5 v5 blks5 f1 ind1 (src + m) (off + m) (tot + m) T5) as (t & s6 & v6 & blks6 & f6 & ind6 & E6 & Ht6 & F6 & T6 & C6 & P6); try lia.
  { by rewrite (io_sb _ _ _ I5). }
  { eapply grows_meta; [|done]. apply (wr_grows _ _ _ _ _ _ _ _ _ _ _ _ P5). }
  { apply (wr_map _ _ _ _ _ _ _ _ _ _ _ _ P5). }
  { apply (wr_wf _ _ _ _ _ _ _ _ _ _ _ _ P5). }
  { change (MAXFILE * BSIZE) with (268 * 1024). lia. }
  { intros x Hx Hbx. apply (Hnb x); [lia|]. by apply (bufarea_iop ip s s5). }
  { replace (n - (tot + m)) with (n - tot - m) by lia. lia. }
  { replace (n - (tot + m)) with (n - tot - m) by lia. unfold broom in *. lia. }
  replace (n - (tot + m)) with (n - tot - m) in * by lia.
  exists (m + t), s6, v6, blks6, f6, ind6. split; [rewrite E6; f_equal; f_equal; lia|]. split; [lia|]. split; [intros; apply F6; lia|].
  split; [done|]. split; [lia|]. eapply wrote_trans; [lia|lia| |exact P5|exact P6]. intros x Hx. apply Hnb. lia.
Qed.

(** The blocks of the inodes: outside the log, the bitmap and the data. *)
Record inode_blocks : Prop := {
  ib_home : inode_blocks_home start size sb;
  ib_meta : forall inum, 0 <= inum < sb_ninodes sb -> IBLOCK inum sb < first /\ ~ is_bitmap (IBLOCK inum sb)
}.

(** The inode [i] is a file of [sz] bytes [c]. *)
Record file_at (v : Z -> block) (i : inode) (f : Z -> Z) (ind sz : Z) (c : Z -> Z) : Prop := {
  fi_map : imap v i f ind;
  fi_inum : 0 <= i_inum i < sb_ninodes sb;
  fi_size : i_size i = sz;
  fi_range : 0 <= sz <= MAXFILE * BSIZE;
  fi_dense : dense f sz;
  fi_bytes : forall o, 0 <= o < MAXFILE * BSIZE -> content v f o = c o
}.

Lemma content_upd v f n d' o i ind : imap v i f ind -> n < first -> 0 <= o < MAXFILE * BSIZE -> content (upd v n d') f o = content v f o.
Proof.
  intros Hi Hn Ho. unfold content. destruct (Z.eqb_spec (f (o / BSIZE)) 0) as [|H0]; [done|].
  destruct (im_data _ _ _ _ Hi _ (div_range o Ho) H0) as [[H1 _] _]. by rewrite upd_ne by lia.
Qed.

Lemma imap_upd_meta v i f ind n d' :
  imap v i f ind -> n < first -> ~ is_bitmap n -> imap (upd v n d') i f ind.
Proof using Hg.
  intros Hi Hn Hb. apply (imap_frame v); [done| |].
  - intros H0. destruct (im_ind_data _ _ _ _ Hi H0) as [[H1 _] _]. by rewrite upd_ne by lia.
  - intros b Hr. unfold FsAlloc.used. rewrite upd_ne; [done|]. intros <-. apply Hb. by exists b.
Qed.

Lemma imap_size v i f ind n : imap v i f ind -> imap v (set_isize n i) f ind.
Proof. by intros []. Qed.

Lemma imap_dinode v i f ind sz : imap v i f ind -> i_size i = sz -> 0 <= sz <= MAXFILE * BSIZE ->
  short (i_type i) -> short (i_major i) -> short (i_minor i) -> short (i_nlink i) -> di_ok i.
Proof using Hg.
  intros Hi Hsz Hr H1 H2 H3 H4. change (MAXFILE * BSIZE) with (268 * 1024) in Hr. split; try done; [lia| |apply Hi].
  pose proof (ge_size _ _ _ _ Hg) as Hs. pose proof (ge_first _ _ _ _ Hg) as Hf.
  assert (forall a, a = 0 \/ datab a -> 0 <= a < 2 ^ 32) as Ha by (unfold datab; intros; lia).
  apply Forall_forall. intros a (k & Hk)%list_elem_of_lookup. apply Ha. pose proof (lookup_lt_Some _ _ _ Hk) as Hl. rewrite (im_len _ _ _ _ Hi) in Hl.
  assert (znth (i_addrs i) (Z.of_nat k) = Some a) as Hz by (unfold znth; zb; by rewrite Nat2Z.id).
  destruct (Z.lt_ge_cases (Z.of_nat k) NDIRECT) as [Hlt|Hge].
  - rewrite (im_direct _ _ _ _ Hi) in Hz by lia. injection Hz as <-. destruct (Z.eq_dec (f (Z.of_nat k)) 0); [by left|right].
    apply (im_data _ _ _ _ Hi); [|done]. change MAXFILE with 268. unfold NDIRECT in Hlt. lia.
  - replace (Z.of_nat k) with NDIRECT in Hz by (unfold NDIRECT in *; lia). rewrite (im_ind _ _ _ _ Hi) in Hz. injection Hz as <-.
    destruct (Z.eq_dec ind 0); [by left|right]. by apply (im_ind_data _ _ _ _ Hi).
Qed.

(** The result of writei's loop when the size is brought up to date. *)
Definition grown (sz off t : Z) : Z := if sz <? off + t then off + t else sz.

Lemma grown_dense f f' v ind ind' sz off t :
  dense f sz -> extends v f ind f' ind' -> (forall o, off <= o < off + t -> f' (o / BSIZE) <> 0) -> off <= sz -> dense f' (grown sz off t).
Proof.
  intros Hd He Hn Hoff o Ho. unfold grown in Ho. destruct (Z.lt_ge_cases o sz) as [H1|H1].
  - rewrite (ex_old _ _ _ _ _ He); apply Hd; lia.
  - apply Hn. destruct (Z.ltb_spec sz (off + t)); lia.
Qed.

Lemma set_isize_eta i : set_isize (i_size i) i = i.
Proof. by destruct i. Qed.

(** Bringing the size up to date. *)
Lemma resize_ok ip sz e s : i_size (fs_itable s ip) = sz ->
  exists s', when (sz <? e) (modi ip (set_isize e)) s = Ret tt s' /\ fs_l s' = fs_l s /\ fs_phys s' = fs_phys s /\ iop ip s s' /\
    fs_itable s' ip = set_isize (if sz <? e then e else sz) (fs_itable s ip).
Proof.
  intros Hsz. destruct (sz <? e); cbn [when].
  - eexists. split; [reflexivity|]. cbn. split; [done|]. split; [done|]. rewrite upd_eq. split; [|done].
    split; try done; cbn; [intros j Hj; by rewrite upd_ne|]. rewrite upd_eq. exists (i_addrs (fs_itable s ip)), e. by destruct (fs_itable s ip).
  - exists s. split; [done|]. split; [done|]. split; [done|]. split; [apply iop_refl|]. by rewrite <- Hsz, set_isize_eta.
Qed.

(** What writei leaves: [t] bytes written, the inode on disk brought up to date. *)
Record writei_post (ip src off t : Z) (s : fss) (v : Z -> block) (f : Z -> Z) (ind sz : Z) (c : Z -> Z)
    (s' : fss) (v' : Z -> block) (f' : Z -> Z) (ind' : Z) : Prop := {
  wp_file : file_at v' (fs_itable s' ip) f' ind' (grown sz off t)
    (fun o => if (off <=? o) && (o <? off + t) then fmem s (src + (o - off)) else c o);
  wp_dinode : let i := fs_itable s' ip in let n := IBLOCK (i_inum i) sb in v' n = put_dinode i (v n) (dip (i_inum i));
  wp_extends : extends v f ind f' ind';
  wp_used : forall b, 0 <= b < sb_size sb -> used v b = true -> used v' b = true;
  wp_same : forall n, ~ is_bitmap n -> (datab n -> used v n = true) -> ~ owns f ind n ->
    n <> IBLOCK (i_inum (fs_itable s ip)) sb -> v' n = v n;
  wp_iop : iop ip s s';
  wp_wf : wf_mem (fmem s');
  wp_mem : forall x, ~ bufarea s x -> fmem s' x = fmem s x
}.

Lemma iop_inum ip s s' : iop ip s s' -> i_inum (fs_itable s' ip) = i_inum (fs_itable s ip) /\ i_dev (fs_itable s' ip) = i_dev (fs_itable s ip).
Proof. intros H. destruct (io_inode _ _ _ H) as (l & n & ->). done. Qed.

Lemma owns_data v i f ind n : imap v i f ind -> owns f ind n -> datab n.
Proof. intros Hi [Hn [->|(bn & Hb & <-)]]; [by apply (im_ind_data _ _ _ _ Hi)|by apply (im_data _ _ _ _ Hi)]. Qed.

Lemma writei_ok s v blks ip f ind sz c src off n :
  txn s v blks ∅ -> fs_sb s = sb -> meta_used sb first v -> inode_blocks -> file_at v (fs_itable s ip) f ind sz c -> wf_mem (fmem s) ->
  0 <= off <= sz -> 0 <= n -> off + n <= MAXFILE * BSIZE -> 0 <= src -> src + n < 2 ^ 64 -> no_buf s src n ->
  broom blks (4 * nblocks off n + 5) ->
  exists t s' v' blks' f' ind', writei ip false src off n s = Ret t s' /\ 0 <= t <= n /\ (t < n -> full v') /\
    txn s' v' blks' ∅ /\ cost blks' <= cost blks + 4 * nblocks off n + 1 /\ writei_post ip src off t s v f ind sz c s' v' f' ind'.
Proof using Hstart Hsize Hend Hg.
  intros Ht Hsb Hm [Hih Him] [F1 F2 F3 F4 F5 F6] Hw Hoff Hn Hmax Hs Hs' Hnb Hr. change (MAXFILE * BSIZE) with (268 * 1024) in F4, Hmax.
  unfold writei, geti. rewrite bind_gets, F3. rewrite !u32_small by lia. change (MAXFILE * BSIZE) with (268 * 1024). zb. cbn [orb].
  destruct (writei_loop_ok (loop_fuel n) ip n s v blks f ind src off 0 Ht Hsb Hm F1 Hw) as (t & s1 & v1 & blks1 & f' & ind' & E1 & Ht1 & Hfull & T1 & C1 & W1);
    rewrite ?Z.sub_0_r; try lia; try done.
  { by apply nblocks_fuel. }
  { unfold broom in *. lia. }
  rewrite Z.sub_0_r, Z.add_0_l in *. rewrite (bind_Ret _ _ _ _ _ E1), bind_gets. destruct W1 as [A1 A2 A3 A4 A5 A6 A7 A8 A9].
  destruct (resize_ok ip sz (off + t) s1) as (s2 & E2 & L2 & P2 & I2 & Hi2); [by rewrite A6|].
  rewrite A6, F3, (bind_Ret _ _ _ _ _ E2). fold (grown sz off t) in Hi2. assert (txn s2 v1 blks1 ∅) as T2 by (unfold txn_at; by rewrite L2).
  pose proof (iop_trans _ _ _ _ A7 I2) as I02. destruct (iop_inum _ _ _ I02) as [N2 D2]. pose proof (im_dev _ _ _ _ F1) as Hdev.
  destruct (iupdate_ok start size Hstart Hsize Hend sb s2 v1 blks1 ip T2) as (s3 & E3 & T3 & R3); try done.
  { by rewrite (io_sb _ _ _ I02). } { by rewrite D2. } { by rewrite N2. }
  { apply (broom_room _ _ _ _ _ T2). rewrite size_empty. unfold broom in *. lia. }
  set (nb := IBLOCK (i_inum (fs_itable s2 ip)) sb) in *. destruct (Him (i_inum (fs_itable s2 ip))) as [Hb1 Hb2]; [by rewrite N2|]. fold nb in Hb1, Hb2.
  destruct (same_rest_size ip _ _ R3) as (_ & P3 & I3). rewrite (bind_Ret _ _ _ _ _ E3).
  exists t, s3, (upd v1 nb (put_dinode (fs_itable s2 ip) (v1 nb) (dip (i_inum (fs_itable s2 ip))))), (add_block nb blks1), f', ind'.
  split; [unfold ret; rewrite s32_small by lia; done|]. split; [lia|]. assert (forall b, 0 <= b < sb_size sb -> bb b <> nb) as Hnbb by (intros b Hb E; apply Hb2; by exists b).
  split; [intros Htn b Hb; unfold FsAlloc.used; rewrite upd_ne by auto; by apply Hfull|]. split; [done|].
  split; [pose proof (cost_add nb blks1); lia|]. assert (fmem s3 = fmem s1) as M3 by (unfold fmem; by rewrite P3, P2).
  split.
  - rewrite I3. split; [rewrite Hi2; by apply imap_size, imap_upd_meta|by rewrite N2|by rewrite Hi2| | |].
    + unfold grown. change (MAXFILE * BSIZE) with (268 * 1024). destruct (Z.ltb_spec sz (off + t)); lia.
    + eapply grown_dense; [done|exact A4|done|lia].
    + intros o Ho. rewrite (content_upd _ _ _ _ _ _ _ A1) by done. rewrite A2 by done. by rewrite F6.
  - rewrite I3. cbn zeta. fold nb. rewrite upd_eq. rewrite (gr_same _ _ _ A5); [done|done|unfold datab; lia|].
    intros H. apply (owns_data v (fs_itable s ip)) in H; [unfold datab in H; lia|done].
  - done.
  - intros b Hb Hu. unfold FsAlloc.used. rewrite upd_ne by auto. by apply (gr_used _ _ _ A5).
  - intros m Hmb Hmu Hmo Hmi. rewrite upd_ne by (subst nb; by rewrite N2). by apply (gr_same _ _ _ A5).
  - eapply iop_trans; [exact I02|by apply iop_rest].
  - by rewrite M3.
  - intros x Hx. rewrite M3. by apply A9.
Qed.

(** What is not in the log area decides what a file is. *)
Lemma file_at_agrees v v' i f ind sz c : file_at v i f ind sz c -> agrees start size v' v -> file_at v' i f ind sz c.
Proof using Hg.
  intros [F1 F2 F3 F4 F5 F6] Ha. assert (forall n, datab n -> v' n = v n) as Hd.
  { intros n Hn. apply Ha. destruct (ge_data_home _ _ _ _ Hg n Hn) as [_ H]. exact H. }
  split; try done.
  - apply (imap_frame v); [done| |].
    + intros H0. apply Hd, (im_ind_data _ _ _ _ F1 H0).
    + intros b Hb. unfold FsAlloc.used. rewrite Ha; [done|]. destruct (ge_bitmap_home _ _ _ _ Hg b Hb) as [_ H]. exact H.
  - intros o Ho. rewrite <- F6 by done. unfold content. destruct (Z.eqb_spec (f (o / BSIZE)) 0) as [|H0]; [done|].
    rewrite Hd; [done|]. apply (im_data _ _ _ _ F1); [by apply div_range|done].
Qed.

(** Between calls the blocks can still be read. *)
Lemma idle_txn l d : log_idle start size l d -> fs_txn start size 0 l d [] ∅.
Proof.
  intros [Hi Hl Hh Ho Hc]. assert (forall n, bs_disk (ls_b l) n = d n) as Hd.
  { intros n. apply (bi_disk _ _ _ _ Hi). rewrite union_empty_l_L. apply not_elem_of_empty. }
  split; try done. by rewrite Hd.
Qed.

End layout.

(** C10: A file is an array of bytes.  Let inode [ip] hold a file of [sz] bytes
    [c].  A call of writei for [n] bytes of memory at [off] (not past the end,
    not past MAXFILE blocks, small enough for the log) returns the number [t] of
    bytes written, which is less than [n] only on a full disk; then readi at any
    offset returns as many bytes as the file has there, and they are the bytes
    written in the range written and the old ones elsewhere.  The inode on disk
    is up to date, blocks in use that are not the file's are unchanged, and
    wherever the disk writes stop, recovery yields the disk before or after. *)
Theorem writei_readi_roundtrip start size sb first s d ip f ind sz c src off n dst off' n' :
  0 <= start -> 0 < size -> start + size < 2 ^ 31 -> geometry start size sb first -> inode_blocks start size sb first ->
  log_idle start size (fs_l s) d -> fs_sb s = sb -> meta_used sb first d -> file_at sb first d (fs_itable s ip) f ind sz c -> wf_mem (fmem s) ->
  0 <= off <= sz -> 0 <= n -> off + n <= MAXFILE * BSIZE -> 0 <= src -> src + n < 2 ^ 64 -> no_buf s src n ->
  4 * nblocks off n + 5 + Z.of_nat (base.size (bitmaps sb)) < Z.min NBUF size ->
  0 <= off' < 2 ^ 32 -> 0 <= n' < 2 ^ 32 -> 0 <= dst -> dst + n' < 2 ^ 64 -> no_buf s dst n' ->
  exists t s1 s2 d1 v f' ind' ws, call (writei ip false src off n) s = Ret t s1 /\ 0 <= t <= n /\ (t < n -> full sb v) /\
    readi ip false dst off' n' s1 = Ret (read_count (grown sz off t) off' n') s2 /\
    (forall k, 0 <= k < read_count (grown sz off t) off' n' ->
       fmem s2 (dst + k) = if (off <=? off' + k) && (off' + k <? off + t) then fmem s (src + (off' + k - off)) else c (off' + k)) /\
    log_idle start size (fs_l s1) d1 /\ agrees start size d1 v /\
    (let i := fs_itable s1 ip in file_at sb first v i f' ind' (grown sz off t)
       (fun o => if (off <=? o) && (o <? off + t) then fmem s (src + (o - off)) else c o) /\
       v (IBLOCK (i_inum i) sb) = put_dinode i (d (IBLOCK (i_inum i) sb)) (dip (i_inum i))) /\
    (forall m, ~ is_bitmap sb m -> (datab sb first m -> used sb d m = true) -> ~ owns f ind m ->
       m <> IBLOCK (i_inum (fs_itable s ip)) sb -> v m = d m) /\
    bs_writes (ls_b (fs_l s1)) = bs_writes (ls_b (fs_l s)) ++ ws /\ atomic start size (bs_disk (ls_b (fs_l s))) d v ws.
Proof.
  intros Hs Hz He Hg Hib Hi Hsb Hm Hf Hw Hoff Hn Hmax Hsrc Hsrc' Hnb Hr Hoff' Hn' Hdst Hdst' Hnb'.
  destruct (t_call start size Hs Hz He (writei ip false src off n) s d (fun t s2 v => exists f' ind', 0 <= t <= n /\ (t < n -> full sb v) /\
    writei_post sb first ip src off t s d f ind sz c s2 v f' ind') Hi)
    as (t & s2 & l & v & d1 & ws & E & (f' & ind' & Ht & Hfull & HP) & I1 & A1 & W1 & At1).
  - intros s1 [[l ->] Dk] T. assert (broom size sb [] (4 * nblocks off n + 5)) as Hbr.
    { unfold broom, cost. replace (list_to_set [] ∪ bitmaps sb) with (bitmaps sb) by (cbn; by rewrite union_empty_l_L). lia. }
    destruct (writei_ok start size Hs Hz He sb first Hg (set_l l s) d [] ip f ind sz c src off n T) as (t & s2 & v & blks & f' & ind' & E & Ht & Hfull & T2 & C2 & HP);
      try done. exists t, s2, v, blks. split; [exact E|]. split; [done|]. split; [apply (wp_iop _ _ _ _ _ _ _ _ _ _ _ _ _ _ _ _ HP)|].
    split; [pose proof (broom_room start size sb s2 v blks ∅ 0 T2) as Hrm; unfold broom, room in *; rewrite size_empty in Hrm; lia|].
    exists f', ind'. split; [done|]. split; [done|]. destruct HP as [P1 P2 P3 P4 P5 P6 P7 P8]. split; try done.
    eapply iop_trans; [|exact P6]. apply iop_rest. split; [by exists l|done].
  - destruct HP as [P1 P2 P3 P4 P5 P6 P7 P8]. pose proof (file_at_agrees start size sb first Hg _ _ _ _ _ _ _ P1 A1) as [G1 G2 G3 G4 G5 G6].
    pose proof (read_count_range (grown sz off t) off' n' ltac:(lia) ltac:(lia)) as Hk.
    destruct (readi_ok start size Hs Hz He sb first Hg (set_l l s2) d1 [] ip f' ind' dst off' n' (idle_txn _ _ _ _ I1)) as (s3 & E3 & _ & _ & _ & C3 & _);
      cbn [fs_itable set_l]; rewrite ?G3; try done; try lia.
    { intros x Hx Hb. apply (Hnb' x); [lia|]. by apply (bufarea_iop ip s s2). }
    cbn [fs_itable set_l] in E3, C3. rewrite G3 in E3, C3. exists t, (set_l l s2), s3, d1, v, f', ind', ws. split; [exact E|]. split; [done|]. split; [done|]. split; [exact E3|].
    split; [|split; [exact I1|]; split; [done|]; split; [done|]; split; [done|]; split; [exact W1|exact At1]].
    intros k Hk'. rewrite C3 by lia. replace (dst + k - dst) with k by lia. rewrite G6; [done|].
    unfold read_count in Hk'. destruct (Z.ltb_spec (grown sz off t) off'), (Z.leb_spec (2 ^ 32) (off' + n')); cbn [orb] in Hk'; lia.
Qed.

(** 1500 bytes written to an empty file on a fresh disk of 2000 blocks, and read
    back. *)
Lemma writei_readi_roundtrip_witness :
  let sb := mkSb FSMAGIC 2000 1954 200 30 2 32 45 in
  let d := fun n i => if n =? 45 then (if i <? 5 then 255 else if i =? 5 then 63 else 0) else 0 in
  exists s t s1 s2, log_idle 2 30 (fs_l s) d /\ call (writei 0 false 5000 0 1500) s = Ret t s1 /\ 0 <= t <= 1500 /\
    readi 0 false 20000 0 2000 s1 = Ret (read_count (grown 0 0 t) 0 2000) s2 /\
    (forall k, 0 <= k < read_count (grown 0 0 t) 0 2000 -> fmem s2 (20000 + k) = if k <? t then (5000 + k) mod 256 else 0).
Proof.
  set (sb := mkSb FSMAGIC 2000 1954 200 30 2 32 45).
  set (d := fun n i => if n =? 45 then (if i <? 5 then 255 else if i =? 5 then 63 else 0) else 0).
  destruct (idle_at_boot d) as (l & I & _); [by split|].
  set (s := with_mem (fun x => x mod 256) (set_itable (fun _ => mkInode ROOTDEV 5 1 1 T_FILE 0 0 1 0 (replicate 13 0)) (fresh_fss l sb))).
  assert (forall b, 0 <= b < 2000 -> bb sb b = 45) as Hbb by (intros b Hb; unfold bb, BPB, BSIZE; cbn [sb_bmapstart sb]; rewrite Z.div_small by lia; lia).
  destruct (writei_readi_roundtrip 2 30 sb 46 s d 0 (fun _ => 0) 0 0 (fun _ => 0) 5000 0 1500 20000 0 2000)
    as (t & s1 & s2 & _ & _ & _ & _ & _ & E1 & Ht & _ & E2 & C & _); try lia; try reflexivity.
  - split; [done|done|done| |]; intros b Hb; cbn [sb_size sb] in Hb; [change (home 2 30 (bb sb b)); rewrite (Hbb b Hb)|]; unfold home, inlog; lia.
  - assert (forall inum, 0 <= inum < 200 -> 32 <= IBLOCK inum sb < 45) as Hib.
    { intros inum Hi. unfold IBLOCK. cbn [sb_inodestart sb]. change IPB with 16. rewrite u32_small by dlia. dlia. }
    split; intros inum Hi; specialize (Hib inum Hi); [unfold home, inlog; lia|]. split; [lia|]. intros (b & Hb & E). rewrite (Hbb b Hb) in E. lia.
  - exact I.
  - intros b Hb. assert (forallb (fun b => used sb d b) (seqZ 0 46) = true) as H by (vm_compute; reflexivity).
    rewrite forallb_forall in H. apply (H b). rewrite <- list_elem_of_In, elem_of_seqZ. lia.
  - split; cbn; [|lia|done|change (MAXFILE * BSIZE) with 274432; lia|intros o Ho; lia|done]. split; cbn; try done.
    intros bn Hb. unfold NDIRECT in Hb. unfold znth. zb. by apply (lookup_replicate_2 13 0 (Z.to_nat bn)); lia.
  - intros x. apply Z.mod_pos_bound. lia.
  - change (MAXFILE * BSIZE) with 274432. lia.
  - intros x Hx (b & Hb & Hbx). cbn in Hbx. unfold BSIZE in Hbx. lia.
  - intros x Hx (b & Hb & Hbx). cbn in Hbx. unfold BSIZE in Hbx. lia.
  - exists s, t, s1, s2. split; [exact I|]. split; [exact E1|]. split; [exact Ht|]. split; [exact E2|]. intros k Hk. rewrite (C k Hk).
    rewrite (proj2 (Z.leb_le 0 (0 + k))) by lia. rewrite Z.add_0_l, Z.add_0_l. cbn [andb]. destruct (k <? t); [|done]. unfold fmem. cbn. f_equal. lia.
Defined.
