(* ===== verification/FsDir.v ===== *)
(** * Directories

    A directory is a file of 16-byte entries, and it holds a finite map from
    names to inode numbers: dirlookup() finds what the map says, and dirlink()
    extends the map. *)
From stdpp Require Import strings.
From S2P Require Import Prelude Mem StringC Kalloc Page Vm Locks Bio Log Fs FsTxn FsAlloc FsInode FsFile.
From Stdlib Require Import ZArith Lia.
Local Open Scope list_scope.
Local Open Scope Z_scope.
Local Open Scope kernel_scope.

(** ** Names of at most DIRSIZ bytes *)

(** The bytes at [a] before the NUL, at most [k] of them. *)
Fixpoint cstr (k : nat) (m : mem) (a : Z) : list Z :=
  match k with O => [] | S k => if m a =? 0 then [] else m a :: cstr k m (a + 1) end.
Definition dname (m : mem) (a : Z) : list Z := cstr 14 m a.

Lemma cstr_ext k m m' a a' : (forall i, 0 <= i < Z.of_nat k -> m (a + i) = m' (a' + i)) -> cstr k m a = cstr k m' a'.
Proof.
  revert a a'. induction k as [|k IH]; intros a a' H; [done|]. cbn [cstr]. pose proof (H 0 ltac:(lia)) as H0. rewrite !Z.add_0_r in H0. rewrite H0.
  case_match; [done|]. f_equal. apply IH. intros i Hi. specialize (H (i + 1) ltac:(lia)). by replace (a + 1 + i) with (a + (i + 1)) by lia; replace (a' + 1 + i) with (a' + (i + 1)) by lia.
Qed.

Lemma strncmp_loop_zero k m p q : wf_mem m -> strncmp_loop k m p q = 0 <-> cstr k m p = cstr k m q.
Proof.
  intros Hw. revert p q. induction k as [|k IH]; intros p q; [done|]. cbn [strncmp_loop cstr]. pose proof (Hw p). pose proof (Hw q).
  destruct (Z.eqb_spec (m p) 0) as [E|E]; cbn [negb andb].
  - destruct (Z.eqb_spec (m q) 0) as [E'|E']; [rewrite E, E'; done|]. split; [|done]. lia.
  - destruct (Z.eqb_spec (m p) (m q)) as [E'|E']; cbn [andb].
    + rewrite <- E', (proj2 (Z.eqb_neq _ _) E). rewrite IH. split; [by intros ->|by intros [= ->]].
    + split; [lia|]. destruct (Z.eqb_spec (m q) 0); [done|]. intros [= ? _]. done.
Qed.
Lemma namecmp_zero m p q : wf_mem m -> (namecmp m p q =? 0) = bool_decide (dname m p = dname m q).
Proof.
  intros Hw. pose proof (strncmp_loop_zero 14 m p q Hw) as H. unfold namecmp, strncmp. change (Z.to_nat DIRSIZ) with 14%nat.
  case_bool_decide as Hd; [by apply Z.eqb_eq, H|]. apply Z.eqb_neq. by intros E%H.
Qed.

(** strncpy() fills the rest with NULs. *)
Lemma cstr_stop k m a j : 0 <= j < Z.of_nat k -> (forall i, 0 <= i < j -> m (a + i) <> 0) -> m (a + j) = 0 -> forall m' a',
  (forall i, 0 <= i <= j -> m' (a' + i) = m (a + i)) -> cstr k m' a' = cstr k m a.
Proof.
  revert a j. induction k as [|k IH]; intros a j Hj Hn H0 m' a' H; [lia|]. cbn [cstr]. pose proof (H 0 ltac:(lia)) as E. rewrite !Z.add_0_r in E. rewrite E.
  destruct (Z.eq_dec j 0) as [->|Hj0]; [rewrite Z.add_0_r in H0; by rewrite H0|].
  case_match; [done|]. f_equal. apply (IH (a + 1) (j - 1)); [lia| | |].
  - intros i Hi. specialize (Hn (i + 1) ltac:(lia)). by replace (a + 1 + i) with (a + (i + 1)) by lia.
  - rewrite <- H0. f_equal. lia.
  - intros i Hi. specialize (H (i + 1) ltac:(lia)). by replace (a + 1 + i) with (a + (i + 1)) by lia; replace (a' + 1 + i) with (a' + (i + 1)) by lia.
Qed.
Lemma strncpy_name m s t : wf_mem m -> t + 14 <= s \/ s + 14 <= t ->
  wf_mem (strncpy m s t DIRSIZ) /\ dname (strncpy m s t DIRSIZ) s = dname m t /\ forall x, x < s \/ s + 14 <= x -> strncpy m s t DIRSIZ x = m x.
Proof.
  intros Hw Hd. unfold strncpy. change (Z.to_nat DIRSIZ) with 14%nat. destruct (strncpy_copy_spec 14 m s t Hw Hd) as (m' & j & -> & Hj & Hw' & Hc & Hn & Ho & He).
  replace (memset_loop (14 - j) m' (s + Z.of_nat j) 0) with (memset m' (s + Z.of_nat j) 0 (14 - Z.of_nat j)) by (unfold memset; f_equal; lia).
  split; [by apply memset_wf|]. split.
  - unfold dname. destruct He as [[Hj0 He]|[-> He]].
    + apply (cstr_stop 14 m t (Z.of_nat j - 1)); [lia|done|by replace (t + (Z.of_nat j - 1)) with (t + Z.of_nat j - 1) by lia|].
      intros i Hi. rewrite memset_out by lia. apply Hc. lia.
    + apply cstr_ext. intros i Hi. rewrite memset_out by lia. apply Hc. lia.
  - intros x Hx. rewrite memset_out by lia. apply Ho. lia.
Qed.

(** ** Entries *)

(** Entry [k] of the directory with the bytes [c]. *)
Definition de_inum (c : mem) (k : Z) : Z := ld16 c (16 * k).
Definition de_name (c : mem) (k : Z) : list Z := dname c (16 * k + 2).
Definition is_entry (c : mem) (nm : list Z) (k : Z) : Prop := de_inum c k <> 0 /\ de_name c k = nm.
#[export] Instance is_entry_dec c nm k : Decision (is_entry c nm k).
Proof. unfold is_entry. apply _. Defined.

(** The first entry of [nm] among the [n] from [k] on, and the first free one. *)
Fixpoint dfind (n : nat) (k : Z) (nm : list Z) (c : mem) : option Z :=
  match n with O => None | S n => if decide (is_entry c nm k) then Some k else dfind n (k + 1) nm c end.
Fixpoint dfree (n : nat) (k : Z) (c : mem) : Z :=
  match n with O => k | S n => if de_inum c k =? 0 then k else dfree n (k + 1) c end.

(** The map the directory of [n] entries holds. *)
Definition dir_map (n : nat) (c : mem) (nm : list Z) : option Z := option_map (de_inum c) (dfind n 0 nm c).

Lemma dfind_Some n k nm c j : dfind n k nm c = Some j -> k <= j < k + Z.of_nat n /\ is_entry c nm j /\ forall i, k <= i < j -> ~ is_entry c nm i.
Proof.
  revert k. induction n as [|n IH]; intros k H; [done|]. cbn in H. case_decide as Hd.
  - injection H as <-. split; [lia|]. split; [done|]. intros; lia.
  - apply IH in H as (H1 & H2 & H3). split; [lia|]. split; [done|]. intros i Hi. destruct (Z.eq_dec i k) as [->|]; [done|]. apply H3. lia.
Qed.
Lemma dfind_None n k nm c : dfind n k nm c = None <-> forall i, k <= i < k + Z.of_nat n -> ~ is_entry c nm i.
Proof.
  revert k. induction n as [|n IH]; intros k; cbn [dfind]; [split; [intros _ i; lia|done]|]. case_decide as Hd.
  - split; [done|]. intros H. exfalso. apply (H k); [lia|done].
  - rewrite IH. split; intros H i Hi; [destruct (Z.eq_dec i k) as [->|]; [done|]|]; apply H; lia.
Qed.
Lemma dfind_at n nm c j : 0 <= j < Z.of_nat n -> is_entry c nm j -> (forall i, 0 <= i < j -> ~ is_entry c nm i) -> dfind n 0 nm c = Some j.
Proof.
  intros Hj He Hn. destruct (dfind n 0 nm c) as [i|] eqn:E.
  - apply dfind_Some in E as (H1 & H2 & H3). f_equal. destruct (Z.lt_trichotomy i j) as [H|[H|H]]; [by destruct (Hn i ltac:(lia))|done|by destruct (H3 j ltac:(lia))].
  - rewrite dfind_None in E. by destruct (E j ltac:(lia)).
Qed.
Lemma dfree_ok n k c : let j := dfree n k c in k <= j <= k + Z.of_nat n /\ (j < k + Z.of_nat n -> de_inum c j = 0).
Proof.
  revert k. induction n as [|n IH]; intros k; cbn [dfree]; [split; lia|]. destruct (Z.eqb_spec (de_inum c k) 0) as [E|E]; [split; [lia|done]|].
  destruct (IH (k + 1)) as [H1 H2]. split; [lia|]. intros H. apply H2. lia.
Qed.

Lemma de_ext c c' k : (forall i, 0 <= i < 16 -> c' (16 * k + i) = c (16 * k + i)) -> de_inum c' k = de_inum c k /\ de_name c' k = de_name c k.
Proof.
  intros H. split.
  - unfold de_inum, ld16. pose proof (H 0 ltac:(lia)) as H0. pose proof (H 1 ltac:(lia)) as H1. rewrite Z.add_0_r in H0. cbn. by rewrite H0, H1.
  - apply cstr_ext. intros i Hi. specialize (H (2 + i) ltac:(lia)). by replace (16 * k + 2 + i) with (16 * k + (2 + i)) by lia.
Qed.

(** Writing entry [j], the first free one, extends the map. *)
Lemma dir_map_link n c c' nm inum :
  let j := dfree n 0 c in let n' := Z.to_nat (Z.max (Z.of_nat n) (j + 1)) in
  dfind n 0 nm c = None -> inum <> 0 -> de_inum c' j = inum -> de_name c' j = nm ->
  (forall k, 0 <= k < Z.of_nat n' -> k <> j -> de_inum c' k = de_inum c k /\ de_name c' k = de_name c k) ->
  forall nm', dir_map n' c' nm' = if decide (nm' = nm) then Some inum else dir_map n c nm'.
Proof.
  intros j n' Hf Hi Ei En Ho nm'. destruct (dfree_ok n 0 c) as [Hj Hj0]. fold j in Hj, Hj0. rewrite Z.add_0_l in *.
  assert (Z.of_nat n' = Z.max (Z.of_nat n) (j + 1)) as En' by (unfold n'; lia). rewrite dfind_None in Hf.
  assert (forall x k, 0 <= k < Z.of_nat n' -> k <> j -> is_entry c' x k <-> is_entry c x k) as Hs.
  { intros x k Hk Hn. unfold is_entry. by destruct (Ho k Hk Hn) as [-> ->]. }
  unfold dir_map. case_decide as Hd.
  - subst nm'. rewrite (dfind_at n' nm c' j); [by rewrite <- Ei|lia|split; congruence|]. intros i Hii. rewrite Hs by lia. apply Hf. lia.
  - destruct (dfind n 0 nm' c) as [i|] eqn:E.
    + apply dfind_Some in E as (H1 & H2 & H3). assert (i <> j) as Hij by (intros ->; destruct H2 as [H2 _]; by apply H2, Hj0; lia).
      rewrite (dfind_at n' nm' c' i); [cbn; f_equal; by apply Ho; lia|lia|rewrite Hs by lia; done|].
      intros k Hk He. destruct (Z.eq_dec k j) as [->|Hkj]; [destruct He; congruence|]. rewrite Hs in He by lia. by apply (H3 k).
    + rewrite dfind_None in E. rewrite (proj2 (dfind_None n' 0 nm' c')); [done|]. intros k Hk He.
      destruct (Z.eq_dec k j) as [->|Hkj]; [destruct He; congruence|]. rewrite Hs in He by lia. apply (E k); [lia|done].
Qed.

Section layout.
Context (start size : Z) (Hstart : 0 <= start) (Hsize : 0 < size) (Hend : start + size < 2 ^ 31).
Context (sb : superblock) (first : Z) (Hg : geometry start size sb first).

Abbreviation txn_at := (txn_at start size).
Abbreviation room := (FsTxn.room size).

(** ** Reading entries into the stack frame *)

(** Only the 16 bytes at [a], the buffers' and the cache changed. *)
Record fills (a : Z) (s s' : fss) : Prop := {
  fl_rop : rop s s';
  fl_wf : wf_mem (fmem s');
  fl_mem : forall x, ~ (a <= x < a + 16) -> ~ bufarea s x -> fmem s' x = fmem s x
}.
Lemma rop_same s s' : rop s s' -> fs_itable s' = fs_itable s /\ fs_sb s' = fs_sb s /\ fs_frame s' = fs_frame s /\ fs_bufaddr s' = fs_bufaddr s.
Proof. by intros [(l & m & ->) _]. Qed.
Lemma bufarea_same s s' x : fs_bufaddr s' = fs_bufaddr s -> bufarea s' x <-> bufarea s x.
Proof. unfold bufarea. by intros ->. Qed.
Lemma no_buf_same s s' a n : fs_bufaddr s' = fs_bufaddr s -> no_buf s a n -> no_buf s' a n.
Proof. intros E H x Hx. rewrite (bufarea_same s s' x E). by apply H. Qed.
Lemma fills_refl a s : wf_mem (fmem s) -> fills a s s.
Proof. split; [apply rop_rest, same_rest_refl|done|done]. Qed.
Lemma fills_trans a s1 s2 s3 : fills a s1 s2 -> fills a s2 s3 -> fills a s1 s3.
Proof.
  intros [A1 A2 A3] [B1 B2 B3]. split; [by eapply rop_trans|done|]. intros x Hx Hb. rewrite B3, A3; try done.
  by rewrite (bufarea_same s1 s2) by apply rop_same, A1.
Qed.

(** Inode [i] is a directory of the [n] entries [c]. *)
Record dir_at (v : Z -> block) (i : inode) (f : Z -> Z) (ind : Z) (n : nat) (c : mem) : Prop := {
  da_file : file_at sb first v i f ind (16 * Z.of_nat n) c;
  da_type : i_type i = T_DIR
}.
Lemma dir_bound v i f ind n c : dir_at v i f ind n c -> 16 * Z.of_nat n <= 268 * 1024.
Proof. intros [[_ _ _ H _ _] _]. change (MAXFILE * BSIZE) with (268 * 1024) in H. lia. Qed.

Lemma read_entry {out} s v blks dp f ind n c a k :
  txn_at out s v blks ∅ -> dir_at v (fs_itable s dp) f ind n c -> room blks ∅ 0 -> wf_mem (fmem s) ->
  0 <= k < Z.of_nat n -> 0 <= a -> a + 16 < 2 ^ 64 -> no_buf s a 16 ->
  exists s', readi dp false a (16 * k) 16 s = Ret 16 s' /\ txn_at out s' v blks ∅ /\ fills a s s' /\
    ld16 (fmem s') a = de_inum c k /\ dname (fmem s') (a + 2) = de_name c k.
Proof using Hstart Hsize Hend Hg.
  intros Ht Hd Hr Hw Hk Ha Ha' Hnb. pose proof (dir_bound _ _ _ _ _ _ Hd) as Hn. destruct Hd as [[F1 F2 F3 F4 F5 F6] _].
  assert (read_count (16 * Z.of_nat n) (16 * k) 16 = 16) as Ec by (unfold read_count; zb; cbn [orb]; lia).
  destruct (readi_ok start size Hstart Hsize Hend sb first Hg s v blks dp f ind a (16 * k) 16 Ht F1 Hr Hw) as (s' & E & T & R & W & C & D);
    rewrite ?F3, ?Ec; try done; try lia.
  rewrite F3, Ec in *. exists s'. split; [done|]. split; [done|]. split; [by split|].
  assert (forall i, 0 <= i < 16 -> fmem s' (a + i) = c (16 * k + i)) as Hc.
  { intros i Hi. rewrite C by lia. rewrite F6 by (change (MAXFILE * BSIZE) with (268 * 1024); lia). f_equal. lia. }
  split.
  - unfold de_inum, ld16. rewrite (Hc 1), <- (Z.add_0_r a), (Hc 0), Z.add_0_r by lia. done.
  - apply cstr_ext. intros i Hi. replace (a + 2 + i) with (a + (2 + i)) by lia. rewrite Hc by lia. f_equal. lia.
Qed.

(** ** dirlookup *)

(** The arguments of dirlookup and dirlink: the name is apart from the frame and the buffers. *)
Record args_ok (s : fss) (name : Z) : Prop := {
  ao_frame : 0 <= fs_frame s; ao_frame_end : fs_frame s + 32 < 2 ^ 64; ao_frame_buf : no_buf s (fs_frame s) 32;
  ao_name : no_buf s name 14; ao_apart : name + 14 <= fs_frame s \/ fs_frame s + 32 <= name
}.
Lemma args_fills a s s' name : fills a s s' -> args_ok s name -> args_ok s' name.
Proof.
  intros H [A1 A2 A3 A4 A5]. destruct (rop_same _ _ (fl_rop _ _ _ H)) as (_ & _ & Ef & Eb). split; rewrite ?Ef; try done; by apply (no_buf_same s).
Qed.
Lemma name_fills a s s' name : fills a s s' -> fs_frame s <= a <= fs_frame s + 16 -> args_ok s name -> dname (fmem s') name = dname (fmem s) name.
Proof. intros [_ _ H] Ha [A1 A2 A3 A4 A5]. apply cstr_ext. intros i Hi. apply H; [lia|apply A4; lia]. Qed.

(** What dirlookup does from the state the search leaves. *)
Definition found (o : option Z) (c : mem) : M fss (Z * Z) :=
  match o with None => ret (null, 0) | Some k => ip <- iget ROOTDEV (de_inum c k) ;; ret (ip, 16 * k) end.

Lemma dirlookup_loop_ok {out} v blks dp f ind n c name fuel : forall s k,
  txn_at out s v blks ∅ -> dir_at v (fs_itable s dp) f ind n c -> room blks ∅ 0 -> wf_mem (fmem s) -> args_ok s name ->
  0 <= k <= Z.of_nat n -> Z.of_nat n - k < Z.of_nat fuel ->
  exists s', dirlookup_loop fuel dp name (16 * k) s = found (dfind (Z.to_nat (Z.of_nat n - k)) k (dname (fmem s) name) c) c s' /\
    txn_at out s' v blks ∅ /\ fills (fs_frame s) s s'.
Proof using Hstart Hsize Hend Hg.
  induction fuel as [|fuel IH]; intros s k Ht Hd Hr Hw Ha Hk Hf; [lia|].
  pose proof (dir_bound _ _ _ _ _ _ Hd) as Hn. pose proof Hd as [[F1 _ F3 _ _ _] _].
  cbn [dirlookup_loop]. unfold geti. rewrite bind_gets, F3.
  destruct (Z.eq_dec k (Z.of_nat n)) as [->|Hkn].
  { zb. cbn [negb]. rewrite Z.sub_diag. exists s. split; [done|]. split; [done|]. by apply fills_refl. }
  replace (Z.to_nat (Z.of_nat n - k)) with (S (Z.to_nat (Z.of_nat n - (k + 1)))) by lia. cbn [dfind].
  zb. cbn [negb]. rewrite bind_gets. unfold de_lookup. pose proof Ha as [A1 A2 A3 A4 A5].
  destruct (read_entry s v blks dp f ind n c (fs_frame s) k Ht Hd Hr Hw) as (s1 & E1 & T1 & R1 & Hi & Hnm); try lia.
  { intros x Hx. apply A3. lia. }
  rewrite (bind_Ret _ _ _ _ _ E1). cbn [Z.eqb negb Pos.eqb]. rewrite bind_gets. fold (fmem s1). rewrite namecmp_zero by apply (fl_wf _ _ _ R1).
  rewrite Hi, Hnm, (name_fills _ _ _ _ R1) by (done || lia).
  destruct (rop_same _ _ (fl_rop _ _ _ R1)) as (Et & _ & Ef & Eb).
  destruct (decide (is_entry c (dname (fmem s) name) k)) as [[He1 He2]|He].
  { rewrite (proj2 (Z.eqb_neq _ _) He1), bool_decide_true by done. cbn [orb negb]. exists s1. rewrite (im_dev _ _ _ _ _ _ F1). done. }
  replace ((de_inum c k =? 0) || negb (bool_decide (dname (fmem s) name = de_name c k))) with true.
  2:{ symmetry. apply orb_true_iff. destruct (Z.eqb_spec (de_inum c k) 0); [by left|right]. rewrite bool_decide_false; [done|]. intros E. by apply He. }
  rewrite u32_small by lia. replace (16 * k + 16) with (16 * (k + 1)) by lia.
  destruct (IH s1 (k + 1)) as (s2 & E2 & T2 & R2); try done; try lia.
  { by rewrite Et. } { apply (fl_wf _ _ _ R1). } { by eapply args_fills. }
  rewrite (name_fills _ _ _ _ R1) in E2 by (done || lia). rewrite Ef in R2. exists s2. split; [done|]. split; [done|]. by eapply fills_trans.
Qed.

Lemma dirlookup_ok {out} s v blks dp f ind n c name :
  txn_at out s v blks ∅ -> dir_at v (fs_itable s dp) f ind n c -> room blks ∅ 0 -> wf_mem (fmem s) -> args_ok s name ->
  exists s', dirlookup dp name s = found (dfind n 0 (dname (fmem s) name) c) c s' /\ txn_at out s' v blks ∅ /\ fills (fs_frame s) s s'.
Proof using Hstart Hsize Hend Hg.
  intros Ht Hd Hr Hw Ha. pose proof Hd as [[_ _ F3 _ _ _] Hty]. unfold dirlookup, geti. rewrite bind_gets, Hty, F3. cbn [negb].
  change (T_DIR =? T_DIR) with true. cbn [negb]. replace (16 * Z.of_nat n / 16) with (Z.of_nat n) by (rewrite Z.mul_comm, Z.div_mul; done).
  destruct (dirlookup_loop_ok (out := out) v blks dp f ind n c name (S (Z.to_nat (Z.of_nat n + 1))) s 0) as (s' & E & H); try done; try lia.
  rewrite Z.sub_0_r, Nat2Z.id in E. by exists s'.
Qed.

(** iget returns when itable has a free entry. *)
Definition slot (s : fss) : Prop := exists j, 0 <= j < NINODE /\ i_ref (fs_itable s j) = 0.

Lemma iget_ok {out} s v blks dev inum : txn_at out s v blks ∅ -> slot s ->
  exists ip s', iget dev inum s = Ret ip s' /\ 0 <= ip < NINODE /\ i_dev (fs_itable s' ip) = dev /\ i_inum (fs_itable s' ip) = inum.
Proof.
  intros Ht (j & Hj & H0). pose proof (bi_held _ _ _ _ (ft_bio _ _ _ _ _ _ _ Ht)) as Hh.
  assert (exists ip s', iget dev inum s = Ret ip s') as (ip & s' & E); [|exists ip, s'; split; [done|]; apply iget_ids in E; tauto].
  unfold iget. erewrite bind_Ret by (apply fl_lk, lk_acquire_ok; rewrite Hh; apply not_elem_of_nil). rewrite bind_gets.
  cbn [fs_itable set_l]. pose proof (iget_scan_ok (Z.to_nat NINODE) 0 null dev inum (fs_itable s) ltac:(lia) ltac:(done)) as Hs.
  rewrite Hh. destruct (iget_scan _ _ _ _ _ _) as [i|e].
  - erewrite bind_Ret by reflexivity. erewrite bind_Ret by (apply fl_lk, (lk_release_ok L_itable []); [done|apply not_elem_of_nil]). by eexists _, _.
  - destruct Hs as (_ & _ & Hs). destruct (Z.eqb_spec e null) as [->|He]; [destruct Hs as [_ Hs]; [done|]; by destruct (Hs j ltac:(lia))|].
    erewrite bind_Ret by reflexivity. erewrite bind_Ret by (apply fl_lk, (lk_release_ok L_itable []); [done|apply not_elem_of_nil]). by eexists _, _.
Qed.

(** A change of itable with its lock taken and given back. *)
Lemma itable_locked s t : lk_held (bs_lk (ls_b (fs_l s))) = [] ->
  exists s1, lift (acquire L_itable) s = Ret tt s1 /\ fs_itable s1 = fs_itable s /\ lift (release L_itable) (set_itable t s1) = Ret tt (set_itable t s).
Proof.
  intros Hh. eexists. split; [apply fl_lk, lk_acquire_ok; rewrite Hh; apply not_elem_of_nil|]. split; [done|].
  erewrite fl_lk by (apply (lk_release_ok L_itable []); [cbn; by rewrite Hh|apply not_elem_of_nil]).
  destruct s as [[[] ] ? ? ? ? ? ? ?]. cbn in *. unfold set_l, set_itable, set_lk, set_lk_held. cbn. do 4 f_equal.
  destruct bs_lk. cbn in *. by subst.
Qed.

Lemma iput_drops ip s : lk_held (bs_lk (ls_b (fs_l s))) = [] ->
  ~ (i_ref (fs_itable s ip) = 1 /\ i_valid (fs_itable s ip) <> 0) ->
  iput ip s = Ret tt (set_itable (upd (fs_itable s) ip (set_iref (s32 (i_ref (fs_itable s ip) - 1)) (fs_itable s ip))) s).
Proof.
  intros Hh Hn. destruct (itable_locked s (upd (fs_itable s) ip (set_iref (s32 (i_ref (fs_itable s ip) - 1)) (fs_itable s ip))) Hh) as (s1 & E1 & T & E2).
  unfold iput. rewrite (bind_Ret _ _ _ _ _ E1). unfold geti. rewrite bind_gets, T.
  replace ((i_ref (fs_itable s ip) =? 1) && negb (i_valid (fs_itable s ip) =? 0)) with false.
  - cbn [andb when]. rewrite (bind_Ret _ _ _ _ _ (eq_refl : ret tt s1 = _)), (bind_Ret _ _ _ _ _ (eq_refl : modi _ _ _ = _)). by rewrite T.
  - symmetry. destruct (Z.eqb_spec (i_ref (fs_itable s ip)) 1), (Z.eqb_spec (i_valid (fs_itable s ip)) 0); try done. by destruct Hn.
Qed.

(** Taking a reference to an inode and dropping it leaves every entry in use
    as it was, and no more entries in use. *)
Lemma iget_iput s inum : lk_held (bs_lk (ls_b (fs_l s))) = [] -> slot s ->
  (forall j, 0 <= j < NINODE -> 0 <= i_ref (fs_itable s j) < 2 ^ 31 - 1) ->
  exists ip s1 t, iget ROOTDEV inum s = Ret ip s1 /\ ip <> null /\ iput ip s1 = Ret tt (set_itable t s) /\
    forall j, i_ref (t j) = i_ref (fs_itable s j) /\ (i_ref (fs_itable s j) <> 0 -> t j = fs_itable s j).
Proof.
  intros Hh (j0 & Hj0 & H0) Hr. pose proof (iget_scan_ok (Z.to_nat NINODE) 0 null ROOTDEV inum (fs_itable s) ltac:(lia) ltac:(done)) as Hs.
  rewrite Z2Nat.id, Z.add_0_l in Hs by done. unfold iget. destruct (iget_scan _ _ _ _ _ _) as [ip|e] eqn:Esc.
  - destruct Hs as [Hip (Hm & _)]. specialize (Hr ip Hip).
    destruct (itable_locked s (upd (fs_itable s) ip (set_iref (s32 (i_ref (fs_itable s ip) + 1)) (fs_itable s ip))) Hh) as (s1 & E1 & T & E2).
    eexists ip, _, _. split.
    { rewrite (bind_Ret _ _ _ _ _ E1), bind_gets, T, Esc, (bind_Ret _ _ _ _ _ (eq_refl : modi _ _ _ = _)), T, (bind_Ret _ _ _ _ _ E2). reflexivity. }
    split; [unfold null; lia|]. split.
    { rewrite iput_drops; [reflexivity|done|]. cbn [fs_itable set_itable]. rewrite upd_eq. cbn. rewrite s32_small by lia. intros [Hc _]. lia. }
    intros j. cbn [fs_itable set_itable]. destruct (Z.eq_dec j ip) as [->|Hne]; [|by rewrite !upd_ne by done].
    rewrite !upd_eq. cbn. rewrite (s32_small (_ + 1)), s32_small, Z.add_simpl_r by lia. split; [done|]. intros _. by destruct (fs_itable s ip).
  - destruct Hs as (_ & He & Hnull). destruct (Z.eqb_spec e null) as [->|Hne]; [destruct Hnull as [_ Hn]; [done|]; by destruct (Hn j0 Hj0)|].
    destruct (He Hne) as [He1 He2]. set (i := fs_itable s e) in *.
    destruct (itable_locked s (upd (fs_itable s) e (mkInode ROOTDEV inum 1 0 (i_type i) (i_major i) (i_minor i) (i_nlink i) (i_size i) (i_addrs i))) Hh) as (s1 & E1 & T & E2).
    eexists e, _, _. split.
    { rewrite (bind_Ret _ _ _ _ _ E1), bind_gets, T, Esc. rewrite (proj2 (Z.eqb_neq _ _) Hne), (bind_Ret _ _ _ _ _ (eq_refl : modi _ _ _ = _)), T, (bind_Ret _ _ _ _ _ E2). reflexivity. }
    split; [done|]. split.
    { rewrite iput_drops; [reflexivity|done|]. cbn [fs_itable set_itable]. rewrite upd_eq. cbn. lia. }
    intros j. cbn [fs_itable set_itable]. destruct (Z.eq_dec j e) as [->|Hje]; [|by rewrite !upd_ne by done].
    rewrite !upd_eq. cbn. fold i. rewrite He2. done.
Qed.

(** ** dirlink *)

Lemma dirlink_loop_ok {out} v blks dp f ind n c name fuel : forall s k,
  txn_at out s v blks ∅ -> dir_at v (fs_itable s dp) f ind n c -> room blks ∅ 0 -> wf_mem (fmem s) -> args_ok s name ->
  0 <= k <= Z.of_nat n -> Z.of_nat n - k < Z.of_nat fuel ->
  exists s', dirlink_loop fuel dp (16 * k) s = Ret (16 * dfree (Z.to_nat (Z.of_nat n - k)) k c) s' /\ txn_at out s' v blks ∅ /\ fills (fs_frame s + 16) s s'.
Proof using Hstart Hsize Hend Hg.
  induction fuel as [|fuel IH]; intros s k Ht Hd Hr Hw Ha Hk Hf; [lia|].
  pose proof (dir_bound _ _ _ _ _ _ Hd) as Hn. pose proof Hd as [[F1 _ F3 _ _ _] _].
  cbn [dirlink_loop]. unfold geti. rewrite bind_gets, F3, u32_small by lia.
  destruct (Z.eq_dec k (Z.of_nat n)) as [->|Hkn].
  { zb. cbn [negb]. rewrite Z.sub_diag. exists s. split; [done|]. split; [done|]. by apply fills_refl. }
  replace (Z.to_nat (Z.of_nat n - k)) with (S (Z.to_nat (Z.of_nat n - (k + 1)))) by lia. cbn [dfree].
  zb. cbn [negb]. rewrite bind_gets. unfold de_link. pose proof Ha as [A1 A2 A3 A4 A5].
  destruct (read_entry s v blks dp f ind n c (fs_frame s + 16) k Ht Hd Hr Hw) as (s1 & E1 & T1 & R1 & Hi & Hnm); try lia.
  { intros x Hx. apply A3. lia. }
  rewrite (bind_Ret _ _ _ _ _ E1). cbn [Z.eqb negb Pos.eqb]. rewrite bind_gets. fold (fmem s1). rewrite Hi.
  destruct (rop_same _ _ (fl_rop _ _ _ R1)) as (Et & _ & Ef & Eb). destruct (de_inum c k =? 0); [by exists s1|].
  rewrite s32_small by lia. replace (16 * k + 16) with (16 * (k + 1)) by lia.
  destruct (IH s1 (k + 1)) as (s2 & E2 & T2 & R2); try done; try lia.
  { by rewrite Et. } { apply (fl_wf _ _ _ R1). } { by eapply args_fills. }
  rewrite Ef in R2. exists s2. split; [done|]. split; [done|]. by eapply fills_trans.
Qed.

(** The entry built in the frame. *)
Definition entry_mem (m : mem) (de name inum : Z) : mem := st16 (strncpy m (de + 2) name DIRSIZ) de inum.

Lemma entry_mem_ok m de name inum : wf_mem m -> name + 14 <= de \/ de + 16 <= name -> 0 <= inum < 2 ^ 16 ->
  let m' := entry_mem m de name inum in
  wf_mem m' /\ ld16 m' de = inum /\ dname m' (de + 2) = dname m name /\ forall x, x < de \/ de + 16 <= x -> m' x = m x.
Proof.
  intros Hw Hd Hi m'. destruct (strncpy_name m (de + 2) name Hw) as (H1 & H2 & H3); [lia|]. subst m'. unfold entry_mem.
  assert (forall x, x < de \/ de + 2 <= x -> st16 (strncpy m (de + 2) name DIRSIZ) de inum x = strncpy m (de + 2) name DIRSIZ x) as Ho.
  { intros x Hx. apply stn_out. lia. }
  split; [by apply stn_wf|]. split; [rewrite (ldn_stn_eq 2); by apply Z.mod_small|]. split.
  - rewrite <- H2. apply cstr_ext. intros i Hii. apply Ho. lia.
  - intros x Hx. rewrite Ho by lia. apply H3. lia.
Qed.

(** The directory with the entry written. *)
Lemma linked_map n c c' nm inum : let j := dfree n 0 c in
  dfind n 0 nm c = None -> inum <> 0 -> ld16 c' (16 * j) = inum -> dname c' (16 * j + 2) = nm ->
  (forall o, 0 <= o -> ~ (16 * j <= o < 16 * j + 16) -> c' o = c o) ->
  exists n', grown (16 * Z.of_nat n) (16 * j) 16 = 16 * Z.of_nat n' /\
    forall nm', dir_map n' c' nm' = if decide (nm' = nm) then Some inum else dir_map n c nm'.
Proof.
  intros j Hf Hi Ei En Ho. exists (Z.to_nat (Z.max (Z.of_nat n) (j + 1))). destruct (dfree_ok n 0 c) as [Hj _]. fold j in Hj.
  split; [unfold grown; destruct (Z.ltb_spec (16 * Z.of_nat n) (16 * j + 16)); lia|].
  apply dir_map_link; try done. fold j. intros k Hk Hkj. apply de_ext. intros i Hii. apply Ho; lia.
Qed.

Lemma nblocks_entry j : nblocks (16 * j) 16 = 1.
Proof. unfold nblocks, BSIZE. cbn [Z.leb Z.compare]. rewrite Z.div_small; [done|]. dlia. Qed.

(** dirlink of a name that is not in the directory. *)
Record link_post (dp inum : Z) (nm : list Z) (s : fss) (v : Z -> block) (f : Z -> Z) (ind : Z) (k : nat) (c : mem) (r : Z) (s' : fss) (v' : Z -> block) : Prop := {
  lp_ret : r = 0 \/ r = -1 /\ full sb v';
  lp_dir : r = 0 -> exists f' ind' k' c', dir_at v' (fs_itable s' dp) f' ind' k' c' /\
    forall nm', dir_map k' c' nm' = if decide (nm' = nm) then Some inum else dir_map k c nm';
  lp_same : forall m, ~ is_bitmap sb m -> (datab sb first m -> used sb v m = true) -> ~ owns f ind m ->
    m <> IBLOCK (i_inum (fs_itable s dp)) sb -> v' m = v m;
  lp_iop : iop dp s s';
  lp_wf : wf_mem (fmem s');
  lp_mem : forall x, ~ (fs_frame s <= x < fs_frame s + 32) -> ~ bufarea s x -> fmem s' x = fmem s x
}.

Lemma dirlink_ok s v blks dp f ind n c name inum :
  FsTxn.txn_at start size 1 s v blks ∅ -> fs_sb s = sb -> meta_used sb first v -> inode_blocks start size sb first ->
  dir_at v (fs_itable s dp) f ind n c -> wf_mem (fmem s) -> args_ok s name -> 0 < inum < 2 ^ 16 ->
  dfind n 0 (dname (fmem s) name) c = None -> 16 * (Z.of_nat n + 1) <= MAXFILE * BSIZE -> broom size sb blks 9 ->
  exists r s' v' blks', dirlink dp name inum s = Ret r s' /\ FsTxn.txn_at start size 1 s' v' blks' ∅ /\ cost sb blks' <= cost sb blks + 5 /\
    link_post dp inum (dname (fmem s) name) s v f ind n c r s' v'.
Proof using Hstart Hsize Hend Hg.
  intros Ht Hsb Hm Hib Hd Hw Ha Hi Hf Hmax Hr. change (MAXFILE * BSIZE) with (268 * 1024) in Hmax.
  assert (room blks ∅ 0) as Hr0 by (apply (broom_room start size sb s v blks ∅ 0 Ht); rewrite size_empty; unfold broom in *; lia).
  destruct (dirlookup_ok s v blks dp f ind n c name Ht Hd Hr0 Hw Ha) as (s1 & E1 & T1 & R1). rewrite Hf in E1. unfold dirlink.
  rewrite (bind_Ret _ _ _ _ _ E1). change (negb (null =? null)) with false. cbn iota. unfold geti. rewrite bind_gets.
  destruct (rop_same _ _ (fl_rop _ _ _ R1)) as (Et & Es & Ef & Eb). pose proof (args_fills _ _ _ _ R1 Ha) as Ha1.
  destruct (dirlink_loop_ok v blks dp f ind n c name (S (Z.to_nat (Z.of_nat n + 1))) s1 0 T1) as (s2 & E2 & T2 & R2);
    rewrite ?Et; try done; try lia; [apply (fl_wf _ _ _ R1)|].
  pose proof Hd as [Hfi Hty]. rewrite (fi_size _ _ _ _ _ _ _ _ Hfi). replace (16 * Z.of_nat n / 16) with (Z.of_nat n) by (rewrite Z.mul_comm, Z.div_mul; done).
  rewrite Z.mul_0_r, Z.sub_0_r, Nat2Z.id in E2. rewrite (bind_Ret _ _ _ _ _ E2), bind_gets. unfold de_link.
  destruct (rop_same _ _ (fl_rop _ _ _ R2)) as (Et2 & Es2 & Ef2 & Eb2). pose proof (args_fills _ _ _ _ R2 Ha1) as [A1 A2 A3 A4 A5].
  rewrite Ef2, Ef in *. set (de := fs_frame s + 16) in *. erewrite bind_Ret by apply setmem_ok. erewrite bind_Ret by apply setmem_ok.
  destruct (dfree_ok n 0 c) as [Hj _]. set (j := dfree n 0 c) in *. rewrite u32_small by lia.
  destruct (entry_mem_ok (fmem s2) de name inum) as (Hw3 & Hin & Hnm & Ho); [apply (fl_wf _ _ _ R2)|lia|lia|].
  set (s3 := with_mem (entry_mem (fmem s2) de name inum) s2). change (with_mem _ (with_mem _ s2)) with s3.
  assert (iop dp s s3) as I3.
  { apply iop_rop. eapply rop_trans; [apply R1|]. eapply rop_trans; [apply R2|apply rop_mem]. }
  destruct (writei_ok start size Hstart Hsize Hend sb first Hg s3 v blks dp f ind (16 * Z.of_nat n) c de (16 * j) 16) as (t & s4 & v4 & blks4 & f4 & ind4 & E4 & Ht4 & Hfull & T4 & C4 & P4).
  { exact T2. } { cbn. congruence. } { done. } { done. } { cbn. by rewrite Et2, Et. } { exact Hw3. } { lia. } { done. }
  { change (MAXFILE * BSIZE) with (268 * 1024). lia. } { lia. } { lia. } { intros x Hx. apply A3. lia. } { by rewrite nblocks_entry. }
  rewrite nblocks_entry in C4. rewrite (bind_Ret _ _ _ _ _ E4). exists (if t =? 16 then 0 else -1), s4, v4, blks4.
  split; [by destruct (t =? 16)|]. split; [done|]. split; [lia|]. destruct P4 as [Q1 _ _ Q4 Q5 Q6 Q7 Q8].
  assert (i_inum (fs_itable s3 dp) = i_inum (fs_itable s dp)) as Hinum by (cbn; by rewrite Et2, Et). rewrite Hinum in Q5.
  split; [| |done|by eapply iop_trans|done|].
  - destruct (Z.eqb_spec t 16); [by left|right; split; [done|]; apply Hfull; lia].
  - destruct (Z.eqb_spec t 16) as [->|]; [intros _|done].
    destruct (linked_map n c (fun o => if (16 * j <=? o) && (o <? 16 * j + 16) then fmem s3 (de + (o - 16 * j)) else c o) (dname (fmem s) name) inum)
      as (n' & Hn' & Hmap); fold j; try done; try lia.
    + rewrite ld16_bytes. zb. cbn [andb]. rewrite <- Hin, ld16_bytes. change (fmem s3) with (entry_mem (fmem s2) de name inum). f_equal; [|f_equal]; f_equal; lia.
    + rewrite <- (name_fills _ _ _ _ R1) by (done || lia). rewrite <- (name_fills _ _ _ _ R2) by (try done; lia). rewrite <- Hnm.
      apply cstr_ext. intros i Hii. zb. cbn [andb]. change (fmem s3) with (entry_mem (fmem s2) de name inum). f_equal. lia.
    + intros o Ho1 Ho2. destruct (Z.leb_spec (16 * j) o), (Z.ltb_spec o (16 * j + 16)); cbn [andb]; try done; lia.
    + fold j in Hn'. rewrite Hn' in Q1. eexists f4, ind4, n', _. split; [split; [exact Q1|]|exact Hmap].
      destruct (io_inode _ _ _ Q6) as (l & m & ->). cbn. by rewrite Et2, Et.
  - intros x Hx Hb. rewrite Q8 by (by rewrite (bufarea_iop dp s s3)). change (fmem s3) with (entry_mem (fmem s2) de name inum). rewrite Ho by lia.
    rewrite (fl_mem _ _ _ R2), (fl_mem _ _ _ R1); try done; try lia. by rewrite (bufarea_same s s1).
Qed.

(** dirlink of a name that is in the directory. *)
Record present_post (dp : Z) (s : fss) (r : Z) (s' : fss) : Prop := {
  pr_ret : r = -1;
  pr_disk : same_disk s s';
  pr_dir : fs_itable s' dp = fs_itable s dp;
  pr_slot : slot s';
  pr_frame : fs_frame s' = fs_frame s;
  pr_wf : wf_mem (fmem s');
  pr_mem : forall x, ~ (fs_frame s <= x < fs_frame s + 32) -> ~ bufarea s x -> fmem s' x = fmem s x
}.

Lemma dirlink_present s v blks dp f ind n c name inum k :
  FsTxn.txn_at start size 1 s v blks ∅ -> dir_at v (fs_itable s dp) f ind n c -> room blks ∅ 0 -> wf_mem (fmem s) -> args_ok s name -> slot s ->
  (forall j, 0 <= j < NINODE -> 0 <= i_ref (fs_itable s j) < 2 ^ 31 - 1) -> i_ref (fs_itable s dp) <> 0 ->
  dfind n 0 (dname (fmem s) name) c = Some k ->
  exists r s', dirlink dp name inum s = Ret r s' /\ FsTxn.txn_at start size 1 s' v blks ∅ /\ present_post dp s r s'.
Proof using Hstart Hsize Hend Hg.
  intros Ht Hd Hr Hw Ha (j0 & Hj0 & H0) Hrf Hdp Hf.
  destruct (dirlookup_ok s v blks dp f ind n c name Ht Hd Hr Hw Ha) as (s1 & E1 & T1 & R1). rewrite Hf in E1. cbn [found] in E1.
  destruct (rop_same _ _ (fl_rop _ _ _ R1)) as (Et & Es & Ef & Eb). unfold dirlink.
  destruct (iget_iput s1 (de_inum c k)) as (ip & s2 & t & E2 & Hip & E3 & Hx).
  { apply (bi_held _ _ _ _ (ft_bio _ _ _ _ _ _ _ T1)). } { exists j0. by rewrite Et. } { by rewrite Et. }
  rewrite Et in Hx. rewrite (bind_Ret _ _ _ _ _ E2) in E1. rewrite (bind_Ret _ _ _ _ _ E1), (proj2 (Z.eqb_neq _ _) Hip). cbn [negb].
  rewrite (bind_Ret _ _ _ _ _ E3). eexists _, _. split; [reflexivity|]. split; [by destruct T1|].
  split; cbn; [done|apply (fl_rop _ _ _ R1)|by apply Hx| |done|apply (fl_wf _ _ _ R1)|].
  - exists j0. split; [done|]. cbn. by rewrite (proj1 (Hx j0)).
  - intros x Hx1 Hx2. apply (fl_mem _ _ _ R1); [lia|done].
Qed.
End layout.

Lemma dir_at_agrees start size sb first v v' i f ind n c : geometry start size sb first ->
  dir_at sb first v i f ind n c -> agrees start size v' v -> dir_at sb first v' i f ind n c.
Proof. intros Hg [H1 H2] Ha. split; [|done]. by eapply file_at_agrees. Qed.

Lemma slot_iop dp s s' : iop dp s s' -> slot s -> slot s'.
Proof.
  intros H (j & Hj & H0). exists j. split; [done|]. destruct (Z.eq_dec j dp) as [->|Hne]; [|by rewrite (io_table _ _ _ H)].
  destruct (io_inode _ _ _ H) as (l & m & ->). exact H0.
Qed.

(** The outcome of dirlookup as the directory's map gives it. *)
Definition looks_up (dp name : Z) (o : option Z) (s : fss) : Prop :=
  match o with
  | None => exists s', dirlookup dp name s = Ret (null, 0) s'
  | Some inum => exists ip off s', dirlookup dp name s = Ret (ip, off) s' /\ 0 <= ip < NINODE /\
      i_dev (fs_itable s' ip) = ROOTDEV /\ i_inum (fs_itable s' ip) = inum
  end.

Lemma dirlookup_map start size sb first {out} s v dp f ind n c name :
  0 <= start -> 0 < size -> start + size < 2 ^ 31 -> geometry start size sb first ->
  txn_at start size out s v [] ∅ -> dir_at sb first v (fs_itable s dp) f ind n c -> wf_mem (fmem s) -> args_ok s name -> slot s ->
  looks_up dp name (dir_map n c (dname (fmem s) name)) s.
Proof.
  intros Hs Hz He Hg Ht Hd Hw Ha Hsl.
  destruct (dirlookup_ok start size Hs Hz He sb first Hg s v [] dp f ind n c name Ht Hd) as (s1 & E1 & T1 & R1); try done.
  unfold dir_map. destruct (dfind n 0 (dname (fmem s) name) c) as [k|]; cbn [option_map looks_up found] in *; [|by exists s1].
  destruct (rop_same _ _ (fl_rop _ _ _ R1)) as (Et & _). destruct (iget_ok start size s1 v [] ROOTDEV (de_inum c k) T1) as (ip & s2 & E2 & H2).
  { unfold slot. by rewrite Et. }
  exists ip, (16 * k), s2. by rewrite E1, (bind_Ret _ _ _ _ _ E2).
Qed.

(** dirlink as a system call, when the name is not in the directory and when it is. *)
Section dirlink_call.
Context (start size : Z) (Hs : 0 <= start) (Hz : 0 < size) (He : start + size < 2 ^ 31).
Context (sb : superblock) (first : Z) (Hg : geometry start size sb first).
Context (s : fss) (d : Z -> block) (Hi : log_idle start size (fs_l s) d).

Lemma dirlink_call_absent dp f ind n c name inum :
  inode_blocks start size sb first -> fs_sb s = sb -> meta_used sb first d -> dir_at sb first d (fs_itable s dp) f ind n c ->
  wf_mem (fmem s) -> args_ok s name -> 0 < inum < 2 ^ 16 -> dfind n 0 (dname (fmem s) name) c = None ->
  16 * (Z.of_nat n + 1) <= MAXFILE * BSIZE -> 9 + Z.of_nat (base.size (bitmaps sb)) < Z.min NBUF size ->
  exists r s2 l v d1 ws, call (dirlink dp name inum) s = Ret r (set_l l s2) /\
    link_post sb first dp inum (dname (fmem s) name) s d f ind n c r s2 v /\ log_idle start size l d1 /\ agrees start size d1 v /\
    bs_writes (ls_b l) = bs_writes (ls_b (fs_l s)) ++ ws /\ atomic start size (bs_disk (ls_b (fs_l s))) d v ws.
Proof using Hs Hz He Hg Hi.
  intros Hib Hsb Hm Hd Hw Ha Hin Hf Hmax Hr. apply (t_call start size Hs Hz He); [done|]. intros s1 [[l ->] Dk] T.
  destruct (dirlink_ok start size Hs Hz He sb first Hg (set_l l s) d [] dp f ind n c name inum T) as (r & s2 & v & blks & E & T2 & C2 & HP); try done.
  { by destruct Ha. }
  { unfold broom, cost. replace (list_to_set [] ∪ bitmaps sb) with (bitmaps sb) by (cbn; by rewrite union_empty_l_L). lia. }
  exists r, s2, v, blks. split; [exact E|]. split; [done|]. split; [apply (lp_iop _ _ _ _ _ _ _ _ _ _ _ _ _ _ HP)|]. split.
  { assert (cost sb [] = Z.of_nat (base.size (bitmaps sb))) as Ec by (unfold cost; cbn; by rewrite union_empty_l_L).
    pose proof (broom_room start size sb s2 v blks ∅ 0 T2) as Hrm. unfold broom, room in *. rewrite size_empty in Hrm. lia. }
  destruct HP as [P1 P2 P3 P4 P5 P6]. split; try done. eapply iop_trans; [|exact P4]. apply iop_rest. split; [by exists l|done].
Qed.

Lemma dirlink_call_present dp f ind n c name inum k :
  dir_at sb first d (fs_itable s dp) f ind n c -> wf_mem (fmem s) -> args_ok s name -> slot s ->
  (forall j, 0 <= j < NINODE -> 0 <= i_ref (fs_itable s j) < 2 ^ 31 - 1) -> i_ref (fs_itable s dp) <> 0 ->
  dfind n 0 (dname (fmem s) name) c = Some k -> 0 < Z.min NBUF size ->
  exists r s2 l v d1 ws, call (dirlink dp name inum) s = Ret r (set_l l s2) /\
    (present_post dp s r s2 /\ forall m, v m = d m) /\ log_idle start size l d1 /\ agrees start size d1 v /\
    bs_writes (ls_b l) = bs_writes (ls_b (fs_l s)) ++ ws /\ atomic start size (bs_disk (ls_b (fs_l s))) d v ws.
Proof using Hs Hz He Hg Hi.
  intros Hd Hw Ha Hsl Hrf Hdp Hf Hr. apply (t_call start size Hs Hz He _ _ _ (fun r s2 v => present_post dp s r s2 /\ forall m, v m = d m)); [done|].
  intros s1 [[l ->] Dk] T.
  destruct (dirlink_present start size Hs Hz He sb first Hg (set_l l s) d [] dp f ind n c name inum k T) as (r & s2 & E & T2 & HP); try done.
  { by destruct Ha. }
  exists r, s2, d, []. split; [exact E|]. split; [done|]. split; [apply (pr_disk _ _ _ _ HP)|]. split; [done|].
  split; [|done]. destruct HP. split; try done. by eapply same_disk_trans.
Qed.
End dirlink_call.

(** C11: A directory is a finite map from names to inode numbers.  Let inode [dp]
    be a directory of [n] entries in use, not of the largest size, with a free
    entry in itable.  A system call that does dirlink() returns.  If the name at
    [name] (its first 14 bytes) is in the directory it returns -1 and changes no
    block and not the directory; otherwise it returns 0, or -1 on a full disk.
    When it returns 0 the directory maps the name to [inum] and every other name
    to what it did before.  When the name was there, or the call returned 0,
    dirlookup() of any name in memory then finds just what the directory maps it
    to: an inode of the table with that number, or nothing.
    Blocks in use that are not the directory's are unchanged, and wherever the
    disk writes stop, recovery yields the disk before or after. *)
Theorem dirlink_dirlookup_roundtrip start size sb first s d dp f ind n c name inum :
  0 <= start -> 0 < size -> start + size < 2 ^ 31 -> geometry start size sb first -> inode_blocks start size sb first ->
  log_idle start size (fs_l s) d -> fs_sb s = sb -> meta_used sb first d -> dir_at sb first d (fs_itable s dp) f ind n c ->
  wf_mem (fmem s) -> args_ok s name -> slot s -> 0 < inum < 2 ^ 16 ->
  (forall j, 0 <= j < NINODE -> 0 <= i_ref (fs_itable s j) < 2 ^ 31 - 1) -> i_ref (fs_itable s dp) <> 0 ->
  16 * (Z.of_nat n + 1) <= MAXFILE * BSIZE -> 9 + Z.of_nat (base.size (bitmaps sb)) < Z.min NBUF size ->
  let nm := dname (fmem s) name in
  exists r s1 d1 v ws, call (dirlink dp name inum) s = Ret r s1 /\
    (is_Some (dir_map n c nm) -> r = -1 /\ (forall m, v m = d m) /\ fs_itable s1 dp = fs_itable s dp /\
       forall name', args_ok s1 name' -> looks_up dp name' (dir_map n c (dname (fmem s1) name')) s1) /\
    (dir_map n c nm = None -> r = 0 \/ r = -1 /\ full sb v) /\
    (r = 0 -> (exists f' ind' n' c', dir_at sb first v (fs_itable s1 dp) f' ind' n' c' /\
         forall nm', dir_map n' c' nm' = if decide (nm' = nm) then Some inum else dir_map n c nm') /\
       forall name', args_ok s1 name' -> looks_up dp name' (let nm' := dname (fmem s1) name' in
         if decide (nm' = nm) then Some inum else dir_map n c nm') s1) /\
    log_idle start size (fs_l s1) d1 /\ agrees start size d1 v /\
    (forall m, ~ is_bitmap sb m -> (datab sb first m -> used sb d m = true) -> ~ owns f ind m ->
       m <> IBLOCK (i_inum (fs_itable s dp)) sb -> v m = d m) /\
    (forall x, ~ (fs_frame s <= x < fs_frame s + 32) -> ~ bufarea s x -> fmem s1 x = fmem s x) /\
    bs_writes (ls_b (fs_l s1)) = bs_writes (ls_b (fs_l s)) ++ ws /\ atomic start size (bs_disk (ls_b (fs_l s))) d v ws.
Proof.
  intros Hs Hz He Hg Hib Hi Hsb Hm Hd Hw Ha Hsl Hin Hrf Hdp Hmax Hr nm.
  destruct (dfind n 0 nm c) as [k|] eqn:Hf.
  - assert (dir_map n c nm = Some (de_inum c k)) as Hdm by (unfold dir_map; by rewrite Hf).
    destruct (dirlink_call_present start size Hs Hz He sb first Hg s d Hi dp f ind n c name inum k) as (r & s2 & l & v & d1 & ws & E & (P & Hv) & I1 & A1 & W1 & At1);
      try done; [lia|]. destruct P as [P1 P2 P3 P4 P5 P6 P7].
    exists r, (set_l l s2), d1, v, ws. split; [exact E|]. split; [intros _|split; [by rewrite Hdm|split; [lia|split_and!; try done; by intros m]]].
    split; [done|]. split; [exact Hv|]. split; [done|]. intros name' Ha'.
    apply (dirlookup_map start size sb first (out := 0) (set_l l s2) d1 dp f ind); try done; [apply (idle_txn start size l d1 I1)|].
    cbn. rewrite P3. eapply dir_at_agrees; [done|exact Hd|]. intros m Hm'. rewrite <- Hv. by apply A1.
  - assert (dir_map n c nm = None) as Hdm by (unfold dir_map; by rewrite Hf).
    destruct (dirlink_call_absent start size Hs Hz He sb first Hg s d Hi dp f ind n c name inum) as (r & s2 & l & v & d1 & ws & E & [P1 P2 P3 P4 P5 P6] & I1 & A1 & W1 & At1); try done.
    exists r, (set_l l s2), d1, v, ws. split; [exact E|]. split; [rewrite Hdm; by intros []|]. split; [done|]. split; [|split_and!; done].
    intros Hr0. destruct (P2 Hr0) as (f' & ind' & n' & c' & Hd' & Hmap). split; [by exists f', ind', n', c'|].
    intros name' Ha'. cbn zeta. rewrite <- Hmap. apply (dirlookup_map start size sb first (out := 0) (set_l l s2) d1 dp f' ind'); try done.
    + apply (idle_txn start size l d1 I1).
    + by eapply dir_at_agrees.
    + apply (slot_iop dp s s2 P4 Hsl).
Qed.

(** The name [init] linked into an empty directory on a fresh disk of 2000 blocks. *)
Definition empty_dir : fss :=
  let d := fun n i => if n =? 45 then (if i <? 5 then 255 else if i =? 5 then 63 else 0) else 0 in
  mkFss (idle_lst d) (fun j => mkInode ROOTDEV (5 + j) (if j =? 0 then 1 else 0) 1 T_DIR 0 0 1 0 (replicate 13 0))
    (mkSb FSMAGIC 2000 1954 200 30 2 32 45)
    (mkPhys (stbytes (fun _ => 0) 5000 [105; 110; 105; 116]) (Pool.mkPool [] (fun _ => 0)) 0) 0 0 (fun _ => 0) 8000.

Lemma empty_dir_linked r s1 : call (dirlink 0 5000 7) empty_dir = Ret r s1 ->
  r = 0 /\ args_ok s1 5000 /\ dname (fmem s1) 5000 = dname (fmem empty_dir) 5000.
Proof.
  intros E. assert (match call (dirlink 0 5000 7) empty_dir with
    Ret r s1 => r = 0 /\ fs_frame s1 = 8000 /\ fs_bufaddr s1 = (fun _ => 0) /\ dname (fmem s1) 5000 = [105; 110; 105; 116] | _ => False end) as H
    by (vm_compute; split_and!; reflexivity).
  rewrite E in H. destruct H as (-> & Hf & Hb & Hn). split; [done|]. split; [|by rewrite Hn].
  split; rewrite ?Hf; try lia; intros x Hx (b & Hb1 & Hbx); rewrite Hb in Hbx; cbn in Hbx; unfold BSIZE in Hbx; lia.
Qed.

Lemma dirlink_dirlookup_roundtrip_witness :
  exists s1, call (dirlink 0 5000 7) empty_dir = Ret 0 s1 /\ dname (fmem s1) 5000 = [105; 110; 105; 116] /\ looks_up 0 5000 (Some 7) s1.
Proof.
  set (sb := mkSb FSMAGIC 2000 1954 200 30 2 32 45).
  set (d := fun n i => if n =? 45 then (if i <? 5 then 255 else if i =? 5 then 63 else 0) else 0).
  assert (forall b, 0 <= b < 2000 -> bb sb b = 45) as Hbb by (intros b Hb; unfold bb, BPB, BSIZE; cbn [sb_bmapstart sb]; rewrite Z.div_small by lia; lia).
  destruct (dirlink_dirlookup_roundtrip 2 30 sb 46 empty_dir d 0 (fun _ => 0) 0 0 (fun _ => 0) 5000 7)
    as (r & s1 & d1 & v & ws & E1 & _ & _ & H & _); try lia; try reflexivity.
  - split; [done|done|done| |]; intros b Hb; cbn [sb_size sb] in Hb; [change (home 2 30 (bb sb b)); rewrite (Hbb b Hb)|]; unfold home, inlog; lia.
  - assert (forall inum, 0 <= inum < 200 -> 32 <= IBLOCK inum sb < 45) as Hib.
    { intros inum Hi. unfold IBLOCK. cbn [sb_inodestart sb]. change IPB with 16. rewrite u32_small by dlia. dlia. }
    split; intros inum Hi; specialize (Hib inum Hi); [unfold home, inlog; lia|]. split; [lia|]. intros (b & Hb & E). rewrite (Hbb b Hb) in E. lia.
  - apply idle_lst_ok. by split.
  - intros b Hb. assert (forallb (fun b => used sb d b) (seqZ 0 46) = true) as H by (vm_compute; reflexivity).
    rewrite forallb_forall in H. apply (H b). rewrite <- list_elem_of_In, elem_of_seqZ. lia.
  - split; [|done]. split; cbn; [|lia|done|change (MAXFILE * BSIZE) with 274432; lia|intros o Ho; lia|done]. split; cbn; try done.
    intros bn Hb. unfold NDIRECT in Hb. unfold znth. zb. by apply (lookup_replicate_2 13 0 (Z.to_nat bn)); lia.
  - apply stbytes_wf. intros x. lia.
  - split; cbn; try lia; intros x Hx (b & Hb & Hbx); cbn in Hbx; unfold BSIZE in Hbx; lia.
  - exists 1. by split.
  - intros j Hj. cbn. destruct (j =? 0); lia.
  - done.
  - change (MAXFILE * BSIZE) with 274432. lia.
  - destruct (empty_dir_linked r s1 E1) as (-> & Ha & En). exists s1. split; [exact E1|]. split; [exact En|]. destruct (H eq_refl) as [_ H2].
    specialize (H2 5000 Ha). cbn zeta in H2. by rewrite decide_True in H2.
Defined.
