(* ===== verification/FsRefs.v ===== *)
(** * The references the file system's operations take and give back

    [counts y c y']: from a state where [y] lists references to inodes that the
    caller holds, among others' references [h], a run of [c] that returns [a]
    leaves the references [y' a] and the same [h]; the page allocator and the
    process's directory are untouched. *)
From stdpp Require Import strings.
From S2P Require Import Prelude Mem StringC Kalloc Page Vm Locks Bio Log Fs FsTxn FsAlloc FsInode.
From Stdlib Require Import ZArith Lia.
Local Open Scope list_scope.
Local Open Scope Z_scope.
Local Open Scope kernel_scope.

(** ** Code that keeps a relation between the states before and after *)

Definition pres {S A} (R : relation S) (c : M S A) : Prop := forall s a s', c s = Ret a s' -> R s s'.

Section pres.
Context {S : Type} (R : relation S) `{!PreOrder R}.

Lemma pres_bind {A B} (c : M S A) (k : A -> M S B) : pres R c -> (forall a, pres R (k a)) -> pres R (bind c k).
Proof. intros Hc Hk s b s' (a & s1 & E1 & E2)%bind_inv. etrans; [by eapply Hc|by eapply Hk]. Qed.
Lemma pres_ret {A} (a : A) : pres R (ret a).
Proof. by intros s ? s' [= <- <-]. Qed.
Lemma pres_gets {A} (f : S -> A) : pres R (gets f).
Proof. by intros s ? s' [= <- <-]. Qed.
Lemma pres_panic {A} m : pres R (panic (A := A) m).
Proof. done. Qed.
Lemma pres_fault {A} : pres R (fault (A := A)).
Proof. done. Qed.
Lemma pres_spin {A} : pres R (fun s => Spin (A := A) s).
Proof. done. Qed.
Lemma pres_if {A} (b : bool) (c d : M S A) : pres R c -> pres R d -> pres R (if b then c else d).
Proof. by destruct b. Qed.
Lemma pres_when (b : bool) (c : M S unit) : pres R c -> pres R (when b c).
Proof. destruct b; [done|intros _; apply pres_ret]. Qed.
Lemma pres_option {A B} (o : option B) (f : B -> M S A) (d : M S A) :
  (forall x, pres R (f x)) -> pres R d -> pres R (match o with Some x => f x | None => d end).
Proof. by destruct o. Qed.
Lemma pres_modify f : (forall s, R s (f s)) -> pres R (modify f).
Proof. by intros H s ? s' [= <- <-]. Qed.
Lemma pres_lift {T A} `{Lens S T} (Q : relation T) (c : M T A) :
  pres Q c -> (forall t s, Q (view s) t -> R s (update t s)) -> pres R (lift c).
Proof. intros Hc Hu s a s' E. unfold lift in E. destruct (c (view s)) eqn:Ec; inversion E; subst. apply Hu. by eapply Hc. Qed.
End pres.
Lemma pres_any {S A} (c : M S A) : pres (fun _ _ => True) c.
Proof. done. Qed.

Create HintDb pres.
#[export] Hint Resolve pres_ret pres_gets pres_panic pres_fault pres_spin : pres.
Ltac pres := repeat first [progress intros | solve [eauto 3 with pres typeclass_instances] | apply pres_bind; [apply _| |] | apply pres_if
  | apply pres_when; [apply _|] | apply pres_option | match goal with |- pres _ (match ?p with pair _ _ => _ end) => destruct p end].

(** ** The allocator stays *)

Definition same_pool (h h' : phys) : Prop := ph_pool h' = ph_pool h /\ ph_end h' = ph_end h.
#[export] Instance same_pool_pre : PreOrder same_pool.
Proof. split; [done|]. intros x y z [] []. split; congruence. Qed.

Lemma pool_setmem f : pres same_pool (setmem f).
Proof. apply pres_modify. done. Qed.
Lemma pool_getmem {A} (f : mem -> A) : pres same_pool (getmem f).
Proof. apply pres_gets. apply _. Qed.
Lemma pool_walkaddr pt va : pres same_pool (walkaddr pt va).
Proof. intros s a s'. rewrite walkaddr_pure. by intros [= <- <-]. Qed.
#[export] Hint Resolve pool_setmem pool_getmem pool_walkaddr : pres.
Lemma pool_copyout pt va src len : pres same_pool (copyout pt va src len).
Proof. unfold copyout. generalize (Z.to_nat (len / PGSIZE + 3)). intros n. revert va src len. induction n; intros; cbn [copyout_loop]; pres. Qed.
Lemma pool_copyin pt dst va len : pres same_pool (copyin pt dst va len).
Proof. unfold copyin. generalize (Z.to_nat (len / PGSIZE + 3)). intros n. revert dst va len. induction n; intros; cbn [copyin_loop]; pres. Qed.
Lemma pool_copyinstr pt dst va max : pres same_pool (copyinstr pt dst va max).
Proof. unfold copyinstr. generalize (Z.to_nat (max / PGSIZE + 3)). intros n. revert dst va max. induction n; intros; cbn [copyinstr_loop]; pres. Qed.
#[export] Hint Resolve pool_copyout pool_copyin pool_copyinstr : pres.

(** The allocator, and what the process that runs sees. *)
Record quiet (s s' : fss) : Prop := {
  qu_pool : same_pool (fs_phys s) (fs_phys s');
  qu_cwd : fs_cwd s' = fs_cwd s;
  qu_frame : fs_frame s' = fs_frame s
}.
#[export] Instance quiet_pre : PreOrder quiet.
Proof. split; [by split|]. intros x y z [] []. split; [by etrans|congruence|congruence]. Qed.

Lemma quiet_modi ip f : pres quiet (modi ip f).
Proof. by apply pres_modify. Qed.
Lemma quiet_lift_phys {A} (c : M phys A) : pres same_pool c -> pres quiet (lift c).
Proof. intros H. eapply pres_lift; [exact H|]. by intros t s Ht. Qed.
Lemma quiet_lift_bst {A} (c : M bst A) : pres quiet (lift c).
Proof. eapply pres_lift; [apply pres_any|]. by intros. Qed.
Lemma quiet_lift_lst {A} (c : M lst A) : pres quiet (lift c).
Proof. eapply pres_lift; [apply pres_any|]. by intros. Qed.
Lemma quiet_lift_lk {A} (c : M lkst A) : pres quiet (lift c).
Proof. eapply pres_lift; [apply pres_any|]. by intros. Qed.
#[export] Hint Resolve quiet_modi quiet_lift_phys quiet_lift_bst quiet_lift_lst quiet_lift_lk : pres.

Lemma quiet_geti ip : pres quiet (geti ip).
Proof. unfold geti. pres. Qed.
Lemma quiet_getdata b : pres quiet (getdata b).
Proof. unfold getdata. pres. Qed.
Lemma quiet_putdata b d : pres quiet (putdata b d).
Proof. unfold putdata. pres. Qed.
Lemma quiet_get_addr ip n : pres quiet (get_addr ip n).
Proof. unfold get_addr. pres. Qed.
Lemma quiet_put_addr ip n a : pres quiet (put_addr ip n a).
Proof. unfold put_addr. pres. Qed.
#[export] Hint Resolve quiet_geti quiet_getdata quiet_putdata quiet_get_addr quiet_put_addr : pres.
Lemma quiet_bfree dev b : pres quiet (bfree dev b).
Proof. unfold bfree. pres. Qed.
Lemma quiet_iupdate ip : pres quiet (iupdate ip).
Proof. unfold iupdate. pres. Qed.
#[export] Hint Resolve quiet_bfree quiet_iupdate : pres.
Lemma quiet_itrunc ip : pres quiet (itrunc ip).
Proof.
  assert (forall n i, pres quiet (itrunc_direct n ip i)) as H1 by (induction n; intros; cbn [itrunc_direct]; pres).
  assert (forall n dev bp j, pres quiet (itrunc_indirect n dev bp j)) as H2 by (induction n; intros; cbn [itrunc_indirect]; pres).
  unfold itrunc. pres.
Qed.
Lemma quiet_balloc dev : pres quiet (balloc dev).
Proof.
  assert (forall n b, pres quiet (balloc_loop n dev b)) as H by (induction n; intros; cbn [balloc_loop]; unfold bzero; pres).
  unfold balloc. pres.
Qed.
#[export] Hint Resolve quiet_itrunc quiet_balloc : pres.
Lemma quiet_bmap ip bn : pres quiet (bmap ip bn).
Proof. unfold bmap. pres. Qed.
Lemma quiet_either_copyout u dst b off len : pres quiet (either_copyout u dst b off len).
Proof. unfold either_copyout. pres. Qed.
Lemma quiet_either_copyin b off u src len : pres quiet (either_copyin b off u src len).
Proof. unfold either_copyin. pres. Qed.
#[export] Hint Resolve quiet_bmap quiet_either_copyout quiet_either_copyin : pres.
Lemma quiet_readi ip u dst off n : pres quiet (readi ip u dst off n).
Proof.
  assert (forall fuel dst off n tot, pres quiet (readi_loop fuel ip u dst off n tot)) as H by (induction fuel; intros; cbn [readi_loop]; pres).
  unfold readi. pres.
Qed.
Lemma quiet_writei ip u src off n : pres quiet (writei ip u src off n).
Proof.
  assert (forall fuel src off n tot, pres quiet (writei_loop fuel ip u src off n tot)) as H by (induction fuel; intros; cbn [writei_loop]; pres).
  unfold writei. pres.
Qed.
Lemma quiet_ilock ip : pres quiet (ilock ip).
Proof. unfold ilock. pres. Qed.
Lemma quiet_iunlock ip : pres quiet (iunlock ip).
Proof. unfold iunlock. pres. Qed.
Lemma quiet_iput ip : pres quiet (iput ip).
Proof. unfold iput. pres. Qed.
Lemma quiet_idup ip : pres quiet (idup ip).
Proof. unfold idup. pres. Qed.
Lemma quiet_iget dev inum : pres quiet (iget dev inum).
Proof. unfold iget. pres. match goal with |- pres _ (match ?x with _ => _ end) => destruct x end; pres. Qed.
Lemma quiet_stati ip st : pres quiet (stati ip st).
Proof. unfold stati. pres. Qed.
#[export] Hint Resolve quiet_readi quiet_writei quiet_ilock quiet_iunlock quiet_iput quiet_idup quiet_iget quiet_stati : pres.

(** ** References *)

Definition counts {A} (y : list Z) (c : M fss A) (y' : A -> list Z) : Prop := forall s a s' h,
  table_inv (fs_itable s) (y ++ h) -> Z.of_nat (length h) < 2 ^ 30 -> fs_cwd s = null \/ fs_cwd s ∈ h -> c s = Ret a s' ->
  table_inv (fs_itable s') (y' a ++ h) /\ quiet s s'.

(** A reference that is only there when the pointer is not null. *)
Definition opt_ref (ip : Z) (y : list Z) : list Z := if ip =? null then y else ip :: y.

Lemma table_inv_ext t t' h : (forall j, ids t' j = ids t j) -> table_inv t h -> table_inv t' h.
Proof.
  intros H [R1 R2 R3]. assert (forall j, i_ref (t' j) = i_ref (t j) /\ i_dev (t' j) = i_dev (t j) /\ i_inum (t' j) = i_inum (t j)) as H'
    by (intros j; specialize (H j); unfold ids in H; by inversion H).
  split; [done|intros j Hj; rewrite (proj1 (H' j)); auto|]. intros j k Hj Hk. destruct (H' j) as (-> & -> & ->), (H' k) as (-> & -> & ->). auto.
Qed.
Lemma refs_to_perm j h h' : h ≡ₚ h' -> refs_to j h = refs_to j h'.
Proof. intros H. unfold refs_to. by rewrite H. Qed.
Lemma table_inv_perm t h h' : h ≡ₚ h' -> table_inv t h -> table_inv t h'.
Proof. intros Hp [R1 R2 R3]. split; [by rewrite <- Hp|intros j Hj; rewrite <- (refs_to_perm j h h' Hp); auto|done]. Qed.

Lemma counts_bind {A B} y (c : M fss A) y1 (k : A -> M fss B) y2 :
  counts y c y1 -> (forall a, counts (y1 a) (k a) y2) -> counts y (bind c k) y2.
Proof.
  intros Hc Hk s b s' h Hi Hl Hw (a & s1 & E1 & E2)%bind_inv. destruct (Hc _ _ _ _ Hi Hl Hw E1) as [I1 Q1].
  destruct (Hk a _ _ _ h I1 Hl ltac:(by rewrite (qu_cwd _ _ Q1)) E2) as [I2 Q2]. split; [done|by etrans].
Qed.
Lemma counts_keep {A} y (c : M fss A) : keeps_ids c -> pres quiet c -> counts y c (fun _ => y).
Proof. intros Hk Hq s a s' h Hi _ _ E. split; [|by eapply Hq]. eapply table_inv_ext; [by eapply Hk|done]. Qed.
Lemma counts_ret {A} (a : A) y y' : y' a = y -> counts y (ret a) y'.
Proof. intros H s b s' h Hi _ _ [= <- <-]. rewrite H. by split. Qed.
Lemma counts_if {A} (b : bool) y (c d : M fss A) y' : (b = true -> counts y c y') -> (b = false -> counts y d y') -> counts y (if b then c else d) y'.
Proof. destruct b; auto. Qed.
Lemma counts_panic {A} m y (y' : A -> list Z) : counts y (panic m) y'.
Proof. by intros s a s' h _ _ _. Qed.
Lemma counts_fault {A} y (y' : A -> list Z) : counts y fault y'.
Proof. by intros s a s' h _ _ _. Qed.

Lemma counts_iget dev inum y : (length y < 100)%nat -> counts y (iget dev inum) (fun ip => opt_ref ip y).
Proof.
  intros Hy s ip s' h Hi Hl _ E. pose proof (iget_ids _ _ _ _ _ E) as (Hr & _). split; [|by eapply quiet_iget].
  unfold opt_ref. rewrite (proj2 (Z.eqb_neq ip null)) by (unfold null; lia). eapply iget_inv; [done| |done]. rewrite length_app. lia.
Qed.
Lemma counts_iput y1 ip y2 : (length (y1 ++ y2) < 100)%nat -> counts (y1 ++ ip :: y2) (iput ip) (fun _ => y1 ++ y2).
Proof.
  intros Hy s [] s' h Hi Hl _ E. split; [|by eapply quiet_iput]. rewrite <- app_assoc in *. eapply iput_inv; [exact Hi| |exact E].
  rewrite app_assoc, length_app. lia.
Qed.
Lemma counts_iput_hd ip y : (length y < 100)%nat -> counts (ip :: y) (iput ip) (fun _ => y).
Proof. apply (counts_iput []). Qed.
Lemma counts_iput_snd a ip y : (length y < 99)%nat -> counts (a :: ip :: y) (iput ip) (fun _ => a :: y).
Proof. intros H. apply (counts_iput [a]). cbn. lia. Qed.

(** A run of an operation that keeps counts and identities. *)
Ltac ck := first [eapply counts_keep; [solve [keeps | eauto 3 with ids_keeps]|solve [pres]]].
#[export] Hint Resolve ids_keeps_readi ids_keeps_writei ids_keeps_ilock ids_keeps_iunlock : ids_keeps.

Lemma counts_iunlockput_hd ip y : (length y < 100)%nat -> counts (ip :: y) (iunlockput ip) (fun _ => y).
Proof. intros H. unfold iunlockput. eapply counts_bind; [ck|]. intros ?; cbv beta. by apply counts_iput_hd. Qed.
Lemma counts_iunlockput_snd a ip y : (length y < 99)%nat -> counts (a :: ip :: y) (iunlockput ip) (fun _ => a :: y).
Proof. intros H. unfold iunlockput. eapply counts_bind; [ck|]. intros ?; cbv beta. by apply counts_iput_snd. Qed.

Lemma counts_dirlookup dp name y : (length y < 100)%nat -> counts y (dirlookup dp name) (fun r => opt_ref r.1 y).
Proof.
  intros Hy. unfold dirlookup. eapply counts_bind; [ck|]. intros d. apply counts_if; [intros _; apply counts_panic|intros _].
  generalize (S (Z.to_nat (i_size d / 16 + 1))). intros n. generalize 0. induction n as [|n IH]; intros off; cbn [dirlookup_loop]; [by intros s a s' h|].
  eapply counts_bind; [ck|]. intros i. apply counts_if; [intros _; by apply counts_ret|intros _].
  eapply counts_bind; [ck|]. intros de. eapply counts_bind; [ck|]. intros r. apply counts_if; [intros _; apply counts_panic|intros _].
  eapply counts_bind; [ck|]. intros m. apply counts_if; [intros _; apply IH|intros _].
  eapply counts_bind; [by apply counts_iget|]. intros ip. by apply counts_ret.
Qed.

Lemma counts_dirlink dp name inum y : (length y < 100)%nat -> counts y (dirlink dp name inum) (fun _ => y).
Proof.
  intros Hy. unfold dirlink. eapply counts_bind; [by apply counts_dirlookup|]. intros [ip off]. cbn [fst]. unfold opt_ref.
  destruct (ip =? null); cbn [negb]; [|eapply counts_bind; [by apply counts_iput_hd|]; intros ?; cbv beta; by apply counts_ret].
  assert (forall n off, keeps_ids (dirlink_loop n dp off) /\ pres quiet (dirlink_loop n dp off)) as H.
  { induction n as [|n IH]; intros o; cbn [dirlink_loop]; [done|]. split; [keeps; apply IH|pres; apply IH]. }
  eapply counts_bind; [ck|]. intros d. eapply counts_bind; [apply counts_keep; apply H|]. intros o. ck.
Qed.

Lemma counts_ialloc dev type y : (length y < 100)%nat -> counts y (ialloc dev type) (fun ip => opt_ref ip y).
Proof.
  intros Hy. unfold ialloc. eapply counts_bind; [ck|]. intros sb. generalize (S (Z.to_nat (sb_ninodes sb))). intros n. generalize 1.
  induction n as [|n IH]; intros i; cbn [ialloc_loop]; [by intros s a s' h|]. eapply counts_bind; [ck|]. intros b.
  apply counts_if; [intros _; by apply counts_ret|intros _]. eapply counts_bind; [ck|]. intros bp. eapply counts_bind; [ck|]. intros d.
  apply counts_if; intros _; [|eapply counts_bind; [ck|]; intros ?; cbv beta; apply IH].
  do 3 (eapply counts_bind; [ck|]; intros ?; cbv beta). by apply counts_iget.
Qed.

Lemma counts_namex_loop fuel : forall ip path np name y, (length y < 99)%nat -> ip <> null ->
  counts (ip :: y) (namex_loop fuel ip path np name) (fun r => opt_ref r y).
Proof.
  induction fuel as [|fuel IH]; intros ip path np name y Hy Hip; cbn [namex_loop]; [by intros s a s' h|].
  eapply counts_bind; [ck|]. intros m. destruct (skipelem m path name) as [[path' m']|]; [|by intros s a s' h].
  eapply counts_bind; [ck|]. intros ?; cbv beta. assert (opt_ref ip y = ip :: y) as Eo by (unfold opt_ref; by rewrite (proj2 (Z.eqb_neq _ _) Hip)).
  apply counts_if; intros _.
  { destruct np; [|by apply counts_ret]. eapply counts_bind; [apply counts_iput_hd; lia|]. intros ?; cbv beta. by apply counts_ret. }
  eapply counts_bind; [ck|]. intros ?; cbv beta. eapply counts_bind; [ck|]. intros i. apply counts_if; intros _.
  { eapply counts_bind; [apply counts_iunlockput_hd; lia|]. intros ?; cbv beta. by apply counts_ret. }
  apply counts_if; intros _; [eapply counts_bind; [ck|]; intros ?; cbv beta; by apply counts_ret|].
  eapply counts_bind; [apply counts_dirlookup; cbn; lia|]. intros [next off]. cbn [fst]. unfold opt_ref at 1.
  destruct (Z.eqb_spec next null) as [->|Hn].
  - eapply counts_bind; [apply counts_iunlockput_hd; lia|]. intros ?; cbv beta. by apply counts_ret.
  - eapply counts_bind; [by apply counts_iunlockput_snd|]. intros ?; cbv beta. by apply IH.
Qed.

Lemma counts_bind_fact {A B} (P : A -> Prop) y (c : M fss A) y1 (k : A -> M fss B) y2 :
  counts y c y1 -> (forall s a s', c s = Ret a s' -> P a) -> (forall a, P a -> counts (y1 a) (k a) y2) -> counts y (bind c k) y2.
Proof.
  intros Hc HP Hk s b s' h Hi Hl Hw (a & s1 & E1 & E2)%bind_inv. destruct (Hc _ _ _ _ Hi Hl Hw E1) as [I1 Q1].
  destruct (Hk a (HP _ _ _ E1) _ _ _ h I1 Hl ltac:(by rewrite (qu_cwd _ _ Q1)) E2) as [I2 Q2]. split; [done|by etrans].
Qed.

Lemma counts_namex path np name y : (length y < 99)%nat -> counts y (namex path np name) (fun r => opt_ref r y).
Proof.
  intros Hy. unfold namex. eapply counts_bind; [ck|]. intros m. apply (counts_bind_fact (fun ip => ip <> null) y _ (fun ip => opt_ref ip y)).
  - apply counts_if; intros _; [apply counts_iget; lia|]. intros s ip s' h Hi Hl Hw E. rewrite bind_gets in E.
    destruct (Z.eqb_spec (fs_cwd s) null) as [|Hn]; [done|]. destruct Hw as [|Hw]; [done|].
    assert (ip = fs_cwd s) as -> by (apply idup_ids in E as [-> _]; done). unfold opt_ref. rewrite (proj2 (Z.eqb_neq _ _) Hn).
    split; [|by eapply quiet_idup]. eapply idup_inv; [done| |by apply elem_of_app; right|done]. rewrite length_app. lia.
  - intros s ip s'. destruct (m path =? slash); intros E.
    + apply iget_ids in E as (Hr & _). unfold null. lia.
    + rewrite bind_gets in E. destruct (Z.eqb_spec (fs_cwd s) null) as [|Hn]; [done|]. by apply idup_ids in E as [-> _].
  - intros ip Hip. unfold opt_ref at 1. rewrite (proj2 (Z.eqb_neq _ _) Hip). by apply counts_namex_loop.
Qed.
Lemma counts_namei path y : (length y < 99)%nat -> counts y (namei path) (fun r => opt_ref r y).
Proof. intros Hy. unfold namei. eapply counts_bind; [ck|]. intros name. by apply counts_namex. Qed.
