(* ===== verification/Pipe.v ===== *)
(** * kernel/pipe.c

    A pipe is a ring of PIPESIZE bytes with free-running 32-bit counters.  A
    call runs until it returns or sleeps ([Blocked], on the address of nread or
    nwrite); [pipewrite_resume] and a new [piperead] are what the process does
    after the wakeup.  The local variable [i] of pipewrite, which survives the
    sleep, is part of the state, and [ch] is the address of its local byte. *)
From stdpp Require Import strings.
From S2P Require Import Prelude Mem StringC Kalloc Page Vm Locks.
From Stdlib Require Import ZArith Lia.
Local Open Scope list_scope.
Local Open Scope Z_scope.
Local Open Scope kernel_scope.

Definition PIPESIZE : Z := 512.

Record pipe := mkPipe { pi_data : list Z; pi_nread : Z; pi_nwrite : Z; pi_readopen : Z; pi_writeopen : Z }.

(** The pipe, memory, the locks and wakeups, whether the process was killed,
    and pipewrite's [i]. *)
Record pst := mkPst { pp_pipe : pipe; pp_phys : phys; pp_lk : lkst; pp_killed : bool; pp_i : Z }.

Definition set_pipe (p : pipe) (s : pst) : pst := mkPst p (pp_phys s) (pp_lk s) (pp_killed s) (pp_i s).
Definition set_i (i : Z) (s : pst) : pst := mkPst (pp_pipe s) (pp_phys s) (pp_lk s) (pp_killed s) i.
Definition set_pphys (h : phys) (s : pst) : pst := mkPst (pp_pipe s) h (pp_lk s) (pp_killed s) (pp_i s).
Definition set_plk (k : lkst) (s : pst) : pst := mkPst (pp_pipe s) (pp_phys s) k (pp_killed s) (pp_i s).

#[export] Instance pst_phys : Lens pst phys.
Proof. refine {| view := pp_phys; update := set_pphys |}; [done|by intros []|done]. Defined.
#[export] Instance pst_lk : Lens pst lkst.
Proof. refine {| view := pp_lk; update := set_plk |}; [done|by intros []|done]. Defined.

Definition modpipe (f : pipe -> pipe) : M pst unit := modify (fun s => set_pipe (f (pp_pipe s)) s).

(** The sleep channels. *)
Definition chan_nread (pi : Z) : Z := pi + 536.
Definition chan_nwrite (pi : Z) : Z := pi + 540.

(** [pi->data[pi->nwrite++ % PIPESIZE] = b] *)
Definition put (b : Z) (p : pipe) : option pipe :=
  match zset (pi_data p) (pi_nwrite p mod PIPESIZE) b with
  | Some d => Some (mkPipe d (pi_nread p) (u32 (pi_nwrite p + 1)) (pi_readopen p) (pi_writeopen p))
  | None => None
  end.
(** [ch = pi->data[pi->nread++ % PIPESIZE]] *)
Definition take1 (p : pipe) : option (Z * pipe) :=
  match znth (pi_data p) (pi_nread p mod PIPESIZE) with
  | Some b => Some (b, mkPipe (pi_data p) (u32 (pi_nread p + 1)) (pi_nwrite p) (pi_readopen p) (pi_writeopen p))
  | None => None
  end.

(** A pipe as pipealloc leaves it in a new page. *)
Definition new_pipe (data : list Z) : pipe := mkPipe data 0 0 1 1.

Definition pipeclose (pi : Z) (writable : bool) : M pst unit :=
  lift (acquire (L_pipe pi)) ;;;
  (if writable then
     modpipe (fun p => mkPipe (pi_data p) (pi_nread p) (pi_nwrite p) (pi_readopen p) 0) ;;;
     lift (wakeup (chan_nread pi))
   else
     modpipe (fun p => mkPipe (pi_data p) (pi_nread p) (pi_nwrite p) 0 (pi_writeopen p)) ;;;
     lift (wakeup (chan_nwrite pi))) ;;;
  p <- gets pp_pipe ;;
  if (pi_readopen p =? 0) && (pi_writeopen p =? 0) then
    lift (release (L_pipe pi)) ;;;
    lift (pg_kfree pi)
  else lift (release (L_pipe pi)).

(** The loop of pipewrite; [Some r] is an early return.  One turn per byte. *)
Fixpoint pipewrite_loop (fuel : nat) (pi pt ch addr n : Z) : M pst (option Z) :=
  match fuel with
  | O => fun s => Spin s
  | S fuel =>
      i <- gets pp_i ;;
      if negb (i <? n) then ret None
      else
        p <- gets pp_pipe ;;
        k <- gets pp_killed ;;
        if (pi_readopen p =? 0) || k then lift (release (L_pipe pi)) ;;; ret (Some (-1))
        else if pi_nwrite p =? u32 (pi_nread p + PIPESIZE) then
          lift (wakeup (chan_nread pi)) ;;;
          lift (sleep (chan_nwrite pi) (L_pipe pi))
        else
          r <- lift (copyin pt ch (u64 (addr + i)) 1) ;;
          if r =? -1 then ret None
          else
            b <- lift (getmem (fun m => m ch)) ;;
            match put b p with
            | None => fault
            | Some p => modpipe (fun _ => p) ;;; modify (fun s => set_i (i + 1) s) ;;; pipewrite_loop fuel pi pt ch addr n
            end
  end.

Definition pipewrite_resume (pi pt ch addr n : Z) : M pst Z :=
  lift (acquire (L_pipe pi)) ;;;
  i <- gets pp_i ;;
  r <- pipewrite_loop (S (Z.to_nat (n - i))) pi pt ch addr n ;;
  match r with
  | Some r => ret r
  | None =>
      lift (wakeup (chan_nread pi)) ;;;
      lift (release (L_pipe pi)) ;;;
      gets pp_i
  end.

Definition pipewrite (pi pt ch addr n : Z) : M pst Z := modify (set_i 0) ;;; pipewrite_resume pi pt ch addr n.

Fixpoint piperead_loop (k : nat) (pt ch addr n i : Z) : M pst Z :=
  match k with
  | O => ret i
  | S k =>
      p <- gets pp_pipe ;;
      if pi_nread p =? pi_nwrite p then ret i
      else
        match take1 p with
        | None => fault
        | Some (b, p) =>
            modpipe (fun _ => p) ;;;
            lift (setmem (fun m => st8 m ch b)) ;;;
            r <- lift (copyout pt (u64 (addr + i)) ch 1) ;;
            if r =? -1 then ret i else piperead_loop k pt ch addr n (i + 1)
        end
  end.

Definition piperead (pi pt ch addr n : Z) : M pst Z :=
  lift (acquire (L_pipe pi)) ;;;
  p <- gets pp_pipe ;;
  k <- gets pp_killed ;;
  if (pi_nread p =? pi_nwrite p) && negb (pi_writeopen p =? 0) then
    if k then lift (release (L_pipe pi)) ;;; ret (-1)
    else lift (sleep (chan_nread pi) (L_pipe pi))
  else
    i <- piperead_loop (Z.to_nat n) pt ch addr n 0 ;;
    lift (wakeup (chan_nwrite pi)) ;;;
    lift (release (L_pipe pi)) ;;;
    ret i.

(** ** The queue a pipe holds *)

Definition qlen (p : pipe) : Z := u32 (pi_nwrite p - pi_nread p).
Definition cell (p : pipe) (k : Z) : Z := default 0 (znth (pi_data p) ((pi_nread p + k) mod PIPESIZE)).
Definition queue (p : pipe) : list Z := map (cell p) (seqZ 0 (qlen p)).

Record pipe_ok (p : pipe) : Prop := {
  po_data : length (pi_data p) = 512%nat;
  po_nread : 0 <= pi_nread p < 2 ^ 32;
  po_nwrite : 0 <= pi_nwrite p < 2 ^ 32;
  po_len : qlen p <= PIPESIZE;
  po_bytes : bytes (pi_data p)
}.

Lemma qlen_nonneg p : 0 <= qlen p.
Proof. apply u32_range. Qed.
Lemma queue_length p : Z.of_nat (length (queue p)) = qlen p.
Proof. unfold queue. rewrite length_map, length_seqZ. pose proof (qlen_nonneg p). lia. Qed.

Lemma full_test p : pipe_ok p -> (pi_nwrite p =? u32 (pi_nread p + PIPESIZE)) = (qlen p =? PIPESIZE).
Proof.
  intros [H1 H2 H3 H4 _]. unfold qlen, PIPESIZE in *.
  destruct (Z.eqb_spec (pi_nwrite p) (u32 (pi_nread p + 512))), (Z.eqb_spec (u32 (pi_nwrite p - pi_nread p)) 512); try done; dlia.
Qed.
Lemma empty_test p : pipe_ok p -> (pi_nread p =? pi_nwrite p) = (qlen p =? 0).
Proof.
  intros [H1 H2 H3 H4 _]. unfold qlen, PIPESIZE in *.
  destruct (Z.eqb_spec (pi_nread p) (pi_nwrite p)), (Z.eqb_spec (u32 (pi_nwrite p - pi_nread p)) 0); try done; dlia.
Qed.

(** The counters wrap at a multiple of PIPESIZE. *)
Lemma wrap_index x k : (u32 (x + 1) + k) mod PIPESIZE = (x + (k + 1)) mod PIPESIZE.
Proof.
  unfold u32, PIPESIZE. rewrite (Z.mod_eq (x + 1)) by lia.
  replace (x + 1 - 2 ^ 32 * ((x + 1) / 2 ^ 32) + k) with (x + (k + 1) + (- (2 ^ 23 * ((x + 1) / 2 ^ 32))) * 512) by lia.
  apply Z_mod_plus_full.
Qed.

Lemma nwrite_index p : pipe_ok p -> (pi_nread p + qlen p) mod PIPESIZE = pi_nwrite p mod PIPESIZE.
Proof. intros [H1 H2 H3 H4 _]. unfold qlen, PIPESIZE in *. dlia. Qed.

Lemma index_inj x j k : 0 <= j < PIPESIZE -> 0 <= k < PIPESIZE -> (x + j) mod PIPESIZE = (x + k) mod PIPESIZE -> j = k.
Proof. unfold PIPESIZE. intros. dlia. Qed.

Lemma put_ok p b : pipe_ok p -> qlen p < PIPESIZE -> 0 <= b < 256 ->
  exists p', put b p = Some p' /\ pipe_ok p' /\ queue p' = queue p ++ [b] /\ pi_readopen p' = pi_readopen p /\ pi_writeopen p' = pi_writeopen p.
Proof.
  intros Hp Hl Hby. pose proof Hp as [H1 H2 H3 H4 H5]. unfold put.
  assert (0 <= pi_nwrite p mod PIPESIZE < Z.of_nat (length (pi_data p))) as Hi by (rewrite H1; by apply Z.mod_pos_bound).
  rewrite zset_Some by done. eexists. split; [reflexivity|]. set (p' := mkPipe _ _ _ _ _).
  assert (qlen p' = qlen p + 1) as Hq by (unfold qlen, PIPESIZE in *; cbn; dlia).
  assert (forall k, 0 <= k < qlen p -> cell p' k = cell p k) as Hc.
  { intros k Hk. unfold cell. cbn. f_equal. unfold znth. case_match; [|done]. apply list_lookup_insert_ne. intros E.
    assert (pi_nwrite p mod PIPESIZE = (pi_nread p + k) mod PIPESIZE) as E' by (apply Z2Nat.inj; [by apply Z.mod_pos_bound|by apply Z.mod_pos_bound|done]).
    rewrite <- nwrite_index in E' by done. apply index_inj in E'; lia. }
  assert (cell p' (qlen p) = b) as Hb.
  { unfold cell. cbn. rewrite nwrite_index by done. unfold znth. rewrite (proj2 (Z.leb_le _ _)) by apply Hi.
    rewrite list_lookup_insert_eq; [done|]. lia. }
  split; [|split; [|done]].
  - split; cbn; [by rewrite length_insert|done|apply u32_range|lia|by apply Forall_insert].
  - unfold queue. rewrite Hq, seqZ_app by (pose proof (qlen_nonneg p); lia). rewrite Z.add_0_l, map_app. cbn [map seqZ].
    change (seqZ (qlen p) 1) with [qlen p]. cbn [map]. rewrite Hb. f_equal. apply map_ext_in. intros k Hk%list_elem_of_In. apply Hc. apply elem_of_seqZ in Hk. lia.
Qed.

Lemma take1_ok p : pipe_ok p -> 0 < qlen p ->
  exists b p', take1 p = Some (b, p') /\ pipe_ok p' /\ queue p = b :: queue p' /\ pi_readopen p' = pi_readopen p /\ pi_writeopen p' = pi_writeopen p.
Proof.
  intros Hp Hl. pose proof Hp as [H1 H2 H3 H4 H5]. unfold take1.
  assert (0 <= pi_nread p mod PIPESIZE < Z.of_nat (length (pi_data p))) as Hi by (rewrite H1; by apply Z.mod_pos_bound).
  destruct (znth_is_Some _ _ Hi) as [b Hb]. rewrite Hb. eexists _, _. split; [reflexivity|]. set (p' := mkPipe _ _ _ _ _).
  assert (qlen p' = qlen p - 1) as Hq by (unfold qlen, PIPESIZE in *; cbn; dlia).
  split; [|split; [|done]].
  - split; cbn; [done|apply u32_range|done|lia|done].
  - unfold queue. rewrite Hq, seqZ_cons by lia. cbn [map]. f_equal.
    + unfold cell. rewrite Z.add_0_r, Hb. done.
    + rewrite <- (Z.sub_1_r (qlen p)). apply list_eq. intros j. rewrite !list_lookup_fmap.
      destruct (decide (Z.of_nat j < qlen p - 1)).
      * rewrite !lookup_seqZ_lt by lia. cbn. f_equal. unfold cell. cbn. rewrite wrap_index. do 3 f_equal. lia.
      * rewrite !lookup_seqZ_ge by lia. done.
Qed.

(** ** The user's buffers *)

(** The [n] bytes at [addr] can be read, and reading does not disturb them. *)
Record readable (m : mem) (pt ch addr n : Z) : Prop := {
  rd_range : 0 <= addr /\ addr + n < 2 ^ 64;
  rd_mapped : forall k, 0 <= k < n -> mapped m pt (addr + k);
  rd_apart : tables_apart m pt addr (addr + n) (fun x => x = ch);
  rd_ch : forall k, 0 <= k < n -> uaddr m pt (addr + k) <> ch
}.

(** They can be written, each at its own place, away from the page table. *)
Record writable (m : mem) (pt ch addr n : Z) : Prop := {
  wb_range : 0 <= addr /\ addr + n < 2 ^ 64;
  wb_mapped : forall k, 0 <= k < n -> mapped m pt (addr + k);
  wb_apart : tables_apart m pt addr (addr + n) (fun x => x = ch \/ user_byte m pt addr (addr + n) x);
  wb_ch : forall k, 0 <= k < n -> uaddr m pt (addr + k) <> ch;
  wb_inj : forall k k', 0 <= k < n -> 0 <= k' < n -> uaddr m pt (addr + k) = uaddr m pt (addr + k') -> k = k'
}.

Lemma translation_stable (P : Z -> Prop) m m' pt lo hi va :
  tables_apart m pt lo hi P -> (forall x, ~ P x -> m' x = m x) -> lo <= va < hi -> upage m' pt (PGROUNDDOWN va) = upage m pt (PGROUNDDOWN va).
Proof. intros Ha Hm Hva. apply upage_stable. intros x Hx. apply Hm. by eapply Ha. Qed.

Lemma copyin1 m pt ch addr n k h :
  readable m pt ch addr n -> wf_mem (ph_mem h) -> (forall x, x <> ch -> ph_mem h x = m x) -> 0 <= k < n ->
  exists h', copyin pt ch (u64 (addr + k)) 1 h = Ret 0 h' /\ wf_mem (ph_mem h') /\ (forall x, x <> ch -> ph_mem h' x = m x) /\
    ph_mem h' ch = m (uaddr m pt (addr + k)).
Proof.
  intros [Hr Hm Ha Hc] Hw Hx Hk. rewrite u64_small by lia.
  assert (forall m', (forall x, x <> ch -> m' x = m x) -> forall va, addr + k <= va < addr + k + 1 ->
    upage m' pt (PGROUNDDOWN va) = upage m pt (PGROUNDDOWN va)) as Hst.
  { intros m' Hm' va Hva. apply (translation_stable (fun x => x = ch) _ _ _ addr (addr + n)); [done|done|lia]. }
  assert (forall va, addr + k <= va < addr + k + 1 -> uaddr (ph_mem h) pt va = uaddr m pt va) as Hu by (intros va Hva; unfold uaddr; by rewrite Hst).
  destruct (copyin_spec pt ch (addr + k) 1 h Hw ltac:(lia) ltac:(lia)) as (r & h' & E & _ & _ & W & O & Hres).
  - intros m' Hm' va Hva. rewrite (Hst m'), (Hst (ph_mem h)); try done. intros x Hx'. rewrite Hm' by lia. by apply Hx.
  - intros va Hva _. rewrite Hu by done. replace va with (addr + k) by lia. pose proof (Hc k Hk). lia.
  - exists h'. assert (r = 0 /\ ph_mem h' (ch + 0) = ph_mem h (uaddr (ph_mem h) pt (addr + k + 0))) as [-> Hb].
    { destruct Hres as [[-> H]|[_ (j & Hj & Hn)]]; [split; [done|by apply H]|]. exfalso. apply Hn. unfold mapped. rewrite Hst by (done || lia).
      replace (addr + k + j) with (addr + k) by lia. by apply Hm. }
    split; [done|]. split; [done|]. split; [intros x Hxc; rewrite O by lia; by apply Hx|]. rewrite !Z.add_0_r in Hb. rewrite Hb, Hu by lia.
    apply Hx. by apply Hc.
Qed.

Lemma copyout1 m pt ch addr n k h :
  writable m pt ch addr n -> wf_mem (ph_mem h) -> (forall x, x <> ch -> ~ user_byte m pt addr (addr + n) x -> ph_mem h x = m x) -> 0 <= k < n ->
  exists h', copyout pt (u64 (addr + k)) ch 1 h = Ret 0 h' /\ wf_mem (ph_mem h') /\ ph_mem h' (uaddr m pt (addr + k)) = ph_mem h ch /\
    (forall x, x <> uaddr m pt (addr + k) -> ph_mem h' x = ph_mem h x).
Proof.
  intros [Hr Hm Ha Hc Hinj] Hw Hx Hk. rewrite u64_small by lia. set (P := fun x => x = ch \/ user_byte m pt addr (addr + n) x) in *.
  assert (forall m', (forall x, ~ P x -> m' x = m x) -> forall va, addr + k <= va < addr + k + 1 ->
    upage m' pt (PGROUNDDOWN va) = upage m pt (PGROUNDDOWN va)) as Hst.
  { intros m' Hm' va Hva. apply (translation_stable P _ _ _ addr (addr + n)); [done|done|lia]. }
  assert (forall x, ~ P x -> ph_mem h x = m x) as Hxp by (intros x Hp; apply Hx; intros H; apply Hp; [by left|by right]).
  assert (forall va, addr + k <= va < addr + k + 1 -> uaddr (ph_mem h) pt va = uaddr m pt (addr + k)) as Hu
    by (intros va Hva; unfold uaddr; rewrite Hst by done; by replace va with (addr + k) by lia).
  assert (forall x, user_byte (ph_mem h) pt (addr + k) (addr + k + 1) x <-> x = uaddr m pt (addr + k)) as Hub.
  { intros x. split; [intros (va & Hva & _ & ->); by apply Hu|]. intros ->. exists (addr + k). split; [lia|]. split; [|by rewrite Hu by lia].
    unfold mapped. rewrite Hst by (done || lia). by apply Hm. }
  assert (P (uaddr m pt (addr + k))) as HP by (right; exists (addr + k); split; [lia|split; [by apply Hm|done]]).
  destruct (copyout_spec pt (addr + k) ch 1 h Hw ltac:(lia) ltac:(lia)) as (r & h' & E & _ & _ & W & O & Hres).
  - intros m' Hm' va Hva. rewrite (Hst m'), (Hst (ph_mem h)); try done. intros x Hp. rewrite Hm'; [by apply Hxp|]. rewrite Hub. intros ->. by apply Hp.
  - intros x Hxc. rewrite Hub. replace x with ch by lia. intros E. by apply (Hc k Hk).
  - intros; lia.
  - exists h'. assert (r = 0 /\ ph_mem h' (uaddr (ph_mem h) pt (addr + k + 0)) = ph_mem h (ch + 0)) as [-> Hb].
    { destruct Hres as [[-> H]|[_ (j & Hj & Hn)]]; [split; [done|by apply H]|]. exfalso. apply Hn. unfold mapped. rewrite Hst by (done || lia).
      replace (addr + k + j) with (addr + k) by lia. by apply Hm. }
    split; [done|]. split; [done|]. rewrite !Z.add_0_r in Hb. rewrite Hu in Hb by lia. split; [done|].
    intros x Hne. apply O. by rewrite Hub.
Qed.

(** ** pipewrite *)

(** The user's bytes. *)
Definition user_bytes (m : mem) (pt addr n : Z) : list Z := map (fun k => m (uaddr m pt (addr + k))) (seqZ 0 n).

Lemma user_bytes_length m pt addr n : 0 <= n -> length (user_bytes m pt addr n) = Z.to_nat n.
Proof. intros. unfold user_bytes. rewrite length_map, length_seqZ. done. Qed.
Lemma user_bytes_drop m pt addr n i : 0 <= i < n ->
  drop (Z.to_nat i) (user_bytes m pt addr n) = m (uaddr m pt (addr + i)) :: drop (Z.to_nat (i + 1)) (user_bytes m pt addr n).
Proof.
  intros Hi. rewrite (drop_S _ (m (uaddr m pt (addr + i)))); [f_equal; f_equal; lia|].
  unfold user_bytes. rewrite list_lookup_fmap, lookup_seqZ_lt by lia. cbn. do 4 f_equal. lia.
Qed.

(** [bs] was put into the pipe and [i] is now [i']; [m] is memory but for [ch]. *)
Record put_all (m : mem) (ch : Z) (s : pst) (bs : list Z) (i' : Z) (s' : pst) : Prop := {
  pa_ok : pipe_ok (pp_pipe s');
  pa_queue : queue (pp_pipe s') = queue (pp_pipe s) ++ bs;
  pa_readopen : pi_readopen (pp_pipe s') = pi_readopen (pp_pipe s);
  pa_writeopen : pi_writeopen (pp_pipe s') = pi_writeopen (pp_pipe s);
  pa_i : pp_i s' = i';
  pa_killed : pp_killed s' = pp_killed s;
  pa_wf : wf_mem (ph_mem (pp_phys s'));
  pa_mem : forall x, x <> ch -> ph_mem (pp_phys s') x = m x
}.

Lemma put_all_refl m ch s : pipe_ok (pp_pipe s) -> wf_mem (ph_mem (pp_phys s)) -> (forall x, x <> ch -> ph_mem (pp_phys s) x = m x) ->
  put_all m ch s [] (pp_i s) s.
Proof. intros. split; try done. by rewrite app_nil_r. Qed.

Lemma put_all_lk m ch s bs i' s' k : put_all m ch s bs i' s' -> put_all m ch s bs i' (set_plk k s').
Proof. by intros []. Qed.

Section write.
Context (pi pt ch addr n : Z) (m : mem) (Hb : readable m pt ch addr n).

Let ws := user_bytes m pt addr n.

(** One turn that stores a byte. *)
Lemma write_byte s i :
  pp_i s = i -> 0 <= i < n -> pipe_ok (pp_pipe s) -> qlen (pp_pipe s) < PIPESIZE -> wf_mem (ph_mem (pp_phys s)) ->
  (forall x, x <> ch -> ph_mem (pp_phys s) x = m x) ->
  exists h p', copyin pt ch (u64 (addr + i)) 1 (pp_phys s) = Ret 0 h /\ put (ph_mem h ch) (pp_pipe s) = Some p' /\
    put_all m ch s [m (uaddr m pt (addr + i))] (i + 1) (set_i (i + 1) (set_pipe p' (set_pphys h s))).
Proof using Hb.
  intros Hi Hir Hp Hq Hw Hm. destruct (copyin1 m pt ch addr n i (pp_phys s) Hb Hw Hm Hir) as (h & E & W & M & C).
  destruct (put_ok (pp_pipe s) (ph_mem h ch) Hp Hq (W ch)) as (p' & E' & Hp' & Hq' & Hr & Ho). exists h, p'. split; [done|]. split; [done|].
  split; cbn; try done. by rewrite Hq', C.
Qed.

Lemma put_all_trans s1 s2 s3 b bs i2 i3 : put_all m ch s1 [b] i2 s2 -> put_all m ch s2 bs i3 s3 -> put_all m ch s1 (b :: bs) i3 s3.
Proof. intros [A1 A2 A3 A4 A5 A6 A7 A8] [B1 B2 B3 B4 B5 B6 B7 B8]. split; try congruence; try done. by rewrite B2, A2, <- app_assoc. Qed.

Lemma put_all_qlen s bs i s' : put_all m ch s bs i s' -> qlen (pp_pipe s') = qlen (pp_pipe s) + Z.of_nat (length bs).
Proof. intros H. rewrite <- !queue_length, (pa_queue _ _ _ _ _ _ H), length_app. lia. Qed.

Lemma pipewrite_loop_ok fuel : forall s i,
  pp_i s = i -> 0 <= i <= n -> n - i < Z.of_nat fuel -> lk_held (pp_lk s) = [L_pipe pi] -> pipe_ok (pp_pipe s) ->
  pi_readopen (pp_pipe s) <> 0 -> pp_killed s = false -> wf_mem (ph_mem (pp_phys s)) -> (forall x, x <> ch -> ph_mem (pp_phys s) x = m x) ->
  let free := PIPESIZE - qlen (pp_pipe s) in
  exists s', if n - i <=? free
    then pipewrite_loop fuel pi pt ch addr n s = Ret None s' /\ put_all m ch s (drop (Z.to_nat i) ws) n s' /\ pp_lk s' = pp_lk s
    else pipewrite_loop fuel pi pt ch addr n s = Blocked (chan_nwrite pi) s' /\
      put_all m ch s (take (Z.to_nat free) (drop (Z.to_nat i) ws)) (i + free) s' /\
      lk_held (pp_lk s') = [] /\ lk_wakeups (pp_lk s') = lk_wakeups (pp_lk s) ++ [chan_nread pi].
Proof using Hb.
  induction fuel as [|fuel IH]; intros s i Hi Hir Hf Hl Hp Hro Hk Hw Hm; [lia|]. cbn zeta. cbn [pipewrite_loop]. rewrite bind_gets, Hi.
  pose proof (po_len _ Hp) as Hq. pose proof (qlen_nonneg (pp_pipe s)) as Hq0.
  destruct (Z.ltb_spec i n) as [Hlt|Hge]; cbn [negb].
  2:{ exists s. rewrite (proj2 (Z.leb_le _ _)) by lia. split; [done|]. split; [|done]. replace i with n in * by lia.
      rewrite drop_ge by (subst ws; rewrite user_bytes_length by lia; lia). rewrite <- Hi. by apply put_all_refl. }
  rewrite bind_gets, bind_gets, Hk, (proj2 (Z.eqb_neq _ _) Hro). cbn [orb]. rewrite full_test by done.
  destruct (Z.eqb_spec (qlen (pp_pipe s)) PIPESIZE) as [Hfull|Hnf].
  - eexists. rewrite (proj2 (Z.leb_gt _ _)) by lia. rewrite (bind_Ret _ _ _ _ _ (eq_refl : lift (wakeup _) s = _)).
    unfold lift, sleep. cbn [view pst_lk pp_lk set_plk update]. erewrite bind_Ret by (apply (lk_release_ok _ []); [exact Hl|apply not_elem_of_nil]).
    split; [reflexivity|]. cbn [pp_lk set_plk lk_held set_lk_held lk_wakeups].
    rewrite Hfull, Z.sub_diag. cbn [take Z.to_nat]. rewrite Z.add_0_r, <- Hi. split; [|done].
    apply put_all_lk, put_all_lk. by apply put_all_refl.
  - destruct (write_byte s i Hi ltac:(lia) Hp ltac:(lia) Hw Hm) as (h & p' & E & E' & Hpa).
    erewrite bind_Ret by (apply lift_Ret; exact E). cbn [Z.eqb]. change (0 =? -1) with false. cbn match.
    erewrite bind_Ret by reflexivity. cbn [pst_phys update view pp_phys set_pphys]. rewrite E'.
    erewrite bind_Ret by reflexivity. erewrite bind_Ret by reflexivity. cbn [pp_pipe pp_i set_pipe set_pphys set_i].
    match goal with |- context [pipewrite_loop fuel _ _ _ _ _ ?x] => set (s1 := x) end.
    assert (put_all m ch s [m (uaddr m pt (addr + i))] (i + 1) s1) as H1 by exact Hpa.
    pose proof (put_all_qlen _ _ _ _ H1) as Hq1. cbn [length] in Hq1. pose proof H1 as [A1 A2 A3 A4 A5 A6 A7 A8].
    destruct (IH s1 (i + 1) A5 ltac:(lia) ltac:(lia)) as (s' & Hs'); try done; [by rewrite A3|]. exists s'.
    rewrite Hq1 in Hs'. change (pp_lk s1) with (pp_lk s) in Hs'. subst ws. rewrite (user_bytes_drop m pt addr n i) by lia. set (rest := drop (Z.to_nat (i + 1)) _) in *.
    destruct (Z.leb_spec (n - i) (PIPESIZE - qlen (pp_pipe s))).
    + rewrite (proj2 (Z.leb_le _ _)) in Hs' by lia. destruct Hs' as (E1 & P1 & L1). split; [done|]. split; [by eapply put_all_trans|done].
    + rewrite (proj2 (Z.leb_gt _ _)) in Hs' by lia. destruct Hs' as (E1 & P1 & L1 & W1). split; [done|].
      replace (Z.to_nat (PIPESIZE - qlen (pp_pipe s))) with (S (Z.to_nat (PIPESIZE - (qlen (pp_pipe s) + Z.of_nat 1)))) by lia. cbn [take].
      split; [|done]. replace (i + (PIPESIZE - qlen (pp_pipe s))) with (i + 1 + (PIPESIZE - (qlen (pp_pipe s) + Z.of_nat 1))) by lia. by eapply put_all_trans.
Qed.
End write.

(** ** piperead *)

Lemma queue_bytes p : pipe_ok p -> bytes (queue p).
Proof.
  intros Hp. unfold queue, bytes. rewrite Forall_fmap. apply Forall_forall. intros k _. unfold compose, cell.
  destruct (znth (pi_data p) ((pi_nread p + k) mod PIPESIZE)) as [b|] eqn:E; cbn; [|lia].
  unfold znth in E. destruct (0 <=? _); [|done]. exact (Forall_lookup_1 _ _ _ _ (po_bytes _ Hp) E).
Qed.

(** [bs] was taken from the pipe and stored for the user from byte [i] on. *)
Record got_all (m : mem) (pt ch addr n : Z) (s : pst) (bs : list Z) (i : Z) (s' : pst) : Prop := {
  ga_ok : pipe_ok (pp_pipe s');
  ga_queue : queue (pp_pipe s) = bs ++ queue (pp_pipe s');
  ga_readopen : pi_readopen (pp_pipe s') = pi_readopen (pp_pipe s);
  ga_writeopen : pi_writeopen (pp_pipe s') = pi_writeopen (pp_pipe s);
  ga_i : pp_i s' = pp_i s;
  ga_killed : pp_killed s' = pp_killed s;
  ga_wf : wf_mem (ph_mem (pp_phys s'));
  ga_user : forall j b, bs !! j = Some b -> ph_mem (pp_phys s') (uaddr m pt (addr + i + Z.of_nat j)) = b;
  ga_kept : forall k, 0 <= k < i -> ph_mem (pp_phys s') (uaddr m pt (addr + k)) = ph_mem (pp_phys s) (uaddr m pt (addr + k));
  ga_mem : forall x, x <> ch -> ~ user_byte m pt addr (addr + n) x -> ph_mem (pp_phys s') x = m x
}.

Lemma got_all_lk m pt ch addr n s k k' bs i s' : got_all m pt ch addr n (set_plk k s) bs i s' -> got_all m pt ch addr n s bs i (set_plk k' s').
Proof. by intros []. Qed.

Section read.
Context (pi pt ch addr n : Z) (m : mem) (Hb : writable m pt ch addr n).

Lemma got_all_refl s i : pipe_ok (pp_pipe s) -> wf_mem (ph_mem (pp_phys s)) ->
  (forall x, x <> ch -> ~ user_byte m pt addr (addr + n) x -> ph_mem (pp_phys s) x = m x) -> got_all m pt ch addr n s [] i s.
Proof. intros. by split. Qed.

(** One turn. *)
Lemma read_byte s i :
  0 <= i < n -> pipe_ok (pp_pipe s) -> 0 < qlen (pp_pipe s) -> wf_mem (ph_mem (pp_phys s)) ->
  (forall x, x <> ch -> ~ user_byte m pt addr (addr + n) x -> ph_mem (pp_phys s) x = m x) ->
  exists b p' h, take1 (pp_pipe s) = Some (b, p') /\
    copyout pt (u64 (addr + i)) ch 1 (mkPhys (st8 (ph_mem (pp_phys s)) ch b) (ph_pool (pp_phys s)) (ph_end (pp_phys s))) = Ret 0 h /\
    got_all m pt ch addr n s [b] i (set_pphys h (set_pipe p' s)).
Proof using Hb.
  intros Hi Hp Hq Hw Hm. destruct (take1_ok _ Hp Hq) as (b & p' & E & Hp' & Hq' & Hr & Ho).
  pose proof (queue_bytes _ Hp) as Hby. rewrite Hq' in Hby. apply Forall_cons in Hby as [Hby _].
  set (h0 := mkPhys (st8 (ph_mem (pp_phys s)) ch b) (ph_pool (pp_phys s)) (ph_end (pp_phys s))).
  destruct (copyout1 m pt ch addr n i h0 Hb) as (h & E' & W & C & M); [by apply st8_wf| |done|].
  { intros x Hx Hu. cbn. rewrite st8_ne by done. by apply Hm. }
  exists b, p', h. split; [done|]. split; [done|]. cbn [ph_mem h0] in C, M. rewrite st8_eq, u8_small in C by done. split; cbn; try done.
  - intros [|j] b' [= <-]. by replace (addr + i + Z.of_nat 0) with (addr + i) by lia.
  - intros k Hk. rewrite M; [|intros Heq; apply (wb_inj _ _ _ _ _ Hb) in Heq; lia]. rewrite st8_ne; [done|]. apply (wb_ch _ _ _ _ _ Hb). lia.
  - intros x Hx Hu. rewrite M; [rewrite st8_ne by done; by apply Hm|]. intros ->. apply Hu. exists (addr + i).
    split; [lia|]. split; [by apply (wb_mapped _ _ _ _ _ Hb)|done].
Qed.

Lemma got_all_cons s1 s2 s3 b bs i : 0 <= i ->
  got_all m pt ch addr n s1 [b] i s2 -> got_all m pt ch addr n s2 bs (i + 1) s3 -> got_all m pt ch addr n s1 (b :: bs) i s3.
Proof.
  intros Hi [A1 A2 A3 A4 A5 A6 A7 A8 A9 A10] [B1 B2 B3 B4 B5 B6 B7 B8 B9 B10]. split; try congruence; try done.
  - by rewrite A2, B2.
  - intros [|j] b' Hj; cbn in Hj.
    + injection Hj as <-. specialize (B9 i ltac:(lia)). replace (addr + i + Z.of_nat 0) with (addr + i) by lia. rewrite B9.
      specialize (A8 0%nat b eq_refl). by replace (addr + i + Z.of_nat 0) with (addr + i) in A8 by lia.
    + replace (addr + i + Z.of_nat (S j)) with (addr + (i + 1) + Z.of_nat j) by lia. by apply B8.
  - intros k Hk. rewrite B9 by lia. by apply A9.
Qed.

Lemma piperead_loop_ok k : forall s i,
  0 <= i -> i + Z.of_nat k = n -> pipe_ok (pp_pipe s) -> wf_mem (ph_mem (pp_phys s)) ->
  (forall x, x <> ch -> ~ user_byte m pt addr (addr + n) x -> ph_mem (pp_phys s) x = m x) ->
  let bs := take k (queue (pp_pipe s)) in
  exists s', piperead_loop k pt ch addr n i s = Ret (i + Z.of_nat (length bs)) s' /\ got_all m pt ch addr n s bs i s' /\ pp_lk s' = pp_lk s.
Proof using Hb.
  induction k as [|k IH]; intros s i Hi Hn Hp Hw Hm; cbn zeta; cbn [piperead_loop].
  { exists s. cbn [take length]. rewrite Z.add_0_r. split; [done|]. split; [by apply got_all_refl|done]. }
  rewrite bind_gets, empty_test by done. pose proof (qlen_nonneg (pp_pipe s)) as Hq0.
  destruct (Z.eqb_spec (qlen (pp_pipe s)) 0) as [Hq|Hq].
  { exists s. assert (queue (pp_pipe s) = []) as -> by (apply nil_length_inv; pose proof (queue_length (pp_pipe s)); lia).
    cbn [take length]. rewrite Z.add_0_r. split; [done|]. split; [by apply got_all_refl|done]. }
  destruct (read_byte s i ltac:(lia) Hp ltac:(lia) Hw Hm) as (b & p' & h & E & E' & G). rewrite E.
  erewrite bind_Ret by reflexivity. erewrite bind_Ret by reflexivity. cbn [pst_phys update view pp_phys set_pphys set_pipe].
  erewrite bind_Ret by (apply lift_Ret; exact E'). change (0 =? -1) with false. cbn match.
  match goal with |- context [piperead_loop k _ _ _ _ _ ?x] => set (s1 := x) end.
  assert (got_all m pt ch addr n s [b] i s1) as G1 by exact G. pose proof G1 as [A1 A2 A3 A4 A5 A6 A7 A8 A9 A10].
  destruct (IH s1 (i + 1) ltac:(lia) ltac:(lia) A1 A7 A10) as (s' & E1 & G' & L'). exists s'. rewrite A2. cbn [app take length].
  split; [rewrite E1; f_equal; lia|]. split; [by eapply got_all_cons|done].
Qed.
End read.

(** ** The system calls, up to a return or a sleep *)

(** As seen at a scheduling point: no lock held, no wakeup pending. *)
Record idle (s : pst) : Prop := { id_held : lk_held (pp_lk s) = []; id_wakeups : lk_wakeups (pp_lk s) = [] }.

Lemma put_all_start m ch s k bs i s' : put_all m ch (set_plk k s) bs i s' -> put_all m ch s bs i s'.
Proof. by intros []. Qed.

Lemma pipewrite_segment pi pt ch addr n m s :
  readable m pt ch addr n -> idle s -> 0 <= pp_i s <= n -> pipe_ok (pp_pipe s) -> pi_readopen (pp_pipe s) <> 0 -> pp_killed s = false ->
  wf_mem (ph_mem (pp_phys s)) -> (forall x, x <> ch -> ph_mem (pp_phys s) x = m x) ->
  let free := PIPESIZE - qlen (pp_pipe s) in let rest := drop (Z.to_nat (pp_i s)) (user_bytes m pt addr n) in
  exists s', lk_held (pp_lk s') = [] /\ lk_wakeups (pp_lk s') = [chan_nread pi] /\
    if n - pp_i s <=? free
    then pipewrite_resume pi pt ch addr n s = Ret n s' /\ put_all m ch s rest n s'
    else pipewrite_resume pi pt ch addr n s = Blocked (chan_nwrite pi) s' /\ put_all m ch s (take (Z.to_nat free) rest) (pp_i s + free) s'.
Proof.
  intros Hb [Hh Hwk] Hi Hp Hro Hk Hw Hm free rest. unfold pipewrite_resume.
  erewrite bind_Ret by (apply lift_Ret, lk_acquire_ok; cbn [view pst_lk]; rewrite Hh; apply not_elem_of_nil). cbn [update pst_lk view].
  rewrite Hh. set (s1 := set_plk _ s). rewrite bind_gets. change (pp_i s1) with (pp_i s).
  destruct (pipewrite_loop_ok pi pt ch addr n m Hb (S (Z.to_nat (n - pp_i s))) s1 (pp_i s)) as (s2 & H2); try done; [lia|].
  change (pp_pipe s1) with (pp_pipe s) in H2. fold free in H2. fold rest in H2. destruct (n - pp_i s <=? free).
  - destruct H2 as (E & P & L). rewrite (bind_Ret _ _ _ _ _ E). erewrite bind_Ret by reflexivity.
    erewrite bind_Ret by (apply lift_Ret, (lk_release_ok _ []); [cbn; by rewrite L|apply not_elem_of_nil]).
    cbn [update pst_lk view pp_lk set_plk]. match goal with |- context [gets pp_i ?x] => exists x end.
    split; [reflexivity|]. split; [cbn; by rewrite L; cbn; rewrite Hwk|]. split.
    + unfold gets. cbn [pp_i set_plk]. by rewrite (pa_i _ _ _ _ _ _ P).
    + apply put_all_lk, put_all_lk. by eapply put_all_start.
  - destruct H2 as (E & P & Lh & Lw). exists s2. split; [done|]. split; [by rewrite Lw; cbn; rewrite Hwk|]. split.
    + unfold bind. by rewrite E.
    + by eapply put_all_start.
Qed.

Lemma piperead_segment pi pt ch addr n m s :
  writable m pt ch addr n -> 0 <= n -> idle s -> pipe_ok (pp_pipe s) -> pp_killed s = false -> wf_mem (ph_mem (pp_phys s)) ->
  (forall x, x <> ch -> ~ user_byte m pt addr (addr + n) x -> ph_mem (pp_phys s) x = m x) ->
  if (qlen (pp_pipe s) =? 0) && negb (pi_writeopen (pp_pipe s) =? 0)
  then exists s', piperead pi pt ch addr n s = Blocked (chan_nread pi) s' /\ lk_held (pp_lk s') = [] /\ s' = set_plk (pp_lk s') s /\ lk_wakeups (pp_lk s') = []
  else let bs := take (Z.to_nat n) (queue (pp_pipe s)) in exists s', piperead pi pt ch addr n s = Ret (Z.of_nat (length bs)) s' /\
    lk_held (pp_lk s') = [] /\ lk_wakeups (pp_lk s') = [chan_nwrite pi] /\ got_all m pt ch addr n s bs 0 s'.
Proof.
  intros Hb Hn [Hh Hwk] Hp Hk Hw Hm. unfold piperead.
  erewrite bind_Ret by (apply lift_Ret, lk_acquire_ok; cbn [view pst_lk]; rewrite Hh; apply not_elem_of_nil). cbn [update pst_lk view].
  rewrite Hh. set (s1 := set_plk _ s). rewrite bind_gets, bind_gets. change (pp_pipe s1) with (pp_pipe s). change (pp_killed s1) with (pp_killed s).
  rewrite empty_test, Hk by done. destruct ((qlen (pp_pipe s) =? 0) && negb (pi_writeopen (pp_pipe s) =? 0)).
  - unfold lift, sleep. cbn [view pst_lk]. erewrite bind_Ret by (apply (lk_release_ok _ []); [reflexivity|apply not_elem_of_nil]).
    eexists. split; [reflexivity|]. cbn. by rewrite Hwk.
  - destruct (piperead_loop_ok pt ch addr n m Hb (Z.to_nat n) s1 0) as (s2 & E & G & L); try done; [lia|].
    change (pp_pipe s1) with (pp_pipe s) in *. rewrite Z.add_0_l in E. rewrite (bind_Ret _ _ _ _ _ E). erewrite bind_Ret by reflexivity.
    erewrite bind_Ret by (apply lift_Ret, (lk_release_ok _ []); [cbn; by rewrite L|apply not_elem_of_nil]).
    cbn [update pst_lk view pp_lk set_plk]. match goal with |- context [ret _ ?x] => exists x end.
    split; [reflexivity|]. split; [reflexivity|]. split; [cbn; by rewrite L; cbn; rewrite Hwk|]. exact (got_all_lk _ _ _ _ _ s _ _ _ _ _ G).
Qed.

(** ** A writer and a reader *)

Lemma tables_apart_stable (P Q : Z -> Prop) m m' pt lo hi lo' hi' :
  tables_apart m pt lo hi P -> (forall x, ~ P x -> m' x = m x) -> (forall x, Q x -> P x) -> lo <= lo' -> hi' <= hi -> tables_apart m' pt lo' hi' Q.
Proof.
  intros Ha Hm HQ H1 H2 va x Hva Hx Hq. apply (Ha va x); [lia| |auto].
  apply (walk_byte_stable m m') in Hx; [done|]. intros y Hy. apply Hm. apply (Ha va y); [lia|done].
Qed.

(** A process writes the [n] bytes at [addrw] to the pipe and closes it; another
    reads from the pipe into the [B] bytes at [addrr] until end of file. *)
Inductive wstate := W_ready | W_asleep | W_wrote | W_done.
Inductive rstate := R_ready | R_asleep | R_done.
Record conf := mkConf { c_s : pst; c_w : wstate; c_r : rstate; c_got : Z }.

Section transfer.
Context (pi ptw chw addrw n ptr chr addrr B : Z).

(** At a scheduling point the wakeups have been delivered. *)
Definition quiet (s : pst) : pst := set_plk (mkLk (lk_held (pp_lk s)) (lk_sleep (pp_lk s)) (lk_pid (pp_lk s)) []) s.
Definition woken (ch : Z) (s : pst) : bool := bool_decide (ch ∈ lk_wakeups (pp_lk s)).
Definition wake_w (s : pst) (w : wstate) : wstate := match w with W_asleep => if woken (chan_nwrite pi) s then W_ready else W_asleep | _ => w end.
Definition wake_r (s : pst) (r : rstate) : rstate := match r with R_asleep => if woken (chan_nread pi) s then R_ready else R_asleep | _ => r end.

Inductive pstep : conf -> conf -> Prop :=
| step_write_sleep s s' r g : pipewrite_resume pi ptw chw addrw n s = Blocked (chan_nwrite pi) s' ->
    pstep (mkConf s W_ready r g) (mkConf (quiet s') W_asleep (wake_r s' r) g)
| step_write_done s s' r g k : pipewrite_resume pi ptw chw addrw n s = Ret k s' ->
    pstep (mkConf s W_ready r g) (mkConf (quiet s') W_wrote (wake_r s' r) g)
| step_close s s' r g : pipeclose pi true s = Ret tt s' ->
    pstep (mkConf s W_wrote r g) (mkConf (quiet s') W_done (wake_r s' r) g)
| step_read_sleep s s' w g : piperead pi ptr chr (addrr + g) (B - g) s = Blocked (chan_nread pi) s' ->
    pstep (mkConf s w R_ready g) (mkConf (quiet s') (wake_w s' w) R_asleep g)
| step_read s s' w g k : piperead pi ptr chr (addrr + g) (B - g) s = Ret k s' -> k <> 0 ->
    pstep (mkConf s w R_ready g) (mkConf (quiet s') (wake_w s' w) R_ready (g + k))
| step_eof s s' w g : piperead pi ptr chr (addrr + g) (B - g) s = Ret 0 s' ->
    pstep (mkConf s w R_ready g) (mkConf (quiet s') (wake_w s' w) R_done g).

Context (m0 : mem).

(** What the two processes write in memory: their local bytes and the reader's
    buffer. *)
Definition scratch (x : Z) : Prop := x = chw \/ x = chr \/ user_byte m0 ptr addrr (addrr + B) x.

Record setup : Prop := {
  su_n : 0 <= n < B;
  su_w : readable m0 ptw chw addrw n;
  su_r : writable m0 ptr chr addrr B;
  su_wt : tables_apart m0 ptw addrw (addrw + n) scratch;
  su_wd : forall k, 0 <= k < n -> ~ scratch (uaddr m0 ptw (addrw + k));
  su_rt : tables_apart m0 ptr addrr (addrr + B) scratch;
  su_rd : forall k, 0 <= k < B -> uaddr m0 ptr (addrr + k) <> chw
}.
Context (Hs : setup).

Definition sent : list Z := user_bytes m0 ptw addrw n.

Definition keeps_mem (m : mem) : Prop := forall x, ~ scratch x -> m x = m0 x.

Lemma writer_view m va : keeps_mem m -> addrw <= va < addrw + n -> upage m ptw (PGROUNDDOWN va) = upage m0 ptw (PGROUNDDOWN va).
Proof using Hs. intros Hm Hva. apply (translation_stable scratch _ _ _ addrw (addrw + n)); [apply (su_wt Hs)|done|done]. Qed.
Lemma reader_view m va : keeps_mem m -> addrr <= va < addrr + B -> upage m ptr (PGROUNDDOWN va) = upage m0 ptr (PGROUNDDOWN va).
Proof using Hs. intros Hm Hva. apply (translation_stable scratch _ _ _ addrr (addrr + B)); [apply (su_rt Hs)|done|done]. Qed.

Lemma writer_buffer m : keeps_mem m -> readable m ptw chw addrw n /\ user_bytes m ptw addrw n = sent.
Proof using Hs.
  intros Hm. pose proof (su_w Hs) as [R1 R2 R3 R4]. pose proof (su_n Hs) as Hn.
  assert (forall k, 0 <= k < n -> uaddr m ptw (addrw + k) = uaddr m0 ptw (addrw + k)) as Hu by (intros k Hk; unfold uaddr; rewrite writer_view; [done|done|lia]).
  split.
  - split; [done| | |].
    + intros k Hk. unfold mapped. rewrite writer_view by (done || lia). by apply R2.
    + eapply tables_apart_stable; [apply (su_wt Hs)|done| |lia|lia]. intros x ->. by left.
    + intros k Hk. rewrite Hu by done. by apply R4.
  - unfold sent, user_bytes. apply map_ext_in. intros k Hk%list_elem_of_In. apply elem_of_seqZ in Hk. rewrite Hu by lia. apply Hm, (su_wd Hs). lia.
Qed.

Lemma reader_buffer m g : keeps_mem m -> 0 <= g <= B -> writable m ptr chr (addrr + g) (B - g) /\
  (forall k, 0 <= k < B -> uaddr m ptr (addrr + k) = uaddr m0 ptr (addrr + k)) /\
  (forall x, user_byte m ptr (addrr + g) (addrr + g + (B - g)) x -> scratch x).
Proof using Hs.
  intros Hm Hg. pose proof (su_r Hs) as [R1 R2 R3 R4 R5].
  assert (forall k, 0 <= k < B -> uaddr m ptr (addrr + k) = uaddr m0 ptr (addrr + k)) as Hu by (intros k Hk; unfold uaddr; rewrite reader_view; [done|done|lia]).
  assert (forall x, user_byte m ptr (addrr + g) (addrr + g + (B - g)) x -> scratch x) as Hub.
  { intros x (va & Hva & Hmp & ->). right. right. exists va. split; [lia|]. unfold mapped in *. rewrite reader_view in Hmp by (done || lia).
    split; [done|]. replace va with (addrr + (va - addrr)) by lia. rewrite Hu by lia. done. }
  split; [|done]. split.
  - lia.
  - intros k Hk. rewrite <- Z.add_assoc. unfold mapped. rewrite reader_view by (done || lia). apply R2. lia.
  - eapply tables_apart_stable; [apply (su_rt Hs)|done| |lia|lia]. intros x [->|Hx]; [right; by left|by apply Hub].
  - intros k Hk. rewrite <- Z.add_assoc, Hu by lia. apply R4. lia.
  - intros k k' Hk Hk'. rewrite <- !Z.add_assoc, !Hu by lia. intros E. apply R5 in E; lia.
Qed.

Record inv (c : conf) : Prop := {
  iv_idle : idle (c_s c);
  iv_ok : pipe_ok (pp_pipe (c_s c));
  iv_ro : pi_readopen (pp_pipe (c_s c)) <> 0;
  iv_killed : pp_killed (c_s c) = false;
  iv_wf : wf_mem (ph_mem (pp_phys (c_s c)));
  iv_mem : keeps_mem (ph_mem (pp_phys (c_s c)));
  iv_i : 0 <= pp_i (c_s c) <= n;
  iv_got : 0 <= c_got c;
  iv_gi : c_got c + qlen (pp_pipe (c_s c)) = pp_i (c_s c);
  iv_queue : take (Z.to_nat (pp_i (c_s c))) sent = take (Z.to_nat (c_got c)) sent ++ queue (pp_pipe (c_s c));
  iv_recv : forall k b, (k < Z.to_nat (c_got c))%nat -> sent !! k = Some b -> ph_mem (pp_phys (c_s c)) (uaddr m0 ptr (addrr + Z.of_nat k)) = b;
  iv_w : match c_w c with
         | W_ready => pi_writeopen (pp_pipe (c_s c)) <> 0
         | W_asleep => pi_writeopen (pp_pipe (c_s c)) <> 0 /\ qlen (pp_pipe (c_s c)) = PIPESIZE /\ pp_i (c_s c) < n
         | W_wrote => pi_writeopen (pp_pipe (c_s c)) <> 0 /\ pp_i (c_s c) = n
         | W_done => pi_writeopen (pp_pipe (c_s c)) = 0 /\ pp_i (c_s c) = n
         end;
  iv_r : match c_r c with
         | R_ready => True
         | R_asleep => qlen (pp_pipe (c_s c)) = 0 /\ c_w c <> W_done
         | R_done => qlen (pp_pipe (c_s c)) = 0 /\ c_w c = W_done
         end
}.

Lemma sent_length : length sent = Z.to_nat n.
Proof using Hs. apply user_bytes_length. pose proof (su_n Hs). lia. Qed.

Lemma take_drop_app (l : list Z) i k : take i l ++ take k (drop i l) = take (i + k) l.
Proof. by rewrite take_take_drop. Qed.

(** The writer's segment. *)
Lemma inv_write s r g : inv (mkConf s W_ready r g) ->
  exists s' i', ((pipewrite_resume pi ptw chw addrw n s = Ret n s' /\ i' = n) \/
     (pipewrite_resume pi ptw chw addrw n s = Blocked (chan_nwrite pi) s' /\ i' < n /\ qlen (pp_pipe s') = PIPESIZE)) /\
    pp_i s <= i' <= n /\ (i' = pp_i s -> i' = n \/ qlen (pp_pipe s) = PIPESIZE) /\ wake_r s' r = (match r with R_asleep => R_ready | _ => r end) /\
    forall w' r', (match w' with W_ready => False | W_asleep => qlen (pp_pipe s') = PIPESIZE /\ i' < n | W_wrote => i' = n | W_done => False end) ->
      (match r' with R_asleep => False | R_done => False | R_ready => True end) -> inv (mkConf (quiet s') w' r' g).
Proof using Hs.
  intros [V1 V2 V3 V4 V5 V6 V7 V8 V9 V10 V11 V12 V13]. cbn [c_s c_w c_r c_got] in *. set (m := ph_mem (pp_phys s)) in *.
  destruct (writer_buffer m V6) as [Hrd Hub]. pose proof (po_len _ V2) as Hl. pose proof (qlen_nonneg (pp_pipe s)) as Hl0.
  destruct (pipewrite_segment pi ptw chw addrw n m s Hrd V1 V7 V2 V3 V4 V5) as (s' & Hh & Hwk & Hres); [done|]. rewrite Hub in Hres.
  set (free := PIPESIZE - qlen (pp_pipe s)) in *. set (i' := if n - pp_i s <=? free then n else pp_i s + free).
  assert (pp_i s <= i' <= n) as Hi' by (subst i'; destruct (Z.leb_spec (n - pp_i s) free); lia).
  assert (put_all m chw s (take (Z.to_nat (i' - pp_i s)) (drop (Z.to_nat (pp_i s)) sent)) i' s') as P.
  { subst i'. destruct (Z.leb_spec (n - pp_i s) free); destruct Hres as [_ P].
    - rewrite take_ge; [done|]. rewrite length_drop, sent_length. lia.
    - replace (pp_i s + free - pp_i s) with free by lia. done. }
  pose proof (put_all_qlen _ _ _ _ _ _ P) as Hq'. rewrite length_take, length_drop, sent_length in Hq'.
  exists s', i'. split.
  { subst i'. destruct (Z.leb_spec (n - pp_i s) free); destruct Hres as [E _]; [left; done|right]. split; [done|]. split; [lia|]. lia. }
  split; [done|]. split; [subst i' free; destruct (Z.leb_spec (n - pp_i s) (PIPESIZE - qlen (pp_pipe s))); lia|].
  split; [unfold wake_r, woken; rewrite Hwk; destruct r; try done; by rewrite bool_decide_eq_true_2 by left|].
  intros w' r' Hw' Hr'. destruct P as [P1 P2 P3 P4 P5 P6 P7 P8]. cbn [c_s c_w c_r c_got]. split; cbn [c_s c_w c_r c_got quiet set_plk pp_pipe pp_phys pp_killed pp_i pp_lk]; try done.
  - by rewrite P3.
  - by rewrite P6.
  - intros x Hx. rewrite P8 by (intros ->; apply Hx; by left). by apply V6.
  - rewrite P5. lia.
  - rewrite Hq', P5. lia.
  - rewrite P5, P2, app_assoc, <- V10, take_drop_app. f_equal. lia.
  - intros k b Hk Hb. rewrite P8; [by apply V11|]. apply (su_rd Hs). pose proof (su_n Hs). lia.
  - rewrite P4, P5. by destruct w'.
  - by destruct r'.
Qed.

(** The reader's segment: it sleeps on an empty pipe, or takes all there is. *)
Lemma inv_read s w g : inv (mkConf s w R_ready g) ->
  (exists s', piperead pi ptr chr (addrr + g) (B - g) s = Blocked (chan_nread pi) s' /\ inv (mkConf (quiet s') (wake_w s' w) R_asleep g) /\ wake_w s' w = w /\ pp_i s' = pp_i s) \/
  (exists s', let k := qlen (pp_pipe s) in piperead pi ptr chr (addrr + g) (B - g) s = Ret k s' /\ pp_i s' = pp_i s /\
     wake_w s' w = (match w with W_asleep => W_ready | _ => w end) /\
     inv (mkConf (quiet s') (wake_w s' w) (if k =? 0 then R_done else R_ready) (g + k)) /\ (k = 0 -> w = W_done)).
Proof using Hs.
  intros [V1 V2 V3 V4 V5 V6 V7 V8 V9 V10 V11 V12 V13]. cbn [c_s c_w c_r c_got] in *. set (m := ph_mem (pp_phys s)) in *.
  pose proof (su_n Hs) as Hn. pose proof (qlen_nonneg (pp_pipe s)) as Hl0.
  destruct (reader_buffer m g V6 ltac:(lia)) as (Hwr & Hu & Hub).
  pose proof (piperead_segment pi ptr chr (addrr + g) (B - g) m s Hwr ltac:(lia) V1 V2 V4 V5 ltac:(done)) as Hres.
  destruct ((qlen (pp_pipe s) =? 0) && negb (pi_writeopen (pp_pipe s) =? 0)) eqn:Ec; [left|right].
  - apply andb_true_iff in Ec as [Hq%Z.eqb_eq Hwo%negb_true_iff%Z.eqb_neq]. destruct Hres as (s' & E & Hh & Es & Hwk). exists s'. split; [done|].
    assert (wake_w s' w = w) as Hw by (unfold wake_w, woken; rewrite Hwk; by destruct w).
    split; [|split; [done|by rewrite Es]]. rewrite Hw, Es. split; cbn; try done. destruct w; try done. by destruct V12.
  - destruct Hres as (s' & E & Hh & Hwk & G). rewrite take_ge in E, G by (pose proof (queue_length (pp_pipe s)); lia). rewrite queue_length in E.
    assert (wake_w s' w = (match w with W_asleep => W_ready | _ => w end)) as Hw
      by (unfold wake_w, woken; rewrite Hwk; destruct w; try done; by rewrite bool_decide_eq_true_2 by left).
    destruct G as [G1 G2 G3 G4 G5 G6 G7 G8 G9 G10].
    assert (queue (pp_pipe s') = []) as Hqe by (apply (f_equal length) in G2; rewrite length_app in G2; apply nil_length_inv; lia).
    assert (qlen (pp_pipe s') = 0) as Hql by (rewrite <- queue_length, Hqe; done).
    assert (qlen (pp_pipe s) = 0 -> w = W_done) as Hd.
    { intros Hq. rewrite (proj2 (Z.eqb_eq _ _) Hq) in Ec. cbn [andb] in Ec. apply negb_false_iff, Z.eqb_eq in Ec. destruct w; try done; by destruct V12. }
    assert (take (Z.to_nat (g + qlen (pp_pipe s))) sent = take (Z.to_nat g) sent ++ queue (pp_pipe s)) as Hsq by (rewrite V9; exact V10).
    exists s'. cbn zeta. split; [exact E|]. split; [exact G5|]. split; [exact Hw|]. split; [|exact Hd]. rewrite Hw.
    split; cbn [c_s c_w c_r c_got quiet set_plk pp_pipe pp_phys pp_killed pp_i pp_lk]; try done.
    + by rewrite G3.
    + by rewrite G6.
    + intros x Hx. rewrite G10; [by apply V6|intros ->; apply Hx; right; by left|intros Hb; by apply Hx, Hub].
    + by rewrite G5.
    + lia.
    + rewrite Hql, G5. lia.
    + rewrite G5, Hqe, app_nil_r, V9. done.
    + intros k b Hk Hb. destruct (decide (k < Z.to_nat g)%nat) as [Hlt|Hge].
      * rewrite G10; [by apply V11|apply (wb_ch _ _ _ _ _ (su_r Hs)); lia|].
        intros (va & Hva & _ & Eva). replace va with (addrr + (va - addrr)) in Eva by lia. rewrite Hu in Eva by lia.
        apply (wb_inj _ _ _ _ _ (su_r Hs)) in Eva; lia.
      * specialize (G8 (k - Z.to_nat g)%nat b). rewrite <- G8.
        -- rewrite <- Hu by lia. do 2 f_equal. lia.
        -- assert (take (Z.to_nat (g + qlen (pp_pipe s))) sent !! k = Some b) as Hk' by (rewrite lookup_take_lt by lia; done).
           rewrite Hsq, lookup_app_r in Hk' by (rewrite length_take; lia). rewrite length_take, sent_length in Hk'.
           by replace (k - Z.to_nat g `min` Z.to_nat n)%nat with (k - Z.to_nat g)%nat in Hk' by lia.
    + rewrite G4, G5. destruct w; try done. by destruct V12.
    + destruct (Z.eqb_spec (qlen (pp_pipe s)) 0) as [Hq|Hq]; [|done]. split; [done|]. by rewrite (Hd Hq).
Qed.

Lemma inv_close s r g : inv (mkConf s W_wrote r g) ->
  exists s', pipeclose pi true s = Ret tt s' /\ wake_r s' r = (match r with R_asleep => R_ready | _ => r end) /\
    inv (mkConf (quiet s') W_done (wake_r s' r) g).
Proof.
  intros [[V1 V1'] V2 V3 V4 V5 V6 V7 V8 V9 V10 V11 V12 V13]. cbn [c_s c_w c_r c_got] in *. unfold pipeclose.
  erewrite bind_Ret by (apply lift_Ret, lk_acquire_ok; cbn [view pst_lk]; rewrite V1; apply not_elem_of_nil).
  cbn [update pst_lk view]. rewrite V1, bind_assoc. erewrite bind_Ret by reflexivity. erewrite bind_Ret by reflexivity. rewrite bind_gets.
  cbn [pp_pipe set_pipe set_plk update pst_lk pi_readopen pi_writeopen]. rewrite (proj2 (Z.eqb_neq _ _) V3). cbn [andb].
  erewrite lift_Ret by (apply (lk_release_ok _ []); [reflexivity|apply not_elem_of_nil]).
  eexists. split; [reflexivity|]. assert (forall s' : pst, lk_wakeups (pp_lk s') = [chan_nread pi] -> wake_r s' r = (match r with R_asleep => R_ready | _ => r end)) as Hw
    by (intros s' Hwk; unfold wake_r, woken; rewrite Hwk; destruct r; try done; by rewrite bool_decide_eq_true_2 by left).
  rewrite Hw by (cbn; by rewrite V1'). split; [done|].
  split; cbn; try done; [by destruct V2; split|by destruct V12|]. destruct r; try done. by destruct V13.
Qed.

(** Steps left, at most. *)
Definition steps_left (c : conf) : Z :=
  4 * (n - pp_i (c_s c)) + 4 * (n - c_got c) +
  (match c_w c with W_ready => 6 | W_asleep => 5 | W_wrote => 3 | W_done => 0 end) +
  (match c_r c with R_ready => 2 | R_asleep => 1 | R_done => 0 end).

Lemma steps_left_nonneg c : inv c -> 0 <= steps_left c.
Proof.
  intros [V1 V2 V3 V4 V5 V6 V7 V8 V9 V10 V11 V12 V13]. unfold steps_left. pose proof (qlen_nonneg (pp_pipe (c_s c))).
  destruct (c_w c), (c_r c); lia.
Qed.

Lemma pstep_inv c c' : inv c -> pstep c c' -> inv c' /\ steps_left c' < steps_left c.
Proof using Hs.
  intros Hi Hst. pose proof (po_len _ (iv_ok _ Hi)) as Hlen. destruct Hst as [s s' r g E|s s' r g k E|s s' r g E|s s' w g E|s s' w g k E Hk|s s' w g E].
  - destruct (inv_write _ _ _ Hi) as (s2 & i' & [[E' _]|(E' & Hlt & Hfull)] & Hi' & Hno & Hw & Hinv); rewrite E in E'; [done|]. injection E' as <-.
    assert (wake_r s' r = R_ready) as Hr by (rewrite Hw; destruct r; try done; by destruct (iv_r _ Hi) as [_ ?]).
    rewrite Hr. specialize (Hinv W_asleep R_ready ltac:(done) I). split; [done|]. pose proof (iv_gi _ Hinv) as Hg. pose proof (iv_gi _ Hi) as Hg0.
    cbn in Hg, Hg0, Hlen. rewrite Hfull in Hg. unfold steps_left. cbn. destruct r; [lia| |by destruct (iv_r _ Hi)].
    destruct (iv_r _ Hi) as [Hq _]. cbn in Hq. unfold PIPESIZE in *. lia.
  - destruct (inv_write _ _ _ Hi) as (s2 & i' & [[E' Hn']|(E' & _)] & Hi' & Hno & Hw & Hinv); rewrite E in E'; [|done]. injection E' as -> <-.
    assert (wake_r s' r = R_ready) as Hr by (rewrite Hw; destruct r; try done; by destruct (iv_r _ Hi) as [_ ?]).
    rewrite Hr. specialize (Hinv W_wrote R_ready Hn' I). split; [done|]. pose proof (iv_i _ Hi) as Hii. pose proof (iv_w _ Hinv) as [_ Hn2].
    cbn in Hii, Hn2. unfold steps_left. cbn. destruct r; lia.
  - destruct (inv_close _ _ _ Hi) as (s2 & E' & Hw & Hinv). rewrite E in E'. injection E' as <-. split; [done|]. rewrite Hw.
    pose proof (iv_w _ Hi) as [_ H1]. pose proof (iv_w _ Hinv) as [_ H2]. cbn in H1, H2. unfold steps_left. cbn. destruct r; lia.
  - destruct (inv_read _ _ _ Hi) as [(s2 & E' & Hinv & Hw & Hpi)|(s2 & E' & _)]; rewrite E in E'; [|done]. injection E' as <-. split; [done|].
    rewrite Hw. unfold steps_left. cbn. rewrite Hpi. lia.
  - destruct (inv_read _ _ _ Hi) as [(s2 & E' & _)|(s2 & E' & Hpi & Hw & Hinv & _)]; rewrite E in E'; [done|]. injection E' as -> <-.
    rewrite (proj2 (Z.eqb_neq _ _) Hk) in Hinv. split; [done|]. rewrite Hw. pose proof (qlen_nonneg (pp_pipe s)).
    unfold steps_left. cbn. rewrite Hpi. destruct w; lia.
  - destruct (inv_read _ _ _ Hi) as [(s2 & E' & _)|(s2 & E' & Hpi & Hw & Hinv & Hd)]; rewrite E in E'; [done|]. injection E' as Hq <-.
    rewrite <- Hq, Z.add_0_r in Hinv. split; [done|]. rewrite Hw. rewrite (Hd (eq_sym Hq)). unfold steps_left. cbn. rewrite Hpi. lia.
Qed.

Lemma pstep_progress c : inv c -> (c_w c = W_done /\ c_r c = R_done) \/ exists c', pstep c c'.
Proof using Hs.
  intros Hi. destruct c as [s w r g]. cbn. destruct r.
  - right. destruct (inv_read _ _ _ Hi) as [(s2 & E & _)|(s2 & E & _)]; [eexists; by apply step_read_sleep|].
    destruct (Z.eq_dec (qlen (pp_pipe s)) 0) as [H0|H0]; [rewrite H0 in E; eexists; by apply step_eof|eexists; by eapply step_read].
  - right. pose proof (iv_r _ Hi) as [Hq Hw]. cbn in Hq, Hw. destruct w; [| | |done].
    + destruct (inv_write _ _ _ Hi) as (s2 & i' & [[E _]|(E & _)] & _); eexists; [by eapply step_write_done|by apply step_write_sleep].
    + pose proof (iv_w _ Hi) as (_ & Hf & _). cbn in Hf. unfold PIPESIZE in Hf. lia.
    + destruct (inv_close _ _ _ Hi) as (s2 & E & _). eexists. by apply step_close.
  - left. by destruct (iv_r _ Hi) as [_ ?].
Qed.

Lemma reachable_inv c0 c : inv c0 -> rtc pstep c0 c -> inv c.
Proof using Hs. intros Hi. revert c. apply (rtc_ind_r inv); [done|]. intros x y _ Hst Hx. by apply (pstep_inv x y). Qed.

Lemma nsteps_bound k : forall c0 c, inv c0 -> nsteps pstep k c0 c -> Z.of_nat k <= steps_left c0.
Proof using Hs.
  induction k as [|k IH]; intros c0 c Hi Hst; [by apply steps_left_nonneg|]. inversion Hst as [|? ? c1 ? H1 H2]; subst.
  destruct (pstep_inv _ _ Hi H1) as [Hi1 Hm]. specialize (IH _ _ Hi1 H2). lia.
Qed.

Lemma inv_received c : inv c -> c_w c = W_done -> c_r c = R_done -> c_got c = n /\
  forall k, 0 <= k < n -> ph_mem (pp_phys (c_s c)) (uaddr m0 ptr (addrr + k)) = m0 (uaddr m0 ptw (addrw + k)).
Proof using Hs.
  intros [V1 V2 V3 V4 V5 V6 V7 V8 V9 V10 V11 V12 V13] Hw Hr. rewrite Hw in V12. rewrite Hr in V13. destruct V12 as [_ Hn], V13 as [Hq _].
  assert (c_got c = n) as Hg by lia. split; [done|]. intros k Hk. specialize (V11 (Z.to_nat k) (m0 (uaddr m0 ptw (addrw + k))) ltac:(lia)).
  rewrite Z2Nat.id in V11 by lia. apply V11. unfold sent, user_bytes. rewrite list_lookup_fmap, lookup_seqZ_lt by lia. cbn. do 4 f_equal. lia.
Qed.

End transfer.

(** An open, empty pipe; the writer has not started. *)
Record fresh (s : pst) : Prop := {
  fr_idle : idle s;
  fr_ok : pipe_ok (pp_pipe s);
  fr_empty : qlen (pp_pipe s) = 0;
  fr_open : pi_readopen (pp_pipe s) <> 0 /\ pi_writeopen (pp_pipe s) <> 0;
  fr_killed : pp_killed s = false;
  fr_i : pp_i s = 0;
  fr_wf : wf_mem (ph_mem (pp_phys s))
}.

Lemma fresh_inv ptw chw addrw n ptr chr addrr B s :
  setup ptw chw addrw n ptr chr addrr B (ph_mem (pp_phys s)) -> fresh s ->
  inv ptw chw addrw n ptr chr addrr B (ph_mem (pp_phys s)) (mkConf s W_ready R_ready 0).
Proof.
  intros Hs [F1 F2 F3 [F4 F4'] F5 F6 F7]. pose proof (su_n _ _ _ _ _ _ _ _ _ Hs) as Hn. split; cbn; try done.
  - lia.
  - lia.
  - rewrite F6. assert (queue (pp_pipe s) = []) as -> by (apply nil_length_inv; pose proof (queue_length (pp_pipe s)); lia). done.
  - intros; lia.
Qed.

(** C13: A pipe delivers everything in order, whatever the schedule.  One process
    writes [n] bytes (any number, also more than the pipe holds) and closes the
    pipe while another reads until end of file.  In every reachable state either
    both have finished, and then the reader's buffer holds exactly the writer's
    bytes, or a step is possible: no wakeup is lost and the two never sleep at
    the same time.  Every schedule ends after at most 8n + 8 steps. *)
Theorem pipe_delivers pi ptw chw addrw n ptr chr addrr B s :
  setup ptw chw addrw n ptr chr addrr B (ph_mem (pp_phys s)) -> fresh s ->
  let m0 := ph_mem (pp_phys s) in
  let step := pstep pi ptw chw addrw n ptr chr addrr B in
  let c0 := mkConf s W_ready R_ready 0 in
  (forall c, rtc step c0 c ->
     (c_w c = W_done /\ c_r c = R_done /\ c_got c = n /\
      forall k, 0 <= k < n -> ph_mem (pp_phys (c_s c)) (uaddr m0 ptr (addrr + k)) = m0 (uaddr m0 ptw (addrw + k))) \/
     exists c', step c c') /\
  (forall k c, nsteps step k c0 c -> Z.of_nat k <= 8 * n + 8).
Proof.
  intros Hs Hf m0 step c0. pose proof (fresh_inv _ _ _ _ _ _ _ _ _ Hs Hf) as Hi. split.
  - intros c Hc. pose proof (reachable_inv pi _ _ _ _ _ _ _ _ _ Hs _ _ Hi Hc) as Hi'.
    destruct (pstep_progress pi _ _ _ _ _ _ _ _ _ Hs _ Hi') as [[Hw Hr]|H]; [left|by right].
    destruct (inv_received _ _ _ _ _ _ _ _ _ Hs _ Hi' Hw Hr) as [Hg Hm]. done.
  - intros k c Hc. pose proof (nsteps_bound pi _ _ _ _ _ _ _ _ _ Hs _ _ _ Hi Hc) as H. unfold steps_left in H. cbn in H.
    rewrite (fr_i _ Hf) in H. lia.
Qed.

(** 1500 bytes at address 100 of a process, to address 2000 of the same address
    space. *)
Lemma pipe_delivers_witness :
  exists s, setup 0x80100000 0x80200000 100 1500 0x80100000 0x80200008 2000 1600 (ph_mem (pp_phys s)) /\ fresh s /\
    forall k c, nsteps (pstep 0x80300000 0x80100000 0x80200000 100 1500 0x80100000 0x80200008 2000 1600) k (mkConf s W_ready R_ready 0) c ->
      Z.of_nat k <= 12008.
Proof.
  set (s := mkPst (new_pipe (replicate 512 5)) one_user_phys (mkLk [] (fun _ => mkSleeplock 0 0) 1 []) false 0).
  assert (setup 0x80100000 0x80200000 100 1500 0x80100000 0x80200008 2000 1600 (ph_mem (pp_phys s))) as Hs.
  { cbn [pp_phys s ph_mem one_user_phys]. pose proof one_user_page_tables as Ht.
    assert (forall va, 0 <= va < PGSIZE -> uaddr one_user_page 0x80100000 va = 0x80103000 + va) as Hu by (intros; by apply user_tables_addr).
    assert (forall x, scratch 0x80200000 0x80100000 0x80200008 2000 1600 one_user_page x -> 0x80103000 + 2000 <= x) as Hsc.
    { intros x [->|[->|(va & Hva & _ & ->)]]; [lia|lia|]. rewrite Hu by (unfold PGSIZE; lia). lia. }
    assert (forall lo hi (P : Z -> Prop), 0 <= lo -> hi <= PGSIZE -> (forall x, P x -> 0x80103000 <= x) -> tables_apart one_user_page 0x80100000 lo hi P) as Hta.
    { intros lo hi P H1 H2 HP va x Hva Hx Hp. apply HP in Hp. apply user_tables_walk in Hx; [lia|done|lia]. }
    split; [lia|split|split| | | |].
    - lia.
    - intros k Hk. apply user_tables_mapped; [done|unfold PGSIZE; lia].
    - apply Hta; [lia|unfold PGSIZE; lia|]. intros x ->. lia.
    - intros k Hk. rewrite Hu by (unfold PGSIZE; lia). lia.
    - lia.
    - intros k Hk. apply user_tables_mapped; [done|unfold PGSIZE; lia].
    - apply Hta; [lia|unfold PGSIZE; lia|]. intros x Hx. specialize (Hsc x (or_intror Hx)). lia.
    - intros k Hk. rewrite Hu by (unfold PGSIZE; lia). lia.
    - intros k k' Hk Hk'. rewrite !Hu by (unfold PGSIZE; lia). lia.
    - apply Hta; [lia|unfold PGSIZE; lia|]. intros x Hx. specialize (Hsc x Hx). lia.
    - intros k Hk H. apply Hsc in H. rewrite Hu in H by (unfold PGSIZE; lia). lia.
    - apply Hta; [lia|unfold PGSIZE; lia|]. intros x Hx. specialize (Hsc x Hx). lia.
    - intros k Hk. rewrite Hu by (unfold PGSIZE; lia). lia. }
  assert (fresh s) as Hf.
  { split; try done; [|exact one_user_page_wf]. split; try done. apply Forall_replicate. cbn. lia. }
  exists s. split; [exact Hs|]. split; [exact Hf|]. intros k c Hc.
  destruct (pipe_delivers 0x80300000 _ _ _ _ _ _ _ _ s Hs Hf) as [_ H]. specialize (H k c Hc). lia.
Defined.
