(* ===== verification/User.v ===== *)
(** * The system calls as a user program sees them, and user/printf.c

    A user program runs on [ust]: what its descriptors will deliver to read(),
    the files open() finds, and the writes it has made.  The data behind a
    descriptor is a list of chunks: a read returns at most one of them, which
    is how a pipe, the console or a file may split the same bytes over several
    reads.  [U] adds exit() to a state monad.  A C string is the list of its
    bytes before the NUL. *)
From S2P Require Import Prelude.
From Stdlib Require Import ZArith Lia.
From stdpp Require Import strings.
Local Open Scope list_scope.
Local Open Scope Z_scope.

(** The bytes of a string literal. *)
Definition str (s : string) : list Z := map (fun c => Z.of_N (Ascii.N_of_ascii c)) (String.list_ascii_of_string s).

(** A literal that ends in a newline. *)
Definition strn (s : string) : list Z := str s ++ [10].

Abbreviation chunks := (list (list Z)).

Record ust := mkUst {
  u_in : gmap Z chunks; u_files : list Z -> option chunks; u_wfds : list Z; u_out : list (Z * list Z)
}.

Definition set_in (i : gmap Z chunks) (s : ust) : ust := mkUst i (u_files s) (u_wfds s) (u_out s).
Definition set_out (o : list (Z * list Z)) (s : ust) : ust := mkUst (u_in s) (u_files s) (u_wfds s) o.

Inductive uout (A : Type) : Type :=
  | URet (a : A) (s : ust)
  | UExit (status : Z) (s : ust)
  | UFault (s : ust).
Arguments URet {A} a s.
Arguments UExit {A} status s.
Arguments UFault {A} s.

Definition U (A : Type) : Type := ust -> uout A.

Definition uret {A} (a : A) : U A := fun s => URet a s.
Definition ubind {A B} (c : U A) (k : A -> U B) : U B := fun s =>
  match c s with URet a s' => k a s' | UExit n s' => UExit n s' | UFault s' => UFault s' end.
Definition ufault {A} : U A := fun s => UFault s.
Definition uwhen (b : bool) (c : U unit) : U unit := if b then c else uret tt.

Declare Scope user_scope.
Delimit Scope user_scope with user.
Notation "x <- c ;; k" := (ubind c (fun x => k))
  (at level 100, c at next level, right associativity) : user_scope.
Notation "c ;;; k" := (ubind c (fun _ => k))
  (at level 100, right associativity) : user_scope.
Local Open Scope user_scope.

Lemma ubind_URet {A B} (c : U A) (k : A -> U B) s a s' : c s = URet a s' -> ubind c k s = k a s'.
Proof. unfold ubind. by intros ->. Qed.

Definition exit {A} (status : Z) : U A := fun s => UExit (s32 status) s.

(** ** read, write, open, close *)

(** read(fd, buf, n): the bytes stored; [None] is an answer of -1. *)
Definition take_chunk (n : Z) (l : chunks) : list Z * chunks :=
  match l with
  | [] => ([], [])
  | c :: l => let k := Z.to_nat n in
              if Nat.leb (length c) k then (c, l) else (take k c, drop k c :: l)
  end.
Definition read (fd n : Z) : U (option (list Z)) := fun s =>
  match u_in s !! fd with
  | None => URet None s
  | Some l => let '(c, l) := take_chunk n l in URet (Some c) (set_in (<[fd := l]> (u_in s)) s)
  end.

(** write(fd, buf, n) of the bytes [b]. *)
Definition write (fd : Z) (b : list Z) : U Z := fun s =>
  if decide (fd ∈ u_wfds s) then URet (Z.of_nat (length b)) (set_out (u_out s ++ [(fd, b)]) s) else URet (-1) s.

(** open(name, O_RDONLY) takes the lowest free descriptor. *)
Definition free_fd (s : ust) : option Z :=
  head (base.filter (fun fd => u_in s !! fd = None) (seqZ 0 16)).
Definition open (name : list Z) : U Z := fun s =>
  match u_files s name, free_fd s with
  | Some l, Some fd => URet fd (set_in (<[fd := l]> (u_in s)) s)
  | _, _ => URet (-1) s
  end.
Definition close (fd : Z) : U unit := fun s => URet tt (set_in (delete fd (u_in s)) s).

(** What was written to [fd]. *)
Definition written (fd : Z) (s : ust) : list Z := concat (map snd (base.filter (fun w => w.1 = fd) (u_out s))).

(** The input [fd] still has. *)
Definition pending (fd : Z) (s : ust) : list Z := concat (default [] (u_in s !! fd)).

(** ** user/printf.c *)

Definition digits : list Z := str "0123456789ABCDEF".

Definition putc (fd c : Z) : U unit := write fd [u8 c] ;;; uret tt.
Definition puts (fd : Z) (l : list Z) : U unit := fold_right (fun c k => putc fd c ;;; k) (uret tt) l.

(** The do-while of printint: [buf] holds what was stored so far, its last
    element first; an index past the 16 bytes of buf is a fault. *)
Fixpoint printint_loop (fuel : nat) (x base : Z) (buf : list Z) : option (list Z) :=
  match fuel with
  | O => None
  | S fuel =>
      if 16 <=? Z.of_nat (length buf) then None
      else
        match znth digits (x mod base) with
        | None => None
        | Some d => if x / base =? 0 then Some (d :: buf) else printint_loop fuel (x / base) base (d :: buf)
        end
  end.

(** [xx] is an int; the bytes printed. *)
Definition printint_buf (xx base : Z) (sgn : bool) : option (list Z) :=
  let neg := sgn && (xx <? 0) in
  let x := u32 (if neg then - xx else xx) in
  match printint_loop 33 x base [] with
  | None => None
  | Some buf => if neg then if 16 <=? Z.of_nat (length buf) then None else Some (45 :: buf) else Some buf
  end.
Definition printint (fd xx base : Z) (sgn : bool) : U unit :=
  match printint_buf xx base sgn with None => ufault | Some l => puts fd l end.

(** The 16 hexadecimal digits, [k] of them left. *)
Fixpoint ptr_digits (k : nat) (x : Z) : list Z :=
  match k with O => [] | S k => default 0 (znth digits (Z.shiftr x 60)) :: ptr_digits k (u64 (Z.shiftl x 4)) end.
Definition printptr (fd x : Z) : U unit := putc fd 48 ;;; putc fd 120 ;;; puts fd (ptr_digits 16 x).

(** The variable arguments: an integer register, or a pointer to a string. *)
Inductive varg := V_int (x : Z) | V_str (s : option (list Z)).

(** vprintf: [pct] is [state == '%'].  A missing argument, or one of the wrong
    kind, is a fault. *)
Fixpoint vprintf (fd : Z) (fmt : list Z) (pct : bool) (ap : list varg) : U unit :=
  match fmt with
  | [] => uret tt
  | c :: fmt =>
      if negb pct then if c =? 37 then vprintf fd fmt true ap else putc fd c ;;; vprintf fd fmt false ap
      else if c =? 100 then
        match ap with V_int x :: ap => printint fd (s32 x) 10 true ;;; vprintf fd fmt false ap | _ => ufault end
      else if c =? 108 then
        match ap with V_int x :: ap => printint fd (s32 x) 10 false ;;; vprintf fd fmt false ap | _ => ufault end
      else if c =? 120 then
        match ap with V_int x :: ap => printint fd (s32 x) 16 false ;;; vprintf fd fmt false ap | _ => ufault end
      else if c =? 112 then
        match ap with V_int x :: ap => printptr fd (u64 x) ;;; vprintf fd fmt false ap | _ => ufault end
      else if c =? 115 then
        match ap with
        | V_str s :: ap => puts fd (default (str "(null)") s) ;;; vprintf fd fmt false ap
        | _ => ufault
        end
      else if c =? 99 then
        match ap with V_int x :: ap => putc fd x ;;; vprintf fd fmt false ap | _ => ufault end
      else if c =? 37 then putc fd c ;;; vprintf fd fmt false ap
      else putc fd 37 ;;; putc fd c ;;; vprintf fd fmt false ap
  end.

Definition fprintf (fd : Z) (fmt : list Z) (ap : list varg) : U unit := vprintf fd fmt false ap.
Definition printf (fmt : list Z) (ap : list varg) : U unit := vprintf 1 fmt false ap.

(** ** What a run writes *)

Definition is_byte (c : Z) : Prop := 0 <= c < 256.

(** [emits fd l c]: run with [fd] writable, [c] returns having written the
    bytes [l] to [fd] and changed nothing else. *)
Definition emits (fd : Z) (l : list Z) (c : U unit) : Prop := forall s, fd ∈ u_wfds s ->
  exists o, c s = URet tt (set_out (u_out s ++ o) s) /\ Forall (fun w => w.1 = fd) o /\ concat (map snd o) = l.

Lemma set_out_self s : set_out (u_out s ++ []) s = s.
Proof. destruct s. unfold set_out. cbn. by rewrite app_nil_r. Qed.

Lemma emits_ret fd : emits fd [] (uret tt).
Proof. intros s _. exists []. rewrite set_out_self. done. Qed.

Lemma emits_seq fd l1 l2 (c1 c2 : U unit) : emits fd l1 c1 -> emits fd l2 c2 -> emits fd (l1 ++ l2) (c1 ;;; c2).
Proof.
  intros H1 H2 s Hs. destruct (H1 s Hs) as (o1 & E1 & F1 & C1).
  destruct (H2 (set_out (u_out s ++ o1) s) Hs) as (o2 & E2 & F2 & C2). exists (o1 ++ o2). split_and!.
  - rewrite (ubind_URet _ _ _ _ _ E1), E2. cbn. unfold set_out. cbn. by rewrite app_assoc.
  - by apply Forall_app.
  - rewrite map_app, concat_app. by rewrite C1, C2.
Qed.

Lemma emits_putc fd c : is_byte c -> emits fd [c] (putc fd c).
Proof.
  intros Hc s Hs. exists [(fd, [c])]. split_and!; [|by constructor|done].
  unfold putc, ubind, write. rewrite decide_True by done. rewrite u8_small by done. done.
Qed.

Lemma emits_puts fd l : Forall is_byte l -> emits fd l (puts fd l).
Proof.
  induction 1 as [|c l Hc Hl IH]; [apply emits_ret|]. change (c :: l) with ([c] ++ l) at 1. by apply emits_seq; [apply emits_putc|].
Qed.

Create HintDb emits.
#[export] Hint Resolve emits_ret emits_putc emits_puts : emits.

Lemma emits_written fd l c s : emits fd l c -> fd ∈ u_wfds s ->
  exists s', c s = URet tt s' /\ written fd s' = written fd s ++ l /\ (forall x, x <> fd -> written x s' = written x s) /\
    u_in s' = u_in s /\ u_files s' = u_files s /\ u_wfds s' = u_wfds s.
Proof.
  intros H Hs. destruct (H s Hs) as (o & E & F & C). eexists. split; [exact E|]. unfold written. cbn.
  assert (forall x, base.filter (fun w : Z * list Z => w.1 = x) (u_out s ++ o) =
    base.filter (fun w : Z * list Z => w.1 = x) (u_out s) ++ base.filter (fun w : Z * list Z => w.1 = x) o) as Ha by (intros; apply filter_app).
  split_and!; try done.
  - rewrite Ha, map_app, concat_app. f_equal. rewrite <- C. do 2 f_equal. clear -F.
    induction F as [|w o Hw Ho IH]; [done|]. rewrite filter_cons_True by done. by rewrite IH.
  - intros x Hx. rewrite Ha. replace (base.filter (fun w : Z * list Z => w.1 = x) o) with (@nil (Z * list Z)); [by rewrite app_nil_r|]. clear -F Hx.
    induction F as [|w o Hw Ho IH]; [done|]. rewrite filter_cons_False by congruence. done.
Qed.

(** ** Numbers *)

(** The value of a run of digit characters. *)
Definition digit_val (d : Z) : Z := if d <? 65 then d - 48 else d - 55.
Definition value (base : Z) (l : list Z) : Z := fold_left (fun a d => a * base + digit_val d) l 0.

(** The digits of [n]: no leading zero unless it is zero. *)
Record numeral (base n : Z) (l : list Z) : Prop := {
  nu_val : value base l = n;
  nu_digits : Forall (fun d => exists v, 0 <= v < base /\ znth digits v = Some d) l;
  nu_canon : forall d r, l = d :: r -> d = 48 -> n = 0 /\ r = [];
  nu_ne : l <> []
}.

Lemma digits_val v : 0 <= v < 16 -> exists d, znth digits v = Some d /\ digit_val d = v /\ is_byte d /\ (d = 48 -> v = 0) /\ (v < 10 -> d = 48 + v).
Proof.
  intros Hv. exists (if v <? 10 then 48 + v else 55 + v).
  assert (v ∈ seqZ 0 16) as Hin by (apply elem_of_seqZ; lia).
  split.
  - change (seqZ 0 16) with [0;1;2;3;4;5;6;7;8;9;10;11;12;13;14;15] in Hin.
    repeat (apply elem_of_cons in Hin as [-> |Hin]; [reflexivity|]). by apply elem_of_nil in Hin.
  - unfold digit_val, is_byte. destruct (Z.ltb_spec v 10); repeat case_match; lia.
Qed.

(** The loop stores the digits of [x], least significant first. *)
Lemma printint_loop_ok base : base = 10 \/ base = 16 -> forall k x buf,
  0 <= x < base ^ Z.of_nat (S k) -> Z.of_nat (length buf) + Z.of_nat (S k) <= 16 -> forall fuel, (k < fuel)%nat ->
  exists l, printint_loop fuel x base buf = Some (l ++ buf) /\ numeral base x l /\ (length l <= S k)%nat /\ Forall is_byte l.
Proof.
  intros Hb. assert (0 < base <= 16) as Hb' by lia. induction k as [|k IH]; intros x buf Hx Hl fuel Hf; (destruct fuel as [|fuel]; [lia|]);
    cbn [printint_loop]; (destruct (Z.leb_spec 16 (Z.of_nat (length buf))); [lia|]);
    pose proof (Z.mod_pos_bound x base ltac:(lia)) as Hm; destruct (digits_val (x mod base) ltac:(lia)) as (d & Ed & Vd & Bd & Zd & _); rewrite Ed.
  - assert (x / base = 0) as E by (apply Z.div_small; rewrite Z.pow_1_r in Hx; lia). rewrite E. cbn. assert (x mod base = x) as Em by (apply Z.mod_small; rewrite Z.pow_1_r in Hx; lia).
    exists [d]. split_and!; [done| |cbn; lia|by constructor]. split; [cbn; lia|constructor; [|constructor]; exists (x mod base); by rewrite Ed| |done].
    intros d' r [= <- <-] Hd. split; [|done]. rewrite <- Em. by apply Zd.
  - destruct (Z.eqb_spec (x / base) 0) as [E|E].
    + assert (x mod base = x) as Em by (pose proof (Z.div_mod x base); lia).
      exists [d]. split_and!; [done| |cbn; lia|by constructor]. split; [cbn; lia|constructor; [|constructor]; exists (x mod base); by rewrite Ed| |done].
      intros d' r [= <- <-] Hd. split; [|done]. rewrite <- Em. by apply Zd.
    + rewrite (Nat2Z.inj_succ (S k)), Z.pow_succ_r in Hx by lia.
      destruct (IH (x / base) (d :: buf) ltac:(split; [apply Z.div_pos; lia|apply Z.div_lt_upper_bound; lia]) ltac:(cbn [length]; lia) fuel ltac:(lia)) as (l & El & [Nv Nd Nc Nn] & Ll & Bl).
      exists (l ++ [d]). split_and!; [by rewrite El, <- app_assoc| |rewrite length_app; cbn; lia|apply Forall_app_2; [done|by apply Forall_singleton]].
      split.
      * unfold value in *. rewrite fold_left_app. cbn. rewrite Nv, Vd. pose proof (Z.div_mod x base). lia.
      * apply Forall_app. split; [done|]. constructor; [|constructor]. exists (x mod base). by rewrite Ed.
      * intros d' r Er Hd. destruct l as [|d0 l0]; [done|]. injection Er as <- <-. by destruct (Nc d0 l0 eq_refl Hd).
      * by destruct l.
Qed.

(** printint: an optional sign and the digits of the magnitude, within buf. *)
Lemma printint_buf_ok xx base (sgn : bool) : base = 10 \/ base = 16 -> - 2 ^ 31 <= xx < 2 ^ 31 ->
  exists l, printint_buf xx base sgn = Some ((if sgn && (xx <? 0) then [45] else []) ++ l) /\
    numeral base (if sgn && (xx <? 0) then - xx else u32 xx) l /\ (length l <= 10)%nat /\ Forall is_byte l.
Proof.
  intros Hb Hx. unfold printint_buf. set (neg := sgn && (xx <? 0)). set (x := u32 (if neg then - xx else xx)).
  pose proof (u32_range (if neg then - xx else xx)) as Hr. fold x in Hr.
  assert (0 <= x < base ^ Z.of_nat 10) as Hx' by (destruct Hb as [-> | ->]; lia).
  destruct (printint_loop_ok base Hb 9 x [] Hx' ltac:(cbn; lia) 33 ltac:(lia)) as (l & El & Nl & Ll & Bl). rewrite El, app_nil_r.
  assert ((if neg then - xx else u32 xx) = x) as ->.
  { unfold x. destruct neg eqn:En; [|done]. unfold neg in En. apply andb_true_iff in En as [_ En%Z.ltb_lt]. rewrite u32_small by lia. done. }
  exists l. split_and!; try done. destruct neg; [|done]. destruct (Z.leb_spec 16 (Z.of_nat (length l))); [lia|done].
Qed.

Lemma emits_printint fd xx base sgn : base = 10 \/ base = 16 -> - 2 ^ 31 <= xx < 2 ^ 31 ->
  exists l, emits fd ((if sgn && (xx <? 0) then [45] else []) ++ l) (printint fd xx base sgn) /\
    numeral base (if sgn && (xx <? 0) then - xx else u32 xx) l /\ Forall is_byte l.
Proof.
  intros Hb Hx. destruct (printint_buf_ok xx base sgn Hb Hx) as (l & E & N & _ & B). exists l. split; [|done].
  unfold printint. rewrite E. apply emits_puts. apply Forall_app. split; [|done]. case_match; [|constructor]. apply Forall_singleton. unfold is_byte. lia.
Qed.
