(* ===== verification/Ulib.v ===== *)
(** * user/ulib.c

    The C library of user programs.  String functions take the list of bytes
    before the NUL; memory functions work on [mem].  An int that overflows is
    [None], as C leaves it undefined.  The theorem at the end shows that the
    addresses and numbers printf() writes are the ones inet_addr() and atoi()
    read. *)
From S2P Require Import Prelude Mem StringC User.
From Stdlib Require Import ZArith Lia.
From stdpp Require Import strings.
Local Open Scope list_scope.
Local Open Scope Z_scope.
Local Open Scope user_scope.

(** [while (( *s++ = *t++ ) != 0)]: the loop needs the length of the string and
    one more turn for its NUL. *)
Fixpoint strcpy (fuel : nat) (m : mem) (s t : Z) : option mem :=
  match fuel with
  | O => None
  | S fuel => if m t =? 0 then Some (st8 m s (m t)) else strcpy fuel (st8 m s (m t)) (s + 1) (t + 1)
  end.

Fixpoint strcmp (p q : list Z) : Z :=
  match p with
  | [] => 0 - hd 0 q
  | c :: p' => match q with
               | d :: q' => if c =? d then strcmp p' q' else c - d
               | [] => c
               end
  end.

Definition strlen (s : list Z) : Z := Z.of_nat (length s).

(** The suffix that starts at the first [c]; [None] is the null pointer. *)
Fixpoint strchr (s : list Z) (c : Z) : option (list Z) :=
  match s with [] => None | d :: s' => if d =? c then Some s else strchr s' c end.

(** The loop of gets() and fgetstdin(), [k] turns at most: the bytes stored. *)
Fixpoint gets_loop (k : nat) (buf : list Z) : U (list Z) :=
  match k with
  | O => uret buf
  | S k =>
      r <- read 0 1 ;;
      match r with
      | None | Some [] => uret buf
      | Some (c :: _) => if (c =? 10) || (c =? 13) then uret (buf ++ [c]) else gets_loop k (buf ++ [c])
      end
  end.
Definition gets (max : Z) : U (list Z) := gets_loop (Z.to_nat (max - 1)) [].
Definition fgetstdin (size : Z) : U (list Z * Z) :=
  buf <- gets_loop (Z.to_nat (size - 1)) [] ;; uret (buf, Z.of_nat (length buf)).

Definition is_digit (c : Z) : bool := (48 <=? c) && (c <=? 57).

Fixpoint atoi_loop (s : list Z) (n : Z) : option Z :=
  match s with
  | [] => Some n
  | c :: s => if is_digit c
              then let n := n * 10 + c - 48 in if n <? 2 ^ 31 then atoi_loop s n else None
              else Some n
  end.
Definition atoi (s : list Z) : option Z := atoi_loop s 0.

Definition memmove (m : mem) (dst src n : Z) : mem :=
  if dst <? src then copy_up (Z.to_nat n) m dst src else copy_down (Z.to_nat n) m (dst + n) (src + n).
Definition memcpy (m : mem) (dst src n : Z) : mem := memmove m dst src (s32 n).

Fixpoint inet_loop (s : list Z) (result octet digits dots : Z) : Z :=
  match s with
  | [] => if (digits =? 0) || negb (dots =? 3) then 0 else Z.lor (u32 (Z.shiftl result 8)) (u32 octet)
  | c :: s =>
      if is_digit c then
        let octet := octet * 10 + (c - 48) in
        if 255 <? octet then 0 else inet_loop s result octet (digits + 1) dots
      else if c =? 46 then
        if (digits =? 0) || (dots =? 3) then 0
        else inet_loop s (Z.lor (u32 (Z.shiftl result 8)) (u32 octet)) 0 0 (dots + 1)
      else 0
  end.
Definition inet_addr (s : list Z) : Z := inet_loop s 0 0 0 0.

(** ** The memory functions agree with the kernel's *)

(** The choice of direction differs from kernel/string.c, the result does not. *)
Lemma memmove_same m dst src n x :
  wf_mem m -> 0 <= n -> memmove m dst src n x = StringC.memmove m dst src n x.
Proof.
  intros Hw Hn. rewrite memmove_byte by done. unfold memmove. destruct (Z.ltb_spec dst src).
  - rewrite copy_up_spec by (auto; lia). by rewrite Z2Nat.id by lia.
  - rewrite copy_down_spec by (auto; lia). rewrite Z2Nat.id by lia.
    replace (dst + n - n) with dst by lia. case_match; [f_equal; lia|done].
Qed.

Lemma strcmp_zero p q : Forall (fun c => 0 < c) p -> Forall (fun c => 0 < c) q -> strcmp p q = 0 <-> p = q.
Proof.
  intros Hp. revert q. induction Hp as [|c p Hc Hp IH]; intros q Hq; destruct Hq as [|d q Hd Hq]; cbn [strcmp hd].
  - done.
  - split; [lia|done].
  - split; [lia|done].
  - destruct (Z.eqb_spec c d) as [->|Hne].
    + rewrite IH by done. split; [by intros ->|by intros [= ->]].
    + split; [lia|intros [= -> _]; lia].
Qed.

(** ** Reading back what printf wrote *)

Lemma decimal_digit d : (exists v, 0 <= v < 10 /\ znth digits v = Some d) -> is_digit d = true /\ digit_val d = d - 48 /\ 48 <= d <= 57.
Proof.
  intros (v & Hv & E). destruct (digits_val v ltac:(lia)) as (d' & E' & _ & _ & _ & H). rewrite E in E'. injection E' as <-.
  rewrite H by lia. unfold is_digit, digit_val. zb. split_and!; try done; lia.
Qed.

Lemma value_step base a l : fold_left (fun a d => a * base + digit_val d) l a = a * base ^ Z.of_nat (length l) + value base l.
Proof.
  unfold value. revert a. induction l as [|d l IH]; intros a; cbn [fold_left length]; [rewrite Z.pow_0_r; lia|].
  rewrite IH, (IH (0 * base + digit_val d)), Nat2Z.inj_succ, Z.pow_succ_r by lia. lia.
Qed.

Lemma value_nonneg l : Forall (fun d => exists v, 0 <= v < 10 /\ znth digits v = Some d) l -> 0 <= value 10 l.
Proof.
  unfold value. assert (forall a, 0 <= a -> Forall (fun d => exists v, 0 <= v < 10 /\ znth digits v = Some d) l ->
    0 <= fold_left (fun a d => a * 10 + digit_val d) l a) as H; [|intros; by apply H].
  induction l as [|d l IH]; intros a Ha F; [done|]. cbn. apply Forall_cons in F as [Hd F]. apply IH; [|done].
  destruct (decimal_digit _ Hd) as (_ & -> & ?). lia.
Qed.

(** The part of [a] and the digits read so far never exceeds the whole. *)
Lemma value_prefix a d l : 0 <= a -> (exists v, 0 <= v < 10 /\ znth digits v = Some d) ->
  Forall (fun d => exists v, 0 <= v < 10 /\ znth digits v = Some d) l ->
  a * 10 + (d - 48) <= fold_left (fun a d => a * 10 + digit_val d) (d :: l) a.
Proof.
  intros Ha Hd Hl. cbn [fold_left]. destruct (decimal_digit _ Hd) as (_ & -> & Hr). rewrite value_step.
  pose proof (value_nonneg _ Hl). assert (1 <= 10 ^ Z.of_nat (length l)) by (apply (Z.pow_le_mono_r 10 0); lia). nia.
Qed.

Lemma atoi_loop_value l rest a :
  Forall (fun d => exists v, 0 <= v < 10 /\ znth digits v = Some d) l -> 0 <= a ->
  match rest with [] => True | c :: _ => is_digit c = false end ->
  fold_left (fun a d => a * 10 + digit_val d) l a < 2 ^ 31 ->
  atoi_loop (l ++ rest) a = Some (fold_left (fun a d => a * 10 + digit_val d) l a).
Proof.
  intros F. revert a. induction F as [|d l Hd F IH]; intros a Ha Hr Hv; cbn [app].
  - destruct rest as [|c rest]; [done|]. cbn. by rewrite Hr.
  - cbn [atoi_loop]. destruct (decimal_digit _ Hd) as (-> & E & R).
    pose proof (value_prefix a d l Ha Hd F) as Hp. destruct (Z.ltb_spec (a * 10 + d - 48) (2 ^ 31)); [|lia].
    replace (a * 10 + d - 48) with (a * 10 + digit_val d) by lia. cbn [fold_left]. apply IH; [lia|done|done].
Qed.

Lemma inet_loop_octet l rest result a digits dots :
  Forall (fun d => exists v, 0 <= v < 10 /\ znth User.digits v = Some d) l -> 0 <= a ->
  fold_left (fun a d => a * 10 + digit_val d) l a <= 255 ->
  inet_loop (l ++ rest) result a digits dots =
  inet_loop rest result (fold_left (fun a d => a * 10 + digit_val d) l a) (digits + Z.of_nat (length l)) dots.
Proof.
  intros F. revert a digits. induction F as [|d l Hd F IH]; intros a digits Ha Hv; cbn [app fold_left length].
  - by rewrite Z.add_0_r.
  - cbn [inet_loop]. destruct (decimal_digit _ Hd) as (-> & E & R).
    pose proof (value_prefix a d l Ha Hd F) as Hp. destruct (Z.ltb_spec 255 (a * 10 + (d - 48))); [lia|].
    replace (a * 10 + (d - 48)) with (a * 10 + digit_val d) by lia. rewrite IH by (done || lia).
    f_equal. lia.
Qed.

Lemma emits_vprintf_char fd c fmt ap l :
  is_byte c -> c <> 37 -> emits fd l (vprintf fd fmt false ap) -> emits fd (c :: l) (vprintf fd (c :: fmt) false ap).
Proof.
  intros Hc Hne H. cbn [vprintf negb]. rewrite (proj2 (Z.eqb_neq c 37)) by done.
  change (c :: l) with ([c] ++ l). by apply emits_seq; [apply emits_putc|].
Qed.

Lemma emits_vprintf_d fd x fmt ap l :
  0 <= x < 2 ^ 31 -> emits fd l (vprintf fd fmt false ap) ->
  exists l1, numeral 10 x l1 /\ emits fd (l1 ++ l) (vprintf fd (37 :: 100 :: fmt) false (V_int x :: ap)).
Proof.
  intros Hx H. destruct (emits_printint fd x 10 true) as (l1 & E & N & B); [by left|lia|].
  destruct (Z.ltb_spec x 0); [lia|]. cbn [andb] in *. rewrite u32_small in N by lia. exists l1. split; [done|].
  cbn [vprintf negb]. change (37 =? 37) with true. change (100 =? 100) with true. cbn match.
  rewrite s32_small by lia. by apply emits_seq.
Qed.

Lemma numeral_len n l : numeral 10 n l -> (Z.of_nat (length l) =? 0) = false.
Proof. intros []. apply Z.eqb_neq. destruct l; [done|]. cbn. lia. Qed.

Lemma inet_push r o : 0 <= r < 2 ^ 24 -> 0 <= o < 256 -> Z.lor (u32 (Z.shiftl r 8)) (u32 o) = r * 2 ^ 8 + o.
Proof.
  intros Hr Ho. rewrite (u32_small o) by lia. rewrite u32_small by (rewrite Z.shiftl_mul_pow2 by lia; lia).
  rewrite Z.lor_comm, lor_shiftl_add by lia. lia.
Qed.

Lemma inet_loop_part t o rest r dots :
  numeral 10 o t -> 0 <= o < 256 -> 0 <= r < 2 ^ 24 -> dots <> 3 ->
  inet_loop (t ++ 46 :: rest) r 0 0 dots = inet_loop rest (r * 2 ^ 8 + o) 0 0 (dots + 1).
Proof.
  intros N Ho Hr Hd. pose proof (numeral_len _ _ N) as L. destruct N as [V D _ _]. unfold value in V.
  rewrite inet_loop_octet by (done || lia). rewrite V. cbn [inet_loop]. rewrite Z.add_0_l, L, (proj2 (Z.eqb_neq dots 3)) by done.
  change (is_digit 46) with false. change (46 =? 46) with true. cbn [orb]. by rewrite inet_push.
Qed.

Lemma inet_addr_numerals a b c d t1 t2 t3 t4 :
  0 <= a < 256 -> 0 <= b < 256 -> 0 <= c < 256 -> 0 <= d < 256 ->
  numeral 10 a t1 -> numeral 10 b t2 -> numeral 10 c t3 -> numeral 10 d t4 ->
  inet_addr (t1 ++ 46 :: t2 ++ 46 :: t3 ++ 46 :: t4) = a * 2 ^ 24 + b * 2 ^ 16 + c * 2 ^ 8 + d.
Proof.
  intros Ha Hb Hc Hd N1 N2 N3 N4. unfold inet_addr.
  rewrite (inet_loop_part t1 a), (inet_loop_part t2 b), (inet_loop_part t3 c) by (done || lia).
  pose proof (numeral_len _ _ N4) as L. destruct N4 as [V D _ _]. unfold value in V.
  rewrite <- (app_nil_r t4), inet_loop_octet by (done || lia). rewrite V. cbn [inet_loop]. rewrite Z.add_0_l, L.
  change (0 + 1 + 1 + 1 =? 3) with true. cbn [orb negb]. rewrite inet_push by lia. lia.
Qed.

(** C36: What printf() writes for a number or an address is what the library
    reads: atoi() of the bytes of [printf("%d", n)] is [n], and inet_addr() of
    those of [printf("%d.%d.%d.%d", a, b, c, d)] is the address, for every
    number from 0 to 2^31 - 1 and every four bytes. *)
Theorem printf_read_back a b c d n s :
  is_byte a -> is_byte b -> is_byte c -> is_byte d -> 0 <= n < 2 ^ 31 -> 1 ∈ u_wfds s ->
  (exists t s', printf (str "%d") [V_int n] s = URet tt s' /\ written 1 s' = written 1 s ++ t /\ atoi t = Some n) /\
  (exists t s', printf (str "%d.%d.%d.%d") [V_int a; V_int b; V_int c; V_int d] s = URet tt s' /\
     written 1 s' = written 1 s ++ t /\ inet_addr t = a * 2 ^ 24 + b * 2 ^ 16 + c * 2 ^ 8 + d).
Proof.
  unfold is_byte. intros Ha Hb Hc Hd Hn Hw. split.
  - destruct (emits_vprintf_d 1 n [] [] [] Hn (emits_ret 1)) as (t & [Nv Nd _ _] & E). rewrite app_nil_r in E.
    destruct (emits_written _ _ _ s E Hw) as (s' & R & W & _). exists t, s'. split_and!; [done..|].
    unfold atoi. rewrite <- (app_nil_r t). unfold value in Nv. rewrite atoi_loop_value by (done || lia). by rewrite Nv.
  - destruct (emits_vprintf_d 1 d [] [] [] ltac:(lia) (emits_ret 1)) as (t4 & N4 & E4). rewrite app_nil_r in E4.
    destruct (emits_vprintf_d 1 c _ _ _ ltac:(lia) (emits_vprintf_char 1 46 _ _ _ ltac:(done) ltac:(done) E4)) as (t3 & N3 & E3).
    destruct (emits_vprintf_d 1 b _ _ _ ltac:(lia) (emits_vprintf_char 1 46 _ _ _ ltac:(done) ltac:(done) E3)) as (t2 & N2 & E2).
    destruct (emits_vprintf_d 1 a _ _ _ ltac:(lia) (emits_vprintf_char 1 46 _ _ _ ltac:(done) ltac:(done) E2)) as (t1 & N1 & E1).
    destruct (emits_written _ _ _ s E1 Hw) as (s' & R & W & _). eexists _, s'. split_and!; [done..|].
    by apply inet_addr_numerals.
Qed.

(** 192.168.10.7, and 40000. *)
Lemma printf_read_back_witness : exists t s',
  printf (str "%d") [V_int 40000] (mkUst ∅ (fun _ => None) [1] []) = URet tt s' /\ written 1 s' = t /\ atoi t = Some 40000.
Proof.
  destruct (printf_read_back 192 168 10 7 40000 (mkUst ∅ (fun _ => None) [1] [])) as [(t & s' & H1 & H2 & H3) _].
  1-4: unfold is_byte; lia.
  - lia.
  - by apply list_elem_of_here.
  - exists t, s'. done.
Defined.
