(* ===== verification/Grep.v ===== *)
(** * user/grep.c

    The matcher works on C strings; grep() on the bytes buf[0..m) holds and the
    chunks read() delivers.  The theorem says that whatever the chunks are,
    grep() prints the lines that match, where matching is the usual meaning of
    the pattern and not the backtracking search of the code. *)
From S2P Require Import Prelude User Ulib.
From Stdlib Require Import ZArith Lia.
From stdpp Require Import strings.
Local Open Scope list_scope.
Local Open Scope Z_scope.
Local Open Scope user_scope.

(** ** The matcher *)

(** matchstar(c, re, text), where [here] is matchhere(re, -). *)
Fixpoint matchstar (here : list Z -> bool) (c : Z) (text : list Z) : bool :=
  here text ||
  match text with
  | [] => false
  | t :: text => if (t =? c) || (c =? 46) then matchstar here c text else false
  end.

Fixpoint matchhere (re text : list Z) {struct re} : bool :=
  match re with
  | [] => true
  | r0 :: re1 =>
      let step := match text with
                  | [] => false
                  | t :: text => if (r0 =? 46) || (r0 =? t) then matchhere re1 text else false
                  end in
      match re1 with
      | r1 :: re2 => if r1 =? 42 then matchstar (matchhere re2) r0 text else step
      | [] => if r0 =? 36 then match text with [] => true | _ => false end else step
      end
  end.

(** The do-while of match(). *)
Fixpoint match_loop (re text : list Z) : bool :=
  matchhere re text || match text with [] => false | _ :: text => match_loop re text end.

Definition re_match (re text : list Z) : bool :=
  match re with
  | r0 :: re1 => if r0 =? 94 then matchhere re1 text else match_loop re text
  | [] => match_loop re text
  end.

(** ** grep *)

(** [q = strchr(p, '\n')]: the line [p..q) and what starts at q+1.  strchr stops
    at a NUL. *)
Fixpoint split_nl (p : list Z) : option (list Z * list Z) :=
  match p with
  | [] => None
  | c :: p =>
      if c =? 0 then None
      else if c =? 10 then Some ([], p)
      else match split_nl p with Some (l, r) => Some (c :: l, r) | None => None end
  end.

(** The inner loop; what follows the last newline.  Each turn drops a byte. *)
Fixpoint grep_lines (fuel : nat) (pattern p : list Z) : U (list Z) :=
  match fuel with
  | O => ufault
  | S fuel =>
      match split_nl p with
      | None => uret p
      | Some (line, rest) =>
          uwhen (re_match pattern line) (write 1 (line ++ [10]) ;;; uret tt) ;;;
          grep_lines fuel pattern rest
      end
  end.

(** The outer loop; [held] is buf[0..m).  Every turn but the last takes a byte
    of input. *)
Fixpoint grep_loop (fuel : nat) (pattern : list Z) (fd : Z) (held : list Z) : U unit :=
  match fuel with
  | O => ufault
  | S fuel =>
      r <- read fd (1024 - Z.of_nat (length held) - 1) ;;
      match r with
      | None | Some [] => uret tt
      | Some c =>
          rest <- grep_lines (S (length (held ++ c))) pattern (held ++ c) ;;
          grep_loop fuel pattern fd rest
      end
  end.

Definition grep (pattern : list Z) (fd : Z) : U unit := fun s =>
  grep_loop (S (length (pending fd s))) pattern fd [] s.

Fixpoint grep_files (pattern : list Z) (names : list (list Z)) : U unit :=
  match names with
  | [] => uret tt
  | name :: names =>
      fd <- open name ;;
      if fd <? 0 then printf (strn "grep: cannot open %s") [V_str (Some name)] ;;; exit 1
      else grep pattern fd ;;; close fd ;;; grep_files pattern names
  end.

Definition grep_main (argv : list (list Z)) : U unit :=
  match argv with
  | [] | [_] => fprintf 2 (strn "usage: grep pattern [file ...]") [] ;;; exit 1
  | [_; pattern] => grep pattern 0 ;;; exit 0
  | _ :: pattern :: names => grep_files pattern names ;;; exit 0
  end.

(** ** What a pattern means *)

Inductive item := One (c : Z) | Many (c : Z).

(** The pattern after a leading caret: its items, and whether it ends in a
    dollar sign that stands for the end of the text. *)
Fixpoint items (re : list Z) : list item * bool :=
  match re with
  | [] => ([], false)
  | c :: re1 =>
      match re1 with
      | d :: re2 => if d =? 42 then let '(l, e) := items re2 in (Many c :: l, e)
                    else let '(l, e) := items re1 in (One c :: l, e)
      | [] => if c =? 36 then ([], true) else ([One c], false)
      end
  end.

(** A character of a pattern matches itself, a dot matches any. *)
Definition fits (c t : Z) : Prop := c = 46 \/ c = t.

(** The texts a list of items describes. *)
Inductive lang : list item -> list Z -> Prop :=
  | L_nil : lang [] []
  | L_one c its t s : fits c t -> lang its s -> lang (One c :: its) (t :: s)
  | L_none c its s : lang its s -> lang (Many c :: its) s
  | L_more c its t s : fits c t -> lang (Many c :: its) s -> lang (Many c :: its) (t :: s).

(** [text] begins with a text of [re], which ends it if [re] says so. *)
Definition begins (re text : list Z) : Prop :=
  exists a b, text = a ++ b /\ lang (fst (items re)) a /\ (snd (items re) = true -> b = []).

(** The meaning of a pattern: at the start after a caret, else anywhere. *)
Definition matches (re text : list Z) : Prop :=
  match re with
  | r0 :: re1 => if r0 =? 94 then begins re1 text else exists u v, text = u ++ v /\ begins re v
  | [] => exists u v, text = u ++ v /\ begins re v
  end.

#[local] Hint Constructors lang : core.

Lemma lang_many c its s : lang (Many c :: its) s <-> exists a b, s = a ++ b /\ Forall (fits c) a /\ lang its b.
Proof.
  split.
  - remember (Many c :: its) as l eqn:E. induction 1 as [| |c' its' s H _|c' its' t s Ht H IH]; try done; injection E as -> ->.
    + by exists [], s.
    + destruct (IH eq_refl) as (a & b & -> & Ha & Hb). exists (t :: a), b. split_and!; [done|by constructor|done].
  - intros (a & b & -> & Ha & Hb). induction Ha; cbn; auto.
Qed.

Lemma matchstar_spec here c text :
  matchstar here c text = true <-> exists a b, text = a ++ b /\ Forall (fits c) a /\ here b = true.
Proof.
  induction text as [|t text IH]; cbn [matchstar]; rewrite orb_true_iff.
  - split.
    + intros [H|H]; [|done]. by exists [], [].
    + intros (a & b & E & _ & H). symmetry in E. apply app_nil in E as [-> ->]. by left.
  - assert ((t =? c) || (c =? 46) = true <-> fits c t) as Hf.
    { unfold fits. rewrite orb_true_iff, !Z.eqb_eq. naive_solver. }
    split.
    + intros [H|H]; [by exists [], (t :: text)|]. case_match; [|done]. apply IH in H as (a & b & -> & Ha & Hb).
      exists (t :: a), b. split_and!; [done|constructor; [by apply Hf|done]|done].
    + intros (a & b & E & Ha & Hb). destruct Ha as [|t' a Ht Ha]; [left; cbn in E; by subst|]. injection E as <- ->.
      right. rewrite (proj2 Hf Ht). apply IH. eauto.
Qed.

Lemma begins_many c d re text : d = 42 ->
  begins (c :: d :: re) text <-> exists a b, text = a ++ b /\ Forall (fits c) a /\ begins re b.
Proof.
  intros ->. unfold begins. cbn [items]. change (42 =? 42) with true. cbn match. destruct (items re) as [its e]. cbn [fst snd]. split.
  - intros (x & y & -> & H & He). apply lang_many in H as (a & b & -> & Ha & Hb). exists a, (b ++ y). rewrite app_assoc. eauto 7.
  - intros (a & b & -> & Ha & x & y & -> & Hx & He). exists (a ++ x), y. rewrite app_assoc. split_and!; [done| |done]. apply lang_many. eauto.
Qed.

Lemma begins_one c re text : (forall d r, re = d :: r -> d <> 42) -> (re = [] -> c <> 36) ->
  begins (c :: re) text <-> exists t s, text = t :: s /\ fits c t /\ begins re s.
Proof.
  intros H1 H2. unfold begins. assert (items (c :: re) = (One c :: fst (items re), snd (items re))) as ->.
  { destruct re as [|d re]; cbn [items].
    - rewrite (proj2 (Z.eqb_neq c 36)) by auto. done.
    - rewrite (proj2 (Z.eqb_neq d 42)) by eauto. by destruct (items (d :: re)) eqn:E; cbn [items] in E; rewrite E. }
  cbn [fst snd]. split.
  - intros (a & b & -> & H & He). inversion H as [|? ? t s Ht Hs| |]; subst. exists t, (s ++ b). split_and!; [done|done|]. eauto.
  - intros (t & s & -> & Ht & a & b & -> & Ha & He). exists (t :: a), b. split_and!; [done|by constructor|done].
Qed.

Lemma begins_end text : begins [36] text <-> text = [].
Proof.
  unfold begins. cbn [items fst snd]. change (36 =? 36) with true. cbn [fst snd]. split.
  - intros (a & b & -> & H & He). inversion H. by rewrite He.
  - intros ->. exists [], []. auto.
Qed.

(** The search of the code finds what the pattern means. *)
Lemma matchhere_spec re text : matchhere re text = true <-> begins re text.
Proof.
  remember (length re) as n eqn:Hn. assert (length re <= n)%nat as Hl by lia. clear Hn. revert re text Hl.
  induction n as [|n IH]; intros re text Hl; (destruct re as [|c re]; [|cbn in Hl]); try lia.
  1,2: split; [intros _; exists [], text; split_and!; [done|constructor|done]|done].
  assert (match text with [] => false | t :: s => if (c =? 46) || (c =? t) then matchhere re s else false end = true
    <-> exists t s, text = t :: s /\ fits c t /\ begins re s) as Hstep.
  { destruct text as [|t s]; [naive_solver|]. assert ((c =? 46) || (c =? t) = true <-> fits c t) as Hf by (unfold fits; rewrite orb_true_iff, !Z.eqb_eq; done).
    split.
    - intros H. case_match; [|done]. exists t, s. split_and!; [done|by apply Hf|]. apply IH; [lia|done].
    - intros (? & ? & [= <- <-] & H & H'). rewrite (proj2 Hf H). apply IH; [lia|done]. }
  cbn [matchhere]. destruct re as [|d re].
  - destruct (Z.eqb_spec c 36) as [->|Hc].
    + rewrite begins_end. by destruct text.
    + rewrite begins_one by naive_solver. exact Hstep.
  - destruct (Z.eqb_spec d 42) as [->|Hd].
    + rewrite begins_many by done. rewrite matchstar_spec. cbn in Hl. split; intros (a & b & E & Ha & Hb); exists a, b; split_and!; try done; by apply IH; [lia|].
    + rewrite begins_one by naive_solver. exact Hstep.
Qed.

Lemma match_loop_spec re text : match_loop re text = true <-> exists u v, text = u ++ v /\ begins re v.
Proof.
  induction text as [|t text IH]; cbn [match_loop]; rewrite orb_true_iff, matchhere_spec.
  - split.
    + intros [H|H]; [by exists [], []|done].
    + intros (u & v & E & H). symmetry in E. apply app_nil in E as [-> ->]. by left.
  - rewrite IH. split.
    + intros [H|(u & v & -> & H)]; [by exists [], (t :: text)|]. by exists (t :: u), v.
    + intros ([|t' u] & v & E & H); cbn in E; [left; by subst|]. injection E as <- ->. right. eauto.
Qed.

Lemma re_match_spec re text : re_match re text = true <-> matches re text.
Proof.
  unfold re_match, matches. destruct re as [|r0 re]; [apply match_loop_spec|]. case_match; [apply matchhere_spec|apply match_loop_spec].
Qed.

(** ** The lines of a text *)

(** The lines that end in a newline, and what follows the last one. *)
Fixpoint split_lines (l : list Z) : list (list Z) * list Z :=
  match l with
  | [] => ([], [])
  | c :: l =>
      let '(ls, t) := split_lines l in
      if c =? 10 then ([] :: ls, t)
      else match ls with [] => ([], c :: t) | x :: ls => ((c :: x) :: ls, t) end
  end.
Definition lines_of (l : list Z) : list (list Z) := fst (split_lines l).
Definition unfinished (l : list Z) : list Z := snd (split_lines l).

Definition no_nul (l : list Z) : Prop := Forall (fun c => c <> 0) l.

Lemma lines_app x y :
  lines_of (x ++ y) = lines_of x ++ lines_of (unfinished x ++ y) /\ unfinished (x ++ y) = unfinished (unfinished x ++ y).
Proof.
  unfold lines_of, unfinished. induction x as [|c x [IH1 IH2]]; [done|]. cbn [app split_lines].
  destruct (split_lines x) as [ls t]. cbn [fst snd] in *. destruct (split_lines (x ++ y)) as [ls1 t1]. cbn [fst snd] in *.
  destruct (Z.eqb_spec c 10).
  - cbn. by rewrite IH1, IH2.
  - destruct ls as [|l ls]; cbn [fst snd app].
    + cbn in IH1. cbn [split_lines app]. destruct (split_lines (t ++ y)) as [ls2 t2]. cbn [fst snd] in *. subst.
      rewrite (proj2 (Z.eqb_neq c 10)) by done. by destruct ls2.
    + cbn in IH1. by rewrite IH1, IH2.
Qed.

Lemma split_nl_None p : no_nul p -> split_nl p = None -> split_lines p = ([], p).
Proof.
  induction 1 as [|c p Hc Hp IH]; [done|]. cbn. rewrite (proj2 (Z.eqb_neq c 0)) by done. destruct (c =? 10); [done|].
  destruct (split_nl p) as [[]|]; [done|]. intros _. by rewrite IH.
Qed.

Lemma split_nl_Some p line rest : no_nul p -> split_nl p = Some (line, rest) ->
  lines_of p = line :: lines_of rest /\ unfinished p = unfinished rest /\ no_nul rest /\ (length rest < length p)%nat.
Proof.
  intros Hp. revert line. induction Hp as [|c p Hc Hp IH]; intros line; [done|]. cbn [split_nl]. rewrite (proj2 (Z.eqb_neq c 0)) by done.
  unfold lines_of, unfinished in *. cbn [split_lines]. destruct (Z.eqb_spec c 10).
  - intros [= <- <-]. destruct (split_lines p). cbn. split_and!; try done. lia.
  - destruct (split_nl p) as [[l r]|]; [|done]. intros [= <- <-]. destruct (IH l eq_refl) as (H1 & H2 & H3 & H4).
    destruct (split_lines p) as [ls t]. cbn [fst snd] in *. subst. cbn. split_and!; try done. lia.
Qed.

Lemma unfinished_no_nl p : Forall (fun c => c <> 10) (unfinished p).
Proof.
  unfold unfinished. induction p as [|c p IH]; [constructor|]. cbn. destruct (split_lines p) as [ls t].
  destruct (Z.eqb_spec c 10); [done|]. destruct ls; [by constructor|done].
Qed.
Lemma unfinished_no_nul p : no_nul p -> no_nul (unfinished p).
Proof.
  unfold unfinished. induction 1 as [|c p Hc Hp IH]; [constructor|]. cbn. destruct (split_lines p) as [ls t].
  destruct (Z.eqb_spec c 10); [done|]. destruct ls; [by constructor|done].
Qed.

(** A long run without newline begins a long line, or no line. *)
Lemma lines_after_long h y : Forall (fun c => c <> 10) h ->
  lines_of (h ++ y) = [] \/ exists l ls, lines_of (h ++ y) = l :: ls /\ (length h <= length l)%nat.
Proof.
  unfold lines_of. induction 1 as [|c h Hc Hh IH]; cbn [app].
  - destruct (fst (split_lines y)) as [|l ls]; [by left|right]. exists l, ls. cbn. split; [done|lia].
  - cbn [split_lines]. destruct (split_lines (h ++ y)) as [ls t]. cbn [fst] in IH. rewrite (proj2 (Z.eqb_neq c 10)) by done.
    destruct ls as [|l ls]; [by left|right]. destruct IH as [|(l' & ls' & [= <- <-] & Hl)]; [done|]. exists (c :: l), ls. cbn. split; [done|lia].
Qed.

(** ** grep prints them *)

(** The writes for the lines [ls]. *)
Definition prints (pattern : list Z) (ls : list (list Z)) : list (Z * list Z) :=
  map (fun l => (1, l ++ [10])) (base.filter (fun l => re_match pattern l) ls).

Lemma prints_app pattern l1 l2 : prints pattern (l1 ++ l2) = prints pattern l1 ++ prints pattern l2.
Proof. unfold prints. by rewrite filter_app, map_app. Qed.

Lemma grep_lines_ok pattern fuel p s : no_nul p -> (length p < fuel)%nat -> 1 ∈ u_wfds s ->
  grep_lines fuel pattern p s = URet (unfinished p) (set_out (u_out s ++ prints pattern (lines_of p)) s).
Proof.
  revert p s. induction fuel as [|fuel IH]; intros p s Hp Hf Hw; [lia|]. cbn [grep_lines].
  destruct (split_nl p) as [[line rest]|] eqn:E.
  - destruct (split_nl_Some _ _ _ Hp E) as (H1 & H2 & H3 & H4). rewrite H1, H2. unfold prints.
    destruct (re_match pattern line) eqn:M.
    + rewrite filter_cons_True by (by rewrite M). unfold uwhen, ubind, write. rewrite decide_True by done. cbn [uret].
      rewrite IH by (done || lia). cbn. unfold set_out, prints. cbn. by rewrite <- app_assoc.
    + rewrite filter_cons_False by (rewrite M; tauto). unfold uwhen, ubind. cbn [uret]. by apply IH; [|lia|].
  - pose proof (split_nl_None _ Hp E) as H. unfold lines_of, unfinished, uret. rewrite H. cbn. by rewrite set_out_self.
Qed.

Lemma take_chunk_ok n l c l' : Forall (fun c => c <> []) l -> take_chunk n l = (c, l') ->
  concat l = c ++ concat l' /\ Forall (fun c => c <> []) l' /\ (c = [] -> concat l <> [] -> n <= 0).
Proof.
  intros Hl. destruct Hl as [|x l Hx Hl]; cbn [take_chunk]; [intros [= <- <-]; done|].
  destruct (Nat.leb_spec (length x) (Z.to_nat n)) as [Hle|Hgt]; intros [= <- <-].
  - split_and!; [done|done|done].
  - split_and!.
    + cbn. by rewrite app_assoc, take_drop.
    + constructor; [|done]. intros E. apply (f_equal length) in E. rewrite length_drop in E. cbn in E. lia.
    + intros E _. apply (f_equal length) in E. rewrite length_take in E. cbn in E. lia.
Qed.

Lemma grep_loop_ok pattern fd fuel held s :
  u_in s !! fd <> None -> Forall (fun c => c <> []) (default [] (u_in s !! fd)) ->
  no_nul (held ++ pending fd s) -> Forall (fun c => c <> 10) held ->
  Forall (fun l => (length l <= 1022)%nat) (lines_of (held ++ pending fd s)) ->
  (length (pending fd s) < fuel)%nat -> 1 ∈ u_wfds s ->
  exists s', grep_loop fuel pattern fd held s = URet tt s' /\
    u_out s' = u_out s ++ prints pattern (lines_of (held ++ pending fd s)).
Proof.
  revert held s. induction fuel as [|fuel IH]; intros held s Hopen Hne Hn Hh Hl Hf Hw; [lia|]. cbn [grep_loop].
  unfold ubind at 1, read. unfold pending in *. destruct (u_in s !! fd) as [l|] eqn:El; [change (default [] (Some l)) with l in *|done].
  destruct (take_chunk _ l) as [c l'] eqn:Et. destruct (take_chunk_ok _ _ _ _ Hne Et) as (Ec & Hne' & Hz). rewrite Ec in *.
  destruct c as [|c0 c].
  - eexists. split; [reflexivity|]. cbn [u_out set_in]. replace (lines_of (held ++ [] ++ concat l')) with (@nil (list Z)); [cbn; by rewrite app_nil_r|].
    destruct (concat l') as [|x y] eqn:Ex.
    + cbn. rewrite app_nil_r. clear -Hh. unfold lines_of. induction Hh as [|c h Hc Hh IH]; [done|]. cbn. destruct (split_lines h) as [ls t].
      rewrite (proj2 (Z.eqb_neq c 10)) by done. cbn in IH. by rewrite <- IH.
    + assert (1023 <= Z.of_nat (length held)) by (enough (1024 - Z.of_nat (length held) - 1 <= 0) by lia; by apply Hz).
      destruct (lines_after_long held ([] ++ x :: y) Hh) as [->|(l1 & ls & E & Hlen)]; [done|]. rewrite E in Hl. apply Forall_cons in Hl as [? _]. lia.
  - set (b := c0 :: c) in *. rewrite app_assoc in *. destruct (Forall_app (fun c => c <> 0) (held ++ b) (concat l')) as [Hsp _].
    destruct (Hsp Hn) as [Hn1 Hn2]. erewrite ubind_URet by (apply grep_lines_ok; [done|lia|exact Hw]).
    destruct (lines_app (held ++ b) (concat l')) as [L1 L2]. rewrite L1 in Hl |- *. apply Forall_app in Hl as [_ Hl2].
    set (s1 := set_out _ _).
    assert (u_in s1 !! fd = Some l') as El1 by (cbn; by rewrite lookup_insert_eq).
    assert (default [] (u_in s1 !! fd) = l') as Ed by (cbn; by rewrite lookup_insert_eq).
    destruct (IH (unfinished (held ++ b)) s1) as (s' & E' & O'); rewrite ?Ed in *; try done.
    + by rewrite El1.
    + apply Forall_app. split; [by apply unfinished_no_nul|done].
    + apply unfinished_no_nl.
    + unfold b in Hf. cbn in Hf. rewrite length_app in Hf. lia.
    + exists s'. split; [exact E'|]. rewrite O'. cbn. by rewrite prints_app, app_assoc.
Qed.

(** C35: grep() prints exactly the lines of its input that match the pattern, in
    order, however read() splits the input, and always ends; matching is the
    declarative meaning of the pattern (a caret and a dollar sign anchor it, a
    dot is any character, a star repeats the one before it).  The input has no
    NUL and no line of more than 1022 bytes; an unfinished last line is not
    printed. *)
Theorem grep_prints_matching_lines pattern fd l s :
  u_in s !! fd = Some l -> Forall (fun c => c <> []) l -> no_nul (concat l) ->
  Forall (fun x => (length x <= 1022)%nat) (lines_of (concat l)) -> 1 ∈ u_wfds s ->
  (exists s', grep pattern fd s = URet tt s' /\
     u_out s' = u_out s ++ map (fun x => (1, x ++ [10])) (base.filter (fun x => re_match pattern x) (lines_of (concat l)))) /\
  (forall x, re_match pattern x = true <-> matches pattern x).
Proof.
  intros El Hne Hn Hl Hw. split; [|apply re_match_spec]. assert (pending fd s = concat l) as Ep by (unfold pending; by rewrite El).
  destruct (grep_loop_ok pattern fd (S (length (pending fd s))) [] s) as (s' & E & O); rewrite ?Ep; rewrite ?El; try done; try lia.
  exists s'. split; [exact E|]. rewrite O, Ep. done.
Qed.

(** Lines that begin with an a and end in a c, of a text read in pieces. *)
Lemma grep_prints_matching_lines_witness :
  exists s', grep (str "^a.*c$") 0 (mkUst {[0 := [str "ab"; strn "c" ++ str "x"; strn "abc" ++ str "aa"; str "c" ++ [10] ++ str "abc"]]} (fun _ => None) [1] []) = URet tt s' /\
    u_out s' = [(1, strn "abc"); (1, strn "aac")].
Proof.
  destruct (grep_prints_matching_lines (str "^a.*c$") 0 [str "ab"; strn "c" ++ str "x"; strn "abc" ++ str "aa"; str "c" ++ [10] ++ str "abc"]
    (mkUst {[0 := [str "ab"; strn "c" ++ str "x"; strn "abc" ++ str "aa"; str "c" ++ [10] ++ str "abc"]]} (fun _ => None) [1] [])) as [(s' & E & O) _].
  - reflexivity.
  - repeat constructor; done.
  - vm_compute. repeat constructor; done.
  - vm_compute. repeat constructor; lia.
  - by apply list_elem_of_here.
  - exists s'. split; [exact E|]. rewrite O. vm_compute. reflexivity.
Defined.
