(* ===== verification/Utils.v ===== *)
(** * user/cat.c, user/wc.c, user/echo.c

    The small programs that copy, count and print, over any way read() may
    split their input. *)
From S2P Require Import Prelude User Ulib Grep.
From Stdlib Require Import ZArith Lia.
From stdpp Require Import strings.
Local Open Scope list_scope.
Local Open Scope Z_scope.
Local Open Scope user_scope.

Module Cat.
(** Every turn of the loop but the last takes a byte of input. *)
Fixpoint cat_loop (fuel : nat) (fd : Z) : U unit :=
  match fuel with
  | O => ufault
  | S fuel =>
      r <- read fd 512 ;;
      match r with
      | None => fprintf 2 (strn "cat: read error") [] ;;; exit 1
      | Some [] => uret tt
      | Some b =>
          n <- write 1 b ;;
          if negb (n =? Z.of_nat (length b)) then fprintf 2 (strn "cat: write error") [] ;;; exit 1
          else cat_loop fuel fd
      end
  end.
Definition cat (fd : Z) : U unit := fun s => cat_loop (S (length (pending fd s))) fd s.

Fixpoint cat_files (names : list (list Z)) : U unit :=
  match names with
  | [] => uret tt
  | name :: names =>
      fd <- open name ;;
      if fd <? 0 then fprintf 2 (strn "cat: cannot open %s") [V_str (Some name)] ;;; exit 1
      else cat fd ;;; close fd ;;; cat_files names
  end.
Definition cat_main (argv : list (list Z)) : U unit :=
  match argv with
  | [] | [_] => cat 0 ;;; exit 0
  | _ :: names => cat_files names ;;; exit 0
  end.
End Cat.

Module Wc.
Definition seps : list Z := [32; 13; 9; 10; 11].

(** The counters l, w, c and inword. *)
Record counts := mkCounts { n_l : Z; n_w : Z; n_c : Z; inword : bool }.

Definition count1 (k : counts) (b : Z) : counts :=
  let c := n_c k + 1 in
  let l := if b =? 10 then n_l k + 1 else n_l k in
  match strchr seps b with
  | Some _ => mkCounts l (n_w k) c false
  | None => if inword k then mkCounts l (n_w k) c true else mkCounts l (n_w k + 1) c true
  end.

Fixpoint wc_loop (fuel : nat) (fd : Z) (k : counts) : U counts :=
  match fuel with
  | O => ufault
  | S fuel =>
      r <- read fd 512 ;;
      match r with
      | None => printf (strn "wc: read error") [] ;;; exit 1
      | Some [] => uret k
      | Some b => wc_loop fuel fd (fold_left count1 b k)
      end
  end.
Definition wc (fd : Z) (name : list Z) : U unit := fun s =>
  (k <- wc_loop (S (length (pending fd s))) fd (mkCounts 0 0 0 false) ;;
   printf (strn "%d %d %d %s") [V_int (n_l k); V_int (n_w k); V_int (n_c k); V_str (Some name)]) s.

Fixpoint wc_files (names : list (list Z)) : U unit :=
  match names with
  | [] => uret tt
  | name :: names =>
      fd <- open name ;;
      if fd <? 0 then printf (strn "wc: cannot open %s") [V_str (Some name)] ;;; exit 1
      else wc fd name ;;; close fd ;;; wc_files names
  end.
Definition wc_main (argv : list (list Z)) : U unit :=
  match argv with
  | [] | [_] => wc 0 [] ;;; exit 0
  | _ :: names => wc_files names ;;; exit 0
  end.
End Wc.

Module Echo.
Fixpoint echo_loop (args : list (list Z)) : U unit :=
  match args with
  | [] => uret tt
  | [a] => write 1 a ;;; write 1 [10] ;;; uret tt
  | a :: args => write 1 a ;;; write 1 [32] ;;; echo_loop args
  end.
Definition echo_main (argv : list (list Z)) : U unit := echo_loop (tail argv) ;;; exit 0.
End Echo.

(** ** Reading to the end *)

(** One read of a descriptor whose chunks are not empty: the end, or some bytes. *)
Lemma read_step fd n l s : u_in s !! fd = Some l -> Forall (fun c => c <> []) l -> 0 < n ->
  (concat l = [] /\ exists s', read fd n s = URet (Some []) s' /\ u_out s' = u_out s /\ u_wfds s' = u_wfds s /\ u_files s' = u_files s) \/
  exists b l' s', read fd n s = URet (Some b) s' /\ b <> [] /\ concat l = b ++ concat l' /\ Forall (fun c => c <> []) l' /\
    u_in s' !! fd = Some l' /\ u_out s' = u_out s /\ u_wfds s' = u_wfds s /\ u_files s' = u_files s.
Proof.
  intros El Hne Hn. unfold read. rewrite El.
  destruct (take_chunk n l) as [b l'] eqn:Et. destruct (take_chunk_ok _ _ _ _ Hne Et) as (Ec & Hne' & Hz).
  destruct b as [|b0 b].
  - left. destruct (concat l) as [|x y] eqn:E; [|exfalso; enough (n <= 0) by lia; apply Hz; done]. split; [done|]. eexists. split; [reflexivity|done].
  - right. eexists (b0 :: b), l', _. split; [reflexivity|]. split_and!; try done. cbn. apply lookup_insert_eq.
Qed.

Lemma pending_chunks fd l s : u_in s !! fd = Some l -> pending fd s = concat l.
Proof. unfold pending. intros E. by rewrite E. Qed.

(** cat copies its input to its output. *)
Lemma cat_copies fd l s : u_in s !! fd = Some l -> Forall (fun c => c <> []) l -> 1 ∈ u_wfds s ->
  exists s', Cat.cat fd s = URet tt s' /\ written 1 s' = written 1 s ++ concat l.
Proof.
  unfold Cat.cat. intros El. rewrite (pending_chunks _ _ _ El). remember (S (length (concat l))) as fuel eqn:Hf.
  assert (length (concat l) < fuel)%nat as Hl by lia. clear Hf. revert l s El Hl.
  induction fuel as [|fuel IH]; intros l s El Hl Hne Hw; [lia|]. cbn [Cat.cat_loop].
  destruct (read_step fd 512 l s El Hne) as [(E & s' & R & O & _)|(b & l' & s' & R & Hb & E & Hne' & El' & O & W & F)]; [lia| |]; rewrite (ubind_URet _ _ _ _ _ R).
  - exists s'. split; [done|]. unfold written. by rewrite O, E, app_nil_r.
  - destruct b as [|b0 b]; [done|]. set (bb := b0 :: b) in *.
    assert (write 1 bb s' = URet (Z.of_nat (length bb)) (set_out (u_out s' ++ [(1, bb)]) s')) as Ew by (unfold write; by rewrite decide_True by (by rewrite W)).
    rewrite (ubind_URet _ _ _ _ _ Ew), Z.eqb_refl. cbn [negb].
    assert (written 1 (set_out (u_out s' ++ [(1, bb)]) s') = written 1 s ++ bb) as Eo.
    { unfold written. cbn [u_out set_out]. rewrite filter_app, map_app, concat_app, O. f_equal. rewrite filter_cons_True by done. cbn. by rewrite app_nil_r. }
    destruct (IH l' (set_out (u_out s' ++ [(1, bb)]) s')) as (s2 & E2 & W2); try done.
    + rewrite E, length_app in Hl. unfold bb in Hl. cbn in Hl. lia.
    + cbn. by rewrite W.
    + exists s2. split; [done|]. by rewrite W2, Eo, E, app_assoc.
Qed.

(** ** What wc counts *)

Definition is_sep (b : Z) : bool := bool_decide (b ∈ Wc.seps).

(** The pieces of a text between its separators. *)
Fixpoint pieces (l : list Z) : list Z * list (list Z) :=
  match l with
  | [] => ([], [])
  | c :: l => let '(x, r) := pieces l in if is_sep c then ([], x :: r) else (c :: x, r)
  end.
(** Its words are the ones that are not empty. *)
Definition words (l : list Z) : list (list Z) :=
  let '(x, r) := pieces l in base.filter (fun w => w <> []) (x :: r).
Definition newlines (l : list Z) : Z := Z.of_nat (length (base.filter (fun c => c = 10) l)).

Lemma strchr_sep b : (if strchr Wc.seps b then true else false) = is_sep b.
Proof.
  unfold is_sep, Wc.seps. cbn [strchr]. 
  repeat match goal with |- context [?x =? b] =>
    destruct (Z.eqb_spec x b) as [<-|]; [by rewrite bool_decide_true by (apply list_elem_of_In; cbn; tauto)|] end.
  rewrite bool_decide_false; [done|]. intros H%list_elem_of_In. cbn in H. lia.
Qed.

Lemma words_cons c l :
  words (c :: l) = if is_sep c then words l else (c :: (pieces l).1) :: base.filter (fun w => w <> []) (pieces l).2.
Proof.
  unfold words. cbn [pieces]. destruct (pieces l) as [x r]. destruct (is_sep c); cbn [fst snd].
  - by rewrite filter_cons_False by tauto.
  - by rewrite filter_cons_True by done.
Qed.

(** A word is counted where it begins. *)
Lemma count_words l k :
  fold_left Wc.count1 l k =
  Wc.mkCounts (Wc.n_l k + newlines l)
    (Wc.n_w k + Z.of_nat (length (words l)) - (if Wc.inword k && negb (bool_decide ((pieces l).1 = [])) then 1 else 0))
    (Wc.n_c k + Z.of_nat (length l))
    (match last l with None => Wc.inword k | Some c => negb (is_sep c) end).
Proof.
  revert k. induction l as [|c l IH]; intros k.
  - change (newlines []) with 0. change (words []) with (@nil (list Z)). cbn. rewrite andb_false_r. destruct k as [a b d e]. cbn. f_equal; lia.
  - cbn [fold_left]. rewrite IH. clear IH. pose proof (strchr_sep c) as Hs. unfold Wc.count1.
    assert (newlines (c :: l) = newlines l + (if c =? 10 then 1 else 0)) as Hnl.
    { unfold newlines. destruct (Z.eqb_spec c 10); [rewrite filter_cons_True by done|rewrite filter_cons_False by done]; cbn [length]; lia. }
    assert (Wc.n_l k + newlines (c :: l) = (if c =? 10 then Wc.n_l k + 1 else Wc.n_l k) + newlines l) as Hl by (case_match; lia).
    assert ((match last (c :: l) with None => Wc.inword k | Some d => negb (is_sep d) end) =
            match last l with None => negb (is_sep c) | Some d => negb (is_sep d) end) as Hlast by (by destruct l as [|d l]; [|rewrite last_cons_cons; destruct (last (d :: l)) eqn:E; [|apply last_None in E]]).
    rewrite Hlast, Hl, words_cons. cbn [pieces]. destruct (pieces l) as [x r] eqn:Ep. cbn [fst snd length].
    assert (Z.of_nat (length (words l)) = Z.of_nat (length (base.filter (fun w : list Z => w <> []) r)) + (if bool_decide (x = []) then 0 else 1)) as Hw.
    { unfold words. rewrite Ep. destruct x as [|a x]; [rewrite filter_cons_False, bool_decide_true by tauto|rewrite filter_cons_True, bool_decide_false by done; cbn [length]]; lia. }
    destruct (strchr Wc.seps c); cbn match in Hs; rewrite <- Hs; cbn [negb fst Wc.n_l Wc.n_w Wc.n_c Wc.inword andb].
    + rewrite andb_false_r. f_equal; lia.
    + rewrite (bool_decide_false (c :: x = [])) by done. cbn [negb]. rewrite andb_true_r.
      destruct (Wc.inword k); cbn [Wc.n_l Wc.n_w Wc.n_c Wc.inword andb length]; f_equal; destruct (bool_decide (x = [])); cbn [negb]; lia.
Qed.

Lemma wc_loop_ok fd fuel l k s : u_in s !! fd = Some l -> Forall (fun c => c <> []) l -> (length (concat l) < fuel)%nat ->
  exists s', Wc.wc_loop fuel fd k s = URet (fold_left Wc.count1 (concat l) k) s' /\ u_out s' = u_out s /\ u_wfds s' = u_wfds s.
Proof.
  revert l k s. induction fuel as [|fuel IH]; intros l k s El Hne Hl; [lia|]. cbn [Wc.wc_loop].
  destruct (read_step fd 512 l s El Hne) as [(E & s' & R & O & W & _)|(b & l' & s' & R & Hb & E & Hne' & El' & O & W & F)]; [lia| |]; rewrite (ubind_URet _ _ _ _ _ R).
  - exists s'. by rewrite E.
  - destruct b as [|b0 b]; [done|]. rewrite E, fold_left_app. rewrite E, length_app in Hl. cbn in Hl.
    destruct (IH l' (fold_left Wc.count1 (b0 :: b) k) s' El' Hne' ltac:(lia)) as (s2 & E2 & O2 & W2). exists s2. by rewrite E2, O2, W2.
Qed.

Lemma emits_vprintf_s fd t fmt ap l : Forall is_byte t -> emits fd l (vprintf fd fmt false ap) ->
  emits fd (t ++ l) (vprintf fd (37 :: 115 :: fmt) false (V_str (Some t) :: ap)).
Proof. intros Ht H. cbn [vprintf negb]. by apply emits_seq; [apply emits_puts|]. Qed.

Lemma words_length l : (length (words l) <= length l)%nat.
Proof.
  enough (length (words l) <= length l /\ (length (base.filter (fun w : list Z => w <> []) (pieces l).2) + (if bool_decide ((pieces l).1 = []) then 0 else 1) = length (words l)))%nat by lia.
  induction l as [|c l [IH1 IH2]]; [done|]. rewrite words_cons. cbn [pieces]. destruct (pieces l) as [x r] eqn:Ep. cbn [fst snd] in *.
  destruct (is_sep c); cbn [fst snd length].
  - split; [lia|]. rewrite bool_decide_true by done. unfold words in *. rewrite Ep in *. lia.
  - rewrite bool_decide_false by done. destruct (bool_decide (x = [])); lia.
Qed.

(** C37: wc prints the numbers of lines, words and bytes of its input and the
    name it was given, however read() splits the input: a word is a maximal run
    of bytes other than blank, tab, newline, return and vertical tab. *)
Theorem wc_counts fd name l s :
  u_in s !! fd = Some l -> Forall (fun c => c <> []) l -> Z.of_nat (length (concat l)) < 2 ^ 31 -> Forall is_byte name -> 1 ∈ u_wfds s ->
  exists s' dl dw dc, Wc.wc fd name s = URet tt s' /\
    written 1 s' = written 1 s ++ dl ++ [32] ++ dw ++ [32] ++ dc ++ [32] ++ name ++ [10] /\
    numeral 10 (newlines (concat l)) dl /\ numeral 10 (Z.of_nat (length (words (concat l)))) dw /\
    numeral 10 (Z.of_nat (length (concat l))) dc.
Proof.
  intros El Hne Hb Hname Hw. unfold Wc.wc. rewrite (pending_chunks _ _ _ El).
  destruct (wc_loop_ok fd _ l (Wc.mkCounts 0 0 0 false) s El Hne (Nat.lt_succ_diag_r _)) as (s1 & E1 & O1 & W1).
  rewrite (ubind_URet _ _ _ _ _ E1), count_words. cbn [Wc.n_l Wc.n_w Wc.n_c Wc.inword andb]. rewrite Z.sub_0_r, !Z.add_0_l.
  pose proof (words_length (concat l)).
  assert (0 <= newlines (concat l) <= Z.of_nat (length (concat l))) by (unfold newlines; pose proof (length_filter (fun c : Z => c = 10) (concat l)); lia).
  assert (forall c : Z, c = 32 \/ c = 10 -> is_byte c /\ c <> 37) as Hc by (unfold is_byte; lia).
  pose proof (emits_vprintf_s 1 name _ [] _ Hname (emits_vprintf_char 1 10 [] [] [] (proj1 (Hc 10 ltac:(lia))) (proj2 (Hc 10 ltac:(lia))) (emits_ret 1))) as E.
  apply (emits_vprintf_char 1 32) in E; [|apply Hc; lia..].
  destruct (emits_vprintf_d 1 (Z.of_nat (length (concat l))) _ _ _ ltac:(lia) E) as (dc & Nc & Ec). apply (emits_vprintf_char 1 32) in Ec; [|apply Hc; lia..].
  destruct (emits_vprintf_d 1 (Z.of_nat (length (words (concat l)))) _ _ _ ltac:(lia) Ec) as (dw & Nw & Ew). apply (emits_vprintf_char 1 32) in Ew; [|apply Hc; lia..].
  destruct (emits_vprintf_d 1 (newlines (concat l)) _ _ _ ltac:(lia) Ew) as (dl & Nl & Ed).
  destruct (emits_written _ _ _ s1 Ed ltac:(by rewrite W1)) as (s' & R & W & _). exists s', dl, dw, dc. split_and!; try done.
  rewrite W. f_equal. unfold written. by rewrite O1.
Qed.

(** Two lines and the start of a third, of four words, in three pieces. *)
Lemma wc_counts_witness : exists s' dl dw dc,
  Wc.wc 0 (str "f") (mkUst {[0 := [str "one tw"; strn "o" ++ [10]; str " three four"]]} (fun _ => None) [1] []) = URet tt s' /\
  written 1 s' = [] ++ dl ++ [32] ++ dw ++ [32] ++ dc ++ [32] ++ str "f" ++ [10] /\ numeral 10 2 dl /\ numeral 10 4 dw /\ numeral 10 20 dc.
Proof.
  apply (wc_counts 0 (str "f") [str "one tw"; strn "o" ++ [10]; str " three four"]
    (mkUst {[0 := [str "one tw"; strn "o" ++ [10]; str " three four"]]} (fun _ => None) [1] [])).
  - reflexivity.
  - repeat constructor; done.
  - vm_compute. reflexivity.
  - repeat constructor; done.
  - by apply list_elem_of_here.
Defined.
