(* ===== verification/Umalloc.v ===== *)
(** * user/umalloc.c

    The allocator of user programs.  An address is counted in headers of 16
    bytes; [mh] gives the header at an address and only the fields the
    allocator reads matter.  The kernel's side is [brk], the end of the
    program's memory, and [limit], how far sbrk() can grow it now.  Loops take
    fuel and the functions answer [None] when it runs out; the theorems give the
    fuel that is enough. *)
From S2P Require Import Prelude.
From Stdlib Require Import ZArith Lia.
From stdpp Require Import strings.
Local Open Scope list_scope.
Local Open Scope Z_scope.

(** union header *)
Record hdr := mkHdr { ptr : Z; size : Z }.
Record mheap := mkMheap { mh : Z -> hdr; freep : Z; brk : Z; limit : Z }.

Definition set_hdr (h : Z -> hdr) (a : Z) (x : hdr) : Z -> hdr := fun y => if y =? a then x else h y.

(** sbrk(n), with growproc() behind it: the old end, or -1.  The new size is a
    64-bit number, and shrinking to a larger size does nothing. *)
Definition sbrk (n : Z) (s : mheap) : Z * mheap :=
  let old := 16 * brk s in
  if 0 <? n then
    if 16 * limit s <? old + n then (-1, s) else (brk s, mkMheap (mh s) (freep s) ((old + n) / 16) (limit s))
  else if n <? 0 then
    let new := u64 (old + n) in
    if old <=? new then (brk s, s) else (brk s, mkMheap (mh s) (freep s) (new / 16) (limit s))
  else (brk s, s).

Section Umalloc.
(** The address of the static header [base]. *)
Context (base : Z).

(** The search loop of free(). *)
Fixpoint free_find (fuel : nat) (h : Z -> hdr) (bp p : Z) : option Z :=
  match fuel with
  | O => None
  | S fuel =>
      if (p <? bp) && (bp <? ptr (h p)) then Some p
      else if (ptr (h p) <=? p) && ((p <? bp) || (bp <? ptr (h p))) then Some p
      else free_find fuel h bp (ptr (h p))
  end.

Definition free (fuel : nat) (ap : Z) (s : mheap) : option mheap :=
  let bp := ap - 1 in
  match free_find fuel (mh s) bp (freep s) with
  | None => None
  | Some p =>
      let h := mh s in
      let h := if bp + size (h bp) =? ptr (h p)
               then set_hdr h bp (mkHdr (ptr (h (ptr (h p)))) (u32 (size (h bp) + size (h (ptr (h p))))))
               else set_hdr h bp (mkHdr (ptr (h p)) (size (h bp))) in
      let h := if p + size (h p) =? bp
               then set_hdr h p (mkHdr (ptr (h bp)) (u32 (size (h p) + size (h bp))))
               else set_hdr h p (mkHdr bp (size (h p))) in
      Some (mkMheap h p (brk s) (limit s))
  end.

(** morecore(nu): freep, or 0. *)
Definition morecore (fuel : nat) (nu : Z) (s : mheap) : option (Z * mheap) :=
  let nu := if nu <? 4096 then 4096 else nu in
  let '(p, s) := sbrk (s32 (nu * 16)) s in
  if p =? -1 then Some (0, s)
  else
    let s := mkMheap (set_hdr (mh s) p (mkHdr (ptr (mh s p)) nu)) (freep s) (brk s) (limit s) in
    match free fuel (p + 1) s with None => None | Some s => Some (freep s, s) end.

Fixpoint malloc_loop (fuel : nat) (nunits prevp p : Z) (s : mheap) : option (Z * mheap) :=
  match fuel with
  | O => None
  | S fuel' =>
      let h := mh s in
      if nunits <=? size (h p) then
        if size (h p) =? nunits then
          Some (p + 1, mkMheap (set_hdr h prevp (mkHdr (ptr (h p)) (size (h prevp)))) prevp (brk s) (limit s))
        else
          let h := set_hdr h p (mkHdr (ptr (h p)) (u32 (size (h p) - nunits))) in
          let p := p + size (h p) in
          let h := set_hdr h p (mkHdr (ptr (h p)) nunits) in
          Some (p + 1, mkMheap h prevp (brk s) (limit s))
      else if p =? freep s then
        match morecore fuel nunits s with
        | None => None
        | Some (p, s) => if p =? 0 then Some (0, s) else malloc_loop fuel' nunits p (ptr (mh s p)) s
        end
      else malloc_loop fuel' nunits p (ptr (h p)) s
  end.

Definition units (nbytes : Z) : Z := u32 ((nbytes + 16 - 1) / 16 + 1).

Definition malloc (fuel : nat) (nbytes : Z) (s : mheap) : option (Z * mheap) :=
  let nunits := units nbytes in
  let s := if freep s =? 0 then mkMheap (set_hdr (mh s) base (mkHdr base 0)) base (brk s) (limit s) else s in
  malloc_loop fuel nunits (freep s) (ptr (mh s (freep s))) s.
End Umalloc.

(** ** Blocks *)

(** A block: the address of its header and its size in headers. *)
Abbreviation block := (Z * Z)%type.

(** How many of the blocks contain unit [u]. *)
Fixpoint cover (u : Z) (l : list block) : Z :=
  match l with [] => 0 | (a, s) :: l => (if (a <=? u) && (u <? a + s) then 1 else 0) + cover u l end.

(** The blocks are in order and no two of them touch. *)
Fixpoint gaps (l : list block) : Prop :=
  match l with
  | (a, s) :: l => match l with [] => True | (b, _) :: _ => a + s < b end /\ gaps l
  | [] => True
  end.

(** The headers of [l] are linked in order; the last points to [e]. *)
Fixpoint chain (h : Z -> hdr) (l : list block) (e : Z) : Prop :=
  match l with
  | (a, s) :: l => ptr (h a) = match l with [] => e | (b, _) :: _ => b end /\ size (h a) = s /\ chain h l e
  | [] => True
  end.

Definition addrs (l : list block) : list Z := map fst l.

(** [heap_ok base start live s]: the free list is a ring in address order that
    starts at [base], its blocks do not touch, and every unit from [start] to
    the end of memory is in exactly one free or live block. *)
Record ring (base start : Z) (fl live : list block) (s : mheap) : Prop := {
  rg_chain : chain (mh s) ((base, 0) :: fl) base;
  rg_gaps : gaps ((base, 0) :: fl);
  rg_cover : forall u, cover u fl + cover u live = if (start <=? u) && (u <? brk s) then 1 else 0;
  rg_free : Forall (fun b => 1 <= b.2) fl;
  rg_live : Forall (fun b => 1 <= b.2 /\ size (mh s b.1) = b.2) live;
  rg_freep : freep s ∈ addrs ((base, 0) :: fl);
  rg_start : 0 < base < start;
  rg_end : start <= brk s < 2 ^ 31
}.
Definition heap_ok (base start : Z) (live : list block) (s : mheap) : Prop :=
  (exists fl, ring base start fl live s) \/ (freep s = 0 /\ live = [] /\ brk s = start /\ 0 < base < start /\ start < 2 ^ 31).

Lemma cover_app u l1 l2 : cover u (l1 ++ l2) = cover u l1 + cover u l2.
Proof. induction l1 as [|[a s] l1 IH]; cbn [app cover]; [done|]. rewrite IH. lia. Qed.
Lemma cover_nonneg u l : 0 <= cover u l.
Proof. induction l as [|[a s] l IH]; cbn [cover]; [done|]. case_match; lia. Qed.
Lemma cover_in u a s l : (a, s) ∈ l -> a <= u < a + s -> 1 <= cover u l.
Proof.
  intros H Hu. induction l as [|[b t] l IH]; [by apply elem_of_nil in H|]. cbn [cover]. apply elem_of_cons in H as [[= <- <-]|H].
  - pose proof (cover_nonneg u l). zb. cbn [andb]. lia.
  - specialize (IH H). case_match; lia.
Qed.
(** Splitting a block covers the same units. *)
Lemma cover_split u a s t l : 0 <= s -> 0 <= t -> cover u ((a, s + t) :: l) = cover u ((a, s) :: (a + s, t) :: l).
Proof. intros. cbn [cover]. destruct (Z.leb_spec a u), (Z.leb_spec (a + s) u), (Z.ltb_spec u (a + s)), (Z.ltb_spec u (a + (s + t))), (Z.ltb_spec u (a + s + t)); cbn [andb]; lia. Qed.

Lemma gaps_tail x l : gaps (x :: l) -> gaps l.
Proof. destruct x. by intros [_ ?]. Qed.
Lemma gaps_app l1 l2 : gaps (l1 ++ l2) -> gaps l1 /\ gaps l2.
Proof.
  induction l1 as [|[a s] l1 IH]; [done|]. cbn [app gaps]. intros [H1 H2]. destruct (IH H2) as [H3 H4]. split_and!; try done. by destruct l1.
Qed.
Definition nonneg (l : list block) : Prop := Forall (fun b => 0 <= b.2) l.
Lemma gaps_lt a s l b t : gaps ((a, s) :: l) -> nonneg l -> (b, t) ∈ l -> a + s < b.
Proof.
  revert a s. induction l as [|[c u] l IH]; intros a s [H1 H2] F H; [by apply elem_of_nil in H|]. apply Forall_cons in F as [F1 F2]. cbn in F1.
  apply elem_of_cons in H as [[= <- <-]|H]; [done|]. specialize (IH c u H2 F2 H). lia.
Qed.
(** In a list of blocks in order, the address of a node separates the rest. *)
Lemma gaps_split l1 a s l2 b t : gaps (l1 ++ (a, s) :: l2) -> nonneg (l1 ++ (a, s) :: l2) ->
  ((b, t) ∈ l1 -> b + t < a) /\ ((b, t) ∈ l2 -> a + s < b).
Proof.
  intros Hg Hn. split.
  - intros H. apply list_elem_of_split in H as (c1 & c2 & ->). rewrite <- app_assoc in *. apply gaps_app in Hg as [_ Hg]. apply Forall_app in Hn as [_ Hn].
    cbn [app] in *. apply Forall_cons in Hn as [_ Hn]. eapply gaps_lt; [exact Hg|exact Hn|]. apply elem_of_app. right. by constructor.
  - apply gaps_app in Hg as [_ Hg]. apply Forall_app in Hn as [_ Hn]. apply Forall_cons in Hn as [_ Hn]. by apply (gaps_lt a s l2 b t).
Qed.

Lemma chain_app h l1 l2 e : chain h (l1 ++ l2) e <-> chain h l1 (match l2 with [] => e | (b, _) :: _ => b end) /\ chain h l2 e.
Proof.
  induction l1 as [|[a s] l1 IH]; cbn [app chain]; [naive_solver|]. rewrite IH. destruct l1 as [|[b t] l1]; cbn [app]; [destruct l2 as [|[]]; naive_solver|naive_solver].
Qed.
Lemma hchain_ext h h' l e : (forall a, a ∈ addrs l -> h' a = h a) -> chain h l e -> chain h' l e.
Proof.
  induction l as [|[a s] l IH]; intros H; [done|]. cbn [chain]. rewrite (H a) by (cbn; constructor). intros (? & ? & ?). split_and!; try done.
  apply IH; [|done]. intros b Hb. apply H. cbn. by constructor.
Qed.
Lemma chain_end h l e e' : e = e' -> chain h l e -> chain h l e'.
Proof. by intros ->. Qed.
Lemma set_hdr_eq h a x : set_hdr h a x a = x.
Proof. unfold set_hdr. by rewrite Z.eqb_refl. Qed.
Lemma set_hdr_ne h a x y : y <> a -> set_hdr h a x y = h y.
Proof. unfold set_hdr. intros. by rewrite (proj2 (Z.eqb_neq _ _)). Qed.

Section Ring.
Context (base start : Z).

Lemma block_range fl live s a t : ring base start fl live s -> (a, t) ∈ fl \/ (a, t) ∈ live -> 1 <= t -> start <= a /\ a + t <= brk s.
Proof.
  intros [_ _ Hc _ _ _ _ _] Hin Ht.
  assert (forall u, a <= u < a + t -> start <= u < brk s) as H.
  { intros u Hu. specialize (Hc u). pose proof (cover_nonneg u fl). pose proof (cover_nonneg u live).
    assert (1 <= cover u fl + cover u live) by (destruct Hin as [Hin|Hin]; pose proof (cover_in u a t _ Hin Hu); lia).
    destruct (Z.leb_spec start u), (Z.ltb_spec u (brk s)); cbn [andb] in Hc; lia. }
  pose proof (H a ltac:(lia)). pose proof (H (a + t - 1) ltac:(lia)). lia.
Qed.

(** A free block and a live block share no unit. *)
Lemma blocks_apart fl live s a t b u : ring base start fl live s -> (a, t) ∈ fl -> (b, u) ∈ live -> 1 <= t -> 1 <= u -> a + t <= b \/ b + u <= a.
Proof.
  intros [_ _ Hc _ _ _ _ _] H1 H2 Ht Hu. destruct (Z.le_gt_cases (a + t) b); [by left|]. destruct (Z.le_gt_cases (b + u) a); [by right|]. exfalso.
  set (x := Z.max a b). specialize (Hc x). pose proof (cover_in x a t fl H1 ltac:(lia)). pose proof (cover_in x b u live H2 ltac:(lia)). case_match; lia.
Qed.

(** The node after which an address belongs. *)
Lemma pred_split bp x l : x.1 < bp -> (forall a, a ∈ addrs l -> a <> bp) ->
  exists l1 p sp l2, x :: l = l1 ++ (p, sp) :: l2 /\ p < bp /\ match l2 with [] => True | (q, _) :: _ => bp < q end.
Proof.
  revert x. induction l as [|y l IH]; intros x Hx Hn; [by exists [], x.1, x.2, []; destruct x|].
  destruct (Z.lt_trichotomy y.1 bp) as [H|[H|H]].
  - destruct (IH y H) as (l1 & p & sp & l2 & E & Hp & H2); [intros a Ha; apply Hn; cbn; by constructor|]. exists (x :: l1), p, sp, l2. by rewrite E.
  - exfalso. apply (Hn y.1); [cbn; constructor|done].
  - exists [], x.1, x.2, (y :: l). destruct x, y. done.
Qed.

Lemma free_find_mono h bp p x k k' : free_find k h bp p = Some x -> (k <= k')%nat -> free_find k' h bp p = Some x.
Proof.
  revert p k'. induction k as [|k IH]; intros p k' H Hk; [done|]. destruct k' as [|k']; [lia|]. cbn in *. case_match; [done|]. case_match; [done|]. by apply IH; [|lia].
Qed.

(** The search from a node at or before the one it looks for. *)
Lemma find_from_before h bp a2 p sp l2 e fuel :
  chain h (a2 ++ (p, sp) :: l2) e -> gaps (a2 ++ (p, sp) :: l2) -> nonneg (a2 ++ (p, sp) :: l2) ->
  p < bp -> match l2 with [] => e <= p | (q, _) :: _ => bp < q end -> (length a2 < fuel)%nat ->
  free_find fuel h bp (match a2 with [] => p | (x, _) :: _ => x end) = Some p.
Proof.
  revert fuel. induction a2 as [|[x sx] a2 IH]; intros fuel Hc Hg Hs Hp Hl Hf; (destruct fuel as [|fuel]; [cbn in Hf; lia|]); cbn [free_find].
  - destruct Hc as (E & _ & _). rewrite E. destruct l2 as [|[q sq] l2].
    + zb. cbn [andb orb]. destruct (Z.ltb_spec bp e); done.
    + zb. done.
  - destruct (gaps_split ((x, sx) :: a2) p sp l2 x sx Hg Hs) as [Hxp _]. specialize (Hxp ltac:(by constructor)). pose proof Hs as Hs'. apply Forall_cons in Hs' as [Hx Hs2]. cbn in Hx.
    destruct Hc as (E & _ & Hc). specialize (IH fuel Hc (gaps_tail _ _ Hg) Hs2 Hp Hl ltac:(cbn in Hf; lia)). rewrite E.
    destruct a2 as [|[y sy] a2]; cbn [app] in *.
    + zb. cbn [andb]. done.
    + destruct (gaps_split ((y, sy) :: a2) p sp l2 y sy (gaps_tail _ _ Hg) Hs2) as [Hyp _]. specialize (Hyp ltac:(by constructor)).
      apply Forall_cons in Hs2 as [Hy _]. cbn in Hy. pose proof (gaps_lt x sx _ y sy Hg) as Hxy. specialize (Hxy ltac:(by apply Forall_cons in Hs as [_ ?]) ltac:(by constructor)).
      zb. cbn [andb]. exact IH.
Qed.

(** From a node after it, the search goes round through [e]. *)
Lemma find_from_after h bp c e fuel x sx r :
  chain h ((x, sx) :: c) e -> gaps ((x, sx) :: c) -> nonneg ((x, sx) :: c) ->
  bp < x -> e < bp -> (S (length c) + r <= fuel)%nat -> forall p, free_find r h bp e = Some p -> free_find fuel h bp x = Some p.
Proof.
  revert fuel x sx. induction c as [|[y sy] c IH]; intros fuel x sx Hc Hg Hs Hx He Hf p Hr; (destruct fuel as [|fuel]; [cbn in Hf; lia|]); cbn [free_find].
  - destruct Hc as (E & _ & _). rewrite E. zb. cbn [andb orb]. eapply free_find_mono; [exact Hr|]. cbn in Hf. lia.
  - destruct Hc as (E & _ & Hc). rewrite E. apply Forall_cons in Hs as [Hx0 Hs]. cbn in Hx0. pose proof (gaps_lt _ _ _ y sy Hg Hs ltac:(by constructor)).
    zb. cbn [andb]. apply (IH fuel y sy); try done; [by eapply gaps_tail|lia|cbn in Hf; lia].
Qed.

(** The search finds the node after which [bp] belongs, from wherever it starts. *)
Lemma free_find_ok h bp l1 p sp l2 f fuel :
  chain h (l1 ++ (p, sp) :: l2) base -> gaps (l1 ++ (p, sp) :: l2) -> nonneg (l1 ++ (p, sp) :: l2) -> head (l1 ++ (p, sp) :: l2) = Some (base, 0) ->
  base < bp -> p < bp -> match l2 with [] => True | (q, _) :: _ => bp < q end -> f ∈ addrs (l1 ++ (p, sp) :: l2) ->
  (2 * length (l1 ++ (p, sp) :: l2) <= fuel)%nat ->
  free_find fuel h bp f = Some p.
Proof.
  intros Hc Hg Hs Hhd Hb Hp Hl Hf Hfuel. rewrite length_app in Hfuel. cbn in Hfuel.
  assert (match l2 with [] => base <= p | (q, _) :: _ => bp < q end) as Hl'.
  { destruct l2; [|done]. destruct l1 as [|x l1]; cbn in Hhd; injection Hhd as ->; [lia|].
    destruct (gaps_split ((base, 0) :: l1) p sp [] base 0 Hg Hs) as [H _]. specialize (H ltac:(by constructor)). lia. }
  assert (forall a2 b2, l1 = a2 ++ b2 -> free_find (S (length l1)) h bp (match b2 with [] => p | (x, _) :: _ => x end) = Some p) as Hbefore.
  { intros a2 b2 ->. rewrite <- app_assoc in *. apply chain_app in Hc as [_ Hc]. apply gaps_app in Hg as [_ Hg]. apply Forall_app in Hs as [_ Hs].
    eapply find_from_before; [exact Hc|exact Hg|exact Hs|done|exact Hl'|rewrite length_app; lia]. }
  unfold addrs in Hf. rewrite map_app in Hf. apply elem_of_app in Hf as [Hf|Hf]; [|cbn in Hf; apply elem_of_cons in Hf as [-> |Hf]].
  - apply list_elem_of_In, in_map_iff in Hf as ([x sx] & <- & Hin%list_elem_of_In). apply list_elem_of_split in Hin as (a2 & b2 & E).
    eapply free_find_mono; [apply (Hbefore a2 ((x, sx) :: b2) E)|]. lia.
  - eapply free_find_mono; [apply (Hbefore l1 []); by rewrite app_nil_r|]. lia.
  - apply list_elem_of_In, in_map_iff in Hf as ([x sx] & <- & Hin%list_elem_of_In). cbn [fst].
    assert (bp < x) as Hx.
    { destruct l2 as [|[q sq] l2]; [by apply elem_of_nil in Hin|]. apply elem_of_cons in Hin as [[= <- <-]|Hin]; [done|].
      apply gaps_app in Hg as [_ Hg]. apply Forall_app in Hs as [_ Hs]. apply Forall_cons in Hs as [_ Hs]. apply Forall_cons in Hs as [Hq Hs]. cbn in Hq.
      pose proof (gaps_lt q sq l2 x sx (gaps_tail _ _ Hg) Hs Hin). lia. }
    apply list_elem_of_split in Hin as (c1 & c2 & ->). rewrite length_app in Hfuel. cbn in Hfuel.
    change ((p, sp) :: c1 ++ (x, sx) :: c2) with (((p, sp) :: c1) ++ (x, sx) :: c2) in Hc, Hg, Hs. rewrite app_assoc in Hc, Hg, Hs.
    apply chain_app in Hc as [_ Hc]. apply gaps_app in Hg as [_ Hg]. apply Forall_app in Hs as [_ Hs].
    apply (find_from_after h bp c2 base fuel x sx (S (length l1))); try done; [lia|].
    destruct l1 as [|y l1]; cbn in Hhd; injection Hhd as ->; [apply (Hbefore [] [] eq_refl)|apply (Hbefore [] ((base, 0) :: l1) eq_refl)].
Qed.

Definition next (R : list block) : Z := match R with [] => base | (b, _) :: _ => b end.

Lemma cover_base u l : cover u ((base, 0) :: l) = cover u l.
Proof. cbn [cover]. destruct (Z.leb_spec base u), (Z.ltb_spec u (base + 0)); cbn [andb]; lia. Qed.

(** The first half of free(): the block joins the one it touches on its right. *)
Lemma join_right h p sp bp sb l2 B :
  chain h ((p, sp) :: l2) base -> gaps ((p, sp) :: l2) -> nonneg l2 -> size (h bp) = sb -> 1 <= sb -> base < bp ->
  match l2 with [] => True | (q, sq) :: _ => bp + sb <= q /\ sb + sq < B end -> B < 2 ^ 31 -> sb < B ->
  exists X R,
    (if bp + size (h bp) =? ptr (h p)
     then set_hdr h bp (mkHdr (ptr (h (ptr (h p)))) (u32 (size (h bp) + size (h (ptr (h p))))))
     else set_hdr h bp (mkHdr (ptr (h p)) (size (h bp)))) = set_hdr h bp (mkHdr (next R) X) /\
    sb <= X < B /\ (forall u, cover u ((bp, X) :: R) = cover u ((bp, sb) :: l2)) /\ chain h R base /\ gaps ((bp, X) :: R) /\
    (exists l, l2 = l ++ R) /\ (length R <= length l2)%nat.
Proof.
  intros Hc Hg Hn Es Hsb Hb Hq HB HsB. destruct Hc as (Ep & _ & Hc). rewrite Es. destruct l2 as [|[q sq] l3].
  - rewrite Ep. rewrite (proj2 (Z.eqb_neq _ _)) by lia. exists sb, []. split_and!; try done; [lia..|by exists []].
  - rewrite Ep. destruct Hq as [Hq1 Hq2]. destruct Hc as (Eq & Sq & Hc). apply gaps_tail in Hg. apply Forall_cons in Hn as [Hsq Hn]. cbn in Hsq.
    destruct (Z.eqb_spec (bp + sb) q) as [E|E].
    + exists (sb + sq), l3. rewrite Eq, Sq, u32_small by lia. split_and!; try done; [lia..| | | |cbn; lia].
      * intros u. rewrite cover_split by lia. by rewrite E.
      * destruct Hg as [G1 G2]. split; [|done]. destruct l3 as [|[]]; [done|]. lia.
      * by exists [(q, sq)].
    + exists sb, ((q, sq) :: l3). split_and!; try done; [lia..| |by exists []]. split; [lia|done].
Qed.

Lemma live_distinct fl v1 bp sb v2 s a t : ring base start fl (v1 ++ (bp, sb) :: v2) s -> (a, t) ∈ v1 ++ v2 -> a <> bp.
Proof.
  intros [_ _ Hc _ Hv _ _ _] Hin ->. specialize (Hc bp). rewrite cover_app in Hc. cbn [cover] in Hc.
  apply Forall_app in Hv as [Hv1 Hv]. apply Forall_cons in Hv as [[Hsb _] Hv2]. cbn in Hsb.
  destruct (Z.leb_spec bp bp), (Z.ltb_spec bp (bp + sb)); try lia. cbn [andb] in Hc.
  pose proof (cover_nonneg bp fl). pose proof (cover_nonneg bp v1). pose proof (cover_nonneg bp v2).
  rewrite Forall_forall in Hv1, Hv2.
  apply elem_of_app in Hin as [Hin|Hin].
  - destruct (Hv1 _ Hin) as [Ht _]. cbn in Ht. pose proof (cover_in bp bp t v1 Hin ltac:(lia)). case_match; lia.
  - destruct (Hv2 _ Hin) as [Ht _]. cbn in Ht. pose proof (cover_in bp bp t v2 Hin ltac:(lia)). case_match; lia.
Qed.

(** A ring from its parts: the list [ns'] of nodes, and what changed. *)
Lemma ring_nonneg fl live s : ring base start fl live s -> nonneg ((base, 0) :: fl).
Proof. intros [_ _ _ Hf _ _ _ _]. constructor; [done|]. eapply Forall_impl; [exact Hf|]. cbn. lia. Qed.

Lemma gaps_join l1 x l2 : gaps (l1 ++ [x]) -> gaps (x :: l2) -> gaps (l1 ++ x :: l2).
Proof.
  induction l1 as [|[a s] l1 IH]; [done|]. cbn [app gaps]. intros [H1 H2] H3. split; [|by apply IH]. destruct l1 as [|[b t] l1]; [|done]. destruct x. done.
Qed.
Lemma gaps_last l1 a s t : gaps (l1 ++ [(a, s)]) -> gaps (l1 ++ [(a, t)]).
Proof. induction l1 as [|[b u] l1 IH]; [done|]. cbn [app gaps]. intros [H1 H2]. split; [|by apply IH]. by destruct l1 as [|[]]. Qed.

(** The second half of free(): the node before it takes the block in, or links
    to it. *)
Lemma join_left h l1 p sp bp X R B :
  chain h l1 p -> chain h R base -> gaps (l1 ++ [(p, sp)]) -> nonneg (l1 ++ [(p, sp)]) -> nonneg R -> gaps ((bp, X) :: R) -> size (h p) = sp -> size (h bp) = X -> ptr (h bp) = next R ->
  p + sp <= bp -> p <> bp -> 0 <= sp -> sp + X < B -> 0 < X -> B < 2 ^ 31 ->
  let h' := if p + size (h p) =? bp then set_hdr h p (mkHdr (ptr (h bp)) (u32 (size (h p) + size (h bp)))) else set_hdr h p (mkHdr bp (size (h p))) in
  exists t N, (t, N) = (if p + sp =? bp then (sp + X, R) else (sp, (bp, X) :: R)) /\
    chain h' (l1 ++ (p, t) :: N) base /\ gaps (l1 ++ (p, t) :: N) /\
    (forall u, cover u ((p, t) :: N) = cover u ((p, sp) :: (bp, X) :: R)) /\ (forall a, a <> p -> h' a = h a).
Proof.
  intros Hc1 HcR Hg Hn HnR HgX Ep Eb Eq Hle Hne Hsp HB HX HB' h'. unfold h'. rewrite Ep, Eb, Eq.
  assert (forall b t, (b, t) ∈ l1 -> b < p) as H1.
  { intros b t Hin. destruct (gaps_split l1 p sp [] b t Hg Hn) as [H _]. specialize (H Hin). unfold nonneg in Hn. rewrite Forall_app, !Forall_forall in Hn. pose proof (proj1 Hn _ Hin) as H2. cbn in H2. lia. }
  assert (forall b t, (b, t) ∈ R -> bp < b) as H2 by (intros b t Hin; pose proof (gaps_lt bp X R b t HgX HnR Hin); lia).
  assert (forall x, chain (set_hdr h p x) l1 p) as C1.
  { intros x. eapply hchain_ext; [|exact Hc1]. intros a Ha. apply set_hdr_ne. apply list_elem_of_In, in_map_iff in Ha as ([b t] & <- & Hin%list_elem_of_In). cbn. specialize (H1 b t Hin). lia. }
  assert (forall x, chain (set_hdr h p x) R base) as C2.
  { intros x. eapply hchain_ext; [|exact HcR]. intros a Ha. apply set_hdr_ne. apply list_elem_of_In, in_map_iff in Ha as ([b t] & <- & Hin%list_elem_of_In). cbn. specialize (H2 b t Hin). lia. }
  destruct (Z.eqb_spec (p + sp) bp) as [E|E].
  - exists (sp + X), R. rewrite u32_small by lia. split_and!; [done| | | |intros a Ha; by apply set_hdr_ne].
    + apply chain_app. split; [apply C1|]. cbn [chain]. rewrite set_hdr_eq. split_and!; [by destruct R as [|[]]|done|apply C2].
    + apply gaps_join; [by eapply gaps_last|]. destruct HgX as [G1 G2]. split; [|done]. destruct R as [|[]]; [done|]. lia.
    + intros u. rewrite cover_split by lia. by rewrite E.
  - exists sp, ((bp, X) :: R). split_and!; [done| | |done|intros a Ha; by apply set_hdr_ne].
    + apply chain_app. split; [apply C1|]. cbn [chain]. rewrite set_hdr_eq, set_hdr_ne by done. split_and!; [done|done|by destruct R as [|[]]|done|apply C2].
    + apply gaps_join; [done|]. split; [lia|done].
Qed.

(** The free blocks and the live block [bp]: where it goes in the ring. *)
Lemma place fl v1 bp sb v2 s : ring base start fl (v1 ++ (bp, sb) :: v2) s ->
  exists l1 p sp l2, (base, 0) :: fl = l1 ++ (p, sp) :: l2 /\ p < bp /\ p + sp <= bp /\ 0 <= sp /\ 1 <= sb /\ base < bp /\
    sp + sb <= brk s - base /\ match l2 with [] => True | (q, sq) :: _ => bp < q /\ bp + sb <= q /\ sp + sb + sq <= brk s - base end /\
    (p = base -> p + sp <> bp).
Proof.
  intros Hr. pose proof Hr as [Hc Hg Hcv Hf Hv Hfp Hst Hend]. pose proof (ring_nonneg _ _ _ Hr) as Hn.
  assert ((bp, sb) ∈ v1 ++ (bp, sb) :: v2) as Hin by (apply elem_of_app; right; by constructor).
  assert (1 <= sb) as Hsb by (rewrite Forall_forall in Hv; apply (Hv _ Hin)).
  destruct (block_range _ _ _ bp sb Hr (or_intror Hin) Hsb) as [Hb1 Hb2].
  assert (forall a t, (a, t) ∈ fl -> 1 <= t /\ start <= a /\ a + t <= brk s /\ (a + t <= bp \/ bp + sb <= a)) as Hfl.
  { intros a t Ha. rewrite Forall_forall in Hf. pose proof (Hf _ Ha) as Ht. cbn in Ht. destruct (block_range _ _ _ a t Hr (or_introl Ha) Ht).
    pose proof (blocks_apart _ _ _ _ _ _ _ Hr Ha Hin Ht Hsb). lia. }
  destruct (pred_split bp (base, 0) fl) as (l1 & p & sp & l2 & E & Hp & Hl); [cbn; lia| |].
  { intros a Ha ->. apply list_elem_of_In, in_map_iff in Ha as ([b t] & Eb & Hb%list_elem_of_In). cbn in Eb. subst b. specialize (Hfl _ _ Hb). lia. }
  exists l1, p, sp, l2. rewrite E in Hn, Hg. assert ((p = base /\ sp = 0) \/ (p, sp) ∈ fl) as Hpf.
  { assert ((p, sp) ∈ (base, 0) :: fl) as H by (rewrite E; apply elem_of_app; right; by constructor). apply elem_of_cons in H as [[= -> ->]|H]; [by left|by right]. }
  assert (p + sp <= bp /\ 0 <= sp /\ sp + sb <= brk s - base /\ (p = base -> p + sp <> bp)) as (A1 & A2 & A3 & A4).
  { destruct Hpf as [[-> ->]|H]; [lia|]. specialize (Hfl _ _ H). lia. }
  split_and!; try done; [lia|]. destruct l2 as [|[q sq] l2]; [done|]. assert ((q, sq) ∈ fl) as Hq.
  { assert ((q, sq) ∈ (base, 0) :: fl) as H by (rewrite E; apply elem_of_app; right; constructor; constructor). apply elem_of_cons in H as [[= -> ->]|H]; [lia|done]. }
  specialize (Hfl _ _ Hq). destruct Hpf as [[-> ->]|H]; [lia|]. assert (start <= p) by (destruct (block_range _ _ _ p sp Hr (or_introl H)); [rewrite Forall_forall in Hf; apply (Hf _ H)|lia]). lia.
Qed.

(** The nodes around position [p] in the ring, when [p]'s size becomes [t] and
    [N] follows it. *)
Lemma around fl l1 p sp l2 : (base, 0) :: fl = l1 ++ (p, sp) :: l2 -> forall t N, (l1 = [] -> t = 0) ->
  exists fl', l1 ++ (p, t) :: N = (base, 0) :: fl' /\ (forall u, cover u fl' = cover u l1 + cover u ((p, t) :: N)) /\
    (length fl' = length l1 + length N)%nat /\ (length fl = length l1 + length l2)%nat /\
    (forall P : block -> Prop, Forall P fl -> Forall P l2 /\ (l1 <> [] -> P (p, sp)) /\ ((l1 <> [] -> P (p, t)) -> Forall P N -> Forall P fl')) /\
    (forall b, b ∈ N -> b ∈ fl') /\ (l1 <> [] -> (p, t) ∈ fl') /\ (l1 = [] -> p = base /\ sp = 0).
Proof.
  intros E t N Ht. destruct l1 as [|x l1]; cbn in E.
  - injection E as <- <- <-. rewrite Ht by done. exists N. split_and!; try done. intros u. by rewrite cover_base.
  - injection E as <- ->. exists (l1 ++ (p, t) :: N). split_and!; [done| |rewrite length_app; cbn; lia|rewrite length_app; cbn; lia| | | |done].
    + intros u. rewrite cover_app, cover_base. done.
    + intros P HP. apply Forall_app in HP as [H1 H2]. apply Forall_cons in H2 as [H2 H3]. split_and!; try done. intros H4 H5. apply Forall_app. split; [done|]. constructor; [by apply H4|done].
    + intros b Hb. apply elem_of_app. right. by constructor.
    + intros _. apply elem_of_app. right. by constructor.
Qed.

(** free() of a live block: the ring takes it in, and no other block changes. *)
Lemma free_ok fl v1 bp sb v2 s fuel :
  ring base start fl (v1 ++ (bp, sb) :: v2) s -> (2 * S (length fl) <= fuel)%nat ->
  exists s' fl', free fuel (bp + 1) s = Some s' /\ ring base start fl' (v1 ++ v2) s' /\ brk s' = brk s /\ limit s' = limit s /\
    (length fl' <= S (length fl))%nat /\ (forall a, a <> bp -> a ∉ addrs ((base, 0) :: fl) -> mh s' a = mh s a) /\
    exists a t, (a, t) ∈ fl' /\ a <= bp /\ bp + sb <= a + t.
Proof.
  intros Hr Hfuel. pose proof Hr as [Hc Hg Hcv Hf Hv Hfp Hst Hend]. pose proof (ring_nonneg _ _ _ Hr) as Hn.
  destruct (place _ _ _ _ _ _ Hr) as (l1 & p & sp & l2 & E & Hp & Hpb & Hsp & Hsb & Hb & Hsum & Hl2 & Hbase). rewrite E in Hc, Hg, Hfp, Hn.
  unfold free. replace (bp + 1 - 1) with bp by lia.
  assert (free_find fuel (mh s) bp (freep s) = Some p) as ->.
  { eapply free_find_ok; [exact Hc|exact Hg|exact Hn|by rewrite <- E|lia|lia|destruct l2 as [|[]]; [done|lia]|done|]. rewrite <- E. cbn. lia. }
  apply chain_app in Hc as [Hc1 Hc2]. pose proof (gaps_app _ _ Hg) as [_ Hg2]. pose proof Hn as Hn'. apply Forall_app in Hn' as [Hn1 Hn2]. apply Forall_cons in Hn2 as [_ Hn2].
  assert (size (mh s bp) = sb) as Esb by (rewrite Forall_app, Forall_cons in Hv; apply Hv).
  destruct (join_right (mh s) p sp bp sb l2 (brk s - base - sp + 1) Hc2 Hg2 Hn2 Esb) as (X & R & -> & HX & HcovX & HcR & HgX & [lx Elx] & HlR); [lia..|destruct l2 as [|[]]; [done|lia]|lia|lia|].
  set (h1 := set_hdr (mh s) bp _). assert (forall a, a <> bp -> h1 a = mh s a) as Hh1 by (intros; by apply set_hdr_ne).
  assert (nonneg R) as HnR by (rewrite Elx in Hn2; apply Forall_app in Hn2; apply Hn2).
  assert (Hgp : gaps (l1 ++ [(p, sp)])) by (change ((p, sp) :: l2) with ([(p, sp)] ++ l2) in Hg; rewrite app_assoc in Hg; apply gaps_app in Hg; apply Hg).
  assert (Hnp : nonneg (l1 ++ [(p, sp)])) by (apply Forall_app; split; [done|by constructor]).
  assert (forall a t, (a, t) ∈ l1 -> a < p) as Hl1p.
  { intros a t Ha. destruct (gaps_split l1 p sp [] a t Hgp Hnp) as [H _]. specialize (H Ha). unfold nonneg in Hn1. rewrite Forall_forall in Hn1. specialize (Hn1 _ Ha). cbn in Hn1. lia. }
  destruct (join_left h1 l1 p sp bp X R (brk s - base + 1)) as (t & N & Et & Hc' & Hg' & Hcov' & Hh'); try done.
  { eapply hchain_ext; [|exact Hc1]. intros a Ha. apply Hh1. apply list_elem_of_In, in_map_iff in Ha as ([b t] & <- & Hin%list_elem_of_In). cbn. specialize (Hl1p b t Hin). lia. }
  { eapply hchain_ext; [|exact HcR]. intros a Ha. apply Hh1. apply list_elem_of_In, in_map_iff in Ha as ([b t] & <- & Hin%list_elem_of_In). cbn. pose proof (gaps_lt bp X R b t HgX HnR Hin). lia. }
  { rewrite Hh1 by lia. destruct Hc2 as (_ & E2 & _). done. }
  { unfold h1. by rewrite set_hdr_eq. }
  { unfold h1. by rewrite set_hdr_eq. }
  1-4: lia.
  destruct (around _ _ _ _ _ E t N) as (fl' & Efl & Hcfl & Hlen & Hlen0 & HP & HinN & Hinp & Hl1).
  { intros ->. cbn in E. injection E as <- <- _. specialize (Hbase eq_refl). rewrite (proj2 (Z.eqb_neq _ _)) in Et by lia. by injection Et. }
  set (h2 := if p + size (h1 p) =? bp then _ else _) in *. rewrite Efl in Hc', Hg'.
  assert (N = R \/ N = (bp, X) :: R) as HN by (case_match; injection Et as -> ->; auto).
  exists (mkMheap h2 p (brk s) (limit s)), fl'. split; [done|]. split; [|split_and!; try done].
  - split; try done; cbn [mh freep brk limit].
    + intros u. specialize (Hcv u). rewrite Hcfl, Hcov'. rewrite <- (cover_base u fl), E, !cover_app in Hcv. rewrite cover_app. cbn [cover] in Hcv |- *. specialize (HcovX u). cbn [cover] in HcovX. lia.
    + destruct (HP _ Hf) as (F1 & F2 & F3). apply F3.
      * intros Hne. specialize (F2 Hne). cbn in F2 |- *. case_match; injection Et as -> ->; lia.
      * assert (Forall (fun b : block => 1 <= b.2) R) by (rewrite Elx in F1; apply Forall_app in F1; apply F1). destruct HN as [-> | ->]; [done|]. constructor; [cbn; lia|done].
    + apply Forall_forall. intros [a u] Hin. cbn. assert (1 <= u /\ size (mh s a) = u) as [Hu Hsz].
      { rewrite Forall_forall in Hv. apply (Hv (a, u)). apply elem_of_app in Hin as [Hin|Hin]; apply elem_of_app; [by left|right; by constructor]. }
      split; [done|]. rewrite Hh', Hh1; [done|by eapply live_distinct|]. intros ->.
      assert ((p, u) ∈ v1 ++ (bp, sb) :: v2) as Hin' by (apply elem_of_app in Hin as [Hin|Hin]; apply elem_of_app; [by left|right; by constructor]).
      destruct l1 as [|x l1]; [destruct (Hl1 eq_refl) as [-> _]; destruct (block_range _ _ _ base u Hr (or_intror Hin') Hu); lia|].
      destruct (HP _ Hf) as (_ & F2 & _). specialize (F2 ltac:(done)). cbn in F2.
      assert ((p, sp) ∈ fl) as Hpf by (injection E as _ ->; apply elem_of_app; right; by constructor).
      pose proof (blocks_apart _ _ _ _ _ _ _ Hr Hpf Hin' F2 Hu). lia.
    + rewrite <- Efl. unfold addrs. rewrite map_app. apply elem_of_app. right. cbn. constructor.
  - destruct HN as [-> | ->]; cbn in Hlen |- *; lia.
  - intros a Ha Hna. cbn. rewrite Hh', Hh1; [done|done|]. intros ->. apply Hna. rewrite E. unfold addrs. rewrite map_app. apply elem_of_app. right. cbn. constructor.
  - destruct (Z.eqb_spec (p + sp) bp) as [Ep|Ep]; injection Et as -> ->.
    + exists p, (sp + X). split_and!; [|lia|lia]. apply Hinp. intros ->. destruct (Hl1 eq_refl) as [-> ->]. lia.
    + exists bp, X. split_and!; [|lia|lia]. apply HinN. constructor.
Qed.

(** The header of a live block is no node of the ring. *)
Lemma live_not_node fl live s a u : ring base start fl live s -> (a, u) ∈ live -> a ∉ addrs ((base, 0) :: fl).
Proof.
  intros Hr Hin Ha. pose proof Hr as [_ _ _ Hf Hv _ Hst _]. assert (1 <= u) as Hu by (rewrite Forall_forall in Hv; apply (Hv _ Hin)).
  destruct (block_range _ _ _ a u Hr (or_intror Hin) Hu). cbn in Ha. apply elem_of_cons in Ha as [-> |Ha]; [lia|].
  apply list_elem_of_In, in_map_iff in Ha as ([b t] & Eb & Hb%list_elem_of_In). cbn in Eb. subst b.
  assert (1 <= t) as Ht by (rewrite Forall_forall in Hf; apply (Hf _ Hb)). pose proof (blocks_apart _ _ _ _ _ _ _ Hr Hb Hin Ht Hu). lia.
Qed.

Lemma nodes_distinct l : gaps l -> nonneg l -> NoDup (addrs l).
Proof.
  induction l as [|[a s] l IH]; intros Hg Hn; [constructor|]. pose proof Hn as Hn'. apply Forall_cons in Hn' as [Ha Hn']. cbn in Ha. constructor; [|apply IH; [by eapply gaps_tail|done]].
  intros Hin. apply list_elem_of_In, in_map_iff in Hin as ([b t] & Eb & Hb%list_elem_of_In). cbn in Eb. subst b. pose proof (gaps_lt _ _ _ _ _ Hg Hn' Hb). lia.
Qed.

Lemma chain_ptrs h x l e : chain h (x :: l) e -> map (fun a => ptr (h a)) (addrs (x :: l)) = addrs l ++ [e].
Proof.
  revert x. induction l as [|[b t] l IH]; intros [a s] Hc; cbn [chain addrs map fst app] in *; destruct Hc as (E & _ & Hc); rewrite E; [done|]. f_equal. by apply (IH (b, t)).
Qed.

(** Each node of the ring is pointed to by one node only. *)
Lemma ptr_inj fl live s a b : ring base start fl live s -> a ∈ addrs ((base, 0) :: fl) -> b ∈ addrs ((base, 0) :: fl) -> ptr (mh s a) = ptr (mh s b) -> a = b.
Proof.
  intros Hr Ha Hb E. pose proof (nodes_distinct _ (rg_gaps _ _ _ _ _ Hr) (ring_nonneg _ _ _ Hr)) as Hnd.
  pose proof (chain_ptrs _ _ _ _ (rg_chain _ _ _ _ _ Hr)) as Hm.
  assert (NoDup (map (fun a => ptr (mh s a)) (addrs ((base, 0) :: fl)))) as Hnd'.
  { rewrite Hm. cbn in Hnd. apply NoDup_cons in Hnd as [H1 H2]. apply NoDup_app. split_and!; [done|intros x Hx Hx'%list_elem_of_singleton; by subst|apply NoDup_singleton]. }
  apply list_elem_of_lookup in Ha as [i Hi]. apply list_elem_of_lookup in Hb as [j Hj].
  assert (i = j) as ->; [|congruence]. eapply NoDup_lookup; [exact Hnd'| |]; rewrite list_lookup_fmap; [rewrite Hi|rewrite Hj; cbn; by rewrite <- E]; reflexivity.
Qed.

(** The units of the live blocks, headers included, are the same in [s] and [s']. *)
Definition kept (live : list block) (s s' : mheap) : Prop := forall a t u, (a, t) ∈ live -> a <= u < a + t -> mh s' u = mh s u.

(** A unit of a live block is no node of the ring and in no free block. *)
Lemma live_unit fl live s a t u : ring base start fl live s -> (a, t) ∈ live -> a <= u < a + t ->
  u ∉ addrs ((base, 0) :: fl) /\ u < brk s /\ forall b k, (b, k) ∈ fl -> u < b \/ b + k <= u.
Proof.
  intros Hr Hin Hu. pose proof (rg_cover _ _ _ _ _ Hr u) as Hc. pose proof (cover_in u a t live Hin Hu) as H1. pose proof (cover_nonneg u fl) as H0.
  assert (forall b k, (b, k) ∈ fl -> u < b \/ b + k <= u) as Hfl.
  { intros b k Hb. destruct (Z.lt_ge_cases u b); [by left|]. destruct (Z.le_gt_cases (b + k) u); [by right|]. pose proof (cover_in u b k fl Hb ltac:(lia)). case_match; lia. }
  pose proof (rg_start _ _ _ _ _ Hr). destruct (Z.leb_spec start u), (Z.ltb_spec u (brk s)); cbn [andb] in Hc; try lia. split_and!; try done.
  intros Hn. apply elem_of_cons in Hn as [Hn|Hn]; [cbn in Hn; lia|]. apply list_elem_of_In, in_map_iff in Hn as ([b k] & Eb & Hb%list_elem_of_In). cbn in Eb. subst b.
  pose proof (rg_free _ _ _ _ _ Hr) as Hf. rewrite Forall_forall in Hf. specialize (Hf _ Hb). cbn in Hf. destruct (Hfl _ _ Hb); lia.
Qed.

(** free() writes nodes of the ring and the block's own header. *)
Lemma free_kept fl v1 bp sb v2 s s' : ring base start fl (v1 ++ (bp, sb) :: v2) s ->
  (forall a, a <> bp -> a ∉ addrs ((base, 0) :: fl) -> mh s' a = mh s a) -> kept (v1 ++ v2) s s'.
Proof.
  intros Hr H a t u Hin Hu. assert ((a, t) ∈ v1 ++ (bp, sb) :: v2) as Hin' by set_solver. apply H; [|by eapply live_unit].
  intros ->. pose proof (rg_cover _ _ _ _ _ Hr bp) as Hc. pose proof (rg_live _ _ _ _ _ Hr) as Hv. rewrite Forall_app, Forall_cons in Hv. destruct Hv as (_ & [Hsb _] & _). cbn in Hsb.
  pose proof (cover_in bp a t _ Hin Hu) as H1. rewrite cover_app in H1, Hc. cbn [cover] in Hc. pose proof (cover_nonneg bp fl). destruct (Z.leb_spec bp bp), (Z.ltb_spec bp (bp + sb)); try lia. cbn [andb] in Hc. case_match; lia.
Qed.

(** What malloc() does when it has found the node [p]. *)
Definition grab (nunits prevp p : Z) (s : mheap) : Z * mheap :=
  let h := mh s in
  if size (h p) =? nunits then
    (p + 1, mkMheap (set_hdr h prevp (mkHdr (ptr (h p)) (size (h prevp)))) prevp (brk s) (limit s))
  else
    let h := set_hdr h p (mkHdr (ptr (h p)) (u32 (size (h p) - nunits))) in
    let p := p + size (h p) in
    let h := set_hdr h p (mkHdr (ptr (h p)) nunits) in
    (p + 1, mkMheap h prevp (brk s) (limit s)).

Lemma malloc_loop_hit k nunits prevp p s : nunits <= size (mh s p) -> malloc_loop (S k) nunits prevp p s = Some (grab nunits prevp p s).
Proof. intros H. cbn [malloc_loop]. zb. unfold grab. case_match; done. Qed.

(** One round of the ring: the first node that fits, or the end of the round. *)
Lemma malloc_walk nunits s f sf e r prevp fuel :
  chain (mh s) (r ++ [(f, sf)]) e -> freep s = f -> (forall b, b ∈ r -> b.1 <> f) -> (length r < fuel)%nat ->
  ptr (mh s prevp) = match r with [] => f | (a, _) :: _ => a end ->
  (exists q prev sq, (q, sq) ∈ r ++ [(f, sf)] /\ nunits <= sq /\ ptr (mh s prev) = q /\ (prev = prevp \/ prev ∈ addrs r) /\
     malloc_loop fuel nunits prevp (ptr (mh s prevp)) s = Some (grab nunits prev q s)) \/
  (Forall (fun b => b.2 < nunits) (r ++ [(f, sf)]) /\
     malloc_loop fuel nunits prevp (ptr (mh s prevp)) s =
     match morecore (fuel - length r) nunits s with
     | None => None
     | Some (p, s) => if p =? 0 then Some (0, s) else malloc_loop (fuel - length r - 1) nunits p (ptr (mh s p)) s
     end).
Proof.
  intros Hc Hf. revert prevp fuel. induction r as [|[a t] r IH]; intros prevp fuel Hne Hl Hp; (destruct fuel as [|fuel]; [lia|]).
  - destruct Hc as (Ef & Sf & _). rewrite Hp. destruct (Z.le_gt_cases nunits sf).
    + left. exists f, prevp, sf. split_and!; [by constructor|done|done|by left|]. apply malloc_loop_hit. by rewrite Sf.
    + right. split; [by repeat constructor|]. cbn [malloc_loop length]. rewrite Sf. zb. rewrite !Nat.sub_0_r. cbn [Nat.sub]. rewrite Nat.sub_0_r. done.
  - destruct Hc as (Ea & Sa & Hc). rewrite Hp. destruct (Z.le_gt_cases nunits t).
    + left. exists a, prevp, t. split_and!; [by constructor|done|done|by left|]. apply malloc_loop_hit. by rewrite Sa.
    + assert (a <> f) by (apply (Hne (a, t)); constructor). cbn [malloc_loop]. rewrite Sa. zb.
      destruct (IH Hc a fuel) as [(q & prev & sq & Hin & Hq & Eq & Hprev & E)|[F E]].
      * intros b Hb. apply Hne. by constructor.
      * cbn in Hl. lia.
      * rewrite Ea. by destruct r as [|[]].
      * left. exists q, prev, sq. split_and!; [by constructor|done|done| |done]. destruct Hprev as [-> |Hprev]; right; cbn; [constructor|by constructor].
      * right. split; [by constructor|]. rewrite E. cbn [length]. replace (S fuel - S (length r))%nat with (fuel - length r)%nat by lia. done.
Qed.

Lemma ring_brk fl live s a t : ring base start fl live s -> (a, t) ∈ fl -> 1 <= t /\ start <= a /\ a + t <= brk s.
Proof. intros Hr Ha. assert (1 <= t) as Ht by (pose proof (rg_free _ _ _ _ _ Hr) as Hf; rewrite Forall_forall in Hf; apply (Hf _ Ha)). split; [done|]. by eapply block_range; [|left|]. Qed.

(** Two free blocks share no unit. *)
Lemma frees_apart fl live s a t b u : ring base start fl live s -> (a, t) ∈ fl -> (b, u) ∈ fl -> a <> b -> a + t < b \/ b + u < a.
Proof.
  intros Hr Ha Hb Hne. pose proof (rg_gaps _ _ _ _ _ Hr) as Hg. pose proof (ring_nonneg _ _ _ Hr) as Hn.
  apply list_elem_of_split in Ha as (l1 & l2 & E). assert ((base, 0) :: fl = ((base, 0) :: l1) ++ (a, t) :: l2) as E' by (by rewrite E). rewrite E' in Hg, Hn.
  destruct (gaps_split _ a t l2 b u Hg Hn) as [H1 H2]. rewrite E in Hb. apply elem_of_app in Hb as [Hb|Hb]; [right; apply H1; by constructor|].
  apply elem_of_cons in Hb as [[= -> ->]|Hb]; [done|]. left. by apply H2.
Qed.

Lemma ring_pred fl live s q sq prev : ring base start fl live s -> (q, sq) ∈ fl -> prev ∈ addrs ((base, 0) :: fl) -> ptr (mh s prev) = q ->
  exists m1 sa m2, (base, 0) :: fl = m1 ++ (prev, sa) :: (q, sq) :: m2.
Proof.
  intros Hr Hq Hprev Ep. apply list_elem_of_split in Hq as (l1 & m2 & E).
  destruct (exists_last (l := (base, 0) :: l1) ltac:(done)) as (m1 & [a sa] & E1).
  assert ((base, 0) :: fl = m1 ++ (a, sa) :: (q, sq) :: m2) as E2 by (rewrite E; change ((base, 0) :: l1 ++ (q, sq) :: m2) with (((base, 0) :: l1) ++ (q, sq) :: m2); rewrite E1, <- app_assoc; done).
  assert (prev = a) as ->; [|eauto]. eapply ptr_inj; [exact Hr|exact Hprev| |].
  - rewrite E2. unfold addrs. rewrite map_app. apply elem_of_app. right. cbn. constructor.
  - pose proof (rg_chain _ _ _ _ _ Hr) as Hc. rewrite E2 in Hc. apply chain_app in Hc as [_ (Ea & _)]. by rewrite Ea.
Qed.

(** The exact fit leaves the ring. *)
Lemma grab_exact fl live s m1 prev sa q n m2 : ring base start fl live s -> (base, 0) :: fl = m1 ++ (prev, sa) :: (q, n) :: m2 -> 1 <= n ->
  exists fl', ring base start fl' ((q, n) :: live) (mkMheap (set_hdr (mh s) prev (mkHdr (ptr (mh s q)) (size (mh s prev)))) prev (brk s) (limit s)).
Proof.
  intros Hr E Hn1. pose proof Hr as [Hc Hg Hcv Hf Hv Hfp Hst Hend]. pose proof (ring_nonneg _ _ _ Hr) as Hn. rewrite E in Hc, Hg, Hn.
  pose proof Hc as Hc'. apply chain_app in Hc' as (Hc1 & Ea & Sa & Eq & Sq & Hc2).
  destruct (around _ _ _ _ _ E sa m2) as (fl' & Efl & Hcfl & Hlen & Hlen0 & HP & HinN & Hinp & Hl1).
  { intros ->. cbn in E. by injection E. }
  assert (NoDup (addrs (m1 ++ (prev, sa) :: (q, n) :: m2))) as Hnd by (by apply nodes_distinct).
  unfold addrs in Hnd. rewrite map_app in Hnd. apply NoDup_app in Hnd as (_ & Hd1 & Hd2). cbn in Hd2. apply NoDup_cons in Hd2 as [Hd2 Hd3]. apply NoDup_cons in Hd3 as [Hd3 _].
  exists fl'. split; cbn [mh freep brk limit]; try done.
  - rewrite <- Efl. apply chain_app. split.
    + eapply hchain_ext; [|exact Hc1]. intros a Ha. apply set_hdr_ne. intros ->. apply (Hd1 _ Ha). cbn. constructor.
    + cbn [chain]. rewrite set_hdr_eq. split_and!; [by rewrite Eq; destruct m2 as [|[]]|done|]. eapply hchain_ext; [|exact Hc2]. intros a Ha. apply set_hdr_ne. intros ->. apply Hd2. cbn. by constructor.
  - rewrite <- Efl. apply gaps_join.
    + change ((prev, sa) :: (q, n) :: m2) with ([(prev, sa)] ++ (q, n) :: m2) in Hg. rewrite app_assoc in Hg. apply gaps_app in Hg. apply Hg.
    + apply gaps_app in Hg as [_ Hg]. destruct Hg as [G1 [G2 G3]]. split; [|done]. destruct m2 as [|[]]; [done|]. lia.
  - intros u. specialize (Hcv u). rewrite Hcfl. rewrite <- (cover_base u fl), E, cover_app in Hcv. cbn [cover] in *. lia.
  - destruct (HP _ Hf) as (F1 & F2 & F3). apply F3; [done|]. apply Forall_cons in F1. apply F1.
  - constructor.
    + cbn. split; [done|]. rewrite set_hdr_ne; [done|]. intros ->. apply Hd2. cbn. constructor.
    + eapply Forall_impl; [apply Forall_forall; intros b Hb; exact (conj Hb (proj1 (Forall_forall _ _) Hv b Hb))|]. intros [a u] (Hin & Hu & Hs). cbn in *. split; [done|].
      rewrite set_hdr_ne; [done|]. intros ->. eapply live_not_node; [exact Hr|exact Hin|]. rewrite E. unfold addrs. rewrite map_app. apply elem_of_app. right. cbn. constructor.
  - rewrite <- Efl. unfold addrs. rewrite map_app. apply elem_of_app. right. cbn. constructor.
Qed.

(** A larger block gives its end away. *)
Lemma grab_split fl live s m1 q sq n m2 prev x : ring base start fl live s -> fl = m1 ++ (q, sq) :: m2 -> 1 <= n < sq -> prev ∈ addrs ((base, 0) :: fl) ->
  exists fl', ring base start fl' ((q + (sq - n), n) :: live)
    (mkMheap (set_hdr (set_hdr (mh s) q (mkHdr (ptr (mh s q)) (sq - n))) (q + (sq - n)) (mkHdr x n)) prev (brk s) (limit s)).
Proof.
  intros Hr E Hn1 Hprev. pose proof Hr as [Hc Hg Hcv Hf Hv Hfp Hst Hend]. pose proof (ring_nonneg _ _ _ Hr) as Hn.
  set (z := q + (sq - n)). set (ns := (base, 0) :: fl) in *. set (l1 := (base, 0) :: m1). assert (ns = l1 ++ (q, sq) :: m2) as En by (unfold ns; by rewrite E).
  assert ((q, sq) ∈ fl) as Hq by (rewrite E; apply elem_of_app; right; by constructor). destruct (ring_brk _ _ _ _ _ Hr Hq) as (Hsq & Hq1 & Hq2).
  assert (z ∉ addrs ns) as Hz.
  { intros Hin. cbn in Hin. apply elem_of_cons in Hin as [Hin|Hin]; [unfold z in *; lia|]. apply list_elem_of_In, in_map_iff in Hin as ([b t] & Eb & Hb%list_elem_of_In). cbn in Eb.
    assert (1 <= t) by (apply (ring_brk _ _ _ _ _ Hr Hb)). destruct (decide (q = b)) as [->|Hne]; [unfold z in *; lia|]. pose proof (frees_apart _ _ _ _ _ _ _ Hr Hq Hb Hne). unfold z in *. lia. }
  rewrite En in Hc, Hg, Hn, Hz.
  assert (NoDup (addrs (l1 ++ (q, sq) :: m2))) as Hnd by (by apply nodes_distinct).
  unfold addrs in Hnd. rewrite map_app in Hnd. apply NoDup_app in Hnd as (_ & Hd1 & Hd2). cbn in Hd2. apply NoDup_cons in Hd2 as [Hd2 _].
  unfold addrs in Hz. rewrite map_app in Hz. apply not_elem_of_app in Hz as [Hz1 Hz2]. cbn in Hz2. apply not_elem_of_cons in Hz2 as [Hzq Hz2].
  apply chain_app in Hc as (Hc1 & Eq & Sq & Hc2).
  exists (m1 ++ (q, sq - n) :: m2). split; cbn [mh freep brk limit]; try done.
  - change ((base, 0) :: m1 ++ (q, sq - n) :: m2) with (l1 ++ (q, sq - n) :: m2). apply chain_app. split.
    + eapply hchain_ext; [|exact Hc1]. intros a Ha. rewrite !set_hdr_ne; [done| |]; intros ->; [apply (Hd1 _ Ha); cbn; constructor|by apply Hz1].
    + cbn [chain]. rewrite set_hdr_ne, set_hdr_eq by done. split_and!; [by rewrite Eq|done|]. eapply hchain_ext; [|exact Hc2]. intros a Ha. rewrite !set_hdr_ne; [done| |]; intros ->; [by apply Hd2|by apply Hz2].
  - change ((base, 0) :: m1 ++ (q, sq - n) :: m2) with (l1 ++ (q, sq - n) :: m2). apply gaps_join.
    + apply (gaps_last l1 q sq). change ((q, sq) :: m2) with ([(q, sq)] ++ m2) in Hg. rewrite app_assoc in Hg. apply gaps_app in Hg. apply Hg.
    + apply gaps_app in Hg as [_ Hg]. destruct Hg as [G1 G2]. split; [|done]. destruct m2 as [|[]]; [done|]. lia.
  - intros u. specialize (Hcv u). rewrite E, cover_app in Hcv. replace sq with (sq - n + n) in Hcv by lia. rewrite cover_split in Hcv by lia. rewrite cover_app. cbn [cover] in *. unfold z in *. lia.
  - rewrite E in Hf. apply Forall_app in Hf as [F1 F2]. apply Forall_cons in F2 as [_ F2]. apply Forall_app. split; [done|]. constructor; [cbn; lia|done].
  - constructor; [cbn; rewrite set_hdr_eq; cbn; lia|]. apply Forall_forall. intros [a u] Hin. rewrite Forall_forall in Hv. destruct (Hv _ Hin) as [Hu Hs]. cbn in *. split; [done|].
    pose proof (blocks_apart _ _ _ _ _ _ _ Hr Hq Hin Hsq Hu). rewrite !set_hdr_ne by (unfold z; lia). done.
  - unfold ns in Hprev. rewrite E in Hprev. cbn in Hprev |- *. unfold addrs in *. rewrite map_app in *. cbn in *. done.
Qed.

(** malloc() writes nodes of the ring and the end of a free block. *)
Lemma grab_kept fl live s nunits prev q sq : ring base start fl live s -> (q, sq) ∈ fl -> size (mh s q) = sq -> 1 <= nunits <= sq ->
  prev ∈ addrs ((base, 0) :: fl) -> kept live s (grab nunits prev q s).2.
Proof.
  intros Hr Hq Sq Hn Hprev a t u Hin Hu. destruct (live_unit _ _ _ _ _ _ Hr Hin Hu) as (Hnode & _ & Hfl). specialize (Hfl _ _ Hq).
  assert (u <> prev) by (by intros ->). destruct (ring_brk _ _ _ _ _ Hr Hq) as (? & ? & ?). pose proof (rg_end _ _ _ _ _ Hr). pose proof (rg_start _ _ _ _ _ Hr).
  unfold grab. rewrite Sq. destruct (Z.eqb_spec sq nunits); cbn [snd mh]; [by rewrite set_hdr_ne|]. rewrite set_hdr_eq. cbn [size]. rewrite u32_small by lia. by rewrite !set_hdr_ne by lia.
Qed.

(** malloc() takes what it found. *)
Lemma grab_ok fl live s nunits prev q sq : ring base start fl live s -> (q, sq) ∈ (base, 0) :: fl -> 1 <= nunits <= sq ->
  prev ∈ addrs ((base, 0) :: fl) -> ptr (mh s prev) = q ->
  exists a s' fl', grab nunits prev q s = (a + 1, s') /\ ring base start fl' ((a, nunits) :: live) s' /\ brk s' = brk s /\ limit s' = limit s /\ kept live s s'.
Proof.
  intros Hr Hin Hn Hprev Ep. assert ((q, sq) ∈ fl) as Hq by (apply elem_of_cons in Hin as [[= -> ->]|Hin]; [lia|done]).
  destruct (ring_pred _ _ _ _ _ _ Hr Hq Hprev Ep) as (m1 & sa & m2 & E).
  assert (size (mh s q) = sq) as Sq.
  { pose proof (rg_chain _ _ _ _ _ Hr) as Hc. rewrite E in Hc. apply chain_app in Hc as (_ & _ & _ & _ & ? & _). done. }
  pose proof (grab_kept _ _ _ _ _ _ _ Hr Hq Sq Hn Hprev) as Hk. unfold grab in *. rewrite Sq in *. destruct (Z.eqb_spec sq nunits) as [->|Hne].
  - destruct (grab_exact _ _ _ _ _ _ _ _ _ Hr E ltac:(lia)) as (fl' & Hring). eexists q, _, fl'. split; [reflexivity|]. done.
  - rewrite set_hdr_eq in *. cbn [size] in *. destruct (ring_brk _ _ _ _ _ Hr Hq) as (? & ? & ?). pose proof (rg_end _ _ _ _ _ Hr). pose proof (rg_start _ _ _ _ _ Hr). rewrite u32_small in * by lia.
    apply list_elem_of_split in Hq as (k1 & k2 & Ek).
    destruct (grab_split fl live s k1 q sq nunits k2 prev (ptr (set_hdr (mh s) q (mkHdr (ptr (mh s q)) (sq - nunits)) (q + (sq - nunits)))) Hr Ek ltac:(lia) Hprev) as (fl' & Hring).
    eexists (q + (sq - nunits)), _, fl'. split; [reflexivity|]. done.
Qed.

(** morecore(): refused by sbrk(), or the ring has a block of the new units. *)
Lemma morecore_ok fl live s nunits fuel : ring base start fl live s -> 1 <= nunits < 2 ^ 27 -> limit s < 2 ^ 31 -> (2 * S (length fl) <= fuel)%nat ->
  (limit s < brk s + Z.max 4096 nunits /\ morecore fuel nunits s = Some (0, s)) \/
  exists s' fl' a t, morecore fuel nunits s = Some (freep s', s') /\ freep s' <> 0 /\ ring base start fl' live s' /\ limit s' = limit s /\
    (length fl' <= S (length fl))%nat /\ (a, t) ∈ fl' /\ nunits <= t /\ kept live s s'.
Proof.
  intros Hr Hn Hlim Hfuel. unfold morecore. replace (if nunits <? 4096 then 4096 else nunits) with (Z.max 4096 nunits) by (case_match; lia).
  set (nu := Z.max 4096 nunits) in *. assert (nunits <= nu < 2 ^ 27) as Hnu by lia. unfold sbrk. rewrite s32_small by lia.
  destruct (Z.ltb_spec 0 (nu * 16)); [|lia].
  pose proof Hr as [Hc Hg Hcv Hf Hv Hfp Hst Hend].
  destruct (Z.ltb_spec (16 * limit s) (16 * brk s + nu * 16)); [left; split; [lia|done]|].
  replace ((16 * brk s + nu * 16) / 16) with (brk s + nu) by (rewrite <- (Z.mul_comm (brk s)), <- Z.mul_add_distr_r, Z.div_mul by lia; done).
  rewrite (proj2 (Z.eqb_neq _ _)) by lia. cbn [mh freep brk limit].
  set (s1 := mkMheap _ _ _ _).
  assert (forall a t, (a, t) ∈ fl \/ (a, t) ∈ live -> 1 <= t -> a <> brk s) as Hnew by (intros a t Hin Ht; pose proof (block_range _ _ _ a t Hr Hin Ht); lia).
  assert (ring base start fl ((brk s, nu) :: live) s1) as Hr1.
  { split; cbn [mh freep brk limit s1]; try done.
    - eapply hchain_ext; [|exact Hc]. intros a Ha. apply set_hdr_ne. cbn in Ha. apply elem_of_cons in Ha as [->|Ha]; [lia|].
      apply list_elem_of_In, in_map_iff in Ha as ([b t] & <- & Hb%list_elem_of_In). cbn. apply (Hnew b t); [by left|]. rewrite Forall_forall in Hf. apply (Hf _ Hb).
    - intros u. specialize (Hcv u). cbn [cover]. destruct (Z.leb_spec start u), (Z.ltb_spec u (brk s)), (Z.leb_spec (brk s) u), (Z.ltb_spec u (brk s + nu)); cbn [andb] in *; lia.
    - constructor; [cbn; rewrite set_hdr_eq; cbn; lia|]. apply Forall_forall. intros [a u] Hin. rewrite Forall_forall in Hv. destruct (Hv _ Hin) as [Hu Hs]. cbn in *. split; [done|]. rewrite set_hdr_ne; [done|]. by eapply Hnew; [right|].
    - lia. }
  destruct (free_ok fl [] (brk s) nu live s1 fuel Hr1 Hfuel) as (s' & fl' & Es & Hr' & Hb' & Hl' & Hlen & Hh & a & t & Hin & H1 & H2).
  right. exists s', fl', a, t. rewrite Es. split_and!; try done; [|lia|].
  2: { intros b k u Hbk Hu. rewrite (free_kept fl [] (brk s) nu live s1 s' Hr1 Hh b k u Hbk Hu). apply set_hdr_ne. pose proof (live_unit _ _ _ _ _ _ Hr Hbk Hu). lia. }
  pose proof (rg_freep _ _ _ _ _ Hr') as Hfp'. cbn in Hfp'. apply elem_of_cons in Hfp' as [->|Hfp']; [lia|].
  apply list_elem_of_In, in_map_iff in Hfp' as ([b u] & <- & Hb%list_elem_of_In). cbn. pose proof (ring_brk _ _ _ _ _ Hr' Hb). lia.
Qed.

(** A stretch without live units lies in one free block. *)
Lemma free_stretch fl live s a k : ring base start fl live s -> (forall u, a <= u < a + Z.of_nat (S k) -> 1 <= cover u fl) ->
  exists b t, (b, t) ∈ fl /\ b <= a /\ a + Z.of_nat (S k) <= b + t.
Proof.
  assert (forall u l, 1 <= cover u l -> exists b t, (b, t) ∈ l /\ b <= u < b + t) as Hone.
  { intros u l. induction l as [|[b t] l IH]; cbn [cover]; [lia|]. destruct (Z.leb_spec b u), (Z.ltb_spec u (b + t)); cbn [andb]; intros H1;
      try (destruct IH as (b' & t' & ? & ?); [lia|]; exists b', t'; split; [by constructor|done]). exists b, t. split; [constructor|lia]. }
  intros Hr. induction k as [|k IH]; intros H.
  - destruct (Hone a fl (H a ltac:(lia))) as (b & t & Hin & Hb). exists b, t. split_and!; [done|lia|lia].
  - destruct IH as (b & t & Hin & H1 & H2); [intros; apply H; lia|]. destruct (Hone (a + Z.of_nat (S k)) fl (H (a + Z.of_nat (S k)) ltac:(lia))) as (b' & t' & Hin' & Hb').
    destruct (decide (b = b')) as [<-|Hne].
    + exists b, t'. split_and!; [done|done|lia].
    + pose proof (frees_apart _ _ _ _ _ _ _ Hr Hin Hin' Hne). lia.
Qed.

(** The ring as the loop of malloc() goes round it: [freep] comes last. *)
Lemma ring_rotate fl live s : ring base start fl live s ->
  exists r sf, chain (mh s) (r ++ [(freep s, sf)]) (match r with [] => freep s | (a, _) :: _ => a end) /\ (forall b, b ∈ r -> b.1 <> freep s) /\
    length r = length fl /\ (forall b, b ∈ r ++ [(freep s, sf)] <-> b ∈ (base, 0) :: fl) /\
    ptr (mh s (freep s)) = match r with [] => freep s | (a, _) :: _ => a end.
Proof.
  intros Hr. pose proof Hr as [Hc Hg _ _ _ Hfp _ _]. pose proof (nodes_distinct _ Hg (ring_nonneg _ _ _ Hr)) as Hnd.
  apply list_elem_of_In, in_map_iff in Hfp as ([f sf] & Ef & Hf%list_elem_of_In). cbn in Ef. subst f. apply list_elem_of_split in Hf as (l1 & l2 & E).
  assert (length fl = length (l1 ++ l2))%nat as Hlen by (pose proof (f_equal length E) as H; rewrite length_app in *; cbn in H; lia).
  rewrite E in Hc, Hnd |- *. apply chain_app in Hc as [Hc1 Hc2]. pose proof Hc2 as (Ep & Sf & Hc3).
  assert (base = match l1 with [] => freep s | (a, _) :: _ => a end) as Eb by (destruct l1 as [|[]]; cbn in E; congruence).
  exists (l2 ++ l1), sf. split_and!.
  - rewrite <- app_assoc. apply chain_app. split; [eapply chain_end; [|exact Hc3]; destruct l1 as [|[]]; done|]. apply chain_app. split; [done|]. cbn [chain]. split_and!; [|done|done].
    rewrite Ep, Eb. destruct l2 as [|[]]; cbn; [by destruct l1 as [|[]]|done].
  - intros [b t] Hb Eq. cbn in Eq. subst b. unfold addrs in Hnd. rewrite map_app in Hnd. apply NoDup_app in Hnd as (_ & H1 & H2). cbn in H2. apply NoDup_cons in H2 as [H2 _].
    apply elem_of_app in Hb as [Hb|Hb]; [apply H2|apply (H1 (freep s)); [|cbn; constructor]]; apply list_elem_of_In, in_map_iff; exists (freep s, t); (split; [done|by apply list_elem_of_In]).
  - rewrite length_app in *. lia.
  - intros b. rewrite !elem_of_app, elem_of_cons, elem_of_cons, elem_of_nil. tauto.
  - rewrite Ep, Eb. destruct l2 as [|[]]; cbn; [by destruct l1 as [|[]]|done].
Qed.

(** The loop of malloc() from a ring that has a block that fits. *)
Lemma malloc_fits fl live s nunits fuel a t : ring base start fl live s -> 1 <= nunits -> (a, t) ∈ fl -> nunits <= t -> (S (length fl) <= fuel)%nat ->
  exists q s' fl', malloc_loop fuel nunits (freep s) (ptr (mh s (freep s))) s = Some (q + 1, s') /\ ring base start fl' ((q, nunits) :: live) s' /\ brk s' = brk s /\ limit s' = limit s /\ kept live s s'.
Proof.
  intros Hr Hn Ha Ht Hfuel. destruct (ring_rotate _ _ _ Hr) as (r & sf & Hc & Hne & Hlen & Hin & Hp).
  destruct (malloc_walk nunits s (freep s) sf _ r (freep s) fuel Hc eq_refl Hne ltac:(lia) Hp) as [(q & prev & sq & Hq & Hfit & Ep & Hprev & E)|[F _]].
  - destruct (grab_ok fl live s nunits prev q sq Hr) as (z & s' & fl' & Eg & Hg); [by apply Hin|lia| |done|].
    + destruct Hprev as [->|Hprev]; [apply (rg_freep _ _ _ _ _ Hr)|]. apply list_elem_of_In, in_map_iff in Hprev as ([b u] & <- & Hb%list_elem_of_In).
      apply list_elem_of_In, in_map_iff. exists (b, u). split; [done|]. apply list_elem_of_In, Hin, elem_of_app. by left.
    + exists z, s', fl'. rewrite E, Eg. done.
  - exfalso. rewrite Forall_forall in F. specialize (F (a, t) (proj2 (Hin (a, t)) ltac:(by constructor))). cbn in F. lia.
Qed.

Lemma units_range n : 0 <= n <= 2 ^ 31 - 32 -> 1 <= units n < 2 ^ 27 /\ n + 16 <= 16 * units n.
Proof. intros Hn. unfold units. rewrite u32_small by dlia. dlia. Qed.

(** malloc(): null, when sbrk() refuses and no stretch of memory is free, or a
    new block of the size asked for. *)
Definition malloc_post (live : list block) (s : mheap) (n p : Z) (s' : mheap) : Prop :=
  (p = 0 /\ heap_ok base start live s' /\ brk s' = brk s /\ limit s < brk s + Z.max 4096 (units n) /\
    forall a, start <= a -> a + units n <= brk s -> exists u, a <= u < a + units n /\ 1 <= cover u live) \/
  (exists a, p = a + 1 /\ heap_ok base start ((a, units n) :: live) s' /\ start <= a /\ a + units n <= brk s').

Lemma malloc_ring fl live s n fuel : ring base start fl live s -> 0 <= n <= 2 ^ 31 - 32 -> limit s < 2 ^ 31 -> (3 * length fl + 6 <= fuel)%nat ->
  exists p s', malloc_loop fuel (units n) (freep s) (ptr (mh s (freep s))) s = Some (p, s') /\ limit s' = limit s /\ malloc_post live s n p s' /\ kept live s s'.
Proof.
  intros Hr Hn Hlim Hfuel. destruct (units_range n Hn) as [Hu _]. destruct (ring_rotate _ _ _ Hr) as (r & sf & Hc & Hne & Hlen & Hin & Hp).
  assert (forall q s1 fl1, ring base start fl1 ((q, units n) :: live) s1 -> malloc_post live s n (q + 1) s1) as Hpost.
  { intros q s1 fl1 Hr1. right. exists q. assert ((q, units n) ∈ (q, units n) :: live) as H1 by constructor.
    destruct (block_range _ _ _ q (units n) Hr1 (or_intror H1) ltac:(lia)). split_and!; try done. left. by exists fl1. }
  destruct (malloc_walk (units n) s (freep s) sf _ r (freep s) fuel Hc eq_refl Hne ltac:(lia) Hp) as [(q & prev & sq & Hq & Hfit & _)|[F E]].
  - destruct (malloc_fits fl live s (units n) fuel q sq Hr ltac:(lia)) as (z & s' & fl' & E' & Hg & Hb & Hl & Hk); [|done|lia|].
    + apply Hin in Hq. apply elem_of_cons in Hq as [[= -> ->]|Hq]; [lia|done].
    + exists (z + 1), s'. rewrite E'. split_and!; try done. by eapply Hpost.
  - rewrite E, Hlen. destruct (morecore_ok fl live s (units n) (fuel - length fl) Hr Hu Hlim ltac:(lia)) as [[Hl ->]|(s1 & fl1 & a & t & -> & Hf0 & Hr1 & Hl1 & Hlen1 & Hin1 & Ht & Hk1)].
    + exists 0, s. split_and!; try done. left. split_and!; try done; [left; by exists fl|]. intros a Ha1 Ha2.
      destruct (decide (Exists (fun u => 1 <= cover u live) (seqZ a (units n)))) as [H|H].
      { apply Exists_exists in H as (u & Hu1%elem_of_seqZ & Hu2). eauto. }
      exfalso. destruct (free_stretch fl live s a (Z.to_nat (units n - 1)) Hr) as (b & t & Hb & H1 & H2).
      * intros u Hu1. destruct (Z.le_gt_cases 1 (cover u live)) as [Hc1|Hc1]; [exfalso; apply H; apply Exists_exists; exists u; split; [apply elem_of_seqZ; lia|done]|].
        pose proof (rg_cover _ _ _ _ _ Hr u) as Hcv. pose proof (cover_nonneg u live). destruct (Z.leb_spec start u), (Z.ltb_spec u (brk s)); cbn [andb] in Hcv; lia.
      * rewrite Forall_forall in F. specialize (F (b, t) (proj2 (Hin (b, t)) ltac:(by constructor))). cbn in F. lia.
    + rewrite (proj2 (Z.eqb_neq _ _)) by done.
      destruct (malloc_fits fl1 live s1 (units n) (fuel - length fl - 1) a t Hr1 ltac:(lia) Hin1 Ht ltac:(lia)) as (z & s' & fl' & E' & Hg & Hb & Hl & Hk).
      exists (z + 1), s'. rewrite E'. split_and!; [done|by rewrite Hl|by eapply Hpost|]. intros b k u Hbk Hbu. by rewrite (Hk b k u Hbk Hbu), (Hk1 b k u Hbk Hbu).
Qed.

Lemma malloc_ok live s n : heap_ok base start live s -> 0 <= n <= 2 ^ 31 - 32 -> limit s < 2 ^ 31 ->
  exists F, forall fuel, (F <= fuel)%nat -> exists p s', malloc base fuel n s = Some (p, s') /\ limit s' = limit s /\ malloc_post live s n p s' /\ kept live s s'.
Proof.
  intros [[fl Hr]|(Hf & -> & Hb & Hst & Hend)] Hn Hlim; unfold malloc.
  - exists (3 * length fl + 6)%nat. intros fuel Hfuel. assert (freep s <> 0) as Hne.
    { pose proof (rg_freep _ _ _ _ _ Hr) as Hfp. pose proof (rg_start _ _ _ _ _ Hr). cbn in Hfp. apply elem_of_cons in Hfp as [->|Hfp]; [lia|].
      apply list_elem_of_In, in_map_iff in Hfp as ([b u] & <- & Hb%list_elem_of_In). cbn. pose proof (ring_brk _ _ _ _ _ Hr Hb). lia. }
    rewrite (proj2 (Z.eqb_neq _ _)) by done. by eapply malloc_ring.
  - exists 6%nat. intros fuel Hfuel. rewrite Hf, Z.eqb_refl. set (s1 := mkMheap _ _ _ _).
    assert (ring base start [] [] s1) as Hr.
    { split; cbn [mh freep brk limit s1]; [cbn [chain]; by rewrite set_hdr_eq|done| |constructor|constructor|cbn; constructor|lia|lia].
      intros u. cbn. destruct (Z.leb_spec start u), (Z.ltb_spec u (brk s)); cbn [andb]; lia. }
    destruct (malloc_ring [] [] s1 n fuel Hr Hn Hlim ltac:(cbn; lia)) as (p & s' & E & Hl & Hp & _). exists p, s'. split_and!; try done. by intros a t u ?%elem_of_nil.
Qed.
End Ring.

(** ** A program that allocates *)

(** What a program does: allocate, free its [i]th block, store into the body of
    its [i]th block; and what may happen meanwhile: the kernel can give more or
    less memory. *)
Inductive heap_op := Malloc (nbytes : Z) | Free (i : nat) | Store (i : nat) (u : Z) (x : hdr) | Limit (l : Z).

Definition step_heap (base : Z) (fuel : nat) (o : heap_op) (c : list block * mheap) : option (list block * mheap) :=
  let '(live, s) := c in
  match o with
  | Malloc n =>
      match malloc base fuel n s with
      | None => None
      | Some (p, s) => Some (if p =? 0 then (live, s) else ((p - 1, units n) :: live, s))
      end
  | Free i =>
      match live !! i with
      | None => Some (live, s)
      | Some (a, _) => match free fuel (a + 1) s with None => None | Some s => Some (delete i live, s) end
      end
  | Store i u x =>
      match live !! i with
      | None => Some (live, s)
      | Some (a, t) =>
          if (a <? u) && (u <? a + t) then Some (live, mkMheap (set_hdr (mh s) u x) (freep s) (brk s) (limit s)) else Some (live, s)
      end
  | Limit l => Some (live, mkMheap (mh s) (freep s) (brk s) l)
  end.

Fixpoint run_heap (base : Z) (fuel : nat) (ops : list heap_op) (c : list block * mheap) : option (list block * mheap) :=
  match ops with
  | [] => Some c
  | o :: ops => match step_heap base fuel o c with None => None | Some c => run_heap base fuel ops c end
  end.

Definition legal_heap_op (o : heap_op) : Prop :=
  match o with Malloc n => 0 <= n <= 2 ^ 31 - 32 | Limit l => l < 2 ^ 31 | _ => True end.

Lemma cover_two u live i j a t b k : i <> j -> live !! i = Some (a, t) -> live !! j = Some (b, k) -> a <= u < a + t -> b <= u < b + k -> 2 <= cover u live.
Proof.
  intros Hij Hi Hj Hu Hk. revert i j Hi Hj Hij. induction live as [|[c m] live IH]; intros i j Hi Hj Hij; [done|]. cbn [cover].
  destruct i as [|i], j as [|j]; cbn in Hi, Hj; [done| | |].
  - injection Hi as -> ->. pose proof (cover_in u b k live (list_elem_of_lookup_2 _ _ _ Hj) ltac:(lia)). zb. cbn [andb]. lia.
  - injection Hj as -> ->. pose proof (cover_in u a t live (list_elem_of_lookup_2 _ _ _ Hi) ltac:(lia)). zb. cbn [andb]. lia.
  - specialize (IH i j Hi Hj ltac:(by intros ->)). case_match; lia.
Qed.

(** The body of a live block is no header of the allocator. *)
Lemma heap_store base start live s i a t u x : heap_ok base start live s -> live !! i = Some (a, t) -> a < u < a + t ->
  heap_ok base start live (mkMheap (set_hdr (mh s) u x) (freep s) (brk s) (limit s)).
Proof.
  intros [[fl Hr]|(H1 & -> & H2)] Hi Hu; [|done]. left. exists fl. pose proof Hr as [Hc Hg Hcv Hf Hv Hfp Hst Hend].
  pose proof (list_elem_of_lookup_2 _ _ _ Hi) as Hin. assert (1 <= t) as Ht by (rewrite Forall_forall in Hv; apply (Hv _ Hin)).
  destruct (block_range base start _ _ _ a t Hr (or_intror Hin) Ht) as [Ha1 Ha2].
  split; cbn [mh freep brk limit]; try done.
  - eapply hchain_ext; [|exact Hc]. intros b Hb. apply set_hdr_ne. cbn in Hb. apply elem_of_cons in Hb as [->|Hb]; [lia|].
    apply list_elem_of_In, in_map_iff in Hb as ([c k] & <- & Hb%list_elem_of_In). cbn. pose proof (ring_brk base start _ _ _ _ _ Hr Hb) as [Hk _].
    pose proof (blocks_apart base start _ _ _ _ _ _ _ Hr Hb Hin Hk Ht). lia.
  - apply Forall_forall. intros [b k] Hb. rewrite Forall_forall in Hv. destruct (Hv _ Hb) as [Hk Hs]. cbn in *. split; [done|]. rewrite set_hdr_ne; [done|]. intros ->.
    apply list_elem_of_lookup in Hb as [j Hj]. assert (i <> j) as Hij by (intros ->; rewrite Hi in Hj; injection Hj as <- <-; lia).
    pose proof (cover_two u live i j a t u k Hij Hi Hj ltac:(lia) ltac:(lia)).
    specialize (Hcv u). pose proof (cover_nonneg u fl). case_match; lia.
Qed.

(** Two live blocks share no unit. *)
Lemma heap_apart base start live s i j a t b u : heap_ok base start live s -> i <> j -> live !! i = Some (a, t) -> live !! j = Some (b, u) -> a + t <= b \/ b + u <= a.
Proof.
  intros [[fl Hr]|(_ & -> & _)] Hij Hi Hj; [|done]. pose proof Hr as [_ _ Hcv _ Hv _ _ _]. rewrite Forall_forall in Hv.
  pose proof (proj1 (Hv _ (list_elem_of_lookup_2 _ _ _ Hi))) as Ht. pose proof (proj1 (Hv _ (list_elem_of_lookup_2 _ _ _ Hj))) as Hu. cbn in Ht, Hu.
  destruct (Z.le_gt_cases (a + t) b); [by left|]. destruct (Z.le_gt_cases (b + u) a); [by right|]. exfalso. set (x := Z.max a b).
  assert (2 <= cover x live) as H2 by (eapply cover_two; [exact Hij|exact Hi|exact Hj|unfold x; lia|unfold x; lia]).
  specialize (Hcv x). pose proof (cover_nonneg x fl). case_match; lia.
Qed.

Lemma heap_free base start live s i a t : heap_ok base start live s -> live !! i = Some (a, t) ->
  exists F, forall fuel, (F <= fuel)%nat -> exists s', free fuel (a + 1) s = Some s' /\ heap_ok base start (delete i live) s' /\ limit s' = limit s /\ brk s' = brk s /\ kept (delete i live) s s'.
Proof.
  intros [[fl Hr]|(H1 & -> & H2)] Hi; [|done]. pose proof (delete_take_drop live i) as Ed. pose proof (take_drop_middle live i (a, t) Hi) as Em. rewrite <- Em in Hr.
  exists (2 * S (length fl))%nat. intros fuel Hfuel. destruct (free_ok base start _ _ _ _ _ _ _ Hr Hfuel) as (s' & fl' & E & Hr' & Hb & Hl & _ & Hh & _). exists s'. rewrite Ed.
  split_and!; try done; [left; by exists fl'|]. by eapply free_kept.
Qed.

(** More fuel does not change an answer. *)
Lemma free_mono k k' a s s' : free k a s = Some s' -> (k <= k')%nat -> free k' a s = Some s'.
Proof. unfold free. intros H Hk. destruct (free_find k _ _ _) as [p|] eqn:E; [|done]. by rewrite (free_find_mono _ _ _ _ _ _ E Hk). Qed.
Lemma morecore_mono k k' n s r : morecore k n s = Some r -> (k <= k')%nat -> morecore k' n s = Some r.
Proof.
  unfold morecore. intros H Hk. destruct (sbrk _ s) as [p s1]. destruct (p =? -1); [done|].
  destruct (free k _ _) as [s2|] eqn:E; [|done]. by rewrite (free_mono _ _ _ _ _ E Hk).
Qed.
Lemma malloc_loop_mono k k' n prevp p s r : malloc_loop k n prevp p s = Some r -> (k <= k')%nat -> malloc_loop k' n prevp p s = Some r.
Proof.
  revert k' prevp p s. induction k as [|k IH]; intros k' prevp p s H Hk; [done|]. destruct k' as [|k']; [lia|]. cbn [malloc_loop] in *.
  destruct (n <=? size (mh s p)); [done|]. destruct (p =? freep s); [|apply IH; [done|lia]].
  destruct (morecore (S k) n s) as [[q s1]|] eqn:E; [|done]. rewrite (morecore_mono _ (S k') _ _ _ E) by lia. destruct (q =? 0); [done|]. apply IH; [done|lia].
Qed.
Lemma step_heap_mono base k k' o c r : step_heap base k o c = Some r -> (k <= k')%nat -> step_heap base k' o c = Some r.
Proof.
  destruct c as [live s], o as [n|i|i u x|l]; cbn [step_heap]; intros H Hk; try done.
  - unfold malloc in *. destruct (malloc_loop k _ _ _ _) as [[p s1]|] eqn:E; [|done]. by rewrite (malloc_loop_mono _ _ _ _ _ _ _ E Hk).
  - destruct (live !! i) as [[a t]|]; [|done]. destruct (free k _ _) as [s1|] eqn:E; [|done]. by rewrite (free_mono _ _ _ _ _ E Hk).
Qed.

Lemma step_heap_ok base start o live s : heap_ok base start live s -> limit s < 2 ^ 31 -> legal_heap_op o ->
  exists F live' s', step_heap base F o (live, s) = Some (live', s') /\ heap_ok base start live' s' /\ limit s' < 2 ^ 31.
Proof.
  intros Hh Hlim Ho. destruct o as [n|i|i u x|l]; cbn [step_heap legal_heap_op] in *.
  - destruct (malloc_ok base start live s n Hh Ho Hlim) as (F & H). exists F. destruct (H F (Nat.le_refl F)) as (p & s' & E & Hl & Hp & _). rewrite E.
    destruct Hp as [(-> & Hh' & _)|(a & -> & Hh' & Ha & _)].
    + exists live, s'. rewrite Hl. done.
    + eexists _, s'. rewrite (proj2 (Z.eqb_neq _ _)); [|destruct Hh as [[fl Hr]|(_ & _ & _ & ?)]; [pose proof (rg_start _ _ _ _ _ Hr)|]; lia].
      split; [reflexivity|]. replace (a + 1 - 1) with a by lia. rewrite Hl. done.
  - destruct (live !! i) as [[a t]|] eqn:Hi; [|exists O, live, s; done]. destruct (heap_free base start live s i a t Hh Hi) as (F & H). exists F.
    destruct (H F (Nat.le_refl F)) as (s' & E & Hh' & Hl & _). rewrite E. exists (delete i live), s'. rewrite Hl. done.
  - exists O. destruct (live !! i) as [[a t]|] eqn:Hi; [|by exists live, s]. destruct (Z.ltb_spec a u), (Z.ltb_spec u (a + t)); cbn [andb]; try (by exists live, s).
    eexists live, _. split; [reflexivity|]. split; [|done]. by eapply heap_store.
  - exists O. eexists live, _. split; [reflexivity|]. split; [|done]. destruct Hh as [[fl [? ? ? ? ? ? ? ?]]|H]; [left; exists fl; by split|by right].
Qed.

Lemma run_heap_ok base start ops live s : heap_ok base start live s -> limit s < 2 ^ 31 -> Forall legal_heap_op ops ->
  exists F live' s', (forall fuel, (F <= fuel)%nat -> run_heap base fuel ops (live, s) = Some (live', s')) /\ heap_ok base start live' s' /\ limit s' < 2 ^ 31.
Proof.
  intros Hh Hl Ho. revert live s Hh Hl. induction Ho as [|o ops Ho Hops IH]; intros live s Hh Hl; [by exists O, live, s|].
  destruct (step_heap_ok base start o live s Hh Hl Ho) as (F1 & live1 & s1 & E1 & Hh1 & Hl1). destruct (IH live1 s1 Hh1 Hl1) as (F2 & live2 & s2 & E2 & Hh2 & Hl2).
  exists (F1 + F2)%nat, live2, s2. split; [|done]. intros fuel Hf. cbn [run_heap]. rewrite (step_heap_mono _ _ fuel _ _ _ E1) by lia. apply E2. lia.
Qed.

(** C33: The allocator of user programs is correct for every program that frees
    what it allocated and stays inside its blocks.  Its loops end, whatever the
    order of calls; the blocks it has given out never overlap and lie in the
    program's memory; every unit of that memory is in exactly one live or free
    block, and free blocks that touch are merged.  In any heap so reached,
    malloc() of at most 2^31 - 32 bytes answers, it answers null only if sbrk()
    refuses and no stretch of memory of that size is free, and it leaves every
    word of the live blocks as it was; and free() of a live block answers and
    leaves the words of the others as they were. *)
Theorem malloc_free_correct base start ops s0 :
  freep s0 = 0 -> brk s0 = start -> 0 < base < start -> start < 2 ^ 31 -> limit s0 < 2 ^ 31 -> Forall legal_heap_op ops ->
  exists F live s, (forall fuel, (F <= fuel)%nat -> run_heap base fuel ops ([], s0) = Some (live, s)) /\
    heap_ok base start live s /\
    (forall i j a t b u, i <> j -> live !! i = Some (a, t) -> live !! j = Some (b, u) -> a + t <= b \/ b + u <= a) /\
    (forall i a t, live !! i = Some (a, t) -> start <= a /\ a + t <= brk s) /\
    (forall n, 0 <= n <= 2 ^ 31 - 32 -> exists F', forall fuel, (F' <= fuel)%nat -> exists p s', malloc base fuel n s = Some (p, s') /\
       (p = 0 -> limit s < brk s + Z.max 4096 (units n) /\
          forall a, start <= a -> a + units n <= brk s -> exists u, a <= u < a + units n /\ 1 <= cover u live) /\
       kept live s s') /\
    (forall i a t, live !! i = Some (a, t) -> exists F', forall fuel, (F' <= fuel)%nat -> exists s', free fuel (a + 1) s = Some s' /\
       kept (delete i live) s s').
Proof.
  intros Hf Hb Hst Hend Hlim Hops.
  destruct (run_heap_ok base start ops [] s0) as (F & live & s & E & Hh & Hl); [right; done|done|done|]. exists F, live, s. split; [exact E|]. split; [exact Hh|]. split_and!.
  - intros i j a t b u Hij Hi Hj. by eapply heap_apart.
  - intros i a t Hi. destruct Hh as [[fl Hr]|(_ & -> & _)]; [|done]. pose proof (list_elem_of_lookup_2 _ _ _ Hi) as Hin.
    eapply block_range; [exact Hr|by right|]. pose proof (rg_live _ _ _ _ _ Hr) as Hv. rewrite Forall_forall in Hv. apply (Hv _ Hin).
  - intros n Hn. destruct (malloc_ok base start live s n Hh Hn Hl) as (F' & H). exists F'. intros fuel Hfuel. destruct (H fuel Hfuel) as (p & s' & Ep & _ & Hp & Hk). exists p, s'. split; [exact Ep|].
    split; [|exact Hk]. intros ->. destruct Hp as [(_ & _ & _ & H1 & H2)|(a & Ha & _ & Ha' & _)]; [done|]. lia.
  - intros i a t Hi. destruct (heap_free base start live s i a t Hh Hi) as (F' & H). exists F'. intros fuel Hfuel. destruct (H fuel Hfuel) as (s' & E' & _ & _ & _ & Hk). eauto.
Qed.

(** Three blocks, the middle one freed and used again, then all freed. *)
Lemma malloc_free_correct_witness : exists F live s,
  (forall fuel, (F <= fuel)%nat ->
     run_heap 64 fuel [Malloc 100; Malloc 5000; Store 0 4000 (mkHdr 7 7); Malloc 40; Free 1; Malloc 200; Limit 0; Free 2; Free 0; Free 0; Malloc 65000]
       ([], mkMheap (fun _ => mkHdr 0 0) 0 256 100000) = Some (live, s)) /\ heap_ok 64 256 live s.
Proof.
  destruct (malloc_free_correct 64 256 [Malloc 100; Malloc 5000; Store 0 4000 (mkHdr 7 7); Malloc 40; Free 1; Malloc 200; Limit 0; Free 2; Free 0; Free 0; Malloc 65000]
    (mkMheap (fun _ => mkHdr 0 0) 0 256 100000)) as (F & live & s & H1 & H2 & _); try done.
  - repeat constructor; cbn; lia.
  - exists F, live, s. split; [exact H1|exact H2].
Defined.

(** A request of 2^31 bytes makes morecore() pass sbrk() a negative int, which
    answers without growing the memory: malloc() returns a block the program
    does not have. *)
Lemma malloc_huge_unbacked :
  match malloc 64 10 (2 ^ 31) (mkMheap (fun _ => mkHdr 0 0) 0 256 100000) with
  | Some (p, s) => p = 257 /\ brk s = 256
  | None => False
  end.
Proof. vm_compute. done. Qed.
