(* ===== verification/Sh.v ===== *)
(** * user/sh.c: the parser

    A position in the line is the suffix that starts there, so [s < es] is that
    the suffix is not empty and [*s] is its first byte, or the NUL at the end.  A
    string is the pair (q, eq) of positions the code stores in argv/eargv or
    file/efile, counted from the start of the line.  malloc() is taken to
    succeed.  The functions that call each other take fuel, and [parsecmd] gives
    them enough. *)
From S2P Require Import Prelude User Ulib.
From Stdlib Require Import ZArith Lia.
From stdpp Require Import strings.
Local Open Scope list_scope.
Local Open Scope Z_scope.

Definition MAXARGS : nat := 10.
Definition O_RDONLY : Z := 0x000.
Definition O_WRONLY : Z := 0x001.
Definition O_CREATE : Z := 0x200.
Definition O_TRUNC : Z := 0x400.

(** A counted string. *)
Abbreviation word := (Z * Z)%type.

(** struct cmd and its variants. *)
Inductive cmd :=
  | EXEC (argv : list word)
  | REDIR (c : cmd) (file : word) (mode fd : Z)
  | PIPE (left right : cmd)
  | LIST (left right : cmd)
  | BACK (c : cmd).

(** Result of a parsing function: panic() exits the shell's child. *)
Inductive parsed (A : Type) : Type := POk (a : A) | PPanic (msg : string) | POut.
Arguments POk {A} a.
Arguments PPanic {A} msg.
Arguments POut {A}.
Definition pbind {A B} (r : parsed A) (k : A -> parsed B) : parsed B :=
  match r with POk a => k a | PPanic m => PPanic m | POut => POut end.
Declare Scope parse_scope.
Notation "'do' p <- c ;; k" := (pbind c (fun p => k)) (at level 100, p pattern, c at next level, right associativity) : parse_scope.
Local Open Scope parse_scope.

Definition whitespace : list Z := [32; 9; 13; 10; 11].
(** The bytes of [<|>&;()]. *)
Definition symbols : list Z := [60; 124; 62; 38; 59; 40; 41].
Definition in_chars (l : list Z) (c : Z) : bool := match strchr l c with Some _ => true | None => false end.

Fixpoint skip_ws (s : list Z) : list Z :=
  match s with c :: r => if in_chars whitespace c then skip_ws r else s | [] => [] end.
Fixpoint skip_word (s : list Z) : list Z :=
  match s with c :: r => if negb (in_chars whitespace c) && negb (in_chars symbols c) then skip_word r else s | [] => [] end.

(** gettoken: the token's kind, where it starts and ends, and the new [*ps].
    97 is 'a', 43 is '+'. *)
Definition gettoken (s : list Z) : Z * list Z * list Z * list Z :=
  let q := skip_ws s in
  match q with
  | [] => (0, q, q, skip_ws q)
  | c :: r =>
      if (c =? 124) || (c =? 40) || (c =? 41) || (c =? 59) || (c =? 38) || (c =? 60) then (c, q, r, skip_ws r)
      else if c =? 62 then
        match r with
        | d :: r' => if d =? 62 then (43, q, r', skip_ws r') else (c, q, r, skip_ws r)
        | [] => (c, q, r, skip_ws r)
        end
      else let e := skip_word q in (97, q, e, skip_ws e)
  end.

Definition peek (s toks : list Z) : list Z * bool :=
  let s := skip_ws s in (s, match s with [] => false | c :: _ => in_chars toks c end).

Section Parse.
(** The line. *)
Context (buf : list Z).
Definition pos (s : list Z) : Z := Z.of_nat (length buf) - Z.of_nat (length s).

Fixpoint parseredirs (fuel : nat) (c : cmd) (s : list Z) : parsed (cmd * list Z) :=
  match fuel with
  | O => POut
  | S fuel =>
      let '(s, b) := peek s [60; 62] in
      if negb b then POk (c, s)
      else
        let '(tok, _, _, s) := gettoken s in
        let '(k, q, eq, s) := gettoken s in
        if negb (k =? 97) then PPanic "missing file for redirection"
        else
          let file := (pos q, pos eq) in
          let c := if tok =? 60 then REDIR c file O_RDONLY 0
                   else if tok =? 62 then REDIR c file (Z.lor (Z.lor O_WRONLY O_CREATE) O_TRUNC) 1
                   else if tok =? 43 then REDIR c file (Z.lor O_WRONLY O_CREATE) 1
                   else c in
          parseredirs fuel c s
  end.

(** [cmd->argv[argc] = q] when [ret] may already wrap [cmd]: the EXEC inside. *)
Fixpoint add_arg (c : cmd) (w : word) : cmd :=
  match c with
  | EXEC argv => EXEC (argv ++ [w])
  | REDIR c f m fd => REDIR (add_arg c w) f m fd
  | c => c
  end.

(** The while loop of parseexec. *)
Fixpoint parseargs (fuel : nat) (c : cmd) (argc : nat) (s : list Z) : parsed (cmd * list Z) :=
  match fuel with
  | O => POut
  | S fuel =>
      let '(s, b) := peek s [124; 41; 38; 59] in
      if b then POk (c, s)
      else
        let '(tok, q, eq, s) := gettoken s in
        if tok =? 0 then POk (c, s)
        else if negb (tok =? 97) then PPanic "syntax"
        else
          let c := add_arg c (pos q, pos eq) in
          let argc := S argc in
          if Nat.leb MAXARGS argc then PPanic "too many args"
          else
            do (c, s) <- parseredirs (S (length s)) c s ;;
            parseargs fuel c argc s
  end.

(** The while loop of parseline. *)
Fixpoint parseback (fuel : nat) (c : cmd) (s : list Z) : parsed (cmd * list Z) :=
  match fuel with
  | O => POut
  | S fuel =>
      let '(s, b) := peek s [38] in
      if negb b then POk (c, s)
      else let '(_, _, _, s) := gettoken s in parseback fuel (BACK c) s
  end.

Fixpoint parseline (fuel : nat) (s : list Z) : parsed (cmd * list Z) :=
  match fuel with
  | O => POut
  | S fuel =>
      do (c, s) <- parsepipe fuel s ;;
      do (c, s) <- parseback (S (length s)) c s ;;
      let '(s, b) := peek s [59] in
      if b then
        let '(_, _, _, s) := gettoken s in
        do (r, s) <- parseline fuel s ;;
        POk (LIST c r, s)
      else POk (c, s)
  end
with parsepipe (fuel : nat) (s : list Z) : parsed (cmd * list Z) :=
  match fuel with
  | O => POut
  | S fuel =>
      do (c, s) <- parseexec fuel s ;;
      let '(s, b) := peek s [124] in
      if b then
        let '(_, _, _, s) := gettoken s in
        do (r, s) <- parsepipe fuel s ;;
        POk (PIPE c r, s)
      else POk (c, s)
  end
with parseblock (fuel : nat) (s : list Z) : parsed (cmd * list Z) :=
  match fuel with
  | O => POut
  | S fuel =>
      let '(s, b) := peek s [40] in
      if negb b then PPanic "parseblock"
      else
        let '(_, _, _, s) := gettoken s in
        do (c, s) <- parseline fuel s ;;
        let '(s, b) := peek s [41] in
        if negb b then PPanic "syntax - missing )"
        else let '(_, _, _, s) := gettoken s in parseredirs (S (length s)) c s
  end
with parseexec (fuel : nat) (s : list Z) : parsed (cmd * list Z) :=
  match fuel with
  | O => POut
  | S fuel =>
      let '(s, b) := peek s [40] in
      if b then parseblock fuel s
      else
        do (c, s) <- parseredirs (S (length s)) (EXEC []) s ;;
        parseargs (S (length s)) c 0 s
  end.

(** Four calls for a token that opens a block are enough. *)
Definition parse_fuel : nat := 4 * length buf + 4.

Definition parsecmd_ast : parsed cmd :=
  do (c, s) <- parseline parse_fuel buf ;;
  let '(s, _) := peek s [] in
  match s with [] => POk c | _ => PPanic "syntax" end.
End Parse.

(** nulterminate(cmd): a NUL at the end of every string. *)
Fixpoint nulterminate (c : cmd) (buf : list Z) : list Z :=
  match c with
  | EXEC argv => fold_left (fun b w => <[Z.to_nat (snd w) := 0]> b) argv buf
  | REDIR c f _ _ => <[Z.to_nat (snd f) := 0]> (nulterminate c buf)
  | PIPE l r | LIST l r => nulterminate r (nulterminate l buf)
  | BACK c => nulterminate c buf
  end.

(** parsecmd(s): the command and the line, which ends in a NUL. *)
Definition parsecmd (s : list Z) : parsed (cmd * list Z) :=
  do c <- parsecmd_ast s ;; POk (c, nulterminate c (s ++ [0])).

(** ** Tokens *)

(** A token: its kind, as gettoken() returns it, and its two positions. *)
Record token := mkTok { tk : Z; tq : Z; teq : Z }.

Definition clean (s : list Z) : Prop := Forall (fun c => c <> 0) s.

Section Tokens.
Context (buf : list Z).

Fixpoint toks_fuel (n : nat) (s : list Z) : list token :=
  match n with
  | O => []
  | S n => let '(k, q, eq, s) := gettoken s in if k =? 0 then [] else mkTok k (pos buf q) (pos buf eq) :: toks_fuel n s
  end.
(** The tokens of a text. *)
Definition toks (s : list Z) : list token := toks_fuel (S (length s)) s.

Lemma skip_ws_length s : (length (skip_ws s) <= length s)%nat.
Proof. induction s as [|c s IH]; [done|]. cbn. case_match; cbn; lia. Qed.
Lemma skip_word_length s : (length (skip_word s) <= length s)%nat.
Proof. induction s as [|c s IH]; [done|]. cbn. case_match; cbn; lia. Qed.
Lemma skip_ws_clean s : clean s -> clean (skip_ws s).
Proof. induction 1 as [|c s Hc Hs IH]; [constructor|]. cbn. case_match; [done|by constructor]. Qed.
Lemma skip_word_clean s : clean s -> clean (skip_word s).
Proof. induction 1 as [|c s Hc Hs IH]; [constructor|]. cbn. case_match; [done|by constructor]. Qed.
Lemma skip_ws_idem s : skip_ws (skip_ws s) = skip_ws s.
Proof. induction s as [|c s IH]; [done|]. cbn. destruct (in_chars whitespace c) eqn:E; [done|]. cbn. by rewrite E. Qed.
Lemma skip_ws_head s c r : skip_ws s = c :: r -> in_chars whitespace c = false.
Proof. induction s as [|d s IH]; [done|]. cbn. destruct (in_chars whitespace d) eqn:E; [exact IH|]. by intros [= <- <-]. Qed.
Lemma gettoken_ws s : gettoken (skip_ws s) = gettoken s.
Proof. unfold gettoken. cbv zeta. by rewrite !(skip_ws_idem s). Qed.

Lemma in_chars_true l c : in_chars l c = true <-> c ∈ l.
Proof.
  unfold in_chars. induction l as [|d l IH]; cbn [strchr]; [split; [done|by intros ?%elem_of_nil]|]. rewrite elem_of_cons. destruct (Z.eqb_spec d c) as [->|Hne].
  - naive_solver.
  - rewrite IH. naive_solver.
Qed.

(** What a step of gettoken() gives: nothing is left, or a token. *)
Definition sym (t : token) : Z := if tk t =? 43 then 62 else tk t.
Lemma gettoken_step s k q eq s' : clean s -> gettoken s = (k, q, eq, s') ->
  (k = 0 /\ skip_ws s = []) \/
  (k <> 0 /\ exists c r, skip_ws s = c :: r /\ (length s' <= length r)%nat /\ clean s' /\
     (forall l, (forall x, x ∈ l -> x ∈ symbols) -> in_chars l c = in_chars l (if k =? 43 then 62 else k))).
Proof.
  intros Hc. unfold gettoken. pose proof (skip_ws_clean s Hc) as Hc'. destruct (skip_ws s) as [|c r] eqn:E; [intros [= <- <- <- <-]; by left|].
  apply Forall_cons in Hc' as [Hc0 Hr]. intros H. right.
  destruct ((c =? 124) || (c =? 40) || (c =? 41) || (c =? 59) || (c =? 38) || (c =? 60)) eqn:Esym.
  { injection H as <- <- <- <-. split; [done|]. exists c, r. split_and!; [done|apply skip_ws_length|by apply skip_ws_clean|]. intros l _.
    destruct (Z.eqb_spec c 43) as [->|]; [by cbn in Esym|done]. }
  destruct (Z.eqb_spec c 62) as [->|Hne].
  { destruct r as [|d r'].
    - injection H as <- <- <- <-. split; [done|]. by exists 62, [].
    - apply Forall_cons in Hr as [Hd Hr]. destruct (d =? 62); injection H as <- <- <- <-.
      + split; [done|]. exists 62, (d :: r'). split_and!; [done|pose proof (skip_ws_length r'); cbn; lia|by apply skip_ws_clean|done].
      + split; [done|]. exists 62, (d :: r'). split_and!; [done|exact (skip_ws_length (d :: r'))|apply (skip_ws_clean (d :: r')); by constructor|done]. }
  injection H as <- <- <- <-. split; [done|]. exists c, r. pose proof (skip_ws_head _ _ _ E) as Hw.
  assert (in_chars symbols c = false) as Hs.
  { apply not_true_is_false. rewrite in_chars_true. unfold symbols. rewrite !elem_of_cons, elem_of_nil. intros Hin.
    rewrite !orb_false_iff, !Z.eqb_neq in Esym. lia. }
  rewrite Hw, Hs. cbn [negb andb].
  split_and!; [done| |apply skip_ws_clean; by apply skip_word_clean|].
  - pose proof (skip_ws_length (skip_word r)). pose proof (skip_word_length r). lia.
  - intros l Hl. cbn. transitivity false; [|symmetry]; apply not_true_is_false; rewrite in_chars_true; intros Hin; apply Hl in Hin; [by apply in_chars_true in Hin; rewrite Hin in Hs|].
    unfold symbols in Hin. rewrite !elem_of_cons, elem_of_nil in Hin. lia.
Qed.

Lemma toks_fuel_enough n s : clean s -> (length s < n)%nat -> toks_fuel n s = toks s.
Proof.
  unfold toks. remember (S (length s)) as m eqn:Hm. intros Hc Hn. assert (length s < m)%nat as Hlm by lia. clear Hm. revert m s Hc Hn Hlm.
  induction n as [|n IH]; intros m s Hc Hn Hm; [lia|]. destruct m as [|m]; [lia|]. cbn [toks_fuel]. destruct (gettoken s) as [[[k q] eq] s'] eqn:E.
  destruct (gettoken_step _ _ _ _ _ Hc E) as [[-> _]|(Hk & c & r & Hs & Hl & Hc' & _)]; [done|]. rewrite (proj2 (Z.eqb_neq _ _)) by done. f_equal.
  pose proof (skip_ws_length s). rewrite Hs in *. cbn in *. apply IH; [done|lia|lia].
Qed.

Lemma toks_ws s : clean s -> toks (skip_ws s) = toks s.
Proof.
  intros Hc. rewrite <- (toks_fuel_enough (S (length s)) (skip_ws s)); [|by apply skip_ws_clean|pose proof (skip_ws_length s); lia].
  unfold toks. cbn [toks_fuel]. by rewrite gettoken_ws.
Qed.

(** Taking a token off. *)
Lemma gettoken_toks s : clean s ->
  (toks s = [] /\ skip_ws s = [] /\ exists q eq s', gettoken s = (0, q, eq, s') /\ s' = [] /\ clean s') \/
  exists t ts q eq s', toks s = t :: ts /\ gettoken s = (tk t, q, eq, s') /\ tk t <> 0 /\ pos buf q = tq t /\ pos buf eq = teq t /\ toks s' = ts /\ clean s' /\ (length s' < length s)%nat.
Proof.
  intros Hc. destruct (gettoken s) as [[[k q] eq] s'] eqn:E. destruct (gettoken_step _ _ _ _ _ Hc E) as [[-> Hs]|(Hk & c & r & Hs & Hl & Hc' & _)].
  - left. unfold toks. cbn [toks_fuel]. rewrite E. split_and!; try done. eexists _, _, _. split; [reflexivity|]. unfold gettoken in E. rewrite Hs in E. injection E as <- <- <-. split; [done|constructor].
  - right. exists (mkTok k (pos buf q) (pos buf eq)), (toks s'), q, eq, s'. pose proof (skip_ws_length s) as Hl'. rewrite Hs in Hl'. cbn in Hl'. split_and!; try done; [|lia].
    unfold toks at 1. cbn [toks_fuel]. rewrite E, (proj2 (Z.eqb_neq _ _)) by done. f_equal. apply toks_fuel_enough; [done|lia].
Qed.

(** peek() looks at the first token. *)
Lemma peek_toks s l : clean s -> (forall x, x ∈ l -> x ∈ symbols) ->
  peek s l = (skip_ws s, match toks s with [] => false | t :: _ => in_chars l (sym t) end).
Proof.
  intros Hc Hl. unfold peek. f_equal. destruct (gettoken_toks s Hc) as [(E & Es & _)|(t & ts & q & eq & s' & E & Eg & _)]; rewrite E; [by rewrite Es|].
  destruct (gettoken_step _ _ _ _ _ Hc Eg) as [[Hk Es]|(Hk & c & r & Es & _ & _ & Hsym)].
  - exfalso. unfold toks in E. cbn [toks_fuel] in E. rewrite Eg, Hk in E. done.
  - rewrite Es. by rewrite Hsym.
Qed.
End Tokens.

(** ** The grammar *)

(** A redirection: its operator and its file. *)
Abbreviation redir := (token * token)%type.

(** A line: commands in a pipeline, in the background with ampersands, in
    sequence with semicolons; a block in parentheses or a simple command of
    words, with redirections.  The trees hold the tokens they are made of. *)
Inductive line :=
  | L_end (p : pipel) (bg : list token)
  | L_seq (p : pipel) (bg : list token) (semi : token) (l : line)
with pipel :=
  | P_one (e : exe)
  | P_pipe (e : exe) (bar : token) (p : pipel)
with exe :=
  | X_block (o : token) (l : line) (c : token) (rs : list redir)
  | X_simple (rs : list redir) (args : list (token * list redir)).

Scheme line_mut := Induction for line Sort Prop
  with pipel_mut := Induction for pipel Sort Prop
  with exe_mut := Induction for exe Sort Prop.
Combined Scheme grammar_ind from line_mut, pipel_mut, exe_mut.

(** The tokens of a tree. *)
Definition y_redirs (rs : list redir) : list token := concat (map (fun r => [r.1; r.2]) rs).
Definition y_args (args : list (token * list redir)) : list token := concat (map (fun a => a.1 :: y_redirs a.2) args).
Fixpoint y_line (l : line) : list token :=
  match l with L_end p bg => y_pipe p ++ bg | L_seq p bg t l => y_pipe p ++ bg ++ t :: y_line l end
with y_pipe (p : pipel) : list token :=
  match p with P_one e => y_exe e | P_pipe e t p => y_exe e ++ t :: y_pipe p end
with y_exe (e : exe) : list token :=
  match e with X_block o l c rs => o :: y_line l ++ c :: y_redirs rs | X_simple rs args => y_redirs rs ++ y_args args end.

(** The tokens have the kinds their places ask for, and no command has more
    than nine words. *)
Definition ok_redir (r : redir) : Prop := (tk r.1 = 60 \/ tk r.1 = 62 \/ tk r.1 = 43) /\ tk r.2 = 97.
Definition ok_arg (a : token * list redir) : Prop := tk a.1 = 97 /\ Forall ok_redir a.2.
Fixpoint ok_line (l : line) : Prop :=
  match l with
  | L_end p bg => ok_pipe p /\ Forall (fun t => tk t = 38) bg
  | L_seq p bg t l => ok_pipe p /\ Forall (fun t => tk t = 38) bg /\ tk t = 59 /\ ok_line l
  end
with ok_pipe (p : pipel) : Prop :=
  match p with P_one e => ok_exe e | P_pipe e t p => ok_exe e /\ tk t = 124 /\ ok_pipe p end
with ok_exe (e : exe) : Prop :=
  match e with
  | X_block o l c rs => tk o = 40 /\ ok_line l /\ tk c = 41 /\ Forall ok_redir rs
  | X_simple rs args => Forall ok_redir rs /\ Forall ok_arg args /\ (length args < MAXARGS)%nat
  end.

(** The command a tree stands for: redirections apply from left to right, each
    around the ones before it. *)
Definition word_of (t : token) : word := (tq t, teq t).
Definition sem_redir (c : cmd) (r : redir) : cmd :=
  if tk r.1 =? 60 then REDIR c (word_of r.2) O_RDONLY 0
  else if tk r.1 =? 62 then REDIR c (word_of r.2) (Z.lor (Z.lor O_WRONLY O_CREATE) O_TRUNC) 1
  else REDIR c (word_of r.2) (Z.lor O_WRONLY O_CREATE) 1.
Definition sem_redirs (rs : list redir) (c : cmd) : cmd := fold_left sem_redir rs c.
Definition sem_back (bg : list token) (c : cmd) : cmd := fold_left (fun c _ => BACK c) bg c.
Fixpoint sem_line (l : line) : cmd :=
  match l with
  | L_end p bg => sem_back bg (sem_pipe p)
  | L_seq p bg _ l => LIST (sem_back bg (sem_pipe p)) (sem_line l)
  end
with sem_pipe (p : pipel) : cmd :=
  match p with P_one e => sem_exe e | P_pipe e _ p => PIPE (sem_exe e) (sem_pipe p) end
with sem_exe (e : exe) : cmd :=
  match e with
  | X_block _ l _ rs => sem_redirs rs (sem_line l)
  | X_simple rs args => sem_redirs (rs ++ concat (map snd args)) (EXEC (map (fun a => word_of a.1) args))
  end.

(** ** The loops of the parser follow it *)

Section Grammar.
Context (buf : list Z).
Local Abbreviation toks := (toks buf).

Definition starts (l : list Z) (ts : list token) : bool := match ts with [] => false | t :: _ => in_chars l (sym t) end.

(** [at_ s ts n]: the tokens from [s] on are [ts], and [s] has at most [n] bytes. *)
Record at_ (s : list Z) (ts : list token) (n : nat) : Prop := { at_clean : clean s; at_toks : toks s = ts; at_len : (length s <= n)%nat }.

Lemma peek_at s ts n l : at_ s ts n -> (forall x, x ∈ l -> x ∈ symbols) -> exists s1, peek s l = (s1, starts l ts) /\ at_ s1 ts n.
Proof.
  intros [Hc Ht Hn] Hl. exists (skip_ws s). rewrite (peek_toks buf) by done. rewrite Ht. split; [done|].
  split; [by apply skip_ws_clean|by rewrite toks_ws|pose proof (skip_ws_length s); lia].
Qed.
Lemma get_at s t ts n : at_ s (t :: ts) n -> exists q eq s1 n', gettoken s = (tk t, q, eq, s1) /\ (pos buf q, pos buf eq) = word_of t /\ tk t <> 0 /\ at_ s1 ts n' /\ (n' < n)%nat.
Proof.
  intros [Hc Ht Hn]. destruct (gettoken_toks buf s Hc) as [(E & _)|(t' & ts' & q & eq & s' & E & Eg & Hk & Hq & He & Ht' & Hc' & Hl)]; rewrite E in Ht; [done|]. injection Ht as -> ->.
  exists q, eq, s', (length s'). unfold word_of. rewrite Hq, He. split_and!; try done. lia.
Qed.
Lemma get_end s n : at_ s [] n -> exists q eq s1, gettoken s = (0, q, eq, s1) /\ at_ s1 [] n.
Proof.
  intros [Hc Ht Hn]. destruct (gettoken_toks buf s Hc) as [(E & _ & q & eq & s' & Eg & -> & Hc')|(t' & ts' & q & eq & s' & E & _)]; [|by rewrite E in Ht].
  exists q, eq, []. split; [done|]. split; [constructor|done|cbn; lia].
Qed.
Lemma at_weaken s ts n m : at_ s ts n -> (n <= m)%nat -> at_ s ts m.
Proof. intros [? ? ?] ?. split; [done..|lia]. Qed.

Ltac symb := let x := fresh in let H := fresh in intros x H; rewrite ?elem_of_cons, elem_of_nil in *; unfold symbols; rewrite !elem_of_cons; tauto.

Lemma in_chars_false l c : c ∉ l -> in_chars l c = false.
Proof. intros H. apply not_true_is_false. by rewrite in_chars_true. Qed.

Lemma redir_starts r ts : ok_redir r -> starts [60; 62] (r.1 :: ts) = true.
Proof. intros [H _]. cbn [starts]. unfold sym. destruct H as [-> |[-> | ->]]; reflexivity. Qed.

Lemma redirs_complete rs rest fuel c s n : at_ s (y_redirs rs ++ rest) n -> Forall ok_redir rs -> starts [60; 62] rest = false -> (n < fuel)%nat ->
  exists s1, parseredirs buf fuel c s = POk (sem_redirs rs c, s1) /\ at_ s1 rest n.
Proof.
  intros Hs Hok Hr. revert fuel c s n Hs. induction Hok as [|[op f] rs [Hop Hf] Hok IH]; intros fuel c s n Hs Hn; (destruct fuel as [|fuel]; [lia|]); cbn [parseredirs];
    (destruct (peek_at s _ n [60; 62] Hs ltac:(symb)) as (s1 & E1 & Hs1); rewrite E1).
  - cbn [y_redirs app map concat] in *. rewrite Hr. cbn [negb]. eauto.
  - cbn [y_redirs app map concat fst snd] in *. rewrite (redir_starts (op, f)) by done. cbn [negb].
    destruct (get_at _ _ _ _ Hs1) as (q1 & e1 & s2 & n2 & E2 & _ & _ & Hs2 & Hn2). rewrite E2.
    destruct (get_at _ _ _ _ Hs2) as (q3 & e3 & s3 & n3 & E3 & Ew & _ & Hs3 & Hn3). rewrite E3, Ew. cbn [fst snd] in Hop, Hf. rewrite Hf. change (97 =? 97) with true. cbn [negb].
    destruct (IH fuel (sem_redir c (op, f)) s3 n3 Hs3 ltac:(lia)) as (s4 & E4 & Hs4). exists s4. split; [|eapply at_weaken; [exact Hs4|lia]].
    unfold sem_redirs in *. cbn [fold_left]. rewrite <- E4. unfold sem_redir. cbn [fst snd]. by destruct Hop as [-> |[-> | ->]].
Qed.

Lemma redirs_sound fuel c s ts n : at_ s ts n -> (n < fuel)%nat ->
  (exists msg, parseredirs buf fuel c s = PPanic msg) \/
  exists rs rest s1, parseredirs buf fuel c s = POk (sem_redirs rs c, s1) /\ Forall ok_redir rs /\ ts = y_redirs rs ++ rest /\ starts [60; 62] rest = false /\ at_ s1 rest n.
Proof.
  revert c s ts n. induction fuel as [|fuel IH]; intros c s ts n Hs Hn; [lia|]. cbn [parseredirs].
  destruct (peek_at s _ n [60; 62] Hs ltac:(symb)) as (s1 & E1 & Hs1). rewrite E1. destruct (starts [60; 62] ts) eqn:Eb; cbn [negb].
  2: { right. exists [], ts, s1. done. }
  destruct ts as [|op ts]; [done|]. destruct (get_at _ _ _ _ Hs1) as (q1 & e1 & s2 & n2 & E2 & _ & _ & Hs2 & Hn2). rewrite E2.
  assert (tk op = 60 \/ tk op = 62 \/ tk op = 43) as Hop.
  { cbn [starts] in Eb. apply in_chars_true in Eb. unfold sym in Eb. rewrite !elem_of_cons, elem_of_nil in Eb. destruct (Z.eqb_spec (tk op) 43); [auto|]. tauto. }
  destruct ts as [|f ts]; [destruct (get_end _ _ Hs2) as (q3 & e3 & s3 & E3 & _); rewrite E3; left; eauto|].
  destruct (get_at _ _ _ _ Hs2) as (q3 & e3 & s3 & n3 & E3 & Ew & _ & Hs3 & Hn3). rewrite E3, Ew. destruct (Z.eqb_spec (tk f) 97) as [Hf|Hf]; cbn [negb]; [|left; eauto].
  set (c' := if tk op =? 60 then _ else _). destruct (IH c' s3 ts n3 Hs3 ltac:(lia)) as [[msg E]|(rs & rest & s4 & E4 & Hok & -> & Hrest & Hs4)]; rewrite ?E; [left; eauto|right].
  exists ((op, f) :: rs), rest, s4. rewrite E4. split_and!; [|by constructor|done|done|eapply at_weaken; [exact Hs4|lia]].
  unfold sem_redirs. cbn [fold_left]. f_equal. f_equal. f_equal. unfold c', sem_redir. cbn [fst snd]. by destruct Hop as [-> |[-> | ->]].
Qed.

Lemma back_complete bg rest fuel c s n : at_ s (bg ++ rest) n -> Forall (fun t => tk t = 38) bg -> starts [38] rest = false -> (n < fuel)%nat ->
  exists s1, parseback fuel c s = POk (sem_back bg c, s1) /\ at_ s1 rest n.
Proof.
  intros Hs Hok Hr. revert fuel c s n Hs. induction Hok as [|t bg Ht Hok IH]; intros fuel c s n Hs Hn; (destruct fuel as [|fuel]; [lia|]); cbn [parseback];
    (destruct (peek_at s _ n [38] Hs ltac:(symb)) as (s1 & E1 & Hs1); rewrite E1); cbn [app] in *.
  - rewrite Hr. eauto.
  - cbn [starts]. unfold sym. rewrite Ht. destruct (get_at _ _ _ _ Hs1) as (q1 & e1 & s2 & n2 & E2 & _ & _ & Hs2 & Hn2). cbn. rewrite E2.
    destruct (IH fuel (BACK c) s2 n2 Hs2 ltac:(lia)) as (s3 & E3 & Hs3). exists s3. split; [done|eapply at_weaken; [exact Hs3|lia]].
Qed.

Lemma back_sound fuel c s ts n : at_ s ts n -> (n < fuel)%nat ->
  exists bg rest s1, parseback fuel c s = POk (sem_back bg c, s1) /\ Forall (fun t => tk t = 38) bg /\ ts = bg ++ rest /\ starts [38] rest = false /\ at_ s1 rest n.
Proof.
  revert c s ts n. induction fuel as [|fuel IH]; intros c s ts n Hs Hn; [lia|]. cbn [parseback].
  destruct (peek_at s _ n [38] Hs ltac:(symb)) as (s1 & E1 & Hs1). rewrite E1. destruct (starts [38] ts) eqn:Eb; cbn [negb]; [|by exists [], ts, s1].
  destruct ts as [|t ts]; [done|]. destruct (get_at _ _ _ _ Hs1) as (q1 & e1 & s2 & n2 & E2 & _ & _ & Hs2 & Hn2). rewrite E2.
  assert (tk t = 38) as Ht.
  { cbn [starts] in Eb. apply in_chars_true in Eb. unfold sym in Eb. rewrite elem_of_cons, elem_of_nil in Eb. destruct (Z.eqb_spec (tk t) 43); [naive_solver lia|tauto]. }
  destruct (IH (BACK c) s2 ts n2 Hs2 ltac:(lia)) as (bg & rest & s3 & E3 & Hok & -> & Hr & Hs3). exists (t :: bg), rest, s3. split_and!; try done; [by constructor|eapply at_weaken; [exact Hs3|lia]].
Qed.


Lemma add_arg_redirs rs c w : add_arg (sem_redirs rs c) w = sem_redirs rs (add_arg c w).
Proof.
  revert c. induction rs as [|r rs IH]; intros c; [done|]. unfold sem_redirs in *. cbn [fold_left]. rewrite IH. f_equal. unfold sem_redir. by repeat case_match.
Qed.

(** What the arguments [args] make of a command that has words already. *)
Definition sem_args (args : list (token * list redir)) (ws : list word) (rs : list redir) : cmd :=
  sem_redirs (rs ++ concat (map snd args)) (EXEC (ws ++ map (fun a => word_of a.1) args)).

Lemma sem_args_cons w rs' args ws rs : sem_args ((w, rs') :: args) ws rs = sem_args args (ws ++ [word_of w]) (rs ++ rs').
Proof. unfold sem_args. cbn [map concat snd fst]. rewrite <- !app_assoc. done. Qed.
Lemma add_then_redirs ws rs w rs' : sem_redirs rs' (add_arg (sem_redirs rs (EXEC ws)) w) = sem_redirs (rs ++ rs') (EXEC (ws ++ [w])).
Proof. rewrite add_arg_redirs. unfold sem_redirs. by rewrite fold_left_app. Qed.

Definition ends_exec (ts : list token) : Prop := ts = [] \/ starts [124; 41; 38; 59] ts = true.

Lemma ends_exec_no_redir ts : ends_exec ts -> starts [60; 62] ts = false.
Proof.
  intros [-> |H]; [done|]. destruct ts as [|t ts]; [done|]. cbn [starts] in *. apply in_chars_true in H. apply in_chars_false. rewrite !elem_of_cons, elem_of_nil in *. lia.
Qed.
Lemma word_starts l t ts : (forall x, x ∈ l -> x ∈ symbols) -> tk t = 97 -> starts l (t :: ts) = false.
Proof. intros Hl Ht. cbn [starts]. unfold sym. rewrite Ht. cbn. apply in_chars_false. intros H%Hl. unfold symbols in H. rewrite !elem_of_cons, elem_of_nil in H. lia. Qed.

Lemma args_no_redir args rest : Forall ok_arg args -> ends_exec rest -> starts [60; 62] (y_args args ++ rest) = false.
Proof. intros [|[w rs] args' [Hw _] _] Hr; [by apply ends_exec_no_redir|]. cbn [y_args map concat app fst]. apply word_starts; [symb|done]. Qed.

Lemma args_complete args rest fuel ws rs argc s n : at_ s (y_args args ++ rest) n -> Forall ok_arg args -> ends_exec rest -> (argc + length args < MAXARGS)%nat -> (n < fuel)%nat ->
  exists s1, parseargs buf fuel (sem_redirs rs (EXEC ws)) argc s = POk (sem_args args ws rs, s1) /\ at_ s1 rest n.
Proof.
  intros Hs Hok Hr. revert fuel ws rs argc s n Hs. induction Hok as [|[w rs'] args [Hw Hrs] Hok IH]; intros fuel ws rs argc s n Hs Ha Hn; (destruct fuel as [|fuel]; [lia|]); cbn [parseargs];
    (destruct (peek_at s _ n [124; 41; 38; 59] Hs ltac:(symb)) as (s1 & E1 & Hs1); rewrite E1).
  - cbn [y_args map concat app] in *. assert (sem_args [] ws rs = sem_redirs rs (EXEC ws)) as -> by (unfold sem_args; cbn; by rewrite !app_nil_r).
    destruct Hr as [-> |Hr]; [|rewrite Hr; eauto]. destruct (get_end _ _ Hs1) as (q & e & s2 & E2 & Hs2). cbn [starts]. rewrite E2. cbn. eauto.
  - cbn [y_args map concat app fst snd] in *. rewrite (word_starts _ w) by (done || symb). destruct (get_at _ _ _ _ Hs1) as (q1 & e1 & s2 & n2 & E2 & Ew & _ & Hs2 & Hn2). rewrite E2, Ew, Hw.
    change (97 =? 0) with false. change (97 =? 97) with true. cbn [negb]. destruct (Nat.leb_spec MAXARGS (S argc)); [cbn in Ha; lia|].
    rewrite <- app_assoc in Hs2. destruct (redirs_complete rs' (y_args args ++ rest) (S (length s2)) (add_arg (sem_redirs rs (EXEC ws)) (word_of w)) s2 (length s2)) as (s3 & E3 & Hs3).
    { destruct Hs2. by split. } { done. } { by apply args_no_redir. } { lia. }
    rewrite E3. cbn [pbind]. rewrite add_then_redirs.
    destruct (IH fuel (ws ++ [word_of w]) (rs ++ rs') (S argc) s3 n2) as (s4 & E4 & Hs4); [eapply at_weaken; [exact Hs3|by destruct Hs2]|cbn in Ha; lia|lia|].
    exists s4. rewrite E4, sem_args_cons. split; [done|eapply at_weaken; [exact Hs4|lia]].
Qed.

Lemma args_sound fuel ws rs argc s ts n : at_ s ts n -> starts [60; 62] ts = false -> (argc < MAXARGS)%nat -> (n < fuel)%nat ->
  (exists msg, parseargs buf fuel (sem_redirs rs (EXEC ws)) argc s = PPanic msg) \/
  exists args rest s1, parseargs buf fuel (sem_redirs rs (EXEC ws)) argc s = POk (sem_args args ws rs, s1) /\ Forall ok_arg args /\ ts = y_args args ++ rest /\ ends_exec rest /\
    (argc + length args < MAXARGS)%nat /\ at_ s1 rest n.
Proof.
  revert ws rs argc s ts n. induction fuel as [|fuel IH]; intros ws rs argc s ts n Hs Hr Ha Hn; [lia|]. cbn [parseargs].
  destruct (peek_at s _ n [124; 41; 38; 59] Hs ltac:(symb)) as (s1 & E1 & Hs1). rewrite E1.
  assert (sem_redirs rs (EXEC ws) = sem_args [] ws rs) as E0 by (unfold sem_args; cbn; by rewrite !app_nil_r).
  destruct (starts [124; 41; 38; 59] ts) eqn:Eb.
  { right. exists [], ts, s1. rewrite E0. split_and!; try done; [by right|cbn; lia]. }
  destruct ts as [|t ts].
  { destruct (get_end _ _ Hs1) as (q & e & s2 & E2 & Hs2). rewrite E2. right. exists [], [], s2. cbn. rewrite E0. split_and!; try done; [by left|lia]. }
  destruct (get_at _ _ _ _ Hs1) as (q1 & e1 & s2 & n2 & E2 & Ew & Hk & Hs2 & Hn2). rewrite E2, Ew, (proj2 (Z.eqb_neq (tk t) 0)) by done.
  destruct (Z.eqb_spec (tk t) 97) as [Hw|Hw]; cbn [negb]; [|left; eauto]. destruct (Nat.leb_spec MAXARGS (S argc)); [left; eauto|].
  destruct (redirs_sound (S (length s2)) (add_arg (sem_redirs rs (EXEC ws)) (word_of t)) s2 ts (length s2)) as [[msg E]|(rs' & rest & s3 & E3 & Hok & -> & Hrest & Hs3)].
  { destruct Hs2. by split. } { lia. } { rewrite E. left. eexists. reflexivity. }
  rewrite E3. cbn [pbind]. rewrite add_then_redirs.
  destruct (IH (ws ++ [word_of t]) (rs ++ rs') (S argc) s3 rest n2) as [[msg E]|(args & rest' & s4 & E4 & Hok' & -> & He & Hl & Hs4)]; [eapply at_weaken; [exact Hs3|by destruct Hs2]|done|lia|lia|rewrite E; left; eauto|].
  right. exists ((t, rs') :: args), rest', s4. rewrite E4, sem_args_cons. split_and!; try done; [by constructor|cbn; by rewrite <- app_assoc|cbn; lia|eapply at_weaken; [exact Hs4|lia]].
Qed.

(** ** The parser accepts the grammar *)

Definition ends_line (ts : list token) : Prop := ts = [] \/ starts [41] ts = true.
Definition ends_pipe (ts : list token) : Prop := ts = [] \/ starts [41; 38; 59] ts = true.

(** A token that starts with none of [l] but with one of [l']. *)
Lemma starts_other l l' ts : ts = [] \/ starts l' ts = true -> (forall x, x ∈ l -> x ∉ l') -> starts l ts = false.
Proof.
  intros [-> |H] Hd; [done|]. destruct ts as [|t ts]; [done|]. cbn [starts] in *. apply in_chars_true in H. apply in_chars_false. intros H'. by apply (Hd _ H').
Qed.
Ltac disj := let x := fresh in let H := fresh in intros x H; rewrite ?elem_of_cons, elem_of_nil in *; lia.
Lemma starts_sub l l' ts : ts = [] \/ starts l ts = true -> (forall x, x ∈ l -> x ∈ l') -> ts = [] \/ starts l' ts = true.
Proof.
  intros [-> |H] Hd; [by left|right]. destruct ts as [|t ts]; [done|]. cbn [starts] in *. apply in_chars_true in H. apply in_chars_true. by apply Hd.
Qed.
Ltac subs := let x := fresh in let H := fresh in intros x H; rewrite ?elem_of_cons, elem_of_nil in *; tauto.
Lemma starts_tok l t ts : tk t <> 43 -> tk t ∈ l -> starts l (t :: ts) = true.
Proof. intros H1 H2. cbn [starts]. unfold sym. rewrite (proj2 (Z.eqb_neq _ _)) by done. by apply in_chars_true. Qed.

Lemma exe_no_paren e ts : ok_exe e -> (forall rs args, e = X_simple rs args -> ends_exec ts -> starts [40] (y_exe e ++ ts) = false).
Proof.
  intros Hok rs args -> He. destruct Hok as (H1 & H2 & _). cbn [y_exe]. rewrite <- app_assoc. destruct H1 as [|[op f] rs [Hop _] _].
  - cbn [y_redirs map concat app]. destruct H2 as [|[w rs] args [Hw _] _]; cbn [y_args map concat app fst].
    + eapply starts_other; [exact He|disj].
    + apply word_starts; [symb|done].
  - cbn [y_redirs map concat app fst snd]. cbn [starts]. unfold sym. apply in_chars_false. cbn in Hop. rewrite elem_of_cons, elem_of_nil. destruct Hop as [-> |[-> | ->]]; cbn; lia.
Qed.

(** The parser returns the command of a tree when the text goes on with a token
    that may follow it. *)
Definition c_line (l : line) : Prop := ok_line l -> forall rest fuel s n, at_ s (y_line l ++ rest) n -> ends_line rest -> (4 * n + 4 <= fuel)%nat ->
  exists s1, parseline buf fuel s = POk (sem_line l, s1) /\ at_ s1 rest n.
Definition c_pipe (p : pipel) : Prop := ok_pipe p -> forall rest fuel s n, at_ s (y_pipe p ++ rest) n -> ends_pipe rest -> (4 * n + 3 <= fuel)%nat ->
  exists s1, parsepipe buf fuel s = POk (sem_pipe p, s1) /\ at_ s1 rest n.
Definition c_exe (e : exe) : Prop := ok_exe e -> forall rest fuel s n, at_ s (y_exe e ++ rest) n -> ends_exec rest -> (4 * n + 2 <= fuel)%nat ->
  exists s1, parseexec buf fuel s = POk (sem_exe e, s1) /\ at_ s1 rest n.

Lemma at_exact s ts n : at_ s ts n -> at_ s ts (length s).
Proof. intros [? ? ?]. by split. Qed.

(** A pipeline and its ampersands. *)
Lemma complete_back p bg rest fuel s n : c_pipe p -> ok_pipe p -> Forall (fun t => tk t = 38) bg -> at_ s (y_pipe p ++ bg ++ rest) n ->
  ends_pipe rest -> starts [38] rest = false -> (4 * n + 3 <= fuel)%nat ->
  exists s1 s2, parsepipe buf fuel s = POk (sem_pipe p, s1) /\ parseback (S (length s1)) (sem_pipe p) s1 = POk (sem_back bg (sem_pipe p), s2) /\ at_ s2 rest n.
Proof.
  intros IHp Hp Hbg Hs Hr Hr' Hf. destruct (IHp Hp (bg ++ rest) fuel s n Hs) as (s1 & E1 & Hs1); [|lia|].
  { destruct Hbg as [|t bg Ht _]; [done|right; apply starts_tok; [lia|rewrite Ht, !elem_of_cons; tauto]]. }
  destruct (back_complete bg rest (S (length s1)) (sem_pipe p) s1 (length s1)) as (s2 & E2 & Hs2); [by eapply at_exact|done|done|lia|].
  exists s1, s2. split_and!; try done. eapply at_weaken; [exact Hs2|by destruct Hs1].
Qed.

Lemma complete_end p bg : c_pipe p -> c_line (L_end p bg).
Proof.
  intros IHp [Hp Hbg] rest fuel s n Hs Hr Hf. destruct fuel as [|fuel]; [lia|]. cbn [parseline y_line sem_line] in *. rewrite <- app_assoc in Hs.
  destruct (complete_back p bg rest fuel s n IHp Hp Hbg Hs) as (s1 & s2 & E1 & E2 & Hs2); [eapply starts_sub; [exact Hr|subs]|eapply starts_other; [exact Hr|disj]|lia|].
  rewrite E1. cbn [pbind]. rewrite E2. cbn [pbind]. destruct (peek_at s2 _ _ [59] Hs2 ltac:(symb)) as (s3 & E3 & Hs3). rewrite E3, (starts_other [59] [41]) by (done || disj).
  by exists s3.
Qed.

Lemma complete_seq p bg t l : c_pipe p -> c_line l -> c_line (L_seq p bg t l).
Proof.
  intros IHp IHl (Hp & Hbg & Ht & Hl) rest fuel s n Hs Hr Hf. destruct fuel as [|fuel]; [lia|]. cbn [parseline y_line sem_line] in *. rewrite <- !app_assoc in Hs. cbn [app] in Hs.
  assert (forall l ts, 59 ∈ l -> starts l (t :: ts) = true) as Hst by (intros; apply starts_tok; [lia|by rewrite Ht]).
  destruct (complete_back p bg (t :: y_line l ++ rest) fuel s n IHp Hp Hbg Hs) as (s1 & s2 & E1 & E2 & Hs2).
  { right. apply Hst. rewrite !elem_of_cons. tauto. }
  { eapply (starts_other [38] [59]); [right; apply Hst; rewrite !elem_of_cons; tauto|disj]. } { lia. }
  rewrite E1. cbn [pbind]. rewrite E2. cbn [pbind]. destruct (peek_at s2 _ _ [59] Hs2 ltac:(symb)) as (s3 & E3 & Hs3). rewrite E3, Hst by (rewrite !elem_of_cons; tauto).
  destruct (get_at _ _ _ _ Hs3) as (q & e & s4 & n4 & E4 & _ & _ & Hs4 & Hn4). rewrite E4.
  destruct (IHl Hl rest fuel s4 n4 Hs4 Hr ltac:(lia)) as (s5 & E5 & Hs5). rewrite E5. cbn [pbind]. exists s5. split; [done|eapply at_weaken; [exact Hs5|lia]].
Qed.

Lemma complete_one e : c_exe e -> c_pipe (P_one e).
Proof.
  intros IHe He rest fuel s n Hs Hr Hf. destruct fuel as [|fuel]; [lia|]. cbn [parsepipe y_pipe sem_pipe ok_pipe] in *.
  destruct (IHe He rest fuel s n Hs) as (s1 & E1 & Hs1); [eapply starts_sub; [exact Hr|subs]|lia|]. rewrite E1. cbn [pbind].
  destruct (peek_at s1 _ _ [124] Hs1 ltac:(symb)) as (s2 & E2 & Hs2). rewrite E2, (starts_other [124] [41; 38; 59]) by (done || disj). by exists s2.
Qed.

Lemma complete_pipe e t p : c_exe e -> c_pipe p -> c_pipe (P_pipe e t p).
Proof.
  intros IHe IHp (He & Ht & Hp) rest fuel s n Hs Hr Hf. destruct fuel as [|fuel]; [lia|]. cbn [parsepipe y_pipe sem_pipe] in *. rewrite <- app_assoc in Hs. cbn [app] in Hs.
  assert (forall l ts, 124 ∈ l -> starts l (t :: ts) = true) as Hst by (intros; apply starts_tok; [lia|by rewrite Ht]).
  destruct (IHe He (t :: y_pipe p ++ rest) fuel s n Hs) as (s1 & E1 & Hs1); [right; apply Hst; rewrite !elem_of_cons; tauto|lia|]. rewrite E1. cbn [pbind].
  destruct (peek_at s1 _ _ [124] Hs1 ltac:(symb)) as (s2 & E2 & Hs2). rewrite E2, Hst by (rewrite !elem_of_cons; tauto).
  destruct (get_at _ _ _ _ Hs2) as (q & e' & s3 & n3 & E3 & _ & _ & Hs3 & Hn3). rewrite E3.
  destruct (IHp Hp rest fuel s3 n3 Hs3 Hr ltac:(lia)) as (s4 & E4 & Hs4). rewrite E4. cbn [pbind]. exists s4. split; [done|eapply at_weaken; [exact Hs4|lia]].
Qed.

Lemma complete_block o l c rs : c_line l -> c_exe (X_block o l c rs).
Proof.
  intros IHl (Ho & Hl & Hc & Hrs) rest fuel s n Hs Hr Hf. destruct fuel as [|fuel]; [lia|]. cbn [parseexec y_exe sem_exe] in *. rewrite <- app_comm_cons, <- app_assoc in Hs. cbn [app] in Hs.
  destruct (peek_at s _ _ [40] Hs ltac:(symb)) as (s1 & E1 & Hs1). rewrite E1. assert (forall ts, starts [40] (o :: ts) = true) as Hst by (intros; apply starts_tok; [lia|rewrite Ho; by constructor]). rewrite Hst.
  destruct fuel as [|fuel]; [lia|]. cbn [parseblock]. destruct (peek_at s1 _ _ [40] Hs1 ltac:(symb)) as (s2 & E2 & Hs2). rewrite E2, Hst. cbn [negb].
  destruct (get_at _ _ _ _ Hs2) as (q & e & s3 & n3 & E3 & _ & _ & Hs3 & Hn3). rewrite E3.
  assert (forall ts, starts [41] (c :: ts) = true) as Hst' by (intros; apply starts_tok; [lia|rewrite Hc; by constructor]).
  destruct (IHl Hl (c :: y_redirs rs ++ rest) fuel s3 n3 Hs3 (or_intror (Hst' _)) ltac:(lia)) as (s4 & E4 & Hs4). rewrite E4. cbn [pbind].
  destruct (peek_at s4 _ _ [41] Hs4 ltac:(symb)) as (s5 & E5 & Hs5). rewrite E5, Hst'. cbn [negb].
  destruct (get_at _ _ _ _ Hs5) as (q6 & e6 & s6 & n6 & E6 & _ & _ & Hs6 & Hn6). rewrite E6.
  destruct (redirs_complete rs rest (S (length s6)) (sem_line l) s6 (length s6)) as (s7 & E7 & Hs7); [by eapply at_exact|done|by apply ends_exec_no_redir|lia|].
  exists s7. split; [done|eapply at_weaken; [exact Hs7|]]. destruct Hs6. lia.
Qed.

Lemma complete_simple rs args : c_exe (X_simple rs args).
Proof.
  intros Hok rest fuel s n Hs Hr Hf. destruct fuel as [|fuel]; [lia|]. cbn [parseexec]. destruct (peek_at s _ _ [40] Hs ltac:(symb)) as (s1 & E1 & Hs1). rewrite E1, (exe_no_paren _ _ Hok _ _ eq_refl Hr).
  destruct Hok as (Hrs & Hargs & Hlen). cbn [y_exe] in Hs1. rewrite <- app_assoc in Hs1.
  destruct (redirs_complete rs (y_args args ++ rest) (S (length s1)) (EXEC []) s1 (length s1)) as (s2 & E2 & Hs2); [by eapply at_exact|done|by apply args_no_redir|lia|].
  rewrite E2. cbn [pbind]. destruct (args_complete args rest (S (length s2)) [] rs 0 s2 (length s2)) as (s3 & E3 & Hs3); [by eapply at_exact|done|done|cbn; lia|lia|].
  exists s3. split; [done|eapply at_weaken; [exact Hs3|]]. destruct Hs2, Hs1. lia.
Qed.

Lemma parse_complete l : c_line l.
Proof.
  revert l. apply (line_mut c_line c_pipe c_exe).
  - intros p H bg. by apply complete_end.
  - intros p H bg t l Hl. by apply complete_seq.
  - apply complete_one.
  - intros e He t p Hp. by apply complete_pipe.
  - intros o l Hl c rs. by apply complete_block.
  - intros rs args. apply complete_simple.
Qed.

(** ** What the parser accepts is in the grammar, and it always answers *)

(** [r] is a panic, or the command of a tree that starts the tokens [ts]. *)
Definition answers {T} (r : parsed (cmd * list Z)) (ts : list token) (n : nat) (ok : T -> Prop) (y : T -> list token) (sem : T -> cmd) : Prop :=
  (exists msg, r = PPanic msg) \/ exists x rest s1, r = POk (sem x, s1) /\ ok x /\ ts = y x ++ rest /\ at_ s1 rest n.

Definition s_line (fuel : nat) : Prop := forall s ts n, at_ s ts n -> (4 * n + 4 <= fuel)%nat -> answers (parseline buf fuel s) ts n ok_line y_line sem_line.
Definition s_pipe (fuel : nat) : Prop := forall s ts n, at_ s ts n -> (4 * n + 3 <= fuel)%nat -> answers (parsepipe buf fuel s) ts n ok_pipe y_pipe sem_pipe.
Definition s_exe (fuel : nat) : Prop := forall s ts n, at_ s ts n -> (4 * n + 2 <= fuel)%nat -> answers (parseexec buf fuel s) ts n ok_exe y_exe sem_exe.
Definition s_block (fuel : nat) : Prop := forall s ts n, at_ s ts n -> (4 * n + 1 <= fuel)%nat -> answers (parseblock buf fuel s) ts n ok_exe y_exe sem_exe.

Lemma starts_one c t : starts [c] [t] = true -> c <> 62 -> tk t = c.
Proof. cbn [starts]. intros H Hc. apply in_chars_true in H. unfold sym in H. rewrite elem_of_cons, elem_of_nil in H. destruct (Z.eqb_spec (tk t) 43); [naive_solver|tauto]. Qed.

Lemma sound_line fuel : s_line fuel -> s_pipe fuel -> s_line (S fuel).
Proof.
  intros IHl IHp s ts n Hs Hf. cbn [parseline]. destruct (IHp s ts n Hs ltac:(lia)) as [[msg ->]|(p & rest & s1 & -> & Hp & -> & Hs1)]; [left; by eexists|]. cbn [pbind].
  destruct (back_sound (S (length s1)) (sem_pipe p) s1 rest (length s1) (at_exact _ _ _ Hs1) ltac:(lia)) as (bg & rest' & s2 & E2 & Hbg & -> & _ & Hs2). rewrite E2. cbn [pbind].
  destruct (peek_at s2 _ _ [59] Hs2 ltac:(symb)) as (s3 & E3 & Hs3). rewrite E3. assert (length s1 <= n)%nat as Hn1 by (by destruct Hs1).
  destruct (starts [59] rest') eqn:Eb.
  - destruct rest' as [|t rest']; [done|]. destruct (get_at _ _ _ _ Hs3) as (q & e & s4 & n4 & E4 & _ & _ & Hs4 & Hn4). rewrite E4.
    destruct (IHl s4 rest' n4 Hs4 ltac:(lia)) as [[msg ->]|(l & rest2 & s5 & -> & Hl & -> & Hs5)]; [left; by eexists|]. right. cbn [pbind].
    exists (L_seq p bg t l), rest2, s5. cbn [y_line sem_line ok_line]. split_and!; try done; [by apply starts_one|by rewrite <- !app_assoc|eapply at_weaken; [exact Hs5|lia]].
  - right. exists (L_end p bg), rest', s3. cbn [y_line sem_line ok_line]. split_and!; try done; [by rewrite <- app_assoc|eapply at_weaken; [exact Hs3|lia]].
Qed.

Lemma sound_pipe fuel : s_pipe fuel -> s_exe fuel -> s_pipe (S fuel).
Proof.
  intros IHp IHe s ts n Hs Hf. cbn [parsepipe]. destruct (IHe s ts n Hs ltac:(lia)) as [[msg ->]|(e & rest & s1 & -> & He & -> & Hs1)]; [left; by eexists|]. cbn [pbind].
  destruct (peek_at s1 _ _ [124] Hs1 ltac:(symb)) as (s3 & E3 & Hs3). rewrite E3. destruct (starts [124] rest) eqn:Eb.
  - destruct rest as [|t rest]; [done|]. destruct (get_at _ _ _ _ Hs3) as (q & e' & s4 & n4 & E4 & _ & _ & Hs4 & Hn4). rewrite E4.
    destruct (IHp s4 rest n4 Hs4 ltac:(lia)) as [[msg ->]|(p & rest2 & s5 & -> & Hp & -> & Hs5)]; [left; by eexists|]. right. cbn [pbind].
    exists (P_pipe e t p), rest2, s5. cbn [y_pipe sem_pipe ok_pipe]. split_and!; try done; [by apply starts_one|by rewrite <- !app_assoc|eapply at_weaken; [exact Hs5|lia]].
  - right. by exists (P_one e), rest, s3.
Qed.

Lemma sound_block fuel : s_line fuel -> s_block (S fuel).
Proof.
  intros IHl s ts n Hs Hf. cbn [parseblock]. destruct (peek_at s _ _ [40] Hs ltac:(symb)) as (s2 & E2 & Hs2). rewrite E2. destruct (starts [40] ts) eqn:Eb; cbn [negb]; [|left; by eexists].
  destruct ts as [|o ts]; [done|]. destruct (get_at _ _ _ _ Hs2) as (q & e & s3 & n3 & E3 & _ & _ & Hs3 & Hn3). rewrite E3.
  destruct (IHl s3 ts n3 Hs3 ltac:(lia)) as [[msg ->]|(l & rest & s4 & -> & Hl & -> & Hs4)]; [left; by eexists|]. cbn [pbind].
  destruct (peek_at s4 _ _ [41] Hs4 ltac:(symb)) as (s5 & E5 & Hs5). rewrite E5. destruct (starts [41] rest) eqn:Eb'; cbn [negb]; [|left; by eexists].
  destruct rest as [|c rest]; [done|]. destruct (get_at _ _ _ _ Hs5) as (q6 & e6 & s6 & n6 & E6 & _ & _ & Hs6 & Hn6). rewrite E6. assert (length s6 <= n6)%nat as Hn6' by (by destruct Hs6).
  destruct (redirs_sound (S (length s6)) (sem_line l) s6 rest (length s6) (at_exact _ _ _ Hs6) ltac:(lia)) as [[msg ->]|(rs & rest2 & s7 & -> & Hrs & -> & _ & Hs7)]; [left; by eexists|]. right.
  exists (X_block o l c rs), rest2, s7. cbn [y_exe sem_exe ok_exe]. split_and!; try done; [by apply starts_one|by apply starts_one|by rewrite <- app_comm_cons, <- app_assoc|eapply at_weaken; [exact Hs7|lia]].
Qed.

Lemma sound_exe fuel : s_block fuel -> s_exe (S fuel).
Proof.
  intros IHb s ts n Hs Hf. cbn [parseexec]. destruct (peek_at s _ _ [40] Hs ltac:(symb)) as (s1 & E1 & Hs1). rewrite E1. destruct (starts [40] ts) eqn:Eb; [apply IHb; [done|lia]|].
  assert (length s1 <= n)%nat as Hn1 by (by destruct Hs1).
  destruct (redirs_sound (S (length s1)) (EXEC []) s1 ts (length s1) (at_exact _ _ _ Hs1) ltac:(lia)) as [[msg ->]|(rs & rest & s2 & -> & Hrs & -> & Hr & Hs2)]; [left; by eexists|]. cbn [pbind].
  assert (length s2 <= length s1)%nat as Hn2 by (by destruct Hs2).
  destruct (args_sound (S (length s2)) [] rs 0 s2 rest (length s2) (at_exact _ _ _ Hs2) Hr ltac:(unfold MAXARGS; lia) ltac:(lia)) as [[msg ->]|(args & rest2 & s3 & -> & Hargs & -> & _ & Hlen & Hs3)]; [left; by eexists|]. right.
  exists (X_simple rs args), rest2, s3. cbn [y_exe sem_exe ok_exe]. split_and!; try done; [by rewrite <- app_assoc|eapply at_weaken; [exact Hs3|lia]].
Qed.

Lemma parse_sound fuel : s_line fuel /\ s_pipe fuel /\ s_exe fuel /\ s_block fuel.
Proof.
  induction fuel as [|fuel (H1 & H2 & H3 & H4)]; [split_and!; intros s ts n _ Hf; lia|].
  split_and!; [by apply sound_line|by apply sound_pipe|by apply sound_exe|by apply sound_block].
Qed.
End Grammar.

(** ** The strings of a command *)

(** The strings of a command, in the order nulterminate() reaches them. *)
Fixpoint words_of (c : cmd) : list word :=
  match c with
  | EXEC argv => argv
  | REDIR c f _ _ => words_of c ++ [f]
  | PIPE l r | LIST l r => words_of l ++ words_of r
  | BACK c => words_of c
  end.

(** The C string at [q], and the bytes between the two positions of a word. *)
Fixpoint cstring (l : list Z) : list Z := match l with [] => [] | c :: l => if c =? 0 then [] else c :: cstring l end.
Definition string_in (b : list Z) (q : Z) : list Z := cstring (drop (Z.to_nat q) b).
Definition text_of (buf : list Z) (w : word) : list Z := take (Z.to_nat (w.2 - w.1)) (drop (Z.to_nat w.1) buf).

Lemma nulterminate_words c b : nulterminate c b = fold_left (fun b w => <[Z.to_nat (snd w) := 0]> b) (words_of c) b.
Proof.
  revert b. induction c as [argv|c IH f m fd|l IHl r IHr|l IHl r IHr|c IH]; intros b; cbn [nulterminate words_of]; rewrite ?fold_left_app, ?IH, ?IHl, ?IHr; done.
Qed.

Definition wchar (c : Z) : Prop := in_chars whitespace c = false /\ in_chars symbols c = false.

(** [text_word buf w]: [w] is a maximal run of word characters of [buf]. *)
Record text_word (buf : list Z) (w : word) : Prop := {
  tw_pos : 0 <= w.1 < w.2;
  tw_end : w.2 <= Z.of_nat (length buf);
  tw_in : forall i c, w.1 <= Z.of_nat i < w.2 -> buf !! i = Some c -> wchar c;
  tw_out : forall c, buf !! Z.to_nat w.2 = Some c -> ~ wchar c
}.

Lemma skip_suffix s : (exists p, s = p ++ skip_ws s) /\ exists p, s = p ++ skip_word s /\ Forall wchar p /\ match skip_word s with [] => True | c :: _ => ~ wchar c end.
Proof.
  induction s as [|c s [(p & E) (p' & E' & F & H)]]; [split; exists []; done|]. split.
  - cbn [skip_ws]. destruct (in_chars whitespace c); [exists (c :: p); cbn; by f_equal|by exists []].
  - cbn [skip_word]. destruct (in_chars whitespace c) eqn:E1, (in_chars symbols c) eqn:E2; cbn [negb andb]; try (exists []; split_and!; [done|constructor|unfold wchar; rewrite E1, E2; naive_solver]).
    exists (c :: p'). split_and!; [cbn; by f_equal|by constructor|done].
Qed.

(** A word token of a suffix of [buf]. *)
Lemma gettoken_word buf pre s q eq s' : buf = pre ++ s -> gettoken s = (97, q, eq, s') -> clean s -> text_word buf (pos buf q, pos buf eq).
Proof.
  intros Eb Eg Hc. unfold gettoken in Eg. destruct (proj1 (skip_suffix s)) as (p1 & E1). pose proof (skip_ws_head s) as Hh. destruct (skip_ws s) as [|c r] eqn:Ews; [done|].
  specialize (Hh c r eq_refl). destruct ((c =? 124) || (c =? 40) || (c =? 41) || (c =? 59) || (c =? 38) || (c =? 60)) eqn:Esym.
  { injection Eg as -> _ _ _. cbn in Esym. done. }
  destruct (Z.eqb_spec c 62) as [->|Hne]; [destruct r as [|d r]; [done|]; by destruct (d =? 62)|]. injection Eg as <- <- _.
  change (if negb (in_chars whitespace c) && negb (in_chars symbols c) then skip_word r else c :: r) with (skip_word (c :: r)).
  assert (in_chars symbols c = false) as Hs.
  { apply in_chars_false. unfold symbols. rewrite !elem_of_cons, elem_of_nil. rewrite !orb_false_iff, !Z.eqb_neq in Esym. lia. }
  destruct (proj2 (skip_suffix (c :: r))) as (p2 & E2 & F2 & H2). set (e := skip_word (c :: r)) in *.
  assert (buf = (pre ++ p1) ++ p2 ++ e) as Ebuf by (rewrite Eb, E1, <- app_assoc; by rewrite <- E2).
  assert (p2 <> []) as Hp2. { intros ->. cbn [app] in E2. rewrite <- E2 in H2. by apply H2. }
  unfold pos. rewrite E2. replace (Z.of_nat (length buf) - Z.of_nat (length (p2 ++ e))) with (Z.of_nat (length (pre ++ p1))) by (rewrite Ebuf, !length_app; lia).
  replace (Z.of_nat (length buf) - Z.of_nat (length e)) with (Z.of_nat (length (pre ++ p1) + length p2)) by (rewrite Ebuf, !length_app; lia). set (k := length (pre ++ p1)) in *.
  assert (0 < length p2)%nat by (destruct p2; [done|cbn; lia]).
  split; cbn [fst snd].
  - lia.
  - assert (length buf = k + (length p2 + length e))%nat as -> by (unfold k; by rewrite Ebuf, <- !length_app). lia.
  - intros i x Hi Hx. rewrite Ebuf, lookup_app_r in Hx by (fold k; lia). fold k in Hx. rewrite lookup_app_l in Hx by lia. rewrite Forall_forall in F2. apply F2. by eapply list_elem_of_lookup_2.
  - intros x Hx. rewrite Nat2Z.id, Ebuf, lookup_app_r in Hx by (fold k; lia). fold k in Hx. rewrite lookup_app_r in Hx by lia. replace (k + length p2 - k - length p2)%nat with O in Hx by lia. destruct e; [done|]. by injection Hx as ->.
Qed.

Lemma gettoken_suffix s k q eq s' : gettoken s = (k, q, eq, s') -> exists p, s = p ++ s'.
Proof.
  unfold gettoken. destruct (proj1 (skip_suffix s)) as (p1 & E1). destruct (skip_ws s) as [|c r]; [intros [= <- <- <- <-]; exists p1; rewrite E1; done|].
  destruct (proj1 (skip_suffix r)) as (p2 & E2).
  destruct (_ || _); [intros [= <- <- <- <-]; exists (p1 ++ c :: p2); rewrite E1, <- app_assoc; cbn; by rewrite <- E2|].
  destruct (c =? 62).
  - destruct r as [|d r']; [intros [= <- <- <- <-]; exists (p1 ++ [c]); rewrite E1; by rewrite app_nil_r|]. destruct (proj1 (skip_suffix r')) as (p3 & E3).
    destruct (d =? 62); intros [= <- <- <- <-]; [exists (p1 ++ c :: d :: p3)|exists (p1 ++ c :: p2)]; rewrite E1, <- app_assoc; cbn [app]; [by rewrite <- E3|].
    f_equal. f_equal. exact E2.
  - intros [= <- <- <- <-]. destruct (proj2 (skip_suffix (c :: r))) as (p3 & E3 & _). cbn [skip_word] in E3. set (e := if _ && _ then _ else _) in *. destruct (proj1 (skip_suffix e)) as (p4 & E4).
    exists (p1 ++ p3 ++ p4). rewrite E1, E3, <- !app_assoc. by rewrite <- E4.
Qed.

Lemma toks_words buf s pre t : buf = pre ++ s -> clean s -> t ∈ toks buf s -> tk t = 97 -> text_word buf (word_of t).
Proof.
  unfold toks. remember (S (length s)) as n eqn:Hn. clear Hn. revert pre s. induction n as [|n IH]; intros pre s Eb Hc Ht Hk; [by apply elem_of_nil in Ht|]. cbn [toks_fuel] in Ht.
  destruct (gettoken s) as [[[k q] eq] s'] eqn:Eg. destruct (Z.eqb_spec k 0); [by apply elem_of_nil in Ht|]. apply elem_of_cons in Ht as [->|Ht].
  - cbn in Hk. subst k. by eapply gettoken_word.
  - destruct (gettoken_suffix _ _ _ _ _ Eg) as (p & Ep). apply (IH (pre ++ p) s'); [by rewrite Eb, Ep, app_assoc| |done|done]. rewrite Ep in Hc. apply Forall_app in Hc. apply Hc.
Qed.

(** The strings of the command of a tree are words of the text. *)
Lemma sem_words :
  (forall l, ok_line l -> forall w, w ∈ words_of (sem_line l) -> exists t, t ∈ y_line l /\ tk t = 97 /\ w = word_of t) /\
  (forall p, ok_pipe p -> forall w, w ∈ words_of (sem_pipe p) -> exists t, t ∈ y_pipe p /\ tk t = 97 /\ w = word_of t) /\
  (forall e, ok_exe e -> forall w, w ∈ words_of (sem_exe e) -> exists t, t ∈ y_exe e /\ tk t = 97 /\ w = word_of t).
Proof.
  assert (forall bg c, words_of (sem_back bg c) = words_of c) as Hback by (unfold sem_back; induction bg as [|t bg IH]; intros c; [done|cbn; by rewrite IH]).
  assert (forall rs c w, Forall ok_redir rs -> w ∈ words_of (sem_redirs rs c) -> w ∈ words_of c \/ exists t, t ∈ y_redirs rs /\ tk t = 97 /\ w = word_of t) as Hredirs.
  { unfold sem_redirs, y_redirs. induction rs as [|[op f] rs IH]; intros c w Hok Hw; [by left|]. apply Forall_cons in Hok as [[_ Hf] Hok]. cbn [fold_left map concat app fst snd] in *.
    destruct (IH _ _ Hok Hw) as [H|(t & H1 & H2)]; [|right; exists t; split; [by do 2 apply list_elem_of_further|done]].
    assert (words_of (sem_redir c (op, f)) = words_of c ++ [word_of f]) as E by (unfold sem_redir; by repeat case_match). rewrite E in H.
    apply elem_of_app in H as [H|H]; [by left|]. apply list_elem_of_singleton in H. right. exists f. split_and!; [by constructor; constructor|done|done]. }
  apply grammar_ind; cbn [sem_line sem_pipe sem_exe y_line y_pipe y_exe ok_line ok_pipe ok_exe words_of].
  - intros p IH bg [Hp _] w Hw. rewrite Hback in Hw. destruct (IH Hp w Hw) as (t & H1 & H2). exists t. rewrite elem_of_app. auto.
  - intros p IH bg t l IHl (Hp & _ & _ & Hl) w Hw. rewrite Hback in Hw. apply elem_of_app in Hw as [Hw|Hw].
    + destruct (IH Hp w Hw) as (t' & H1 & H2). exists t'. rewrite elem_of_app. auto.
    + destruct (IHl Hl w Hw) as (t' & H1 & H2). exists t'. rewrite !elem_of_app, elem_of_cons. auto.
  - done.
  - intros e IHe t p IHp (He & _ & Hp) w Hw. apply elem_of_app in Hw as [Hw|Hw].
    + destruct (IHe He w Hw) as (t' & H1 & H2). exists t'. rewrite elem_of_app. auto.
    + destruct (IHp Hp w Hw) as (t' & H1 & H2). exists t'. rewrite elem_of_app, elem_of_cons. auto.
  - intros o l IHl c rs (_ & Hl & _ & Hrs) w Hw. destruct (Hredirs _ _ _ Hrs Hw) as [H|(t & H1 & H2)].
    + destruct (IHl Hl w H) as (t' & H1 & H2). exists t'. rewrite elem_of_cons, elem_of_app. auto.
    + exists t. rewrite elem_of_cons, elem_of_app, elem_of_cons. auto.
  - intros rs args (Hrs & Hargs & _) w Hw. rewrite Forall_forall in Hargs.
    assert (forall t, t ∈ y_redirs (rs ++ concat (map snd args)) -> t ∈ y_redirs rs ++ y_args args) as Hin.
    { unfold y_redirs, y_args. intros t. rewrite map_app, concat_app, !elem_of_app. intros [H|H]; [by left|right]. rewrite concat_map, map_map in H. clear -H.
      induction args as [|[a rs'] args IH]; [done|]. cbn [map concat] in *. rewrite concat_app in H. rewrite !elem_of_app in *. cbn [fst snd]. rewrite elem_of_cons. unfold y_redirs. tauto. }
    assert (Forall ok_redir (rs ++ concat (map snd args))) as Hall.
    { apply Forall_app. split; [done|]. apply Forall_concat, Forall_map, Forall_forall. intros a Ha. by apply Hargs. }
    destruct (Hredirs _ _ _ Hall Hw) as [H|(t & H1 & H2)]; [|exists t; auto].
    cbn [words_of] in H. apply list_elem_of_fmap in H as (a & -> & Ha). exists a.1. rewrite elem_of_app. split_and!; [right|by apply Hargs|done].
    unfold y_args. rewrite list_elem_of_In, in_concat. exists (a.1 :: y_redirs a.2). split; [|by left]. apply in_map_iff. exists a. by rewrite <- list_elem_of_In.
Qed.

(** The bytes of a line after NULs were written at the ends of [ws]. *)
Definition set_ends (ws : list word) (b : list Z) : list Z := fold_left (fun b w => <[Z.to_nat (snd w) := 0]> b) ws b.
Lemma set_ends_length ws b : length (set_ends ws b) = length b.
Proof. unfold set_ends. revert b. induction ws as [|w ws IH]; intros b; [done|]. cbn [fold_left]. by rewrite IH, length_insert. Qed.
Lemma set_ends_out ws b i : (forall w, w ∈ ws -> Z.to_nat w.2 <> i) -> set_ends ws b !! i = b !! i.
Proof.
  unfold set_ends. revert b. induction ws as [|w ws IH]; intros b H; [done|]. cbn [fold_left]. rewrite IH by (intros w' Hw'; apply H; by constructor).
  apply list_lookup_insert_ne. apply H. constructor.
Qed.
Lemma set_ends_in ws b w : w ∈ ws -> (Z.to_nat w.2 < length b)%nat -> set_ends ws b !! Z.to_nat w.2 = Some 0.
Proof.
  intros (l1 & l2 & ->)%list_elem_of_split Hl. unfold set_ends. rewrite fold_left_app. cbn [fold_left]. fold (set_ends l1 b). set (b1 := set_ends l1 b).
  assert (forall l b, b !! Z.to_nat w.2 = Some 0 -> set_ends l b !! Z.to_nat w.2 = Some 0) as Hkeep.
  { clear. unfold set_ends. induction l as [|w' l IH]; intros b Hb; [done|]. cbn [fold_left]. apply IH. destruct (decide (Z.to_nat w'.2 = Z.to_nat w.2)) as [->|Hne].
    - apply list_lookup_insert_eq. by apply lookup_lt_Some in Hb.
    - by rewrite list_lookup_insert_ne. }
  apply Hkeep, list_lookup_insert_eq. unfold b1. by rewrite set_ends_length.
Qed.

(** Writing NULs at the ends of words of the text leaves each word as a string. *)
Lemma terminate_strings buf ws w : Forall (text_word buf) ws -> w ∈ ws -> clean buf -> string_in (set_ends ws (buf ++ [0])) w.1 = text_of buf w.
Proof.
  intros Hws Hw Hc. pose proof (proj1 (Forall_forall _ _) Hws _ Hw) as [Hp He Hin Hout].
  set (b := set_ends _ _). unfold string_in, text_of.
  assert (forall k, (k <= Z.to_nat (w.2 - w.1))%nat -> cstring (drop (Z.to_nat w.2 - k) b) = take k (drop (Z.to_nat w.2 - k) buf)) as Hk.
  { induction k as [|k IH]; intros Hk.
    - rewrite Nat.sub_0_r, (drop_S _ 0); [done|]. unfold b. apply set_ends_in; [done|]. rewrite length_app. cbn. lia.
    - specialize (IH ltac:(lia)). set (i := (Z.to_nat w.2 - S k)%nat) in *. replace (Z.to_nat w.2 - k)%nat with (S i) in IH by lia.
      destruct (lookup_lt_is_Some_2 buf i ltac:(lia)) as [x Hx]. assert (b !! i = Some x) as Hb.
      { unfold b. rewrite set_ends_out; [by apply lookup_app_l_Some|]. intros w' Hw' Ei.
        destruct (proj1 (Forall_forall _ _) Hws _ Hw') as [_ _ _ Hout']. apply (Hout' x); [by rewrite Ei|]. apply (Hin i); [lia|done]. }
      rewrite (drop_S b x i Hb), (drop_S buf x i Hx). cbn [cstring take]. rewrite IH. pose proof (Forall_lookup_1 _ _ _ _ Hc Hx) as H0. cbn in H0. by rewrite (proj2 (Z.eqb_neq _ _) H0). }
  specialize (Hk _ (le_n _)). replace (Z.to_nat w.2 - Z.to_nat (w.2 - w.1))%nat with (Z.to_nat w.1) in Hk by lia. exact Hk.
Qed.

(** A text that spells a tree is parsed into its command. *)
Lemma parsecmd_ast_tree buf l : clean buf -> ok_line l -> toks buf buf = y_line l -> parsecmd_ast buf = POk (sem_line l).
Proof.
  intros Hc Hl Et. assert (at_ buf buf (y_line l ++ []) (length buf)) as Hat by (split; [done|by rewrite app_nil_r|lia]).
  destruct (parse_complete buf l Hl [] (parse_fuel buf) buf _ Hat ltac:(by left) ltac:(unfold parse_fuel; lia)) as (s1 & E & [Hs Ht _]).
  unfold parsecmd_ast. rewrite E. cbn [pbind]. unfold peek.
  destruct (gettoken_toks buf s1 Hs) as [(_ & -> & _)|(t & ts & q & eq & s' & E' & _)]; [done|by rewrite E' in Ht].
Qed.

(** A text is parsed when its tokens are those of a tree, into the command of the tree. *)
Lemma parsecmd_ast_ok buf : clean buf ->
  (exists msg, parsecmd_ast buf = PPanic msg /\ ~ exists l, ok_line l /\ toks buf buf = y_line l) \/
  exists l, parsecmd_ast buf = POk (sem_line l) /\ ok_line l /\ toks buf buf = y_line l.
Proof.
  intros Hc. assert (at_ buf buf (toks buf buf) (length buf)) as Hat by (split; [done|done|lia]).
  assert (forall msg, parsecmd_ast buf = PPanic msg -> exists msg, parsecmd_ast buf = PPanic msg /\ ~ exists l, ok_line l /\ toks buf buf = y_line l) as Hpanic.
  { intros msg E. exists msg. split; [done|]. intros (l & Hl & Et). by rewrite (parsecmd_ast_tree buf l Hc Hl Et) in E. }
  destruct (proj1 (parse_sound buf (parse_fuel buf)) buf _ _ Hat ltac:(unfold parse_fuel; lia)) as [(msg & E)|(l & rest & s1 & E & Hl & Et & Hs1)].
  { left. apply (Hpanic msg). unfold parsecmd_ast. by rewrite E. }
  destruct rest as [|t rest].
  - right. exists l. rewrite app_nil_r in Et. auto using parsecmd_ast_tree.
  - left. apply (Hpanic "syntax"%string). unfold parsecmd_ast. rewrite E. cbn [pbind]. unfold peek. destruct (skip_ws s1) as [|c r] eqn:Es; [|done]. exfalso.
    destruct Hs1 as [Hs Ht _]. rewrite <- toks_ws, Es in Ht by done. done.
Qed.

(** C34: parsecmd() of user/sh.c decides the shell's grammar.  On a line
    without NULs, never out of fuel and so without running away, it returns a
    command exactly when the tokens of the whole line spell a syntax tree of
    the grammar (pipelines of blocks and simple commands with redirections and
    fewer than MAXARGS words, background marks, sequences), the command is the
    one that tree stands for, and in the line as nulterminate() leaves it the C
    string at each argument and each file name is exactly the text of that
    word, which is not empty. *)
Theorem parsecmd_grammar (buf : list Z) (Hc : clean buf) :
  (forall c, (exists b, parsecmd buf = POk (c, b)) <-> exists l, ok_line l /\ toks buf buf = y_line l /\ c = sem_line l) /\
  parsecmd buf <> POut /\
  (forall c b w, parsecmd buf = POk (c, b) -> w ∈ words_of c -> string_in b w.1 = text_of buf w /\ text_of buf w <> []).
Proof.
  destruct (parsecmd_ast_ok buf Hc) as [(msg & E & Hno)|(l & E & Hl & Et)]; unfold parsecmd; rewrite E; cbn [pbind].
  { split_and!; [|done|done]. intros c. split; [by intros (b & ?)|]. intros (l & ? & ? & _). destruct Hno. eauto. }
  split_and!; [|done|].
  - intros c. split; [intros (b & [= <- <-]); eauto|]. intros (l' & Hl' & Et' & ->). rewrite (parsecmd_ast_tree buf l' Hc Hl' Et') in E. injection E as ->. eauto.
  - intros c b w [= <- <-] Hw. 
    assert (Forall (text_word buf) (words_of (sem_line l))) as Hws.
    { apply Forall_forall. intros w' (t & Ht & Hk & ->)%(proj1 sem_words l Hl). rewrite <- Et in Ht. by apply (toks_words buf buf []). }
    rewrite nulterminate_words. split; [by apply terminate_strings|]. destruct (proj1 (Forall_forall _ _) Hws _ Hw) as [Hp He _ _].
    intros Hnil%(f_equal length). unfold text_of in Hnil. rewrite length_take, length_drop in Hnil. cbn in Hnil. lia.
Qed.

(** The line [(echo a>f;wc)<g|cat&] and a line with a stray parenthesis. *)
Lemma parsecmd_grammar_witness :
  (exists c b, parsecmd (str "(echo a>f;wc)<g|cat&") = POk (c, b) /\ words_of c = [(1, 5); (6, 7); (8, 9); (10, 12); (14, 15); (16, 19)] /\ string_in b 1 = str "echo" /\ string_in b 8 = str "f") /\
  (exists c b l, parsecmd (str "(echo a>f;wc)<g|cat&") = POk (c, b) /\ ok_line l /\ c = sem_line l) /\
  parsecmd (str "echo a)") = PPanic "syntax".
Proof.
  split_and!; [do 2 eexists; split_and!; [vm_compute; reflexivity|reflexivity..]| |vm_compute; reflexivity].
  assert (clean (str "(echo a>f;wc)<g|cat&")) as Hc by (repeat constructor; done).
  assert (exists p, parsecmd (str "(echo a>f;wc)<g|cat&") = POk p) as [[c b] Ep] by (eexists; vm_compute; reflexivity).
  destruct (proj1 (proj1 (parsecmd_grammar _ Hc) c)) as (l & Hl & _ & E); [by exists b|]. by exists c, b, l.
Defined.
