(* ===== verification/Sched.v ===== *)
(** * Processes on several CPUs: sleep, wakeup and the scheduler

    kernel/proc.c's scheduler(), sched(), yield(), sleep(), wakeup(), kill(),
    fork(), exit(), thread_exit() and wait(), and kernel/sleeplock.c, on any number
    of CPUs that run at once.  Of fork(), exit() and wait() this is what they do to
    the process table and the locks they take; memory and files are other
    components'.  create_thread() and join_thread() are not among the calls, so no
    process is a thread.
    A thread is the kernel thread of a process or the scheduler of a CPU; its
    code is where it is in the functions above, and swtch() leaves a thread
    where it is and goes on with another.  One step of a CPU is one statement of
    the C code; acquire() and release() are those of Locks.v, which keep the
    nesting depth and the interrupt state of each CPU.  Interrupts may come
    between any two steps while they are enabled.

    The theorems say what these functions are for: no panic, no process on two
    CPUs, sleep locks exclude each other, no wakeup and no exit is lost, and the
    CPUs never block each other for good. *)
From stdpp Require Import strings.
From S2P Require Import Prelude Mem Page Locks.
From Stdlib Require Import ZArith Lia.
Local Open Scope list_scope.
Local Open Scope Z_scope.
Local Open Scope kernel_scope.

Definition NPROC : nat := 64.
(** userinit() takes the first slot. *)
Definition initproc : nat := 0.

Inductive procstate := UNUSED | USED | SLEEPING | RUNNABLE | RUNNING | ZOMBIE.
#[export] Instance procstate_eq : EqDecision procstate.
Proof. solve_decision. Defined.

(** Sleep channels are addresses: of a sleep lock, of a struct proc, of ticks,
    of a device's request; [NoChan] is the null pointer. *)
Inductive channel := NoChan | OnSleep (r : slock) | OnProc (p : nat) | OnTicks | OnDev (z : Z).
#[export] Instance channel_eq : EqDecision channel.
Proof. solve_decision. Defined.

(** The fields of struct proc that p->lock protects, and is_thread. *)
Record procd := mkProcd { p_state : procstate; p_chan : channel; p_killed : Z; p_pid : Z; p_thread : Z }.

Definition set_state (x : procstate) (p : procd) : procd := mkProcd x (p_chan p) (p_killed p) (p_pid p) (p_thread p).
Definition set_chan (x : channel) (p : procd) : procd := mkProcd (p_state p) x (p_killed p) (p_pid p) (p_thread p).
Definition set_pkilled (x : Z) (p : procd) : procd := mkProcd (p_state p) (p_chan p) x (p_pid p) (p_thread p).

(** What the CPUs share: their locks and interrupt state, the process table,
    each process's parent, the sleep locks, each CPU's c->proc, nextpid, ticks,
    and each process's infant_threads. *)
Record shared := mkShared {
  sh_spin : Spin.state; sh_proc : nat -> procd; sh_parent : nat -> option nat; sh_sleep : slock -> sleeplock;
  sh_cproc : Z -> option nat; sh_nextpid : Z; sh_ticks : Z; sh_infant : nat -> nat -> option nat
}.

Definition set_spin (x : Spin.state) (s : shared) : shared :=
  mkShared x (sh_proc s) (sh_parent s) (sh_sleep s) (sh_cproc s) (sh_nextpid s) (sh_ticks s) (sh_infant s).
Definition set_proc (p : nat) (f : procd -> procd) (s : shared) : shared :=
  mkShared (sh_spin s) (fun q => if decide (q = p) then f (sh_proc s p) else sh_proc s q) (sh_parent s) (sh_sleep s) (sh_cproc s) (sh_nextpid s) (sh_ticks s) (sh_infant s).
Definition set_parent (p : nat) (x : option nat) (s : shared) : shared :=
  mkShared (sh_spin s) (sh_proc s) (fun q => if decide (q = p) then x else sh_parent s q) (sh_sleep s) (sh_cproc s) (sh_nextpid s) (sh_ticks s) (sh_infant s).
Definition set_slock (r : slock) (f : sleeplock -> sleeplock) (s : shared) : shared :=
  mkShared (sh_spin s) (sh_proc s) (sh_parent s) (fun x => if decide (x = r) then f (sh_sleep s r) else sh_sleep s x) (sh_cproc s) (sh_nextpid s) (sh_ticks s) (sh_infant s).
Definition set_cproc (c : Z) (x : option nat) (s : shared) : shared :=
  mkShared (sh_spin s) (sh_proc s) (sh_parent s) (sh_sleep s) (fun d => if d =? c then x else sh_cproc s d) (sh_nextpid s) (sh_ticks s) (sh_infant s).
Definition set_nextpid (x : Z) (s : shared) : shared :=
  mkShared (sh_spin s) (sh_proc s) (sh_parent s) (sh_sleep s) (sh_cproc s) x (sh_ticks s) (sh_infant s).
Definition set_ticks (x : Z) (s : shared) : shared :=
  mkShared (sh_spin s) (sh_proc s) (sh_parent s) (sh_sleep s) (sh_cproc s) (sh_nextpid s) x (sh_infant s).
(** memset(p->infant_threads, 0, MAX_THREADS), which clears as many bytes. *)
Definition MAX_THREADS : nat := 64.
Definition clear_infants (p : nat) (s : shared) : shared :=
  mkShared (sh_spin s) (sh_proc s) (sh_parent s) (sh_sleep s) (sh_cproc s) (sh_nextpid s) (sh_ticks s)
    (fun q i => if decide (q = p /\ (8 * i < MAX_THREADS)%nat) then None else sh_infant s q i).

#[export] Instance shared_spin : Lens shared Spin.state.
Proof. refine {| view := sh_spin; update := set_spin |}; [done|by intros []|done]. Defined.

(** ** Where a thread is

    A constructor is a program point; [k] is where the function returns to.
    [Top x] is a process in user space or in kernel code that holds no spin
    lock; [Forkret] is where a new process starts. *)

(** What a process at [Top] has: sleep locks, and whether it is in exit() or
    thread_exit(), past the tests and closing its files. *)
Record ctx := mkCtx { x_locks : list slock; x_exit : bool }.
Definition user : ctx := mkCtx [] false.
Definition closing : ctx := mkCtx [] true.
Definition with_lock (r : slock) (x : ctx) : ctx := mkCtx (r :: x_locks x) (x_exit x).
Inductive pc :=
  | Top (x : ctx)
  | Forkret (p : nat)
  (* sched: the tests; swtch; restoring intena *)
  | Sched0 (p : nat) (k : pc) | Sched1 (p : nat) (k : pc) | Sched2 (ia : Z) (k : pc)
  (* yield *)
  | Yield0 (k : pc) | Yield1 (p : nat) (k : pc) | Yield2 (p : nat) (k : pc)
  (* sleep *)
  | Sleep0 (ch : channel) (lk : klock) (k : pc) | Sleep1 (p : nat) (ch : channel) (lk : klock) (k : pc)
  | Sleep2 (p : nat) (ch : channel) (lk : klock) (k : pc) | Sleep3 (p : nat) (ch : channel) (lk : klock) (k : pc)
  | Sleep4 (p : nat) (ch : channel) (lk : klock) (k : pc) | Sleep5 (p : nat) (lk : klock) (k : pc) | Sleep6 (lk : klock) (k : pc)
  (* wakeup: the loop, the test, the release *)
  | Wake0 (ch : channel) (i : nat) (k : pc) | Wake1 (ch : channel) (i : nat) (k : pc) | Wake2 (ch : channel) (i : nat) (k : pc)
  (* acquiresleep and releasesleep of [r]; [x] has the other sleep locks held *)
  | AS0 (r : slock) (x : ctx) | AS1 (r : slock) (x : ctx) | AS2 (r : slock) (x : ctx) | AS3 (r : slock) (x : ctx) | AS4 (r : slock) (x : ctx)
  | RS0 (r : slock) (x : ctx) | RS1 (r : slock) (x : ctx) | RS2 (r : slock) (x : ctx) | RS3 (r : slock) (x : ctx)
  (* kill *)
  | Kill0 (pid : Z) (i : nat) (k : pc) | Kill1 (pid : Z) (i : nat) (k : pc) | Kill2 (pid : Z) (i : nat) (k : pc) | Kill3 (i : nat) (k : pc)
  (* exit: the test of is_thread, the loop over the threads of [q]; thread_exit too:
     the test for init; from acquire(&wait_lock) on, reparent's loop in [Exit1]; a zombie *)
  | Exit0 | ExT0 (q i : nat) | ExT1 (q i j : nat) | ExT2 (q i j : nat) | ExT3 (q i j : nat) | ExT4 (q i j : nat) | ExT5 (q i : nat)
  | ExitI | ExitA | Exit1 (p i : nat) | Exit2 (p : nat) | Exit3 (p : nat) | Exit4 (p : nat) | Exit5 (p : nat) | Dead (p : nat)
  (* wait: the scan, the child's test, copyout and freeproc of a zombie, release;
     the test of killed(); the ways out *)
  | Wait0 | Wait1 (p i : nat) (hk : bool) | Wait2 (p i : nat) | WaitZ (p i : nat) | Wait3 (p i : nat)
  | Wait4 (p : nat) | Wait5 (p : nat) | Wait6 (p : nat) (b : bool) | WaitR (i : nat) | WaitX
  (* fork: allocproc's scan, allocpid, trapframe, page table and context ([Fork3]),
     the infants; then from uvmcopy on ([Fork4]) *)
  | Fork0 (i : nat) | Fork1 (i : nat) | ForkPid0 (i : nat) | ForkPid1 (i : nat) | ForkPid2 (i : nat) (pid : Z)
  | Fork2 (i : nat) (pid : Z) | Fork3 (i : nat) | ForkM (i : nat) | Fork4 (i : nat) | ForkRel (i : nat)
  | Fork5 (i : nat) | Fork6 (i : nat) | Fork7 (i : nat) | Fork8 (i : nat) | Fork9 (i : nat) | Fork10 (i : nat)
  (* a critical section of [l] in a function called at [k] *)
  | Lf0 (l : klock) (k : pc) | Lf1 (l : klock) (k : pc)
  (* kerneltrap after devintr, and the return from the trap *)
  | KTrap (k : pc) | Tret (k : pc)
  (* clockintr, and a device's handler *)
  | Clk0 (k : pc) | Clk1 (k : pc) | Clk2 (k : pc)
  | Dev0 (k : pc) | Dev1 (k : pc)
  (* scheduler *)
  | S0 | S1 (i : nat) | S2 (i : nat) | S3 (i : nat) | S4 (i : nat) | S5 (i : nat) | S6 (i : nat).

(** A thread: of a process, or the scheduler of a CPU. *)
Inductive tid := P (p : nat) | S_ (c : Z).
#[export] Instance tid_eq : EqDecision tid.
Proof. solve_decision. Defined.

(** After a step the CPU goes on with the same thread, or swtch() leaves this
    one at [k] for another; [Spawn] also sets process [i]'s context to start at
    forkret(). *)
Inductive next := Go (k : pc) | Sw (k : pc) (t : tid) | Spawn (k : pc) (i : nat).

Definition pl (p : nat) : klock := L_proc (Z.of_nat p).
Definition acq (c : Z) (l : klock) (k : pc) : M shared next := lift (Spin.acquire c l) ;;; ret (Go k).
Definition rel (c : Z) (l : klock) (k : pc) : M shared next := lift (Spin.release c l) ;;; ret (Go k).
Definition go (f : shared -> shared) (k : pc) : M shared next := modify f ;;; ret (Go k).
Definition myproc (c : Z) : M shared nat := p <- gets (fun s => sh_cproc s c) ;; match p with Some p => ret p | None => fault end.
Definition set_intena (c ia : Z) (s : shared) : shared :=
  let k := Spin.cpus (sh_spin s) c in set_spin (Spin.set_cpu c (Spin.mkCpu (Spin.noff k) ia (Spin.sie k)) (sh_spin s)) s.
Definition set_sie (c x : Z) (s : shared) : shared :=
  let k := Spin.cpus (sh_spin s) c in set_spin (Spin.set_cpu c (Spin.mkCpu (Spin.noff k) (Spin.intena k) x) (sh_spin s)) s.

(** ** The functions *)

(** sched() up to swtch(). *)
Definition sched (c : Z) (p : nat) (k : pc) : M shared next := fun s =>
  if negb (Spin.holding c (pl p) (sh_spin s)) then Panic "sched p->lock" s
  else if negb (Spin.noff (Spin.cpus (sh_spin s) c) =? 1) then Panic "sched locks" s
  else if decide (p_state (sh_proc s p) = RUNNING) then Panic "sched running" s
  else if negb (Spin.sie (Spin.cpus (sh_spin s) c) =? 0) then Panic "sched interruptible" s
  else Ret (Go (Sched1 p k)) s.

Definition sched_switch (c : Z) (p : nat) (k : pc) : M shared next :=
  ia <- gets (fun s => Spin.intena (Spin.cpus (sh_spin s) c)) ;; ret (Sw (Sched2 ia k) (S_ c)).

Definition yield (c : Z) (k : pc) : M shared next :=
  match k with
  | Yield0 k => p <- myproc c ;; acq c (pl p) (Yield1 p k)
  | Yield1 p k => go (set_proc p (set_state RUNNABLE)) (Sched0 p (Yield2 p k))
  | Yield2 p k => rel c (pl p) k
  | _ => fault
  end.

Definition sleep_ (c : Z) (k : pc) : M shared next :=
  match k with
  | Sleep0 ch lk k => p <- myproc c ;; acq c (pl p) (Sleep1 p ch lk k)
  | Sleep1 p ch lk k => rel c lk (Sleep2 p ch lk k)
  | Sleep2 p ch lk k => go (set_proc p (set_chan ch)) (Sleep3 p ch lk k)
  | Sleep3 p ch lk k => go (set_proc p (set_state SLEEPING)) (Sched0 p (Sleep4 p ch lk k))
  | Sleep4 p ch lk k => go (set_proc p (set_chan NoChan)) (Sleep5 p lk k)
  | Sleep5 p lk k => rel c (pl p) (Sleep6 lk k)
  | Sleep6 lk k => acq c lk k
  | _ => fault
  end.

Definition wakes (ch : channel) (d : procd) : bool := bool_decide (p_state d = SLEEPING) && bool_decide (p_chan d = ch).

Definition wakeup_ (c : Z) (k : pc) : M shared next :=
  match k with
  | Wake0 ch i k =>
      if Nat.leb NPROC i then ret (Go k)
      else me <- gets (fun s => sh_cproc s c) ;;
           if bool_decide (me = Some i) then ret (Go (Wake0 ch (S i) k)) else acq c (pl i) (Wake1 ch i k)
  | Wake1 ch i k => go (fun s => if wakes ch (sh_proc s i) then set_proc i (set_state RUNNABLE) s else s) (Wake2 ch i k)
  | Wake2 ch i k => rel c (pl i) (Wake0 ch (S i) k)
  | _ => fault
  end.

Definition sleeplock_ (c : Z) (k : pc) : M shared next :=
  match k with
  | AS0 r x => acq c (L_sleep r) (AS1 r x)
  | AS1 r x => v <- gets (fun s => sl_locked (sh_sleep s r)) ;;
      ret (Go (if negb (v =? 0) then Sleep0 (OnSleep r) (L_sleep r) (AS1 r x) else AS2 r x))
  | AS2 r x => go (set_slock r (fun l => mkSleeplock 1 (sl_pid l))) (AS3 r x)
  | AS3 r x => p <- myproc c ;; go (fun s => set_slock r (fun l => mkSleeplock (sl_locked l) (p_pid (sh_proc s p))) s) (AS4 r x)
  | AS4 r x => rel c (L_sleep r) (Top (with_lock r x))
  | RS0 r x => acq c (L_sleep r) (RS1 r x)
  | RS1 r x => go (set_slock r (fun l => mkSleeplock 0 (sl_pid l))) (RS2 r x)
  | RS2 r x => go (set_slock r (fun l => mkSleeplock (sl_locked l) 0)) (Wake0 (OnSleep r) 0 (RS3 r x))
  | RS3 r x => rel c (L_sleep r) (Top x)
  | _ => fault
  end.

Definition kill_ (c : Z) (k : pc) : M shared next :=
  match k with
  | Kill0 pid i k => if Nat.leb NPROC i then ret (Go k) else acq c (pl i) (Kill1 pid i k)
  | Kill1 pid i k => x <- gets (fun s => p_pid (sh_proc s i)) ;;
      if x =? pid
      then go (fun s => let s := set_proc i (set_pkilled 1) s in
                 if decide (p_state (sh_proc s i) = SLEEPING) then set_proc i (set_state RUNNABLE) s else s) (Kill3 i k)
      else ret (Go (Kill2 pid i k))
  | Kill2 pid i k => rel c (pl i) (Kill0 pid (S i) k)
  | Kill3 i k => rel c (pl i) k
  | _ => fault
  end.

(** freeproc() on the process table; the process's parent is reset too. *)
Definition freeproc (p : nat) (s : shared) : shared := set_parent p None (set_proc p (fun d => mkProcd UNUSED NoChan 0 0 (p_thread d)) s).

(** The loop of reparent(), with wait_lock held. *)
Definition reparent (c : Z) (k : pc) : M shared next :=
  match k with
  | Exit1 p i =>
      if Nat.leb NPROC i then ret (Go (Exit2 p))
      else x <- gets (fun s => sh_parent s i) ;;
           if bool_decide (x = Some p) then go (set_parent i (Some initproc)) (Wake0 (OnProc initproc) 0 (Exit1 p (S i)))
           else ret (Go (Exit1 p (S i)))
  | _ => fault
  end.

(** exit() and, from [ExitI] on, thread_exit().  They close the files of the
    process at [Top closing], as any code that holds no spin lock; a thread's
    exit() closes those of the threads in [ExT1]. *)
Definition exit_ (c : Z) (k : pc) : M shared next :=
  match k with
  | Exit0 => p <- myproc c ;; t <- gets (fun s => p_thread (sh_proc s p)) ;;
      if t =? 0 then ret (Go ExitI)
      else x <- gets (fun s => sh_parent s p) ;; match x with Some q => ret (Go (ExT0 q 0)) | None => fault end
  | ExT0 q i =>
      if Nat.leb MAX_THREADS i then ret (Go ExitI)
      else x <- gets (fun s => sh_infant s q i) ;; ret (Go (match x with Some j => ExT1 q i j | None => ExT0 q (S i) end))
  | ExT1 q i j => acq c L_wait (ExT2 q i j)
  | ExT2 q i j => acq c (pl j) (ExT3 q i j)
  | ExT3 q i j => go (set_proc j (set_state ZOMBIE)) (ExT4 q i j)
  | ExT4 q i j => rel c (pl j) (ExT5 q i)
  | ExT5 q i => rel c L_wait (ExT0 q (S i))
  | ExitI => p <- myproc c ;; if Nat.eqb p initproc then panic "init exiting" else ret (Go (Top closing))
  | ExitA => p <- myproc c ;; acq c L_wait (Exit1 p 0)
  | Exit1 _ _ => reparent c k
  | Exit2 p => x <- gets (fun s => sh_parent s p) ;;
      ret (Go (Wake0 (match x with Some q => OnProc q | None => NoChan end) 0 (Exit3 p)))
  | Exit3 p => acq c (pl p) (Exit4 p)
  | Exit4 p => go (set_proc p (set_state ZOMBIE)) (Exit5 p)
  | Exit5 p => rel c L_wait (Sched0 p (Dead p))
  | Dead p => panic "zombie exit"
  | _ => fault
  end.

Definition wait_ (c : Z) (k : pc) : M shared next :=
  match k with
  | Wait0 => p <- myproc c ;; acq c L_wait (Wait1 p 0 false)
  | Wait1 p i hk =>
      if Nat.leb NPROC i then ret (Go (if hk then Wait4 p else WaitX))
      else x <- gets (fun s => sh_parent s i) ;;
           if bool_decide (x = Some p) then acq c (pl i) (Wait2 p i) else ret (Go (Wait1 p (S i) hk))
  | Wait2 p i => x <- gets (fun s => p_state (sh_proc s i)) ;;
      ret (Go (if decide (x = ZOMBIE) then WaitZ p i else Wait3 p i))
  | WaitZ p i => go (freeproc i) (WaitR i)
  | Wait3 p i => rel c (pl i) (Wait1 p (S i) true)
  | Wait4 p => acq c (pl p) (Wait5 p)
  | Wait5 p => x <- gets (fun s => p_killed (sh_proc s p)) ;; ret (Go (Wait6 p (negb (x =? 0))))
  | Wait6 p b => rel c (pl p) (if b then WaitX else Sleep0 (OnProc p) L_wait (Wait1 p 0 false))
  | WaitR i => rel c (pl i) WaitX
  | WaitX => rel c L_wait (Top user)
  | _ => fault
  end.

Definition allocpid (c : Z) (k : pc) : M shared next :=
  match k with
  | ForkPid0 i => acq c L_pid (ForkPid1 i)
  | ForkPid1 i => pid <- gets sh_nextpid ;; go (set_nextpid (s32 (pid + 1))) (ForkPid2 i pid)
  | ForkPid2 i pid => rel c L_pid (Fork2 i pid)
  | _ => fault
  end.

(** allocproc() for fork(); [Spawn] is where it sets the context. *)
Definition allocproc (c : Z) (k : pc) : M shared next :=
  match k with
  | Fork0 i => if Nat.leb NPROC i then ret (Go (Top user)) else acq c (pl i) (Fork1 i)
  | Fork1 i => x <- gets (fun s => p_state (sh_proc s i)) ;;
      if decide (x = UNUSED) then ret (Go (ForkPid0 i)) else rel c (pl i) (Fork0 (S i))
  | ForkPid0 _ | ForkPid1 _ | ForkPid2 _ _ => allocpid c k
  | Fork2 i pid => go (set_proc i (fun d => mkProcd USED (p_chan d) (p_killed d) pid (p_thread d))) (Fork3 i)
  | Fork3 i => ret (Spawn (ForkM i) i)
  | ForkM i => go (clear_infants i) (Fork4 i)
  | _ => fault
  end.

Definition fork_ (c : Z) (k : pc) : M shared next :=
  match k with
  | Fork0 _ | Fork1 _ | ForkPid0 _ | ForkPid1 _ | ForkPid2 _ _ | Fork2 _ _ | Fork3 _ | ForkM _ => allocproc c k
  | Fork4 i => rel c (pl i) (Fork5 i)
  | ForkRel i => rel c (pl i) (Top user)
  | Fork5 i => acq c L_wait (Fork6 i)
  | Fork6 i => p <- myproc c ;; go (set_parent i (Some p)) (Fork7 i)
  | Fork7 i => rel c L_wait (Fork8 i)
  | Fork8 i => acq c (pl i) (Fork9 i)
  | Fork9 i => go (set_proc i (fun d => mkProcd RUNNABLE (p_chan d) (p_killed d) (p_pid d) 0)) (Fork10 i)
  | Fork10 i => rel c (pl i) (Top user)
  | _ => fault
  end.

Definition clockintr (c : Z) (k : pc) : M shared next :=
  match k with
  | Clk0 k => acq c L_ticks (Clk1 k)
  | Clk1 k => go (fun s => set_ticks (u32 (sh_ticks s + 1)) s) (Wake0 OnTicks 0 (Clk2 k))
  | Clk2 k => rel c L_ticks k
  | _ => fault
  end.

(** A function that takes one lock for a few statements and calls nothing. *)
Definition leaf_ (c : Z) (k : pc) : M shared next :=
  match k with Lf0 l k => acq c l (Lf1 l k) | Lf1 l k => rel c l k | _ => fault end.

(** kerneltrap() after devintr(): a timer interrupt takes the CPU from a
    running process. *)
Definition trap_ (c : Z) (k : pc) : M shared next :=
  match k with
  | KTrap k => p <- gets (fun s => sh_cproc s c) ;;
      match p with
      | Some p => x <- gets (fun s => p_state (sh_proc s p)) ;;
          ret (Go (if decide (x = RUNNING) then Yield0 (Tret k) else Tret k))
      | None => ret (Go (Tret k))
      end
  | Tret k => go (set_sie c 1) k
  | Clk0 _ | Clk1 _ | Clk2 _ => clockintr c k
  | Dev0 k => acq c L_vdisk (Dev1 k)
  | Dev1 k => rel c L_vdisk k
  | _ => fault
  end.

Definition scheduler (c : Z) (k : pc) : M shared next :=
  match k with
  | S0 => go (set_sie c 1) (S1 0)
  | S1 i => if Nat.leb NPROC i then ret (Go S0) else acq c (pl i) (S2 i)
  | S2 i => x <- gets (fun s => p_state (sh_proc s i)) ;;
      if decide (x = RUNNABLE) then go (set_proc i (set_state RUNNING)) (S3 i) else ret (Go (S6 i))
  | S3 i => go (set_cproc c (Some i)) (S4 i)
  | S4 i => ret (Sw (S5 i) (P i))
  | S5 i => go (set_cproc c None) (S6 i)
  | S6 i => rel c (pl i) (S1 (S i))
  | _ => fault
  end.

(** One step of CPU [c] in a thread that is at [k].  [Top] has no step of its
    own: what a process does next is its program's choice. *)
Definition exec (c : Z) (k : pc) : M shared next :=
  match k with
  | Top _ => ret (Go k)
  | Forkret p => rel c (pl p) (Top user)
  | Sched0 p k => sched c p k
  | Sched1 p k => sched_switch c p k
  | Sched2 ia k => go (set_intena c ia) k
  | Yield0 _ | Yield1 _ _ | Yield2 _ _ => yield c k
  | Sleep0 _ _ _ | Sleep1 _ _ _ _ | Sleep2 _ _ _ _ | Sleep3 _ _ _ _ | Sleep4 _ _ _ _ | Sleep5 _ _ _ | Sleep6 _ _ => sleep_ c k
  | Wake0 _ _ _ | Wake1 _ _ _ | Wake2 _ _ _ => wakeup_ c k
  | AS0 _ _ | AS1 _ _ | AS2 _ _ | AS3 _ _ | AS4 _ _ | RS0 _ _ | RS1 _ _ | RS2 _ _ | RS3 _ _ => sleeplock_ c k
  | Kill0 _ _ _ | Kill1 _ _ _ | Kill2 _ _ _ | Kill3 _ _ => kill_ c k
  | Exit0 | ExT0 _ _ | ExT1 _ _ _ | ExT2 _ _ _ | ExT3 _ _ _ | ExT4 _ _ _ | ExT5 _ _ | ExitI | ExitA
  | Exit1 _ _ | Exit2 _ | Exit3 _ | Exit4 _ | Exit5 _ | Dead _ => exit_ c k
  | Wait0 | Wait1 _ _ _ | Wait2 _ _ | WaitZ _ _ | Wait3 _ _ | Wait4 _ | Wait5 _ | Wait6 _ _ | WaitR _ | WaitX => wait_ c k
  | Fork0 _ | Fork1 _ | ForkPid0 _ | ForkPid1 _ | ForkPid2 _ _ | Fork2 _ _ | Fork3 _ | ForkM _ | Fork4 _ | ForkRel _
  | Fork5 _ | Fork6 _ | Fork7 _ | Fork8 _ | Fork9 _ | Fork10 _ => fork_ c k
  | Lf0 _ _ | Lf1 _ _ => leaf_ c k
  | KTrap _ | Tret _ | Clk0 _ | Clk1 _ | Clk2 _ | Dev0 _ | Dev1 _ => trap_ c k
  | S0 | S1 _ | S2 _ | S3 _ | S4 _ | S5 _ | S6 _ => scheduler c k
  end.

(** ** The machine *)

Record mach := mkMach { m_sh : shared; m_code : tid -> pc; m_on : Z -> tid }.
Definition set_code (t : tid) (k : pc) (f : tid -> pc) : tid -> pc := fun x => if decide (x = t) then k else f x.
Definition set_on (c : Z) (t : tid) (f : Z -> tid) : Z -> tid := fun d => if d =? c then t else f d.
Definition here (m : mach) (c : Z) : pc := m_code m (m_on m c).

(** What a process may do next at [Top]: a sleep lock, kill(), yield() from
    usertrap(), turning interrupts on or off; without sleep locks fork(), wait(),
    exit() or thread_exit(); in these, when its files are closed, going on.
    There is no create_thread() here. *)
Inductive choice (c : Z) : ctx -> shared -> pc -> shared -> Prop :=
  | ch_acquiresleep x s r : choice c x s (AS0 r x) s
  | ch_releasesleep hs1 hs2 b s r : choice c (mkCtx (hs1 ++ r :: hs2) b) s (RS0 r (mkCtx (hs1 ++ hs2) b)) s
  | ch_kill x s pid : choice c x s (Kill0 pid 0 (Top x)) s
  | ch_yield x s : choice c x s (Yield0 (Top x)) s
  | ch_fork s : choice c user s (Fork0 0) s
  | ch_exit s : choice c user s Exit0 s
  | ch_thread_exit s : choice c user s ExitI s
  | ch_closed s : choice c closing s ExitA s
  | ch_wait s : choice c user s Wait0 s
  | ch_intr x s b : b = 0 \/ b = 1 -> choice c x s (Top x) (set_sie c b s).

(** Where one of the locks kmem.lock, ftable.lock and itable.lock is taken for a
    moment, in kalloc() and kfree(), filealloc() and filedup(), iget() and idup():
    by a process that holds no spin lock; in allocproc(), for the trapframe and
    the page table; in fork(), in uvmcopy(), filedup() and idup(); in wait(), in
    freeproc().  Not here is iput() of the last reference to a deleted file,
    which calls acquiresleep() with itable.lock held. *)
Definition leaf_at (l : klock) (k : pc) : bool :=
  match k, l with
  | Top _, (L_kmem | L_ftable | L_itable) | Fork4 _, (L_kmem | L_ftable | L_itable) | Fork3 _, L_kmem | WaitZ _ _, L_kmem => true
  | _, _ => false
  end.

Inductive mstep : mach -> mach -> Prop :=
  (** The next statement. *)
  | m_go m c k s : exec c (here m c) (m_sh m) = Ret (Go k) s -> mstep m (mkMach s (set_code (m_on m c) k (m_code m)) (m_on m))
  (** swtch(). *)
  | m_sw m c k t s : exec c (here m c) (m_sh m) = Ret (Sw k t) s -> mstep m (mkMach s (set_code (m_on m c) k (m_code m)) (set_on c t (m_on m)))
  | m_spawn m c k i s : exec c (here m c) (m_sh m) = Ret (Spawn k i) s -> mstep m (mkMach s (set_code (m_on m c) k (set_code (P i) (Forkret i) (m_code m))) (m_on m))
  | m_choice m c x k s : here m c = Top x -> choice c x (m_sh m) k s -> mstep m (mkMach s (set_code (m_on m c) k (m_code m)) (m_on m))
  (** In allocproc() or fork() an allocation fails; in wait() copyout() does. *)
  | m_nomem m c i : here m c = Fork3 i \/ here m c = Fork4 i -> mstep m (mkMach (freeproc i (m_sh m)) (set_code (m_on m c) (ForkRel i) (m_code m)) (m_on m))
  | m_copyfail m c p i : here m c = WaitZ p i -> mstep m (mkMach (m_sh m) (set_code (m_on m c) (WaitR i) (m_code m)) (m_on m))
  (** A function called here is about to take its lock. *)
  | m_leaf m c l : leaf_at l (here m c) = true -> mstep m (mkMach (m_sh m) (set_code (m_on m c) (Lf0 l (here m c)) (m_code m)) (m_on m))
  (** A device's handler wakes the processes that wait for a request. *)
  | m_dev m c z k : here m c = Dev1 k -> mstep m (mkMach (m_sh m) (set_code (m_on m c) (Wake0 (OnDev z) 0 (Dev1 k)) (m_code m)) (m_on m))
  (** An interrupt: of the timer, which CPU 0 counts, or of a device. *)
  | m_timer m c : Spin.sie (Spin.cpus (sh_spin (m_sh m)) c) = 1 ->
      mstep m (mkMach (set_sie c 0 (m_sh m)) (set_code (m_on m c) (if c =? 0 then Clk0 (KTrap (here m c)) else KTrap (here m c)) (m_code m)) (m_on m))
  | m_device m c : Spin.sie (Spin.cpus (sh_spin (m_sh m)) c) = 1 ->
      mstep m (mkMach (set_sie c 0 (m_sh m)) (set_code (m_on m c) (Dev0 (Tret (here m c))) (m_code m)) (m_on m)).

(** After boot: every CPU is about to enter the scheduler's loop, no lock is
    held, and each process is free or ready to run for the first time, and no
    thread. *)
Record boot (m : mach) : Prop := {
  bt_spin : exists ie, sh_spin (m_sh m) = Spin.mkState (fun c => Spin.mkCpu 0 0 (ie c)) (fun _ => Spin.mkSpinlock 0 None);
  bt_sleep : forall r, sl_locked (sh_sleep (m_sh m) r) = 0;
  bt_on : forall c, m_on m c = S_ c /\ m_code m (S_ c) = S0 /\ sh_cproc (m_sh m) c = None;
  bt_parent : forall p, sh_parent (m_sh m) p = None;
  bt_proc : forall p, m_code m (P p) = Forkret p /\ (p_state (sh_proc (m_sh m) p) = UNUSED \/ p_state (sh_proc (m_sh m) p) = RUNNABLE);
  bt_thread : forall p, p_thread (sh_proc (m_sh m) p) = 0
}.

(** ** What holds at each program point *)

(** The spin locks the thread holds. *)
Fixpoint held (k : pc) : list klock :=
  match k with
  | Top _ | AS0 _ _ | RS0 _ _ | Sleep6 _ _ | Kill0 _ _ _ | Exit0 | ExT0 _ _ | ExT1 _ _ _ | ExitI | ExitA | Wait0 | Fork0 _ | Fork5 _ | Fork8 _ | S0 | S1 _ => []
  | Sched0 p _ | Sched1 p _ | Yield1 p _ | Yield2 p _ | Sleep2 p _ _ _ | Sleep3 p _ _ _ | Sleep4 p _ _ _ | Sleep5 p _ _ | Dead p | Forkret p => [pl p]
  | Sched2 _ k => held k
  | Yield0 _ | KTrap _ | Tret _ | Clk0 _ | Dev0 _ => []
  | Sleep0 _ lk _ => [lk]
  | Sleep1 p _ lk _ => [pl p; lk]
  | Wake0 _ _ k => held k
  | Wake1 _ i k | Wake2 _ i k => pl i :: held k
  | AS1 r _ | AS2 r _ | AS3 r _ | AS4 r _ | RS1 r _ | RS2 r _ | RS3 r _ => [L_sleep r]
  | Kill1 _ i _ | Kill2 _ i _ | Kill3 i _ | Fork1 i | ForkPid0 i | Fork2 i _ | Fork3 i | ForkM i | Fork4 i | ForkRel i | Fork9 i | Fork10 i => [pl i]
  | ForkPid1 i | ForkPid2 i _ => [L_pid; pl i]
  | ExT2 _ _ _ | ExT5 _ _ | Exit1 _ _ | Exit2 _ | Exit3 _ | Wait1 _ _ _ | Wait4 _ | WaitX | Fork6 _ | Fork7 _ => [L_wait]
  | ExT3 _ _ j | ExT4 _ _ j => [pl j; L_wait]
  | Exit4 p | Exit5 p | Wait5 p | Wait6 p _ => [pl p; L_wait]
  | Wait2 _ i | WaitZ _ i | Wait3 _ i | WaitR i => [pl i; L_wait]
  | Lf0 _ k => held k
  | Lf1 l k => l :: held k
  | Clk1 _ | Clk2 _ => [L_ticks]
  | Dev1 _ => [L_vdisk]
  | S2 i | S3 i | S4 i | S5 i | S6 i => [pl i]
  end.

(** Where sched() was called from. *)
Definition sched_from (p : nat) (k : pc) : Prop :=
  match k with Yield2 q _ | Sleep4 q _ _ _ | Dead q => q = p | _ => False end.
(** The callers of sleep(). *)
Definition sleep_from (p : nat) (ch : channel) (lk : klock) (k : pc) : Prop :=
  match k with
  | AS1 r _ => ch = OnSleep r /\ lk = L_sleep r
  | Wait1 q i hk => ch = OnProc p /\ lk = L_wait /\ q = p /\ i = 0%nat /\ hk = false
  | _ => False
  end.
(** The callers of wakeup(). *)
Definition wake_from (ch : channel) (k : pc) : Prop :=
  match k with
  | RS3 r _ => ch = OnSleep r
  | Exit1 _ _ => ch = OnProc initproc
  | Exit3 _ => True
  | Clk2 _ => ch = OnTicks
  | Dev1 _ => exists z, ch = OnDev z
  | _ => False
  end.

(** The code of thread [t] is well formed.  No process is a thread, so none is
    in the loop of exit() over threads. *)
Fixpoint wf (t : tid) (k : pc) : Prop :=
  match k with
  | Top _ | AS0 _ _ | AS1 _ _ | AS2 _ _ | AS3 _ _ | AS4 _ _ | RS0 _ _ | RS1 _ _ | RS2 _ _ | RS3 _ _
  | Exit0 | ExitI | ExitA | Wait0 | WaitX | Fork0 _ => exists p, t = P p
  | ExT0 _ _ | ExT1 _ _ _ | ExT2 _ _ _ | ExT3 _ _ _ | ExT4 _ _ _ | ExT5 _ _ => False
  | Forkret q | Exit1 q _ | Exit2 q | Exit3 q | Exit4 q | Exit5 q | Dead q | Wait1 q _ _ | Wait4 q | Wait5 q | Wait6 q _ => t = P q
  | Wait2 q i | WaitZ q i | Wait3 q i => t = P q /\ (i < NPROC)%nat
  | WaitR i | Fork1 i | ForkPid0 i | ForkPid1 i | ForkPid2 i _ | Fork2 i _ | Fork3 i | ForkM i | Fork4 i | ForkRel i | Fork5 i | Fork6 i | Fork7 i
  | Fork8 i | Fork9 i | Fork10 i => (exists p, t = P p) /\ (i < NPROC)%nat
  | Sched0 p k | Sched1 p k => t = P p /\ sched_from p k /\ wf t k
  | Sched2 _ k => (exists p, t = P p /\ sched_from p k) /\ wf t k
  | Yield0 k => (exists p, t = P p) /\ held k = [] /\ wf t k
  | Yield1 p k | Yield2 p k => t = P p /\ held k = [] /\ wf t k
  | Sleep0 ch lk k => (exists p, t = P p /\ sleep_from p ch lk k) /\ wf t k
  | Sleep6 lk k => (exists p ch, t = P p /\ sleep_from p ch lk k) /\ wf t k
  | Sleep1 p ch lk k | Sleep2 p ch lk k | Sleep3 p ch lk k | Sleep4 p ch lk k => t = P p /\ sleep_from p ch lk k /\ wf t k
  | Sleep5 p lk k => t = P p /\ (exists ch, sleep_from p ch lk k) /\ wf t k
  | Wake0 ch _ k => wake_from ch k /\ wf t k
  | Wake1 ch i k | Wake2 ch i k => wake_from ch k /\ (i < NPROC)%nat /\ wf t k
  | Kill0 _ _ k => (exists p, t = P p) /\ held k = [] /\ wf t k
  | Kill1 _ i k | Kill2 _ i k | Kill3 i k => (exists p, t = P p) /\ (i < NPROC)%nat /\ held k = [] /\ wf t k
  | Lf0 l k | Lf1 l k => leaf_at l k = true /\ wf t k
  | KTrap k | Tret k | Clk0 k | Clk1 k | Clk2 k | Dev0 k | Dev1 k => held k = [] /\ wf t k
  | S0 | S1 _ => exists c, t = S_ c
  | S2 i | S3 i | S4 i | S5 i | S6 i => (exists c, t = S_ c) /\ (i < NPROC)%nat
  end.

(** The state a process has while its thread runs: it changes just before it
    calls sched(). *)
Definition state_at (k : pc) : procstate :=
  match k with
  | Exit5 _ => ZOMBIE
  | Sched0 _ k | Sched1 _ k => match k with Yield2 _ _ => RUNNABLE | Sleep4 _ _ _ _ => SLEEPING | _ => ZOMBIE end
  | _ => RUNNING
  end.

(** The sleep locks the thread has. *)
Fixpoint slocks (k : pc) : list slock :=
  match k with
  | Top x | AS0 _ x | AS1 _ x | AS2 _ x | RS2 _ x | RS3 _ x => x_locks x
  | AS3 r x | AS4 r x | RS0 r x | RS1 r x => r :: x_locks x
  | Sched0 _ k | Sched1 _ k | Sched2 _ k | Yield0 k | Yield1 _ k | Yield2 _ k
  | Sleep0 _ _ k | Sleep1 _ _ _ k | Sleep2 _ _ _ k | Sleep3 _ _ _ k | Sleep4 _ _ _ k | Sleep5 _ _ k | Sleep6 _ k
  | Wake0 _ _ k | Wake1 _ _ k | Wake2 _ _ k | Kill0 _ _ k | Kill1 _ _ k | Kill2 _ _ k | Kill3 _ k
  | Lf0 _ k | Lf1 _ k | KTrap k | Tret k | Clk0 k | Clk1 k | Clk2 k | Dev0 k | Dev1 k => slocks k
  | _ => []
  end.

(** The slot of the process table the thread is setting up, and whether its
    context is set. *)
Fixpoint owns (k : pc) : option (nat * bool) :=
  match k with
  | Fork3 i => Some (i, false)
  | ForkM i | Fork4 i | Fork5 i | Fork6 i | Fork7 i | Fork8 i | Fork9 i => Some (i, true)
  | Sched0 _ k | Sched1 _ k | Sched2 _ k | Yield0 k | Yield1 _ k | Yield2 _ k | Wake0 _ _ k | Wake1 _ _ k | Wake2 _ _ k
  | Kill0 _ _ k | Kill1 _ _ k | Kill2 _ _ k | Kill3 _ k | Lf0 _ k | Lf1 _ k
  | KTrap k | Tret k | Clk0 k | Clk1 k | Clk2 k | Dev0 k | Dev1 k => owns k
  | _ => None
  end.

(** c->proc while the scheduler's own thread runs. *)
Definition sched_proc (k : pc) : option nat := match k with S4 i | S5 i => Some i | _ => None end.

(** The channel of a thread that is in sleep() and has let the condition lock go. *)
Definition early (k : pc) : option channel := match k with Sleep2 _ ch _ _ | Sleep3 _ ch _ _ => Some ch | _ => None end.

Section Assertions.
Context (s : shared) (code : tid -> pc).
Let state p := p_state (sh_proc s p).

(** [p] sleeps on [ch], or is about to and can no longer be stopped. *)
Definition asleep (p : nat) (ch : channel) : Prop :=
  early (code (P p)) = Some ch \/ (state p = SLEEPING /\ p_chan (sh_proc s p) = ch).

(** None of the first [j] processes is a zombie child of [q]. *)
Definition nozombie (q j : nat) : Prop := forall i, (i < j)%nat -> sh_parent s i = Some q -> state i <> ZOMBIE.
(** None of the first [j] processes is asleep on [ch]. *)
Definition noneon (ch : channel) (j : nat) : Prop := forall i, (i < j)%nat -> ~ asleep i ch.

(** Why it is right to sleep on [ch]. *)
Definition reason (ch : channel) : Prop :=
  match ch with OnSleep r => sl_locked (sh_sleep s r) <> 0 | OnProc q => nozombie q NPROC | _ => True end.

Definition parent_chan (p : nat) : channel := match sh_parent s p with Some q => OnProc q | None => NoChan end.

(** What a thread knows at its program point. *)
Definition asrt (k : pc) : Prop :=
  match k with
  | Sleep0 ch _ _ | Sleep1 _ ch _ _ => reason ch
  | Sleep3 p ch _ _ | Sched0 p (Sleep4 _ ch _ _) | Sched1 p (Sleep4 _ ch _ _) => p_chan (sh_proc s p) = ch
  | AS2 r _ => sl_locked (sh_sleep s r) = 0
  | Wait1 p i _ | Wait2 p i => nozombie p i
  | Wait3 p i => nozombie p (S i)
  | Wait4 p | Wait5 p | Wait6 p _ => nozombie p NPROC
  | Exit3 x | Exit4 x => noneon (parent_chan x) NPROC
  | Wake0 ch i (Exit3 x) | Wake1 ch i (Exit3 x) => ch = parent_chan x /\ noneon ch i
  | Wake2 ch i (Exit3 x) => ch = parent_chan x /\ noneon ch (S i)
  | ForkPid0 i | ForkPid1 i | ForkPid2 i _ | Fork2 i _ => state i = UNUSED
  | WaitZ _ i | Lf0 _ (WaitZ _ i) | Lf1 _ (WaitZ _ i) => state i = ZOMBIE
  | S3 i | S4 i => state i = RUNNING
  | Dead _ | Sched2 _ (Dead _) => False
  | _ => True
  end.

(** A wakeup of [ch] that will still reach [p] is under way at [k]. *)
Definition covers (k : pc) (ch : channel) (p : nat) : Prop :=
  match k with
  | RS2 r _ => ch = OnSleep r
  | Wake0 ch' i (RS3 _ _) | Wake1 ch' i (RS3 _ _) | Wake0 ch' i (Exit1 _ _) | Wake1 ch' i (Exit1 _ _) => ch' = ch /\ (i <= p)%nat
  | Wake2 ch' i (RS3 _ _) | Wake2 ch' i (Exit1 _ _) => ch' = ch /\ (i < p)%nat
  | _ => False
  end.

(** A process that does not run: swtch() left it in sched(), or it has not run
    yet, or it is not alive. *)
Definition parked (p : nat) : Prop :=
  early (code (P p)) = None /\
  match state p with
  | SLEEPING => exists ia ch lk k, code (P p) = Sched2 ia (Sleep4 p ch lk k) /\ p_chan (sh_proc s p) = ch
  | RUNNABLE | RUNNING => code (P p) = Forkret p \/ exists ia k, code (P p) = Sched2 ia k /\ forall q, k <> Dead q
  | _ => True
  end.
End Assertions.

(** ** The invariant *)

Record inv (m : mach) : Prop := {
  i_wf : forall t, wf t (m_code m t);
  i_sees : forall c, sees c (sh_spin (m_sh m)) (held (here m c));
  i_word : forall l, Spin.locked (Spin.locks (sh_spin (m_sh m)) l) <> 0 -> exists c, Spin.holding c l (sh_spin (m_sh m)) = true;
  i_on : forall c, m_on m c = S_ c \/ exists p, (p < NPROC)%nat /\ m_on m c = P p /\ m_code m (S_ c) = S5 p /\ sh_cproc (m_sh m) c = Some p;
  i_one : forall c d p, m_on m c = P p -> m_on m d = P p -> c = d;
  i_cproc : forall c, m_on m c = S_ c -> sh_cproc (m_sh m) c = sched_proc (m_code m (S_ c));
  i_run : forall c p, m_on m c = P p -> p_state (sh_proc (m_sh m) p) = state_at (m_code m (P p));
  i_park : forall p, (forall c, m_on m c <> P p) -> parked (m_sh m) (m_code m) p;
  i_ready : forall p, (forall c, m_on m c <> P p) -> p_state (sh_proc (m_sh m) p) = RUNNING ->
    exists c, m_on m c = S_ c /\ (m_code m (S_ c) = S3 p \/ m_code m (S_ c) = S4 p);
  i_off : forall c p, m_on m c = S_ c -> m_code m (S_ c) = S3 p \/ m_code m (S_ c) = S4 p -> forall d, m_on m d <> P p;
  i_asrt : forall c, asrt (m_sh m) (m_code m) (here m c);
  i_owns : forall t i b, owns (m_code m t) = Some (i, b) -> p_state (sh_proc (m_sh m) i) = USED /\ (b = true -> m_code m (P i) = Forkret i);
  i_owner : forall t u i b b', owns (m_code m t) = Some (i, b) -> owns (m_code m u) = Some (i, b') -> t = u;
  i_slocks : forall p q r, r ∈ slocks (m_code m (P p)) -> r ∈ slocks (m_code m (P q)) -> p = q;
  i_locked : forall p, NoDup (slocks (m_code m (P p))) /\ forall r, r ∈ slocks (m_code m (P p)) -> sl_locked (sh_sleep (m_sh m) r) <> 0;
  i_lost : forall p ch, (p < NPROC)%nat -> asleep (m_sh m) (m_code m) p ch -> reason (m_sh m) ch \/ exists c, covers (here m c) ch p;
  i_thread : forall p, p_thread (sh_proc (m_sh m) p) = 0
}.
