(* ===== verification/SchedInv.v ===== *)
(** * The scheduler's invariant is kept by every step

    [inv] of Sched.v holds after boot ([inv_boot]) and is kept by each step of
    each CPU ([inv_step]).  [eff] says what a step that does not switch threads
    may do and [inv_go] that this is enough; the lemmas after it show it of each
    statement of kernel/proc.c and kernel/sleeplock.c. *)
From stdpp Require Import strings.
From S2P Require Import Prelude Mem Page Locks Sched.
From Stdlib Require Import ZArith Lia.
Local Open Scope list_scope.
Local Open Scope Z_scope.
Local Open Scope kernel_scope.

(** ** A step that does not switch threads *)

Section Go.
Context (m : mach) (I : inv m) (c : Z) (k' : pc) (s' : shared).
Local Abbreviation t := (m_on m c).
Local Abbreviation k := (here m c).
Local Abbreviation s := (m_sh m).
Local Abbreviation code := (m_code m).
Local Abbreviation code' := (set_code (m_on m c) k' (m_code m)).

Lemma on_other d : d <> c -> m_on m d <> t.
Proof.
  intros Hne E. destruct (i_on m I d) as [Ed|(p & _ & Ed & _)]; rewrite Ed in E.
  - destruct (i_on m I c) as [Ec|(q & _ & Ec & _)]; rewrite Ec in E; [by injection E|done].
  - destruct (i_on m I c) as [Ec|(q & _ & Ec & _)]; [by rewrite Ec in E|]. apply Hne. by apply (i_one m I d c p).
Qed.
Lemma excl l d : l ∈ held k -> l ∈ held (here m d) -> d = c.
Proof. intros H1 H2. apply (holding_one d c l (sh_spin s)); eapply se_held; [apply (i_sees m I d)|done|apply (i_sees m I c)|done]. Qed.
Lemma set_code_eq {T} (f : tid -> T) u x : set_code u x code u = x.
Proof. unfold set_code. by rewrite decide_True. Qed.
Lemma set_code_ne u v x : u <> v -> set_code v x code u = code u.
Proof. intros. unfold set_code. by rewrite decide_False. Qed.
Lemma here_eq : here (mkMach s' code' (m_on m)) c = k'.
Proof. unfold here. cbn [m_code m_on]. by apply (set_code_eq (fun x => x)). Qed.
Lemma here_ne d : d <> c -> here (mkMach s' code' (m_on m)) d = here m d.
Proof. intros. unfold here. cbn [m_code m_on]. apply set_code_ne. by apply on_other. Qed.

(** What a step of CPU [c] from [k] to [k'] may do to the rest. *)
Record eff : Prop := {
  e_wf : wf t k';
  e_sees : sees c (sh_spin s') (held k');
  e_others : forall d h, d <> c -> sees d (sh_spin s) h -> sees d (sh_spin s') h;
  e_word : forall l, Spin.locked (Spin.locks (sh_spin s') l) <> 0 -> exists d, Spin.holding d l (sh_spin s') = true;
  e_cproc : forall d, d <> c -> sh_cproc s' d = sh_cproc s d;
  e_cproc_p : forall p, t = P p -> sh_cproc s' c = sh_cproc s c;
  e_cproc_s : t = S_ c -> sh_cproc s' c = sched_proc k';
  e_lock : forall q, pl q ∉ held k -> sh_proc s' q = sh_proc s q;
  e_self : forall p, t = P p -> p_state (sh_proc s' p) = state_at k';
  e_state : forall q, t <> P q -> (p_state (sh_proc s' q) = p_state (sh_proc s q) /\ p_chan (sh_proc s' q) = p_chan (sh_proc s q)) \/
    ((forall d, m_on m d <> P q) /\ parked s' code q /\ (p_state (sh_proc s' q) = RUNNING -> t = S_ c /\ k' = S3 q));
  e_s3 : forall q, k = S3 q \/ k = S4 q -> k' = S4 q;
  e_off : forall q, k' = S3 q \/ k' = S4 q -> forall d, m_on m d <> P q;
  e_asrt : asrt s' code' k';
  e_used : forall i, p_state (sh_proc s i) = USED -> p_state (sh_proc s' i) = USED \/ (exists b, owns k = Some (i, b)) /\ owns k' = None;
  e_owns : forall i b, owns k' = Some (i, b) -> p_state (sh_proc s' i) = USED /\ (b = true -> code (P i) = Forkret i /\ t <> P i) /\
    ((exists b', owns k = Some (i, b')) \/ p_state (sh_proc s i) <> USED);
  e_slocks : forall p, t = P p -> NoDup (slocks k') /\ (forall r, r ∈ slocks k' -> sl_locked (sh_sleep s' r) <> 0 /\
    (r ∈ slocks k \/ forall q, r ∉ slocks (code (P q))));
  e_locked : forall q r, t <> P q -> r ∈ slocks (code (P q)) -> sl_locked (sh_sleep s' r) <> 0;
  e_sleep : forall r, L_sleep r ∉ held k -> sh_sleep s' r = sh_sleep s r;
  e_asleep : forall p ch, asleep s' code' p ch -> asleep s code p ch \/
    (t = P p /\ reason s' ch /\ match ch with OnProc _ => L_wait ∈ held k | NoChan => False | _ => True end);
  e_reason : forall p ch, (p < NPROC)%nat -> asleep s' code' p ch -> reason s ch -> reason s' ch \/ covers k' ch p;
  e_covers : forall p ch, (p < NPROC)%nat -> asleep s' code' p ch -> covers k ch p -> reason s' ch \/ covers k' ch p;
  e_zombie : forall q, p_state (sh_proc s' q) = ZOMBIE -> p_state (sh_proc s q) = ZOMBIE \/ L_wait ∈ held k;
  e_parent : forall q, sh_parent s' q = sh_parent s q \/ L_wait ∈ held k \/ (sh_parent s' q = None /\ p_state (sh_proc s q) = USED);
  e_thread : forall q, p_thread (sh_proc s q) = 0 -> p_thread (sh_proc s' q) = 0
}.

Context (E : eff).

Lemma nozombie_other q j : L_wait ∉ held k -> nozombie s q j -> nozombie s' q j.
Proof.
  intros Hw H i Hi Hp Hz. destruct (e_zombie E i Hz) as [Hz'|]; [|done]. destruct (e_parent E i) as [Hp'|[?|[Hn _]]]; [|done|congruence].
  rewrite Hp' in Hp. by apply (H i).
Qed.
Lemma noneon_other ch j : L_wait ∉ held k -> match ch with OnProc _ | NoChan => True | _ => False end -> noneon s code ch j -> noneon s' code' ch j.
Proof. intros Hw Hch H i Hi Ha. destruct (e_asleep E i ch Ha) as [?|(_ & _ & Hc)]; [by apply (H i)|]. by destruct ch. Qed.
Lemma reason_other ch d : d <> c -> (match ch with OnSleep r => L_sleep r ∈ held (here m d) | OnProc _ => L_wait ∈ held (here m d) | _ => True end) -> reason s ch -> reason s' ch.
Proof.
  intros Hd Hl H. destruct ch as [|r|q| |z]; cbn in *; try done.
  - rewrite (e_sleep E); [done|]. intros Hk. by apply Hd, (excl (L_sleep r)).
  - apply nozombie_other; [|done]. intros Hk. by apply Hd, (excl L_wait).
Qed.
Lemma parent_chan_other d x : d <> c -> L_wait ∈ held (here m d) -> m_on m d = P x -> state_at (here m d) <> USED -> parent_chan s' x = parent_chan s x.
Proof.
  intros Hd Hl Hon Hst. unfold parent_chan. destruct (e_parent E x) as [-> |[Hw|[_ Hu]]]; [done|by destruct Hd; apply (excl L_wait)|].
  exfalso. apply Hst. rewrite <- Hu. symmetry. unfold here. rewrite Hon. by apply (i_run m I d).
Qed.

Lemma sleep_from_lock p ch lk k0 : sleep_from p ch lk k0 -> match ch with OnSleep r => lk = L_sleep r | OnProc q => lk = L_wait /\ q = p | _ => False end.
Proof. destruct k0; try done; cbn; [by intros (-> & ->)|by intros (-> & -> & _)]. Qed.

(** What another CPU's thread knows stays true. *)
Lemma asrt_other d : d <> c -> asrt s' code' (here m d).
Proof.
  intros Hd. pose proof (i_asrt m I d) as A. pose proof (i_wf m I (m_on m d)) as W. change (m_code m (m_on m d)) with (here m d) in W.
  assert (forall l, l ∈ held (here m d) -> l ∉ held k) as X by (intros l H1 H2; by apply Hd, (excl l)).
  assert (forall q, pl q ∈ held (here m d) -> sh_proc s' q = sh_proc s q) as Xp by (intros q Hq; apply (e_lock E); by apply X).
  pose proof (fun x => parent_chan_other d x Hd) as Pc. pose proof (fun ch => reason_other ch d Hd) as Rs.
  assert (forall x, parent_chan s x = NoChan \/ exists q, parent_chan s x = OnProc q) as Pch by (intros x; unfold parent_chan; case_match; eauto).
  assert (forall x j, L_wait ∈ held (here m d) -> noneon s code (parent_chan s x) j -> noneon s' code' (parent_chan s x) j) as Nn.
  { intros x j Hl. apply noneon_other; [by apply X|]. destruct (Pch x) as [-> |(q & ->)]; done. }
  assert (forall q j, L_wait ∈ held (here m d) -> nozombie s q j -> nozombie s' q j) as Nz by (intros q j Hl; by apply nozombie_other, X).
  destruct (here m d) eqn:Ek; cbn [asrt held wf state_at] in *; try done;
    try (apply Nz; [by repeat constructor|done]);
    try (rewrite Xp by (by repeat constructor); done);
    try (rewrite (e_sleep E) by (apply X; by repeat constructor); done).
  all: try match goal with |- match ?k0 with _ => _ end => destruct k0; cbn [held wf asrt] in * end; try done.
  all: try (rewrite Xp by (by repeat constructor); done).
  - destruct W as [(p0 & _ & Hf%sleep_from_lock) _]. apply Rs; [|done]. destruct ch; try done; naive_solver set_solver.
  - destruct W as (_ & Hf%sleep_from_lock & _). apply Rs; [|done]. destruct ch; try done; naive_solver set_solver.
  - destruct W as [_ W]. destruct A as [-> A]. rewrite (Pc p) by set_solver. split; [done|]. by apply Nn; [set_solver|].
  - destruct W as (_ & _ & W). destruct A as [-> A]. rewrite (Pc p) by set_solver. split; [done|]. by apply Nn; [set_solver|].
  - destruct W as (_ & _ & W). destruct A as [-> A]. rewrite (Pc p) by set_solver. split; [done|]. by apply Nn; [set_solver|].
  - rewrite (Pc p) by set_solver. by apply Nn; [set_solver|].
  - rewrite (Pc p) by set_solver. by apply Nn; [set_solver|].
Qed.

Lemma sched_of d : t = S_ d -> d = c.
Proof. intros H. destruct (i_on m I c) as [Ec|(p & _ & Ec & _)]; rewrite Ec in H; [by injection H|done]. Qed.
Lemma parked_ext s1 f g p : p_state (sh_proc s1 p) = p_state (sh_proc s p) -> p_chan (sh_proc s1 p) = p_chan (sh_proc s p) -> f (P p) = g (P p) -> parked s f p -> parked s1 g p.
Proof. intros H1 H2 H3. unfold parked. by rewrite H1, H2, H3. Qed.

Local Abbreviation m' := (mkMach s' code' (m_on m)).
Lemma code_ne u : u <> t -> code' u = code u.
Proof. intros. by apply set_code_ne. Qed.
Lemma code_eq : code' t = k'.
Proof. apply (set_code_eq (fun x => x)). Qed.

Lemma go_on d : m_on m d = S_ d \/ exists p, (p < NPROC)%nat /\ m_on m d = P p /\ code' (S_ d) = S5 p /\ sh_cproc s' d = Some p.
Proof.
  destruct (i_on m I d) as [?|(p & Hp & Ed & Es & Ec)]; [by left|right]. exists p. split_and!; [done|done| |].
  - rewrite code_ne; [done|]. intros H. symmetry in H. pose proof (sched_of d H) as ->. by rewrite Ed in H.
  - destruct (decide (d = c)) as [->|Hd]; [by rewrite (e_cproc_p E p)|by rewrite (e_cproc E)].
Qed.
Lemma go_run d p : m_on m d = P p -> p_state (sh_proc s' p) = state_at (code' (P p)).
Proof.
  intros Ed. destruct (decide (d = c)) as [->|Hd]; [rewrite <- Ed, code_eq; by apply E|].
  assert (P p <> t) as Hne by (rewrite <- Ed; by apply on_other). rewrite code_ne by done.
  destruct (e_state E p) as [[-> _]|[H _]]; [done|by apply (i_run m I d)|]. by destruct (H d).
Qed.
Lemma go_park p : (forall d, m_on m d <> P p) -> parked s' code' p.
Proof.
  intros Hoff. assert (P p <> t) as Hne by (intros H; by apply (Hoff c)). destruct (e_state E p) as [[H1 H2]|(_ & H & _)]; [done| |].
  - eapply parked_ext; [done|done| |by apply I]. by rewrite code_ne.
  - revert H. unfold parked. by rewrite code_ne.
Qed.
Lemma go_ready p : (forall d, m_on m d <> P p) -> p_state (sh_proc s' p) = RUNNING -> exists d, m_on m d = S_ d /\ (code' (S_ d) = S3 p \/ code' (S_ d) = S4 p).
Proof.
  intros Hoff Hst. assert (P p <> t) as Hne by (intros H; by apply (Hoff c)). destruct (e_state E p) as [[H1 H2]|(_ & _ & H)]; [done| |].
  - rewrite H1 in Hst. destruct (i_ready m I p Hoff Hst) as (d & Ed & Hd). exists d. split; [done|]. destruct (decide (d = c)) as [->|Hdc].
    + rewrite <- Ed, code_eq. right. apply (e_s3 E p). unfold here. by rewrite Ed.
    + rewrite code_ne; [done|]. rewrite <- Ed. by apply on_other.
  - destruct (H Hst) as [Et Ek]. exists c. split; [done|]. rewrite <- Et, code_eq. by left.
Qed.
Lemma go_owns u i b : owns (code' u) = Some (i, b) -> p_state (sh_proc s' i) = USED /\ (b = true -> code' (P i) = Forkret i).
Proof.
  destruct (decide (u = t)) as [->|Hu]; [rewrite code_eq|rewrite (code_ne u) by done]; intros Ho.
  - destruct (e_owns E i b Ho) as (H1 & H2 & _). split; [done|]. intros Hb. destruct (H2 Hb). by rewrite code_ne.
  - destruct (i_owns m I u i b Ho) as [H1 H2]. split.
    + destruct (e_used E i H1) as [?|[[b' Hk] _]]; [done|]. destruct Hu. by apply (i_owner m I u t i b b').
    + intros Hb. specialize (H2 Hb). rewrite code_ne; [done|]. intros Ht.
      pose proof (i_run m I c i (eq_sym Ht)) as Hr. by rewrite H1, H2 in Hr.
Qed.
Lemma go_owner u v i b b' : owns (code' u) = Some (i, b) -> owns (code' v) = Some (i, b') -> u = v.
Proof.
  destruct (decide (u = t)) as [->|Hu], (decide (v = t)) as [->|Hv]; rewrite ?code_eq, ?code_ne by done; intros H1 H2; [done| | |by eapply I].
  - destruct (e_owns E i b H1) as (_ & _ & [[b0 H]|H]); [by apply (i_owner m I t v i b0 b')|]. destruct H. by apply (i_owns m I v i b').
  - destruct (e_owns E i b' H2) as (_ & _ & [[b0 H]|H]); [by apply (i_owner m I u t i b b0)|]. destruct H. by apply (i_owns m I u i b).
Qed.
Lemma go_slocks p q r : r ∈ slocks (code' (P p)) -> r ∈ slocks (code' (P q)) -> p = q.
Proof.
  assert (forall p q, P p = t -> P q <> t -> r ∈ slocks k' -> r ∈ slocks (code (P q)) -> p = q) as H.
  { intros p0 q0 Hp Hq H1 H2. destruct (e_slocks E p0 (eq_sym Hp)) as [_ H]. destruct (H r H1) as [_ [H3|H3]]; [|by destruct (H3 q0)].
    apply (i_slocks m I p0 q0 r); [by rewrite Hp|done]. }
  destruct (decide (P p = t)) as [Hp|Hp], (decide (P q = t)) as [Hq|Hq]; rewrite ?Hp, ?Hq, ?code_eq, ?code_ne by done; intros H1 H2.
  - rewrite <- Hp in Hq. by injection Hq.
  - by apply H.
  - symmetry. by apply H.
  - by apply (i_slocks m I p q r).
Qed.
Lemma go_locked p : NoDup (slocks (code' (P p))) /\ forall r, r ∈ slocks (code' (P p)) -> sl_locked (sh_sleep s' r) <> 0.
Proof.
  destruct (decide (P p = t)) as [Hp|Hp].
  - rewrite Hp, code_eq. destruct (e_slocks E p (eq_sym Hp)) as [H1 H2]. split; [done|]. intros r Hr. by apply H2.
  - rewrite code_ne by done. split; [by apply (i_locked m I p)|]. intros r Hr. by apply (e_locked E p r).
Qed.
Lemma go_lost p ch : (p < NPROC)%nat -> asleep s' code' p ch -> reason s' ch \/ exists d, covers (here m' d) ch p.
Proof.
  intros Hp Ha. destruct (e_asleep E p ch Ha) as [Ha'|(_ & ? & _)]; [|by left].
  assert (covers k' ch p -> exists d, covers (here m' d) ch p) as Hc by (intros H; exists c; by rewrite here_eq).
  destruct (i_lost m I p ch Hp Ha') as [Hr|[d Hd]].
  - destruct (e_reason E p ch Hp Ha Hr); auto.
  - destruct (decide (d = c)) as [->|Hdc]; [destruct (e_covers E p ch Hp Ha Hd); auto|]. right. exists d. by rewrite here_ne.
Qed.

Lemma inv_go : inv m'.
Proof.
  split; cbn [m_sh m_code m_on]; [| | | |by apply I|..].
  - intros u. destruct (decide (u = t)) as [->|Hu]; [rewrite code_eq; apply E|rewrite code_ne by done; apply I].
  - intros d. destruct (decide (d = c)) as [->|Hd]; [rewrite here_eq; apply E|]. rewrite here_ne by done. apply (e_others E); [done|apply I].
  - apply E.
  - apply go_on.
  - intros d Ed. destruct (decide (d = c)) as [->|Hd].
    + rewrite <- Ed, code_eq. by apply E.
    + rewrite (e_cproc E), code_ne; [by apply I|rewrite <- Ed; by apply on_other|done].
  - apply go_run.
  - apply go_park.
  - apply go_ready.
  - intros d p Ed. destruct (decide (d = c)) as [->|Hd]; [rewrite <- Ed, code_eq; apply E|].
    rewrite code_ne by (rewrite <- Ed; by apply on_other). by apply I.
  - intros d. destruct (decide (d = c)) as [->|Hd]; [rewrite here_eq; apply E|rewrite here_ne by done; by apply asrt_other].
  - apply go_owns.
  - apply go_owner.
  - apply go_slocks.
  - apply go_locked.
  - apply go_lost.
  - intros q. apply (e_thread E), I.
Qed.
End Go.

(** ** Locks *)

Lemma acq_inv c l k s n s' : acq c l k s = Ret n s' -> n = Go k /\ exists sp, Spin.acquire c l (sh_spin s) = Ret tt sp /\ s' = set_spin sp s.
Proof. unfold acq, bind, lift, ret. cbn [view shared_spin]. destruct (Spin.acquire c l (sh_spin s)) as [[] sp| | | |]; try done. intros [= <- <-]. eauto. Qed.
Lemma rel_inv c l k s n s' : rel c l k s = Ret n s' -> n = Go k /\ exists sp, Spin.release c l (sh_spin s) = Ret tt sp /\ s' = set_spin sp s.
Proof. unfold rel, bind, lift, ret. cbn [view shared_spin]. destruct (Spin.release c l (sh_spin s)) as [[] sp| | | |]; try done. intros [= <- <-]. eauto. Qed.
Lemma go_inv f k s n s' : go f k s = Ret n s' -> n = Go k /\ s' = f s.
Proof. unfold go, bind, modify, ret. by intros [= <- <-]. Qed.

(** What the locks must satisfy after a step of CPU [c] that leaves it with [h]. *)
Record spin_step_ok (c : Z) (sp sp' : Spin.state) (h : list klock) : Prop := {
  ss_sees : sees c sp' h;
  ss_others : forall d h, d <> c -> sees d sp h -> sees d sp' h;
  ss_word : forall l, Spin.locked (Spin.locks sp' l) <> 0 -> exists d, Spin.holding d l sp' = true
}.

Definition word_ok (sp : Spin.state) : Prop := forall l, Spin.locked (Spin.locks sp l) <> 0 -> exists d, Spin.holding d l sp = true.

Lemma spin_acq c l sp sp' h : Spin.acquire c l sp = Ret tt sp' -> sees c sp h -> word_ok sp -> l ∉ h /\ spin_step_ok c sp sp' (l :: h).
Proof.
  intros Ea Hs Hw. destruct (acquire_inv _ _ _ _ Ea) as [E0 Eh]. pose proof (acquire_refines c sp h l Hs ltac:(done)) as Hr. case_decide as Hl.
  { destruct Hr as [? Hr]. congruence. }
  destruct Hr as (sp1 & Hr & Hs' & Hc & Hlk & _ & _). rewrite Ea in Hr. injection Hr as <-. split; [done|]. split; [done| |].
  - intros d hd Hd Hsd. eapply sees_other; [done|done|by apply Hc|unfold Spin.holding; by rewrite E0|].
    apply not_true_is_false. intros Ht. by apply Hd, (holding_one _ _ l sp').
  - intros l' Hl'. destruct (decide (l' = l)) as [->|Hne]; [eauto|]. unfold Spin.holding. rewrite Hlk in Hl' |- * by done. by apply Hw.
Qed.

Lemma spin_rel c l sp sp' h : Spin.release c l sp = Ret tt sp' -> sees c sp h -> word_ok sp -> spin_step_ok c sp sp' (base.filter (fun x => x <> l) h).
Proof.
  intros Er Hs Hw. pose proof (release_refines c sp h l Hs) as Hr. case_decide as Hl; [|congruence].
  destruct Hr as (sp1 & Hr & Hs' & Hz & Hc & Hlk & _ & _). rewrite Er in Hr. injection Hr as <-. split; [done| |].
  - intros d hd Hd Hsd. eapply sees_other; [done|done|by apply Hc| |unfold Spin.holding; by rewrite Hz].
    apply not_true_is_false. intros Ht. apply Hd, (holding_one _ _ l sp); [done|]. by apply (se_held _ _ _ Hs).
  - intros l' Hl'. destruct (decide (l' = l)) as [->|Hne]; [by rewrite Hz in Hl'|]. unfold Spin.holding. rewrite Hlk in Hl' |- * by done. by apply Hw.
Qed.

Lemma spin_same c sp h : sees c sp h -> word_ok sp -> spin_step_ok c sp sp h.
Proof. intros. by split. Qed.

(** Writing the interrupt state of [c]. *)
Lemma spin_cpu c sp h ia ie : sees c sp h -> word_ok sp -> h <> [] /\ ie = Spin.sie (Spin.cpus sp c) \/ h = [] ->
  spin_step_ok c sp (Spin.set_cpu c (Spin.mkCpu (Spin.noff (Spin.cpus sp c)) ia ie) sp) h.
Proof.
  intros [H1 H2 H3 H4] Hw Hi. split; [|intros d h' Hd [A1 A2 A3 A4]|done].
  - split; [done|done| |]; unfold Spin.set_cpu; cbn [Spin.cpus]; rewrite Z.eqb_refl; cbn; [done|]. intros Hne. destruct Hi as [[_ ->]|]; [by apply H4|done].
  - split; [done|done| |]; unfold Spin.set_cpu; cbn [Spin.cpus]; by rewrite (proj2 (Z.eqb_neq d c)).
Qed.

(** ** Steps that write no data of the process table *)

Definition same_data (s s' : shared) : Prop :=
  sh_proc s' = sh_proc s /\ sh_parent s' = sh_parent s /\ sh_sleep s' = sh_sleep s /\ sh_cproc s' = sh_cproc s.

Lemma reason_same s s' ch : same_data s s' -> reason s' ch <-> reason s ch.
Proof. intros (H1 & H2 & H3 & _). unfold reason, nozombie. by rewrite H1, H2, H3. Qed.
Lemma asleep_same s s' f p ch : same_data s s' -> asleep s' f p ch <-> asleep s f p ch.
Proof. intros (H1 & _). unfold asleep. by rewrite H1. Qed.

Section Quiet.
Context (m : mach) (I : inv m) (c : Z) (k' : pc) (s' : shared).
Local Abbreviation k := (here m c).
Local Abbreviation code' := (set_code (m_on m c) k' (m_code m)).

Lemma asleep_code s0 p ch : m_on m c <> P p -> asleep s0 code' p ch <-> asleep s0 (m_code m) p ch.
Proof. intros. unfold asleep. by rewrite set_code_ne. Qed.
Lemma asleep_self s0 p ch : m_on m c = P p -> asleep s0 code' p ch <-> early k' = Some ch \/ (p_state (sh_proc s0 p) = SLEEPING /\ p_chan (sh_proc s0 p) = ch).
Proof. intros E. unfold asleep, set_code. by rewrite decide_True. Qed.
Lemma asleep_self_old s0 p ch : m_on m c = P p -> asleep s0 (m_code m) p ch <-> early k = Some ch \/ (p_state (sh_proc s0 p) = SLEEPING /\ p_chan (sh_proc s0 p) = ch).
Proof. intros E. unfold asleep, here. by rewrite E. Qed.

Definition asleep_ok (ch : channel) (s0 : shared) (h : list klock) : Prop :=
  reason s0 ch /\ match ch with OnProc _ => L_wait ∈ h | NoChan => False | _ => True end.

Lemma slocks_of p : m_on m c = P p -> slocks (m_code m (P p)) = slocks k.
Proof. unfold here. by intros ->. Qed.

Lemma eff_quiet :
  same_data (m_sh m) s' -> spin_step_ok c (sh_spin (m_sh m)) (sh_spin s') (held k') -> wf (m_on m c) k' ->
  state_at k' = state_at k -> sched_proc k' = sched_proc k -> (forall q, k <> S3 q /\ k <> S4 q /\ k' <> S3 q /\ k' <> S4 q) ->
  asrt s' code' k' -> owns k' = owns k \/ owns k' = None \/ (exists i, owns k = Some (i, false) /\ owns k' = Some (i, true) /\ m_code m (P i) = Forkret i) -> slocks k' ≡ₚ slocks k ->
  early k' = None \/ early k' = early k \/ (exists ch, early k' = Some ch /\ asleep_ok ch s' (held k)) ->
  (forall p ch, (p < NPROC)%nat -> asleep (m_sh m) (m_code m) p ch -> covers k ch p -> reason s' ch \/ covers k' ch p) -> eff m c k' s'.
Proof.
  intros Hsame [Hs1 Hs2 Hs3] Hwf Hst Hsp Hs34 Ha Ho Hl He Hc. pose proof Hsame as (D1 & D2 & D3 & D4).
  assert (forall p ch, asleep s' code' p ch -> asleep (m_sh m) (m_code m) p ch \/ (m_on m c = P p /\ asleep_ok ch s' (held k))) as Has.
  { intros p ch H. rewrite (asleep_same _ _ _ _ _ Hsame) in H. destruct (decide (m_on m c = P p)) as [Hp|Hp].
    - rewrite asleep_self in H by done. rewrite asleep_self_old by done. destruct H as [H|H]; [|by left; right].
      destruct He as [He|[He|(ch' & He & Hr)]]; rewrite He in H; [done|by left; left|]. injection H as <-. by right.
    - left. by rewrite asleep_code in H. }
  split; rewrite ?D1, ?D2, ?D3, ?D4; try done.
  - intros H. rewrite Hsp. unfold here. rewrite H. by apply (i_cproc m I c).
  - intros p Hp. rewrite Hst. unfold here. rewrite Hp. by apply (i_run m I c).
  - by left.
  - intros q Hq. destruct (Hs34 q) as (? & ? & _). naive_solver.
  - intros q Hq. destruct (Hs34 q) as (_ & _ & ? & ?). naive_solver.
  - by left.
  - assert (forall i, p_state (sh_proc (m_sh m) i) = USED -> m_code m (P i) = Forkret i -> m_on m c <> P i) as Hn.
    { intros i H1 H2 Ht. pose proof (i_run m I c i Ht) as Hr. by rewrite H1, H2 in Hr. }
    intros i b Hi. destruct Ho as [Ho|[Ho|(j & Ho & Ho' & Hf)]]; [|congruence|].
    + rewrite Ho in Hi. destruct (i_owns m I _ i b Hi) as [H1 H2]. split_and!; [done|auto|left; eauto].
    + rewrite Ho' in Hi. injection Hi as <- <-. destruct (i_owns m I _ j false Ho) as [H1 _]. split_and!; [done|auto|left; eauto].
  - intros p Hp. setoid_rewrite Hl. destruct (i_locked m I p) as [H1 H2]. rewrite (slocks_of p Hp) in *. split; [done|]. intros r Hr. split; [by apply H2|by left].
  - intros q r _. by apply (i_locked m I q).
  - intros p ch _ _ H. left. by apply (reason_same _ _ ch Hsame).
  - intros p ch Hp H Hk. destruct (Has p ch H) as [?|(_ & ? & _)]; [by apply Hc|by left].
  - by left.
  - by left.
Qed.
End Quiet.

(** ** The functions keep the invariant *)

Lemma spin_rel_hd c l sp sp' h : Spin.release c l sp = Ret tt sp' -> sees c sp (l :: h) -> word_ok sp -> spin_step_ok c sp sp' h.
Proof.
  intros Er Hs Hw. pose proof (spin_rel c l sp sp' _ Er Hs Hw) as H. pose proof (se_nodup _ _ _ Hs) as Hn. apply NoDup_cons in Hn as [Hn _].
  by rewrite filter_cons_False, klock_filter_out in H by naive_solver.
Qed.
Lemma spin_rel_snd c a l sp sp' : Spin.release c l sp = Ret tt sp' -> sees c sp [a; l] -> word_ok sp -> spin_step_ok c sp sp' [a].
Proof.
  intros Er Hs Hw. pose proof (spin_rel c l sp sp' _ Er Hs Hw) as H. pose proof (se_nodup _ _ _ Hs) as Hn. apply NoDup_cons in Hn as [Hn _].
  rewrite filter_cons_True in H by set_solver. by rewrite filter_cons_False in H by naive_solver.
Qed.

(** A program point without spin locks knows nothing about shared data. *)
Record unlocked (k : pc) : Prop := {
  u_held : held k = [];
  u_state : state_at k = RUNNING;
  u_sched : sched_proc k = None;
  u_s34 : forall q, k <> S3 q /\ k <> S4 q;
  u_early : early k = None;
  u_covers : forall ch p, ~ covers k ch p;
  u_asrt : forall s0 f, asrt s0 f k
}.
Lemma unlocked_wf t k : held k = [] -> wf t k -> unlocked k.
Proof.
  intros H W. assert (forall ch i k0, k = Wake0 ch i k0 -> False) as Hw.
  { intros ch i k0 ->. cbn in H, W. destruct W as [W _]. by destruct k0. }
  assert (forall ia k0, k = Sched2 ia k0 -> False) as Hsc.
  { intros ia k0 ->. cbn in H, W. destruct W as [(p & _ & Hf) _]. by destruct k0. }
  assert (forall l k0, k = Lf0 l k0 -> unlocked k) as Hlf by (intros l k0 ->; cbn in H, W; destruct W as [W _]; destruct k0; try done; split; first [done|by intros ? ? []]).
  destruct k; cbn in H; try done; try (by eapply Hlf); (split; first [done|by intros ? ?|exfalso; by eapply Hw|exfalso; by eapply Hsc|naive_solver]).
Qed.

Lemma wf_here m (I : inv m) c : wf (m_on m c) (here m c).
Proof. apply (i_wf m I). Qed.

Section Functions.
Context (m : mach) (I : inv m) (c : Z).
Local Abbreviation s := (m_sh m).

(** What is known at the current program point. *)
Ltac facts Ek :=
  pose proof (i_sees m I c) as Hs; pose proof (i_word m I) as Hw;
  pose proof (i_wf m I (m_on m c)) as W; change (m_code m (m_on m c)) with (here m c) in W;
  pose proof (i_asrt m I c) as A; rewrite Ek in Hs, W, A; cbn [wf asrt] in W, A.

Ltac quiet Ek := apply (eff_quiet m I c); rewrite ?Ek;
  [done| |cbn [wf]; try (done || naive_solver)|try done|try done|try done|cbn [asrt]; try done|try (by left)|try done|try (by left)|try done].
Ltac step_acq H Ek Hs Hw :=
  let sp := fresh "sp" in let Ha := fresh "Ha" in let Hn := fresh "Hn" in let Hss := fresh "Hss" in
  apply acq_inv in H as [[= ->] (sp & Ha & ->)]; destruct (spin_acq _ _ _ _ _ Ha Hs Hw) as [Hn Hss]; quiet Ek; [cbn [held set_spin sh_spin] in *; try exact Hss|..].
Ltac step_rel H Ek :=
  let sp := fresh "sp" in let Ha := fresh "Ha" in
  apply rel_inv in H as [[= ->] (sp & Ha & ->)]; quiet Ek; [cbn [held set_spin sh_spin] in *; first [by eapply spin_rel_hd|by eapply spin_rel_snd|idtac]|..].

(** Returning to a program point without spin locks. *)
Ltac unlock Hk W :=
  let U1 := fresh in let U2 := fresh in let U3 := fresh in let U4 := fresh in let U5 := fresh in let U6 := fresh in let U7 := fresh in
  destruct (unlocked_wf _ _ Hk W) as [U1 U2 U3 U4 U5 U6 U7]; rewrite ?U1, ?U2, ?U3; first [done|by eapply spin_rel_hd|by apply spin_same|by left|apply U7|by intros; split_and!; first [done|apply U4]|idtac].

Lemma cproc_of p : m_on m c = P p -> sh_cproc s c = Some p.
Proof. intros E. destruct (i_on m I c) as [Es|(q & _ & Eq & _ & H)]; [by rewrite Es in E|]. rewrite Eq in E. by injection E as ->. Qed.
Lemma myproc_of p A (f : nat -> M shared A) : m_on m c = P p -> bind (myproc c) f s = f p s.
Proof. intros E. unfold myproc, bind, gets. rewrite (cproc_of p E). done. Qed.

(** The lock steps of yield() and sleep(). *)
Lemma yield_quiet k k' s' : here m c = k -> match k with Yield0 _ | Yield2 _ _ => True | _ => False end -> yield c k s = Ret (Go k') s' -> eff m c k' s'.
Proof.
  intros Ek Hk H. facts Ek. destruct k; try done; cbn [yield] in H.
  - destruct W as ((p & Et) & Hk' & W). rewrite (myproc_of p) in H by done. step_acq H Ek Hs Hw.
  - destruct W as (Et & Hk' & W). step_rel H Ek.
    all: unlock Hk' W.
Qed.
Lemma sleep_quiet k k' s' : here m c = k -> match k with Sleep0 _ _ _ | Sleep1 _ _ _ _ | Sleep5 _ _ _ | Sleep6 _ _ => True | _ => False end ->
  sleep_ c k s = Ret (Go k') s' -> eff m c k' s'.
Proof.
  intros Ek Hk H. facts Ek. destruct k; try done; cbn [sleep_] in H.
  - destruct W as ((p & Et & Hf) & W). rewrite (myproc_of p) in H by done. step_acq H Ek Hs Hw.
  - destruct W as (Et & Hf & W). step_rel H Ek. right. right. exists ch. split; [done|]. split; [done|].
    apply sleep_from_lock in Hf. cbn [held]. destruct ch; naive_solver set_solver.
  - destruct W as (Et & Hf & W). step_rel H Ek.
  - destruct W as ((p & ch & Et & Hf) & W). destruct k; try done; cbn in Hf.
    + destruct Hf as [-> ->]. step_acq H Ek Hs Hw.
    + destruct Hf as (-> & -> & -> & -> & ->). step_acq H Ek Hs Hw. intros i Hi. lia.
Qed.

Lemma sleeplock_quiet k k' s' : here m c = k -> match k with AS0 _ _ | AS1 _ _ | AS4 _ _ | RS0 _ _ | RS3 _ _ => True | _ => False end ->
  sleeplock_ c k s = Ret (Go k') s' -> eff m c k' s'.
Proof.
  intros Ek Hk H. facts Ek. destruct k; try done; cbn [sleeplock_] in H.
  - step_acq H Ek Hs Hw.
  - unfold bind, gets, ret in H. injection H as <- <-. destruct (Z.eqb_spec (sl_locked (sh_sleep s r)) 0) as [H0|H0]; cbn [negb]; quiet Ek; try (by apply spin_same).
  - step_rel H Ek.
  - step_acq H Ek Hs Hw.
  - step_rel H Ek.
Qed.
Lemma kill_quiet k k' s' : here m c = k -> match k with Kill0 _ _ _ | Kill2 _ _ _ | Kill3 _ _ => True | _ => False end ->
  kill_ c k s = Ret (Go k') s' -> eff m c k' s'.
Proof.
  intros Ek Hk H. facts Ek. destruct k; try done; cbn [kill_] in H.
  - destruct W as (Ht & Hk' & W). destruct (Nat.leb_spec NPROC i).
    + unfold ret in H. injection H as <- <-. quiet Ek. 
      all: unlock Hk' W.
    + step_acq H Ek Hs Hw.
  - step_rel H Ek.
  - destruct W as (Ht & Hi & Hk' & W). step_rel H Ek.
    all: unlock Hk' W.
Qed.

Lemma not_asleep p ch : m_on m c = P p -> early (here m c) = None -> state_at (here m c) = RUNNING -> ~ asleep s (m_code m) p ch.
Proof. intros Et H1 H2 Ha. rewrite asleep_self_old in Ha by done. rewrite H1, (i_run m I c p Et), <- Et in Ha. change (m_code m (m_on m c)) with (here m c) in Ha. rewrite H2 in Ha. naive_solver. Qed.

Lemma noneon_code k' s' ch j : same_data s s' -> early k' = None -> noneon s (m_code m) ch j -> noneon s' (set_code (m_on m c) k' (m_code m)) ch j.
Proof.
  intros Hd He H i Hi Ha. apply (H i Hi). rewrite (asleep_same _ _ _ _ _ Hd) in Ha. destruct (decide (m_on m c = P i)) as [Et|Et].
  - rewrite asleep_self in Ha by done. rewrite asleep_self_old by done. rewrite He in Ha. naive_solver.
  - by rewrite asleep_code in Ha.
Qed.

Lemma wakeup_end ch i k : here m c = Wake0 ch i k -> (NPROC <= i)%nat -> eff m c k s.
Proof.
  intros Ek Hi. facts Ek. destruct W as [Hf W]. destruct k; try done; quiet Ek; try (by apply spin_same).
  1-2: intros q ch' Hq _ [_ ?]; lia.
  destruct A as [<- A]. apply noneon_code; [done|done|]. intros q Hq. apply A. lia.
Qed.
Lemma wakeup_skip ch i k : here m c = Wake0 ch i k -> sh_cproc s c = Some i -> eff m c (Wake0 ch (S i) k) s.
Proof.
  intros Ek Hme. facts Ek. destruct W as [Hf W].
  assert (forall ch0, (exists p, m_on m c = P p) -> ~ asleep s (m_code m) i ch0) as Hna.
  { intros ch0 [p Et]. rewrite (cproc_of p Et) in Hme. injection Hme as ->. apply not_asleep; by rewrite ?Ek. }
  destruct k; try done; quiet Ek; try (by apply spin_same).
  - intros q ch' Hq Ha [-> ?]. right. split; [done|]. destruct (decide (q = i)) as [->|]; [|lia]. by destruct (Hna ch').
  - intros q ch' Hq Ha [-> ?]. right. split; [done|]. destruct (decide (q = i)) as [->|]; [|lia]. destruct (Hna ch'); [|done]. cbn in W. eauto.
  - destruct A as [-> A]. split; [done|]. apply noneon_code; [done|done|]. intros q Hq. destruct (decide (q = i)) as [->|]; [apply Hna; cbn in W; eauto|apply A; lia].
Qed.
Lemma wakeup_quiet k k' s' : here m c = k -> match k with Wake0 _ _ _ | Wake2 _ _ _ => True | _ => False end ->
  wakeup_ c k s = Ret (Go k') s' -> eff m c k' s'.
Proof.
  intros Ek Hk H. facts Ek. destruct k; try done; cbn [wakeup_] in H.
  - destruct (Nat.leb_spec NPROC i); [unfold ret in H; injection H as <- <-; by eapply wakeup_end|]. rewrite bind_gets in H. case_bool_decide as Hme.
    + unfold ret in H. injection H as <- <-. by apply wakeup_skip.
    + step_acq H Ek Hs Hw.
      * cbn in A. destruct k; try done. destruct A as [-> A]. split; [done|]. by apply noneon_code.
      * intros q ch' _ _ Hc. right. by destruct k.
  - step_rel H Ek.
    + cbn in A. destruct k; try done. destruct A as [-> A]. split; [done|]. by apply noneon_code.
    + intros q ch' _ _ Hc. right. by destruct k.
Qed.

Lemma forkret_quiet p k' s' : here m c = Forkret p -> rel c (pl p) (Top user) s = Ret (Go k') s' -> eff m c k' s'.
Proof. intros Ek H. facts Ek. step_rel H Ek. Qed.
Lemma top_quiet x : here m c = Top x -> eff m c (Top x) s.
Proof. intros Ek. facts Ek. quiet Ek. by apply spin_same. Qed.
Lemma sched_quiet p k k' s' : here m c = Sched0 p k -> sched c p k s = Ret (Go k') s' -> eff m c k' s'.
Proof.
  intros Ek H. facts Ek. unfold sched in H. destruct (negb _); [done|]. destruct (negb _); [done|]. destruct (decide _); [done|]. destruct (negb _); [done|]. injection H as <- <-. quiet Ek. by apply spin_same.
Qed.
Lemma sched_resume ia k : here m c = Sched2 ia k -> eff m c k (set_intena c ia s).
Proof.
  intros Ek. facts Ek. destruct W as ((p & Et & Hf) & W). destruct k; try done; quiet Ek; cbn [set_intena set_spin sh_spin]; (apply spin_cpu; [done|done|by left]).
Qed.

Lemma spawn_quiet i : here m c = Fork3 i -> m_code m (P i) = Forkret i -> eff m c (ForkM i) s.
Proof. intros Ek Hc. facts Ek. quiet Ek; [by apply spin_same|]. right. right. by exists i. Qed.
Lemma copyfail_quiet p i : here m c = WaitZ p i -> eff m c (WaitR i) s.
Proof. intros Ek. facts Ek. destruct W as [Et Hi]. quiet Ek; by apply spin_same. Qed.
Lemma device_quiet z k : here m c = Dev1 k -> eff m c (Wake0 (OnDev z) 0 (Dev1 k)) s.
Proof. intros Ek. facts Ek. destruct W as [Hk W]. quiet Ek; by apply spin_same. Qed.
Lemma choice_quiet x k s' : here m c = Top x -> choice c x s k s' -> eff m c k s'.
Proof.
  intros Ek H. facts Ek. inversion H; subst; clear H; quiet Ek; try (by apply spin_same).
  - cbn [slocks x_locks]. by rewrite Permutation_middle.
  - cbn [set_sie set_spin sh_spin]. apply spin_cpu; [done|done|by right].
Qed.
Lemma interrupt_quiet k' : Spin.sie (Spin.cpus (sh_spin s) c) = 1 ->
  k' = Clk0 (KTrap (here m c)) \/ k' = KTrap (here m c) \/ k' = Dev0 (Tret (here m c)) -> eff m c k' (set_sie c 0 s).
Proof.
  intros H1 Hk'. pose proof (wf_here m I c) as W. pose proof (i_sees m I c) as Hs. pose proof (i_word m I) as Hw.
  assert (held (here m c) = []) as Hh. { destruct (held (here m c)) eqn:E; [done|]. assert (Spin.sie (Spin.cpus (sh_spin s) c) = 0) by (by apply (se_off _ _ _ Hs)). lia. }
  destruct (unlocked_wf _ _ Hh W) as [_ U2 U3 U4 U5 U6 U7].
  assert (held k' = [] /\ wf (m_on m c) k' /\ state_at k' = RUNNING /\ sched_proc k' = None /\ (forall q, k' <> S3 q /\ k' <> S4 q) /\ early k' = None /\ (forall s0 f, asrt s0 f k') /\ owns k' = owns (here m c) /\ slocks k' = slocks (here m c)) as
    (K1 & K2 & K3 & K4 & K5 & K6 & K7 & K8 & K9) by (destruct Hk' as [-> |[-> | ->]]; by split_and!).
  apply (eff_quiet m I c); rewrite ?K1, ?K3, ?K4, ?K8, ?K9, ?U2, ?U3; try done; [|by intros q; destruct (U4 q), (K5 q)|by left|by left|].
  - cbn [set_sie set_spin sh_spin]. apply spin_cpu; [by rewrite <- Hh|done|by right].
  - intros p ch _ _ H. by destruct (U6 ch p).
Qed.
(** The critical sections of functions called at [k]. *)
Lemma leaf_quiet k k' s' : here m c = k -> match k with Lf0 _ _ | Lf1 _ _ => True | _ => False end -> leaf_ c k s = Ret (Go k') s' -> eff m c k' s'.
Proof.
  intros Ek Hk H. facts Ek. destruct k; try done; cbn [leaf_] in H; destruct W as [Hl W].
  - step_acq H Ek Hs Hw.
  - destruct k; try done; step_rel H Ek.
Qed.
Lemma leaf_call l : leaf_at l (here m c) = true -> eff m c (Lf0 l (here m c)) s.
Proof. intros Hl. destruct (here m c) eqn:Ek; try done; facts Ek; quiet Ek; by apply spin_same. Qed.
Lemma kill_skip pid i k : here m c = Kill1 pid i k -> eff m c (Kill2 pid i k) s.
Proof. intros Ek. facts Ek. quiet Ek. by apply spin_same. Qed.
Lemma exit_skip p i k' : here m c = Exit1 p i -> k' = Exit2 p \/ k' = Exit1 p (S i) -> eff m c k' s.
Proof. intros Ek [-> | ->]; facts Ek; quiet Ek; by apply spin_same. Qed.
Lemma scheduler_skip i : here m c = S2 i -> eff m c (S6 i) s.
Proof. intros Ek. facts Ek. quiet Ek. by apply spin_same. Qed.

Lemma trap_quiet k k' s' : here m c = k -> match k with KTrap _ | Tret _ | Clk0 _ | Clk1 _ | Clk2 _ | Dev0 _ | Dev1 _ => True | _ => False end ->
  trap_ c k s = Ret (Go k') s' -> eff m c k' s'.
Proof.
  intros Ek Hk H. facts Ek. destruct k; try done; cbn [trap_ clockintr] in H; destruct W as (Hk' & W).
  - rewrite bind_gets in H. destruct (sh_cproc s c) as [p|] eqn:Ec; [rewrite bind_gets in H|]; unfold ret in H; injection H as <- <-.
    + assert (m_on m c = P p) as Et. { destruct (i_on m I c) as [Es|(q & _ & Eq & _ & H)]; [|congruence]. rewrite (i_cproc m I c Es), <- Es in Ec. change (m_code m (m_on m c)) with (here m c) in Ec. by rewrite Ek in Ec. }
      destruct (decide _); quiet Ek; by apply spin_same.
    + quiet Ek. by apply spin_same.
  - apply go_inv in H as [[= ->] ->]. quiet Ek.
    all: try unlock Hk' W. cbn [set_sie set_spin sh_spin]. apply spin_cpu; [done|done|by right].
  - step_acq H Ek Hs Hw.
  - apply go_inv in H as [[= ->] ->]. quiet Ek. by apply spin_same.
  - step_rel H Ek.
    all: unlock Hk' W.
  - step_acq H Ek Hs Hw.
  - step_rel H Ek.
    all: unlock Hk' W.
Qed.

Lemma scheduler_quiet k k' s' : here m c = k -> match k with S0 | S1 _ | S6 _ => True | _ => False end ->
  scheduler c k s = Ret (Go k') s' -> eff m c k' s'.
Proof.
  intros Ek Hk H. facts Ek. destruct k; try done; cbn [scheduler] in H.
  - apply go_inv in H as [[= ->] ->]. quiet Ek. cbn [set_sie set_spin sh_spin]. apply spin_cpu; [done|done|by right].
  - destruct (Nat.leb_spec NPROC i); [unfold ret in H; injection H as <- <-; quiet Ek; by apply spin_same|]. step_acq H Ek Hs Hw.
  - step_rel H Ek.
Qed.

Lemma exit_quiet k k' s' : here m c = k -> match k with Exit0 | ExitI | ExitA | Exit2 _ | Exit3 _ | Exit5 _ => True | _ => False end ->
  exit_ c k s = Ret (Go k') s' -> eff m c k' s'.
Proof.
  intros Ek Hk H. facts Ek. destruct k; try done; cbn [exit_ reparent] in H.
  - destruct W as [p Et]. rewrite (myproc_of p), bind_gets, (i_thread m I p) in H by done. injection H as <- <-. quiet Ek. by apply spin_same.
  - destruct W as [p Et]. rewrite (myproc_of p) in H by done. destruct (Nat.eqb p initproc); [done|]. injection H as <- <-. quiet Ek. by apply spin_same.
  - destruct W as [p Et]. rewrite (myproc_of p) in H by done. step_acq H Ek Hs Hw.
  - rewrite bind_gets in H. unfold ret in H. injection H as <- <-. quiet Ek; [by apply spin_same|]. split; [done|]. intros i Hi. lia.
  - step_acq H Ek Hs Hw. by apply noneon_code.
  - step_rel H Ek.
Qed.

Lemma wait_quiet k k' s' : here m c = k -> match k with Wait2 _ _ | Wait0 | Wait1 _ _ _ | Wait3 _ _ | Wait4 _ | Wait5 _ | Wait6 _ _ | WaitR _ | WaitX => True | _ => False end ->
  wait_ c k s = Ret (Go k') s' -> eff m c k' s'.
Proof.
  intros Ek Hk H. facts Ek. destruct k; try done; cbn [wait_] in H.
  - destruct W as [p Et]. rewrite (myproc_of p) in H by done. step_acq H Ek Hs Hw. intros i Hi. lia.
  - destruct (Nat.leb_spec NPROC i).
    + unfold ret in H. injection H as <- <-. destruct hk; quiet Ek; try (by apply spin_same). intros j Hj. apply A. lia.
    + rewrite bind_gets in H. case_bool_decide as Hp; [step_acq H Ek Hs Hw|]. unfold ret in H. injection H as <- <-. quiet Ek; [by apply spin_same|].
      intros j Hj Hpj. destruct (decide (j = i)) as [->|]; [done|]. apply A; [lia|done].
  - rewrite bind_gets in H. destruct (decide _); unfold ret in H; injection H as <- <-; quiet Ek; try (by apply spin_same).
    intros j Hj Hpj. destruct (decide (j = i)) as [->|]; [done|]. apply A; [lia|done].
  - step_rel H Ek.
  - step_acq H Ek Hs Hw.
  - rewrite bind_gets in H. unfold ret in H. injection H as <- <-. quiet Ek. by apply spin_same.
  - destruct b; step_rel H Ek.
  - step_rel H Ek.
  - step_rel H Ek.
Qed.

Lemma fork_quiet k k' s' : here m c = k -> match k with Fork0 _ | Fork1 _ | ForkPid0 _ | ForkPid1 _ | ForkPid2 _ _ | ForkRel _ | ForkM _ | Fork4 _ | Fork5 _ | Fork7 _ | Fork8 _ | Fork10 _ => True | _ => False end ->
  fork_ c k s = Ret (Go k') s' -> eff m c k' s'.
Proof.
  intros Ek Hk H. facts Ek. destruct k; try done; cbn [fork_ allocproc allocpid] in H.
  - destruct (Nat.leb_spec NPROC i); [unfold ret in H; injection H as <- <-; quiet Ek; by apply spin_same|]. step_acq H Ek Hs Hw.
  - rewrite bind_gets in H. destruct (decide _); [unfold ret in H; injection H as <- <-; quiet Ek; by apply spin_same|]. step_rel H Ek.
  - step_acq H Ek Hs Hw.
  - rewrite bind_gets in H. apply go_inv in H as [[= ->] ->]. quiet Ek. by apply spin_same.
  - step_rel H Ek.
  - apply go_inv in H as [[= ->] ->]. quiet Ek. by apply spin_same.
  - step_rel H Ek.
  - step_rel H Ek.
  - step_acq H Ek Hs Hw.
  - step_rel H Ek.
  - step_acq H Ek Hs Hw.
  - step_rel H Ek.
Qed.
End Functions.

(** ** Steps that write shared data *)

Lemma set_proc_eq p f s : sh_proc (set_proc p f s) p = f (sh_proc s p).
Proof. cbn. by rewrite decide_True. Qed.
Lemma set_proc_ne p f s q : q <> p -> sh_proc (set_proc p f s) q = sh_proc s q.
Proof. intros. cbn. by rewrite decide_False. Qed.

Section Writes.
Context (m : mach) (I : inv m) (c : Z).
Local Abbreviation s := (m_sh m).
Local Abbreviation k := (here m c).

Lemma not_sched t k0 p q : t = P p -> wf t k0 -> k0 <> S3 q /\ k0 <> S4 q.
Proof. intros -> W. split; intros ->; cbn in W; naive_solver. Qed.
Lemma state_at_used k0 : state_at k0 <> USED.
Proof. destruct k0; try done; cbn; by destruct k0. Qed.
Lemma not_used p : m_on m c = P p -> p_state (sh_proc s p) <> USED.
Proof. intros E. rewrite (i_run m I c p E). apply state_at_used. Qed.
Lemma owned_other p i b : m_on m c = P p -> owns k = Some (i, b) -> i <> p /\ p_state (sh_proc s i) = USED /\ (b = true -> m_code m (P i) = Forkret i).
Proof. intros Et Ho. destruct (i_owns m I (m_on m c) i b Ho) as [H1 H2]. split_and!; [|done|done]. intros ->. by apply (not_used p). Qed.

(** The thread of [p] writes its own entry of the table. *)
Lemma eff_self p f k' : m_on m c = P p -> pl p ∈ held k -> held k' = held k -> wf (P p) k' -> p_state (f (sh_proc s p)) = state_at k' ->
  asrt (set_proc p f s) (set_code (m_on m c) k' (m_code m)) k' -> owns k' = owns k -> slocks k' = slocks k ->
  (forall ch, early k' = Some ch \/ (state_at k' = SLEEPING /\ p_chan (f (sh_proc s p)) = ch) -> early k = Some ch) ->
  (state_at k' = ZOMBIE -> L_wait ∈ held k /\ noneon s (m_code m) (parent_chan s p) NPROC) -> (forall ch q, ~ covers k ch q) -> (forall d, p_thread (f d) = p_thread d) -> eff m c k' (set_proc p f s).
Proof.
  intros Et Hl Hh Hwf Hst Ha Ho Hsl He Hz Hc Hth. set (s' := set_proc p f s).
  assert (forall q, P q <> m_on m c -> sh_proc s' q = sh_proc s q) as Hq by (intros q Hq; apply set_proc_ne; congruence).
  assert (forall q ch, asleep s' (set_code (m_on m c) k' (m_code m)) q ch -> asleep s (m_code m) q ch) as Has.
  { intros q ch H. destruct (decide (m_on m c = P q)) as [Eq|Eq].
    - rewrite asleep_self in H by done. rewrite asleep_self_old by done. assert (q = p) as -> by congruence. unfold s' in H. rewrite set_proc_eq, Hst in H. left. by apply He.
    - rewrite asleep_code in H by done. unfold asleep in *. by rewrite (Hq q) in H by congruence. }
  destruct (spin_same c (sh_spin s) (held k') ltac:(rewrite Hh; apply I) (i_word m I)) as [S1' S2' S3'].
  split; try done.
  - by rewrite Et.
  - intros H. by rewrite Et in H.
  - intros q Hn. apply Hq. rewrite Et. intros [= ->]. done.
  - intros q Hq'. assert (q = p) as -> by congruence. unfold s'. by rewrite set_proc_eq.
  - intros q Hq'. left. by rewrite Hq.
  - intros q Hk. destruct (not_sched _ _ p q Et (wf_here m I c)). naive_solver.
  - intros q Hk. destruct (not_sched _ _ p q eq_refl Hwf). naive_solver.
  - intros i Hi. left. rewrite Hq; [done|]. intros H. destruct (not_used i); [congruence|done].
  - intros i b Hi. rewrite Ho in Hi. destruct (owned_other p i b Et Hi) as (Hne & H1 & H2). rewrite Hq by congruence. split_and!; [done| |left; eauto]. intros Hb. split; [by apply H2|congruence].
  - intros q Hq'. rewrite Hsl. destruct (i_locked m I q) as [H1 H2]. rewrite (slocks_of m c q Hq') in *. split; [done|]. intros r Hr. split; [by apply H2|by left].
  - intros q r _. by apply (i_locked m I q).
  - intros q ch H. left. by apply Has.
  - intros q ch Hlt H Hr. left. destruct ch as [|r|x| |z]; cbn [reason] in *; try done. intros i Hi Hpar Hzi. destruct (decide (i = p)) as [->|Hip].
    + unfold s' in Hzi. rewrite set_proc_eq, Hst in Hzi. destruct (Hz Hzi) as [_ Hno]. apply (Hno q Hlt). unfold parent_chan. change (sh_parent s' p) with (sh_parent s p) in Hpar. rewrite Hpar. by apply Has.
    + rewrite Hq in Hzi by congruence. by apply (Hr i).
  - intros q ch _ _ H. by destruct (Hc ch q).
  - intros q Hz'. destruct (decide (q = p)) as [->|Hne]; [right|left; rewrite <- Hz'; symmetry; f_equal; apply Hq; congruence]. unfold s' in Hz'. rewrite set_proc_eq, Hst in Hz'. by apply Hz.
  - by left.
  - intros q. destruct (decide (q = p)) as [->|Hne]; [unfold s'; by rewrite set_proc_eq, Hth|by rewrite Hq by congruence].
Qed.

Lemma asleep_quiet k' s' q ch : sh_proc s' = sh_proc s -> early k' = None -> asleep s' (set_code (m_on m c) k' (m_code m)) q ch -> asleep s (m_code m) q ch.
Proof.
  intros Hp He H. assert (asleep s (set_code (m_on m c) k' (m_code m)) q ch) as H' by (unfold asleep in *; by rewrite Hp in H).
  destruct (decide (m_on m c = P q)) as [Eq|Eq]; [|by rewrite asleep_code in H'].
  rewrite asleep_self in H' by done. rewrite asleep_self_old by done. rewrite He in H'. naive_solver.
Qed.

(** The thread of [p] writes a sleep lock. *)
Lemma eff_slock p r f k' : m_on m c = P p -> L_sleep r ∈ held k -> held k' = held k -> wf (P p) k' -> state_at k' = state_at k -> early k' = None ->
  asrt (set_slock r f s) (set_code (m_on m c) k' (m_code m)) k' -> owns k' = owns k -> NoDup (slocks k') ->
  (forall x, x ∈ slocks k' -> (x = r -> sl_locked (f (sh_sleep s r)) <> 0) /\ (x ∈ slocks k \/ x = r /\ forall q, x ∉ slocks (m_code m (P q)))) ->
  (forall q, m_on m c <> P q -> r ∈ slocks (m_code m (P q)) -> sl_locked (f (sh_sleep s r)) <> 0) ->
  (forall q, sl_locked (sh_sleep s r) <> 0 -> sl_locked (f (sh_sleep s r)) <> 0 \/ covers k' (OnSleep r) q) ->
  (forall ch q, covers k ch q -> covers k' ch q) -> eff m c k' (set_slock r f s).
Proof.
  intros Et Hl Hh Hwf Hst He Ha Ho Hnd Hsl Hsl' Hr Hc. set (s' := set_slock r f s).
  assert (forall x, sh_sleep s' x = if decide (x = r) then f (sh_sleep s r) else sh_sleep s x) as Hsleep by done.
  assert (slocks (m_code m (P p)) = slocks k) as Hk by by apply slocks_of.
  destruct (spin_same c (sh_spin s) (held k') ltac:(rewrite Hh; apply I) (i_word m I)) as [S1' S2' S3'].
  split; try done.
  - by rewrite Et.
  - intros H. by rewrite Et in H.
  - intros q Hq'. rewrite Hst. unfold here. rewrite Hq'. by apply (i_run m I c).
  - by left.
  - intros q Hkq. destruct (not_sched _ _ p q Et (wf_here m I c)). naive_solver.
  - intros q Hkq. destruct (not_sched _ _ p q eq_refl Hwf). naive_solver.
  - by left.
  - intros i b Hi. rewrite Ho in Hi. destruct (owned_other p i b Et Hi) as (Hne & H1 & H2). split_and!; [done| |left; eauto]. intros Hb. split; [by apply H2|congruence].
  - intros q Hq'. split; [done|]. intros x Hx. destruct (Hsl x Hx) as [Hx1 Hx2]. split; [|naive_solver]. rewrite Hsleep. case_decide as Hd; [by apply Hx1|].
    destruct Hx2 as [Hx2|[? _]]; [|done]. apply (i_locked m I p). by rewrite Hk.
  - intros q x Hq Hx. rewrite Hsleep. case_decide as Hd; [subst x; by apply (Hsl' q)|]. by apply (i_locked m I q).
  - intros x Hx. rewrite Hsleep. rewrite decide_False; [done|]. by intros ->.
  - intros q ch H. left. by apply (asleep_quiet k' s').
  - intros q ch Hlt H Hre. destruct ch as [|x|x| |z]; cbn [reason] in *; try (by left). rewrite Hsleep. case_decide as Hd; [subst x; by apply Hr|by left].
  - intros q ch _ _ H. right. by apply Hc.
  - by left.
  - by left.
Qed.

(** A process whose lock this CPU holds runs elsewhere only in state RUNNING. *)
Lemma locked_off q : pl q ∈ held k -> m_on m c <> P q -> p_state (sh_proc s q) <> RUNNING -> forall d, m_on m d <> P q.
Proof.
  intros Hl Hc Hst d Ed. rewrite (i_run m I d q Ed) in Hst. pose proof (i_wf m I (P q)) as W. assert (pl q ∈ held (here m d)) as Hd.
  { unfold here. rewrite Ed. destruct (m_code m (P q)); cbn in Hst, W |- *; try done; [| |].
    - destruct W as ([= ->] & _). by constructor.
    - destruct W as ([= ->] & _). by constructor.
    - injection W as ->. by constructor. }
  pose proof (excl m I c (pl q) d Hl Hd) as ->. done.
Qed.

(** A thread writes another entry of the table. *)
Record entry_step (q : nat) (k' : pc) (s' : shared) : Prop := {
  es_rest : sh_spin s' = sh_spin s /\ sh_sleep s' = sh_sleep s /\ sh_cproc s' = sh_cproc s;
  es_proc : forall x, x <> q -> sh_proc s' x = sh_proc s x /\ sh_parent s' x = sh_parent s x;
  es_parent : sh_parent s' q = sh_parent s q \/ (sh_parent s' q = None /\ (L_wait ∈ held k \/ p_state (sh_proc s q) = USED));
  es_lock : pl q ∈ held k;
  es_state : (p_state (sh_proc s' q) = p_state (sh_proc s q) /\ p_chan (sh_proc s' q) = p_chan (sh_proc s q)) \/
    (m_on m c <> P q /\ p_state (sh_proc s q) <> RUNNING /\ parked s' (m_code m) q /\ p_state (sh_proc s' q) <> SLEEPING /\ p_state (sh_proc s' q) <> ZOMBIE /\
     (p_state (sh_proc s' q) = RUNNING -> m_on m c = S_ c /\ k' = S3 q));
  es_used : p_state (sh_proc s q) = USED -> p_state (sh_proc s' q) = USED \/ (exists b, owns k = Some (q, b)) /\ owns k' = None;
  es_owns : owns k' = owns k \/ owns k' = None \/ (owns k' = Some (q, false) /\ p_state (sh_proc s' q) = USED /\ p_state (sh_proc s q) <> USED);
  es_thread : p_thread (sh_proc s q) = 0 -> p_thread (sh_proc s' q) = 0
}.

Lemma eff_entry q k' s' : entry_step q k' s' -> held k' = held k -> wf (m_on m c) k' -> state_at k' = state_at k -> sched_proc k' = sched_proc k -> early k' = None ->
  (forall x, k <> S3 x /\ k <> S4 x /\ k' <> S4 x /\ (k' = S3 x -> x = q /\ m_on m c <> P q /\ p_state (sh_proc s q) <> RUNNING)) ->
  asrt s' (set_code (m_on m c) k' (m_code m)) k' -> slocks k' = slocks k ->
  (forall p ch, (p < NPROC)%nat -> asleep s (m_code m) p ch -> asleep s' (set_code (m_on m c) k' (m_code m)) p ch -> covers k ch p -> covers k' ch p) -> eff m c k' s'.
Proof.
  intros [(R1 & R2 & R3) Hx Hpar Hl Hst Hu Ho Hth] Hh Hwf Hsa Hsp He H34 Ha Hsl Hc.
  assert (forall p ch, asleep s' (set_code (m_on m c) k' (m_code m)) p ch -> asleep s (m_code m) p ch) as Has.
  { intros p ch H. apply (asleep_quiet k' s); [done|done|]. destruct (decide (p = q)) as [->|Hne].
    - unfold asleep in *. destruct Hst as [[E1 E2]|(_ & _ & _ & Hns & _)]; [by rewrite E1, E2 in H|]. naive_solver.
    - unfold asleep in *. by rewrite (proj1 (Hx p Hne)) in H. }
  assert (forall x y, p_state (sh_proc s' x) = ZOMBIE -> sh_parent s' x = Some y -> p_state (sh_proc s x) = ZOMBIE /\ sh_parent s x = Some y) as Hz.
  { intros x y H1 H2. destruct (decide (x = q)) as [->|Hne]; [|destruct (Hx x Hne) as [E1 E2]; by rewrite E1 in H1; rewrite E2 in H2].
    destruct Hst as [[E1 _]|(_ & _ & _ & _ & ? & _)]; [|done]. rewrite E1 in H1. destruct Hpar as [E|[E _]]; rewrite E in H2; done. }
  assert (forall ch, reason s ch -> reason s' ch) as Hre.
  { intros [|r|x| |z] H; cbn [reason] in *; try done; [by rewrite R2|]. intros i Hi Hp Hzi. destruct (Hz i x Hzi Hp). by apply (H i). }
  destruct (spin_same c (sh_spin s) (held k') ltac:(rewrite Hh; apply I) (i_word m I)) as [S1' S2' S3'].
  split; rewrite ?R1, ?R2, ?R3; try done.
  - intros H. rewrite Hsp. unfold here. rewrite H. by apply (i_cproc m I c).
  - intros x Hn. apply Hx. by intros ->.
  - intros p Hp. destruct (decide (p = q)) as [->|Hne].
    + rewrite Hsa. destruct Hst as [[E1 _]|[? _]]; [|done]. rewrite E1. unfold here. rewrite Hp. by apply (i_run m I c).
    + rewrite (proj1 (Hx p Hne)), Hsa. unfold here. rewrite Hp. by apply (i_run m I c).
  - intros x Ht. destruct (decide (x = q)) as [->|Hne]; [|left; by rewrite (proj1 (Hx x Hne))]. destruct Hst as [?|(H1 & H2 & H3 & _ & _ & H4)]; [by left|right].
    split; [by apply locked_off|done].
  - intros x Hk. destruct (H34 x) as (? & ? & _). naive_solver.
  - intros x Hk. destruct (H34 x) as (_ & _ & ? & Hq). destruct Hk as [Hk|Hk]; [|done]. destruct (Hq Hk) as (-> & ? & ?). by apply locked_off.
  - intros i Hi. destruct (decide (i = q)) as [->|Hne]; [by apply Hu|left; by rewrite (proj1 (Hx i Hne))].
  - intros i b Hi. destruct Ho as [Ho|[Ho|(Ho & Ho1 & Ho2)]]; [|congruence|rewrite Ho in Hi; injection Hi as <- <-; split_and!; [done|done|by right]].
    rewrite Ho in Hi. destruct (i_owns m I (m_on m c) i b Hi) as [H1 H2]. split_and!; [| |left; eauto].
    + destruct (decide (i = q)) as [->|Hne]; [|by rewrite (proj1 (Hx i Hne))]. destruct (Hu H1) as [?|[_ Hn]]; [done|congruence].
    + intros Hb. specialize (H2 Hb). split; [done|]. intros Ht. pose proof (i_run m I c i Ht) as Hr. by rewrite H1, H2 in Hr.
  - intros p Hp. rewrite Hsl. destruct (i_locked m I p) as [H1 H2]. rewrite (slocks_of m c p Hp) in *. split; [done|]. intros r Hr. split; [by apply H2|by left].
  - intros x r _. by apply (i_locked m I x).
  - intros p ch H. left. by apply Has.
  - intros p ch _ _ H. left. by apply Hre.
  - intros p ch Hp H Hk. right. apply Hc; auto.
  - intros x Hzx. left. destruct (decide (x = q)) as [->|Hne]; [|by rewrite (proj1 (Hx x Hne)) in Hzx]. destruct Hst as [[E1 _]|(_ & _ & _ & _ & ? & _)]; [by rewrite <- E1|done].
  - intros x. destruct (decide (x = q)) as [->|Hne]; [|left; by apply Hx]. destruct Hpar as [?|[? [?|?]]]; auto.
  - intros x. destruct (decide (x = q)) as [->|Hne]; [done|by rewrite (proj1 (Hx x Hne))].
Qed.
End Writes.

Section Steps.
Context (m : mach) (I : inv m) (c : Z).
Local Abbreviation s := (m_sh m).
Local Abbreviation k := (here m c).

(** The holder of wait_lock writes a parent pointer. *)
Lemma eff_parent p i x k' : m_on m c = P p -> L_wait ∈ held k -> held k' = held k -> wf (P p) k' -> state_at k' = state_at k -> early k' = None ->
  asrt (set_parent i x s) (set_code (m_on m c) k' (m_code m)) k' -> owns k' = owns k -> slocks k' = slocks k ->
  (forall q j, x = Some q -> p_state (sh_proc s i) = ZOMBIE -> covers k' (OnProc q) j) -> (forall ch q, ~ covers k ch q) -> eff m c k' (set_parent i x s).
Proof.
  intros Et Hl Hh Hwf Hst He Ha Ho Hsl Hx Hc.
  destruct (spin_same c (sh_spin s) (held k') ltac:(rewrite Hh; apply I) (i_word m I)) as [S1' S2' S3'].
  split; try done.
  - by rewrite Et.
  - intros H. by rewrite Et in H.
  - intros q Hq'. rewrite Hst. unfold here. rewrite Hq'. by apply (i_run m I c).
  - by left.
  - intros q Hkq. destruct (not_sched _ _ p q Et (wf_here m I c)). naive_solver.
  - intros q Hkq. destruct (not_sched _ _ p q eq_refl Hwf). naive_solver.
  - by left.
  - intros j b Hi. rewrite Ho in Hi. destruct (owned_other m I c p j b Et Hi) as (Hne & H1 & H2). split_and!; [done| |left; eauto]. intros Hb. split; [by apply H2|congruence].
  - intros q Hq. rewrite Hsl. destruct (i_locked m I q) as [H1 H2]. rewrite (slocks_of m c q Hq) in *. split; [done|]. intros r Hr. split; [by apply H2|by left].
  - intros q r _. by apply (i_locked m I q).
  - intros q ch H. left. by apply (asleep_quiet m c k' (set_parent i x s)).
  - intros q ch _ _ Hr. destruct ch as [|r|y| |z]; cbn [reason] in *; try (by left). destruct (decide (x = Some y /\ p_state (sh_proc s i) = ZOMBIE)) as [[-> Hz]|Hn]; [right; by apply Hx|left].
    intros j Hj Hp Hz. cbn in Hp, Hz. case_decide as Hd; [subst j; by destruct Hn|by apply (Hr j)].
  - intros q ch _ _ H. by destruct (Hc ch q).
  - by left.
  - intros q. right. by left.
Qed.

(** The scheduler writes c->proc. *)
Lemma eff_cproc x k' : m_on m c = S_ c -> held k' = held k -> wf (S_ c) k' -> x = sched_proc k' -> early k' = None ->
  (forall q, k = S3 q \/ k = S4 q -> k' = S4 q) -> (forall q, k' = S3 q \/ k' = S4 q -> k = S3 q) ->
  asrt (set_cproc c x s) (set_code (m_on m c) k' (m_code m)) k' -> owns k' = None -> (forall ch q, ~ covers k ch q) -> eff m c k' (set_cproc c x s).
Proof.
  intros Et Hh Hwf Hx He H3 H4 Ha Ho Hc.
  destruct (spin_same c (sh_spin s) (held k') ltac:(rewrite Hh; apply I) (i_word m I)) as [S1' S2' S3'].
  split; try done.
  - by rewrite Et.
  - intros d Hd. cbn. by rewrite (proj2 (Z.eqb_neq _ _)).
  - intros p H. by rewrite Et in H.
  - intros _. cbn. by rewrite Z.eqb_refl.
  - intros p H. by rewrite Et in H.
  - by left.
  - intros q Hq. apply (i_off m I c q Et). left. specialize (H4 q Hq). unfold here in H4. by rewrite Et in H4.
  - by left.
  - intros i b Hi. by rewrite Ho in Hi.
  - intros p H. by rewrite Et in H.
  - intros q r _. by apply (i_locked m I q).
  - intros q ch H. left. by apply (asleep_quiet m c k' (set_cproc c x s)).
  - intros q ch _ _ H. by left.
  - intros q ch _ _ H. by destruct (Hc ch q).
  - by left.
  - by left.
Qed.

Ltac facts Ek :=
  pose proof (i_sees m I c) as Hs; pose proof (i_word m I) as Hw;
  pose proof (i_wf m I (m_on m c)) as W; change (m_code m (m_on m c)) with (here m c) in W;
  pose proof (i_asrt m I c) as A; rewrite Ek in Hs, W, A; cbn [wf asrt] in W, A.

Ltac side := first [done|cbn [held]; by repeat constructor|by intros ? ? []|by intros ? [?|[? ?]]|match goal with |- p_thread _ = 0 -> _ => cbn; by rewrite ?decide_True end|idtac].

Lemma yield_write p k0 : k = Yield1 p k0 -> eff m c (Sched0 p (Yield2 p k0)) (set_proc p (set_state RUNNABLE) s).
Proof. intros Ek. facts Ek. destruct W as (Et & Hh & W). rewrite Et in W. apply eff_self; rewrite ?Ek; side. Qed.

Lemma running p : m_on m c = P p -> p_state (sh_proc s p) = state_at k.
Proof. intros Et. rewrite (i_run m I c p Et). unfold here. by rewrite Et. Qed.
Lemma sleep_write2 p ch lk k0 : k = Sleep2 p ch lk k0 -> eff m c (Sleep3 p ch lk k0) (set_proc p (set_chan ch) s).
Proof.
  intros Ek. facts Ek. destruct W as (Et & Hf & W). rewrite Et in W. apply eff_self; rewrite ?Ek; side.
  - cbn. by rewrite (running p Et), Ek.
  - cbn [asrt]. by rewrite set_proc_eq.
Qed.
Lemma sleep_write3 p ch lk k0 : k = Sleep3 p ch lk k0 -> eff m c (Sched0 p (Sleep4 p ch lk k0)) (set_proc p (set_state SLEEPING) s).
Proof.
  intros Ek. facts Ek. destruct W as (Et & Hf & W). rewrite Et in W. apply eff_self; rewrite ?Ek; side.
  - cbn [asrt]. by rewrite set_proc_eq.
  - cbn. intros ch'. rewrite A. naive_solver.
Qed.
Lemma sleep_write4 p ch lk k0 : k = Sleep4 p ch lk k0 -> eff m c (Sleep5 p lk k0) (set_proc p (set_chan NoChan) s).
Proof.
  intros Ek. facts Ek. destruct W as (Et & Hf & W). rewrite Et in W. apply eff_self; rewrite ?Ek; side.
  - cbn [wf]. eauto.
  - cbn. by rewrite (running p Et), Ek.
Qed.
Lemma exit_write p : k = Exit4 p -> eff m c (Exit5 p) (set_proc p (set_state ZOMBIE) s).
Proof.
  intros Ek. facts Ek. apply eff_self; rewrite ?Ek; side.
Qed.

(** What an entry of the table is after a step that writes only [q]'s. *)
Lemma entry_rest q f : forall x, x <> q -> sh_proc (set_proc q f s) x = sh_proc s x /\ sh_parent (set_proc q f s) x = sh_parent s x.
Proof. intros x Hx. split; [by apply set_proc_ne|done]. Qed.

Lemma parked_woken q f : (forall d, m_on m d <> P q) -> p_state (sh_proc s q) = SLEEPING -> p_state (f (sh_proc s q)) = RUNNABLE -> parked (set_proc q f s) (m_code m) q.
Proof.
  intros Hoff Hst Hf. pose proof (i_park m I q Hoff) as H. unfold parked in *. rewrite Hst in H. rewrite set_proc_eq, Hf. destruct H as [He (ia & ch & lk & k0 & -> & _)]. split; [done|]. right. eauto.
Qed.

Lemma not_running_here q : m_on m c = P q -> state_at k = RUNNING -> p_state (sh_proc s q) = RUNNING.
Proof. intros Et <-. by apply running. Qed.

Lemma locked_not_early q : pl q ∈ held k -> m_on m c <> P q -> early (m_code m (P q)) = None.
Proof.
  intros Hl Hc. destruct (early (m_code m (P q))) as [ch|] eqn:He; [|done]. exfalso. pose proof (i_wf m I (P q)) as W.
  destruct (i_park m I q) as [H _]; [|congruence]. intros d Ed.
  assert (pl q ∈ held (here m d)) as Hd. { unfold here. rewrite Ed. destruct (m_code m (P q)); cbn in He, W |- *; try done; destruct W as ([= ->] & _); by constructor. }
  pose proof (excl m I c (pl q) d Hl Hd) as ->. done.
Qed.
(** Passing process [i] in the loop of wakeup(). *)
Lemma passed s' ch i k0 : k = Wake1 ch i k0 -> (forall q, q <> i -> sh_proc s' q = sh_proc s q) -> sh_parent s' = sh_parent s -> wakes ch (sh_proc s' i) = false ->
  (m_on m c = P i -> p_state (sh_proc s' i) = RUNNING) ->
  (asrt s' (set_code (m_on m c) (Wake2 ch i k0) (m_code m)) (Wake2 ch i k0)) /\
  (forall p ch0, asleep s' (set_code (m_on m c) (Wake2 ch i k0) (m_code m)) p ch0 -> covers (Wake1 ch i k0) ch0 p -> covers (Wake2 ch i k0) ch0 p).
Proof.
  intros Ek Hq Hp Hnw Hme. facts Ek. set (code' := set_code _ _ _).
  assert (~ asleep s' code' i ch) as Hi.
  { unfold wakes in Hnw. apply andb_false_iff in Hnw. rewrite !bool_decide_eq_false in Hnw. intros H. destruct (decide (m_on m c = P i)) as [Et|Et].
    - unfold code' in H. rewrite asleep_self in H by done. cbn [early] in H. destruct H as [?|[? ?]]; [done|]. rewrite (Hme Et) in *. done.
    - unfold code' in H. rewrite asleep_code in H by done. destruct H as [H|[H1 H2]]; [|naive_solver].
      rewrite locked_not_early in H; [done| |done]. rewrite Ek. cbn. by constructor. }
  split.
  - cbn [asrt] in A |- *. destruct k0; try done. destruct A as [E A]. split; [unfold parent_chan in *; by rewrite Hp|]. intros q Hlt H. destruct (decide (q = i)) as [->|Hne]; [done|].
    apply (A q); [lia|]. apply (asleep_quiet m c (Wake2 ch i (Exit3 p)) s); [done|done|]. unfold asleep in *. by rewrite Hq in H.
  - intros q ch0 H. cbn [covers]. destruct k0; try done; intros [-> Hle]; (split; [done|]); (destruct (decide (q = i)) as [->|]; [done|lia]).
Qed.

Lemma wakeup_write ch i k0 : k = Wake1 ch i k0 -> eff m c (Wake2 ch i k0) (if wakes ch (sh_proc s i) then set_proc i (set_state RUNNABLE) s else s).
Proof.
  intros Ek. facts Ek. destruct W as (Hf & Hi & W). destruct (wakes ch (sh_proc s i)) eqn:Ew.
  - unfold wakes in Ew. apply andb_true_iff in Ew as [E1 E2]. rewrite bool_decide_eq_true in E1, E2.
    assert (m_on m c <> P i) as Hne by (intros Et; pose proof (not_running_here i Et ltac:(by rewrite Ek)); congruence).
    assert (wakes ch (sh_proc (set_proc i (set_state RUNNABLE) s) i) = false) as Hnw by (rewrite set_proc_eq; done).
    destruct (passed (set_proc i (set_state RUNNABLE) s) ch i k0 Ek) as [P1 P2]; [by intros; apply set_proc_ne|done|done|done|].
    apply (eff_entry m I c i); rewrite ?Ek; side.
    + split; rewrite ?Ek; side.
      * apply entry_rest.
      * right. rewrite set_proc_eq, E1. split_and!; try done. apply parked_woken; [|done|done]. apply (locked_off m I c); [rewrite Ek; cbn; by constructor|done|by rewrite E1].
      * by rewrite E1.
    + intros p ch0 _ _. apply P2.
  - destruct (passed s ch i k0 Ek) as [P1 P2]; [done|done|done|intros Et; by rewrite (running i Et), Ek|].
    apply (eff_entry m I c i); rewrite ?Ek; side.
    + split; rewrite ?Ek; side; try (by left). 
    + intros p ch0 _ _. apply P2.
Qed.

Lemma kill_write pid i k0 : k = Kill1 pid i k0 ->
  eff m c (Kill3 i k0) (let s := set_proc i (set_pkilled 1) s in if decide (p_state (sh_proc s i) = SLEEPING) then set_proc i (set_state RUNNABLE) s else s).
Proof.
  intros Ek. facts Ek. destruct W as (Ht & Hi & Hk & W). cbv zeta. set (s1 := set_proc i (set_pkilled 1) s).
  assert (forall x, x <> i -> sh_proc s1 x = sh_proc s x) as H1 by (intros; by apply set_proc_ne). assert (sh_proc s1 i = set_pkilled 1 (sh_proc s i)) as H2 by apply set_proc_eq. rewrite H2. cbn [p_state set_pkilled].
  destruct (decide _) as [Hst|Hst]; apply (eff_entry m I c i); rewrite ?Ek; side; split; rewrite ?Ek; side.
  - intros x Hx. rewrite set_proc_ne by done. split; [by apply H1|done].
  - right. assert (m_on m c <> P i) as Hne by (intros Et; pose proof (not_running_here i Et ltac:(by rewrite Ek)); congruence).
    rewrite set_proc_eq, H2, Hst. split_and!; try done. pose proof (i_park m I i (locked_off m I c i ltac:(rewrite Ek; cbn; by constructor) Hne ltac:(by rewrite Hst))) as Hpk.
    unfold parked in *. rewrite Hst in Hpk. rewrite set_proc_eq. cbn. destruct Hpk as [He (ia & ch & lk & k1 & -> & _)]. split; [done|]. right. eauto.
  - by rewrite Hst.
  - intros x Hx. by rewrite H1.
  - left. by rewrite H2.
  - rewrite H2. by left.
Qed.

Lemma scheduler_write i : k = S2 i -> p_state (sh_proc s i) = RUNNABLE -> eff m c (S3 i) (set_proc i (set_state RUNNING) s).
Proof.
  intros Ek Hst. facts Ek. destruct W as ((d & Et) & Hi). assert (m_on m c = S_ c) as Et'.
  { destruct (i_on m I c) as [?|(p & _ & Ep & _)]; [done|congruence]. }
  assert (m_on m c <> P i) as Hne by congruence. assert (pl i ∈ held k) as Hl by (rewrite Ek; cbn; by constructor).
  apply (eff_entry m I c i); rewrite ?Ek; side.
  - split; rewrite ?Ek; side.
    + apply entry_rest.
    + right. rewrite set_proc_eq, Hst. split_and!; try done. pose proof (i_park m I i (locked_off m I c i Hl Hne ltac:(by rewrite Hst))) as Hpk.
      unfold parked in *. rewrite Hst in Hpk. by rewrite set_proc_eq.
    + by rewrite Hst.
  - cbn [wf]. eauto.
  - intros x. split_and!; try done. intros [= ->]. by rewrite Hst.
  - cbn [asrt]. by rewrite set_proc_eq.
Qed.

Lemma wait_write p i : k = WaitZ p i -> eff m c (WaitR i) (freeproc i s).
Proof.
  intros Ek. facts Ek. rename A into Hst. destruct W as (Et & Hi).
  assert (m_on m c <> P i) as Hne by (intros Et'; pose proof (not_running_here i Et' ltac:(by rewrite Ek)); congruence).
  apply (eff_entry m I c i); rewrite ?Ek; side; [|cbn [wf]; eauto]. split; rewrite ?Ek; side.
  - intros x Hx. cbn. by rewrite !decide_False.
  - right. cbn. rewrite decide_True by done. split; [done|]. left. by repeat constructor.
  - right. cbn. rewrite decide_True by done. cbn. split_and!; try done; [by rewrite Hst|]. pose proof (i_park m I i (locked_off m I c i ltac:(rewrite Ek; cbn; by constructor) Hne ltac:(by rewrite Hst))) as [He _].
    split; [done|]. cbn. by rewrite decide_True.
  - by rewrite Hst.
Qed.
End Steps.

Section Steps2.
Context (m : mach) (I : inv m) (c : Z).
Local Abbreviation s := (m_sh m).
Local Abbreviation k := (here m c).
Ltac facts Ek :=
  pose proof (i_wf m I (m_on m c)) as W; change (m_code m (m_on m c)) with (here m c) in W;
  pose proof (i_asrt m I c) as A; rewrite Ek in W, A; cbn [wf asrt] in W, A.
Ltac side := first [done|cbn [held]; by repeat constructor|by intros ? ? []|by intros ? [?|[? ?]]|match goal with |- p_thread _ = 0 -> _ => cbn; by rewrite ?decide_True end|idtac].

(** A process in state UNUSED or USED is not running. *)
Lemma fork_other i : p_state (sh_proc s i) = UNUSED \/ p_state (sh_proc s i) = USED -> forall d, m_on m d <> P i.
Proof. intros H d Ed. rewrite (i_run m I d i Ed) in H. destruct (m_code m (P i)); cbn in H; try naive_solver; match type of H with context [match ?k0 with _ => _ end] => destruct k0 end; naive_solver. Qed.

Lemma fork_write2 i pid : k = Fork2 i pid -> eff m c (Fork3 i) (set_proc i (fun d => mkProcd USED (p_chan d) (p_killed d) pid (p_thread d)) s).
Proof.
  intros Ek. facts Ek. pose proof (fork_other i (or_introl A)) as Hoff. apply (eff_entry m I c i); rewrite ?Ek; side.
  split; rewrite ?Ek; side.
  - apply entry_rest.
  - right. rewrite set_proc_eq, A. cbn. split_and!; try done. destruct (i_park m I i Hoff) as [He _]. split; [done|]. by rewrite set_proc_eq.
  - by rewrite A.
  - right. right. by rewrite set_proc_eq, A.
Qed.
Lemma fork_write9 i : k = Fork9 i -> eff m c (Fork10 i) (set_proc i (fun d => mkProcd RUNNABLE (p_chan d) (p_killed d) (p_pid d) 0) s).
Proof.
  intros Ek. facts Ek. destruct (i_owns m I (m_on m c) i true) as [Hu Hc]; [change (m_code m (m_on m c)) with k; by rewrite Ek|].
  pose proof (fork_other i (or_intror Hu)) as Hoff. apply (eff_entry m I c i); rewrite ?Ek; side.
  split; rewrite ?Ek; side.
  - apply entry_rest.
  - right. rewrite set_proc_eq, Hu. cbn. split_and!; try done. destruct (i_park m I i Hoff) as [He _]. split; [done|]. rewrite set_proc_eq. left. by apply Hc.
  - intros _. right. split; [by exists true|done].
Qed.
Lemma nomem_write i : k = Fork3 i \/ k = Fork4 i -> eff m c (ForkRel i) (freeproc i s).
Proof.
  intros Ek. assert (exists b, owns k = Some (i, b)) as [b Ho] by (destruct Ek as [-> | ->]; cbn; eauto).
  destruct (i_owns m I (m_on m c) i b Ho) as [Hu Hc]. pose proof (fork_other i (or_intror Hu)) as Hoff.
  assert (wf (m_on m c) (ForkRel i)) as Hwf. { pose proof (wf_here m I c) as W. by destruct Ek as [Ek|Ek]; rewrite Ek in W. }
  assert (held k = [pl i]) as Hh by (by destruct Ek as [-> | ->]).
  apply (eff_entry m I c i); try (by destruct Ek as [-> | ->]); side.
  - split; side.
    + intros x Hx. cbn. by rewrite !decide_False.
    + right. cbn. rewrite decide_True by done. auto.
    + rewrite Hh. by constructor.
    + right. cbn. rewrite decide_True by done. cbn. split_and!; try done; [by rewrite Hu|]. destruct (i_park m I i Hoff) as [He _]. split; [done|]. cbn. by rewrite decide_True.
    + intros _. right. split; [by exists b|done].
Qed.

Lemma exit_parent p i : k = Exit1 p i -> eff m c (Wake0 (OnProc initproc) 0 (Exit1 p (S i))) (set_parent i (Some initproc) s).
Proof.
  intros Ek. facts Ek. apply (eff_parent m I c p); rewrite ?Ek; side. intros q j [= <-] _. split; [done|lia].
Qed.
Lemma fork_parent i p : k = Fork6 i -> m_on m c = P p -> eff m c (Fork7 i) (set_parent i (Some p) s).
Proof.
  intros Ek Et. facts Ek. destruct (i_owns m I (m_on m c) i true) as [Hu Hc]; [change (m_code m (m_on m c)) with k; by rewrite Ek|].
  apply (eff_parent m I c p); rewrite ?Ek; side; [by rewrite <- Et|]. intros q j _. by rewrite Hu.
Qed.
Lemma scheduler_proc i : k = S3 i -> eff m c (S4 i) (set_cproc c (Some i) s).
Proof.
  intros Ek. facts Ek. destruct W as ((d & Et) & Hi). assert (m_on m c = S_ c) as Et' by (destruct (i_on m I c) as [?|(p & _ & Ep & _)]; [done|congruence]).
  apply (eff_cproc m I c); rewrite ?Ek; side; naive_solver.
Qed.
Lemma scheduler_done i : k = S5 i -> eff m c (S6 i) (set_cproc c None s).
Proof.
  intros Ek. facts Ek. destruct W as ((d & Et) & Hi). assert (m_on m c = S_ c) as Et' by (destruct (i_on m I c) as [?|(p & _ & Ep & _)]; [done|congruence]).
  apply (eff_cproc m I c); rewrite ?Ek; side; naive_solver.
Qed.

(** The sleep locks of this thread and of others. *)
Lemma fresh_slock r : sl_locked (sh_sleep s r) = 0 -> forall q, r ∉ slocks (m_code m (P q)).
Proof. intros H q Hr. by apply (i_locked m I q) in Hr. Qed.
Lemma sleeplock_write k0 k' s' : k = k0 -> match k0 with AS2 _ _ | AS3 _ _ | RS1 _ _ | RS2 _ _ => True | _ => False end ->
  sleeplock_ c k0 s = Ret (Go k') s' -> eff m c k' s'.
Proof.
  intros Ek Hk H. facts Ek. destruct k0; try done; cbn [sleeplock_] in H; cbn [wf] in W; destruct W as [p Et];
    assert (slocks (m_code m (P p)) = slocks k) as Esl by (by apply slocks_of); destruct (i_locked m I p) as [Hnd Hlk]; rewrite Esl, Ek in Hnd, Hlk; cbn [slocks] in Hnd, Hlk.
  - apply go_inv in H as [[= ->] ->]. pose proof (fresh_slock r A) as Hfr. apply (eff_slock m I c p); rewrite ?Ek; side; cbn [slocks wf].
    + eauto.
    + constructor; [|done]. specialize (Hfr p). by rewrite Esl, Ek in Hfr.
    + intros y Hx. split; [done|]. apply elem_of_cons in Hx as [->|Hx]; auto.
  - rewrite (myproc_of m I c p) in H by done. apply go_inv in H as [[= ->] ->]. apply (eff_slock m I c p); rewrite ?Ek; side; cbn [slocks wf].
    + eauto.
    + intros y Hx. split; [intros ->; by apply Hlk|by left].
    + intros q Hq Hr. cbn. by apply (i_locked m I q).
  - apply go_inv in H as [[= ->] ->]. apply NoDup_cons in Hnd as [Hr Hnd]. apply (eff_slock m I c p); rewrite ?Ek; side; cbn [slocks wf].
    + eauto.
    + intros y Hx. split; [by intros ->|]. left. by apply elem_of_cons; right.
    + intros q Hq Hr'. exfalso. apply Hq. rewrite Et. f_equal. apply (i_slocks m I p q r); [|done]. rewrite Esl, Ek. by constructor.
  - apply go_inv in H as [[= ->] ->]. apply (eff_slock m I c p); rewrite ?Ek; side; cbn [slocks wf].
    + split; [done|eauto].
    + intros y Hx. split; [intros ->; by apply Hlk|by left].
    + intros q Hq Hr. cbn. by apply (i_locked m I q).
    + intros ch q Hc. cbn in *. subst ch. split; [done|lia].
Qed.
End Steps2.

(** Every statement of the functions above keeps the invariant. *)
Lemma exec_eff m c k' s' : inv m -> exec c (here m c) (m_sh m) = Ret (Go k') s' -> eff m c k' s'.
Proof.
  intros I H. destruct (here m c) eqn:Ek; cbn [exec] in H.
  all: try (by eapply yield_quiet); try (by eapply sleep_quiet); try (by eapply sleeplock_quiet); try (by eapply sleeplock_write);
    try (by eapply kill_quiet); try (by eapply wakeup_quiet); try (by eapply trap_quiet); try (by eapply scheduler_quiet);
    try (by eapply exit_quiet); try (by eapply wait_quiet); try (by eapply fork_quiet); try (by eapply leaf_quiet);
    try (exfalso; pose proof (wf_here m I c) as W; by rewrite Ek in W).
  - unfold ret in H. injection H as <- <-. by apply top_quiet.
  - by eapply forkret_quiet.
  - by eapply sched_quiet.
  - apply go_inv in H as [[= ->] ->]. by apply sched_resume.
  - apply go_inv in H as [[= ->] ->]. by apply yield_write.
  - apply go_inv in H as [[= ->] ->]. by apply sleep_write2.
  - apply go_inv in H as [[= ->] ->]. by apply sleep_write3.
  - apply go_inv in H as [[= ->] ->]. by eapply sleep_write4.
  - apply go_inv in H as [[= ->] ->]. by apply wakeup_write.
  - cbn [kill_] in H. rewrite bind_gets in H. destruct (_ =? _); [apply go_inv in H as [[= ->] ->]; by eapply kill_write|]. unfold ret in H. injection H as <- <-. by apply kill_skip.
  - cbn [exit_ reparent] in H. destruct (Nat.leb NPROC i); [unfold ret in H; injection H as <- <-; eapply exit_skip; [done|done|by left]|]. rewrite bind_gets in H.
    case_bool_decide; [apply go_inv in H as [[= ->] ->]; by apply exit_parent|]. unfold ret in H. injection H as <- <-. eapply exit_skip; [done|done|by right].
  - apply go_inv in H as [[= ->] ->]. by apply exit_write.
  - apply go_inv in H as [[= ->] ->]. by eapply wait_write.
  - apply go_inv in H as [[= ->] ->]. by eapply fork_write2.
  - cbn [fork_ allocproc allocpid] in H. assert (exists p, m_on m c = P p) as [p Et] by (pose proof (wf_here m I c) as W; rewrite Ek in W; apply W).
    rewrite (myproc_of m I c p) in H by done. apply go_inv in H as [[= ->] ->]. by apply fork_parent.
  - apply go_inv in H as [[= ->] ->]. by apply fork_write9.
  - cbn [scheduler] in H. rewrite bind_gets in H. destruct (decide _); [apply go_inv in H as [[= ->] ->]; by apply scheduler_write|]. unfold ret in H. injection H as <- <-. by apply scheduler_skip.
  - apply go_inv in H as [[= ->] ->]. by apply scheduler_proc.
  - apply go_inv in H as [[= ->] ->]. by apply scheduler_done.
Qed.

(** ** swtch() *)

(** A change of code that leaves everyone's sleep as it is. *)
Lemma asrt_ext s f g k : (forall p, early (g (P p)) = early (f (P p))) -> asrt s f k -> asrt s g k.
Proof.
  intros H. assert (forall ch j, noneon s f ch j -> noneon s g ch j) as Hn by (intros ch j Hno i Hi Ha; apply (Hno i Hi); unfold asleep in *; by rewrite H in Ha).
  destruct k; cbn [asrt]; try done; try apply Hn; match goal with |- match ?k0 with _ => _ end -> _ => destruct k0 end; naive_solver.
Qed.

Section Switch.
Context (m : mach) (I : inv m) (c : Z).
Local Abbreviation s := (m_sh m).
Local Abbreviation code := (m_code m).

Section Out.
Context (p : nat) (k0 : pc) (ia : Z) (Ek : here m c = Sched1 p k0).
Local Abbreviation code' := (set_code (m_on m c) (Sched2 ia k0) code).
Local Abbreviation m' := (mkMach s code' (set_on c (S_ c) (m_on m))).

Lemma out_on : m_on m c = P p /\ sched_from p k0 /\ wf (P p) k0.
Proof. pose proof (wf_here m I c) as W. rewrite Ek in W. destruct W as (Et & Hf & W). by rewrite Et in W. Qed.
Lemma out_sched : code (S_ c) = S5 p /\ sh_cproc s c = Some p.
Proof. destruct out_on as (Et & _). destruct (i_on m I c) as [E|(q & _ & Eq & H1 & H2)]; rewrite Et in *; [done|]. injection Eq as ->. done. Qed.
Lemma out_code u : code' u = if decide (u = P p) then Sched2 ia k0 else code u.
Proof. destruct out_on as (Et & _). unfold set_code. by rewrite Et. Qed.
Lemma out_here d : here m' d = if decide (d = c) then S5 p else here m d.
Proof.
  destruct out_on as (Et & _). unfold here at 1. cbn [m_code m_on]. rewrite out_code. unfold set_on. destruct (Z.eqb_spec d c) as [->|Hd].
  - rewrite decide_False by done. rewrite decide_True by done. apply out_sched.
  - rewrite (decide_False (P := d = c)) by done. rewrite decide_False; [done|]. intros E. apply Hd. by apply (i_one m I d c p).
Qed.
Lemma out_early q : early (code' (P q)) = early (code (P q)).
Proof. rewrite out_code. case_decide as H; [|done]. injection H as ->. destruct out_on as (Et & _). change (P p) with (P p). rewrite <- Et. change (code (m_on m c)) with (here m c). by rewrite Ek. Qed.
Lemma out_old : code (P p) = Sched1 p k0.
Proof. destruct out_on as (Et & _). rewrite <- Et. done. Qed.
Lemma out_state : p_state (sh_proc s p) = state_at (Sched1 p k0).
Proof. destruct out_on as (Et & _). by rewrite (i_run m I c p Et), out_old. Qed.
Lemma out_running d q : set_on c (S_ c) (m_on m) d = P q -> d <> c /\ m_on m d = P q /\ q <> p.
Proof.
  unfold set_on. destruct (Z.eqb_spec d c) as [->|Hd]; [done|]. intros E. split_and!; [done|done|]. intros ->. destruct out_on as (Et & _). by apply Hd, (i_one m I d c p).
Qed.
Lemma out_parked q : (forall d, set_on c (S_ c) (m_on m) d <> P q) -> q <> p -> forall d, m_on m d <> P q.
Proof.
  intros H Hq d E. destruct (decide (d = c)) as [->|Hd]; [destruct out_on as (Et & _); congruence|]. apply (H d). unfold set_on. by rewrite (proj2 (Z.eqb_neq _ _)).
Qed.

Lemma out_park q : (forall d, set_on c (S_ c) (m_on m) d <> P q) -> parked s code' q.
Proof.
  intros H. unfold parked. rewrite out_early, out_code. destruct (decide (q = p)) as [->|Hq].
  - rewrite out_old, decide_True by done. split; [done|]. rewrite out_state. pose proof (i_asrt m I c) as A. rewrite Ek in A. destruct out_on as (_ & Hf & _).
    destruct k0; try done; cbn in Hf |- *; subst; eauto 10.
  - rewrite decide_False by congruence. apply (i_park m I q). by apply out_parked.
Qed.

Lemma out_owns u : owns (code' u) = owns (code u).
Proof. rewrite out_code. destruct (decide (u = P p)) as [->|]; [by rewrite out_old|done]. Qed.
Lemma out_slocks q : slocks (code' (P q)) = slocks (code (P q)).
Proof. rewrite out_code. destruct (decide (P q = P p)) as [[= ->]|]; [by rewrite out_old|done]. Qed.

Lemma inv_out : inv m'.
Proof.
  destruct out_on as (Et & Hf & W). destruct out_sched as [Es Ec]. split; cbn [m_sh m_code m_on].
  - intros u. rewrite out_code. case_decide as Hu; [subst u; cbn; eauto|apply I].
  - intros d. rewrite out_here. case_decide as Hd; [subst d|apply I]. pose proof (i_sees m I c) as H. by rewrite Ek in H.
  - apply I.
  - intros d. unfold set_on. destruct (Z.eqb_spec d c) as [->|Hd]; [by left|]. rewrite out_code, decide_False by done. apply I.
  - intros d e q (H1 & H2 & _)%out_running (H3 & H4 & _)%out_running. by apply (i_one m I d e q).
  - intros d. rewrite out_code, decide_False by done. unfold set_on. destruct (Z.eqb_spec d c) as [->|Hd]; [by rewrite Es|apply I].
  - intros d q (_ & H2 & Hq)%out_running. rewrite out_code, decide_False by congruence. by apply (i_run m I d).
  - apply out_park.
  - intros q Hoff Hst. destruct (decide (q = p)) as [->|Hq]; [rewrite out_state in Hst; cbn in Hst; by destruct k0|].
    destruct (i_ready m I q (out_parked q Hoff Hq) Hst) as (d & Ed & Hd). exists d. rewrite out_code, decide_False by done. split; [|done].
    unfold set_on. destruct (Z.eqb_spec d c) as [->|]; [congruence|done].
  - intros d q Ed. rewrite out_code, decide_False by done. intros Hd e (_ & He & _)%out_running. destruct (decide (d = c)) as [->|Hdc]; [rewrite Es in Hd; naive_solver|].
    unfold set_on in Ed. rewrite (proj2 (Z.eqb_neq _ _)) in Ed by done. by apply (i_off m I d q Ed Hd e).
  - intros d. rewrite out_here. case_decide; [done|]. apply (asrt_ext s code); [apply out_early|apply I].
  - intros u i b. rewrite out_owns. intros Ho. destruct (i_owns m I u i b Ho) as [H1 H2]. split; [done|]. intros Hb. specialize (H2 Hb). rewrite out_code, decide_False; [done|].
    intros [= ->]. by rewrite out_old in H2.
  - intros u v i b b'. rewrite !out_owns. apply I.
  - intros q q' r. rewrite !out_slocks. apply I.
  - intros q. rewrite !out_slocks. apply I.
  - intros q ch Hq Ha. destruct (i_lost m I q ch Hq) as [H|[d Hd]]; [unfold asleep in *; by rewrite out_early in Ha|by left|]. right. exists d. rewrite out_here. case_decide as Hdc; [subst d; by rewrite Ek in Hd|done].
  - apply I.
Qed.
End Out.

Section In.
Context (i : nat) (Ek : here m c = S4 i).
Local Abbreviation code' := (set_code (m_on m c) (S5 i) code).
Local Abbreviation m' := (mkMach s code' (set_on c (P i) (m_on m))).

Lemma in_on : m_on m c = S_ c /\ (i < NPROC)%nat.
Proof.
  pose proof (wf_here m I c) as W. rewrite Ek in W. destruct W as ((d & Ed) & Hi). split; [|done]. destruct (i_on m I c) as [?|(p & _ & Ep & _)]; [done|congruence].
Qed.
Lemma in_old : code (S_ c) = S4 i.
Proof. destruct in_on as [Et _]. rewrite <- Et. done. Qed.
Lemma in_off d : m_on m d <> P i.
Proof. destruct in_on as [Et _]. apply (i_off m I c i Et). right. apply in_old. Qed.
Lemma in_code u : code' u = if decide (u = S_ c) then S5 i else code u.
Proof. destruct in_on as (Et & _). unfold set_code. by rewrite Et. Qed.
Lemma in_proc q : code' (P q) = code (P q).
Proof. rewrite in_code. by rewrite decide_False. Qed.
Lemma in_here d : here m' d = if decide (d = c) then code (P i) else here m d.
Proof.
  destruct in_on as (Et & _). unfold here at 1. cbn [m_code m_on]. rewrite in_code. unfold set_on. destruct (Z.eqb_spec d c) as [->|Hd].
  - rewrite decide_False by done. by rewrite decide_True by done.
  - rewrite (decide_False (P := d = c)) by done. rewrite decide_False; [done|]. rewrite <- Et. by apply on_other.
Qed.
Lemma in_running d q : set_on c (P i) (m_on m) d = P q -> (d = c /\ q = i) \/ (d <> c /\ m_on m d = P q /\ q <> i).
Proof.
  unfold set_on. destruct (Z.eqb_spec d c) as [->|Hd]; [intros [= ->]; by left|]. intros E. right. split_and!; [done|done|]. intros ->. by apply (in_off d).
Qed.
Lemma in_parked q : (forall d, set_on c (P i) (m_on m) d <> P q) -> q <> i /\ forall d, m_on m d <> P q.
Proof.
  intros H. split; [intros ->; apply (H c); unfold set_on; by rewrite Z.eqb_refl|]. intros d E. destruct (decide (d = c)) as [->|Hd]; [destruct in_on as (Et & _); congruence|].
  apply (H d). unfold set_on. by rewrite (proj2 (Z.eqb_neq _ _)).
Qed.
Lemma in_state : p_state (sh_proc s i) = RUNNING.
Proof. pose proof (i_asrt m I c) as A. by rewrite Ek in A. Qed.

(** Where the process was left. *)
Lemma in_where : held (code (P i)) = [pl i] /\ state_at (code (P i)) = RUNNING /\ (forall s0 f, asrt s0 f (code (P i))) /\ forall ch p, ~ covers (code (P i)) ch p.
Proof.
  destruct (i_park m I i in_off) as [_ H]. rewrite in_state in H. pose proof (i_wf m I (P i)) as W. destruct H as [-> |(ia & k & E & Hd)]; [split_and!; try done; by intros ? ? []|].
  rewrite E in *. cbn in W. destruct W as ((p & [= <-] & Hf) & _). destruct k; try done; cbn in Hf; subst; try (exfalso; by eapply Hd); (split_and!; try done; by intros ? ? []).
Qed.

Lemma in_sched d : set_on c (P i) (m_on m) d = S_ d -> d <> c /\ m_on m d = S_ d /\ code' (S_ d) = code (S_ d).
Proof.
  unfold set_on. destruct (Z.eqb_spec d c) as [->|Hd]; [done|]. intros E. split_and!; [done|done|]. rewrite in_code, decide_False; [done|]. by intros [= ->].
Qed.

Lemma inv_in : inv m'.
Proof.
  destruct in_on as (Et & Hi). destruct in_where as (Wh & Ws & Wa & Wc). pose proof in_old as Eo. split; cbn [m_sh m_code m_on].
  - intros u. rewrite in_code. case_decide as Hu; [subst u; cbn; eauto|apply I].
  - intros d. rewrite in_here. case_decide as Hd; [subst d|apply I]. rewrite Wh. pose proof (i_sees m I c) as H. by rewrite Ek in H.
  - apply I.
  - intros d. unfold set_on. destruct (Z.eqb_spec d c) as [->|Hd].
    + right. exists i. rewrite in_code, decide_True by done. split_and!; try done. by rewrite (i_cproc m I c Et), Eo.
    + rewrite in_code, decide_False by (intros [= ->]; done). apply I.
  - intros d e q H1%in_running H2%in_running. destruct H1 as [[-> ->]|(_ & H1 & Hq)], H2 as [[-> H2]|(_ & H2 & Hq')]; try done. by apply (i_one m I d e q).
  - intros d (_ & Ed & ->)%in_sched. by apply I.
  - intros d q H%in_running. rewrite in_proc. destruct H as [[-> ->]|(_ & H & _)]; [by rewrite in_state|by apply (i_run m I d)].
  - intros q [_ H]%in_parked. unfold parked. rewrite in_proc. by apply (i_park m I q).
  - intros q [Hq H]%in_parked Hst. destruct (i_ready m I q H Hst) as (d & Ed & Hd). exists d. assert (d <> c) as Hdc by (intros ->; rewrite Eo in Hd; naive_solver).
    rewrite in_code, decide_False by (by intros [= ->]). split; [|done]. unfold set_on. by rewrite (proj2 (Z.eqb_neq _ _)).
  - intros d q (Hd & Ed & ->)%in_sched Hc e He%in_running. destruct He as [[-> ->]|(_ & He & _)]; [|by apply (i_off m I d q Ed Hc e)].
    apply Hd, (excl m I c (pl i)); [rewrite Ek; by constructor|]. unfold here. rewrite Ed. destruct Hc as [-> | ->]; by constructor.
  - intros d. rewrite in_here. case_decide; [apply Wa|]. apply (asrt_ext s code); [|apply I]. intros q. by rewrite in_proc.
  - intros u j b. rewrite in_code, in_proc. destruct (decide (u = S_ c)) as [->|]; [done|]. apply I.
  - intros u v j b b'. rewrite !in_code. destruct (decide (u = S_ c)), (decide (v = S_ c)); try done. apply I.
  - intros q q' r. rewrite !in_proc. apply I.
  - intros q. rewrite in_proc. apply I.
  - intros q ch Hq Ha. destruct (i_lost m I q ch Hq) as [H|[d Hd]]; [unfold asleep in *; by rewrite in_proc in Ha|by left|]. right. exists d. rewrite in_here. case_decide as Hdc; [subst d; by rewrite Ek in Hd|done].
  - apply I.
Qed.
End In.
End Switch.

(** ** allocproc() sets the context of a new process *)

Section Spawn.
Context (m : mach) (I : inv m) (c : Z) (i : nat) (Ek : here m c = Fork3 i).
Local Abbreviation s := (m_sh m).
Local Abbreviation code := (m_code m).
Local Abbreviation code' := (set_code (P i) (Forkret i) code).

Lemma spawn_used : p_state (sh_proc s i) = USED.
Proof. destruct (i_owns m I (m_on m c) i false) as [H _]; [|done]. change (code (m_on m c)) with (here m c). by rewrite Ek. Qed.
Lemma spawn_off d : m_on m d <> P i.
Proof. apply (fork_other m I i). right. apply spawn_used. Qed.
Lemma spawn_ne u : u <> P i -> code' u = code u.
Proof. intros. unfold set_code. by rewrite decide_False. Qed.
Lemma spawn_eq : code' (P i) = Forkret i.
Proof. unfold set_code. by rewrite decide_True. Qed.
Lemma spawn_here d : here (mkMach s code' (m_on m)) d = here m d.
Proof. unfold here. cbn [m_code m_on]. apply spawn_ne, spawn_off. Qed.
Lemma spawn_early q : early (code' (P q)) = early (code (P q)).
Proof. destruct (decide (q = i)) as [->|Hq]; [|by rewrite spawn_ne by congruence]. rewrite spawn_eq. destruct (i_park m I i spawn_off) as [-> _]. done. Qed.
Lemma spawn_sub {A} (f : pc -> list A) u x : f (Forkret i) = [] -> x ∈ f (code' u) -> x ∈ f (code u).
Proof. intros Hf. destruct (decide (u = P i)) as [->|Hu]; [rewrite spawn_eq, Hf; by intros ?%elem_of_nil|by rewrite spawn_ne]. Qed.

Lemma inv_spawn : inv (mkMach s code' (m_on m)).
Proof.
  split; cbn [m_sh m_code m_on]; [| | | |by apply I|..].
  - intros u. destruct (decide (u = P i)) as [->|Hu]; [by rewrite spawn_eq|rewrite spawn_ne by done; apply I].
  - intros d. rewrite spawn_here. apply I.
  - apply I.
  - intros d. rewrite spawn_ne by done. apply I.
  - intros d. rewrite spawn_ne by done. apply I.
  - intros d q Ed. rewrite spawn_ne; [by apply (i_run m I d)|]. rewrite <- Ed. apply spawn_off.
  - intros q Hoff. destruct (decide (q = i)) as [->|Hq].
    + split; [by rewrite spawn_eq|]. by rewrite spawn_used.
    + unfold parked. rewrite spawn_ne by congruence. by apply (i_park m I q).
  - intros q Hoff Hst. destruct (i_ready m I q Hoff Hst) as (d & Ed & Hd). exists d. by rewrite spawn_ne.
  - intros d q. rewrite spawn_ne by done. apply I.
  - intros d. rewrite spawn_here. apply (asrt_ext s code); [apply spawn_early|apply I].
  - intros u j b Ho. assert (owns (code u) = Some (j, b)) as Ho' by (destruct (decide (u = P i)) as [->|]; [by rewrite spawn_eq in Ho|by rewrite spawn_ne in Ho]).
    destruct (i_owns m I u j b Ho') as [H1 H2]. split; [done|]. intros Hb. destruct (decide (j = i)) as [->|]; [apply spawn_eq|rewrite spawn_ne by congruence; auto].
  - intros u v j b b' H1 H2. apply (i_owner m I u v j b b'); [destruct (decide (u = P i)) as [->|]; [by rewrite spawn_eq in H1|by rewrite spawn_ne in H1]|].
    destruct (decide (v = P i)) as [->|]; [by rewrite spawn_eq in H2|by rewrite spawn_ne in H2].
  - intros q q' r H1 H2. apply (i_slocks m I q q' r); by apply (spawn_sub slocks).
  - intros q. destruct (i_locked m I q) as [H1 H2]. split; [destruct (decide (q = i)) as [->|]; [rewrite spawn_eq; constructor|by rewrite spawn_ne by congruence]|].
    intros r Hr. apply H2. by apply (spawn_sub slocks).
  - intros q ch Hq Ha. destruct (i_lost m I q ch Hq) as [H|[d Hd]]; [unfold asleep in *; by rewrite spawn_early in Ha|by left|]. right. exists d. by rewrite spawn_here.
  - apply I.
Qed.
End Spawn.

(** ** Every step *)

(** Only sched() and scheduler() switch, only allocproc() sets a context. *)
Definition stays (f : M shared next) : Prop := forall s n s', f s = Ret n s' -> exists k, n = Go k.
Lemma stays_acq c l k : stays (acq c l k).
Proof. intros s n s' [-> _]%acq_inv. eauto. Qed.
Lemma stays_rel c l k : stays (rel c l k).
Proof. intros s n s' [-> _]%rel_inv. eauto. Qed.
Lemma stays_go f k : stays (go f k).
Proof. intros s n s' [-> _]%go_inv. eauto. Qed.
Lemma stays_ret k : stays (ret (Go k)).
Proof. intros s n s' [= <- <-]. eauto. Qed.
Lemma stays_gets {A} (f : shared -> A) g : (forall a, stays (g a)) -> stays (bind (gets f) g).
Proof. intros H s n s'. rewrite bind_gets. apply H. Qed.
Lemma stays_myproc c g : (forall p, stays (g p)) -> stays (bind (myproc c) g).
Proof. intros H s n s'. unfold myproc, bind, gets. destruct (sh_cproc s c); [apply H|done]. Qed.
Lemma stays_sched c p k : stays (sched c p k).
Proof. intros s n s'. unfold sched. destruct (negb _); [done|]. destruct (negb _); [done|]. destruct (decide _); [done|]. destruct (negb _); [done|]. intros [= <- <-]. eauto. Qed.
Lemma stays_panic msg : stays (panic msg).
Proof. by intros s n s'. Qed.
Lemma stays_fault : stays fault.
Proof. by intros s n s'. Qed.
Create HintDb stays.
#[local] Hint Resolve stays_acq stays_rel stays_go stays_ret stays_gets stays_myproc stays_sched stays_panic stays_fault : stays.

Lemma exec_stays c k : match k with Sched1 _ _ | S4 _ | Fork3 _ | Dead _ => True | _ => stays (exec c k) end.
Proof.
  destruct k; cbn [exec]; try done; auto with stays; cbn [yield sleep_ wakeup_ sleeplock_ kill_ trap_ clockintr scheduler exit_ reparent wait_ fork_ allocproc allocpid leaf_]; auto with stays.
  all: repeat match goal with
    | |- stays (ret _) => apply stays_ret
    | |- stays (panic _) => apply stays_panic
    | |- stays fault => apply stays_fault
    | |- stays (go _ _) => apply stays_go
    | |- stays (rel _ _ _) => apply stays_rel
    | |- stays (acq _ _ _) => apply stays_acq
    | |- stays (bind (gets _) _) => apply stays_gets; intros ?
    | |- stays (bind (myproc _) _) => apply stays_myproc; intros ?
    | |- stays (match ?b with _ => _ end) => destruct b
    end.
Qed.

Lemma exec_sw c k s k' t s' : exec c k s = Ret (Sw k' t) s' ->
  (exists p k0 ia, k = Sched1 p k0 /\ k' = Sched2 ia k0 /\ t = S_ c /\ s' = s) \/ (exists i, k = S4 i /\ k' = S5 i /\ t = P i /\ s' = s).
Proof.
  intros H. pose proof (exec_stays c k) as Hs. destruct k; try (by apply Hs in H as [? ?]); try done; cbn in H.
  - unfold sched_switch in H. rewrite bind_gets in H. injection H as <- <- <-. left. eauto 10.
  - injection H as <- <- <-. right. eauto.
Qed.
Lemma exec_spawn c k s k' i s' : exec c k s = Ret (Spawn k' i) s' -> k = Fork3 i /\ k' = ForkM i /\ s' = s.
Proof. intros H. pose proof (exec_stays c k) as Hs. destruct k; try (by apply Hs in H as [? ?]); try done; cbn in H. by injection H as <- <- <-. Qed.

Lemma inv_step m m' : inv m -> mstep m m' -> inv m'.
Proof.
  intros I H. destruct H as [m c k s H|m c k t s H|m c k i s H|m c x k s Ek H|m c i Ek|m c p i Ek|m c l Hl|m c z k Ek|m c H|m c H].
  - apply inv_go; [done|]. by apply exec_eff.
  - apply exec_sw in H as [(p & k0 & ia & Ek & -> & -> & ->)|(i & Ek & -> & -> & ->)]; [by eapply inv_out|by apply inv_in].
  - apply exec_spawn in H as (Ek & -> & ->). pose proof (inv_spawn m I c i Ek) as I1.
    apply (inv_go _ I1 c). apply (spawn_quiet _ I1 c); [|apply spawn_eq]. by rewrite (spawn_here m I c i Ek).
  - apply inv_go; [done|]. by eapply choice_quiet.
  - apply inv_go; [done|]. by apply nomem_write.
  - apply inv_go; [done|]. by eapply copyfail_quiet.
  - apply inv_go; [done|]. by apply leaf_call.
  - apply inv_go; [done|]. by apply device_quiet.
  - apply inv_go; [done|]. apply interrupt_quiet; [done|done|]. destruct (c =? 0); auto.
  - apply inv_go; [done|]. apply interrupt_quiet; auto.
Qed.

Lemma inv_boot m : boot m -> inv m.
Proof.
  intros [[ie Hsp] Hsl Hon Hpar Hpr Hth]. assert (forall c, here m c = S0) as Hh by (intros c; unfold here; destruct (Hon c) as (-> & -> & _); done).
  assert (forall t, m_code m t = match t with P p => Forkret p | S_ _ => S0 end) as Hcode by (intros [p|c]; [apply Hpr|apply Hon]).
  split.
  - intros t. rewrite Hcode. destruct t; cbn; eauto.
  - intros c. rewrite Hh, Hsp. split; cbn; [constructor| |done|done]. intros l. split; [by intros ?%elem_of_nil|done].
  - intros l. by rewrite Hsp.
  - intros c. left. apply Hon.
  - intros c d p Hc. by rewrite (proj1 (Hon c)) in Hc.
  - intros c _. rewrite Hcode. apply Hon.
  - intros c p Hc. by rewrite (proj1 (Hon c)) in Hc.
  - intros p _. unfold parked. rewrite Hcode. split; [done|]. destruct (Hpr p) as [_ [-> | ->]]; [done|by left].
  - intros p _. destruct (Hpr p) as [_ [-> | ->]]; done.
  - intros c p _. rewrite Hcode. naive_solver.
  - intros c. by rewrite Hh.
  - intros t i b. rewrite Hcode. by destruct t.
  - intros t u i b b'. rewrite Hcode. by destruct t.
  - intros p q r. rewrite Hcode. by intros ?%elem_of_nil.
  - intros p. rewrite Hcode. split; [constructor|by intros r ?%elem_of_nil].
  - intros p ch _ [H|[H _]]; [by rewrite Hcode in H|]. destruct (Hpr p) as [_ [Hs|Hs]]; rewrite Hs in H; done.
  - done.
Qed.
