(* ===== verification/SchedProps.v ===== *)
(** * What sleep, wakeup and the scheduler promise

    No panic and no null pointer, a lock order that keeps the CPUs from blocking
    each other, a bound on what a CPU does while it holds spin locks, and the
    theorems about the machine of Sched.v from boot on. *)
From stdpp Require Import strings.
From S2P Require Import Prelude Mem Page Locks Sched SchedInv.
From Stdlib Require Import ZArith Lia.
Local Open Scope list_scope.
Local Open Scope Z_scope.
Local Open Scope kernel_scope.

(** ** No panic, and no deadlock *)

(** The order in which a CPU takes spin locks. *)
Definition rank (l : klock) : nat := match l with L_proc _ => 1 | L_pid | L_kmem | L_ftable | L_itable => 2 | _ => 0 end.

(** The lock a thread may be about to acquire. *)
Definition wants (t : tid) (k : pc) : option klock :=
  match k with
  | Yield0 _ | Sleep0 _ _ _ => match t with P p => Some (pl p) | S_ _ => None end
  | Sleep6 lk _ => Some lk
  | Wake0 _ i _ | Kill0 _ i _ | Wait1 _ i _ | Fork0 i | Fork8 i | S1 i => Some (pl i)
  | AS0 r _ | RS0 r _ => Some (L_sleep r)
  | ExitA | Wait0 | Fork5 _ => Some L_wait
  | Exit3 p | Wait4 p => Some (pl p)
  | ForkPid0 _ => Some L_pid
  | Lf0 l _ => Some l
  | Clk0 _ => Some L_ticks
  | Dev0 _ => Some L_vdisk
  | _ => None
  end.

Section Progress.
Context (m : mach) (I : inv m) (c : Z).
Local Abbreviation s := (m_sh m).
Local Abbreviation k := (here m c).

(** The step is possible, or the first process exits, or the step waits for a lock
    later in the order. *)
Definition fine (f : M shared next) : Prop :=
  (exists n s', f s = Ret n s') \/
  (k = ExitI /\ m_on m c = P initproc /\ f s = Panic "init exiting" s) \/
  (exists s' l, f s = Spin s' /\ wants (m_on m c) k = Some l /\ Spin.locked (Spin.locks (sh_spin s) l) <> 0 /\ forall l', l' ∈ held k -> (rank l' < rank l)%nat).

Lemma fine_acq l k' : wants (m_on m c) k = Some l -> (forall l', l' ∈ held k -> (rank l' < rank l)%nat) -> fine (acq c l k').
Proof.
  intros Hwa Hr. assert (l ∉ held k) as Hn by (intros Hl; specialize (Hr l Hl); lia). pose proof (i_sees m I c) as Hs.
  unfold fine, acq, bind, lift. cbn [view shared_spin]. destruct (decide (Spin.locked (Spin.locks (sh_spin s) l) = 0)) as [H0|H0].
  - left. pose proof (acquire_refines c (sh_spin s) (held k) l Hs ltac:(done)) as H. rewrite decide_False in H by done. destruct H as (sp & -> & _). unfold ret. eauto.
  - right. right. unfold Spin.acquire, Spin.push_off, bind, modify. set (sp := Spin.set_cpu c _ _). change (Spin.holding c l sp) with (Spin.holding c l (sh_spin s)).
    assert (Spin.holding c l (sh_spin s) = false) as -> by (apply not_true_is_false; intros Hh; by apply Hn, (se_held _ _ _ Hs)).
    change (Spin.locks sp l) with (Spin.locks (sh_spin s) l). rewrite (proj2 (Z.eqb_neq _ _) H0). cbn [negb]. eexists _, l. done.
Qed.
Lemma fine_rel l k' : l ∈ held k -> fine (rel c l k').
Proof.
  intros Hl. left. pose proof (release_refines c (sh_spin s) (held k) l (i_sees m I c)) as H. rewrite decide_True in H by done. destruct H as (sp & H & _).
  unfold rel, bind, lift. cbn [view shared_spin]. rewrite H. unfold ret. eauto.
Qed.
Lemma fine_go f k' : fine (go f k').
Proof. left. unfold go, bind, modify, ret. eauto. Qed.
Lemma fine_ret n : fine (ret n).
Proof. left. unfold ret. eauto. Qed.
Lemma fine_gets {A} (f : shared -> A) g : fine (g (f s)) -> fine (bind (gets f) g).
Proof. unfold fine. by rewrite bind_gets. Qed.
Lemma fine_myproc p g : m_on m c = P p -> fine (g p) -> fine (bind (myproc c) g).
Proof. intros Et H. unfold fine in *. by rewrite (myproc_of m I c p). Qed.

Lemma fine_sched p k0 : k = Sched0 p k0 -> fine (sched c p k0).
Proof.
  intros Ek. left. pose proof (i_sees m I c) as Hs. pose proof (wf_here m I c) as W. rewrite Ek in Hs, W. destruct W as (Et & Hf & _). cbn [held] in Hs.
  unfold sched. rewrite (proj1 (se_held _ _ _ Hs (pl p))) by (by constructor). rewrite (se_noff _ _ _ Hs), (se_off _ _ _ Hs) by done. cbn.
  rewrite decide_False; [eauto|]. rewrite (running m I c p Et), Ek. destruct k0; done.
Qed.

Ltac order := intros ? Hl; match goal with E : here m c = _ |- _ => rewrite E in Hl end; cbn [held] in Hl; repeat (apply elem_of_cons in Hl as [->|Hl]; [cbn; lia|]); by apply elem_of_nil in Hl.
Ltac mine := match goal with E : here m c = _ |- _ => rewrite E end; cbn [held]; repeat constructor.
Ltac fine_step := match goal with
  | |- fine (ret _) => apply fine_ret
  | |- fine (go _ _) => apply fine_go
  | |- fine (rel _ _ _) => apply fine_rel; by mine
  | |- fine (acq _ _ _) => apply fine_acq; [match goal with E : here m c = _ |- _ => rewrite E end; try match goal with E : m_on m c = P _ |- _ => rewrite E end; done|by order]
  | |- fine (bind (gets _) _) => apply fine_gets
  | H : exists p, m_on m c = P p |- fine (bind (myproc _) _) => let q := fresh in destruct H as [q ?]; apply (fine_myproc q); [done|]
  | |- fine (match ?b with _ => _ end) => destruct b
  end.

Lemma wake_held ch k0 : wake_from ch k0 -> exists l, held k0 = [l] /\ rank l = 0%nat.
Proof. destruct k0; try done; intros _; by eexists. Qed.
Lemma sleep_held p ch lk k0 : sleep_from p ch lk k0 -> rank lk = 0%nat.
Proof. destruct k0; try done; naive_solver. Qed.

Lemma fine_wake k0 : k = k0 -> match k0 with Wake0 _ _ _ | Wake1 _ _ _ | Wake2 _ _ _ => True | _ => False end -> fine (wakeup_ c k0).
Proof.
  intros Ek Hk. pose proof (wf_here m I c) as W. rewrite Ek in W. destruct k0; try done; destruct W as (W & _); apply wake_held in W as (l & El & Hr); cbn [wakeup_].
  - repeat fine_step. apply fine_acq; rewrite Ek; [done|]. intros l' Hl. cbn [held] in Hl. rewrite El in Hl. apply list_elem_of_singleton in Hl as ->. cbn. lia.
  - repeat fine_step.
  - repeat fine_step.
Qed.
Lemma fine_sleep k0 : k = k0 -> match k0 with Sleep0 _ _ _ | Sleep1 _ _ _ _ | Sleep6 _ _ => True | _ => False end -> fine (sleep_ c k0).
Proof.
  intros Ek Hk. pose proof (wf_here m I c) as W. rewrite Ek in W. destruct k0; try done; cbn [sleep_].
  - destruct W as ((p & Et & Hs) & _). apply (fine_myproc p); [done|]. apply sleep_held in Hs. apply fine_acq; rewrite Ek; [by rewrite Et|]. intros l' Hl. cbn [held] in Hl.
    apply list_elem_of_singleton in Hl as ->. cbn. lia.
  - repeat fine_step.
  - repeat fine_step.
Qed.

Lemma fine_leaf k0 : k = k0 -> match k0 with Lf0 _ _ | Lf1 _ _ => True | _ => False end -> fine (leaf_ c k0).
Proof.
  intros Ek Hk. pose proof (wf_here m I c) as W. rewrite Ek in W. destruct k0; try done; destruct W as [Hl W]; cbn [leaf_]; [|repeat fine_step].
  apply fine_acq; rewrite Ek; [done|]. cbn [held]. intros l' Hl'. destruct k0; try done; destruct l; try done; cbn [held] in Hl';
    repeat (apply elem_of_cons in Hl' as [->|Hl']; [cbn; lia|]); by apply elem_of_nil in Hl'.
Qed.
Lemma fine_exit0 : k = Exit0 -> fine (exit_ c Exit0).
Proof.
  intros Ek. pose proof (wf_here m I c) as W. rewrite Ek in W. destruct W as [p Et]. cbn [exit_]. apply (fine_myproc p); [done|]. apply fine_gets. rewrite (i_thread m I p). apply fine_ret.
Qed.
Lemma fine_exitI : k = ExitI -> fine (exit_ c ExitI).
Proof.
  intros Ek. pose proof (wf_here m I c) as W. rewrite Ek in W. destruct W as [p Et]. cbn [exit_]. apply (fine_myproc p); [done|].
  destruct (Nat.eqb_spec p initproc) as [->|]; [|apply fine_ret]. right. by left.
Qed.

(** No step panics or faults, but exit() of the first process. *)
Lemma exec_fine : fine (exec c k).
Proof.
  pose proof (wf_here m I c) as W. pose proof (i_asrt m I c) as A. destruct k eqn:Ek; cbn [exec]; cbn [wf] in W.
  all: try (by apply fine_wake); try (by apply fine_sleep); try (by apply fine_sched); try (by apply fine_leaf); try (by apply fine_exit0); try (by apply fine_exitI).
  all: unfold sched_switch; cbn [yield sleep_ sleeplock_ kill_ exit_ reparent wait_ fork_ allocproc allocpid trap_ clockintr scheduler]; try done.
  all: try (assert (exists p, m_on m c = P p) as Hp by naive_solver); repeat fine_step.
Qed.
End Progress.

(** ** What the machine promises *)

(** Nothing covers a wakeup unless the lock of its condition is held. *)
Lemma covers_held ch p k : (exists t, wf t k) -> covers k ch p ->
  (forall r, ch = OnSleep r -> L_sleep r ∈ held k) /\ (forall q, ch = OnProc q -> L_wait ∈ held k).
Proof.
  intros [t W] H. destruct k; try done; cbn [covers] in H; try (match type of H with context [match ?k0 with _ => _ end] => destruct k0 end); try done; cbn in H, W |- *; destruct_and?; subst;
    split; intros ? Ech; simplify_eq; repeat constructor.
Qed.

(** ** Every lock is let go *)

(** An upper bound on the statements a CPU executes before it holds no spin
    lock: wakeup() takes at most four for each process, reparent() a wakeup()
    for each. *)
Fixpoint work (k : pc) : nat :=
  match k with
  | Forkret _ | Yield2 _ _ | Sleep5 _ _ _ | Clk2 _ | RS3 _ _ | Dev1 _ | AS4 _ _ | Kill2 _ _ _ | Kill3 _ _ | WaitX | Fork4 _ | ForkRel _ | Fork7 _ | Fork10 _ | S6 _ => 1
  | Sleep4 _ _ _ _ | AS3 _ _ | Kill1 _ _ _ | WaitR _ | ForkM _ | Fork6 _ | Fork9 _ | S5 _ => 2
  | Sched1 _ _ | Sched2 _ _ | AS2 _ _ | WaitZ _ _ | Fork3 _ => 3
  | Sched0 _ _ | S4 _ | Fork2 _ _ => 4
  | Yield1 _ _ | Sleep3 _ _ _ _ | Exit5 _ | S3 _ | ForkPid2 _ _ => 5
  | Sleep2 _ _ _ _ | Exit4 _ | S2 _ | ForkPid1 _ => 6
  | Sleep1 _ _ _ _ | Exit3 _ | ForkPid0 _ => 7
  | Sleep0 _ _ _ | Fork1 _ => 8
  | AS1 _ _ | Wait6 _ _ => 9
  | Wait5 _ => 10
  | Wait4 _ => 11
  | Wake0 _ i k => work k + 1 + 4 * (NPROC - i)
  | Wake1 _ i k => work k + 3 + 4 * (NPROC - S i)
  | Wake2 _ i k => work k + 2 + 4 * (NPROC - S i)
  | Wait1 _ i _ => 12 + 4 * (NPROC - i)
  | Wait2 _ i => 14 + 4 * (NPROC - S i)
  | Wait3 _ i => 13 + 4 * (NPROC - S i)
  | Lf0 _ k => work k + 2
  | Lf1 _ k => work k + 1
  | Clk1 _ | RS2 _ _ => 259
  | RS1 _ _ => 260
  | Exit2 _ => 265
  | Exit1 _ i => 266 + 300 * (NPROC - i)
  | _ => 0
  end%nat.

Section Work.
Context (m : mach) (I : inv m) (c : Z).
Local Abbreviation s := (m_sh m).
Local Abbreviation k := (here m c).

(** If the step stays in the thread it lets every lock go or has less to do. *)
Definition less (f : M shared next) : Prop :=
  forall n s', f s = Ret n s' -> match n with Go k' | Spawn k' _ => held k' = [] \/ (work k' < work k)%nat | Sw _ _ => True end.

Lemma less_acq l k' : (work k' < work k)%nat -> less (acq c l k').
Proof. intros H n s' [-> _]%acq_inv. by right. Qed.
Lemma less_rel l k' : held k' = [] \/ (work k' < work k)%nat -> less (rel c l k').
Proof. intros H n s' [-> _]%rel_inv. done. Qed.
Lemma less_go f k' : (work k' < work k)%nat -> less (go f k').
Proof. intros H n s' [-> _]%go_inv. by right. Qed.
Lemma less_ret k' : (work k' < work k)%nat -> less (ret (Go k')).
Proof. intros H n s' [= <- <-]. by right. Qed.
Lemma less_gets {A} (f : shared -> A) g : (forall a, less (g a)) -> less (bind (gets f) g).
Proof. intros H n s'. rewrite bind_gets. apply H. Qed.
Lemma less_myproc g : (forall p, less (g p)) -> less (bind (myproc c) g).
Proof. intros H n s'. unfold myproc, bind, gets. destruct (sh_cproc s c); [apply H|done]. Qed.
Lemma less_sched p k0 : k = Sched0 p k0 -> less (sched c p k0).
Proof. intros Ek n s'. unfold sched. destruct (negb _); [done|]. destruct (negb _); [done|]. destruct (decide _); [done|]. destruct (negb _); [done|]. intros [= <- <-]. right. rewrite Ek. cbn. lia. Qed.

Ltac count Ek := rewrite ?Ek; cbn [work]; unfold NPROC in *; lia.
Ltac less_step Ek := match goal with
  | |- less (ret (Go (match ?b with _ => _ end))) => destruct b
  | |- less (ret _) => apply less_ret; count Ek
  | |- less (go _ _) => apply less_go; count Ek
  | |- less (rel _ _ _) => apply less_rel; first [by left|right; count Ek]
  | |- less (acq _ _ _) => apply less_acq; count Ek
  | |- less (bind (gets _) _) => apply less_gets; intros ?
  | |- less (bind (myproc _) _) => apply less_myproc; intros ?
  | |- less (if Nat.leb ?a ?b then _ else _) => destruct (Nat.leb_spec a b)
  | |- less (match ?b with _ => _ end) => destruct b
  end.

Lemma exec_less : held k <> [] -> less (exec c k).
Proof.
  intros Hh. pose proof (wf_here m I c) as W. destruct k eqn:Ek; cbn [exec held] in *; try done; cbn [wf] in W.
  all: unfold sched_switch; cbn [yield sleep_ wakeup_ sleeplock_ kill_ exit_ reparent wait_ fork_ allocproc allocpid trap_ clockintr scheduler leaf_].
  all: try (by apply less_sched); destruct_and?; repeat less_step Ek.
  - by intros n s' [= <- <-].
  - destruct H as (q & Et & Hf). destruct p; try done; apply less_go; count Ek.
  - destruct b; less_step Ek.
  - intros n s' [= <- <-]. right. count Ek.
  - by intros n s' [= <- <-].
Qed.
End Work.

(** ** Runs *)

(** CPU [c] executes its next statement, if it can. *)
Definition drive (c : Z) (m : mach) : mach :=
  match exec c (here m c) (m_sh m) with
  | Ret (Go k) s => mkMach s (set_code (m_on m c) k (m_code m)) (m_on m)
  | Ret (Sw k t) s => mkMach s (set_code (m_on m c) k (m_code m)) (set_on c t (m_on m))
  | Ret (Spawn k i) s => mkMach s (set_code (m_on m c) k (set_code (P i) (Forkret i) (m_code m))) (m_on m)
  | _ => m
  end.
Definition drives (cs : list Z) (m : mach) : mach := fold_left (fun m c => drive c m) cs m.

Lemma drive_step c m : drive c m = m \/ mstep m (drive c m).
Proof.
  unfold drive. destruct (exec c (here m c) (m_sh m)) as [[k|k t|k i] s| | | |] eqn:E; [right..|by left|by left|by left|by left].
  - by apply m_go.
  - by apply m_sw.
  - by apply m_spawn.
Qed.
Lemma drives_steps cs m : rtc mstep m (drives cs m).
Proof.
  revert m. induction cs as [|c cs IH]; intros m; [apply rtc_refl|]. cbn. destruct (drive_step c m) as [->|Hs]; [apply IH|]. by eapply rtc_l; [|apply IH].
Qed.

(** The CPUs' threads are different. *)
Lemma on_ne m c d : inv m -> c <> d -> m_on m c <> m_on m d.
Proof.
  intros I Hn E. destruct (i_on m I c) as [Ec|(p & _ & Ec & _)], (i_on m I d) as [Ed|(q & _ & Ed & _)]; try congruence.
  apply Hn. apply (i_one m I c d p); congruence.
Qed.
(** A step of one CPU leaves the others where they are. *)
Lemma drive_other m c d : inv m -> c <> d -> m_on (drive d m) c = m_on m c /\ here (drive d m) c = here m c.
Proof.
  intros I Hn. pose proof (on_ne m c d I Hn) as Ho. unfold drive, here. destruct (exec d (m_code m (m_on m d)) (m_sh m)) as [[k|k t|k i] s| | | |] eqn:E; try done; cbn [m_on m_code].
  - split; [done|]. unfold set_code. by rewrite decide_False.
  - unfold set_on. rewrite (proj2 (Z.eqb_neq c d) Hn). split; [done|]. unfold set_code. by rewrite decide_False.
  - split; [done|]. apply exec_spawn in E as (Ek & _ & _). unfold set_code. rewrite decide_False by done. rewrite decide_False; [done|]. by apply (spawn_off m I d i Ek).
Qed.
Lemma in_work m c i : inv m -> here m c = S4 i -> (work (m_code m (P i)) <= 3)%nat.
Proof.
  intros I Ek. destruct (i_park m I i (in_off m I c i Ek)) as [_ H]. rewrite (in_state m I c i Ek) in H. pose proof (i_wf m I (P i)) as W.
  destruct H as [-> |(ia & k & E & _)]; [cbn; lia|]. rewrite E in *. destruct W as ((p & _ & Hf) & _). destruct k; try done; cbn; lia.
Qed.
(** A CPU that holds spin locks and can go on has them all free after its
    step, or less left to do. *)
Lemma drive_work m c n s' : inv m -> held (here m c) <> [] -> exec c (here m c) (m_sh m) = Ret n s' ->
  held (here (drive c m) c) = [] \/ (work (here (drive c m) c) < work (here m c))%nat.
Proof.
  intros I Hh E. pose proof (exec_less m I c Hh n s' E) as Hl. unfold drive. rewrite E. destruct n as [k|k t|k i]; unfold here at 1 2; cbn [m_on m_code].
  - unfold set_code. by rewrite decide_True.
  - apply exec_sw in E as [(p & k0 & ia & Ek & -> & -> & ->)|(i & Ek & -> & -> & ->)]; unfold set_on; rewrite Z.eqb_refl, Ek; right; cbn [work].
    + pose proof (wf_here m I c) as W. rewrite Ek in W. destruct W as (Et & _). rewrite Et. unfold set_code. rewrite decide_False by done.
      destruct (i_on m I c) as [Ec|(q & _ & _ & -> & _)]; [congruence|]. cbn. lia.
    + pose proof (in_work m c i I Ek). pose proof (wf_here m I c) as W. rewrite Ek in W. destruct W as ((d & Et) & _). rewrite Et. unfold set_code. rewrite decide_False by done. lia.
  - unfold set_code. by rewrite decide_True.
Qed.

Lemma inv_steps m m' : inv m -> rtc mstep m m' -> inv m'.
Proof. intros I H. induction H; [done|]. eauto using inv_step. Qed.
Lemma inv_drive c m : inv m -> inv (drive c m).
Proof. intros I. destruct (drive_step c m) as [->|Hs]; [done|by eapply inv_step]. Qed.

(** Whether [l] is taken. *)
Definition taken (l : klock) (m : mach) : Prop := Spin.locked (Spin.locks (sh_spin (m_sh m)) l) <> 0.
(** What a CPU is doing is the same in two machines. *)
Definition idle (c : Z) (m m' : mach) : Prop := m_on m' c = m_on m c /\ here m' c = here m c.
(** CPU [c] holds only locks before [l]. *)
Definition below (l : klock) (m : mach) (c : Z) : Prop := forall l', l' ∈ held (here m c) -> (rank l' < rank l)%nat.

Lemma idle_trans c m1 m2 m3 : idle c m1 m2 -> idle c m2 m3 -> idle c m1 m3.
Proof. intros [? ?] [? ?]. split; congruence. Qed.
Lemma below_idle l m m' c : below l m c -> idle c m m' -> below l m' c.
Proof. intros H [_ E] l'. rewrite E. apply H. Qed.

Lemma taken_holder m l : inv m -> taken l m -> exists c, l ∈ held (here m c).
Proof. intros I H. destruct (i_word m I l H) as [c Hc]. exists c. by apply (se_held _ _ _ (i_sees m I c)). Qed.
Lemma held_taken m l c : inv m -> l ∈ held (here m c) -> taken l m.
Proof. intros I H. apply (se_held _ _ _ (i_sees m I c)) in H. unfold Spin.holding in H. apply andb_prop in H as [H _]. unfold taken. by destruct (Z.eqb_spec (Spin.locked (Spin.locks (sh_spin (m_sh m)) l)) 0). Qed.
Lemma holder_one m l c d : inv m -> l ∈ held (here m c) -> l ∈ held (here m d) -> c = d.
Proof.
  intros I H1 H2. apply (se_held _ _ _ (i_sees m I c)) in H1. apply (se_held _ _ _ (i_sees m I d)) in H2. unfold Spin.holding in H1, H2. apply andb_prop in H1 as [_ H1], H2 as [_ H2]. by apply bool_decide_eq_true in H1, H2; congruence.
Qed.

(** A run of lock holders after which [l] is free, and which leaves alone the
    CPUs that may wait for it. *)
Definition freed (l : klock) (m : mach) : Prop :=
  exists m', rtc mstep m m' /\ ~ taken l m' /\ forall c, below l m c -> idle c m m'.

Lemma freed_after l m m1 : rtc mstep m m1 -> (forall c, below l m c -> idle c m m1) -> freed l m1 -> freed l m.
Proof.
  intros Hr Hi (m' & Hr' & Ht & Hi'). exists m'. split_and!; [by etrans|done|]. intros c Hc. eapply idle_trans; [by apply Hi|].
  apply Hi'. eapply below_idle; eauto.
Qed.

Section Freed.
Context (l : klock) (d : Z).
Lemma freed_step m (w : nat) n s' : inv m -> l ∈ held (here m d) -> (work (here m d) < S w)%nat -> exec d (here m d) (m_sh m) = Ret n s' ->
  (forall m1, inv m1 -> l ∈ held (here m1 d) -> (work (here m1 d) < w)%nat -> freed l m1) -> freed l m.
Proof.
  intros I Hl Hw E IH. pose proof (inv_drive d m I) as I1.
  assert (held (here m d) <> []) as Hh by (intros Hh; rewrite Hh in Hl; by apply elem_of_nil in Hl).
  apply (freed_after l m (drive d m)).
  - destruct (drive_step d m) as [->|?]; [apply rtc_refl|by apply rtc_once].
  - intros c Hc. apply drive_other; [done|]. intros ->. specialize (Hc l Hl). lia.
  - destruct (decide (l ∈ held (here (drive d m) d))) as [Hl'|Hl'].
    + apply IH; [done|done|]. destruct (drive_work m d n s' I Hh E) as [H|H]; [|lia]. rewrite H in Hl'. by apply elem_of_nil in Hl'.
    + exists (drive d m). split_and!; [apply rtc_refl| |done]. intros [e He]%taken_holder; [|done].
      assert (e <> d) as Hn by congruence. destruct (drive_other m e d I Hn) as [_ E']. rewrite E' in He. by apply Hn, (holder_one m l).
Qed.
End Freed.

Lemma lock_freed (n : nat) : forall l m, inv m -> (3 <= rank l + n)%nat -> freed l m.
Proof.
  induction n as [|n IHn]; intros l m I Hn; [by destruct l; cbn in Hn; lia|].
  destruct (decide (Spin.locked (Spin.locks (sh_spin (m_sh m)) l) = 0)) as [H0|H0]; [exists m; split_and!; [apply rtc_refl|by intros ?|done]|].
  destruct (taken_holder m l I H0) as [d Hl]. remember (S (work (here m d))) as w eqn:Ew. assert (work (here m d) < w)%nat as Hw by lia. clear H0 Ew. revert m I Hl Hw.
  induction w as [|w IHw]; intros m I Hl Hw; [lia|].
  destruct (exec_fine m I d) as [(x & s1 & E)|[(Ek & _)|(s1 & l2 & _ & Hwa & _ & Hr)]]; [by eapply freed_step|rewrite Ek in Hl; by apply elem_of_nil in Hl|].
  destruct (IHn l2 m I) as (m1 & Hs & Ht & Hi); [specialize (Hr l Hl); lia|]. pose proof (inv_steps m m1 I Hs) as I1. destruct (Hi d Hr) as [Eo Eh].
  apply (freed_after l m m1); [done|intros c Hc; apply Hi; intros l' Hl'; specialize (Hc l' Hl'); specialize (Hr l Hl); lia|].
  destruct (exec_fine m1 I1 d) as [(x & s2 & E)|[(Ek & _)|(s2 & l3 & _ & Hwa' & Ht' & _)]];
    [apply (freed_step l d m1 w x s2); [done|by rewrite Eh|by rewrite Eh|done|done]|rewrite <- Eh, Ek in Hl; by apply elem_of_nil in Hl|].
  rewrite Eo, Eh in Hwa'. by simplify_eq.
Qed.

(** ** A machine *)

(** Two processes ready to run, and every CPU entering the scheduler. *)
Definition machine0 : mach :=
  mkMach (mkShared (Spin.mkState (fun _ => Spin.mkCpu 0 0 0) (fun _ => Spin.mkSpinlock 0 None))
                   (fun p => mkProcd (if Nat.ltb p 2 then RUNNABLE else UNUSED) NoChan 0 (Z.of_nat p + 1) 0)
                   (fun _ => None) (fun _ => mkSleeplock 0 0) (fun _ => None) 3 0 (fun _ _ => None))
         (fun t => match t with P p => Forkret p | S_ _ => S0 end) S_.
Lemma boot_machine0 : boot machine0.
Proof.
  split; cbn [machine0 m_sh m_code m_on sh_spin sh_sleep sh_cproc sh_parent sh_proc p_state]; try done.
  - by exists (fun _ => 0).
  - intros p. split; [done|]. destruct (Nat.ltb p 2); auto.
Qed.

(** ** The theorems *)

(** The first process is on CPU [c] in exit(), at the test that panics. *)
Definition init_exits (m : mach) (c : Z) : Prop :=
  here m c = ExitI /\ m_on m c = P initproc /\ exec c (here m c) (m_sh m) = Panic "init exiting" (m_sh m).

(** C6: as long as no process creates threads, whatever the interleaving of the
    CPUs, the interrupts and the programs from boot on, no statement of sched(),
    yield(), sleep(), wakeup(), kill(), fork(), exit(), thread_exit(), wait(), the
    sleep locks, the trap handlers or the scheduler panics or dereferences a null
    pointer: it executes, or spins on a lock; but when the first process calls
    exit() or thread_exit(), the kernel panics.  No process runs on two CPUs, and
    no two processes have the same sleep lock. *)
Theorem kernel_threads_safe m0 m c : boot m0 -> rtc mstep m0 m ->
  ((exists n s', exec c (here m c) (m_sh m) = Ret n s') \/ (exists s', exec c (here m c) (m_sh m) = Spin s') \/
   init_exits m c) /\
  (forall d p, m_on m c = P p -> m_on m d = P p -> c = d) /\
  (forall p q r, r ∈ slocks (m_code m (P p)) -> r ∈ slocks (m_code m (P q)) -> p = q).
Proof.
  intros Hb Hs. pose proof (inv_steps m0 m (inv_boot m0 Hb) Hs) as I. split_and!; [|apply I|apply I].
  destruct (exec_fine m I c) as [?|[?|(s' & l & ? & _)]]; eauto.
Qed.
(** After six statements CPU 0 runs process 0, while CPU 1 spins on its lock. *)
Lemma kernel_threads_safe_witness :
  exists m, m_on m 0 = P 0 /\ m_on m 1 = S_ 1 /\ (exists s', exec 1 (here m 1) (m_sh m) = Spin s') /\
  (forall d, m_on m d = P 0 -> 0 = d) /\ exists n s', exec 0 (here m 0) (m_sh m) = Ret n s'.
Proof.
  exists (drives [0; 0; 0; 0; 0; 1] machine0). split_and!; [reflexivity|reflexivity|eexists; reflexivity|..].
  - intros d Hd. destruct (kernel_threads_safe machine0 (drives [0; 0; 0; 0; 0; 1] machine0) 0 boot_machine0 (drives_steps _ _)) as (_ & H & _).
    apply (H d 0%nat); [reflexivity|exact Hd].
  - destruct (kernel_threads_safe machine0 (drives [0; 0; 0; 0; 0; 1] machine0) 0 boot_machine0 (drives_steps _ _)) as ([H|[[s' H]|(H & _)]] & _); [exact H|discriminate H|discriminate H].
Defined.

(** C7: no wakeup is lost, as long as no process creates threads.  Whenever the spin lock of a sleep lock is free and
    the sleep lock is not locked, no process sleeps for it or is about to.
    Whenever wait_lock is free, a process that has a zombie child does not
    sleep in wait(), and is not about to. *)
Theorem wakeups_not_lost m0 m p : boot m0 -> rtc mstep m0 m -> (p < NPROC)%nat ->
  (forall r, ~ taken (L_sleep r) m -> sl_locked (sh_sleep (m_sh m) r) = 0 -> ~ asleep (m_sh m) (m_code m) p (OnSleep r)) /\
  (forall i, ~ taken L_wait m -> (i < NPROC)%nat -> sh_parent (m_sh m) i = Some p -> p_state (sh_proc (m_sh m) i) = ZOMBIE ->
     ~ asleep (m_sh m) (m_code m) p (OnProc p)).
Proof.
  intros Hb Hs Hp. pose proof (inv_steps m0 m (inv_boot m0 Hb) Hs) as I. split.
  - intros r Ht H0 Ha. destruct (i_lost m I p _ Hp Ha) as [H|[c H]]; [done|]. apply covers_held in H as [H _]; [|exists (m_on m c); apply (wf_here m I c)].
    apply Ht, (held_taken m _ c I), H; done.
  - intros i Ht Hi Hpar Hz Ha. destruct (i_lost m I p _ Hp Ha) as [H|[c H]]; [by apply (H i)|]. apply covers_held in H as [_ H]; [|exists (m_on m c); apply (wf_here m I c)].
    apply Ht, (held_taken m _ c I), (H p); done.
Qed.

(** Process 0, once it runs, and process 1, which is still to run, sleep for
    no sleep lock. *)
Lemma wakeups_not_lost_witness :
  let m := drives [0; 0; 0; 0; 0; 0; 1] machine0 in
  here m 0 = Top user /\ forall r, ~ asleep (m_sh m) (m_code m) 1 (OnSleep r).
Proof.
  split; [reflexivity|]. intros r.
  apply (wakeups_not_lost machine0 (drives [0; 0; 0; 0; 0; 0; 1] machine0) 1 boot_machine0 (drives_steps _ _)); [unfold NPROC; lia|by intros []|reflexivity].
Defined.

(** C8: the CPUs never block each other for good over the locks of proc.c,
    sleeplock.c and trap.c and those that fork() and wait() take while they hold
    one: kmem.lock, ftable.lock and itable.lock.  From every state the machine
    can be in, as long as no process creates threads, the CPUs that hold spin
    locks can go on until a given lock is free.  Meanwhile the CPUs that may wait
    for the lock, those that hold only locks of a lower rank, stay where they
    are, so that each of them then finds the lock free. *)
Theorem spin_locks_released m0 m l : boot m0 -> rtc mstep m0 m ->
  exists m', rtc mstep m m' /\ Spin.locked (Spin.locks (sh_spin (m_sh m')) l) = 0 /\
    forall c, (forall l', l' ∈ held (here m c) -> (rank l' < rank l)%nat) -> m_on m' c = m_on m c /\ here m' c = here m c.
Proof.
  intros Hb Hs. pose proof (inv_steps m0 m (inv_boot m0 Hb) Hs) as I. destruct (lock_freed 3 l m I) as (m' & Hr & Ht & Hi); [lia|].
  exists m'. split_and!; [done| |]. { destruct (decide (Spin.locked (Spin.locks (sh_spin (m_sh m')) l) = 0)); [done|by destruct Ht]. }
  intros c Hc. by apply Hi.
Qed.
(** The lock of process 0, which its thread holds when it starts, is let go, and
    the scheduler of CPU 1 still waits for it. *)
Lemma spin_locks_released_witness :
  let m := drives [0; 0; 0; 0; 0; 1] machine0 in
  Spin.locked (Spin.locks (sh_spin (m_sh m)) (pl 0)) = 1 /\
  exists m', rtc mstep m m' /\ Spin.locked (Spin.locks (sh_spin (m_sh m')) (pl 0)) = 0 /\ here m' 1 = S1 0.
Proof.
  split; [reflexivity|].
  destruct (spin_locks_released machine0 (drives [0; 0; 0; 0; 0; 1] machine0) (pl 0) boot_machine0 (drives_steps _ _)) as (m' & Hr & Hw & Hi).
  exists m'. split_and!; [exact Hr|exact Hw|]. apply Hi. intros l' Hl'. by apply elem_of_nil in Hl'.
Defined.
