(* ===== verification/Ring.v ===== *)
(** * Ring buffers

    The console, the UART driver and other drivers keep a buffer of [N] bytes
    with free-running counters that wrap at a multiple [W] of [N]: byte [k] of
    the queue whose oldest byte has counter [r] is at index [(r + k) mod N]. *)
From stdpp Require Import strings.
From S2P Require Import Prelude.
From Stdlib Require Import ZArith Lia.
Local Open Scope list_scope.
Local Open Scope Z_scope.

Section ring.
Context (N W : Z) (HN : 0 < N) (HW : 0 < W) (HD : W mod N = 0).

Definition ring_cell (buf : list Z) (c : Z) : Z := default 0 (znth buf (c mod N)).
(** The [n] bytes from counter [r] on. *)
Definition ring_list (buf : list Z) (r n : Z) : list Z := map (fun k => ring_cell buf (r + k)) (seqZ 0 n).

Lemma ring_length buf r n : 0 <= n -> Z.of_nat (length (ring_list buf r n)) = n.
Proof. intros. unfold ring_list. rewrite length_map, length_seqZ. lia. Qed.
Lemma ring_nil buf r : ring_list buf r 0 = [].
Proof. done. Qed.

(** A counter may be wrapped before it is reduced to an index. *)
Lemma wrap_mod x k : ((x mod W) + k) mod N = (x + k) mod N.
Proof using HN HW HD.
  pose proof (Z.div_mod W N ltac:(lia)) as Ew. rewrite HD, Z.add_0_r in Ew. pose proof (Z.div_mod x W ltac:(lia)) as Ex.
  replace (x + k) with (x mod W + k + (W / N * (x / W)) * N) by nia. by rewrite Z_mod_plus_full.
Qed.
Lemma ring_cell_wrap buf x k : ring_cell buf (x mod W + k) = ring_cell buf (x + k).
Proof using HN HW HD. unfold ring_cell. by rewrite wrap_mod. Qed.

Lemma ring_app buf r a b : 0 <= a -> 0 <= b -> ring_list buf r (a + b) = ring_list buf r a ++ ring_list buf ((r + a) mod W) b.
Proof using HN HW HD.
  intros Ha Hb. unfold ring_list. rewrite seqZ_app by lia. rewrite map_app. f_equal. rewrite Z.add_0_l.
  apply list_eq. intros j. rewrite !list_lookup_fmap. destruct (decide (Z.of_nat j < b)).
  - rewrite !lookup_seqZ_lt by lia. cbn. rewrite ring_cell_wrap. do 2 f_equal. lia.
  - rewrite !lookup_seqZ_ge by lia. done.
Qed.
Lemma ring_one buf r : ring_list buf r 1 = [ring_cell buf r].
Proof. unfold ring_list. change (seqZ 0 1) with [0]. cbn [map]. by rewrite Z.add_0_r. Qed.

(** Taking the oldest byte, and giving up the newest. *)
Lemma ring_first buf r n : 0 < n -> ring_list buf r n = ring_cell buf r :: ring_list buf ((r + 1) mod W) (n - 1).
Proof using HN HW HD. intros H. replace n with (1 + (n - 1)) at 1 by lia. rewrite ring_app by lia. by rewrite ring_one. Qed.
Lemma ring_last buf r n : 0 < n -> ring_list buf r n = ring_list buf r (n - 1) ++ [ring_cell buf (r + (n - 1))].
Proof using HN HW HD.
  intros H. replace n with (n - 1 + 1) at 1 by lia. rewrite ring_app by lia. rewrite ring_one. rewrite <- (Z.add_0_r (_ mod W)), ring_cell_wrap, Z.add_0_r. done.
Qed.

(** Adding a byte. *)
Lemma ring_set buf r n b : Z.of_nat (length buf) = N -> 0 <= n < N ->
  exists buf', zset buf ((r + n) mod N) b = Some buf' /\ length buf' = length buf /\ ring_list buf' r (n + 1) = ring_list buf r n ++ [b].
Proof using HN HW HD.
  intros Hl Hn. pose proof (Z.mod_pos_bound (r + n) N HN) as Hi. eexists. split; [apply zset_Some; lia|]. split; [apply length_insert|].
  assert (forall k, 0 <= k < n -> ring_cell (<[Z.to_nat ((r + n) mod N) := b]> buf) (r + k) = ring_cell buf (r + k)) as Hk.
  { intros k Hk. unfold ring_cell, znth. case_match; [|done]. rewrite list_lookup_insert_ne; [done|]. intros E.
    assert ((r + n) mod N = (r + k) mod N) as E' by (pose proof (Z.mod_pos_bound (r + k) N HN); lia).
    assert ((n - k) mod N = 0) as E2 by (replace (n - k) with (r + n - (r + k)) by lia; rewrite Zminus_mod, E', Z.sub_diag; apply Z.mod_0_l; lia).
    rewrite Z.mod_small in E2 by lia. lia. }
  rewrite ring_last by lia. replace (n + 1 - 1) with n by lia. f_equal.
  - unfold ring_list. apply map_ext_in. intros k Hin%list_elem_of_In. apply elem_of_seqZ in Hin. apply Hk. lia.
  - unfold ring_cell at 1, znth. rewrite (proj2 (Z.leb_le _ _)) by lia. rewrite list_lookup_insert_eq by lia. done.
Qed.
Lemma ring_get buf c : Z.of_nat (length buf) = N -> znth buf (c mod N) = Some (ring_cell buf c).
Proof using HN.
  intros Hl. pose proof (Z.mod_pos_bound c N HN) as Hi. unfold ring_cell. destruct (znth_is_Some buf (c mod N)) as [x E]; [lia|]. by rewrite E.
Qed.
End ring.
