(* ===== verification/Uart.v ===== *)
(** * kernel/uart.c and kernel/printf.c

    The 16550 UART is part of the state: the bytes that wait to be read from
    RHR, the bytes it has sent, and for how many more reads of LSR its transmit
    holding register is full.  A byte written to THR while it is full is lost.
    [ua_delays] lists how long the device will take for the next bytes; it
    always becomes idle again.  [uartputc] sleeps when the driver's buffer is
    full; the process that called it then calls [uartputc_resume].

    The kernel's printf() writes through uartputc_sync(), which polls. *)
From stdpp Require Import strings.
From S2P Require Import Prelude Page Locks Ring Sched User.
From Stdlib Require Import ZArith Lia.
Local Open Scope list_scope.
Local Open Scope Z_scope.
Local Open Scope kernel_scope.

Definition IER : Z := 1.
Definition IER_RX_ENABLE : Z := 1.
Definition IER_TX_ENABLE : Z := 2.
Definition FCR : Z := 2.
Definition FCR_FIFO_ENABLE : Z := 1.
Definition FCR_FIFO_CLEAR : Z := 6.
Definition LCR : Z := 3.
Definition LCR_EIGHT_BITS : Z := 3.
Definition LCR_BAUD_LATCH : Z := 128.
Definition LSR_RX_READY : Z := 1.
Definition LSR_TX_IDLE : Z := 32.
Definition UART_TX_BUF_SIZE : Z := 32.

(** ** The device *)

Record uart := mkUart { ua_rx : list Z; ua_sent : list Z; ua_busy : nat; ua_delays : list nat; ua_setup : list (Z * Z) }.

Definition lsr_read (d : uart) : Z * uart :=
  (Z.lor (match ua_busy d with O => LSR_TX_IDLE | _ => 0 end) (match ua_rx d with [] => 0 | _ => LSR_RX_READY end),
   mkUart (ua_rx d) (ua_sent d) (pred (ua_busy d)) (ua_delays d) (ua_setup d)).
Definition rhr_read (d : uart) : Z * uart :=
  match ua_rx d with
  | [] => (0, d)
  | c :: l => (c, mkUart l (ua_sent d) (ua_busy d) (ua_delays d) (ua_setup d))
  end.
Definition thr_write (c : Z) (d : uart) : uart :=
  match ua_busy d with
  | O => mkUart (ua_rx d) (ua_sent d ++ [c]) (hd O (ua_delays d)) (tl (ua_delays d)) (ua_setup d)
  | _ => d
  end.

(** ** The driver *)

(** The transmit buffer, whether the kernel panicked, printf()'s lock flag, the
    device, and the locks. *)
Record tty := mkTty {
  uart_tx_buf : list Z; uart_tx_w : Z; uart_tx_r : Z; panicked : Z; pr_locking : Z; tt_dev : uart; tt_lk : lkst
}.

Definition set_tx (b : list Z) (w r : Z) (s : tty) : tty := mkTty b w r (panicked s) (pr_locking s) (tt_dev s) (tt_lk s).
Definition set_dev (d : uart) (s : tty) : tty := mkTty (uart_tx_buf s) (uart_tx_w s) (uart_tx_r s) (panicked s) (pr_locking s) d (tt_lk s).
Definition set_tlk (k : lkst) (s : tty) : tty := mkTty (uart_tx_buf s) (uart_tx_w s) (uart_tx_r s) (panicked s) (pr_locking s) (tt_dev s) k.
Definition set_panicked (p : Z) (s : tty) : tty := mkTty (uart_tx_buf s) (uart_tx_w s) (uart_tx_r s) p (pr_locking s) (tt_dev s) (tt_lk s).
Definition set_locking (p : Z) (s : tty) : tty := mkTty (uart_tx_buf s) (uart_tx_w s) (uart_tx_r s) (panicked s) p (tt_dev s) (tt_lk s).

#[export] Instance tty_lk : Lens tty lkst.
Proof. refine {| view := tt_lk; update := set_tlk |}; [done|by intros []|done]. Defined.

Definition ReadLSR : M tty Z := fun s => let '(v, d) := lsr_read (tt_dev s) in Ret v (set_dev d s).
Definition ReadRHR : M tty Z := fun s => let '(v, d) := rhr_read (tt_dev s) in Ret v (set_dev d s).
Definition WriteTHR (c : Z) : M tty unit := modify (fun s => set_dev (thr_write (u8 c) (tt_dev s)) s).
(** The writes to the other registers. *)
Definition WriteReg (reg v : Z) : M tty unit :=
  modify (fun s => let d := tt_dev s in set_dev (mkUart (ua_rx d) (ua_sent d) (ua_busy d) (ua_delays d) (ua_setup d ++ [(reg, v)])) s).

Definition initlock (l : klock) : M lkst unit := modify (fun k => set_lk_held (base.filter (fun x => x <> l) (lk_held k)) k).

Definition uartinit : M tty unit :=
  WriteReg IER 0 ;;;
  WriteReg LCR LCR_BAUD_LATCH ;;;
  WriteReg 0 3 ;;;
  WriteReg 1 0 ;;;
  WriteReg LCR LCR_EIGHT_BITS ;;;
  WriteReg FCR (Z.lor FCR_FIFO_ENABLE FCR_FIFO_CLEAR) ;;;
  WriteReg IER (Z.lor IER_TX_ENABLE IER_RX_ENABLE) ;;;
  lift (initlock L_uart).

Definition chan_tx_r : Z := 0x30001.

(** The loop of uartstart; one turn per buffered byte. *)
Fixpoint uartstart_loop (fuel : nat) : M tty unit :=
  match fuel with
  | O => fun s => Spin s
  | S fuel =>
      w <- gets uart_tx_w ;;
      r <- gets uart_tx_r ;;
      if w =? r then ret tt
      else
        v <- ReadLSR ;;
        if Z.land v LSR_TX_IDLE =? 0 then ret tt
        else
          b <- gets uart_tx_buf ;;
          match znth b (r mod UART_TX_BUF_SIZE) with
          | None => fault
          | Some c =>
              modify (set_tx b w (u64 (r + 1))) ;;;
              lift (wakeup chan_tx_r) ;;;
              WriteTHR c ;;;
              uartstart_loop fuel
          end
  end.
Definition uartstart : M tty unit :=
  n <- gets (fun s => u64 (uart_tx_w s - uart_tx_r s)) ;; uartstart_loop (S (Z.to_nat n)).

(** uartputc from the test of the buffer on, with the lock held. *)
Definition uartputc_body (c : Z) : M tty unit :=
  w <- gets uart_tx_w ;;
  r <- gets uart_tx_r ;;
  if w =? u64 (r + UART_TX_BUF_SIZE) then lift (sleep chan_tx_r L_uart)
  else
    b <- gets uart_tx_buf ;;
    match zset b (w mod UART_TX_BUF_SIZE) (u8 c) with
    | None => fault
    | Some b => modify (set_tx b (u64 (w + 1)) r) ;;; uartstart ;;; lift (release L_uart)
    end.
Definition uartputc_resume (c : Z) : M tty unit := lift (acquire L_uart) ;;; uartputc_body c.
Definition uartputc (c : Z) : M tty unit :=
  lift (acquire L_uart) ;;;
  p <- gets panicked ;;
  if negb (p =? 0) then (fun s => Spin s) else uartputc_body c.

(** The busy-wait of uartputc_sync. *)
Fixpoint wait_idle (fuel : nat) : M tty unit :=
  match fuel with
  | O => fun s => Spin s
  | S fuel => v <- ReadLSR ;; if Z.land v LSR_TX_IDLE =? 0 then wait_idle fuel else ret tt
  end.
Definition uartputc_sync (c : Z) : M tty unit :=
  p <- gets panicked ;;
  if negb (p =? 0) then (fun s => Spin s)
  else n <- gets (fun s => ua_busy (tt_dev s)) ;; wait_idle (S n) ;;; WriteTHR c.

Definition uartgetc : M tty Z :=
  v <- ReadLSR ;; if negb (Z.land v 1 =? 0) then ReadRHR else ret (-1).

(** ** kernel/printf.c *)

Definition BACKSPACE : Z := 0x100.
(** console.c *)
Definition consputc (c : Z) : M tty unit :=
  if c =? BACKSPACE then uartputc_sync 8 ;;; uartputc_sync 32 ;;; uartputc_sync 8 else uartputc_sync c.
Definition consputs (l : list Z) : M tty unit := fold_right (fun c k => consputc c ;;; k) (ret tt) l.

Definition kdigits : list Z := str "0123456789abcdef".

(** The do-while of printint: what it stored, its last byte first. *)
Fixpoint kprintint_loop (fuel : nat) (x base : Z) (buf : list Z) : option (list Z) :=
  match fuel with
  | O => None
  | S fuel =>
      if 16 <=? Z.of_nat (length buf) then None
      else
        match znth kdigits (x mod base) with
        | None => None
        | Some d => if x / base =? 0 then Some (d :: buf) else kprintint_loop fuel (x / base) base (d :: buf)
        end
  end.
Definition kprintint_buf (xx base : Z) (sgn : bool) : option (list Z) :=
  let neg := sgn && (xx <? 0) in
  let x := u32 (if neg then - xx else xx) in
  match kprintint_loop 33 x base [] with
  | None => None
  | Some buf => if neg then if 16 <=? Z.of_nat (length buf) then None else Some (45 :: buf) else Some buf
  end.
Definition kprintint (xx base : Z) (sgn : bool) : M tty unit :=
  match kprintint_buf xx base sgn with None => fault | Some l => consputs l end.

Fixpoint kptr_digits (k : nat) (x : Z) : list Z :=
  match k with O => [] | S k => default 0 (znth kdigits (Z.shiftr x 60)) :: kptr_digits k (u64 (Z.shiftl x 4)) end.
Definition kprintptr (x : Z) : M tty unit := consputc 48 ;;; consputc 120 ;;; consputs (kptr_digits 16 x).

(** The loop of printf() over the format. *)
Fixpoint kprintf_loop (fmt : list Z) (ap : list varg) : M tty unit :=
  match fmt with
  | [] => ret tt
  | c :: fmt =>
      if negb (c =? 37) then consputc c ;;; kprintf_loop fmt ap
      else
        match fmt with
        | [] => ret tt
        | c :: fmt =>
            if c =? 100 then match ap with V_int x :: ap => kprintint (s32 x) 10 true ;;; kprintf_loop fmt ap | _ => fault end
            else if c =? 120 then match ap with V_int x :: ap => kprintint (s32 x) 16 true ;;; kprintf_loop fmt ap | _ => fault end
            else if c =? 112 then match ap with V_int x :: ap => kprintptr (u64 x) ;;; kprintf_loop fmt ap | _ => fault end
            else if c =? 115 then match ap with V_str t :: ap => consputs (default (str "(null)") t) ;;; kprintf_loop fmt ap | _ => fault end
            else if c =? 37 then consputc 37 ;;; kprintf_loop fmt ap
            else consputc 37 ;;; consputc c ;;; kprintf_loop fmt ap
        end
  end.
Definition kprintf (fmt : list Z) (ap : list varg) : M tty unit :=
  l <- gets pr_locking ;;
  when (negb (l =? 0)) (lift (acquire L_pr)) ;;;
  kprintf_loop fmt ap ;;;
  when (negb (l =? 0)) (lift (release L_pr)).

(** panic() never returns. *)
Definition kpanic {A} (msg : list Z) : M tty A :=
  modify (set_locking 0) ;;;
  kprintf (str "panic: ") [] ;;;
  kprintf msg [] ;;;
  kprintf [10] [] ;;;
  modify (set_panicked 1) ;;;
  fun s => Spin s.

Definition printfinit : M tty unit := lift (initlock L_pr) ;;; modify (set_locking 1).

(** ** procdump() of kernel/proc.c *)

(** What procdump() prints of a process: its state, pid and name. *)
Record pinfo := mkPinfo { pn_state : procstate; pn_pid : Z; pn_name : list Z }.
Definition state_name (x : procstate) : list Z :=
  match x with
  | UNUSED => str "unused" | USED => str "used" | SLEEPING => str "sleep " | RUNNABLE => str "runble"
  | RUNNING => str "run   " | ZOMBIE => str "zombie"
  end.
Definition procdump1 (p : pinfo) : M tty unit :=
  if decide (pn_state p = UNUSED) then ret tt
  else kprintf (str "%d %s %s") [V_int (pn_pid p); V_str (Some (state_name (pn_state p))); V_str (Some (pn_name p))] ;;; kprintf [10] [].
Definition procdump (ps : list pinfo) : M tty unit :=
  kprintf [10] [] ;;; fold_right (fun p k => procdump1 p ;;; k) (ret tt) ps.

(** ** The transmit buffer *)

Definition tx_len (s : tty) : Z := u64 (uart_tx_w s - uart_tx_r s).
(** The bytes in the buffer, oldest first. *)
Definition tx_queue (s : tty) : list Z := ring_list UART_TX_BUF_SIZE (uart_tx_buf s) (uart_tx_r s) (tx_len s).

Record uart_ok (s : tty) : Prop := {
  uo_buf : length (uart_tx_buf s) = 32%nat;
  uo_w : 0 <= uart_tx_w s < 2 ^ 64;
  uo_r : 0 <= uart_tx_r s < 2 ^ 64;
  uo_len : tx_len s <= UART_TX_BUF_SIZE;
  uo_bytes : Forall is_byte (uart_tx_buf s)
}.

Lemma uart_ok_tx s s' : uart_tx_buf s' = uart_tx_buf s -> uart_tx_w s' = uart_tx_w s -> uart_tx_r s' = uart_tx_r s -> uart_ok s -> uart_ok s'.
Proof. intros Eb Ew Er [H1 H2 H3 H4 H5]. split; unfold tx_len in *; rewrite ?Eb, ?Ew, ?Er; done. Qed.
Lemma tx_len_nonneg s : 0 <= tx_len s.
Proof. apply u64_range. Qed.
Lemma tx_empty s : uart_ok s -> (uart_tx_w s =? uart_tx_r s) = (tx_len s =? 0).
Proof.
  intros [_ Hw Hr _ _]. unfold tx_len.
  destruct (Z.eqb_spec (uart_tx_w s) (uart_tx_r s)), (Z.eqb_spec (u64 (uart_tx_w s - uart_tx_r s)) 0); try done; dlia.
Qed.
Lemma tx_full s : uart_ok s -> (uart_tx_w s =? u64 (uart_tx_r s + UART_TX_BUF_SIZE)) = (tx_len s =? UART_TX_BUF_SIZE).
Proof.
  intros [_ Hw Hr Hl _]. unfold tx_len, UART_TX_BUF_SIZE in *.
  destruct (Z.eqb_spec (uart_tx_w s) (u64 (uart_tx_r s + 32))), (Z.eqb_spec (u64 (uart_tx_w s - uart_tx_r s)) 32); try done; dlia.
Qed.
Lemma tx_bytes s : uart_ok s -> length (tx_queue s) = Z.to_nat (tx_len s).
Proof. intros H. pose proof (ring_length UART_TX_BUF_SIZE (uart_tx_buf s) (uart_tx_r s) (tx_len s) (tx_len_nonneg s)). unfold tx_queue. lia. Qed.

Lemma znth_Forall {A} (Q : A -> Prop) l i x : Forall Q l -> znth l i = Some x -> Q x.
Proof. unfold znth. intros H. case_match; [|done]. intros E. by eapply Forall_lookup_1. Qed.
Lemma zset_Forall {A} (Q : A -> Prop) l i x l' : Forall Q l -> Q x -> zset l i x = Some l' -> Forall Q l'.
Proof. unfold zset. intros H Hx. case_match; [|done]. intros [= <-]. by apply Forall_insert. Qed.

(** Taking a byte out. *)
Lemma tx_take s : uart_ok s -> 0 < tx_len s ->
  exists c, znth (uart_tx_buf s) (uart_tx_r s mod UART_TX_BUF_SIZE) = Some c /\ is_byte c /\
    let s' := set_tx (uart_tx_buf s) (uart_tx_w s) (u64 (uart_tx_r s + 1)) s in
    uart_ok s' /\ tx_queue s = c :: tx_queue s' /\ tx_len s' = tx_len s - 1.
Proof.
  intros [Hb Hw Hr Hl Hy] Hn. destruct (znth_is_Some (uart_tx_buf s) (uart_tx_r s mod UART_TX_BUF_SIZE)) as [c Ec]; [rewrite Hb; by apply Z.mod_pos_bound|].
  exists c. split; [done|]. split; [by eapply znth_Forall|]. intros s'.
  assert (tx_len s' = tx_len s - 1) as El by (unfold tx_len, s', UART_TX_BUF_SIZE in *; cbn; dlia).
  split_and!; [|unfold tx_queue; rewrite El; cbn; rewrite (ring_first _ (2 ^ 64)) by done; unfold ring_cell; by rewrite Ec|done].
  split; cbn; [done|done|apply u64_range|lia|done].
Qed.
(** Putting one in. *)
Lemma tx_put s c : uart_ok s -> is_byte c -> tx_len s < UART_TX_BUF_SIZE ->
  exists b, zset (uart_tx_buf s) (uart_tx_w s mod UART_TX_BUF_SIZE) c = Some b /\
    let s' := set_tx b (u64 (uart_tx_w s + 1)) (uart_tx_r s) s in
    uart_ok s' /\ tx_queue s' = tx_queue s ++ [c] /\ tx_len s' = tx_len s + 1.
Proof.
  intros [Hb Hw Hr Hl Hy] Hc Hn. pose proof (tx_len_nonneg s) as H0.
  assert (uart_tx_w s mod UART_TX_BUF_SIZE = (uart_tx_r s + tx_len s) mod UART_TX_BUF_SIZE) as Ei by (unfold tx_len, UART_TX_BUF_SIZE in *; dlia).
  destruct (ring_set UART_TX_BUF_SIZE (2 ^ 64) ltac:(done) ltac:(done) ltac:(done) (uart_tx_buf s) (uart_tx_r s) (tx_len s) c) as (b & E & Lb & Q); [by rewrite Hb|lia|].
  exists b. split; [by rewrite Ei|]. intros s'. assert (tx_len s' = tx_len s + 1) as El by (unfold tx_len, s', UART_TX_BUF_SIZE in *; cbn; dlia).
  split_and!; [|unfold tx_queue; rewrite El; exact Q|done]. split; cbn; [congruence|apply u64_range|done|lia|]. by eapply zset_Forall.
Qed.

(** ** What the driver's functions do *)

(** Only the transmit side and the wakeups differ. *)
Record same_tty (s s' : tty) : Prop := {
  st_panicked : panicked s' = panicked s;
  st_locking : pr_locking s' = pr_locking s;
  st_rx : ua_rx (tt_dev s') = ua_rx (tt_dev s);
  st_held : lk_held (tt_lk s') = lk_held (tt_lk s);
  st_wakeups : exists l, lk_wakeups (tt_lk s') = lk_wakeups (tt_lk s) ++ l
}.
Lemma same_tty_refl s : same_tty s s.
Proof. split; try done. exists []. by rewrite app_nil_r. Qed.
Lemma same_tty_trans s1 s2 s3 : same_tty s1 s2 -> same_tty s2 s3 -> same_tty s1 s3.
Proof. intros [? ? ? ? [l1 W1]] [? ? ? ? [l2 W2]]. split; try congruence. exists (l1 ++ l2). by rewrite W2, W1, app_assoc. Qed.

Definition sent (s : tty) : list Z := ua_sent (tt_dev s).

Lemma lsr_idle s : exists v, ReadLSR s = Ret v (set_dev (snd (lsr_read (tt_dev s))) s) /\
  (Z.land v LSR_TX_IDLE =? 0) = negb (Nat.eqb (ua_busy (tt_dev s)) 0) /\ (Z.land v 1 =? 0) = match ua_rx (tt_dev s) with [] => true | _ => false end.
Proof. eexists. split; [reflexivity|]. by destruct (ua_busy (tt_dev s)), (ua_rx (tt_dev s)). Qed.

(** What uartstart() did: it sent [out]. *)
Record started (s : tty) (out : list Z) (s' : tty) : Prop := {
  sd_ok : uart_ok s';
  sd_queue : tx_queue s = out ++ tx_queue s';
  sd_sent : sent s' = sent s ++ out;
  sd_same : same_tty s s';
  sd_woken : out <> [] -> chan_tx_r ∈ lk_wakeups (tt_lk s')
}.

Lemma uartstart_loop_ok n s : uart_ok s -> tx_len s = Z.of_nat n ->
  exists out s', uartstart_loop (S n) s = Ret tt s' /\ started s out s' /\ (ua_busy (tt_dev s) = 0%nat -> tx_queue s <> [] -> out <> []).
Proof.
  revert s. induction n as [|n IH]; intros s Ho Hn; cbn [uartstart_loop]; rewrite !bind_gets, tx_empty by done.
  - rewrite Hn. exists [], s. split; [done|]. split; [split; try done; [by rewrite app_nil_r|apply same_tty_refl]|].
    intros _ Hq. destruct Hq. apply nil_length_inv. by rewrite tx_bytes, Hn.
  - rewrite (proj2 (Z.eqb_neq (tx_len s) 0)) by lia. destruct (lsr_idle s) as (v & E & Ev & _). rewrite (bind_Ret _ _ _ _ _ E), Ev. clear E Ev.
    destruct (ua_busy (tt_dev s)) as [|d] eqn:Eb; cbn [Nat.eqb negb].
    + destruct (tx_take s Ho ltac:(lia)) as (c & Ec & Hc & Ho1 & Q1 & L1). rewrite bind_gets. cbn [uart_tx_buf set_dev]. rewrite Ec. cbn [bind modify].
      set (s1 := set_tx (uart_tx_buf s) (uart_tx_w s) (u64 (uart_tx_r s + 1)) s) in *.
      set (s2 := set_dev (thr_write (u8 c) (tt_dev (set_dev (snd (lsr_read (tt_dev s))) s))) (set_tlk (mkLk (lk_held (tt_lk s)) (lk_sleep (tt_lk s)) (lk_pid (tt_lk s)) (lk_wakeups (tt_lk s) ++ [chan_tx_r])) s1)).
      assert (sent s2 = sent s ++ [c]) as Es by (unfold s2, sent; cbn; unfold thr_write; cbn; rewrite Eb; cbn; by rewrite u8_small).
      assert (same_tty s s2) as Hs by (split; try done; [unfold s2; cbn; unfold thr_write; cbn; by rewrite Eb|by eexists]).
      destruct (IH s2) as (out & s' & E & [Ho' Q' S' T' W'] & _); [by apply (uart_ok_tx s1)|unfold tx_len in *; cbn in *; lia|].
      exists (c :: out), s'. split; [exact E|]. split; [|done]. split; [done| | |by eapply same_tty_trans|].
      * rewrite Q1. cbn. f_equal. exact Q'.
      * by rewrite S', Es, <- app_assoc.
      * intros _. destruct (st_wakeups _ _ T') as [l ->]. cbn. set_solver.
    + exists [], (set_dev (snd (lsr_read (tt_dev s))) s). split; [done|]. split; [|done]. split; try done; [by apply (uart_ok_tx s)|by rewrite app_nil_r|]. split; try done. exists []. by rewrite app_nil_r.
Qed.

Lemma uartstart_ok s : uart_ok s ->
  exists out s', uartstart s = Ret tt s' /\ started s out s' /\ (ua_busy (tt_dev s) = 0%nat -> tx_queue s <> [] -> out <> []).
Proof.
  intros Ho. unfold uartstart. rewrite bind_gets. apply uartstart_loop_ok; [done|]. pose proof (tx_len_nonneg s). unfold tx_len in *. lia.
Qed.

Lemma tl_lk {A} (c : M lkst A) s a k : c (tt_lk s) = Ret a k -> lift c s = Ret a (set_tlk k s).
Proof. intros H. unfold lift. cbn. by rewrite H. Qed.
Lemma tl_acquire l s : l ∉ lk_held (tt_lk s) -> lift (acquire l) s = Ret tt (set_tlk (set_lk_held (l :: lk_held (tt_lk s)) (tt_lk s)) s).
Proof. intros H. by apply tl_lk, lk_acquire_ok. Qed.
Lemma tl_release l h s : lk_held (tt_lk s) = l :: h -> l ∉ h -> lift (release l) s = Ret tt (set_tlk (set_lk_held h (tt_lk s)) s).
Proof. intros H Hn. by apply tl_lk, lk_release_ok. Qed.

(** What a call sent, given what it added to the buffer. *)
Record sent_from (s : tty) (put out : list Z) (s' : tty) : Prop := {
  sf_ok : uart_ok s';
  sf_queue : tx_queue s ++ put = out ++ tx_queue s';
  sf_sent : sent s' = sent s ++ out;
  sf_same : same_tty s s'
}.

Lemma uartputc_ok c s : uart_ok s -> panicked s = 0 -> L_uart ∉ lk_held (tt_lk s) ->
  (exists out s', uartputc c s = Ret tt s' /\ sent_from s [u8 c] out s') \/
  (tx_len s = UART_TX_BUF_SIZE /\ exists s', uartputc c s = Blocked chan_tx_r s' /\ sent_from s [] [] s').
Proof.
  intros Ho Hp Hl. unfold uartputc. rewrite (bind_Ret _ _ _ _ _ (tl_acquire _ _ Hl)), bind_gets. set (s1 := set_tlk _ s).
  change (panicked s1) with (panicked s). rewrite Hp. cbn [Z.eqb negb]. unfold uartputc_body. rewrite !bind_gets.
  change (uart_tx_w s1) with (uart_tx_w s). change (uart_tx_r s1) with (uart_tx_r s). rewrite tx_full by done.
  assert (uart_ok s1) as Ho1 by (by apply (uart_ok_tx s)). destruct (Z.eqb_spec (tx_len s) UART_TX_BUF_SIZE) as [E|E].
  - right. split; [done|]. unfold sleep, lift. cbn [view tty_lk]. rewrite (bind_Ret _ _ _ _ _ (lk_release_ok L_uart (lk_held (tt_lk s)) (tt_lk s1) eq_refl Hl)).
    eexists. split; [reflexivity|]. split; cbn; [by apply (uart_ok_tx s)|by rewrite app_nil_r|by rewrite app_nil_r|].
    split; try done. exists []. by rewrite app_nil_r.
  - left. rewrite bind_gets. change (uart_tx_buf s1) with (uart_tx_buf s). pose proof (uo_len s Ho) as Hle.
    destruct (tx_put s1 (u8 c) Ho1 (u8_range c) ltac:(change (tx_len s1) with (tx_len s); lia)) as (b & Eb & Ho2 & Q2 & _).
    change (uart_tx_buf s1) with (uart_tx_buf s) in Eb. change (uart_tx_w s1) with (uart_tx_w s) in Eb. rewrite Eb.
    rewrite (bind_Ret (modify _) _ _ tt (set_tx b (u64 (uart_tx_w s + 1)) (uart_tx_r s) s1)) by done. set (s2 := set_tx _ _ _ s1) in *.
    destruct (uartstart_ok s2 Ho2) as (out & s3 & E3 & [O3 Q3 S3 T3 W3] & _). rewrite (bind_Ret _ _ _ _ _ E3).
    rewrite (tl_release L_uart (lk_held (tt_lk s))) by (done || by rewrite (st_held _ _ T3)).
    exists out. eexists. split; [reflexivity|]. destruct T3 as [T1 T2 T4 T5 T6]. split; cbn; [by apply (uart_ok_tx s3)|by rewrite Q2 in Q3|exact S3|by split].
Qed.

Lemma wait_idle_ok n s : ua_busy (tt_dev s) = n ->
  wait_idle (S n) s = Ret tt (set_dev (mkUart (ua_rx (tt_dev s)) (ua_sent (tt_dev s)) 0 (ua_delays (tt_dev s)) (ua_setup (tt_dev s))) s).
Proof.
  assert (forall k s, wait_idle (S k) s = bind ReadLSR (fun v => if Z.land v LSR_TX_IDLE =? 0 then wait_idle k else ret tt) s) as Hw by done.
  revert s. induction n as [|n IH]; intros s Hb; rewrite Hw; destruct (lsr_idle s) as (v & E & Ev & _); rewrite (bind_Ret _ _ _ _ _ E), Ev, Hb; cbn [Nat.eqb negb].
  - unfold lsr_read. cbn. by rewrite Hb.
  - rewrite IH; [done|]. cbn. by rewrite Hb.
Qed.
Lemma uartputc_sync_ok c s : panicked s = 0 -> exists s', uartputc_sync c s = Ret tt s' /\ sent s' = sent s ++ [u8 c] /\ same_tty s s' /\
  uart_tx_buf s' = uart_tx_buf s /\ uart_tx_w s' = uart_tx_w s /\ uart_tx_r s' = uart_tx_r s /\ tt_lk s' = tt_lk s.
Proof.
  intros Hp. unfold uartputc_sync. rewrite bind_gets, Hp. cbn [Z.eqb negb]. rewrite bind_gets, (bind_Ret _ _ _ _ _ (wait_idle_ok _ s eq_refl)).
  eexists. split; [reflexivity|]. split_and!; try done. split; try done. exists []. by rewrite app_nil_r.
Qed.

(** The end of uartintr(), when the device may take more. *)
Definition uartintr_send : M tty unit := lift (acquire L_uart) ;;; uartstart ;;; lift (release L_uart).

Lemma uartintr_send_ok s : uart_ok s -> L_uart ∉ lk_held (tt_lk s) ->
  exists out s', uartintr_send s = Ret tt s' /\ sent_from s [] out s' /\ (ua_busy (tt_dev s) = 0%nat -> tx_queue s <> [] -> out <> []) /\
    (out <> [] -> chan_tx_r ∈ lk_wakeups (tt_lk s')).
Proof.
  intros Ho Hl. unfold uartintr_send. rewrite (bind_Ret _ _ _ _ _ (tl_acquire _ _ Hl)). set (s1 := set_tlk _ s).
  destruct (uartstart_ok s1) as (out & s2 & E2 & [O2 Q2 S2 T2 W2] & B2); [by apply (uart_ok_tx s)|]. rewrite (bind_Ret _ _ _ _ _ E2).
  rewrite (tl_release L_uart (lk_held (tt_lk s))) by (done || by rewrite (st_held _ _ T2)).
  exists out. eexists. split; [reflexivity|]. split; [|by split]. destruct T2 as [T1 T3 T4 T5 T6].
  split; cbn; [by apply (uart_ok_tx s2)|by rewrite app_nil_r|exact S2|by split].
Qed.

(** ** Runs of the driver *)

(** A process writes a byte, or tries to; the kernel prints one; the device
    interrupts; time passes and the device becomes idle. *)
Inductive act := Putc (c : Z) | Sync (c : Z) | Intr | Tick.
Definition tick (s : tty) : tty :=
  let d := tt_dev s in set_dev (mkUart (ua_rx d) (ua_sent d) 0 (ua_delays d) (ua_setup d)) s.

(** The state after, the bytes write() accepted, and those printf() did. *)
Definition do_act (a : act) (s : tty) : option (tty * list Z * list Z) :=
  match a with
  | Putc c => match uartputc c s with Ret _ s => Some (s, [u8 c], []) | Blocked _ s => Some (s, [], []) | _ => None end
  | Sync c => match uartputc_sync c s with Ret _ s => Some (s, [], [u8 c]) | _ => None end
  | Intr => match uartintr_send s with Ret _ s => Some (s, [], []) | _ => None end
  | Tick => Some (tick s, [], [])
  end.
Fixpoint do_acts (l : list act) (s : tty) : option (tty * list Z * list Z) :=
  match l with
  | [] => Some (s, [], [])
  | a :: l =>
      match do_act a s with
      | Some (s, p, q) => match do_acts l s with Some (s, p', q') => Some (s, p ++ p', q ++ q') | None => None end
      | None => None
      end
  end.

(** [l] is the lists [l1] and [l2], each in its order. *)
Inductive merge : list Z -> list Z -> list Z -> Prop :=
  | merge_nil : merge [] [] []
  | merge_l x l1 l2 l : merge l1 l2 l -> merge (x :: l1) l2 (x :: l)
  | merge_r x l1 l2 l : merge l1 l2 l -> merge l1 (x :: l2) (x :: l).
Lemma merge_app l1 l2 l l1' l2' l' : merge l1 l2 l -> merge l1' l2' l' -> merge (l1 ++ l1') (l2 ++ l2') (l ++ l').
Proof. intros H H'. induction H; cbn; [done|by constructor|by constructor]. Qed.
Lemma merge_left l : merge l [] l.
Proof. induction l; by constructor. Qed.
Lemma merge_right l : merge [] l l.
Proof. induction l; by constructor. Qed.

(** Between two actions. *)
Record at_rest (s : tty) : Prop := { ar_ok : uart_ok s; ar_panicked : panicked s = 0; ar_held : L_uart ∉ lk_held (tt_lk s) }.

Lemma at_rest_same s s' : uart_ok s' -> same_tty s s' -> at_rest s -> at_rest s'.
Proof. intros Ho [? ? ? ? ?] [? ? ?]. split; [done|congruence|congruence]. Qed.

Lemma do_act_ok a s : at_rest s -> exists s' p q out l, do_act a s = Some (s', p, q) /\ at_rest s' /\
  tx_queue s ++ p = out ++ tx_queue s' /\ sent s' = sent s ++ l /\ merge out q l.
Proof.
  intros R. pose proof R as [Ho Hp Hl]. destruct a as [c|c| |]; cbn [do_act].
  - destruct (uartputc_ok c s Ho Hp Hl) as [(out & s' & E & [O Q Se T])|(_ & s' & E & [O Q Se T])]; rewrite E.
    + exists s', [u8 c], [], out, out. split_and!; try done; [by eapply at_rest_same|apply merge_left].
    + exists s', [], [], [], []. split_and!; try done; [by eapply at_rest_same|constructor].
  - destruct (uartputc_sync_ok c s Hp) as (s' & E & Se & T & Eb & Ew & Er & _). rewrite E. exists s', [], [u8 c], [], [u8 c].
    split_and!; try done; [eapply at_rest_same; [by apply (uart_ok_tx s)|done|done]| |apply merge_right].
    unfold tx_queue, tx_len. by rewrite Eb, Ew, Er, app_nil_r.
  - destruct (uartintr_send_ok s Ho Hl) as (out & s' & E & [O Q Se T] & _). rewrite E. exists s', [], [], out, out.
    split_and!; try done; [by eapply at_rest_same|apply merge_left].
  - exists (tick s), [], [], [], []. split_and!; try done; [by split; [apply (uart_ok_tx s)|..]|by rewrite app_nil_r|by rewrite app_nil_r|constructor].
Qed.

Lemma do_acts_ok l s : at_rest s -> exists s' p q out o, do_acts l s = Some (s', p, q) /\ at_rest s' /\
  tx_queue s ++ p = out ++ tx_queue s' /\ sent s' = sent s ++ o /\ merge out q o.
Proof.
  revert s. induction l as [|a l IH]; intros s R; cbn [do_acts].
  - exists s, [], [], [], []. split_and!; try done; [by rewrite app_nil_r|by rewrite app_nil_r|constructor].
  - destruct (do_act_ok a s R) as (s1 & p1 & q1 & o1 & l1 & E1 & R1 & Q1 & S1 & M1). rewrite E1.
    destruct (IH s1 R1) as (s2 & p2 & q2 & o2 & l2 & E2 & R2 & Q2 & S2 & M2). rewrite E2.
    exists s2, (p1 ++ p2), (q1 ++ q2), (o1 ++ o2), (l1 ++ l2). split_and!; try done.
    + by rewrite app_assoc, Q1, <- !app_assoc, Q2.
    + by rewrite S2, S1, app_assoc.
    + by apply merge_app.
Qed.

(** Interrupts empty the buffer. *)
Lemma drain n s : at_rest s -> (length (tx_queue s) <= n)%nat ->
  exists s', do_acts (concat (replicate n [Tick; Intr])) s = Some (s', [], []) /\ tx_queue s' = [].
Proof.
  revert s. induction n as [|n IH]; intros s R Hn.
  - exists s. split; [done|]. apply nil_length_inv. lia.
  - cbn [replicate concat app do_acts do_act]. assert (at_rest (tick s)) as R1 by (destruct R; by split; [apply (uart_ok_tx s)|..]).
    destruct (uartintr_send_ok (tick s) (ar_ok _ R1) (ar_held _ R1)) as (out & s2 & E & [O Q Se T] & B & _). rewrite E.
    assert (at_rest s2) as R2 by (by eapply at_rest_same). rewrite app_nil_r in Q. change (tx_queue (tick s)) with (tx_queue s) in *.
    destruct (IH s2 R2) as (s' & E' & Q').
    { destruct (tx_queue s) as [|x l] eqn:Eq; [destruct out; [|done]; cbn in Q; rewrite <- Q; cbn; lia|]. specialize (B eq_refl ltac:(done)).
      apply (f_equal length) in Q. rewrite length_app in Q. cbn in Q, Hn. destruct out; [done|]. cbn in Q. lia. }
    rewrite E'. by exists s'.
Qed.

(** C16: the UART driver loses, repeats and reorders nothing.  In any sequence of
    writes by processes, prints by the kernel, interrupts and device delays,
    from an empty buffer, no call panics; the bytes write() accepted are those
    the device has sent for it followed by the at most 32 in the buffer; the
    device's output is these and the bytes printed, each in their order; and 32
    interrupts of an idle device are enough to send all that is left. *)
Theorem uart_transmits acts s : at_rest s -> tx_queue s = [] ->
  exists s' written printed out tx, do_acts acts s = Some (s', written, printed) /\ sent s' = sent s ++ out /\
    written = tx ++ tx_queue s' /\ merge tx printed out /\ (length (tx_queue s') <= 32)%nat /\
    exists s2, do_acts (concat (replicate 32 [Tick; Intr])) s' = Some (s2, [], []) /\ tx_queue s2 = [].
Proof.
  intros R H0. destruct (do_acts_ok acts s R) as (s' & p & q & out & o & E & R' & Q & Se & Mo). rewrite H0 in Q. cbn in Q.
  assert (length (tx_queue s') <= 32)%nat as Hlen.
  { rewrite tx_bytes by apply R'. pose proof (uo_len s' (ar_ok _ R')) as Hl. unfold UART_TX_BUF_SIZE in Hl. lia. }
  destruct (drain 32 s' R' Hlen) as (s2 & E2 & Q2). exists s', p, q, o, out. split_and!; try done. by exists s2.
Qed.

Definition tty0 : tty := mkTty (replicate 32 0) 0 0 0 1 (mkUart [] [] 0 [2; 1; 0; 4]%nat []) (mkLk [] (fun _ => mkSleeplock 0 0) 1 []).
(** Three bytes are written and one printed: the device has sent the first byte
    and the printed one. *)
Lemma uart_transmits_witness : exists s' written out,
  do_acts [Putc 104; Putc 105; Sync 42; Putc 10] tty0 = Some (s', written, [42]) /\ sent s' = out /\ out = [104; 42] /\ tx_queue s' = [105; 10].
Proof.
  destruct (uart_transmits [Putc 104; Putc 105; Sync 42; Putc 10] tty0) as (s' & w & p & o & tx & E & Se & _).
  - split; [split; [reflexivity|..]|reflexivity|apply not_elem_of_nil].
    + cbn. lia.
    + cbn. lia.
    + vm_compute. discriminate.
    + apply Forall_replicate. unfold is_byte. lia.
  - reflexivity.
  - vm_compute in E. injection E as <- <- <-. eexists _, _, _. split; [vm_compute; reflexivity|]. split; [reflexivity|]. split; reflexivity.
Defined.

(** ** What the kernel's printf prints *)

(** [prints Q l c]: where the locks held satisfy [Q], [c] returns, having sent
    [l] and changed nothing but the device. *)
Definition prints (Q : list klock -> Prop) (l : list Z) (c : M tty unit) : Prop := forall s, panicked s = 0 -> Q (lk_held (tt_lk s)) ->
  exists s', c s = Ret tt s' /\ sent s' = sent s ++ l /\ same_tty s s' /\
    uart_tx_buf s' = uart_tx_buf s /\ uart_tx_w s' = uart_tx_w s /\ uart_tx_r s' = uart_tx_r s /\ tt_lk s' = tt_lk s.
Definition any_locks (h : list klock) : Prop := True.
Definition no_pr (h : list klock) : Prop := L_pr ∉ h.
Abbreviation puts_out := (prints any_locks).

Lemma prints_ret Q : prints Q [] (ret tt).
Proof. intros s Hp Hl. exists s. split_and!; try done; [by rewrite app_nil_r|apply same_tty_refl]. Qed.
Lemma prints_seq Q l1 l2 (c1 c2 : M tty unit) : prints Q l1 c1 -> prints Q l2 c2 -> prints Q (l1 ++ l2) (c1 ;;; c2).
Proof.
  intros H1 H2 s Hp Hl. destruct (H1 s Hp Hl) as (s1 & E1 & S1 & T1 & B1 & W1 & R1 & L1).
  destruct (H2 s1) as (s2 & E2 & S2 & T2 & B2 & W2 & R2 & L2); [by rewrite (st_panicked _ _ T1)|by rewrite L1|].
  exists s2. rewrite (bind_Ret _ _ _ _ _ E1). split_and!; try congruence; [by rewrite S2, S1, app_assoc|by eapply same_tty_trans].
Qed.
Lemma prints_sync c : is_byte c -> puts_out [c] (uartputc_sync c).
Proof. intros Hc s Hp Hl. destruct (uartputc_sync_ok c s Hp) as (s' & E & Se & ?). rewrite u8_small in Se by done. exists s'. done. Qed.
Lemma prints_consputc c : is_byte c -> puts_out [c] (consputc c).
Proof. intros Hc. unfold consputc, is_byte, BACKSPACE in *. rewrite (proj2 (Z.eqb_neq c 256)) by lia. by apply prints_sync. Qed.
Lemma prints_backspace : puts_out [8; 32; 8] (consputc BACKSPACE).
Proof. unfold consputc. cbn [Z.eqb BACKSPACE]. apply (prints_seq _ [8]); [by apply prints_sync|]. apply (prints_seq _ [32]); by apply prints_sync. Qed.
Lemma prints_consputs l : Forall is_byte l -> puts_out l (consputs l).
Proof. induction 1 as [|c l Hc Hl IH]; [apply prints_ret|]. apply (prints_seq _ [c]); [by apply prints_consputc|done]. Qed.

Create HintDb prints.
#[export] Hint Resolve prints_ret prints_seq prints_consputc prints_consputs : prints.

(** printint() puts_out what the user library's prints, in lower case. *)
Definition lower (d : Z) : Z := if (65 <=? d) && (d <=? 70) then d + 32 else d.
Lemma lower_digit v : znth kdigits v = option_map lower (znth digits v).
Proof.
  unfold znth. destruct (0 <=? v); [|done]. replace kdigits with (map lower digits) by reflexivity. apply list_lookup_fmap.
Qed.
Lemma kprintint_loop_lower fuel x base buf : kprintint_loop fuel x base (map lower buf) = option_map (map lower) (printint_loop fuel x base buf).
Proof.
  revert x buf. induction fuel as [|fuel IH]; intros x buf; [done|]. cbn [kprintint_loop printint_loop]. rewrite length_map, lower_digit.
  destruct (16 <=? _); [done|]. destruct (znth digits (x mod base)) as [d|]; [|done]. cbn [option_map]. destruct (x / base =? 0); [done|]. apply (IH _ (d :: buf)).
Qed.
Lemma kprintint_lower xx base sgn : kprintint_buf xx base sgn = option_map (map lower) (printint_buf xx base sgn).
Proof.
  unfold kprintint_buf, printint_buf. rewrite (kprintint_loop_lower 33 _ base []). destruct (printint_loop _ _ _ _) as [l|]; [|done]. cbn [option_map].
  rewrite length_map. destruct (sgn && (xx <? 0)); [|done]. by destruct (16 <=? _).
Qed.
Lemma lower_byte l : Forall is_byte l -> Forall is_byte (map lower l).
Proof. intros H. apply Forall_fmap. eapply Forall_impl; [exact H|]. intros d Hd. cbn. unfold lower, is_byte in *. destruct (Z.leb_spec 65 d), (Z.leb_spec d 70); cbn; lia. Qed.

(** The text of a signed number. *)
Definition number (base x : Z) : list Z := default [] (kprintint_buf x base true).
Lemma prints_number base x : base = 10 \/ base = 16 -> - 2 ^ 31 <= x < 2 ^ 31 -> puts_out (number base x) (kprintint x base true) /\
  exists l, number base x = (if x <? 0 then [45] else []) ++ map lower l /\ numeral base (Z.abs x) l.
Proof.
  intros Hb Hx. unfold number, kprintint. rewrite kprintint_lower. destruct (printint_buf_ok x base true Hb Hx) as (l & -> & Hn & _ & By). cbn [option_map default].
  cbn [andb] in *. split.
  - apply prints_consputs, lower_byte, Forall_app. split; [|done]. destruct (x <? 0); repeat constructor; unfold is_byte; lia.
  - exists l. split; [by rewrite map_app; destruct (x <? 0)|]. destruct (Z.ltb_spec x 0); [by rewrite Z.abs_neq by lia|]. rewrite u32_small in Hn by lia. by rewrite Z.abs_eq by lia.
Qed.

Definition is_text (l : list Z) : Prop := Forall (fun c => is_byte c /\ c <> 37) l.
Lemma prints_text l fmt ap t : is_text l -> puts_out t (kprintf_loop fmt ap) -> puts_out (l ++ t) (kprintf_loop (l ++ fmt) ap).
Proof.
  intros Hl Ht. induction Hl as [|c l [Hc Hp] Hl IH]; [done|]. cbn [app kprintf_loop]. rewrite (proj2 (Z.eqb_neq c 37)) by done. cbn [negb].
  apply (prints_seq _ [c]); [by apply prints_consputc|done].
Qed.
Lemma prints_d x fmt ap t : puts_out t (kprintf_loop fmt ap) -> puts_out (number 10 (s32 x) ++ t) (kprintf_loop (37 :: 100 :: fmt) (V_int x :: ap)).
Proof. intros Ht. cbn [kprintf_loop Z.eqb negb]. apply prints_seq; [|done]. apply prints_number; [by left|]. unfold s32. dlia. Qed.
Lemma prints_s l fmt ap t : Forall is_byte l -> puts_out t (kprintf_loop fmt ap) -> puts_out (l ++ t) (kprintf_loop (37 :: 115 :: fmt) (V_str (Some l) :: ap)).
Proof. intros Hl Ht. cbn [kprintf_loop Z.eqb negb default]. apply prints_seq; [by apply prints_consputs|done]. Qed.

Lemma set_lk_held_back h k : set_lk_held (lk_held k) (set_lk_held h k) = k.
Proof. by destruct k. Qed.
Lemma prints_kprintf fmt ap l : puts_out l (kprintf_loop fmt ap) -> prints no_pr l (kprintf fmt ap).
Proof.
  intros H s Hp Hl. unfold kprintf. rewrite bind_gets. destruct (negb (pr_locking s =? 0)) eqn:El; cbn [when].
  - rewrite (bind_Ret _ _ _ _ _ (tl_acquire _ _ Hl)). set (s1 := set_tlk _ s). destruct (H s1 Hp Logic.I) as (s2 & E & Se & [T1 T2 T3 T4 T5] & B & W & R & L).
    rewrite (bind_Ret _ _ _ _ _ E). rewrite (tl_release L_pr (lk_held (tt_lk s))) by (done || by rewrite L).
    eexists. split; [reflexivity|]. rewrite L. unfold s1. cbn [tt_lk set_tlk]. rewrite set_lk_held_back. split_and!; try done. split; try done. exists []. by rewrite app_nil_r.
  - rewrite (bind_Ret (ret tt) _ _ tt s) by done. destruct (H s Hp Logic.I) as (s' & E & R). exists s'. rewrite (bind_Ret _ _ _ _ _ E). done.
Qed.

(** ** procdump() *)

Definition dump_line (p : pinfo) : list Z :=
  if decide (pn_state p = UNUSED) then []
  else number 10 (s32 (pn_pid p)) ++ [32] ++ state_name (pn_state p) ++ [32] ++ pn_name p ++ [10].
Lemma state_name_bytes x : Forall is_byte (state_name x).
Proof. destruct x; repeat constructor; unfold is_byte; lia. Qed.

Lemma prints_procdump ps : Forall (fun p => Forall is_byte (pn_name p)) ps -> prints no_pr ([10] ++ concat (map dump_line ps)) (procdump ps).
Proof.
  assert (prints no_pr [10] (kprintf [10] [])) as Hn.
  { apply prints_kprintf. apply (prints_text [10] [] [] []); [|apply prints_ret]. repeat constructor; unfold is_byte; lia. }
  intros H. unfold procdump. apply prints_seq; [done|]. induction H as [|p ps Hp Hps IH]; [apply prints_ret|]. cbn [fold_right map concat].
  apply prints_seq; [|done]. unfold procdump1, dump_line. case_decide; [apply prints_ret|].
  rewrite !app_assoc. apply prints_seq; [|done]. rewrite <- !app_assoc. apply prints_kprintf.
  change (str "%d %s %s") with (37 :: 100 :: [32] ++ (37 :: 115 :: [32] ++ (37 :: 115 :: []))).
  apply prints_d. apply prints_text; [repeat constructor; unfold is_byte; lia|]. apply prints_s; [apply state_name_bytes|].
  apply prints_text; [repeat constructor; unfold is_byte; lia|]. rewrite <- (app_nil_r (pn_name p)) at 1. apply prints_s; [done|]. apply prints_ret.
Qed.
