(* ===== verification/Console.v ===== *)
(** * kernel/console.c

    The console's input buffer is a ring of INPUT_BUF_SIZE bytes with three
    free-running 32-bit counters: bytes from [r] to [w] may be read, those from
    [w] to [e] are the line being edited.  consoleread() sleeps while there is
    nothing to read; what it keeps across the sleep (its [n] and [dst], and
    consolewrite()'s [i]) is part of the state, and the process goes on with
    [consoleread_resume].  [co_cbuf] is the address of the local byte that is
    copied from or to the user. *)
From stdpp Require Import strings.
From S2P Require Import Prelude Mem StringC Kalloc Page Vm Locks Pipe Ring Sched User Uart.
From Stdlib Require Import ZArith Lia.
Local Open Scope list_scope.
Local Open Scope Z_scope.
Local Open Scope kernel_scope.

Definition INPUT_BUF_SIZE : Z := 128.
(** [C(x)] *)
Definition Ctrl (x : Z) : Z := x - 64.

Record cst := mkCst {
  co_buf : list Z; co_r : Z; co_w : Z; co_e : Z; co_tty : tty; co_phys : phys; co_pagetable : Z; co_killed : bool;
  co_cbuf : Z; co_n : Z; co_dst : Z; co_i : Z; co_procs : list pinfo
}.

Definition set_ring (b : list Z) (r w e : Z) (s : cst) : cst :=
  mkCst b r w e (co_tty s) (co_phys s) (co_pagetable s) (co_killed s) (co_cbuf s) (co_n s) (co_dst s) (co_i s) (co_procs s).
Definition set_ctty (t : tty) (s : cst) : cst :=
  mkCst (co_buf s) (co_r s) (co_w s) (co_e s) t (co_phys s) (co_pagetable s) (co_killed s) (co_cbuf s) (co_n s) (co_dst s) (co_i s) (co_procs s).
Definition set_cphys (h : phys) (s : cst) : cst :=
  mkCst (co_buf s) (co_r s) (co_w s) (co_e s) (co_tty s) h (co_pagetable s) (co_killed s) (co_cbuf s) (co_n s) (co_dst s) (co_i s) (co_procs s).
Definition set_locals (n dst : Z) (s : cst) : cst :=
  mkCst (co_buf s) (co_r s) (co_w s) (co_e s) (co_tty s) (co_phys s) (co_pagetable s) (co_killed s) (co_cbuf s) n dst (co_i s) (co_procs s).
Definition set_ci (i : Z) (s : cst) : cst :=
  mkCst (co_buf s) (co_r s) (co_w s) (co_e s) (co_tty s) (co_phys s) (co_pagetable s) (co_killed s) (co_cbuf s) (co_n s) (co_dst s) i (co_procs s).

#[export] Instance cst_tty : Lens cst tty.
Proof. refine {| view := co_tty; update := set_ctty |}; [done|by intros []|done]. Defined.
#[export] Instance cst_phys : Lens cst phys.
Proof. refine {| view := co_phys; update := set_cphys |}; [done|by intros []|done]. Defined.
#[export] Instance cst_lk : Lens cst lkst.
Proof. refine {| view := fun s => tt_lk (co_tty s); update := fun k s => set_ctty (set_tlk k (co_tty s)) s |}; [done|by intros [? ? ? ? []]|done]. Defined.

Definition chan_cons : Z := 0x30002.

(** either_copyin() and either_copyout() of kernel/proc.c. *)
Definition cons_copyin (dst : Z) (user_src : bool) (src len : Z) : M cst Z :=
  if user_src then pt <- gets co_pagetable ;; lift (copyin pt dst src len)
  else lift (setmem (fun m => memmove m dst src len)) ;;; ret 0.
Definition cons_copyout (user_dst : bool) (dst src len : Z) : M cst Z :=
  if user_dst then pt <- gets co_pagetable ;; lift (copyout pt dst src len)
  else lift (setmem (fun m => memmove m dst src len)) ;;; ret 0.

(** ** write *)

(** The loop of consolewrite from [i] on, one turn per byte. *)
Fixpoint consolewrite_loop (fuel : nat) (user_src : bool) (src n : Z) : M cst Z :=
  match fuel with
  | O => fun s => Spin s
  | S fuel =>
      i <- gets co_i ;;
      if negb (i <? n) then ret i
      else
        a <- gets co_cbuf ;;
        r <- cons_copyin a user_src (u64 (src + i)) 1 ;;
        if r =? -1 then ret i
        else
          c <- lift (getmem (fun m => m a)) ;;
          lift (uartputc c) ;;;
          modify (set_ci (i + 1)) ;;;
          consolewrite_loop fuel user_src src n
  end.
Definition consolewrite (user_src : bool) (src n : Z) : M cst Z :=
  modify (set_ci 0) ;;; consolewrite_loop (S (Z.to_nat n)) user_src src n.
(** After uartputc() slept. *)
Definition consolewrite_resume (user_src : bool) (src n : Z) : M cst Z :=
  i <- gets co_i ;;
  a <- gets co_cbuf ;;
  c <- lift (getmem (fun m => m a)) ;;
  lift (uartputc_resume c) ;;;
  modify (set_ci (i + 1)) ;;;
  consolewrite_loop (S (Z.to_nat (n - i))) user_src src n.

(** ** read *)

(** The loop of consoleread; [false] is the return of -1. *)
Fixpoint consoleread_loop (fuel : nat) (user_dst : bool) (target : Z) : M cst bool :=
  match fuel with
  | O => fun s => Spin s
  | S fuel =>
      n <- gets co_n ;;
      if negb (0 <? n) then ret true
      else
        r <- gets co_r ;;
        w <- gets co_w ;;
        if r =? w then
          k <- gets co_killed ;;
          if k then lift (release L_cons) ;;; ret false
          else lift (sleep chan_cons L_cons)
        else
          b <- gets co_buf ;;
          e <- gets co_e ;;
          match znth b (r mod INPUT_BUF_SIZE) with
          | None => fault
          | Some c =>
              modify (set_ring b (u32 (r + 1)) w e) ;;;
              if c =? Ctrl 68 then
                when (u32 n <? target) (modify (set_ring b r w e)) ;;; ret true
              else
                a <- gets co_cbuf ;;
                dst <- gets co_dst ;;
                lift (setmem (fun m => st8 m a c)) ;;;
                x <- cons_copyout user_dst dst a 1 ;;
                if x =? -1 then ret true
                else
                  modify (set_locals (n - 1) (u64 (dst + 1))) ;;;
                  if c =? 10 then ret true else consoleread_loop fuel user_dst target
          end
  end.
Definition consoleread_resume (user_dst : bool) (target : Z) : M cst Z :=
  lift (acquire L_cons) ;;;
  n <- gets co_n ;;
  ok <- consoleread_loop (S (Z.to_nat n)) user_dst target ;;
  if ok then lift (release L_cons) ;;; n <- gets co_n ;; ret (s32 (target - n)) else ret (-1).
Definition consoleread (user_dst : bool) (dst n : Z) : M cst Z :=
  modify (set_locals n dst) ;;; consoleread_resume user_dst (u32 n).

(** ** The interrupt *)

(** The loop of ^U, one turn per byte of the line. *)
Fixpoint kill_line (fuel : nat) : M cst unit :=
  match fuel with
  | O => fun s => Spin s
  | S fuel =>
      b <- gets co_buf ;; r <- gets co_r ;; w <- gets co_w ;; e <- gets co_e ;;
      if e =? w then ret tt
      else
        match znth b (u32 (e - 1) mod INPUT_BUF_SIZE) with
        | None => fault
        | Some c =>
            if c =? 10 then ret tt
            else modify (set_ring b r w (u32 (e - 1))) ;;; lift (consputc BACKSPACE) ;;; kill_line fuel
        end
  end.

Definition consoleintr_key (c : Z) : M cst unit :=
  b <- gets co_buf ;; r <- gets co_r ;; w <- gets co_w ;; e <- gets co_e ;;
  if c =? Ctrl 80 then ps <- gets co_procs ;; lift (procdump ps)
  else if c =? Ctrl 85 then kill_line (S (Z.to_nat (u32 (e - w))))
  else if (c =? Ctrl 72) || (c =? 127) then
    if negb (e =? w) then modify (set_ring b r w (u32 (e - 1))) ;;; lift (consputc BACKSPACE) else ret tt
  else if negb (c =? 0) && (u32 (e - r) <? INPUT_BUF_SIZE) then
    let c := if c =? 13 then 10 else c in
    lift (consputc c) ;;;
    match zset b (e mod INPUT_BUF_SIZE) (u8 c) with
    | None => fault
    | Some b =>
        let e := u32 (e + 1) in
        modify (set_ring b r w e) ;;;
        when ((c =? 10) || (c =? Ctrl 68) || (u32 (e - r) =? INPUT_BUF_SIZE))
          (modify (set_ring b r e e) ;;; lift (wakeup chan_cons))
    end
  else ret tt.
Definition consoleintr (c : Z) : M cst unit :=
  lift (acquire L_cons) ;;; consoleintr_key c ;;; lift (release L_cons).

(** uart.c: the interrupt handler, one turn per input byte. *)
Fixpoint uartintr_loop (fuel : nat) : M cst unit :=
  match fuel with
  | O => fun s => Spin s
  | S fuel =>
      c <- lift uartgetc ;;
      if c =? -1 then ret tt else consoleintr c ;;; uartintr_loop fuel
  end.
Definition uartintr : M cst unit :=
  n <- gets (fun s => length (ua_rx (tt_dev (co_tty s)))) ;;
  uartintr_loop (S n) ;;;
  lift uartintr_send.

(** devsw[CONSOLE] is set where devsw is modelled. *)
Definition consoleinit : M cst unit := lift (initlock L_cons) ;;; lift uartinit.

(** ** The terminal a user sees *)

(** What may be read, and the line being edited. *)
Record term := mkTerm { t_ready : list Z; t_line : list Z }.
Definition t_size (t : term) : Z := Z.of_nat (length (t_ready t)) + Z.of_nat (length (t_line t)).

(** A key: ^P changes nothing, ^U erases the line, ^H and DEL its last byte; NUL
    and what does not fit are ignored; return is newline; newline, ^D and the
    last byte that fits make the line readable. *)
Definition key (c : Z) (t : term) : term :=
  if c =? 16 then t
  else if c =? 21 then mkTerm (t_ready t) []
  else if (c =? 8) || (c =? 127) then mkTerm (t_ready t) (removelast (t_line t))
  else if (c =? 0) || (INPUT_BUF_SIZE <=? t_size t) then t
  else
    let c := if c =? 13 then 10 else c in
    if (c =? 10) || (c =? 4) || (t_size t + 1 =? INPUT_BUF_SIZE) then mkTerm (t_ready t ++ t_line t ++ [c]) []
    else mkTerm (t_ready t) (t_line t ++ [c]).

(** What a read of [n] bytes takes from [l]: the bytes it delivers, what is
    left, and whether it is done or waits for more.  [start]: nothing was
    delivered yet. *)
Fixpoint deliver (n : nat) (start : bool) (l : list Z) : list Z * list Z * bool :=
  match n, l with
  | O, _ => ([], l, true)
  | S _, [] => ([], [], false)
  | S n, c :: l' =>
      if c =? 4 then if start then ([], l', true) else ([], l, true)
      else if c =? 10 then ([c], l', true)
      else let '(d, rest, fin) := deliver n false l' in (c :: d, rest, fin)
  end.

(** ** The ring holds the terminal *)

Abbreviation ring := (ring_list INPUT_BUF_SIZE).

Record rep (s : cst) (t : term) : Prop := {
  rp_buf : Z.of_nat (length (co_buf s)) = INPUT_BUF_SIZE;
  rp_bytes : Forall is_byte (co_buf s);
  rp_r : 0 <= co_r s < 2 ^ 32;
  rp_w : co_w s = u32 (co_r s + Z.of_nat (length (t_ready t)));
  rp_e : co_e s = u32 (co_r s + t_size t);
  rp_size : t_size t <= INPUT_BUF_SIZE;
  rp_ready : ring (co_buf s) (co_r s) (Z.of_nat (length (t_ready t))) = t_ready t;
  rp_line : ring (co_buf s) (co_w s) (Z.of_nat (length (t_line t))) = t_line t;
  rp_newline : Forall (fun c => c <> 10) (t_line t)
}.

Lemma rep_all s t : rep s t -> ring (co_buf s) (co_r s) (t_size t) = t_ready t ++ t_line t.
Proof.
  intros [Lb _ _ Ew _ _ R L _]. unfold t_size. rewrite (ring_app _ (2 ^ 32)) by (done || lia).
  rewrite R. f_equal. rewrite <- L at 2. by rewrite Ew.
Qed.
Lemma rep_nowrite s t : rep s t -> (co_r s =? co_w s) = match t_ready t with [] => true | _ => false end.
Proof.
  intros [_ _ Hr Ew _ Hs _ _ _]. unfold t_size, INPUT_BUF_SIZE in Hs. destruct (t_ready t) as [|c l] eqn:E; rewrite Ew; cbn [length] in *.
  - apply Z.eqb_eq. rewrite Z.add_0_r, u32_small by lia. done.
  - apply Z.eqb_neq. dlia.
Qed.
Lemma rep_noedit s t : rep s t -> (co_e s =? co_w s) = match t_line t with [] => true | _ => false end.
Proof.
  intros [_ _ Hr Ew Ee Hs _ _ _]. unfold t_size, INPUT_BUF_SIZE in *. rewrite Ew, Ee. destruct (t_line t) as [|c l] eqn:E; cbn [length] in *.
  - apply Z.eqb_eq. do 2 f_equal. lia.
  - apply Z.eqb_neq. dlia.
Qed.
Lemma rep_room s t : rep s t -> u32 (co_e s - co_r s) = t_size t.
Proof. intros [_ _ Hr _ Ee Hs _ _ _]. assert (0 <= t_size t) by (unfold t_size; lia). rewrite Ee. unfold INPUT_BUF_SIZE in *. dlia. Qed.
Lemma rep_linelen s t : rep s t -> u32 (co_e s - co_w s) = Z.of_nat (length (t_line t)).
Proof. intros [_ _ Hr Ew Ee Hs _ _ _]. unfold t_size, INPUT_BUF_SIZE in *. rewrite Ew, Ee. dlia. Qed.

(** Only the ring matters. *)
Lemma rep_ring s s' t : co_buf s' = co_buf s -> co_r s' = co_r s -> co_w s' = co_w s -> co_e s' = co_e s -> rep s t -> rep s' t.
Proof. intros Eb Er Ew Ee [? ? ? ? ? ? ? ? ?]. split; rewrite ?Eb, ?Er, ?Ew, ?Ee; done. Qed.

(** The ring after each of the changes the code makes to it. *)
Lemma rep_erase s t x l : rep s t -> t_line t = l ++ [x] ->
  znth (co_buf s) (u32 (co_e s - 1) mod INPUT_BUF_SIZE) = Some x /\ x <> 10 /\
  rep (set_ring (co_buf s) (co_r s) (co_w s) (u32 (co_e s - 1)) s) (mkTerm (t_ready t) l).
Proof.
  intros H El. pose proof H as [Lb By Hr Ew Ee Hs R L Nl]. pose proof (rep_all s t H) as All. unfold t_size in *. rewrite El, length_app in *. cbn [length] in *.
  set (a := Z.of_nat (length (t_ready t))) in *. set (b := Z.of_nat (length l)) in *.
  replace (Z.of_nat (length l + 1)) with (b + 1) in * by lia. rewrite (ring_last _ (2 ^ 32)) in L by (done || lia).
  apply app_inj_tail in L as [L Lx]. apply Forall_app in Nl as [Nl Nx]. apply Forall_cons in Nx as [Nx _].
  split; [|split; [done|]].
  - rewrite <- Lx. rewrite <- ring_get by done. f_equal. rewrite Ee, Ew. unfold INPUT_BUF_SIZE in *. dlia.
  - split; cbn [co_buf co_r co_w co_e set_ring t_ready t_line]; fold a b; try done; [|unfold t_size; cbn [t_ready t_line]; fold a b; lia|].
    + unfold t_size. cbn [t_ready t_line]. fold a b. rewrite Ee. dlia.
    + by replace (b + 1 - 1) with b in L by lia.
Qed.
Lemma rep_type s t c : rep s t -> t_size t < INPUT_BUF_SIZE -> is_byte c ->
  exists b, zset (co_buf s) (co_e s mod INPUT_BUF_SIZE) c = Some b /\
    (c <> 10 -> rep (set_ring b (co_r s) (co_w s) (u32 (co_e s + 1)) s) (mkTerm (t_ready t) (t_line t ++ [c]))) /\
    rep (set_ring b (co_r s) (u32 (co_e s + 1)) (u32 (co_e s + 1)) s) (mkTerm (t_ready t ++ t_line t ++ [c]) []).
Proof.
  intros H Hs Hc. pose proof H as [Lb By Hr Ew Ee _ R L Nl]. pose proof (rep_all s t H) as All. assert (0 <= t_size t) as H0 by (unfold t_size; lia).
  destruct (ring_set INPUT_BUF_SIZE (2 ^ 32) ltac:(done) ltac:(done) ltac:(done) (co_buf s) (co_r s) (t_size t) c Lb ltac:(lia)) as (b & Eb & Lb' & Q).
  assert (co_e s mod INPUT_BUF_SIZE = (co_r s + t_size t) mod INPUT_BUF_SIZE) as Ei by (rewrite Ee; unfold INPUT_BUF_SIZE in *; dlia).
  exists b. rewrite Ei. split; [done|]. assert (Forall is_byte b) as By' by (by eapply zset_Forall).
  assert (u32 (co_e s + 1) = u32 (co_r s + (t_size t + 1))) as Ee' by (rewrite Ee; dlia).
  rewrite All, <- app_assoc in Q. unfold t_size in *. set (na := Z.of_nat (length (t_ready t))) in *. set (nb := Z.of_nat (length (t_line t))) in *.
  split.
  - intros Hn. replace (na + nb + 1) with (na + (nb + 1)) in Q by lia. rewrite (ring_app _ (2 ^ 32)) in Q by (done || lia).
    apply app_inj_1 in Q as [Q1 Q2]; [|pose proof (ring_length INPUT_BUF_SIZE b (co_r s) na ltac:(lia)); lia].
    split; cbn [co_buf co_r co_w co_e set_ring t_ready t_line]; unfold t_size; cbn [t_ready t_line]; rewrite ?length_app; cbn [length]; fold na;
      replace (Z.of_nat (length (t_line t) + 1)) with (nb + 1) by lia; try done; try lia; try (rewrite Ee'; f_equal; lia); [rewrite Ew; exact Q2|apply Forall_app; by split; [|constructor]].
  - split; cbn [co_buf co_r co_w co_e set_ring t_ready t_line]; unfold t_size; cbn [t_ready t_line]; rewrite ?length_app; cbn [length];
      replace (Z.of_nat (length (t_ready t) + (length (t_line t) + 1))) with (na + nb + 1) by lia; try done; try lia; try (rewrite Ee'; f_equal; lia).
Qed.
Lemma rep_take s t c l : rep s t -> t_ready t = c :: l ->
  znth (co_buf s) (co_r s mod INPUT_BUF_SIZE) = Some c /\ is_byte c /\
  rep (set_ring (co_buf s) (u32 (co_r s + 1)) (co_w s) (co_e s) s) (mkTerm l (t_line t)).
Proof.
  intros [Lb By Hr Ew Ee Hs R L Nl] El. unfold t_size in *. rewrite El in *. cbn [length] in *. set (a := Z.of_nat (length l)) in *. set (b := Z.of_nat (length (t_line t))) in *.
  replace (Z.of_nat (S (length l))) with (a + 1) in * by lia. rewrite (ring_first _ (2 ^ 32)) in R by (done || lia). injection R as Rc R. replace (a + 1 - 1) with a in R by lia.
  assert (znth (co_buf s) (co_r s mod INPUT_BUF_SIZE) = Some c) as Ec by (by rewrite ring_get by done; rewrite Rc).
  split; [done|]. split; [by eapply znth_Forall|].
  split; cbn [co_buf co_r co_w co_e set_ring t_ready t_line]; unfold t_size; cbn [t_ready t_line]; fold a b; try done; try lia; try apply u32_range; first [rewrite Ew; dlia|rewrite Ee; dlia].
Qed.

(** ** A key changes the terminal *)

(** The ring, the device and the wakeups may differ. *)
Record kept (s s' : cst) : Prop := {
  kp_phys : co_phys s' = co_phys s;
  kp_pagetable : co_pagetable s' = co_pagetable s;
  kp_killed : co_killed s' = co_killed s;
  kp_cbuf : co_cbuf s' = co_cbuf s;
  kp_procs : co_procs s' = co_procs s;
  kp_tx : uart_ok (co_tty s) -> uart_ok (co_tty s');
  kp_tty : same_tty (co_tty s) (co_tty s')
}.
Lemma kept_refl s : kept s s.
Proof. split; try done. apply same_tty_refl. Qed.
Lemma kept_trans s1 s2 s3 : kept s1 s2 -> kept s2 s3 -> kept s1 s3.
Proof. intros [? ? ? ? ? ? ?] [? ? ? ? ? ? ?]. split; try congruence; [auto|by eapply same_tty_trans]. Qed.
Lemma kept_ring b r w e s : kept s (set_ring b r w e s).
Proof. split; try done. apply same_tty_refl. Qed.

Section keys.
Context (s0 : cst) (Hpan : panicked (co_tty s0) = 0).

(** Output of the kernel leaves the terminal alone. *)
Lemma lift_prints Q l c s : prints Q l c -> kept s0 s -> Q (lk_held (tt_lk (co_tty s))) ->
  exists s', lift c s = Ret tt s' /\ kept s s' /\ (forall t, rep s t -> rep s' t) /\ tt_lk (co_tty s') = tt_lk (co_tty s) /\
    co_buf s' = co_buf s /\ co_r s' = co_r s /\ co_w s' = co_w s /\ co_e s' = co_e s.
Proof using Hpan.
  intros H K Hq. destruct (H (co_tty s)) as (t' & E & _ & T & Eb & Ew & Er & El); [by rewrite (st_panicked _ _ (kp_tty _ _ K))|done|].
  exists (set_ctty t' s). split; [unfold lift; cbn [view update cst_tty]; by rewrite E|]. split_and!; try done; [|by intros t; apply rep_ring]. split; try done. by apply uart_ok_tx.
Qed.

Lemma kill_line_ok s t : kept s0 s -> rep s t -> exists s', kill_line (S (length (t_line t))) s = Ret tt s' /\ rep s' (mkTerm (t_ready t) []) /\ kept s s'.
Proof using Hpan.
  assert (forall k s, kill_line (S k) s = (
      b <- gets co_buf ;; r <- gets co_r ;; w <- gets co_w ;; e <- gets co_e ;;
      if e =? w then ret tt else match znth b (u32 (e - 1) mod INPUT_BUF_SIZE) with None => fault | Some c =>
        if c =? 10 then ret tt else modify (set_ring b r w (u32 (e - 1))) ;;; lift (consputc BACKSPACE) ;;; kill_line k end) s) as Hk by done.
  destruct t as [rd ln]. cbn [t_line t_ready]. revert s. induction ln as [|x l IH] using rev_ind; intros s K R; rewrite Hk, !bind_gets, (rep_noedit _ _ R); cbn [t_line].
  - exists s. split_and!; [done|done|apply kept_refl].
  - destruct (rep_erase s _ x l R eq_refl) as (Ex & Hx & R1). assert ((match l ++ [x] with [] => true | _ => false end) = false) as -> by (by destruct l).
    rewrite Ex, (proj2 (Z.eqb_neq x 10)) by done. rewrite (bind_Ret (modify _) _ _ tt (set_ring (co_buf s) (co_r s) (co_w s) (u32 (co_e s - 1)) s)) by done.
    set (s1 := set_ring _ _ _ _ s) in *. assert (kept s0 s1) as K1 by (eapply kept_trans; [done|apply kept_ring]).
    destruct (lift_prints _ _ _ s1 prints_backspace K1 Logic.I) as (s2 & E2 & K2 & R2 & _). rewrite (bind_Ret _ _ _ _ _ E2).
    destruct (IH s2) as (s' & E' & R' & K'); [by eapply kept_trans|by apply R2|]. rewrite length_app, Nat.add_1_r in *. exists s'. split_and!; [exact E'|done|].
    eapply kept_trans; [apply kept_ring|]. by eapply kept_trans.
Qed.

Lemma consoleintr_key_ok s t c : kept s0 s -> rep s t -> is_byte c -> L_pr ∉ lk_held (tt_lk (co_tty s)) -> Forall (fun p => Forall is_byte (pn_name p)) (co_procs s) ->
  exists s', consoleintr_key c s = Ret tt s' /\ rep s' (key c t) /\ kept s s' /\
    (t_ready (key c t) <> t_ready t -> chan_cons ∈ lk_wakeups (tt_lk (co_tty s'))).
Proof using Hpan.
  intros K R Hc Hpr Hps. unfold consoleintr_key, key. rewrite !bind_gets. change (Ctrl 80) with 16. change (Ctrl 85) with 21. change (Ctrl 72) with 8. change (Ctrl 68) with 4.
  destruct (Z.eqb_spec c 16).
  { rewrite bind_gets. destruct (lift_prints _ _ _ s (prints_procdump _ Hps) K Hpr) as (s' & E & K' & R' & _). exists s'. split_and!; [done|by apply R'|done|done]. }
  destruct (Z.eqb_spec c 21).
  { rewrite (rep_linelen s t R), Nat2Z.id. destruct (kill_line_ok s t K R) as (s' & E & R' & K'). exists s'. split_and!; [done|done|done|done]. }
  destruct ((c =? 8) || (c =? 127)).
  { rewrite (rep_noedit s t R). destruct (t_line t) as [|x0 l0] eqn:El.
    - exists s. cbn. split_and!; [done| |apply kept_refl|done]. destruct t; cbn in *; subst; done.
    - destruct (exists_last (l := x0 :: l0)) as (l & x & Ell); [done|]. rewrite Ell in *. destruct (rep_erase s t x l R El) as (_ & _ & R1). cbn [negb].
      rewrite (bind_Ret (modify _) _ _ tt (set_ring (co_buf s) (co_r s) (co_w s) (u32 (co_e s - 1)) s)) by done. set (s1 := set_ring _ _ _ _ s) in *.
      assert (kept s0 s1) as K1 by (eapply kept_trans; [done|apply kept_ring]).
      destruct (lift_prints _ _ _ s1 prints_backspace K1 Logic.I) as (s2 & E2 & K2 & R2 & _). rewrite removelast_last.
      exists s2. split_and!; [done|by apply R2| |done]. eapply kept_trans; [apply kept_ring|done]. }
  rewrite (rep_room s t R). destruct (Z.eqb_spec c 0); cbn [negb andb orb]; [exists s; split_and!; [done|done|apply kept_refl|done]|].
  destruct (Z.ltb_spec (t_size t) INPUT_BUF_SIZE) as [Hs|Hs]; [rewrite (proj2 (Z.leb_gt _ _)) by done|rewrite (proj2 (Z.leb_le _ _)) by done; exists s; split_and!; [done|done|apply kept_refl|done]].
  set (c' := if c =? 13 then 10 else c). assert (is_byte c') as Hc' by (unfold c', is_byte in *; destruct (c =? 13); lia).
  destruct (lift_prints _ _ _ s (prints_consputc c' Hc') K Logic.I) as (s1 & E1 & K1 & R1 & L1 & Eb & Er & Ew & Ee). rewrite (bind_Ret _ _ _ _ _ E1). apply R1 in R as Rs1.
  destruct (rep_type s1 t c' Rs1 Hs Hc') as (b & Ez & Ra & Rb). rewrite Eb, Ee in Ez. rewrite u8_small, Ez by done. rewrite Er, Ew, Ee in Ra. rewrite Er, Ee in Rb.
  rewrite (bind_Ret (modify _) _ _ tt (set_ring b (co_r s) (co_w s) (u32 (co_e s + 1)) s1)) by done.
  assert (u32 (u32 (co_e s + 1) - co_r s) = t_size t + 1) as ->.
  { pose proof (rp_e _ _ R) as Hee. pose proof (rp_r _ _ R). assert (0 <= t_size t) by (unfold t_size; lia). rewrite Hee. unfold INPUT_BUF_SIZE in *. dlia. }
  destruct ((c' =? 10) || (c' =? 4) || (t_size t + 1 =? INPUT_BUF_SIZE)) eqn:Ec; cbn [when].
  - rewrite (bind_Ret (modify _) _ _ tt (set_ring b (co_r s) (u32 (co_e s + 1)) (u32 (co_e s + 1)) s1)) by done.
    eexists. split; [reflexivity|]. split_and!; [by eapply rep_ring; [..|exact Rb]| |cbn; intros _; set_solver].
    eapply kept_trans; [exact K1|]. split; try done; cbn. { by apply uart_ok_tx. } split; try done. by eexists.
  - exists (set_ring b (co_r s) (co_w s) (u32 (co_e s + 1)) s1). split; [done|]. split_and!; [|eapply kept_trans; [exact K1|apply kept_ring]|done].
    apply Ra. intros ->. done.
Qed.
End keys.

(** ** Input from the device *)

(** The driver is at rest. *)
Record fit (s : cst) : Prop := {
  ft_uart : uart_ok (co_tty s);
  ft_panicked : panicked (co_tty s) = 0;
  ft_cons : L_cons ∉ lk_held (tt_lk (co_tty s));
  ft_tx : L_uart ∉ lk_held (tt_lk (co_tty s));
  ft_pr : L_pr ∉ lk_held (tt_lk (co_tty s));
  ft_names : Forall (fun p => Forall is_byte (pn_name p)) (co_procs s)
}.
(** What the handler leaves alone; wakeups are only added. *)
Record stable (s s' : cst) : Prop := {
  sb_phys : co_phys s' = co_phys s;
  sb_pagetable : co_pagetable s' = co_pagetable s;
  sb_killed : co_killed s' = co_killed s;
  sb_cbuf : co_cbuf s' = co_cbuf s;
  sb_procs : co_procs s' = co_procs s;
  sb_held : lk_held (tt_lk (co_tty s')) = lk_held (tt_lk (co_tty s));
  sb_wakeups : exists l, lk_wakeups (tt_lk (co_tty s')) = lk_wakeups (tt_lk (co_tty s)) ++ l
}.
Lemma stable_refl s : stable s s.
Proof. split; try done. exists []. by rewrite app_nil_r. Qed.
Lemma stable_trans s1 s2 s3 : stable s1 s2 -> stable s2 s3 -> stable s1 s3.
Proof. intros [? ? ? ? ? ? [l1 W1]] [? ? ? ? ? ? [l2 W2]]. split; try congruence. exists (l1 ++ l2). by rewrite W2, W1, app_assoc. Qed.
Lemma kept_stable s s' : kept s s' -> stable s s'.
Proof. intros [? ? ? ? ? ? [? ? ? ? ?]]. by split. Qed.
Lemma woken_later s s' ch : stable s s' -> ch ∈ lk_wakeups (tt_lk (co_tty s)) -> ch ∈ lk_wakeups (tt_lk (co_tty s')).
Proof. intros [? ? ? ? ? ? [l ->]] H. set_solver. Qed.
Lemma fit_stable s s' : fit s -> stable s s' -> uart_ok (co_tty s') -> panicked (co_tty s') = panicked (co_tty s) -> fit s'.
Proof. intros [? ? ? ? ? ?] [? ? ? ? ? ? ?] ? ?. split; congruence. Qed.

Lemma cl_acquire l s : l ∉ lk_held (tt_lk (co_tty s)) ->
  lift (acquire l) s = Ret tt (set_ctty (set_tlk (set_lk_held (l :: lk_held (tt_lk (co_tty s))) (tt_lk (co_tty s))) (co_tty s)) s).
Proof. intros H. unfold lift. cbn [view update cst_lk]. by rewrite lk_acquire_ok. Qed.
Lemma cl_release l h s : lk_held (tt_lk (co_tty s)) = l :: h -> l ∉ h ->
  lift (release l) s = Ret tt (set_ctty (set_tlk (set_lk_held h (tt_lk (co_tty s))) (co_tty s)) s).
Proof. intros H Hn. unfold lift. cbn [view update cst_lk]. by rewrite (lk_release_ok l h). Qed.

Lemma consoleintr_ok s t c : fit s -> rep s t -> is_byte c ->
  exists s', consoleintr c s = Ret tt s' /\ rep s' (key c t) /\ fit s' /\ stable s s' /\ ua_rx (tt_dev (co_tty s')) = ua_rx (tt_dev (co_tty s)) /\
    (t_ready (key c t) <> t_ready t -> chan_cons ∈ lk_wakeups (tt_lk (co_tty s'))).
Proof.
  intros F R Hc. pose proof F as [Fu Fp Fc Ft Fr Fn]. unfold consoleintr. rewrite (bind_Ret _ _ _ _ _ (cl_acquire _ _ Fc)). set (s1 := set_ctty _ s).
  destruct (consoleintr_key_ok s1 Fp s1 t c (kept_refl s1)) as (s2 & E2 & R2 & K2 & W2); [by eapply rep_ring; [..|exact R]|done|cbn; set_solver|done|].
  rewrite (bind_Ret _ _ _ _ _ E2). pose proof K2 as [P1 P2 P3 P4 P5 Px [T1 T2 T3 T4 [l T5]]].
  rewrite (cl_release L_cons (lk_held (tt_lk (co_tty s)))) by (done || by rewrite T4). eexists. split; [reflexivity|].
  assert (stable s (set_ctty (set_tlk (set_lk_held (lk_held (tt_lk (co_tty s))) (tt_lk (co_tty s2))) (co_tty s2)) s2)) as St by (split; try done; by exists l).
  split_and!; [by eapply rep_ring; [..|exact R2]| |done|exact T3|exact W2].
  eapply fit_stable; [done|done| |done]. cbn. eapply (uart_ok_tx (co_tty s2)); [done..|]. apply Px. by eapply (uart_ok_tx (co_tty s)).
Qed.

(** One byte is taken from the device. *)
Lemma uartgetc_ok s : exists s1, lift uartgetc s = Ret (match ua_rx (tt_dev (co_tty s)) with [] => -1 | c :: _ => c end) s1 /\
  stable s s1 /\ (forall t, rep s t -> rep s1 t) /\ (fit s -> fit s1) /\ ua_rx (tt_dev (co_tty s1)) = tl (ua_rx (tt_dev (co_tty s))).
Proof.
  assert (exists d, uartgetc (co_tty s) = Ret (match ua_rx (tt_dev (co_tty s)) with [] => -1 | c :: _ => c end) (set_dev d (co_tty s)) /\ ua_rx d = tl (ua_rx (tt_dev (co_tty s)))) as (d & E & Er).
  { unfold uartgetc. destruct (lsr_idle (co_tty s)) as (v & E & _ & Ev). rewrite (bind_Ret _ _ _ _ _ E), Ev. unfold ReadRHR, rhr_read, lsr_read. cbn.
    destruct (ua_rx (tt_dev (co_tty s))); eexists; (split; [reflexivity|done]). }
  exists (set_ctty (set_dev d (co_tty s)) s). split; [unfold lift; cbn [view update cst_tty]; by rewrite E|].
  assert (stable s (set_ctty (set_dev d (co_tty s)) s)) as St by (split; try done; exists []; by rewrite app_nil_r).
  split_and!; [done|by intros t; apply rep_ring| |done]. intros F. eapply fit_stable; [done|done| |done]. apply (uart_ok_tx (co_tty s)); try done. apply F.
Qed.

Definition type (keys : list Z) (t : term) : term := fold_left (fun t c => key c t) keys t.

Lemma uartintr_loop_ok keys s t : fit s -> rep s t -> ua_rx (tt_dev (co_tty s)) = keys -> Forall is_byte keys ->
  exists s', uartintr_loop (S (length keys)) s = Ret tt s' /\ rep s' (type keys t) /\ fit s' /\ stable s s' /\
    (t_ready (type keys t) <> t_ready t -> chan_cons ∈ lk_wakeups (tt_lk (co_tty s'))).
Proof.
  assert (forall k s, uartintr_loop (S k) s = (c <- lift uartgetc ;; if c =? -1 then ret tt else consoleintr c ;;; uartintr_loop k) s) as Hk by done.
  revert s t. induction keys as [|c keys IH]; intros s t F R Hx Hb; rewrite Hk; destruct (uartgetc_ok s) as (s1 & E1 & S1 & R1 & F1 & X1);
    rewrite (bind_Ret _ _ _ _ _ E1), Hx; cbn [length tl] in *.
  - exists s1. split_and!; [done|by apply R1|by apply F1|done|done].
  - apply Forall_cons in Hb as [Hc Hb]. rewrite (proj2 (Z.eqb_neq c (-1))) by (unfold is_byte in Hc; lia).
    destruct (consoleintr_ok s1 t c (F1 F) (R1 _ R) Hc) as (s2 & E2 & R2 & F2 & S2 & X2 & W2). rewrite (bind_Ret _ _ _ _ _ E2).
    destruct (IH s2 (key c t) F2 R2) as (s' & E' & R' & F' & S' & W'); [by rewrite X2, X1, Hx|done|].
    exists s'. split_and!; [done|done|done|by eapply stable_trans; [|eapply stable_trans]|]. cbn [type fold_left]. intros Hn.
    destruct (decide (t_ready (type keys (key c t)) = t_ready (key c t))) as [E|E]; [|by apply W']. eapply woken_later; [done|]. apply W2. by rewrite <- E.
Qed.

Lemma uartintr_ok keys s t : fit s -> rep s t -> ua_rx (tt_dev (co_tty s)) = keys -> Forall is_byte keys ->
  exists s', uartintr s = Ret tt s' /\ rep s' (type keys t) /\ fit s' /\ stable s s' /\
    (t_ready (type keys t) <> t_ready t -> chan_cons ∈ lk_wakeups (tt_lk (co_tty s'))).
Proof.
  intros F R Hx Hb. unfold uartintr. rewrite bind_gets, Hx. destruct (uartintr_loop_ok keys s t F R Hx Hb) as (s1 & E1 & R1 & F1 & S1 & W1).
  rewrite (bind_Ret _ _ _ _ _ E1). destruct (uartintr_send_ok (co_tty s1) (ft_uart _ F1) (ft_tx _ F1)) as (out & t2 & E2 & [O2 _ _ [T1 T2 T3 T4 [l T5]]] & _).
  exists (set_ctty t2 s1). split; [unfold lift; cbn [view update cst_tty]; by rewrite E2|].
  assert (stable s1 (set_ctty t2 s1)) as S2 by (split; try done; by exists l).
  split_and!; [by eapply rep_ring; [..|exact R1]|by eapply fit_stable|by eapply stable_trans|]. intros Hn. eapply woken_later; [done|auto].
Qed.

(** ** A read delivers the terminal's bytes *)

Section reading.
Context (m : mem) (pt cbuf dst : Z) (N : nat) (HN : Z.of_nat N < 2 ^ 31) (Hb : writable m pt cbuf dst (Z.of_nat N)).

(** Memory is [m] but for the local byte and the user's buffer. *)
Record mem_ok (s : cst) : Prop := {
  mo_pagetable : co_pagetable s = pt;
  mo_cbuf : co_cbuf s = cbuf;
  mo_wf : wf_mem (ph_mem (co_phys s));
  mo_mem : forall x, x <> cbuf -> ~ user_byte m pt dst (dst + Z.of_nat N) x -> ph_mem (co_phys s) x = m x
}.
(** Byte [j] of the user's buffer. *)
Definition ubuf (s : cst) (j : nat) : Z := ph_mem (co_phys s) (uaddr m pt (dst + Z.of_nat j)).

(** [k] bytes are still wanted. *)
Record reading (k : nat) (s : cst) : Prop := {
  rg_n : co_n s = Z.of_nat k;
  rg_dst : co_dst s = dst + Z.of_nat (N - k);
  rg_le : (k <= N)%nat;
  rg_mem : mem_ok s;
  rg_killed : co_killed s = false
}.

Lemma user_byte_at j : (j < N)%nat -> user_byte m pt dst (dst + Z.of_nat N) (uaddr m pt (dst + Z.of_nat j)).
Proof using Hb. intros Hj. exists (dst + Z.of_nat j). split; [lia|]. split; [|done]. apply (wb_mapped _ _ _ _ _ Hb). lia. Qed.
Lemma uaddr_ne i j : (i < N)%nat -> (j < N)%nat -> i <> j -> uaddr m pt (dst + Z.of_nat i) <> uaddr m pt (dst + Z.of_nat j).
Proof using Hb. intros Hi Hj Hn E. apply (wb_inj _ _ _ _ _ Hb) in E; lia. Qed.

(** Storing one byte. *)
Lemma put_user s c j : mem_ok s -> is_byte c -> (j < N)%nat ->
  exists h, (lift (setmem (fun m => st8 m cbuf c)) ;;; cons_copyout true (dst + Z.of_nat j) cbuf 1) s = Ret 0 (set_cphys h s) /\
    mem_ok (set_cphys h s) /\ ubuf (set_cphys h s) j = c /\ (forall i, (i < N)%nat -> i <> j -> ubuf (set_cphys h s) i = ubuf s i).
Proof using Hb.
  intros [Ep Ec Ew Em] Hc Hj. set (h0 := mkPhys (st8 (ph_mem (co_phys s)) cbuf c) (ph_pool (co_phys s)) (ph_end (co_phys s))).
  destruct (copyout1 m pt cbuf dst (Z.of_nat N) (Z.of_nat j) h0 Hb) as (h & E & W & Hd & Ho).
  - cbn. wfm.
  - intros x Hx Hu. cbn. rewrite st8_ne by done. by apply Em.
  - lia.
  - exists h. assert (u64 (dst + Z.of_nat j) = dst + Z.of_nat j) as Eu by (destruct Hb as [? ? ? ? ?]; apply u64_small; lia). rewrite Eu in E. split.
    { rewrite (bind_Ret (lift _) _ _ tt (set_cphys h0 s)) by done. unfold cons_copyout. rewrite bind_gets. cbn [co_pagetable set_cphys]. rewrite Ep.
      unfold lift. cbn [view update cst_phys set_cphys co_phys]. by rewrite E. }
    pose proof (user_byte_at j Hj) as Hub. pose proof (wb_ch _ _ _ _ _ Hb) as Hch. split; [|split].
    + split; cbn; try done. intros x Hx Hu. rewrite Ho by (intros ->; done). cbn. rewrite st8_ne by done. by apply Em.
    + unfold ubuf. cbn. rewrite Hd. cbn. rewrite st8_eq. by apply u8_small.
    + intros i Hi Hn. unfold ubuf. cbn. rewrite Ho by (by apply uaddr_ne). cbn. rewrite st8_ne; [done|]. apply Hch. lia.
Qed.

(** After [d] was delivered of what there was. *)
Record delivered (k : nat) (s : cst) (t : term) (d rest : list Z) (s' : cst) : Prop := {
  dv_rep : rep s' (mkTerm rest (t_line t));
  dv_len : (length d <= k)%nat;
  dv_reading : reading (k - length d) s';
  dv_bytes : forall i b, d !! i = Some b -> ubuf s' (N - k + i) = b;
  dv_before : forall i, (i < N - k)%nat -> ubuf s' i = ubuf s i;
  dv_tty : co_tty s' = co_tty s
}.

Lemma delivered_none k s t s' rest : rep s' (mkTerm rest (t_line t)) -> reading k s' -> co_phys s' = co_phys s -> co_tty s' = co_tty s -> delivered k s t [] rest s'.
Proof. intros R G Ep Et. split; cbn; try done; [lia|by rewrite Nat.sub_0_r|]. intros i _. unfold ubuf. by rewrite Ep. Qed.
Lemma reading_ring k s b r w e : reading k s -> reading k (set_ring b r w e s).
Proof. intros [? ? ? [? ? ? ?] ?]. by split. Qed.

(** The process gave up the lock. *)
Definition let_go (l : klock) (s : cst) : cst :=
  set_ctty (set_tlk (set_lk_held (base.filter (fun x => x <> l) (lk_held (tt_lk (co_tty s)))) (tt_lk (co_tty s))) (co_tty s)) s.
Lemma sleep_cons {A} s : L_cons ∈ lk_held (tt_lk (co_tty s)) -> (lift (sleep chan_cons L_cons) : M cst A) s = Blocked chan_cons (let_go L_cons s).
Proof. intros H. unfold lift, sleep, bind, release. cbn [view update cst_lk]. by rewrite decide_True. Qed.

Lemma consoleread_loop_ok k s t d rest fin :
  rep s t -> reading k s -> L_cons ∈ lk_held (tt_lk (co_tty s)) -> deliver k (Nat.eqb k N) (t_ready t) = (d, rest, fin) ->
  exists s', delivered k s t d rest s' /\
    consoleread_loop (S k) true (Z.of_nat N) s = if fin then Ret true s' else Blocked chan_cons (let_go L_cons s').
Proof using HN Hb.
  assert (forall k s, consoleread_loop (S k) true (Z.of_nat N) s = (
      n <- gets co_n ;; if negb (0 <? n) then ret true else r <- gets co_r ;; w <- gets co_w ;;
        if r =? w then k <- gets co_killed ;; if k then lift (release L_cons) ;;; ret false else lift (sleep chan_cons L_cons)
        else b <- gets co_buf ;; e <- gets co_e ;; match znth b (r mod INPUT_BUF_SIZE) with None => fault | Some c =>
              modify (set_ring b (u32 (r + 1)) w e) ;;;
              if c =? Ctrl 68 then when (u32 n <? Z.of_nat N) (modify (set_ring b r w e)) ;;; ret true
              else a <- gets co_cbuf ;; dst <- gets co_dst ;; lift (setmem (fun m => st8 m a c)) ;;; x <- cons_copyout true dst a 1 ;;
                if x =? -1 then ret true else modify (set_locals (n - 1) (u64 (dst + 1))) ;;; if c =? 10 then ret true else consoleread_loop k true (Z.of_nat N)
          end) s) as Hk by done.
  revert s t d rest fin. induction k as [|k IH]; intros s t d rest fin R G Hl Hd; rewrite Hk, bind_gets, (rg_n _ _ G).
  { injection Hd as <- <- <-. exists s. split; [|done]. apply delivered_none; try done. destruct t. done. }
  rewrite (proj2 (Z.ltb_lt 0 (Z.of_nat (S k)))) by lia. cbn [negb]. rewrite !bind_gets, (rep_nowrite s t R). cbn [deliver] in Hd. destruct (t_ready t) as [|c l] eqn:Er.
  { injection Hd as <- <- <-. exists s. rewrite bind_gets, (rg_killed _ _ G). split; [|by apply sleep_cons]. apply delivered_none; try done. destruct t. cbn in Er. by subst. }
  destruct (rep_take s t c l R Er) as (Ec & Hc & R1). rewrite !bind_gets, Ec.
  rewrite (bind_Ret (modify _) _ _ tt (set_ring (co_buf s) (u32 (co_r s + 1)) (co_w s) (co_e s) s)) by done. change (Ctrl 68) with 4.
  destruct (Z.eqb_spec c 4) as [E4|E4].
  { rewrite u32_small by (pose proof (rg_le _ _ G); lia). destruct (Nat.eqb_spec (S k) N) as [En|En].
    - injection Hd as <- <- <-. rewrite (proj2 (Z.ltb_ge _ _)) by lia. eexists. split; [|reflexivity]. apply delivered_none; try done. by apply reading_ring.
    - injection Hd as <- <- <-. pose proof (rg_le _ _ G). rewrite (proj2 (Z.ltb_lt _ _)) by lia. eexists. split; [|reflexivity]. apply delivered_none; try done; [|by do 2 apply reading_ring].
      rewrite <- Er. apply (rep_ring s); try done. by destruct t. }
  rewrite !bind_gets. cbn [co_cbuf co_dst set_ring]. rewrite (mo_cbuf _ (rg_mem _ _ G)), (rg_dst _ _ G). set (s1 := set_ring _ _ _ _ s) in *.
  pose proof (rg_le _ _ G) as Hle. destruct (put_user s1 c (N - S k)) as (h & Ep & M1 & U1 & V1); [by apply (reading_ring (S k))|done|lia|].
  rewrite <- bind_assoc, (bind_Ret _ _ _ _ _ Ep). cbn [Z.eqb Pos.eqb].
  assert (u64 (dst + Z.of_nat (N - S k) + 1) = dst + Z.of_nat (N - k)) as Eu by (destruct Hb as [? ? ? ? ?]; rewrite u64_small; lia).
  rewrite (bind_Ret (modify _) _ _ tt (set_locals (Z.of_nat k) (dst + Z.of_nat (N - k)) (set_cphys h s1))) by (unfold modify; rewrite Eu; do 2 f_equal; lia).
  set (s2 := set_locals _ _ _). assert (reading k s2) as G2 by (split; try done; [lia|by destruct M1|apply G]).
  assert (rep s2 (mkTerm l (t_line t))) as R2 by (by eapply rep_ring; [..|exact R1]).
  assert (forall i, (i < N - k)%nat -> i <> (N - S k)%nat -> ubuf s2 i = ubuf s i) as V2 by (intros i Hi Hn; apply (V1 i); lia).
  destruct (Z.eqb_spec c 10) as [E10|E10].
  { injection Hd as <- <- <-. exists s2. split; [|done]. split; try done; [cbn; lia|by replace (S k - length [c])%nat with k by (cbn; lia)| |].
    - intros [|i] b Hi; [|done]. injection Hi as <-. rewrite Nat.add_0_r. exact U1.
    - intros i Hi. apply V2; lia. }
  destruct (deliver k false l) as [[d' rest'] fin'] eqn:Ed. injection Hd as <- <- <-.
  destruct (IH s2 (mkTerm l (t_line t)) d' rest' fin' R2 G2 Hl) as (s' & [Dr Dl Dg Db De Dt] & E').
  { rewrite (proj2 (Nat.eqb_neq k N)) by lia. exact Ed. }
  exists s'. split; [|exact E']. split; cbn [length]; try done; [lia| |].
  - intros [|i] b Hi; cbn in Hi.
    + injection Hi as <-. rewrite Nat.add_0_r, De by lia. exact U1.
    + replace (N - S k + S i)%nat with (N - k + i)%nat by lia. by apply Db.
  - intros i Hi. rewrite De by lia. apply V2; lia.
Qed.
End reading.

(** consoleread() from its first statement on. *)
Lemma consoleread_ok m pt cbuf dst N s t d rest fin :
  Z.of_nat N < 2 ^ 31 -> writable m pt cbuf dst (Z.of_nat N) -> rep s t -> mem_ok m pt cbuf dst N s -> co_killed s = false ->
  L_cons ∉ lk_held (tt_lk (co_tty s)) -> deliver N true (t_ready t) = (d, rest, fin) ->
  exists s', rep s' (mkTerm rest (t_line t)) /\ lk_held (tt_lk (co_tty s')) = lk_held (tt_lk (co_tty s)) /\
    (forall i b, d !! i = Some b -> ph_mem (co_phys s') (uaddr m pt (dst + Z.of_nat i)) = b) /\
    consoleread true dst (Z.of_nat N) s = if fin then Ret (Z.of_nat (length d)) s' else Blocked chan_cons s'.
Proof.
  intros HN Hb R Hm Hk Hl Hd. unfold consoleread, consoleread_resume. rewrite u32_small by lia.
  rewrite (bind_Ret (modify _) _ _ tt (set_locals (Z.of_nat N) dst s)) by done. rewrite (bind_Ret _ _ _ _ _ (cl_acquire L_cons (set_locals (Z.of_nat N) dst s) Hl)).
  set (s1 := set_ctty _ (set_locals _ _ s)). rewrite bind_gets. cbn [co_n s1 set_ctty set_locals]. rewrite Nat2Z.id.
  assert (reading m pt cbuf dst N N s1) as G by (split; try done; cbn; [rewrite Nat.sub_diag; lia|by destruct Hm]).
  destruct (consoleread_loop_ok m pt cbuf dst N HN Hb N s1 t d rest fin) as (s2 & [Dr Dl Dg Db _ Dt] & E); [by apply (rep_ring s)|done|by constructor|by rewrite Nat.eqb_refl|].
  rewrite Nat.sub_diag in Db. destruct fin.
  - rewrite (bind_Ret _ _ _ _ _ E). rewrite (bind_Ret _ _ _ _ _ (cl_release L_cons (lk_held (tt_lk (co_tty s))) s2 ltac:(by rewrite Dt) Hl)), bind_gets.
    exists (set_ctty (set_tlk (set_lk_held (lk_held (tt_lk (co_tty s))) (tt_lk (co_tty s2))) (co_tty s2)) s2).
    split_and!; [by apply (rep_ring s2)|done|exact Db|]. cbn [co_n set_ctty]. rewrite (rg_n _ _ _ _ _ _ _ Dg), s32_small by lia. unfold ret. f_equal. lia.
  - exists (let_go L_cons s2). split_and!; [by apply (rep_ring s2)| |exact Db|by unfold bind at 1; rewrite E].
    unfold let_go. cbn [co_tty set_ctty tt_lk set_tlk lk_held set_lk_held]. rewrite Dt. change (lk_held (tt_lk (co_tty s1))) with (L_cons :: lk_held (tt_lk (co_tty s))). rewrite filter_cons_False by naive_solver. by apply klock_filter_out.
Qed.

(** C15: the console's line discipline, from the UART to the user's buffer.  The
    interrupt handler takes all the bytes the device has and edits the input as
    the terminal [type] does (erase, kill line, return, end of file, a full
    buffer); a sleeping reader is woken when there is something new to read; and
    read() then delivers to the user the bytes of a line (up to [n] of them, up
    to the newline, or up to ^D, which is not delivered and which a read that
    has delivered something leaves for the next), or sleeps with the lock free
    when it has not got so far. *)
Theorem console_line_discipline keys N s t dst :
  fit s -> rep s t -> ua_rx (tt_dev (co_tty s)) = keys -> Forall is_byte keys -> co_killed s = false ->
  let m := ph_mem (co_phys s) in wf_mem m -> Z.of_nat N < 2 ^ 31 -> writable m (co_pagetable s) (co_cbuf s) dst (Z.of_nat N) ->
  let '(d, rest, fin) := deliver N true (t_ready (type keys t)) in
  exists s1 s2, uartintr s = Ret tt s1 /\ rep s1 (type keys t) /\
    (t_ready (type keys t) <> t_ready t -> chan_cons ∈ lk_wakeups (tt_lk (co_tty s1))) /\
    (consoleread true dst (Z.of_nat N) s1 = if fin then Ret (Z.of_nat (length d)) s2 else Blocked chan_cons s2) /\
    rep s2 (mkTerm rest (t_line (type keys t))) /\ L_cons ∉ lk_held (tt_lk (co_tty s2)) /\
    forall i b, d !! i = Some b -> ph_mem (co_phys s2) (uaddr m (co_pagetable s) (dst + Z.of_nat i)) = b.
Proof.
  intros F R Hx Hk Hkil m Hw HN Hb. destruct (deliver N true (t_ready (type keys t))) as [[d rest] fin] eqn:Ed.
  destruct (uartintr_ok keys s t F R Hx Hk) as (s1 & E1 & R1 & F1 & [Sp Spt Sk Sc _ _ _] & W1).
  destruct (consoleread_ok m (co_pagetable s) (co_cbuf s) dst N s1 (type keys t) d rest fin HN Hb R1) as (s2 & R2 & H2 & B2 & E2);
    [by split; rewrite ?Sp|congruence|apply F1|done|].
  exists s1, s2. split_and!; try done. rewrite H2. apply F1.
Qed.

(** The console at boot, in front of a process with one page of memory. *)
Definition console0 (keys : list Z) : cst :=
  mkCst (replicate 128 0) 0 0 0 (set_dev (mkUart keys [] 0 [] []) tty0) one_user_phys 0x80100000 false 0x80200000 0 0 0 [].
Lemma console0_writable : writable one_user_page 0x80100000 0x80200000 2000 100.
Proof.
  pose proof one_user_page_tables as Ht.
  assert (forall va, 0 <= va < PGSIZE -> uaddr one_user_page 0x80100000 va = 0x80103000 + va) as Hu by (intros; by apply user_tables_addr).
  split.
  - lia.
  - intros k Hk. apply user_tables_mapped; [done|unfold PGSIZE; lia].
  - intros va x Hva Hx Hp. apply user_tables_walk in Hx; [|done|unfold PGSIZE; lia]. destruct Hp as [->|(va' & Hva' & _ & ->)]; [lia|].
    rewrite Hu in Hx by (unfold PGSIZE; lia). lia.
  - intros k Hk. rewrite Hu by (unfold PGSIZE; lia). lia.
  - intros k k' Hk Hk'. rewrite !Hu by (unfold PGSIZE; lia). lia.
Qed.
(** "lx", backspace, "s", return: the reader gets "ls" and a newline. *)
Lemma console_line_discipline_witness :
  exists s1 s2, uartintr (console0 [108; 120; 8; 115; 13]) = Ret tt s1 /\ consoleread true 2000 100 s1 = Ret 3 s2 /\
    map (fun i => ph_mem (co_phys s2) (uaddr one_user_page 0x80100000 (2000 + i))) [0; 1; 2] = [108; 115; 10].
Proof.
  pose proof (console_line_discipline [108; 120; 8; 115; 13] 100 (console0 [108; 120; 8; 115; 13]) (mkTerm [] []) 2000) as H.
  destruct H as (s1 & s2 & E1 & _ & _ & E2 & _ & _ & B).
  - split; try apply not_elem_of_nil; [|reflexivity|constructor].
    split; [reflexivity|cbn; lia|cbn; lia|vm_compute; discriminate|apply Forall_replicate; unfold is_byte; lia].
  - split; try reflexivity; [apply Forall_replicate; unfold is_byte; lia|cbn; lia|vm_compute; discriminate|constructor].
  - reflexivity.
  - repeat constructor; unfold is_byte; lia.
  - reflexivity.
  - exact one_user_page_wf.
  - lia.
  - exact console0_writable.
  - exists s1, s2. split; [exact E1|]. split; [exact E2|]. 
    cbn [map]. f_equal; [exact (B 0%nat 108 eq_refl)|]. f_equal; [exact (B 1%nat 115 eq_refl)|]. f_equal. exact (B 2%nat 10 eq_refl).
Defined.
