(* ===== verification/Sys.v ===== *)
(** * The state the system calls work on

    The state of the kernel around a system call: the process table with each
    process's page table, trap frame, open files and threads, the table of open
    files, the pipes, the file system, the network stack and the console.  There
    is one physical memory and one set of locks; they are kept in [y_fs], and
    [infs], [innet], [incons] and [onpipe] run an operation of a component on
    them.  A struct proc or struct file is named by its index, null by [null].

    Scheduling is Sched.v's; here sleep() ends a run with [Blocked]. *)
From stdpp Require Import strings.
From S2P Require Import Prelude Mem StringC Kalloc Page Vm KState Locks Bio Log Fs Pipe Sched Uart Console.
From Stdlib Require Import ZArith Lia.
Local Open Scope list_scope.
Local Open Scope Z_scope.
Local Open Scope kernel_scope.

Definition NPROC : Z := 64.
Definition NOFILE : Z := 16.
Definition NFILE : Z := 100.
Definition NDEV : Z := 10.
Definition MAX_THREADS : Z := 64.

Inductive ftype := FD_NONE | FD_PIPE | FD_INODE | FD_DEVICE | FD_SOCKET.
#[export] Instance ftype_eq : EqDecision ftype.
Proof. solve_decision. Defined.

(** struct file *)
Record file := mkFile {
  f_type : ftype; f_ref : Z; f_readable : Z; f_writable : Z; f_pipe : Z; f_ip : Z; f_sock : Z; f_off : Z; f_major : Z
}.
(** struct proc *)
Record proc := mkProc {
  p_state : procstate; p_chan : Z; p_killed : Z; p_xstate : Z; p_pid : Z; p_parent : Z;
  p_kstack : Z; p_sz : Z; p_pagetable : Z; p_trapframe : Z; p_context : Z * Z;
  p_ofile : list Z; p_cwd : Z; p_name : list Z; p_is_thread : Z; p_infant_threads : list Z
}.

(** [y_me] is the process that runs, [y_i] the [i] of its pipewrite();
    [y_trampoline], [y_forkret] and
    [y_rodata], where the strings . and .. are, are addresses the linker chooses. *)
Record sys := mkSys {
  y_fs : fss; y_net : kst; y_con : cst; y_pipes : gmap Z pipe; y_file : list file; y_proc : list proc; y_me : Z;
  y_initproc : Z; y_nextpid : Z; y_ticks : Z; y_i : Z; y_trampoline : Z; y_forkret : Z; y_rodata : Z
}.

Definition set_yfs (f : fss) (s : sys) : sys :=
  mkSys f (y_net s) (y_con s) (y_pipes s) (y_file s) (y_proc s) (y_me s) (y_initproc s) (y_nextpid s) (y_ticks s) (y_i s) (y_trampoline s) (y_forkret s) (y_rodata s).
Definition set_ynet (k : kst) (s : sys) : sys :=
  mkSys (y_fs s) k (y_con s) (y_pipes s) (y_file s) (y_proc s) (y_me s) (y_initproc s) (y_nextpid s) (y_ticks s) (y_i s) (y_trampoline s) (y_forkret s) (y_rodata s).
Definition set_ycon (c : cst) (s : sys) : sys :=
  mkSys (y_fs s) (y_net s) c (y_pipes s) (y_file s) (y_proc s) (y_me s) (y_initproc s) (y_nextpid s) (y_ticks s) (y_i s) (y_trampoline s) (y_forkret s) (y_rodata s).
Definition set_ypipes (m : gmap Z pipe) (s : sys) : sys :=
  mkSys (y_fs s) (y_net s) (y_con s) m (y_file s) (y_proc s) (y_me s) (y_initproc s) (y_nextpid s) (y_ticks s) (y_i s) (y_trampoline s) (y_forkret s) (y_rodata s).
Definition set_yfile (l : list file) (s : sys) : sys :=
  mkSys (y_fs s) (y_net s) (y_con s) (y_pipes s) l (y_proc s) (y_me s) (y_initproc s) (y_nextpid s) (y_ticks s) (y_i s) (y_trampoline s) (y_forkret s) (y_rodata s).
Definition set_yproc (l : list proc) (s : sys) : sys :=
  mkSys (y_fs s) (y_net s) (y_con s) (y_pipes s) (y_file s) l (y_me s) (y_initproc s) (y_nextpid s) (y_ticks s) (y_i s) (y_trampoline s) (y_forkret s) (y_rodata s).
Definition set_yme (i : Z) (s : sys) : sys :=
  mkSys (y_fs s) (y_net s) (y_con s) (y_pipes s) (y_file s) (y_proc s) i (y_initproc s) (y_nextpid s) (y_ticks s) (y_i s) (y_trampoline s) (y_forkret s) (y_rodata s).
Definition set_yinit (i n : Z) (s : sys) : sys :=
  mkSys (y_fs s) (y_net s) (y_con s) (y_pipes s) (y_file s) (y_proc s) (y_me s) i n (y_ticks s) (y_i s) (y_trampoline s) (y_forkret s) (y_rodata s).
Definition set_yi (i : Z) (s : sys) : sys :=
  mkSys (y_fs s) (y_net s) (y_con s) (y_pipes s) (y_file s) (y_proc s) (y_me s) (y_initproc s) (y_nextpid s) (y_ticks s) i (y_trampoline s) (y_forkret s) (y_rodata s).

(** ** Running the operations of a component *)

Definition zoom {S T A} (get : S -> T) (put : T -> S -> S) (c : M T A) : M S A := fun s =>
  match c (get s) with
  | Ret a t => Ret a (put t s)
  | Panic msg t => Panic msg (put t s)
  | Fault t => Fault (put t s)
  | Blocked ch t => Blocked ch (put t s)
  | Spin t => Spin (put t s)
  end.

(** The process that runs; none before the first. *)
Definition curproc (s : sys) : option proc := znth (y_proc s) (y_me s).
Definition curpt (s : sys) : Z := match curproc s with Some p => p_pagetable p | None => 0 end.
Definition curcwd (s : sys) : Z := match curproc s with Some p => p_cwd p | None => null end.
Definition curpid (s : sys) : Z := match curproc s with Some p => p_pid p | None => 0 end.
Definition curkilled (s : sys) : bool := match curproc s with Some p => negb (p_killed p =? 0) | None => false end.

Definition set_pidl (pid : Z) (k : lkst) : lkst := mkLk (lk_held k) (lk_sleep k) pid (lk_wakeups k).
Definition lk_of (s : sys) : lkst := set_pidl (curpid s) (bs_lk (ls_b (fs_l (y_fs s)))).
Definition phys_of (s : sys) : phys := fs_phys (y_fs s).

(** The file system with the page table, directory and pid of the process that runs. *)
Definition fs_get (s : sys) : fss :=
  let f := y_fs s in
  mkFss (mkLst (set_lk (lk_of s) (ls_b (fs_l f))) (ls_log (fs_l f))) (fs_itable f) (fs_sb f) (fs_phys f) (curpt s) (curcwd s) (fs_bufaddr f) (fs_frame f).
Definition infs {A} : M fss A -> M sys A := zoom fs_get set_yfs.

Definition put_lk (k : lkst) (s : sys) : sys :=
  let f := y_fs s in set_yfs (set_l (mkLst (set_lk k (ls_b (fs_l f))) (ls_log (fs_l f))) f) s.
Definition put_phys (h : phys) (s : sys) : sys := set_yfs (set_fphys h (y_fs s)) s.
Definition inlk {A} : M lkst A -> M sys A := zoom lk_of put_lk.
Definition inphys {A} : M phys A -> M sys A := zoom phys_of put_phys.

Definition net_get (s : sys) : kst :=
  let k := y_net s in
  mkKst (phys_of s) (k_netconf k) (k_arp k) (k_sockets k) (k_net k) (k_held k) (k_wakeups k) (k_arp_events k) (curpt s) (k_stack k).
Definition innet {A} : M kst A -> M sys A := zoom net_get (fun k s => put_phys (k_phys k) (set_ynet k s)).

Definition cons_get (s : sys) : cst :=
  let c := y_con s in
  mkCst (co_buf c) (co_r c) (co_w c) (co_e c) (set_tlk (lk_of s) (co_tty c)) (phys_of s) (curpt s) (curkilled s) (co_cbuf c) (co_n c) (co_dst c) (co_i c) (co_procs c).
Definition incons {A} : M cst A -> M sys A :=
  zoom cons_get (fun c s => put_lk (tt_lk (co_tty c)) (put_phys (co_phys c) (set_ycon c s))).

(** An operation on the struct pipe at [pi]. *)
Definition onpipe {A} (pi : Z) (c : M pst A) : M sys A := fun s =>
  match y_pipes s !! pi with
  | None => Fault s
  | Some p => zoom (fun s => mkPst p (phys_of s) (lk_of s) (curkilled s) (y_i s))
                   (fun t s => put_lk (pp_lk t) (put_phys (pp_phys t) (set_yi (pp_i t) (set_ypipes (<[pi := pp_pipe t]> (y_pipes s)) s)))) c s
  end.

Definition acquire (l : klock) : M sys unit := inlk (Locks.acquire l).
Definition release (l : klock) : M sys unit := inlk (Locks.release l).
Definition wakeup (chan : Z) : M sys unit := inlk (Locks.wakeup chan).
Definition sleep {A} (chan : Z) (l : klock) : M sys A := inlk (Locks.sleep chan l).
Definition begin_op : M sys unit := infs (lift Log.begin_op).
Definition end_op : M sys unit := infs (lift Log.end_op).

(** Access to the struct proc [i]. *)
Definition getp (i : Z) : M sys proc := fun s => match znth (y_proc s) i with Some p => Ret p s | None => Fault s end.
Definition setp (i : Z) (p : proc) : M sys unit := fun s =>
  match zset (y_proc s) i p with Some l => Ret tt (set_yproc l s) | None => Fault s end.
Definition modp (i : Z) (f : proc -> proc) : M sys unit := p <- getp i ;; setp i (f p).
Definition myproc : M sys proc := i <- gets y_me ;; getp i.
