(* ===== verification/File.v ===== *)
(** * kernel/file.c and pipealloc of kernel/pipe.c

    struct file and its reference counts.  A struct file ends with the last
    descriptor that refers to it; a pipe's page is freed with its last end. *)
From stdpp Require Import strings.
From S2P Require Import Prelude Mem StringC Kalloc Page Vm KState Udp Tcp Locks Bio Log Fs Pipe Uart Console Sys.
From Stdlib Require Import ZArith Lia.
Local Open Scope list_scope.
Local Open Scope Z_scope.
Local Open Scope kernel_scope.

Definition set_fref (r : Z) (f : file) : file :=
  mkFile (f_type f) r (f_readable f) (f_writable f) (f_pipe f) (f_ip f) (f_sock f) (f_off f) (f_major f).
Definition set_ftype (t : ftype) (f : file) : file :=
  mkFile t (f_ref f) (f_readable f) (f_writable f) (f_pipe f) (f_ip f) (f_sock f) (f_off f) (f_major f).
Definition set_frw (r w : Z) (f : file) : file :=
  mkFile (f_type f) (f_ref f) r w (f_pipe f) (f_ip f) (f_sock f) (f_off f) (f_major f).
Definition set_fpipe (p : Z) (f : file) : file :=
  mkFile (f_type f) (f_ref f) (f_readable f) (f_writable f) p (f_ip f) (f_sock f) (f_off f) (f_major f).
Definition set_fip (ip : Z) (f : file) : file :=
  mkFile (f_type f) (f_ref f) (f_readable f) (f_writable f) (f_pipe f) ip (f_sock f) (f_off f) (f_major f).
Definition set_fsock (k : Z) (f : file) : file :=
  mkFile (f_type f) (f_ref f) (f_readable f) (f_writable f) (f_pipe f) (f_ip f) k (f_off f) (f_major f).
Definition set_foff (o : Z) (f : file) : file :=
  mkFile (f_type f) (f_ref f) (f_readable f) (f_writable f) (f_pipe f) (f_ip f) (f_sock f) o (f_major f).
Definition set_fmajor (m : Z) (f : file) : file :=
  mkFile (f_type f) (f_ref f) (f_readable f) (f_writable f) (f_pipe f) (f_ip f) (f_sock f) (f_off f) m.

(** Access through a struct file pointer. *)
Definition getf (i : Z) : M sys file := fun s => match znth (y_file s) i with Some f => Ret f s | None => Fault s end.
Definition setf (i : Z) (f : file) : M sys unit := fun s =>
  match zset (y_file s) i f with Some l => Ret tt (set_yfile l s) | None => Fault s end.
Definition modf (i : Z) (g : file -> file) : M sys unit := f <- getf i ;; setf i (g f).

(** A null inode pointer is dereferenced with itable locked. *)
Definition iput_ptr (ip : Z) : M sys unit := if ip =? null then acquire L_itable ;;; fault else infs (iput ip).

Definition fileinit : M sys unit := inlk (Uart.initlock L_ftable).

(** The first unused entry from [i] on. *)
Fixpoint file_scan (l : list file) (i : Z) : Z :=
  match l with [] => null | f :: l => if f_ref f =? 0 then i else file_scan l (i + 1) end.

Definition filealloc : M sys Z :=
  acquire L_ftable ;;;
  l <- gets y_file ;;
  let f := file_scan l 0 in
  if f =? null then release L_ftable ;;; ret null
  else modf f (set_fref 1) ;;; release L_ftable ;;; ret f.

Definition filedup (f : Z) : M sys Z :=
  acquire L_ftable ;;;
  k <- getf f ;;
  if f_ref k <? 1 then panic "filedup"
  else modf f (set_fref (s32 (f_ref k + 1))) ;;; release L_ftable ;;; ret f.

(** pipeclose(), which frees the struct pipe with its last end. *)
Definition pipeclose_ (pi : Z) (writable : bool) : M sys unit :=
  onpipe pi (pipeclose pi writable) ;;;
  modify (fun s => match y_pipes s !! pi with
    | Some p => if (pi_readopen p =? 0) && (pi_writeopen p =? 0) then set_ypipes (delete pi (y_pipes s)) s else s
    | None => s end).

Definition ops_close (o : socket_ops) (sock : Z) : M kst Z :=
  match o with udp_ops => udp_close sock | tcp_ops => tcp_close sock | null_ops => fault end.

Definition fileclose (f : Z) : M sys unit :=
  acquire L_ftable ;;;
  k <- getf f ;;
  if f_ref k <? 1 then panic "fileclose"
  else
    modf f (set_fref (s32 (f_ref k - 1))) ;;;
    if 0 <? s32 (f_ref k - 1) then release L_ftable
    else
      ff <- getf f ;;
      modf f (set_fref 0) ;;;
      modf f (set_ftype FD_NONE) ;;;
      release L_ftable ;;;
      match f_type ff with
      | FD_PIPE => pipeclose_ (f_pipe ff) (negb (f_writable ff =? 0))
      | FD_INODE | FD_DEVICE => begin_op ;;; iput_ptr (f_ip ff) ;;; end_op
      | FD_SOCKET =>
          g <- getf f ;;
          innet (k <- sock_get (f_sock g) ;; ops_close (so_ops k) (f_sock g)) ;;;
          ret tt
      | FD_NONE => ret tt
      end.

(** The locals of the system calls on the kernel stack. *)
Definition st_buf (s : sys) : Z := fs_frame (y_fs s) + 512.
Definition ch_buf (s : sys) : Z := fs_frame (y_fs s) + 48.

Definition filestat (f addr : Z) : M sys Z :=
  k <- getf f ;;
  if bool_decide (f_type k = FD_INODE) || bool_decide (f_type k = FD_DEVICE) then
    st <- gets st_buf ;;
    infs (ilock (f_ip k)) ;;;
    infs (stati (f_ip k) st) ;;;
    infs (iunlock (f_ip k)) ;;;
    pt <- gets curpt ;;
    r <- inphys (copyout pt addr st 24) ;;
    if r <? 0 then ret (-1) else ret 0
  else ret (-1).

(** devsw[], as consoleinit() fills it. *)
Definition CONSOLE : Z := 1.
Definition devsw_read (major : Z) : option (Z -> Z -> M sys Z) :=
  if major =? CONSOLE then Some (fun addr n => incons (consoleread true addr n)) else None.
Definition devsw_write (major : Z) : option (Z -> Z -> M sys Z) :=
  if major =? CONSOLE then Some (fun addr n => incons (consolewrite true addr n)) else None.

Definition fileread (f addr n : Z) : M sys Z :=
  k <- getf f ;;
  if f_readable k =? 0 then ret (-1)
  else
    match f_type k with
    | FD_PIPE => pt <- gets curpt ;; ch <- gets ch_buf ;; onpipe (f_pipe k) (piperead (f_pipe k) pt ch addr n)
    | FD_DEVICE =>
        if (f_major k <? 0) || (NDEV <=? f_major k) then ret (-1)
        else match devsw_read (f_major k) with None => ret (-1) | Some rd => rd addr n end
    | FD_INODE =>
        infs (ilock (f_ip k)) ;;;
        k <- getf f ;;
        r <- infs (readi (f_ip k) true addr (f_off k) (u32 n)) ;;
        when (0 <? r) (modf f (set_foff (u32 (f_off k + r)))) ;;;
        infs (iunlock (f_ip k)) ;;;
        ret r
    | FD_NONE | FD_SOCKET => panic "fileread"
    end.

(** [max] of filewrite. *)
Definition write_max : Z := (MAXOPBLOCKS - 1 - 1 - 2) / 2 * BSIZE.

(** The loop of filewrite from [i] on, one turn per transaction: the final [i]. *)
Fixpoint filewrite_loop (fuel : nat) (f addr n i : Z) : M sys Z :=
  match fuel with
  | O => fun s => Spin s
  | S fuel =>
      if negb (i <? n) then ret i
      else
        let n1 := if write_max <? n - i then write_max else n - i in
        begin_op ;;;
        k <- getf f ;;
        infs (ilock (f_ip k)) ;;;
        k <- getf f ;;
        r <- infs (writei (f_ip k) true (u64 (addr + i)) (f_off k) n1) ;;
        when (0 <? r) (modf f (set_foff (u32 (f_off k + r)))) ;;;
        infs (iunlock (f_ip k)) ;;;
        end_op ;;;
        if negb (r =? n1) then ret i else filewrite_loop fuel f addr n (i + r)
  end.

Definition filewrite (f addr n : Z) : M sys Z :=
  k <- getf f ;;
  if f_writable k =? 0 then ret (-1)
  else
    match f_type k with
    | FD_PIPE => pt <- gets curpt ;; ch <- gets ch_buf ;; onpipe (f_pipe k) (pipewrite (f_pipe k) pt ch addr n)
    | FD_DEVICE =>
        if (f_major k <? 0) || (NDEV <=? f_major k) then ret (-1)
        else match devsw_write (f_major k) with None => ret (-1) | Some wr => wr addr n end
    | FD_INODE =>
        i <- filewrite_loop (S (Z.to_nat n)) f addr n 0 ;;
        ret (if i =? n then n else -1)
    | FD_NONE | FD_SOCKET => panic "filewrite"
    end.

(** The error exit of pipealloc. *)
Definition pipe_bad (pi f0 f1 : Z) : M sys (Z * Z * Z) :=
  when (negb (pi =? 0)) (inphys (pg_kfree pi)) ;;;
  when (negb (f0 =? null)) (fileclose f0) ;;;
  when (negb (f1 =? null)) (fileclose f1) ;;;
  ret (-1, f0, f1).

(** pipealloc(): the result with [*f0] and [*f1]. *)
Definition pipealloc : M sys (Z * Z * Z) :=
  f0 <- filealloc ;;
  if f0 =? null then pipe_bad 0 null null
  else
    f1 <- filealloc ;;
    if f1 =? null then pipe_bad 0 f0 null
    else
      pi <- inphys pg_kalloc ;;
      if pi =? 0 then pipe_bad 0 f0 f1
      else
        m <- inphys (getmem (fun m => m)) ;;
        modify (fun s => set_ypipes (<[pi := new_pipe (ldbytes m (pi + 24) 512)]> (y_pipes s)) s) ;;;
        inlk (Uart.initlock (L_pipe pi)) ;;;
        modf f0 (fun f => set_fpipe pi (set_frw 1 0 (set_ftype FD_PIPE f))) ;;;
        modf f1 (fun f => set_fpipe pi (set_frw 0 1 (set_ftype FD_PIPE f))) ;;;
        ret (0, f0, f1).
