(* ===== verification/Syscall.v ===== *)
(** * Arguments of system calls and file descriptors

    The argument fetching of kernel/syscall.c and the calls on descriptors of
    kernel/sysfile.c.  A handler takes its arguments from the registers saved in
    the trap frame. *)
From stdpp Require Import strings.
From S2P Require Import Prelude Mem StringC Kalloc Page Vm Locks Log Fs Pipe Sys File.
From Stdlib Require Import ZArith Lia.
Local Open Scope list_scope.
Local Open Scope Z_scope.
Local Open Scope kernel_scope.

(** ** struct trapframe *)

Definition tf_epc : Z := 24.
Definition tf_ra : Z := 40.
Definition tf_sp : Z := 48.
Definition tf_a (n : Z) : Z := 112 + 8 * n.
Definition trapframe_size : Z := 288.

Definition getreg (off : Z) : M sys Z := p <- myproc ;; inphys (getmem (fun m => ld64 m (p_trapframe p + off))).
Definition setreg (off v : Z) : M sys unit := p <- myproc ;; inphys (setmem (fun m => st64 m (p_trapframe p + off) v)).

(** ** syscall.c *)

Definition fetchaddr (addr ip : Z) : M sys Z :=
  p <- myproc ;;
  if (p_sz p <=? addr) || (p_sz p <? u64 (addr + 8)) then ret (-1)
  else
    r <- inphys (copyin (p_pagetable p) ip addr 8) ;;
    if negb (r =? 0) then ret (-1) else ret 0.

Definition fetchstr (addr buf max : Z) : M sys Z :=
  p <- myproc ;;
  r <- inphys (copyinstr (p_pagetable p) buf addr max) ;;
  if r <? 0 then ret (-1)
  else
    n <- inphys (getmem (fun m => strlen (Z.to_nat max) m buf)) ;;
    match n with Some n => ret n | None => fun s => Spin s end.

Definition argraw (n : Z) : M sys Z := if (0 <=? n) && (n <=? 5) then getreg (tf_a n) else panic "argraw".
Definition argint (n : Z) : M sys Z := v <- argraw n ;; ret (s32 v).
Definition argaddr (n : Z) : M sys Z := argraw n.
Definition argstr (n buf max : Z) : M sys Z := addr <- argaddr n ;; fetchstr addr buf max.

(** ** Descriptors *)

(** argfd(): the descriptor and its file, or [None] for -1. *)
Definition argfd (n : Z) : M sys (option (Z * Z)) :=
  fd <- argint n ;;
  if (fd <? 0) || (NOFILE <=? fd) then ret None
  else
    p <- myproc ;;
    match znth (p_ofile p) fd with
    | None => fault
    | Some f => ret (if f =? null then None else Some (fd, f))
    end.

Definition set_ofile (l : list Z) (p : proc) : proc :=
  mkProc (p_state p) (p_chan p) (p_killed p) (p_xstate p) (p_pid p) (p_parent p) (p_kstack p) (p_sz p) (p_pagetable p) (p_trapframe p)
    (p_context p) l (p_cwd p) (p_name p) (p_is_thread p) (p_infant_threads p).

(** [p->ofile[fd] = f] for process [i] *)
Definition put_ofile (i fd f : Z) : M sys unit :=
  p <- getp i ;; match zset (p_ofile p) fd f with None => fault | Some l => setp i (set_ofile l p) end.

(** The first free descriptor from [fd] on. *)
Fixpoint fd_scan (l : list Z) (fd : Z) : Z :=
  match l with [] => -1 | f :: l => if f =? null then fd else fd_scan l (fd + 1) end.

Definition fdalloc (f : Z) : M sys Z :=
  i <- gets y_me ;;
  p <- getp i ;;
  let fd := fd_scan (p_ofile p) 0 in
  if fd =? -1 then ret (-1) else put_ofile i fd f ;;; ret fd.

Definition sys_dup : M sys Z :=
  a <- argfd 0 ;;
  match a with
  | None => ret (-1)
  | Some (_, f) =>
      fd <- fdalloc f ;;
      if fd <? 0 then ret (-1) else filedup f ;;; ret fd
  end.

Definition sys_read : M sys Z :=
  p <- argaddr 1 ;;
  n <- argint 2 ;;
  a <- argfd 0 ;;
  match a with None => ret (-1) | Some (_, f) => fileread f p n end.

Definition sys_write : M sys Z :=
  p <- argaddr 1 ;;
  n <- argint 2 ;;
  a <- argfd 0 ;;
  match a with None => ret (-1) | Some (_, f) => filewrite f p n end.

Definition sys_close : M sys Z :=
  a <- argfd 0 ;;
  match a with
  | None => ret (-1)
  | Some (fd, f) => i <- gets y_me ;; put_ofile i fd null ;;; fileclose f ;;; ret 0
  end.

Definition sys_fstat : M sys Z :=
  st <- argaddr 1 ;;
  a <- argfd 0 ;;
  match a with None => ret (-1) | Some (_, f) => filestat f st end.

(** sys_pipe()'s [fd0] and [fd1] on the stack. *)
Definition fd0_buf (s : sys) : Z := fs_frame (y_fs s) + 544.
Definition fd1_buf (s : sys) : Z := fs_frame (y_fs s) + 548.

Definition sys_pipe : M sys Z :=
  fdarray <- argaddr 0 ;;
  let* (r, rf, wf) := pipealloc in
  if r <? 0 then ret (-1)
  else
    i <- gets y_me ;;
    fd0 <- fdalloc rf ;;
    if fd0 <? 0 then fileclose rf ;;; fileclose wf ;;; ret (-1)
    else
      fd1 <- fdalloc wf ;;
      if fd1 <? 0 then put_ofile i fd0 null ;;; fileclose rf ;;; fileclose wf ;;; ret (-1)
      else
        a0 <- gets fd0_buf ;;
        a1 <- gets fd1_buf ;;
        inphys (setmem (fun m => st32 (st32 m a0 fd0) a1 fd1)) ;;;
        pt <- gets curpt ;;
        r0 <- inphys (copyout pt fdarray a0 4) ;;
        r1 <- (if r0 <? 0 then ret (-1) else inphys (copyout pt (u64 (fdarray + 4)) a1 4)) ;;
        if (r0 <? 0) || (r1 <? 0) then
          put_ofile i fd0 null ;;;
          put_ofile i fd1 null ;;;
          fileclose rf ;;;
          fileclose wf ;;;
          ret (-1)
        else ret 0.
