(* ===== verification/Proc.v ===== *)
(** * kernel/proc.c: processes, their memory and their threads

    Creation and end of processes and threads, with their page tables and open
    files, and the threaded allocation of kernel/vm.c.  The scheduler itself is
    in Sched.v: where exit() calls sched() for the last time, the function
    returns here with the process's lock held. *)
From stdpp Require Import strings.
From S2P Require Import Prelude Mem StringC Kalloc Page Vm Locks Log Fs Sched User Uart Console Sys File Syscall.
From Stdlib Require Import ZArith Lia.
Local Open Scope list_scope.
Local Open Scope Z_scope.
Local Open Scope kernel_scope.

(** ** Fields of struct proc *)

Definition set_pstate (st : procstate) (p : proc) : proc :=
  mkProc st (p_chan p) (p_killed p) (p_xstate p) (p_pid p) (p_parent p) (p_kstack p) (p_sz p) (p_pagetable p) (p_trapframe p)
    (p_context p) (p_ofile p) (p_cwd p) (p_name p) (p_is_thread p) (p_infant_threads p).
Definition set_pkilled (k : Z) (p : proc) : proc :=
  mkProc (p_state p) (p_chan p) k (p_xstate p) (p_pid p) (p_parent p) (p_kstack p) (p_sz p) (p_pagetable p) (p_trapframe p)
    (p_context p) (p_ofile p) (p_cwd p) (p_name p) (p_is_thread p) (p_infant_threads p).
Definition set_pxstate (x : Z) (p : proc) : proc :=
  mkProc (p_state p) (p_chan p) (p_killed p) x (p_pid p) (p_parent p) (p_kstack p) (p_sz p) (p_pagetable p) (p_trapframe p)
    (p_context p) (p_ofile p) (p_cwd p) (p_name p) (p_is_thread p) (p_infant_threads p).
Definition set_ppid (n : Z) (p : proc) : proc :=
  mkProc (p_state p) (p_chan p) (p_killed p) (p_xstate p) n (p_parent p) (p_kstack p) (p_sz p) (p_pagetable p) (p_trapframe p)
    (p_context p) (p_ofile p) (p_cwd p) (p_name p) (p_is_thread p) (p_infant_threads p).
Definition set_pparent (i : Z) (p : proc) : proc :=
  mkProc (p_state p) (p_chan p) (p_killed p) (p_xstate p) (p_pid p) i (p_kstack p) (p_sz p) (p_pagetable p) (p_trapframe p)
    (p_context p) (p_ofile p) (p_cwd p) (p_name p) (p_is_thread p) (p_infant_threads p).
Definition set_psz (n : Z) (p : proc) : proc :=
  mkProc (p_state p) (p_chan p) (p_killed p) (p_xstate p) (p_pid p) (p_parent p) (p_kstack p) n (p_pagetable p) (p_trapframe p)
    (p_context p) (p_ofile p) (p_cwd p) (p_name p) (p_is_thread p) (p_infant_threads p).
Definition set_ppagetable (a : Z) (p : proc) : proc :=
  mkProc (p_state p) (p_chan p) (p_killed p) (p_xstate p) (p_pid p) (p_parent p) (p_kstack p) (p_sz p) a (p_trapframe p)
    (p_context p) (p_ofile p) (p_cwd p) (p_name p) (p_is_thread p) (p_infant_threads p).
Definition set_ptrapframe (a : Z) (p : proc) : proc :=
  mkProc (p_state p) (p_chan p) (p_killed p) (p_xstate p) (p_pid p) (p_parent p) (p_kstack p) (p_sz p) (p_pagetable p) a
    (p_context p) (p_ofile p) (p_cwd p) (p_name p) (p_is_thread p) (p_infant_threads p).
Definition set_pcontext (c : Z * Z) (p : proc) : proc :=
  mkProc (p_state p) (p_chan p) (p_killed p) (p_xstate p) (p_pid p) (p_parent p) (p_kstack p) (p_sz p) (p_pagetable p) (p_trapframe p)
    c (p_ofile p) (p_cwd p) (p_name p) (p_is_thread p) (p_infant_threads p).
Definition set_pcwd (i : Z) (p : proc) : proc :=
  mkProc (p_state p) (p_chan p) (p_killed p) (p_xstate p) (p_pid p) (p_parent p) (p_kstack p) (p_sz p) (p_pagetable p) (p_trapframe p)
    (p_context p) (p_ofile p) i (p_name p) (p_is_thread p) (p_infant_threads p).
Definition set_pname (n : list Z) (p : proc) : proc :=
  mkProc (p_state p) (p_chan p) (p_killed p) (p_xstate p) (p_pid p) (p_parent p) (p_kstack p) (p_sz p) (p_pagetable p) (p_trapframe p)
    (p_context p) (p_ofile p) (p_cwd p) n (p_is_thread p) (p_infant_threads p).
Definition set_pthread (t : Z) (p : proc) : proc :=
  mkProc (p_state p) (p_chan p) (p_killed p) (p_xstate p) (p_pid p) (p_parent p) (p_kstack p) (p_sz p) (p_pagetable p) (p_trapframe p)
    (p_context p) (p_ofile p) (p_cwd p) (p_name p) t (p_infant_threads p).
Definition set_pinfants (l : list Z) (p : proc) : proc :=
  mkProc (p_state p) (p_chan p) (p_killed p) (p_xstate p) (p_pid p) (p_parent p) (p_kstack p) (p_sz p) (p_pagetable p) (p_trapframe p)
    (p_context p) (p_ofile p) (p_cwd p) (p_name p) (p_is_thread p) l.
Definition put_infant (i k np : Z) : M sys unit :=
  p <- getp i ;; match zset (p_infant_threads p) k np with None => fault | Some l => setp i (set_pinfants l p) end.

(** The sleep channel of a struct proc. *)
Definition chan_proc (i : Z) : Z := 0x40000 + i.

(** ** Page tables of processes *)

Definition proc_pagetable (trapframe trampoline : Z) : M phys Z :=
  pagetable <- uvmcreate ;;
  if pagetable =? 0 then ret 0
  else
    r <- mappages pagetable TRAMPOLINE PGSIZE trampoline (Z.lor PTE_R PTE_X) ;;
    if r <? 0 then uvmfree pagetable 0 ;;; ret 0
    else
      r <- mappages pagetable TRAPFRAME PGSIZE trapframe (Z.lor PTE_R PTE_W) ;;
      if r <? 0 then uvmunmap pagetable TRAMPOLINE 1 false ;;; uvmfree pagetable 0 ;;; ret 0
      else ret pagetable.

Definition proc_freepagetable (pagetable sz : Z) : M phys unit :=
  uvmunmap pagetable TRAMPOLINE 1 false ;;;
  uvmunmap pagetable TRAPFRAME 1 false ;;;
  uvmfree pagetable sz.

(** KSTACK(p) of memlayout.h *)
Definition KSTACK (p : Z) : Z := TRAMPOLINE - (p + 1) * 2 * PGSIZE.

Fixpoint proc_mapstacks_loop (n : nat) (i kpgtbl : Z) : M phys unit :=
  match n with
  | O => ret tt
  | S n =>
      pa <- pg_kalloc ;;
      if pa =? 0 then panic "kalloc"
      else kvmmap kpgtbl (KSTACK i) pa PGSIZE (Z.lor PTE_R PTE_W) ;;; proc_mapstacks_loop n (i + 1) kpgtbl
  end.
Definition proc_mapstacks (kpgtbl : Z) : M phys unit := proc_mapstacks_loop (Z.to_nat NPROC) 0 kpgtbl.

Fixpoint procinit_loop (n : nat) (i : Z) : M sys unit :=
  match n with
  | O => ret tt
  | S n =>
      inlk (initlock (L_proc i)) ;;;
      modp i (fun p => set_pstate UNUSED p) ;;;
      modp i (fun p => mkProc (p_state p) (p_chan p) (p_killed p) (p_xstate p) (p_pid p) (p_parent p) (KSTACK i) (p_sz p) (p_pagetable p)
        (p_trapframe p) (p_context p) (p_ofile p) (p_cwd p) (p_name p) (p_is_thread p) (p_infant_threads p)) ;;;
      procinit_loop n (i + 1)
  end.
Definition procinit : M sys unit :=
  inlk (initlock L_pid) ;;; inlk (initlock L_wait) ;;; procinit_loop (Z.to_nat NPROC) 0.

(** ** Allocation *)

Definition allocpid : M sys Z :=
  acquire L_pid ;;;
  pid <- gets y_nextpid ;;
  modify (fun s => set_yinit (y_initproc s) (s32 (pid + 1)) s) ;;;
  release L_pid ;;;
  ret pid.

Definition freeproc (i : Z) : M sys unit :=
  p <- getp i ;;
  when (negb (p_trapframe p =? 0)) (inphys (pg_kfree (p_trapframe p))) ;;;
  modp i (set_ptrapframe 0) ;;;
  p <- getp i ;;
  when (negb (p_pagetable p =? 0)) (inphys (proc_freepagetable (p_pagetable p) (p_sz p))) ;;;
  modp i (fun p => mkProc UNUSED 0 0 0 0 null (p_kstack p) 0 0 (p_trapframe p) (p_context p) (p_ofile p) (p_cwd p)
    (match p_name p with [] => [] | _ :: l => 0 :: l end) (p_is_thread p) (p_infant_threads p)).

(** The search of allocproc: the unused process found, with its lock held. *)
Fixpoint allocproc_scan (n : nat) (i : Z) : M sys Z :=
  match n with
  | O => ret null
  | S n =>
      acquire (L_proc i) ;;;
      p <- getp i ;;
      if decide (p_state p = UNUSED) then ret i
      else release (L_proc i) ;;; allocproc_scan n (i + 1)
  end.

(** memset(p->infant_threads, 0, MAX_THREADS) clears that many bytes. *)
Definition clear_infants (l : list Z) : list Z := replicate (Z.to_nat (MAX_THREADS / 8)) null ++ drop (Z.to_nat (MAX_THREADS / 8)) l.

Definition allocproc : M sys Z :=
  i <- allocproc_scan (Z.to_nat NPROC) 0 ;;
  if i =? null then ret null
  else
    pid <- allocpid ;;
    modp i (fun p => set_pstate USED (set_ppid pid p)) ;;;
    tf <- inphys pg_kalloc ;;
    modp i (set_ptrapframe tf) ;;;
    if tf =? 0 then freeproc i ;;; release (L_proc i) ;;; ret null
    else
      tramp <- gets y_trampoline ;;
      pt <- inphys (proc_pagetable tf tramp) ;;
      modp i (set_ppagetable pt) ;;;
      if pt =? 0 then freeproc i ;;; release (L_proc i) ;;; ret null
      else
        fr <- gets y_forkret ;;
        modp i (fun p => set_pcontext (fr, u64 (p_kstack p + PGSIZE)) p) ;;;
        modp i (fun p => set_pinfants (clear_infants (p_infant_threads p)) p) ;;;
        ret i.

(** safestrcpy() into the 16 bytes of [p->name]: a NUL that was copied is
    followed by the one written at the end. *)
Fixpoint before_nul (k : nat) (l : list Z) : list Z :=
  match k, l with S k, c :: l => if c =? 0 then [] else c :: before_nul k l | _, _ => [] end.
Definition name_cpy (dst src : list Z) : list Z :=
  let l := before_nul 15 src in
  let m := if (length l <? 15)%nat then l ++ [0; 0] else l ++ [0] in
  m ++ drop (length m) dst.

(** The bytes user/initcode.S assembles to. *)
Definition initcode : list Z := [
  0x17; 0x05; 0x00; 0x00; 0x13; 0x05; 0x45; 0x02;
  0x97; 0x05; 0x00; 0x00; 0x93; 0x85; 0x35; 0x02;
  0x93; 0x08; 0x70; 0x00; 0x73; 0x00; 0x00; 0x00;
  0x93; 0x08; 0x20; 0x00; 0x73; 0x00; 0x00; 0x00;
  0xef; 0xf0; 0x9f; 0xff; 0x2f; 0x69; 0x6e; 0x69;
  0x74; 0x00; 0x00; 0x24; 0x00; 0x00; 0x00; 0x00;
  0x00; 0x00; 0x00; 0x00 ].

(** userinit(): [code] and [root] are where the initialised data has initcode
    and the string of the root's path. *)
Definition userinit (code root : Z) : M sys unit :=
  i <- allocproc ;;
  modify (fun s => set_yinit i (y_nextpid s) s) ;;;
  p <- getp i ;;
  inphys (uvmfirst (p_pagetable p) code (Z.of_nat (length initcode))) ;;;
  modp i (set_psz PGSIZE) ;;;
  inphys (setmem (fun m => st64 m (p_trapframe p + tf_epc) 0)) ;;;
  inphys (setmem (fun m => st64 m (p_trapframe p + tf_sp) PGSIZE)) ;;;
  modp i (fun p => set_pname (name_cpy (p_name p) [105; 110; 105; 116; 99; 111; 100; 101; 0]) p) ;;;
  cwd <- infs (namei root) ;;
  modp i (fun p => set_pstate RUNNABLE (set_pcwd cwd p)) ;;;
  release (L_proc i).

(** ** Growing and shrinking *)

(** kernel/vm.c: one page mapped into every thread of [parent]: [false] if that
    fails. *)
Fixpoint map_infants (l : list Z) (a oldsz newsz mem xperm : Z) : M sys bool :=
  match l with
  | [] => ret true
  | i :: l =>
      if i =? null then map_infants l a oldsz newsz mem xperm
      else
        q <- getp i ;;
        r <- inphys (mappages (p_pagetable q) a PGSIZE mem (Z.lor (Z.lor PTE_R PTE_U) xperm)) ;;
        if negb (r =? 0) then
          inphys (pg_kfree mem) ;;; inphys (uvmdealloc (p_pagetable q) a oldsz) ;;; ret false
        else modp i (set_psz newsz) ;;; map_infants l a oldsz newsz mem xperm
  end.

Fixpoint threaded_alloc_loop (fuel : nat) (thread parent a oldsz newsz xperm : Z) : M sys Z :=
  match fuel with
  | O => fun s => Spin s
  | S fuel =>
      if negb (a <? newsz) then ret newsz
      else
        mem <- inphys pg_kalloc ;;
        if mem =? 0 then t <- getp thread ;; inphys (uvmdealloc (p_pagetable t) a oldsz) ;;; ret 0
        else
          inphys (setmem (fun m => memset m mem 0 PGSIZE)) ;;;
          p <- getp parent ;;
          ok <- map_infants (p_infant_threads p) a oldsz newsz mem xperm ;;
          if negb ok then ret 0
          else
            p <- getp parent ;;
            r <- inphys (mappages (p_pagetable p) a PGSIZE mem (Z.lor (Z.lor PTE_R PTE_U) xperm)) ;;
            if negb (r =? 0) then inphys (pg_kfree mem) ;;; inphys (uvmdealloc (p_pagetable p) a oldsz) ;;; ret 0
            else modp parent (set_psz newsz) ;;; threaded_alloc_loop fuel thread parent (a + PGSIZE) oldsz newsz xperm
  end.
Definition uvmthreaded_alloc (thread oldsz newsz xperm : Z) : M sys Z :=
  t <- getp thread ;;
  if newsz <? oldsz then ret oldsz
  else
    let oldsz := PGROUNDUP oldsz in
    threaded_alloc_loop (S (Z.to_nat ((newsz - oldsz) / PGSIZE + 1))) thread (p_parent t) oldsz oldsz newsz xperm.

Fixpoint unmap_infants (l : list Z) (oldsz newsz npages : Z) : M sys unit :=
  match l with
  | [] => ret tt
  | i :: l =>
      if i =? null then unmap_infants l oldsz newsz npages
      else
        q <- getp i ;;
        when (PGROUNDUP newsz <? PGROUNDUP oldsz) (inphys (uvmunmap (p_pagetable q) (PGROUNDUP newsz) npages false)) ;;;
        modp i (set_psz newsz) ;;;
        unmap_infants l oldsz newsz npages
  end.
Definition uvmthreaded_dealloc (thread oldsz newsz : Z) : M sys Z :=
  t <- getp thread ;;
  if oldsz <=? newsz then ret oldsz
  else
    let npages := u64 (s32 ((PGROUNDUP oldsz - PGROUNDUP newsz) / PGSIZE)) in
    p <- getp (p_parent t) ;;
    unmap_infants (p_infant_threads p) oldsz newsz npages ;;;
    p <- getp (p_parent t) ;;
    inphys (uvmunmap (p_pagetable p) (PGROUNDUP newsz) npages true) ;;;
    modp (p_parent t) (set_psz newsz) ;;;
    ret newsz.

Definition growproc (n : Z) : M sys Z :=
  i <- gets y_me ;;
  p <- getp i ;;
  let sz := p_sz p in
  r <- (if 0 <? n then
          (if p_is_thread p =? 1 then uvmthreaded_alloc i sz (u64 (sz + n)) PTE_W
           else inphys (uvmalloc (p_pagetable p) sz (u64 (sz + n)) PTE_W))
        else if n <? 0 then
          (if p_is_thread p =? 1 then uvmthreaded_dealloc i sz (u64 (sz + n))
           else inphys (uvmdealloc (p_pagetable p) sz (u64 (sz + n))))
        else ret sz) ;;
  if (0 <? n) && (r =? 0) then ret (-1) else modp i (set_psz r) ;;; ret 0.

(** ** fork and threads *)

(** The loop over the descriptors of [p], from [fd] on, for the child [np]. *)
Fixpoint dup_files (l : list Z) (np fd : Z) : M sys unit :=
  match l with
  | [] => ret tt
  | f :: l => when (negb (f =? null)) (g <- filedup f ;; put_ofile np fd g) ;;; dup_files l np (fd + 1)
  end.

(** idup() dereferences the pointer with itable locked. *)
Definition idup_ptr (ip : Z) : M sys Z := if ip =? null then acquire L_itable ;;; fault else infs (idup ip).

(** [*(np->trapframe) = *(p->trapframe)] *)
Definition copy_trapframe (p np : proc) : M sys unit :=
  inphys (setmem (fun m => memmove m (p_trapframe np) (p_trapframe p) trapframe_size)).
Definition set_tf (q : proc) (off v : Z) : M sys unit := inphys (setmem (fun m => st64 m (p_trapframe q + off) v)).

Definition fork : M sys Z :=
  i <- gets y_me ;;
  p <- getp i ;;
  np <- allocproc ;;
  if np =? null then ret (-1)
  else
    q <- getp np ;;
    r <- inphys (uvmcopy (p_pagetable p) (p_pagetable q) (p_sz p)) ;;
    if r <? 0 then freeproc np ;;; release (L_proc np) ;;; ret (-1)
    else
      modp np (set_psz (p_sz p)) ;;;
      copy_trapframe p q ;;;
      set_tf q (tf_a 0) 0 ;;;
      dup_files (p_ofile p) np 0 ;;;
      cwd <- idup_ptr (p_cwd p) ;;
      modp np (set_pcwd cwd) ;;;
      modp np (fun q => set_pname (name_cpy (p_name q) (p_name p)) q) ;;;
      q <- getp np ;;
      release (L_proc np) ;;;
      acquire L_wait ;;;
      modp np (set_pparent i) ;;;
      release L_wait ;;;
      acquire (L_proc np) ;;;
      modp np (set_pstate RUNNABLE) ;;;
      modp np (set_pthread 0) ;;;
      release (L_proc np) ;;;
      ret (p_pid q).

(** The first free entry of infant_threads, or 0. *)
Fixpoint thread_slot (l : list Z) (k : Z) : Z :=
  match l with [] => 0 | i :: l => if i =? null then k else thread_slot l (k + 1) end.

Definition create_thread (fn_addr args stack_addr exit_fn : Z) : M sys Z :=
  i <- gets y_me ;;
  p <- getp i ;;
  let thread_idx := thread_slot (p_infant_threads p) 0 in
  np <- allocproc ;;
  if np =? null then incons (lift (kprintf (str "Max processes reached" ++ [10]) [])) ;;; ret (-1)
  else
    q <- getp np ;;
    r <- inphys (uvmshare (p_pagetable p) (p_pagetable q) (p_sz p)) ;;
    if r <? 0 then freeproc np ;;; release (L_proc np) ;;; ret (-1)
    else
      modp np (set_psz (p_sz p)) ;;;
      copy_trapframe p q ;;;
      set_tf q tf_sp (u64 (stack_addr + PGSIZE)) ;;;
      set_tf q tf_epc fn_addr ;;;
      set_tf q (tf_a 0) args ;;;
      set_tf q tf_ra exit_fn ;;;
      dup_files (p_ofile p) np 0 ;;;
      cwd <- idup_ptr (p_cwd p) ;;
      modp np (set_pcwd cwd) ;;;
      release (L_proc np) ;;;
      acquire L_wait ;;;
      j <- (if negb (p_is_thread p =? 0) then
              par <- getp (p_parent p) ;;
              modp np (set_pparent (p_parent par)) ;;;
              ret (p_parent par)
            else modp np (set_pparent i) ;;; ret i) ;;
      release L_wait ;;;
      acquire (L_proc np) ;;;
      modp np (set_pthread 1) ;;;
      modp np (set_pstate RUNNABLE) ;;;
      put_infant j thread_idx np ;;;
      release (L_proc np) ;;;
      q <- getp np ;;
      ret (p_pid q).

Definition killed (i : Z) : M sys Z :=
  acquire (L_proc i) ;;; p <- getp i ;; release (L_proc i) ;;; ret (p_killed p).
Definition setkilled (i : Z) : M sys unit :=
  acquire (L_proc i) ;;; modp i (set_pkilled 1) ;;; release (L_proc i).

(** A field of struct proc that is copied out is given an address on the stack. *)
Definition xstate_buf (s : sys) : Z := fs_frame (y_fs s) + 552.
Definition copyout_xstate (pt addr x : Z) : M sys Z :=
  a <- gets xstate_buf ;; inphys (setmem (fun m => st32 m a x)) ;;; inphys (copyout pt addr a 4).

(** The infant with the pid asked for: its index in infant_threads, and it. *)
Fixpoint find_infant (l : list Z) (k tid : Z) : M sys (option (Z * Z)) :=
  match l with
  | [] => ret None
  | i :: l =>
      if i =? null then find_infant l (k + 1) tid
      else q <- getp i ;; if tid =? u64 (p_pid q) then ret (Some (k, i)) else find_infant l (k + 1) tid
  end.

(** The loop of join_thread, with wait_lock held, for the infant [k] of [j]. *)
Definition join_loop (j k child thread_id status_addr : Z) : M sys Z :=
  acquire (L_proc child) ;;;
  q <- getp child ;;
  if decide (p_state q = ZOMBIE) then
    p <- getp j ;;
    r <- (if negb (status_addr =? 0) then copyout_xstate (p_pagetable p) status_addr (p_xstate q) else ret 0) ;;
    if r <? 0 then release (L_proc child) ;;; release L_wait ;;; ret (-1)
    else
      release (L_proc child) ;;;
      release L_wait ;;;
      put_infant j k null ;;;
      ret thread_id
  else
    release (L_proc child) ;;;
    d <- killed j ;;
    if negb (d =? 0) then release L_wait ;;; ret (-1)
    else sleep (chan_proc j) L_wait.
(** After the sleep. *)
Definition join_resume (j k child thread_id status_addr : Z) : M sys Z :=
  acquire L_wait ;;; join_loop j k child thread_id status_addr.

Definition join_thread (thread_id status_addr : Z) : M sys Z :=
  i <- gets y_me ;;
  me <- getp i ;;
  let j := if negb (p_is_thread me =? 0) then p_parent me else i in
  acquire L_wait ;;;
  p <- getp j ;;
  c <- find_infant (p_infant_threads p) 0 thread_id ;;
  match c with
  | None => release L_wait ;;; ret (-1)
  | Some (k, child) => join_loop j k child thread_id status_addr
  end.

(** ** The end of a process *)

(** The loop that closes the files of process [i], from [fd] on. *)
Fixpoint close_files (n : nat) (i fd : Z) : M sys unit :=
  match n with
  | O => ret tt
  | S n =>
      p <- getp i ;;
      match znth (p_ofile p) fd with
      | None => fault
      | Some f => when (negb (f =? null)) (fileclose f ;;; put_ofile i fd null) ;;; close_files n i (fd + 1)
      end
  end.
Definition drop_cwd (i : Z) : M sys unit :=
  begin_op ;;; p <- getp i ;; iput_ptr (p_cwd p) ;;; end_op ;;; modp i (set_pcwd null).

Fixpoint reparent_loop (n : nat) (pp p : Z) : M sys unit :=
  match n with
  | O => ret tt
  | S n =>
      q <- getp pp ;;
      init <- gets y_initproc ;;
      when (p_parent q =? p) (modp pp (set_pparent init) ;;; wakeup (chan_proc init)) ;;;
      reparent_loop n (pp + 1) p
  end.
Definition reparent (p : Z) : M sys unit := reparent_loop (Z.to_nat NPROC) 0 p.

(** What exit() does to the infants of a thread's parent. *)
Fixpoint exit_infants (l : list Z) (status : Z) : M sys unit :=
  match l with
  | [] => ret tt
  | i :: l =>
      when (negb (i =? null))
        (close_files (Z.to_nat NOFILE) i 0 ;;;
         drop_cwd i ;;;
         acquire L_wait ;;;
         acquire (L_proc i) ;;;
         modp i (fun q => set_pstate ZOMBIE (set_pxstate status q)) ;;;
         release (L_proc i) ;;;
         release L_wait) ;;;
      exit_infants l status
  end.

(** exit() from the test for init on, and the whole of thread_exit(). *)
Definition exit_self (status : Z) : M sys unit :=
  i <- gets y_me ;;
  init <- gets y_initproc ;;
  if i =? init then panic "init exiting"
  else
    close_files (Z.to_nat NOFILE) i 0 ;;;
    drop_cwd i ;;;
    acquire L_wait ;;;
    reparent i ;;;
    p <- getp i ;;
    wakeup (chan_proc (p_parent p)) ;;;
    acquire (L_proc i) ;;;
    modp i (fun q => set_pstate ZOMBIE (set_pxstate status q)) ;;;
    release L_wait.
Definition thread_exit (status : Z) : M sys unit := exit_self (s32 status).
Definition exit (status : Z) : M sys unit :=
  p <- myproc ;;
  when (negb (p_is_thread p =? 0)) (par <- getp (p_parent p) ;; exit_infants (p_infant_threads par) status) ;;;
  exit_self status.

(** The scan of wait(): a result, or whether there are children. *)
Fixpoint wait_scan (n : nat) (pp i addr : Z) (havekids : bool) : M sys (Z + bool) :=
  match n with
  | O => ret (inr havekids)
  | S n =>
      q <- getp pp ;;
      if negb (p_parent q =? i) then wait_scan n (pp + 1) i addr havekids
      else
        acquire (L_proc pp) ;;;
        q <- getp pp ;;
        if decide (p_state q = ZOMBIE) then
          p <- getp i ;;
          r <- (if negb (addr =? 0) then copyout_xstate (p_pagetable p) addr (p_xstate q) else ret 0) ;;
          if r <? 0 then release (L_proc pp) ;;; release L_wait ;;; ret (inl (-1))
          else freeproc pp ;;; release (L_proc pp) ;;; release L_wait ;;; ret (inl (p_pid q))
        else release (L_proc pp) ;;; wait_scan n (pp + 1) i addr true
  end.
Definition wait (addr : Z) : M sys Z :=
  i <- gets y_me ;;
  acquire L_wait ;;;
  r <- wait_scan (Z.to_nat NPROC) 0 i addr false ;;
  match r with
  | inl r => ret r
  | inr havekids =>
      d <- (if negb havekids then ret 1 else killed i) ;;
      if negb (d =? 0) then release L_wait ;;; ret (-1) else sleep (chan_proc i) L_wait
  end.

Fixpoint kill_scan (n : nat) (i pid : Z) : M sys Z :=
  match n with
  | O => ret (-1)
  | S n =>
      acquire (L_proc i) ;;;
      p <- getp i ;;
      if p_pid p =? pid then
        modp i (set_pkilled 1) ;;;
        p <- getp i ;;
        when (bool_decide (p_state p = SLEEPING)) (modp i (set_pstate RUNNABLE)) ;;;
        release (L_proc i) ;;;
        ret 0
      else release (L_proc i) ;;; kill_scan n (i + 1) pid
  end.
Definition kill (pid : Z) : M sys Z := kill_scan (Z.to_nat NPROC) 0 pid.

Definition spoon (arg : Z) : M sys Z :=
  incons (lift (kprintf (str "In spoon system call with argument %p" ++ [10]) [V_int arg])) ;;; ret 0.
