(* ===== verification/Exec.v ===== *)
(** * kernel/exec.c

    exec() replaces the image of the process: it loads the segments of an ELF
    file into a new page table, builds the arguments on a new stack, and only
    then gives up the old image. *)
From stdpp Require Import strings.
From S2P Require Import Prelude Mem StringC Kalloc Page Vm Locks Log Fs Sys File Syscall Proc.
From Stdlib Require Import ZArith Lia.
Local Open Scope list_scope.
Local Open Scope Z_scope.
Local Open Scope kernel_scope.

Definition MAXARG : Z := 32.
Definition ELF_MAGIC : Z := 0x464C457F.
Definition ELF_PROG_LOAD : Z := 1.

(** struct elfhdr and struct proghdr in memory *)
Definition elfhdr_size : Z := 64.
Definition elf_magic (m : mem) (e : Z) : Z := ld32 m e.
Definition elf_entry (m : mem) (e : Z) : Z := ld64 m (e + 24).
Definition elf_phoff (m : mem) (e : Z) : Z := ld64 m (e + 32).
Definition elf_phnum (m : mem) (e : Z) : Z := ld16 m (e + 56).
Definition proghdr_size : Z := 56.
Definition ph_type (m : mem) (h : Z) : Z := ld32 m h.
Definition ph_flags (m : mem) (h : Z) : Z := ld32 m (h + 4).
Definition ph_off (m : mem) (h : Z) : Z := ld64 m (h + 8).
Definition ph_vaddr (m : mem) (h : Z) : Z := ld64 m (h + 16).
Definition ph_filesz (m : mem) (h : Z) : Z := ld64 m (h + 32).
Definition ph_memsz (m : mem) (h : Z) : Z := ld64 m (h + 40).

(** exec()'s locals *)
Definition elf_buf (s : sys) : Z := fs_frame (y_fs s) + 1024.
Definition ph_buf (s : sys) : Z := fs_frame (y_fs s) + 1088.
Definition ustack_buf (s : sys) : Z := fs_frame (y_fs s) + 1152.

Definition flags2perm (flags : Z) : Z :=
  let perm := if negb (Z.land flags 1 =? 0) then PTE_X else 0 in
  if negb (Z.land flags 2 =? 0) then Z.lor perm PTE_W else perm.

(** The loop of loadseg, one turn per page. *)
Fixpoint loadseg_loop (fuel : nat) (pagetable va ip offset sz i : Z) : M sys Z :=
  match fuel with
  | O => fun s => Spin s
  | S fuel =>
      if negb (i <? sz) then ret 0
      else
        pa <- inphys (walkaddr pagetable (u64 (va + i))) ;;
        if pa =? 0 then panic "loadseg: address should exist"
        else
          let n := if u32 (sz - i) <? PGSIZE then u32 (sz - i) else PGSIZE in
          r <- infs (readi ip false pa (u32 (offset + i)) n) ;;
          if negb (r =? n) then ret (-1) else loadseg_loop fuel pagetable va ip offset sz (u32 (i + PGSIZE))
  end.
Definition loadseg (pagetable va ip offset sz : Z) : M sys Z :=
  loadseg_loop (S (Z.to_nat (sz / PGSIZE + 1))) pagetable va ip offset sz 0.

(** The loop over the program headers: whether it ended well, and [sz]. *)
Fixpoint load_loop (n : nat) (pagetable ip off sz : Z) : M sys (bool * Z) :=
  match n with
  | O => ret (true, sz)
  | S n =>
      h <- gets ph_buf ;;
      r <- infs (readi ip false h (u32 off) proghdr_size) ;;
      if negb (r =? proghdr_size) then ret (false, sz)
      else
        m <- inphys (getmem (fun m => m)) ;;
        let off' := s32 (off + proghdr_size) in
        if negb (ph_type m h =? ELF_PROG_LOAD) then load_loop n pagetable ip off' sz
        else if ph_memsz m h <? ph_filesz m h then ret (false, sz)
        else if u64 (ph_vaddr m h + ph_memsz m h) <? ph_vaddr m h then ret (false, sz)
        else if negb (ph_vaddr m h mod PGSIZE =? 0) then ret (false, sz)
        else
          sz1 <- inphys (uvmalloc pagetable sz (u64 (ph_vaddr m h + ph_memsz m h)) (flags2perm (ph_flags m h))) ;;
          if sz1 =? 0 then ret (false, sz)
          else
            m <- inphys (getmem (fun m => m)) ;;
            r <- loadseg pagetable (ph_vaddr m h) ip (u32 (ph_off m h)) (u32 (ph_filesz m h)) ;;
            if r <? 0 then ret (false, sz1) else load_loop n pagetable ip off' sz1
  end.

(** strlen() of a string in a page. *)
Definition k_strlen (a : Z) : M sys Z :=
  n <- inphys (getmem (fun m => strlen (Z.to_nat PGSIZE) m a)) ;;
  match n with Some n => ret n | None => fun s => Spin s end.

(** The loop that pushes the argument strings: [argc] and [sp], or [None] for bad. *)
Fixpoint push_args (fuel : nat) (pagetable argv stackbase argc sp : Z) : M sys (option (Z * Z)) :=
  match fuel with
  | O => fun s => Spin s
  | S fuel =>
      a <- inphys (getmem (fun m => ld64 m (argv + 8 * argc))) ;;
      if a =? 0 then ret (Some (argc, sp))
      else if MAXARG <=? argc then ret None
      else
        n <- k_strlen a ;;
        let sp := u64 (sp - (n + 1)) in
        let sp := sp - sp mod 16 in
        if sp <? stackbase then ret None
        else
          r <- inphys (copyout pagetable sp a (n + 1)) ;;
          if r <? 0 then ret None
          else
            u <- gets ustack_buf ;;
            inphys (setmem (fun m => st64 m (u + 8 * argc) sp)) ;;;
            push_args fuel pagetable argv stackbase (argc + 1) sp
  end.

(** The stack with the arguments: [argc] and [sp]. *)
Definition exec_args (pagetable argv sz : Z) : M sys (option (Z * Z)) :=
  let stackbase := u64 (sz - PGSIZE) in
  r <- push_args (S (S (Z.to_nat MAXARG))) pagetable argv stackbase 0 sz ;;
  match r with
  | None => ret None
  | Some (argc, sp) =>
      u <- gets ustack_buf ;;
      inphys (setmem (fun m => st64 m (u + 8 * argc) 0)) ;;;
      let sp := u64 (sp - (argc + 1) * 8) in
      let sp := sp - sp mod 16 in
      if sp <? stackbase then ret None
      else
        r <- inphys (copyout pagetable sp u ((argc + 1) * 8)) ;;
        if r <? 0 then ret None else ret (Some (argc, sp))
  end.

(** The last element of the path. *)
Fixpoint last_elem (fuel : nat) (m : mem) (last s : Z) : option Z :=
  match fuel with
  | O => None
  | S fuel => if m s =? 0 then Some last else last_elem fuel m (if m s =? 47 then s + 1 else last) (s + 1)
  end.

(** The exits of exec: [ip] is locked and the transaction open, or not. *)
Definition exec_bad (pagetable sz : Z) (ip : option Z) : M sys Z :=
  when (negb (pagetable =? 0)) (inphys (proc_freepagetable pagetable sz)) ;;;
  match ip with Some ip => infs (iunlockput ip) ;;; end_op | None => ret tt end ;;;
  ret (-1).

(** From the end of loading on. *)
Definition exec_finish (path argv pagetable entry sz : Z) : M sys Z :=
  i <- gets y_me ;;
  p <- getp i ;;
  let oldsz := p_sz p in
  let sz := PGROUNDUP sz in
  sz1 <- inphys (uvmalloc pagetable sz (u64 (sz + 2 * PGSIZE)) PTE_W) ;;
  if sz1 =? 0 then exec_bad pagetable sz None
  else
    let sz := sz1 in
    inphys (uvmclear pagetable (u64 (sz - 2 * PGSIZE))) ;;;
    r <- exec_args pagetable argv sz ;;
    match r with
    | None => exec_bad pagetable sz None
    | Some (argc, sp) =>
        setreg (tf_a 1) sp ;;;
        l <- inphys (getmem (fun m => last_elem (Z.to_nat MAXPATH) m path path)) ;;
        match l with
        | None => fun s => Spin s
        | Some l =>
            nm <- inphys (getmem (fun m => ldbytes m l 16)) ;;
            modp i (fun p => set_pname (name_cpy (p_name p) nm) p) ;;;
            p <- getp i ;;
            let oldpagetable := p_pagetable p in
            modp i (fun p => set_psz sz (set_ppagetable pagetable p)) ;;;
            setreg tf_epc entry ;;;
            setreg tf_sp sp ;;;
            inphys (proc_freepagetable oldpagetable oldsz) ;;;
            ret argc
        end
    end.

Definition exec (path argv : Z) : M sys Z :=
  begin_op ;;;
  ip <- infs (namei path) ;;
  if ip =? null then end_op ;;; ret (-1)
  else
    infs (ilock ip) ;;;
    e <- gets elf_buf ;;
    r <- infs (readi ip false e 0 elfhdr_size) ;;
    if negb (r =? elfhdr_size) then exec_bad 0 0 (Some ip)
    else
      m <- inphys (getmem (fun m => m)) ;;
      if negb (elf_magic m e =? ELF_MAGIC) then exec_bad 0 0 (Some ip)
      else
        p <- myproc ;;
        tramp <- gets y_trampoline ;;
        pagetable <- inphys (proc_pagetable (p_trapframe p) tramp) ;;
        if pagetable =? 0 then exec_bad 0 0 (Some ip)
        else
          let* (ok, sz) := load_loop (Z.to_nat (elf_phnum m e)) pagetable ip (s32 (elf_phoff m e)) 0 in
          if negb ok then exec_bad pagetable sz (Some ip)
          else
            infs (iunlockput ip) ;;;
            end_op ;;;
            exec_finish path argv pagetable (elf_entry m e) sz.
