(* ===== verification/Sysfile.v ===== *)
(** * kernel/sysfile.c: the calls on paths

    link, unlink, open, mkdir, mknod, chdir and exec.  Each is one transaction
    of the file system (exec() runs its own). *)
From stdpp Require Import strings.
From S2P Require Import Prelude Mem StringC Kalloc Page Vm Locks Log Fs Sh Sys File Syscall Proc Exec.
From Stdlib Require Import ZArith Lia.
Local Open Scope list_scope.
Local Open Scope Z_scope.
Local Open Scope kernel_scope.

Definition O_RDWR : Z := 2.

(** The locals [name], [path] (also [new]), [old], [de], [argv] and [uarg], and
    the constant strings. *)
Definition sys_name (s : sys) : Z := fs_frame (y_fs s) + 64.
Definition path_buf (s : sys) : Z := fs_frame (y_fs s) + 128.
Definition old_buf (s : sys) : Z := fs_frame (y_fs s) + 256.
Definition de_buf (s : sys) : Z := fs_frame (y_fs s) + 640.
Definition argv_buf (s : sys) : Z := fs_frame (y_fs s) + 1408.
Definition uarg_buf (s : sys) : Z := fs_frame (y_fs s) + 1664.
Definition dot (s : sys) : Z := y_rodata s.
Definition dotdot (s : sys) : Z := y_rodata s + 2.

Definition inode_of (ip : Z) : M sys inode := infs (geti ip).
Definition modinode (ip : Z) (f : inode -> inode) : M sys unit := infs (modi ip f).
Definition set_inlink (n : Z) (i : inode) : inode :=
  mkInode (i_dev i) (i_inum i) (i_ref i) (i_valid i) (i_type i) (i_major i) (i_minor i) n (i_size i) (i_addrs i).
(** a 16-bit [short] *)
Definition s16 (x : Z) : Z := (x + 2 ^ 15) mod 2 ^ 16 - 2 ^ 15.

(** The exit [bad] of sys_link. *)
Definition link_bad (ip : Z) : M sys Z :=
  infs (ilock ip) ;;;
  modinode ip (fun i => set_inlink (s16 (i_nlink i - 1)) i) ;;;
  infs (iupdate ip) ;;;
  infs (iunlockput ip) ;;;
  end_op ;;;
  ret (-1).

Definition sys_link : M sys Z :=
  old <- gets old_buf ;;
  new <- gets path_buf ;;
  name <- gets sys_name ;;
  r <- argstr 0 old MAXPATH ;;
  if r <? 0 then ret (-1)
  else
    r <- argstr 1 new MAXPATH ;;
    if r <? 0 then ret (-1)
    else
      begin_op ;;;
      ip <- infs (namei old) ;;
      if ip =? null then end_op ;;; ret (-1)
      else
        infs (ilock ip) ;;;
        i <- inode_of ip ;;
        if i_type i =? T_DIR then infs (iunlockput ip) ;;; end_op ;;; ret (-1)
        else
          modinode ip (fun i => set_inlink (s16 (i_nlink i + 1)) i) ;;;
          infs (iupdate ip) ;;;
          infs (iunlock ip) ;;;
          dp <- infs (nameiparent new name) ;;
          if dp =? null then link_bad ip
          else
            infs (ilock dp) ;;;
            d <- inode_of dp ;;
            i <- inode_of ip ;;
            r <- (if negb (i_dev d =? i_dev i) then ret (-1) else infs (dirlink dp name (i_inum i))) ;;
            if r <? 0 then infs (iunlockput dp) ;;; link_bad ip
            else
              infs (iunlockput dp) ;;;
              infs (iput ip) ;;;
              end_op ;;;
              ret 0.

Fixpoint isdirempty_loop (fuel : nat) (dp off : Z) : M sys bool :=
  match fuel with
  | O => fun s => Spin s
  | S fuel =>
      d <- inode_of dp ;;
      if negb (u32 off <? i_size d) then ret true
      else
        de <- gets de_buf ;;
        r <- infs (readi dp false de (u32 off) 16) ;;
        if negb (r =? 16) then panic "isdirempty: readi"
        else
          inum <- inphys (getmem (fun m => ld16 m de)) ;;
          if negb (inum =? 0) then ret false else isdirempty_loop fuel dp (s32 (off + 16))
  end.
Definition isdirempty (dp : Z) : M sys bool :=
  d <- inode_of dp ;; isdirempty_loop (S (Z.to_nat (i_size d / 16 + 1))) dp (2 * 16).

Definition unlink_bad (dp : Z) : M sys Z := infs (iunlockput dp) ;;; end_op ;;; ret (-1).

(** sys_unlink from the lookup on; [dp] is locked.  isdirempty()'s own [de] is
    given the same address as sys_unlink's, which is not yet in use then. *)
Definition unlink_entry (dp name : Z) : M sys Z :=
  let* (ip, off) := infs (dirlookup dp name) in
  if ip =? null then unlink_bad dp
  else
    infs (ilock ip) ;;;
    i <- inode_of ip ;;
    if i_nlink i <? 1 then panic "unlink: nlink < 1"
    else
      e <- (if i_type i =? T_DIR then isdirempty ip else ret true) ;;
      if negb e then infs (iunlockput ip) ;;; unlink_bad dp
      else
        de <- gets de_buf ;;
        inphys (setmem (fun m => memset m de 0 16)) ;;;
        r <- infs (writei dp false de off 16) ;;
        if negb (r =? 16) then panic "unlink: writei"
        else
          i <- inode_of ip ;;
          when (i_type i =? T_DIR)
            (modinode dp (fun d => set_inlink (s16 (i_nlink d - 1)) d) ;;; infs (iupdate dp)) ;;;
          infs (iunlockput dp) ;;;
          modinode ip (fun i => set_inlink (s16 (i_nlink i - 1)) i) ;;;
          infs (iupdate ip) ;;;
          infs (iunlockput ip) ;;;
          end_op ;;;
          ret 0.

Definition sys_unlink : M sys Z :=
  path <- gets path_buf ;;
  name <- gets sys_name ;;
  r <- argstr 0 path MAXPATH ;;
  if r <? 0 then ret (-1)
  else
    begin_op ;;;
    dp <- infs (nameiparent path name) ;;
    if dp =? null then end_op ;;; ret (-1)
    else
      infs (ilock dp) ;;;
      m <- inphys (getmem (fun m => m)) ;;
      a <- gets dot ;;
      b <- gets dotdot ;;
      if (namecmp m name a =? 0) || (namecmp m name b =? 0) then unlink_bad dp else unlink_entry dp name.

(** The exit [fail] of create. *)
Definition create_fail (ip dp : Z) : M sys Z :=
  modinode ip (set_inlink 0) ;;;
  infs (iupdate ip) ;;;
  infs (iunlockput ip) ;;;
  infs (iunlockput dp) ;;;
  ret null.

(** create() from the allocation of the inode on; [dp] is locked. *)
Definition create_new (dp name type major minor : Z) : M sys Z :=
  d <- inode_of dp ;;
  ip <- infs (ialloc (i_dev d) type) ;;
  if ip =? null then infs (iunlockput dp) ;;; ret null
  else
    infs (ilock ip) ;;;
    modinode ip (fun i => mkInode (i_dev i) (i_inum i) (i_ref i) (i_valid i) (i_type i) major minor 1 (i_size i) (i_addrs i)) ;;;
    infs (iupdate ip) ;;;
    i <- inode_of ip ;;
    d <- inode_of dp ;;
    a <- gets dot ;;
    b <- gets dotdot ;;
    ok <- (if type =? T_DIR then
             r <- infs (dirlink ip a (i_inum i)) ;;
             if r <? 0 then ret false else r <- infs (dirlink ip b (i_inum d)) ;; ret (negb (r <? 0))
           else ret true) ;;
    if negb ok then create_fail ip dp
    else
      r <- infs (dirlink dp name (i_inum i)) ;;
      if r <? 0 then create_fail ip dp
      else
        when (type =? T_DIR) (modinode dp (fun d => set_inlink (s16 (i_nlink d + 1)) d) ;;; infs (iupdate dp)) ;;;
        infs (iunlockput dp) ;;;
        ret ip.

Definition create (path type major minor : Z) : M sys Z :=
  name <- gets sys_name ;;
  dp <- infs (nameiparent path name) ;;
  if dp =? null then ret null
  else
    infs (ilock dp) ;;;
    let* (ip, _) := infs (dirlookup dp name) in
    if negb (ip =? null) then
      infs (iunlockput dp) ;;;
      infs (ilock ip) ;;;
      i <- inode_of ip ;;
      if (type =? T_FILE) && ((i_type i =? T_FILE) || (i_type i =? T_DEVICE)) then ret ip
      else infs (iunlockput ip) ;;; ret null
    else create_new dp name type major minor.

Definition flag (omode f : Z) : bool := negb (Z.land omode f =? 0).
Definition unlock_fail (ip : Z) : M sys Z := infs (iunlockput ip) ;;; end_op ;;; ret (-1).

(** sys_open once the inode is locked. *)
Definition open_inode (ip omode : Z) : M sys Z :=
  i <- inode_of ip ;;
  if (i_type i =? T_DEVICE) && ((i_major i <? 0) || (NDEV <=? i_major i)) then unlock_fail ip
  else
    f <- filealloc ;;
    if f =? null then unlock_fail ip
    else
      fd <- fdalloc f ;;
      if fd <? 0 then fileclose f ;;; unlock_fail ip
      else
        i <- inode_of ip ;;
        (if i_type i =? T_DEVICE then modf f (fun k => set_fmajor (i_major i) (set_ftype FD_DEVICE k))
         else modf f (fun k => set_foff 0 (set_ftype FD_INODE k))) ;;;
        modf f (set_fip ip) ;;;
        modf f (set_frw (if flag omode O_WRONLY then 0 else 1) (if flag omode O_WRONLY || flag omode O_RDWR then 1 else 0)) ;;;
        when (flag omode O_TRUNC && (i_type i =? T_FILE)) (infs (itrunc ip)) ;;;
        infs (iunlock ip) ;;;
        end_op ;;;
        ret fd.

Definition sys_open : M sys Z :=
  path <- gets path_buf ;;
  omode <- argint 1 ;;
  n <- argstr 0 path MAXPATH ;;
  if n <? 0 then ret (-1)
  else
    begin_op ;;;
    if flag omode O_CREATE then
      ip <- create path T_FILE 0 0 ;;
      if ip =? null then end_op ;;; ret (-1) else open_inode ip omode
    else
      ip <- infs (namei path) ;;
      if ip =? null then end_op ;;; ret (-1)
      else
        infs (ilock ip) ;;;
        i <- inode_of ip ;;
        if (i_type i =? T_DIR) && negb (omode =? O_RDONLY) then unlock_fail ip else open_inode ip omode.

Definition sys_mkdir : M sys Z :=
  path <- gets path_buf ;;
  begin_op ;;;
  r <- argstr 0 path MAXPATH ;;
  ip <- (if r <? 0 then ret null else create path T_DIR 0 0) ;;
  if ip =? null then end_op ;;; ret (-1)
  else infs (iunlockput ip) ;;; end_op ;;; ret 0.

Definition sys_mknod : M sys Z :=
  path <- gets path_buf ;;
  begin_op ;;;
  major <- argint 1 ;;
  minor <- argint 2 ;;
  r <- argstr 0 path MAXPATH ;;
  ip <- (if r <? 0 then ret null else create path T_DEVICE (s16 major) (s16 minor)) ;;
  if ip =? null then end_op ;;; ret (-1)
  else infs (iunlockput ip) ;;; end_op ;;; ret 0.

Definition sys_chdir : M sys Z :=
  path <- gets path_buf ;;
  begin_op ;;;
  r <- argstr 0 path MAXPATH ;;
  ip <- (if r <? 0 then ret null else infs (namei path)) ;;
  if ip =? null then end_op ;;; ret (-1)
  else
    infs (ilock ip) ;;;
    i <- inode_of ip ;;
    if negb (i_type i =? T_DIR) then unlock_fail ip
    else
      infs (iunlock ip) ;;;
      j <- gets y_me ;;
      p <- getp j ;;
      iput_ptr (p_cwd p) ;;;
      end_op ;;;
      modp j (set_pcwd ip) ;;;
      ret 0.

(** The loop of sys_exec that fetches the arguments: whether it ended well. *)
Fixpoint exec_fetch (fuel : nat) (argv uarg uargv i : Z) : M sys bool :=
  match fuel with
  | O => fun s => Spin s
  | S fuel =>
      if MAXARG <=? i then ret false
      else
        r <- fetchaddr (u64 (uargv + 8 * i)) uarg ;;
        if r <? 0 then ret false
        else
          a <- inphys (getmem (fun m => ld64 m uarg)) ;;
          if a =? 0 then inphys (setmem (fun m => st64 m (argv + 8 * i) 0)) ;;; ret true
          else
            k <- inphys pg_kalloc ;;
            inphys (setmem (fun m => st64 m (argv + 8 * i) k)) ;;;
            if k =? 0 then ret false
            else
              r <- fetchstr a k PGSIZE ;;
              if r <? 0 then ret false else exec_fetch fuel argv uarg uargv (i + 1)
  end.

Fixpoint free_args (n : nat) (argv i : Z) : M sys unit :=
  match n with
  | O => ret tt
  | S n =>
      a <- inphys (getmem (fun m => ld64 m (argv + 8 * i))) ;;
      if a =? 0 then ret tt else inphys (pg_kfree a) ;;; free_args n argv (i + 1)
  end.

Definition sys_exec : M sys Z :=
  path <- gets path_buf ;;
  argv <- gets argv_buf ;;
  uarg <- gets uarg_buf ;;
  uargv <- argaddr 1 ;;
  r <- argstr 0 path MAXPATH ;;
  if r <? 0 then ret (-1)
  else
    inphys (setmem (fun m => memset m argv 0 (8 * MAXARG))) ;;;
    ok <- exec_fetch (S (Z.to_nat MAXARG)) argv uarg uargv 0 ;;
    r <- (if ok then exec path argv else ret (-1)) ;;
    free_args (Z.to_nat MAXARG) argv 0 ;;;
    ret r.
