(* ===== verification/Sysproc.v ===== *)
(** * kernel/sysproc.c and the dispatch of kernel/syscall.c

    The calls on processes, time and sockets, and [syscall], which runs the
    handler of the number in register a7 and leaves its result in a0. *)
From stdpp Require Import strings.
From S2P Require Import Prelude Mem StringC Kalloc Page Vm KState Socket Locks Log Fs User Uart Console Sys File Syscall Proc Exec Sysfile.
From Stdlib Require Import ZArith Lia.
Local Open Scope list_scope.
Local Open Scope Z_scope.
Local Open Scope kernel_scope.

(** A zombie's last call of sched() does not return. *)
Definition never {A} : M sys A := fun s => Blocked 0 s.

Definition sys_exit : M sys Z := n <- argint 0 ;; exit n ;;; never.
Definition sys_getpid : M sys Z := p <- myproc ;; ret (p_pid p).
Definition sys_fork : M sys Z := fork.
Definition sys_wait : M sys Z := p <- argaddr 0 ;; wait p.
Definition sys_sbrk : M sys Z :=
  n <- argint 0 ;;
  p <- myproc ;;
  r <- growproc n ;;
  if r <? 0 then ret (-1) else ret (p_sz p).

Definition chan_ticks : Z := 0x50000.
(** The loop of sys_sleep, with tickslock held. *)
Definition sleep_loop (ticks0 n : Z) : M sys Z :=
  i <- gets y_me ;;
  t <- gets y_ticks ;;
  if u32 (t - ticks0) <? u32 n then
    k <- killed i ;;
    if negb (k =? 0) then release L_ticks ;;; ret (-1) else sleep chan_ticks L_ticks
  else release L_ticks ;;; ret 0.
Definition sleep_resume (ticks0 n : Z) : M sys Z := acquire L_ticks ;;; sleep_loop ticks0 n.
Definition sys_sleep : M sys Z :=
  n <- argint 0 ;;
  acquire L_ticks ;;;
  ticks0 <- gets y_ticks ;;
  sleep_loop ticks0 n.

Definition sys_kill : M sys Z := pid <- argint 0 ;; kill pid.
Definition sys_uptime : M sys Z := acquire L_ticks ;;; t <- gets y_ticks ;; release L_ticks ;;; ret t.
Definition sys_spoon : M sys Z := a <- argaddr 0 ;; spoon a.

Definition sys_create_thread : M sys Z :=
  fn_addr <- argaddr 0 ;;
  args_addr <- argaddr 1 ;;
  stack_addr <- argaddr 2 ;;
  exit_fn <- argaddr 3 ;;
  create_thread fn_addr args_addr stack_addr exit_fn.
Definition sys_join_thread : M sys Z := thread_id <- argaddr 0 ;; status_addr <- argaddr 1 ;; join_thread thread_id status_addr.
Definition sys_thread_exit : M sys Z := status <- argaddr 0 ;; thread_exit status ;;; never.

(** ** Sockets *)

(** [myproc()->ofile[fd]], which nothing checks the range of, and the test for a
    socket: its struct file. *)
Definition sock_file (fd : Z) : M sys (option file) :=
  p <- myproc ;;
  match znth (p_ofile p) fd with
  | None => fault
  | Some f =>
      if f =? null then ret None
      else k <- getf f ;; ret (if decide (f_type k = FD_SOCKET) then Some k else None)
  end.

(** The locals [addr] and [address]. *)
Definition addr_buf (s : sys) : Z := fs_frame (y_fs s) + 1680.
Definition sockaddr_size : Z := 16.

Definition sys_bind : M sys Z :=
  fd <- argint 0 ;;
  uaddr <- argaddr 1 ;;
  addrlen <- argint 2 ;;
  k <- sock_file fd ;;
  match k with
  | None => ret (-1)
  | Some f =>
      if sockaddr_size <? u64 addrlen then ret (-1)
      else
        addr <- gets addr_buf ;;
        pt <- gets curpt ;;
        r <- inphys (copyin pt addr uaddr addrlen) ;;
        if r <? 0 then ret (-1)
        else innet (k <- sock_get (f_sock f) ;; ops_bind (so_ops k) (f_sock f) addr addrlen)
  end.

Definition sys_listen : M sys Z :=
  socket <- argaddr 0 ;;
  backlog <- argaddr 1 ;;
  innet (listen (s32 socket) (s32 backlog)).
Definition sys_accept : M sys Z :=
  socket <- argaddr 0 ;;
  address <- gets addr_buf ;;
  v <- argaddr 1 ;;
  inphys (setmem (fun m => st64 m address v)) ;;;
  address_len <- argaddr 2 ;;
  innet (accept (s32 socket) address address_len).
Definition sys_connect : M sys Z :=
  socket <- argaddr 0 ;;
  address <- gets addr_buf ;;
  v <- argaddr 1 ;;
  inphys (setmem (fun m => st64 m address v)) ;;;
  address_len <- argaddr 2 ;;
  innet (connect (s32 socket) address address_len).

(** The struct socket in a page that was cleared, and its end. *)
Definition zero_socket : socket := mkSocket 0 0 0 0 0 0 0 0 0 0 null_ops 0 0.
Definition mod_sockets (f : gmap Z socket -> gmap Z socket) : M kst unit :=
  modify (fun s => let t := k_sockets s in
    set_sockets (mkSockets (st_udp_binds t) (st_tcp_binds t) (st_bindings t) (f (st_sockets t)) (st_sock_list t) (st_tcp_list t) (st_udp_list t)) s).
Definition sock_kfree (sock : Z) : M sys unit := inphys (pg_kfree sock) ;;; innet (mod_sockets (delete sock)).

Definition sys_socket : M sys Z :=
  family <- argaddr 0 ;;
  type <- argaddr 1 ;;
  protocol <- argaddr 2 ;;
  sock <- inphys pg_kalloc ;;
  if sock =? 0 then incons (lift (kprintf (str "ERROR: kalloc" ++ [10]) [])) ;;; ret (-1)
  else
    inphys (setmem (fun m => memset m sock 0 PGSIZE)) ;;;
    innet (mod_sockets (insert sock zero_socket)) ;;;
    innet (initsocket sock (s32 family) (s32 type) (s32 protocol)) ;;;
    f <- filealloc ;;
    if f =? null then sock_kfree sock ;;; ret (-1)
    else
      fd <- fdalloc f ;;
      if fd <? 0 then fileclose f ;;; sock_kfree sock ;;; ret (-1)
      else
        modf f (set_ftype FD_SOCKET) ;;;
        modf f (set_fsock sock) ;;;
        innet (k <- sock_get sock ;;
          sock_put sock (mkSocket (so_pending k) (so_src_ip k) (so_dest_ip k) (so_src_port k) (so_dest_port k) (so_proto k) (so_type k)
            (so_family k) (so_state k) fd (so_ops k) (so_rx_head k) (so_rx_tail k))) ;;;
        ret fd.

Definition sys_send : M sys Z :=
  fd <- argint 0 ;;
  buf <- argaddr 1 ;;
  len <- argint 2 ;;
  flags <- argint 3 ;;
  k <- sock_file fd ;;
  match k with None => ret (-1) | Some _ => innet (send fd buf len flags) end.
Definition sys_recv : M sys Z :=
  fd <- argint 0 ;;
  buf <- argaddr 1 ;;
  len <- argint 2 ;;
  flags <- argint 3 ;;
  k <- sock_file fd ;;
  match k with None => ret (-1) | Some _ => innet (recv fd buf len flags) end.

Definition sys_sendto : M sys Z :=
  fd <- argint 0 ;;
  buf <- argaddr 1 ;;
  len <- argint 2 ;;
  flags <- argint 3 ;;
  dest_addr <- argaddr 4 ;;
  addrlen <- argint 5 ;;
  k <- sock_file fd ;;
  match k with
  | None => ret (-1)
  | Some f => innet (k <- sock_get (f_sock f) ;; ops_sendto (so_ops k) (f_sock f) buf len flags dest_addr addrlen)
  end.
Definition sys_recvfrom : M sys Z :=
  fd <- argint 0 ;;
  buf <- argaddr 1 ;;
  len <- argint 2 ;;
  flags <- argint 3 ;;
  src_addr <- argaddr 4 ;;
  addrlen <- argaddr 5 ;;
  k <- sock_file fd ;;
  match k with
  | None => ret (-1)
  | Some f => innet (k <- sock_get (f_sock f) ;; ops_recvfrom (so_ops k) (f_sock f) buf len flags src_addr addrlen)
  end.

(** ** Dispatch *)

(** The array [syscalls], with the numbers of syscall.h. *)
Definition syscalls (num : Z) : option (M sys Z) :=
  match num with
  | 1 => Some sys_fork | 2 => Some sys_exit | 3 => Some sys_wait | 4 => Some sys_pipe | 5 => Some sys_read
  | 6 => Some sys_kill | 7 => Some sys_exec | 8 => Some sys_fstat | 9 => Some sys_chdir | 10 => Some sys_dup
  | 11 => Some sys_getpid | 12 => Some sys_sbrk | 13 => Some sys_sleep | 14 => Some sys_uptime | 15 => Some sys_open
  | 16 => Some sys_write | 17 => Some sys_mknod | 18 => Some sys_unlink | 19 => Some sys_link | 20 => Some sys_mkdir
  | 21 => Some sys_close | 22 => Some sys_spoon | 23 => Some sys_create_thread | 24 => Some sys_join_thread
  | 25 => Some sys_thread_exit | 26 => Some sys_socket | 27 => Some sys_bind | 28 => Some sys_listen
  | 29 => Some sys_accept | 30 => Some sys_connect | 31 => Some sys_send | 32 => Some sys_recv
  | 33 => Some sys_sendto | 34 => Some sys_recvfrom
  | _ => None
  end.

Definition syscall : M sys unit :=
  a7 <- getreg (tf_a 7) ;;
  let num := s32 a7 in
  match syscalls num with
  | Some h => r <- h ;; setreg (tf_a 0) (u64 r)
  | None =>
      p <- myproc ;;
      incons (lift (kprintf (str "%d %s: unknown sys call %d" ++ [10])
        [V_int (p_pid p); V_str (Some (before_nul 16 (p_name p))); V_int num])) ;;;
      setreg (tf_a 0) (u64 (-1))
  end.
