(* ===== verification/FileInv.v ===== *)
(** * Reference counts of files, pipes and inodes

    A struct file counts the descriptors that refer to it, an entry of itable
    the directories and open files that refer to it, and a pipe's page is
    allocated while one of its ends is open. *)
From stdpp Require Import strings.
From S2P Require Import Prelude Mem StringC Kalloc Page Vm KState Locks Bio Log Fs FsTxn FsAlloc FsInode FsRefs Pipe Uart Console Sys File Syscall Proc Sysfile.
From Stdlib Require Import ZArith Lia.
Local Open Scope list_scope.
Local Open Scope Z_scope.
Local Open Scope kernel_scope.

(** ** Files and descriptors *)

(** The entries of [fl] count the references [h]. *)
Record refs_ok (fl : list file) (h : list Z) : Prop := {
  ro_len : length fl = 100%nat;
  ro_range : Forall (fun i => 0 <= i < NFILE) h;
  ro_ref : forall i f, znth fl i = Some f -> f_ref f = refs_to i h;
  ro_none : forall i f, znth fl i = Some f -> f_ref f = 0 -> f_type f = FD_NONE
}.

(** The end of a pipe that file [i] is: the pipe, and whether to read. *)
Definition pview (f : file) : option (Z * bool) := if decide (f_type f = FD_PIPE) then Some (f_pipe f, f_writable f =? 0) else None.
Definition ends (fl : list file) (i : Z) : option (Z * bool) := match znth fl i with Some f => pview f | None => None end.
Definition is_open (b : bool) (p : pipe) : Prop := (if b then pi_readopen p else pi_writeopen p) <> 0.

Record pipes_ok (e : Z -> option (Z * bool)) (pp : gmap Z pipe) : Prop := {
  pk_live : forall i pi b, e i = Some (pi, b) -> exists p, pp !! pi = Some p /\ is_open b p;
  pk_uniq : forall i j x, e i = Some x -> e j = Some x -> i = j;
  pk_open : forall pi p b, pp !! pi = Some p -> is_open b p -> exists i, e i = Some (pi, b);
  pk_some : forall pi p, pp !! pi = Some p -> exists b, is_open b p
}.

(** The pages of the pipes are allocated, once each. *)
Record pages_ok (pp : gmap Z pipe) (P : Pool.pool) (en : Z) : Prop := {
  pg_page : forall pi, is_Some (pp !! pi) -> (managed en pi /\ pi <> 0) /\ Pool.refs P pi = 1 /\ pi ∉ Pool.free P;
  pg_nodup : NoDup (Pool.free P);
  pg_free : Forall (fun p => managed en p /\ p <> 0) (Pool.free P)
}.

Lemma refs_perm fl h h' : h ≡ₚ h' -> refs_ok fl h -> refs_ok fl h'.
Proof. intros Hp [R1 R2 R3 R4]. split; [done|by rewrite <- Hp|intros; rewrite <- (refs_to_perm _ _ _ Hp); auto|done]. Qed.

(** A count and one entry change. *)
Lemma refs_upd fl i g fl' h h' :
  refs_ok fl h -> zset fl i g = Some fl' -> Forall (fun i => 0 <= i < NFILE) h' -> f_ref g = refs_to i h' ->
  (forall j, j <> i -> refs_to j h' = refs_to j h) -> (f_ref g = 0 -> f_type g = FD_NONE) -> refs_ok fl' h'.
Proof.
  intros [R1 R2 R3 R4] E Hr Hg Ho H0. split; [by rewrite (zset_length _ _ _ _ E)|done| |]; intros j f Hf.
  all: destruct (Z.eq_dec j i) as [->|Hne]; [rewrite (znth_zset_eq _ _ _ _ E) in Hf; injection Hf as <-|rewrite (znth_zset_ne _ _ _ j _ (not_eq_sym Hne) E) in Hf].
  - done.
  - rewrite Ho by done. auto.
  - auto.
  - eauto.
Qed.
Lemma refs_alloc fl i f fl' h : refs_ok fl h -> znth fl i = Some f -> f_ref f = 0 -> zset fl i (set_fref 1 f) = Some fl' -> refs_ok fl' (i :: h).
Proof.
  intros R Hf H0 E. pose proof (znth_Some_range _ _ _ Hf) as Hr. rewrite (ro_len _ _ R) in Hr. pose proof (ro_ref _ _ R i f Hf) as Hc.
  eapply refs_upd; [done|done|constructor; [done|apply R]| | |done]; [rewrite refs_to_eq; cbn; lia|]. intros j Hj. by apply refs_to_ne.
Qed.
Lemma refs_dup fl i f fl' h : refs_ok fl h -> Z.of_nat (length h) < 2 ^ 30 -> i ∈ h -> znth fl i = Some f ->
  zset fl i (set_fref (s32 (f_ref f + 1)) f) = Some fl' -> refs_ok fl' (i :: h).
Proof.
  intros R Hl Hi Hf E. pose proof (ro_ref _ _ R i f Hf) as Hc. pose proof (refs_to_bound i h) as Hb. pose proof (refs_to_pos _ _ Hi) as Hp.
  pose proof (proj1 (Forall_forall _ _) (ro_range _ _ R) i Hi) as Hr. rewrite s32_small in E by lia.
  eapply refs_upd; [done|done|constructor; [done|apply R]| | |cbn; lia]; [rewrite refs_to_eq; cbn; lia|]. intros j Hj. by apply refs_to_ne.
Qed.
(** A reference is given up; [g] is what becomes of the entry. *)
Lemma refs_drop fl i f g fl' h : refs_ok fl (i :: h) -> znth fl i = Some f -> zset fl i g = Some fl' -> f_ref g = f_ref f - 1 ->
  (f_ref g = 0 -> f_type g = FD_NONE) -> refs_ok fl' h.
Proof.
  intros R Hf E Hg H0. pose proof (ro_ref _ _ R i f Hf) as Hc. rewrite refs_to_eq in Hc. pose proof (ro_range _ _ R) as Hr.
  rewrite Forall_cons in Hr. destruct Hr as [_ Hr].
  eapply refs_upd; [done|done|done|lia| |done]. intros j Hj. by rewrite refs_to_ne.
Qed.
Lemma refs_keep fl i f g fl' h : refs_ok fl h -> znth fl i = Some f -> zset fl i g = Some fl' -> f_ref g = f_ref f -> (f_ref g = 0 -> f_type g = FD_NONE) -> refs_ok fl' h.
Proof. intros R Hf E Hg H0. eapply refs_upd; [done|done|apply R| |done|done]. rewrite Hg. by apply (ro_ref _ _ R). Qed.

(** ** Ends of pipes *)

Lemma ends_zset fl i f g fl' : znth fl i = Some f -> zset fl i g = Some fl' -> pview g = pview f -> forall j, ends fl' j = ends fl j.
Proof.
  intros Hf E Hv j. unfold ends. destruct (Z.eq_dec j i) as [->|Hne]; [by rewrite (znth_zset_eq _ _ _ _ E), Hf|].
  by rewrite (znth_zset_ne _ _ _ j _ (not_eq_sym Hne) E).
Qed.
Lemma ends_upd fl i g fl' : zset fl i g = Some fl' -> forall j, ends fl' j = if decide (j = i) then pview g else ends fl j.
Proof.
  intros E j. unfold ends. case_decide as Hd; [subst; by rewrite (znth_zset_eq _ _ _ _ E)|]. by rewrite (znth_zset_ne _ _ _ j _ (not_eq_sym Hd) E).
Qed.
Lemma pipes_ext e e' pp : (forall j, e' j = e j) -> pipes_ok e pp -> pipes_ok e' pp.
Proof.
  intros H [P1 P2 P3 P4]. split; [intros i pi b; rewrite H; apply P1|intros i j x; rewrite !H; apply P2| |done].
  intros pi p b Hp Ho. destruct (P3 pi p b Hp Ho) as [i Hi]. exists i. by rewrite H.
Qed.
(** The contents of a pipe are not part of this. *)
Lemma pipes_data e pp pi p p' : pipes_ok e pp -> pp !! pi = Some p -> (forall b, is_open b p' <-> is_open b p) -> pipes_ok e (<[pi := p']> pp).
Proof.
  intros [P1 P2 P3 P4] Hp Ho. split; [|done| |].
  - intros i q b Hi. destruct (P1 i q b Hi) as (x & Hx & Hb). destruct (decide (q = pi)) as [->|Hn].
    + exists p'. rewrite lookup_insert_eq. split; [done|]. apply Ho. assert (x = p) as -> by congruence. done.
    + exists x. by rewrite lookup_insert_ne.
  - intros q x b. destruct (decide (q = pi)) as [->|Hn]; [rewrite lookup_insert_eq; intros [= <-] Hb; eapply P3; [done|by apply Ho]|].
    rewrite lookup_insert_ne by done. apply P3.
  - intros q x. destruct (decide (q = pi)) as [->|Hn]; [rewrite lookup_insert_eq; intros [= <-]; destruct (P4 pi p Hp) as [b Hb]; exists b; by apply Ho|].
    rewrite lookup_insert_ne by done. apply P4.
Qed.

(** One end is closed. *)
Definition close_end (b : bool) (p : pipe) : pipe :=
  if b then mkPipe (pi_data p) (pi_nread p) (pi_nwrite p) 0 (pi_writeopen p) else mkPipe (pi_data p) (pi_nread p) (pi_nwrite p) (pi_readopen p) 0.
Definition both_closed (p : pipe) : bool := (pi_readopen p =? 0) && (pi_writeopen p =? 0).

Lemma close_end_open b b' p : is_open b' (close_end b p) <-> b' <> b /\ is_open b' p.
Proof. destruct b, b'; unfold is_open; cbn; naive_solver. Qed.
Lemma both_closed_spec p : both_closed p = true <-> forall b, ~ is_open b p.
Proof.
  unfold both_closed, is_open. rewrite andb_true_iff, !Z.eqb_eq. split; [intros [H1 H2] []; lia|].
  intros H. pose proof (H true). pose proof (H false). cbn in *. lia.
Qed.

Lemma pipes_close e pp i pi b p : pipes_ok e pp -> e i = Some (pi, b) -> pp !! pi = Some p ->
  pipes_ok (fun j => if decide (j = i) then None else e j)
    (if both_closed (close_end b p) then delete pi pp else <[pi := close_end b p]> pp).
Proof.
  intros [P1 P2 P3 P4] Hi Hp. set (q := close_end b p). set (pp' := if both_closed q then _ else _).
  assert (forall x, x <> pi -> pp' !! x = pp !! x) as Ho.
  { intros x Hx. unfold pp'. destruct (both_closed q); [by rewrite lookup_delete_ne|by rewrite lookup_insert_ne]. }
  assert (forall x y, pp' !! x = Some y -> (x <> pi /\ pp !! x = Some y) \/ (x = pi /\ y = q /\ both_closed q = false)) as Hl.
  { intros x y H. destruct (decide (x = pi)) as [->|Hn]; [|left; by rewrite Ho in H]. right. unfold pp' in H. split; [done|].
    destruct (both_closed q); [by rewrite lookup_delete_eq in H|]. rewrite lookup_insert_eq in H. by injection H as <-. }
  split.
  - intros j x b'. case_decide as Hj; [done|]. intros He. destruct (P1 j x b' He) as (y & Hy & Hb). destruct (decide (x = pi)) as [->|Hn].
    + assert (y = p) as -> by congruence. assert (b' <> b) as Hbb by (intros ->; apply Hj; by apply (P2 j i (pi, b))).
      assert (is_open b' q) as Hq by (by apply close_end_open). exists q. split; [|done]. unfold pp'.
      destruct (both_closed q) eqn:Ec; [exfalso; by apply (proj1 (both_closed_spec q) Ec b')|by rewrite lookup_insert_eq].
    + exists y. by rewrite Ho.
  - intros j k x. case_decide; [done|]. case_decide; [done|]. apply P2.
  - intros x y b' Hx Hb. destruct (Hl x y Hx) as [[Hn Hy]|(-> & -> & Hc)].
    + destruct (P3 x y b' Hy Hb) as [j Hj]. exists j. case_decide as Hd; [subst; congruence|done].
    + apply close_end_open in Hb as [Hbb Hb]. destruct (P3 pi p b' Hp Hb) as [j Hj]. exists j. case_decide as Hd; [subst; congruence|done].
  - intros x y Hx. destruct (Hl x y Hx) as [[Hn Hy]|(-> & -> & Hc)]; [by apply (P4 x)|].
    unfold both_closed in Hc. apply andb_false_iff in Hc as [Hc%Z.eqb_neq|Hc%Z.eqb_neq]; [by exists true|by exists false].
Qed.

(** A new pipe with an end for each of two files. *)
Lemma pipes_new e pp i j pi p : pipes_ok e pp -> e i = None -> e j = None -> i <> j -> pp !! pi = None -> (forall b, is_open b p) ->
  pipes_ok (fun k => if decide (k = j) then Some (pi, false) else if decide (k = i) then Some (pi, true) else e k) (<[pi := p]> pp).
Proof.
  intros [P1 P2 P3 P4] Hi Hj Hij Hn Hp. split.
  - intros k x b. repeat case_decide; [intros [= <- <-]; exists p; by rewrite lookup_insert_eq..|]. intros He. destruct (P1 k x b He) as (y & Hy & Hb).
    exists y. rewrite lookup_insert_ne by congruence. done.
  - assert (forall k b, e k = Some (pi, b) -> False) as Hf by (intros k b He; destruct (P1 k pi b He) as (y & Hy & _); congruence).
    intros k l [x b]. repeat case_decide; subst; intros He1 He2; simplify_eq; try done; try (exfalso; by eapply Hf). by eapply P2.
  - intros x y b. destruct (decide (x = pi)) as [->|Hx].
    + rewrite lookup_insert_eq. intros [= <-] _. destruct b; [exists i|exists j]; repeat case_decide; congruence.
    + rewrite lookup_insert_ne by done. intros Hy Hb. destruct (P3 x y b Hy Hb) as [k Hk]. exists k. repeat case_decide; congruence.
  - intros x y. destruct (decide (x = pi)) as [->|Hx]; [rewrite lookup_insert_eq; intros [= <-]; exists true; auto|]. rewrite lookup_insert_ne by done. apply P4.
Qed.

(** ** Pages *)

Lemma pages_take pp P en r l p : pages_ok pp P en -> Pool.free P = r :: l ->
  pp !! r = None /\ r <> 0 /\ pages_ok (<[r := p]> pp) (Pool.mkPool l (Pool.set_ref (Pool.refs P) r 1)) en.
Proof.
  intros [G1 G2 G3] E. rewrite E in *. rewrite NoDup_cons, Forall_cons in *. destruct G2 as [N1 N2], G3 as [[F1 F0] F2].
  assert (pp !! r = None) as Hn.
  { destruct (pp !! r) eqn:Er; [|done]. destruct (G1 r) as (_ & _ & H); [by eexists|]. exfalso. apply H. constructor. }
  split; [done|]. split; [done|]. split; cbn; [|done|done]. intros pi. unfold Pool.set_ref. destruct (Z.eqb_spec pi r) as [->|Hne].
  - intros _. by split_and!.
  - rewrite lookup_insert_ne by done. intros H. destruct (G1 pi H) as (H1 & H2 & H3). split_and!; [apply H1|apply H1|done|]. intros H4. apply H3. by constructor.
Qed.
Lemma pages_give pp P en pi p m m' P' : pages_ok pp P en -> pp !! pi = Some p -> Pool.give pi m P = (m', P') -> pages_ok (delete pi pp) P' en.
Proof.
  intros [G1 G2 G3] Hp E. destruct (G1 pi) as (H1 & H2 & H3); [by eexists|]. unfold Pool.give in E. rewrite H2 in E. cbn in E. injection E as <- <-.
  split; cbn; [|by constructor|by constructor].
  intros q. destruct (decide (q = pi)) as [->|Hq]; [rewrite lookup_delete_eq; by intros []|]. rewrite lookup_delete_ne by done. intros H.
  destruct (G1 q H) as (Q1 & Q2 & Q3). unfold Pool.set_ref. rewrite (proj2 (Z.eqb_neq _ _) Hq). split_and!; [apply Q1|apply Q1|done|].
  rewrite not_elem_of_cons. done.
Qed.
Lemma pages_data pp P en pi p p' : pages_ok pp P en -> pp !! pi = Some p -> pages_ok (<[pi := p']> pp) P en.
Proof.
  intros [G1 G2 G3] Hp. split; [|done|done]. intros q. destruct (decide (q = pi)) as [->|Hq]; [intros _; apply G1; by eexists|].
  rewrite lookup_insert_ne by done. apply G1.
Qed.

(** ** The whole state *)

(** The descriptors of all processes, the inodes the processes' directories and
    the open files refer to. *)
Definition nonnulls (l : list Z) : list Z := base.filter (fun i => i <> null) l.
Definition fds (s : sys) : list Z := nonnulls (concat (map p_ofile (y_proc s))).
Definition f_irefs (f : file) : list Z := match f_type f with FD_INODE | FD_DEVICE => [f_ip f] | _ => [] end.
Definition irefs (s : sys) : list Z := nonnulls (map p_cwd (y_proc s)) ++ concat (map f_irefs (y_file s)).
Definition procs_ok (s : sys) : Prop := length (y_proc s) = 64%nat /\ Forall (fun p => length (p_ofile p) = 16%nat) (y_proc s).

Lemma concat_length_const {A} (l : list (list A)) n : Forall (fun x => length x = n) l -> length (concat l) = (length l * n)%nat.
Proof. induction 1; cbn; [done|]. rewrite length_app. lia. Qed.
Lemma fds_length s : procs_ok s -> (length (fds s) <= 1024)%nat.
Proof.
  intros [H1 H2]. unfold fds, nonnulls. etrans; [apply length_filter|]. rewrite (concat_length_const _ 16); [rewrite length_map; lia|].
  by apply Forall_map.
Qed.
Lemma irefs_length s hx : procs_ok s -> refs_ok (y_file s) hx -> (length (irefs s) <= 164)%nat.
Proof.
  intros [H1 H2] R. unfold irefs, nonnulls. rewrite length_app. pose proof (length_filter (fun i => i <> null) (map p_cwd (y_proc s))) as Hf.
  rewrite length_map in Hf. assert (length (concat (map f_irefs (y_file s))) <= length (y_file s))%nat as Hc.
  { generalize (y_file s). induction l as [|f l IH]; cbn; [done|]. rewrite length_app. unfold f_irefs at 1. destruct (f_type f); cbn; lia. }
  rewrite (ro_len _ _ R) in Hc. lia.
Qed.

(** ** Code that leaves all this alone *)

Record same (s s' : sys) : Prop := {
  sm_file : y_file s' = y_file s;
  sm_pipes : y_pipes s' = y_pipes s;
  sm_pool : same_pool (phys_of s) (phys_of s');
  sm_ofile : map p_ofile (y_proc s') = map p_ofile (y_proc s);
  sm_cwd : map p_cwd (y_proc s') = map p_cwd (y_proc s);
  sm_ids : forall j, ids (fs_itable (y_fs s')) j = ids (fs_itable (y_fs s)) j;
  sm_me : y_me s' = y_me s
}.
#[export] Instance same_pre : PreOrder same.
Proof.
  split; [by split|]. intros x y z [] []. split; [congruence|congruence|by etrans|congruence|congruence|intros j; congruence|congruence].
Qed.

Lemma procs_ok_same s s' : same s s' -> procs_ok s -> procs_ok s'.
Proof.
  intros [_ _ _ S4 _ _ _] [H1 H2]. split; [rewrite <- (length_map p_ofile), S4, length_map; done|].
  rewrite <- (Forall_map p_ofile (fun x => length x = 16%nat)) in *. by rewrite S4.
Qed.
Lemma pres_zoom {S T A} (R : relation S) (Q : relation T) get put (c : M T A) :
  pres Q c -> (forall t s, Q (get s) t -> R s (put t s)) -> pres R (zoom get put c).
Proof. intros Hc Hp s a s' E. unfold zoom in E. destruct (c (get s)) eqn:Ec; inversion E; subst. apply Hp. by eapply Hc. Qed.
Lemma same_inphys {A} (c : M phys A) : pres same_pool c -> pres same (inphys c).
Proof. intros H. eapply pres_zoom; [exact H|]. intros t s Ht. by split. Qed.
Lemma same_inlk {A} (c : M lkst A) : pres same (inlk c).
Proof. eapply pres_zoom; [apply pres_any|]. by intros t s _. Qed.
Lemma same_infs {A} (c : M fss A) : keeps_ids c -> pres FsRefs.quiet c -> pres same (infs c).
Proof.
  intros Hk Hq s a s' E. unfold infs, zoom in E. destruct (c (fs_get s)) eqn:Ec; inversion E; subst. split; try done; cbn.
  - apply (Hq _ _ _ Ec).
  - apply (Hk _ _ _ Ec).
Qed.
Lemma same_getp i : pres same (getp i).
Proof. intros s a s'. unfold getp. destruct (znth (y_proc s) i); [|done]. by intros [= <- <-]. Qed.
Lemma same_getf i : pres same (getf i).
Proof. intros s a s'. unfold getf. destruct (znth (y_file s) i); [|done]. by intros [= <- <-]. Qed.
#[export] Hint Resolve same_inphys same_inlk same_infs same_getp same_getf : pres.

Lemma map_zset_same {A B} (f : A -> B) l i x y l' : znth l i = Some x -> zset l i y = Some l' -> f y = f x -> map f l' = map f l.
Proof.
  intros Hx Hs Hf. pose proof (znth_Some_range _ _ _ Hx) as Hr. rewrite zset_Some in Hs by done. injection Hs as <-.
  unfold znth in Hx. destruct (0 <=? i); [|done]. apply list_eq. intros k. rewrite !list_lookup_fmap. destruct (decide (k = Z.to_nat i)) as [->|Hk].
  - rewrite list_lookup_insert_eq, Hx by (by eapply lookup_lt_Some). cbn. by rewrite Hf.
  - by rewrite list_lookup_insert_ne.
Qed.
Lemma modp_inv i f s a s' : modp i f s = Ret a s' -> exists p l', znth (y_proc s) i = Some p /\ zset (y_proc s) i (f p) = Some l' /\ s' = set_yproc l' s.
Proof.
  intros (p & s1 & E1 & E2)%bind_inv. unfold getp in E1. destruct (znth (y_proc s) i) as [q|] eqn:Eq; [|done]. injection E1 as <- <-.
  unfold setp in E2. destruct (zset (y_proc s) i (f q)) as [l'|] eqn:El; [|done]. injection E2 as <- <-. eauto.
Qed.
Lemma same_modp i f : (forall p, p_ofile (f p) = p_ofile p) -> (forall p, p_cwd (f p) = p_cwd p) -> pres same (modp i f).
Proof. intros H1 H2 s a s' (p & l' & Hp & Hl & ->)%modp_inv. split; try done; cbn; eapply map_zset_same; eauto. Qed.
#[export] Hint Extern 1 (pres same (modp _ _)) => apply same_modp; reflexivity : pres.

Lemma same_myproc : pres same myproc.
Proof. unfold myproc. pres. Qed.
#[export] Hint Resolve same_myproc : pres.
Lemma same_getreg r : pres same (getreg r).
Proof. unfold getreg. pres. Qed.
Lemma same_setreg r v : pres same (setreg r v).
Proof. unfold setreg. pres. Qed.
#[export] Hint Resolve same_getreg same_setreg : pres.
Lemma same_argraw n : pres same (argraw n).
Proof. unfold argraw. pres. Qed.
#[export] Hint Resolve same_argraw : pres.
Lemma same_argint n : pres same (argint n).
Proof. unfold argint. pres. Qed.
Lemma same_argaddr n : pres same (argaddr n).
Proof. apply same_argraw. Qed.
Lemma same_fetchstr a b m : pres same (fetchstr a b m).
Proof. unfold fetchstr. pres. Qed.
#[export] Hint Resolve same_argint same_argaddr same_fetchstr : pres.
Lemma same_argstr n b m : pres same (argstr n b m).
Proof. unfold argstr. pres. Qed.
Lemma same_argfd n : pres same (argfd n).
Proof. unfold argfd. pres. Qed.
Lemma same_acquire l : pres same (Sys.acquire l).
Proof. apply same_inlk. Qed.
Lemma same_release l : pres same (Sys.release l).
Proof. apply same_inlk. Qed.
Lemma same_begin_op : pres same begin_op.
Proof. apply same_infs; [keeps|pres]. Qed.
Lemma same_end_op : pres same end_op.
Proof. apply same_infs; [keeps|pres]. Qed.
#[export] Hint Resolve same_argstr same_argfd same_acquire same_release same_begin_op same_end_op : pres.

(** ** Triples over the runs that return *)

Definition tri {A} (P : sys -> Prop) (c : M sys A) (Q : A -> sys -> Prop) : Prop := forall s a s', P s -> c s = Ret a s' -> Q a s'.

Lemma tri_bind {A B} P (c : M sys A) Q (k : A -> M sys B) R : tri P c Q -> (forall a, tri (Q a) (k a) R) -> tri P (bind c k) R.
Proof. intros Hc Hk s b s' HP (a & s1 & E1 & E2)%bind_inv. eapply Hk; [|exact E2]. by eapply Hc. Qed.
Lemma tri_ret {A} (a : A) P Q : (forall s, P s -> Q a s) -> tri P (ret a) Q.
Proof. intros H s b s' HP [= <- <-]. auto. Qed.
Lemma tri_if {A} (b : bool) P (c d : M sys A) Q : (b = true -> tri P c Q) -> (b = false -> tri P d Q) -> tri P (if b then c else d) Q.
Proof. destruct b; auto. Qed.
Lemma tri_when (b : bool) P c (Q : unit -> sys -> Prop) : (b = true -> tri P c Q) -> (b = false -> forall s, P s -> Q tt s) -> tri P (when b c) Q.
Proof. destruct b; [auto|]. intros _ H. by apply tri_ret, H. Qed.
Lemma tri_panic {A} m P (Q : A -> sys -> Prop) : tri P (panic m) Q.
Proof. by intros s a s' _. Qed.
Lemma tri_fault {A} P (Q : A -> sys -> Prop) : tri P fault Q.
Proof. by intros s a s' _. Qed.
Lemma tri_post {A} P (c : M sys A) (Q Q' : A -> sys -> Prop) : tri P c Q -> (forall a s, Q a s -> Q' a s) -> tri P c Q'.
Proof. intros H HQ s a s' HP E. apply HQ. by eapply H. Qed.
Lemma tri_pre {A} (P P' : sys -> Prop) (c : M sys A) Q : tri P c Q -> (forall s, P' s -> P s) -> tri P' c Q.
Proof. intros H HP s a s' HP' E. eapply H; eauto. Qed.
(** The files count the references [hx], the descriptors are [l], and code in
    progress holds the references [y] to inodes.  What [G] is needed for is the
    pipes and their pages: code that frees the memory of processes is followed
    with [G] false. *)
Record counted (G : Prop) (hx l y : list Z) (s : sys) : Prop := {
  ct_procs : procs_ok s;
  ct_refs : refs_ok (y_file s) hx;
  ct_len : (length hx < 5000)%nat;
  ct_pipes : G -> pipes_ok (ends (y_file s)) (y_pipes s);
  ct_pages : G -> pages_ok (y_pipes s) (ph_pool (phys_of s)) (ph_end (phys_of s));
  ct_fds : fds s ≡ₚ l;
  ct_inodes : table_inv (fs_itable (y_fs s)) (y ++ irefs s)
}.

Arguments ct_procs {G} hx l y s _.
Arguments ct_refs {G} hx l y s _.
Arguments ct_len {G} hx l y s _.
Arguments ct_pipes {G} hx l y s _.
Arguments ct_pages {G} hx l y s _.
Arguments ct_fds {G} hx l y s _.
Arguments ct_inodes {G} hx l y s _.

Section counted.
Context {G : Prop}.
Local Notation counted := (counted G).

Lemma counted_same hx l y s s' : same s s' -> counted hx l y s -> counted hx l y s'.
Proof.
  intros Hs [C1 C2 C3 C4 C5 C6 C7]. pose proof Hs as [S1 S2 [S3 S3'] S4 S5 S6 _]. split.
  - by apply (procs_ok_same s s').
  - by rewrite S1.
  - done.
  - by rewrite S1, S2.
  - by rewrite S2, S3, S3'.
  - unfold fds. by rewrite S4.
  - unfold irefs. rewrite S1, S5. by eapply table_inv_ext.
Qed.

Lemma tri_same {A} hx l y (F : sys -> Prop) (c : M sys A) : pres same c -> (forall s s', same s s' -> F s -> F s') ->
  tri (fun s => counted hx l y s /\ F s) c (fun _ s => counted hx l y s /\ F s).
Proof. intros Hc HF s a s' [H1 H2] E. pose proof (Hc _ _ _ E) as Hs. split; [by eapply counted_same|by eapply HF]. Qed.
Lemma tri_same' {A} hx l y (c : M sys A) : pres same c -> tri (counted hx l y) c (fun _ => counted hx l y).
Proof. intros Hc s a s' H E. eapply counted_same; [by eapply Hc|done]. Qed.

Lemma tri_counts {A} hx l y (c : M fss A) y' : counts y c y' -> tri (counted hx l y) (infs c) (fun a => counted hx l (y' a)).
Proof.
  intros Hc s a s' [C1 C2 C3 C4 C5 C6 C7] E. unfold infs, zoom in E. destruct (c (fs_get s)) as [b t| | | |] eqn:Ec; inversion E; subst.
  destruct (Hc (fs_get s) a t (irefs s)) as [I [Q1 Q2 Q3]]; [exact C7| | |exact Ec|].
  - pose proof (irefs_length s hx C1 C2). lia.
  - cbn [fs_get fs_cwd]. unfold curcwd, curproc. destruct (znth (y_proc s) (y_me s)) as [p|] eqn:Ep; [|by left].
    destruct (decide (p_cwd p = null)) as [|Hn]; [by left|right]. unfold irefs, nonnulls. apply elem_of_app. left. apply list_elem_of_filter. split; [done|].
    unfold znth in Ep. destruct (0 <=? y_me s); [|done]. apply list_elem_of_fmap. exists p. split; [done|]. by eapply list_elem_of_lookup_2.
  - split; try done. destruct Q1 as [Q1 Q4]. unfold phys_of in *. cbn [y_pipes y_fs set_yfs]. by rewrite Q1, Q4.
Qed.

Lemma counted_perm hx hx' l l' y y' s : hx ≡ₚ hx' -> l ≡ₚ l' -> y ≡ₚ y' -> counted hx l y s -> counted hx' l' y' s.
Proof.
  intros H1 H2 H3 [C1 C2 C3 C4 C5 C6 C7]. split; [done|by eapply refs_perm|by rewrite <- H1|done|done|by rewrite C6|].
  eapply table_inv_perm; [|done]. by rewrite H3.
Qed.

(** ** Changes of one entry of a list *)

Lemma concat_map_zset {A B} (f : A -> list B) l i x z l' : znth l i = Some x -> zset l i z = Some l' ->
  f x ++ concat (map f l') ≡ₚ f z ++ concat (map f l).
Proof.
  intros Hx Hs. pose proof (znth_Some_range _ _ _ Hx) as Hr. rewrite zset_Some in Hs by done. injection Hs as <-.
  unfold znth in Hx. destruct (0 <=? i); [|done]. destruct (list_elem_of_split_length _ _ _ Hx) as (l1 & l2 & -> & ->).
  rewrite insert_app_r_alt, Nat.sub_diag by lia. cbn. rewrite !map_app, !concat_app. cbn. rewrite !app_assoc.
  rewrite (Permutation_app_comm (f x)), (Permutation_app_comm (f z)), <- !app_assoc. apply Permutation_app_head. rewrite !app_assoc.
  apply Permutation_app_tail, Permutation_app_comm.
Qed.
Lemma nonnulls_perm l l' : l ≡ₚ l' -> nonnulls l ≡ₚ nonnulls l'.
Proof. unfold nonnulls. by intros ->. Qed.
Lemma nonnulls_app l l' : nonnulls (l ++ l') = nonnulls l ++ nonnulls l'.
Proof. apply filter_app. Qed.
Lemma zset_perm {A} (l l' : list A) i x z : znth l i = Some x -> zset l i z = Some l' -> x :: l' ≡ₚ z :: l.
Proof.
  intros Hx Hs. pose proof (concat_map_zset (fun a => [a]) l i x z l' Hx Hs) as H. cbn in H.
  assert (forall m : list A, concat (map (fun a => [a]) m) = m) as Hm by (induction m; cbn; congruence). by rewrite !Hm in H.
Qed.

Lemma fds_put s i p l' s' o f fd : znth (y_proc s) i = Some p -> znth (p_ofile p) fd = Some o -> zset (p_ofile p) fd f = Some l' ->
  setp i (set_ofile l' p) s = Ret tt s' -> nonnulls [o] ++ fds s' ≡ₚ nonnulls [f] ++ fds s.
Proof.
  intros Hp Ho Hl E. unfold setp in E. destruct (zset (y_proc s) i (set_ofile l' p)) as [ps|] eqn:Ez; [|done]. injection E as <-.
  pose proof (concat_map_zset p_ofile _ _ _ _ _ Hp Ez) as H1. cbn [p_ofile set_ofile] in H1. pose proof (zset_perm _ _ _ _ _ Ho Hl) as H2.
  unfold fds. cbn [y_proc set_yproc]. rewrite <- !nonnulls_app. apply nonnulls_perm, (Permutation_app_inv_l (p_ofile p)). cbn.
  rewrite <- !Permutation_middle, H1. change (o :: l' ++ ?c) with ((o :: l') ++ c). by rewrite H2.
Qed.

(** ** file.c *)

Lemma getf_inv i s f s' : getf i s = Ret f s' -> znth (y_file s) i = Some f /\ s' = s.
Proof. unfold getf. destruct (znth (y_file s) i); [|done]. by intros [= <- <-]. Qed.
Lemma getp_inv i s p s' : getp i s = Ret p s' -> znth (y_proc s) i = Some p /\ s' = s.
Proof. unfold getp. destruct (znth (y_proc s) i); [|done]. by intros [= <- <-]. Qed.
Lemma modf_inv i g s a s' : modf i g s = Ret a s' -> exists f fl, znth (y_file s) i = Some f /\ zset (y_file s) i (g f) = Some fl /\ s' = set_yfile fl s.
Proof.
  intros (f & s1 & (Hf & ->)%getf_inv & E2)%bind_inv. unfold setf in E2. destruct (zset (y_file s) i (g f)) as [fl|] eqn:El; [|done]. injection E2 as <- <-. eauto.
Qed.

(** An entry changes that is the same end of a pipe and refers to the same inode. *)
Lemma counted_file hx hx' l y s i k g fl : counted hx l y s -> znth (y_file s) i = Some k -> zset (y_file s) i g = Some fl ->
  pview g = pview k -> f_irefs g = f_irefs k -> refs_ok fl hx' -> (length hx' < 5000)%nat -> counted hx' l y (set_yfile fl s).
Proof.
  intros [C1 C2 C3 C4 C5 C6 C7] Hk Hz Hp Hi Hr Hl. split; try done; cbn [y_file set_yfile y_pipes y_fs].
  - intros HG. eapply pipes_ext; [|exact (C4 HG)]. by eapply ends_zset.
  - unfold irefs. cbn [y_file set_yfile y_proc]. by rewrite (map_zset_same f_irefs _ _ _ _ _ Hk Hz).
Qed.

(** A file in the making: it refers to nothing yet. *)
Definition unused (f : Z) (s : sys) : Prop := exists k, znth (y_file s) f = Some k /\ f_type k = FD_NONE.
Lemma unused_same f s s' : same s s' -> unused f s -> unused f s'.
Proof. intros [H _ _ _ _ _ _]. unfold unused. by rewrite H. Qed.

Lemma file_scan_ok l : forall i, 0 <= i -> let f := file_scan l i in f = null \/ i <= f /\ exists k, znth l (f - i) = Some k /\ f_ref k = 0.
Proof.
  induction l as [|k l IH]; intros i Hi; cbn [file_scan]; [by left|]. destruct (Z.eqb_spec (f_ref k) 0) as [E|E].
  - right. split; [lia|]. exists k. by rewrite Z.sub_diag.
  - destruct (IH (i + 1) ltac:(lia)) as [H|(H1 & k' & H2 & H3)]; [by left|]. right. split; [lia|]. exists k'. split; [|done].
    rewrite <- H2. unfold znth. zb. replace (Z.to_nat (file_scan l (i + 1) - i)) with (S (Z.to_nat (file_scan l (i + 1) - (i + 1)))) by lia. done.
Qed.

Lemma filealloc_tri hx l y : (length hx < 4900)%nat ->
  tri (counted hx l y) filealloc (fun f s => if f =? null then counted hx l y s else counted (f :: hx) l y s /\ f ∉ hx /\ unused f s).
Proof.
  intros Hl. unfold filealloc. eapply tri_bind; [apply tri_same'; pres|]. intros ?. cbv beta. intros s f s' C E. rewrite bind_gets in E.
  destruct (file_scan_ok (y_file s) 0 ltac:(lia)) as [Hn|(H0 & k & Hk & Hr)]; [|rewrite Z.sub_0_r in Hk; set (i := file_scan (y_file s) 0) in *].
  - rewrite Hn, Z.eqb_refl in E. apply bind_inv in E as ([] & s1 & E1 & [= <- <-]). eapply counted_same; [by eapply same_release|done].
  - rewrite (proj2 (Z.eqb_neq i null)) in E by (unfold null; lia). apply bind_inv in E as ([] & s1 & E1 & E2).
    apply modf_inv in E1 as (k' & fl & Hk' & Hz & ->). rewrite Hk in Hk'. injection Hk' as <-.
    assert (counted (i :: hx) l y (set_yfile fl s)) as C1.
    { eapply counted_file; [done|done|done|done|done|by eapply refs_alloc; [apply C|..]|cbn; lia]. }
    apply bind_inv in E2 as ([] & s2 & E2 & [= <- <-]). rewrite (proj2 (Z.eqb_neq i null)) by (unfold null; lia).
    pose proof (same_release _ _ _ _ E2) as Hs. split; [by eapply counted_same|]. split.
    + intros Hi. pose proof (refs_to_pos _ _ Hi). rewrite <- (ro_ref _ _ (ct_refs _ _ _ _ C) i k Hk) in *. lia.
    + apply (unused_same _ _ _ Hs). exists (set_fref 1 k). split; [cbn; by eapply znth_zset_eq|]. by apply (ro_none _ _ (ct_refs _ _ _ _ C) i k).
Qed.

Lemma filedup_tri f hx l y : (length hx < 4900)%nat -> f ∈ hx -> tri (counted hx l y) (filedup f) (fun g s => g = f /\ counted (f :: hx) l y s).
Proof.
  intros Hl Hf. unfold filedup. eapply tri_bind; [apply tri_same'; pres|]. intros ?. cbv beta. intros s g s' C (k & s1 & (Hk & ->)%getf_inv & E)%bind_inv.
  destruct (f_ref k <? 1); [done|]. apply bind_inv in E as ([] & s2 & (k' & fl & Hk' & Hz & ->)%modf_inv & E).
  rewrite Hk in Hk'. injection Hk' as <-. apply bind_inv in E as ([] & s3 & E & [= <- <-]). split; [done|].
  eapply counted_same; [by eapply same_release|]. eapply counted_file; [done|done|done|done|done| |cbn; lia].
  eapply refs_dup; [apply C| |done|done|done]. pose proof (ct_len _ _ _ _ C). lia.
Qed.

(** ** pipeclose *)

Lemma lk_only {A} (c : M lkst A) (st st' : pst) a : lift c st = Ret a st' -> pp_pipe st' = pp_pipe st /\ pp_phys st' = pp_phys st.
Proof. unfold lift. destruct (c (view st)); inversion 1; done. Qed.
Lemma pipeclose_inv pi w st st' : pipeclose pi w st = Ret tt st' ->
  pp_pipe st' = close_end (negb w) (pp_pipe st) /\
  (if both_closed (close_end (negb w) (pp_pipe st)) then
     exists m, Pool.give pi (ph_mem (pp_phys st)) (ph_pool (pp_phys st)) = (m, ph_pool (pp_phys st')) /\ ph_end (pp_phys st') = ph_end (pp_phys st)
   else same_pool (pp_phys st) (pp_phys st')).
Proof.
  unfold pipeclose. intros ([] & s1 & E1 & ([] & s2 & E2 & H)%bind_inv)%bind_inv. apply lk_only in E1 as [P1 H1].
  assert (pp_pipe s2 = close_end (negb w) (pp_pipe st) /\ pp_phys s2 = pp_phys st) as [P2 H2].
  { destruct w; apply bind_inv in E2 as ([] & s3 & [= <-] & E2); apply lk_only in E2 as [P2 H2]; cbn in P2, H2; rewrite P2, H2, <- P1; by split. }
  rewrite bind_gets, P2 in H. unfold both_closed. destruct ((_ =? 0) && (_ =? 0)).
  - apply bind_inv in H as ([] & s3 & E3 & H). apply lk_only in E3 as [P3 H3]. unfold lift, pg_kfree in H. cbn [view pst_phys] in H. rewrite H3, H2 in H.
    destruct (_ || _); [done|]. destruct (Pool.give pi (ph_mem (pp_phys st)) (ph_pool (pp_phys st))) as [m P'] eqn:Eg. injection H as <-. cbn.
    split; [congruence|]. by exists m.
  - apply lk_only in H as [P3 H3]. split; [congruence|]. split; congruence.
Qed.

(** File [i] has been given up, but the pipe [e i] it was an end of not yet. *)
Record closing (i : Z) (e : Z -> option (Z * bool)) (hx l y : list Z) (s : sys) : Prop := {
  cl_procs : procs_ok s;
  cl_refs : refs_ok (y_file s) hx;
  cl_len : (length hx < 5000)%nat;
  cl_pipes : G -> pipes_ok e (y_pipes s);
  cl_pages : G -> pages_ok (y_pipes s) (ph_pool (phys_of s)) (ph_end (phys_of s));
  cl_fds : fds s ≡ₚ l;
  cl_inodes : table_inv (fs_itable (y_fs s)) (y ++ irefs s);
  cl_ends : forall j, ends (y_file s) j = if decide (j = i) then None else e j
}.
Lemma closing_same i e hx l y s s' : same s s' -> closing i e hx l y s -> closing i e hx l y s'.
Proof.
  intros Hs [C1 C2 C3 C4 C5 C6 C7 C8]. pose proof (procs_ok_same _ _ Hs C1) as C1'. destruct Hs as [S1 S2 [S3 S3'] S4 S5 S6 _].
  split; [done|by rewrite S1|done|by rewrite S2|by rewrite S2, S3, S3'|unfold fds; by rewrite S4| |by rewrite S1].
  unfold irefs. rewrite S1, S5. by eapply table_inv_ext.
Qed.
Lemma closing_counted i e hx l y s : e i = None -> closing i e hx l y s -> counted hx l y s.
Proof. intros He [C1 C2 C3 C4 C5 C6 C7 C8]. split; try done. intros HG. eapply pipes_ext; [|exact (C4 HG)]. intros j. rewrite C8. case_decide; [by subst|done]. Qed.

Lemma pipeclose_tri hx l y pi b i e : e i = Some (pi, b) -> tri (closing i e hx l y) (pipeclose_ pi (negb b)) (fun _ => counted hx l y).
Proof.
  intros Hi s [] s' [C1 C2 C3 C4 C5 C6 C7 He] E. unfold pipeclose_ in E. apply bind_inv in E as ([] & s1 & E1 & [= <-]).
  unfold onpipe in E1. destruct (y_pipes s !! pi) as [p|] eqn:Ep; [|done]. unfold zoom in E1.
  destruct (pipeclose pi (negb b) _) as [[] t| | | |] eqn:Ec; inversion E1; subst s1. apply pipeclose_inv in Ec as [P1 H1]. rewrite negb_involutive in P1, H1.
  cbn [pp_pipe pp_phys] in P1, H1. cbn. rewrite lookup_insert_eq. fold (both_closed (pp_pipe t)). rewrite P1.
  assert (G -> _) as Hpc by (intros HG; exact (pipes_close e _ i pi b p (C4 HG) Hi Ep)). destruct (both_closed (close_end b p)).
  - destruct H1 as (m & Hg & Hen). split; try done; cbn.
    + rewrite delete_insert_eq. intros HG. by eapply pipes_ext, (Hpc HG).
    + rewrite delete_insert_eq. unfold phys_of in *. cbn. rewrite Hen. intros HG. eapply pages_give; [by apply C5|done|done].
  - destruct H1 as [Hg Hen]. split; try done; cbn.
    + intros HG. by eapply pipes_ext, (Hpc HG).
    + unfold phys_of in *. cbn. rewrite Hen, Hg. intros HG. eapply pages_data; [by apply C5|done].
Qed.

(** ** fileclose *)

Lemma zset_zset {A} (l l1 l2 : list A) i a b : zset l i a = Some l1 -> zset l1 i b = Some l2 -> zset l i b = Some l2.
Proof.
  intros H1 H2. pose proof (zset_length _ _ _ _ H1) as Hl. unfold zset in *. rewrite Hl in H2. destruct ((0 <=? i) && _); [|done].
  injection H1 as <-. injection H2 as <-. f_equal. by rewrite list_insert_insert_eq.
Qed.

(** The entry of file [i] becomes unused. *)
Lemma drop_file hx l y s i k g fl : counted (i :: hx) l y s -> znth (y_file s) i = Some k -> f_ref k = 1 ->
  zset (y_file s) i g = Some fl -> f_ref g = 0 -> f_type g = FD_NONE ->
  closing i (ends (y_file s)) hx l (f_irefs k ++ y) (set_yfile fl s).
Proof.
  intros [C1 C2 C3 C4 C5 C6 C7] Hk Hr Hz Hg Ht. cbn in C3. split; try done; [|lia| |]; cbn.
  - eapply refs_drop; [done|done|done|lia|done].
  - eapply table_inv_perm; [|exact C7]. pose proof (concat_map_zset f_irefs _ _ _ _ _ Hk Hz) as Hp. unfold f_irefs at 3 in Hp. rewrite Ht in Hp. cbn in Hp.
    unfold irefs. cbn [y_file set_yfile y_proc]. rewrite <- Hp, <- app_assoc. by rewrite (Permutation_app_swap_app _ (f_irefs k)), (Permutation_app_swap_app y).
  - intros j. rewrite (ends_upd _ _ _ _ Hz). case_decide; [|done]. unfold pview. by rewrite Ht.
Qed.

Lemma iput_ptr_tri hx l ip y : (length y < 100)%nat -> tri (counted hx l (ip :: y)) (iput_ptr ip) (fun _ => counted hx l y).
Proof.
  intros Hy. unfold iput_ptr. apply tri_if; intros _; [|by apply (tri_counts hx l (ip :: y) _ (fun _ => y)), counts_iput_hd].
  intros s a s' _ (? & s1 & _ & E)%bind_inv. done.
Qed.

Lemma same_sock_close f s a s' : innet (k <- sock_get f ;; ops_close (so_ops k) f) s = Ret a s' -> same s s'.
Proof.
  unfold innet, zoom, bind, sock_get. cbn. destruct (st_sockets (k_sockets (y_net s)) !! f) as [k|]; [|done].
  unfold ops_close. destruct (so_ops k); cbn; [done| |]; intros [= <- <-]; by split.
Qed.

Lemma close_inode hx l ip y : (length y < 90)%nat -> tri (counted hx l (ip :: y)) (begin_op ;;; iput_ptr ip ;;; end_op) (fun _ => counted hx l y).
Proof.
  intros Hy. eapply tri_bind; [apply tri_same', same_begin_op|]. intros ?. cbv beta. eapply tri_bind; [apply iput_ptr_tri; lia|]. intros ?. cbv beta.
  apply tri_same', same_end_op.
Qed.

Lemma fileclose_tri f hx l y : (length y < 90)%nat -> tri (counted (f :: hx) l y) (fileclose f) (fun _ => counted hx l y).
Proof.
  intros Hy. unfold fileclose. eapply tri_bind; [apply tri_same'; pres|]. intros ?. cbv beta. intros s [] s' C (k & s1 & (Hk & ->)%getf_inv & E)%bind_inv.
  pose proof (ro_ref _ _ (ct_refs _ _ _ _ C) f k Hk) as Hr. rewrite refs_to_eq in Hr. pose proof (refs_to_bound f hx) as Hb.
  pose proof (ct_len _ _ _ _ C) as Hl. cbn in Hl. destruct (f_ref k <? 1); [done|].
  apply bind_inv in E as ([] & s2 & (k1 & fl1 & Hk1 & Hz1 & ->)%modf_inv & E). rewrite Hk in Hk1. injection Hk1 as <-.
  rewrite s32_small in * by lia. destruct (Z.ltb_spec 0 (f_ref k - 1)) as [H0|H0].
  { eapply counted_same; [by eapply same_release|]. eapply counted_file; [done|done|done|done|done| |lia].
    eapply refs_drop; [apply C|done|done|done|cbn; lia]. }
  apply bind_inv in E as (ff & s3 & (Hff & ->)%getf_inv & E). cbn in Hff. rewrite (znth_zset_eq _ _ _ _ Hz1) in Hff. injection Hff as <-.
  apply bind_inv in E as ([] & s3 & (k2 & fl2 & Hk2 & Hz2 & ->)%modf_inv & E). cbn in Hk2, Hz2. rewrite (znth_zset_eq _ _ _ _ Hz1) in Hk2. injection Hk2 as <-.
  apply bind_inv in E as ([] & s3 & (k3 & fl3 & Hk3 & Hz3 & ->)%modf_inv & E). cbn in Hk3, Hz3. rewrite (znth_zset_eq _ _ _ _ Hz2) in Hk3. injection Hk3 as <-.
  pose proof (zset_zset _ _ _ _ _ _ Hz1 Hz2) as Hz12. pose proof (zset_zset _ _ _ _ _ _ Hz12 Hz3) as Hz.
  change (set_yfile fl3 (set_yfile fl2 (set_yfile fl1 s))) with (set_yfile fl3 s) in E.
  pose proof (drop_file hx l y s f k _ fl3 C Hk ltac:(lia) Hz ltac:(done) ltac:(done)) as D.
  apply bind_inv in E as ([] & s4 & E4 & E). cbn [f_type set_fref f_pipe f_writable f_ip] in E. apply (closing_same _ _ _ _ _ _ _ (same_release _ _ _ _ E4)) in D.
  assert (ends (y_file s) f = pview k) as He by (unfold ends; by rewrite Hk). unfold pview in He. unfold f_irefs in D.
  destruct (f_type k) eqn:Et; rewrite ?decide_True, ?decide_False in He by done; try apply (closing_counted _ _ _ _ _ _ He) in D.
  - by injection E as <-.
  - by eapply (pipeclose_tri hx l y _ _ f (ends (y_file s)) He).
  - by eapply close_inode.
  - by eapply close_inode.
  - apply bind_inv in E as (g & s5 & (Hg & ->)%getf_inv & E). apply bind_inv in E as (r & s6 & E6 & [= <-]).
    eapply counted_same; [by eapply same_sock_close|done].
Qed.

(** ** Descriptors *)

Definition at_fd (i fd f : Z) (s : sys) : Prop := exists p, znth (y_proc s) i = Some p /\ znth (p_ofile p) fd = Some f.

Lemma znth_map {A B} (f : A -> B) l i : znth (map f l) i = option_map f (znth l i).
Proof. unfold znth. destruct (0 <=? i); [|done]. apply list_lookup_fmap. Qed.
Lemma at_fd_same i fd f s s' : same s s' -> at_fd i fd f s -> at_fd i fd f s'.
Proof.
  intros [_ _ _ S4 _ _ _] (p & Hp & Hf). pose proof (znth_map p_ofile (y_proc s') i) as H. rewrite S4, znth_map, Hp in H. cbn in H.
  destruct (znth (y_proc s') i) as [q|] eqn:Eq; [|done]. injection H as H. exists q. by rewrite <- H.
Qed.
Lemma at_fd_in i fd f s : at_fd i fd f s -> f <> null -> f ∈ fds s.
Proof.
  intros (p & Hp & Hf) Hn. unfold fds, nonnulls. apply list_elem_of_filter. split; [done|]. unfold znth in *. destruct (0 <=? i); [|done]. destruct (0 <=? fd); [|done].
  rewrite list_elem_of_In, in_concat. exists (p_ofile p). rewrite <- !list_elem_of_In. split; [|by eapply list_elem_of_lookup_2].
  apply list_elem_of_fmap. exists p. split; [done|by eapply list_elem_of_lookup_2].
Qed.

Lemma put_ofile_inv i fd f s a s' : put_ofile i fd f s = Ret a s' ->
  exists p l' ps, znth (y_proc s) i = Some p /\ zset (p_ofile p) fd f = Some l' /\ zset (y_proc s) i (set_ofile l' p) = Some ps /\ s' = set_yproc ps s.
Proof.
  intros (p & s1 & (Hp & ->)%getp_inv & E)%bind_inv. destruct (zset (p_ofile p) fd f) as [l'|] eqn:El; [|done].
  unfold setp in E. destruct (zset (y_proc s) i (set_ofile l' p)) as [ps|] eqn:Ez; [|done]. injection E as <- <-. exists p, l', ps. done.
Qed.
Lemma zset_is_Some {A} (l : list A) i x l' : zset l i x = Some l' -> exists o, znth l i = Some o.
Proof. unfold zset. intros H. apply znth_is_Some. destruct (Z.leb_spec 0 i), (Z.ltb_spec i (Z.of_nat (length l))); cbn in H; try done; lia. Qed.

Lemma put_ofile_tri i fd o f hx l l' y : nonnulls [o] ++ l' ≡ₚ nonnulls [f] ++ l ->
  tri (fun s => counted hx l y s /\ at_fd i fd o s) (put_ofile i fd f)
    (fun _ s => counted hx l' y s /\ at_fd i fd f s).
Proof.
  intros Hp s a s' [[[C1 C1'] C2 C3 C4 C5 C6 C7] (p & Hi & Ho)] (p' & m & ps & Hi' & Hm & Hps & ->)%put_ofile_inv. rewrite Hi in Hi'. injection Hi' as <-. split.
  - split; try done; cbn.
    + split; cbn [y_proc set_yproc]; [by rewrite (zset_length _ _ _ _ Hps)|]. eapply zset_Forall; [done| |done]. cbn. rewrite (zset_length _ _ _ _ Hm). by eapply (znth_Forall _ _ _ _ C1').
    + pose proof (fds_put s i p m (set_yproc ps s) o f fd Hi Ho Hm) as H. unfold setp in H. rewrite Hps in H. specialize (H eq_refl).
      apply (Permutation_app_inv_l (nonnulls [o])). rewrite H, Hp. by rewrite C6.
    + unfold irefs. cbn. by rewrite (map_zset_same p_cwd _ _ _ _ _ Hi Hps).
  - exists (set_ofile m p). split; [by eapply znth_zset_eq|]. cbn. by eapply znth_zset_eq.
Qed.
Lemma put_ofile_other i fd f fd' g s a s' : put_ofile i fd f s = Ret a s' -> fd' <> fd -> at_fd i fd' g s -> at_fd i fd' g s'.
Proof.
  intros (p & m & ps & Hi & Hm & Hps & ->)%put_ofile_inv Hn (q & Hq & Hg). rewrite Hi in Hq. injection Hq as <-.
  exists (set_ofile m p). split; [by eapply znth_zset_eq|]. cbn. by rewrite (znth_zset_ne _ _ _ fd' _ (not_eq_sym Hn) Hm).
Qed.
Lemma put_ofile_me i fd f s a s' : put_ofile i fd f s = Ret a s' -> y_me s' = y_me s.
Proof. by intros (p & m & ps & Hi & Hm & Hps & ->)%put_ofile_inv. Qed.

Lemma fd_scan_ok l : forall i, 0 <= i -> let fd := fd_scan l i in fd = -1 \/ i <= fd /\ znth l (fd - i) = Some null.
Proof.
  induction l as [|k l IH]; intros i Hi; cbn [fd_scan]; [by left|]. destruct (Z.eqb_spec k null) as [->|E].
  - right. split; [lia|]. by rewrite Z.sub_diag.
  - destruct (IH (i + 1) ltac:(lia)) as [H|(H1 & H2)]; [by left|]. right. split; [lia|].
    rewrite <- H2. unfold znth. zb. replace (Z.to_nat (fd_scan l (i + 1) - i)) with (S (Z.to_nat (fd_scan l (i + 1) - (i + 1)))) by lia. done.
Qed.

(** A descriptor that was free. *)
Lemma fdalloc_tri f hx l y i fd' g : f <> null ->
  tri (fun s => counted hx l y s /\ y_me s = i /\ (g = null \/ at_fd i fd' g s)) (fdalloc f)
    (fun fd s => (if fd <? 0 then counted hx l y s else counted hx (f :: l) y s /\ at_fd i fd f s) /\ y_me s = i /\
       (g = null \/ at_fd i fd' g s /\ fd <> fd')).
Proof.
  intros Hf s fd s' (C & Hme & Hg) E. unfold fdalloc in E. rewrite bind_gets, Hme in E. apply bind_inv in E as (p & s1 & (Hp & ->)%getp_inv & E).
  destruct (fd_scan_ok (p_ofile p) 0 ltac:(lia)) as [Hs|[H0 Hn]]; [|rewrite Z.sub_0_r in Hn; set (k := fd_scan (p_ofile p) 0) in *].
  - rewrite Hs in E. injection E as <- <-. cbn. split; [done|]. split; [done|]. destruct Hg as [|Hg]; [by left|]. right. split; [done|].
    destruct Hg as (q & _ & Hq). apply znth_Some_range in Hq. lia.
  - rewrite (proj2 (Z.eqb_neq k (-1))) in E by lia. apply bind_inv in E as (a & s2 & E & [= <- <-]). rewrite (proj2 (Z.ltb_ge k 0)) by lia.
    pose proof (put_ofile_tri i k null f hx l (f :: l) y) as T. unfold nonnulls in T. rewrite !filter_cons, !decide_False, !filter_nil in T by (intros ?; done).
    rewrite decide_True in T by done. cbn in T.
    split; [eapply T; [done| |exact E]; split; [done|by exists p]|]. split; [by rewrite (put_ofile_me _ _ _ _ _ _ E)|].
    destruct Hg as [|Hg]; [by left|]. destruct (Z.eq_dec g null) as [|Hgn]; [by left|]. right. assert (k <> fd') as Hk.
    { intros ->. destruct Hg as (q & Hq & Hqf). rewrite Hp in Hq. injection Hq as <-. congruence. }
    split; [|done]. eapply put_ofile_other; [exact E|done|done].
Qed.

(** ** pipealloc *)

Lemma counted_unref hx l y s f : counted hx l y s -> f ∈ hx -> 0 <= f < NFILE.
Proof. intros C Hf. by apply (proj1 (Forall_forall _ _) (ro_range _ _ (ct_refs _ _ _ _ C)) f). Qed.

Lemma pipe_bad_tri hx l y f0 f1 : (length y < 90)%nat ->
  tri (counted (opt_ref f1 (opt_ref f0 hx)) l y) (pipe_bad 0 f0 f1) (fun r s => r.1.1 = -1 /\ counted hx l y s).
Proof.
  intros Hy. unfold pipe_bad. cbn [Z.eqb negb when]. eapply (tri_bind _ _ (fun _ => counted (opt_ref f1 (opt_ref f0 hx)) l y)); [by apply tri_ret|]. intros ?.
  eapply (tri_bind _ _ (fun _ => counted (opt_ref f1 hx) l y)).
  - unfold opt_ref. apply tri_when; intros H; [apply negb_true_iff in H|apply negb_false_iff in H]; rewrite H; [|done].
    destruct (f1 =? null); [by apply fileclose_tri|]. eapply tri_pre; [by apply (fileclose_tri f0 (f1 :: hx))|]. intros s. apply counted_perm; [apply perm_swap|done|done].
  - intros ?. eapply (tri_bind _ _ (fun _ => counted hx l y)); [|intros ?; by apply tri_ret].
    unfold opt_ref. apply tri_when; intros H; [apply negb_true_iff in H|apply negb_false_iff in H]; rewrite H; [by apply fileclose_tri|done].
Qed.

Lemma kalloc_inv s pi s' : inphys pg_kalloc s = Ret pi s' ->
  match Pool.free (ph_pool (phys_of s)) with
  | [] => pi = 0 /\ s' = put_phys (phys_of s) s
  | r :: rest => pi = r /\ exists m, s' = put_phys (mkPhys m (Pool.mkPool rest (Pool.set_ref (Pool.refs (ph_pool (phys_of s))) r 1)) (ph_end (phys_of s))) s
  end.
Proof.
  unfold inphys, zoom, pg_kalloc, Pool.take. destruct (Pool.free _) as [|r rest]; intros [= <- <-]; [|split; [done|by eexists]].
  split; [done|]. by destruct (phys_of s).
Qed.

(** The page [r] has become the pipe [p]. *)
Record piped (r : Z) (rest : list Z) (p : pipe) (s s' : sys) : Prop := {
  pd_file : y_file s' = y_file s;
  pd_pipes : y_pipes s' = <[r := p]> (y_pipes s);
  pd_pool : ph_pool (phys_of s') = Pool.mkPool rest (Pool.set_ref (Pool.refs (ph_pool (phys_of s))) r 1);
  pd_end : ph_end (phys_of s') = ph_end (phys_of s);
  pd_ofile : map p_ofile (y_proc s') = map p_ofile (y_proc s);
  pd_cwd : map p_cwd (y_proc s') = map p_cwd (y_proc s);
  pd_ids : forall j, ids (fs_itable (y_fs s')) j = ids (fs_itable (y_fs s)) j
}.
Lemma piped_same r rest p s s1 s2 : piped r rest p s s1 -> same s1 s2 -> piped r rest p s s2.
Proof. intros [] [? ? [] ]. split; congruence. Qed.

(** The two files become its ends. *)
Lemma counted_new_pipe hx l y s s3 f0 f1 r rest k0 k1 p fl1 fl2 :
  counted hx l y s -> piped r rest p s s3 -> Pool.free (ph_pool (phys_of s)) = r :: rest -> f0 <> f1 -> f0 ∈ hx -> f1 ∈ hx ->
  znth (y_file s) f0 = Some k0 -> f_type k0 = FD_NONE -> znth (y_file s) f1 = Some k1 -> f_type k1 = FD_NONE -> (forall b, is_open b p) ->
  zset (y_file s) f0 (set_fpipe r (set_frw 1 0 (set_ftype FD_PIPE k0))) = Some fl1 ->
  zset fl1 f1 (set_fpipe r (set_frw 0 1 (set_ftype FD_PIPE k1))) = Some fl2 -> counted hx l y (set_yfile fl2 s3).
Proof.
  intros [C1 C2 C3 C4 C5 C6 C7] [D1 D2 D3 D4 D5 D6 D7] Hfr Hne H0 H1 Hk0 Ht0 Hk1 Ht1 Hp Hz1 Hz2.
  assert (G -> _) as Hpg by (intros HG; exact (pages_take _ _ _ _ _ p (C5 HG) Hfr)).
  pose proof (ro_ref _ _ C2 f0 k0 Hk0) as Hr0. pose proof (refs_to_pos _ _ H0) as P0.
  pose proof (ro_ref _ _ C2 f1 k1 Hk1) as Hr1. pose proof (refs_to_pos _ _ H1) as P1.
  assert (znth fl1 f1 = Some k1) as Hk1' by (rewrite <- Hk1; by eapply (znth_zset_ne _ _ f0)).
  split; cbn [y_file set_yfile y_pipes y_fs].
  - destruct C1 as [L1 L2]. split; cbn [y_proc set_yfile]; [rewrite <- (length_map p_ofile), D5, length_map; done|].
    rewrite <- (Forall_map p_ofile (fun x => length x = 16%nat)) in *. by rewrite D5.
  - eapply refs_keep; [|exact Hk1'|exact Hz2|done|cbn; lia]. eapply refs_keep; [done|exact Hk0|exact Hz1|done|cbn; lia].
  - done.
  - rewrite D2. intros HG. destruct (Hpg HG) as (Hn & _). eapply pipes_ext; [|apply (pipes_new _ _ f0 f1 r p (C4 HG)); [unfold ends; rewrite Hk0; unfold pview; by rewrite Ht0|unfold ends; rewrite Hk1; unfold pview; by rewrite Ht1|done..]].
    intros j. cbn beta. rewrite (ends_upd _ _ _ _ Hz2), (ends_upd _ _ _ _ Hz1). done.
  - rewrite D2. unfold phys_of in *. cbn [y_fs set_yfile]. rewrite D3, D4. intros HG. apply (Hpg HG).
  - unfold fds. cbn [y_proc set_yfile]. by rewrite D5.
  - unfold irefs. cbn [y_proc y_file set_yfile]. rewrite D6.
    rewrite (map_zset_same f_irefs _ _ _ _ _ Hk1' Hz2), (map_zset_same f_irefs _ _ _ _ _ Hk0 Hz1); [by eapply table_inv_ext| |]; unfold f_irefs; cbn; by rewrite ?Ht0, ?Ht1.
Qed.

Lemma filealloc_unused f f' s s' : f <> f' -> filealloc s = Ret f' s' -> unused f s -> unused f s'.
Proof.
  intros Hne ([] & t1 & T1 & E1)%bind_inv Hu. rewrite bind_gets in E1. apply (unused_same _ _ _ (same_acquire _ _ _ _ T1)) in Hu. cbv zeta in E1. destruct (_ =? null).
  - apply bind_inv in E1 as ([] & t2 & T2 & [= <- <-]). by apply (unused_same _ _ _ (same_release _ _ _ _ T2)).
  - apply bind_inv in E1 as ([] & t2 & (k & fl & Hk & Hz & ->)%modf_inv & E1). apply bind_inv in E1 as ([] & t3 & T3 & [= <- <-]).
    apply (unused_same _ _ _ (same_release _ _ _ _ T3)). destruct Hu as (k0 & Hk0 & Ht0). exists k0. split; [|done]. cbn. by rewrite (znth_zset_ne _ _ _ f _ (not_eq_sym Hne) Hz).
Qed.

(** Page 0 is never free. *)
Lemma counted_page_0 hx l y s m P rest : counted hx l y s -> Pool.free (ph_pool (phys_of s)) = 0 :: rest ->
  counted hx l y (put_phys (mkPhys m P (ph_end (phys_of s))) s).
Proof.
  intros [C1 C2 C3 C4 C5 C6 C7] Hf. split; try done. intros HG. exfalso. by destruct (pages_take _ _ _ _ _ (new_pipe []) (C5 HG) Hf) as (_ & ? & _).
Qed.

Lemma pipealloc_tri hx l y : (length hx < 4000)%nat -> (length y < 90)%nat ->
  tri (counted hx l y) pipealloc (fun '(r, f0, f1) s => if r <? 0 then counted hx l y s else counted (f1 :: f0 :: hx) l y s /\ f0 <> null /\ f1 <> null).
Proof.
  intros Hl Hy. unfold pipealloc. eapply tri_bind; [apply filealloc_tri; lia|]. intros f0. cbv beta.
  assert (forall c P, tri P c (fun r s => r.1.1 = -1 /\ counted hx l y s) ->
    tri P c (fun '(r, f0, f1) s => if r <? 0 then counted hx l y s else counted (f1 :: f0 :: hx) l y s /\ f0 <> null /\ f1 <> null)) as Hbad.
  { intros c P H. eapply tri_post; [exact H|]. intros [[r a] b] s. cbn. by intros [-> ?]. }
  destruct (Z.eqb_spec f0 null) as [->|H0]; [apply Hbad; by apply (pipe_bad_tri hx l y null null)|].
  assert (forall g, opt_ref f0 g = f0 :: g) as E0 by (intros g; unfold opt_ref; by rewrite (proj2 (Z.eqb_neq _ _) H0)).
  intros s a s' (C & Hn0 & Hu0) E. apply bind_inv in E as (f1 & s1 & E1 & E). pose proof (filealloc_tri (f0 :: hx) l y ltac:(cbn; lia) _ _ _ C E1) as H1. cbv beta in H1.
  destruct (Z.eqb_spec f1 null) as [->|Hf1].
  { eapply Hbad; [apply (pipe_bad_tri hx l y f0 null Hy)| |exact E]. cbn. by rewrite E0. }
  assert (forall g, opt_ref f1 g = f1 :: g) as E1' by (intros g; unfold opt_ref; by rewrite (proj2 (Z.eqb_neq _ _) Hf1)).
  destruct H1 as (C1 & Hn1 & Hu1). apply bind_inv in E as (pi & s2 & E2 & E).
  assert (f0 <> f1) as Hne by (intros <-; apply Hn1; constructor).
  pose proof (filealloc_unused _ _ _ _ Hne E1 Hu0) as Hu0'.
  apply kalloc_inv in E2. destruct (Pool.free (ph_pool (phys_of s1))) as [|r rest] eqn:Efr.
  { destruct E2 as [-> ->]. eapply Hbad; [apply (pipe_bad_tri hx l y f0 f1 Hy)| |exact E]. rewrite E1', E0. eapply counted_same; [|exact C1]. by split. }
  destruct E2 as [-> [m ->]]. destruct (Z.eqb_spec r 0) as [->|Hr0].
  { eapply Hbad; [apply (pipe_bad_tri hx l y f0 f1 Hy)| |exact E]. rewrite E1', E0. by eapply counted_page_0. }
  apply bind_inv in E as (m' & s3 & E3 & E). injection E3 as <- <-.
  apply bind_inv in E as ([] & s3 & E3 & E). injection E3 as E3. apply bind_inv in E as ([] & s4 & E4 & E).
  assert (exists p, piped r rest p s1 s4 /\ forall b, is_open b p) as (p & D & Hp).
  { eexists. split; [eapply piped_same; [|by eapply same_inlk]; rewrite <- E3; by split|]. by intros []. }
  clear E3 E4. pose proof (pd_file _ _ _ _ _ D) as Df.
  apply bind_inv in E as ([] & s5 & (k0 & fl1 & Hk0 & Hz0 & ->)%modf_inv & E). apply bind_inv in E as ([] & s6 & (k1 & fl2 & Hk1 & Hz1 & ->)%modf_inv & E).
  injection E as <- <-. cbn [Z.ltb Z.compare]. split; [|done]. cbn [y_file set_yfile] in Hk0, Hz0, Hk1, Hz1. rewrite Df in *.
  destruct Hu0' as (q0 & Hq0 & Ht0), Hu1 as (q1 & Hq1 & Ht1).
  rewrite Hk0 in Hq0. injection Hq0 as <-. rewrite (znth_zset_ne _ _ _ f1 _ Hne Hz0), Hq1 in Hk1. injection Hk1 as <-.
  change (set_yfile fl2 (set_yfile fl1 s4)) with (set_yfile fl2 s4).
  eapply (counted_new_pipe (f1 :: f0 :: hx) l y s1 s4 f0 f1 r rest k0 q1); try done; [by right; left|by left].
Qed.

(** ** The calls on descriptors *)

(** Between system calls. *)
Definition ok (s : sys) : Prop := counted (fds s) (fds s) [] s.
Lemma ok_intro l s : counted l l [] s -> ok s.
Proof. intros C. pose proof (ct_fds _ _ _ _ C) as H. eapply counted_perm; [symmetry; exact H|symmetry; exact H|done|done]. Qed.
(** From [ok], with a name for the list of descriptors. *)
Lemma tri_ok {A} (c : M sys A) Q : (forall l, (length l <= 1024)%nat -> tri (counted l l []) c Q) -> tri ok c Q.
Proof. intros H s a s' C E. eapply (H (fds s)); [|exact C|exact E]. apply fds_length, (ct_procs _ _ _ _ C). Qed.

Lemma argfd_tri n hx l y : tri (counted hx l y) (argfd n)
  (fun a s => counted hx l y s /\ match a with None => True | Some (fd, f) => f <> null /\ at_fd (y_me s) fd f s end).
Proof.
  intros s a s' C E. split; [eapply counted_same; [by eapply same_argfd|done]|]. unfold argfd in E. apply bind_inv in E as (fd & s1 & E1 & E).
  destruct (_ || _); [by injection E as <- <-|]. apply bind_inv in E as (p & s2 & E2 & E). unfold myproc in E2. rewrite bind_gets in E2. apply getp_inv in E2 as [Hp ->].
  destruct (znth (p_ofile p) fd) as [f|] eqn:Ef; [|done]. injection E as <- <-. destruct (Z.eqb_spec f null); [done|]. split; [done|]. by exists p.
Qed.

Lemma elem_perm {A} (x : A) l : x ∈ l -> exists l', l ≡ₚ x :: l'.
Proof. intros (l1 & l2 & ->)%list_elem_of_split. exists (l1 ++ l2). by rewrite Permutation_middle. Qed.
Lemma nonnulls_one f : f <> null -> nonnulls [f] = [f].
Proof. intros H. unfold nonnulls. by rewrite filter_cons_True. Qed.
Lemma nonnulls_null : nonnulls [null] = [].
Proof. done. Qed.

Lemma sys_dup_ok : tri ok sys_dup (fun _ => ok).
Proof.
  apply tri_ok. intros l Hl. unfold sys_dup. eapply tri_bind; [apply argfd_tri|]. intros [[fd f]|]; cbv beta; [|apply tri_ret; intros s [C _]; by eapply ok_intro].
  intros s a s' (C & Hf & Hat) E. apply bind_inv in E as (fd' & s1 & E1 & E).
  pose proof (at_fd_in _ _ _ _ Hat Hf) as Hin. rewrite (ct_fds _ _ _ _ C) in Hin.
  destruct (fdalloc_tri f l l [] (y_me s) 0 null Hf _ _ _ (conj C (conj eq_refl (or_introl eq_refl))) E1) as (H & _).
  destruct (fd' <? 0); [injection E as <- <-; by eapply ok_intro|]. destruct H as [C1 _]. apply bind_inv in E as (g & s2 & E2 & [= <- <-]).
  destruct (filedup_tri f l (f :: l) [] ltac:(lia) Hin _ _ _ C1 E2) as [_ C2]. by eapply ok_intro.
Qed.

Lemma sys_close_ok : tri ok sys_close (fun _ => ok).
Proof.
  apply tri_ok. intros l Hl. unfold sys_close. eapply tri_bind; [apply argfd_tri|]. intros [[fd f]|]; cbv beta; [|apply tri_ret; intros s [C _]; by eapply ok_intro].
  intros s a s' (C & Hf & Hat) E. rewrite bind_gets in E. pose proof (at_fd_in _ _ _ _ Hat Hf) as Hin. rewrite (ct_fds _ _ _ _ C) in Hin.
  destruct (elem_perm _ _ Hin) as [l' Hp]. apply bind_inv in E as ([] & s1 & E1 & E). apply bind_inv in E as ([] & s2 & E2 & [= <- <-]).
  destruct (put_ofile_tri (y_me s) fd f null l l l' [] ltac:(by rewrite nonnulls_one, nonnulls_null) _ _ _ (conj C Hat) E1) as [C1 _].
  apply (ok_intro l'). eapply (fileclose_tri f l' l' []); [cbn; lia| |exact E2]. by eapply counted_perm; [exact Hp| | |exact C1].
Qed.

(** Both ends given up again. *)
Lemma close_both rf wf hx l : tri (counted (wf :: rf :: hx) l []) (fileclose rf ;;; fileclose wf ;;; ret (-1)) (fun _ => counted hx l []).
Proof.
  eapply (tri_bind _ _ (fun _ => counted (wf :: hx) l [])).
  - eapply tri_pre; [apply (fileclose_tri rf (wf :: hx)); cbn; lia|]. intros s. apply counted_perm; [apply perm_swap|done|done].
  - intros ?. eapply tri_bind; [apply fileclose_tri; cbn; lia|]. intros ?. by apply tri_ret.
Qed.

Lemma same_copyout pt va src len : pres same (inphys (copyout pt va src len)).
Proof. pres. Qed.

Lemma sys_pipe_ok : tri ok sys_pipe (fun _ => ok).
Proof.
  apply tri_ok. intros l Hl. unfold sys_pipe. eapply tri_bind; [apply tri_same'; pres|]. intros a. cbv beta.
  eapply tri_bind; [apply pipealloc_tri; cbn; lia|]. intros [[r rf] wf]. cbv beta iota. apply tri_if; intros Hr; rewrite Hr; [apply tri_ret; apply ok_intro|].
  intros s b s' (C & Hrf & Hwf) E. rewrite bind_gets in E. set (i := y_me s) in *. apply bind_inv in E as (fd0 & s1 & E1 & E).
  destruct (fdalloc_tri rf _ _ _ i 0 null Hrf _ _ _ (conj C (conj eq_refl (or_introl eq_refl))) E1) as (H1 & Hme1 & _).
  destruct (fd0 <? 0); [apply (ok_intro l); by eapply close_both|]. destruct H1 as [C1 Hat0]. apply bind_inv in E as (fd1 & s2 & E2 & E).
  destruct (fdalloc_tri wf _ _ _ i fd0 rf Hwf _ _ _ (conj C1 (conj Hme1 (or_intror Hat0))) E2) as (H2 & Hme2 & H3). destruct H3 as [|[Hat0' Hne]]; [done|].
  destruct (fd1 <? 0).
  { apply bind_inv in E as ([] & s3 & E3 & E).
    destruct (put_ofile_tri i fd0 rf null _ (rf :: l) l [] ltac:(by rewrite nonnulls_one, nonnulls_null) _ _ _ (conj H2 Hat0') E3) as [C3 _].
    apply (ok_intro l). by eapply close_both. }
  destruct H2 as [C2 Hat1]. apply bind_inv in E as (a0 & s3 & [= <- <-] & E). apply bind_inv in E as (a1 & s3 & [= <- <-] & E).
  apply bind_inv in E as ([] & s3 & E3 & E). apply bind_inv in E as (pt & s4 & [= <- <-] & E).
  apply bind_inv in E as (r0 & s4 & E4 & E). apply bind_inv in E as (r1 & s5 & E5 & E).
  assert (same s2 s5) as Hs.
  { etrans; [eapply (same_inphys (setmem _)); [pres|exact E3]|]. etrans; [by eapply same_copyout|]. destruct (r0 <? 0); [by injection E5 as <- <-|by eapply same_copyout]. }
  clear E3 E4 E5. apply (counted_same _ _ _ _ _ Hs) in C2. apply (at_fd_same _ _ _ _ _ Hs) in Hat0', Hat1.
  destruct (_ || _); [|injection E as <- <-; by eapply ok_intro].
  apply bind_inv in E as ([] & s6 & E6 & E). apply bind_inv in E as ([] & s7 & E7 & E).
  destruct (put_ofile_tri i fd0 rf null _ _ (wf :: l) [] ltac:(rewrite nonnulls_one, nonnulls_null by done; apply perm_swap) _ _ _ (conj C2 Hat0') E6) as [C6 _].
  pose proof (put_ofile_other _ _ _ _ _ _ _ _ E6 Hne Hat1) as Hat1'.
  destruct (put_ofile_tri i fd1 wf null _ (wf :: l) l [] ltac:(by rewrite nonnulls_one, nonnulls_null) _ _ _ (conj C6 Hat1') E7) as [C7 _].
  apply (ok_intro l). by eapply close_both.
Qed.
End counted.
