(* ===== verification/FileCalls.v ===== *)
(** * The calls that open, use and close files

    link, unlink, open, mkdir, mknod, chdir, read, write and fstat each keep the
    reference counts of FileInv.v, on every path through them. *)
From stdpp Require Import strings.
From S2P Require Import Prelude Mem StringC Kalloc Page Vm KState Locks Bio Log Fs FsTxn FsAlloc FsInode FsRefs Pipe Sched Uart Console Sys File Syscall Proc Sysfile FileInv.
From Stdlib Require Import ZArith Lia.
Local Open Scope list_scope.
Local Open Scope Z_scope.
Local Open Scope kernel_scope.

(** ** The calls on paths *)

#[export] Hint Extern 2 (pres same (infs _)) => apply same_infs; [solve [keeps | eauto 3 with ids_keeps]|solve [pres]] : pres.
(** The next operation leaves everything alone. *)
Ltac ts := eapply tri_bind; [apply tri_same'; solve [pres]|]; intros ?; cbv beta.
(** The next operation is the file system's, with the rule [L] for references. *)
Ltac tc L := eapply tri_bind; [eapply tri_counts; apply L; cbn; lia|]; intros ?; cbv beta.
(** A transaction ends with result [v]. *)
Ltac te := ts; apply tri_ret; try apply ok_intro.

Lemma same_modinode ip f : (forall i, (i_ref (f i), i_dev (f i), i_inum (f i)) = (i_ref i, i_dev i, i_inum i)) -> pres same (modinode ip f).
Proof. intros H. apply same_infs; [by apply ids_keeps_modi|pres]. Qed.
#[export] Hint Extern 1 (pres same (modinode _ _)) => apply same_modinode; reflexivity : pres.
Lemma same_inode_of ip : pres same (inode_of ip).
Proof. unfold inode_of. pres. Qed.
#[export] Hint Resolve same_inode_of : pres.

Lemma same_isdirempty dp : pres same (isdirempty dp).
Proof.
  assert (forall n off, pres same (isdirempty_loop n dp off)) as H by (induction n; intros; cbn [isdirempty_loop]; pres).
  unfold isdirempty. pres.
Qed.
#[export] Hint Resolve same_isdirempty : pres.

Section calls.
Context {G : Prop}.
Local Notation counted := (counted G).
Local Notation ok := (ok (G := G)).

(** A pointer that was looked up is tested for null. *)
Lemma tri_opt {A} hx l x y (c d : M sys A) Q : tri (counted hx l y) c Q -> (x <> null -> tri (counted hx l (x :: y)) d Q) ->
  tri (counted hx l (opt_ref x y)) (if x =? null then c else d) Q.
Proof. unfold opt_ref. destruct (Z.eqb_spec x null); auto. Qed.

Lemma nameiparent_counts p nm y : (length y < 99)%nat -> counts y (nameiparent p nm) (fun r => opt_ref r y).
Proof. apply counts_namex. Qed.

Lemma link_bad_tri ip hx l y : (length y < 90)%nat -> tri (counted hx l (ip :: y)) (link_bad ip) (fun _ => counted hx l y).
Proof. intros Hy. unfold link_bad. do 3 ts. tc counts_iunlockput_hd. by te. Qed.

Lemma sys_link_ok : tri ok sys_link (fun _ => ok).
Proof.
  apply tri_ok. intros l Hl. unfold sys_link. do 4 ts. apply tri_if; intros _; [apply tri_ret, ok_intro|]. ts. apply tri_if; intros _; [apply tri_ret, ok_intro|].
  ts. tc counts_namei. apply tri_opt; [by te|intros Hip]. do 2 ts. apply tri_if; intros _; [tc counts_iunlockput_hd; by te|].
  do 3 ts. tc nameiparent_counts. apply tri_opt; [eapply tri_post; [apply link_bad_tri; cbn; lia|intros ? ?; apply ok_intro]|intros Hdp].
  do 3 ts. eapply (tri_bind _ _ (fun _ => counted l l _)).
  { apply tri_if; intros _; [by apply tri_ret|]. eapply tri_counts, counts_dirlink. cbn. lia. }
  intros r. cbv beta. apply tri_if; intros _.
  - tc counts_iunlockput_hd. eapply tri_post; [apply link_bad_tri; cbn; lia|intros ? ?; apply ok_intro].
  - tc counts_iunlockput_hd. tc counts_iput_hd. by te.
Qed.

Lemma unlink_entry_ok dp nm l : tri (counted l l [dp]) (unlink_entry dp nm) (fun _ => ok).
Proof.
  assert (tri (counted l l [dp]) (unlink_bad dp) (fun _ => ok)) as Hbad by (unfold unlink_bad; tc counts_iunlockput_hd; by te).
  unfold unlink_entry. eapply tri_bind; [eapply tri_counts, counts_dirlookup; cbn; lia|]. intros [ip off]. cbv beta. cbn [fst]. apply tri_opt; [done|intros Hip]. do 2 ts.
  apply tri_if; intros _; [apply tri_panic|]. eapply (tri_bind _ _ (fun _ => counted l l [ip; dp])); [apply tri_same'; pres|]. intros e.
  apply tri_if; intros _; [tc counts_iunlockput_hd; apply Hbad|]. do 3 ts. apply tri_if; intros _; [apply tri_panic|].
  do 2 ts. tc counts_iunlockput_snd. do 2 ts. tc counts_iunlockput_hd. by te.
Qed.

Lemma sys_unlink_ok : tri ok sys_unlink (fun _ => ok).
Proof.
  apply tri_ok. intros l Hl. unfold sys_unlink. do 3 ts. apply tri_if; intros _; [apply tri_ret, ok_intro|].
  ts. tc nameiparent_counts. apply tri_opt; [by te|intros Hdp]. do 4 ts. apply tri_if; intros _; [|apply unlink_entry_ok].
  unfold unlink_bad. tc counts_iunlockput_hd. by te.
Qed.

(** create() returns a new reference, or null. *)
Lemma create_fail_tri ip dp hx l y : (length y < 80)%nat -> tri (counted hx l (ip :: dp :: y)) (create_fail ip dp) (fun r => counted hx l (opt_ref r y)).
Proof. intros Hy. unfold create_fail. do 2 ts. tc counts_iunlockput_hd. tc counts_iunlockput_hd. by apply tri_ret. Qed.

Lemma create_new_tri dp nm type major minor hx l y : (length y < 80)%nat ->
  tri (counted hx l (dp :: y)) (create_new dp nm type major minor) (fun r => counted hx l (opt_ref r y)).
Proof.
  intros Hy. unfold create_new. ts. tc counts_ialloc. apply tri_opt; [tc counts_iunlockput_hd; by apply tri_ret|intros Hip]. do 7 ts.
  eapply (tri_bind _ _ (fun _ => counted hx l (_ :: dp :: y))).
  { apply tri_if; intros _; [|by apply tri_ret]. tc counts_dirlink. apply tri_if; intros _; [by apply tri_ret|]. tc counts_dirlink. by apply tri_ret. }
  intros k. apply tri_if; intros _; [by apply create_fail_tri|]. tc counts_dirlink. apply tri_if; intros _; [by apply create_fail_tri|].
  ts. tc counts_iunlockput_snd. apply tri_ret. unfold opt_ref. by rewrite (proj2 (Z.eqb_neq _ _) Hip).
Qed.

Lemma create_tri path type major minor hx l y : (length y < 80)%nat ->
  tri (counted hx l y) (create path type major minor) (fun r => counted hx l (opt_ref r y)).
Proof.
  intros Hy. unfold create. ts. tc nameiparent_counts. apply tri_opt; [by apply tri_ret|intros Hdp]. ts. eapply tri_bind; [eapply tri_counts, counts_dirlookup; cbn; lia|]. intros [ip off]. cbv beta. cbn [fst].
  unfold opt_ref at 1. destruct (Z.eqb_spec ip null) as [->|Hip]; cbn [negb]; [by apply create_new_tri|]. tc counts_iunlockput_snd. do 2 ts.
  apply tri_if; intros _; [|tc counts_iunlockput_hd; by apply tri_ret]. apply tri_ret. unfold opt_ref. by rewrite (proj2 (Z.eqb_neq _ _) Hip).
Qed.

(** What mkdir() and mknod() do with the inode. *)
Lemma made_ok ip l : tri (counted l l (opt_ref ip [])) (if ip =? null then end_op ;;; ret (-1) else infs (iunlockput ip) ;;; end_op ;;; ret 0) (fun _ => ok).
Proof. apply tri_opt; [by te|intros _]. tc counts_iunlockput_hd. by te. Qed.
Lemma made_tri (b : bool) path t j n l : tri (counted l l []) (if b then ret null else create path t j n) (fun r => counted l l (opt_ref r [])).
Proof. apply tri_if; intros _; [by apply tri_ret|]. apply create_tri. cbn. lia. Qed.
Lemma sys_mkdir_ok : tri ok sys_mkdir (fun _ => ok).
Proof. apply tri_ok. intros l Hl. unfold sys_mkdir. do 3 ts. eapply tri_bind; [apply made_tri|]. intros ip. apply made_ok. Qed.
Lemma sys_mknod_ok : tri ok sys_mknod (fun _ => ok).
Proof. apply tri_ok. intros l Hl. unfold sys_mknod. do 5 ts. eapply tri_bind; [apply made_tri|]. intros ip. apply made_ok. Qed.

(** ** open and chdir *)

(** A file in the making takes the reference to the inode. *)
Lemma counted_opened hx l ip y s f k g fl : counted hx l (ip :: y) s -> f ∈ hx -> znth (y_file s) f = Some k -> f_type k = FD_NONE ->
  zset (y_file s) f g = Some fl -> f_ref g = f_ref k -> f_irefs g = [ip] -> pview g = None -> counted hx l y (set_yfile fl s).
Proof.
  intros [C1 C2 C3 C4 C5 C6 C7] Hf Hk Ht Hz Hr Hi Hv. split; try done; cbn [y_file set_yfile y_pipes y_fs].
  - eapply refs_keep; [done|done|done|done|]. intros H0. pose proof (refs_to_pos _ _ Hf). rewrite <- (ro_ref _ _ C2 f k Hk) in *. lia.
  - intros HG. eapply pipes_ext; [|exact (C4 HG)]. eapply ends_zset; [done|done|]. rewrite Hv. unfold pview. by rewrite Ht.
  - eapply table_inv_perm; [|exact C7]. pose proof (concat_map_zset f_irefs _ _ _ _ _ Hk Hz) as Hp. unfold f_irefs at 1 in Hp. rewrite Ht, Hi in Hp. cbn in Hp.
    unfold irefs. cbn [y_file set_yfile y_proc]. rewrite Hp. cbn. rewrite !Permutation_middle. done.
Qed.

Lemma modf_seq {A} f g h (k : unit -> M sys A) s : bind (modf f g) (fun _ => bind (modf f h) k) s = bind (modf f (fun x => h (g x))) k s.
Proof.
  unfold modf, getf, setf, bind. destruct (znth (y_file s) f) as [x|]; [|done]. destruct (zset (y_file s) f (g x)) as [l|] eqn:El.
  - cbn. rewrite (znth_zset_eq _ _ _ _ El). destruct (zset l f (h (g x))) as [l'|] eqn:El'.
    + change (y_file (set_yfile l s)) with l. by rewrite El', (zset_zset _ _ _ _ _ _ El El').
    + exfalso. apply zset_length in El as Hl. unfold zset in *. rewrite Hl in El'. by destruct (_ && _).
  - cbn. unfold zset in *. by destruct (_ && _).
Qed.

Lemma fdalloc_file f s fd s' : fdalloc f s = Ret fd s' -> y_file s' = y_file s.
Proof.
  unfold fdalloc. rewrite bind_gets. intros (p & s1 & (Hp & ->)%getp_inv & E)%bind_inv. destruct (_ =? -1); [by injection E as <- <-|].
  apply bind_inv in E as (a & s2 & (q & m & ps & _ & _ & _ & ->)%put_ofile_inv & [= <- <-]). done.
Qed.

Lemma unlock_fail_tri ip l : tri (counted l l [ip]) (unlock_fail ip) (fun _ => ok).
Proof. unfold unlock_fail. tc counts_iunlockput_hd. by te. Qed.

Lemma open_end (b : bool) ip (fd : Z) l :
  tri (counted l l []) (when b (infs (itrunc ip)) ;;; infs (iunlock ip) ;;; end_op ;;; ret fd) (fun _ => counted l l []).
Proof. do 3 ts. by apply tri_ret. Qed.
Lemma open_inode_ok ip omode l : (length l <= 1024)%nat -> tri (counted l l [ip]) (open_inode ip omode) (fun _ => ok).
Proof.
  intros Hl. unfold open_inode. ts. apply tri_if; intros _; [apply unlock_fail_tri|]. eapply tri_bind; [apply filealloc_tri; lia|]. intros f. cbv beta.
  destruct (Z.eqb_spec f null) as [_|Hf]; [apply unlock_fail_tri|].
  intros s r s' (C & Hin & k & Hk & Ht) (fd & s1 & E1 & E)%bind_inv. pose proof (fdalloc_file _ _ _ _ E1) as Hy.
  destruct (fdalloc_tri f _ _ _ (y_me s) 0 null Hf _ _ _ (conj C (conj eq_refl (or_introl eq_refl))) E1) as (H & _). destruct (fd <? 0).
  { apply bind_inv in E as ([] & s2 & E2 & E). eapply unlock_fail_tri; [|exact E]. eapply (fileclose_tri f l l [ip]); [cbn; lia|exact H|exact E2]. }
  destruct H as [C1 _]. rewrite <- Hy in Hk. apply bind_inv in E as (i & s2 & E2 & E). pose proof (same_inode_of _ _ _ _ E2) as Hs.
  apply (counted_same _ _ _ _ _ Hs) in C1. rewrite <- (sm_file _ _ Hs) in Hk. clear E1 E2 Hs Hy C.
  set (b := flag omode _ && (i_type i =? T_FILE)) in E.
  assert (exists g fl, f_ref (g k) = f_ref k /\ f_irefs (g k) = [ip] /\ pview (g k) = None /\ zset (y_file s2) f (g k) = Some fl /\
    (when b (infs (itrunc ip)) ;;; infs (iunlock ip) ;;; end_op ;;; ret fd) (set_yfile fl s2) = Ret r s') as (g & fl & G1 & G2 & G3 & Hz & E3).
  { destruct (i_type i =? T_DEVICE); rewrite !modf_seq in E.
    all: apply bind_inv in E as ([] & s3 & (k' & fl & Hk' & Hz & ->)%modf_inv & E); rewrite Hk in Hk'; injection Hk' as <-.
    all: eexists (fun x => _), fl; split_and!; [| | |exact Hz|exact E]; done. }
  pose proof (counted_opened _ _ _ _ _ _ _ _ _ C1 ltac:(apply list_elem_of_here) Hk Ht Hz G1 G2 G3) as C2.
  apply (ok_intro (f :: l)). by eapply open_end.
Qed.

Lemma sys_open_ok : tri ok sys_open (fun _ => ok).
Proof.
  apply tri_ok. intros l Hl. unfold sys_open. do 3 ts. apply tri_if; intros _; [apply tri_ret, ok_intro|]. ts. apply tri_if; intros _.
  - eapply tri_bind; [apply create_tri; cbn; lia|]. intros ip. cbv beta. apply tri_opt; [by te|intros _]. by apply open_inode_ok.
  - tc counts_namei. apply tri_opt; [by te|intros _]. do 2 ts. apply tri_if; intros _; [apply unlock_fail_tri|by apply open_inode_ok].
Qed.

(** As [counted], with the references to inodes given in full. *)
Record moving (x hx l : list Z) (s : sys) : Prop := {
  mv_procs : procs_ok s;
  mv_refs : refs_ok (y_file s) hx;
  mv_len : (length hx < 5000)%nat;
  mv_pipes : G -> pipes_ok (ends (y_file s)) (y_pipes s);
  mv_pages : G -> pages_ok (y_pipes s) (ph_pool (phys_of s)) (ph_end (phys_of s));
  mv_fds : fds s ≡ₚ l;
  mv_inodes : table_inv (fs_itable (y_fs s)) x
}.
Lemma moving_counted x y hx l s : x ≡ₚ y ++ irefs s -> moving x hx l s <-> counted hx l y s.
Proof. intros Hp. split; intros [M1 M2 M3 M4 M5 M6 M7]; split; try done; eapply table_inv_perm; [|done| |done]; done. Qed.
Lemma moving_same x hx l s s' : same s s' -> moving x hx l s -> moving x hx l s'.
Proof.
  intros Hs [M1 M2 M3 M4 M5 M6 M7]. pose proof (procs_ok_same _ _ Hs M1) as M1'. destruct Hs as [S1 S2 [S3 S3'] S4 S5 S6 _].
  split; [done|by rewrite S1|done|by rewrite S1, S2|by rewrite S2, S3, S3'|unfold fds; by rewrite S4|by eapply table_inv_ext].
Qed.
Lemma moving_iput ip x hx l s a s' : (length x < 1000)%nat -> moving (ip :: x) hx l s -> iput_ptr ip s = Ret a s' ->
  moving x hx l s' /\ y_proc s' = y_proc s /\ y_file s' = y_file s /\ ip <> null.
Proof.
  intros Hx [M1 M2 M3 M4 M5 M6 M7] E. unfold iput_ptr in E. destruct (Z.eqb_spec ip null); [by apply bind_inv in E as (? & ? & _ & E)|].
  unfold infs, zoom in E. destruct (iput ip (fs_get s)) as [b t| | | |] eqn:Ec; inversion E; subst. destruct a.
  pose proof (quiet_iput _ _ _ _ Ec) as [[Q1 Q2] _ _]. split; [|done]. split; try done.
  - unfold phys_of in *. cbn [y_pipes y_fs set_yfs]. by rewrite Q1, Q2.
  - eapply (iput_inv (fs_get s) [] x ip t); [exact M7|cbn; lia|exact Ec].
Qed.

Lemma irefs_cwd s j p ps ip : znth (y_proc s) j = Some p -> zset (y_proc s) j (set_pcwd ip p) = Some ps ->
  nonnulls [p_cwd p] ++ irefs (set_yproc ps s) ≡ₚ nonnulls [ip] ++ irefs s.
Proof.
  intros Hp Hz. pose proof (zset_perm _ _ _ _ _ Hp Hz) as H. apply (Permutation_map p_cwd), nonnulls_perm in H. cbn [map] in H.
  change (p_cwd (set_pcwd ip p)) with ip in H. unfold irefs. cbn [y_proc y_file set_yproc]. rewrite !app_assoc, <- !nonnulls_app. cbn [app]. by rewrite H.
Qed.
Lemma opt_ref_nonnulls ip y : opt_ref ip y = nonnulls [ip] ++ y.
Proof. unfold opt_ref. destruct (Z.eqb_spec ip null) as [->|H]; [done|]. by rewrite nonnulls_one. Qed.
Lemma cwd_in_irefs s j p : znth (y_proc s) j = Some p -> p_cwd p <> null -> p_cwd p ∈ irefs s.
Proof.
  intros Hp Hn. unfold irefs, nonnulls. apply elem_of_app. left. apply list_elem_of_filter. split; [done|].
  apply list_elem_of_fmap. exists p. split; [done|]. unfold znth in Hp. destruct (0 <=? j); [|done]. by eapply list_elem_of_lookup_2.
Qed.

(** Process [j] changes its directory to [ip], or to none. *)
Lemma swap_cwd j ip hx l y : (length y < 90)%nat ->
  tri (counted hx l (opt_ref ip y)) (p <- getp j ;; iput_ptr (p_cwd p) ;;; end_op ;;; modp j (set_pcwd ip)) (fun _ => counted hx l y).
Proof.
  intros Hy s a s' C (p & s1 & (Hp & ->)%getp_inv & ([] & s2 & E2 & ([] & s3 & E3 & E)%bind_inv)%bind_inv)%bind_inv.
  assert (p_cwd p <> null) as Hn by (intros Hn; rewrite Hn in E2; by apply bind_inv in E2 as (? & ? & _ & E2)).
  destruct (elem_perm _ _ (cwd_in_irefs _ _ _ Hp Hn)) as [rest Hr]. pose proof (irefs_length _ _ (ct_procs _ _ _ _ C) (ct_refs _ _ _ _ C)) as Hl.
  rewrite Hr in Hl. cbn in Hl.
  assert (moving (p_cwd p :: opt_ref ip y ++ rest) hx l s) as M by (apply (moving_counted _ (opt_ref ip y)); [by rewrite Hr, <- Permutation_middle|done]).
  assert (length (opt_ref ip y) <= 90)%nat as Ho by (unfold opt_ref; destruct (ip =? null); cbn; lia).
  destruct (moving_iput (p_cwd p) (opt_ref ip y ++ rest) _ _ _ _ _ ltac:(rewrite length_app; lia) M E2) as (M2 & P2 & F2 & _). pose proof (same_end_op _ _ _ E3) as Hs.
  apply (moving_same _ _ _ _ _ Hs) in M2. pose proof E as (q & ps & Hq & Hz & Es)%modp_inv.
  assert (p_cwd q = p_cwd p) as Hc.
  { pose proof (znth_map p_cwd (y_proc s3) j) as H. rewrite (sm_cwd _ _ Hs), P2, znth_map, Hp, Hq in H. by injection H. }
  pose proof (irefs_cwd _ _ _ _ ip Hq Hz) as Hi. rewrite Hc, nonnulls_one in Hi by done.
  assert (irefs s3 = irefs s) as Hi3 by (unfold irefs; by rewrite (sm_cwd _ _ Hs), (sm_file _ _ Hs), P2, F2). rewrite Hi3, Hr in Hi. subst s'.
  apply (moving_counted (opt_ref ip y ++ rest)).
  - rewrite opt_ref_nonnulls, <- app_assoc, (Permutation_app_swap_app _ y). f_equiv. apply (Permutation_app_inv_l [p_cwd p]).
    rewrite Hi. cbn. by rewrite <- Permutation_middle.
  - destruct M2 as [[M1 M1'] M2 M3 M4 M5 M6 M7]. split; try done.
    + split; cbn [y_proc set_yproc]; [by rewrite (zset_length _ _ _ _ Hz)|]. eapply zset_Forall; [done| |done]. cbn. by eapply (znth_Forall _ _ _ _ M1').
    + unfold fds. cbn [y_proc set_yproc]. by rewrite (map_zset_same p_ofile _ _ _ _ _ Hq Hz).
Qed.

Lemma sys_chdir_ok : tri ok sys_chdir (fun _ => ok).
Proof.
  apply tri_ok. intros l Hl. unfold sys_chdir. do 3 ts. eapply (tri_bind _ _ (fun ip => counted l l (opt_ref ip []))).
  { apply tri_if; intros _; [by apply tri_ret|]. eapply tri_counts, counts_namei. cbn. lia. }
  intros ip. cbv beta. apply tri_opt; [by te|intros Hip]. do 2 ts. apply tri_if; intros _; [apply unlock_fail_tri|]. ts. ts.
  intros s r s' C E. apply (ok_intro l). match type of E with context [getp ?k] => pose proof (swap_cwd k ip l l [] ltac:(cbn; lia)) as T end.
  apply bind_inv in E as (p & s1 & E1 & ([] & s2 & E2 & ([] & s3 & E3 & ([] & s4 & E4 & [= <- <-])%bind_inv)%bind_inv)%bind_inv).
  eapply T; [|by erewrite bind_Ret, bind_Ret, bind_Ret].
  unfold opt_ref. by rewrite (proj2 (Z.eqb_neq _ _) Hip).
Qed.

Lemma drop_cwd_tri i hx l y : (length y < 90)%nat -> tri (counted hx l y) (drop_cwd i) (fun _ => counted hx l y).
Proof. intros Hy. unfold drop_cwd. ts. by apply (swap_cwd i null). Qed.
End calls.

(** ** read, write and fstat *)

(** Of a file the offset, of a pipe the contents, and memory may change. *)
Definition fview (f : file) : ftype * Z * Z * Z * Z := (f_type f, f_ref f, f_writable f, f_pipe f, f_ip f).
Definition popen (p : pipe) : Z * Z := (pi_readopen p, pi_writeopen p).
Record looks (s s' : sys) : Prop := {
  lo_file : map fview (y_file s') = map fview (y_file s);
  lo_pipes : forall pi, option_map popen (y_pipes s' !! pi) = option_map popen (y_pipes s !! pi);
  lo_ofile : map p_ofile (y_proc s') = map p_ofile (y_proc s);
  lo_cwd : map p_cwd (y_proc s') = map p_cwd (y_proc s);
  lo_ids : forall j, ids (fs_itable (y_fs s')) j = ids (fs_itable (y_fs s)) j
}.
#[export] Instance looks_pre : PreOrder looks.
Proof. split; [by split|]. intros x y z [] []. split; [congruence|intros; congruence|congruence|congruence|intros; congruence]. Qed.
Lemma same_looks s s' : same s s' -> looks s s'.
Proof. intros [S1 S2 S3 S4 S5 S6 S7]. split; [by rewrite S1|by rewrite S2|done|done|done]. Qed.

Lemma fview_znth fl fl' i f : map fview fl' = map fview fl -> znth fl' i = Some f -> exists g, znth fl i = Some g /\ fview f = fview g.
Proof.
  intros H Hf. pose proof (znth_map fview fl i) as E. rewrite <- H, znth_map, Hf in E. destruct (znth fl i) as [g|]; [|done]. exists g. split; [done|]. change (Some (fview f) = Some (fview g)) in E. congruence.
Qed.
Lemma fview_ends fl fl' : map fview fl' = map fview fl -> forall i, ends fl' i = ends fl i.
Proof.
  intros H i. pose proof (znth_map fview fl i) as E. rewrite <- H, znth_map in E. unfold ends.
  destruct (znth fl' i) as [f|], (znth fl i) as [g|]; [|done..]. injection E as E1 E2 E3 E4 E5. unfold pview. by rewrite E1, E3, E4.
Qed.
Lemma fview_irefs fl fl' : map fview fl' = map fview fl -> map f_irefs fl' = map f_irefs fl.
Proof.
  revert fl'. induction fl as [|f fl IH]; intros [|g fl']; [done..|]. cbn. intros [= E1 E2 E3 E4 E5 E6]. rewrite (IH _ E6). unfold f_irefs. by rewrite E1, E5.
Qed.

Lemma counted_looks {G : Prop} hx l y s s' : looks s s' -> (G -> pages_ok (y_pipes s') (ph_pool (phys_of s')) (ph_end (phys_of s'))) -> counted G hx l y s -> counted G hx l y s'.
Proof.
  intros [L1 L2 L3 L4 L5] Hpg [[C0 C1] C2 C3 C4 C5 C6 C7]. split; [|split| | |done|unfold fds; by rewrite L3|].
  - split; [rewrite <- (length_map p_ofile), L3, length_map; done|]. rewrite <- (Forall_map p_ofile (fun x => length x = 16%nat)) in *. by rewrite L3.
  - rewrite <- (length_map fview), L1, length_map. apply C2.
  - apply C2.
  - intros i f Hf. destruct (fview_znth _ _ _ _ L1 Hf) as (g & Hg & [= _ -> _ _ _]). by apply (ro_ref _ _ C2).
  - intros i f Hf. destruct (fview_znth _ _ _ _ L1 Hf) as (g & Hg & [= -> -> _ _ _]). by apply (ro_none _ _ C2 i).
  - done.
  - intros HG. eapply pipes_ext; [by apply fview_ends|]. destruct (C4 HG) as [P1 P2 P3 P4].
    assert (forall pi p', y_pipes s' !! pi = Some p' -> exists p, y_pipes s !! pi = Some p /\ forall b, is_open b p <-> is_open b p') as H.
    { intros pi p' Hp. specialize (L2 pi). rewrite Hp in L2. destruct (y_pipes s !! pi) as [p|]; [|done]. injection L2 as E1 E2. exists p. split; [done|].
      intros b. unfold is_open. by rewrite E1, E2. }
    split; [|done| |].
    + intros i pi b Hi. destruct (P1 i pi b Hi) as (p & Hp & Ho). specialize (L2 pi). rewrite Hp in L2. destruct (y_pipes s' !! pi) as [p'|]; [|done].
      exists p'. split; [done|]. injection L2 as E1 E2. unfold is_open in *. by rewrite E1, E2.
    + intros pi p' b Hp Ho. destruct (H _ _ Hp) as (p & Hp' & Hb). apply (P3 pi p b Hp'). by apply Hb.
    + intros pi p' Hp. destruct (H _ _ Hp) as (p & Hp' & Hb). destruct (P4 pi p Hp') as [b Ho]. exists b. by apply Hb.
  - unfold irefs. rewrite L4, (fview_irefs _ _ L1). by eapply table_inv_ext.
Qed.

(** The same with the allocator left alone, by the same process. *)
Record data (s s' : sys) : Prop := { da_looks : looks s s'; da_pool : same_pool (phys_of s) (phys_of s'); da_me : y_me s' = y_me s }.
#[export] Instance data_pre : PreOrder data.
Proof. split; [by split|]. intros x y z [] []. split; [by etrans|by etrans|congruence]. Qed.
Lemma same_data s s' : same s s' -> data s s'.
Proof. intros Hs. split; [by apply same_looks|apply Hs|apply Hs]. Qed.
Lemma pages_looks s s' : looks s s' -> same_pool (phys_of s) (phys_of s') ->
  pages_ok (y_pipes s) (ph_pool (phys_of s)) (ph_end (phys_of s)) -> pages_ok (y_pipes s') (ph_pool (phys_of s')) (ph_end (phys_of s')).
Proof.
  intros [_ L2 _ _ _] [-> ->] [G1 G2 G3]. split; [|done|done]. intros pi Hpi. apply G1. specialize (L2 pi).
  destruct Hpi as [p' Hp]. rewrite Hp in L2. destruct (y_pipes s !! pi); [by eexists|done].
Qed.
Lemma counted_data {G : Prop} hx l y s s' : data s s' -> counted G hx l y s -> counted G hx l y s'.
Proof. intros [D1 D2 D3] C. eapply counted_looks; [done| |done]. intros HG. eapply pages_looks; [done|done|]. by apply (ct_pages _ _ _ _ C). Qed.

Lemma pres_weaken {S A} (Q R : relation S) (c : M S A) : (forall s s', Q s s' -> R s s') -> pres Q c -> pres R c.
Proof. intros H Hc s a s' E. by eapply H, Hc. Qed.
#[export] Hint Extern 5 (pres data _) => apply (pres_weaken same); [exact same_data|solve [eauto 3 with pres typeclass_instances]] : pres.

Lemma data_modf_off f o : pres data (modf f (set_foff o)).
Proof.
  intros s a s' (k & fl & Hk & Hz & ->)%modf_inv. split; [|done|done]. split; try done; cbn. by eapply map_zset_same.
Qed.
#[export] Hint Resolve data_modf_off : pres.

(** Pipes: what a read or a write keeps. *)
Definition kept (t t' : pst) : Prop := popen (pp_pipe t') = popen (pp_pipe t) /\ same_pool (pp_phys t) (pp_phys t').
#[export] Instance kept_pre : PreOrder kept.
Proof. split; [done|]. intros x y z [] []. split; [congruence|by etrans]. Qed.
Lemma kept_lk {A} (c : M lkst A) : pres kept (lift c).
Proof. eapply pres_lift; [apply pres_any|]. by intros. Qed.
Lemma kept_phys {A} (c : M phys A) : pres same_pool c -> pres kept (lift c).
Proof. intros H. eapply pres_lift; [exact H|]. by intros. Qed.
Lemma kept_i i : pres kept (modify (set_i i)).
Proof. by apply pres_modify. Qed.
#[export] Hint Resolve kept_lk kept_phys kept_i : pres.
Lemma put_popen b p p' : put b p = Some p' -> popen p' = popen p.
Proof. unfold put. destruct (zset _ _ _); [|done]. by intros [= <-]. Qed.
Lemma take1_popen p b p' : take1 p = Some (b, p') -> popen p' = popen p.
Proof. unfold take1. destruct (znth _ _); [|done]. by intros [= <- <-]. Qed.
(** The pipe is read, and written back with the same ends open. *)
Lemma kept_pipe {A} (k : pipe -> M pst A) : (forall p s a s', pp_pipe s = p -> k p s = Ret a s' -> kept s s') -> pres kept (p <- gets pp_pipe ;; k p).
Proof. intros H s a s' E. rewrite bind_gets in E. by eapply H. Qed.
Lemma kept_modpipe {A} p p' (k : M pst A) s a s' : pp_pipe s = p -> popen p' = popen p -> pres kept k -> (modpipe (fun _ => p') ;;; k) s = Ret a s' -> kept s s'.
Proof. intros <- Hp Hk ([] & s1 & [= <-] & E)%bind_inv. apply Hk in E as [K1 K2]. cbn in K1, K2. split; [congruence|done]. Qed.

Lemma kept_pipewrite pi pt ch addr n : pres kept (pipewrite pi pt ch addr n).
Proof.
  assert (forall fuel, pres kept (pipewrite_loop fuel pi pt ch addr n)) as H.
  { induction fuel as [|fuel IH]; cbn [pipewrite_loop]; [done|]. apply pres_bind; [apply _|pres|]. intros i. apply pres_if; [pres|]. apply kept_pipe.
    intros p s a s' Hp E. rewrite bind_gets in E. destruct (_ || _); [revert E; apply (pres_bind _ _ _); pres|].
    destruct (_ =? _); [revert E; apply (pres_bind _ _ _); pres|]. apply bind_inv in E as (r & s1 & E1 & E). pose proof (kept_phys _ (pool_copyin _ _ _ _) _ _ _ E1) as K1.
    destruct (r =? -1); [by injection E as <- <-|]. apply bind_inv in E as (b & s2 & E2 & E).
    pose proof (kept_phys _ (pool_getmem _) _ _ _ E2) as K2. destruct (put b p) as [p'|] eqn:Ep; [|done].
    assert (kept s s2) as K by (by etrans). etrans; [exact K|]. apply put_popen in Ep. destruct K as [K _].
    eapply kept_modpipe; [reflexivity| | |exact E]; [congruence|]. pres. }
  unfold pipewrite, pipewrite_resume. pres.
Qed.
Lemma kept_piperead pi pt ch addr n : pres kept (piperead pi pt ch addr n).
Proof.
  assert (forall k i, pres kept (piperead_loop k pt ch addr n i)) as H.
  { induction k as [|k IH]; intros i; cbn [piperead_loop]; [pres|]. apply kept_pipe. intros p s a s' Hp E. destruct (_ =? _); [by injection E as <- <-|].
    destruct (take1 p) as [[b p']|] eqn:Et; [|done]. apply take1_popen in Et. eapply kept_modpipe; [exact Hp|exact Et| |exact E]. pres. }
  unfold piperead. pres.
Qed.
Lemma data_onpipe {A} pi (c : M pst A) : pres kept c -> pres data (onpipe pi c).
Proof.
  intros Hc s a s' E. unfold onpipe in E. destruct (y_pipes s !! pi) as [p|] eqn:Ep; [|done]. unfold zoom in E. destruct (c _) as [b t| | | |] eqn:Ec; inversion E; subst.
  apply Hc in Ec as [K1 K2]. split; [|exact K2|done]. split; try done. cbn. intros q. destruct (decide (q = pi)) as [->|Hq]; [rewrite lookup_insert_eq, Ep; cbn in *; congruence|by rewrite lookup_insert_ne].
Qed.

(** The console. *)
Definition ckept (c c' : cst) : Prop := same_pool (co_phys c) (co_phys c').
#[export] Instance ckept_pre : PreOrder ckept.
Proof. split; [done|]. intros x y z. unfold ckept. intros. by etrans. Qed.
Lemma ckept_lk {A} (c : M lkst A) : pres ckept (lift c).
Proof. eapply pres_lift; [apply pres_any|]. by intros. Qed.
Lemma ckept_tty {A} (c : M tty A) : pres ckept (lift c).
Proof. eapply pres_lift; [apply pres_any|]. by intros. Qed.
Lemma ckept_phys {A} (c : M phys A) : pres same_pool c -> pres ckept (lift c).
Proof. intros H. eapply pres_lift; [exact H|]. by intros. Qed.
#[export] Hint Resolve ckept_lk ckept_tty ckept_phys : pres.
#[export] Hint Extern 1 (pres ckept (modify _)) => by apply pres_modify : pres.
Lemma ckept_read u dst n : pres ckept (consoleread u dst n).
Proof.
  assert (forall fuel t, pres ckept (consoleread_loop fuel u t)) as H by (induction fuel; intros t; cbn [consoleread_loop]; unfold cons_copyout; pres).
  unfold consoleread, consoleread_resume. pres.
Qed.
Lemma ckept_write u src n : pres ckept (consolewrite u src n).
Proof.
  assert (forall fuel, pres ckept (consolewrite_loop fuel u src n)) as H by (induction fuel; cbn [consolewrite_loop]; unfold cons_copyin; pres).
  unfold consolewrite. pres.
Qed.
Lemma data_incons {A} (c : M cst A) : pres ckept c -> pres data (incons c).
Proof. intros H. eapply pres_zoom; [exact H|]. intros t s Ht. by split. Qed.
#[export] Hint Resolve kept_pipewrite kept_piperead data_onpipe ckept_read ckept_write data_incons : pres.

Lemma data_filestat f a : pres data (filestat f a).
Proof. unfold filestat. pres. Qed.
Lemma data_devread m a n : pres data (match devsw_read m with None => ret (-1) | Some rd => rd a n end).
Proof. unfold devsw_read. destruct (m =? CONSOLE); pres. Qed.
Lemma data_devwrite m a n : pres data (match devsw_write m with None => ret (-1) | Some wr => wr a n end).
Proof. unfold devsw_write. destruct (m =? CONSOLE); pres. Qed.
#[export] Hint Resolve data_devread data_devwrite : pres.
Lemma data_fileread f a n : pres data (fileread f a n).
Proof. unfold fileread. pres. destruct (f_type _); pres. Qed.
Lemma data_filewrite f a n : pres data (filewrite f a n).
Proof.
  assert (forall fuel i, pres data (filewrite_loop fuel f a n i)) as H by (induction fuel; intros i; cbn [filewrite_loop]; pres).
  unfold filewrite. pres. destruct (f_type _); pres.
Qed.
#[export] Hint Resolve data_filestat data_fileread data_filewrite : pres.

Lemma data_sys_read : pres data sys_read.
Proof. unfold sys_read. pres. Qed.
Lemma data_sys_write : pres data sys_write.
Proof. unfold sys_write. pres. Qed.
Lemma data_sys_fstat : pres data sys_fstat.
Proof. unfold sys_fstat. pres. Qed.
