(* ===== verification/FileProcs.v ===== *)
(** * Processes that are not in use have no files

    An UNUSED or ZOMBIE process has no open file and no directory; fork() and
    create_thread() rely on it, exit() and wait() provide it. *)
From stdpp Require Import strings.
From S2P Require Import Prelude Mem StringC Kalloc Page Vm KState Locks Bio Log Fs FsRefs Pipe Sched Uart Console Sys File Syscall Proc Exec Sysfile Sysproc FileInv FileCalls.
From Stdlib Require Import ZArith Lia.
Local Open Scope list_scope.
Local Open Scope Z_scope.
Local Open Scope kernel_scope.

Definition idle (p : proc) : bool := bool_decide (p_state p = UNUSED) || bool_decide (p_state p = ZOMBIE).
Definition bare (p : proc) : Prop := nonnulls (p_ofile p) = [] /\ p_cwd p = null.
Definition idle_ok (s : sys) : Prop := Forall (fun p => idle p = true -> bare p) (y_proc s).
Definition busy (i : Z) (s : sys) : Prop := exists p, znth (y_proc s) i = Some p /\ idle p = false.

(** ** Code that leaves the processes alone *)

Definition procs (s s' : sys) : Prop := y_proc s' = y_proc s /\ y_me s' = y_me s.
#[export] Instance procs_pre : PreOrder procs.
Proof. split; [done|]. intros x y z [] []. split; congruence. Qed.
Lemma procs_zoom {T A} (get : sys -> T) put (c : M T A) : (forall t s, procs s (put t s)) -> pres procs (zoom get put c).
Proof. intros H. eapply pres_zoom; [apply pres_any|]. auto. Qed.
Lemma procs_infs {A} (c : M fss A) : pres procs (infs c).
Proof. by apply procs_zoom. Qed.
Lemma procs_inphys {A} (c : M phys A) : pres procs (inphys c).
Proof. by apply procs_zoom. Qed.
Lemma procs_inlk {A} (c : M lkst A) : pres procs (inlk c).
Proof. by apply procs_zoom. Qed.
Lemma procs_innet {A} (c : M kst A) : pres procs (innet c).
Proof. by apply procs_zoom. Qed.
Lemma procs_incons {A} (c : M cst A) : pres procs (incons c).
Proof. by apply procs_zoom. Qed.
Lemma procs_onpipe {A} pi (c : M pst A) : pres procs (onpipe pi c).
Proof. intros s a s'. unfold onpipe. destruct (y_pipes s !! pi); [|done]. by apply procs_zoom. Qed.
Lemma procs_getp i : pres procs (getp i).
Proof. by intros s p s' [_ ->]%getp_inv. Qed.
Lemma procs_getf i : pres procs (getf i).
Proof. by intros s p s' [_ ->]%getf_inv. Qed.
Lemma procs_modf i g : pres procs (modf i g).
Proof. by intros s p s' (f & fl & _ & _ & ->)%modf_inv. Qed.
Lemma procs_acquire l : pres procs (Sys.acquire l).
Proof. apply procs_inlk. Qed.
Lemma procs_release l : pres procs (Sys.release l).
Proof. apply procs_inlk. Qed.
Lemma procs_begin_op : pres procs Sys.begin_op.
Proof. apply procs_infs. Qed.
Lemma procs_end_op : pres procs Sys.end_op.
Proof. apply procs_infs. Qed.
Lemma procs_wakeup c : pres procs (Sys.wakeup c).
Proof. apply procs_inlk. Qed.
Lemma procs_sleep {A} c l : pres procs (Sys.sleep (A := A) c l).
Proof. apply procs_inlk. Qed.
#[export] Hint Resolve procs_infs procs_inphys procs_inlk procs_innet procs_incons procs_onpipe procs_getp procs_getf procs_modf procs_acquire procs_release
  procs_begin_op procs_end_op procs_wakeup procs_sleep : pres.
Lemma procs_myproc : pres procs myproc.
Proof. unfold myproc. pres. Qed.
Lemma procs_iput_ptr ip : pres procs (iput_ptr ip).
Proof. unfold iput_ptr. pres. Qed.
#[export] Hint Resolve procs_myproc procs_iput_ptr : pres.
Lemma procs_getreg r : pres procs (getreg r).
Proof. unfold getreg. pres. Qed.
Lemma procs_setreg r v : pres procs (setreg r v).
Proof. unfold setreg. pres. Qed.
#[export] Hint Resolve procs_getreg procs_setreg : pres.
Lemma procs_argraw n : pres procs (argraw n).
Proof. unfold argraw. pres. Qed.
#[export] Hint Resolve procs_argraw : pres.
Lemma procs_argint n : pres procs (argint n).
Proof. unfold argint. pres. Qed.
Lemma procs_argaddr n : pres procs (argaddr n).
Proof. apply procs_argraw. Qed.
Lemma procs_fetchstr a b m : pres procs (fetchstr a b m).
Proof. unfold fetchstr. pres. Qed.
Lemma procs_fetchaddr a b : pres procs (fetchaddr a b).
Proof. unfold fetchaddr. pres. Qed.
#[export] Hint Resolve procs_argint procs_argaddr procs_fetchstr procs_fetchaddr : pres.
Lemma procs_argstr n b m : pres procs (argstr n b m).
Proof. unfold argstr. pres. Qed.
Lemma procs_argfd n : pres procs (argfd n).
Proof. unfold argfd. pres. Qed.
Lemma procs_filealloc : pres procs filealloc.
Proof. unfold filealloc. pres. Qed.
Lemma procs_filedup f : pres procs (filedup f).
Proof. unfold filedup. pres. Qed.
Lemma procs_pipeclose_ pi w : pres procs (pipeclose_ pi w).
Proof. unfold pipeclose_. pres. apply pres_modify. intros s. destruct (y_pipes s !! pi) as [p|]; [|done]. by destruct (_ && _). Qed.
#[export] Hint Resolve procs_argstr procs_argfd procs_filealloc procs_filedup procs_pipeclose_ : pres.
Lemma procs_fileclose f : pres procs (fileclose f).
Proof. unfold fileclose. pres. destruct (f_type _); pres. Qed.
#[export] Hint Resolve procs_fileclose : pres.

(** ** Code that changes only the process that runs it *)

(** Process [i] is in use, and stays so. *)
Definition nearp (i : Z) (s s' : sys) : Prop := busy i s -> idle_ok s -> busy i s' /\ idle_ok s'.
#[export] Instance nearp_pre i : PreOrder (nearp i).
Proof. split; [done|]. intros x y z H1 H2 Hb Hi. destruct (H1 Hb Hi). auto. Qed.
(** The process that runs is [i]. *)
Definition near (i : Z) (s s' : sys) : Prop := y_me s = i -> y_me s' = i /\ nearp i s s'.
#[export] Instance near_pre i : PreOrder (near i).
Proof. split; [done|]. intros x y z H1 H2 Hm. destruct (H1 Hm) as [Hm' H3], (H2 Hm') as [Hm'' H4]. split; [done|by etrans]. Qed.

Lemma procs_nearp i s s' : procs s s' -> nearp i s s'.
Proof. intros [H _] Hb Hi. unfold busy, idle_ok. by rewrite H. Qed.
Lemma procs_near i s s' : procs s s' -> near i s s'.
Proof. intros H Hm. split; [rewrite <- Hm; apply H|by apply procs_nearp]. Qed.
#[export] Hint Extern 5 (pres (nearp _) _) => apply (pres_weaken procs); [exact (procs_nearp _)|solve [eauto 3 with pres typeclass_instances]] : pres.
#[export] Hint Extern 5 (pres (near _) _) => apply (pres_weaken procs); [exact (procs_near _)|solve [eauto 3 with pres typeclass_instances]] : pres.

Lemma idle_ok_set s i p ps : idle_ok s -> zset (y_proc s) i p = Some ps -> (idle p = true -> bare p) -> idle_ok (set_yproc ps s).
Proof. intros H Hz Hp. unfold idle_ok. cbn. by eapply zset_Forall. Qed.
Lemma nearp_set i s p q ps : znth (y_proc s) i = Some p -> zset (y_proc s) i q = Some ps -> (idle p = false -> idle q = false) -> nearp i s (set_yproc ps s).
Proof.
  intros Hp Hz Hq (p' & Hp' & Hb) Hi. rewrite Hp in Hp'. injection Hp' as <-. split; [exists q; split; [cbn; by eapply znth_zset_eq|auto]|].
  eapply idle_ok_set; [done|done|]. rewrite Hq by done. done.
Qed.
Lemma nearp_modp i g : (forall p, idle p = false -> idle (g p) = false) -> pres (nearp i) (modp i g).
Proof. intros H s a s' (p & ps & Hp & Hz & ->)%modp_inv. eapply nearp_set; [done|done|auto]. Qed.
Lemma nearp_put i fd f : pres (nearp i) (put_ofile i fd f).
Proof. intros s a s' (p & m & ps & Hp & Hm & Hz & ->)%put_ofile_inv. by eapply nearp_set. Qed.
(** A change of another process that is none of this. *)
Lemma nearp_inert i j g : (forall p, idle (g p) = idle p) -> (forall p, p_ofile (g p) = p_ofile p) -> (forall p, p_cwd (g p) = p_cwd p) -> pres (nearp i) (modp j g).
Proof.
  intros H1 H2 H3 s a s' (p & ps & Hp & Hz & ->)%modp_inv (q & Hq & Hb) Hi. split.
  - destruct (Z.eq_dec i j) as [->|Hne]; [|exists q; split; [cbn; by rewrite (znth_zset_ne _ _ _ i _ (not_eq_sym Hne) Hz)|done]].
    exists (g p). rewrite Hp in Hq. injection Hq as <-. split; [cbn; by eapply znth_zset_eq|by rewrite H1].
  - eapply idle_ok_set; [done|done|]. rewrite H1. unfold bare. rewrite H2, H3. intros Hd. by apply (znth_Forall _ _ _ _ Hi Hp).
Qed.
Lemma near_nearp {A} i (c : M sys A) : (forall s a s', c s = Ret a s' -> y_me s' = y_me s) -> pres (nearp i) c -> pres (near i) c.
Proof. intros Hm Hc s a s' E He. split; [by rewrite (Hm _ _ _ E)|by eapply Hc]. Qed.
Lemma modp_me i g s a s' : modp i g s = Ret a s' -> y_me s' = y_me s.
Proof. by intros (p & ps & _ & _ & ->)%modp_inv. Qed.
Lemma near_put i fd f : pres (near i) (put_ofile i fd f).
Proof. apply near_nearp; [apply put_ofile_me|apply nearp_put]. Qed.
Lemma near_modp i g : (forall p, idle p = false -> idle (g p) = false) -> pres (near i) (modp i g).
Proof. intros H. apply near_nearp; [apply modp_me|by apply nearp_modp]. Qed.
Lemma near_inert i j g : (forall p, idle (g p) = idle p) -> (forall p, p_ofile (g p) = p_ofile p) -> (forall p, p_cwd (g p) = p_cwd p) -> pres (near i) (modp j g).
Proof. intros H1 H2 H3. apply near_nearp; [apply modp_me|by apply nearp_inert]. Qed.
#[export] Hint Resolve near_put nearp_put : pres.
#[export] Hint Extern 1 (pres (near _) (modp _ _)) => first [apply near_modp; by intros [] | apply near_inert; reflexivity] : pres.
#[export] Hint Extern 1 (pres (nearp _) (modp _ _)) => first [apply nearp_modp; by intros [] | apply nearp_inert; reflexivity] : pres.
Lemma near_me {A} i (k : Z -> M sys A) : pres (near i) (k i) -> pres (near i) (j <- gets y_me ;; k j).
Proof. intros H s a s' E Hm. rewrite bind_gets, Hm in E. by eapply H. Qed.
#[export] Hint Extern 1 (pres (near _) (bind (gets y_me) _)) => apply near_me; solve [pres] : pres.

Lemma near_fdalloc i f : pres (near i) (fdalloc f).
Proof. unfold fdalloc. apply near_me. pres. Qed.
#[export] Hint Resolve near_fdalloc : pres.
Lemma near_sys_dup i : pres (near i) sys_dup.
Proof. unfold sys_dup. pres. Qed.
Lemma near_sys_close i : pres (near i) sys_close.
Proof. unfold sys_close. pres. Qed.
Lemma procs_pipealloc : pres procs pipealloc.
Proof. unfold pipealloc, pipe_bad. pres. by apply pres_modify. Qed.
#[export] Hint Resolve procs_pipealloc : pres.
Lemma near_sys_pipe i : pres (near i) sys_pipe.
Proof. unfold sys_pipe. pres. Qed.
Lemma procs_inode_of ip : pres procs (inode_of ip).
Proof. apply procs_infs. Qed.
Lemma procs_modinode ip f : pres procs (modinode ip f).
Proof. apply procs_infs. Qed.
#[export] Hint Resolve procs_inode_of procs_modinode : pres.

Lemma procs_sys_link : pres procs sys_link.
Proof. unfold sys_link, link_bad. pres. Qed.
Lemma procs_isdirempty dp : pres procs (isdirempty dp).
Proof. assert (forall n off, pres procs (isdirempty_loop n dp off)) as H by (induction n; intros; cbn [isdirempty_loop]; pres). unfold isdirempty. pres. Qed.
#[export] Hint Resolve procs_isdirempty : pres.
Lemma procs_sys_unlink : pres procs sys_unlink.
Proof. unfold sys_unlink, unlink_entry, unlink_bad. pres. Qed.
Lemma procs_create p t a b : pres procs (create p t a b).
Proof. unfold create, create_new, create_fail. pres. Qed.
#[export] Hint Resolve procs_create : pres.
Lemma near_sys_open i : pres (near i) sys_open.
Proof. unfold sys_open, open_inode, unlock_fail. pres. Qed.
Lemma procs_sys_mkdir : pres procs sys_mkdir.
Proof. unfold sys_mkdir. pres. Qed.
Lemma procs_sys_mknod : pres procs sys_mknod.
Proof. unfold sys_mknod. pres. Qed.
Lemma near_sys_chdir i : pres (near i) sys_chdir.
Proof. unfold sys_chdir, unlock_fail. pres. Qed.
Lemma procs_devread m a n : pres procs (match devsw_read m with None => ret (-1) | Some rd => rd a n end).
Proof. unfold devsw_read. destruct (m =? CONSOLE); pres. Qed.
Lemma procs_devwrite m a n : pres procs (match devsw_write m with None => ret (-1) | Some wr => wr a n end).
Proof. unfold devsw_write. destruct (m =? CONSOLE); pres. Qed.
#[export] Hint Resolve procs_devread procs_devwrite : pres.
Lemma procs_sys_read : pres procs sys_read.
Proof. unfold sys_read, fileread. pres. destruct (f_type _); pres. Qed.
Lemma procs_sys_write : pres procs sys_write.
Proof.
  assert (forall fuel f a n i, pres procs (filewrite_loop fuel f a n i)) as H by (induction fuel; intros; cbn [filewrite_loop]; pres).
  unfold sys_write, filewrite. pres. destruct (f_type _); pres.
Qed.
Lemma procs_sys_fstat : pres procs sys_fstat.
Proof. unfold sys_fstat, filestat. pres. Qed.

(** Of a process only the memory changes. *)
Lemma near_map_infants i l a o n m x : pres (near i) (map_infants l a o n m x).
Proof. induction l; cbn [map_infants]; pres. Qed.
#[export] Hint Resolve near_map_infants : pres.
Lemma near_growproc i n : pres (near i) (growproc n).
Proof.
  assert (forall fuel t p a o n x, pres (near i) (threaded_alloc_loop fuel t p a o n x)) as H1 by (induction fuel; intros; cbn [threaded_alloc_loop]; pres).
  assert (forall l o n k, pres (near i) (unmap_infants l o n k)) as H2 by (induction l; intros; cbn [unmap_infants]; pres).
  unfold growproc, uvmthreaded_alloc, uvmthreaded_dealloc. apply near_me. pres.
Qed.
#[export] Hint Resolve near_growproc : pres.
Lemma near_sys_sbrk i : pres (near i) sys_sbrk.
Proof. unfold sys_sbrk. pres. Qed.
Lemma procs_killed i : pres procs (killed i).
Proof. unfold killed. pres. Qed.
#[export] Hint Resolve procs_killed : pres.
Lemma procs_sys_sleep : pres procs sys_sleep.
Proof. unfold sys_sleep, sleep_loop. pres. Qed.
Lemma nearp_wake i j : pres (nearp i) (p <- getp j ;; when (bool_decide (p_state p = SLEEPING)) (modp j (set_pstate RUNNABLE))).
Proof.
  intros s a s' (p & s1 & (Hp & ->)%getp_inv & E)%bind_inv. case_bool_decide as Hs; [|by injection E as <- <-]. apply modp_inv in E as (q & ps & Hq & Hz & ->).
  rewrite Hp in Hq. injection Hq as <-. intros (q & Hq & Hb) Hi. split; [|by eapply idle_ok_set].
  destruct (Z.eq_dec i j) as [->|Hne]; [eexists; split; [cbn; by eapply znth_zset_eq|done]|].
  exists q. split; [cbn; by rewrite (znth_zset_ne _ _ _ i _ (not_eq_sym Hne) Hz)|done].
Qed.
Lemma near_wake {A} i j (k : M sys A) : pres (near i) k ->
  pres (near i) (p <- getp j ;; when (bool_decide (p_state p = SLEEPING)) (modp j (set_pstate RUNNABLE)) ;;; k).
Proof.
  intros Hk s1 b1 s2 (p & t1 & (Hp & ->)%getp_inv & ([] & t2 & E2 & E3)%bind_inv)%bind_inv Hm1.
  assert (y_me t2 = i) as Hm2 by (case_bool_decide; [by rewrite (modp_me _ _ _ _ _ E2)|by injection E2 as <-]).
  destruct (Hk _ _ _ E3 Hm2) as [Hm3 N]. split; [done|]. etrans; [|exact N]. eapply (nearp_wake i j). unfold bind, getp. by rewrite Hp.
Qed.
Lemma near_kill i pid : pres (near i) (kill pid).
Proof.
  unfold kill. generalize (Z.to_nat Sys.NPROC) as n. generalize 0 as j. intros j n. revert j. induction n as [|n IH]; intros j; cbn [kill_scan]; [pres|].
  do 2 (apply pres_bind; [apply _|solve [pres]|intros ?]). apply pres_if; [|pres]. apply pres_bind; [apply _|solve [pres]|intros ?]. apply near_wake. pres.
Qed.

Lemma put_infant_inv i k np s a s' : put_infant i k np s = Ret a s' ->
  exists p l' ps, znth (y_proc s) i = Some p /\ zset (p_infant_threads p) k np = Some l' /\ zset (y_proc s) i (set_pinfants l' p) = Some ps /\ s' = set_yproc ps s.
Proof.
  intros (p & s1 & (Hp & ->)%getp_inv & E)%bind_inv. destruct (zset (p_infant_threads p) k np) as [l'|] eqn:El; [|done].
  unfold setp in E. destruct (zset (y_proc s) i (set_pinfants l' p)) as [ps|] eqn:Ez; [|done]. injection E as <- <-. exists p, l', ps. done.
Qed.
Lemma put_infant_modp i k np s a s' : put_infant i k np s = Ret a s' -> exists l, modp i (set_pinfants l) s = Ret tt s'.
Proof.
  intros (p & l' & ps & Hp & _ & Hz & ->)%put_infant_inv. exists l'. unfold modp, bind, getp, setp. by rewrite Hp, Hz.
Qed.
Lemma nearp_put_infant i j k np : pres (nearp i) (put_infant j k np).
Proof. intros s a s' (l & E)%put_infant_modp. revert E. apply nearp_inert; reflexivity. Qed.
Lemma near_put_infant i j k np : pres (near i) (put_infant j k np).
Proof. intros s a s' (l & E)%put_infant_modp. revert E. apply near_inert; reflexivity. Qed.
#[export] Hint Resolve near_put_infant nearp_put_infant : pres.

Lemma procs_copyout_xstate pt a x : pres procs (copyout_xstate pt a x).
Proof. unfold copyout_xstate. pres. Qed.
#[export] Hint Resolve procs_copyout_xstate : pres.
Lemma procs_find_infant l k t : pres procs (find_infant l k t).
Proof. revert k. induction l; intros k; cbn [find_infant]; pres. Qed.
#[export] Hint Resolve procs_find_infant : pres.
Lemma near_join_thread i t a : pres (near i) (join_thread t a).
Proof.
  assert (forall j k c, pres (near i) (join_loop j k c t a)) as H by (intros j k c; unfold join_loop; pres; destruct (decide _); pres).
  unfold join_thread. pres.
Qed.
#[export] Hint Resolve near_join_thread : pres.
Lemma near_sys_join_thread i : pres (near i) sys_join_thread.
Proof. unfold sys_join_thread. pres. Qed.

(** *** Sockets *)

Lemma procs_sock_file fd : pres procs (sock_file fd).
Proof. unfold sock_file. pres. Qed.
#[export] Hint Resolve procs_sock_file : pres.
Lemma procs_sys_bind : pres procs sys_bind.
Proof. unfold sys_bind. pres. Qed.
Lemma procs_sys_listen : pres procs sys_listen.
Proof. unfold sys_listen. pres. Qed.
Lemma procs_sys_accept : pres procs sys_accept.
Proof. unfold sys_accept. pres. Qed.
Lemma procs_sys_connect : pres procs sys_connect.
Proof. unfold sys_connect. pres. Qed.
Lemma procs_sys_send : pres procs sys_send.
Proof. unfold sys_send. pres. Qed.
Lemma procs_sys_recv : pres procs sys_recv.
Proof. unfold sys_recv. pres. Qed.
Lemma procs_sys_sendto : pres procs sys_sendto.
Proof. unfold sys_sendto. pres. Qed.
Lemma procs_sys_recvfrom : pres procs sys_recvfrom.
Proof. unfold sys_recvfrom. pres. Qed.
Lemma near_sys_socket i : pres (near i) sys_socket.
Proof. unfold sys_socket, sock_kfree. pres. Qed.

(** *** exec *)

Lemma procs_loadseg pt va ip off sz : pres procs (loadseg pt va ip off sz).
Proof.
  assert (forall fuel i, pres procs (loadseg_loop fuel pt va ip off sz i)) as H by (induction fuel; intros; cbn [loadseg_loop]; pres). unfold loadseg. pres.
Qed.
#[export] Hint Resolve procs_loadseg : pres.
Lemma procs_load_loop n pt ip off sz : pres procs (load_loop n pt ip off sz).
Proof. revert off sz. induction n; intros off sz; cbn [load_loop]; pres. Qed.
Lemma procs_exec_args pt argv sz : pres procs (exec_args pt argv sz).
Proof.
  assert (forall fuel sb c sp, pres procs (push_args fuel pt argv sb c sp)) as H by (induction fuel; intros; cbn [push_args]; unfold k_strlen; pres).
  unfold exec_args. pres.
Qed.
Lemma procs_exec_bad pt sz ip : pres procs (exec_bad pt sz ip).
Proof. unfold exec_bad. pres. Qed.
#[export] Hint Resolve procs_load_loop procs_exec_args procs_exec_bad : pres.
Lemma near_exec i path argv : pres (near i) (exec path argv).
Proof.
  assert (forall pt e sz, pres (near i) (exec_finish path argv pt e sz)) as H by (intros; unfold exec_finish; apply near_me; pres).
  unfold exec. pres.
Qed.
#[export] Hint Resolve near_exec : pres.
Lemma near_sys_exec i : pres (near i) sys_exec.
Proof.
  assert (forall fuel a u v j, pres procs (exec_fetch fuel a u v j)) as H1 by (induction fuel; intros; cbn [exec_fetch]; pres).
  assert (forall n a j, pres procs (free_args n a j)) as H2 by (induction n; intros; cbn [free_args]; pres).
  unfold sys_exec. pres.
Qed.

(** ** Code that changes none of this *)

Definition pkept (p : proc) : bool * list Z * Z := (idle p, p_ofile p, p_cwd p).
Definition inert (s s' : sys) : Prop := map pkept (y_proc s') = map pkept (y_proc s).
#[export] Instance inert_pre : PreOrder inert.
Proof. split; [done|]. intros x y z. unfold inert. congruence. Qed.
Lemma procs_inert s s' : procs s s' -> inert s s'.
Proof. intros [H _]. unfold inert. by rewrite H. Qed.
#[export] Hint Extern 5 (pres inert _) => apply (pres_weaken procs); [exact procs_inert|solve [eauto 3 with pres typeclass_instances]] : pres.
Lemma inert_modp i g : (forall p, pkept (g p) = pkept p) -> pres inert (modp i g).
Proof. intros H s a s' (p & ps & Hp & Hz & ->)%modp_inv. unfold inert. cbn. by eapply map_zset_same. Qed.
#[export] Hint Extern 1 (pres inert (modp _ _)) => apply inert_modp; by intros [] : pres.
Lemma inert_put_infant i k np : pres inert (put_infant i k np).
Proof. intros s a s' (l & E)%put_infant_modp. revert E. apply inert_modp. by intros []. Qed.
#[export] Hint Resolve inert_put_infant : pres.

Lemma inert_znth s s' i p : inert s s' -> znth (y_proc s) i = Some p -> exists q, znth (y_proc s') i = Some q /\ pkept q = pkept p.
Proof.
  intros H Hp. pose proof (znth_map pkept (y_proc s') i) as E. rewrite H, znth_map, Hp in E.
  destruct (znth (y_proc s') i) as [q|]; [|done]. exists q. split; [done|]. change (Some (pkept p) = Some (pkept q)) in E. congruence.
Qed.
Lemma idle_ok_inert s s' : inert s s' -> idle_ok s -> idle_ok s'.
Proof.
  unfold idle_ok. intros H Hi. pose proof (Forall_map pkept (fun v => v.1.1 = true -> nonnulls v.1.2 = [] /\ v.2 = null) (y_proc s')) as Hf.
  apply Hf. rewrite H. by apply Forall_map.
Qed.

(** Process [i] has no files. *)
Definition bare_at (i : Z) (s : sys) : Prop := exists p, znth (y_proc s) i = Some p /\ bare p.
Lemma bare_at_inert i s s' : inert s s' -> bare_at i s -> bare_at i s'.
Proof.
  intros H (p & Hp & Hb). destruct (inert_znth _ _ _ _ H Hp) as (q & Hq & [= _ E1 E2]). exists q. split; [done|]. unfold bare. by rewrite E1, E2.
Qed.
Lemma busy_inert i s s' : inert s s' -> busy i s -> busy i s'.
Proof. intros H (p & Hp & Hb). destruct (inert_znth _ _ _ _ H Hp) as (q & Hq & [= E1 _ _]). exists q. split; [done|]. congruence. Qed.

(** A step that changes nothing of this, in a triple. *)
Lemma tri_inert {A} (c : M sys A) (P : sys -> Prop) : pres inert c -> (forall s s', inert s s' -> P s -> P s') -> tri P c (fun _ => P).
Proof. intros Hc HP s a s' H E. eapply HP; [by eapply Hc|done]. Qed.

(** *** freeproc and allocproc *)

Lemma freeproc_idle i : tri (fun s => idle_ok s /\ bare_at i s) (freeproc i) (fun _ => idle_ok).
Proof.
  unfold freeproc. do 5 (eapply tri_bind; [apply tri_inert; [pres|intros s s' H [? ?]; split; [by eapply idle_ok_inert|by eapply bare_at_inert]]|intros ?; cbv beta]).
  intros s x s' [Hi (q & Hq & Hb)] (p & ps & Hp & Hz & ->)%modp_inv. rewrite Hp in Hq. injection Hq as <-. eapply idle_ok_set; [done|done|]. by intros _.
Qed.

Lemma allocproc_scan_unused n i s j s' : 0 <= i -> allocproc_scan n i s = Ret j s' -> procs s s' /\ (j = null \/ exists p, znth (y_proc s') j = Some p /\ p_state p = UNUSED).
Proof.
  revert i s. induction n as [|n IH]; intros i s Hi; cbn [allocproc_scan]; [intros [= <- <-]; split; [done|by left]|].
  intros ([] & s1 & E1 & (p & s2 & (Hp & ->)%getp_inv & E)%bind_inv)%bind_inv. pose proof (procs_acquire _ _ _ _ E1) as P1.
  destruct (decide (p_state p = UNUSED)) as [Hu|Hu]; [injection E as <- <-; split; [done|right; by exists p]|].
  apply bind_inv in E as ([] & s2 & E2 & E). destruct (IH (i + 1) s2 ltac:(lia) E) as [P3 H]. split; [|done]. etrans; [exact P1|].
  etrans; [exact (procs_release _ _ _ _ E2)|done].
Qed.
Lemma allocpid_procs : pres procs allocpid.
Proof. unfold allocpid. pres. by apply pres_modify. Qed.
#[export] Hint Resolve allocpid_procs : pres.

(** What allocproc() returns is in use and has no files. *)
Definition newborn (np : Z) (s : sys) : Prop := idle_ok s /\ busy np s /\ bare_at np s.
Lemma newborn_inert np s s' : inert s s' -> newborn np s -> newborn np s'.
Proof. intros H (H1 & H2 & H3). split_and!; [by eapply idle_ok_inert|by eapply busy_inert|by eapply bare_at_inert]. Qed.
Ltac ti := eapply tri_bind; [apply tri_inert; [solve [pres]|exact (newborn_inert _)]|intros ?; cbv beta].
Lemma discard_idle np : tri (newborn np) (freeproc np ;;; Sys.release (L_proc np) ;;; ret null) (fun j s => if j =? null then idle_ok s else newborn j s).
Proof.
  eapply (tri_bind _ _ (fun _ => idle_ok)); [eapply tri_pre; [apply freeproc_idle|by intros s (? & _ & ?)]|intros ?].
  eapply tri_bind; [apply tri_inert; [solve [pres]|exact idle_ok_inert]|intros ?; cbv beta]. by apply tri_ret.
Qed.
Lemma allocproc_idle : tri idle_ok allocproc (fun j s => if j =? null then idle_ok s else newborn j s).
Proof.
  intros s j s' Hi (np & s1 & E1 & E)%bind_inv. apply allocproc_scan_unused in E1 as [P1 H1]; [|lia]. apply (idle_ok_inert _ _ (procs_inert _ _ P1)) in Hi.
  destruct (Z.eqb_spec np null) as [|Hn]; [injection E as <- <-; by rewrite Z.eqb_refl|]. destruct H1 as [|(p & Hp & Hu)]; [done|].
  apply bind_inv in E as (pid & s2 & E2 & E). pose proof (allocpid_procs _ _ _ E2) as P2. apply (idle_ok_inert _ _ (procs_inert _ _ P2)) in Hi. rewrite <- (proj1 P2) in Hp.
  apply bind_inv in E as ([] & s3 & (q & ps & Hq & Hz & ->)%modp_inv & E). rewrite Hp in Hq. injection Hq as <-.
  assert (bare p) as Hb. { apply (znth_Forall _ _ _ _ Hi Hp). unfold idle. by rewrite Hu. }
  assert (newborn np (set_yproc ps s2)) as N.
  { split_and!; [by eapply idle_ok_set|eexists; split; [cbn; by eapply znth_zset_eq|done]|eexists; split; [cbn; by eapply znth_zset_eq|done]]. }
  revert N E. generalize (set_yproc ps s2). intros t N E. revert E. revert N. revert s'. revert j. revert t. clear -Hn.
  set (c := bind _ _). enough (tri (newborn np) c (fun j s => if j =? null then idle_ok s else newborn j s)) as T by (intros t j s' N E; by eapply T).
  subst c. do 2 ti. apply tri_if; intros _; [apply discard_idle|]. do 3 ti. apply tri_if; intros _; [apply discard_idle|]. do 3 ti.
  apply tri_ret. by rewrite (proj2 (Z.eqb_neq _ _) Hn).
Qed.

(** *** fork, create_thread and wait *)

Lemma nearp_dup_files L np fd : pres (nearp np) (dup_files L np fd).
Proof. revert fd. induction L; intros fd; cbn [dup_files]; pres. Qed.
#[export] Hint Resolve nearp_dup_files : pres.
Lemma procs_idup_ptr ip : pres procs (idup_ptr ip).
Proof. unfold idup_ptr. pres. Qed.
#[export] Hint Resolve procs_idup_ptr : pres.
(** From the new process on. *)
Lemma tri_nearp {A} np (c : M sys A) : pres (nearp np) c -> tri (newborn np) c (fun _ => idle_ok).
Proof. intros Hc s a s' (H1 & H2 & _) E. by apply (Hc _ _ _ E). Qed.
Lemma free_idle {A} np (r : A) : tri (newborn np) (freeproc np ;;; Sys.release (L_proc np) ;;; ret r) (fun _ => idle_ok).
Proof.
  eapply (tri_bind _ _ (fun _ => idle_ok)); [eapply tri_pre; [apply freeproc_idle|by intros s (? & _ & ?)]|intros ?].
  eapply tri_bind; [apply tri_inert; [solve [pres]|exact idle_ok_inert]|intros ?; cbv beta]. by apply tri_ret.
Qed.
Ltac tidle := eapply tri_bind; [apply tri_inert; [solve [pres]|exact idle_ok_inert]|intros ?; cbv beta].

Lemma fork_idle : tri idle_ok fork (fun _ => idle_ok).
Proof.
  unfold fork. do 2 tidle. eapply tri_bind; [apply allocproc_idle|]. intros np. cbv beta. destruct (np =? null); [by apply tri_ret|].
  do 2 ti. apply tri_if; intros _; [apply free_idle|]. apply tri_nearp. unfold copy_trapframe, set_tf. pres.
Qed.
Lemma create_thread_idle fn args st ex : tri idle_ok (create_thread fn args st ex) (fun _ => idle_ok).
Proof.
  unfold create_thread. do 2 tidle. eapply tri_bind; [apply allocproc_idle|]. intros np. cbv beta. destruct (np =? null); [tidle; by apply tri_ret|].
  do 2 ti. apply tri_if; intros _; [apply free_idle|]. apply tri_nearp. unfold copy_trapframe, set_tf. pres.
Qed.

Lemma wait_idle addr : tri idle_ok (Proc.wait addr) (fun _ => idle_ok).
Proof.
  assert (forall n pp i hk, tri idle_ok (wait_scan n pp i addr hk) (fun _ => idle_ok)) as H.
  { induction n as [|n IH]; intros pp i hk; cbn [wait_scan]; [by apply tri_ret|]. tidle. apply tri_if; intros _; [apply IH|]. tidle.
    intros s r s' Hi (q & s1 & (Hq & ->)%getp_inv & E)%bind_inv. destruct (decide (p_state q = ZOMBIE)) as [Hz|_].
    - assert (bare_at pp s) as Hb. { exists q. split; [done|]. apply (znth_Forall _ _ _ _ Hi Hq). unfold idle. by rewrite Hz. }
      assert (tri (fun s => idle_ok s /\ bare_at pp s) (p <- getp i ;;
        r <- (if negb (addr =? 0) then copyout_xstate (p_pagetable p) addr (p_xstate q) else ret 0) ;;
        if r <? 0 then Sys.release (L_proc pp) ;;; Sys.release L_wait ;;; ret (inl (-1))
        else freeproc pp ;;; Sys.release (L_proc pp) ;;; Sys.release L_wait ;;; ret (inl (p_pid q))) (fun _ : Z + bool => idle_ok)) as T; [|by eapply T].
      do 2 (eapply tri_bind; [apply tri_inert; [pres|intros t t' H [? ?]; split; [by eapply idle_ok_inert|by eapply bare_at_inert]]|intros ?; cbv beta]).
      apply tri_if; intros _; [|eapply tri_bind; [apply freeproc_idle|intros ?; cbv beta]; do 2 tidle; by apply tri_ret].
      eapply (tri_pre idle_ok); [|by intros t [? _]]. do 2 tidle. by apply tri_ret.
    - assert (tri idle_ok (Sys.release (L_proc pp) ;;; wait_scan n (pp + 1) i addr true) (fun _ => idle_ok)) as T by (tidle; apply IH). by eapply T. }
  unfold Proc.wait. do 2 tidle. eapply tri_bind; [apply H|]. intros [r|hk]; cbv beta iota; [by apply tri_ret|]. tidle.
  apply tri_inert; [pres|exact idle_ok_inert].
Qed.
