(* ===== verification/FileSys.v ===== *)
(** * The files of all processes, over any sequence of system calls

    fork(), exit(), exec() and the calls on sockets keep the counts of FileInv.v
    too, so that every system call that returns does, and with it any sequence of
    calls by any processes. *)
From stdpp Require Import strings.
From S2P Require Import Prelude Mem StringC Kalloc Page Vm KState VirtioNet Locks Bio Log Fs FsTxn FsAlloc FsInode FsRefs Pipe Sched Uart Console Sys File Syscall Proc Exec Sysfile Sysproc FileInv FileCalls FileProcs.
From Stdlib Require Import ZArith Lia.
Local Open Scope list_scope.
Local Open Scope Z_scope.
Local Open Scope kernel_scope.

(** ** Code that only uses memory *)

Lemma looks_zoom {T A} (get : sys -> T) put (c : M T A) : (forall t s, looks s (put t s)) -> pres looks (zoom get put c).
Proof. intros H. eapply pres_zoom; [apply pres_any|]. auto. Qed.
Lemma looks_inphys {A} (c : M phys A) : pres looks (inphys c).
Proof. by apply looks_zoom. Qed.
Lemma looks_innet {A} (c : M kst A) : pres looks (innet c).
Proof. by apply looks_zoom. Qed.
Lemma looks_incons {A} (c : M cst A) : pres looks (incons c).
Proof. by apply looks_zoom. Qed.
#[export] Hint Resolve looks_inphys looks_innet looks_incons : pres.
#[export] Hint Extern 5 (pres looks _) => apply (pres_weaken same); [exact same_looks|solve [eauto 3 with pres typeclass_instances]] : pres.
Lemma looks_sleep {A} c l : pres looks (Sys.sleep (A := A) c l).
Proof. apply (pres_weaken same); [exact same_looks|apply same_inlk]. Qed.
Lemma looks_wakeup c : pres looks (Sys.wakeup c).
Proof. apply (pres_weaken same); [exact same_looks|apply same_inlk]. Qed.
#[export] Hint Resolve looks_sleep looks_wakeup : pres.
Lemma looks_put_infant i k np : pres looks (put_infant i k np).
Proof. intros s a s' (l & E)%put_infant_modp. apply same_looks. revert E. apply same_modp; reflexivity. Qed.
Lemma looks_freeproc i : pres looks (freeproc i).
Proof. unfold freeproc. pres. Qed.
Lemma looks_allocproc : pres looks allocproc.
Proof.
  assert (forall n i, pres looks (allocproc_scan n i)) as H by (induction n; intros i; cbn [allocproc_scan]; pres; destruct (decide _); pres).
  unfold allocproc, allocpid. pres; [by apply pres_modify|apply looks_freeproc..].
Qed.
#[export] Hint Resolve looks_put_infant looks_freeproc looks_allocproc : pres.

Lemma tri_looks {A} hx l y (c : M sys A) : pres looks c -> tri (counted False hx l y) c (fun _ => counted False hx l y).
Proof. intros Hc s a s' C E. eapply counted_looks; [by eapply Hc|done|done]. Qed.
Lemma ok_looks s s' : looks s s' -> ok (G := False) s -> ok (G := False) s'.
Proof. intros H C. eapply ok_intro, counted_looks; [exact H|done|exact C]. Qed.
Lemma tri_ok_looks {A} (c : M sys A) : pres looks c -> tri (ok (G := False)) c (fun _ => ok (G := False)).
Proof. intros Hc s a s' C E. eapply ok_looks; [by eapply Hc|done]. Qed.

(** ** The directory of a new process *)

Definition cwd_of (j c : Z) (s : sys) : Prop := exists q, znth (y_proc s) j = Some q /\ p_cwd q = c.
Definition cwds (s s' : sys) : Prop := map p_cwd (y_proc s') = map p_cwd (y_proc s).
Lemma cwd_of_cwds j c s s' : cwds s s' -> cwd_of j c s -> cwd_of j c s'.
Proof.
  unfold cwds. intros H (q & Hq & Hc). pose proof (znth_map p_cwd (y_proc s') j) as E. rewrite H, znth_map, Hq in E. cbn in E.
  destruct (znth (y_proc s') j) as [q'|] eqn:Eq; [|done]. injection E as E. exists q'. by rewrite <- E.
Qed.

Lemma idup_tri ip hx l y : (length y < 100)%nat ->
  tri (fun s => counted False hx l y s /\ exists j, cwd_of j ip s) (idup_ptr ip) (fun r s => counted False hx l (ip :: y) s /\ r = ip /\ ip <> null).
Proof.
  intros Hy s r s' [[C1 C2 C3 C4 C5 C6 C7] (j & q & Hq & Hc)] E. unfold idup_ptr in E. destruct (Z.eqb_spec ip null) as [|Hn]; [by apply bind_inv in E as (? & ? & _ & E)|].
  unfold infs, zoom in E. destruct (idup ip (fs_get s)) as [b t| | | |] eqn:Ec; inversion E; subst.
  assert (r = p_cwd q) as -> by (by apply idup_ids in Ec as [-> _]). split; [|done]. split; try done.
  eapply (idup_inv (fs_get s) (y ++ irefs s)); [exact C7| | |exact Ec].
  - pose proof (irefs_length s hx C1 C2). rewrite length_app. lia.
  - apply elem_of_app. right. by eapply cwd_in_irefs.
Qed.
Lemma new_cwd np ip hx l y : ip <> null -> tri (fun s => counted False hx l (ip :: y) s /\ cwd_of np null s) (modp np (set_pcwd ip)) (fun _ => counted False hx l y).
Proof.
  intros Hn s a s' [[[C0 C1] C2 C3 C4 C5 C6 C7] (q & Hq & Hc)] (p & ps & Hp & Hz & ->)%modp_inv. rewrite Hq in Hp. injection Hp as <-.
  pose proof (irefs_cwd _ _ _ _ ip Hq Hz) as Hi. rewrite Hc, nonnulls_null, nonnulls_one in Hi by done. cbn in Hi. split; try done.
  - split; cbn [y_proc set_yproc]; [by rewrite (zset_length _ _ _ _ Hz)|]. eapply zset_Forall; [done| |done]. cbn. by eapply (znth_Forall _ _ _ _ C1).
  - unfold fds. cbn [y_proc set_yproc]. by rewrite (map_zset_same p_ofile _ _ _ _ _ Hq Hz).
  - eapply table_inv_perm; [|exact C7]. rewrite Hi. by rewrite <- Permutation_middle.
Qed.

(** ** The files of a new process *)

Lemma cwds_dup_files L np fd : pres cwds (dup_files L np fd).
Proof.
  assert (PreOrder cwds) as Hpre by (split; [done|]; intros x y z; unfold cwds; congruence).
  revert fd. induction L as [|f L IH]; intros fd; cbn [dup_files]; [by intros s a s' [= <- <-]|]. apply pres_bind; [done| |intros ?; apply IH].
  apply pres_when; [done|]. apply pres_bind; [done| |].
  - intros s a s' E. unfold cwds. by rewrite (proj1 (procs_filedup _ _ _ _ E)).
  - intros g s a s' (p & m & ps & Hp & Hm & Hz & ->)%put_ofile_inv. unfold cwds. cbn. by eapply map_zset_same.
Qed.
Lemma at_fd_procs i fd f s s' : procs s s' -> at_fd i fd f s -> at_fd i fd f s'.
Proof. intros [H _]. unfold at_fd. by rewrite H. Qed.

Lemma dup_files_tri np y L : forall fd l, 0 <= fd -> Forall (fun f => f = null \/ f ∈ l) L -> (length l + length L < 4000)%nat ->
  tri (fun s => counted False l l y s /\ forall j, fd <= j < fd + Z.of_nat (length L) -> at_fd np j null s)
    (dup_files L np fd) (fun _ s => exists l', counted False l' l' y s).
Proof.
  induction L as [|f L IH]; intros fd l Hfd HL Hl; cbn [dup_files length] in *; [apply tri_ret; intros s [C _]; by exists l|].
  apply Forall_cons in HL as [Hf HL]. intros s a s' [C Hat] ([] & s1 & E1 & E)%bind_inv. destruct (Z.eqb_spec f null) as [->|Hn]; cbn [negb when] in E1.
  { injection E1 as <-. eapply (IH (fd + 1) l); [lia|done|lia| |exact E]. split; [done|]. intros j Hj. apply Hat. lia. }
  destruct Hf as [|Hf]; [done|]. apply bind_inv in E1 as (g & s2 & E2 & E1). destruct (filedup_tri f l l y ltac:(lia) Hf _ _ _ C E2) as [-> C2].
  pose proof (procs_filedup _ _ _ _ E2) as P2.
  destruct (put_ofile_tri np fd null f (f :: l) l (f :: l) y ltac:(by rewrite nonnulls_null, nonnulls_one) _ _ _ (conj C2 (at_fd_procs _ _ _ _ _ P2 (Hat fd ltac:(lia)))) E1) as [C3 _].
  eapply (IH (fd + 1) (f :: l)); [lia| |cbn; lia| |exact E].
  - eapply Forall_impl; [exact HL|]. intros x [->|Hx]; [by left|right; by right].
  - split; [done|]. intros j Hj. eapply put_ofile_other; [exact E1|lia|]. eapply at_fd_procs; [exact P2|]. apply Hat. lia.
Qed.

(** [p] was read from process [i], whose files have not changed. *)
Definition kin (i : Z) (p : proc) (s : sys) : Prop := exists p', znth (y_proc s) i = Some p' /\ p_ofile p' = p_ofile p /\ p_cwd p' = p_cwd p.
Definition born (np i : Z) (p : proc) (s : sys) : Prop := ok (G := False) s /\ bare_at np s /\ kin i p s.
Lemma looks_znth s s' i p : looks s s' -> znth (y_proc s) i = Some p -> exists p', znth (y_proc s') i = Some p' /\ p_ofile p' = p_ofile p /\ p_cwd p' = p_cwd p.
Proof.
  intros [_ _ L3 L4 _] Hp. pose proof (znth_map p_ofile (y_proc s') i) as E1. pose proof (znth_map p_cwd (y_proc s') i) as E2.
  rewrite L3, znth_map, Hp in E1. rewrite L4, znth_map, Hp in E2. destruct (znth (y_proc s') i) as [q|]; [|done]. exists q. injection E1 as E1. injection E2 as E2. done.
Qed.
Lemma kin_looks i p s s' : looks s s' -> kin i p s -> kin i p s'.
Proof. intros H (q & Hq & E1 & E2). destruct (looks_znth _ _ _ _ H Hq) as (q' & Hq' & E3 & E4). exists q'. rewrite E3, E4. done. Qed.
Lemma born_looks np i p s s' : looks s s' -> born np i p s -> born np i p s'.
Proof.
  intros H (H1 & (q & Hq & Hb) & H3). split_and!; [by eapply ok_looks| |by eapply kin_looks]. destruct (looks_znth _ _ _ _ H Hq) as (q' & Hq' & E3 & E4).
  exists q'. split; [done|]. unfold bare. by rewrite E3, E4.
Qed.
Lemma tri_born {A} np i p (c : M sys A) : pres looks c -> tri (born np i p) c (fun _ => born np i p).
Proof. intros Hc s a s' H E. eapply born_looks; [by eapply Hc|done]. Qed.

Lemma allocproc_born i p : tri (fun s => ok (G := False) s /\ idle_ok s /\ kin i p s) allocproc (fun np s => if np =? null then ok (G := False) s else born np i p s).
Proof.
  intros s np s' (H1 & H2 & H3) E. pose proof (looks_allocproc _ _ _ E) as L. pose proof (allocproc_idle _ _ _ H2 E) as N. cbv beta in N.
  destruct (np =? null); [by eapply ok_looks|]. split_and!; [by eapply ok_looks|apply N|by eapply kin_looks].
Qed.

Lemma bare_null p j : nonnulls (p_ofile p) = [] -> 0 <= j < Z.of_nat (length (p_ofile p)) -> znth (p_ofile p) j = Some null.
Proof.
  intros H Hj. destruct (znth_is_Some (p_ofile p) j Hj) as [f Hf]. rewrite Hf. f_equal. destruct (decide (f = null)) as [|Hn]; [done|]. exfalso.
  assert (f ∈ nonnulls (p_ofile p)) as Hin; [|by rewrite H in Hin; apply elem_of_nil in Hin]. apply list_elem_of_filter. split; [done|].
  unfold znth in Hf. destruct (0 <=? j); [|done]. by eapply list_elem_of_lookup_2.
Qed.

Lemma share_ok np i p : tri (born np i p) (dup_files (p_ofile p) np 0 ;;; cwd <- idup_ptr (p_cwd p) ;; modp np (set_pcwd cwd)) (fun _ => ok (G := False)).
Proof.
  intros s a s' (C & (q & Hq & Hb1 & Hb2) & (p' & Hp' & E1 & E2)) ([] & s1 & Ed & (cwd & s2 & Ei & E)%bind_inv)%bind_inv.
  pose proof (ct_procs _ _ _ _ C) as [L0 L1]. pose proof (fds_length _ (ct_procs _ _ _ _ C)) as Hl.
  assert (length (p_ofile p) = 16%nat) as Hp by (rewrite <- E1; by apply (znth_Forall _ _ _ _ L1 Hp')).
  assert (length (p_ofile q) = 16%nat) as Hq16 by (by apply (znth_Forall _ _ _ _ L1 Hq)).
  assert (exists l', counted False l' l' [] s1) as [l' C1].
  { eapply (dup_files_tri np [] (p_ofile p) 0 (fds s)); [lia| |lia| |exact Ed].
    - apply Forall_forall. intros f Hf. destruct (decide (f = null)) as [|Hn]; [by left|right]. rewrite <- E1 in Hf.
      apply list_elem_of_lookup in Hf as [k Hk]. eapply (at_fd_in i (Z.of_nat k)); [|done]. exists p'. split; [done|]. unfold znth. zb. by rewrite Nat2Z.id.
    - split; [exact C|]. intros j Hj. exists q. split; [done|]. apply bare_null; [done|]. lia. }
  pose proof (cwds_dup_files _ _ _ _ _ _ Ed) as Hc.
  destruct (idup_tri (p_cwd p) l' l' [] ltac:(cbn; lia) _ _ _ (conj C1 (ex_intro _ i (cwd_of_cwds _ _ _ _ Hc (ex_intro _ p' (conj Hp' E2))))) Ei) as (C2 & -> & Hn).
  apply (ok_intro l'). eapply (new_cwd np _ l' l' [] Hn); [|exact E]. split; [exact C2|].
  apply (cwd_of_cwds _ _ s1); [unfold cwds; by rewrite (proj1 (procs_idup_ptr _ _ _ _ Ei))|]. eapply cwd_of_cwds; [exact Hc|]. by exists q.
Qed.
Lemma share_bind {A} np i p (k : M sys A) Q : tri (ok (G := False)) k Q ->
  tri (born np i p) (dup_files (p_ofile p) np 0 ;;; cwd <- idup_ptr (p_cwd p) ;; modp np (set_pcwd cwd) ;;; k) Q.
Proof.
  intros Hk s a s' H ([] & s1 & E1 & (cwd & s2 & E2 & ([] & s3 & E3 & E)%bind_inv)%bind_inv)%bind_inv. eapply Hk; [|exact E].
  eapply (share_ok np i p); [exact H|]. by erewrite bind_Ret, bind_Ret.
Qed.
Ltac tb := eapply tri_bind; [apply tri_born; solve [pres]|intros ?; cbv beta].
Ltac tl := eapply tri_bind; [apply tri_ok_looks; solve [pres]|intros ?; cbv beta].
Lemma born_ok np i p s : born np i p s -> ok (G := False) s.
Proof. by intros (? & _). Qed.

Lemma fork_ok : tri (fun s => ok (G := False) s /\ idle_ok s) fork (fun _ => ok (G := False)).
Proof.
  intros s r s' [H Hi] E. unfold fork in E. rewrite bind_gets in E. set (i := y_me s) in E. apply bind_inv in E as (p & s1 & (Hp & ->)%getp_inv & E).
  apply bind_inv in E as (np & s1 & E1 & E). pose proof (allocproc_born i p _ _ _ (conj H (conj Hi (ex_intro _ p (conj Hp (conj eq_refl eq_refl))))) E1) as B.
  cbv beta in B. destruct (np =? null); [by injection E as <- <-|]. clearbody i. clear -B E.
  match type of E with ?c s1 = _ => assert (tri (born np i p) c (fun _ => ok (G := False))) as T end; [|by eapply T].
  do 2 tb. apply tri_if; intros _; [eapply tri_pre; [|apply born_ok]; apply tri_ok_looks; pres|]. unfold copy_trapframe, set_tf. do 3 tb. apply share_bind.
  apply tri_ok_looks. pres.
Qed.
Lemma create_thread_ok fn args st ex : tri (fun s => ok (G := False) s /\ idle_ok s) (create_thread fn args st ex) (fun _ => ok (G := False)).
Proof.
  intros s r s' [H Hi] E. unfold create_thread in E. rewrite bind_gets in E. set (i := y_me s) in E. apply bind_inv in E as (p & s1 & (Hp & ->)%getp_inv & E).
  apply bind_inv in E as (np & s1 & E1 & E). pose proof (allocproc_born i p _ _ _ (conj H (conj Hi (ex_intro _ p (conj Hp (conj eq_refl eq_refl))))) E1) as B.
  cbv beta in B. destruct (np =? null).
  { revert E. apply (tri_ok_looks (_ ;;; ret (-1))); [pres|exact B]. }
  clearbody i. clear -B E.
  match type of E with ?c s1 = _ => assert (tri (born np i p) c (fun _ => ok (G := False))) as T end; [|by eapply T].
  do 2 tb. apply tri_if; intros _; [eapply tri_pre; [|apply born_ok]; apply tri_ok_looks; pres|]. unfold copy_trapframe, set_tf. do 6 tb. apply share_bind.
  apply tri_ok_looks. pres.
Qed.

(** ** exit *)

Section exit.
Context {G : Prop}.
Local Notation ok := (ok (G := G)).

(** The first [fd] descriptors of process [i] are closed. *)
Definition closed_to (i fd : Z) (s : sys) : Prop := exists p, znth (y_proc s) i = Some p /\ nonnulls (take (Z.to_nat fd) (p_ofile p)) = [].

Lemma put_null_idle i fd : tri idle_ok (put_ofile i fd null) (fun _ => idle_ok).
Proof.
  intros s a s' Hi (p & m & ps & Hp & Hm & Hz & ->)%put_ofile_inv. eapply idle_ok_set; [done|done|]. intros Hd. destruct (znth_Forall _ _ _ _ Hi Hp Hd) as [B1 B2].
  split; [|done]. cbn [p_ofile set_ofile]. destruct (zset_is_Some _ _ _ _ Hm) as [o Ho]. pose proof (nonnulls_perm _ _ (zset_perm _ _ _ _ _ Ho Hm)) as H.
  change (o :: m) with ([o] ++ m) in H. change (null :: p_ofile p) with ([null] ++ p_ofile p) in H. rewrite !nonnulls_app, B1, nonnulls_null in H.
  symmetry in H. apply Permutation_nil in H. by apply app_eq_nil in H as [_ ->].
Qed.
Lemma put_null_closed i fd s a s' : 0 <= fd -> put_ofile i fd null s = Ret a s' -> closed_to i fd s -> closed_to i (fd + 1) s'.
Proof.
  intros Hfd (p & m & ps & Hp & Hm & Hz & ->)%put_ofile_inv (q & Hq & Hc). rewrite Hp in Hq. injection Hq as <-. exists (set_ofile m p).
  split; [cbn; by eapply znth_zset_eq|]. cbn [p_ofile set_ofile]. pose proof (znth_zset_eq _ _ _ _ Hm) as Hn. unfold zset in Hm. destruct (_ && _); [|done]. injection Hm as <-.
  unfold znth in Hn. rewrite (proj2 (Z.leb_le 0 fd) Hfd) in Hn. rewrite Z2Nat.inj_add, Nat.add_1_r by lia. rewrite (take_S_r _ _ _ Hn), nonnulls_app, nonnulls_null, app_nil_r.
  by rewrite take_insert_ge by lia.
Qed.
Lemma close_files_ok n i : forall fd, 0 <= fd -> tri (fun s => ok s /\ idle_ok s /\ closed_to i fd s) (close_files n i fd)
  (fun _ s => ok s /\ idle_ok s /\ closed_to i (fd + Z.of_nat n) s).
Proof.
  induction n as [|n IH]; intros fd Hfd; cbn [close_files]; [apply tri_ret; by rewrite Z.add_0_r|].
  intros s a s' (C & Hi & Hc) (p & s1 & (Hp & ->)%getp_inv & E)%bind_inv. destruct (znth (p_ofile p) fd) as [f|] eqn:Ef; [|done]. apply bind_inv in E as ([] & s2 & E2 & E).
  replace (fd + Z.of_nat (S n)) with (fd + 1 + Z.of_nat n) by lia. eapply IH; [lia| |exact E]. destruct (Z.eqb_spec f null) as [->|Hn]; cbn [negb when] in E2.
  - injection E2 as <-. split_and!; [done|done|]. destruct Hc as (q & Hq & Hc). rewrite Hp in Hq. injection Hq as <-. exists p. split; [done|].
    unfold znth in Ef. rewrite (proj2 (Z.leb_le 0 fd) Hfd) in Ef. rewrite Z2Nat.inj_add, Nat.add_1_r by lia. by rewrite (take_S_r _ _ _ Ef), nonnulls_app, Hc.
  - apply bind_inv in E2 as ([] & s3 & E3 & E2). pose proof (procs_fileclose _ _ _ _ E3) as P3.
    assert (at_fd i fd f s) as Hat by (by exists p). pose proof (at_fd_in _ _ _ _ Hat Hn) as Hin. destruct (elem_perm _ _ Hin) as [l' Hl].
    assert (counted G l' (fds s) [] s3) as C3 by (eapply (fileclose_tri f l' (fds s) []); [cbn; lia|by eapply counted_perm; [exact Hl| | |exact C]|exact E3]).
    destruct (put_ofile_tri i fd f null l' (fds s) l' [] ltac:(by rewrite nonnulls_null, nonnulls_one) _ _ _ (conj C3 (at_fd_procs _ _ _ _ _ P3 Hat)) E2) as [C4 _].
    split_and!; [by eapply ok_intro|eapply put_null_idle; [|exact E2]; by eapply idle_ok_inert; [apply procs_inert|]|].
    eapply put_null_closed; [done|exact E2|]. destruct Hc as (q & Hq & Hc). exists q. by rewrite (proj1 P3).
Qed.
Lemma closed_bare i s : procs_ok s -> closed_to i 16 s -> exists p, znth (y_proc s) i = Some p /\ nonnulls (p_ofile p) = [].
Proof.
  intros [_ L] (p & Hp & Hc). exists p. split; [done|]. by rewrite take_ge in Hc by (rewrite (znth_Forall _ _ _ _ L Hp); lia).
Qed.
Lemma drop_cwd_ok i : tri (fun s => ok s /\ idle_ok s /\ closed_to i 16 s) (drop_cwd i) (fun _ s => ok s /\ idle_ok s /\ bare_at i s).
Proof.
  intros s a s' (C & Hi & Hc) E. assert (ok s') as C' by (eapply ok_intro, drop_cwd_tri; [cbn; lia|exact C|exact E]). split; [done|].
  destruct (closed_bare _ _ (ct_procs _ _ _ _ C) Hc) as (p & Hp & Hb). apply bind_inv in E as ([] & s1 & E1 & (q & s2 & (Hq & ->)%getp_inv & E)%bind_inv).
  apply bind_inv in E as ([] & s2 & E2 & ([] & s3 & E3 & E)%bind_inv).
  assert (y_proc s3 = y_proc s) as P by (rewrite (proj1 (procs_end_op _ _ _ E3)), (proj1 (procs_iput_ptr _ _ _ _ E2)); apply (procs_begin_op _ _ _ E1)).
  apply modp_inv in E as (p' & ps & Hp' & Hz & ->). rewrite P, Hp in Hp'. injection Hp' as <-.
  assert (idle_ok s3) as Hi3 by (unfold idle_ok; by rewrite P). split.
  - eapply idle_ok_set; [done|done|]. by intros _.
  - eexists. split; [cbn; by eapply znth_zset_eq|]. done.
Qed.

(** The process has no files left. *)
Definition done_with (i : Z) (s : sys) : Prop := ok s /\ idle_ok s /\ bare_at i s.
Lemma done_ok i s : done_with i s -> ok s /\ idle_ok s.
Proof. by intros (? & ? & _). Qed.
Lemma tri_done {A} i (c : M sys A) : pres same c -> pres inert c -> tri (done_with i) c (fun _ => done_with i).
Proof.
  intros Hs Hi s a s' (H1 & H2 & H3) E. pose proof (Hs _ _ _ E) as S. pose proof (Hi _ _ _ E) as I.
  split_and!; [eapply ok_intro, counted_same; [exact S|exact H1]|by eapply idle_ok_inert|by eapply bare_at_inert].
Qed.
Lemma quit_ok i : tri (fun s => ok s /\ idle_ok s) (close_files (Z.to_nat NOFILE) i 0 ;;; drop_cwd i) (fun _ => done_with i).
Proof.
  intros s a s' [C Hi] E. apply bind_inv in E as ([] & s1 & E1 & E). eapply drop_cwd_ok; [|exact E]. eapply (close_files_ok (Z.to_nat NOFILE) i 0); [lia| |exact E1].
  split_and!; [done|done|]. assert (exists p, znth (y_proc s) i = Some p) as [p Hp]; [|by exists p].
  change (Z.to_nat NOFILE) with 16%nat in E1. cbn [close_files] in E1. apply bind_inv in E1 as (p & ? & (Hp & _)%getp_inv & _). by exists p.
Qed.
Lemma zombie_ok i status : tri (done_with i) (modp i (fun q => set_pstate ZOMBIE (set_pxstate status q))) (fun _ => done_with i).
Proof.
  intros s a s' (C & Hi & p & Hp & Hb) E. split_and!.
  - eapply ok_intro, counted_same; [|exact C]. revert E. apply same_modp; reflexivity.
  - apply modp_inv in E as (q & ps & Hq & Hz & ->). rewrite Hp in Hq. injection Hq as <-. eapply idle_ok_set; [done|done|]. by intros _.
  - apply modp_inv in E as (q & ps & Hq & Hz & ->). rewrite Hp in Hq. injection Hq as <-. eexists. split; [cbn; by eapply znth_zset_eq|done].
Qed.
Lemma same_wakeup c : pres same (Sys.wakeup c).
Proof. apply same_inlk. Qed.
Hint Resolve same_wakeup : pres.
Lemma quit_bind {A} i (k : M sys A) Q : tri (done_with i) k Q -> tri (fun s => ok s /\ idle_ok s) (close_files (Z.to_nat NOFILE) i 0 ;;; drop_cwd i ;;; k) Q.
Proof.
  intros Hk s a s' H ([] & s1 & E1 & ([] & s2 & E2 & E)%bind_inv)%bind_inv. eapply Hk; [|exact E]. eapply (quit_ok i); [exact H|]. by erewrite bind_Ret.
Qed.
Ltac td := eapply tri_bind; [apply tri_done; solve [pres]|intros ?; cbv beta].

Lemma reparent_pres i : pres same (reparent i) /\ pres inert (reparent i).
Proof. unfold reparent. generalize (Z.to_nat Sys.NPROC) 0. intros n. induction n as [|n IH]; intros j; cbn [reparent_loop]; [split; pres|]. destruct (IH (j + 1)). split; pres. Qed.
Lemma exit_self_ok status : tri (fun s => ok s /\ idle_ok s) (exit_self status) (fun _ s => ok s /\ idle_ok s).
Proof.
  intros s a s' H E. unfold exit_self in E. rewrite bind_gets in E. set (i := y_me s) in E. rewrite bind_gets in E. destruct (_ =? _); [done|].
  match type of E with ?c s = _ => assert (tri (fun s => ok s /\ idle_ok s) c (fun _ => done_with i)) as T end; [|exact (done_ok _ _ (T _ _ _ H E))].
  clearbody i. clear. destruct (reparent_pres i). apply quit_bind. do 5 td. eapply tri_bind; [apply zombie_ok|intros ?; cbv beta]. apply tri_done; pres.
Qed.
Lemma exit_infants_ok l status : tri (fun s => ok s /\ idle_ok s) (exit_infants l status) (fun _ s => ok s /\ idle_ok s).
Proof.
  induction l as [|i l IH]; cbn [exit_infants]; [by apply tri_ret|]. eapply tri_bind; [|intros ?; apply IH]. apply tri_when; intros _; [|done].
  apply (tri_post _ _ (fun _ => done_with i)); [apply quit_bind|intros ? s; apply done_ok]. do 2 td. eapply tri_bind; [apply zombie_ok|intros ?; cbv beta]. td. apply tri_done; pres.
Qed.
Lemma tri_still {A} (c : M sys A) : pres same c -> pres inert c -> tri (fun s => ok s /\ idle_ok s) c (fun _ s => ok s /\ idle_ok s).
Proof.
  intros Hs Hi s a s' [H1 H2] E. split; [eapply ok_intro, counted_same; [by eapply Hs|exact H1]|eapply idle_ok_inert; [by eapply Hi|done]].
Qed.
Lemma exit_ok status : tri (fun s => ok s /\ idle_ok s) (Proc.exit status) (fun _ s => ok s /\ idle_ok s).
Proof.
  unfold Proc.exit. eapply tri_bind; [apply tri_still; pres|]. intros p. cbv beta. eapply tri_bind; [|intros ?; apply exit_self_ok]. apply tri_when; intros _; [|done].
  eapply tri_bind; [apply tri_still; pres|]. intros par. apply exit_infants_ok.
Qed.
End exit.

(** ** exec and sockets *)

Lemma looks_loadseg pt va ip off sz : pres looks (loadseg pt va ip off sz).
Proof. assert (forall fuel i, pres looks (loadseg_loop fuel pt va ip off sz i)) as H by (induction fuel; intros; cbn [loadseg_loop]; pres). unfold loadseg. pres. Qed.
#[export] Hint Resolve looks_loadseg : pres.
Lemma looks_load_loop n pt ip off sz : pres looks (load_loop n pt ip off sz).
Proof. revert off sz. induction n; intros off sz; cbn [load_loop]; pres. Qed.
Lemma looks_exec_args pt argv sz : pres looks (exec_args pt argv sz).
Proof.
  assert (forall fuel sb c sp, pres looks (push_args fuel pt argv sb c sp)) as H by (induction fuel; intros; cbn [push_args]; unfold k_strlen; pres).
  unfold exec_args. pres.
Qed.
#[export] Hint Resolve looks_load_loop looks_exec_args : pres.
Lemma looks_exec_finish path argv pt e sz : pres looks (exec_finish path argv pt e sz).
Proof. unfold exec_finish, exec_bad. pres. Qed.

Lemma exec_bad_ok pt sz ip l : tri (counted False l l [ip]) (exec_bad pt sz (Some ip)) (fun _ => ok (G := False)).
Proof.
  unfold exec_bad. eapply tri_bind; [apply tri_looks; pres|]. intros ?; cbv beta. eapply (tri_bind _ _ (fun _ => counted False l l [])).
  - tc counts_iunlockput_hd. apply tri_same'. pres.
  - intros ?. apply tri_ret, ok_intro.
Qed.
Ltac tm := eapply tri_bind; [apply tri_looks; solve [pres]|]; intros ?; cbv beta.
Lemma exec_ok path argv : tri (ok (G := False)) (exec path argv) (fun _ => ok (G := False)).
Proof.
  apply tri_ok. intros l Hl. unfold exec. ts. tc counts_namei. apply tri_opt; [by te|intros Hip]. do 3 ts. apply tri_if; intros _; [apply exec_bad_ok|]. ts.
  apply tri_if; intros _; [apply exec_bad_ok|]. do 3 tm. apply tri_if; intros _; [apply exec_bad_ok|]. eapply tri_bind; [apply tri_looks; solve [pres]|].
  intros [b sz]. cbv beta iota. apply tri_if; intros _; [apply exec_bad_ok|]. tc counts_iunlockput_hd. ts. eapply tri_pre; [|apply ok_intro].
  apply tri_ok_looks, looks_exec_finish.
Qed.
Lemma looks_fetchaddr a b : pres looks (fetchaddr a b).
Proof. unfold fetchaddr. pres. Qed.
#[export] Hint Resolve looks_fetchaddr : pres.
Lemma sys_exec_ok : tri (ok (G := False)) sys_exec (fun _ => ok (G := False)).
Proof.
  assert (forall fuel a u v j, pres looks (exec_fetch fuel a u v j)) as H1 by (induction fuel; intros; cbn [exec_fetch]; pres).
  assert (forall n a j, pres looks (free_args n a j)) as H2 by (induction n; intros; cbn [free_args]; pres).
  unfold sys_exec. do 5 tl. apply tri_if; intros _; [by apply tri_ret|]. do 2 tl. eapply (tri_bind _ _ (fun _ => ok (G := False))).
  - apply tri_if; intros _; [apply exec_ok|by apply tri_ret].
  - intros r. tl. by apply tri_ret.
Qed.

(** A file in the making becomes a socket's. *)
Lemma unused_modf hx l y f g : (forall k, f_ref (g k) = f_ref k) -> (forall k, f_type (g k) = FD_SOCKET) -> f ∈ hx ->
  tri (fun s => counted False hx l y s /\ unused f s) (modf f g) (fun _ => counted False hx l y).
Proof.
  intros G1 G2 Hf s a s' [C (k & Hk & Ht)] (k' & fl & Hk' & Hz & ->)%modf_inv. rewrite Hk in Hk'. injection Hk' as <-.
  eapply counted_file; [done|done|done| | | |apply C].
  - unfold pview. by rewrite G2, Ht.
  - unfold f_irefs. by rewrite G2, Ht.
  - pose proof (ct_refs _ _ _ _ C) as R. eapply refs_keep; [done|done|done|done|]. intros H0. pose proof (refs_to_pos _ _ Hf). rewrite <- (ro_ref _ _ R f k Hk) in *.
    rewrite G1 in H0. lia.
Qed.
Lemma sys_socket_ok : tri (ok (G := False)) sys_socket (fun _ => ok (G := False)).
Proof.
  unfold sys_socket, sock_kfree. do 4 tl. apply tri_if; intros _; [apply tri_ok_looks; pres|]. do 3 tl. apply tri_ok. intros l Hl.
  eapply tri_bind; [apply filealloc_tri; lia|]. intros f. cbv beta.
  destruct (Z.eqb_spec f null) as [_|Hf]; [eapply tri_pre; [|apply ok_intro]; apply tri_ok_looks; pres|].
  intros s r s' (C & Hin & Hu) (fd & s1 & E1 & E)%bind_inv. pose proof (fdalloc_file _ _ _ _ E1) as Hy.
  destruct (fdalloc_tri f _ _ _ (y_me s) 0 null Hf _ _ _ (conj C (conj eq_refl (or_introl eq_refl))) E1) as (H & _). destruct (fd <? 0).
  - apply bind_inv in E as ([] & s2 & E2 & E). assert (ok (G := False) s2) as C2 by (eapply ok_intro, fileclose_tri; [cbn; lia|exact H|exact E2]).
    revert E. apply (tri_ok_looks (_ ;;; ret (-1))); [pres|exact C2].
  - destruct H as [C1 _]. assert (unused f s1) as Hu1 by (unfold unused; by rewrite Hy). rewrite modf_seq in E. apply bind_inv in E as ([] & s2 & E2 & E).
    assert (ok (G := False) s2) as C2.
    { eapply ok_intro, unused_modf; [| | |split; [exact C1|exact Hu1]|exact E2]; [done|done|apply list_elem_of_here]. }
    revert E. apply (tri_ok_looks (_ ;;; ret fd)); [pres|exact C2].
Qed.

(** ** Every system call *)

Lemma ok_data {G : Prop} s s' : data s s' -> ok (G := G) s -> ok (G := G) s'.
Proof. intros H C. eapply ok_intro, counted_data; [exact H|exact C]. Qed.

Lemma looks_wait addr : pres looks (Proc.wait addr).
Proof.
  assert (forall n pp i hk, pres looks (wait_scan n pp i addr hk)) as H.
  { induction n; intros; cbn [wait_scan]; unfold copyout_xstate; pres. destruct (decide _); pres. }
  unfold Proc.wait, killed. pres. match goal with |- pres _ (match ?r with _ => _ end) => destruct r end; pres.
Qed.
Lemma same_kill pid : pres same (Proc.kill pid).
Proof. unfold Proc.kill. generalize (Z.to_nat Sys.NPROC) 0. intros n. induction n; intros j; cbn [kill_scan]; pres. Qed.
Lemma looks_growproc n : pres looks (growproc n).
Proof.
  assert (forall l a o n m x, pres looks (map_infants l a o n m x)) as H0 by (induction l; intros; cbn [map_infants]; pres).
  assert (forall fuel t p a o n x, pres looks (threaded_alloc_loop fuel t p a o n x)) as H1 by (induction fuel; intros; cbn [threaded_alloc_loop]; pres).
  assert (forall l o n k, pres looks (unmap_infants l o n k)) as H2 by (induction l; intros; cbn [unmap_infants]; pres).
  unfold growproc, uvmthreaded_alloc, uvmthreaded_dealloc. pres.
Qed.
Lemma same_killed i : pres same (killed i).
Proof. unfold killed. pres. Qed.
Lemma looks_join t a : pres looks (join_thread t a).
Proof.
  assert (forall l k, pres looks (find_infant l k t)) as H0 by (induction l; intros; cbn [find_infant]; pres).
  assert (forall j k c, pres looks (join_loop j k c t a)) as H by (intros; unfold join_loop, copyout_xstate, killed; pres; destruct (decide _); pres).
  unfold join_thread. pres.
Qed.
Lemma looks_sock_file fd : pres looks (sock_file fd).
Proof. unfold sock_file. pres. Qed.
#[export] Hint Resolve looks_wait same_kill looks_growproc same_killed looks_join looks_sock_file : pres.
Lemma same_sleep {A} c l : pres same (Sys.sleep (A := A) c l).
Proof. apply same_inlk. Qed.
#[export] Hint Resolve same_sleep : pres.

(** The calls that use no memory but what they allocate themselves.  They keep
    the pipes too ([G] true): a struct pipe exists while a struct file is one of
    its ends. *)
Definition file_call (n : Z) : bool := bool_decide (n ∈ [4; 5; 6; 8; 9; 10; 11; 13; 14; 15; 16; 17; 18; 19; 20; 21]).

Lemma file_call_ok {G : Prop} n h : syscalls n = Some h -> file_call n = true -> tri (ok (G := G)) h (fun _ => ok (G := G)).
Proof.
  intros Hn Hf. apply bool_decide_eq_true in Hf. rewrite !elem_of_cons, elem_of_nil in Hf.
  assert (forall c : M sys Z, pres data c -> tri (ok (G := G)) c (fun _ => ok (G := G))) as Hd by (intros c Hc s a s' C E; eapply ok_data; [by eapply Hc|done]).
  destruct_or! Hf; try done; subst n; injection Hn as <-.
  - apply sys_pipe_ok.
  - apply Hd, data_sys_read.
  - apply Hd. unfold sys_kill. pres.
  - apply Hd, data_sys_fstat.
  - apply sys_chdir_ok.
  - apply sys_dup_ok.
  - apply Hd. unfold sys_getpid. pres.
  - apply Hd. unfold sys_sleep, sleep_loop. pres.
  - apply Hd. unfold sys_uptime. pres.
  - apply sys_open_ok.
  - apply Hd, data_sys_write.
  - apply sys_mknod_ok.
  - apply sys_unlink_ok.
  - apply sys_link_ok.
  - apply sys_mkdir_ok.
  - apply sys_close_ok.
Qed.

Lemma pipe_has_ends s pi : ok (G := True) s ->
  is_Some (y_pipes s !! pi) <-> exists i f, znth (y_file s) i = Some f /\ f_type f = FD_PIPE /\ f_pipe f = pi.
Proof.
  intros [_ _ _ C4 _ _ _]. specialize (C4 I). split.
  - intros [p Hpi]. destruct (pk_some _ _ C4 pi p Hpi) as [b Hb]. destruct (pk_open _ _ C4 pi p b Hpi Hb) as [i Hi]. unfold ends in Hi.
    destruct (znth (y_file s) i) as [f|] eqn:Ef; [|done]. exists i, f. unfold pview in Hi. destruct (decide (f_type f = FD_PIPE)); [|done]. by injection Hi.
  - intros (i & f & Hi & Ht & <-). destruct (pk_live _ _ C4 i (f_pipe f) (f_writable f =? 0)) as (p & Hpi & _); [|by exists p].
    unfold ends, pview. by rewrite Hi, decide_True.
Qed.

Lemma syscalls_cases (P : Z -> M sys Z -> Prop) n h : syscalls n = Some h ->
  (forall n, file_call n = true -> forall h, syscalls n = Some h -> P n h) ->
  P 1 sys_fork -> P 2 sys_exit -> P 3 sys_wait -> P 7 sys_exec -> P 12 sys_sbrk -> P 22 sys_spoon -> P 23 sys_create_thread -> P 24 sys_join_thread ->
  P 25 sys_thread_exit -> P 26 sys_socket -> P 27 sys_bind -> P 28 sys_listen -> P 29 sys_accept -> P 30 sys_connect -> P 31 sys_send -> P 32 sys_recv ->
  P 33 sys_sendto -> P 34 sys_recvfrom -> P n h.
Proof.
  intros Hn Hf. destruct (file_call n) eqn:E; [intros; by apply Hf|]. intros. unfold syscalls in Hn.
  repeat (case_match; try done; try (by injection Hn as <-)).
Qed.

Definition inv (s : sys) : Prop := ok (G := False) s /\ idle_ok s.

Lemma near_idle {A} (c : M sys A) : (forall i, pres (near i) c) -> tri (fun s => idle_ok s /\ busy (y_me s) s) c (fun _ => idle_ok).
Proof. intros Hc s a s' [Hi Hb] E. by apply (proj2 (Hc (y_me s) _ _ _ E eq_refl) Hb Hi). Qed.
Lemma never_tri {A B} P (c : M sys A) (Q : B -> sys -> Prop) : tri P (c ;;; never) Q.
Proof. intros s b s' _ (a & s1 & _ & E)%bind_inv. done. Qed.
Lemma procs_idle {A} (c : M sys A) : pres procs c -> tri (fun s => idle_ok s /\ busy (y_me s) s) c (fun _ => idle_ok).
Proof. intros H. apply near_idle. intros i. by apply (pres_weaken procs); [apply procs_near|]. Qed.
Lemma args_idle {A B} (c : M sys A) (k : A -> M sys B) : pres procs c -> (forall a, tri idle_ok (k a) (fun _ => idle_ok)) ->
  tri (fun s => idle_ok s /\ busy (y_me s) s) (bind c k) (fun _ => idle_ok).
Proof.
  intros Hc Hk s b s' [Hi _] (a & s1 & E1 & E)%bind_inv. eapply Hk; [|exact E]. eapply idle_ok_inert; [|exact Hi]. by eapply procs_inert, Hc.
Qed.

Lemma handler_idle n h : syscalls n = Some h -> tri (fun s => idle_ok s /\ busy (y_me s) s) h (fun _ => idle_ok).
Proof.
  intros Hn. apply (syscalls_cases (fun _ h => tri (fun s => idle_ok s /\ busy (y_me s) s) h (fun _ => idle_ok)) n h Hn).
  - clear. intros n Hf h Hn. apply bool_decide_eq_true in Hf. rewrite !elem_of_cons, elem_of_nil in Hf. destruct_or! Hf; try done; subst n; injection Hn as <-.
    all: first [solve [apply near_idle; eauto 2 using near_sys_pipe, near_sys_dup, near_sys_close, near_sys_open, near_sys_chdir]
      |solve [apply procs_idle; eauto 2 using procs_sys_read, procs_sys_write, procs_sys_fstat, procs_sys_mknod, procs_sys_unlink, procs_sys_link, procs_sys_mkdir, procs_sys_sleep]
      |idtac].
    + apply near_idle. intros i. unfold sys_kill. apply pres_bind; [apply _|pres|intros ?; apply near_kill].
    + apply procs_idle. unfold sys_getpid. pres.
    + apply procs_idle. unfold sys_uptime. pres.
  - eapply tri_pre; [apply fork_idle|by intros s [? _]].
  - unfold sys_exit. eapply (tri_bind _ _ (fun _ _ => True)); [done|]. intros ?. apply never_tri.
  - unfold sys_wait. apply args_idle; [pres|apply wait_idle].
  - apply near_idle, near_sys_exec.
  - apply near_idle, near_sys_sbrk.
  - apply procs_idle. unfold sys_spoon, spoon. pres.
  - unfold sys_create_thread. apply args_idle; [pres|]. intros ?. do 3 tidle. apply create_thread_idle.
  - apply near_idle, near_sys_join_thread.
  - unfold sys_thread_exit. eapply (tri_bind _ _ (fun _ _ => True)); [done|]. intros ?. apply never_tri.
  - apply near_idle, near_sys_socket.
  - apply procs_idle, procs_sys_bind.
  - apply procs_idle, procs_sys_listen.
  - apply procs_idle, procs_sys_accept.
  - apply procs_idle, procs_sys_connect.
  - apply procs_idle, procs_sys_send.
  - apply procs_idle, procs_sys_recv.
  - apply procs_idle, procs_sys_sendto.
  - apply procs_idle, procs_sys_recvfrom.
Qed.

Lemma handler_counts n h : syscalls n = Some h -> tri inv h (fun _ => ok (G := False)).
Proof.
  assert (forall c : M sys Z, tri (ok (G := False)) c (fun _ => ok (G := False)) -> tri inv c (fun _ => ok (G := False))) as H0
    by (intros c H; eapply tri_pre; [exact H|]; by intros s [C _]).
  assert (forall c : M sys Z, pres looks c -> tri inv c (fun _ => ok (G := False))) as Hl by (intros c H; apply H0; by apply tri_ok_looks).
  intros Hn. apply (syscalls_cases (fun _ h => tri inv h (fun _ => ok (G := False))) n h Hn).
  - clear Hn n h. intros n Hf h Hn. by eapply H0, file_call_ok.
  - apply fork_ok.
  - unfold sys_exit. eapply (tri_bind _ _ (fun _ _ => True)); [done|]. intros ?. apply never_tri.
  - apply Hl. unfold sys_wait. pres.
  - apply H0, sys_exec_ok.
  - apply Hl. unfold sys_sbrk. pres.
  - apply Hl. unfold sys_spoon, spoon. pres.
  - unfold sys_create_thread. do 4 (eapply tri_bind; [apply tri_still; pres|intros ?; cbv beta]). apply create_thread_ok.
  - apply Hl. unfold sys_join_thread. pres.
  - unfold sys_thread_exit. eapply (tri_bind _ _ (fun _ _ => True)); [done|]. intros ?. apply never_tri.
  - apply H0, sys_socket_ok.
  - apply Hl. unfold sys_bind. pres.
  - apply Hl. unfold sys_listen. pres.
  - apply Hl. unfold sys_accept. pres.
  - apply Hl. unfold sys_connect. pres.
  - apply Hl. unfold sys_send. pres.
  - apply Hl. unfold sys_recv. pres.
  - apply Hl. unfold sys_sendto. pres.
  - apply Hl. unfold sys_recvfrom. pres.
Qed.

(** ** Any sequence of calls *)

(** One step: a system call of the process that runs, taken from its start to its
    return; its end; another process gets the processor; or anything else happens
    that leaves files, pipes' ends, descriptors, directories and the states of the
    processes alone. *)
Inductive sstep : sys -> sys -> Prop :=
| ss_call s s' : busy (y_me s) s -> syscall s = Ret tt s' -> sstep s s'
| ss_exit s s' status : Proc.exit status s = Ret tt s' -> sstep s s'
| ss_thread_exit s s' status : thread_exit status s = Ret tt s' -> sstep s s'
| ss_switch s i : sstep s (set_yme i s)
| ss_other s s' : looks s s' -> inert s s' -> sstep s s'.

Lemma inv_still {A} (c : M sys A) s a s' : pres same c -> pres inert c -> c s = Ret a s' -> inv s -> inv s'.
Proof. intros Hs Hi E H. by apply (tri_still c Hs Hi _ _ _ H E). Qed.
Lemma syscall_inv s s' : busy (y_me s) s -> inv s -> syscall s = Ret tt s' -> inv s'.
Proof.
  intros Hb Hi (a7 & s1 & E1 & E)%bind_inv. pose proof (procs_getreg _ _ _ _ E1) as P1.
  pose proof (inv_still _ _ _ _ (same_getreg _) ltac:(pres) E1 Hi) as I1. assert (busy (y_me s1) s1) as Hb1 by (rewrite (proj2 P1); by apply (busy_inert _ s); [apply procs_inert|]).
  cbv zeta in E. destruct (syscalls (s32 a7)) as [h|] eqn:Eh.
  - apply bind_inv in E as (r & s2 & E2 & E). pose proof (handler_idle _ _ Eh _ _ _ (conj (proj2 I1) Hb1) E2) as Hi2. pose proof (handler_counts _ _ Eh _ _ _ I1 E2) as C2.
    pose proof (same_setreg _ _ _ _ _ E) as S. pose proof (procs_setreg _ _ _ _ _ E) as P. split; [|eapply idle_ok_inert; [by apply procs_inert|done]].
    eapply ok_intro, counted_same; [exact S|exact C2].
  - match type of E with ?c s1 = _ => assert (pres data c) as D by pres; assert (pres procs c) as P by pres end.
    split; [eapply ok_data; [by eapply D|apply I1]|eapply idle_ok_inert; [by eapply procs_inert, P|apply I1]].
Qed.

Lemma sstep_inv s s' : sstep s s' -> inv s -> inv s'.
Proof.
  intros H Hi. destruct H as [s s' Hb E|s s' st E|s s' st E|s i|s s' Hl Ht].
  - by eapply syscall_inv.
  - by apply (exit_ok st _ _ _ Hi E).
  - by apply (exit_self_ok (s32 st) _ _ _ Hi E).
  - destruct Hi as [[C1 C2 C3 C4 C5 C6 C7] Hi]. by split; [split|].
  - destruct Hi as [C Hi]. split; [|by eapply idle_ok_inert]. by eapply ok_looks.
Qed.

(** ** From the first process on *)

Lemma modp_seq {A} i g h (k : unit -> M sys A) s : bind (modp i (fun p => h (g p))) k s = bind (modp i g) (fun _ => bind (modp i h) k) s.
Proof.
  unfold modp, getp, setp, bind. destruct (znth (y_proc s) i) as [x|]; [|done]. destruct (zset (y_proc s) i (g x)) as [l|] eqn:El.
  - cbn. rewrite (znth_zset_eq _ _ _ _ El). destruct (zset l i (h (g x))) as [l'|] eqn:El'.
    + change (y_proc (set_yproc l s)) with l. by rewrite El', (zset_zset _ _ _ _ _ _ El El').
    + exfalso. apply zset_length in El as Hl. unfold zset in *. rewrite Hl in El'. by destruct (_ && _).
  - cbn. unfold zset in *. by destruct (_ && _).
Qed.

(** The tables as the kernel finds them: no process, no file, no inode. *)
Record fresh (s : sys) : Prop := {
  fr_procs : length (y_proc s) = 64%nat /\ Forall (fun p => p_state p = UNUSED /\ p_ofile p = replicate 16 null /\ p_cwd p = null) (y_proc s);
  fr_files : length (y_file s) = 100%nat /\ Forall (fun f => f_ref f = 0 /\ f_type f = FD_NONE) (y_file s);
  fr_inodes : forall j, 0 <= j < NINODE -> i_ref (fs_itable (y_fs s) j) = 0
}.

Lemma nonnulls_cons_null l : nonnulls (null :: l) = nonnulls l.
Proof. done. Qed.
Lemma nonnulls_replicate n : nonnulls (replicate n null) = [].
Proof. induction n; cbn [replicate]; [done|]. by rewrite nonnulls_cons_null. Qed.
Lemma concat_nil {A B} (f : A -> list B) l : Forall (fun x => f x = []) l -> concat (map f l) = [].
Proof. induction 1 as [|x l Hx _ IH]; cbn; [done|]. by rewrite Hx, IH. Qed.
Lemma nonnulls_concat l : nonnulls (concat l) = concat (map nonnulls l).
Proof. induction l; cbn [concat map]; [done|]. by rewrite nonnulls_app, IHl. Qed.
Lemma fresh_tables_inv s : fresh s -> inv s.
Proof.
  intros [[F0 F1] [F2 F3] F5]. assert (fds s = []) as Hd.
  { unfold fds. rewrite nonnulls_concat, map_map. apply concat_nil. eapply Forall_impl; [exact F1|]. intros p (_ & -> & _). apply nonnulls_replicate. }
  assert (irefs s = []) as Hi.
  { unfold irefs. rewrite concat_nil; [|eapply Forall_impl; [exact F3|]; intros f [_ Ht]; unfold f_irefs; by rewrite Ht]. rewrite app_nil_r.
    generalize F1. generalize (y_proc s). intros l. induction 1 as [|p l (_ & _ & Hc) _ IH]; [done|]. cbn [map]. by rewrite Hc, nonnulls_cons_null. }
  split; [|eapply Forall_impl; [exact F1|]; intros p (_ & Ho & Hc) _; split; [rewrite Ho; apply nonnulls_replicate|done]].
  unfold ok. rewrite Hd. split.
  - split; [done|]. eapply Forall_impl; [exact F1|]. by intros p (_ & -> & _).
  - split; [done|done|intros i f Hf; by destruct (znth_Forall _ _ _ _ F3 Hf)|intros i f Hf _; by destruct (znth_Forall _ _ _ _ F3 Hf)].
  - cbn. lia.
  - done.
  - done.
  - by rewrite Hd.
  - rewrite Hi. split; [done|intros j Hj; by rewrite F5|]. intros j k Hj Hk H. rewrite F5 in H by done. lia.
Qed.

Lemma tri_newborn {A} np (c : M sys A) : pres looks c -> pres inert c ->
  tri (fun s => ok (G := False) s /\ newborn np s) c (fun _ s => ok (G := False) s /\ newborn np s).
Proof. intros Hl Hi s a s' [C N] E. split; [eapply ok_looks; [by eapply Hl|done]|eapply newborn_inert; [by eapply Hi|done]]. Qed.
Lemma userinit_inv code root s s' : inv s -> userinit code root s = Ret tt s' -> inv s'.
Proof.
  intros [C Hi] (np & s1 & E1 & E)%bind_inv. pose proof (looks_allocproc _ _ _ E1) as L1. pose proof (allocproc_idle _ _ _ Hi E1) as N. cbv beta in N.
  pose proof (ok_looks _ _ L1 C) as C1. apply bind_inv in E as ([] & s2 & E2 & E). injection E2 as <-.
  set (t := set_yinit np (y_nextpid s1) s1) in *. assert (ok (G := False) t) as Ct by (by apply (ok_looks s1)).
  destruct (Z.eqb_spec np null) as [->|Hn]; [apply bind_inv in E as (p & ? & (Hq & _)%getp_inv & _); unfold znth in Hq; done|].
  assert (newborn np t) as Nt by (by apply (newborn_inert np s1)). clearbody t. clear C C1 N L1 E1 s1.
  assert (tri (fun s => ok (G := False) s /\ newborn np s) (p <- getp np ;;
    inphys (uvmfirst (p_pagetable p) code (Z.of_nat (length initcode))) ;;; modp np (set_psz PGSIZE) ;;;
    inphys (setmem (fun m => st64 m (p_trapframe p + tf_epc) 0)) ;;; inphys (setmem (fun m => st64 m (p_trapframe p + tf_sp) PGSIZE)) ;;;
    modp np (fun p => set_pname (name_cpy (p_name p) [105; 110; 105; 116; 99; 111; 100; 101; 0]) p) ;;;
    cwd <- infs (namei root) ;; modp np (fun p => set_pstate RUNNABLE (set_pcwd cwd p)) ;;; Sys.release (L_proc np))
    (fun _ s => ok (G := False) s /\ idle_ok s)) as T; [|exact (T _ _ _ (conj Ct Nt) E)].
  clear. do 6 (eapply tri_bind; [apply tri_newborn; solve [pres]|intros ?; cbv beta]).
  intros s r s' [C N] (cwd & s1 & E1 & E)%bind_inv. pose proof (procs_infs _ _ _ _ E1) as P1.
  pose proof (tri_counts (G := False) (fds s) (fds s) [] _ _ (counts_namei root [] ltac:(cbn; lia)) _ _ _ C E1) as C1. cbv beta in C1.
  apply (newborn_inert _ _ _ (procs_inert _ _ P1)) in N. destruct N as (N1 & N2 & (q & Hq & Hb1 & Hb2)). rewrite modp_seq in E. split.
  - apply bind_inv in E as ([] & s2 & E2 & E). assert (counted False (fds s) (fds s) [] s2) as C2.
    { unfold opt_ref in C1. destruct (Z.eqb_spec cwd null) as [->|Hc]; [|eapply (new_cwd np cwd); [exact Hc|split; [exact C1|by exists q]|exact E2]].
      eapply counted_same; [|exact C1]. apply modp_inv in E2 as (p & ps & Hp & Hz & ->). rewrite Hq in Hp. injection Hp as <-. split; try done; cbn; eapply map_zset_same; done. }
    revert E. match goal with |- ?c s2 = _ -> _ => intros E; apply (tri_ok_looks c ltac:(pres) _ _ _ (ok_intro _ _ C2) E) end.
  - revert E. match goal with |- ?c s1 = _ -> _ => intros E; assert (pres (nearp np) c) as H by pres; by apply (H _ _ _ E) end.
Qed.

Lemma reach_inv s s' : rtc sstep s s' -> inv s -> inv s'.
Proof. induction 1; [done|]. intros Hi. apply IHrtc. by eapply sstep_inv. Qed.

(** C5: Whatever system calls the processes make, one call run to its return after
    another, in whatever order and as often as they like, from the first process
    on: the reference count of a struct file is the number of descriptors of all
    processes that refer to it, and the count of an in-memory inode is the number
    of processes whose directory it is plus the number of open files that refer
    to it.  So a file that a descriptor refers to has a count of at least one, and
    filedup() and fileclose() do not panic on it; and no file or inode is released
    early or leaked.  [sstep] says what else happens between calls; nothing is
    asked of the calls themselves. *)
Theorem references_counted s0 code root s1 s : fresh s0 -> userinit code root s0 = Ret tt s1 -> rtc sstep s1 s ->
  (forall i f, znth (y_file s) i = Some f -> f_ref f = refs_to i (fds s)) /\
  (forall ip, 0 <= ip < NINODE -> i_ref (fs_itable (y_fs s) ip) = refs_to ip (irefs s)) /\
  (forall j fd i, at_fd j fd i s -> i <> null -> exists f, znth (y_file s) i = Some f /\ 1 <= f_ref f).
Proof.
  intros Hf Hu Hr. destruct (reach_inv _ _ Hr (userinit_inv _ _ _ _ (fresh_tables_inv _ Hf) Hu)) as [[C1 C2 C3 C4 C5 C6 C7] _]. split_and!.
  - apply (ro_ref _ _ C2).
  - apply (ti_ref _ _ C7).
  - intros j fd i Hat Hn. pose proof (at_fd_in _ _ _ _ Hat Hn) as Hin. pose proof (proj1 (Forall_forall _ _) (ro_range _ _ C2) i Hin) as Hi.
    destruct (znth_is_Some (y_file s) i) as [f Ef]; [rewrite (ro_len _ _ C2); exact Hi|]. exists f. split; [done|].
    rewrite (ro_ref _ _ C2 i f Ef). pose proof (refs_to_pos _ _ Hin). lia.
Qed.

(** *** A run *)

(** Sixteen free pages and the path / at 64. *)
Definition w_end : Z := 0x80200000.
Definition w_mem : mem := fun a => if a =? 64 then 47 else 0.
Definition w_phys : phys := mkPhys w_mem (Pool.mkPool (map (fun k => w_end + PGSIZE * k) (seqZ 0 16)) (fun _ => 0)) w_end.
Definition w_lk : lkst := mkLk [] (fun _ => mkSleeplock 0 0) 0 [].
Definition w_fs : fss :=
  mkFss (mkLst (mkBst (mkBcache (fun _ => mkBuf 0 0 0 0 (fun _ => 0)) (fun i => i) (fun i => i)) (fun _ _ => 0) [] w_lk) (mkLog 0 30 0 0 1 0 []))
    (fun _ => mkInode 0 0 0 0 0 0 0 0 0 []) (mkSb 0 0 0 0 0 0 0 0) w_phys 0 null (fun _ => 0) 0x80100000.
Definition w_proc : proc := mkProc UNUSED 0 0 0 0 null 0 0 0 0 (0, 0) (replicate 16 null) null (replicate 16 0) 0 (replicate 64 null).
Definition w_sys : sys :=
  mkSys w_fs idle_kernel (console0 []) ∅ (replicate 100 (mkFile FD_NONE 0 0 0 0 0 0 0 0)) (replicate 64 w_proc) null null 1 0 0 0x80007000 0x80002000 0.

Definition returned {A} (o : outcome sys A) : bool := match o with Ret _ _ => true | _ => false end.
Definition after {A} (c : M sys A) (s : sys) : sys := match c s with Ret _ s' => s' | _ => s end.
Lemma after_Ret (c : M sys unit) s : returned (c s) = true -> c s = Ret tt (after c s).
Proof. unfold after. by destruct (c s) as [[] ?| | | |]. Qed.

(** User code puts the number and the first argument of its next call into
    registers. *)
Definition ask (num a0 : Z) (s : sys) : sys :=
  match curproc s with
  | Some p => put_phys (mkPhys (st64 (st64 (ph_mem (phys_of s)) (p_trapframe p + tf_a 7) num) (p_trapframe p + tf_a 0) a0) (ph_pool (phys_of s)) (ph_end (phys_of s))) s
  | None => s
  end.

Definition w1 : sys := after (userinit 128 64) w_sys.
Local Notation w2 := (ask 4 256 (set_yme 0 w1)).
Definition w3 : sys := after syscall w2.
Local Notation w4 := (ask 10 0 w3).
Definition w5 : sys := after syscall w4.

Lemma w1_Ret : userinit 128 64 w_sys = Ret tt w1.
Proof. apply (after_Ret (userinit 128 64) w_sys). vm_compute. reflexivity. Qed.
Lemma w3_Ret : syscall w2 = Ret tt w3.
Proof. apply (after_Ret syscall w2). vm_compute. reflexivity. Qed.
Lemma w5_Ret : syscall w4 = Ret tt w5.
Proof. apply (after_Ret syscall w4). vm_compute. reflexivity. Qed.
Lemma w_fresh : fresh w_sys.
Proof.
  split.
  - split; [done|]. by apply Forall_replicate.
  - split; [done|]. by apply Forall_replicate.
  - done.
Qed.
(** User code does not touch the kernel's tables. *)
Lemma ask_step num a0 s : sstep s (ask num a0 s).
Proof. unfold ask. destruct (curproc s); apply ss_other; done. Qed.
Lemma busy_0 s : match znth (y_proc s) 0 with Some p => negb (idle p) | None => false end = true -> y_me s = 0 -> busy (y_me s) s.
Proof. intros H ->. unfold busy. destruct (znth (y_proc s) 0) as [p|]; [|done]. exists p. by rewrite negb_true_iff in H. Qed.
(** A call that user code asks for. *)
Lemma call_steps num a0 s s' : busy (y_me (ask num a0 s)) (ask num a0 s) -> syscall (ask num a0 s) = Ret tt s' -> rtc sstep s s'.
Proof. intros Hb E. eapply rtc_l; [apply ask_step|]. by apply rtc_once, ss_call. Qed.
Lemma w2_busy : busy (y_me w2) w2.
Proof. apply busy_0; vm_compute; reflexivity. Qed.
Lemma w4_busy : busy (y_me w4) w4.
Proof. apply busy_0; vm_compute; reflexivity. Qed.
Lemma w_run : rtc sstep w1 w5.
Proof.
  eapply rtc_l; [exact (ss_switch w1 0)|]. etrans; [exact (call_steps 4 256 (set_yme 0 w1) w3 w2_busy w3_Ret)|exact (call_steps 10 0 w3 w5 w4_busy w5_Ret)].
Qed.

(** What the descriptors and directories are then. *)
Lemma w5_refs : refs_to 0 (fds w5) = 2 /\ refs_to 1 (fds w5) = 1 /\ refs_to 0 (irefs w5) = 1 /\ length (y_file w5) = 100%nat.
Proof. split; [|split; [|split]]; vm_compute; reflexivity. Qed.

(** pipe() and dup() of the first process: two descriptors refer to file 0, one
    to file 1, and its directory is the root. *)
Lemma references_counted_witness :
  (exists f g, znth (y_file w5) 0 = Some f /\ znth (y_file w5) 1 = Some g /\ f_ref f = 2 /\ f_ref g = 1) /\ i_ref (fs_itable (y_fs w5) 0) = 1.
Proof.
  destruct (references_counted w_sys 128 64 w1 w5 w_fresh w1_Ret w_run) as (H1 & H2 & _). destruct w5_refs as (R0 & R1 & R2 & Hl).
  split; [|rewrite H2 by (unfold NINODE; lia); exact R2].
  destruct (znth_is_Some (y_file w5) 0) as [f Hf]; [rewrite Hl; lia|]. destruct (znth_is_Some (y_file w5) 1) as [g Hg]; [rewrite Hl; lia|].
  exists f, g. rewrite (H1 0 f Hf), (H1 1 g Hg). auto.
Defined.
